(* ===== verification/_CoqProject ===== *)
-Q . S2P
Prelude.v
GoStrings.v
Names.v
OrderedMap.v
VarStack.v
Template.v
TemplateSafety.v
Value.v
Runtime.v
Interp.v
InterpProps.v
Json.v
Compile.v
Codes.v
NestedMap.v
Hub.v
Presence.v
Node.v
Control.v
Connection.v
ConnectionProps.v
Ring.v
Fifo.v
Queue.v
Writer.v
Dissolve.v
CircBuf.v
CbQueue.v
PubSubData.v
PubSub.v
PubSubFrame.v
PubSubInv.v
PubSubLive.v
PubSubProps.v
Scheduler.v
WorkerData.v
Worker.v
WorkerInv.v
WorkerProps.v
WorkerRuns.v
Runner.v
AgentBolt.v
AgentData.v
ExtCron.v
AgentStore.v
AgentStoreInv.v
AgentStoreSound.v
AgentStoreProps.v
AgentStoreRuns.v
AgentBroker.v
AgentSched.v
BufCb.v
Agent.v
AgentHandlers.v
AgentProps.v
AgentServes.v
AgentFaults.v
AgentRedeploy.v
AgentOutputs.v
AgentRuns.v
BytePool.v
Framing.v
FramingProps.v
JsonWriter.v
JsonString.v
WireMsg.v
WireLine.v
Transport.v
ReplyPool.v
Dag.v
MemStream.v
Fanout.v
FanoutProps.v
Vt.v
VtProps.v
VtMsg.v
VtFrames.v
VtControl.v
ControlWire.v
