(* ===== verification/Prelude.v ===== *)
(** * Kairos: workflow compiler, runner, message deliverer and clients

    Kairos runs workflows of tasks on remote clients.  A user writes variables,
    tasks and brokers in YAML; [pkg/workflow] reads and compiles them, turning
    the condition of a broker into rows of expressions with a jump table.  The
    runner (server/runner) holds a pool of workers, one per workflow: a worker
    sets tasks and brokers up on the clients, passes messages through brokers,
    retries and recovers deliveries, and schedules triggers.  Messages travel
    through the deliverer (server/deliverer), a publish/subscribe server: a node
    keeps a hub of connections and subscriptions, subscribes to channels at a
    broker on behalf of its connections, tracks presence, and exchanges control
    commands with other nodes; a connection handles the commands of one client
    and writes frames through a queue.  On the other side, the daemon's pubsub
    client (kairos-local/kairosdeamon/pubsub) keeps one connection and its
    subscriptions alive, and its agent (kairos-local/kairosdeamon/agent) answers
    the commands of the worker: it stores tasks and brokers in a bolt database,
    schedules and runs tasks with executors, passes their outputs to the server
    and, through a message broker of its own, to local brokers.

    ** Files

    Foundations
    - [Prelude]: outcomes of Go code ([Ok], [Err], [Panic]) as a monad, slice
      indexing and copying with their panics, the tactics and hint databases.
    - [GoStrings]: the functions of Go's strings package, on byte strings.

    The workflow compiler (pkg/workflow, pkg/orderedmap)
    - [Names]: the naming scheme of variables (workflow.go [GetTaskName], ...,
      [GetRootDefaultVar], [GetRawName]; the suffix tables of template.go).
    - [OrderedMap]: orderedmap.go, a map and the order of its keys.
    - [VarStack]: [varTemp] and [Stack] of template.go.
    - [Template]: template.go up to [Build]: [checkValidParam],
      [checkVariableDefault], [complieChainExps], [compileExp], [Parse],
      [Build].  A Go template is the record [Template]; methods that mutate it
      return the new record.  [TemplateSafety] says when it panics.
    - [Value]: run-time values, the store of slice arrays, JSON and reflect on
      them; the class [GoLib] holds the operations from outside.  [Runtime]:
      func.go, one definition per case of [Expression.Execute].  [Interp]: the
      loop of [TemplateRuntime.Execute] with jumps and ranges.  [InterpProps]:
      its theorems.
    - [Json]: what [json.Unmarshal] does with the target types that are used.
    - [Compile]: workflow.go and complie.go: the [UnmarshalYAML] hooks, flows as
      JSON, [Compile] of variables, tasks, brokers and workflows.

    The deliverer (server/deliverer)
    - [Codes]: disconnect.go, errors.go, unsubscribe.go.
    - [NestedMap]: the map-of-maps discipline of hub.go and
      presence_memory.go; [Hub]: hub.go, 64 shards of connections and
      of subscriptions; [Presence]: presence_memory.go.
    - [Node]: the subscription part of node.go and, in [Registry], its
      [nodeRegistry]; [Control]: options.go, the user operations of node.go and
      [handleControl].
    - [Connection]: client.go, a connection in its world (the node, the writer's
      output, pending closes, handler events), its calls cut into the sections
      that hold the lock; [ConnectionProps]: the interleavings of these sections
      ([client_step]) and the theorems.
    - [Ring]: the ring buffer under both queues; [Fifo]: the class [FifoQueue],
      what a closable queue promises its users; [Queue]:
      internal/queue/queue.go; [Writer]: writer.go, a user of the queue;
      [Dissolve]: internal/dissolve, its queue and the workers that retry jobs.

    The pubsub client (kairos-local/kairosdeamon/pubsub)
    - [CbQueue]: pkg/cbqueue, the queue of callbacks that the client and the
      worker share.
    - [PubSubData]: the records of client.go and subscription.go, codes.go,
      errors.go, protocol.go.  [PubSub]: a world of goroutines, timers and the
      lock [c.mu]; each definition is what one goroutine does between two points
      where others can run.  [PubSubFrame], [PubSubInv], [PubSubLive]: what
      every step keeps, the invariant, and progress; [PubSubProps]: theorems
      and concrete runs.

    The runner (server/runner)
    - [Scheduler]: scheduler.go over the class [Cron], the laws of robfig/cron
      that it uses.
    - [WorkerData]: the commands and replies of workflow.go, the rows of
      storage, the worker's state; [Worker]: worker.go, goroutines ([op]) over
      shared state, unbuffered channels as meetings of two goroutines.
      [WorkerInv]: what every step keeps; [WorkerProps]: theorems; [WorkerRuns]:
      an engine that executes templates with [Interp], and concrete runs.
    - [Runner]: runner.go over the class [WorkerSys], with the pool that recovers
      panics; the worker of [Worker] implements it ([worker_sys],
      [worker_panics], and [worker_life] for workflows that name only clients
      they have).

    The agent (kairos-local/kairosdeamon/agent)
    - [AgentBolt]: the class [Bolt] with the documented laws of bolt, and
      transactions as a monad; [AgentData]: task.go, execution.go, pkg/ntime.
    - [AgentStore]: store.go, every operation a program of transactions.
      [AgentStoreInv]: the layout of the database and rules to reason on
      programs; [AgentStoreSound]: what every operation keeps;
      [AgentStoreProps]: theorems; [AgentStoreRuns]: runs.
    - [AgentBroker]: the package broker, goroutines with locks and channels.
    - [AgentSched]: scheduler.go, over the class [Cron]; [ExtCron]: pkg/extcron,
      the parser of schedules.
    - [BufCb]: pkg/bufcb; [CircBuf]: pkg/circbuf; the buffers of a task's output.
    - [Agent]: the state of agent.go, hub.go, and runs of tasks: a function of
      the agent is a program of [am] that ends as a call of the store can
      ([called]) and lists its effects in order.  [AgentHandlers]: commands,
      triggers, brokers, scripts, connecting and starting.
    - [AgentProps], [AgentServes], [AgentOutputs]: what the agent answers;
      [AgentFaults], [AgentRedeploy]: where it goes wrong; [AgentRuns]: runs.

    The wire (pkg/protocol/deliverprotocol, the transports, controlpb)
    - [BytePool]: byte strings, varints and bpool.go; [Framing]: the
      data encoders and command decoders of encode.go, decode.go,
      decode_stream.go with their pools in type.go, and [HandleReadFrame] of
      handler_websocket.go; [FramingProps]: its theorems.
    - [JsonWriter]: encode_writer.go and raw.go; [JsonString]: JSON
      string literals and JSON texts; [WireMsg]: the messages of
      deliver.pb.go with the encoders of deliver.pb_easyjson.go and encode.go;
      [WireLine]: what they write.
    - [Transport]: the websocket transports of server and agent with the write
      functions of the connection; [ReplyPool]: replies.go.
    - [Vt]: the blocks deliver_vtproto.pb.go is made of (sizes, writing backwards
      into a buffer, reading at an index) and the frame of a decoder; [VtMsg]:
      the four methods of every message as the list of its blocks.  [VtProps]:
      what a block writes, that it is read back, that any input is read safely;
      [VtFrames]: each message, and the codec as a whole.  [VtControl]: the same
      for the control messages of internal/controlpb and the codec of
      controlproto.
    - [ControlWire]: the control commands of node.go as bytes, and how nodes find
      each other.
    - [Fanout]: the memory broker and the way of a publication to the queues of
      the readers; [FanoutProps].
    - [MemStream]: internal/memstream and internal/recovery; [Dag]: pkg/dag.

    ** What the theorems show

    Queues and delivery ([Queue], [Writer], [Dissolve], [CbQueue]).  The ring
    buffer refines an unbounded FIFO list, without panics, in memory
    proportional to its content.  Messages leave a connection in the order they
    were accepted, in frames of bounded length; the dissolver neither loses nor
    repeats a job; the callback queue runs callbacks in order up to its close.

    Names, scopes and ordered maps.  Names round-trip; parts resolve to the
    object they belong to, except parts of clients ([client_parts_resolution]).
    Assignments in scopes are read back.  Ordered maps keep their invariant and
    order under loading, construction and merging.

    Templates and workflows ([Template], [TemplateSafety], [Compile]).  Jump
    tables are nested and point forward; accepted text is balanced; the compiler
    panics on an expression that starts with a pipe and under stated conditions
    on the words never.  A workflow that compiles has the properties its runner
    relies on; the targets of a condition are the part that is not checked.
    Flows survive JSON.

    Running templates ([InterpProps]).  Templates without loops terminate within
    their number of rows when every condition is closed; [unclosed_else_loops]
    is one that is not and never returns.  A range runs its body once per entry
    and [if]/[else] exactly one block, as the reference semantics [for_each] and
    [run_straight] say, as long as the rows of the body have no loop of their own
    and run straight on ([nested_range_skips_rest],
    [empty_inner_range_ends_outer] are what happens otherwise).

    The deliverer ([Hub], [Presence], [Node], [Control], [ConnectionProps]).
    Sharding is invisible; counts and queries are exact; a publication reaches
    exactly the readers; presence is exact.  However operations interleave, the
    node is subscribed at its broker for every channel with a subscriber and
    leaks none, and a connection agrees with the hub on every channel but those
    stained by an overlap that the code does not handle
    ([connection_hub_agree]).  [late_callback_leaks], [connect_error_leaks] and
    [overlapping_unsubscribe_diverges] are such histories, [colon_channel_panics]
    is a panic.  Other nodes repeat the user operations,
    except for the role of a subscribe.

    The pubsub client ([PubSubProps]).  A client that connects can always get
    on; waiting calls are answered exactly once; a disconnected client is quiet;
    the deliverer's close codes are understood.  Two
    runs show a deadlock and a lost subscription.

    The runner ([Scheduler], [WorkerProps], [WorkerRuns], [Runner]).  The
    scheduler refines a map; tasks start after the setup only; a worker serves
    until it is destroyed, and as long as nobody destroys it [Run] does not panic
    when the clients of its tasks are known ([run_never_panics]); parts identify
    deliveries; a message is retried three times, four times when it came from
    [syncData] ([retries_bounded]); the runner's map only holds workers that run
    or whose [Run] panicked ([runner_map_sound]).  Goroutines that wait for ever,
    callbacks that are lost or called twice, and a full pool that is never left
    are theorems too.

    The agent.  The store keeps its invariant under all calls and failing
    commits, but for tasks that have the number of their workflow, and waits for
    itself only after one of the few calls that leave a transaction open
    ([store_stays_sound]); ends of executions are counted, queues
    are FIFO, deleted workflows are gone but for their brokers
    ([AgentStoreProps]).  Nothing is sent on a closed channel
    ([AgentBroker]).  A connected agent handles every command it can read to its
    end and answers it ([commands_are_answered]), but a workflow that is destroyed
    a second time panics ([second_destroy_panics]); replies and outputs carry what
    the server finds the request by ([replies_answer_command],
    [outputs_answer_request]).  Setting a broker of a destroyed workflow again
    panics ([redeployed_broker_panics], over agent, store and message broker),
    a refused broker breaks the next start ([refused_broker_breaks_start]), a
    task that cannot be filed those behind it ([start_stops_at_unscheduled]);
    the rest of [AgentFaults] are faults reported as success, panics on unknown
    tasks and malformed messages, and triggers that wait for ever.  The circular buffer holds the last
    bytes written.

    The wire.  A publication goes from [Node.Publish] to the queues of exactly
    its readers, in order ([publications_reach_readers]); the replies in the frames
    that were written reach the agent's reader over JSON, in order
    ([replies_reach_the_agent]): together with the
    queue and the writer the way of a message from publisher to subscriber.
    Frames of both protocols are taken apart as they were put together
    ([frame_decode_roundtrip], [HandleReadFrame_frame]) and any bytes are read to
    an end ([HandleReadFrame_terminates]), except where a length is malformed
    ([malformed_length]).  JSON encoders write one line of valid JSON
    ([encoded_message_is_one_line], [json_encoders_valid]), strings read back
    ([writer_String_roundtrip]).  Protobuf messages of clients and nodes are
    written in exactly the size counted and read back
    ([protobuf_roundtrip], [protobuf_frames_roundtrip],
    [control_crosses_the_wire]), and decoders are total
    ([protobuf_decoders_total], [handle_data_total]).  Nodes find each other and
    fall silent ([nodes_find_each_other]).  Pooled buffers have room
    ([getByteBuffer_has_room]), pooled replies are clean
    ([pooled_replies_are_clean]), transports are closed once
    ([transport_closed_once]).  The memory stream refines a log
    ([stream_refines_log]), the recovery buffer loses nothing
    ([buffering_session]), the task graph finds cycles but takes no edge
    ([validate_finds_cycles], [edges_are_refused]).

    ** Conventions and bounds

    Operations that hold a lock for their whole effect are atomic functions on
    the state; concurrency is a sequence of such steps: a list of operations
    ([queue_op], [hub_op]) or a step relation ([conn_reachable],
    [dissolver_reachable], [node_reachable], [client_step], [PubSub.step],
    [Worker.step], [rstep]).  In [PubSub] and [Worker] a goroutine is a list of
    operations, each atomic; a goroutine that holds [c.mu] over several of them
    keeps [locked] set.  What the environment answers in a step (clock, network,
    database, map order) is an oracle of the step, so theorems hold for all
    answers.  A panic ends the world: nothing is said about what follows it,
    except in [Runner], where the pool recovers a panic of [Run].
    Closures over loop variables are those of Go 1.21, the version of go.mod,
    shared between iterations.  Iteration over a Go map takes its order as an
    argument, so statements hold for every order.

    In [Agent] a goroutine is a value in the list of effects and
    [run_goroutine] its body; theorems on the agent are about one program at a
    time, from any state, and the store's transactions are atomic, so
    interleavings of whole programs are covered and those inside one only as far
    as the other programs leave its state alone.

    Loops over input take its length plus one as fuel ([read_frame_loop],
    [unmarshal_loop], [skip_loop], [entry_loop]): each round moves the index, so
    it is enough, which [HandleReadFrame_terminates] and
    [protobuf_decoders_total] prove.  The search of [Dag] has the number of
    vertices with edges as fuel.  A [float64] of the control messages is its 64
    bits.  Other functions are structurally recursive, except [Interp.run], which can loop
    and takes fuel, one unit per row: the theorems of [InterpProps] say how much
    is enough; in [Worker] the fuel of a template is part of the oracle, so a
    run without enough is a template that has not returned.  The tokenizer's
    fuel is the length of its text; [marshal] and [DeepEqual] count nesting up
    to the 10000 levels that encoding/json accepts.  Integers that the code
    compares with signs are [Z], lengths and indices [nat]; machine widths
    appear where they matter (the FNV hash modulo 2^64, the [uint8] flags, the
    conversion of [Source], [int] sums of templates).  The pubsub client's
    command identifiers are [uint32]; its theorems are about the first 2^32
    commands, after which identifiers repeat.  Sizes and times are taken not to
    reach 2^63.  Strings are byte strings and letters ASCII, as in identifiers.

    Code outside the repository is a parameter: the JavaScript runtime
    ([js_lookup], [js_call]), float64 and its parser ([GoLib]), text/template
    ([render]), the JSON parser ([json_parse], [json_decode], [Json]), the cron
    ([Cron]), bolt ([Bolt]), executors and the
    JavaScript machine of the agent ([AgentEnv]), the broker's and presence manager's answers, the validator of
    JSON texts ([Valid]), the clock.  The pool of the runner (ants) is its documented
    behaviour: a fixed number of slots, [Invoke] waits, a panic of the pool's
    function is recovered and frees its slot.

    ** Not modelled

    SQL and HTTP handlers, plugin processes, the command line, the upgrade of a
    connection to a websocket and NATS, the durations of back-off, the shutdown
    of the hub, [Sort] and [UnmarshalJSON] of ordered maps: input and output or
    thin calls of libraries.  Of the generated protocol code the easyjson
    decoders, which walk the lexer of the easyjson package, and the getters and
    reflection tables.  Of the agent, its HTTP API, its listeners and the wait
    of [Stop] for running jobs.  The locks of single subscriptions of the pubsub
    client ([sub_refresh_token]); a server that answers commands which were not
    sent ([readOnce]); the shutdown of a node ([removeSubscription]); publications
    handed out in parallel ([deliver]); letters beyond ASCII ([ToLower]). *)

From stdpp Require Export base numbers option list strings gmap fin_maps fin_map_dom sets.
From Stdlib Require Export ZArith Lia ZifyBool.

#[global] Set Default Goal Selector "!".

(** ** Outcomes of Go code

    A Go function either returns, returns an error, or panics.  The three are
    kept apart: [Err] is a value the caller receives and may handle, [Panic]
    is a run-time failure that unwinds the goroutine. *)

Inductive panic : Type :=
| IndexOutOfRange
| SliceOutOfRange
| NilDereference
| NilMapWrite
| TypeAssertion
| DivideByZero
| ExplicitPanic (msg : string).

Inductive outcome (E A : Type) : Type :=
| Ok (a : A)
| Err (e : E)
| Panic (p : panic).
Arguments Ok {E A} _.
Arguments Err {E A} _.
Arguments Panic {E A} _.

#[export] Instance panic_eq_dec : EqDecision panic.
Proof. solve_decision. Defined.

#[export] Instance outcome_ret {E} : MRet (outcome E) := fun A a => Ok a.

#[export] Instance outcome_bind {E} : MBind (outcome E) :=
  fun A B f m =>
    match m with
    | Ok a => f a
    | Err e => Err e
    | Panic p => Panic p
    end.

#[export] Instance outcome_fmap {E} : FMap (outcome E) :=
  fun A B f m =>
    match m with
    | Ok a => Ok (f a)
    | Err e => Err e
    | Panic p => Panic p
    end.

(** [is_panic m]: the run ended in a panic. *)
Definition is_panic {E A} (m : outcome E A) : bool :=
  match m with Panic _ => true | _ => false end.

(** [is_ok m]: the run returned without an error. *)
Definition is_ok {E A} (m : outcome E A) : bool :=
  match m with Ok _ => true | _ => false end.

(** Reading [s[i]]: Go panics out of range. *)
Definition go_index {E A} (l : list A) (i : nat) : outcome E A :=
  match l !! i with
  | Some x => Ok x
  | None => Panic IndexOutOfRange
  end.

(** Writing [s[i] = x]: Go panics out of range. *)
Definition go_store {E A} (l : list A) (i : nat) (x : A) : outcome E (list A) :=
  if decide (i < length l) then Ok (<[i:=x]> l) else Panic IndexOutOfRange.

(** Slicing [s[i:]] of a slice whose capacity is its length. *)
Definition go_slice_from {E A} (l : list A) (i : nat) : outcome E (list A) :=
  if decide (i <= length l) then Ok (drop i l) else Panic SliceOutOfRange.

(** Slicing [s[i:j]] of a slice whose capacity is its length. *)
Definition go_slice {E A} (l : list A) (i j : nat) : outcome E (list A) :=
  if decide (i <= j /\ j <= length l) then Ok (take (j - i) (drop i l))
  else Panic SliceOutOfRange.

(** [copy(dst, src)] overwrites the first [min (len dst) (len src)] cells. *)
Definition go_copy {A} (dst src : list A) : list A :=
  take (length dst) src ++ drop (length src) dst.

(** [copy(dst[i:], src)], seen from [dst]. *)
Definition go_copy_at {A} (dst : list A) (i : nat) (src : list A) : list A :=
  take i dst ++ go_copy (drop i dst) src.

(** ** Machine integers *)

Definition wrap_u64 (z : Z) : Z := (z mod 2 ^ 64)%Z.
Definition wrap_u32 (z : Z) : Z := (z mod 2 ^ 32)%Z.
Definition wrap_i64 (z : Z) : Z := ((z + 2 ^ 63) mod 2 ^ 64 - 2 ^ 63)%Z.

Lemma wrap_u64_small z : (0 <= z < 2 ^ 64)%Z -> wrap_u64 z = z.
Proof. apply Z.mod_small. Qed.
Lemma wrap_u32_small z : (0 <= z < 2 ^ 32)%Z -> wrap_u32 z = z.
Proof. apply Z.mod_small. Qed.
Lemma wrap_u64_range z : (0 <= wrap_u64 z < 2 ^ 64)%Z.
Proof. unfold wrap_u64. apply Z.mod_pos_bound. lia. Qed.
Lemma wrap_i64_small z : (- 2 ^ 63 <= z < 2 ^ 63)%Z -> wrap_i64 z = z.
Proof. intros Hz. unfold wrap_i64. rewrite Z.mod_small; lia. Qed.

(** The [n]-byte suffix a bounded buffer keeps. *)
Definition lastn {A} (n : nat) (l : list A) : list A := drop (length l - n) l.

(** ** Hint databases and tactics *)

Create HintDb kairos.
Create Rewrite HintDb kairos_len.
Create Rewrite HintDb kairos_str.

(** Splits every [match] or [if] of the goal or a hypothesis, keeping the
    equations, and closes the trivial cases. *)
Ltac split_cases :=
  repeat (case_match || case_decide || case_bool_decide); simplify_eq/=; try done.

Section OutcomeFacts.
Context {E A B : Type}.

Lemma outcome_bind_ok (m : outcome E A) (f : A -> outcome E B) b :
  mbind f m = Ok b -> exists a, m = Ok a /\ f a = Ok b.
Proof. destruct m; simpl; intros H; try discriminate. eauto. Qed.

Lemma outcome_bind_not_panic (m : outcome E A) (f : A -> outcome E B) :
  is_panic m = false -> (forall a, m = Ok a -> is_panic (f a) = false) ->
  is_panic (mbind f m) = false.
Proof. destruct m; simpl; auto. Qed.

End OutcomeFacts.

(** Runs one step of the computation in [H]: the bind, conditional or match at
    its head. *)
Ltac step_ok H :=
  lazymatch type of H with
  | mbind _ _ = Ok _ => apply outcome_bind_ok in H as (? & ? & H)
  | (if ?b then _ else _) = Ok _ => destruct b
  | (match ?x with _ => _ end) = Ok _ => destruct x
  end.

(** As [step_ok], keeping the condition of each branch. *)
Ltac step_ok_eqn H :=
  let E := fresh "E" in
  lazymatch type of H with
  | mbind _ _ = Ok _ => apply outcome_bind_ok in H as (? & ? & H)
  | outcome_bind _ _ _ _ = Ok _ => apply outcome_bind_ok in H as (? & ? & H)
  | (if ?b then _ else _) = Ok _ => destruct b eqn:E
  | (match ?x with _ => _ end) = Ok _ => destruct x
  end.

(** The same walk for the absence of panics. *)
Ltac step_safe :=
  let E := fresh "E" in
  lazymatch goal with
  | |- is_panic (mbind _ _) = false => apply outcome_bind_not_panic; [|intros ? ?]
  | |- is_panic (if ?b then _ else _) = false => destruct b eqn:E
  | |- is_panic (match ?x with _ => _ end) = false => destruct x
  end.

(** Drops the conditions of branches, which only slow arithmetic down. *)
Ltac clear_bools := repeat match goal with H : @eq bool _ _ |- _ => clear H end.

(** Length bookkeeping of list expressions, then arithmetic. *)
Ltac len_lia :=
  repeat (rewrite ?length_app, ?length_take, ?length_drop, ?length_insert,
            ?length_replicate, ?length_reverse, ?length_seq in *; simpl in * );
  lia.

(** ** Generic lemmas *)

Section ListFacts.
Context {A : Type}.
Implicit Types l : list A.

Lemma go_index_ok {E} l i x : l !! i = Some x -> go_index (E:=E) l i = Ok x.
Proof. unfold go_index. by intros ->. Qed.

Lemma go_store_ok {E} l i x :
  i < length l -> go_store (E:=E) l i x = Ok (<[i:=x]> l).
Proof. intros. unfold go_store. by rewrite decide_True. Qed.

Lemma go_slice_from_ok {E} l i :
  i <= length l -> go_slice_from (E:=E) l i = Ok (drop i l).
Proof. intros. unfold go_slice_from. by rewrite decide_True. Qed.

Lemma go_slice_ok {E} l i j :
  i <= j -> j <= length l -> go_slice (E:=E) l i j = Ok (take (j - i) (drop i l)).
Proof. intros. unfold go_slice. by rewrite decide_True. Qed.

Lemma go_index_safe {E} l i : i < length l -> is_panic (go_index (E:=E) l i) = false.
Proof. intros [x Hx]%lookup_lt_is_Some. by rewrite (go_index_ok _ _ _ Hx). Qed.

Lemma go_slice_safe {E} l i j :
  i <= j -> j <= length l -> is_panic (go_slice (E:=E) l i j) = false.
Proof. intros. by rewrite go_slice_ok. Qed.

Lemma length_removelast l : length (removelast l) = length l - 1.
Proof.
  induction l as [|x [|y l] IH]; [done..|].
  change (removelast (x :: y :: l)) with (x :: removelast (y :: l)). simpl in *. lia.
Qed.

Lemma length_go_copy (dst src : list A) : length (go_copy dst src) = length dst.
Proof. unfold go_copy. len_lia. Qed.

Lemma length_go_copy_at (dst src : list A) i :
  i <= length dst -> length (go_copy_at dst i src) = length dst.
Proof. intros. unfold go_copy_at. rewrite length_app, length_go_copy. len_lia. Qed.

Lemma go_copy_fits (dst src : list A) :
  length src <= length dst -> go_copy dst src = src ++ drop (length src) dst.
Proof. intros. unfold go_copy. by rewrite take_ge by lia. Qed.

Lemma lookup_go_copy (dst src : list A) i :
  i < length src -> i < length dst -> go_copy dst src !! i = src !! i.
Proof.
  intros. unfold go_copy. rewrite lookup_app_l by len_lia.
  by rewrite lookup_take_lt by lia.
Qed.

Lemma length_lastn n l : length (lastn n l) = Nat.min n (length l).
Proof. unfold lastn. len_lia. Qed.

Lemma elem_of_snoc (x y : A) l : x ∈ l ++ [y] <-> x ∈ l \/ x = y.
Proof. by rewrite elem_of_app, list_elem_of_singleton. Qed.

Lemma lastn_all n l : length l <= n -> lastn n l = l.
Proof. intros. unfold lastn. by replace (length l - n) with 0 by lia. Qed.

Lemma lastn_app_ge n l k : n <= length k -> lastn n (l ++ k) = lastn n k.
Proof.
  intros. unfold lastn. rewrite length_app, drop_app_ge by lia.
  f_equal. lia.
Qed.

Lemma lastn_app_le n l k :
  length k <= n -> lastn n (l ++ k) = lastn (n - length k) l ++ k.
Proof.
  intros. unfold lastn. rewrite length_app.
  destruct (decide (length l + length k <= n)).
  - replace (length l + length k - n) with 0 by lia.
    by replace (length l - (n - length k)) with 0 by lia.
  - rewrite drop_app_le by lia. do 2 f_equal. lia.
Qed.

End ListFacts.

#[export] Hint Rewrite @length_go_copy @length_lastn @length_app @length_take
  @length_drop @length_insert @length_replicate : kairos_len.

Lemma elem_of_map_keys {K V} `{Countable K} (m : gmap K V) k :
  k ∈ (map_to_list m).*1 <-> is_Some (m !! k).
Proof.
  rewrite list_elem_of_fmap. split.
  - intros ([k' v] & -> & Hkv%elem_of_map_to_list). eauto.
  - intros [v Hv]. exists (k, v). split; [done|]. by apply elem_of_map_to_list.
Qed.

(** ** Sequences of operations

    Many components are used through a sequence of calls; [run step ops s]
    folds a fallible step over such a sequence. *)

Fixpoint run {S O : Type} (step : S -> O -> option S) (ops : list O) (s : S) : option S :=
  match ops with
  | [] => Some s
  | o :: ops => match step s o with Some s' => run step ops s' | None => None end
  end.

Lemma run_invariant {S O : Type} (step : S -> O -> option S) (P : S -> Prop) ops s :
  P s ->
  (forall s o, P s -> exists s', step s o = Some s' /\ P s') ->
  exists s', run step ops s = Some s' /\ P s'.
Proof.
  intros Hs Hstep. revert s Hs. induction ops as [|o ops IH]; intros s Hs; simpl; [eauto|].
  destruct (Hstep s o Hs) as (s' & -> & Hs'). by apply IH.
Qed.
