(* ===== verification/GoStrings.v ===== *)
(** What the program uses of Go's [strings] package.  A Go string is a byte
    string, here [string]; [ToLower] is Go's on ASCII text and leaves the bytes
    of multi-byte characters alone, so the theorems speak of names and
    templates whose letters are ASCII. *)

From Stdlib Require Import Ascii.
From S2P Require Import Prelude.

Definition explode : string -> list ascii := String.list_ascii_of_string.
Definition implode : list ascii -> string := String.string_of_list_ascii.

Definition HasPrefix (s prefix : string) : bool := String.prefix prefix s.

(** [len(s) >= len(suffix) && s[len(s)-len(suffix):] == suffix]. *)
Definition HasSuffix (s suffix : string) : bool :=
  let l := explode s in
  let k := explode suffix in
  (length k <=? length l) && bool_decide (drop (length l - length k) l = k).

Definition TrimPrefix (s prefix : string) : string :=
  if HasPrefix s prefix then implode (drop (length (explode prefix)) (explode s)) else s.

Definition TrimSuffix (s suffix : string) : string :=
  if HasSuffix s suffix
  then implode (take (length (explode s) - length (explode suffix)) (explode s)) else s.

Definition lower_ascii (c : ascii) : ascii :=
  let n := N_of_ascii c in
  if ((65 <=? n) && (n <=? 90))%N then ascii_of_N (n + 32) else c.

(** [strings.ToLower] on ASCII letters; bytes above 127 are kept, so names of a
    workflow file are taken to be ASCII where the source goes over runes. *)
Definition ToLower (s : string) : string := implode (lower_ascii <$> explode s).

Fixpoint trim_left_list (p : ascii -> bool) (l : list ascii) : list ascii :=
  match l with
  | [] => []
  | c :: l' => if p c then trim_left_list p l' else l
  end.

Definition trim_right_list (p : ascii -> bool) (l : list ascii) : list ascii :=
  reverse (trim_left_list p (reverse l)).

Definition in_cutset (cutset : string) (c : ascii) : bool :=
  bool_decide (c ∈ explode cutset).

Definition TrimRight (s cutset : string) : string :=
  implode (trim_right_list (in_cutset cutset) (explode s)).

Definition Trim (s cutset : string) : string :=
  implode (trim_right_list (in_cutset cutset) (trim_left_list (in_cutset cutset) (explode s))).

(** [TrimSpace] on ASCII text: tab, newline, vertical tab, form feed, carriage
    return and space. *)
Definition TrimSpace (s : string) : string :=
  implode (trim_right_list Ascii.is_space (trim_left_list Ascii.is_space (explode s))).

(** [strings.Split] with a one-character separator. *)
Fixpoint split_list (sep : ascii) (cur : list ascii) (l : list ascii) : list string :=
  match l with
  | [] => [implode (reverse cur)]
  | c :: l' =>
    if bool_decide (c = sep) then implode (reverse cur) :: split_list sep [] l'
    else split_list sep (c :: cur) l'
  end.

Definition Split (s : string) (sep : ascii) : list string := split_list sep [] (explode s).

Definition ContainsChar (s : string) (c : ascii) : bool := bool_decide (c ∈ explode s).

Definition includes {A} `{EqDecision A} (source : list A) (e : A) : bool :=
  bool_decide (e ∈ source).

(** ** Lemmas *)

Lemma implode_explode s : implode (explode s) = s.
Proof. apply String.string_of_list_ascii_of_string. Qed.

Lemma explode_implode l : explode (implode l) = l.
Proof. apply String.list_ascii_of_string_of_list_ascii. Qed.

Lemma explode_inj s t : explode s = explode t -> s = t.
Proof. intros H. by rewrite <- (implode_explode s), H, implode_explode. Qed.

Lemma explode_app s t : explode (s +:+ t) = explode s ++ explode t.
Proof. induction s as [|c s IH]; [done|]. simpl. f_equal. exact IH. Qed.

Lemma string_app_assoc (s t u : string) : (s +:+ t) +:+ u = s +:+ (t +:+ u).
Proof. apply explode_inj. by rewrite !explode_app, app_assoc. Qed.

Lemma string_app_nil (s : string) : s +:+ "" = s.
Proof. apply explode_inj. by rewrite explode_app, app_nil_r. Qed.

Lemma HasSuffix_true s suffix : HasSuffix s suffix = true <-> exists p, s = p +:+ suffix.
Proof.
  unfold HasSuffix. split.
  - intros [_ H%bool_decide_eq_true]%andb_prop.
    exists (implode (take (length (explode s) - length (explode suffix)) (explode s))).
    apply explode_inj. rewrite explode_app, explode_implode.
    etransitivity; [symmetry; apply (take_drop (length (explode s) - length (explode suffix)))|].
    by rewrite H.
  - intros [p ->]. rewrite explode_app, length_app.
    rewrite (proj2 (Nat.leb_le _ _)) by lia. simpl. apply bool_decide_eq_true.
    replace (length (explode p) + length (explode suffix) - length (explode suffix))
      with (length (explode p)) by lia. by rewrite drop_app_length.
Qed.

Lemma HasSuffix_app p suffix : HasSuffix (p +:+ suffix) suffix = true.
Proof. apply HasSuffix_true. eauto. Qed.

Lemma TrimSuffix_app p suffix : TrimSuffix (p +:+ suffix) suffix = p.
Proof.
  unfold TrimSuffix. rewrite HasSuffix_app, explode_app, length_app.
  replace (length (explode p) + length (explode suffix) - length (explode suffix))
    with (length (explode p)) by lia.
  by rewrite take_app_length, implode_explode.
Qed.

(** Two suffixes of one string: the shorter is a suffix of the longer. *)
Lemma HasSuffix_app_long p s t :
  length (explode t) <= length (explode s) -> HasSuffix (p +:+ s) t = HasSuffix s t.
Proof.
  intros Hle. unfold HasSuffix. rewrite explode_app, length_app.
  rewrite !(proj2 (Nat.leb_le _ _)) by lia. simpl.
  rewrite drop_app_ge by lia.
  by replace (length (explode p) + length (explode s) - length (explode t) - length (explode p))
    with (length (explode s) - length (explode t)) by lia.
Qed.

(** A string that ends in [s] does not end in a longer [t] that does not. *)
Lemma HasSuffix_app_short p s t :
  HasSuffix t s = false -> HasSuffix (p +:+ s) t = true -> length (explode t) < length (explode s).
Proof.
  intros Hts [q Hq]%HasSuffix_true. destruct (decide (length (explode t) < length (explode s))) as [|Hge]; [done|].
  exfalso. apply (f_equal explode) in Hq. rewrite !explode_app in Hq.
  assert (HasSuffix (q +:+ t) s = true) as Hsuf.
  { apply HasSuffix_true. exists p. apply explode_inj. by rewrite !explode_app. }
  rewrite HasSuffix_app_long in Hsuf by lia. congruence.
Qed.

Lemma HasSuffix_app_neither p s t :
  HasSuffix t s = false -> HasSuffix s t = false -> HasSuffix (p +:+ s) t = false.
Proof.
  intros Hts Hst. destruct (HasSuffix (p +:+ s) t) eqn:E; [|done].
  pose proof (HasSuffix_app_short _ _ _ Hts E).
  rewrite HasSuffix_app_long in E by lia. congruence.
Qed.

Lemma ToLower_app s t : ToLower (s +:+ t) = ToLower s +:+ ToLower t.
Proof.
  apply explode_inj. unfold ToLower. by rewrite explode_implode, !explode_app, !explode_implode, fmap_app.
Qed.

Lemma lower_ascii_idemp c : lower_ascii (lower_ascii c) = lower_ascii c.
Proof. destruct c as [[] [] [] [] [] [] [] []]; reflexivity. Qed.

Lemma ToLower_idemp s : ToLower (ToLower s) = ToLower s.
Proof.
  unfold ToLower. rewrite explode_implode, <- list_fmap_compose. f_equal.
  apply list_fmap_ext. intros ? c _. apply lower_ascii_idemp.
Qed.

Lemma trim_left_list_app p l k :
  Forall (fun c => p c = true) l -> trim_left_list p (l ++ k) = trim_left_list p k.
Proof. induction 1 as [|c l Hc _ IH]; [done|]. simpl. by rewrite Hc. Qed.

(** [TrimRight] with a cut set that contains every character of the suffix
    removes the suffix and goes on cutting. *)
Lemma TrimRight_app_cutset s suffix : TrimRight (s +:+ suffix) suffix = TrimRight s suffix.
Proof.
  unfold TrimRight, trim_right_list. rewrite explode_app, reverse_app.
  rewrite trim_left_list_app; [done|].
  apply Forall_forall. intros c Hc. unfold in_cutset. apply bool_decide_eq_true.
  by apply elem_of_reverse.
Qed.

Lemma trim_left_list_length p l : length (trim_left_list p l) <= length l.
Proof. induction l as [|c l IH]; simpl; [lia|]. destruct (p c); simpl; lia. Qed.

#[export] Hint Rewrite ToLower_app ToLower_idemp HasSuffix_app TrimSuffix_app : kairos_str.
