(* ===== verification/Names.v ===== *)
(** The naming scheme of workflow variables ([pkg/workflow/workflow.go] and the
    suffix tables of [template.go]): a task, channel or client [n] is known to
    templates as [n_task], [n_channel], [n_client], and its parts as
    [n_task_output], [n_channel_msg], ... *)

From Stdlib Require Import Ascii.
From S2P Require Import Prelude GoStrings.

Definition SubTask : string := "_task".
Definition SubTaskOutPut : string := "_task_output".
Definition SubTaskSuccess : string := "_task_success".
Definition SubTaskResult : string := "_task_result".
Definition SubTasks : list string := [SubTaskOutPut; SubTaskSuccess; SubTaskResult].
Definition SubChannel : string := "_channel".
Definition SubChannelMSG : string := "_channel_msg".
Definition SubChannelCMD : string := "_channel_cmd".
Definition SubChannels : list string := [SubChannelMSG; SubChannelCMD].
Definition SubClient : string := "_client".
Definition SubClientMSG : string := "_client_msg".
Definition SubClientTaskName : string := "_client_task_name".
Definition SubClientTaskResult : string := "_client_task_result".
Definition SubClientTaskOutPut : string := "_client_task_output".
Definition SubClients : list string :=
  [SubClientMSG; SubClientTaskResult; SubClientTaskOutPut; SubClientTaskName].
Definition SubBroker : string := "_broker".

Definition getVarName (v : string) : string := TrimPrefix v ".".

Definition GetTaskName (taskName : string) : string := ToLower (taskName +:+ SubTask).
Definition GetChannelName (channel : string) : string := ToLower (channel +:+ SubChannel).
Definition GetBrokerName (broker : string) : string := ToLower (broker +:+ SubBroker).
Definition GetClientName (clientName : string) : string := ToLower (clientName +:+ SubClient).

Definition isDefaultVar (v : string) : bool :=
  HasSuffix v SubTask || HasSuffix v SubChannel ||
  existsb (fun e => HasSuffix v e) SubTasks || existsb (fun e => HasSuffix v e) SubChannels.

Definition IsRootDefaultVar (v : string) : bool :=
  HasSuffix v SubTask || HasSuffix v SubChannel || HasSuffix v SubClient.

Definition isPoint (v : string) : bool :=
  HasSuffix v SubTask || HasSuffix v SubChannel || HasSuffix v SubClient.

(** [for _, e := range table { if HasSuffix(v, e) { return f(e) } }]. *)
Definition first_suffix (table : list string) (v : string) : option string :=
  List.find (fun e => HasSuffix v e) table.

Definition GetRootDefaultVar (v : string) : string :=
  if HasSuffix v SubTask || HasSuffix v SubChannel || HasSuffix v SubClient then v
  else match first_suffix SubTasks v with
  | Some e => GetTaskName (TrimSuffix v e)
  | None => match first_suffix SubChannels v with
  | Some e => GetChannelName (TrimSuffix v e)
  | None => match first_suffix SubClients v with
  | Some e => GetClientName (TrimRight v e)
  | None => ""
  end end end.

Definition GetRawName (t : string) : string :=
  let t := ToLower t in
  if HasSuffix t SubChannel then TrimSuffix t SubChannel
  else if HasSuffix t SubTask then TrimSuffix t SubTask
  else if HasSuffix t SubClient then TrimSuffix t SubClient
  else match first_suffix SubClients t with
  | Some e => TrimSuffix t e
  | None => match first_suffix SubChannels t with
  | Some e => TrimSuffix t e
  | None => match first_suffix SubTasks t with
  | Some e => TrimSuffix t e
  | None => ""
  end end end.

(** [(b *Broker) IsListen(name)]. *)
Definition Broker_IsListen (listens : list string) (name : string) : bool :=
  existsb (fun l => bool_decide (l = GetTaskName name) || bool_decide (l = GetChannelName name)
                    || bool_decide (l = GetClientName name) || bool_decide (l = name)) listens.

(** [validateVarListen]: the variable's root must name a known client, channel
    or task; only the names of those objects are read. *)
Definition validateVarListen (dv : string) (clients channels tasks : list string) : bool :=
  let d := TrimPrefix (GetRootDefaultVar dv) "." in
  existsb (fun cl => bool_decide (GetClientName cl = d)) clients ||
  existsb (fun ch => bool_decide (GetChannelName ch = d)) channels ||
  existsb (fun key => bool_decide (GetTaskName key = d)) tasks.

(** ** Lemmas *)

(** The literal suffixes are lower case and pairwise incomparable, which the
    kernel decides; [suffix_cases] turns a test on [n ++ literal] into a test
    on two literals. *)
Ltac suffix_cases :=
  repeat match goal with
  | |- context [HasSuffix (?p +:+ ?s) ?s] => rewrite (HasSuffix_app p s)
  | |- context [HasSuffix (?p +:+ ?s) ?t] =>
      rewrite (HasSuffix_app_neither p s t) by reflexivity
  end.

Lemma GetTaskName_app n : GetTaskName n = ToLower n +:+ SubTask.
Proof. unfold GetTaskName. by rewrite ToLower_app. Qed.

Lemma GetChannelName_app n : GetChannelName n = ToLower n +:+ SubChannel.
Proof. unfold GetChannelName. by rewrite ToLower_app. Qed.

Lemma GetClientName_app n : GetClientName n = ToLower n +:+ SubClient.
Proof. unfold GetClientName. by rewrite ToLower_app. Qed.

Lemma GetBrokerName_app n : GetBrokerName n = ToLower n +:+ SubBroker.
Proof. unfold GetBrokerName. by rewrite ToLower_app. Qed.

(** The four kinds of names round-trip: stripping the suffix of a task,
    channel or client name gives back the lower-case base name, whatever that
    base is (also one that itself ends in another suffix), and a broker name is
    no variable at all. *)
Theorem raw_name_roundtrip (n : string) :
  GetRawName (GetTaskName n) = ToLower n /\
  GetRawName (GetChannelName n) = ToLower n /\
  GetRawName (GetClientName n) = ToLower n /\
  GetRawName (GetBrokerName n) = "".
Proof.
  rewrite GetTaskName_app, GetChannelName_app, GetClientName_app, GetBrokerName_app.
  unfold GetRawName. rewrite !ToLower_app, !ToLower_idemp.
  change (ToLower SubTask) with SubTask. change (ToLower SubChannel) with SubChannel.
  change (ToLower SubClient) with SubClient. change (ToLower SubBroker) with SubBroker.
  suffix_cases. rewrite !TrimSuffix_app.
  unfold first_suffix, SubClients, SubChannels, SubTasks. simpl. suffix_cases. done.
Qed.

(** A task's or a channel's part resolves to the object it is a part of:
    [n_task_output], [n_task_success], [n_task_result] to the task [n], and
    [n_channel_msg], [n_channel_cmd] to the channel [n]. *)
Theorem root_var_of_parts (n e : string) :
  (e ∈ SubTasks -> GetRootDefaultVar (n +:+ e) = GetTaskName n) /\
  (e ∈ SubChannels -> GetRootDefaultVar (n +:+ e) = GetChannelName n).
Proof.
  unfold GetRootDefaultVar, first_suffix, SubTasks, SubChannels. split; intros He;
    repeat (apply elem_of_cons in He as [->|He]; [simpl; suffix_cases; simpl; by rewrite TrimSuffix_app|]);
    by apply elem_of_nil in He.
Qed.

Lemma root_var_of_parts_witness :
  SubTaskOutPut ∈ SubTasks /\ GetRootDefaultVar "Build_task_output" = "build_task".
Proof.
  split; [by constructor|].
  apply (proj1 (root_var_of_parts "Build" SubTaskOutPut)). by constructor.
Defined.

(** Client parts are not resolved like the others.  A client's task result
    or output is taken for a part of a task called [n_client], and a client's
    message or task name is cut with a cut set instead of a suffix, so the base
    name loses every trailing character that occurs in the suffix: the client
    [agent] resolves to [a_client]. *)
Theorem client_parts_resolution (n : string) :
  GetRootDefaultVar (n +:+ SubClientTaskResult) = GetTaskName (n +:+ SubClient) /\
  GetRootDefaultVar (n +:+ SubClientTaskOutPut) = GetTaskName (n +:+ SubClient) /\
  GetRootDefaultVar (n +:+ SubClientMSG) = GetClientName (TrimRight n SubClientMSG) /\
  GetRootDefaultVar (n +:+ SubClientTaskName) = GetClientName (TrimRight n SubClientTaskName) /\
  GetRootDefaultVar ("agent" +:+ SubClientMSG) = "a_client".
Proof.
  split_and!; [| | | |reflexivity]; unfold GetRootDefaultVar, first_suffix, SubTasks, SubChannels, SubClients.
  - replace (n +:+ SubClientTaskResult) with ((n +:+ SubClient) +:+ SubTaskResult)
      by (by rewrite string_app_assoc).
    simpl. suffix_cases. simpl. by rewrite TrimSuffix_app.
  - replace (n +:+ SubClientTaskOutPut) with ((n +:+ SubClient) +:+ SubTaskOutPut)
      by (by rewrite string_app_assoc).
    simpl. suffix_cases. simpl. by rewrite TrimSuffix_app.
  - simpl. suffix_cases. simpl. by rewrite TrimRight_app_cutset.
  - simpl. suffix_cases. simpl. by rewrite TrimRight_app_cutset.
Qed.
