(* ===== verification/OrderedMap.v ===== *)
(** [pkg/orderedmap/orderedmap.go]: a map that remembers the order in which
    its keys were first set, the container behind a workflow's variables, tasks
    and brokers.  Go's nil map reads like an empty one and [Set] allocates it,
    so both are the empty [gmap] here. *)

From S2P Require Import Prelude.

Record OrderedMap (K V : Type) `{Countable K} := mkOM { om_s : list K; om_m : gmap K V }.
Arguments mkOM {K V _ _} _ _.
Arguments om_s {K V _ _} _.
Arguments om_m {K V _ _} _.

Section OrderedMap.
Context {K V : Type} `{Countable K}.
Implicit Types om : OrderedMap K V.

Definition OM_New : OrderedMap K V := mkOM [] ∅.

(** [maps.Keys] returns the keys in an unspecified order; [keys] is the one it
    happened to return. *)
Definition OM_FromMap (m : gmap K V) (keys : list K) : OrderedMap K V := mkOM keys m.

Definition OM_FromMapWithOrder (m : gmap K V) (order : list K) : outcome Empty_set (OrderedMap K V) :=
  if decide (size m = length order) then
    if forallb (fun '(k, _) => bool_decide (k ∈ order)) (map_to_list m)
    then Ok (mkOM order m)
    else Panic (ExplicitPanic "order keys must match map keys")
  else Panic (ExplicitPanic "length of map and order must be equal").

Definition OM_Len om : nat := length om.(om_s).

Definition OM_Set (k : K) (v : V) om : OrderedMap K V :=
  mkOM (match om.(om_m) !! k with Some _ => om.(om_s) | None => om.(om_s) ++ [k] end)
       (<[k:=v]> om.(om_m)).

(** [Get] of a missing key is the zero value of [V]. *)
Definition OM_Get (zero : V) (k : K) om : V := default zero (om.(om_m) !! k).

Definition OM_Exists (k : K) om : bool := bool_decide (is_Some (om.(om_m) !! k)).

Definition OM_Keys om : list K := om.(om_s).

Definition OM_Values (zero : V) om : list V := (fun k => OM_Get zero k om) <$> om.(om_s).

(** [Range(fn)]: [fn] threads the state it closes over and may stop the loop
    with an error. *)
Fixpoint range_keys {S E} (fn : K -> V -> S -> outcome E S) (zero : V) (m : gmap K V)
    (keys : list K) (s : S) : outcome E S :=
  match keys with
  | [] => Ok s
  | k :: keys => s' ← fn k (default zero (m !! k)) s; range_keys fn zero m keys s'
  end.

Definition OM_Range {S E} (fn : K -> V -> S -> outcome E S) (zero : V) om (s : S) : outcome E S :=
  range_keys fn zero om.(om_m) om.(om_s) s.

(** [Merge] is a [Range] over [other] whose callback never fails. *)
Definition OM_Merge (zero : V) om (other : OrderedMap K V) : OrderedMap K V :=
  match OM_Range (E := Empty_set) (fun k v om => Ok (OM_Set k v om)) zero other om with
  | Ok om' => om'
  | _ => om
  end.

(** [DeepCopy] through [deepcopy.Slice] and [deepcopy.Map], for element types
    that implement no [Copier]: new containers with the same elements. *)
Definition OM_DeepCopy om : OrderedMap K V := mkOM (id <$> om.(om_s)) (id <$> om.(om_m)).

(** [UnmarshalYAML] on a mapping node: the key and value nodes decode in turn,
    and each pair is [Set] before the next one is read. *)
Fixpoint OM_UnmarshalYAML {Node E} (decK : Node -> outcome E K) (decV : Node -> outcome E V)
    (content : list (Node * Node)) om : outcome E (OrderedMap K V) :=
  match content with
  | [] => Ok om
  | (kn, vn) :: content =>
    k ← decK kn;
    v ← decV vn;
    OM_UnmarshalYAML decK decV content (OM_Set k v om)
  end.

(** [MarshalJSON] first copies the entries into a plain map. *)
Definition OM_MarshalJSON_map (zero : V) om : gmap K V :=
  match OM_Range (E := Empty_set) (fun k v mj => Ok (<[k:=v]> mj)) zero om ∅ with
  | Ok mj => mj
  | _ => ∅
  end.

(** ** Invariant: the key list enumerates the map's keys without repetition *)

Definition om_wf om : Prop := NoDup om.(om_s) /\ forall k, k ∈ om.(om_s) <-> is_Some (om.(om_m) !! k).

(** A sequence of [Set] calls. *)
Definition set_all (kvs : list (K * V)) om : OrderedMap K V :=
  fold_left (fun om '(k, v) => OM_Set k v om) kvs om.

(** The distinct keys of a list, in the order of first occurrence. *)
Definition first_occ (ks seen : list K) : list K :=
  fold_left (fun acc k => if decide (k ∈ acc) then acc else acc ++ [k]) ks seen.

Lemma elem_of_first_occ k ks seen : k ∈ first_occ ks seen <-> k ∈ ks \/ k ∈ seen.
Proof.
  unfold first_occ. revert seen. induction ks as [|x ks IH]; intros seen; simpl; [set_solver|].
  rewrite IH. case_decide; set_solver.
Qed.

Lemma om_wf_New : om_wf OM_New.
Proof. split; [constructor|]. intros k. simpl. rewrite lookup_empty. set_solver. Qed.

Lemma om_wf_Set k v om : om_wf om -> om_wf (OM_Set k v om).
Proof.
  intros [Hnd Hin]. unfold OM_Set, om_wf. simpl. destruct (om_m om !! k) eqn:E; split.
  - done.
  - intros k'. rewrite Hin, lookup_insert. case_decide; [|done]. subst. rewrite E. naive_solver.
  - apply NoDup_app. repeat split; [done| |apply NoDup_singleton].
    intros x Hx. rewrite Hin in Hx. intros ->%list_elem_of_singleton. rewrite E in Hx. by destruct Hx.
  - intros k'. rewrite elem_of_app, Hin, list_elem_of_singleton, lookup_insert.
    case_decide; naive_solver.
Qed.

Lemma OM_Set_keys k v om :
  om_wf om -> (OM_Set k v om).(om_s) = first_occ [k] om.(om_s).
Proof.
  intros [_ Hin]. unfold OM_Set, first_occ. simpl.
  destruct (om_m om !! k) eqn:E.
  - rewrite decide_True; [done|]. apply Hin. eauto.
  - rewrite decide_False; [done|]. rewrite Hin, E. by intros [? ?].
Qed.

Lemma set_all_wf kvs om : om_wf om -> om_wf (set_all kvs om).
Proof.
  revert om. induction kvs as [|[k v] kvs IH]; intros om Hom; [done|].
  simpl. apply IH. by apply om_wf_Set.
Qed.

Lemma set_all_keys kvs om :
  om_wf om -> (set_all kvs om).(om_s) = first_occ (fst <$> kvs) om.(om_s).
Proof.
  revert om. induction kvs as [|[k v] kvs IH]; intros om Hom; [done|]. simpl.
  unfold set_all in *. rewrite IH by (by apply om_wf_Set). by rewrite OM_Set_keys.
Qed.

Lemma set_all_map kvs om k :
  (set_all kvs om).(om_m) !! k =
    match List.find (fun '(k', _) => bool_decide (k' = k)) (reverse kvs) with
    | Some (_, v) => Some v
    | None => om.(om_m) !! k
    end.
Proof.
  induction kvs as [|[k1 v1] kvs IH] using rev_ind; [done|].
  unfold set_all in *. rewrite fold_left_app, reverse_snoc. simpl. rewrite lookup_insert.
  case_decide; case_bool_decide; try done.
Qed.

Lemma OM_Merge_set_all zero om other :
  OM_Merge zero om other = set_all ((fun k => (k, OM_Get zero k other)) <$> other.(om_s)) om.
Proof.
  unfold OM_Merge, OM_Range, OM_Get. generalize (om_s other) as keys. intros keys.
  assert (range_keys (E := Empty_set) (fun k v om => Ok (OM_Set k v om)) zero (om_m other) keys om =
    Ok (set_all ((fun k => (k, default zero (om_m other !! k))) <$> keys) om)) as ->; [|done].
  revert om. induction keys as [|k keys IH]; intros om; [done|]. simpl. apply IH.
Qed.

Lemma OM_UnmarshalYAML_set_all {Node E} (decK : Node -> outcome E K) (decV : Node -> outcome E V)
    content kvs om :
  Forall2 (fun '(kn, vn) '(k, v) => decK kn = Ok k /\ decV vn = Ok v) content kvs ->
  OM_UnmarshalYAML decK decV content om = Ok (set_all kvs om).
Proof.
  intros HF. revert om. induction HF as [|[kn vn] [k v] content kvs [Hk Hv] _ IH]; intros om; [done|].
  simpl. rewrite Hk. simpl. rewrite Hv. simpl. apply IH.
Qed.

End OrderedMap.

(** A mapping node with decodable entries always loads into a well-formed
    ordered map: the keys come in the order of their first occurrence, without
    repetition, and a repeated key keeps the value of its last occurrence. *)
Theorem unmarshal_yaml_order {K V Node E} `{Countable K} (decK : Node -> outcome E K)
    (decV : Node -> outcome E V) (content : list (Node * Node)) (kvs : list (K * V)) :
  Forall2 (fun '(kn, vn) '(k, v) => decK kn = Ok k /\ decV vn = Ok v) content kvs ->
  exists om, OM_UnmarshalYAML decK decV content OM_New = Ok om /\ om_wf om /\
    OM_Keys om = first_occ (fst <$> kvs) [] /\
    (forall k, om.(om_m) !! k =
       snd <$> List.find (fun '(k', _) => bool_decide (k' = k)) (reverse kvs)).
Proof.
  intros HF. exists (set_all kvs OM_New). split; [by apply OM_UnmarshalYAML_set_all|].
  split; [apply set_all_wf, om_wf_New|]. split; [apply set_all_keys, om_wf_New|].
  intros k. rewrite set_all_map. simpl. rewrite lookup_empty.
  by destruct (List.find _ _) as [[]|].
Qed.

Lemma unmarshal_yaml_order_witness :
  exists om : OrderedMap string nat,
    OM_UnmarshalYAML (E := string) (Node := string * nat) (fun n => Ok (fst n)) (fun n => Ok (snd n))
      [(("b", 0), ("", 1)); (("a", 0), ("", 2)); (("b", 0), ("", 3))] OM_New = Ok om /\
    OM_Keys om = ["b"; "a"].
Proof.
  destruct (unmarshal_yaml_order (E := string) (Node := string * nat)
    (fun n => Ok (fst n)) (fun n => Ok (snd n))
    [(("b", 0), ("", 1)); (("a", 0), ("", 2)); (("b", 0), ("", 3))]
    [("b", 1); ("a", 2); ("b", 3)]) as (om & H1 & _ & H2 & _).
  - repeat constructor.
  - exists om. split; [exact H1|exact H2].
Defined.

(** [FromMapWithOrder] accepts an order exactly when it lists the map's
    keys, each once; otherwise it panics.  (The code compares lengths and looks
    every map key up in the order; a counting argument gives the rest.) *)
Theorem from_map_with_order_wf {K V} `{Countable K} (m : gmap K V) (order : list K) :
  match OM_FromMapWithOrder m order with
  | Ok om => om = mkOM order m /\ om_wf om
  | Err _ => False
  | Panic _ => ~ om_wf (mkOM order m)
  end.
Proof.
  unfold OM_FromMapWithOrder.
  pose proof (elem_of_map_keys m) as Hkeys.
  assert (length (map_to_list m).*1 = size m) as Hlen by (by rewrite length_fmap, length_map_to_list).
  case_decide as Hsz.
  - destruct (forallb _ _) eqn:Hall.
    + split; [done|]. apply Is_true_true_2 in Hall. rewrite forallb_True, Forall_forall in Hall.
      assert ((map_to_list m).*1 ⊆ order) as Hsub.
      { intros k ([k' v] & -> & Hin)%list_elem_of_fmap. specialize (Hall _ Hin). simpl in *.
        by apply bool_decide_unpack in Hall. }
      assert (order ≡ₚ (map_to_list m).*1) as Hperm.
      { symmetry. apply submseteq_length_Permutation; [|lia].
        apply NoDup_submseteq; [apply NoDup_fst_map_to_list|]. intros x Hx. by apply Hsub. }
      split; simpl.
      * rewrite Hperm. apply NoDup_fst_map_to_list.
      * intros k. rewrite <- Hkeys. by rewrite Hperm.
    + intros [_ Hin]. simpl in Hin.
      assert (forallb (fun '(k, _) => bool_decide (k ∈ order)) (map_to_list m) = true); [|congruence].
      apply Is_true_true_1, forallb_True, Forall_forall. intros [k v] Hkv. simpl.
      apply bool_decide_pack, Hin. apply elem_of_map_to_list in Hkv. eauto.
  - intros [Hnd Hin]. simpl in *. apply Hsz. rewrite <- Hlen. apply Permutation_length.
    apply NoDup_Permutation; [apply NoDup_fst_map_to_list|done|].
    intros k. by rewrite Hkeys, Hin.
Qed.

(** Merging another map in keeps the invariant, keeps the positions of
    the present keys, appends the new ones in their order, and lets the other
    map's values win. *)
Theorem merge_spec {K V} `{Countable K} (zero : V) (om other : OrderedMap K V) :
  om_wf om -> om_wf other ->
  om_wf (OM_Merge zero om other) /\
  OM_Keys (OM_Merge zero om other) = first_occ (OM_Keys other) (OM_Keys om) /\
  (forall k, OM_Get zero k (OM_Merge zero om other) =
     if OM_Exists k other then OM_Get zero k other else OM_Get zero k om).
Proof.
  intros Hom [Hnd Hin]. rewrite OM_Merge_set_all. split; [by apply set_all_wf|]. split.
  - unfold OM_Keys. rewrite set_all_keys by done. f_equal. rewrite <- list_fmap_compose.
    by apply list_fmap_id.
  - intros k. unfold OM_Get at 1. rewrite set_all_map. unfold OM_Exists.
    rewrite <- fmap_reverse. case_bool_decide as Hk.
    + assert (k ∈ reverse (om_s other)) as Hk' by (by apply elem_of_reverse, Hin).
      clear -Hk'. induction (reverse (om_s other)) as [|x l IH]; [set_solver|]. simpl.
      case_bool_decide; [by subst|]. apply IH. set_solver.
    + rewrite <- Hin in Hk. assert (k ∉ reverse (om_s other)) as Hk' by (by rewrite elem_of_reverse).
      clear -Hk'. induction (reverse (om_s other)) as [|x l IH]; [done|]. simpl.
      case_bool_decide; [set_solver|]. apply IH. set_solver.
Qed.

Lemma merge_spec_witness :
  om_wf (set_all [("a", 1)] OM_New) /\
  OM_Get 0 "a" (OM_Merge 0 (set_all [("a", 1)] OM_New) (set_all [("a", 2)] OM_New)) = 2.
Proof.
  split; [apply set_all_wf, om_wf_New|].
  destruct (merge_spec 0 (set_all [("a", 1)] OM_New) (set_all [("a", 2)] OM_New)) as (_ & _ & Hg);
    [apply set_all_wf, om_wf_New|apply set_all_wf, om_wf_New|].
  exact (Hg "a").
Defined.
