(* ===== verification/VarStack.v ===== *)
(** [varTemp] of [pkg/workflow/template.go]: the stack of scopes that holds the
    temporary variables of a template, at compile time (names only) and at run
    time.  The last scope is the innermost, the last entry of a scope the
    newest.  [Stack], the stack of open rows that [Build] uses, is here too. *)

From S2P Require Import Prelude.

(** ** Scopes *)

Record kv (V : Type) := mkKv { key : string; value : V }.
Arguments mkKv {V} _ _.
Arguments key {V} _.
Arguments value {V} _.

Section VarTemp.
Context {V : Type}.
Implicit Types vt : list (list (kv V)).

(** [items[len-1] = append(items[len-1], kv)]: panics on an empty stack. *)
Definition varTemp_Push {E} (e : kv V) vt : outcome E (list (list (kv V))) :=
  match last vt with
  | None => Panic IndexOutOfRange
  | Some top => Ok (removelast vt ++ [top ++ [e]])
  end.

Definition varTemp_Append vt : list (list (kv V)) := vt ++ [[]].

Definition varTemp_ClearTop vt : outcome string (list (list (kv V))) :=
  match vt with
  | [] => Err "stack empty"
  | _ => Ok (removelast vt ++ [[]])
  end.

Definition varTemp_Pop vt : outcome string (list (list (kv V))) :=
  match vt with
  | [] => Err "stack empty"
  | _ => Ok (removelast vt)
  end.

Definition varTemp_Top vt : option (list (kv V)) := last vt.

(** The inner loop of [Set]: the newest entry of the scope with the key is
    replaced, then the loop breaks. *)
Fixpoint set_newest (e : kv V) (scope : list (kv V)) : option (list (kv V)) :=
  match scope with
  | [] => None
  | t :: rest =>
    match set_newest e rest with
    | Some rest' => Some (t :: rest')
    | None => if decide (t.(key) = e.(key)) then Some (e :: rest) else None
    end
  end.

(** The outer loop of [Set]: every scope is visited. *)
Definition set_scopes (e : kv V) vt : list (list (kv V)) :=
  (fun scope => default scope (set_newest e scope)) <$> vt.

Definition scope_has (k : string) (scope : list (kv V)) : bool :=
  existsb (fun e => bool_decide (e.(key) = k)) scope.

(** [existIn]. *)
Definition existIn vt (k : string) : bool := existsb (scope_has k) vt.

Definition varTemp_Set {E} (e : kv V) vt : outcome E (list (list (kv V))) :=
  if existIn vt e.(key) then Ok (set_scopes e vt) else varTemp_Push e vt.

Definition newest (k : string) (scope : list (kv V)) : option (kv V) :=
  List.find (fun e => bool_decide (e.(key) = k)) (reverse scope).

(** [GetValue]: innermost scope first, newest entry first. *)
Fixpoint first_some {A B} (f : A -> option B) (l : list A) : option B :=
  match l with
  | [] => None
  | x :: rest => match f x with Some b => Some b | None => first_some f rest end
  end.

Definition varTemp_GetValue vt (k : string) : option (kv V) := first_some (newest k) (reverse vt).

(** ** Facts *)

Lemma removelast_last (vt : list (list (kv V))) top :
  last vt = Some top -> vt = removelast vt ++ [top].
Proof.
  intros [l ->]%last_Some. by rewrite removelast_app by done; simpl; rewrite app_nil_r.
Qed.

Lemma varTemp_Push_snoc {E} (e : kv V) vt scope :
  varTemp_Push (E:=E) e (vt ++ [scope]) = Ok (vt ++ [scope ++ [e]]).
Proof. unfold varTemp_Push. by rewrite last_snoc, List.removelast_last. Qed.

Lemma newest_snoc k scope e :
  newest k (scope ++ [e]) = if decide (e.(key) = k) then Some e else newest k scope.
Proof.
  unfold newest. rewrite reverse_snoc. simpl. by case_bool_decide; case_decide.
Qed.

Lemma newest_cons k scope e :
  newest k (e :: scope) =
    match newest k scope with
    | Some e' => Some e'
    | None => if decide (e.(key) = k) then Some e else None
    end.
Proof.
  unfold newest. rewrite reverse_cons.
  induction (reverse scope) as [|x l IH]; simpl; [by case_bool_decide; case_decide|].
  case_bool_decide; done.
Qed.

Lemma newest_None k scope : newest k scope = None <-> scope_has k scope = false.
Proof.
  unfold scope_has. induction scope as [|e scope IH]; [done|]. rewrite newest_cons. simpl.
  rewrite orb_false_iff, <- IH. destruct (newest k scope); case_decide; case_bool_decide;
    split; naive_solver.
Qed.

Lemma newest_key k scope e : newest k scope = Some e -> e.(key) = k.
Proof.
  unfold newest. intros [_ H]%List.find_some. by apply bool_decide_eq_true in H.
Qed.

Lemma set_newest_None e scope : set_newest e scope = None <-> scope_has e.(key) scope = false.
Proof.
  unfold scope_has. induction scope as [|t scope IH]; [done|]. simpl.
  rewrite orb_false_iff, <- IH. destruct (set_newest e scope); case_decide; case_bool_decide;
    split; naive_solver.
Qed.

Lemma newest_set_newest k e scope :
  newest k (default scope (set_newest e scope)) =
    if decide (k = e.(key)) then
      if scope_has k scope then Some e else None
    else newest k scope.
Proof.
  induction scope as [|t scope IH]; simpl; [by case_decide|].
  destruct (set_newest e scope) as [scope'|] eqn:Hs; simpl in *.
  - rewrite !newest_cons, IH. case_decide as Hk; [|done].
    assert (scope_has e.(key) scope = true) as Hh.
    { destruct (scope_has e.(key) scope) eqn:E; [done|]. apply set_newest_None in E. congruence. }
    subst k. by rewrite Hh, orb_true_r.
  - apply set_newest_None in Hs. pose proof Hs as Hn. apply newest_None in Hn.
    destruct (decide (key t = key e)) as [Ht|Ht]; simpl; rewrite !newest_cons.
    + case_decide as Hk.
      * subst k. rewrite Hn, bool_decide_eq_true_2 by done. by rewrite decide_True.
      * rewrite (decide_False (P := key e = k)) by congruence.
        rewrite (decide_False (P := key t = k)) by congruence. done.
    + case_decide as Hk; [|done]. subst k.
      rewrite Hn, Hs, bool_decide_eq_false_2 by done. by rewrite decide_False.
Qed.

Lemma first_some_snoc {A B} (f : A -> option B) l x :
  first_some f (l ++ [x]) = match first_some f l with Some b => Some b | None => f x end.
Proof. induction l as [|y l IH]; simpl; [by destruct (f x)|]. by destruct (f y). Qed.

Lemma GetValue_snoc vt scope k :
  varTemp_GetValue (vt ++ [scope]) k =
    match newest k scope with Some e => Some e | None => varTemp_GetValue vt k end.
Proof. unfold varTemp_GetValue. by rewrite reverse_snoc. Qed.

Lemma GetValue_None vt k : varTemp_GetValue vt k = None <-> existIn vt k = false.
Proof.
  unfold existIn. induction vt as [|scope vt IH] using rev_ind; [done|].
  rewrite GetValue_snoc, existsb_app. simpl. rewrite orb_false_r, orb_false_iff, <- IH, <- newest_None.
  destruct (newest k scope); naive_solver.
Qed.

Lemma GetValue_set_scopes e vt k :
  varTemp_GetValue (set_scopes e vt) k =
    if decide (k = e.(key)) then
      if existIn vt k then Some e else None
    else varTemp_GetValue vt k.
Proof.
  unfold set_scopes. induction vt as [|scope vt IH] using rev_ind; [by case_decide|].
  rewrite fmap_app. simpl. rewrite !GetValue_snoc, newest_set_newest, IH.
  unfold existIn. rewrite existsb_app. simpl. rewrite orb_false_r.
  case_decide; [|done]. destruct (scope_has k scope); [by rewrite orb_true_r|].
  by rewrite orb_false_r.
Qed.

Lemma GetValue_Push {E} e vt vt' k :
  varTemp_Push (E := E) e vt = Ok vt' ->
  varTemp_GetValue vt' k = if decide (k = e.(key)) then Some e else varTemp_GetValue vt k.
Proof.
  unfold varTemp_Push. destruct (last vt) as [top|] eqn:Hl; [|done]. intros [= <-].
  apply removelast_last in Hl.
  assert (varTemp_GetValue vt k = varTemp_GetValue (removelast vt ++ [top]) k) as -> by (by f_equal).
  rewrite !GetValue_snoc, newest_snoc.
  repeat case_decide; done || congruence.
Qed.

Lemma varTemp_Push_ok {E} e vt :
  vt <> [] -> exists vt', varTemp_Push (E := E) e vt = Ok vt' /\ length vt' = length vt.
Proof.
  intros Hne. unfold varTemp_Push. destruct (last vt) as [top|] eqn:Hl.
  - eexists. split; [done|]. apply removelast_last, (f_equal length) in Hl.
    rewrite length_app in *. simpl in *. lia.
  - by apply last_None in Hl.
Qed.

End VarTemp.

(** Setting a variable makes it readable with the new value and leaves
    every other variable alone; a variable that exists is never added a second
    time.  The assignment also reaches the shadowed variables of the outer
    scopes: after leaving any number of scopes a visible variable of that name
    has the new value. *)
Theorem varTemp_set_get {V} (e : kv V) (vt vt' : list (list (kv V))) :
  varTemp_Set (E := string) e vt = Ok vt' ->
  varTemp_GetValue vt' e.(key) = Some e /\
  (forall k, k <> e.(key) -> varTemp_GetValue vt' k = varTemp_GetValue vt k) /\
  (existIn vt e.(key) = true -> forall n, existIn (take n vt) e.(key) = true ->
     varTemp_GetValue (take n vt') e.(key) = Some e).
Proof.
  unfold varTemp_Set. destruct (existIn vt (key e)) eqn:He.
  - intros [= <-]. split_and!.
    + by rewrite GetValue_set_scopes, decide_True, He.
    + intros k Hk. by rewrite GetValue_set_scopes, decide_False.
    + intros _ n Hn. unfold set_scopes. rewrite <- fmap_take.
      change (varTemp_GetValue (set_scopes e (take n vt)) (key e) = Some e).
      by rewrite GetValue_set_scopes, decide_True, Hn.
  - intros Hp. split_and!; [| |done].
    + rewrite (GetValue_Push _ _ _ _ Hp). by rewrite decide_True.
    + intros k Hk. rewrite (GetValue_Push _ _ _ _ Hp). by rewrite decide_False.
Qed.

Lemma varTemp_set_get_witness :
  varTemp_GetValue [[mkKv "x" 5]; [mkKv "x" 5]] "x" = Some (mkKv "x" 5).
Proof.
  apply (varTemp_set_get (mkKv "x" 5) [[mkKv "x" 1]; [mkKv "x" 2]]). reflexivity.
Defined.

(** ** The row stack *)

Definition Stack_Push (item : nat) (s : list nat) : list nat := s ++ [item].

Definition Stack_Pop (s : list nat) : outcome string (nat * list nat) :=
  match last s with
  | None => Err "stack is empty"
  | Some item => Ok (item, removelast s)
  end.

Definition Stack_Peek (s : list nat) : outcome string nat :=
  match last s with
  | None => Err "stack is empty"
  | Some item => Ok item
  end.

Lemma Stack_Pop_ok s item s' : Stack_Pop s = Ok (item, s') -> s = s' ++ [item].
Proof.
  unfold Stack_Pop. destruct (last s) as [x|] eqn:Hl; [|done]. intros [= -> <-].
  apply last_Some in Hl as [l ->]. by rewrite removelast_app by done; simpl; rewrite app_nil_r.
Qed.
