(* ===== verification/Template.v ===== *)
(** The template compiler of [pkg/workflow/template.go]: the tokenizer, the
    checks of one expression row ([complieChainExps]), the brace scanner
    ([Parse]) and the jump table ([Build]).

    The JavaScript runtime (goja) is a parameter: [Funcs] is [None] for a nil
    runtime, and otherwise says for each name whether it is undefined, not
    callable, or a function.  The compiler mutates the template it builds and
    the scope stack; both are threaded through, and an error discards them as
    [Broker.Compile] does. *)

From stdpp Require Import sorting.
From Stdlib Require Import Ascii.
From S2P Require Import Prelude GoStrings Names OrderedMap VarStack.

Record Var := mkVar { var_id : Z; var_name : string; Value : string }.

Definition zero_var : Var := mkVar 0 "" "".

Record Expression := mkExp { Func : string; Params : list string }.

#[export] Instance Expression_eq_dec : EqDecision Expression.
Proof. solve_decision. Defined.

(** ** Keywords *)

Definition IF_EXP : string := "if".
Definition ELSE_EXP : string := "else".
Definition ELSEIF_EXP : string := "elseif".
Definition SET_EXP : string := "set".
Definition SUB_EXP : string := "sub".
Definition MERGE_EXP : string := "merge".
Definition RANGE_EXP : string := "range".
Definition GET_EXP : string := "get".
Definition GETP_EXP : string := "getp".
Definition PUT_EXP : string := "put".
Definition PUSH_EXP : string := "push".
Definition DELETE_EXP : string := "delete".
Definition POP_EXP : string := "pop".
Definition PARSE_EXP : string := "parse".
Definition SEND : string := "send".
Definition SENDU : string := "sendu".
Definition SENDSYNC : string := "sendsync".
Definition WAIT_EXP : string := "wait".
Definition WAITE_EXP : string := "waite".
Definition EQ_EXP : string := "eq".
Definition NE_EXP : string := "ne".
Definition LT_EXP : string := "lt".
Definition LE_EXP : string := "le".
Definition GT_EXP : string := "gt".
Definition GE_EXP : string := "ge".
Definition END_EXP : string := "end".
Definition BREAK_EXP : string := "break".
Definition RETURN_EXP : string := "return".
Definition DEFINE : string := "define".
Definition PRINTF_EXP : string := "printf".

Definition OPEN_EXP : list string :=
  [MERGE_EXP; RANGE_EXP; PUT_EXP; DELETE_EXP; POP_EXP; IF_EXP; GET_EXP; PUSH_EXP; WAIT_EXP; WAITE_EXP].
Definition COMPARE_EXP : list string := [EQ_EXP; NE_EXP; LT_EXP; LE_EXP; GT_EXP; GE_EXP].
Definition FUNC_BUILDIN : list string := [SUB_EXP; MERGE_EXP].
Definition FUNC_CAN_EMPTY_INPUT : list string := [ELSE_EXP; END_EXP; RETURN_EXP; PARSE_EXP].

(** ** The tokenizer: [\([^)]*\)|\S+] *)

(** Go's [\s]. *)
Definition re_space (c : ascii) : bool :=
  match c with
  | "009" | "010" | "012" | "013" | " " => true
  | _ => false
  end%char.

(** The text up to and including the first [)], if there is one. *)
Fixpoint until_close (l : list ascii) : option (list ascii * list ascii) :=
  match l with
  | [] => None
  | c :: l' =>
    if Ascii.eqb c ")" then Some ([c], l')
    else match until_close l' with
         | Some (tok, rest) => Some (c :: tok, rest)
         | None => None
         end
  end.

Fixpoint non_spaces (l : list ascii) : list ascii * list ascii :=
  match l with
  | [] => ([], [])
  | c :: l' => if re_space c then ([], l) else let '(tok, rest) := non_spaces l' in (c :: tok, rest)
  end.

(** All matches, left to right; [fuel] is the length of the text. *)
Fixpoint find_tokens (fuel : nat) (l : list ascii) : list string :=
  match fuel, l with
  | S fuel, c :: l' =>
    if re_space c then find_tokens fuel l'
    else match (if Ascii.eqb c "(" then until_close l' else None) with
         | Some (tok, rest) => implode (c :: tok) :: find_tokens fuel rest
         | None => let '(tok, rest) := non_spaces l in implode tok :: find_tokens fuel rest
         end
  | _, _ => []
  end.

Definition tokenize (s : string) : list string := find_tokens (length (explode s)) (explode s).

(** ** Expression rows *)

(** Why a template is rejected. *)
Inductive compile_error : Type :=
| NotConst (p : string)
| NotDefinedParam (e : string)
| UndefinedFunc (f : string)
| FuncNotCallable (f : string)
| NotInPipeline (f : string)
| BadParams (f : string)
| UnsupportedType (t : string)
| ScopeStackEmpty
| RowStackEmpty
| EmptyExpression
| RedundantOpenBrace
| MissingOpenBrace
| MissingCloseBrace
| InvalidText (s : string)
| RedundantEnd (s : string)
| MissingEnd
| NotVariable (v : string)
| NotListened (v : string)
| NotDefinedVar (v : string).

(** What a name is bound to in the JavaScript runtime. *)
Inductive js_lookup (Fn : Type) : Type :=
| JsUndefined
| JsNotCallable
| JsFunction (f : Fn).
Arguments JsUndefined {Fn}.
Arguments JsNotCallable {Fn}.
Arguments JsFunction {Fn} _.

(** [FuncCall]. *)
Record FuncCall (Fn : Type) := mkFuncCall {
  Call : gmap string Fn;
  Funcs : option (string -> js_lookup Fn)
}.
Arguments mkFuncCall {Fn} _ _.
Arguments Call {Fn} _.
Arguments Funcs {Fn} _.

Definition FuncCall_GetFunction {Fn} (fc : FuncCall Fn) (name : string) : option Fn :=
  match fc.(Call) !! name with
  | Some f => Some f
  | None =>
    match fc.(Funcs) with
    | None => None
    | Some get =>
      match get name with
      | JsFunction f => Some f
      | _ => None
      end
    end
  end.

Record Template (Fn : Type) := mkTemplate {
  ListenVars : gset string;
  Vars : option (OrderedMap string (option Var));
  IndexRun : gmap nat nat;
  Input : list string;
  Exps : list (list Expression);
  FuncCalls : FuncCall Fn;
  FuncNotFound : list string
}.
Arguments mkTemplate {Fn} _ _ _ _ _ _ _.
Arguments ListenVars {Fn} _.
Arguments Vars {Fn} _.
Arguments IndexRun {Fn} _.
Arguments Input {Fn} _.
Arguments Exps {Fn} _.
Arguments FuncCalls {Fn} _.
Arguments FuncNotFound {Fn} _.

Definition NewTemplate {Fn} (funcs : option (string -> js_lookup Fn)) : Template Fn :=
  mkTemplate ∅ None ∅ [] [] (mkFuncCall ∅ funcs) [].

Definition add_not_found {Fn} (t : Template Fn) (f : string) : Template Fn :=
  mkTemplate t.(ListenVars) t.(Vars) t.(IndexRun) t.(Input) t.(Exps) t.(FuncCalls)
    (t.(FuncNotFound) ++ [f]).

Definition add_call {Fn} (t : Template Fn) (name : string) (f : Fn) : Template Fn :=
  mkTemplate t.(ListenVars) t.(Vars) t.(IndexRun) t.(Input) t.(Exps)
    (mkFuncCall (<[name:=f]> t.(FuncCalls).(Call)) t.(FuncCalls).(Funcs)) t.(FuncNotFound).

Definition add_row {Fn} (t : Template Fn) (row : list Expression) : Template Fn :=
  mkTemplate t.(ListenVars) t.(Vars) t.(IndexRun) t.(Input) (t.(Exps) ++ [row]) t.(FuncCalls)
    t.(FuncNotFound).

(** [t.ListenVars[v] = true]. *)
Definition listen {Fn} (t : Template Fn) (v : string) : Template Fn :=
  mkTemplate ({[v]} ∪ t.(ListenVars)) t.(Vars) t.(IndexRun) t.(Input) t.(Exps) t.(FuncCalls)
    t.(FuncNotFound).

(** Scopes at compile time hold names only. *)
Abbreviation scopes := (list (list (kv unit))).

Definition name_kv (k : string) : kv unit := mkKv k tt.

Definition isContants (s : string) : bool := HasPrefix s "(" && HasSuffix s ")".

Section Compile.
Context {Fn : Type}.
Implicit Types t : Template Fn.

(** The loop of [checkValidParam] ends at the first parameter that is a
    constant, a workflow variable or an input; only parameters before it are
    looked up in the scopes. *)
Fixpoint checkValidParam t (items : list string) (vt : scopes) : outcome compile_error () :=
  match items with
  | [] => Ok ()
  | e :: items =>
    if negb (HasPrefix e ".") then
      if isContants e then Ok () else Err (NotConst e)
    else if match t.(Vars) with
            | Some vars => OM_Exists (TrimPrefix e ".") vars
            | None => false
            end then Ok ()
    else if includes t.(Input) (TrimPrefix e ".") then Ok ()
    else if existIn vt e then checkValidParam t items vt
    else Err (NotDefinedParam e)
  end.

(** One loop of [checkVariableDefault] over a table of suffixes: a suffix that
    matches needs its root among the inputs, and marks the variable listened. *)
Fixpoint check_suffixes t (table : list string) (sub v : string) (isExist : bool)
    : outcome compile_error (Template Fn * bool) :=
  match table with
  | [] => Ok (t, isExist)
  | e :: table =>
    if HasSuffix v e then
      let _v := getVarName (TrimSuffix v (TrimPrefix e sub)) in
      if includes t.(Input) (ToLower _v) then check_suffixes (listen t v) table sub v true
      else Err (NotListened v)
    else check_suffixes t table sub v isExist
  end.

(** [checkVariableDefault], which the sources never call. *)
Definition checkVariableDefault t (exp v : string) : outcome compile_error (Template Fn) :=
  if negb (HasPrefix v ".") then Err (NotVariable v)
  else
    let isExist := HasSuffix v SubTask || HasSuffix v SubChannel || HasSuffix v SubClient in
    let t := if isExist then listen t v else t in
    '(t, isExist) ← check_suffixes t SubTasks SubTask v isExist;
    '(t, isExist) ← check_suffixes t SubClients SubTask v isExist;
    '(t, isExist) ← check_suffixes t SubChannels SubChannel v isExist;
    if (isExist : bool) then Ok t else Err (NotDefinedVar v).

(** [for _, e := range items { if e == "|" { ... } }]. *)
Fixpoint split_chain (items buf : list string) : list (list string) :=
  match items with
  | [] => match buf with [] => [] | _ => [buf] end
  | e :: items =>
    if bool_decide (e = "|") then buf :: split_chain items []
    else split_chain items (buf ++ [e])
  end.

(** Failures of the scope stack become compile errors. *)
Definition scope_op (m : outcome string scopes) : outcome compile_error scopes :=
  match m with
  | Ok vt => Ok vt
  | Err _ => Err ScopeStackEmpty
  | Panic p => Panic p
  end.

(** What one link of a chain does: it adds an expression, or it makes the
    whole call return [nil, 0, nil] (a function that is only known on the
    client). *)
Inductive link_result : Type :=
| LinkExp (t : Template Fn) (vt : scopes) (opened : Z) (e : Expression)
| LinkReturn (t : Template Fn) (vt : scopes).

(** Go's [c[i:]] on a slice whose capacity may exceed its length never differs
    from [drop] here, since [i <= len(c)] in every use. *)
Definition compile_keyword t (restrict : bool) (idx : nat) (c : list string) (vt : scopes) (opened : Z)
    : outcome compile_error link_result :=
  c0 ← go_index c 0;
  let link t vt opened := Ok (LinkExp t vt opened (mkExp c0 (drop 1 c))) in
  let kw k := bool_decide (c0 = k) in
  if kw IF_EXP || kw ELSEIF_EXP then
    if 0 <? idx then Err (NotInPipeline c0)
    else if length c =? 1 then Err (BadParams c0)
    else
      c1 ← go_index c 1;
      let check :=
        _ ← checkValidParam t (drop 2 c) vt;
        if kw IF_EXP then link t vt 1%Z
        else vt ← scope_op (varTemp_ClearTop vt); link t vt opened in
      if negb (includes COMPARE_EXP c1) && negb (includes FUNC_BUILDIN c1) && negb (HasPrefix c1 ".") then
        match t.(FuncCalls).(Funcs) with
        | None => check
        | Some get =>
          match get c1 with
          | JsUndefined =>
            if restrict then Err (UndefinedFunc c1) else Ok (LinkReturn (add_not_found t c0) vt)
          | JsNotCallable => Err (FuncNotCallable c1)
          | JsFunction _ => check
          end
        end
      else check
  else if kw ELSE_EXP then
    if (0 <? idx) || negb (length c =? 1) then Err (BadParams c0)
    else vt ← scope_op (varTemp_ClearTop vt); link t vt opened
  else if kw END_EXP then
    if 1 <? length c then Err (BadParams c0)
    else vt ← scope_op (varTemp_Pop vt); link t vt (opened - 1)%Z
  else if kw SET_EXP || kw DEFINE then
    if negb (length c =? 3) then Err (BadParams c0)
    else
      c1 ← go_index c 1;
      c2 ← go_index c 2;
      if kw DEFINE && negb (includes ["map"; "array"; "number"; "string"] c2)
      then Err (UnsupportedType c2)
      else vt ← varTemp_Push (name_kv (ToLower c1)) vt; link t vt opened
  else if kw RANGE_EXP then
    if 0 <? idx then Err (NotInPipeline c0)
    else
      p ← go_slice c 1 2;
      _ ← checkValidParam t p vt;
      c2 ← go_index c 2;
      vt ← varTemp_Push (name_kv c2) vt;
      c3 ← go_index c 3;
      vt ← varTemp_Push (name_kv c3) vt;
      link t vt (opened + 1)%Z
  else if kw SUB_EXP || kw MERGE_EXP then
    if (idx =? 0) && (length c =? 2) then Err (BadParams c0)
    else _ ← checkValidParam t (drop 1 c) vt; link t vt (opened + 1)%Z
  else if kw PARSE_EXP then
    if (idx =? 0) && (length c =? 1) then Err (BadParams c0) else link t vt opened
  else if kw BREAK_EXP then
    if 0 <? idx then Err (NotInPipeline c0)
    else vt ← scope_op (varTemp_Pop vt); link t vt opened
  else if kw WAIT_EXP || kw WAITE_EXP then
    if forallb (fun e => includes t.(Input) (TrimPrefix e ".") || HasSuffix e SubChannel || HasSuffix e SubTask)
         (drop 1 c)
    then
      c1 ← go_index c 1;
      vt ← varTemp_Push (name_kv c1) vt;
      link t (varTemp_Append vt) (opened + 1)%Z
    else Err (BadParams c0)
  else if kw PRINTF_EXP then
    c1 ← go_index c 1;
    if isContants c1 then link t vt opened else Err (NotConst c1)
  else if kw SEND || kw SENDU || kw SENDSYNC then
    if (length c =? 1) || (3 <? length c) then Err (BadParams c0) else link t vt opened
  else if kw GET_EXP || kw PUT_EXP || kw DELETE_EXP || kw POP_EXP || kw GETP_EXP then
    if length c =? 1 then Err (BadParams c0)
    else _ ← checkValidParam t (drop 1 c) vt; link t vt (opened + 1)%Z
  else if kw RETURN_EXP then link t vt opened
  else if kw PUSH_EXP then link t vt (opened + 1)%Z
  else
    match t.(FuncCalls).(Funcs) with
    | Some get =>
      match get c0 with
      | JsUndefined =>
        if restrict then Err (UndefinedFunc c0) else Ok (LinkReturn (add_not_found t c0) vt)
      | JsNotCallable => Err (FuncNotCallable c0)
      | JsFunction f => link (add_call t c0 f) vt opened
      end
    | None =>
      if restrict then Err (UndefinedFunc c0) else link (add_not_found t c0) vt opened
    end.

(** One link: the one-word forms first, then the keyword switch. *)
Definition compile_link t (restrict : bool) (idx : nat) (c : list string) (vt : scopes) (opened : Z)
    : outcome compile_error link_result :=
  match c with
  | [c0] =>
    if HasPrefix c0 "." then
      _ ← (if idx =? 0 then checkValidParam t c vt else Ok ());
      vt ← varTemp_Push (name_kv (ToLower c0)) vt;
      Ok (LinkExp t vt opened (mkExp "set" c))
    else if includes FUNC_CAN_EMPTY_INPUT c0 then compile_keyword t restrict idx c vt opened
    else
      match t.(FuncCalls).(Funcs) with
      | Some _ =>
        match FuncCall_GetFunction t.(FuncCalls) c0 with
        | None =>
          if restrict then Err (UndefinedFunc c0)
          else Ok (LinkExp (add_not_found t c0) vt opened (mkExp c0 []))
        | Some _ => Ok (LinkExp t vt opened (mkExp c0 []))
        end
      | None => compile_keyword t restrict idx c vt opened
      end
  | _ => compile_keyword t restrict idx c vt opened
  end.

(** The loop over the links of a chain. *)
Fixpoint compile_links t (restrict : bool) (idx : nat) (chain : list (list string)) (vt : scopes)
    (opened : Z) (exps : list Expression)
    : outcome compile_error (Template Fn * scopes * list Expression * Z) :=
  match chain with
  | [] =>
    if (0 <? opened)%Z then Ok (t, varTemp_Append vt, exps, 1%Z) else Ok (t, vt, exps, opened)
  | c :: chain =>
    r ← compile_link t restrict idx c vt opened;
    match r with
    | LinkExp t vt opened e => compile_links t restrict (S idx) chain vt opened (exps ++ [e])
    | LinkReturn t vt => Ok (t, vt, [], 0%Z)
    end
  end.

Definition complieChainExps t (items : list string) (vt : scopes) (restrict : bool)
    : outcome compile_error (Template Fn * scopes * list Expression * Z) :=
  compile_links t restrict 0 (split_chain items []) vt 0 [].

Definition compileExp t (exp : string) (vt : scopes) (restrict : bool)
    : outcome compile_error (Template Fn * scopes * list Expression * Z) :=
  let exp := Trim exp " " in
  if bool_decide (exp = "") then Err EmptyExpression
  else
    let items :=
      (fun e => if HasPrefix e "." || HasPrefix e "(" then ToLower e else e) <$> tokenize exp in
    complieChainExps t items vt restrict.

(** ** The brace scanner *)

Record scan := mkScan {
  sc_t : Template Fn;
  sc_vt : scopes;
  sc_open : Z;
  sc_close : Z;
  sc_exp : list ascii;
  sc_openExp : Z
}.

Definition scan_step (restrict : bool) (s : scan) (c : ascii) : outcome compile_error scan :=
  if Ascii.eqb c "{" then
    let open := (s.(sc_open) + 1)%Z in
    if (2 <? open - s.(sc_close))%Z then Err RedundantOpenBrace
    else if (open - s.(sc_close) <? 0)%Z then Err MissingOpenBrace
    else Ok (mkScan s.(sc_t) s.(sc_vt) open s.(sc_close) [] s.(sc_openExp))
  else if Ascii.eqb c "}" then
    let close := (s.(sc_close) + 1)%Z in
    if (s.(sc_open) - close <? 0)%Z then Err MissingOpenBrace
    else if (s.(sc_open) =? close)%Z && negb (bool_decide (s.(sc_exp) = [])) then
      r ← compileExp s.(sc_t) (implode s.(sc_exp)) s.(sc_vt) restrict;
      let '(t, vt, exp, ope) := r in
      let openExp := (s.(sc_openExp) + ope)%Z in
      if (openExp <? 0)%Z then Err (RedundantEnd (implode s.(sc_exp)))
      else Ok (mkScan (add_row t exp) vt s.(sc_open) close [] openExp)
    else Ok (mkScan s.(sc_t) s.(sc_vt) s.(sc_open) close s.(sc_exp) s.(sc_openExp))
  else if negb (s.(sc_open) - s.(sc_close) =? 2)%Z
          && negb (bool_decide (TrimSpace (implode s.(sc_exp)) = ""))
  then Err (InvalidText (implode s.(sc_exp)))
  else Ok (mkScan s.(sc_t) s.(sc_vt) s.(sc_open) s.(sc_close) (s.(sc_exp) ++ [c]) s.(sc_openExp)).

Fixpoint scan_text (restrict : bool) (l : list ascii) (s : scan) : outcome compile_error scan :=
  match l with
  | [] => Ok s
  | c :: l => s' ← scan_step restrict s c; scan_text restrict l s'
  end.

Definition set_vars t (vars : option (OrderedMap string (option Var))) : Template Fn :=
  mkTemplate t.(ListenVars) vars t.(IndexRun) t.(Input) t.(Exps) t.(FuncCalls) t.(FuncNotFound).

Definition Template_Parse t (str : string) (globalVar : option (OrderedMap string (option Var))) (restrict : bool)
    : outcome compile_error (Template Fn) :=
  s ← scan_text restrict (explode str) (mkScan (set_vars t globalVar) [[]] 1 1 [] 0);
  if (0 <? s.(sc_open) - s.(sc_close))%Z then Err MissingCloseBrace
  else if negb (s.(sc_openExp) =? 0)%Z then Err MissingEnd
  else Ok s.(sc_t).

(** ** The jump table *)

(** What the inner loop of [Build] finds first in a row. *)
Inductive row_kind : Type := RowOpen | RowMiddle | RowEnd | RowPlain.

Fixpoint row_kind_of (row : list Expression) : row_kind :=
  match row with
  | [] => RowPlain
  | e :: row =>
    if includes OPEN_EXP e.(Func) then RowOpen
    else if includes [ELSEIF_EXP; ELSE_EXP; BREAK_EXP] e.(Func) then RowMiddle
    else if bool_decide (e.(Func) = END_EXP) then RowEnd
    else row_kind_of row
  end.

Fixpoint build_rows (idx : nat) (rows : list (list Expression)) (stack : list nat) (jumps : gmap nat nat)
    : outcome compile_error (gmap nat nat * list nat) :=
  match rows with
  | [] => Ok (jumps, stack)
  | row :: rows =>
    match row_kind_of row with
    | RowOpen => build_rows (S idx) rows (Stack_Push idx stack) jumps
    | RowMiddle =>
      match Stack_Pop stack with
      | Ok (jum, stack) => build_rows (S idx) rows (Stack_Push idx stack) (<[jum:=idx]> jumps)
      | Err _ => Err RowStackEmpty
      | Panic p => Panic p
      end
    | RowEnd =>
      match Stack_Pop stack with
      | Ok (jum, stack) => build_rows (S idx) rows stack (<[jum:=idx]> jumps)
      | Err _ => Err RowStackEmpty
      | Panic p => Panic p
      end
    | RowPlain => build_rows (S idx) rows stack jumps
    end
  end.

Definition set_input t (input : list string) : Template Fn :=
  mkTemplate t.(ListenVars) t.(Vars) t.(IndexRun) input t.(Exps) t.(FuncCalls) t.(FuncNotFound).

Definition set_jumps t (jumps : gmap nat nat) : Template Fn :=
  mkTemplate t.(ListenVars) t.(Vars) jumps t.(Input) t.(Exps) t.(FuncCalls) t.(FuncNotFound).

Definition Template_Build t (input : list string) (s : string) (vars : option (OrderedMap string (option Var)))
    (restrict : bool) : outcome compile_error (Template Fn) :=
  t ← Template_Parse (set_input t input) s vars restrict;
  r ← build_rows 0 t.(Exps) [] t.(IndexRun);
  Ok (set_jumps t (fst r)).

End Compile.

(** ** What compiling leaves alone *)

Section Frame.
Context {Fn : Type}.
Implicit Types t : Template Fn.

(** The compiler only appends rows and records functions. *)
Definition same_frame t t' : Prop :=
  t'.(IndexRun) = t.(IndexRun) /\ t'.(ListenVars) = t.(ListenVars) /\
  t'.(Vars) = t.(Vars) /\ t'.(Input) = t.(Input) /\ t'.(FuncCalls).(Funcs) = t.(FuncCalls).(Funcs).

#[local] Instance same_frame_preorder : PreOrder same_frame.
Proof. split; [done|]. intros x y z (?&?&?&?&?) (?&?&?&?&?). repeat split; congruence. Qed.

Definition link_template (r : @link_result Fn) : Template Fn :=
  match r with LinkExp t _ _ _ => t | LinkReturn t _ => t end.

Lemma compile_keyword_frame t restrict idx c vt opened r :
  compile_keyword t restrict idx c vt opened = Ok r -> same_frame t (link_template r).
Proof.
  unfold compile_keyword. intros H. cbv zeta in H.
  repeat step_ok H; try discriminate H; injection H as <-; repeat split.
Qed.

Lemma compile_link_frame t restrict idx c vt opened r :
  compile_link t restrict idx c vt opened = Ok r -> same_frame t (link_template r).
Proof.
  unfold compile_link. intros H.
  destruct c as [|c0 [|c1 c]]; [by eapply compile_keyword_frame| |by eapply compile_keyword_frame].
  repeat step_ok H; try discriminate H; try by eapply compile_keyword_frame.
  all: injection H as <-; repeat split.
Qed.

Lemma compile_links_frame restrict chain t idx vt opened exps t' vt' exps' n :
  compile_links t restrict idx chain vt opened exps = Ok (t', vt', exps', n) -> same_frame t t'.
Proof.
  revert t idx vt opened exps. induction chain as [|c chain IH]; intros t idx vt opened exps H.
  - simpl in H. case_match; by simplify_eq.
  - simpl in H. apply outcome_bind_ok in H as (r & Hr & H). apply compile_link_frame in Hr.
    destruct r; simpl in Hr; [etrans; [done|by eapply IH]|by simplify_eq].
Qed.

Lemma compileExp_frame t e vt restrict t' vt' exps' n :
  compileExp t e vt restrict = Ok (t', vt', exps', n) -> same_frame t t'.
Proof. unfold compileExp. case_bool_decide; [done|]. apply compile_links_frame. Qed.

(** ** Braces *)

(** The scanner's invariant: [open - close] is the nesting depth of the text
    read so far, and stays between 0 and 2. *)
Definition depth (s : @scan Fn) : Z := (s.(sc_open) - s.(sc_close))%Z.

Definition brace (c : ascii) : Z :=
  if Ascii.eqb c "{" then 1 else if Ascii.eqb c "}" then -1 else 0.

Fixpoint brace_depth (l : list ascii) : Z :=
  match l with [] => 0 | c :: l => brace c + brace_depth l end.

Lemma brace_depth_app l k : brace_depth (l ++ k) = (brace_depth l + brace_depth k)%Z.
Proof. induction l; simpl; lia. Qed.

Lemma scan_step_spec restrict s c s' :
  scan_step restrict s c = Ok s' -> (0 <= depth s <= 2)%Z -> (0 <= s.(sc_openExp))%Z ->
  depth s' = (depth s + brace c)%Z /\ (0 <= depth s' <= 2)%Z /\ (0 <= s'.(sc_openExp))%Z /\
  same_frame s.(sc_t) s'.(sc_t).
Proof.
  unfold scan_step, depth, brace. intros H ??.
  destruct (Ascii.eqb c "{"); [|destruct (Ascii.eqb c "}")].
  - destruct (Z.ltb_spec 2 (sc_open s + 1 - sc_close s)); [done|].
    destruct (Z.ltb_spec (sc_open s + 1 - sc_close s) 0); [done|]. simplify_eq/=. repeat split; lia.
  - destruct (Z.ltb_spec (sc_open s - (sc_close s + 1)) 0); [done|].
    case_match; [|simplify_eq/=; repeat split; lia].
    apply outcome_bind_ok in H as ([[[t vt] exp] ope] & Hc & H). apply compileExp_frame in Hc.
    destruct (Z.ltb_spec (sc_openExp s + ope) 0); [done|]. simplify_eq/=.
    repeat split; try lia; apply Hc.
  - case_match; [done|]. simplify_eq/=. repeat split; lia.
Qed.

Lemma scan_text_spec restrict l s s' :
  scan_text restrict l s = Ok s' -> (0 <= depth s <= 2)%Z -> (0 <= s.(sc_openExp))%Z ->
  depth s' = (depth s + brace_depth l)%Z /\
  (forall k, (0 <= depth s + brace_depth (take k l) <= 2)%Z) /\
  (0 <= s'.(sc_openExp))%Z /\ same_frame s.(sc_t) s'.(sc_t).
Proof.
  revert s. induction l as [|c l IH]; intros s H Hd Ho; simpl in H.
  - simplify_eq. simpl. repeat split; try lia; intros; rewrite take_nil; simpl; lia.
  - apply outcome_bind_ok in H as (s1 & H1 & H).
    destruct (scan_step_spec _ _ _ _ H1 Hd Ho) as (E & Hd1 & Ho1 & F1).
    destruct (IH s1 H Hd1 Ho1) as (E2 & Hall & Ho2 & F2). simpl.
    split; [lia|]. split; [|split; [done|by etrans]].
    intros [|k]; simpl; [lia|]. specialize (Hall k). lia.
Qed.

Lemma Template_Parse_spec t str vars restrict t' :
  Template_Parse t str vars restrict = Ok t' ->
  brace_depth (explode str) = 0%Z /\
  (forall k, (0 <= brace_depth (take k (explode str)) <= 2)%Z) /\
  same_frame (set_vars t vars) t'.
Proof.
  unfold Template_Parse. intros H. apply outcome_bind_ok in H as (s & Hs & H).
  apply scan_text_spec in Hs as (Hd & Hall & Ho & Hf); [|unfold depth; simpl; lia..].
  unfold depth in *. simpl in *. destruct (Z.ltb_spec 0 (sc_open s - sc_close s)); [done|].
  case_match; [done|]. simplify_eq. split; [|split; [intros k; specialize (Hall k); lia|done]].
  specialize (Hall (length (explode str))). rewrite firstn_all in Hall. lia.
Qed.

(** ** The jump table *)

(** The state of [Build] before row [idx]: the open rows are below [idx],
    innermost last; jumps go forward to rows already read; a jump that
    starts before an open row ends by it; jumps are nested. *)
Record jumps_inv (idx : nat) (stack : list nat) (jumps : gmap nat nat) : Prop := {
  ji_sorted : StronglySorted lt stack;
  ji_below : forall s, s ∈ stack -> s < idx;
  ji_forward : forall k v, jumps !! k = Some v -> k < v < idx;
  ji_closed : forall s k v, s ∈ stack -> jumps !! k = Some v -> k < s -> v <= s;
  ji_nested : forall k1 v1 k2 v2, jumps !! k1 = Some v1 -> jumps !! k2 = Some v2 ->
    k1 < k2 -> k2 < v1 -> v2 < v1;
  ji_fresh : forall s, s ∈ stack -> jumps !! s = None
}.

Lemma jumps_inv_weaken idx stack jumps :
  jumps_inv idx stack jumps -> jumps_inv (S idx) stack jumps.
Proof.
  intros [? Hb Hf ???]. split; try done.
  - intros s H. apply Hb in H. lia.
  - intros k v H. apply Hf in H. lia.
Qed.

Lemma jumps_inv_push idx stack jumps :
  jumps_inv (S idx) stack jumps -> (forall s, s ∈ stack -> s < idx) -> jumps !! idx = None ->
  jumps_inv (S idx) (Stack_Push idx stack) jumps.
Proof.
  intros [Hs _ Hf Hc Hn Hfr] Hb Hidx. unfold Stack_Push. split.
  - apply StronglySorted_app_2; [set_solver|done|repeat constructor].
  - intros s [Hin| ->]%elem_of_snoc; [apply Hb in Hin; lia|lia].
  - done.
  - intros s k v [?| ->]%elem_of_snoc Hkv ?; [by eapply Hc|].
    apply Hf in Hkv. lia.
  - done.
  - intros s [?| ->]%elem_of_snoc; auto.
Qed.

Lemma jumps_inv_jump idx s stack jumps :
  jumps_inv idx (stack ++ [s]) jumps ->
  jumps_inv (S idx) stack (<[s:=idx]> jumps) /\ s < idx /\ (forall s', s' ∈ stack -> s' < s).
Proof.
  intros [Hs Hb Hf Hc Hn Hfr].
  assert (forall s', s' ∈ stack -> s' < s) as Hord.
  { intros s' Hin. eapply (StronglySorted_app_1_elem_of lt); [exact Hs|set_solver..]. }
  assert (s < idx) by (apply Hb; set_solver).
  split; [|done]. split.
  - by eapply StronglySorted_app_1_l.
  - intros s' Hin. apply Hord in Hin. lia.
  - intros k v [[<- <-]|[? H']]%lookup_insert_Some; [lia|]. apply Hf in H'. lia.
  - intros s' k v Hin [[<- <-]|[? H']]%lookup_insert_Some ?; [apply Hord in Hin; lia|].
    eapply (Hc s'); [set_solver|done..].
  - intros k1 v1 k2 v2 [[<- <-]|[? H1]]%lookup_insert_Some
      [[<- <-]|[? H2]]%lookup_insert_Some; intros.
    + lia.
    + apply Hf in H2. lia.
    + assert (v1 <= s) by (eapply (Hc s); [set_solver|done..]). lia.
    + by eapply (Hn k1 v1 k2 v2).
  - intros s' Hin. pose proof (Hord _ Hin). rewrite lookup_insert_ne by lia. apply Hfr. set_solver.
Qed.

Lemma jumps_inv_unread idx stack jumps : jumps_inv idx stack jumps -> jumps !! idx = None.
Proof. intros [_ _ Hf _ _ _]. destruct (jumps !! idx) eqn:E; [apply Hf in E; lia|done]. Qed.

Lemma build_rows_inv rows idx stack jumps jumps' stack' :
  build_rows idx rows stack jumps = Ok (jumps', stack') -> jumps_inv idx stack jumps ->
  jumps_inv (idx + length rows) stack' jumps'.
Proof.
  revert idx stack jumps. induction rows as [|row rows IH]; intros idx stack jumps H Hi; simpl in H.
  - simplify_eq. simpl. by rewrite Nat.add_0_r.
  - simpl. rewrite Nat.add_succ_r. change (S (idx + length rows)) with (S idx + length rows).
    pose proof (jumps_inv_unread _ _ _ Hi) as Hidx.
    destruct (row_kind_of row);
      try (destruct (Stack_Pop stack) as [[jum st]|?|?] eqn:Hp; [|done..];
           apply Stack_Pop_ok in Hp as ->; destruct (jumps_inv_jump _ _ _ _ Hi) as (Hj & ? & Hord));
      eapply IH; try done.
    + apply jumps_inv_push; [by apply jumps_inv_weaken|apply Hi|done].
    + apply jumps_inv_push; [done|intros s' Hin; apply Hord in Hin; lia|].
      by rewrite lookup_insert_ne by lia.
    + by apply jumps_inv_weaken.
Qed.

(** A jump starts at a row that opens a block or a branch, and ends at one
    that closes it. *)
Definition opens_block (rows : list (list Expression)) (i : nat) : Prop :=
  exists row, rows !! i = Some row /\ (row_kind_of row = RowOpen \/ row_kind_of row = RowMiddle).

Definition closes_block (rows : list (list Expression)) (i : nat) : Prop :=
  exists row, rows !! i = Some row /\ (row_kind_of row = RowMiddle \/ row_kind_of row = RowEnd).

Lemma build_rows_kinds all rows idx stack jumps jumps' stack' :
  drop idx all = rows -> build_rows idx rows stack jumps = Ok (jumps', stack') ->
  (forall s, s ∈ stack -> opens_block all s) ->
  (forall k v, jumps !! k = Some v -> opens_block all k /\ closes_block all v) ->
  forall k v, jumps' !! k = Some v -> opens_block all k /\ closes_block all v.
Proof.
  revert idx stack jumps. induction rows as [|row rows IH]; intros idx stack jumps Hd H Hs Hj; simpl in H.
  - by simplify_eq.
  - assert (all !! idx = Some row) as Hrow.
    { rewrite <- (Nat.add_0_r idx), <- lookup_drop, Hd. done. }
    assert (drop (S idx) all = rows) as Hd' by by rewrite <- Nat.add_1_r, <- drop_drop, Hd.
    destruct (row_kind_of row) eqn:Hk;
      try (destruct (Stack_Pop stack) as [[jum st]|?|?] eqn:Hp; [|done..];
           apply Stack_Pop_ok in Hp as ->).
    + eapply IH; [done|done| |done]. unfold Stack_Push.
      intros s [?| ->]%elem_of_snoc; [auto|]. red; eauto.
    + eapply IH; [done|done| |]; unfold Stack_Push.
      * intros s [?| ->]%elem_of_snoc; [apply Hs; set_solver|]. red; eauto.
      * intros k v [[<- <-]|[? ?]]%lookup_insert_Some; [|by apply Hj].
        split; [apply Hs; set_solver|red; eauto].
    + eapply IH; [done|done|set_solver|].
      intros k v [[<- <-]|[? ?]]%lookup_insert_Some; [|by apply Hj].
      split; [apply Hs; set_solver|red; eauto].
    + by eapply IH.
Qed.

(** The rows and the table of a built template come from [build_rows]. *)
Lemma Template_Build_rows (funcs : option (string -> js_lookup Fn)) input s vars restrict t :
  Template_Build (NewTemplate funcs) input s vars restrict = Ok t ->
  exists stack, build_rows 0 t.(Exps) [] ∅ = Ok (t.(IndexRun), stack).
Proof.
  unfold Template_Build. intros H. apply outcome_bind_ok in H as (t1 & Hp & H).
  apply Template_Parse_spec in Hp as (_ & _ & Hir & _). simpl in Hir. rewrite Hir in H.
  apply outcome_bind_ok in H as ([jumps stack] & Hb & H). simplify_eq/=. eauto.
Qed.

Lemma jumps_inv_start : jumps_inv 0 [] ∅.
Proof. split; [constructor|..]; set_solver. Qed.

(** Its jumps go forward, to rows of the template. *)
Lemma Template_Build_forward (funcs : option (string -> js_lookup Fn)) input s vars restrict t k v :
  Template_Build (NewTemplate funcs) input s vars restrict = Ok t ->
  t.(IndexRun) !! k = Some v -> k < v < length t.(Exps).
Proof.
  intros [stack Hb]%Template_Build_rows Hk.
  apply build_rows_inv in Hb as [_ _ Hf _ _ _]; [by apply Hf|apply jumps_inv_start].
Qed.

End Frame.

(** C22: the jump table of a template that builds sends every block-opening
    row strictly forward, to a branch or [end] row of the same template, and
    its jumps are properly nested, so no jump leaves the block it is in. *)
Theorem build_jumps_nested {Fn} (funcs : option (string -> js_lookup Fn)) input s vars restrict t :
  Template_Build (NewTemplate funcs) input s vars restrict = Ok t ->
  (forall k v, t.(IndexRun) !! k = Some v ->
     k < v < length t.(Exps) /\ opens_block t.(Exps) k /\ closes_block t.(Exps) v) /\
  (forall k1 v1 k2 v2, t.(IndexRun) !! k1 = Some v1 -> t.(IndexRun) !! k2 = Some v2 ->
     k1 < k2 -> k2 < v1 -> v2 < v1).
Proof.
  intros [stack Hb]%Template_Build_rows.
  pose proof (build_rows_kinds t.(Exps) _ 0 _ _ _ _ eq_refl Hb) as Hk.
  apply build_rows_inv in Hb as [_ _ Hf _ Hn _]; [|apply jumps_inv_start].
  split; [|done]. intros k v Hkv. split; [by apply Hf|]. apply Hk; [set_solver|set_solver|done].
Qed.

Definition sample_template : string :=
  "{{if eq .a (1)}}{{set .x (1)}}{{else}}{{set .x (2)}}{{end}}".

Definition sample_vars : option (OrderedMap string (option Var)) :=
  Some (OM_Set "a" (Some (mkVar 1 "a" "1")) OM_New).

Definition no_funcs : option (string -> js_lookup unit) := None.

Lemma build_jumps_nested_witness :
  exists t, Template_Build (NewTemplate no_funcs) [] sample_template sample_vars true = Ok t /\
    t.(IndexRun) !! 2 = Some 4 /\ 2 < 4 < length t.(Exps).
Proof.
  destruct (Template_Build (NewTemplate no_funcs) [] sample_template sample_vars true) as [t| |] eqn:H;
    [|vm_compute in H; discriminate H..].
  exists t. split; [reflexivity|].
  assert (t.(IndexRun) !! 2 = Some 4) as Hk by (vm_compute in H; injection H as <-; reflexivity).
  split; [exact Hk|]. exact (proj1 (proj1 (build_jumps_nested _ _ _ _ _ _ H) 2 4 Hk)).
Defined.

(** [Parse] accepts only text whose braces balance: every prefix has at
    least as many opening as closing braces and at most two more, and the
    whole text as many of each. *)
Theorem parse_braces_balanced {Fn} (t : Template Fn) str vars restrict t' :
  Template_Parse t str vars restrict = Ok t' ->
  brace_depth (explode str) = 0%Z /\ forall k, (0 <= brace_depth (take k (explode str)) <= 2)%Z.
Proof. intros H. apply Template_Parse_spec in H. tauto. Qed.

Lemma parse_braces_balanced_witness :
  is_ok (Template_Parse (NewTemplate no_funcs) sample_template sample_vars true) = true /\
  brace_depth (explode sample_template) = 0%Z.
Proof.
  split; [vm_compute; reflexivity|].
  destruct (Template_Parse (NewTemplate no_funcs) sample_template sample_vars true) as [t| |] eqn:H;
    [|vm_compute in H; discriminate H..].
  exact (proj1 (parse_braces_balanced _ _ _ _ _ H)).
Defined.

