(* ===== verification/TemplateSafety.v ===== *)
(** When the template compiler of [Template.v] can panic: it indexes the words
    of a segment and the top of the scope stack without checking, so the words
    of each keyword and the depth of the stack decide. *)

From S2P Require Import Prelude GoStrings Names OrderedMap VarStack Template.

Section Panics.
Context {Fn : Type}.
Implicit Types t : Template Fn.

(** A segment the compiler reads without indexing past its end. *)
Definition segment_ok (c : list string) : bool :=
  match c with
  | [] => false
  | c0 :: _ =>
    let kw k := bool_decide (c0 = k) in
    (negb (kw RANGE_EXP) || (4 <=? length c)) &&
    (negb (kw WAIT_EXP || kw WAITE_EXP || kw PRINTF_EXP) || (2 <=? length c))
  end.

(** Scopes a segment closes. *)
Definition segment_pops (c : list string) : nat :=
  match c with
  | [] => 0
  | c0 :: _ => if bool_decide (c0 = END_EXP) || bool_decide (c0 = BREAK_EXP) then 1 else 0
  end.

Definition chain_pops (chain : list (list string)) : nat := sum_list_with segment_pops chain.

Definition link_scopes (r : @link_result Fn) : scopes :=
  match r with LinkExp _ vt _ _ => vt | LinkReturn _ vt => vt end.

Lemma checkValidParam_safe t items vt : is_panic (checkValidParam t items vt) = false.
Proof. induction items as [|e items IH]; simpl; [done|]. repeat case_match; done. Qed.

Lemma scope_op_safe (m : outcome string scopes) : is_panic m = false -> is_panic (scope_op m) = false.
Proof. by destruct m. Qed.

Lemma varTemp_Push_length {E} (e : kv unit) vt vt' :
  varTemp_Push (E:=E) e vt = Ok vt' -> length vt' = length vt.
Proof.
  unfold varTemp_Push. destruct (last vt) as [top|] eqn:Hl; [|done].
  intros [= <-]. rewrite length_app, length_removelast.
  destruct vt; [done|simpl; lia].
Qed.

Lemma varTemp_Push_safe {E} (e : kv unit) vt : 0 < length vt -> is_panic (varTemp_Push (E:=E) e vt) = false.
Proof.
  unfold varTemp_Push. destruct (last vt) eqn:Hl; [done|]. apply last_None in Hl as ->. simpl. lia.
Qed.

Lemma ClearTop_length (vt vt' : scopes) :
  scope_op (varTemp_ClearTop vt) = Ok vt' -> length vt' = length vt.
Proof.
  intros H. assert (removelast vt ++ [[]] = vt' /\ 0 < length vt) as [<- ?].
  { destruct vt; [done|]. split; [by injection H|simpl; lia]. }
  rewrite length_app, length_removelast. simpl. lia.
Qed.

Lemma Pop_length (vt vt' : scopes) :
  scope_op (varTemp_Pop vt) = Ok vt' -> length vt = S (length vt').
Proof.
  intros H. assert (removelast vt = vt' /\ 0 < length vt) as [<- ?].
  { destruct vt; [done|]. split; [by injection H|simpl; lia]. }
  rewrite length_removelast. lia.
Qed.

Lemma compile_keyword_scopes t restrict idx c vt opened r :
  compile_keyword t restrict idx c vt opened = Ok r ->
  length vt <= length (link_scopes r) + segment_pops c.
Proof.
  destruct c as [|c0 c]; [done|].
  unfold compile_keyword, segment_pops. intros H. cbv zeta in H.
  change (go_index (c0 :: c) 0) with (@Ok compile_error _ c0) in H. cbn [mbind outcome_bind] in H.
  repeat step_ok_eqn H.
  all: try discriminate H; injection H as <-; cbn [link_scopes].
  all: repeat match goal with
    | H : varTemp_Push _ _ = Ok _ |- _ => apply varTemp_Push_length in H
    | H : scope_op (varTemp_Pop _) = Ok _ |- _ => apply Pop_length in H
    | H : scope_op (varTemp_ClearTop _) = Ok _ |- _ => apply ClearTop_length in H
    end.
  all: unfold varTemp_Append; rewrite ?length_app.
  all: match goal with |- context [if ?b then _ else _] => destruct b eqn:Hpops end.
  all: try (apply orb_false_iff in Hpops as [Hend Hbreak]; congruence).
  all: clear_bools; lia.
Qed.

Lemma segment_ok_range c0 c :
  segment_ok (c0 :: c) = true -> bool_decide (c0 = RANGE_EXP) = true -> 4 <= length (c0 :: c).
Proof. unfold segment_ok. cbv zeta. intros H E. rewrite E in H. cbn [negb orb] in H. lia. Qed.

Lemma segment_ok_wait c0 c :
  segment_ok (c0 :: c) = true ->
  bool_decide (c0 = WAIT_EXP) || bool_decide (c0 = WAITE_EXP) = true -> 2 <= length (c0 :: c).
Proof. unfold segment_ok. cbv zeta. intros H E. rewrite E in H. cbn [negb orb] in H. lia. Qed.

Lemma segment_ok_printf c0 c :
  segment_ok (c0 :: c) = true -> bool_decide (c0 = PRINTF_EXP) = true -> 2 <= length (c0 :: c).
Proof. unfold segment_ok. cbv zeta. intros H E. rewrite E, orb_true_r in H. cbn [negb orb] in H. lia. Qed.

Lemma compile_keyword_safe t restrict idx c vt opened :
  segment_ok c = true -> 0 < length vt ->
  is_panic (compile_keyword t restrict idx c vt opened) = false.
Proof.
  destruct c as [|c0 c]; [done|]. intros Hok Hvt. unfold compile_keyword. cbv zeta.
  pose proof (segment_ok_range _ _ Hok) as Hrange.
  pose proof (segment_ok_wait _ _ Hok) as Hwait.
  pose proof (segment_ok_printf _ _ Hok) as Hprintf. clear Hok.
  change (go_index (c0 :: c) 0) with (@Ok compile_error _ c0). cbn [mbind outcome_bind].
  assert (0 < length (c0 :: c)) as Hn by (simpl; lia).
  repeat step_safe; try reflexivity.
  all: repeat match goal with
    | H : varTemp_Push _ _ = Ok _ |- _ => apply varTemp_Push_length in H
    | H : ?b = true, Himp : ?b = true -> _ |- _ => specialize (Himp H)
    | H : (length _ =? _) = false |- _ => apply Nat.eqb_neq in H
    | H : negb (length _ =? _) = false |- _ => apply negb_false_iff, Nat.eqb_eq in H
    end.
  all: first [apply checkValidParam_safe
             |apply scope_op_safe; by destruct vt
             |apply varTemp_Push_safe; clear_bools; lia
             |apply go_index_safe; clear_bools; lia
             |apply go_slice_safe; clear_bools; lia].
Qed.

Lemma compile_link_safe t restrict idx c vt opened :
  segment_ok c = true -> 0 < length vt ->
  is_panic (compile_link t restrict idx c vt opened) = false.
Proof.
  intros Hok Hvt. unfold compile_link.
  destruct c as [|c0 [|c1 c]]; [done| |by apply compile_keyword_safe].
  repeat step_safe; try done; try by apply compile_keyword_safe.
  all: first [apply checkValidParam_safe|by apply varTemp_Push_safe].
Qed.

Lemma compile_link_scopes t restrict idx c vt opened r :
  compile_link t restrict idx c vt opened = Ok r ->
  length vt <= length (link_scopes r) + segment_pops c.
Proof.
  intros H. unfold compile_link in H.
  destruct c as [|c0 [|c1 c]]; [done| |by eapply compile_keyword_scopes].
  repeat step_ok_eqn H; try done; try by eapply compile_keyword_scopes.
  all: injection H as <-; cbn [link_scopes]; try lia.
  all: by match goal with H : varTemp_Push _ _ = Ok _ |- _ => apply varTemp_Push_length in H; lia end.
Qed.

Lemma compile_links_safe restrict chain t idx vt opened exps :
  forallb segment_ok chain = true -> chain_pops chain < length vt ->
  is_panic (compile_links t restrict idx chain vt opened exps) = false.
Proof.
  revert t idx vt opened exps. induction chain as [|c chain IH]; intros t idx vt opened exps Hok Hp.
  - simpl. by case_match.
  - cbn [forallb] in Hok. apply andb_true_iff in Hok as [Hc Hok].
    unfold chain_pops in *. cbn [sum_list_with] in Hp. cbn [compile_links].
    apply outcome_bind_not_panic; [apply compile_link_safe; [done|lia]|].
    intros r Hr. apply compile_link_scopes in Hr. destruct r; [|done]. simpl in Hr.
    apply IH; [done|]. lia.
Qed.

End Panics.

(** C23: compiling an expression never panics when no segment between pipes is
    empty, [range] has its four words, [wait], [waite] and [printf] have a
    parameter, and fewer scopes are closed by the chain than are open. *)
Theorem compile_chain_safe {Fn} (t : Template Fn) items vt restrict :
  forallb segment_ok (split_chain items []) = true ->
  chain_pops (split_chain items []) < length vt ->
  is_panic (complieChainExps t items vt restrict) = false.
Proof. apply compile_links_safe. Qed.

Definition sample_items : list string := ["range"; ".list"; ".i"; ".e"; "|"; "push"; ".i"; ".out"].

Lemma compile_chain_safe_witness :
  forallb segment_ok (split_chain sample_items []) = true /\
  is_panic (complieChainExps (NewTemplate no_funcs) sample_items [[name_kv ".list"]] true) = false.
Proof.
  split; [reflexivity|].
  apply (compile_chain_safe (NewTemplate no_funcs) sample_items [[name_kv ".list"]] true);
    [reflexivity|]. vm_compute. lia.
Defined.

(** The condition of C15 on empty segments is needed: an expression that
    starts with a pipe makes the compiler index an empty slice, whatever the
    template and the rest of the expression, so a user's text can panic it. *)
Theorem leading_pipe_panics {Fn} (t : Template Fn) items vt restrict vars :
  complieChainExps t ("|" :: items) vt restrict = Panic IndexOutOfRange /\
  Template_Parse t "{{ | .x }}" vars restrict = Panic IndexOutOfRange.
Proof. split; reflexivity. Qed.
