(* ===== verification/Value.v ===== *)
(** Run-time values of templates: the dynamic types an [interface{}] holds in
    [pkg/workflow/func.go], the store of slice backing arrays, and what
    [encoding/json], [reflect.DeepEqual] and [append] do with them.

    Slices are references: [append] writes into the shared backing array when
    it has room.  Maps are values, as no expression writes to a map it did not
    just decode.  [float64] arithmetic, the decoder of JSON text, [Sprintf] and
    the JavaScript runtime are the operations of the class [GoLib]; [Host] are
    values of other Go types (JavaScript values, structs of the callers). *)

From Stdlib Require Import Ascii.
From S2P Require Import Prelude GoStrings.

(** [workflow.Result]. *)
Record Result := mkResult {
  Success : bool;
  Output : string;
  Attempt : Z;
  StartedAt : Z;
  FinishedAt : Z;
  Offset : Z;
  RunCount : Z
}.

#[export] Instance Result_eq_dec : EqDecision Result.
Proof. solve_decision. Defined.

(** A slice from offset 0: its backing array and its length. *)
Inductive slice : Type := SNil | SArr (addr len : nat).

#[export] Instance slice_eq_dec : EqDecision slice.
Proof. solve_decision. Defined.

(** A decoded JSON document. *)
Inductive jv (F : Type) : Type :=
| JvNull
| JvBool (b : bool)
| JvNum (f : F)
| JvStr (s : string)
| JvArr (items : list (jv F))
| JvObj (fields : list (string * jv F)).
Arguments JvNull {F}.
Arguments JvBool {F} _.
Arguments JvNum {F} _.
Arguments JvStr {F} _.
Arguments JvArr {F} _.
Arguments JvObj {F} _.

(** [interface{}] by dynamic type; a map is [None] when nil. *)
#[warnings="-register-all"]
Inductive value (F Host : Type) : Type :=
| VNil
| VBool (b : bool)
| VInt (z : Z)
| VInt64 (z : Z)
| VFloat (f : F)
| VStr (s : string)
| VMap (m : option (gmap string (value F Host)))
| VReply (m : option (gmap string (value F Host)))
| VPtrMap (m : option (gmap string (value F Host)))
| VPtrReply (m : option (gmap string (value F Host)))
| VAnyMap (m : gmap string (value F Host))
| VSlice (s : slice)
| VResult (r : Result)
| VHost (h : Host).
Arguments VNil {F Host}.
Arguments VBool {F Host} _.
Arguments VInt {F Host} _.
Arguments VInt64 {F Host} _.
Arguments VFloat {F Host} _.
Arguments VStr {F Host} _.
Arguments VMap {F Host} _.
Arguments VReply {F Host} _.
Arguments VPtrMap {F Host} _.
Arguments VPtrReply {F Host} _.
Arguments VAnyMap {F Host} _.
Arguments VSlice {F Host} _.
Arguments VResult {F Host} _.
Arguments VHost {F Host} _.

(** What [reflect] sees of a value: its kind, with the payload that [merge]
    reads. *)
Inductive kind (F : Type) : Type :=
| KFloat (f : F)
| KInt (z : Z)
| KString (s : string)
| KSlice
| KMap
| KOther.
Arguments KFloat {F} _.
Arguments KInt {F} _.
Arguments KString {F} _.
Arguments KSlice {F}.
Arguments KMap {F}.
Arguments KOther {F}.

(** What a JavaScript function returns, by [ExportType().Kind()]. *)
Inductive js_result (F Host : Type) : Type :=
| JsMap (fields : gmap string (value F Host))
| JsScalar (v : Host)
| JsUnsupported.
Arguments JsMap {F Host} _.
Arguments JsScalar {F Host} _.
Arguments JsUnsupported {F Host}.

(** The operations outside the package. *)
Class GoLib (F Host Fn : Type) := {
  f_eqb : F -> F -> bool;
  f_ltb : F -> F -> bool;
  f_leb : F -> F -> bool;
  f_zero : F;
  f_add : F -> F -> F;
  f_sub : F -> F -> F;
  (** not NaN and not infinite *)
  f_finite : F -> bool;
  f_of_int : Z -> F;
  (** the number [strconv.ParseFloat] returns, whatever its error *)
  ParseFloat : string -> F;
  (** the text of one JSON document *)
  json_decode : string -> option (jv F);
  host_json : Host -> option (jv F);
  (** never [KMap]: JavaScript objects are pointers, the callers' values structs *)
  host_kind : Host -> kind F;
  host_eqb : Host -> Host -> bool;
  (** capacity of the array [append] allocates for a slice of the length *)
  grow : nat -> nat;
  Sprintf : string -> list (value F Host) -> string;
  (** an order in which Go walks a map *)
  map_order : gmap string (value F Host) -> list (string * value F Host);
  (** a call of a JavaScript function: an error, or its result *)
  js_call : Fn -> list (value F Host) -> option (js_result F Host)
}.

Section Value.
Context {F Host Fn : Type} `{Lib : GoLib F Host Fn}.
Abbreviation value := (value F Host).
Abbreviation gomap := (option (gmap string value)).
Abbreviation heap := (list (list value)).
Implicit Types (h : heap) (v w : value) (m : gomap).

(** ** Slices *)

(** The elements of a slice; a nil slice has none. *)
Definition slice_elems h (s : slice) : list value :=
  match s with
  | SNil => []
  | SArr a n => take n (default [] (h !! a))
  end.

(** A fresh array for [items], with the capacity [append] would have grown to. *)
Definition alloc (items : list value) (cap : nat) h : heap * slice :=
  (h ++ [items ++ replicate (cap - length items) VNil], SArr (length h) (length items)).

(** [append(s, x)]. *)
Definition go_append h (s : slice) (x : value) : heap * slice :=
  match s with
  | SNil => alloc [x] (grow 0) h
  | SArr a n =>
    let backing := default [] (h !! a) in
    if n <? length backing then (<[a:=<[n:=x]> backing]> h, SArr a (S n))
    else alloc (take n backing ++ [x]) (grow n) h
  end.

(** [s[:n-1]]. *)
Definition slice_pop (s : slice) : slice :=
  match s with
  | SNil => SNil
  | SArr a n => SArr a (n - 1)
  end.

(** ** [json.Marshal], then [json.Unmarshal] *)

(** The decoder gives up at 10000 nested arrays and objects; a value nested
    deeper, or cyclic, fails in one of the two calls. *)
Definition maxNestingDepth : nat := 100 * 100.
#[global] Opaque maxNestingDepth.

Definition marshal_fields (enc : value -> option (jv F)) (m : gmap string value) : option (jv F) :=
  JvObj <$> mapM (fun '(k, v) => (fun j => (k, j)) <$> enc v) (map_to_list m).

Fixpoint marshal (depth : nat) h v : option (jv F) :=
  match v with
  | VNil => Some JvNull
  | VBool b => Some (JvBool b)
  | VInt z | VInt64 z => Some (JvNum (f_of_int z))
  | VFloat f => if f_finite f then Some (JvNum f) else None
  | VStr s => Some (JvStr s)
  | VMap None | VReply None | VPtrMap None | VPtrReply None => Some JvNull
  | VMap (Some m) | VReply (Some m) | VPtrMap (Some m) | VPtrReply (Some m) =>
    match depth with
    | 0 => None
    | S depth => marshal_fields (marshal depth h) m
    end
  | VAnyMap _ => None
  | VSlice SNil => Some JvNull
  | VSlice s =>
    match depth with
    | 0 => None
    | S depth => JvArr <$> mapM (marshal depth h) (slice_elems h s)
    end
  | VResult r =>
    Some (JvObj [("success", JvBool r.(Success)); ("output", JvStr r.(Output));
      ("attempt", JvNum (f_of_int r.(Attempt))); ("started_at", JvNum (f_of_int r.(StartedAt)));
      ("finished_at", JvNum (f_of_int r.(FinishedAt))); ("offset", JvNum (f_of_int r.(Offset)));
      ("run_coun", JvNum (f_of_int r.(RunCount)))])
  | VHost x => host_json x
  end.

(** Into an [interface{}]: objects become maps, arrays fresh slices; of a
    repeated key the last value stays. *)
Fixpoint load (j : jv F) h : heap * value :=
  match j with
  | JvNull => (h, VNil)
  | JvBool b => (h, VBool b)
  | JvNum f => (h, VFloat f)
  | JvStr s => (h, VStr s)
  | JvArr items =>
    let '(h, vs) :=
      (fix go items h := match items with
       | [] => (h, [])
       | j :: items => let '(h, v) := load j h in let '(h, vs) := go items h in (h, v :: vs)
       end) items h in
    let '(h, s) := alloc vs (grow (length vs)) h in (h, VSlice s)
  | JvObj fields =>
    let '(h, m) :=
      (fix go fields (m : gmap string value) h := match fields with
       | [] => (h, m)
       | (k, j) :: fields => let '(h, v) := load j h in go fields (<[k:=v]> m) h
       end) fields ∅ h in
    (h, VMap (Some m))
  end.

(** [convertInterfaceToReply]. *)
Definition convertInterfaceToReply h v : option (heap * gomap) :=
  match marshal maxNestingDepth h v with
  | Some JvNull => Some (h, None)
  | Some (JvObj fields) =>
    match load (JvObj fields) h with
    | (h', VMap m) => Some (h', m)
    | _ => None
    end
  | _ => None
  end.

(** [json.Unmarshal] into a [[]interface{}]. *)
Definition unmarshal_array (j : jv F) h : option (heap * slice) :=
  match j with
  | JvNull => Some (h, SNil)
  | JvArr items =>
    match load (JvArr items) h with
    | (h', VSlice s) => Some (h', s)
    | _ => None
    end
  | _ => None
  end.

(** [convertInterfaceToArray]: a string is read as JSON text. *)
Definition convertInterfaceToArray h v : option (heap * slice) :=
  match v with
  | VStr s => match json_decode s with Some j => unmarshal_array j h | None => None end
  | _ => match marshal maxNestingDepth h v with Some j => unmarshal_array j h | None => None end
  end.

(** ** [reflect] *)

Definition reflect_kind v : option (kind F) :=
  match v with
  | VNil => None
  | VBool _ | VPtrMap _ | VPtrReply _ | VResult _ => Some KOther
  | VInt z | VInt64 z => Some (KInt z)
  | VFloat f => Some (KFloat f)
  | VStr s => Some (KString s)
  | VMap _ | VReply _ | VAnyMap _ => Some KMap
  | VSlice _ => Some KSlice
  | VHost x => Some (host_kind x)
  end.

Definition map_equal (eq : value -> value -> bool) (m1 m2 : gmap string value) : bool :=
  (size m1 =? size m2) &&
  forallb (fun '(k, v) => match m2 !! k with Some w => eq v w | None => false end) (map_to_list m1).

Definition gomap_equal (eq : value -> value -> bool) m1 m2 : bool :=
  match m1, m2 with
  | None, None => true
  | Some m1, Some m2 => map_equal eq m1 m2
  | _, _ => false
  end.

(** [reflect.DeepEqual]: two slices of one array and one length are equal
    without a look at their elements.  A pair met again below itself counts as
    equal in Go; here nesting deeper than [depth] does. *)
Fixpoint deep_equal (depth : nat) h v w : bool :=
  match depth with
  | 0 => true
  | S depth =>
    match v, w with
    | VNil, VNil => true
    | VBool a, VBool b => Bool.eqb a b
    | VInt a, VInt b | VInt64 a, VInt64 b => (a =? b)%Z
    | VFloat a, VFloat b => f_eqb a b
    | VStr a, VStr b => bool_decide (a = b)
    | VMap a, VMap b | VReply a, VReply b | VPtrMap a, VPtrMap b | VPtrReply a, VPtrReply b =>
      gomap_equal (deep_equal depth h) a b
    | VAnyMap a, VAnyMap b => map_equal (deep_equal depth h) a b
    | VSlice SNil, VSlice SNil => true
    | VSlice (SArr a n), VSlice (SArr b k) =>
      (n =? k) && ((a =? b) ||
        forallb (fun '(x, y) => deep_equal depth h x y)
          (zip (slice_elems h (SArr a n)) (slice_elems h (SArr b k))))
    | VResult a, VResult b => bool_decide (a = b)
    | VHost a, VHost b => host_eqb a b
    | _, _ => false
    end
  end.

Definition DeepEqual h v w : bool := deep_equal maxNestingDepth h v w.

(** ** Sharing *)

(** With room in the array, [append] writes in place, and every slice that
    reaches the cell sees it. *)
Lemma go_append_shares h a n x backing :
  h !! a = Some backing -> n < length backing ->
  exists h', go_append h (SArr a n) x = (h', SArr a (S n)) /\
    slice_elems h' (SArr a (S n)) = slice_elems h (SArr a n) ++ [x].
Proof.
  intros Ha Hn. unfold go_append. rewrite Ha. cbn [from_option default id].
  rewrite (proj2 (Nat.ltb_lt _ _)) by lia. eexists. split; [done|]. unfold slice_elems.
  rewrite list_lookup_insert_eq by (by eapply lookup_lt_Some). rewrite Ha. cbn [from_option default id].
  rewrite (take_S_r _ _ x) by (by apply list_lookup_insert_eq). by rewrite take_insert_ge.
Qed.

(** Without room it copies: the old array stays as it is. *)
Lemma go_append_copies h a n x backing :
  h !! a = Some backing -> n = length backing ->
  exists h', go_append h (SArr a n) x = (h', SArr (length h) (S n)) /\
    slice_elems h' (SArr (length h) (S n)) = backing ++ [x] /\ h' !! a = Some backing.
Proof.
  intros Ha ->. unfold go_append. rewrite Ha. cbn [from_option default id].
  rewrite (proj2 (Nat.ltb_ge _ _)) by lia. rewrite firstn_all. unfold alloc, slice_elems.
  eexists. split; [rewrite length_app; cbn; do 2 f_equal; lia|]. split.
  - rewrite lookup_app_r, Nat.sub_diag by lia. cbn [lookup list_lookup from_option default id].
    rewrite <- app_assoc. rewrite take_app_ge by lia. replace (S (length backing) - length backing) with 1 by lia. done.
  - rewrite lookup_app_l by (by eapply lookup_lt_Some). done.
Qed.

End Value.
