(* ===== verification/Runtime.v ===== *)
(** Executing one expression of a built template: [Expression.Execute] of
    [pkg/workflow/func.go] with the helpers of that file.

    The state an expression reads and writes is the scope stack and the store
    of slice arrays.  An error leaves both alone ([Err] carries no state): the
    code only writes on its way to a result.  JavaScript functions are taken
    not to modify their arguments. *)

From Stdlib Require Import Ascii.
From S2P Require Import Prelude GoStrings Names OrderedMap VarStack Template Value.

(** The error values of [func.go], by what they report. *)
Inductive exec_error : Type :=
| NotReady (var : string)
| NoValue (func : string)
| NotMap (func : string)
| NotArray (func : string)
| NotString (param : string)
| NotInt (param : string)
| CantSend (param : string)
| Unfinished
| InvalidResult
| NotReply
| TypeMismatch
| UnsupportedKind
| UnsupportedOperator (op : string)
| EmptyMerge
| CantPop
| BadParamCount (func : string)
| RangeInvalid
| JsError (func : string)
| JsReturnType (func : string)
| FuncNotDefined (func : string)
| FuncUnknown (func : string).

#[export] Instance exec_error_eq_dec : EqDecision exec_error.
Proof. solve_decision. Defined.

Definition GlobalVars : gmap string string := {[ ".TASK_STATUS_SUCCESS" := "1" ]}.

(** The double quote. *)
Definition quote : string := String "034" EmptyString.

(** [getConstVar]: without its parentheses. *)
Definition getConstVar (s : string) : string :=
  implode (List.filter (fun c => negb (Ascii.eqb c "(" || Ascii.eqb c ")")) (explode s)).

(** [strconv.Atoi]: an optional sign and decimal digits, in the range of
    [int]. *)
Fixpoint digits_value (acc : Z) (l : list ascii) : option Z :=
  match l with
  | [] => Some acc
  | c :: l =>
    let n := N_of_ascii c in
    if ((48 <=? n) && (n <=? 57))%N then digits_value (10 * acc + Z.of_N (n - 48)) l else None
  end.

Definition Atoi (s : string) : option Z :=
  let '(sign, digits) :=
    match explode s with
    | "-"%char :: l => ((-1)%Z, l)
    | "+"%char :: l => (1%Z, l)
    | l => (1%Z, l)
    end in
  match digits with
  | [] => None
  | _ => z ← digits_value 0 digits;
         let z := (sign * z)%Z in
         if ((- 2 ^ 63 <=? z) && (z <? 2 ^ 63))%Z then Some z else None
  end.

(** [a < b] on Go strings: byte order. *)
Fixpoint string_ltb (a b : list ascii) : bool :=
  match a, b with
  | _, [] => false
  | [], _ => true
  | x :: a, y :: b =>
    (N_of_ascii x <? N_of_ascii y)%N || ((N_of_ascii x =? N_of_ascii y)%N && string_ltb a b)
  end.

Section Runtime.
Context {F Host Fn : Type} `{Lib : GoLib F Host Fn}.
Abbreviation value := (Value.value F Host).
Abbreviation gomap := (option (gmap string value)).
Abbreviation heap := (list (list value)).
Abbreviation scopes := (list (list (kv value))).
Abbreviation exec := (outcome exec_error).

Record rt_state := mkRt { rt_vars : scopes; rt_heap : heap }.

(** What a template runs against: the workflow's variables ([None] for a nil
    pointer), the replies it listens to, and the functions. *)
Record rt_env := mkEnv {
  globalVar : option (OrderedMap string (option Var));
  outputVars : gmap string gomap;
  funcCall : option (FuncCall Fn)
}.

Implicit Types (env : rt_env) (st : rt_state) (v : value).

(** ** Reading parameters *)

(** [extractValue]; [None] is [ErrorNotExist]. *)
Definition extractValue env (p : string) : option value :=
  match env.(outputVars) !! GetRootDefaultVar (TrimPrefix p ".") with
  | None => None
  | Some reply => if isPoint p then Some (VReply reply) else None
  end.

Definition getValueSymbolSpecial (symbol : string) : option value :=
  if bool_decide (symbol = "_ping") then Some (VMap (Some ∅)) else None.

(** The text of a constant: a string in quotes, or a number. *)
Definition const_value (p : string) : value :=
  let s := getConstVar p in
  if HasPrefix s quote then VStr (Trim s ("()" +:+ quote)) else VFloat (ParseFloat s).

(** One parameter of [setValue]. *)
Definition param_value env st (p : string) : exec value :=
  match getValueSymbolSpecial p with
  | Some v => Ok v
  | None =>
    if isContants p then Ok (const_value p)
    else match varTemp_GetValue st.(rt_vars) p with
    | Some e => Ok e.(VarStack.value)
    | None =>
      match extractValue env p with
      | Some v => Ok v
      | None =>
        match env.(globalVar) with
        | None => Panic NilDereference
        | Some vars =>
          if OM_Exists (TrimPrefix p ".") vars then
            match OM_Get None (TrimPrefix p ".") vars with
            | Some var => Ok (VStr var.(Value))
            | None => Panic NilDereference
            end
          else match GlobalVars !! p with
          | Some s => Ok (VStr s)
          | None => Err (NotReady p)
          end
        end
      end
    end
  end.

(** [setValue]; a parameter that occurs twice has one value. *)
Fixpoint setValue env st (params : list string) : exec (gmap string value) :=
  match params with
  | [] => Ok ∅
  | p :: params =>
    v ← param_value env st p;
    mp ← setValue env st params;
    Ok (<[p:=v]> mp)
  end.

(** [mp[p]]: the nil interface when absent. *)
Definition at_param (mp : gmap string value) (p : string) : value := default VNil (mp !! p).

(** [p]'s value in a Go map, nil or not. *)
Definition gomap_get (m : gomap) (k : string) : value :=
  match m with
  | None => VNil
  | Some m => default VNil (m !! k)
  end.

(** [v != "" && v != false && v != "false"]. *)
Definition truthy v : bool :=
  match v with
  | VStr s => negb (bool_decide (s = "") || bool_decide (s = "false"))
  | VBool b => b
  | _ => true
  end.

(** The reply behind a value: itself, or through JSON. *)
Definition as_reply st v (e : exec_error) : exec (rt_state * gomap) :=
  match v with
  | VReply m => Ok (st, m)
  | _ =>
    match convertInterfaceToReply st.(rt_heap) v with
    | Some (h, m) => Ok (mkRt st.(rt_vars) h, m)
    | None => Err e
    end
  end.

Definition to_reply st v (e : exec_error) : exec (rt_state * gomap) :=
  match convertInterfaceToReply st.(rt_heap) v with
  | Some (h, m) => Ok (mkRt st.(rt_vars) h, m)
  | None => Err e
  end.

Definition as_array st v (e : exec_error) : exec (rt_state * slice) :=
  match v with
  | VSlice s => Ok (st, s)
  | _ =>
    match convertInterfaceToArray st.(rt_heap) v with
    | Some (h, s) => Ok (mkRt st.(rt_vars) h, s)
    | None => Err e
    end
  end.

Definition first_input (input : list value) (f : string) : exec value :=
  match input with
  | [] => Err (NoValue f)
  | v :: _ => Ok v
  end.

Definition as_string v (p : string) : exec string :=
  match v with
  | VStr s => Ok s
  | _ => Err (NotString p)
  end.

(** ** The functions of [func.go] *)

Definition parse_item st v : rt_state * value :=
  match v with
  | VStr s =>
    match json_decode s with
    | Some JvNull => (st, VReply None)
    | Some (JvObj fields) =>
      match load (JvObj fields) st.(rt_heap) with
      | (h, VMap m) => (mkRt st.(rt_vars) h, VReply m)
      | _ => (st, v)
      end
    | Some (JvArr items) =>
      let '(h, v) := load (JvArr items) st.(rt_heap) in (mkRt st.(rt_vars) h, v)
    | _ => (st, match Atoi s with Some n => VInt n | None => v end)
    end
  | _ => (st, v)
  end.

(** [parse]. *)
Fixpoint parse st (input : list value) : rt_state * list value :=
  match input with
  | [] => (st, [])
  | v :: input =>
    let '(st, v) := parse_item st v in
    let '(st, vs) := parse st input in
    (st, v :: vs)
  end.

(** [CompareStringsAndNumbers].  The numeric branch asserts [float64] on every
    number type. *)
Definition CompareStringsAndNumbers (h : heap) (a b : value) (operator : string) : exec bool :=
  let op k := bool_decide (operator = k) in
  if op EQ_EXP then Ok (DeepEqual h a b)
  else if op NE_EXP then Ok (negb (DeepEqual h a b))
  else if op LT_EXP || op LE_EXP || op GT_EXP || op GE_EXP then
    match a, b with
    | VStr a, VStr b =>
      let cmp := string_ltb (explode a) (explode b) in
      let same := bool_decide (a = b) in
      Ok (if op LT_EXP then cmp
          else if op LE_EXP then cmp || same
          else if op GT_EXP then negb cmp
          else negb cmp || same)
    | VFloat a, VFloat b =>
      Ok (if op LT_EXP then f_ltb a b
          else if op LE_EXP then f_leb a b
          else if op GT_EXP then f_ltb b a
          else f_leb b a)
    | VInt _, VInt _ | VInt64 _, VInt64 _ => Panic TypeAssertion
    | VStr _, _ | VFloat _, _ | VInt _, _ | VInt64 _, _ => Err TypeMismatch
    | _, _ => Err UnsupportedKind
    end
  else Err (UnsupportedOperator operator).

(** [subtract]; [int] arithmetic wraps. *)
Definition subtract (a b : value) : exec value :=
  match a, b with
  | VInt a, VInt b => Ok (VInt (wrap_i64 (a - b)))
  | VFloat a, VFloat b => Ok (VFloat (f_sub a b))
  | VInt _, _ | VFloat _, _ => Err TypeMismatch
  | _, _ => Err UnsupportedKind
  end.

(** The loops of [merge], one per kind of the first element. *)
Fixpoint merge_floats (sum : F) (input : list value) : exec value :=
  match input with
  | [] => Ok (VFloat sum)
  | v :: input =>
    match reflect_kind v with
    | None => Panic NilDereference
    | Some (KFloat f) => merge_floats (f_add sum f) input
    | Some _ => Err TypeMismatch
    end
  end.

Fixpoint merge_ints (sum : Z) (input : list value) : exec value :=
  match input with
  | [] => Ok (VInt64 sum)
  | v :: input =>
    match reflect_kind v with
    | None => Panic NilDereference
    | Some (KInt z) => merge_ints (wrap_i64 (sum + z)) input
    | Some _ => Err TypeMismatch
    end
  end.

Fixpoint merge_strings (concatenated : string) (input : list value) : exec value :=
  match input with
  | [] => Ok (VStr concatenated)
  | v :: input =>
    match reflect_kind v with
    | None => Panic NilDereference
    | Some (KString s) => merge_strings (concatenated +:+ s) input
    | Some _ => Err TypeMismatch
    end
  end.

Fixpoint merge_slices (result : list value) (input : list value) : exec (list value) :=
  match input with
  | [] => Ok result
  | v :: input =>
    match reflect_kind v with
    | None => Panic NilDereference
    | Some KSlice => merge_slices (result ++ [v]) input
    | Some _ => Err TypeMismatch
    end
  end.

(** The entries of a value of kind map. *)
Definition map_entries v : gmap string value :=
  match v with
  | VMap (Some m) | VReply (Some m) | VAnyMap m => m
  | _ => ∅
  end.

Fixpoint merge_maps (result : gmap string value) (input : list value) : exec value :=
  match input with
  | [] => Ok (VAnyMap result)
  | v :: input =>
    match reflect_kind v with
    | None => Panic NilDereference
    | Some KMap => merge_maps (map_entries v ∪ result) input
    | Some _ => Err TypeMismatch
    end
  end.

(** [merge]: slices are collected, not concatenated, and merged maps have the
    type [map[interface{}]interface{}]. *)
Definition merge st (input : list value) : exec (rt_state * value) :=
  match input with
  | [] => Err EmptyMerge
  | first :: _ =>
    match reflect_kind first with
    | None => Panic NilDereference
    | Some (KFloat _) => v ← merge_floats f_zero input; Ok (st, v)
    | Some (KInt _) => v ← merge_ints 0 input; Ok (st, v)
    | Some (KString _) => v ← merge_strings "" input; Ok (st, v)
    | Some KSlice =>
      vs ← merge_slices [] input;
      let '(h, s) := alloc vs (grow (length vs)) st.(rt_heap) in
      Ok (mkRt st.(rt_vars) h, VSlice s)
    | Some KMap => v ← merge_maps ∅ input; Ok (st, v)
    | Some KOther => Err UnsupportedKind
    end
  end.

(** [pushExp]: with two parameters the array is [mp[Params[0]]], or the JSON
    text of the parameter's name. *)
Definition pushExp env st (func : string) (params : list string) (input : list value)
    : exec (rt_state * list value) :=
  mp ← setValue env st params;
  p0 ← go_index params 0;
  '(st, source, get) ←
    (if length params =? 1 then
       v ← first_input input func;
       '(st, s) ← as_array st v (NotArray func);
       Ok (st, s, at_param mp p0)
     else
       '(st, s) ←
         match at_param mp p0 with
         | VSlice s => Ok (st, s)
         | _ => as_array st (VStr p0) (NotArray func)
         end;
       p1 ← go_index params 1;
       Ok (st, s, at_param mp p1));
  let '(h, s) := go_append st.(rt_heap) source get in
  Ok (mkRt st.(rt_vars) h, [VSlice s]).

(** A call of a JavaScript function. *)
Definition call_function env st (func : string) (params : list string) (input : list value)
    : exec (rt_state * list value) :=
  match env.(funcCall) with
  | Some fc =>
    match fc.(Funcs) with
    | Some _ =>
      match FuncCall_GetFunction fc func with
      | None => Err (FuncNotDefined func)
      | Some f =>
        mp ← setValue env st params;
        match js_call f (input ++ (at_param mp <$> params)) with
        | None => Err (JsError func)
        | Some (JsMap fields) => Ok (st, [VMap (Some fields)])
        | Some (JsScalar v) => Ok (st, [VHost v])
        | Some JsUnsupported => Err (JsReturnType func)
        end
      end
    | None => Err (FuncUnknown func)
    end
  | None => Err (FuncUnknown func)
  end.

(** ** [Expression.Execute], one definition per case *)

(** [if] and [elseif].  Three parameters are compared with [EQ_EXP], whatever
    the first one is. *)
Definition execute_if env st (func : string) (params : list string) : exec (rt_state * list value) :=
  let scope :=
    if bool_decide (func = IF_EXP) then Ok (mkRt (varTemp_Append st.(rt_vars)) st.(rt_heap), [])
    else match varTemp_ClearTop st.(rt_vars) with
         | Ok vt => Ok (mkRt vt st.(rt_heap), [])
         | _ => Ok (st, [])
         end in
  match params with
  | [_; p1; p2] =>
    mp ← setValue env st [p1; p2];
    r ← CompareStringsAndNumbers st.(rt_heap) (at_param mp p1) (at_param mp p2) EQ_EXP;
    Ok (st, [VBool r])
  | [p0] =>
    mp ← setValue env st [p0];
    Ok (st, [VBool (truthy (at_param mp p0))])
  | [p0; p1] =>
    mp ← setValue env st [p1];
    if bool_decide (p0 = NE_EXP) then Ok (st, [VBool (negb (truthy (at_param mp p1)))]) else scope
  | _ => scope
  end.

Definition execute_get env st (func : string) (params : list string) (input : list value)
    : exec (rt_state * list value) :=
  p0 ← go_index params 0;
  mp ← setValue env st params;
  '(st, source, get) ←
    (if length params =? 1 then
       v ← first_input input func;
       '(st, m) ← as_reply st v (NotMap func);
       Ok (st, m, p0)
     else
       '(st, m) ← as_reply st (at_param mp p0) (NotMap func);
       p1 ← go_index params 1;
       Ok (st, m, p1));
  match at_param mp get with
  | VStr k => Ok (st, [gomap_get source k])
  | _ => Err (NotString p0)
  end.

(** [getp] always takes its array from the input. *)
Definition execute_getp env st (func : string) (params : list string) (input : list value)
    : exec (rt_state * list value) :=
  mp ← setValue env st params;
  p0 ← go_index params 0;
  '(st, source, get) ←
    (if length params =? 1 then
       v ← first_input input func;
       '(st, s) ← as_array st v (NotArray func);
       Ok (st, s, p0)
     else
       v ← go_index input 0;
       '(st, s) ← as_array st v (NotArray func);
       p1 ← go_index params 1;
       Ok (st, s, p1));
  match at_param mp get with
  | VInt i =>
    if (i <? 0)%Z then Panic IndexOutOfRange
    else v ← go_index (slice_elems st.(rt_heap) source) (Z.to_nat i); Ok (st, [v])
  | _ => Err (NotInt p0)
  end.

Definition set_var st (k : string) v : exec rt_state :=
  vt ← varTemp_Set (mkKv k v) st.(rt_vars); Ok (mkRt vt st.(rt_heap)).

Definition push_var st (k : string) v : exec rt_state :=
  vt ← varTemp_Push (mkKv k v) st.(rt_vars); Ok (mkRt vt st.(rt_heap)).

Definition execute_set env st (params : list string) (input : list value) : exec (rt_state * list value) :=
  if length params =? 1 then
    p0 ← go_index params 0;
    v ← first_input input SET_EXP;
    st ← set_var st p0 v;
    Ok (st, [v])
  else
    rest ← go_slice_from params 1;
    mp ← setValue env st rest;
    p0 ← go_index params 0;
    p1 ← go_index params 1;
    st ← set_var st p0 (at_param mp p1);
    Ok (st, [at_param mp p1]).

(** [send] and [sendu]. *)
Definition execute_send env st (func : string) (params : list string) (input : list value)
    : exec (rt_state * list value) :=
  v ←
    (if length params =? 1 then first_input input func
     else
       ps ← go_slice params 0 1;
       mp ← setValue env st ps;
       p0 ← go_index params 0;
       Ok (at_param mp p0));
  p0 ← go_index params 0;
  match v with
  | VNil => Err (CantSend p0)
  | _ => '(st, m) ← to_reply st v (CantSend p0); Ok (st, [VPtrReply m])
  end.

(** [waite]: a string [finish] counts as finished whatever it says. *)
Definition execute_waite env st (params : list string) : exec (rt_state * list value) :=
  mp ← setValue env st params;
  p0 ← go_index params 0;
  match at_param mp p0 with
  | VReply m =>
    match gomap_get m "result" with
    | VNil => Err InvalidResult
    | VResult r => if (r.(FinishedAt) =? 0)%Z then Err Unfinished else Ok (st, [])
    | VMap result =>
      match gomap_get result "finish" with
      | VBool f => if f then Ok (st, []) else Err Unfinished
      | VStr _ => Ok (st, [])
      | _ => Err Unfinished
      end
    | _ => Err InvalidResult
    end
  | _ => Err NotReply
  end.

Definition execute_delete env st (params : list string) (input : list value) : exec (rt_state * list value) :=
  mp ← setValue env st params;
  '(st, m, key) ←
    (if length params =? 2 then
       p0 ← go_index params 0;
       '(st, m) ← to_reply st (at_param mp p0) (NotMap DELETE_EXP);
       p1 ← go_index params 1;
       key ← as_string (at_param mp p1) p1;
       Ok (st, m, key)
     else
       v ← go_index input 0;
       '(st, m) ← to_reply st v (NotMap DELETE_EXP);
       p0 ← go_index params 0;
       key ← as_string (at_param mp p0) p0;
       Ok (st, m, key));
  Ok (st, [VReply (delete key <$> m)]).

(** [put]: writing to a nil map panics. *)
Definition execute_put env st (func : string) (params : list string) (input : list value)
    : exec (rt_state * list value) :=
  mp ← setValue env st params;
  '(st, m, key, v) ←
    match params with
    | [p0; p1; p2] =>
      '(st, m) ← to_reply st (at_param mp p0) (NotMap func);
      key ← as_string (at_param mp p1) p1;
      Ok (st, m, key, at_param mp p2)
    | [p0; p1] =>
      v ← first_input input func;
      '(st, m) ← to_reply st v (NotMap func);
      key ← as_string (at_param mp p0) p0;
      Ok (st, m, key, at_param mp p1)
    | _ => p0 ← go_index params 0; Err (BadParamCount func)
    end;
  match m with
  | None => Panic NilMapWrite
  | Some m => Ok (st, [VReply (Some (<[key:=v]> m))])
  end.

Definition execute_pop st (func : string) (input : list value) : exec (rt_state * list value) :=
  match input with
  | [] => Err CantPop
  | v :: _ =>
    '(st, s) ← as_array st v (NotArray func);
    match slice_elems st.(rt_heap) s with
    | [] => Err CantPop
    | _ => Ok (st, [VSlice (slice_pop s)])
    end
  end.

Definition execute_printf env st (params : list string) : exec (rt_state * list value) :=
  mp ← setValue env st params;
  rest ← go_slice_from params 1;
  p0 ← go_index params 0;
  match at_param mp p0 with
  | VStr format => Ok (st, [VStr (Sprintf format (at_param mp <$> rest))])
  | _ => Panic TypeAssertion
  end.

(** [define]: a number is pushed without a result, another type is ignored. *)
Definition execute_define st (params : list string) : exec (rt_state * list value) :=
  p1 ← go_index params 1;
  p0 ← go_index params 0;
  let ty k := bool_decide (p1 = k) in
  if ty "map" then st ← push_var st p0 (VMap (Some ∅)); Ok (st, [VPtrMap (Some ∅)])
  else if ty "array" then
    let '(h, s) := alloc [] 0 st.(rt_heap) in
    st ← push_var (mkRt st.(rt_vars) h) p0 (VSlice s);
    Ok (st, [VSlice s])
  else if ty "string" then st ← push_var st p0 (VStr ""); Ok (st, [VStr ""])
  else if ty "number" then st ← push_var st p0 (VFloat f_zero); Ok (st, [])
  else Ok (st, []).

Definition execute_sendsync env st (params : list string) (input : list value) : exec (rt_state * list value) :=
  if length params =? 1 then Ok (st, input)
  else
    ps ← go_slice params 0 1;
    mp ← setValue env st ps;
    p0 ← go_index params 0;
    Ok (st, [at_param mp p0]).

(** [return] without parameters returns its input, a nil slice or an array. *)
Definition execute_return env st (params : list string) (input : option (list value))
    : exec (rt_state * list value) :=
  match params, input with
  | [], None => Ok (st, [VSlice SNil])
  | [], Some input =>
    let '(h, s) := alloc input (length input) st.(rt_heap) in
    Ok (mkRt st.(rt_vars) h, [VSlice s])
  | _, _ => mp ← setValue env st params; Ok (st, at_param mp <$> params)
  end.

(** [sub]: parameters are passed as the words of the template. *)
Definition execute_sub st (func : string) (params : list string) (input : list value)
    : exec (rt_state * list value) :=
  v ←
    match params with
    | [p0; p1] => subtract (VStr p0) (VStr p1)
    | [p0] => a ← go_index input 0; subtract a (VStr p0)
    | _ =>
      match input with
      | a :: b :: _ => subtract a b
      | _ => Err (BadParamCount func)
      end
    end;
  Ok (st, [v]).

Definition execute_range env st (params : list string) : exec (rt_state * list value) :=
  ps ← go_slice params 0 1;
  mp ← setValue env st ps;
  p0 ← go_index params 0;
  let iter := at_param mp p0 in
  match convertInterfaceToReply st.(rt_heap) iter with
  | Some (h, m) => Ok (mkRt st.(rt_vars) h, [VPtrReply m])
  | None =>
    match convertInterfaceToArray st.(rt_heap) iter with
    | Some (h, s) => Ok (mkRt st.(rt_vars) h, [VSlice s])
    | None => Err RangeInvalid
    end
  end.

(** The switch.  [Input] is [None] for a nil slice; a nil result is []. *)
Definition Expression_Execute env st (e : Expression) (Input : option (list value))
    : exec (rt_state * list value) :=
  let input := default [] Input in
  let func := e.(Func) in
  let params := e.(Params) in
  let kw k := bool_decide (func = k) in
  if kw IF_EXP || kw ELSEIF_EXP then execute_if env st func params
  else if kw GET_EXP then execute_get env st func params input
  else if kw GETP_EXP then execute_getp env st func params input
  else if kw SET_EXP then execute_set env st params input
  else if kw SEND || kw SENDU then execute_send env st func params input
  else if kw WAIT_EXP then _ ← setValue env st params; Ok (st, [])
  else if kw WAITE_EXP then execute_waite env st params
  else if kw PARSE_EXP then
    mp ← setValue env st params;
    Ok (parse st (input ++ (at_param mp <$> params)))
  else if kw MERGE_EXP then
    mp ← setValue env st params;
    '(st, v) ← merge st (input ++ (at_param mp <$> params));
    Ok (st, [v])
  else if kw DELETE_EXP then execute_delete env st params input
  else if kw POP_EXP then execute_pop st func input
  else if kw PUSH_EXP then pushExp env st func params input
  else if kw PRINTF_EXP then execute_printf env st params
  else if kw SENDSYNC then execute_sendsync env st params input
  else if kw DEFINE then execute_define st params
  else if kw PUT_EXP then execute_put env st func params input
  else if kw RETURN_EXP then execute_return env st params Input
  else if kw ELSE_EXP || kw END_EXP then Ok (st, [])
  else if kw SUB_EXP then execute_sub st func params input
  else if kw RANGE_EXP then execute_range env st params
  else call_function env st func params input.

End Runtime.
