(* ===== verification/Interp.v ===== *)
(** Running a built template: [TemplateRuntime.Execute] of
    [pkg/workflow/template.go].

    Rows are executed in order; a row may jump through the table [indexRun],
    which reads 0 where it has no entry, as a Go map does.  [RangeValue]
    objects are shared between the field of that name and [rangeStack], so they
    live in a store.  A run can loop; [run] takes fuel, and what is enough is
    part of the theorems. *)

From stdpp Require Import pretty.
From Stdlib Require Import Ascii.
From S2P Require Import Prelude GoStrings Names OrderedMap VarStack Template Value Runtime.

Record DeliverFlow (V : Type) := mkFlow { Reciever : string; Send : string; Msg : V }.
Arguments mkFlow {V} _ _ _.
Arguments Reciever {V} _.
Arguments Send {V} _.
Arguments Msg {V} _.

(** [TrackLog]: the error, the row number it prints, the expression. *)
Record TrackLog := mkLog { log_Err : exec_error; log_row : Z; log_exp : Expression }.

Section Interp.
Context {F Host Fn : Type} `{Lib : GoLib F Host Fn}.
Abbreviation value := (Value.value F Host).

(** [ExecOutput]: [Result] is the document [json.Marshal] writes, [None] for no
    bytes. *)
Record ExecOutput := mkOutput {
  DeliverFlows : list (DeliverFlow value);
  Logs : list TrackLog;
  TrackErr : option exec_error;
  ExecResult : option (jv F)
}.

Record RangeValue := mkRange {
  rv_Value : list (kv value);
  rv_StartIndex : Z;
  rv_Index : nat;
  rv_EndIndex : Z;
  rv_KeyVar : string;
  rv_ValueVar : string
}.

(** [TemplateRuntime] with the locals of [Execute]: the pair [expIndex] is what
    the string ["%d-%d"] holds. *)
Record TemplateRuntime := mkTR {
  tr_st : rt_state (F:=F) (Host:=Host);
  ExpInput : option (list value);
  expIndex : Z * nat;
  ranges : list RangeValue;
  tr_RangeValue : option nat;
  rangeStack : list nat;
  exeOutput : ExecOutput
}.
Implicit Types tr : TemplateRuntime.

Definition with_st st tr : TemplateRuntime :=
  mkTR st tr.(ExpInput) tr.(expIndex) tr.(ranges) tr.(tr_RangeValue) tr.(rangeStack) tr.(exeOutput).
Definition with_input i tr : TemplateRuntime :=
  mkTR tr.(tr_st) i tr.(expIndex) tr.(ranges) tr.(tr_RangeValue) tr.(rangeStack) tr.(exeOutput).
Definition with_ranges rs cur stack tr : TemplateRuntime :=
  mkTR tr.(tr_st) tr.(ExpInput) tr.(expIndex) rs cur stack tr.(exeOutput).
Definition with_output o tr : TemplateRuntime :=
  mkTR tr.(tr_st) tr.(ExpInput) tr.(expIndex) tr.(ranges) tr.(tr_RangeValue) tr.(rangeStack) o.
Definition with_index i tr : TemplateRuntime :=
  mkTR tr.(tr_st) tr.(ExpInput) i tr.(ranges) tr.(tr_RangeValue) tr.(rangeStack) tr.(exeOutput).
Definition with_vars vt tr : TemplateRuntime := with_st (mkRt vt tr.(tr_st).(rt_heap)) tr.

Definition add_log (l : TrackLog) tr : TemplateRuntime :=
  let o := tr.(exeOutput) in
  with_output (mkOutput o.(DeliverFlows) (o.(Logs) ++ [l]) o.(TrackErr) o.(ExecResult)) tr.
Definition add_flow (f : DeliverFlow value) tr : TemplateRuntime :=
  let o := tr.(exeOutput) in
  with_output (mkOutput (o.(DeliverFlows) ++ [f]) o.(Logs) o.(TrackErr) o.(ExecResult)) tr.
Definition set_track_err (e : exec_error) tr : TemplateRuntime :=
  let o := tr.(exeOutput) in
  with_output (mkOutput o.(DeliverFlows) o.(Logs) (Some e) o.(ExecResult)) tr.
Definition set_result (r : option (jv F)) tr : TemplateRuntime :=
  let o := tr.(exeOutput) in
  with_output (mkOutput o.(DeliverFlows) o.(Logs) o.(TrackErr) r) tr.

(** [NewRutime]. *)
Definition NewRutime : TemplateRuntime :=
  mkTR (mkRt [[]] []) (Some []) (0%Z, 0) [] None [] (mkOutput [] [] None None).

(** What follows an expression of a row. *)
Inductive exp_next : Type :=
| Go (idx : Z) (tr : TemplateRuntime)      (* the next expression of the row *)
| Break (idx : Z) (tr : TemplateRuntime)   (* leave the row *)
| Return (tr : TemplateRuntime).           (* leave [Execute] *)

Section Table.
Context (exps : list (list Expression)) (indexRun : gmap nat nat).
(** The semantics of an expression: [Expression.Execute] with the template's
    variables, replies and functions. *)
Context (execute : rt_state (F:=F) (Host:=Host) -> Expression -> option (list value) ->
  outcome exec_error (rt_state (F:=F) (Host:=Host) * list value)).

(** [t.indexRun[idx]]. *)
Definition jump_of (idx : Z) : Z :=
  if (idx <? 0)%Z then 0%Z
  else match indexRun !! Z.to_nat idx with Some j => Z.of_nat j | None => 0%Z end.

(** [append(key, value)] of a range: a fresh scope entry for each variable. *)
Definition push_range (rv : RangeValue) (i : nat) tr : outcome Empty_set TemplateRuntime :=
  e ← go_index rv.(rv_Value) i;
  vt ← varTemp_Push (mkKv rv.(rv_KeyVar) (VStr e.(key))) tr.(tr_st).(rt_vars);
  vt ← varTemp_Push (mkKv rv.(rv_ValueVar) e.(VarStack.value)) vt;
  Ok (with_vars vt tr).

Definition next_index (id : nat) (rv : RangeValue) tr : TemplateRuntime :=
  with_ranges (<[id := mkRange rv.(rv_Value) rv.(rv_StartIndex) (S rv.(rv_Index)) rv.(rv_EndIndex)
                         rv.(rv_KeyVar) rv.(rv_ValueVar)]> tr.(ranges))
    tr.(tr_RangeValue) tr.(rangeStack) tr.

(** The entries a range walks, by the type of its value. *)
Definition range_entries (h : list (list value)) (v : value) : list (kv value) :=
  match v with
  | VMap (Some m) | VPtrReply (Some m) => (fun '(k, v) => mkKv k v) <$> map_order m
  | VSlice s => imap (fun i v => mkKv (pretty i) v) (slice_elems h s)
  | _ => []
  end.

(** [range]: enters the loop, or jumps before the [end] of an empty one. *)
Definition enter_range (idx : Z) (e : Expression) (out : list value) tr : outcome Empty_set (Z * TemplateRuntime) :=
  kvar ← go_index e.(Params) 1;
  vvar ← go_index e.(Params) 2;
  v ← go_index out 0;
  let entries := range_entries tr.(tr_st).(rt_heap) v in
  let id := length tr.(ranges) in
  let rv := mkRange entries idx 0 (jump_of idx) kvar vvar in
  let tr := with_ranges (tr.(ranges) ++ [rv]) (Some id) tr.(rangeStack) tr in
  match entries with
  | [] => Ok ((jump_of idx - 1)%Z, tr)
  | _ =>
    tr ← push_range rv 0 tr;
    Ok (idx, next_index id rv (with_ranges tr.(ranges) tr.(tr_RangeValue) (tr.(rangeStack) ++ [id]) tr))
  end.

Definition pop_scope tr : TemplateRuntime :=
  match varTemp_Pop tr.(tr_st).(rt_vars) with
  | Ok vt => with_vars vt tr
  | _ => tr
  end.

(** The next round of the loop [id], if it has one. *)
Definition next_round (id : nat) (rv : RangeValue) tr : outcome Empty_set (Z * TemplateRuntime) :=
  tr ← push_range rv rv.(rv_Index) (with_vars (varTemp_Append tr.(tr_st).(rt_vars)) tr);
  Ok (rv.(rv_StartIndex), next_index id rv tr).

(** [end]: closes the scope; at the end of the current range the next round
    starts, or the range is left and the enclosing one becomes current and, if
    it has a round left, starts it at once. *)
Definition exec_end (idx : Z) tr : outcome Empty_set (Z * TemplateRuntime) :=
  let tr := pop_scope tr in
  match tr.(tr_RangeValue) with
  | None => Ok (idx, tr)
  | Some id =>
    match tr.(ranges) !! id with
    | None => Panic NilDereference
    | Some rv =>
      if (rv.(rv_EndIndex) =? idx)%Z then
        if rv.(rv_Index) <? length rv.(rv_Value) then next_round id rv tr
        else match tr.(rangeStack) with
        | [] => Ok (idx, tr)
        | _ =>
          let stack := removelast tr.(rangeStack) in
          match last stack with
          | None => Ok (idx, with_ranges tr.(ranges) None stack tr)
          | Some id =>
            let tr := with_ranges tr.(ranges) (Some id) stack tr in
            match tr.(ranges) !! id with
            | None => Panic NilDereference
            | Some rv =>
              if rv.(rv_Index) <? length rv.(rv_Value) then next_round id rv (pop_scope tr) else Ok (idx, tr)
            end
          end
        end
      else Ok (idx, tr)
    end
  end.

(** [out], as the input of the next expression: only [parse] returns an empty
    slice that is not nil. *)
Definition as_input (e : Expression) (out : list value) : option (list value) :=
  match out with
  | [] => if bool_decide (e.(Func) = PARSE_EXP) then Some [] else None
  | _ => Some out
  end.

Definition single_is (p : value -> bool) (out : list value) : bool :=
  match out with [v] => p v | _ => false end.
Definition is_false (v : value) : bool := match v with VBool b => negb b | _ => false end.
Definition is_empty_string (v : value) : bool :=
  match v with VStr s => bool_decide (s = "") | _ => false end.

Definition is_send (e : Expression) : bool :=
  bool_decide (e.(Func) = SENDSYNC) || bool_decide (e.(Func) = SEND) || bool_decide (e.(Func) = SENDU).

(** One expression of a row, at the position ([idx], [edx]). *)
Definition exec_exp (idx : Z) (edx : nat) (e : Expression) tr : outcome Empty_set exp_next :=
  let kw k := bool_decide (e.(Func) = k) in
  '(tr, out, err) ←
    match execute tr.(tr_st) e tr.(ExpInput) with
    | Panic p => Panic p
    | Ok (st, out) => Ok (with_st st tr, out, None)
    | Err er => Ok (add_log (mkLog er (idx + 1) e) tr, [], Some er)
    end;
  if is_send e then
    match err, out with
    | Some _, _ | _, [] => Ok (Return tr)
    | None, msg :: _ =>
      p ← (if length e.(Params) =? 2 then go_index e.(Params) 1 else go_index e.(Params) 0);
      let tr := add_flow (mkFlow (Trim p ".") e.(Func) msg) (with_index (idx, S edx) tr) in
      if kw SENDSYNC then Ok (Return tr) else Ok (Go idx tr)
    end
  else
    '(idx, tr) ←
      match err with
      | None => if kw RANGE_EXP then enter_range idx e out tr else Ok (idx, tr)
      | Some _ => Ok (idx, tr)
      end;
    if kw RETURN_EXP then
      Ok (Return (set_result
        (match err with
         | Some _ => Some JvNull
         | None => JvArr <$> mapM (marshal maxNestingDepth tr.(tr_st).(rt_heap)) out
         end) tr))
    else
      '(idx, tr) ← (if kw END_EXP then exec_end idx tr else Ok (idx, tr));
      let tr := if kw BREAK_EXP then with_ranges tr.(ranges) None tr.(rangeStack) tr else tr in
      match err with
      | Some er =>
        if (jump_of idx =? 0)%Z then Ok (Return (set_track_err er tr))
        else if kw ELSE_EXP then Ok (Break (jump_of idx - 1) tr)
        else Ok (Break (jump_of idx) tr)
      | None =>
        if kw ELSE_EXP then Ok (Break (jump_of idx - 1) tr)
        else if kw IF_EXP && single_is is_false out then Ok (Break (jump_of idx) tr)
        else if single_is is_empty_string out && (0 <? jump_of idx)%Z then Ok (Break (jump_of idx) tr)
        else Ok (Go idx (with_input (as_input e out) tr))
      end.

(** The expressions of a row from position [edx] on; [inl] is the index after
    the row and the runtime, [inr] the runtime at a return. *)
Fixpoint exec_row (idx : Z) (edx : nat) (row : list Expression) tr
    : outcome Empty_set (Z * TemplateRuntime + TemplateRuntime) :=
  match row with
  | [] => Ok (inl (idx, tr))
  | e :: row =>
    r ← exec_exp idx edx e tr;
    match r with
    | Go idx tr => exec_row idx (S edx) row tr
    | Break idx tr => Ok (inl (idx, tr))
    | Return tr => Ok (inr tr)
    end
  end.

(** A row with an opening expression gets a scope. *)
Definition open_scope (row : list Expression) tr : TemplateRuntime :=
  if existsb (fun e => includes OPEN_EXP e.(Func)) row
  then with_vars (varTemp_Append tr.(tr_st).(rt_vars)) tr else tr.

(** The loop of [Execute]; [None] when the fuel ran out. *)
Fixpoint run (fuel : nat) (idx : Z) (edx : nat) tr : outcome Empty_set (option TemplateRuntime) :=
  match fuel with
  | 0 => Ok None
  | S fuel =>
    if (idx <? Z.of_nat (length exps))%Z then
      row ← (if (idx <? 0)%Z then Panic IndexOutOfRange else go_index exps (Z.to_nat idx));
      r ← exec_row idx edx (drop edx row) (open_scope row tr);
      match r with
      | inl (idx, tr) => run fuel (idx + 1) 0 (with_input (Some []) tr)
      | inr tr => Ok (Some tr)
      end
    else Ok (Some tr)
  end.

(** [Execute]: from [expIndex], with an empty [rangeStack] and output. *)
Definition TemplateRuntime_Execute (fuel : nat) tr : outcome Empty_set (option TemplateRuntime) :=
  run fuel tr.(expIndex).1 tr.(expIndex).2
    (with_ranges tr.(ranges) tr.(tr_RangeValue) [] (with_output (mkOutput [] [] None None) tr)).

End Table.

(** A template run on the replies: [NewRutime] and one [Execute]. *)
Definition run_template (fuel : nat) (t : Template Fn) (outputVars : gmap string (option (gmap string value)))
    : outcome Empty_set (option ExecOutput) :=
  r ← TemplateRuntime_Execute t.(Exps) t.(IndexRun)
        (Expression_Execute (mkEnv t.(Vars) outputVars (Some t.(FuncCalls)))) fuel NewRutime;
  Ok (match r with Some tr => Some tr.(exeOutput) | None => None end).

End Interp.
