(* ===== verification/InterpProps.v ===== *)
(** Theorems about running a template ([Interp.v], [Runtime.v]): termination,
    loops, conditions, and the values expressions pass on. *)

From stdpp Require Import pretty.
From Stdlib Require Import Ascii.
From S2P Require Import Prelude GoStrings Names OrderedMap VarStack Template Value Runtime Interp.

(** Decides which keyword a concrete expression is. *)
Ltac eval_kw :=
  cbn [Func Params];
  repeat match goal with
  | |- context [bool_decide (?a = ?b :> string)] =>
    let v := eval vm_compute in (bool_decide (a = b)) in change (bool_decide (a = b)) with v
  end; cbn [orb andb negb].

(** ** Termination *)

Section Terminates.
Context {F Host Fn : Type} `{Lib : GoLib F Host Fn}.
Abbreviation value := (Value.value F Host).
Abbreviation rts := (rt_state (F:=F) (Host:=Host)).
Abbreviation runtime := (TemplateRuntime (F:=F) (Host:=Host)).
Abbreviation next := (exp_next (F:=F) (Host:=Host)).
Context (exps : list (list Expression)) (indexRun : gmap nat nat).
Context (execute : rts -> Expression -> option (list value) -> outcome exec_error (rts * list value)).
Implicit Types tr : runtime.

(** A row that never jumps back: it starts no loop, and a condition or [else]
    in it has a place to jump to. *)
Definition forward_row (row : list Expression) (target : option nat) : Prop :=
  forall e, e ∈ row -> e.(Func) <> RANGE_EXP /\ (e.(Func) ∈ [IF_EXP; ELSE_EXP] -> is_Some target).

Context (Hforward : forall k v, indexRun !! k = Some v -> k < v).
Context (Hrows : forall k row, exps !! k = Some row -> forward_row row (indexRun !! k)).

Lemma jump_of_forward (k : nat) :
  jump_of indexRun (Z.of_nat k) = 0%Z /\ indexRun !! k = None \/ (Z.of_nat k < jump_of indexRun (Z.of_nat k))%Z.
Proof.
  unfold jump_of. rewrite (proj2 (Z.ltb_ge _ _)) by lia. rewrite Nat2Z.id.
  destruct (indexRun !! k) as [j|] eqn:E; [right; apply Hforward in E; lia|by left].
Qed.

Definition next_forward (k : nat) (r : next) : Prop :=
  match r with
  | Go idx tr => idx = Z.of_nat k /\ tr.(tr_RangeValue) = None
  | Break idx tr => (Z.of_nat k <= idx)%Z /\ tr.(tr_RangeValue) = None
  | Return _ => True
  end.

Lemma exec_end_none idx tr :
  tr.(tr_RangeValue) = None -> exec_end idx tr = Ok (idx, pop_scope tr) /\ (pop_scope tr).(tr_RangeValue) = None.
Proof.
  intros H. assert ((pop_scope tr).(tr_RangeValue) = None) as Hp.
  { unfold pop_scope. destruct (varTemp_Pop _); done. }
  unfold exec_end. cbn zeta. rewrite Hp. done.
Qed.

Lemma exec_exp_forward (k edx : nat) e tr r :
  e.(Func) <> RANGE_EXP -> (e.(Func) ∈ [IF_EXP; ELSE_EXP] -> is_Some (indexRun !! k)) ->
  tr.(tr_RangeValue) = None ->
  exec_exp indexRun execute (Z.of_nat k) edx e tr = Ok r -> next_forward k r.
Proof.
  intros Hr Hij Htr. unfold exec_exp. intros H.
  apply outcome_bind_ok in H as ([[tr1 out] err] & H1 & H).
  assert (tr1.(tr_RangeValue) = None) as Htr1 by (destruct (execute _ _ _) as [[]| |]; by simplify_eq/=).
  rewrite (bool_decide_eq_false_2 (e.(Func) = RANGE_EXP)) in H by done.
  destruct (is_send e).
  { repeat (step_ok H; try by simplify_eq); simplify_eq/=; done. }
  apply outcome_bind_ok in H as ([idx tr2] & H2 & H).
  assert (idx = Z.of_nat k /\ tr2 = tr1) as [-> ->] by (destruct err; by simplify_eq/=).
  case_bool_decide; [by simplify_eq|].
  apply outcome_bind_ok in H as ([idx tr2] & H3 & H).
  assert (idx = Z.of_nat k /\ tr2.(tr_RangeValue) = None) as [-> Htr2].
  { destruct (bool_decide (e.(Func) = END_EXP)); [|by simplify_eq].
    destruct (exec_end_none (Z.of_nat k) tr1 Htr1) as [E ?]. rewrite E in H3. by simplify_eq. }
  set (tr3 := if bool_decide (e.(Func) = BREAK_EXP) then _ else tr2) in H.
  assert (tr3.(tr_RangeValue) = None) by (subst tr3; destruct (bool_decide (e.(Func) = BREAK_EXP)); [reflexivity|exact Htr2]). clearbody tr3.
  assert (bool_decide (e.(Func) = IF_EXP) = true \/ bool_decide (e.(Func) = ELSE_EXP) = true ->
          (Z.of_nat k < jump_of indexRun (Z.of_nat k))%Z) as Hj.
  { intros Hk. destruct (jump_of_forward k) as [[_ Hn]|]; [|done].
    rewrite !bool_decide_eq_true in Hk. destruct Hij as [? ?]; [set_solver|congruence]. }
  pose proof (jump_of_forward k) as Hk.
  destruct err.
  - destruct (Z.eqb_spec (jump_of indexRun (Z.of_nat k)) 0); [by simplify_eq|].
    destruct (bool_decide (e.(Func) = ELSE_EXP)); injection H as <-; (split; [lia|done]).
  - destruct (bool_decide (e.(Func) = ELSE_EXP)).
    { injection H as <-. specialize (Hj (or_intror eq_refl)). split; [lia|done]. }
    destruct (bool_decide (e.(Func) = IF_EXP) && single_is is_false out) eqn:Hif.
    { apply andb_prop in Hif as [Hif _]. injection H as <-. specialize (Hj (or_introl Hif)). split; [lia|done]. }
    destruct (single_is is_empty_string out && (0 <? jump_of indexRun (Z.of_nat k))%Z) eqn:He.
    { apply andb_prop in He as [_ He]. injection H as <-. split; [lia|done]. }
    by injection H as <-.
Qed.

Lemma exec_row_forward (k edx : nat) row tr r :
  forward_row row (indexRun !! k) -> tr.(tr_RangeValue) = None ->
  exec_row indexRun execute (Z.of_nat k) edx row tr = Ok r ->
  match r with
  | inl (idx, tr) => (Z.of_nat k <= idx)%Z /\ tr.(tr_RangeValue) = None
  | inr _ => True
  end.
Proof.
  revert edx tr. induction row as [|e row IH]; intros edx tr Hf Htr H; simpl in H.
  - simplify_eq. done.
  - apply outcome_bind_ok in H as (n & Hn & H).
    destruct (Hf e) as [? ?]; [set_solver|].
    apply exec_exp_forward in Hn; [|done..]. destruct n as [idx tr'|idx tr'|tr']; simpl in Hn.
    + destruct Hn as [-> ?]. eapply IH; [|done|exact H]. intros e' ?. apply Hf. set_solver.
    + simplify_eq. done.
    + by simplify_eq.
Qed.

Lemma run_forward fuel (idx : Z) edx tr :
  (0 <= idx)%Z -> tr.(tr_RangeValue) = None -> (Z.of_nat (length exps) - idx < Z.of_nat fuel)%Z ->
  0 < fuel -> run exps indexRun execute fuel idx edx tr <> Ok None.
Proof.
  revert idx edx tr. induction fuel as [|fuel IH]; intros idx edx tr Hi Htr Hm Hf; [lia|].
  simpl. destruct (Z.ltb_spec idx (Z.of_nat (length exps))); [|done].
  rewrite (proj2 (Z.ltb_ge idx 0)) by lia.
  destruct (go_index (E:=Empty_set) exps (Z.to_nat idx)) as [row|e|] eqn:Hg; [|destruct e|done].
  assert (exps !! Z.to_nat idx = Some row) as Hrow by (unfold go_index in Hg; case_match; naive_solver).
  change (mbind ?f (Ok row)) with (f row). cbn beta.
  destruct (exec_row _ _ _ _ _ _) as [[[idx' tr']|]|e|] eqn:He; [|done|destruct e|done].
  rewrite <- (Z2Nat.id idx) in He by lia. apply exec_row_forward in He.
  - simpl. apply IH; [lia|apply He|lia|lia].
  - intros e Hin. apply Hrows in Hrow. apply Hrow. rewrite <- (take_drop edx row). set_solver.
  - unfold open_scope. by destruct (existsb _ _).
Qed.

End Terminates.

(** ** Loops *)

Section Loops.
Context {F Host Fn : Type} `{Lib : GoLib F Host Fn}.
Abbreviation value := (Value.value F Host).
Abbreviation rts := (rt_state (F:=F) (Host:=Host)).
Abbreviation runtime := (TemplateRuntime (F:=F) (Host:=Host)).
Abbreviation next := (exp_next (F:=F) (Host:=Host)).
Context (exps : list (list Expression)) (indexRun : gmap nat nat).
Implicit Types tr : runtime.

Definition loop_free (row : list Expression) : bool :=
  forallb (fun e => negb (includes [RANGE_EXP; END_EXP; BREAK_EXP] e.(Func))) row.

Definition map_next (f : runtime -> runtime) (r : next) : next :=
  match r with
  | Go idx tr => Go idx (f tr)
  | Break idx tr => Break idx (f tr)
  | Return tr => Return (f tr)
  end.

Section Frame.
Context (execute : rts -> Expression -> option (list value) -> outcome exec_error (rts * list value)).
Context (rs : list (RangeValue (F:=F) (Host:=Host))) (cur : option nat) (stack : list nat).

(** An expression outside loops neither reads nor writes the ranges. *)
Lemma exec_exp_ranges idx edx e tr :
  negb (includes [RANGE_EXP; END_EXP; BREAK_EXP] e.(Func)) = true ->
  exec_exp indexRun execute idx edx e (with_ranges rs cur stack tr) =
    map_next (with_ranges rs cur stack) <$> exec_exp indexRun execute idx edx e tr.
Proof.
  intros H%negb_true_iff%bool_decide_eq_false. unfold exec_exp.
  rewrite !(bool_decide_eq_false_2 (e.(Func) = RANGE_EXP)) by set_solver.
  rewrite !(bool_decide_eq_false_2 (e.(Func) = END_EXP)) by set_solver.
  rewrite !(bool_decide_eq_false_2 (e.(Func) = BREAK_EXP)) by set_solver.
  change (tr_st (with_ranges rs cur stack tr)) with (tr_st tr).
  change (ExpInput (with_ranges rs cur stack tr)) with (ExpInput tr).
  destruct (execute (tr_st tr) e (ExpInput tr)) as [[st out]|er|]; [| |done]; cbn [mbind outcome_bind];
    destruct (is_send e); cbn; try done.
  all: repeat (case_match; simplify_eq; try done); by destruct (go_index (E:=Empty_set) _ _).
Qed.

Lemma exec_row_ranges idx edx row tr :
  loop_free row = true ->
  exec_row indexRun execute idx edx row (with_ranges rs cur stack tr) =
    (fun r => match r with
              | inl (i, tr) => inl (i, with_ranges rs cur stack tr)
              | inr tr => inr (with_ranges rs cur stack tr)
              end) <$> exec_row indexRun execute idx edx row tr.
Proof.
  revert idx edx tr. induction row as [|e row IH]; intros idx edx tr; [done|].
  cbn [loop_free forallb exec_row]. intros [He Hrow]%andb_prop. rewrite exec_exp_ranges by done.
  destruct (exec_exp _ _ _ _ _ _) as [[]| |]; cbn; [by apply IH|done..].
Qed.

End Frame.

Context (env : rt_env (F:=F) (Host:=Host) (Fn:=Fn)).
Abbreviation execute := (Expression_Execute env).
Abbreviation go := (run exps indexRun execute).

(** The rows from [k] on, when each of them goes on to the next one. *)
Fixpoint run_straight (k : nat) (rows : list (list Expression)) tr : option runtime :=
  match rows with
  | [] => Some tr
  | row :: rows =>
    match exec_row indexRun execute (Z.of_nat k) 0 row (open_scope row tr) with
    | Ok (inl (idx, tr)) =>
      if (idx =? Z.of_nat k)%Z then run_straight (S k) rows (with_input (Some []) tr) else None
    | _ => None
    end
  end.

Lemma run_straight_ranges rs cur stack k rows tr :
  forallb loop_free rows = true ->
  run_straight k rows (with_ranges rs cur stack tr) = with_ranges rs cur stack <$> run_straight k rows tr.
Proof.
  revert k tr. induction rows as [|row rows IH]; intros k tr; [done|].
  cbn [forallb run_straight]. intros [Hrow Hrows]%andb_prop.
  replace (open_scope row (with_ranges rs cur stack tr)) with (with_ranges rs cur stack (open_scope row tr))
    by (unfold open_scope; by destruct (existsb _ _)).
  rewrite exec_row_ranges by done.
  destruct (exec_row _ _ _ _ _ _) as [[[idx tr']|]| |]; cbn; [|done..].
  destruct (idx =? Z.of_nat k)%Z; [|done]. by apply (IH (S k) (with_input (Some []) tr')).
Qed.

Lemma run_row fuel k row tr :
  exps !! k = Some row ->
  go (S fuel) (Z.of_nat k) 0 tr =
    (r ← exec_row indexRun execute (Z.of_nat k) 0 row (open_scope row tr);
     match r with
     | inl (idx, tr) => go fuel (idx + 1) 0 (with_input (Some []) tr)
     | inr tr => Ok (Some tr)
     end).
Proof.
  intros Hk. pose proof (lookup_lt_Some _ _ _ Hk). cbn [run].
  rewrite (proj2 (Z.ltb_lt _ _)) by lia. rewrite (proj2 (Z.ltb_ge _ 0)) by lia.
  rewrite Nat2Z.id, (go_index_ok _ _ _ Hk). cbn [mbind outcome_bind]. by rewrite drop_0.
Qed.

Lemma run_straight_run fuel k rows tr tr' :
  (forall i row, rows !! i = Some row -> exps !! (k + i) = Some row) ->
  run_straight k rows tr = Some tr' ->
  go (length rows + fuel) (Z.of_nat k) 0 tr = go fuel (Z.of_nat (k + length rows)) 0 tr'.
Proof.
  revert k tr. induction rows as [|row rows IH]; intros k tr Hrows H; cbn [run_straight length] in *.
  - simplify_eq. by rewrite Nat.add_0_r.
  - assert (exps !! k = Some row) as Hk by (rewrite <- (Nat.add_0_r k); by apply Hrows).
    cbn [Nat.add]. rewrite (run_row _ _ _ _ Hk).
    destruct (exec_row _ _ _ _ _ _) as [[[idx tr1]|]| |]; try done.
    destruct (Z.eqb_spec idx (Z.of_nat k)) as [->|]; [|done]. cbn [mbind outcome_bind].
    replace (Z.of_nat k + 1)%Z with (Z.of_nat (S k)) by lia. rewrite <- Nat.add_succ_comm.
    apply IH; [|done]. intros i row' Hi. rewrite Nat.add_succ_comm. by apply Hrows.
Qed.

Lemma exec_exp_end idx edx tr :
  exec_exp indexRun execute idx edx (mkExp END_EXP []) tr =
    ('(i, tr) ← exec_end idx tr; Ok (Go i (with_input None tr))).
Proof.
  unfold exec_exp, is_send, Expression_Execute, as_input. eval_kw. cbn [mbind outcome_bind single_is andb].
  by replace (with_st (tr_st tr) tr) with tr by by destruct tr.
Qed.

(** A row with [end] alone: [exec_end] closes the scope and decides where to go
    on. *)
Lemma run_end fuel k tr :
  exps !! k = Some [mkExp END_EXP []] ->
  go (S fuel) (Z.of_nat k) 0 tr =
    ('(idx, tr) ← exec_end (Z.of_nat k) tr; go fuel (idx + 1) 0 (with_input (Some []) tr)).
Proof.
  intros Hk. rewrite (run_row _ _ _ _ Hk). cbn [exec_row]. rewrite exec_exp_end.
  change (open_scope [mkExp END_EXP []] tr) with tr.
  destruct (exec_end (Z.of_nat k) tr) as [[]| |]; done.
Qed.

Lemma run_straight_same_ranges k rows tr tr' :
  forallb loop_free rows = true -> run_straight k rows tr = Some tr' ->
  tr'.(tr_RangeValue) = tr.(tr_RangeValue).
Proof.
  intros Hf H. pose proof (run_straight_ranges tr.(ranges) tr.(tr_RangeValue) tr.(rangeStack) k rows tr Hf) as Hr.
  replace (with_ranges (ranges tr) (tr_RangeValue tr) (rangeStack tr) tr) with tr in Hr by by destruct tr.
  rewrite H in Hr. cbn in Hr. injection Hr as ->. done.
Qed.

(** *** Conditions *)

(** How the condition of an [if] at row [s] comes out, in the scope opened for
    it: [None] when it is neither true nor false, and false, with a log, when
    it cannot be evaluated. *)
Definition condition (s : nat) (params : list string) tr : option (runtime * bool) :=
  let tr := with_vars (tr.(tr_st).(rt_vars) ++ [[]]) tr in
  match execute_if env tr.(tr_st) IF_EXP params with
  | Ok (st, [VBool b]) => Some (with_st st tr, b)
  | Err er => Some (add_log (mkLog er (Z.of_nat s + 1) (mkExp IF_EXP params)) tr, false)
  | _ => None
  end.

Section If.
Context (s : nat) (params : list string) (A B : list (list Expression)).
Abbreviation m := (S s + length A).
Abbreviation e := (S m + length B).
Context (Hif : exps !! s = Some [mkExp IF_EXP params]).
Context (HA : forall i row, A !! i = Some row -> exps !! (S s + i) = Some row).
Context (Helse : exps !! m = Some [mkExp ELSE_EXP []]).
Context (HB : forall i row, B !! i = Some row -> exps !! (S m + i) = Some row).
Context (Hend : exps !! e = Some [mkExp END_EXP []]).
Context (Hfree : forallb loop_free (A ++ B) = true).
Context (Hjif : indexRun !! s = Some m) (Hjelse : indexRun !! m = Some e).

Lemma jump_of_entry k j : indexRun !! k = Some j -> jump_of indexRun (Z.of_nat k) = Z.of_nat j.
Proof. intros Hk. unfold jump_of. rewrite (proj2 (Z.ltb_ge _ 0)) by lia. by rewrite Nat2Z.id, Hk. Qed.

Lemma run_if_row fuel tr tr1 (b : bool) :
  condition s params tr = Some (tr1, b) ->
  go (S fuel) (Z.of_nat s) 0 tr =
    go fuel (Z.of_nat (if b then S s else S m)) 0 (with_input (Some []) tr1).
Proof.
  unfold condition. intros Hc. rewrite (run_row _ _ _ _ Hif). cbn [exec_row].
  change (open_scope _ tr) with (with_vars (tr.(tr_st).(rt_vars) ++ [[]]) tr).
  unfold exec_exp, is_send, Expression_Execute. eval_kw.
  cbn zeta in Hc. destruct (execute_if _ _ _ _) as [[st out]|er|]; [| |done].
  - destruct out as [|[] [|]]; try done. injection Hc as <- ->. destruct b; cbn [mbind outcome_bind].
    + cbn. do 2 f_equal. lia.
    + cbn [single_is is_false negb andb]. rewrite (jump_of_entry _ _ Hjif). cbn [mbind outcome_bind].
      f_equal. lia.
  - injection Hc as <- <-. cbn [mbind outcome_bind]. rewrite (jump_of_entry _ _ Hjif).
    rewrite (proj2 (Z.eqb_neq _ 0)) by lia. cbn [mbind outcome_bind]. f_equal. lia.
Qed.

Lemma run_else_row fuel tr :
  go (S fuel) (Z.of_nat m) 0 tr = go fuel (Z.of_nat e) 0 (with_input (Some []) tr).
Proof.
  rewrite (run_row _ _ _ _ Helse). cbn [exec_row]. change (open_scope _ tr) with tr.
  unfold exec_exp, is_send, Expression_Execute. eval_kw. cbn [mbind outcome_bind].
  rewrite (jump_of_entry _ _ Hjelse). f_equal. lia.
Qed.

Lemma if_else_runs fuel tr tr1 (b : bool) tr2 :
  tr.(tr_RangeValue) = None -> condition s params tr = Some (tr1, b) ->
  run_straight (if b then S s else S m) (if b then A else B) (with_input (Some []) tr1) = Some tr2 ->
  go ((if b then 3 + length A else 2 + length B) + fuel) (Z.of_nat s) 0 tr =
    go fuel (Z.of_nat (S e)) 0 (with_input (Some []) (pop_scope tr2)).
Proof.
  intros Hr Hc Hs. pose proof Hfree as Hf. rewrite forallb_app in Hf. apply andb_prop in Hf as [HfA HfB].
  assert (tr1.(tr_RangeValue) = None) as Hr1.
  { unfold condition in Hc. repeat (case_match; simplify_eq/=; try done). }
  assert (tr2.(tr_RangeValue) = None) as Hr2.
  { destruct b; [rewrite (run_straight_same_ranges _ _ _ _ HfA Hs)|rewrite (run_straight_same_ranges _ _ _ _ HfB Hs)];
      done. }
  assert (forall i, go (S fuel) (Z.of_nat e) 0 (with_input i tr2) =
    go fuel (Z.of_nat (S e)) 0 (with_input (Some []) (pop_scope tr2))) as He.
  { intros i. rewrite (run_end _ _ _ Hend). destruct (exec_end_none (Z.of_nat e) (with_input i tr2) Hr2) as [-> _].
    cbn [mbind outcome_bind]. replace (Z.of_nat e + 1)%Z with (Z.of_nat (S e)) by lia.
    f_equal. unfold pop_scope. cbn. by destruct (varTemp_Pop _). }
  destruct b; cbn [Nat.add]; rewrite (run_if_row _ _ _ _ Hc).
  - replace (S (S (length A + fuel))) with (length A + S (S fuel)) by lia.
    by rewrite (run_straight_run _ _ _ _ _ HA Hs), run_else_row.
  - replace (S (length B + fuel)) with (length B + S fuel) by lia.
    rewrite (run_straight_run _ _ _ _ _ HB Hs). etransitivity; [|exact (He tr2.(ExpInput))]. by destruct tr2.
Qed.

End If.

(** *** A range at the top level *)

Context (s : nat) (p kvar vvar : string) (body : list (list Expression)).
Abbreviation e := (S s + length body).

(** One round: a scope with the loop variables, the body, the scope closed. *)
Definition round (entry : kv value) tr : option runtime :=
  let scope := [mkKv kvar (VStr entry.(key)); mkKv vvar entry.(VarStack.value)] in
  tr ← run_straight (S s) body (with_input (Some []) (with_vars (tr.(tr_st).(rt_vars) ++ [scope]) tr));
  Some (with_input (Some []) (pop_scope tr)).

(** The reference semantics of the loop. *)
Fixpoint for_each (entries : list (kv value)) tr : option runtime :=
  match entries with
  | [] => Some tr
  | entry :: entries => tr ← round entry tr; for_each entries tr
  end.

Context (Hrange : exps !! s = Some [mkExp RANGE_EXP [p; kvar; vvar]]).
Context (Hbody : forall i row, body !! i = Some row -> exps !! (S s + i) = Some row).
Context (Hfree : forallb loop_free body = true).
Context (Hend : exps !! e = Some [mkExp END_EXP []]).
Context (Hjump : indexRun !! s = Some e).

Lemma jump_of_range : jump_of indexRun (Z.of_nat s) = Z.of_nat e.
Proof. unfold jump_of. rewrite (proj2 (Z.ltb_ge _ 0)) by lia. by rewrite Nat2Z.id, Hjump. Qed.

Lemma run_end_row fuel tr :
  go (S fuel) (Z.of_nat e) 0 tr =
    ('(idx, tr) ← exec_end (Z.of_nat e) tr; go fuel (idx + 1) 0 (with_input (Some []) tr)).
Proof. by apply run_end. Qed.

Section Entries.
Context (entries : list (kv value)) (rs : list (RangeValue (F:=F) (Host:=Host))).

(** The runtime inside the loop after [i] rounds were started. *)
Definition in_loop (i : nat) tr : runtime :=
  with_ranges (rs ++ [mkRange entries (Z.of_nat s) i (Z.of_nat e) kvar vvar]) (Some (length rs)) [length rs] tr.

Lemma pop_in_loop i tr : pop_scope (in_loop i tr) = in_loop i (pop_scope tr).
Proof. unfold pop_scope. cbn. by destruct (varTemp_Pop _). Qed.

Lemma next_round_in_loop i x tr :
  entries !! i = Some x ->
  next_round (length rs) (mkRange entries (Z.of_nat s) i (Z.of_nat e) kvar vvar) (in_loop i tr) =
    Ok (Z.of_nat s, in_loop (S i)
      (with_vars (tr.(tr_st).(rt_vars) ++ [[mkKv kvar (VStr x.(key)); mkKv vvar x.(VarStack.value)]]) tr)).
Proof.
  intros Hx. unfold next_round, push_range, varTemp_Append. cbn.
  rewrite (go_index_ok _ _ _ Hx). cbn. rewrite varTemp_Push_snoc. cbn. rewrite varTemp_Push_snoc. cbn.
  unfold next_index, in_loop, with_ranges. cbn. by rewrite insert_app_r_alt, Nat.sub_diag by lia.
Qed.

Lemma exec_end_in_loop i tr :
  exec_end (Z.of_nat e) (in_loop i tr) =
    if i <? length entries
    then next_round (length rs) (mkRange entries (Z.of_nat s) i (Z.of_nat e) kvar vvar) (in_loop i (pop_scope tr))
    else Ok (Z.of_nat e, with_ranges (rs ++ [mkRange entries (Z.of_nat s) i (Z.of_nat e) kvar vvar]) None []
                           (pop_scope tr)).
Proof.
  unfold exec_end. rewrite pop_in_loop. cbn zeta. cbn [tr_RangeValue in_loop with_ranges ranges].
  rewrite lookup_app_r, Nat.sub_diag by lia. cbn [lookup list_lookup rv_EndIndex rv_Index rv_Value].
  by rewrite Z.eqb_refl.
Qed.

Lemma loop_rounds fuel l i tr tr' :
  drop i entries = l -> for_each l (with_input (Some []) (pop_scope tr)) = Some tr' ->
  exists rs', go (S (length l * S (length body)) + fuel) (Z.of_nat e) 0 (in_loop i tr) =
    go fuel (Z.of_nat (S e)) 0 (with_ranges rs' None [] tr').
Proof.
  revert i tr. induction l as [|x l IH]; intros i tr Hd Hf;
    cbn [Nat.add]; rewrite run_end_row, exec_end_in_loop.
  - rewrite (proj2 (Nat.ltb_ge _ _)) by (apply (f_equal length) in Hd; len_lia). cbn in Hf. simplify_eq.
    eexists. cbn. f_equal. lia.
  - assert (entries !! i = Some x) as Hx.
    { rewrite <- (Nat.add_0_r i), <- lookup_drop, Hd. done. }
    rewrite (proj2 (Nat.ltb_lt _ _)) by (by eapply lookup_lt_Some).
    rewrite (next_round_in_loop _ _ _ Hx). cbn [for_each] in Hf.
    destruct (round x _) as [tr1|] eqn:Hr; [|done]. cbn in Hf. unfold round in Hr.
    destruct (run_straight _ _ _) as [tr2|] eqn:Hs; [|done]. cbn in Hr. simplify_eq.
    edestruct (IH (S i) tr2) as [rs' IH']; [by rewrite <- Nat.add_1_r, <- drop_drop, Hd|done|].
    exists rs'. etransitivity; [|exact IH']. clear IH IH'. cbn [length].
    replace (S (length l) * S (length body) + fuel)
      with (length body + (S (length l * S (length body)) + fuel)) by lia.
    cbn [mbind outcome_bind]. replace (Z.of_nat s + 1)%Z with (Z.of_nat (S s)) by lia.
    apply run_straight_run; [done|]. unfold in_loop.
    change (with_input (Some []) (with_ranges ?a ?b ?c ?t)) with (with_ranges a b c (with_input (Some []) t)).
    rewrite run_straight_ranges by done. exact (f_equal (fmap _) Hs).
Qed.

End Entries.

Lemma execute_range_out st params st' out :
  execute_range env st params = Ok (st', out) ->
  st'.(rt_vars) = st.(rt_vars) /\ exists v, out = [v] /\ is_empty_string v = false.
Proof.
  unfold execute_range. intros H. repeat (apply outcome_bind_ok in H as (? & _ & H)).
  repeat (case_match; simplify_eq/=; eauto 6).
Qed.

(** The range row, with its scope open: the loop is entered. *)
Lemma exec_range_row tr st v :
  execute_range env (mkRt (tr.(tr_st).(rt_vars) ++ [[]]) tr.(tr_st).(rt_heap)) [p; kvar; vvar] = Ok (st, [v]) ->
  exec_row indexRun execute (Z.of_nat s) 0 [mkExp RANGE_EXP [p; kvar; vvar]]
    (open_scope [mkExp RANGE_EXP [p; kvar; vvar]] tr) =
  ('(idx, tr) ← enter_range indexRun (Z.of_nat s) (mkExp RANGE_EXP [p; kvar; vvar]) [v] (with_st st tr);
   Ok (inl (idx, with_input (Some [v]) tr))).
Proof.
  intros H. pose proof (execute_range_out _ _ _ _ H) as [_ (w & [= <-] & Hw)]. cbn [exec_row].
  change (open_scope _ tr) with (with_vars (tr.(tr_st).(rt_vars) ++ [[]]) tr).
  unfold exec_exp, is_send, Expression_Execute, as_input. eval_kw. cbn [tr_st with_vars with_st rt_heap]. rewrite H.
  cbn [mbind outcome_bind single_is]. rewrite Hw. cbn [andb].
  change (with_st st (with_vars _ tr)) with (with_st st tr).
  by destruct (enter_range _ _ _ _ _) as [[]| |].
Qed.

(** Entering with entries: the first round starts. *)
Lemma enter_range_some tr v x l :
  range_entries tr.(tr_st).(rt_heap) v = x :: l -> tr.(rangeStack) = [] ->
  forall vars, tr.(tr_st).(rt_vars) = vars ++ [[]] ->
  enter_range indexRun (Z.of_nat s) (mkExp RANGE_EXP [p; kvar; vvar]) [v] tr =
    Ok (Z.of_nat s, in_loop (x :: l) tr.(ranges) 1
      (with_vars (vars ++ [[mkKv kvar (VStr x.(key)); mkKv vvar x.(VarStack.value)]]) tr)).
Proof.
  intros He Hs vars Hv. unfold enter_range. cbn. rewrite He, jump_of_range. unfold push_range. cbn.
  rewrite Hv, varTemp_Push_snoc. cbn. rewrite varTemp_Push_snoc. cbn.
  unfold next_index, in_loop, with_ranges. cbn. rewrite Hs.
  by rewrite insert_app_r_alt, Nat.sub_diag by lia.
Qed.

Lemma enter_range_none tr v :
  range_entries tr.(tr_st).(rt_heap) v = [] ->
  enter_range indexRun (Z.of_nat s) (mkExp RANGE_EXP [p; kvar; vvar]) [v] tr =
    Ok ((Z.of_nat e - 1)%Z, with_ranges (tr.(ranges) ++ [mkRange [] (Z.of_nat s) 0 (Z.of_nat e) kvar vvar])
                              (Some (length tr.(ranges))) tr.(rangeStack) tr).
Proof. intros He. unfold enter_range. cbn. by rewrite He, jump_of_range. Qed.

(** The end of a range without entries. *)
Lemma exec_end_empty rs tr :
  exec_end (Z.of_nat e) (with_ranges (rs ++ [mkRange [] (Z.of_nat s) 0 (Z.of_nat e) kvar vvar])
                            (Some (length rs)) [] tr) =
    Ok (Z.of_nat e, with_ranges (rs ++ [mkRange [] (Z.of_nat s) 0 (Z.of_nat e) kvar vvar])
                            (Some (length rs)) [] (pop_scope tr)).
Proof.
  unfold exec_end, pop_scope. cbn zeta. cbn [tr_st with_ranges].
  destruct (varTemp_Pop _); cbn; rewrite lookup_app_r, Nat.sub_diag by lia; cbn; by rewrite Z.eqb_refl.
Qed.

Lemma range_runs tr st v fuel tr' :
  tr.(rangeStack) = [] ->
  execute_range env (mkRt (tr.(tr_st).(rt_vars) ++ [[]]) tr.(tr_st).(rt_heap)) [p; kvar; vvar] = Ok (st, [v]) ->
  let entries := range_entries st.(rt_heap) v in
  for_each entries (with_input (Some []) (with_st (mkRt tr.(tr_st).(rt_vars) st.(rt_heap)) tr)) = Some tr' ->
  exists rs cur,
    go (1 + Nat.max 1 (length entries * S (length body)) + fuel) (Z.of_nat s) 0 tr =
      go fuel (Z.of_nat (S e)) 0 (with_ranges rs cur [] tr').
Proof.
  intros Hst Hr entries Hf. pose proof (execute_range_out _ _ _ _ Hr) as [Hv _]. cbn in Hv.
  cbn [Nat.add]. rewrite (run_row _ _ _ _ Hrange), (exec_range_row _ _ _ Hr).
  destruct entries as [|x l] eqn:He.
  - rewrite (enter_range_none (with_st st tr) v He). cbn [mbind outcome_bind length].
    replace (Nat.max 1 (0 * S (length body)) + fuel) with (S fuel) by lia.
    replace (Z.of_nat e - 1 + 1)%Z with (Z.of_nat e) by lia. cbn [rangeStack with_st]. rewrite Hst, run_end_row.
    change (with_input (Some []) (with_input (Some [v]) (with_ranges ?a ?b ?c ?t)))
      with (with_ranges a b c (with_input (Some []) t)).
    rewrite exec_end_empty. cbn [mbind outcome_bind for_each] in *. simplify_eq.
    eexists _, _. replace (Z.of_nat e + 1)%Z with (Z.of_nat (S e)) by lia. f_equal.
    unfold pop_scope, varTemp_Pop. cbn. rewrite Hv. destruct (rt_vars (tr_st tr)) eqn:E; [done|].
    cbn [app]. change (l :: l0 ++ [[]]) with ((l :: l0) ++ [[]]). by rewrite List.removelast_last.
  - rewrite (enter_range_some (with_st st tr) v x l He Hst _ Hv). cbn [mbind outcome_bind].
    cbn [for_each] in Hf. destruct (round x _) as [tr1|] eqn:Hrd; [|done]. cbn in Hf. unfold round in Hrd.
    destruct (run_straight _ _ _) as [tr2|] eqn:Hs; [|done]. cbn in Hrd. simplify_eq.
    destruct (loop_rounds (x :: l) tr.(ranges) fuel l 1 tr2 tr' eq_refl Hf) as [rs' Hl].
    exists rs', None. etransitivity; [|exact Hl]. cbn [length].
    replace (Nat.max 1 (S (length l) * S (length body)) + fuel)
      with (length body + (S (length l * S (length body)) + fuel)) by lia.
    replace (Z.of_nat s + 1)%Z with (Z.of_nat (S s)) by lia.
    apply run_straight_run; [done|]. unfold in_loop.
    change (with_input (Some []) (with_input (Some [v]) (with_ranges ?a ?b ?c ?t)))
      with (with_ranges a b c (with_input (Some []) t)).
    rewrite run_straight_ranges by done. exact (f_equal (fmap _) Hs).
Qed.

End Loops.

(** ** A concrete library, for examples

    Numbers are integers, there are no host values and no JavaScript, and
    [append] doubles. *)
Definition int_lib : GoLib Z Empty_set Empty_set := {|
  f_eqb := Z.eqb;
  f_ltb := Z.ltb;
  f_leb := Z.leb;
  f_zero := 0%Z;
  f_add := Z.add;
  f_sub := Z.sub;
  f_finite := fun _ => true;
  f_of_int := fun z => z;
  ParseFloat := fun s => default 0%Z (Atoi s);
  json_decode := fun _ => None;
  host_json := fun h : Empty_set => match h with end;
  host_kind := fun h : Empty_set => match h with end;
  host_eqb := fun h : Empty_set => match h with end;
  grow := fun n => 2 * n + 1;
  Sprintf := fun s _ => s;
  map_order := map_to_list;
  js_call := fun f : Empty_set => match f with end
|}.

Definition build_text (s : string) : outcome compile_error (Template Empty_set) :=
  Template_Build (NewTemplate None) ["t_task"] s (Some OM_New) true.

Definition run_text (fuel : nat) (s : string) (replies : gmap string (option (gmap string (value Z Empty_set))))
    : option (ExecOutput (F:=Z) (Host:=Empty_set)) :=
  match build_text s with
  | Ok t => match run_template (Lib:=int_lib) fuel t replies with Ok o => o | _ => None end
  | _ => None
  end.

Definition receivers (o : option (ExecOutput (F:=Z) (Host:=Empty_set))) : option (list string) :=
  match o with Some o => Some (Reciever <$> o.(DeliverFlows)) | None => None end.

(** ** The theorems *)

Definition unclosed_text : string := "{{if eq (1) (1)}}{{else}}{{get (1) (k) | end}}{{end}}".

Definition unclosed_env : rt_env (F:=Z) (Host:=Empty_set) (Fn:=Empty_set) :=
  mkEnv (Some OM_New) ∅ (Some (mkFuncCall ∅ None)).

(** C25: A template that builds, has no [range] and closes every [if] and
    [else] always finishes: [Execute] visits no more rows than there are,
    whatever the expressions do, from the start or resumed after a
    [sendsync]. *)
Theorem built_template_terminates {F Host Fn : Type} `{Lib : GoLib F Host Fn}
    (funcs : option (string -> js_lookup Fn)) input s vars restrict t execute
    (tr : TemplateRuntime (F:=F) (Host:=Host)) :
  Template_Build (NewTemplate funcs) input s vars restrict = Ok t ->
  (forall k row, t.(Exps) !! k = Some row -> forward_row row (t.(IndexRun) !! k)) ->
  tr.(tr_RangeValue) = None -> (0 <= tr.(expIndex).1)%Z ->
  TemplateRuntime_Execute t.(Exps) t.(IndexRun) execute (S (length t.(Exps))) tr <> Ok None.
Proof.
  intros Hb Hrows Htr Hi. unfold TemplateRuntime_Execute. apply run_forward; [|done..|lia|lia].
  intros k v Hk. eapply Template_Build_forward; done.
Qed.

Definition sample_condition : string :=
  "{{define .m map}}{{if eq (1) (1)}}{{send .m .a_task}}{{else}}{{send .m .b_task}}{{end}}".

Lemma built_template_terminates_witness :
  exists t, build_text sample_condition = Ok t /\
    TemplateRuntime_Execute (Lib:=int_lib) t.(Exps) t.(IndexRun)
      (Expression_Execute (Lib:=int_lib) unclosed_env) (S (length t.(Exps))) NewRutime <> Ok None.
Proof.
  destruct (build_text sample_condition) as [t| |] eqn:Hb; [|vm_compute in Hb; discriminate Hb..].
  exists t. split; [reflexivity|].
  apply (built_template_terminates (Lib:=int_lib) _ _ _ _ _ t _ _ Hb); [|reflexivity|simpl; lia].
  vm_compute in Hb. injection Hb as <-. intros k row Hk e He.
  do 6 (destruct k as [|k]; [vm_compute in Hk; injection Hk as <-; apply list_elem_of_singleton in He as ->;
    split; [by intros ?|]; intros Hin;
    first [by eexists|repeat (apply elem_of_cons in Hin as [Hin|Hin]; [discriminate Hin|]); by apply elem_of_nil in Hin]|]).
  cbn in Hk. discriminate Hk.
Defined.

Abbreviation int_run := (fun exps indexRun env =>
  run (Lib:=int_lib) exps indexRun (Expression_Execute (Lib:=int_lib) env)).

(** Two rows of the unclosed template lead back to its start. *)
Lemma unclosed_round exps indexRun (tr : TemplateRuntime (F:=Z) (Host:=Empty_set)) :
  exps !! 0 = Some [mkExp IF_EXP [EQ_EXP; "(1)"; "(1)"]] -> exps !! 1 = Some [mkExp ELSE_EXP []] ->
  indexRun !! 1 = None ->
  int_run exps indexRun unclosed_env 1 0%Z 0 tr = Ok None /\
  exists tr', forall fuel, int_run exps indexRun unclosed_env (S (S fuel)) 0%Z 0 tr =
    int_run exps indexRun unclosed_env fuel 0%Z 0 tr'.
Proof.
  intros H0 H1 Hj. set (tr1 := open_scope [mkExp IF_EXP [EQ_EXP; "(1)"; "(1)"]] tr).
  assert (forall fuel, int_run exps indexRun unclosed_env (S fuel) 0%Z 0 tr =
    int_run exps indexRun unclosed_env fuel 1%Z 0 (with_input (Some []) tr1)) as Hif.
  { intros fuel. change 0%Z with (Z.of_nat 0). rewrite (run_row (Lib:=int_lib) _ _ _ _ _ _ _ H0).
    replace (exec_row _ _ _ _ _ _) with
      (Ok (E:=Empty_set) (inl (B:=TemplateRuntime (F:=Z) (Host:=Empty_set)) (0%Z, with_input (Some [VBool true]) tr1))); [done|].
    symmetry. subst tr1. destruct tr as [[vars h] ? ? ? ? ? ?]. vm_compute. reflexivity. }
  split; [by rewrite Hif|]. exists (with_input (Some []) tr1). intros fuel. rewrite Hif.
  change 1%Z with (Z.of_nat 1). rewrite (run_row (Lib:=int_lib) _ _ _ _ _ _ _ H1). cbn [exec_row].
  unfold exec_exp, is_send, Expression_Execute. eval_kw. cbn [mbind outcome_bind]. unfold jump_of. cbn [Z.ltb].
  change (Z.to_nat (Z.of_nat 1)) with 1. rewrite Hj. done.
Qed.

(** An [else] can stay unclosed in a template that builds: a row that
    opens and ends a block itself, like [get (1) (k) | end], takes the [end] of
    the block around it.  Such an [else] jumps to the start, and [Execute]
    never returns. *)
Theorem unclosed_else_loops :
  exists t, build_text unclosed_text = Ok t /\ forall fuel, run_template (Lib:=int_lib) fuel t ∅ = Ok None.
Proof.
  destruct (build_text unclosed_text) as [t| |] eqn:Hb; [|vm_compute in Hb; discriminate Hb..].
  exists t. split; [done|]. intros fuel. unfold run_template, TemplateRuntime_Execute.
  replace (mkEnv t.(Vars) ∅ (Some t.(FuncCalls))) with unclosed_env
    by (vm_compute in Hb; injection Hb as <-; reflexivity).
  assert (t.(Exps) !! 0 = Some [mkExp IF_EXP [EQ_EXP; "(1)"; "(1)"]] /\
          t.(Exps) !! 1 = Some [mkExp ELSE_EXP []] /\ t.(IndexRun) !! 1 = None) as (H0 & H1 & Hj)
    by (vm_compute in Hb; injection Hb as <-; done).
  assert (forall tr, int_run t.(Exps) t.(IndexRun) unclosed_env fuel 0%Z 0 tr = Ok None) as Hrun;
    [|by rewrite Hrun].
  induction fuel as [fuel IH] using lt_wf_ind. intros tr.
  destruct (unclosed_round _ _ tr H0 H1 Hj) as [Hone [tr' Htwo]].
  destruct fuel as [|[|fuel]]; [done|done|]. rewrite Htwo. apply IH. lia.
Qed.

(** C26: a [range] outside any other one, whose body has no [range], [end] or
    [break] of its own (so no [if] block either) and whose rows, in every round,
    run to their end and on to the next row (no row waits for an input, jumps or
    fails: [for_each] gives a state).  It runs its body once for every entry of its
    map or array, in the order Go walks it, each time in a fresh scope that binds
    the key and the value; an empty one runs it never.  The run of the template
    is the same as that of the reference loop [for_each], which costs one step for
    the [range] row and one for each row of the body and the [end] per entry,
    and goes on after the [end].  Without these restrictions it is false:
    [nested_range_skips_rest] and [empty_inner_range_ends_outer]. *)
Theorem range_runs_body_for_each {F Host Fn : Type} `{Lib : GoLib F Host Fn} exps indexRun
    (env : rt_env (F:=F) (Host:=Host) (Fn:=Fn)) s p kvar vvar body tr st v tr' fuel :
  exps !! s = Some [mkExp RANGE_EXP [p; kvar; vvar]] ->
  (forall i row, body !! i = Some row -> exps !! (S s + i) = Some row) ->
  forallb loop_free body = true ->
  exps !! (S s + length body) = Some [mkExp END_EXP []] ->
  indexRun !! s = Some (S s + length body) ->
  tr.(rangeStack) = [] ->
  execute_range env (mkRt (tr.(tr_st).(rt_vars) ++ [[]]) tr.(tr_st).(rt_heap)) [p; kvar; vvar] = Ok (st, [v]) ->
  let entries := range_entries st.(rt_heap) v in
  for_each indexRun env s kvar vvar body entries
    (with_input (Some []) (with_st (mkRt tr.(tr_st).(rt_vars) st.(rt_heap)) tr)) = Some tr' ->
  exists rs cur,
    run exps indexRun (Expression_Execute env) (1 + Nat.max 1 (length entries * S (length body)) + fuel)
      (Z.of_nat s) 0 tr =
    run exps indexRun (Expression_Execute env) fuel (Z.of_nat (S (S s + length body))) 0 (with_ranges rs cur [] tr').
Proof. intros. eapply range_runs; eassumption. Qed.

Definition sample_rows : list (list Expression) :=
  [[mkExp RANGE_EXP [".a"; ".k"; ".v"]]; [mkExp SET_EXP [".x"; ".v"]]; [mkExp END_EXP []]].

(** [.x] is set and [.a] holds two entries. *)
Definition sample_runtime : TemplateRuntime (F:=Z) (Host:=Empty_set) :=
  mkTR (mkRt [[mkKv ".x" (VStr ""); mkKv ".a" (VMap (Some {["p" := VStr "1"; "q" := VStr "2"]}))]] [])
    (Some []) (0%Z, 0) [] None [] (mkOutput [] [] None None).

Lemma range_runs_body_for_each_witness :
  exists tr' rs cur,
    (fun e : kv (value Z Empty_set) => (e.(key), e.(VarStack.value))) <$> concat tr'.(tr_st).(rt_vars) =
      [(".x", VStr "1"); (".a", VMap (Some {["p" := VStr "1"; "q" := VStr "2"]}))] /\
    int_run sample_rows {[0 := 2]} unclosed_env 6 0%Z 0 sample_runtime =
      int_run sample_rows {[0 := 2]} unclosed_env 1 3%Z 0 (with_ranges rs cur [] tr').
Proof.
  destruct (for_each (Lib:=int_lib) {[0 := 2]} unclosed_env 0 ".k" ".v" [[mkExp SET_EXP [".x"; ".v"]]]
    [mkKv "q" (VStr "2"); mkKv "p" (VStr "1")] sample_runtime) as [tr'|] eqn:Hf;
    [|vm_compute in Hf; discriminate Hf].
  exists tr'.
  destruct (range_runs_body_for_each (Lib:=int_lib) sample_rows {[0 := 2]} unclosed_env 0 ".a" ".k" ".v"
    [[mkExp SET_EXP [".x"; ".v"]]] sample_runtime
    (mkRt ((sample_runtime.(tr_st).(rt_vars)) ++ [[]]) [])
    (VPtrReply (Some {["p" := VStr "1"; "q" := VStr "2"]})) tr' 1) as (rs & cur & H).
  1-7: first [reflexivity|vm_compute; reflexivity|intros [|i] row Hi; [exact Hi|discriminate Hi]].
  - vm_compute. vm_compute in Hf. exact Hf.
  - exists rs, cur. split; [vm_compute in Hf; injection Hf as <-; vm_compute; reflexivity|exact H].
Defined.

(** A range inside a range: when the inner one is done, the next round of the
    outer one starts at once, and the rows after the inner [end] only run in
    the last round. *)
Definition array_text : string :=
  "{{define .m map}}{{define .e array}}{{define .a array}}{{push .a (1) | .a}}{{end}}{{push .a (2) | .a}}{{end}}".

Lemma nested_range_skips_rest :
  receivers (run_text 100 (array_text +:+
    "{{range .a .i .x}}{{range .a .j .y}}{{send .m .in_task}}{{end}}{{send .m .out_task}}{{end}}") ∅) =
  Some ["in_task"; "in_task"; "in_task"; "in_task"; "out_task"].
Proof. vm_compute. reflexivity. Qed.

(** An empty range inside a range ends the outer one. *)
Lemma empty_inner_range_ends_outer :
  receivers (run_text 100 (array_text +:+
    "{{range .a .i .x}}{{send .m .in_task}}{{range .e .j .y}}{{end}}{{end}}") ∅) = Some ["in_task"].
Proof. vm_compute. reflexivity. Qed.

(** The operator of a condition is ignored: [if ne a b], [if lt a b] and
    all the others run the block when the two values are equal. *)
Theorem if_ignores_operator {F Host Fn : Type} `{Lib : GoLib F Host Fn}
    (env : rt_env (F:=F) (Host:=Host) (Fn:=Fn)) st op op' p1 p2 input :
  Expression_Execute env st (mkExp IF_EXP [op; p1; p2]) input =
    Expression_Execute env st (mkExp IF_EXP [op'; p1; p2]) input /\
  (forall v1 v2, param_value env st p1 = Ok v1 -> param_value env st p2 = Ok v2 ->
     Expression_Execute env st (mkExp IF_EXP [op; p1; p2]) input =
       Ok (st, [VBool (DeepEqual st.(rt_heap) v1 v2)])).
Proof.
  assert (forall o, Expression_Execute env st (mkExp IF_EXP [o; p1; p2]) input =
    (mp ← setValue env st [p1; p2]; Ok (st, [VBool (DeepEqual st.(rt_heap) (at_param mp p1) (at_param mp p2))]))) as Heq.
  { intros o. unfold Expression_Execute, execute_if, CompareStringsAndNumbers. eval_kw. done. }
  rewrite !Heq. split; [done|]. intros v1 v2 H1 H2. cbn [setValue]. rewrite H1, H2. cbn [mbind outcome_bind].
  unfold at_param. rewrite lookup_insert_eq. destruct (decide (p1 = p2)) as [->|].
  - rewrite lookup_insert_eq. rewrite H1 in H2. by injection H2 as <-.
  - by rewrite lookup_insert_ne, lookup_insert_eq.
Qed.

(** [if]/[else]/[end] outside loops runs exactly one of its two blocks:
    the first when the condition holds, the second when it does not or cannot
    be evaluated (which is logged).  Afterwards the scope of the block is
    closed and the run goes on behind the [end]. *)
Theorem if_else_runs_one_branch {F Host Fn : Type} `{Lib : GoLib F Host Fn} exps indexRun
    (env : rt_env (F:=F) (Host:=Host) (Fn:=Fn)) s params A B tr tr1 (b : bool) tr2 fuel :
  let m := S s + length A in
  let e := S m + length B in
  exps !! s = Some [mkExp IF_EXP params] ->
  (forall i row, A !! i = Some row -> exps !! (S s + i) = Some row) ->
  exps !! m = Some [mkExp ELSE_EXP []] ->
  (forall i row, B !! i = Some row -> exps !! (S m + i) = Some row) ->
  exps !! e = Some [mkExp END_EXP []] ->
  forallb loop_free (A ++ B) = true ->
  indexRun !! s = Some m -> indexRun !! m = Some e ->
  tr.(tr_RangeValue) = None -> condition env s params tr = Some (tr1, b) ->
  run_straight indexRun env (if b then S s else S m) (if b then A else B) (with_input (Some []) tr1) = Some tr2 ->
  run exps indexRun (Expression_Execute env) ((if b then 3 + length A else 2 + length B) + fuel) (Z.of_nat s) 0 tr =
    run exps indexRun (Expression_Execute env) fuel (Z.of_nat (S e)) 0 (with_input (Some []) (pop_scope tr2)).
Proof. intros m e **. eapply if_else_runs; eassumption. Qed.

Definition sample_if : list (list Expression) :=
  [[mkExp IF_EXP [EQ_EXP; "(1)"; "(2)"]]; [mkExp SET_EXP [".x"; "(1)"]]; [mkExp ELSE_EXP []];
   [mkExp SET_EXP [".x"; "(2)"]]; [mkExp END_EXP []]].

Lemma if_else_runs_one_branch_witness :
  exists tr, VarStack.value <$> varTemp_GetValue tr.(tr_st).(rt_vars) ".x" = Some (VFloat 2%Z) /\
    int_run sample_if {[0 := 2; 2 := 4]} unclosed_env 4 0%Z 0 sample_runtime =
      int_run sample_if {[0 := 2; 2 := 4]} unclosed_env 1 5%Z 0 tr.
Proof.
  destruct (condition (Lib:=int_lib) unclosed_env 0 [EQ_EXP; "(1)"; "(2)"] sample_runtime) as [[tr1 b]|] eqn:Hc;
    [|vm_compute in Hc; discriminate Hc].
  assert (b = false) as -> by (vm_compute in Hc; injection Hc as _ <-; reflexivity).
  destruct (run_straight (Lib:=int_lib) {[0 := 2; 2 := 4]} unclosed_env 3 [[mkExp SET_EXP [".x"; "(2)"]]]
    (with_input (Some []) tr1)) as [tr2|] eqn:Hs;
    [|vm_compute in Hc; injection Hc as <-; vm_compute in Hs; discriminate Hs].
  eexists. split; [|apply (if_else_runs_one_branch (Lib:=int_lib) sample_if {[0 := 2; 2 := 4]} unclosed_env 0
    [EQ_EXP; "(1)"; "(2)"] [[mkExp SET_EXP [".x"; "(1)"]]] [[mkExp SET_EXP [".x"; "(2)"]]] sample_runtime tr1 false tr2 1)].
  1: vm_compute in Hc; injection Hc as <-; vm_compute in Hs; injection Hs as <-; vm_compute; reflexivity.
  all: first [exact Hc|exact Hs|reflexivity|intros [|i] row Hi; [exact Hi|discriminate Hi]].
Defined.

(** The text of a condition with an alternative: the conditions hold when the
    flags do. *)
Definition elseif_text (c1 c2 : bool) : string :=
  let num (c : bool) := if c then "(1)" else "(2)" in
  "{{define .m map}}{{if eq (1) " +:+ num c1 +:+ "}}{{send .m .a_task}}{{elseif eq (1) " +:+ num c2 +:+
  "}}{{send .m .b_task}}{{end}}".

(** The condition of an [elseif] has no effect: its block runs whatever
    the two conditions say, also after the block of the [if]. *)
Lemma elseif_always_runs (c1 c2 : bool) :
  receivers (run_text 10 (elseif_text c1 c2) ∅) = Some ((if c1 then ["a_task"] else []) ++ ["b_task"]).
Proof. destruct c1, c2; vm_compute; reflexivity. Qed.

(** Arrays are shared: pushing onto the result of a [pop] writes into the
    array the [pop] was taken from, so a variable that still holds it loses its
    last element to the new one. *)
Theorem push_after_pop_overwrites {F Host Fn : Type} `{Lib : GoLib F Host Fn}
    (env : rt_env (F:=F) (Host:=Host) (Fn:=Fn)) st a n backing p q x :
  st.(rt_heap) !! a = Some backing -> 0 < n <= length backing -> param_value env st p = Ok x ->
  Expression_Execute env st (mkExp POP_EXP [q]) (Some [VSlice (SArr a n)]) = Ok (st, [VSlice (SArr a (n - 1))]) /\
  exists st',
    Expression_Execute env st (mkExp PUSH_EXP [p]) (Some [VSlice (SArr a (n - 1))]) = Ok (st', [VSlice (SArr a n)]) /\
    st'.(rt_vars) = st.(rt_vars) /\
    slice_elems st'.(rt_heap) (SArr a n) = take (n - 1) (slice_elems st.(rt_heap) (SArr a n)) ++ [x].
Proof.
  intros Ha Hn Hp. split.
  - unfold Expression_Execute. eval_kw. unfold execute_pop. cbn. rewrite Ha. cbn.
    destruct n as [|n]; [lia|]. destruct backing; [simpl in Hn; lia|done].
  - destruct (go_append_shares st.(rt_heap) a (n - 1) x backing Ha) as (h' & Happ & Hel); [lia|].
    replace (S (n - 1)) with n in * by lia. exists (mkRt st.(rt_vars) h'). split_and!; [|done|].
    + unfold Expression_Execute, pushExp. eval_kw. cbn [setValue]. rewrite Hp.
      cbn [mbind outcome_bind length Nat.eqb go_index lookup list_lookup first_input default from_option id as_array].
      unfold at_param. rewrite lookup_insert_eq. cbn [from_option id]. by rewrite Happ.
    + cbn [rt_heap]. rewrite Hel. unfold slice_elems. by rewrite Ha, take_take, Nat.min_l by lia.
Qed.

Definition sample_state : rt_state (F:=Z) (Host:=Empty_set) := mkRt [[]] [[VStr "a"; VStr "b"]].

Lemma push_after_pop_overwrites_witness :
  exists st', Expression_Execute (Lib:=int_lib) unclosed_env sample_state (mkExp PUSH_EXP ["(9)"])
      (Some [VSlice (SArr 0 1)]) = Ok (st', [VSlice (SArr 0 2)]) /\
    slice_elems st'.(rt_heap) (SArr 0 2) = [VStr "a"; VFloat 9%Z].
Proof.
  destruct (push_after_pop_overwrites (Lib:=int_lib) unclosed_env sample_state 0 2 [VStr "a"; VStr "b"] "(9)" ".q"
    (VFloat 9%Z)) as [_ (st' & H & _ & Hel)]; [reflexivity|simpl; lia|reflexivity|].
  exists st'. split; [exact H|exact Hel].
Defined.

(** Merged maps cannot be sent or read again: their type has no JSON form. *)
Lemma merged_maps_unsendable {F Host Fn : Type} `{Lib : GoLib F Host Fn}
    (env : rt_env (F:=F) (Host:=Host) (Fn:=Fn)) st v input result p :
  reflect_kind v = Some KMap -> merge st (v :: input) = Ok (st, result) ->
  Expression_Execute env st (mkExp SEND [p]) (Some [result]) = Err (CantSend p).
Proof.
  intros Hk Hm. unfold merge in Hm. rewrite Hk in Hm. apply outcome_bind_ok in Hm as (w & Hw & [= ->]).
  assert (exists m, result = VAnyMap m) as [m ->].
  { revert Hw. generalize (∅ : gmap string (Value.value F Host)).
    generalize (v :: input). intros l. induction l as [|y l IH]; intros r Hw; cbn in Hw; [naive_solver|].
    destruct (reflect_kind y) as [[]|]; try done. by apply (IH _ Hw). }
  unfold Expression_Execute, execute_send, to_reply, convertInterfaceToReply. eval_kw.
  destruct maxNestingDepth; done.
Qed.
