(* ===== verification/Json.v ===== *)
(** JSON values as [encoding/json] reads them, and how [json.Unmarshal] stores
    one into the Go types the workflow package asks for. *)

From S2P Require Import Prelude GoStrings.

Inductive json : Type :=
| JNull
| JBool (b : bool)
| JNum (literal : string)
| JStr (s : string)
| JArr (items : list json)
| JObj (fields : list (string * json)).

(** Into a [string]: [null] leaves the variable alone. *)
Definition unmarshal_string (old : string) (j : json) : option string :=
  match j with
  | JNull => Some old
  | JStr s => Some s
  | _ => None
  end.

(** Into a [[]string] ([None] is the nil slice): an element [null] is [""]. *)
Definition unmarshal_strings (j : json) : option (option (list string)) :=
  match j with
  | JNull => Some None
  | JArr items => Some <$> mapM (unmarshal_string "") items
  | _ => None
  end.

Definition is_map_or_null (j : json) : bool :=
  match j with JObj _ | JNull => true | _ => false end.

(** Into a [map[string]interface{}]. *)
Definition unmarshals_map (j : json) : bool := is_map_or_null j.

(** Into a [[]map[string]interface{}]. *)
Definition unmarshals_maps (j : json) : bool :=
  match j with
  | JNull => true
  | JArr items => forallb is_map_or_null items
  | _ => false
  end.

Lemma unmarshal_strings_JArr l : unmarshal_strings (JArr (JStr <$> l)) = Some (Some l).
Proof.
  unfold unmarshal_strings.
  assert (mapM (unmarshal_string "") (JStr <$> l) = Some l) as ->; [|done].
  induction l as [|x l IH]; [done|]. cbn. by rewrite IH.
Qed.
