(* ===== verification/Compile.v ===== *)
(** Reading and checking a workflow ([pkg/workflow/workflow.go] and
    [complie.go]): what [UnmarshalYAML] does to the decoded variables, tasks,
    brokers and flows, and [Compile] of variables, tasks, brokers and the
    whole workflow.

    Parameters: [render], Go's [text/template] ([Parse] then [Execute] with the
    user's variables), and [json_parse], the parser of [encoding/json].  The
    YAML decoder (yaml.v3) is outside: the [UnmarshalYAML] methods are modelled
    from the decoded containers on.  A nil [*Var], [*Task] or [*Broker] is
    [None]. *)

From Stdlib Require Import Ascii.
From S2P Require Import Prelude GoStrings Names OrderedMap VarStack Template Json.

(** ** Data *)

Definition PubSubTask : string := "pubsub".

Record Task := mkTask {
  t_ID : Z;
  t_Name : string;
  t_Schedule : string;
  t_Timezone : string;
  t_Clients : list string;
  t_Retries : Z;
  t_Executor : string;
  t_Payload : string;
  t_ExpiresAt : string;
  t_WorkflowID : Z;
  t_Wait : string
}.

Definition zero_task : Task := mkTask 0 "" "" "" [] 0 "" "" "" 0 "".

Definition with_task_name (n : string) (t : Task) : Task :=
  mkTask t.(t_ID) n t.(t_Schedule) t.(t_Timezone) t.(t_Clients) t.(t_Retries) t.(t_Executor)
    t.(t_Payload) t.(t_ExpiresAt) t.(t_WorkflowID) t.(t_Wait).

Definition with_payload (p : string) (t : Task) : Task :=
  mkTask t.(t_ID) t.(t_Name) t.(t_Schedule) t.(t_Timezone) t.(t_Clients) t.(t_Retries) t.(t_Executor)
    p t.(t_ExpiresAt) t.(t_WorkflowID) t.(t_Wait).

(** [None] is a nil [Endpoints]. *)
Record BrokerFlows := mkFlows { Endpoints : option (list string); Condition : string }.

Record Broker (Fn : Type) := mkBroker {
  b_ID : Z;
  b_Name : string;
  b_Schedule : string;
  Listens : list string;
  b_Clients : list string;
  Flows : BrokerFlows;
  b_Template : option (Template Fn);
  b_WorkflowID : Z
}.
Arguments mkBroker {Fn} _ _ _ _ _ _ _ _.
Arguments b_ID {Fn} _.
Arguments b_Name {Fn} _.
Arguments b_Schedule {Fn} _.
Arguments Listens {Fn} _.
Arguments b_Clients {Fn} _.
Arguments Flows {Fn} _.
Arguments b_Template {Fn} _.
Arguments b_WorkflowID {Fn} _.

Definition zero_broker {Fn} : Broker Fn := mkBroker 0 "" "" [] [] (mkFlows None "") None 0.

Definition with_broker_name {Fn} (n : string) (ls : list string) (b : Broker Fn) : Broker Fn :=
  mkBroker b.(b_ID) n b.(b_Schedule) ls b.(b_Clients) b.(Flows) b.(b_Template) b.(b_WorkflowID).

Definition with_template {Fn} (t : Template Fn) (b : Broker Fn) : Broker Fn :=
  mkBroker b.(b_ID) b.(b_Name) b.(b_Schedule) b.(Listens) b.(b_Clients) b.(Flows) (Some t)
    b.(b_WorkflowID).

Definition with_workflow_id {Fn} (id : Z) (b : Broker Fn) : Broker Fn :=
  mkBroker b.(b_ID) b.(b_Name) b.(b_Schedule) b.(Listens) b.(b_Clients) b.(Flows) b.(b_Template) id.

(** A workflow file and a stored workflow share what [Compile] reads; only the
    names of clients and channels are read. *)
Record Workflow (Fn : Type) := mkWorkflow {
  w_ID : Z;
  w_Version : option string;
  w_Name : string;
  w_Vars : option (OrderedMap string (option Var));
  w_Namespace : string;
  w_Tasks : OrderedMap string (option Task);
  w_Brokers : OrderedMap string (option (Broker Fn));
  w_Channels : list string;
  w_Clients : list string
}.
Arguments mkWorkflow {Fn} _ _ _ _ _ _ _ _ _.
Arguments w_ID {Fn} _.
Arguments w_Version {Fn} _.
Arguments w_Name {Fn} _.
Arguments w_Vars {Fn} _.
Arguments w_Namespace {Fn} _.
Arguments w_Tasks {Fn} _.
Arguments w_Brokers {Fn} _.
Arguments w_Channels {Fn} _.
Arguments w_Clients {Fn} _.

Inductive wf_error : Type :=
| VarEmpty (name : string)
| VarDynamic (name : string)
| TaskNotVariable (task v : string)
| TaskNotDefined (task v : string)
| TaskRender (task err : string)
| TaskPayload (task : string)
| BrokerTemplate (err : compile_error)
| BrokerVar (broker v : string)
| BrokerEmptyFlows (broker : string)
| NoVersion
| NoTasks
| BadKind
| FlowsJson.

(** ** The variables of a text: [{{(.*?)}}] *)

Definition newline : ascii := "010".

(** [(.*?)}}] from here: up to the first [}}], on one line. *)
Fixpoint until_braces (l : list ascii) : option (list ascii * list ascii) :=
  match l with
  | [] => None
  | c :: l' =>
    match l' with
    | c2 :: rest =>
      if Ascii.eqb c "}" && Ascii.eqb c2 "}" then Some ([], rest)
      else if Ascii.eqb c newline then None
      else match until_braces l' with
           | Some (name, rest) => Some (c :: name, rest)
           | None => None
           end
    | [] => None
    end
  end.

(** [FindAllStringSubmatch]: leftmost matches that do not overlap; [fuel] is
    the length of the text. *)
Fixpoint find_variables (fuel : nat) (l : list ascii) : list string :=
  match fuel, l with
  | S fuel, c :: l' =>
    match l' with
    | c2 :: rest =>
      if Ascii.eqb c "{" && Ascii.eqb c2 "{" then
        match until_braces rest with
        | Some (name, rest) => implode name :: find_variables fuel rest
        | None => find_variables fuel l'
        end
      else find_variables fuel l'
    | [] => []
    end
  | _, _ => []
  end.

Definition extractVariableNames (jsonStr : string) : list string :=
  ToLower <$> find_variables (length (explode jsonStr)) (explode jsonStr).

(** ** [UnmarshalYAML] after the decoder *)

(** [Tasks]: a task is named by its key; an empty task is created. *)
Definition Tasks_UnmarshalYAML (tasks : OrderedMap string (option Task))
    : OrderedMap string (option Task) :=
  match OM_Range (E := Empty_set)
          (fun name task s => Ok (OM_Set name (Some (with_task_name name (default zero_task task))) s))
          None tasks tasks with
  | Ok s => s
  | _ => tasks
  end.

(** [Vars]: keys are put in lower case, in order. *)
Definition Vars_UnmarshalYAML (vars : OrderedMap string (option Var))
    : OrderedMap string (option Var) :=
  match OM_Range (E := Empty_set) (fun key value s => Ok (OM_Set (ToLower key) value s)) None vars OM_New with
  | Ok s => s
  | _ => OM_New
  end.

(** [Brokers]: named by their key, with listens in lower case. *)
Definition Brokers_UnmarshalYAML {Fn} (brokers : OrderedMap string (option (Broker Fn)))
    : OrderedMap string (option (Broker Fn)) :=
  match OM_Range (E := Empty_set)
          (fun name broker s =>
             let b := default zero_broker broker in
             Ok (OM_Set name (Some (with_broker_name name (ToLower <$> b.(Listens)) b)) s))
          None brokers brokers with
  | Ok s => s
  | _ => brokers
  end.

Definition WorkflowFile_UnmarshalYAML {Fn} (mapping : bool) (w : Workflow Fn)
    : outcome wf_error (Workflow Fn) :=
  if negb mapping then Err BadKind
  else match w.(w_Version) with
  | None => Err NoVersion
  | Some _ =>
    if OM_Len w.(w_Tasks) =? 0 then Err NoTasks
    else
      let ns := if bool_decide (w.(w_Namespace) = "") then "default" else w.(w_Namespace) in
      Ok (mkWorkflow w.(w_ID) w.(w_Version) w.(w_Name) w.(w_Vars) ns w.(w_Tasks) w.(w_Brokers)
            w.(w_Channels) w.(w_Clients))
  end.

(** [BrokerFlows.UnmarshalYAML]: a sequence of endpoints or one condition. *)
Inductive yaml_flows : Type :=
| YamlSequence (endpoints : list string)
| YamlScalar (condition : string)
| YamlOther.

Definition BrokerFlows_UnmarshalYAML (node : yaml_flows) (bf : BrokerFlows) : outcome wf_error BrokerFlows :=
  match node with
  | YamlSequence l => Ok (mkFlows (Some l) bf.(Condition))
  | YamlScalar s => Ok (mkFlows bf.(Endpoints) s)
  | YamlOther => Err BadKind
  end.

(** ** Flows as JSON *)

Definition BrokerFlows_MarshalJSON (b : BrokerFlows) : outcome wf_error json :=
  if negb (bool_decide (b.(Condition) = "")) then Ok (JStr b.(Condition))
  else match b.(Endpoints) with
  | Some l => Ok (JArr (JStr <$> l))
  | None => Err FlowsJson
  end.

(** Decoding an object into [BrokerFlowsUn]: keys match a field name whatever
    their case, later fields overwrite earlier ones. *)
Fixpoint unmarshal_flows_un (fields : list (string * json)) (c : BrokerFlows) : option BrokerFlows :=
  match fields with
  | [] => Some c
  | (k, v) :: fields =>
    if bool_decide (ToLower k = "endpoints") then
      e ← unmarshal_strings v; unmarshal_flows_un fields (mkFlows e c.(Condition))
    else if bool_decide (ToLower k = "condition") then
      s ← unmarshal_string c.(Condition) v; unmarshal_flows_un fields (mkFlows c.(Endpoints) s)
    else unmarshal_flows_un fields c
  end.

Definition BrokerFlows_UnmarshalJSON (data : json) (b : BrokerFlows) : outcome wf_error BrokerFlows :=
  match unmarshal_strings data with
  | Some e => Ok (mkFlows e b.(Condition))
  | None =>
    match unmarshal_string b.(Condition) data with
    | Some s => Ok (mkFlows b.(Endpoints) s)
    | None =>
      match data with
      | JObj fields =>
        match unmarshal_flows_un fields (mkFlows None "") with
        | Some c => Ok c
        | None => Err FlowsJson
        end
      | _ => Err FlowsJson
      end
    end
  end.

(** ** Compile *)

(** A nil [*Var] is dereferenced. *)
Definition Var_Compile (v : option Var) : outcome wf_error () :=
  match v with
  | None => Panic NilDereference
  | Some v =>
    if bool_decide (v.(Value) = "") then Err (VarEmpty v.(var_name))
    else match extractVariableNames v.(Value) with
    | [] => Ok ()
    | _ => Err (VarDynamic v.(var_name))
    end
  end.

Definition GetKeyValueVars (wv : option (OrderedMap string (option Var)))
    : outcome wf_error (gmap string string) :=
  match wv with
  | None => Ok ∅
  | Some wv =>
    OM_Range (fun key value vars =>
                match value with
                | Some v => Ok (<[key:=v.(Value)]> vars)
                | None => Panic NilDereference
                end) None wv ∅
  end.

Section Compile.
Context {Fn : Type}.
Context (render : string -> gmap string string -> outcome string string).
Context (json_parse : string -> option json).

(** The loop over the variables of a payload. *)
Fixpoint check_task_vars (name : string) (userVars : gmap string string) (vs : list string)
    : outcome wf_error () :=
  match vs with
  | [] => Ok ()
  | v :: vs =>
    if negb (HasPrefix v ".") then Err (TaskNotVariable name v)
    else match userVars !! TrimPrefix v "." with
    | Some _ => check_task_vars name userVars vs
    | None =>
      if negb (isDefaultVar v) then Err (TaskNotDefined name v)
      else if bool_decide (GetRootDefaultVar v = "") then Err (TaskNotDefined name v)
      else check_task_vars name userVars vs
    end
  end.

Definition Task_Compile (userVars : gmap string string) (assign : bool) (t : Task) : outcome wf_error Task :=
  if bool_decide (t.(t_Payload) = "") then Ok t
  else
    _ ← check_task_vars t.(t_Name) userVars (extractVariableNames t.(t_Payload));
    match render t.(t_Payload) userVars with
    | Panic p => Panic p
    | Err e => Err (TaskRender t.(t_Name) e)
    | Ok buf =>
      let t := if assign then with_payload buf t else t in
      match json_parse buf with
      | None => Err (TaskPayload t.(t_Name))
      | Some payload =>
        if bool_decide (t.(t_Executor) = PubSubTask) && negb (unmarshals_maps payload)
           && negb (unmarshals_map payload)
        then Err (TaskPayload t.(t_Name))
        else Ok t
      end
    end.

(** [for _, e := range vs { if !validateVarListen(e, ...) { return err } }]. *)
Fixpoint check_listens (name : string) (clients channels tasks : list string) (vs : list string)
    : outcome wf_error () :=
  match vs with
  | [] => Ok ()
  | e :: vs =>
    if validateVarListen e clients channels tasks then check_listens name clients channels tasks vs
    else Err (BrokerVar name e)
  end.

Definition Broker_Compile (userVars : option (OrderedMap string (option Var)))
    (clients channels tasks : list string) (funcs : option (string -> js_lookup Fn)) (b : Broker Fn)
    : outcome wf_error (Broker Fn) :=
  if negb (bool_decide (b.(Flows).(Condition) = "")) then
    let restrict := negb (0 <? length b.(b_Clients)) in
    match Template_Build (NewTemplate funcs) b.(Listens) b.(Flows).(Condition) userVars restrict with
    | Panic p => Panic p
    | Err e => Err (BrokerTemplate e)
    | Ok t =>
      _ ← check_listens b.(b_Name) clients channels tasks (elements t.(ListenVars));
      Ok (with_template t b)
    end
  else
    match b.(Flows).(Endpoints) with
    | None | Some [] => Err (BrokerEmptyFlows b.(b_Name))
    | Some es => _ ← check_listens b.(b_Name) clients channels tasks es; Ok b
    end.

(** [Range] over pointers: the objects reached are replaced by what the
    callback leaves in them. *)
Definition range_update {V E} (fn : string -> V -> outcome E V) (om : OrderedMap string (option V))
    : outcome E (OrderedMap string (option V)) :=
  OM_Range (fun k v s =>
              match v with
              | Some v => v' ← fn k v; Ok (OM_Set k (Some v') s)
              | None => Panic NilDereference
              end) None om om.

Definition check_vars (vars : option (OrderedMap string (option Var))) : outcome wf_error () :=
  match vars with
  | None => Ok ()
  | Some vars => OM_Range (fun _ v s => Var_Compile v) None vars ()
  end.

Definition with_compiled (w : Workflow Fn) tasks brokers : Workflow Fn :=
  mkWorkflow w.(w_ID) w.(w_Version) w.(w_Name) w.(w_Vars) w.(w_Namespace) tasks brokers
    w.(w_Channels) w.(w_Clients).

(** [(w *WorkflowFile) Compile]. *)
Definition WorkflowFile_Compile (funcs : option (string -> js_lookup Fn)) (w : Workflow Fn)
    : outcome wf_error (Workflow Fn) :=
  _ ← check_vars w.(w_Vars);
  brokers ← range_update
    (fun _ => Broker_Compile w.(w_Vars) w.(w_Clients) w.(w_Channels) (OM_Keys w.(w_Tasks)) funcs)
    w.(w_Brokers);
  vars ← GetKeyValueVars w.(w_Vars);
  tasks ← range_update (fun k t => Task_Compile vars false (with_task_name k t)) w.(w_Tasks);
  Ok (with_compiled w tasks brokers).

(** [(w *Workflow) Compile]: payloads are assigned. *)
Definition Workflow_Compile (funcs : option (string -> js_lookup Fn)) (w : Workflow Fn)
    : outcome wf_error (Workflow Fn) :=
  _ ← check_vars w.(w_Vars);
  brokers ← range_update
    (fun _ b => Broker_Compile w.(w_Vars) w.(w_Clients) w.(w_Channels) (OM_Keys w.(w_Tasks)) funcs
                  (with_workflow_id w.(w_ID) b))
    w.(w_Brokers);
  vars ← GetKeyValueVars w.(w_Vars);
  tasks ← range_update (fun _ t => Task_Compile vars true t) w.(w_Tasks);
  Ok (with_compiled w tasks brokers).

End Compile.

(** ** Facts *)

Section RangeFacts.
Context {V E : Type}.
Implicit Types om : OrderedMap string (option V).

(** A [Range] that replaces what each pointer points to reaches every key,
    fails at the first failing entry, and keeps keys and order. *)
Lemma range_keys_update (fn : string -> V -> outcome E V) (m : gmap string (option V)) keys s s' :
  NoDup keys ->
  (forall k, k ∈ keys -> s.(om_m) !! k = m !! k /\ is_Some (m !! k)) ->
  range_keys (fun k v s =>
      match v with Some v => v' ← fn k v; Ok (OM_Set k (Some v') s) | None => Panic NilDereference end)
    None m keys s = Ok s' ->
  s'.(om_s) = s.(om_s) /\
  (forall k, k ∉ keys -> s'.(om_m) !! k = s.(om_m) !! k) /\
  (forall k, k ∈ keys -> exists v v', m !! k = Some (Some v) /\ fn k v = Ok v' /\
     s'.(om_m) !! k = Some (Some v')).
Proof.
  revert s. induction keys as [|k keys IH]; intros s Hnd Hs H.
  - simpl in H. simplify_eq. repeat split; set_solver.
  - apply NoDup_cons in Hnd as [Hk Hnd]. simpl in H.
    destruct (Hs k) as [Hsk [ov Hov]]; [set_solver|]. rewrite Hov in H. simpl in H.
    destruct ov as [v|]; [|done].
    apply outcome_bind_ok in H as (s1 & H1 & H). apply outcome_bind_ok in H1 as (v' & Hf & H1).
    simplify_eq.
    destruct (IH (OM_Set k (Some v') s) Hnd) as (E1 & E2 & E3); [|done|].
    { intros k' Hk'. unfold OM_Set. simpl. rewrite lookup_insert_ne by set_solver. apply Hs. set_solver. }
    unfold OM_Set in E1, E2. simpl in E1, E2. rewrite Hsk, Hov in E1.
    split; [done|]. split.
    + intros k' Hk'. rewrite E2 by set_solver. by rewrite lookup_insert_ne by set_solver.
    + intros k' [ ->|Hk']%elem_of_cons; [|by apply E3].
      exists v, v'. repeat split; try done. rewrite E2 by done. by rewrite lookup_insert_eq.
Qed.

Lemma range_update_spec (fn : string -> V -> outcome E V) om om' :
  om_wf om -> range_update fn om = Ok om' ->
  OM_Keys om' = OM_Keys om /\
  (forall k, k ∈ OM_Keys om -> exists v v', om.(om_m) !! k = Some (Some v) /\ fn k v = Ok v' /\
     om'.(om_m) !! k = Some (Some v')).
Proof.
  intros [Hnd Hin] H. unfold range_update, OM_Range in H.
  apply range_keys_update in H as (? & _ & ?); [done|done|].
  intros k Hk. split; [done|]. by apply Hin.
Qed.

End RangeFacts.

Lemma check_vars_spec vars :
  check_vars (Some vars) = Ok () -> forall k, k ∈ OM_Keys vars ->
  exists v, OM_Get None k vars = Some v /\ v.(Value) <> "" /\ extractVariableNames v.(Value) = [].
Proof.
  unfold check_vars, OM_Range, OM_Keys, OM_Get. generalize (om_s vars) as keys. intros keys.
  induction keys as [|k keys IH]; intros H k' Hk'; [set_solver|]. simpl in H.
  apply outcome_bind_ok in H as ([] & H1 & H). apply elem_of_cons in Hk' as [->|?]; [|by apply IH].
  unfold Var_Compile in H1. destruct (default None (om_m vars !! k)) as [v|]; [|done].
  exists v. split; [done|]. case_bool_decide; [done|]. by destruct (extractVariableNames _).
Qed.

Lemma check_task_vars_spec name userVars vs :
  check_task_vars name userVars vs = Ok () <->
  Forall (fun v => HasPrefix v "." = true /\
            (is_Some (userVars !! TrimPrefix v ".") \/
             isDefaultVar v = true /\ GetRootDefaultVar v <> "")) vs.
Proof.
  induction vs as [|v vs IH]; simpl; [done|]. rewrite Forall_cons, <- IH.
  destruct (HasPrefix v "."); simpl; [|naive_solver].
  destruct (userVars !! TrimPrefix v ".") as [x|]; [naive_solver|].
  destruct (isDefaultVar v); simpl; [|split; [done|]; intros [[_ [[]|[? _]]] _]; done].
  case_bool_decide; split; try done; naive_solver.
Qed.

Lemma check_listens_spec name clients channels tasks vs :
  check_listens name clients channels tasks vs = Ok () <->
  Forall (fun e => validateVarListen e clients channels tasks = true) vs.
Proof.
  induction vs as [|v vs IH]; simpl; [done|]. rewrite Forall_cons, <- IH.
  destruct (validateVarListen v clients channels tasks); naive_solver.
Qed.

Lemma Template_Build_ListenVars {Fn} (funcs : option (string -> js_lookup Fn)) input s vars restrict t :
  Template_Build (NewTemplate funcs) input s vars restrict = Ok t -> t.(ListenVars) = ∅.
Proof.
  unfold Template_Build. intros H. apply outcome_bind_ok in H as (t1 & Hp & H).
  apply Template_Parse_spec in Hp as (_ & _ & _ & Hl & _). apply outcome_bind_ok in H as ([j st] & _ & H).
  simplify_eq. exact Hl.
Qed.

(** ** What a compiled workflow guarantees *)

Section Compiled.
Context {Fn : Type}.
Context (render : string -> gmap string string -> outcome string string).
Context (json_parse : string -> option json).

Definition vars_ok (w : Workflow Fn) : Prop :=
  forall vars k, w.(w_Vars) = Some vars -> k ∈ OM_Keys vars ->
  exists v, OM_Get None k vars = Some v /\ v.(Value) <> "" /\ extractVariableNames v.(Value) = [].

(** The variables a payload mentions are the user's, or those of some task or
    channel. *)
Definition payload_ok (userVars : gmap string string) (t : Task) : Prop :=
  t.(t_Payload) <> "" ->
  Forall (fun v => HasPrefix v "." = true /\
            (is_Some (userVars !! TrimPrefix v ".") \/
             isDefaultVar v = true /\ GetRootDefaultVar v <> ""))
    (extractVariableNames t.(t_Payload)) /\
  exists buf j, render t.(t_Payload) userVars = Ok buf /\ json_parse buf = Some j /\
    (t.(t_Executor) = PubSubTask -> unmarshals_maps j = true \/ unmarshals_map j = true).

(** A compiled broker has a template built from its condition, or endpoints
    that all exist. *)
Definition broker_ok (w : Workflow Fn) (funcs : option (string -> js_lookup Fn)) (b b' : Broker Fn) : Prop :=
  if bool_decide (b.(Flows).(Condition) = "") then
    b' = b /\ exists es, b.(Flows).(Endpoints) = Some es /\ es <> [] /\
      Forall (fun e => validateVarListen e w.(w_Clients) w.(w_Channels) (OM_Keys w.(w_Tasks)) = true) es
  else exists t, b' = with_template t b /\
    Template_Build (NewTemplate funcs) b.(Listens) b.(Flows).(Condition) w.(w_Vars)
      (bool_decide (b.(b_Clients) = [])) = Ok t.

Lemma Task_Compile_ok userVars assign t t' :
  Task_Compile render json_parse userVars assign t = Ok t' ->
  payload_ok userVars t /\
  (t' = t \/ assign = true /\ exists buf, render t.(t_Payload) userVars = Ok buf /\ t' = with_payload buf t).
Proof.
  unfold Task_Compile, payload_ok. case_bool_decide as Hp; [intros [= <-]; split; [done|by left]|].
  intros H. apply outcome_bind_ok in H as ([] & Hv & H). apply check_task_vars_spec in Hv.
  destruct (render (t_Payload t) userVars) as [buf| |] eqn:Hr; try done.
  destruct (json_parse buf) as [j|] eqn:Hj; [|done].
  destruct (bool_decide _ && _ && _) eqn:Hc; [done|]. injection H as <-. split.
  - intros _. split; [done|]. exists buf, j. repeat split; try done. intros Hex.
    destruct assign; simpl in Hc; rewrite bool_decide_true in Hc by done;
      destruct (unmarshals_maps j), (unmarshals_map j); simpl in Hc; auto.
  - destruct assign; [right|by left]. split; [done|]. by exists buf.
Qed.

Lemma Broker_Compile_ok w funcs (b b' : Broker Fn) :
  Broker_Compile w.(w_Vars) w.(w_Clients) w.(w_Channels) (OM_Keys w.(w_Tasks)) funcs b = Ok b' ->
  broker_ok w funcs b b'.
Proof.
  unfold Broker_Compile, broker_ok. case_bool_decide as Hc; simpl; intros H.
  - destruct (Endpoints (Flows b)) as [[|e es]|]; [done| |done].
    apply outcome_bind_ok in H as ([] & Hl & H). simplify_eq.
    apply check_listens_spec in Hl. eauto 10.
  - replace (bool_decide (b_Clients b = [])) with (negb (0 <? length (b_Clients b)))
      by (destruct (b_Clients b); by case_bool_decide).
    destruct (Template_Build _ _ _ _ _) as [t| |] eqn:Ht; try done.
    apply outcome_bind_ok in H as ([] & _ & H). simplify_eq. eauto.
Qed.

End Compiled.

(** C24: A workflow file that compiles has only constant, non-empty variables;
    each broker has a template built from its condition or endpoints that all
    name known clients, channels or tasks; each task is named by its key, its
    payload is left as written, mentions only known variables and renders to
    JSON (maps for pubsub); keys and order are kept. *)
Theorem workflow_file_compile_sound {Fn} render json_parse (funcs : option (string -> js_lookup Fn)) w w' :
  om_wf w.(w_Tasks) -> om_wf w.(w_Brokers) ->
  WorkflowFile_Compile render json_parse funcs w = Ok w' ->
  vars_ok w /\
  OM_Keys w'.(w_Brokers) = OM_Keys w.(w_Brokers) /\
  (forall k, k ∈ OM_Keys w.(w_Brokers) -> exists b b',
     w.(w_Brokers).(om_m) !! k = Some (Some b) /\ w'.(w_Brokers).(om_m) !! k = Some (Some b') /\
     broker_ok w funcs b b') /\
  OM_Keys w'.(w_Tasks) = OM_Keys w.(w_Tasks) /\
  exists userVars, GetKeyValueVars w.(w_Vars) = Ok userVars /\
  (forall k, k ∈ OM_Keys w.(w_Tasks) -> exists t,
     w.(w_Tasks).(om_m) !! k = Some (Some t) /\
     w'.(w_Tasks).(om_m) !! k = Some (Some (with_task_name k t)) /\
     payload_ok render json_parse userVars t).
Proof.
  intros Ht Hb H. unfold WorkflowFile_Compile in H.
  apply outcome_bind_ok in H as ([] & Hv & H). apply outcome_bind_ok in H as (brokers & Hbr & H).
  apply outcome_bind_ok in H as (userVars & Huv & H). apply outcome_bind_ok in H as (tasks & Hta & H).
  injection H as <-. apply range_update_spec in Hbr as [Kb Vb]; [|done].
  apply range_update_spec in Hta as [Kt Vt]; [|done]. split; [|split; [done|split; [|split; [done|]]]].
  - intros vars k Hw Hk. rewrite Hw in Hv. by eapply check_vars_spec.
  - intros k Hk. destruct (Vb k Hk) as (b & b' & ? & Hok & ?). apply Broker_Compile_ok in Hok. eauto 10.
  - exists userVars. split; [done|]. intros k Hk. destruct (Vt k Hk) as (t & t' & Hl & Hok & Hl').
    apply Task_Compile_ok in Hok as [Hp [->|[? _]]]; [|done].
    exists t. split; [done|]. split; [done|exact Hp].
Qed.

(** Parameters for examples: a renderer that returns the text, and a JSON
    parser that accepts objects without fields. *)
Definition sample_render (s : string) (_ : gmap string string) : outcome string string := Ok s.
Definition sample_parse (s : string) : option json := if bool_decide (s = "{}") then Some (JObj []) else None.

Definition sample_workflow : Workflow unit :=
  mkWorkflow 1 (Some "3") "wf" sample_vars "default"
    (OM_Set "job" (Some (with_payload "{}" zero_task)) OM_New)
    (OM_Set "br" (Some (mkBroker 0 "br" "" [] [] (mkFlows (Some ["job_task"]) "") None 0)) OM_New)
    [] [].

Lemma workflow_file_compile_sound_witness :
  exists w', WorkflowFile_Compile sample_render sample_parse no_funcs sample_workflow = Ok w' /\
    OM_Keys w'.(w_Tasks) = ["job"].
Proof.
  destruct (WorkflowFile_Compile sample_render sample_parse no_funcs sample_workflow) as [w'| |] eqn:H;
    [|vm_compute in H; discriminate H..].
  exists w'. split; [reflexivity|].
  apply (workflow_file_compile_sound sample_render sample_parse no_funcs sample_workflow w'
           (om_wf_Set _ _ _ om_wf_New) (om_wf_Set _ _ _ om_wf_New) H).
Defined.

(** A broker with a condition compiles alike whatever clients, channels
    and tasks exist: no template ever records a listened variable, so the
    check of its targets never runs. *)
Theorem condition_targets_unchecked {Fn} userVars clients channels tasks
    (funcs : option (string -> js_lookup Fn)) (b : Broker Fn) :
  b.(Flows).(Condition) <> "" ->
  Broker_Compile userVars clients channels tasks funcs b = Broker_Compile userVars [] [] [] funcs b.
Proof.
  intros Hc. unfold Broker_Compile. rewrite bool_decide_false by done. simpl.
  destruct (Template_Build _ _ _ _ _) as [t| |] eqn:Ht; try done.
  apply Template_Build_ListenVars in Ht. by rewrite Ht.
Qed.

Definition sample_condition_broker : Broker unit :=
  mkBroker 0 "br" "" ["gone_task"] [] (mkFlows None "{{get .gone_task (k)}}{{end}}") None 0.

Lemma condition_targets_unchecked_witness :
  is_ok (Broker_Compile None [] [] [] no_funcs sample_condition_broker) = true /\
  Broker_Compile None ["c"] ["d"] [] no_funcs sample_condition_broker =
  Broker_Compile None [] [] [] no_funcs sample_condition_broker.
Proof.
  split; [vm_compute; reflexivity|].
  apply (condition_targets_unchecked None ["c"] ["d"] [] no_funcs sample_condition_broker).
  vm_compute. discriminate.
Defined.

(** Flows survive JSON: what [MarshalJSON] writes, [UnmarshalJSON] reads
    back, the condition alone when there is one and the endpoints otherwise. *)
Theorem flows_json_roundtrip (b : BrokerFlows) (j : json) :
  BrokerFlows_MarshalJSON b = Ok j ->
  BrokerFlows_UnmarshalJSON j (mkFlows None "") =
    Ok (if bool_decide (b.(Condition) = "") then b else mkFlows None b.(Condition)).
Proof.
  unfold BrokerFlows_MarshalJSON, BrokerFlows_UnmarshalJSON. case_bool_decide as Hc; simpl.
  - destruct b as [[l|] c]; simpl in *; [|done]. intros [= <-].
    by rewrite unmarshal_strings_JArr, Hc.
  - intros [= <-]. done.
Qed.

Lemma flows_json_roundtrip_witness :
  BrokerFlows_UnmarshalJSON (JArr [JStr "a_task"]) (mkFlows None "") = Ok (mkFlows (Some ["a_task"]) "").
Proof. exact (flows_json_roundtrip (mkFlows (Some ["a_task"]) "") _ eq_refl). Defined.

(** Loading variables puts their names in lower case, which is how
    templates and payloads look them up: every name is in lower case, every
    written name is present, the order is that of first occurrence. *)
Theorem vars_lowercased (vars : OrderedMap string (option Var)) :
  om_wf (Vars_UnmarshalYAML vars) /\
  OM_Keys (Vars_UnmarshalYAML vars) = first_occ (ToLower <$> OM_Keys vars) [] /\
  (forall k, k ∈ OM_Keys (Vars_UnmarshalYAML vars) -> ToLower k = k) /\
  (forall k, k ∈ OM_Keys vars -> OM_Exists (ToLower k) (Vars_UnmarshalYAML vars) = true).
Proof.
  assert (Vars_UnmarshalYAML vars =
    set_all ((fun k => (ToLower k, OM_Get None k vars)) <$> OM_Keys vars) OM_New) as ->.
  { unfold Vars_UnmarshalYAML, OM_Range, OM_Get, OM_Keys. generalize (OM_New (K:=string) (V:=option Var)).
    generalize (om_s vars) as keys. intros keys s0.
    assert (range_keys (E := Empty_set) (fun key value s => Ok (OM_Set (ToLower key) value s)) None
        (om_m vars) keys s0 =
      Ok (set_all ((fun k => (ToLower k, default None (om_m vars !! k))) <$> keys) s0)) as ->; [|done].
    revert s0. induction keys as [|k keys IH]; intros s0; [done|]. simpl. apply IH. }
  assert (om_wf (set_all ((fun k => (ToLower k, OM_Get None k vars)) <$> OM_Keys vars) OM_New)) as Hwf
    by apply set_all_wf, om_wf_New.
  split; [done|].
  assert (OM_Keys (set_all ((fun k => (ToLower k, OM_Get None k vars)) <$> OM_Keys vars) OM_New)
    = first_occ (ToLower <$> OM_Keys vars) []) as Hk.
  { unfold OM_Keys at 1. rewrite set_all_keys by apply om_wf_New. f_equal.
    by rewrite <- list_fmap_compose. }
  split; [done|]. split.
  - intros k. rewrite Hk, elem_of_first_occ. intros [(k' & -> & _)%list_elem_of_fmap|?%elem_of_nil]; [|done].
    apply ToLower_idemp.
  - intros k Hin. unfold OM_Exists. apply bool_decide_eq_true, Hwf. unfold OM_Keys in Hk at 1.
    rewrite Hk, elem_of_first_occ. left. by apply list_elem_of_fmap_2.
Qed.
