(* ===== verification/Codes.v ===== *)
(** The disconnect, error and unsubscribe codes of the deliverer:
    [server/deliverer/disconnect.go], [errors.go] and [unsubscribe.go]. *)

From S2P Require Import Prelude.

Record Disconnect := mkDisconnect { dcode : Z; dreason : string }.

#[export] Instance Disconnect_eq_dec : EqDecision Disconnect.
Proof. solve_decision. Defined.

Definition DisconnectConnectionClosed := mkDisconnect 3000 "connection closed".
Definition DisconnectShutdown := mkDisconnect 3001 "shutdown".
Definition DisconnectServerError := mkDisconnect 3004 "internal server error".
Definition DisconnectExpired := mkDisconnect 3005 "connection expired".
Definition DisconnectSubExpired := mkDisconnect 3006 "subscription expired".
Definition DisconnectSlow := mkDisconnect 3008 "slow".
Definition DisconnectWriteError := mkDisconnect 3009 "write error".
Definition DisconnectInsufficientState := mkDisconnect 3010 "insufficient state".
Definition DisconnectForceReconnect := mkDisconnect 3011 "force reconnect".
Definition DisconnectNoPong := mkDisconnect 3012 "no pong".
Definition DisconnectTooManyRequests := mkDisconnect 3013 "too many requests".
Definition DisconnectInvalidToken := mkDisconnect 3500 "invalid token".
Definition DisconnectBadRequest := mkDisconnect 3501 "bad request".
Definition DisconnectStale := mkDisconnect 3502 "stale".
Definition DisconnectForceNoReconnect := mkDisconnect 3503 "force disconnect".
Definition DisconnectConnectionLimit := mkDisconnect 3504 "connection limit".
Definition DisconnectChannelLimit := mkDisconnect 3505 "channel limit".
Definition DisconnectInappropriateProtocol := mkDisconnect 3506 "inappropriate protocol".
Definition DisconnectPermissionDenied := mkDisconnect 3507 "permission denied".
Definition DisconnectNotAvailable := mkDisconnect 3508 "not available".
Definition DisconnectTooManyErrors := mkDisconnect 3509 "too many errors".

Record Error := mkError { ecode : Z; emessage : string; temporary : bool }.

#[export] Instance Error_eq_dec : EqDecision Error.
Proof. solve_decision. Defined.

Definition ErrorExpired := mkError 110 "expired" false.
Definition ErrorInternal := mkError 100 "internal server error" true.
Definition ErrorPermissionDenied := mkError 103 "permission denied" false.
Definition ErrorBadRequest := mkError 107 "bad request" false.
Definition ErrorUnrecoverablePosition := mkError 112 "unrecoverable position" false.
Definition ErrorNotAvailable := mkError 108 "not available" false.
Definition ErrorAlreadySubscribed := mkError 105 "already subscribed" false.
Definition ErrorLimitExceeded := mkError 106 "limit exceeded" false.

Record Unsubscribe := mkUnsubscribe { ucode : Z; ureason : string }.

#[export] Instance Unsubscribe_eq_dec : EqDecision Unsubscribe.
Proof. solve_decision. Defined.

Definition UnsubscribeCodeClient : Z := 0.
Definition UnsubscribeCodeDisconnect : Z := 1.
Definition UnsubscribeCodeServer : Z := 2000.
Definition UnsubscribeCodeExpired : Z := 2501.

Definition unsubscribeClient := mkUnsubscribe UnsubscribeCodeClient "client unsubscribed".
Definition unsubscribeDisconnect := mkUnsubscribe UnsubscribeCodeDisconnect "client disconnected".
Definition unsubscribeServer := mkUnsubscribe UnsubscribeCodeServer "server unsubscribe".
Definition unsubscribeExpired := mkUnsubscribe UnsubscribeCodeExpired "subscription expired".

(** The error a Go handler of the deliverer returns: an [*Error], a
    [Disconnect], or another error value that only carries a text. *)
Inductive go_error : Type :=
| EClient (e : Error)
| EDisconnect (d : Disconnect)
| EOther (msg : string).

#[export] Instance go_error_eq_dec : EqDecision go_error.
Proof. solve_decision. Defined.

(** [uniErrorCodeToDisconnect] of [client.go]. *)
Definition uniErrorCodeToDisconnect (code : Z) : option Disconnect :=
  if decide (code = ErrorExpired.(ecode)) then Some DisconnectExpired
  else if decide (code = ErrorPermissionDenied.(ecode)) then Some DisconnectPermissionDenied
  else None.

Definition extractUnidirectionalDisconnect (err : go_error) : Disconnect :=
  match err with
  | EDisconnect d => d
  | EClient e =>
    match uniErrorCodeToDisconnect e.(ecode) with
    | Some d => d
    | None => DisconnectServerError
    end
  | EOther _ => DisconnectServerError
  end.

Definition toClientErr (err : go_error) : Error :=
  match err with
  | EClient e => e
  | _ => ErrorInternal
  end.
