(* ===== verification/NestedMap.v ===== *)
(** Go's [map[string]map[string]V] with the discipline the deliverer uses for
    it everywhere: the inner map is made on demand and deleted when its last
    entry goes.  [Hub.v] and [Presence.v] use it for users, subscriptions and
    presence. *)

From S2P Require Import Prelude.

Section Nested.
Context {V : Type}.
Abbreviation nested := (gmap string (gmap string V)).
Implicit Types (m : nested) (k u : string) (v : V).

Definition nest_get k m : gmap string V := default ∅ (m !! k).

(** [if _, ok := m[k]; !ok { m[k] = make(...) }; m[k][u] = v]. *)
Definition nest_add k u v m : nested := <[k := <[u:=v]> (nest_get k m)]> m.

(** The removal: the map afterwards, and whether it ended on a branch that
    reports emptiness ([k] or [u] missing, or the last entry gone). *)
Definition nest_remove k u m : nested * bool :=
  match m !! k with
  | None => (m, true)
  | Some inner =>
    match inner !! u with
    | None => (m, true)
    | Some _ =>
      let inner := delete u inner in
      if decide (inner = ∅) then (delete k m, true) else (<[k:=inner]> m, false)
    end
  end.

(** [total += len(inner)] over all inner maps. *)
Definition nest_size m : nat := map_fold (fun _ inner acc => size inner + acc) 0 m.

(** No inner map is empty. *)
Definition nest_inv m : Prop := map_Forall (fun _ inner => inner <> ∅) m.

Lemma nest_inv_empty : nest_inv ∅.
Proof. apply map_Forall_empty. Qed.

Lemma nest_inv_add k u v m : nest_inv m -> nest_inv (nest_add k u v m).
Proof. intros. apply map_Forall_insert_2; [apply insert_non_empty|done]. Qed.

Lemma nest_inv_remove k u m : nest_inv m -> nest_inv (fst (nest_remove k u m)).
Proof.
  intros Hm. unfold nest_remove. repeat case_match; try done; simpl.
  - by apply map_Forall_delete.
  - by apply map_Forall_insert_2.
Qed.

Lemma nest_get_add k u v m k' :
  nest_get k' (nest_add k u v m) = if decide (k = k') then <[u:=v]> (nest_get k m) else nest_get k' m.
Proof. unfold nest_get at 1, nest_add. rewrite lookup_insert. by case_decide. Qed.

Lemma nest_get_remove k u m k' :
  nest_get k' (fst (nest_remove k u m)) =
    if decide (k = k') then delete u (nest_get k m) else nest_get k' m.
Proof.
  unfold nest_remove, nest_get. destruct (m !! k) as [inner|] eqn:Hk.
  - destruct (inner !! u) eqn:Hu; simpl.
    + case_decide as Hd; simpl; case_decide; subst.
      * by rewrite lookup_delete_eq.
      * by rewrite lookup_delete_ne.
      * by rewrite lookup_insert_eq.
      * by rewrite lookup_insert_ne.
    + case_decide; [|done]. subst. rewrite Hk. simpl. by rewrite delete_id.
  - simpl. case_decide; [|done]. subst. rewrite Hk. simpl. by rewrite delete_empty.
Qed.

Lemma nest_lookup_get k m : nest_inv m -> m !! k = None <-> nest_get k m = ∅.
Proof.
  intros Hm. unfold nest_get. destruct (m !! k) as [inner|] eqn:Hk; simpl; [|done].
  split; [done|]. intros ->. by apply Hm in Hk.
Qed.

(** Nested maps that keep the discipline are determined by their entries. *)
Lemma nest_ext m1 m2 : nest_inv m1 -> nest_inv m2 ->
  (forall k, nest_get k m1 = nest_get k m2) -> m1 = m2.
Proof.
  intros H1 H2 Heq. apply map_eq. intros k. specialize (Heq k). unfold nest_get in Heq.
  destruct (m1 !! k) as [i1|] eqn:E1, (m2 !! k) as [i2|] eqn:E2; simpl in Heq; subst; try done.
  - by apply H1 in E1.
  - by apply H2 in E2.
Qed.

(** The flag of a removal that found its entry is exactly "nothing is left". *)
Lemma nest_remove_empty k u m :
  nest_inv m -> is_Some (nest_get k m !! u) ->
  snd (nest_remove k u m) = bool_decide (nest_get k (fst (nest_remove k u m)) = ∅).
Proof.
  intros Hm Hu. rewrite nest_get_remove, decide_True by done.
  unfold nest_remove, nest_get in *. destruct (m !! k) as [inner|]; simpl in *.
  - destruct Hu as [v ->]. case_decide; simpl; by case_bool_decide.
  - by destruct Hu.
Qed.

(** ** Partitions by a key function: the shards of a map *)

Lemma nest_size_insert k inner m :
  m !! k = None -> nest_size (<[k:=inner]> m) = size inner + nest_size m.
Proof.
  intros. unfold nest_size. rewrite map_fold_insert_L; [done| |done]. intros. lia.
Qed.

Lemma nest_size_empty : nest_size ∅ = 0.
Proof. apply map_fold_empty. Qed.

End Nested.

Arguments nest_get {V} _ _.

Section Shards.
Context {V : Type} (n : nat) (shard_of : string -> nat).
Hypothesis shard_lt : forall k, shard_of k < n.
Implicit Types m : gmap string V.

(** The part of [m] that shard [i] holds. *)
Definition shard_part (i : nat) m : gmap string V := filter (fun '(k, _) => shard_of k = i) m.

Lemma shard_part_empty i : shard_part i ∅ = ∅.
Proof. apply map_filter_empty. Qed.

Lemma shard_part_lookup i m k :
  shard_part i m !! k = if decide (shard_of k = i) then m !! k else None.
Proof.
  unfold shard_part. case_decide as Hd.
  - destruct (m !! k) as [v|] eqn:E.
    + by apply map_lookup_filter_Some.
    + apply map_lookup_filter_None. by left.
  - apply map_lookup_filter_None. right. intros v _. done.
Qed.

Lemma shard_part_insert i m k v :
  shard_part i (<[k:=v]> m) = if decide (shard_of k = i) then <[k:=v]> (shard_part i m) else shard_part i m.
Proof.
  apply map_eq. intros k'. case_decide as Hd; rewrite ?lookup_insert, !shard_part_lookup, ?lookup_insert;
    repeat case_decide; subst; congruence.
Qed.

Lemma shard_part_delete i m k :
  shard_part i (delete k m) = if decide (shard_of k = i) then delete k (shard_part i m) else shard_part i m.
Proof.
  apply map_eq. intros k'. case_decide as Hd; rewrite ?lookup_delete, !shard_part_lookup, ?lookup_delete;
    repeat case_decide; subst; congruence.
Qed.

(** Summing a quantity over the shards counts every entry once. *)
Lemma sum_shards (f : gmap string V -> nat) (w : string -> V -> nat) m :
  f ∅ = 0 -> (forall k v m, m !! k = None -> f (<[k:=v]> m) = w k v + f m) ->
  sum_list ((fun i => f (shard_part i m)) <$> seq 0 n) = f m.
Proof.
  intros H0 HS. induction m as [|k v m Hk IH] using map_ind.
  - rewrite H0. induction (seq 0 n) as [|i l IHl]; simpl; [done|]. by rewrite shard_part_empty, H0.
  - rewrite HS, <- IH by done.
    assert (forall l, NoDup l -> shard_of k ∈ l ->
      sum_list ((fun i => f (shard_part i (<[k:=v]> m))) <$> l) =
      w k v + sum_list ((fun i => f (shard_part i m)) <$> l)) as Hl.
    { clear IH. induction l as [|i l IHl]; intros Hnd Hin; [set_solver|]. csimpl.
      rewrite shard_part_insert. apply NoDup_cons in Hnd as [Hi Hnd]. case_decide as Hd.
      - rewrite HS by (rewrite shard_part_lookup; by case_decide).
        rewrite (list_fmap_ext _ (fun i => f (shard_part i m)) l); [lia|].
        intros a x Hx. apply list_elem_of_lookup_2 in Hx. rewrite shard_part_insert.
        case_decide; [|done]. by subst.
      - rewrite IHl; [lia|done|set_solver]. }
    apply Hl; [apply NoDup_seq|]. apply elem_of_seq. specialize (shard_lt k). lia.
Qed.

Lemma size_shards m : sum_list ((fun i => size (shard_part i m)) <$> seq 0 n) = size m.
Proof.
  apply (sum_shards size (fun _ _ => 1)); [apply map_size_empty|].
  intros. by rewrite map_size_insert_None.
Qed.

(** The union of the shards is the map. *)
Lemma union_shards m k :
  (exists i, i < n /\ is_Some (shard_part i m !! k)) <-> is_Some (m !! k).
Proof.
  split.
  - intros (i & _ & Hk). rewrite shard_part_lookup in Hk. case_decide; [done|]. by destruct Hk.
  - intros Hk. exists (shard_of k). split; [done|]. rewrite shard_part_lookup. by case_decide.
Qed.

End Shards.

Section ShardsNested.
Context {V : Type} (n : nat) (shard_of : string -> nat).
Implicit Types m : gmap string (gmap string V).

Lemma shard_nest_get k m : nest_get k (shard_part shard_of (shard_of k) m) = nest_get k m.
Proof. unfold nest_get. rewrite shard_part_lookup. by case_decide. Qed.

Lemma shard_nest_add i k u v m :
  shard_part shard_of i (nest_add k u v m) =
    if decide (shard_of k = i) then nest_add k u v (shard_part shard_of i m)
    else shard_part shard_of i m.
Proof.
  unfold nest_add. rewrite shard_part_insert. case_decide; [|done]. subst. by rewrite shard_nest_get.
Qed.

Lemma shard_nest_remove k u m :
  nest_remove k u (shard_part shard_of (shard_of k) m) =
    (shard_part shard_of (shard_of k) (fst (nest_remove k u m)), snd (nest_remove k u m)).
Proof.
  unfold nest_remove. rewrite shard_part_lookup, decide_True by done.
  destruct (m !! k) as [inner|]; [|done]. destruct (inner !! u); [|done].
  case_decide; simpl; by rewrite ?shard_part_delete, ?shard_part_insert, decide_True.
Qed.

Lemma shard_nest_remove_other i k u m :
  shard_of k <> i -> shard_part shard_of i (fst (nest_remove k u m)) = shard_part shard_of i m.
Proof.
  intros. unfold nest_remove. repeat case_match; try done; simpl;
    by rewrite ?shard_part_delete, ?shard_part_insert, decide_False.
Qed.

Lemma nest_size_delete k inner m :
  m !! k = Some inner -> nest_size m = size inner + nest_size (delete k m).
Proof.
  intros Hk. rewrite <- (insert_id m k inner Hk) at 1. rewrite <- insert_delete_eq.
  by rewrite nest_size_insert by apply lookup_delete_eq.
Qed.

Lemma nest_size_update k inner m : nest_size (<[k:=inner]> m) = size inner + nest_size (delete k m).
Proof. rewrite <- insert_delete_eq. by rewrite nest_size_insert by apply lookup_delete_eq. Qed.

Lemma nest_size_add k u v m :
  nest_size (nest_add k u v m) =
    match nest_get k m !! u with Some _ => nest_size m | None => S (nest_size m) end.
Proof.
  unfold nest_add, nest_get. rewrite nest_size_update. destruct (m !! k) as [inner|] eqn:Hk; simpl.
  - rewrite (nest_size_delete _ _ _ Hk).
    destruct (inner !! u) eqn:Hu; [rewrite map_size_insert_Some by eauto; lia|].
    rewrite map_size_insert_None by done. lia.
  - rewrite lookup_empty, delete_id, map_size_insert_None, map_size_empty; [lia|done..].
Qed.

Lemma nest_size_remove k u m :
  nest_size (fst (nest_remove k u m)) =
    match nest_get k m !! u with Some _ => nest_size m - 1 | None => nest_size m end.
Proof.
  unfold nest_remove, nest_get. destruct (m !! k) as [inner|] eqn:Hk; simpl; [|by rewrite lookup_empty].
  destruct (inner !! u) as [v|] eqn:Hu; [|done].
  rewrite (nest_size_delete _ _ _ Hk).
  assert (size inner = S (size (delete u inner))) as ->.
  { rewrite <- (insert_id inner u v Hu) at 1. rewrite <- insert_delete_eq.
    by rewrite map_size_insert_None by apply lookup_delete_eq. }
  case_decide as He; simpl.
  - rewrite He, map_size_empty. lia.
  - rewrite nest_size_update. lia.
Qed.

End ShardsNested.
