(* ===== verification/Hub.v ===== *)
(** [server/deliverer/hub.go]: the registry of connections and subscriptions,
    spread over 64 shards by the FNV-1a hash of the user or channel name
    ([index] of [node.go]).

    Each shard has its own lock and every operation runs under it, so an
    execution is a sequence of operations.  [whole] is the specification: the
    same registry without shards. *)

From Stdlib Require Import Ascii.
From S2P Require Import Prelude GoStrings NestedMap.

(** ** [index]: FNV-1a, 64 bits *)

Definition fnv_offset : Z := 14695981039346656037.
Definition fnv_prime : Z := 1099511628211.

Definition byte_of (c : ascii) : Z := Z.of_N (N_of_ascii c).

Definition fnv64a (s : string) : Z :=
  fold_left (fun h c => wrap_u64 (Z.lxor h (byte_of c) * fnv_prime)) (explode s) fnv_offset.

Definition index (s : string) (numBuckets : nat) : nat :=
  if numBuckets =? 1 then 0 else Z.to_nat (fnv64a s mod Z.of_nat numBuckets).

Lemma index_lt s n : 0 < n -> index s n < n.
Proof.
  intros. unfold index. case_match; [done|].
  pose proof (Z.mod_pos_bound (fnv64a s) (Z.of_nat n)). lia.
Qed.

(** ** Shards *)

(** What the hub reads of a client. *)
Record Client := mkClient { ID : string; UserID : string }.

#[export] Instance Client_eq_dec : EqDecision Client.
Proof. solve_decision. Defined.

Record connShard := mkConnShard {
  conns : gmap string Client;
  users : gmap string (gmap string ())
}.

Definition newConnShard : connShard := mkConnShard ∅ ∅.

Definition connShard_add (c : Client) (h : connShard) : connShard :=
  mkConnShard (<[c.(ID):=c]> h.(conns)) (nest_add c.(UserID) c.(ID) () h.(users)).

Definition connShard_remove (c : Client) (h : connShard) : connShard :=
  mkConnShard (delete c.(ID) h.(conns)) (fst (nest_remove c.(UserID) c.(ID) h.(users))).

Definition connShard_userConnections (userID : string) (h : connShard) : gmap string Client :=
  match h.(users) !! userID with
  | None => ∅
  | Some uids => map_imap (fun uid _ => h.(conns) !! uid) uids
  end.

Definition connShard_infoUser (userID : string) (h : connShard) : bool :=
  0 <? size (connShard_userConnections userID h).

Definition connShard_NumClients (h : connShard) : nat := nest_size h.(users).
Definition connShard_NumUsers (h : connShard) : nat := size h.(users).

(** The clients [subscribe], [refresh] and [unsubscribe] call. *)
Definition connShard_targets (user clientID : string) (h : connShard) : gmap string Client :=
  filter (fun '(_, c) => clientID = "" \/ c.(ID) = clientID) (connShard_userConnections user h).

(** The clients [disconnect] closes. *)
Definition connShard_disconnect_targets (user clientID : string) (whitelist : list string) (h : connShard)
    : gmap string Client :=
  filter (fun '(_, c) => c.(ID) ∉ whitelist /\ (clientID = "" \/ c.(ID) = clientID))
    (connShard_userConnections user h).

Abbreviation subShard := (gmap string (gmap string Client)).

(** [addSub]: whether the channel is new. *)
Definition subShard_addSub (ch : string) (c : Client) (h : subShard) : subShard * bool :=
  (nest_add ch c.(ID) c h, match h !! ch with None => true | Some _ => false end).

(** [removeSub]: whether the channel is reported empty. *)
Definition subShard_removeSub (ch : string) (c : Client) (h : subShard) : subShard * bool :=
  nest_remove ch c.(ID) h.

Definition subShard_NumChannels (h : subShard) : nat := size h.
Definition subShard_NumSubscriptions (h : subShard) : nat := nest_size h.
Definition subShard_Channels (h : subShard) : list string := (map_to_list h).*1.
Definition subShard_NumSubscribers (ch : string) (h : subShard) : nat :=
  match h !! ch with None => 0 | Some conns => size conns end.

(** ** The hub *)

Definition numHubShards : nat := 64.

Definition shard_index (s : string) : nat := index s numHubShards.

Record Hub := mkHub { connShards : list connShard; subShards : list subShard }.

Definition newHub : Hub :=
  mkHub (replicate numHubShards newConnShard) (replicate numHubShards ∅).

Definition conn_shard (i : nat) (h : Hub) : connShard := default newConnShard (h.(connShards) !! i).
Definition sub_shard (i : nat) (h : Hub) : subShard := default ∅ (h.(subShards) !! i).

Definition Hub_add (c : Client) (h : Hub) : Hub :=
  let i := shard_index c.(UserID) in
  mkHub (<[i := connShard_add c (conn_shard i h)]> h.(connShards)) h.(subShards).

Definition Hub_remove (c : Client) (h : Hub) : Hub :=
  let i := shard_index c.(UserID) in
  mkHub (<[i := connShard_remove c (conn_shard i h)]> h.(connShards)) h.(subShards).

Definition Hub_Connections (h : Hub) : gmap string Client :=
  fold_left (fun acc sh => sh.(conns) ∪ acc) h.(connShards) ∅.

Definition Hub_UserConnections (userID : string) (h : Hub) : gmap string Client :=
  connShard_userConnections userID (conn_shard (shard_index userID) h).

Definition Hub_InfoUser (userID : string) (h : Hub) : bool :=
  connShard_infoUser userID (conn_shard (shard_index userID) h).

Definition Hub_addSub (ch : string) (c : Client) (h : Hub) : Hub * bool :=
  let i := shard_index ch in
  let '(sh, first) := subShard_addSub ch c (sub_shard i h) in
  (mkHub h.(connShards) (<[i:=sh]> h.(subShards)), first).

Definition Hub_removeSub (ch : string) (c : Client) (h : Hub) : Hub * bool :=
  let i := shard_index ch in
  let '(sh, empty) := subShard_removeSub ch c (sub_shard i h) in
  (mkHub h.(connShards) (<[i:=sh]> h.(subShards)), empty).

Definition Hub_NumSubscribers (ch : string) (h : Hub) : nat :=
  subShard_NumSubscribers ch (sub_shard (shard_index ch) h).

Definition Hub_Channels (h : Hub) : list string :=
  mjoin ((fun i => subShard_Channels (sub_shard i h)) <$> seq 0 numHubShards).

Definition Hub_NumClients (h : Hub) : nat :=
  sum_list ((fun i => connShard_NumClients (conn_shard i h)) <$> seq 0 numHubShards).
Definition Hub_NumUsers (h : Hub) : nat :=
  sum_list ((fun i => connShard_NumUsers (conn_shard i h)) <$> seq 0 numHubShards).
Definition Hub_NumSubscriptions (h : Hub) : nat :=
  sum_list ((fun i => subShard_NumSubscriptions (sub_shard i h)) <$> seq 0 numHubShards).
Definition Hub_NumChannels (h : Hub) : nat :=
  sum_list ((fun i => subShard_NumChannels (sub_shard i h)) <$> seq 0 numHubShards).

(** ** Broadcasting *)

(** What a subscriber gets: the encoded push, or a disconnect with
    [DisconnectInappropriateProtocol]. *)
Inductive delivery : Type :=
| Written (client : Client) (reply : string)
| Dropped (client : Client).

Section Broadcast.
Context {Pub : Type}.
(** The role a client holds for a channel ([c.channels[channel]]), and the
    protocol's JSON encoder, which can fail. *)
Context (role : Client -> string -> option Z) (encode : string -> Pub -> option string).

Definition ReadRole : Z := 1.
Definition WriteRole : Z := 2.
Definition ReadWriteRole : Z := 3.

Definition may_read (c : Client) (channel : string) : bool :=
  match role c channel with
  | None => false
  | Some r => (r =? ReadRole)%Z || (r =? ReadWriteRole)%Z || HasPrefix channel "kairosdeamon"
  end.

(** The loop: [reply] is [jsonReply], [failed] is [jsonEncodeErr != nil]. *)
Fixpoint broadcast_loop (channel : string) (pub : Pub) (subscribers : list Client)
    (reply : option string) (failed : bool) : list delivery :=
  match subscribers with
  | [] => []
  | c :: rest =>
    if negb (may_read c channel) then broadcast_loop channel pub rest reply failed
    else if failed then Dropped c :: broadcast_loop channel pub rest reply failed
    else match reply with
    | Some r => Written c r :: broadcast_loop channel pub rest reply failed
    | None =>
      match encode channel pub with
      | Some r => Written c r :: broadcast_loop channel pub rest (Some r) failed
      | None => Dropped c :: broadcast_loop channel pub rest None true
      end
    end
  end.

Definition subShard_broadcastPublication (channel : string) (pub : Pub) (h : subShard) : list delivery :=
  match h !! channel with
  | None => []
  | Some subs => broadcast_loop channel pub (map_to_list subs).*2 None false
  end.

Definition Hub_BroadcastPublication (ch : string) (pub : Pub) (h : Hub) : list delivery :=
  subShard_broadcastPublication ch pub (sub_shard (shard_index ch) h).

End Broadcast.

(** ** The specification: one shard *)

Record whole := mkWhole { w_conn : connShard; w_sub : subShard }.

Inductive hub_op : Type :=
| OpAdd (c : Client)
| OpRemove (c : Client)
| OpAddSub (ch : string) (c : Client)
| OpRemoveSub (ch : string) (c : Client).

Definition op_client (o : hub_op) : Client :=
  match o with OpAdd c | OpRemove c | OpAddSub _ c | OpRemoveSub _ c => c end.

Definition hub_step (h : Hub) (o : hub_op) : Hub * option bool :=
  match o with
  | OpAdd c => (Hub_add c h, None)
  | OpRemove c => (Hub_remove c h, None)
  | OpAddSub ch c => let '(h, b) := Hub_addSub ch c h in (h, Some b)
  | OpRemoveSub ch c => let '(h, b) := Hub_removeSub ch c h in (h, Some b)
  end.

Definition whole_step (w : whole) (o : hub_op) : whole * option bool :=
  match o with
  | OpAdd c => (mkWhole (connShard_add c w.(w_conn)) w.(w_sub), None)
  | OpRemove c => (mkWhole (connShard_remove c w.(w_conn)) w.(w_sub), None)
  | OpAddSub ch c => let '(s, b) := subShard_addSub ch c w.(w_sub) in (mkWhole w.(w_conn) s, Some b)
  | OpRemoveSub ch c => let '(s, b) := subShard_removeSub ch c w.(w_sub) in (mkWhole w.(w_conn) s, Some b)
  end.

Fixpoint run_ops {S} (step : S -> hub_op -> S * option bool) (ops : list hub_op) (s : S)
    : S * list (option bool) :=
  match ops with
  | [] => (s, [])
  | o :: ops => let '(s, r) := step s o in let '(s, rs) := run_ops step ops s in (s, r :: rs)
  end.

(** Client ids are unique: two clients with one id are the same client. *)
Definition ids_agree (ops : list hub_op) : Prop :=
  forall o1 o2, o1 ∈ ops -> o2 ∈ ops -> ID (op_client o1) = ID (op_client o2) ->
  op_client o1 = op_client o2.

(** ** One shard *)

(** The invariant of a connection shard: connections are filed under their
    id, and the user index lists exactly the connections of each user. *)
Record conn_inv (h : connShard) : Prop := {
  ci_id : forall uid c, h.(conns) !! uid = Some c -> c.(ID) = uid;
  ci_users : forall u uid, is_Some (nest_get u h.(users) !! uid) <->
    exists c, h.(conns) !! uid = Some c /\ c.(UserID) = u;
  ci_nest : nest_inv h.(users);
  ci_size : nest_size h.(users) = size h.(conns)
}.

(** No other client is filed under the id of [c]. *)
Definition agrees (c : Client) (h : connShard) : Prop :=
  forall c', h.(conns) !! c.(ID) = Some c' -> c' = c.

Lemma conn_inv_new : conn_inv newConnShard.
Proof.
  split; simpl.
  - intros ??. by rewrite lookup_empty.
  - intros u uid. unfold nest_get. rewrite lookup_empty. simpl. rewrite lookup_empty.
    split; [by intros [? ?]|]. intros (c & Hc & _). by rewrite lookup_empty in Hc.
  - apply nest_inv_empty.
  - by rewrite nest_size_empty, map_size_empty.
Qed.

Lemma conn_inv_filed c h :
  conn_inv h -> agrees c h -> is_Some (nest_get c.(UserID) h.(users) !! c.(ID)) <-> h.(conns) !! c.(ID) = Some c.
Proof.
  intros Hi Ha. rewrite (ci_users _ Hi). split; [|eauto].
  intros (c' & Hc & _). by rewrite Hc, (Ha c').
Qed.

Lemma conn_inv_add c h : conn_inv h -> agrees c h -> conn_inv (connShard_add c h).
Proof.
  intros Hi Ha. pose proof (conn_inv_filed _ _ Hi Ha) as Hf. destruct Hi as [Hid Hu Hn Hs].
  split; simpl.
  - intros uid c'. rewrite lookup_insert. case_decide; [naive_solver|apply Hid].
  - intros u uid. rewrite nest_get_add, lookup_insert. case_decide as Hd1.
    + rewrite lookup_insert. case_decide as Hd2; [naive_solver|]. by rewrite Hd1, Hu.
    + rewrite Hu. case_decide as Hd2; [|done]. subst uid. split.
      * intros (c' & Hc & <-). by rewrite (Ha c') in Hd1.
      * intros (c' & [= <-] & ?). done.
  - by apply nest_inv_add.
  - rewrite nest_size_add, Hs. destruct (nest_get (UserID c) (users h) !! ID c) eqn:E.
    + assert (conns h !! ID c = Some c) by (apply Hf; eauto). by rewrite map_size_insert_Some by eauto.
    + rewrite map_size_insert_None; [done|]. destruct (conns h !! ID c) as [c'|] eqn:E'; [|done].
      assert (c' = c) as -> by (by apply Ha). by destruct (proj2 Hf eq_refl).
Qed.

Lemma conn_inv_remove c h : conn_inv h -> agrees c h -> conn_inv (connShard_remove c h).
Proof.
  intros Hi Ha. pose proof (conn_inv_filed _ _ Hi Ha) as Hf. destruct Hi as [Hid Hu Hn Hs].
  split; simpl.
  - intros uid c' [_ H]%lookup_delete_Some. by apply Hid.
  - intros u uid. rewrite nest_get_remove, lookup_delete. case_decide as Hd1.
    + rewrite lookup_delete. case_decide; [|by rewrite Hd1, Hu].
      split; [by intros []|]. by intros (? & ? & ?).
    + rewrite Hu. case_decide as Hd2; [|done]. subst uid. split; [|by intros (? & ? & ?)].
      intros (c' & Hc & <-). by rewrite (Ha c') in Hd1.
  - by apply nest_inv_remove.
  - rewrite nest_size_remove, Hs. destruct (nest_get (UserID c) (users h) !! ID c) eqn:E.
    + assert (conns h !! ID c = Some c) as E' by (apply Hf; eauto). rewrite map_size_delete_Some by eauto; lia.
    + rewrite map_size_delete_None; [done|]. destruct (conns h !! ID c) as [c'|] eqn:E'; [|done].
      assert (c' = c) as -> by (by apply Ha). by destruct (proj2 Hf eq_refl).
Qed.

Lemma userConnections_spec u h :
  conn_inv h -> connShard_userConnections u h = filter (fun '(_, c) => c.(UserID) = u) h.(conns).
Proof.
  intros [Hid Hu Hn Hs]. apply map_eq. intros uid. unfold connShard_userConnections.
  specialize (Hu u uid). unfold nest_get in Hu.
  assert ((match users h !! u with Some uids => map_imap (fun uid _ => conns h !! uid) uids | None => ∅ end) !! uid
    = match default ∅ (users h !! u) !! uid with Some _ => conns h !! uid | None => None end) as ->.
  { destruct (users h !! u) as [uids|]; simpl; [|by rewrite !lookup_empty].
    rewrite map_lookup_imap. by destruct (uids !! uid). }
  destruct (default ∅ (users h !! u) !! uid) as [[]|] eqn:E.
  - destruct (proj1 Hu) as (c & Hc & Huc); [eauto|]. rewrite Hc. symmetry. by apply map_lookup_filter_Some.
  - symmetry. apply map_lookup_filter_None. destruct (conns h !! uid) as [c|] eqn:Hc; [|by left]. right.
    intros c' [= <-] Huc. destruct (proj2 Hu); eauto; done.
Qed.

Lemma dom_users_spec h u :
  conn_inv h -> is_Some (h.(users) !! u) <-> exists uid c, h.(conns) !! uid = Some c /\ c.(UserID) = u.
Proof.
  intros [Hid Hu Hn Hs]. split.
  - intros [uids E]. pose proof (Hn _ _ E) as Hne. apply map_choose in Hne as (uid & x & Hx).
    exists uid. apply Hu. unfold nest_get. rewrite E. simpl. eauto.
  - intros (uid & Hc). apply Hu in Hc. unfold nest_get in Hc. destruct (users h !! u); [eauto|].
    simpl in Hc. rewrite lookup_empty in Hc. by destruct Hc.
Qed.

(** ** The shards refine the whole *)

Record hub_rel (h : Hub) (w : whole) : Prop := {
  hr_clen : length h.(connShards) = numHubShards;
  hr_slen : length h.(subShards) = numHubShards;
  hr_conns : forall i, i < numHubShards ->
    (conn_shard i h).(conns) = filter (fun '(_, c) => shard_index c.(UserID) = i) w.(w_conn).(conns);
  hr_users : forall i, i < numHubShards ->
    (conn_shard i h).(users) = shard_part shard_index i w.(w_conn).(users);
  hr_subs : forall i, i < numHubShards -> sub_shard i h = shard_part shard_index i w.(w_sub)
}.

Lemma shard_index_lt s : shard_index s < numHubShards.
Proof. apply index_lt. unfold numHubShards. lia. Qed.

Lemma conn_shard_insert i j sh h subs :
  length h.(connShards) = numHubShards -> i < numHubShards ->
  conn_shard j (mkHub (<[i:=sh]> h.(connShards)) subs) = if decide (i = j) then sh else conn_shard j h.
Proof.
  intros Hl Hi. unfold conn_shard. simpl. case_decide; subst.
  - by rewrite list_lookup_insert_eq by lia.
  - by rewrite list_lookup_insert_ne.
Qed.

Lemma sub_shard_insert i j sh h cs :
  length h.(subShards) = numHubShards -> i < numHubShards ->
  sub_shard j (mkHub cs (<[i:=sh]> h.(subShards))) = if decide (i = j) then sh else sub_shard j h.
Proof.
  intros Hl Hi. unfold sub_shard. simpl. case_decide; subst.
  - by rewrite list_lookup_insert_eq by lia.
  - by rewrite list_lookup_insert_ne.
Qed.

Lemma hub_rel_new : hub_rel newHub (mkWhole newConnShard ∅).
Proof.
  split; [done|done|..]; intros i Hi; unfold conn_shard, sub_shard, newHub; cbn [connShards subShards];
    rewrite lookup_replicate_2 by done; simpl;
    [by rewrite map_filter_empty|by rewrite shard_part_empty..].
Qed.

Lemma hub_rel_add h w c : hub_rel h w -> agrees c w.(w_conn) ->
  hub_rel (Hub_add c h) (mkWhole (connShard_add c w.(w_conn)) w.(w_sub)).
Proof.
  intros [Hcl Hsl Hc Hu Hs] Ha. unfold Hub_add. pose proof (shard_index_lt (UserID c)) as Hlt.
  split; simpl; [by rewrite length_insert|done| | |done]; intros i Hi; rewrite conn_shard_insert by done.
  - case_decide as Hd; simpl.
    + rewrite map_filter_insert_True by done. subst i. by rewrite Hc by done.
    + rewrite map_filter_insert_False by done. rewrite Hc by done.
      destruct (conns (w_conn w) !! ID c) as [c'|] eqn:E; [|by rewrite delete_id].
      apply Ha in E as E'. subst c'. rewrite <- (insert_delete_id _ _ _ E) at 1.
      by rewrite map_filter_insert_False, delete_delete_eq by done.
  - rewrite shard_nest_add. case_decide as Hd; simpl; rewrite ?Hu by done; by subst.
Qed.

Lemma hub_rel_remove h w c : hub_rel h w -> agrees c w.(w_conn) ->
  hub_rel (Hub_remove c h) (mkWhole (connShard_remove c w.(w_conn)) w.(w_sub)).
Proof.
  intros [Hcl Hsl Hc Hu Hs] Ha. unfold Hub_remove. pose proof (shard_index_lt (UserID c)) as Hlt.
  split; simpl; [by rewrite length_insert|done| | |done]; intros i Hi; rewrite conn_shard_insert by done.
  - case_decide as Hd; simpl; rewrite map_filter_delete, Hc by done; [by subst|].
    rewrite delete_id; [done|]. apply map_lookup_filter_None. right. intros c' E ?. apply Ha in E. congruence.
  - case_decide as Hd; simpl; [subst; rewrite Hu by done; by rewrite shard_nest_remove|].
    rewrite Hu by done. by rewrite shard_nest_remove_other.
Qed.

Lemma hub_rel_addSub h w ch c : hub_rel h w ->
  hub_rel (fst (Hub_addSub ch c h)) (mkWhole w.(w_conn) (fst (subShard_addSub ch c w.(w_sub)))) /\
  snd (Hub_addSub ch c h) = snd (subShard_addSub ch c w.(w_sub)).
Proof.
  intros [Hcl Hsl Hc Hu Hs]. pose proof (shard_index_lt ch) as Hlt. unfold Hub_addSub, subShard_addSub. simpl.
  split; [split; simpl; try done; [by rewrite length_insert|]|].
  - intros i Hi. rewrite sub_shard_insert by done. rewrite shard_nest_add.
    case_decide; rewrite ?Hs by done; by subst.
  - rewrite Hs by done. rewrite shard_part_lookup. by case_decide.
Qed.

Lemma hub_rel_removeSub h w ch c : hub_rel h w ->
  hub_rel (fst (Hub_removeSub ch c h)) (mkWhole w.(w_conn) (fst (subShard_removeSub ch c w.(w_sub)))) /\
  snd (Hub_removeSub ch c h) = snd (subShard_removeSub ch c w.(w_sub)).
Proof.
  intros [Hcl Hsl Hc Hu Hs]. pose proof (shard_index_lt ch) as Hlt.
  unfold Hub_removeSub, subShard_removeSub. rewrite Hs by done. rewrite shard_nest_remove. simpl.
  split; [split; simpl; try done; [by rewrite length_insert|]|done].
  intros i Hi. rewrite sub_shard_insert by done. case_decide; [by subst|].
  rewrite Hs by done. by rewrite shard_nest_remove_other.
Qed.

(** ** Queries *)

Lemma Connections_bounded (l : list connShard) (acc m : gmap string Client) :
  Forall (fun sh => sh.(conns) ⊆ m) l -> acc ⊆ m -> fold_left (fun acc sh => sh.(conns) ∪ acc) l acc ⊆ m.
Proof.
  revert acc. induction l as [|sh l IH]; intros acc Hl Hacc; [done|]. apply Forall_cons in Hl as [Hsh Hl].
  simpl. apply IH; [done|]. by apply map_union_least.
Qed.

Lemma Connections_has (l : list connShard) (acc : gmap string Client) k :
  is_Some (acc !! k) \/ (exists sh, sh ∈ l /\ is_Some (sh.(conns) !! k)) ->
  is_Some (fold_left (fun acc sh => sh.(conns) ∪ acc) l acc !! k).
Proof.
  revert acc. induction l as [|sh l IH]; intros acc H; [by destruct H as [?|(? & ?%elem_of_nil & _)]|].
  simpl. apply IH. rewrite lookup_union_is_Some.
  destruct H as [?|(sh' & [ ->|?]%elem_of_cons & ?)]; eauto.
Qed.

Lemma elem_of_conn_shard h sh :
  length h.(connShards) = numHubShards -> sh ∈ h.(connShards) ->
  exists i, i < numHubShards /\ sh = conn_shard i h.
Proof.
  intros Hl [i Hi]%list_elem_of_lookup. exists i. split; [apply lookup_lt_Some in Hi; lia|].
  unfold conn_shard. by rewrite Hi.
Qed.

Lemma Connections_spec h w : hub_rel h w -> Hub_Connections h = w.(w_conn).(conns).
Proof.
  intros [Hcl _ Hc _ _]. unfold Hub_Connections. set (m := conns (w_conn w)).
  assert (fold_left (fun acc sh => sh.(conns) ∪ acc) (connShards h) ∅ ⊆ m) as Hsub.
  { apply Connections_bounded; [|apply map_empty_subseteq]. apply Forall_forall. intros sh Hsh.
    destruct (elem_of_conn_shard _ _ Hcl Hsh) as (i & Hi & ->). rewrite Hc by done. apply map_filter_subseteq. }
  apply (anti_symm (⊆)); [done|]. apply map_subseteq_spec. intros uid c Hin.
  destruct (Connections_has (connShards h) ∅ uid) as [c' Hc'].
  { right. exists (conn_shard (shard_index (UserID c)) h). pose proof (shard_index_lt (UserID c)) as Hlt. split.
    - apply list_elem_of_lookup. exists (shard_index (UserID c)). unfold conn_shard.
      destruct (lookup_lt_is_Some_2 (connShards h) (shard_index (UserID c))) as [sh ->]; [lia|done].
    - rewrite Hc by done. exists c. by apply map_lookup_filter_Some. }
  rewrite Hc'. pose proof (lookup_weaken _ _ _ _ Hc' Hsub) as E. congruence.
Qed.

(** A shard of a well-kept registry is well kept. *)
Lemma conn_inv_shard h w i :
  hub_rel h w -> conn_inv w.(w_conn) -> i < numHubShards ->
  forall u, shard_index u = i -> connShard_userConnections u (conn_shard i h) =
    connShard_userConnections u w.(w_conn).
Proof.
  intros [_ _ Hc Hu _] Hi Hlt u <-. unfold connShard_userConnections.
  rewrite Hu, shard_part_lookup, decide_True by done.
  destruct (users (w_conn w) !! u) as [uids|] eqn:E; [|done]. apply map_eq. intros uid.
  rewrite !map_lookup_imap. destruct (uids !! uid) eqn:Eu; [|done]. simpl. rewrite Hc by done.
  destruct (proj1 (ci_users _ Hi u uid)) as (c & Hcu & Hus).
  { unfold nest_get. rewrite E. simpl. eauto. }
  rewrite Hcu. apply map_lookup_filter_Some. by rewrite Hus.
Qed.

Lemma sum_seq_ext (f g : nat -> nat) : (forall i, i < numHubShards -> f i = g i) ->
  sum_list (f <$> seq 0 numHubShards) = sum_list (g <$> seq 0 numHubShards).
Proof.
  intros H. f_equal. apply list_fmap_ext. intros i x Hx. apply lookup_seq in Hx as [-> ?]. apply H. lia.
Qed.

Lemma NumUsers_spec w :
  conn_inv w.(w_conn) ->
  size w.(w_conn).(users) =
    size (list_to_set (UserID <$> (map_to_list w.(w_conn).(conns)).*2) : gset string).
Proof.
  intros Hi. rewrite <- size_dom. f_equal. apply set_eq. intros u.
  rewrite elem_of_dom, dom_users_spec, elem_of_list_to_set by done. rewrite list_elem_of_fmap. split.
  - intros (uid & c & Hc & <-). exists c. split; [done|]. apply list_elem_of_fmap.
    exists (uid, c). split; [done|]. by apply elem_of_map_to_list.
  - intros (c & -> & ([uid c'] & -> & Hc%elem_of_map_to_list)%list_elem_of_fmap). eauto.
Qed.

(** What holds of both sides after any sequence of operations. *)
Lemma run_ops_rel all ops h w :
  ids_agree all -> ops ⊆ all -> hub_rel h w -> conn_inv w.(w_conn) -> nest_inv w.(w_sub) ->
  (forall uid c, w.(w_conn).(conns) !! uid = Some c -> exists o, o ∈ all /\ op_client o = c) ->
  hub_rel (fst (run_ops hub_step ops h)) (fst (run_ops whole_step ops w)) /\
  conn_inv (fst (run_ops whole_step ops w)).(w_conn) /\
  nest_inv (fst (run_ops whole_step ops w)).(w_sub) /\
  snd (run_ops hub_step ops h) = snd (run_ops whole_step ops w).
Proof.
  intros Hids. revert h w. induction ops as [|o ops IH]; intros h w Hsub Hr Hi Hn Hk; [done|].
  assert (o ∈ all) as Ho by set_solver. assert (ops ⊆ all) as Hsub' by set_solver.
  assert (agrees (op_client o) (w_conn w)) as Ha.
  { intros c' Hc'. destruct (Hk _ _ Hc') as (o' & Ho' & <-). apply Hids; try done.
    apply (ci_id _ Hi) in Hc'. done. }
  destruct o as [c|c|ch c|ch c]; simpl in Ha.
  - specialize (IH (Hub_add c h) (mkWhole (connShard_add c (w_conn w)) (w_sub w)) Hsub').
    simpl. destruct (run_ops hub_step ops _), (run_ops whole_step ops _). simpl in *.
    destruct IH as (? & ? & ? & ->); [by apply hub_rel_add|by apply conn_inv_add|done| |done].
    intros uid c'. rewrite lookup_insert. case_decide; [intros [= <-]; by exists (OpAdd c)|apply Hk].
  - specialize (IH (Hub_remove c h) (mkWhole (connShard_remove c (w_conn w)) (w_sub w)) Hsub').
    simpl. destruct (run_ops hub_step ops _), (run_ops whole_step ops _). simpl in *.
    destruct IH as (? & ? & ? & ->); [by apply hub_rel_remove|by apply conn_inv_remove|done| |done].
    intros uid c' [_ ?]%lookup_delete_Some. by eapply Hk.
  - destruct (hub_rel_addSub h w ch c Hr) as [Hr' Hb].
    specialize (IH (fst (Hub_addSub ch c h)) (mkWhole (w_conn w) (fst (subShard_addSub ch c (w_sub w)))) Hsub').
    simpl in *. destruct (run_ops hub_step ops _), (run_ops whole_step ops _). simpl in *.
    destruct IH as (? & ? & ? & ->); [done|done|by apply nest_inv_add|done|]. by rewrite Hb.
  - destruct (hub_rel_removeSub h w ch c Hr) as [Hr' Hb].
    specialize (IH (fst (Hub_removeSub ch c h))
      (mkWhole (w_conn w) (fst (subShard_removeSub ch c (w_sub w)))) Hsub').
    simpl. destruct (Hub_removeSub ch c h) as [h1 b1], (subShard_removeSub ch c (w_sub w)) as [s1 b2] eqn:E.
    simpl in *. destruct (run_ops hub_step ops _), (run_ops whole_step ops _). simpl in *.
    destruct IH as (? & ? & ? & ->); [done|done| |done|].
    + replace s1 with (fst (subShard_removeSub ch c (w_sub w))) by (by rewrite E). by apply nest_inv_remove.
    + by rewrite Hb.
Qed.

Lemma run_ops_new ops :
  ids_agree ops ->
  hub_rel (fst (run_ops hub_step ops newHub)) (fst (run_ops whole_step ops (mkWhole newConnShard ∅))) /\
  conn_inv (fst (run_ops whole_step ops (mkWhole newConnShard ∅))).(w_conn) /\
  nest_inv (fst (run_ops whole_step ops (mkWhole newConnShard ∅))).(w_sub) /\
  snd (run_ops hub_step ops newHub) = snd (run_ops whole_step ops (mkWhole newConnShard ∅)).
Proof.
  intros Hids. apply (run_ops_rel ops); eauto using hub_rel_new, conn_inv_new, nest_inv_empty.
  intros uid c Hc. simpl in Hc. by rewrite lookup_empty in Hc.
Qed.

(** C14: the 64 shards of the hub behave as one registry.  After any sequence
    of operations by clients with unique ids, every reply is that of the
    registry without shards, and the connection queries are exact: all
    connections, those of one user, and the numbers of clients and users. *)
Theorem hub_connections_exact ops :
  ids_agree ops ->
  let '(h, replies) := run_ops hub_step ops newHub in
  let '(w, replies') := run_ops whole_step ops (mkWhole newConnShard ∅) in
  let m := w.(w_conn).(conns) in
  replies = replies' /\
  Hub_Connections h = m /\
  (forall u, Hub_UserConnections u h = filter (fun '(_, c) => c.(UserID) = u) m) /\
  Hub_NumClients h = size m /\
  Hub_NumUsers h = size (list_to_set (UserID <$> (map_to_list m).*2) : gset string).
Proof.
  intros Hids. destruct (run_ops_new ops Hids) as (Hr & Hi & _ & Hrep).
  destruct (run_ops hub_step ops newHub) as [h replies],
    (run_ops whole_step ops (mkWhole newConnShard ∅)) as [w replies']. simpl in *.
  split; [done|]. split; [by apply Connections_spec|]. split; [|split].
  - intros u. unfold Hub_UserConnections. rewrite (conn_inv_shard h w) by (done || apply shard_index_lt).
    by apply userConnections_spec.
  - unfold Hub_NumClients, connShard_NumClients. rewrite <- (ci_size _ Hi).
    rewrite (sum_seq_ext _ (fun i => nest_size (shard_part shard_index i (users (w_conn w)))))
      by (intros; by rewrite (hr_users _ _ Hr)).
    apply (sum_shards _ _ shard_index_lt nest_size (fun _ inner => size inner));
      [apply nest_size_empty|intros; by apply nest_size_insert].
  - rewrite <- NumUsers_spec by done. unfold Hub_NumUsers, connShard_NumUsers.
    rewrite (sum_seq_ext _ (fun i => size (shard_part shard_index i (users (w_conn w)))))
      by (intros; by rewrite (hr_users _ _ Hr)).
    apply size_shards, shard_index_lt.
Qed.

Definition sample_ops : list hub_op :=
  [OpAdd (mkClient "c1" "u"); OpAdd (mkClient "c2" "v"); OpAddSub "ch" (mkClient "c1" "u");
   OpAddSub "ch" (mkClient "c2" "v"); OpRemove (mkClient "c2" "v"); OpRemoveSub "ch" (mkClient "c2" "v")].

Lemma sample_ops_agree : ids_agree sample_ops.
Proof.
  intros o1 o2 H1 H2. unfold sample_ops in *. rewrite !elem_of_cons, elem_of_nil in *.
  destruct_or?; subst; simpl; done.
Qed.

Lemma hub_connections_exact_witness :
  Hub_NumClients (fst (run_ops hub_step sample_ops newHub)) = 1.
Proof.
  pose proof (hub_connections_exact sample_ops sample_ops_agree) as H.
  destruct (run_ops hub_step sample_ops newHub) as [h rs].
  destruct (run_ops whole_step sample_ops (mkWhole newConnShard ∅)) as [w rs'] eqn:E.
  destruct H as (_ & _ & _ & H & _). simpl. rewrite H.
  vm_compute in E. injection E as <- <-. vm_compute. reflexivity.
Defined.

(** C15: subscriptions too: after any such sequence the number of subscribers
    of a channel, the channels, and the numbers of channels and subscriptions
    are those of the registry without shards, in which no channel is kept
    without subscribers; a subscription is reported first exactly when the
    channel had none. *)
Theorem hub_subscriptions_exact ops :
  ids_agree ops ->
  let h := fst (run_ops hub_step ops newHub) in
  let subs := (fst (run_ops whole_step ops (mkWhole newConnShard ∅))).(w_sub) in
  (forall ch, Hub_NumSubscribers ch h = size (nest_get ch subs)) /\
  (forall ch, ch ∈ Hub_Channels h <-> 0 < Hub_NumSubscribers ch h) /\
  Hub_NumChannels h = size subs /\
  Hub_NumSubscriptions h = nest_size subs /\
  (forall ch c, snd (Hub_addSub ch c h) = (Hub_NumSubscribers ch h =? 0)).
Proof.
  intros Hids. destruct (run_ops_new ops Hids) as (Hr & _ & Hn & _). cbv zeta.
  set (h := fst (run_ops hub_step ops newHub)) in *.
  set (w := fst (run_ops whole_step ops (mkWhole newConnShard ∅))) in *. clearbody h w.
  assert (forall ch, Hub_NumSubscribers ch h = size (nest_get ch (w_sub w))) as Hnum.
  { intros ch. unfold Hub_NumSubscribers, subShard_NumSubscribers, nest_get.
    rewrite (hr_subs _ _ Hr) by apply shard_index_lt. rewrite shard_part_lookup, decide_True by done.
    destruct (w_sub w !! ch); simpl; by rewrite ?map_size_empty. }
  assert (forall ch, is_Some (w_sub w !! ch) <-> 0 < Hub_NumSubscribers ch h) as Hpos.
  { intros ch. rewrite Hnum, <- Nat.neq_0_lt_0, map_size_non_empty_iff.
    rewrite <- (nest_lookup_get ch (w_sub w)) by done. by rewrite <- not_eq_None_Some. }
  split; [done|]. split; [|split; [|split]].
  - intros ch. rewrite <- Hpos, <- (union_shards numHubShards shard_index shard_index_lt).
    unfold Hub_Channels, subShard_Channels. rewrite list_elem_of_join. split.
    + intros (l & Hch & (i & -> & Hi%elem_of_seq)%list_elem_of_fmap).
      exists i. split; [lia|]. apply list_elem_of_fmap in Hch as ([k v] & -> & Hkv%elem_of_map_to_list).
      rewrite (hr_subs _ _ Hr) in Hkv by lia. eauto.
    + intros (i & Hi & [v Hv]). exists (map_to_list (sub_shard i h)).*1. split.
      * apply list_elem_of_fmap. exists (ch, v). split; [done|]. apply elem_of_map_to_list.
        by rewrite (hr_subs _ _ Hr) by done.
      * apply list_elem_of_fmap. exists i. split; [done|]. apply elem_of_seq. lia.
  - unfold Hub_NumChannels, subShard_NumChannels.
    rewrite (sum_seq_ext _ (fun i => size (shard_part shard_index i (w_sub w))))
      by (intros; by rewrite (hr_subs _ _ Hr)).
    apply size_shards, shard_index_lt.
  - unfold Hub_NumSubscriptions, subShard_NumSubscriptions.
    rewrite (sum_seq_ext _ (fun i => nest_size (shard_part shard_index i (w_sub w))))
      by (intros; by rewrite (hr_subs _ _ Hr)).
    apply (sum_shards _ _ shard_index_lt nest_size (fun _ inner => size inner));
      [apply nest_size_empty|intros; by apply nest_size_insert].
  - intros ch c. destruct (hub_rel_addSub h w ch c Hr) as [_ ->]. simpl. specialize (Hpos ch).
    destruct (w_sub w !! ch); symmetry; [apply Nat.eqb_neq|apply Nat.eqb_eq].
    + assert (0 < Hub_NumSubscribers ch h) by (apply Hpos; eauto). lia.
    + destruct (Nat.eq_0_gt_0_cases (Hub_NumSubscribers ch h)) as [|Hgt]; [done|].
      apply Hpos in Hgt. by destruct Hgt.
Qed.

Lemma hub_subscriptions_exact_witness :
  Hub_NumSubscribers "ch" (fst (run_ops hub_step sample_ops newHub)) = 1.
Proof.
  destruct (hub_subscriptions_exact sample_ops sample_ops_agree) as [H _].
  rewrite H. vm_compute. reflexivity.
Defined.

(** A publication reaches exactly the subscribers whose role lets them
    read the channel: each gets the encoded push, or all of them are
    disconnected when the publication cannot be encoded; nobody else gets
    anything. *)
Theorem broadcast_exact {Pub} (role : Client -> string -> option Z) (encode : string -> Pub -> option string)
    (h : subShard) ch pub :
  subShard_broadcastPublication role encode ch pub h =
    (match encode ch pub with
     | Some r => fun c => Written c r
     | None => Dropped
     end) <$> filter (fun c => may_read role c ch = true) (map_to_list (nest_get ch h)).*2.
Proof.
  unfold subShard_broadcastPublication, nest_get. destruct (h !! ch) as [subs|]; [|done]. simpl.
  assert (forall l reply failed,
    (if failed : bool then encode ch pub = None else reply = None \/ reply = encode ch pub) ->
    broadcast_loop role encode ch pub l reply failed =
      (match encode ch pub with Some r => fun c => Written c r | None => Dropped end)
        <$> filter (fun c => may_read role c ch = true) l) as Hloop; [|by apply Hloop; left].
  induction l as [|c l IH]; intros reply failed Hinv; [done|]. simpl. rewrite filter_cons.
  destruct (may_read role c ch); simpl; [|by apply IH]. csimpl.
  destruct failed.
  - rewrite Hinv. f_equal. rewrite IH by done. by rewrite Hinv.
  - destruct reply as [r|].
    + destruct Hinv as [?|Hinv]; [done|]. rewrite <- Hinv. f_equal. rewrite IH by auto. by rewrite <- Hinv.
    + destruct (encode ch pub) as [r|] eqn:E; f_equal; rewrite IH; auto.
Qed.
