(* ===== verification/Presence.v ===== *)
(** [server/deliverer/presence_memory.go]: who is present in each channel.
    Each method runs under the hub's lock. *)

From S2P Require Import Prelude NestedMap.

Record ClientInfo := mkClientInfo {
  ci_ClientID : string;
  ci_UserID : string;
  ci_ConnInfo : string;
  ci_ChanInfo : string
}.

Record PresenceStats := mkPresenceStats { NumClients : nat; NumUsers : nat }.

Abbreviation presenceHub := (gmap string (gmap string ClientInfo)).

Definition presenceHub_add (ch uid : string) (info : ClientInfo) (h : presenceHub) : presenceHub :=
  nest_add ch uid info h.

Definition presenceHub_remove (ch uid : string) (h : presenceHub) : presenceHub :=
  fst (nest_remove ch uid h).

(** [None] is the nil map returned for an unknown channel. *)
Definition presenceHub_get (ch : string) (h : presenceHub) : option (gmap string ClientInfo) := h !! ch.

(** The loop that counts unique users; Go's order over the map is
    unspecified, so it runs over any list of the entries. *)
Fixpoint count_users (infos : list ClientInfo) (uniqueUsers : gset string) (numUsers : nat) : nat :=
  match infos with
  | [] => numUsers
  | info :: infos =>
    if decide (info.(ci_UserID) ∈ uniqueUsers) then count_users infos uniqueUsers numUsers
    else count_users infos ({[info.(ci_UserID)]} ∪ uniqueUsers) (S numUsers)
  end.

Definition presenceHub_getStats (ch : string) (h : presenceHub) (order : list (string * ClientInfo))
    : PresenceStats :=
  match h !! ch with
  | None => mkPresenceStats 0 0
  | Some presence => mkPresenceStats (size presence) (count_users order.*2 ∅ 0)
  end.

(** ** Sequences of joins and leaves *)

Inductive presence_op : Type :=
| Join (ch uid : string) (info : ClientInfo)
| Leave (ch uid : string).

Definition presence_step (h : presenceHub) (o : presence_op) : presenceHub :=
  match o with
  | Join ch uid info => presenceHub_add ch uid info h
  | Leave ch uid => presenceHub_remove ch uid h
  end.

(** The specification: who is in [ch] is decided by the last operation on each
    client. *)
Definition presence_spec_step (ch : string) (m : gmap string ClientInfo) (o : presence_op)
    : gmap string ClientInfo :=
  match o with
  | Join ch' uid info => if decide (ch' = ch) then <[uid:=info]> m else m
  | Leave ch' uid => if decide (ch' = ch) then delete uid m else m
  end.

Lemma size_insert_fresh (x : string) (X : gset string) : x ∉ X -> size ({[x]} ∪ X) = S (size X).
Proof. intros. rewrite size_union by set_solver. by rewrite size_singleton. Qed.

Lemma count_users_spec infos (seen : gset string) n :
  count_users infos seen n = n + size (list_to_set (ci_UserID <$> infos) ∖ seen).
Proof.
  revert seen n. induction infos as [|i infos IH]; intros seen n.
  - cbn. rewrite (difference_disjoint_L ∅ seen) by set_solver. rewrite size_empty. lia.
  - cbn [count_users]. rewrite fmap_cons, list_to_set_cons. case_decide as Hd; rewrite IH.
    + do 2 f_equal. set_solver.
    + set (L := list_to_set (ci_UserID <$> infos) : gset string).
      assert (({[ci_UserID i]} ∪ L) ∖ seen = {[ci_UserID i]} ∪ L ∖ ({[ci_UserID i]} ∪ seen)) as ->.
      { apply set_eq. intros x. destruct (decide (x = ci_UserID i)); set_solver. }
      rewrite size_insert_fresh by set_solver. lia.
Qed.

Lemma presence_run_spec ops ch h :
  nest_get ch (fold_left presence_step ops h) =
    fold_left (presence_spec_step ch) ops (nest_get ch h).
Proof.
  revert h. induction ops as [|o ops IH]; intros h; [done|]. simpl. rewrite IH. f_equal.
  destruct o as [ch' uid info|ch' uid]; simpl; unfold presenceHub_add, presenceHub_remove.
  - rewrite nest_get_add. by case_decide; subst.
  - rewrite nest_get_remove. by case_decide; subst.
Qed.

Lemma presence_run_inv ops h : nest_inv h -> nest_inv (fold_left presence_step ops h).
Proof.
  revert h. induction ops as [|o ops IH]; intros h Hh; [done|]. simpl. apply IH.
  destruct o; [by apply nest_inv_add|by apply nest_inv_remove].
Qed.

(** After any joins and leaves, the presence of a channel holds exactly
    the clients whose last operation was a join, with the information of that
    join; a channel nobody is in is forgotten; and the statistics are the
    number of those clients and of their distinct users, whatever the order in
    which Go walks the map. *)
Theorem presence_exact ops ch order :
  let h := fold_left presence_step ops ∅ in
  let present := fold_left (presence_spec_step ch) ops ∅ in
  Permutation order (map_to_list present) ->
  presenceHub_get ch h = (if decide (present = ∅) then None else Some present) /\
  presenceHub_getStats ch h order =
    mkPresenceStats (size present)
      (size (list_to_set (ci_UserID <$> (map_to_list present).*2) : gset string)).
Proof.
  intros h present Hord. pose proof (presence_run_spec ops ch ∅) as Hget.
  pose proof (presence_run_inv ops ∅ nest_inv_empty) as Hinv.
  change (nest_get ch ∅) with (∅ : gmap string ClientInfo) in Hget.
  fold h in Hget, Hinv. fold present in Hget. clearbody h present.
  unfold presenceHub_get, presenceHub_getStats. pose proof (nest_lookup_get ch h Hinv) as Hn.
  rewrite Hget in Hn. unfold nest_get in Hget. destruct (h !! ch) as [m|]; simpl in Hget; subst.
  - rewrite decide_False by naive_solver. split; [done|]. f_equal. rewrite count_users_spec, difference_empty_L.
    simpl. f_equal. apply set_eq. intros x. rewrite !elem_of_list_to_set. by rewrite Hord.
  - rewrite decide_True by done. split; [done|]. by rewrite map_size_empty, map_to_list_empty.
Qed.

Lemma presence_exact_witness :
  presenceHub_get "ch" (fold_left presence_step
    [Join "ch" "c1" (mkClientInfo "c1" "u" "" ""); Join "ch" "c2" (mkClientInfo "c2" "u" "" ""); Leave "ch" "c1"] ∅)
  = Some {["c2" := mkClientInfo "c2" "u" "" ""]}.
Proof.
  apply (presence_exact
    [Join "ch" "c1" (mkClientInfo "c1" "u" "" ""); Join "ch" "c2" (mkClientInfo "c2" "u" "" ""); Leave "ch" "c1"]
    "ch" (map_to_list (fold_left (presence_spec_step "ch")
      [Join "ch" "c1" (mkClientInfo "c1" "u" "" ""); Join "ch" "c2" (mkClientInfo "c2" "u" "" ""); Leave "ch" "c1"] ∅))).
  reflexivity.
Defined.
