(* ===== verification/Node.v ===== *)
(** [server/deliverer/node.go]: subscriptions of the node at its broker, and
    the registry of nodes.  The broker is outside: whether it accepts a call is
    an argument of the step. *)

From S2P Require Import Prelude NestedMap Hub Codes.

(** ** Subscriptions

    [addSubscription] and [removeSubscription] run under the channel's lock,
    and so does the job that [removeSubscription] hands to the dissolver,
    which runs every job until it returns nil.  [jobs] are the channels of the
    jobs not finished yet.  The node is not shut down: [Shutdown] closes the
    dissolver, after which [Submit] fails and its error is dropped (node.go:495). *)

Record Node := mkNode {
  hub : Hub;
  broker_subs : gset string;
  jobs : list string
}.

Definition newNode : Node := mkNode newHub ∅ [].

(** [accepts] is whether [broker.Subscribe] returns nil. *)
Definition addSubscription (ch : string) (c : Client) (accepts : bool) (n : Node) : outcome string Node :=
  let '(h, first) := Hub_addSub ch c n.(hub) in
  if (first : bool) then
    if accepts then Ok (mkNode h ({[ch]} ∪ n.(broker_subs)) n.(jobs))
    else Err "broker.Subscribe"
  else Ok (mkNode h n.(broker_subs) n.(jobs)).

(** The state after [addSubscription] returned, with or without an error: a
    refused subscription is taken back from the hub. *)
Definition addSubscription_state (ch : string) (c : Client) (accepts : bool) (n : Node) : Node :=
  match addSubscription ch c accepts n with
  | Ok n' => n'
  | _ => mkNode (fst (Hub_removeSub ch c (fst (Hub_addSub ch c n.(hub))))) n.(broker_subs) n.(jobs)
  end.

Definition removeSubscription (ch : string) (c : Client) (n : Node) : Node :=
  let '(h, empty) := Hub_removeSub ch c n.(hub) in
  mkNode h n.(broker_subs) (if (empty : bool) then n.(jobs) ++ [ch] else n.(jobs)).

(** One run of the job of [ch]: it unsubscribes when nobody is left, and runs
    again later when the broker refuses ([accepts = false]). *)
Definition unsubscribe_job (ch : string) (rest : list string) (accepts : bool) (n : Node) : Node :=
  if Hub_NumSubscribers ch n.(hub) =? 0 then
    if accepts then mkNode n.(hub) (n.(broker_subs) ∖ {[ch]}) rest else n
  else mkNode n.(hub) n.(broker_subs) rest.

Inductive node_step : Node -> Node -> Prop :=
| ns_add n ch c accepts : node_step n (addSubscription_state ch c accepts n)
| ns_remove n ch c : node_step n (removeSubscription ch c n)
| ns_job n ch l1 l2 accepts :
    n.(jobs) = l1 ++ ch :: l2 -> node_step n (unsubscribe_job ch (l1 ++ l2) accepts n)
| ns_client n c connect :
    node_step n (mkNode (if connect : bool then Hub_add c n.(hub) else Hub_remove c n.(hub))
                   n.(broker_subs) n.(jobs)).

Definition node_reachable (n : Node) : Prop := rtc node_step newNode n.

(** Subscriptions of the hub: the parts of [hub_rel] that channels need. *)
Definition subs_rel (h : Hub) (subs : subShard) : Prop :=
  length h.(subShards) = numHubShards /\ nest_inv subs /\
  forall i, i < numHubShards -> sub_shard i h = shard_part shard_index i subs.

Lemma subs_rel_new : subs_rel newHub ∅.
Proof.
  destruct hub_rel_new as [_ ? _ _ ?]. split; [done|]. split; [apply nest_inv_empty|done].
Qed.

Lemma subs_rel_NumSubscribers h subs ch :
  subs_rel h subs -> Hub_NumSubscribers ch h = size (nest_get ch subs).
Proof.
  intros (_ & _ & Hs). unfold Hub_NumSubscribers, subShard_NumSubscribers, nest_get.
  rewrite Hs by apply shard_index_lt. rewrite shard_part_lookup, decide_True by done.
  destruct (subs !! ch); simpl; by rewrite ?map_size_empty.
Qed.

Lemma subs_rel_addSub h subs ch c :
  subs_rel h subs ->
  subs_rel (fst (Hub_addSub ch c h)) (nest_add ch c.(ID) c subs) /\
  snd (Hub_addSub ch c h) = (Hub_NumSubscribers ch h =? 0).
Proof.
  intros Hr. pose proof (subs_rel_NumSubscribers h subs ch Hr) as Hnum. destruct Hr as (Hl & Hn & Hs).
  pose proof (shard_index_lt ch) as Hlt. unfold Hub_addSub, subShard_addSub. simpl. split; [split; [|split]|].
  - simpl. by rewrite length_insert.
  - by apply nest_inv_add.
  - intros i Hi. rewrite sub_shard_insert by done. rewrite shard_nest_add. case_decide; rewrite ?Hs by done; by subst.
  - rewrite Hnum, Hs by done. rewrite shard_part_lookup, decide_True by done.
    pose proof (nest_lookup_get ch subs Hn) as Hg. destruct (subs !! ch) as [m|] eqn:E; symmetry.
    + apply Nat.eqb_neq. rewrite map_size_non_empty_iff. intros H. by apply Hg in H.
    + apply Nat.eqb_eq. apply map_size_empty_iff. by apply Hg.
Qed.

Lemma subs_rel_removeSub h subs ch c :
  subs_rel h subs ->
  subs_rel (fst (Hub_removeSub ch c h)) (fst (nest_remove ch c.(ID) subs)) /\
  snd (Hub_removeSub ch c h) = snd (nest_remove ch c.(ID) subs).
Proof.
  intros (Hl & Hn & Hs). pose proof (shard_index_lt ch) as Hlt.
  unfold Hub_removeSub, subShard_removeSub. rewrite Hs by done. rewrite shard_nest_remove. simpl.
  split; [split; [|split]|done].
  - simpl. by rewrite length_insert.
  - by apply nest_inv_remove.
  - intros i Hi. rewrite sub_shard_insert by done. case_decide; [by subst|].
    rewrite Hs by done. by rewrite shard_nest_remove_other.
Qed.

(** A channel with subscribers is subscribed at the broker; a channel that is
    subscribed there without need has a job waiting. *)
Definition node_inv (n : Node) : Prop :=
  exists subs, subs_rel n.(hub) subs /\
    forall ch, (nest_get ch subs <> ∅ -> ch ∈ n.(broker_subs)) /\
               (ch ∈ n.(broker_subs) -> nest_get ch subs = ∅ -> ch ∈ n.(jobs)).

(** Taking back a subscription just made leaves the channel as it was, when it
    was new. *)
Lemma nest_remove_added ch ch' u (c : Client) subs :
  nest_get ch subs = ∅ ->
  nest_get ch' (fst (nest_remove ch u (nest_add ch u c subs))) = nest_get ch' subs.
Proof.
  intros He. rewrite nest_get_remove, !nest_get_add. rewrite (decide_True (P := ch = ch)) by done.
  case_decide; [|done]. subst. rewrite He. by rewrite delete_insert_id by apply lookup_empty.
Qed.

Lemma node_inv_add n ch c accepts : node_inv n -> node_inv (addSubscription_state ch c accepts n).
Proof.
  intros (subs & Hr & Hb). destruct (subs_rel_addSub _ _ ch c Hr) as [Hr' Hf].
  rewrite (subs_rel_NumSubscribers _ _ ch Hr) in Hf.
  unfold addSubscription_state, addSubscription. destruct (Hub_addSub ch c (hub n)) as [h first]. simpl in *.
  assert (first = bool_decide (nest_get ch subs = ∅)) as ->.
  { rewrite Hf. case_bool_decide as He; [apply Nat.eqb_eq, map_size_empty_iff; done|].
    apply Nat.eqb_neq. by rewrite map_size_empty_iff. }
  case_bool_decide as He; [destruct accepts|].
  - exists (nest_add ch (ID c) c subs). split; [done|]. simpl. intros ch'. rewrite nest_get_add.
    case_decide; subst; [split; [set_solver|]|].
    + intros _ E. by apply insert_non_empty in E.
    + destruct (Hb ch'). split; set_solver.
  - destruct (subs_rel_removeSub _ _ ch c Hr') as [Hr2 _]. simpl. eexists. split; [exact Hr2|].
    intros ch'. rewrite nest_remove_added by done. apply Hb.
  - exists (nest_add ch (ID c) c subs). split; [done|]. simpl. intros ch'. rewrite nest_get_add.
    case_decide; subst; [|apply Hb]. split; [intros _; by apply Hb|].
    intros _ E. by apply insert_non_empty in E.
Qed.

Lemma node_inv_remove n ch c : node_inv n -> node_inv (removeSubscription ch c n).
Proof.
  intros (subs & Hr & Hb). destruct (subs_rel_removeSub _ _ ch c Hr) as [Hr' Hf].
  unfold removeSubscription. destruct (Hub_removeSub ch c (hub n)) as [h empty]. simpl in *.
  exists (fst (nest_remove ch (ID c) subs)). split; [done|]. intros ch'. simpl.
  destruct (Hb ch') as [Hb1 Hb2]. rewrite nest_get_remove. case_decide as Hd; [subst ch'|].
  - split.
    + intros Hne. apply Hb1. intros E. rewrite E, delete_empty in Hne. done.
    + intros Hin He. destruct empty; [set_solver|].
      destruct (nest_get ch subs !! ID c) as [x|] eqn:Hx.
      * pose proof (nest_remove_empty ch (ID c) subs (proj1 (proj2 Hr))) as Hflag.
        rewrite Hx, <- Hf, nest_get_remove in Hflag. case_decide; [|done]. rewrite He in Hflag.
        specialize (Hflag (ex_intro _ x eq_refl)). by rewrite bool_decide_true in Hflag.
      * rewrite delete_id in He by done. by apply Hb2.
  - split; [done|]. intros ? ?. destruct empty; [set_solver|by apply Hb2].
Qed.

Lemma node_inv_job n ch l1 l2 accepts :
  n.(jobs) = l1 ++ ch :: l2 -> node_inv n -> node_inv (unsubscribe_job ch (l1 ++ l2) accepts n).
Proof.
  intros Hj (subs & Hr & Hb). unfold unsubscribe_job. rewrite (subs_rel_NumSubscribers _ _ ch Hr).
  assert (forall ch', ch' <> ch -> ch' ∈ jobs n -> ch' ∈ l1 ++ l2) as Hrest by (rewrite Hj; set_solver).
  destruct (Nat.eqb_spec (size (nest_get ch subs)) 0) as [He|Hne].
  - apply map_size_empty_iff in He. destruct accepts; [|by exists subs].
    exists subs. split; [done|]. simpl. intros ch'. destruct (Hb ch') as [Hb1 Hb2].
    destruct (decide (ch' = ch)) as [ ->|]; [split; [done|set_solver]|]. split; [set_solver|].
    intros Hin Hempty. apply Hrest; [done|]. apply Hb2; [set_solver|done].
  - rewrite map_size_empty_iff in Hne. exists subs. split; [done|]. simpl. intros ch'.
    destruct (Hb ch') as [Hb1 Hb2]. split; [done|]. intros Hin Hempty.
    apply Hrest; [by intros ->|by apply Hb2].
Qed.

Lemma node_step_inv n n' : node_inv n -> node_step n n' -> node_inv n'.
Proof.
  intros Hi Hs. destruct Hs as [n ch c accepts|n ch c|n ch l1 l2 accepts Hj|n c connect].
  - by apply node_inv_add.
  - by apply node_inv_remove.
  - by apply node_inv_job.
  - destruct Hi as (subs & Hr & Hb). exists subs. split; [|done]. by destruct connect.
Qed.

Lemma node_reachable_inv n : node_reachable n -> node_inv n.
Proof.
  intros Hr. assert (node_inv newNode) as Hi.
  { exists ∅. split; [apply subs_rel_new|]. intros ch. split; set_solver. }
  revert Hi. induction Hr; eauto using node_step_inv.
Qed.

(** C16: however subscriptions, unsubscriptions, broker failures and the
    delayed unsubscribe jobs interleave, a channel with a local subscriber is
    subscribed at the broker, so its publications arrive, and a channel that
    the broker still serves without a subscriber has an unsubscribe job
    waiting, so no broker subscription is leaked. *)
Theorem node_broker_subscriptions n ch :
  node_reachable n ->
  (0 < Hub_NumSubscribers ch n.(hub) -> ch ∈ n.(broker_subs)) /\
  (ch ∈ n.(broker_subs) -> Hub_NumSubscribers ch n.(hub) = 0 -> ch ∈ n.(jobs)).
Proof.
  intros Hr. apply node_reachable_inv in Hr as (subs & Hrel & Hb).
  rewrite (subs_rel_NumSubscribers _ _ ch Hrel). destruct (Hb ch) as [H1 H2]. split.
  - intros Hpos. apply H1. apply map_size_non_empty_iff. lia.
  - rewrite map_size_empty_iff. exact H2.
Qed.

(** Two clients subscribe, one leaves. *)
Definition sample_node : Node :=
  removeSubscription "ch" (mkClient "c1" "u")
    (addSubscription_state "ch" (mkClient "c2" "v") true
      (addSubscription_state "ch" (mkClient "c1" "u") true newNode)).

Lemma sample_node_reachable : node_reachable sample_node.
Proof.
  eapply rtc_l; [apply (ns_add newNode "ch" (mkClient "c1" "u") true)|].
  eapply rtc_l; [apply (ns_add _ "ch" (mkClient "c2" "v") true)|].
  eapply rtc_l; [apply (ns_remove _ "ch" (mkClient "c1" "u"))|]. apply rtc_refl.
Qed.

Lemma node_broker_subscriptions_witness :
  Hub_NumSubscribers "ch" sample_node.(hub) = 1 /\ "ch" ∈ sample_node.(broker_subs).
Proof.
  split; [vm_compute; reflexivity|].
  apply (node_broker_subscriptions sample_node "ch" sample_node_reachable). vm_compute. lia.
Defined.

(** ** The registry of nodes *)

Module Registry.

Record NodeMsg := mkNodeMsg {
  Uid : string;
  nm_Name : string;
  nm_Version : string;
  nm_NumClients : Z;
  nm_NumUsers : Z;
  nm_NumChannels : Z;
  nm_Uptime : Z;
  nm_Data : string;
  nm_NumSubs : Z;
  Metrics : option (gmap string Z)
}.

Record nodeRegistry := mkRegistry {
  currentUID : string;
  nodes : gmap string NodeMsg;
  updates : gmap string Z
}.

Definition newNodeRegistry (uid : string) : nodeRegistry := mkRegistry uid ∅ ∅.

(** [add] at time [now] (seconds): a node without metrics keeps those it sent
    before; the result says whether the node is new. *)
Definition nodeRegistry_add (now : Z) (info : NodeMsg) (r : nodeRegistry) : nodeRegistry * bool :=
  let put i := mkRegistry r.(currentUID) (<[info.(Uid):=i]> r.(nodes)) (<[info.(Uid):=now]> r.(updates)) in
  match r.(nodes) !! info.(Uid) with
  | Some node =>
    match info.(Metrics) with
    | Some _ => (put info, false)
    | None =>
      (put (mkNodeMsg info.(Uid) info.(nm_Name) info.(nm_Version) info.(nm_NumClients) info.(nm_NumUsers)
              info.(nm_NumChannels) info.(nm_Uptime) info.(nm_Data) info.(nm_NumSubs) node.(Metrics)), false)
    end
  | None => (put info, true)
  end.

Definition nodeRegistry_remove (uid : string) (r : nodeRegistry) : nodeRegistry :=
  mkRegistry r.(currentUID) (delete uid r.(nodes)) (delete uid r.(updates)).

(** The body of the loop of [clean]. *)
Definition clean_one (now delay : Z) (r : nodeRegistry) (uid : string) : nodeRegistry :=
  if bool_decide (uid = r.(currentUID)) then r
  else match r.(updates) !! uid with
  | None => mkRegistry r.(currentUID) (delete uid r.(nodes)) r.(updates)
  | Some updated => if (delay <? now - updated)%Z then nodeRegistry_remove uid r else r
  end.

(** [clean] visits the keys in an unspecified order. *)
Definition nodeRegistry_clean (now delay : Z) (order : list string) (r : nodeRegistry) : nodeRegistry :=
  fold_left (clean_one now delay) order r.

(** A node survives a clean: it is the current one, or was heard of recently. *)
Definition alive (now delay : Z) (r : nodeRegistry) (uid : string) : bool :=
  bool_decide (uid = r.(currentUID)) ||
  match r.(updates) !! uid with Some updated => negb (delay <? now - updated)%Z | None => false end.

Lemma clean_one_spec now delay r uid k :
  (clean_one now delay r uid).(currentUID) = r.(currentUID) /\
  (clean_one now delay r uid).(nodes) !! k =
    (if decide (k = uid) then if alive now delay r uid then r.(nodes) !! k else None else r.(nodes) !! k) /\
  (k <> uid -> (clean_one now delay r uid).(updates) !! k = r.(updates) !! k).
Proof.
  unfold clean_one, alive. case_bool_decide as Hc; simpl; [by case_decide|].
  destruct (updates r !! uid) as [u|] eqn:Hu; simpl.
  - destruct (delay <? now - u)%Z; simpl; [|by case_decide]. split; [done|]. split.
    + rewrite lookup_delete. repeat case_decide; congruence.
    + intros ?. by rewrite lookup_delete_ne.
  - split; [done|]. split; [|done]. rewrite lookup_delete. repeat case_decide; congruence.
Qed.

Lemma alive_clean_one now delay r uid k :
  k <> uid -> alive now delay (clean_one now delay r uid) k = alive now delay r k.
Proof.
  intros Hne. destruct (clean_one_spec now delay r uid k) as (Hc & _ & Hu). unfold alive.
  by rewrite Hc, Hu.
Qed.

Lemma clean_spec now delay order r k :
  NoDup order ->
  (nodeRegistry_clean now delay order r).(nodes) !! k =
    if decide (k ∈ order) then if alive now delay r k then r.(nodes) !! k else None else r.(nodes) !! k.
Proof.
  revert r. unfold nodeRegistry_clean. induction order as [|uid order IH]; intros r Hnd; simpl.
  - done.
  - apply NoDup_cons in Hnd as [Hu Hnd]. rewrite IH by done.
    destruct (clean_one_spec now delay r uid k) as (_ & -> & _).
    destruct (decide (k = uid)) as [ ->|Hne].
    + rewrite (decide_False (P := uid ∈ order)) by done. by rewrite decide_True by set_solver.
    + rewrite alive_clean_one by done. destruct (decide (k ∈ order)).
      * by rewrite decide_True by set_solver.
      * by rewrite decide_False by set_solver.
Qed.

End Registry.

(** Cleaning the registry removes exactly the other nodes that were not
    heard of within the delay (or never), in whatever order Go walks the map;
    this node stays; and a node that has just announced itself survives the
    clean that follows. *)
Theorem registry_clean_exact now delay order (r : Registry.nodeRegistry) uid :
  NoDup order -> (forall k, k ∈ order <-> is_Some (r.(Registry.nodes) !! k)) -> (0 <= delay)%Z ->
  (Registry.nodeRegistry_clean now delay order r).(Registry.nodes) !! uid =
    (if Registry.alive now delay r uid then r.(Registry.nodes) !! uid else None) /\
  Registry.alive now delay r r.(Registry.currentUID) = true /\
  (forall info, Registry.alive now delay (fst (Registry.nodeRegistry_add now info r)) info.(Registry.Uid) = true).
Proof.
  intros Hnd Hord Hd. split; [|split].
  - rewrite Registry.clean_spec by done. case_decide as Hin; [done|]. rewrite Hord in Hin.
    destruct (Registry.nodes r !! uid) eqn:E; [by destruct Hin; eauto|]. by case_match.
  - unfold Registry.alive. by rewrite bool_decide_true.
  - intros info. unfold Registry.alive. apply orb_true_iff. right.
    assert (Registry.updates (fst (Registry.nodeRegistry_add now info r)) !! Registry.Uid info = Some now) as ->.
    { unfold Registry.nodeRegistry_add. repeat case_match; simpl; by rewrite lookup_insert_eq. }
    lia.
Qed.

Definition sample_registry : Registry.nodeRegistry :=
  fst (Registry.nodeRegistry_add 100 (Registry.mkNodeMsg "b" "" "" 0 0 0 0 "" 0 None)
    (fst (Registry.nodeRegistry_add 90 (Registry.mkNodeMsg "a" "" "" 0 0 0 0 "" 0 None)
      (Registry.newNodeRegistry "me")))).

Lemma registry_clean_exact_witness :
  (Registry.nodeRegistry_clean 105 10 (map_to_list sample_registry.(Registry.nodes)).*1
     sample_registry).(Registry.nodes) !! "a" = None.
Proof.
  destruct (registry_clean_exact 105 10 (map_to_list sample_registry.(Registry.nodes)).*1
              sample_registry "a") as [H _].
  - apply NoDup_fst_map_to_list.
  - intros k. apply elem_of_map_keys.
  - lia.
  - rewrite H. vm_compute. reflexivity.
Defined.
