(* ===== verification/Control.v ===== *)
(** Server-side subscribe, unsubscribe, disconnect and refresh of
    [server/deliverer/node.go], with the options of [options.go]: what a node
    does itself, what it publishes for the other nodes, and what a node does
    with a control command it receives ([handleControl]).

    The protobuf codec is outside: a command is the decoded message. *)

From S2P Require Import Prelude Codes Node.

(** ** Options *)

Record SubscribeOptions := mkSubscribeOptions {
  so_ExpireAt : Z;
  so_ChannelInfo : string;
  so_EmitPresence : bool;
  so_EmitJoinLeave : bool;
  so_PushJoinLeave : bool;
  so_Data : string;
  so_clientID : string;
  so_Source : Z;
  so_Role : Z
}.

Definition SubscribeOption : Type := SubscribeOptions -> SubscribeOptions.

Definition WithExpireAt (e : Z) : SubscribeOption := fun o =>
  mkSubscribeOptions e o.(so_ChannelInfo) o.(so_EmitPresence) o.(so_EmitJoinLeave)
    o.(so_PushJoinLeave) o.(so_Data) o.(so_clientID) o.(so_Source) o.(so_Role).
Definition WithChannelInfo (i : string) : SubscribeOption := fun o =>
  mkSubscribeOptions o.(so_ExpireAt) i o.(so_EmitPresence) o.(so_EmitJoinLeave)
    o.(so_PushJoinLeave) o.(so_Data) o.(so_clientID) o.(so_Source) o.(so_Role).
Definition WithEmitPresence (b : bool) : SubscribeOption := fun o =>
  mkSubscribeOptions o.(so_ExpireAt) o.(so_ChannelInfo) b o.(so_EmitJoinLeave)
    o.(so_PushJoinLeave) o.(so_Data) o.(so_clientID) o.(so_Source) o.(so_Role).
Definition WithEmitJoinLeave (b : bool) : SubscribeOption := fun o =>
  mkSubscribeOptions o.(so_ExpireAt) o.(so_ChannelInfo) o.(so_EmitPresence) b
    o.(so_PushJoinLeave) o.(so_Data) o.(so_clientID) o.(so_Source) o.(so_Role).
Definition WithPushJoinLeave (b : bool) : SubscribeOption := fun o =>
  mkSubscribeOptions o.(so_ExpireAt) o.(so_ChannelInfo) o.(so_EmitPresence) o.(so_EmitJoinLeave)
    b o.(so_Data) o.(so_clientID) o.(so_Source) o.(so_Role).
Definition WithSubscribeClient (c : string) : SubscribeOption := fun o =>
  mkSubscribeOptions o.(so_ExpireAt) o.(so_ChannelInfo) o.(so_EmitPresence) o.(so_EmitJoinLeave)
    o.(so_PushJoinLeave) o.(so_Data) c o.(so_Source) o.(so_Role).
Definition WithSubscribeData (d : string) : SubscribeOption := fun o =>
  mkSubscribeOptions o.(so_ExpireAt) o.(so_ChannelInfo) o.(so_EmitPresence) o.(so_EmitJoinLeave)
    o.(so_PushJoinLeave) d o.(so_clientID) o.(so_Source) o.(so_Role).
Definition WithSubscribeSource (s : Z) : SubscribeOption := fun o =>
  mkSubscribeOptions o.(so_ExpireAt) o.(so_ChannelInfo) o.(so_EmitPresence) o.(so_EmitJoinLeave)
    o.(so_PushJoinLeave) o.(so_Data) o.(so_clientID) s o.(so_Role).

Record RefreshOptions := mkRefreshOptions {
  ro_Expired : bool;
  ro_ExpireAt : Z;
  ro_Info : string;
  ro_clientID : string;
  ro_sessionID : string
}.

Definition RefreshOption : Type := RefreshOptions -> RefreshOptions.

Definition WithRefreshExpired (b : bool) : RefreshOption := fun o =>
  mkRefreshOptions b o.(ro_ExpireAt) o.(ro_Info) o.(ro_clientID) o.(ro_sessionID).
Definition WithRefreshExpireAt (e : Z) : RefreshOption := fun o =>
  mkRefreshOptions o.(ro_Expired) e o.(ro_Info) o.(ro_clientID) o.(ro_sessionID).
Definition WithRefreshInfo (i : string) : RefreshOption := fun o =>
  mkRefreshOptions o.(ro_Expired) o.(ro_ExpireAt) i o.(ro_clientID) o.(ro_sessionID).

Record UnsubscribeOptions := mkUnsubscribeOptions {
  uo_clientID : string;
  uo_sessionID : string;
  uo_unsubscribe : option Unsubscribe
}.

Record DisconnectOptions := mkDisconnectOptions {
  do_Disconnect : option Disconnect;
  do_ClientWhitelist : list string;
  do_clientID : string;
  do_sessionID : string
}.

(** [for _, opt := range opts { opt(o) }]. *)
Definition apply_opts {O} (opts : list (O -> O)) (o : O) : O := fold_left (fun o f => f o) opts o.

Definition zero_subscribe : SubscribeOptions := mkSubscribeOptions 0 "" false false false "" "" 0 0.
Definition zero_refresh : RefreshOptions := mkRefreshOptions false 0 "" "" "".
Definition zero_unsubscribe : UnsubscribeOptions := mkUnsubscribeOptions "" "" None.
Definition zero_disconnect : DisconnectOptions := mkDisconnectOptions None [] "" "".

(** ** Calls of the hub and control messages *)

(** A call that reaches the connections of a user; for [subscribe] and
    [refresh], the options as each client will see them. *)
Inductive hub_call : Type :=
| CallSubscribe (user ch client : string) (opts : SubscribeOptions)
| CallUnsubscribe (user ch : string) (u : Unsubscribe) (client : string)
| CallDisconnect (user : string) (d : Disconnect) (client : string) (whitelist : list string)
| CallRefresh (user client : string) (opts : RefreshOptions).

Record SubscribeMsg := mkSubscribeMsg {
  sm_User : string; sm_Channel : string; sm_EmitPresence : bool; sm_EmitJoinLeave : bool;
  sm_PushJoinLeave : bool; sm_ChannelInfo : string; sm_ExpireAt : Z; sm_Client : string;
  sm_Data : string; sm_Source : Z
}.
Record UnsubscribeMsg := mkUnsubscribeMsg {
  um_User : string; um_Channel : string; um_Code : Z; um_Reason : string; um_Client : string;
  um_Session : string
}.
Record DisconnectMsg := mkDisconnectMsg {
  dm_User : string; dm_Whitelist : list string; dm_Code : Z; dm_Reason : string; dm_Client : string
}.
Record RefreshMsg := mkRefreshMsg {
  rm_User : string; rm_Expired : bool; rm_ExpireAt : Z; rm_Client : string; rm_Session : string;
  rm_Info : string
}.

Record Command := mkCommand {
  cmd_Uid : string;
  cmd_Node : option Registry.NodeMsg;
  cmd_Shutdown : bool;
  cmd_Unsubscribe : option UnsubscribeMsg;
  cmd_Subscribe : option SubscribeMsg;
  cmd_Disconnect : option DisconnectMsg;
  cmd_Refresh : option RefreshMsg
}.

Inductive control_action : Type :=
| ActNode (node : Registry.NodeMsg)
| ActShutdown (uid : string)
| ActCall (c : hub_call)
| ActNone.

Definition u8 (z : Z) : Z := (z mod 256)%Z.

(** [handleControl] after decoding, on the node [n_uid]. *)
Definition handleControl (n_uid : string) (cmd : Command) : control_action :=
  if bool_decide (cmd.(cmd_Uid) = n_uid) then ActNone
  else match cmd.(cmd_Node) with
  | Some node => ActNode node
  | None => if cmd.(cmd_Shutdown) then ActShutdown cmd.(cmd_Uid)
  else match cmd.(cmd_Unsubscribe) with
  | Some m => ActCall (CallUnsubscribe m.(um_User) m.(um_Channel)
                (mkUnsubscribe m.(um_Code) m.(um_Reason)) m.(um_Client))
  | None => match cmd.(cmd_Subscribe) with
  | Some m => ActCall (CallSubscribe m.(sm_User) m.(sm_Channel) m.(sm_Client)
                (apply_opts [WithExpireAt m.(sm_ExpireAt); WithChannelInfo m.(sm_ChannelInfo);
                   WithEmitPresence m.(sm_EmitPresence); WithEmitJoinLeave m.(sm_EmitJoinLeave);
                   WithPushJoinLeave m.(sm_PushJoinLeave); WithSubscribeData m.(sm_Data);
                   WithSubscribeSource (u8 m.(sm_Source))] zero_subscribe))
  | None => match cmd.(cmd_Disconnect) with
  | Some m => ActCall (CallDisconnect m.(dm_User) (mkDisconnect m.(dm_Code) m.(dm_Reason))
                m.(dm_Client) m.(dm_Whitelist))
  | None => match cmd.(cmd_Refresh) with
  | Some m => ActCall (CallRefresh m.(rm_User) m.(rm_Client)
                (apply_opts [WithRefreshExpired m.(rm_Expired); WithRefreshExpireAt m.(rm_ExpireAt);
                   WithRefreshInfo m.(rm_Info)] zero_refresh))
  | None => ActNone
  end end end end end.

(** ** What a node publishes *)

Definition pubSubscribe (uid user ch : string) (o : SubscribeOptions) : Command :=
  mkCommand uid None false None
    (Some (mkSubscribeMsg user ch o.(so_EmitPresence) o.(so_EmitJoinLeave) o.(so_PushJoinLeave)
             o.(so_ChannelInfo) o.(so_ExpireAt) o.(so_clientID) o.(so_Data) o.(so_Source))) None None.

Definition pubRefresh (uid user : string) (o : RefreshOptions) : Command :=
  mkCommand uid None false None None None
    (Some (mkRefreshMsg user o.(ro_Expired) o.(ro_ExpireAt) o.(ro_clientID) o.(ro_sessionID) o.(ro_Info))).

Definition pubUnsubscribe (uid user ch : string) (u : Unsubscribe) (clientID sessionID : string) : Command :=
  mkCommand uid None false (Some (mkUnsubscribeMsg user ch u.(ucode) u.(ureason) clientID sessionID))
    None None None.

Definition pubDisconnect (uid user : string) (d : Disconnect) (clientID : string) (whitelist : list string)
    : Command :=
  mkCommand uid None false None None
    (Some (mkDisconnectMsg user whitelist d.(dcode) d.(dreason) clientID)) None.

(** The four server-side operations: the local call, then the command for the
    other nodes (published when the local call returns nil). *)
Definition Node_Subscribe (uid userID channel : string) (opts : list SubscribeOption) : hub_call * Command :=
  let o := apply_opts opts zero_subscribe in
  (CallSubscribe userID channel o.(so_clientID) o, pubSubscribe uid userID channel o).

Definition Node_Unsubscribe (uid userID channel : string) (opts : list (UnsubscribeOptions -> UnsubscribeOptions))
    : hub_call * Command :=
  let o := apply_opts opts zero_unsubscribe in
  let u := default unsubscribeServer o.(uo_unsubscribe) in
  (CallUnsubscribe userID channel u o.(uo_clientID),
   pubUnsubscribe uid userID channel u o.(uo_clientID) o.(uo_sessionID)).

Definition Node_Disconnect (uid userID : string) (opts : list (DisconnectOptions -> DisconnectOptions))
    : hub_call * Command :=
  let o := apply_opts opts zero_disconnect in
  let d := default DisconnectForceNoReconnect o.(do_Disconnect) in
  (CallDisconnect userID d o.(do_clientID) o.(do_ClientWhitelist),
   pubDisconnect uid userID d o.(do_clientID) o.(do_ClientWhitelist)).

Definition Node_Refresh (uid userID : string) (opts : list RefreshOption) : hub_call * Command :=
  let o := apply_opts opts zero_refresh in
  (CallRefresh userID o.(ro_clientID) o, pubRefresh uid userID o).

(** What a node does to its own connections of a user, every other node
    repeats when it receives the published command, while the sender ignores
    its own: unsubscribe and disconnect exactly; refresh and subscribe for the
    same client, but without the client and session inside the options, and
    subscribe without the role, which the command does not carry, so on other
    nodes the client is subscribed with role 0. *)
Theorem control_replay uid other user ch sopts uopts dopts ropts :
  uid <> other ->
  let so := apply_opts sopts zero_subscribe in
  let ro := apply_opts ropts zero_refresh in
  (0 <= so.(so_Source) < 256)%Z ->
  handleControl other (snd (Node_Unsubscribe uid user ch uopts)) = ActCall (fst (Node_Unsubscribe uid user ch uopts)) /\
  handleControl other (snd (Node_Disconnect uid user dopts)) = ActCall (fst (Node_Disconnect uid user dopts)) /\
  handleControl other (snd (Node_Refresh uid user ropts)) =
    ActCall (CallRefresh user ro.(ro_clientID)
      (mkRefreshOptions ro.(ro_Expired) ro.(ro_ExpireAt) ro.(ro_Info) "" "")) /\
  handleControl other (snd (Node_Subscribe uid user ch sopts)) =
    ActCall (CallSubscribe user ch so.(so_clientID)
      (mkSubscribeOptions so.(so_ExpireAt) so.(so_ChannelInfo) so.(so_EmitPresence) so.(so_EmitJoinLeave)
         so.(so_PushJoinLeave) so.(so_Data) "" so.(so_Source) 0)) /\
  handleControl uid (snd (Node_Subscribe uid user ch sopts)) = ActNone.
Proof.
  intros Hne so ro Hsrc. unfold handleControl, Node_Unsubscribe, Node_Disconnect, Node_Refresh, Node_Subscribe.
  cbn [snd fst cmd_Uid pubUnsubscribe pubDisconnect pubRefresh pubSubscribe].
  rewrite !(bool_decide_false (uid = other)) by done. rewrite bool_decide_true by done.
  cbn. fold so ro. unfold u8. rewrite Z.mod_small by done.
  destruct (default unsubscribeServer _), (default DisconnectForceNoReconnect _). done.
Qed.

Lemma control_replay_witness :
  handleControl "n2" (snd (Node_Disconnect "n1" "u" [])) =
    ActCall (CallDisconnect "u" DisconnectForceNoReconnect "" []).
Proof.
  apply (control_replay "n1" "n2" "u" "ch" [WithExpireAt 5] [] [] []); [discriminate|]. vm_compute.
  split; [discriminate|reflexivity].
Defined.
