(* ===== verification/Connection.v ===== *)
(** [server/deliverer/client.go]: one client connection, the commands it
    sends, its timers and its subscriptions, together with the node it lives
    on.

    Methods that take the client's locks for their whole effect are atomic
    steps.  Handlers registered by the application are arguments, as are the
    clock, the limits of the configuration and what the broker, the presence
    manager and the message writer answer.  A goroutine [go c.close(d)] is
    recorded in [closing]; it runs as a step of its own. *)

From Stdlib Require Import Ascii.
From S2P Require Import Prelude GoStrings Codes NestedMap Hub Presence Node Control.

(** ** Channel flags *)

Definition flagSubscribed : Z := 1.
Definition flagEmitPresence : Z := 2.
Definition flagEmitJoinLeave : Z := 4.
Definition flagPushJoinLeave : Z := 8.
Definition flagServerSide : Z := 16.
Definition flagClientSideRefresh : Z := 32.

Record ChannelContext := mkCtx {
  ctx_info : string;
  ctx_expireAt : Z;
  ctx_positionCheckTime : Z;
  ctx_flags : Z;
  ctx_role : Z;
  ctx_Source : Z
}.

Definition zero_ctx : ChannelContext := mkCtx "" 0 0 0 0 0.

Definition channelHasFlag (flags flag : Z) : bool := negb (Z.land flags flag =? 0)%Z.

Definition flag_if (b : bool) (flag : Z) : Z := if b then flag else 0.

(** ** The connection *)

Inductive status : Type := statusConnecting | statusConnected | statusClosed.

#[export] Instance status_eq_dec : EqDecision status.
Proof. solve_decision. Defined.

Inductive timer_op : Type := timerOpNone | timerOpStale | timerOpPresence | timerOpExpire | timerOpPing.

(** Times are Unix nanoseconds; 0 is "not scheduled". *)
Record Timers := mkTimers {
  timerOp : timer_op;
  timer : option Z;
  nextPresence : Z;
  nextExpire : Z;
  nextPing : Z;
  lastPing : Z
}.

Record Conn := mkConn {
  uid : string;
  user : string;
  info : string;
  exp : Z;
  channels : gmap string ChannelContext;
  authenticated : bool;
  clientSideRefresh : bool;
  cstatus : status;
  timers : Timers;
  pingInterval : Z;
  unusable : bool
}.

Definition no_timers : Timers := mkTimers timerOpNone None 0 0 0 0.

(** [NewClient]: [staleCloseDelay] arms the stale timer. *)
Definition NewClient (id : string) (now staleCloseDelay : Z) : Conn :=
  mkConn id "" "" 0 ∅ false false statusConnecting
    (if (0 <? staleCloseDelay)%Z then mkTimers timerOpStale (Some (now + staleCloseDelay)%Z) 0 0 0 0
     else no_timers) 0 false.

Definition set_channels (m : gmap string ChannelContext) (c : Conn) : Conn :=
  mkConn c.(uid) c.(user) c.(info) c.(exp) m c.(authenticated) c.(clientSideRefresh) c.(cstatus)
    c.(timers) c.(pingInterval) c.(unusable).
Definition set_status (s : status) (c : Conn) : Conn :=
  mkConn c.(uid) c.(user) c.(info) c.(exp) c.(channels) c.(authenticated) c.(clientSideRefresh) s
    c.(timers) c.(pingInterval) c.(unusable).
Definition set_timers (t : Timers) (c : Conn) : Conn :=
  mkConn c.(uid) c.(user) c.(info) c.(exp) c.(channels) c.(authenticated) c.(clientSideRefresh) c.(cstatus)
    t c.(pingInterval) c.(unusable).
Definition set_identity (u i : string) (e : Z) (c : Conn) : Conn :=
  mkConn c.(uid) u i e c.(channels) c.(authenticated) c.(clientSideRefresh) c.(cstatus)
    c.(timers) c.(pingInterval) c.(unusable).
Definition set_authenticated (b : bool) (c : Conn) : Conn :=
  mkConn c.(uid) c.(user) c.(info) c.(exp) c.(channels) b c.(clientSideRefresh) c.(cstatus)
    c.(timers) c.(pingInterval) c.(unusable).
Definition set_refresh (b : bool) (p : Z) (c : Conn) : Conn :=
  mkConn c.(uid) c.(user) c.(info) c.(exp) c.(channels) c.(authenticated) b c.(cstatus)
    c.(timers) p c.(unusable).
Definition set_unusable (b : bool) (c : Conn) : Conn :=
  mkConn c.(uid) c.(user) c.(info) c.(exp) c.(channels) c.(authenticated) c.(clientSideRefresh) c.(cstatus)
    c.(timers) c.(pingInterval) b.

(** What the node's hub sees of the connection. *)
Definition client_of (c : Conn) : Client := mkClient c.(uid) c.(user).

(** What is written to the transport. *)
Inductive push : Type :=
| PushReply (channel : string) (kind : string)
| PushError (channel : string) (e : Error)
| PushRefresh (expires : bool) (ttl : Z)
| PushSubscribe (channel : string)
| PushUnsubscribe (channel : string) (u : Unsubscribe)
| PushDisconnect (d : Disconnect)
| PushPublication (channel data : string)
| PushJoin (channel data : string)
| PushLeave (channel data : string)
| PushPing.

(** Application handlers called. *)
Inductive client_event : Type :=
| EvUnsubscribe (channel : string) (serverSide : bool) (u : Unsubscribe)
| EvDisconnect (d : Disconnect)
| EvConnect
| EvPublish (channel data : string) (role : Z)
| EvMessage (data : string)
| EvAlive.

Record world := mkWorld {
  cl : Conn;
  nd : Node;
  pres : gmap string (gmap string ClientInfo);
  sent : list push;
  closing : list Disconnect;
  events : list client_event;
  transport_closed : option Disconnect
}.

Definition with_cl (c : Conn) (w : world) : world :=
  mkWorld c w.(nd) w.(pres) w.(sent) w.(closing) w.(events) w.(transport_closed).
Definition with_nd (n : Node) (w : world) : world :=
  mkWorld w.(cl) n w.(pres) w.(sent) w.(closing) w.(events) w.(transport_closed).
Definition with_pres (p : gmap string (gmap string ClientInfo)) (w : world) : world :=
  mkWorld w.(cl) w.(nd) p w.(sent) w.(closing) w.(events) w.(transport_closed).
Definition emit (ev : client_event) (w : world) : world :=
  mkWorld w.(cl) w.(nd) w.(pres) w.(sent) w.(closing) (w.(events) ++ [ev]) w.(transport_closed).
(** [go c.close(d)]. *)
Definition go_close (d : Disconnect) (w : world) : world :=
  mkWorld w.(cl) w.(nd) w.(pres) w.(sent) (w.(closing) ++ [d]) w.(events) w.(transport_closed).

Record env := mkEnv {
  now : Z;
  channelMaxLength : Z;
  clientChannelLimit : Z;
  userConnectionLimit : Z;
  clientExpiredCloseDelay : Z;
  clientExpiredSubCloseDelay : Z;
  presenceInterval : Z;
  (** what [messageWriter.enqueue], [broker.Subscribe] and
      [presenceManager.AddPresence] answer *)
  write_result : option Disconnect;
  broker_result : option go_error;
  presence_result : option go_error
}.

Definition second : Z := 1000000000.
Definition unix (e : env) : Z := (e.(now) / second)%Z.

Section Client.
Context (e : env).

(** ** Writing *)

(** [transportEnqueue]: [false] when it returns [io.EOF]. *)
Definition transportEnqueue (p : push) (w : world) : world * bool :=
  match e.(write_result) with
  | None => (mkWorld w.(cl) w.(nd) w.(pres) (w.(sent) ++ [p]) w.(closing) w.(events) w.(transport_closed), true)
  | Some d => (go_close d w, false)
  end.

(** A reply of a command; the encoder of the protocol does not fail here. *)
Definition writeEncodedCommandReply (p : push) (w : world) : world := fst (transportEnqueue p w).

Definition writeError (channel : string) (err : Error) (w : world) : world :=
  writeEncodedCommandReply (PushError channel err) w.

Definition writeDisconnectOrErrorFlush (channel : string) (err : go_error) (w : world) : world :=
  match err with
  | EDisconnect d => go_close d w
  | _ => writeError channel (toClientErr err) w
  end.

(** ** Timers *)

(** The operation and time [scheduleNextTimer] picks; [timerOpNone] when
    [needTimer] stays false. *)
Definition next_timer (t : Timers) : timer_op * Z :=
  let s0 := if (0 <? t.(nextExpire))%Z then (timerOpExpire, t.(nextExpire)) else (timerOpNone, 0%Z) in
  let s1 := if (0 <? t.(nextPresence))%Z && ((snd s0 =? 0)%Z || (t.(nextPresence) <? snd s0)%Z)
            then (timerOpPresence, t.(nextPresence)) else s0 in
  if (0 <? t.(nextPing))%Z && ((snd s1 =? 0)%Z || (t.(nextPing) <? snd s1)%Z)
  then (timerOpPing, t.(nextPing)) else s1.

Definition scheduleNextTimer (c : Conn) : Conn :=
  match c.(cstatus) with
  | statusClosed => c
  | _ =>
    let t := c.(timers) in
    match next_timer t with
    | (timerOpNone, _) =>
      set_timers (mkTimers t.(timerOp) None t.(nextPresence) t.(nextExpire) t.(nextPing) t.(lastPing)) c
    | (op, at_) =>
      set_timers (mkTimers op (Some at_) t.(nextPresence) t.(nextExpire) t.(nextPing) t.(lastPing)) c
    end
  end.

Definition stopTimer (c : Conn) : Conn :=
  let t := c.(timers) in
  set_timers (mkTimers t.(timerOp) None t.(nextPresence) t.(nextExpire) t.(nextPing) t.(lastPing)) c.

(** [delay] is the random first delay, or [pingInterval]. *)
Definition addPingUpdate (delay : Z) (c : Conn) : Conn :=
  let t := c.(timers) in
  scheduleNextTimer (set_timers (mkTimers t.(timerOp) t.(timer) t.(nextPresence) t.(nextExpire)
    (e.(now) + delay)%Z t.(lastPing)) c).

Definition addPresenceUpdate (c : Conn) : Conn :=
  let t := c.(timers) in
  scheduleNextTimer (set_timers (mkTimers t.(timerOp) t.(timer) (e.(now) + e.(presenceInterval))%Z
    t.(nextExpire) t.(nextPing) t.(lastPing)) c).

Definition addExpireUpdate (after : Z) (c : Conn) : Conn :=
  let t := c.(timers) in
  scheduleNextTimer (set_timers (mkTimers t.(timerOp) t.(timer) t.(nextPresence) (e.(now) + after)%Z
    t.(nextPing) t.(lastPing)) c).

Definition sendPing (w : world) : world :=
  let c := w.(cl) in
  let t := c.(timers) in
  let c := set_timers (mkTimers t.(timerOp) t.(timer) t.(nextPresence) t.(nextExpire) t.(nextPing) (unix e)) c in
  let w := fst (transportEnqueue PushPing (with_cl c w)) in
  with_cl (addPingUpdate w.(cl).(pingInterval) w.(cl)) w.

(** ** Leaving channels and closing *)

(** The section under the connection's lock that takes a channel off its map. *)
Definition leave_channel (channel : string) (w : world) : world :=
  with_cl (set_channels (delete channel w.(cl).(channels)) w.(cl)) w.

(** [removeSubscription] for this connection. *)
Definition leave_hub (channel : string) (w : world) : world :=
  with_nd (removeSubscription channel (client_of w.(cl)) w.(nd)) w.

Definition Client_unsubscribe (channel : string) (u : Unsubscribe) (w : world) : world :=
  match w.(cl).(channels) !! channel with
  | None => w
  | Some chCtx =>
    let flag := channelHasFlag chCtx.(ctx_flags) in
    let w := leave_channel channel w in
    let w := if flag flagEmitPresence && flag flagSubscribed
             then with_pres (presenceHub_remove channel w.(cl).(uid) w.(pres)) w else w in
    let w := leave_hub channel w in
    if flag flagSubscribed then emit (EvUnsubscribe channel (flag flagServerSide) u) w else w
  end.

(** The section of [close] under the connection's lock. *)
Definition close_mark (w : world) : world := with_cl (stopTimer (set_status statusClosed w.(cl))) w.

(** What [close] does once the channels are left. *)
Definition close_finish (disconnect : Disconnect) (prevStatus : status) (w : world) : world :=
  let w := if w.(cl).(authenticated) then
             with_nd (mkNode (Hub_remove (client_of w.(cl)) w.(nd).(hub)) w.(nd).(broker_subs) w.(nd).(jobs)) w
           else w in
  let w := if negb (disconnect.(dcode) =? DisconnectConnectionClosed.(dcode))%Z
           then fst (transportEnqueue (PushDisconnect disconnect) w) else w in
  let w := mkWorld w.(cl) w.(nd) w.(pres) w.(sent) w.(closing) w.(events) (Some disconnect) in
  if decide (prevStatus = statusConnected) then emit (EvDisconnect disconnect) w else w.

(** [close]; [order] is how Go walks the map of channels. *)
Definition Client_close (disconnect : Disconnect) (order : list string) (w : world) : world :=
  match w.(cl).(cstatus) with
  | statusClosed => w
  | prevStatus =>
    let w := close_mark w in
    let w := fold_left (fun w channel => Client_unsubscribe channel unsubscribeDisconnect w) order w in
    close_finish disconnect prevStatus w
  end.

Definition closeStale (order : list string) (w : world) : world :=
  let c := w.(cl) in
  if (negb c.(authenticated) || c.(unusable)) && negb (bool_decide (c.(cstatus) = statusClosed))
  then Client_close DisconnectStale order w else w.

Definition sendUnsubscribe (ch : string) (u : Unsubscribe) (w : world) : world :=
  fst (transportEnqueue (PushUnsubscribe ch u) w).

(** The exported [Unsubscribe], called by the node. *)
Definition Unsubscribe_server (ch : string) (unsub : option Unsubscribe) (w : world) : world :=
  if bool_decide (w.(cl).(cstatus) = statusClosed) then w
  else let u := default unsubscribeServer unsub in
       sendUnsubscribe ch u (Client_unsubscribe ch u w).

Definition handleAsyncUnsubscribe (ch : string) (u : Unsubscribe) (w : world) : world :=
  sendUnsubscribe ch u (Client_unsubscribe ch u w).

(** ** Subscribing *)

Record SubscribeReply := mkSubscribeReply { Options : SubscribeOptions; ClientSideRefresh : bool }.

(** [validateSubscribeRequest]: an error for the client, a disconnect, or the
    channel reserved in the map. *)
Definition validateSubscribeRequest (channel : string) (w : world) : world * option go_error :=
  if bool_decide (channel = "") then (w, Some (EDisconnect DisconnectBadRequest))
  else if (0 <? e.(channelMaxLength))%Z && (e.(channelMaxLength) <? Z.of_nat (length (explode channel)))%Z
  then (w, Some (EClient ErrorBadRequest))
  else match w.(cl).(channels) !! channel with
  | Some _ => (w, Some (EClient ErrorAlreadySubscribed))
  | None =>
    if (0 <? e.(clientChannelLimit))%Z && (e.(clientChannelLimit) <=? Z.of_nat (size w.(cl).(channels)))%Z
    then (w, Some (EClient ErrorLimitExceeded))
    else (with_cl (set_channels (<[channel:=zero_ctx]> w.(cl).(channels)) w.(cl)) w, None)
  end.

Record subscribeContext := mkSubCtx {
  sc_err : option Error;
  sc_disconnect : option Disconnect;
  sc_context : ChannelContext
}.

Definition sub_error (err : Error) : subscribeContext := mkSubCtx (Some err) None zero_ctx.
Definition sub_disconnect (d : Disconnect) : subscribeContext := mkSubCtx None (Some d) zero_ctx.

(** The name of a channel [a:b] is completed from a channel [a-x] the client
    has, together with its role; [order] is how Go walks the map. *)
Fixpoint resolve_channel (item0 item1 : string) (chans : gmap string ChannelContext) (order : list string)
    : outcome Empty_set (option (string * Z)) :=
  match order with
  | [] => Ok None
  | k :: order =>
    let pre := Split k "-"%char in
    pre0 ← go_index pre 0;
    if bool_decide (pre0 = item0) then
      pre1 ← go_index pre 1;
      Ok (Some ((item0 +:+ "-" +:+ pre1 +:+ ":" +:+ item1), (default zero_ctx (chans !! k)).(ctx_role)))
    else resolve_channel item0 item1 chans order
  end.

Definition subscription_flags (reply : SubscribeReply) (serverSide : bool) : Z :=
  let o := reply.(Options) in
  Z.lor flagSubscribed
   (Z.lor (flag_if serverSide flagServerSide)
     (Z.lor (flag_if reply.(ClientSideRefresh) flagClientSideRefresh)
       (Z.lor (flag_if o.(so_EmitPresence) flagEmitPresence)
         (Z.lor (flag_if o.(so_EmitJoinLeave) flagEmitJoinLeave)
                (flag_if o.(so_PushJoinLeave) flagPushJoinLeave))))).

(** The section under the connection's lock that files a channel in its map. *)
Definition record_channel (channel : string) (ctx : ChannelContext) (w : world) : world :=
  with_cl (set_channels (<[channel:=ctx]> w.(cl).(channels)) w.(cl)) w.

(** [addSubscription] in [subscribeCmd]: [None], or the context of the error. *)
Definition subscribe_add (channel : string) (w : world) : world * option subscribeContext :=
  let c := w.(cl) in
  let accepts := match e.(broker_result) with None => true | Some _ => false end in
  let added := is_ok (addSubscription channel (client_of c) accepts w.(nd)) in
  let w := with_nd (addSubscription_state channel (client_of c) accepts w.(nd)) w in
  if negb added then
    match e.(broker_result) with
    | Some (EClient err) =>
      if bool_decide (err = ErrorInternal) then (w, Some (sub_disconnect DisconnectServerError))
      else (w, Some (sub_error err))
    | _ => (w, Some (sub_disconnect DisconnectServerError))
    end
  else (w, None).

(** [addPresence] in [subscribeCmd]. *)
Definition subscribe_presence (channel : string) (o : SubscribeOptions) (w : world) : world * option subscribeContext :=
  let c := w.(cl) in
  if o.(so_EmitPresence) then
    match e.(presence_result) with
    | Some _ => (w, Some (sub_disconnect DisconnectServerError))
    | None =>
      (with_pres (presenceHub_add channel c.(uid) (mkClientInfo c.(uid) c.(user) c.(info) o.(so_ChannelInfo)) w.(pres)) w,
       None)
    end
  else (w, None).

(** The reply and the channel's context; a server-side subscription is filed
    later by the caller. *)
Definition subscribe_record (channel : string) (role : Z) (reply : SubscribeReply) (serverSide : bool) (w : world)
    : world * subscribeContext :=
  let o := reply.(Options) in
  let w := if serverSide then w else writeEncodedCommandReply (PushReply channel "subscribe") w in
  let ctx := mkCtx o.(so_ChannelInfo) o.(so_ExpireAt) 0 (subscription_flags reply serverSide) role o.(so_Source) in
  let w := if serverSide then w else record_channel channel ctx w in
  (w, mkSubCtx None None ctx).

(** [subscribeCmd] from [addSubscription] on, with the channel resolved. *)
Definition subscribe_resolved (channel : string) (role : Z) (reply : SubscribeReply) (serverSide : bool)
    (w : world) : world * subscribeContext :=
  let '(w, refused) := subscribe_add channel w in
  match refused with
  | Some ctx => (w, ctx)
  | None =>
    let '(w, failed) := subscribe_presence channel reply.(Options) w in
    match failed with
    | Some ctx => (w, ctx)
    | None => subscribe_record channel role reply serverSide w
    end
  end.

Definition subscribeCmd (reqChannel : string) (reply : SubscribeReply) (serverSide : bool) (order : list string)
    (w : world) : outcome Empty_set (world * subscribeContext) :=
  let o := reply.(Options) in
  if (0 <? o.(so_ExpireAt))%Z && (o.(so_ExpireAt) - unix e <=? 0)%Z then Ok (w, sub_error ErrorExpired)
  else if ContainsChar reqChannel ":"%char then
    let item := Split reqChannel ":"%char in
    item0 ← go_index item 0;
    item1 ← go_index item 1;
    r ← resolve_channel item0 item1 w.(cl).(channels) order;
    match r with
    | None => Ok (w, mkSubCtx (Some ErrorPermissionDenied) (Some DisconnectBadRequest) zero_ctx)
    | Some (channel, role) => Ok (subscribe_resolved channel role reply serverSide w)
    end
  else Ok (subscribe_resolved reqChannel o.(so_Role) reply serverSide w).

Definition onSubscribeError (channel : string) (w : world) : world :=
  match w.(cl).(channels) !! channel with
  | None => w
  | Some _ => leave_hub channel (leave_channel channel w)
  end.

(** The callback the application's subscribe handler calls. *)
Definition subscribe_callback (channel : string) (r : SubscribeReply + go_error) (order : list string) (w : world)
    : outcome Empty_set world :=
  match r with
  | inr err => Ok (writeDisconnectOrErrorFlush channel err (onSubscribeError channel w))
  | inl reply =>
    '(w, ctx) ← subscribeCmd channel reply false order w;
    match ctx.(sc_disconnect), ctx.(sc_err) with
    | Some d, _ => Ok (writeDisconnectOrErrorFlush channel (EDisconnect d) (onSubscribeError channel w))
    | None, Some err => Ok (writeDisconnectOrErrorFlush channel (EClient err) (onSubscribeError channel w))
    | None, None => Ok w
    end
  end.

(** The exported [Subscribe], called by the node: a server-side subscription.
    The second component is the returned error.  A refused subscription that
    carries a disconnect and no error has no result, which the push then
    dereferences. *)
Definition Subscribe_server (channel : string) (opts : SubscribeOptions) (order : list string) (w : world)
    : outcome Empty_set (world * option go_error) :=
  if bool_decide (channel = "") then Ok (w, Some (EOther "channel is empty"))
  else if (0 <? e.(clientChannelLimit))%Z && (e.(clientChannelLimit) <=? Z.of_nat (size w.(cl).(channels)))%Z
  then Ok (go_close DisconnectChannelLimit w, None)
  else
    '(w, ctx) ← subscribeCmd channel (mkSubscribeReply opts false) true order w;
    match ctx.(sc_err) with
    | Some err => Ok (onSubscribeError channel w, Some (EClient err))
    | None =>
      let w := record_channel channel ctx.(sc_context) w in
      match ctx.(sc_disconnect) with
      | Some _ => Panic NilDereference
      | None =>
        let '(w, ok) := transportEnqueue (PushSubscribe channel) w in
        Ok (w, if (ok : bool) then None else Some (EOther "EOF"))
      end
    end.

(** ** Publications, joins and leaves *)

Definition IsSubscribed (ch : string) (c : Conn) : bool :=
  match c.(channels) !! ch with
  | Some ctx => channelHasFlag ctx.(ctx_flags) flagSubscribed
  | None => false
  end.

Definition Client_Channels (c : Conn) : gmap string ChannelContext :=
  filter (fun '(_, ctx) => channelHasFlag ctx.(ctx_flags) flagSubscribed = true) c.(channels).

Definition writePublicationUpdatePosition (ch data : string) (w : world) : world :=
  match w.(cl).(channels) !! ch with
  | Some ctx =>
    if channelHasFlag ctx.(ctx_flags) flagSubscribed then
      let ctx := mkCtx ctx.(ctx_info) ctx.(ctx_expireAt) (unix e) ctx.(ctx_flags) ctx.(ctx_role) ctx.(ctx_Source) in
      fst (transportEnqueue (PushPublication ch data)
             (with_cl (set_channels (<[ch:=ctx]> w.(cl).(channels)) w.(cl)) w))
    else w
  | None => w
  end.

(** The test shared by [writeJoin] and [writeLeave]. *)
Definition wants_join_leave (ch : string) (c : Conn) : bool :=
  match c.(channels) !! ch with
  | Some ctx => channelHasFlag ctx.(ctx_flags) flagSubscribed && channelHasFlag ctx.(ctx_flags) flagPushJoinLeave
  | None => false
  end.

Definition writeJoin (ch data : string) (w : world) : world :=
  if wants_join_leave ch w.(cl) then fst (transportEnqueue (PushJoin ch data) w) else w.

Definition writeLeave (ch data : string) (w : world) : world :=
  if wants_join_leave ch w.(cl) then fst (transportEnqueue (PushLeave ch data) w) else w.

(** [clientInfo]: nil for a channel the client does not have; only the role is
    read of it here. *)
Definition clientInfo_role (ch : string) (c : Conn) : option Z :=
  match c.(channels) !! ch with
  | Some ctx => Some ctx.(ctx_role)
  | None => None
  end.

(** ** Expiration *)

(** [checkExpired]; [hasRefresh] is whether a refresh handler is set. *)
Definition checkExpired (hasRefresh : bool) (order : list string) (w : world) : world :=
  let c := w.(cl) in
  if bool_decide (c.(cstatus) = statusClosed) || (c.(exp) =? 0)%Z then w
  else
    let ttl := (c.(exp) - unix e)%Z in
    let w := if negb c.(clientSideRefresh) && hasRefresh && (0 <? ttl)%Z
             then with_cl (addExpireUpdate (ttl * second) c) w else w in
    if (0 <? ttl)%Z then w else Client_close DisconnectExpired order w.

Record RefreshReply := mkRefreshReply { rr_Expired : bool; rr_ExpireAt : Z; rr_Info : option string }.

(** [expire]; [handler] is what the refresh handler answers, if one is set. *)
Definition expire (handler : option (RefreshReply + go_error)) (order : list string) (w : world) : world :=
  let c := w.(cl) in
  if bool_decide (c.(cstatus) = statusClosed) || (c.(exp) =? 0)%Z then w
  else match handler with
  | Some answer =>
    if c.(clientSideRefresh) then checkExpired true order w
    else match answer with
    | inr (EDisconnect d) => Client_close d order w
    | inr _ => Client_close DisconnectServerError order w
    | inl reply =>
      if reply.(rr_Expired) then Client_close DisconnectExpired order w
      else
        let w := if (0 <? reply.(rr_ExpireAt))%Z
                 then with_cl (set_identity c.(user) (default c.(info) reply.(rr_Info)) reply.(rr_ExpireAt) c) w
                 else w in
        checkExpired true order w
    end
  | None => checkExpired false order w
  end.

(** [checkSubscriptionExpiration]: what its callback receives, if it runs. *)
Definition checkSubscriptionExpiration (ctx : ChannelContext) (delay : Z) : option bool :=
  if (0 <? ctx.(ctx_expireAt))%Z && (ctx.(ctx_expireAt) + delay <? unix e)%Z
  then if channelHasFlag ctx.(ctx_flags) flagClientSideRefresh then Some false else None
  else Some true.

(** What [updatePresence] does for one channel: presence is renewed, and an
    expired subscription is left (client side) or closes the connection. *)
Inductive presence_action : Type :=
| KeepChannel
| LeaveChannel (ch : string)
| CloseExpired.

Definition updateChannelPresence (ch : string) (ctx : ChannelContext) (w : world) : world :=
  if negb (channelHasFlag ctx.(ctx_flags) flagEmitPresence) then w
  else match w.(cl).(channels) !! ch with
  | None => w
  | Some _ =>
    match e.(presence_result) with
    | Some _ => w
    | None => with_pres (presenceHub_add ch w.(cl).(uid)
                (mkClientInfo w.(cl).(uid) w.(cl).(user) w.(cl).(info) ctx.(ctx_info)) w.(pres)) w
    end
  end.

Definition expiration_action (ch : string) (ctx : ChannelContext) : presence_action :=
  match checkSubscriptionExpiration ctx e.(clientExpiredSubCloseDelay) with
  | Some false => if channelHasFlag ctx.(ctx_flags) flagServerSide then CloseExpired else LeaveChannel ch
  | _ => KeepChannel
  end.

(** [updatePresence]: the actions it starts as goroutines, and the state. *)
Definition updatePresence (alive : bool) (order : list string) (w : world) : world * list presence_action :=
  if bool_decide (w.(cl).(cstatus) = statusClosed) then (w, [])
  else if w.(cl).(unusable) then (go_close DisconnectStale w, [])
  else
    let w := if alive then emit EvAlive w else w in
    let chans := omap (fun ch => (fun ctx => (ch, ctx)) <$> Client_Channels w.(cl) !! ch) order in
    let w := fold_left (fun w '(ch, ctx) => updateChannelPresence ch ctx w) chans w in
    let acts := (fun '(ch, ctx) => expiration_action ch ctx) <$> chans in
    (with_cl (addPresenceUpdate w.(cl)) w, acts).

(** [Refresh], called by the node. *)
Definition Refresh_server (o : RefreshOptions) (w : world) : world :=
  if o.(ro_Expired) then go_close DisconnectExpired w
  else
    let expireAt := o.(ro_ExpireAt) in
    let ttl := (expireAt - unix e)%Z in
    let c := w.(cl) in
    if (0 <? expireAt)%Z then
      if (0 <? ttl)%Z then
        let info := if bool_decide (o.(ro_Info) = "") then c.(info) else o.(ro_Info) in
        let c := set_identity c.(user) info expireAt c in
        let w := with_cl (addExpireUpdate (ttl * second + e.(clientExpiredCloseDelay)) c) w in
        fst (transportEnqueue (PushRefresh true (wrap_u32 ttl)) w)
      else go_close DisconnectExpired w
    else
      let w := with_cl (set_identity c.(user) c.(info) 0 c) w in
      fst (transportEnqueue (PushRefresh false (if (0 <? ttl)%Z then wrap_u32 ttl else 0)) w).

(** ** Commands *)

Inductive request : Type :=
| RConnect (token : string)
| RSubscribe (channel : string)
| RUnsubscribe (channel : string)
| RPublish (channel data : string)
| RPresence (channel : string)
| RPresenceStats (channel : string)
| RSend (data : string)
| RRefresh (token : string)
| RSubRefresh (channel : string)
| RNone.

Record command := mkCommand { cmd_id : Z; cmd_req : request }.

(** The application's handlers; [None] is a handler that is not set.  Each
    calls its callback before it returns. *)
Record handlers := mkHandlers {
  on_command_read : option go_error;
  on_subscribe : option (string -> SubscribeReply + go_error);
  on_publish : option (string -> string -> option go_error);
  on_presence : option (option go_error);
  on_presence_stats : option (option go_error);
  on_message : bool;
  on_refresh : option (string -> RefreshReply + go_error)
}.

Section Commands.
Context (hs : handlers) (order : list string).

Definition handleSubscribe (channel : string) (w : world) : outcome Empty_set (world * option go_error) :=
  match hs.(on_subscribe) with
  | None => Ok (w, Some (EClient ErrorNotAvailable))
  | Some h =>
    let '(w, err) := validateSubscribeRequest channel w in
    match err with
    | Some err => Ok (w, Some err)
    | None => w ← subscribe_callback channel (h channel) order w; Ok (w, None)
    end
  end.

Definition handleUnsubscribe (channel : string) (w : world) : world * option go_error :=
  if bool_decide (channel = "") then (w, Some (EDisconnect DisconnectBadRequest))
  else (writeEncodedCommandReply (PushReply channel "unsubscribe")
          (Client_unsubscribe channel unsubscribeClient w), None).

Definition handlePublish (channel data : string) (w : world) : world * option go_error :=
  match hs.(on_publish) with
  | None => (w, Some (EClient ErrorNotAvailable))
  | Some h =>
    if bool_decide (channel = "") || bool_decide (data = "") then (w, Some (EDisconnect DisconnectBadRequest))
    else match clientInfo_role channel w.(cl) with
    | None => (w, Some (EClient ErrorPermissionDenied))
    | Some role =>
      if negb (role =? WriteRole)%Z && negb (role =? ReadWriteRole)%Z
      then (w, Some (EClient ErrorPermissionDenied))
      else
        let w := emit (EvPublish channel data role) w in
        match h channel data with
        | Some err => (writeDisconnectOrErrorFlush channel err w, None)
        | None => (writeEncodedCommandReply (PushReply channel "publish") w, None)
        end
    end
  end.

(** [handlePresence] and [handlePresenceStats] differ in the handler and the
    reply. *)
Definition handlePresence (h : option (option go_error)) (kind channel : string) (w : world)
    : world * option go_error :=
  match h with
  | None => (w, Some (EClient ErrorNotAvailable))
  | Some r =>
    if bool_decide (channel = "") then (w, Some (EDisconnect DisconnectBadRequest))
    else match r with
    | Some err => (writeDisconnectOrErrorFlush channel err w, None)
    | None => (writeEncodedCommandReply (PushReply channel kind) w, None)
    end
  end.

Definition handleSend (data : string) (w : world) : world * option go_error :=
  if hs.(on_message) then (emit (EvMessage data) w, None) else (w, Some (EDisconnect DisconnectNotAvailable)).

Definition handleRefresh (token : string) (w : world) : world * option go_error :=
  match hs.(on_refresh) with
  | None => (w, Some (EClient ErrorNotAvailable))
  | Some h =>
    if bool_decide (token = "") || negb w.(cl).(clientSideRefresh)
    then (w, Some (EDisconnect DisconnectBadRequest))
    else match h token with
    | inr err => (writeDisconnectOrErrorFlush "" err w, None)
    | inl reply =>
      if reply.(rr_Expired) then (writeDisconnectOrErrorFlush "" (EDisconnect DisconnectExpired) w, None)
      else
        let expireAt := reply.(rr_ExpireAt) in
        let ttl := (expireAt - unix e)%Z in
        let c := w.(cl) in
        if (0 <? expireAt)%Z && negb (0 <? ttl)%Z
        then (writeDisconnectOrErrorFlush "" (EClient ErrorExpired) w, None)
        else
          let w := if (0 <? expireAt)%Z then
                     let i := match reply.(rr_Info) with
                              | Some i => if bool_decide (i = "") then c.(info) else i
                              | None => c.(info) end in
                     with_cl (addExpireUpdate (ttl * second + e.(clientExpiredCloseDelay))
                       (set_identity c.(user) i expireAt c)) w
                   else w in
          (writeEncodedCommandReply
             (PushRefresh (0 <? expireAt)%Z (if (0 <? ttl)%Z then wrap_u32 ttl else 0)) w, None)
    end
  end.

(** An error of a handler: a disconnect, or an error reply; a failed connect
    leaves the connection unusable. *)
Definition handleCommandDispatchError (channel : string) (isConnect : bool) (err : go_error) (w : world)
    : world * option Disconnect * bool :=
  match err with
  | EDisconnect d => (w, Some d, false)
  | _ =>
    let w := if isConnect then with_cl (set_unusable true w.(cl)) w else w in
    (writeError channel (toClientErr err) w, None, negb isConnect)
  end.

Definition request_channel (r : request) : string :=
  match r with
  | RSubscribe ch | RUnsubscribe ch | RPublish ch _ | RPresence ch | RPresenceStats ch | RSubRefresh ch => ch
  | _ => ""
  end.

Definition is_connect (r : request) : bool := match r with RConnect _ => true | _ => false end.
Definition is_send (r : request) : bool := match r with RSend _ => true | _ => false end.

(** [dispatchCommand]: the connection afterwards, a disconnect, and whether to
    go on reading; [connect] is [handleConnect]. *)
Definition dispatchCommand (connect : string -> world -> outcome Empty_set (world * option go_error))
    (cmd : command) (w : world)
    : outcome Empty_set (world * option Disconnect * bool) :=
  let r := cmd.(cmd_req) in
  let finish (res : world * option go_error) :=
    match snd res with
    | Some err => handleCommandDispatchError (request_channel r) (is_connect r) err (fst res)
    | None => (fst res, None, true)
    end in
  if bool_decide (w.(cl).(cstatus) = statusClosed) then Ok (w, None, false)
  else if negb w.(cl).(authenticated) && negb (is_connect r) then Ok (w, Some DisconnectBadRequest, false)
  else if (cmd.(cmd_id) =? 0)%Z && negb (is_send r) then Ok (w, Some DisconnectBadRequest, false)
  else match r with
  | RNone => Ok (w, Some DisconnectBadRequest, false)
  | _ =>
    match hs.(on_command_read) with
    | Some err => Ok (handleCommandDispatchError (request_channel r) (is_connect r) err w)
    | None =>
      match r with
      | RConnect token => res ← connect token w; Ok (finish res)
      | RSubscribe ch => res ← handleSubscribe ch w; Ok (finish res)
      | RUnsubscribe ch => Ok (finish (handleUnsubscribe ch w))
      | RPublish ch data => Ok (finish (handlePublish ch data w))
      | RPresence ch => Ok (finish (handlePresence hs.(on_presence) "presence" ch w))
      | RPresenceStats ch => Ok (finish (handlePresence hs.(on_presence_stats) "presence_stats" ch w))
      | RSend data => Ok (finish (handleSend data w))
      | RRefresh token => Ok (finish (handleRefresh token w))
      | _ => Ok (w, Some DisconnectBadRequest, false)
      end
    end
  end.

(** [HandleCommand]: a disconnect is carried out by a goroutine. *)
Definition HandleCommand (connect : string -> world -> outcome Empty_set (world * option go_error))
    (cmd : command) (w : world)
    : outcome Empty_set (world * bool) :=
  if bool_decide (w.(cl).(cstatus) = statusClosed) then Ok (w, false)
  else if w.(cl).(unusable) then Ok (go_close DisconnectBadRequest w, false)
  else
    r ← dispatchCommand connect cmd w;
    let '(w, d, proceed) := r in
    match d with
    | Some d => Ok (go_close d w, false)
    | None => Ok (w, proceed)
    end.

End Commands.

(** ** Connecting *)

Record Credentials := mkCredentials { cr_UserID : string; cr_ExpireAt : Z; cr_Info : string }.

Record ConnectReply := mkConnectReply {
  cn_Credentials : option Credentials;
  cn_ClientSideRefresh : bool;
  cn_Subscriptions : list (string * SubscribeOptions);
  cn_PingPongConfig : option (Z * Z)
}.

Definition getPingPongPeriodValues (pingInterval pongTimeout : Z) : Z * Z :=
  ((if pingInterval <? 0 then 0 else if pingInterval =? 0 then 25 * second else pingInterval)%Z,
   (if pongTimeout <? 0 then 0 else if pongTimeout =? 0 then 10 * second else pongTimeout)%Z).

(** The server-side subscriptions of a connect, in the order their goroutines
    take the locks; the contexts are collected per channel. *)
Fixpoint connect_subscribe (subs : list (string * SubscribeOptions)) (order : list string) (w : world)
    : outcome Empty_set (world * list (string * subscribeContext)) :=
  match subs with
  | [] => Ok (w, [])
  | (ch, opts) :: subs =>
    '(w, ctx) ← subscribeCmd ch (mkSubscribeReply opts false) true order w;
    '(w, ctxs) ← connect_subscribe subs order w;
    Ok (w, (ch, ctx) :: ctxs)
  end.

(** The last disconnect, or else the last error, among the contexts. *)
Definition connect_failure (ctxs : list (string * subscribeContext)) : option go_error :=
  match last (omap (fun '(_, ctx) => ctx.(sc_disconnect)) ctxs) with
  | Some d => Some (EDisconnect d)
  | None => EClient <$> last (omap (fun '(_, ctx) => ctx.(sc_err)) ctxs)
  end.

(** [connectCmd]; [handler] is the connecting handler's answer, [ctx_cred] the
    credentials of the context, [transport_ping] the transport's ping/pong
    configuration. *)
Definition connectCmd (handler : option (ConnectReply + go_error)) (ctx_cred : option Credentials)
    (transport_ping : Z * Z) (order : list string) (w : world) : outcome Empty_set (world * option go_error) :=
  if bool_decide (w.(cl).(cstatus) = statusClosed) then Ok (w, Some (EDisconnect DisconnectConnectionClosed))
  else if w.(cl).(authenticated) then Ok (w, Some (EDisconnect DisconnectBadRequest))
  else match handler with
  | Some (inr err) => Ok (w, Some err)
  | _ =>
    let reply := match handler with Some (inl r) => r | _ => mkConnectReply None false [] None end in
    let ping := fst (getPingPongPeriodValues (fst (default transport_ping reply.(cn_PingPongConfig)))
                       (snd (default transport_ping reply.(cn_PingPongConfig)))) in
    let w := with_cl (set_refresh w.(cl).(clientSideRefresh) ping w.(cl)) w in
    let subs := filter (fun '(ch, _) => ch <> "") reply.(cn_Subscriptions) in
    if (0 <? e.(clientChannelLimit))%Z && (e.(clientChannelLimit) <? Z.of_nat (length subs))%Z
    then Ok (w, Some (EDisconnect DisconnectChannelLimit))
    else
      let cred := match reply.(cn_Credentials) with Some c => Some c | None => ctx_cred end in
      let w := with_cl (set_refresh reply.(cn_ClientSideRefresh) ping w.(cl)) w in
      match cred with
      | None => Ok (w, Some (EDisconnect DisconnectBadRequest))
      | Some cred =>
        let w := with_cl (set_identity cred.(cr_UserID) cred.(cr_Info) cred.(cr_ExpireAt) w.(cl)) w in
        if (0 <? e.(userConnectionLimit))%Z && negb (bool_decide (w.(cl).(user) = ""))
           && (e.(userConnectionLimit) <=? Z.of_nat (size (Hub_UserConnections w.(cl).(user) w.(nd).(hub))))%Z
        then Ok (w, Some (EDisconnect DisconnectConnectionLimit))
        else if (0 <? w.(cl).(exp))%Z && (w.(cl).(exp) <? unix e)%Z
        then Ok (w, Some (EClient ErrorExpired))
        else
          let w := with_cl (set_authenticated true w.(cl)) w in
          let w := with_nd (mkNode (Hub_add (client_of w.(cl)) w.(nd).(hub)) w.(nd).(broker_subs) w.(nd).(jobs)) w in
          '(w, ctxs) ← connect_subscribe subs order w;
          match connect_failure ctxs with
          | Some err => Ok (fold_left (fun w '(ch, _) => onSubscribeError ch w) ctxs w, Some err)
          | None =>
            let w := writeEncodedCommandReply (PushReply "" "connect") w in
            let chans := fold_left (fun m '(ch, ctx) => <[ch:=ctx.(sc_context)]> m) ctxs w.(cl).(channels) in
            Ok (with_cl (set_channels chans w.(cl)) w, None)
          end
      end
  end.

(** [triggerConnect]. *)
Definition triggerConnect (hasHandler : bool) (w : world) : world :=
  if bool_decide (w.(cl).(cstatus) = statusConnecting) then
    with_cl (set_status statusConnected w.(cl)) (if hasHandler then emit EvConnect w else w)
  else w.

(** [scheduleOnConnectTimers]; [first_ping] is the random first delay. *)
Definition scheduleOnConnectTimers (first_ping : Z) (w : world) : world :=
  let c := addPresenceUpdate w.(cl) in
  let c := if (0 <? c.(exp))%Z then
             let after := ((c.(exp) - unix e) * second)%Z in
             addExpireUpdate (if c.(clientSideRefresh) then after + e.(clientExpiredCloseDelay) else after)%Z c
           else c in
  let c := if (0 <? c.(pingInterval))%Z then addPingUpdate first_ping c else c in
  with_cl c w.

Definition handleConnect (handler : option (ConnectReply + go_error)) (ctx_cred : option Credentials)
    (transport_ping : Z * Z) (order : list string) (hasHandler : bool) (first_ping : Z) (w : world)
    : outcome Empty_set (world * option go_error) :=
  '(w, err) ← connectCmd handler ctx_cred transport_ping order w;
  match err with
  | Some err => Ok (w, Some err)
  | None => Ok (scheduleOnConnectTimers first_ping (triggerConnect hasHandler w), None)
  end.

End Client.
