(* ===== verification/ConnectionProps.v ===== *)
(** Theorems about [Connection.v]: a connection and the hub agree about its
    subscriptions however the sections of its calls, other clients and its close
    interleave, but for the channels on which calls overlapped; where they stop
    agreeing; timers; publishing rights. *)

From Stdlib Require Import Ascii.
From S2P Require Import Prelude GoStrings Codes NestedMap Hub Presence Node Control Connection.

(** The hub files the connection [id] under the channel. *)
Definition hub_subscribed (ch id : string) (h : Hub) : bool :=
  match nest_get ch (sub_shard (shard_index ch) h) !! id with Some _ => true | None => false end.

Lemma hub_subscribed_rel ch id h subs :
  subs_rel h subs -> hub_subscribed ch id h = true <-> is_Some (nest_get ch subs !! id).
Proof.
  intros (_ & _ & Hs). unfold hub_subscribed. rewrite Hs by apply shard_index_lt. rewrite shard_nest_get.
  destruct (nest_get ch subs !! id); split; eauto; try done; by intros [].
Qed.

(** ** Steps

    The methods of a connection run in goroutines that interleave between the
    sections that hold a lock.  A subscribe adds the connection to the hub
    ([subscribe_add]) and files the channel in the connection's map later
    ([subscribe_record], or the caller for a server-side subscription); an
    unsubscribe takes the channel off the map first and out of the hub later;
    [close] marks the connection and then leaves the channels it had.  The state
    has the calls that are between two of their sections:
    - [flight]: subscribe calls whose connection is in the hub and whose channel is
      not filed yet;
    - [leaving]: unsubscribe calls that are still to take it out of the hub;
    - [todo]: the channels [close] is still to leave.
    [stained] is a history variable: the channels on which two such calls have
    overlapped or one was not finished, by the rules below. *)
Record sys := mkSys {
  sw : world;
  flight : list string;
  leaving : list string;
  todo : list string;
  stained : gset string
}.

(** A change of the world that leaves the connection's channels, whether it is
    closed, and the hub's subscriptions alone: presence, replies and pushes,
    timers, the connect, the hub's list of connections, unsubscribe jobs. *)
Definition quiet (w w' : world) : Prop :=
  w'.(cl).(uid) = w.(cl).(uid) /\ w'.(cl).(channels) = w.(cl).(channels) /\
  (w'.(cl).(cstatus) = statusClosed <-> w.(cl).(cstatus) = statusClosed) /\
  w'.(nd).(hub).(subShards) = w.(nd).(hub).(subShards).

Definition open (w : world) : bool := negb (bool_decide (w.(cl).(cstatus) = statusClosed)).

(** Filing [ch] after the connection was marked closed, or while an unsubscribe
    of it is under way, stains it; so does filing it under another name. *)
Definition stain_record (ch name : string) (s : sys) : gset string :=
  if open s.(sw) && negb (bool_decide (ch ∈ s.(leaving))) && bool_decide (name = ch) then s.(stained)
  else {[ch; name]} ∪ s.(stained).

(** Giving up a subscribe that is in the hub stains the channel, unless the
    open connection has it in its map, from where it is left later. *)
Definition stain_abandon (ch : string) (s : sys) : gset string :=
  if open s.(sw) && bool_decide (is_Some (s.(sw).(cl).(channels) !! ch)) then s.(stained) else {[ch]} ∪ s.(stained).

(** Leaving the hub while a subscribe to the channel is under way stains it. *)
Definition stain_leave (ch : string) (s : sys) : gset string :=
  if bool_decide (ch ∈ s.(flight)) then {[ch]} ∪ s.(stained) else s.(stained).

Inductive client_step : sys -> sys -> Prop :=
| cs_quiet s w' : quiet s.(sw) w' ->
    client_step s (mkSys w' s.(flight) s.(leaving) s.(todo) s.(stained))
| cs_reserve e ch s w' :
    validateSubscribeRequest e ch s.(sw) = (w', None) ->
    client_step s (mkSys w' s.(flight) s.(leaving) s.(todo) s.(stained))
| cs_refused e ch s w' ctx :
    subscribe_add e ch s.(sw) = (w', Some ctx) ->
    client_step s (mkSys w' s.(flight) s.(leaving) s.(todo) s.(stained))
| cs_added e ch s w' :
    subscribe_add e ch s.(sw) = (w', None) ->
    client_step s (mkSys w' (ch :: s.(flight)) s.(leaving) s.(todo) s.(stained))
| cs_record_client e ch role reply s f1 f2 w' ctx :
    s.(flight) = f1 ++ ch :: f2 -> subscribe_record e ch role reply false s.(sw) = (w', ctx) ->
    client_step s (mkSys w' (f1 ++ f2) s.(leaving) s.(todo) (stain_record ch ch s))
| cs_record_server ch name ctx s f1 f2 :
    s.(flight) = f1 ++ ch :: f2 ->
    client_step s (mkSys (record_channel name ctx s.(sw)) (f1 ++ f2) s.(leaving) s.(todo) (stain_record ch name s))
| cs_record_empty ch s :
    client_step s (mkSys (record_channel ch zero_ctx s.(sw)) s.(flight) s.(leaving) s.(todo) s.(stained))
| cs_abandon ch s f1 f2 :
    s.(flight) = f1 ++ ch :: f2 ->
    client_step s (mkSys s.(sw) (f1 ++ f2) s.(leaving) s.(todo) (stain_abandon ch s))
| cs_update ch ctx ctx' s :
    s.(sw).(cl).(channels) !! ch = Some ctx -> ctx'.(ctx_flags) = ctx.(ctx_flags) ->
    client_step s (mkSys (record_channel ch ctx' s.(sw)) s.(flight) s.(leaving) s.(todo) s.(stained))
| cs_leave_channel ch s :
    client_step s (mkSys (leave_channel ch s.(sw)) s.(flight) (ch :: s.(leaving)) s.(todo) s.(stained))
| cs_leave_hub ch s l1 l2 :
    s.(leaving) = l1 ++ ch :: l2 ->
    client_step s (mkSys (leave_hub ch s.(sw)) s.(flight) (l1 ++ l2) s.(todo) (stain_leave ch s))
| cs_close_mark order s :
    open s.(sw) = true -> (forall ch, is_Some (s.(sw).(cl).(channels) !! ch) -> ch ∈ order) ->
    client_step s (mkSys (close_mark s.(sw)) s.(flight) s.(leaving) order s.(stained))
| cs_close_leave ch s t1 t2 :
    s.(todo) = t1 ++ ch :: t2 ->
    client_step s (mkSys (leave_channel ch s.(sw)) s.(flight) (ch :: s.(leaving)) (t1 ++ t2) s.(stained))
| cs_close_skip ch s t1 t2 :
    s.(todo) = t1 ++ ch :: t2 -> s.(sw).(cl).(channels) !! ch = None ->
    client_step s (mkSys s.(sw) s.(flight) s.(leaving) (t1 ++ t2) s.(stained))
| cs_other_add ch c accepts s : c.(ID) <> s.(sw).(cl).(uid) ->
    client_step s (mkSys (with_nd (addSubscription_state ch c accepts s.(sw).(nd)) s.(sw))
                     s.(flight) s.(leaving) s.(todo) s.(stained))
| cs_other_remove ch c s : c.(ID) <> s.(sw).(cl).(uid) ->
    client_step s (mkSys (with_nd (removeSubscription ch c s.(sw).(nd)) s.(sw))
                     s.(flight) s.(leaving) s.(todo) s.(stained)).

(** A connection that has just been created on a running node. *)
Definition fresh_world (w : world) : Prop :=
  w.(cl).(channels) = ∅ /\ w.(cl).(cstatus) = statusConnecting /\
  exists subs, subs_rel w.(nd).(hub) subs /\ forall ch, nest_get ch subs !! w.(cl).(uid) = None.

(** No call is between two of its sections. *)
Definition idle (w : world) (st : gset string) : sys := mkSys w [] [] [] st.

(** Channel names that [subscribeCmd] does not complete. *)
Definition plain (ch : string) : bool := negb (ContainsChar ch ":"%char).

Lemma plain_subscribeCmd e ch reply serverSide order w :
  plain ch = true ->
  subscribeCmd e ch reply serverSide order w = Ok (w, sub_error ErrorExpired) \/
  subscribeCmd e ch reply serverSide order w =
    Ok (subscribe_resolved e ch reply.(Options).(so_Role) reply serverSide w).
Proof.
  unfold plain, subscribeCmd. rewrite negb_true_iff. intros ->. case_match; [by left|by right].
Qed.

(** ** The invariant *)

(** What holds of a channel that is not stained; [has] is the hub's entry. *)
Record channel_inv (s : sys) (ch : string) (has : Prop) : Prop := {
  ci_known : has -> is_Some (s.(sw).(cl).(channels) !! ch) \/ ch ∈ s.(flight) \/ ch ∈ s.(leaving);
  ci_subscribed : IsSubscribed ch s.(sw).(cl) = true -> has;
  ci_flight : ch ∈ s.(flight) -> has;
  ci_leaving : ch ∈ s.(leaving) -> IsSubscribed ch s.(sw).(cl) = false;
  ci_closed : open s.(sw) = false -> has -> ch ∈ s.(flight) \/ ch ∈ s.(leaving) \/ ch ∈ s.(todo)
}.

Definition in_hub (ch id : string) (subs : gmap string (gmap string Client)) : Prop := is_Some (nest_get ch subs !! id).

Definition agree (s : sys) : Prop :=
  exists subs, subs_rel s.(sw).(nd).(hub) subs /\
    forall ch, ch ∉ s.(stained) -> channel_inv s ch (in_hub ch s.(sw).(cl).(uid) subs).

Lemma subs_rel_ext h h' subs : h'.(subShards) = h.(subShards) -> subs_rel h subs -> subs_rel h' subs.
Proof. unfold subs_rel, sub_shard. by intros ->. Qed.

Lemma agree_fresh w : fresh_world w -> agree (idle w ∅).
Proof.
  intros (Hc & Hs & subs & Hr & Hn). exists subs. split; [done|]. intros ch _. unfold in_hub. simpl. rewrite Hn.
  split; simpl; unfold IsSubscribed; rewrite ?Hc, ?lookup_empty, ?elem_of_nil; try done.
Qed.

(** [addSubscription] with the state it leaves. *)
Lemma addSubscription_subs ch c accepts n subs :
  subs_rel n.(hub) subs ->
  exists subs', subs_rel (addSubscription_state ch c accepts n).(hub) subs' /\
    (forall ch', nest_get ch' subs' =
      if is_ok (addSubscription ch c accepts n)
      then (if decide (ch = ch') then <[c.(ID):=c]> (nest_get ch subs) else nest_get ch' subs)
      else nest_get ch' subs).
Proof.
  intros Hr. destruct (subs_rel_addSub _ _ ch c Hr) as [Hr' Hf].
  rewrite (subs_rel_NumSubscribers _ _ ch Hr) in Hf.
  unfold addSubscription_state, addSubscription. destruct (Hub_addSub ch c (hub n)) as [h first]. simpl in *.
  destruct first; [destruct accepts|]; simpl.
  - eexists. split; [exact Hr'|]. intros ch'. apply nest_get_add.
  - destruct (subs_rel_removeSub _ _ ch c Hr') as [Hr2 _]. eexists. split; [exact Hr2|].
    intros ch'. apply nest_remove_added. apply map_size_empty_iff. symmetry in Hf. by apply Nat.eqb_eq in Hf.
  - eexists. split; [exact Hr'|]. intros ch'. apply nest_get_add.
Qed.

Lemma removeSubscription_subs ch c n subs :
  subs_rel n.(hub) subs ->
  exists subs', subs_rel (removeSubscription ch c n).(hub) subs' /\
    (forall ch', nest_get ch' subs' = if decide (ch = ch') then delete c.(ID) (nest_get ch subs) else nest_get ch' subs).
Proof.
  intros Hr. destruct (subs_rel_removeSub _ _ ch c Hr) as [Hr' _]. unfold removeSubscription.
  destruct (Hub_removeSub ch c (hub n)) as [h empty]. simpl in *. eexists. split; [exact Hr'|].
  intros ch'. apply nest_get_remove.
Qed.

(** [subscribe_add] is an [addSubscription], and says whether it succeeded. *)
Lemma subscribe_add_subs e ch w w' r subs :
  subs_rel w.(nd).(hub) subs -> subscribe_add e ch w = (w', r) ->
  w'.(cl) = w.(cl) /\ exists subs', subs_rel w'.(nd).(hub) subs' /\
    forall ch', in_hub ch' w.(cl).(uid) subs' <-> in_hub ch' w.(cl).(uid) subs \/ r = None /\ ch' = ch.
Proof.
  intros Hr H. unfold subscribe_add in H.
  set (accepts := match broker_result e with None => true | Some _ => false end) in *.
  destruct (addSubscription_subs ch (client_of (cl w)) accepts _ _ Hr) as (subs' & Hr' & Hg).
  assert (Hw : w' = with_nd (addSubscription_state ch (client_of (cl w)) accepts (nd w)) w /\
               (r = None <-> is_ok (addSubscription ch (client_of (cl w)) accepts (nd w)) = true)).
  { destruct (is_ok _); simpl in H; [by simplify_eq|].
    destruct (broker_result e) as [[err|d|m]|]; [case_bool_decide|..]; by simplify_eq. }
  destruct Hw as [-> Hok]. split; [done|]. exists subs'. split; [done|]. intros ch'. unfold in_hub. rewrite Hg.
  destruct (is_ok _) eqn:E.
  - case_decide; [subst; rewrite lookup_insert_eq|]; naive_solver.
  - naive_solver.
Qed.

(** The flag of a channel that is filed or left. *)
Lemma IsSubscribed_record ch ch' ctx w :
  IsSubscribed ch' (record_channel ch ctx w).(cl) =
    if decide (ch = ch') then channelHasFlag ctx.(ctx_flags) flagSubscribed else IsSubscribed ch' w.(cl).
Proof. unfold IsSubscribed, record_channel. simpl. rewrite lookup_insert. by case_decide. Qed.

Lemma IsSubscribed_leave ch ch' w :
  IsSubscribed ch' (leave_channel ch w).(cl) = if decide (ch = ch') then false else IsSubscribed ch' w.(cl).
Proof. unfold IsSubscribed, leave_channel. simpl. rewrite lookup_delete. by case_decide. Qed.

Lemma channels_record ch ch' ctx w :
  (record_channel ch ctx w).(cl).(channels) !! ch' = if decide (ch = ch') then Some ctx else w.(cl).(channels) !! ch'.
Proof. unfold record_channel. simpl. apply lookup_insert. Qed.

Lemma channels_leave ch ch' w :
  (leave_channel ch w).(cl).(channels) !! ch' = if decide (ch = ch') then None else w.(cl).(channels) !! ch'.
Proof. unfold leave_channel. simpl. apply lookup_delete. Qed.

Lemma elem_of_split_middle (ch' ch : string) l1 l2 : ch' ∈ l1 ++ ch :: l2 <-> ch' = ch \/ ch' ∈ l1 ++ l2.
Proof. set_solver. Qed.

Lemma stain_record_spec ch name s ch' :
  ch' ∉ stain_record ch name s ->
  ch' ∉ s.(stained) /\ (open s.(sw) = true /\ ch ∉ s.(leaving) /\ name = ch \/ ch' <> ch /\ ch' <> name).
Proof.
  unfold stain_record. destruct (open (sw s)); simpl; [|set_solver].
  repeat case_bool_decide; simpl; set_solver.
Qed.

Lemma stain_abandon_spec ch s ch' :
  ch' ∉ stain_abandon ch s ->
  ch' ∉ s.(stained) /\ (open s.(sw) = true /\ is_Some (s.(sw).(cl).(channels) !! ch) \/ ch' <> ch).
Proof.
  unfold stain_abandon. destruct (open (sw s)); simpl; [|set_solver].
  case_bool_decide; simpl; [naive_solver|set_solver].
Qed.

Lemma stain_leave_spec ch s ch' :
  ch' ∉ stain_leave ch s -> ch' ∉ s.(stained) /\ (ch ∉ s.(flight) \/ ch' <> ch).
Proof. unfold stain_leave. case_bool_decide; set_solver. Qed.

(** *** Each step keeps the invariant *)

Lemma agree_quiet s w' :
  agree s -> quiet s.(sw) w' -> agree (mkSys w' s.(flight) s.(leaving) s.(todo) s.(stained)).
Proof.
  intros (subs & Hr & H) (Hu & Hc & Hs & Hh). exists subs. split; [by eapply subs_rel_ext|]. simpl. rewrite Hu.
  intros ch Hch. destruct (H ch Hch) as [H1 H2 H3 H4 H5].
  assert (Hsub : IsSubscribed ch (cl w') = IsSubscribed ch (cl (sw s))) by (unfold IsSubscribed; by rewrite Hc).
  split; cbn [sw flight leaving todo stained]; rewrite ?Hc, ?Hsub; try done. intros Ho. apply H5. unfold open in *.
  by rewrite (bool_decide_ext _ _ Hs) in Ho.
Qed.

Lemma agree_record_empty ch s :
  agree s -> agree (mkSys (record_channel ch zero_ctx s.(sw)) s.(flight) s.(leaving) s.(todo) s.(stained)).
Proof.
  intros (subs & Hr & H). exists subs. split; [done|]. simpl. intros ch' Hch. destruct (H ch' Hch) as [H1 H2 H3 H4 H5].
  split; cbn [sw flight leaving todo stained]; rewrite ?channels_record, ?IsSubscribed_record; try done;
    change (channelHasFlag (ctx_flags zero_ctx) flagSubscribed) with false; case_decide; naive_solver.
Qed.

Lemma agree_reserve e ch s w' :
  agree s -> validateSubscribeRequest e ch s.(sw) = (w', None) ->
  agree (mkSys w' s.(flight) s.(leaving) s.(todo) s.(stained)).
Proof.
  intros Ha H. unfold validateSubscribeRequest in H.
  repeat (case_match || case_bool_decide); simplify_eq. by apply agree_record_empty.
Qed.

Lemma agree_add e ch s w' r :
  agree s -> subscribe_add e ch s.(sw) = (w', r) ->
  agree (mkSys w' (match r with None => ch :: s.(flight) | Some _ => s.(flight) end) s.(leaving) s.(todo) s.(stained)).
Proof.
  intros (subs & Hr & H) Hadd. destruct (subscribe_add_subs _ _ _ _ _ _ Hr Hadd) as (Hc & subs' & Hr' & Hin).
  exists subs'. split; [done|]. simpl. rewrite Hc. intros ch' Hch. destruct (H ch' Hch) as [H1 H2 H3 H4 H5].
  split; cbn [sw flight leaving todo stained]; unfold open in *; rewrite ?Hin, ?Hc; try done.
  - intros [Hh|[-> ->]]; [|right; left; by left]. destruct (H1 Hh) as [?|[?|?]]; destruct r; auto. right; left; by right.
  - intros Hs. left. by apply H2.
  - destruct r; [intros Hf; left; by apply H3|]. intros [->|Hf]%elem_of_cons; [by right|left; by apply H3].
  - intros Ho [Hh|[-> ->]]; [|left; by left]. destruct (H5 Ho Hh) as [?|?]; destruct r; auto. left; by right.
Qed.

Lemma agree_record ch name ctx s f1 f2 :
  agree s -> s.(flight) = f1 ++ ch :: f2 ->
  agree (mkSys (record_channel name ctx s.(sw)) (f1 ++ f2) s.(leaving) s.(todo) (stain_record ch name s)).
Proof.
  intros (subs & Hr & H) Hf. exists subs. split; [done|]. simpl. intros ch' Hch.
  apply stain_record_spec in Hch as [Hch Hcase]. destruct (H ch' Hch) as [H1 H2 H3 H4 H5].
  rewrite Hf in *. setoid_rewrite elem_of_split_middle in H1. rewrite elem_of_split_middle in H3.
  setoid_rewrite elem_of_split_middle in H5.
  destruct Hcase as [(Ho & Hl & ->)|[Hne Hne']];
    split; cbn [sw flight leaving todo stained]; rewrite ?channels_record, ?IsSubscribed_record.
  - case_decide; [eauto|]. intros Hh. destruct (H1 Hh) as [?|[[->|?]|?]]; auto; done.
  - case_decide; [subst; intros _; apply H3; by left|apply H2].
  - intros Hin. apply H3. by right.
  - intros Hin. case_decide; [by subst|by apply H4].
  - intros Hc. unfold open in *. simpl in Hc. congruence.
  - rewrite decide_False by done. intros Hh. destruct (H1 Hh) as [?|[[->|?]|?]]; auto; done.
  - rewrite decide_False by done. apply H2.
  - intros Hin. apply H3. by right.
  - rewrite decide_False by done. apply H4.
  - intros Hc Hh. destruct (H5 Hc Hh) as [[->|?]|?]; auto; done.
Qed.

Lemma agree_record_client e ch role reply s f1 f2 w' ctx :
  agree s -> s.(flight) = f1 ++ ch :: f2 -> subscribe_record e ch role reply false s.(sw) = (w', ctx) ->
  agree (mkSys w' (f1 ++ f2) s.(leaving) s.(todo) (stain_record ch ch s)).
Proof.
  intros Ha Hf H. unfold subscribe_record in H. simplify_eq.
  set (w1 := writeEncodedCommandReply e (PushReply ch "subscribe") (sw s)).
  assert (Hq : quiet (sw s) w1).
  { unfold w1, writeEncodedCommandReply, transportEnqueue. by destruct (write_result e). }
  pose proof (agree_quiet s w1 Ha Hq) as Ha1.
  assert (Hst : stain_record ch ch s = stain_record ch ch (mkSys w1 s.(flight) s.(leaving) s.(todo) s.(stained))).
  { unfold stain_record, open. simpl. destruct Hq as (_ & _ & Hs & _). by rewrite (bool_decide_ext _ _ Hs). }
  rewrite Hst. by apply (agree_record ch ch _ _ f1 f2 Ha1).
Qed.

Lemma agree_abandon ch s f1 f2 :
  agree s -> s.(flight) = f1 ++ ch :: f2 ->
  agree (mkSys s.(sw) (f1 ++ f2) s.(leaving) s.(todo) (stain_abandon ch s)).
Proof.
  intros (subs & Hr & H) Hf. exists subs. split; [done|]. simpl. intros ch' Hch.
  apply stain_abandon_spec in Hch as [Hch Hcase]. destruct (H ch' Hch) as [H1 H2 H3 H4 H5].
  rewrite Hf in *. setoid_rewrite elem_of_split_middle in H1. rewrite elem_of_split_middle in H3.
  setoid_rewrite elem_of_split_middle in H5.
  split; cbn [sw flight leaving todo stained]; try done.
  - intros Hh. destruct (H1 Hh) as [?|[[->|?]|?]]; auto. destruct Hcase as [[_ ?]|?]; auto. done.
  - intros Hin. apply H3. by right.
  - intros Ho Hhas. destruct Hcase as [(Ho' & _)|Hne]; [congruence|].
    destruct (H5 Ho Hhas) as [[->|?]|?]; auto; done.
Qed.

Lemma agree_update ch ctx ctx' s :
  agree s -> s.(sw).(cl).(channels) !! ch = Some ctx -> ctx'.(ctx_flags) = ctx.(ctx_flags) ->
  agree (mkSys (record_channel ch ctx' s.(sw)) s.(flight) s.(leaving) s.(todo) s.(stained)).
Proof.
  intros (subs & Hr & H) Hc Hf. exists subs. split; [done|]. simpl. intros ch' Hch. destruct (H ch' Hch) as [H1 H2 H3 H4 H5].
  assert (Hsub : IsSubscribed ch' (cl (record_channel ch ctx' (sw s))) = IsSubscribed ch' (cl (sw s))).
  { rewrite IsSubscribed_record. case_decide; [subst|done]. unfold IsSubscribed. by rewrite Hc, Hf. }
  split; cbn [sw flight leaving todo stained]; rewrite ?channels_record, ?Hsub; try done. case_decide; subst; eauto.
Qed.

Lemma agree_leave_channel ch s t' :
  agree s -> (forall ch', ch' ∈ s.(todo) -> ch' ∈ ch :: t') ->
  agree (mkSys (leave_channel ch s.(sw)) s.(flight) (ch :: s.(leaving)) t' s.(stained)).
Proof.
  intros (subs & Hr & H) Ht. exists subs. split; [done|]. simpl. intros ch' Hch. destruct (H ch' Hch) as [H1 H2 H3 H4 H5].
  split; cbn [sw flight leaving todo stained]; rewrite ?channels_leave, ?IsSubscribed_leave, ?elem_of_cons.
  - case_decide; [subst; auto|]. intros Hh. destruct (H1 Hh) as [?|[?|?]]; auto.
  - case_decide; [done|apply H2].
  - done.
  - intros [->|Hin]; [by rewrite decide_True|]. case_decide; [done|by apply H4].
  - intros Ho Hhas. destruct (H5 Ho Hhas) as [?|[?|[->|?]%Ht%elem_of_cons]]; auto.
Qed.

Lemma agree_leave_hub ch s l1 l2 :
  agree s -> s.(leaving) = l1 ++ ch :: l2 ->
  agree (mkSys (leave_hub ch s.(sw)) s.(flight) (l1 ++ l2) s.(todo) (stain_leave ch s)).
Proof.
  intros (subs & Hr & H) Hl. destruct (removeSubscription_subs ch (client_of (cl (sw s))) _ _ Hr) as (subs' & Hr' & Hg).
  exists subs'. split; [done|]. simpl. intros ch' Hch. apply stain_leave_spec in Hch as [Hch Hcase].
  destruct (H ch' Hch) as [H1 H2 H3 H4 H5]. rewrite Hl in *.
  setoid_rewrite elem_of_split_middle in H1. rewrite elem_of_split_middle in H4. setoid_rewrite elem_of_split_middle in H5.
  assert (Hin : in_hub ch' (uid (cl (sw s))) subs' <-> in_hub ch' (uid (cl (sw s))) subs /\ ch' <> ch).
  { unfold in_hub. rewrite Hg. case_decide; [subst; simpl; rewrite lookup_delete_eq|]; [|naive_solver].
    split; [by intros []|by intros [_ ?]]. }
  split; cbn [sw flight leaving todo stained].
  - intros [Hh Hne]%Hin. destruct (H1 Hh) as [?|[?|[->|?]]]; auto; done.
  - intros Hs. apply Hin. split; [by apply H2|]. intros ->. change (IsSubscribed ch (cl (sw s)) = true) in Hs.
    rewrite H4 in Hs; [done|by left].
  - intros Hf. apply Hin. split; [by apply H3|]. intros ->. by destruct Hcase.
  - intros Hl'. apply H4. by right.
  - intros Ho [Hh Hne]%Hin. destruct (H5 Ho Hh) as [?|[[->|?]|?]]; auto; done.
Qed.

Lemma agree_close_mark order s :
  agree s -> (forall ch, is_Some (s.(sw).(cl).(channels) !! ch) -> ch ∈ order) ->
  agree (mkSys (close_mark s.(sw)) s.(flight) s.(leaving) order s.(stained)).
Proof.
  intros (subs & Hr & H) Hord. exists subs. split; [done|]. simpl. intros ch' Hch. destruct (H ch' Hch) as [H1 H2 H3 H4 H5].
  split; cbn [sw flight leaving todo stained]; try done. intros _ Hhas. destruct (H1 Hhas) as [?%Hord|?]; tauto.
Qed.

Lemma agree_close_skip ch s t1 t2 :
  agree s -> s.(todo) = t1 ++ ch :: t2 -> s.(sw).(cl).(channels) !! ch = None ->
  agree (mkSys s.(sw) s.(flight) s.(leaving) (t1 ++ t2) s.(stained)).
Proof.
  intros (subs & Hr & H) Ht Hn. exists subs. split; [done|]. simpl. intros ch' Hch. destruct (H ch' Hch) as [H1 H2 H3 H4 H5].
  rewrite Ht in H5. setoid_rewrite elem_of_split_middle in H5. split; cbn [sw flight leaving todo stained]; try done.
  intros Ho Hhas. destruct (H5 Ho Hhas) as [?|[?|[->|?]]]; [by auto..| |by auto].
  destruct (H1 Hhas) as [Hx|?]; [rewrite Hn in Hx; by destruct Hx|tauto].
Qed.

(** Others only touch their own entries. *)
Lemma agree_other s n' subs' :
  agree s -> subs_rel n'.(hub) subs' ->
  (forall subs, subs_rel s.(sw).(nd).(hub) subs ->
     forall ch, nest_get ch subs' !! s.(sw).(cl).(uid) = nest_get ch subs !! s.(sw).(cl).(uid)) ->
  agree (mkSys (with_nd n' s.(sw)) s.(flight) s.(leaving) s.(todo) s.(stained)).
Proof.
  intros (subs & Hr & H) Hr' Heq. exists subs'. split; [done|]. simpl. intros ch Hch. unfold in_hub.
  rewrite (Heq subs Hr). destruct (H ch Hch). by split.
Qed.

(** The hub determines its subscriptions. *)
Lemma subs_rel_get h s1 s2 ch : subs_rel h s1 -> subs_rel h s2 -> nest_get ch s1 = nest_get ch s2.
Proof.
  intros (_ & _ & H1) (_ & _ & H2). pose proof (shard_index_lt ch).
  rewrite <- (shard_nest_get shard_index ch s1), <- (shard_nest_get shard_index ch s2). by rewrite <- H1, <- H2.
Qed.

Lemma client_step_agree s s' : agree s -> client_step s s' -> agree s'.
Proof.
  intros Ha Hs. pose proof Ha as (subs & Hr & _). destruct Hs.
  - by apply agree_quiet.
  - by eapply agree_reserve.
  - by apply (agree_add e ch s w' (Some ctx)).
  - by apply (agree_add e ch s w' None).
  - by eapply agree_record_client.
  - by apply agree_record.
  - by apply agree_record_empty.
  - by apply agree_abandon.
  - by eapply agree_update.
  - apply agree_leave_channel; [done|]. set_solver.
  - by apply agree_leave_hub.
  - by apply agree_close_mark.
  - apply agree_leave_channel; [done|]. intros ch'. rewrite H, elem_of_split_middle, elem_of_cons. done.
  - by eapply agree_close_skip.
  - destruct (addSubscription_subs ch c accepts _ _ Hr) as (subs' & Hr' & Hg). eapply agree_other; [done..|].
    intros s2 Hr2 ch'. rewrite <- (subs_rel_get _ _ _ ch' Hr Hr2), Hg.
    destruct (is_ok _); [|done]. case_decide; [subst|done]. by rewrite lookup_insert_ne.
  - destruct (removeSubscription_subs ch c _ _ Hr) as (subs' & Hr' & Hg). eapply agree_other; [done..|].
    intros s2 Hr2 ch'. rewrite <- (subs_rel_get _ _ _ ch' Hr Hr2), Hg.
    case_decide; [subst|done]. by rewrite lookup_delete_ne.
Qed.

Lemma rtc_agree s s' : rtc client_step s s' -> agree s -> agree s'.
Proof. induction 1; eauto using client_step_agree. Qed.

(** *** Calls that run alone

    A call that no other call of the connection overlaps is a run of these steps
    that stains nothing. *)

Lemma quiet_refl w : quiet w w.
Proof. done. Qed.

Lemma quiet_step s w' : quiet s.(sw) w' -> rtc client_step s (mkSys w' s.(flight) s.(leaving) s.(todo) s.(stained)).
Proof. intros Hq. by apply rtc_once, cs_quiet. Qed.

Lemma quiet_enqueue e p w : quiet w (fst (transportEnqueue e p w)).
Proof. unfold transportEnqueue. by destruct (write_result e). Qed.

Lemma transportEnqueue_cl e p w : (fst (transportEnqueue e p w)).(cl) = w.(cl).
Proof. unfold transportEnqueue. by destruct (write_result e). Qed.

Lemma transportEnqueue_nd e p w : (fst (transportEnqueue e p w)).(nd) = w.(nd).
Proof. unfold transportEnqueue. by destruct (write_result e). Qed.

(** The second half of an unsubscribe. *)
Lemma unsubscribe_rest ch u w f l t st :
  ch ∉ f -> is_Some (w.(cl).(channels) !! ch) ->
  rtc client_step (mkSys (leave_channel ch w) f (ch :: l) t st) (mkSys (Client_unsubscribe ch u w) f l t st).
Proof.
  intros Hf [ctx Hc]. unfold Client_unsubscribe. rewrite Hc.
  set (w1 := if channelHasFlag (ctx_flags ctx) flagEmitPresence && _ then _ else _).
  assert (Hq : quiet (leave_channel ch w) w1) by (unfold w1; by destruct (_ && _)).
  etrans; [exact (quiet_step (mkSys _ f (ch :: l) t st) w1 Hq)|]. simpl.
  eapply rtc_l; [exact (cs_leave_hub ch (mkSys w1 f (ch :: l) t st) [] l eq_refl)|].
  unfold stain_leave. simpl. rewrite bool_decide_eq_false_2 by done.
  apply (quiet_step (mkSys (leave_hub ch w1) f l t st)). by destruct (channelHasFlag _ flagSubscribed).
Qed.

Lemma unsubscribe_run ch u w f l t st :
  ch ∉ f -> rtc client_step (mkSys w f l t st) (mkSys (Client_unsubscribe ch u w) f l t st).
Proof.
  intros Hf. destruct (channels (cl w) !! ch) as [ctx|] eqn:Hc.
  - eapply rtc_l; [exact (cs_leave_channel ch (mkSys w f l t st))|]. apply unsubscribe_rest; eauto.
  - unfold Client_unsubscribe. rewrite Hc. apply rtc_refl.
Qed.

Lemma onSubscribeError_run ch w f l t st :
  ch ∉ f -> rtc client_step (mkSys w f l t st) (mkSys (onSubscribeError ch w) f l t st).
Proof.
  intros Hf. unfold onSubscribeError. destruct (channels (cl w) !! ch) as [ctx|]; [|apply rtc_refl].
  eapply rtc_l; [exact (cs_leave_channel ch (mkSys w f l t st))|]. simpl.
  eapply rtc_l; [exact (cs_leave_hub ch (mkSys (leave_channel ch w) f (ch :: l) t st) [] l eq_refl)|].
  unfold stain_leave. simpl. rewrite bool_decide_eq_false_2 by done. apply rtc_refl.
Qed.

Lemma flush_run e ch err w f l t st :
  rtc client_step (mkSys w f l t st) (mkSys (writeDisconnectOrErrorFlush e ch err w) f l t st).
Proof.
  apply (quiet_step (mkSys w f l t st)). unfold writeDisconnectOrErrorFlush, writeError, writeEncodedCommandReply.
  destruct err; try apply quiet_enqueue. done.
Qed.

Lemma close_loop_run order w st :
  rtc client_step (mkSys w [] [] order st)
    (idle (fold_left (fun w ch => Client_unsubscribe ch unsubscribeDisconnect w) order w) st).
Proof.
  revert w. induction order as [|ch order IH]; intros w; [apply rtc_refl|]. simpl.
  etrans; [|apply IH]. destruct (channels (cl w) !! ch) as [ctx|] eqn:Hc.
  - eapply rtc_l; [exact (cs_close_leave ch (mkSys w [] [] (ch :: order) st) [] order eq_refl)|].
    apply unsubscribe_rest; [apply not_elem_of_nil|eauto].
  - eapply rtc_l; [exact (cs_close_skip ch (mkSys w [] [] (ch :: order) st) [] order eq_refl Hc)|].
    unfold Client_unsubscribe. rewrite Hc. apply rtc_refl.
Qed.

Lemma quiet_close_finish e d prev w : quiet w (close_finish e d prev w).
Proof.
  unfold close_finish, transportEnqueue.
  destruct (authenticated (cl w)), (negb (dcode d =? dcode DisconnectConnectionClosed)%Z), (write_result e), prev; done.
Qed.



Lemma close_run e d order w st :
  (forall ch, is_Some (w.(cl).(channels) !! ch) -> ch ∈ order) ->
  rtc client_step (idle w st) (idle (Client_close e d order w) st).
Proof.
  intros Hord. unfold Client_close. destruct (cstatus (cl w)) eqn:Hst; [| |apply rtc_refl].
  all: eapply rtc_l; [apply (cs_close_mark order (idle w st)); [unfold open; simpl; by rewrite Hst|done]|].
  all: etrans; [apply close_loop_run|].
  all: apply (quiet_step (idle _ st)), quiet_close_finish.
Qed.

(** A refused [subscribe_add] carries an error or a disconnect. *)
Lemma subscribe_add_result e ch w w' r :
  subscribe_add e ch w = (w', r) ->
  w'.(cl) = w.(cl) /\
  match r with Some ctx => ctx.(sc_disconnect) = None -> ctx.(sc_err) <> None | None => True end.
Proof.
  unfold subscribe_add. destruct (is_ok _); simpl; [by intros [= <- <-]|].
  destruct (broker_result e) as [[err|d|m]|]; [case_bool_decide|..]; by intros [= <- <-].
Qed.

(** Filing a channel that no other call works on stains nothing. *)
Lemma stain_record_alone ch w1 w2 f st :
  open w1 = true -> quiet w1 w2 -> stain_record ch ch (mkSys w2 f [] [] st) = st.
Proof.
  intros Ho (_ & _ & Hs & _). unfold stain_record, open in *. simpl. rewrite (bool_decide_ext _ _ Hs), Ho.
  by rewrite (bool_decide_eq_true_2 (ch = ch)).
Qed.

(** A subscribe that was added files its channel on the open connection. *)
Lemma record_run e ch role reply w1 w2 w3 ctx st :
  open w1 = true -> quiet w1 w2 -> subscribe_record e ch role reply false w2 = (w3, ctx) ->
  rtc client_step (mkSys w1 [ch] [] [] st) (idle w3 st).
Proof.
  intros Ho Hq Hr. eapply rtc_l; [exact (cs_quiet (mkSys w1 [ch] [] [] st) w2 Hq)|].
  eapply rtc_l; [exact (cs_record_client e ch role reply (mkSys w2 [ch] [] [] st) [] [] w3 ctx eq_refl Hr)|].
  simpl. rewrite (stain_record_alone ch w1) by done. apply rtc_refl.
Qed.

(** [subscribeCmd] from [addSubscription] on, for a reserved channel: it ends with
    no call under way, and with neither an error nor a disconnect, or with one. *)
Lemma resolved_run e ch role reply w w' ctx st :
  open w = true -> is_Some (w.(cl).(channels) !! ch) ->
  subscribe_resolved e ch role reply false w = (w', ctx) -> rtc client_step (idle w st) (idle w' st).
Proof.
  intros Ho Hres H. unfold subscribe_resolved in H. destruct (subscribe_add e ch w) as [w1 refused] eqn:Hadd.
  destruct (subscribe_add_result _ _ _ _ _ Hadd) as [Hc1 _]. destruct refused as [ctx'|].
  { simplify_eq. apply rtc_once. exact (cs_refused e ch (idle w st) w' ctx Hadd). }
  eapply rtc_l; [exact (cs_added e ch (idle w st) w1 Hadd)|]. simpl.
  assert (Ho1 : open w1 = true) by (unfold open in *; by rewrite Hc1).
  unfold subscribe_presence in H. destruct (so_EmitPresence (Options reply)); [destruct (presence_result e)|].
  - simplify_eq. eapply rtc_l; [exact (cs_abandon ch (mkSys w' [ch] [] [] st) [] [] eq_refl)|].
    unfold stain_abandon. simpl. rewrite Ho1, Hc1, bool_decide_eq_true_2 by done. apply rtc_refl.
  - eapply record_run; [exact Ho1| |exact H]. done.
  - eapply record_run; [exact Ho1| |exact H]. done.
Qed.

Lemma callback_run e ch r order w w' st :
  open w = true -> plain ch = true -> is_Some (w.(cl).(channels) !! ch) ->
  subscribe_callback e ch r order w = Ok w' -> rtc client_step (idle w st) (idle w' st).
Proof.
  intros Ho Hpl Hres H.
  assert (Hfail : forall w1 err, rtc client_step (idle w st) (idle w1 st) ->
    rtc client_step (idle w st) (idle (writeDisconnectOrErrorFlush e ch err (onSubscribeError ch w1)) st)).
  { intros w1 err Hrun. etrans; [exact Hrun|]. etrans; [by apply onSubscribeError_run, not_elem_of_nil|]. apply flush_run. }
  unfold subscribe_callback in H. destruct r as [reply|err]; [|simplify_eq; apply Hfail, rtc_refl].
  destruct (plain_subscribeCmd e ch reply false order w Hpl) as [E|E]; rewrite E in H; simpl in H;
    [simplify_eq; apply (Hfail w (EClient ErrorExpired)), rtc_refl|].
  destruct (subscribe_resolved e ch _ reply false w) as [w1 ctx] eqn:Hs.
  pose proof (resolved_run _ _ _ _ _ _ _ st Ho Hres Hs) as Hrun.
  destruct (sc_disconnect ctx) as [d|], (sc_err ctx) as [err|]; simplify_eq;
    [exact (Hfail w1 (EDisconnect d) Hrun)..|exact (Hfail w1 (EClient err) Hrun)|done].
Qed.

Lemma server_run e ch opts order w w' err st :
  open w = true -> plain ch = true -> e.(presence_result) = None ->
  Subscribe_server e ch opts order w = Ok (w', err) -> rtc client_step (idle w st) (idle w' st).
Proof.
  intros Ho Hpl Hp H. unfold Subscribe_server in H. case_bool_decide; [simplify_eq; apply rtc_refl|].
  case_match; [simplify_eq; by apply (quiet_step (idle w st))|].
  destruct (plain_subscribeCmd e ch (mkSubscribeReply opts false) true order w Hpl) as [E|E]; rewrite E in H; simpl in H;
    [simplify_eq; by apply onSubscribeError_run, not_elem_of_nil|].
  unfold subscribe_resolved in H. destruct (subscribe_add e ch w) as [w1 refused] eqn:Hadd.
  destruct (subscribe_add_result _ _ _ _ _ Hadd) as [Hc1 Href]. destruct refused as [ctx|].
  { eapply rtc_l; [exact (cs_refused e ch (idle w st) w1 ctx Hadd)|].
    destruct (sc_err ctx); [simplify_eq; by apply onSubscribeError_run, not_elem_of_nil|].
    destruct (sc_disconnect ctx); [done|]. by destruct (Href eq_refl). }
  eapply rtc_l; [exact (cs_added e ch (idle w st) w1 Hadd)|]. simpl.
  set (w2 := fst (subscribe_presence e ch opts w1)).
  assert (Hsp : subscribe_presence e ch opts w1 = (w2, None) /\ quiet w1 w2).
  { unfold w2, subscribe_presence. rewrite Hp. by destruct (so_EmitPresence opts). }
  destruct Hsp as [Hsp Hq]. cbn [Options] in H. rewrite Hsp in H. simpl in H.
  match type of H with context [record_channel ch ?c w2] => set (ctx := c) in H end.
  eapply rtc_l; [exact (cs_quiet (mkSys w1 [ch] [] [] st) w2 Hq)|]. simpl.
  eapply rtc_l; [exact (cs_record_server ch ch ctx (mkSys w2 [ch] [] [] st) [] [] eq_refl)|].
  simpl. rewrite (stain_record_alone ch w1) by (done || unfold open in *; by rewrite Hc1). destruct (transportEnqueue _ _ _) as [w3 ok] eqn:Ht. simplify_eq.
  match type of Ht with transportEnqueue _ ?p ?x = _ => pose proof (quiet_enqueue e p x) as Hqe end. rewrite Ht in Hqe.
  exact (quiet_step (idle _ st) w' Hqe).
Qed.

Lemma publication_run e ch data w st :
  rtc client_step (idle w st) (idle (writePublicationUpdatePosition e ch data w) st).
Proof.
  unfold writePublicationUpdatePosition. destruct (channels (cl w) !! ch) as [ctx|] eqn:Hc; [|apply rtc_refl].
  destruct (channelHasFlag _ _); [|apply rtc_refl].
  eapply rtc_l; [eapply (cs_update ch ctx _ (idle w st)); [done|]|]; [|apply (quiet_step (idle _ st)), quiet_enqueue]. done.
Qed.


(** A node that accepts everything, at time 1000 s, without limits. *)
Definition sample_env : env := mkEnv (1000 * second) 0 0 0 0 0 (25 * second) None None None.

Definition sample_world : world :=
  mkWorld (NewClient "c1" 0 0) newNode ∅ [] [] [] None.

Lemma sample_world_fresh : fresh_world sample_world.
Proof.
  split; [done|]. split; [done|]. exists ∅. split; [apply subs_rel_new|]. intros ch.
  unfold nest_get. rewrite (lookup_empty ch). apply lookup_empty.
Qed.

Definition sample_reply : SubscribeReply := mkSubscribeReply (WithEmitPresence true zero_subscribe) false.

Definition run_or {A} (w : A) (m : outcome Empty_set A) : A := match m with Ok w' => w' | _ => w end.

(** Reserved, subscribed, then closed. *)
Definition sample_reserved : world := fst (validateSubscribeRequest sample_env "ch" sample_world).
Definition sample_subscribed : world :=
  run_or sample_reserved (subscribe_callback sample_env "ch" (inl sample_reply) [] sample_reserved).
Definition sample_closed : world :=
  Client_close sample_env DisconnectShutdown (map_to_list sample_subscribed.(cl).(channels)).*1 sample_subscribed.

Lemma sample_run : rtc client_step (idle sample_world ∅) (idle sample_subscribed ∅).
Proof.
  eapply rtc_l; [exact (cs_reserve sample_env "ch" (idle sample_world ∅) sample_reserved eq_refl)|].
  apply (callback_run sample_env "ch" (inl sample_reply) []); [reflexivity|reflexivity| |reflexivity].
  exists zero_ctx. reflexivity.
Qed.


(** The overlaps that stain a channel do separate the two: when the server
    unsubscribes an open connection from a channel between the two halves of its
    subscribe, the connection counts as subscribed and the hub does not have it,
    with no call left that would repair it. *)
Theorem overlapping_unsubscribe_diverges :
  exists w, rtc client_step (idle sample_world ∅) (idle w {["ch"]}) /\
    open w = true /\ IsSubscribed "ch" w.(cl) = true /\ hub_subscribed "ch" w.(cl).(uid) w.(nd).(hub) = false.
Proof.
  set (w1 := fst (subscribe_add sample_env "ch" sample_reserved)).
  set (w2 := Client_unsubscribe "ch" unsubscribeServer w1).
  eexists (fst (subscribe_record sample_env "ch" 0 sample_reply false w2)). split.
  - eapply rtc_l; [exact (cs_reserve sample_env "ch" (idle sample_world ∅) sample_reserved eq_refl)|].
    eapply rtc_l; [exact (cs_added sample_env "ch" (idle sample_reserved ∅) w1 eq_refl)|]. simpl.
    eapply rtc_l; [exact (cs_leave_channel "ch" (mkSys w1 ["ch"] [] [] ∅))|]. simpl.
    eapply rtc_l; [exact (cs_leave_hub "ch" (mkSys (leave_channel "ch" w1) ["ch"] ["ch"] [] ∅) [] [] eq_refl)|]. simpl.
    eapply rtc_l; [exact (cs_record_client sample_env "ch" 0 sample_reply (mkSys w2 ["ch"] [] [] {["ch"]}) [] [] _ _ eq_refl eq_refl)|].
    apply rtc_refl.
  - vm_compute. done.
Qed.

(** The callback of a subscribe handler does not look at the status: when
    it runs after the connection was closed, and the broker accepts, the
    connection is filed in the hub again, where no later step of the closed
    connection takes it out. *)
Theorem late_callback_leaks e ch reply order w subs :
  subs_rel w.(nd).(hub) subs -> w.(cl).(cstatus) = statusClosed -> plain ch = true ->
  e.(broker_result) = None -> e.(presence_result) = None -> reply.(Options).(so_ExpireAt) = 0%Z ->
  exists w', subscribe_callback e ch (inl reply) order w = Ok w' /\
    w'.(cl).(cstatus) = statusClosed /\
    hub_subscribed ch w'.(cl).(uid) w'.(nd).(hub) = true.
Proof.
  intros Hr Hst Hpl Hb Hp He. unfold subscribe_callback, subscribeCmd. rewrite He. simpl.
  unfold plain in Hpl. apply negb_true_iff in Hpl. rewrite Hpl. simpl.
  destruct (addSubscription_subs ch (client_of (cl w)) true _ _ Hr) as (subs' & Hr' & Hg).
  unfold subscribe_resolved, subscribe_add, subscribe_presence, subscribe_record, record_channel. rewrite Hb, Hp.
  assert (is_ok (addSubscription ch (client_of (cl w)) true (nd w)) = true) as Hok.
  { unfold addSubscription. destruct (Hub_addSub ch _ _) as [h first]. by destruct first. }
  rewrite Hok in *. simpl. destruct (so_EmitPresence (Options reply)); simpl; eexists; (split; [reflexivity|]);
    unfold writeEncodedCommandReply; simpl; rewrite !transportEnqueue_cl, !transportEnqueue_nd; simpl;
    (split; [done|]); apply (hub_subscribed_rel _ _ _ _ Hr'); rewrite Hg, decide_True by done;
    by rewrite lookup_insert_eq.
Qed.

Lemma late_callback_leaks_witness :
  exists w', subscribe_callback sample_env "late" (inl sample_reply) [] sample_closed = Ok w' /\
    w'.(cl).(cstatus) = statusClosed /\ hub_subscribed "late" w'.(cl).(uid) w'.(nd).(hub) = true.
Proof.
  assert (Ha : agree (idle sample_closed ∅)).
  { eapply rtc_agree; [|apply agree_fresh, sample_world_fresh]. etrans; [apply sample_run|]. apply close_run. intros ch Hch. by apply elem_of_map_keys. }
  destruct Ha as (subs & Hr & _).
  apply (late_callback_leaks sample_env "late" sample_reply [] sample_closed subs Hr); reflexivity.
Defined.

(** Options of a subscription that expired before the connect. *)
Definition expired_options : SubscribeOptions := WithExpireAt 1 zero_subscribe.

Definition sample_connect_reply : ConnectReply :=
  mkConnectReply (Some (mkCredentials "u" 0 "")) false [("a", zero_subscribe); ("b", expired_options)] None.

(** A connect whose second server-side subscription fails undoes nothing
    in the hub: [onSubscribeError] only acts on channels the connection has,
    and server-side ones are not recorded yet.  The connect returns the error,
    and after the connection is closed its first subscription is still filed. *)
Theorem connect_error_leaks :
  exists w err,
    connectCmd sample_env (Some (inl sample_connect_reply)) None (0%Z, 0%Z) [] sample_world = Ok (w, Some err) /\
    err = EClient ErrorExpired /\
    let w' := Client_close sample_env DisconnectExpired (map_to_list w.(cl).(channels)).*1 w in
    w'.(cl).(cstatus) = statusClosed /\ hub_subscribed "a" w'.(cl).(uid) w'.(nd).(hub) = true.
Proof.
  destruct (connectCmd sample_env (Some (inl sample_connect_reply)) None (0%Z, 0%Z) [] sample_world)
    as [[w err]|x|p] eqn:H; [|destruct x|vm_compute in H; discriminate H].
  vm_compute in H. injection H as <- <-. eexists _, _. split; [reflexivity|]. split; [reflexivity|].
  vm_compute. split; reflexivity.
Qed.

(** Subscribing to [a:b] panics when the walk over the connection's
    channels meets a channel named [a] without a dash: the completion of the
    name indexes past the split. *)
Theorem colon_channel_panics e reply serverSide order w :
  (reply.(Options).(so_ExpireAt) <= 0)%Z ->
  subscribeCmd e "a:b" reply serverSide ("a" :: order) w = Panic IndexOutOfRange.
Proof.
  intros He. unfold subscribeCmd. destruct (Z.ltb_spec 0 (so_ExpireAt (Options reply))); [lia|]. reflexivity.
Qed.

Lemma colon_channel_panics_witness :
  subscribeCmd sample_env "a:b" sample_reply false ["a"] sample_subscribed = Panic IndexOutOfRange.
Proof. apply (colon_channel_panics sample_env sample_reply false [] sample_subscribed). vm_compute. discriminate. Defined.

(** The time of an operation, if it is scheduled. *)
Definition scheduled (t : Timers) (op : timer_op) : option Z :=
  let at_ (z : Z) := if (0 <? z)%Z then Some z else None in
  match op with
  | timerOpPresence => at_ t.(nextPresence)
  | timerOpExpire => at_ t.(nextExpire)
  | timerOpPing => at_ t.(nextPing)
  | _ => None
  end.

Lemma next_timer_spec t :
  match next_timer t with
  | (timerOpNone, _) => forall op, scheduled t op = None
  | (op, at_) => scheduled t op = Some at_ /\ forall op' t', scheduled t op' = Some t' -> (at_ <= t')%Z
  end.
Proof.
  destruct t as [op tm np ne ng lp]. unfold next_timer, scheduled. simpl.
  destruct (Z.ltb_spec 0 ne), (Z.ltb_spec 0 np), (Z.ltb_spec 0 ng); simpl;
    destruct (Z.eqb_spec ne 0), (Z.ltb_spec np ne); try lia; simpl;
    repeat match goal with
    | |- context [if ((?a =? 0)%Z || (?b <? ?a)%Z) then _ else _] =>
        destruct (Z.eqb_spec a 0), (Z.ltb_spec b a); simpl; try lia
    | |- context [if (?b <? ?a)%Z then _ else _] => destruct (Z.ltb_spec b a); simpl; try lia
    end;
    try split; try done; intros op'; destruct op'; intros; simplify_eq; lia || done.
Qed.

(** An open connection always has its timer set to the earliest scheduled
    operation (expiry, presence or ping), and none exactly when nothing is
    scheduled; so no operation is forgotten behind a later one. *)
Theorem timer_is_earliest c :
  c.(cstatus) <> statusClosed ->
  let c' := scheduleNextTimer c in
  match c'.(timers).(timer) with
  | Some t => scheduled c'.(timers) c'.(timers).(timerOp) = Some t /\
              forall op t', scheduled c.(timers) op = Some t' -> (t <= t')%Z
  | None => forall op, scheduled c.(timers) op = None
  end.
Proof.
  intros Hst. unfold scheduleNextTimer. pose proof (next_timer_spec c.(timers)) as Hn.
  destruct (cstatus c); [| |done]; destruct (next_timer (timers c)) as [op at_]; destruct op; exact Hn.
Qed.

Definition sample_timers : Conn :=
  set_timers (mkTimers timerOpNone None 300 200 250 0) (NewClient "c1" 0 0).

Lemma timer_is_earliest_witness :
  (scheduleNextTimer sample_timers).(timers).(timer) = Some 200%Z /\
  forall op t', scheduled sample_timers.(timers) op = Some t' -> (200 <= t')%Z.
Proof.
  split; [vm_compute; reflexivity|].
  apply (timer_is_earliest sample_timers). discriminate.
Defined.

(** ** Publishing *)

#[local] Transparent writeDisconnectOrErrorFlush.

Lemma events_enqueue e p w : (fst (transportEnqueue e p w)).(events) = w.(events).
Proof. unfold transportEnqueue. by destruct (write_result e). Qed.

Lemma events_flush e ch err w : (writeDisconnectOrErrorFlush e ch err w).(events) = w.(events).
Proof. destruct err; try done; apply events_enqueue. Qed.

#[local] Opaque writeDisconnectOrErrorFlush.

Lemma events_onSubscribeError ch w : (onSubscribeError ch w).(events) = w.(events).
Proof. unfold onSubscribeError. by destruct (channels (cl w) !! ch). Qed.

Lemma events_subscribe_resolved e ch role reply serverSide w :
  (fst (subscribe_resolved e ch role reply serverSide w)).(events) = w.(events).
Proof.
  unfold subscribe_resolved, subscribe_add, subscribe_presence, subscribe_record, writeEncodedCommandReply.
  destruct (is_ok (addSubscription ch (client_of (cl w)) _ (nd w))); simpl.
  - destruct (so_EmitPresence _); [destruct (presence_result e); [done|]|]; destruct serverSide; simpl;
      by rewrite ?events_enqueue.
  - destruct (broker_result e) as [[]|]; try done. by case_bool_decide.
Qed.

Lemma events_callback e ch r order w w' :
  subscribe_callback e ch r order w = Ok w' -> w'.(events) = w.(events).
Proof.
  unfold subscribe_callback. destruct r as [reply|err].
  - intros H. apply outcome_bind_ok in H as ([w1 ctx] & Hs & H).
    assert (w1.(events) = w.(events)) as E1.
    { unfold subscribeCmd in Hs. destruct (_ && _); [injection Hs as <- _; done|].
      assert (forall ch' role, subscribe_resolved e ch' role reply false w = (w1, ctx) -> events w1 = events w) as Hr.
      { intros ch' role E. rewrite <- (events_subscribe_resolved e ch' role reply false w). by rewrite E. }
      destruct (ContainsChar ch ":"%char); [|injection Hs as Hs; by eapply Hr].
      repeat (apply outcome_bind_ok in Hs as (? & ? & Hs)).
      destruct x1 as [[ch' role]|]; [injection Hs as Hs; by eapply Hr|]. injection Hs as <- _. done. }
    destruct (sc_disconnect ctx), (sc_err ctx); injection H as <-; by rewrite ?events_flush, ?events_onSubscribeError.
  - intros [= <-]. by rewrite events_flush, events_onSubscribeError.
Qed.

Lemma events_validate e ch w : (fst (validateSubscribeRequest e ch w)).(events) = w.(events).
Proof. unfold validateSubscribeRequest. repeat (case_match || case_bool_decide); done. Qed.

(** Events of leaving a channel are not publications. *)
Lemma publishes_unsubscribe ch u w c data r :
  EvPublish c data r ∈ (Client_unsubscribe ch u w).(events) -> EvPublish c data r ∈ w.(events).
Proof.
  unfold Client_unsubscribe. destruct (channels (cl w) !! ch); [|done].
  destruct (_ && _), (channelHasFlag _ flagSubscribed); simpl; try done;
    by intros [?|[=]]%elem_of_snoc.
Qed.

(** What each handler adds to the events. *)
Lemma events_dispatch_error e ch err w :
  events (fst (fst (handleCommandDispatchError e ch false err w))) = events w.
Proof.
  unfold handleCommandDispatchError, writeError, writeEncodedCommandReply.
  destruct err; simpl; by rewrite ?events_enqueue.
Qed.

Lemma events_handleSubscribe e hs order ch w res :
  handleSubscribe e hs order ch w = Ok res -> events (fst res) = events w.
Proof.
  unfold handleSubscribe. intros Hs. destruct (on_subscribe hs); [|by simplify_eq].
  pose proof (events_validate e ch w) as Hv. destruct (validateSubscribeRequest e ch w) as [w1 [err|]].
  - by simplify_eq/=.
  - apply outcome_bind_ok in Hs as (w2 & Hcb & Hs). simplify_eq/=. apply events_callback in Hcb. by rewrite Hcb, Hv.
Qed.

Lemma events_handlePresence e h kind ch w : events (fst (handlePresence e h kind ch w)) = events w.
Proof.
  unfold handlePresence, writeEncodedCommandReply.
  repeat (case_match || case_bool_decide); simpl; by rewrite ?events_flush, ?events_enqueue.
Qed.

Lemma events_handleRefresh e hs token w : events (fst (handleRefresh e hs token w)) = events w.
Proof.
  unfold handleRefresh, writeEncodedCommandReply.
  repeat (case_match || case_bool_decide); simpl; by rewrite ?events_flush, ?events_enqueue.
Qed.

Lemma publishes_handleUnsubscribe e ch w ch' data role :
  EvPublish ch' data role ∈ events (fst (handleUnsubscribe e ch w)) -> EvPublish ch' data role ∈ events w.
Proof.
  unfold handleUnsubscribe. case_bool_decide; [done|]. simpl. unfold writeEncodedCommandReply.
  rewrite events_enqueue. by apply publishes_unsubscribe.
Qed.

Lemma publishes_handleSend hs data' w ch data role :
  EvPublish ch data role ∈ events (fst (handleSend hs data' w)) -> EvPublish ch data role ∈ events w.
Proof.
  unfold handleSend. destruct (on_message hs); [|done]. simpl. by intros [?|[=]]%elem_of_snoc.
Qed.

(** A new publish event is the one of the command, and its role may write. *)
Lemma publishes_handlePublish e hs ch1 data1 w ch data role :
  EvPublish ch data role ∈ events (fst (handlePublish e hs ch1 data1 w)) ->
  EvPublish ch data role ∈ events w \/
  (ch1 = ch /\ data1 = data /\ exists ctx, w.(cl).(channels) !! ch = Some ctx /\ ctx.(ctx_role) = role /\
     (role = WriteRole \/ role = ReadWriteRole)).
Proof.
  unfold handlePublish. destruct (on_publish hs) as [h|]; [|by left]. case_match; [by left|].
  unfold clientInfo_role. destruct (channels (cl w) !! ch1) as [ctx|] eqn:Hch; [|by left].
  case_match eqn:Hrole; [by left|]. intros Hin.
  assert (EvPublish ch data role ∈ events w ++ [EvPublish ch1 data1 (ctx_role ctx)]) as [?|[= -> -> ->]]%elem_of_snoc.
  { destruct (h ch1 data1); simpl in Hin; unfold writeEncodedCommandReply in Hin;
      by rewrite ?events_flush, ?events_enqueue in Hin. }
  - by left.
  - right. split_and!; [done..|]. exists ctx. split_and!; [done..|].
    apply andb_false_iff in Hrole as [Hrole|Hrole]; apply negb_false_iff, Z.eqb_eq in Hrole; auto.
Qed.

(** C18: whatever command other than a connect arrives, the application's
    publish handler only runs for a publish command of an authenticated open
    connection, on a channel the connection holds with a writing role, and
    with that role. *)
Theorem publish_requires_role e hs order connect cmd w w' d p ch data role :
  is_connect cmd.(cmd_req) = false ->
  dispatchCommand e hs order connect cmd w = Ok (w', d, p) ->
  EvPublish ch data role ∈ w'.(events) ->
  EvPublish ch data role ∈ w.(events) \/
  (w.(cl).(authenticated) = true /\ w.(cl).(cstatus) <> statusClosed /\ cmd.(cmd_req) = RPublish ch data /\
   exists ctx, w.(cl).(channels) !! ch = Some ctx /\ ctx.(ctx_role) = role /\
     (role = WriteRole \/ role = ReadWriteRole)).
Proof.
  intros Hnc H Hin. unfold dispatchCommand in H. rewrite Hnc in H.
  case_bool_decide as Hst; [simplify_eq; by left|].
  destruct (authenticated (cl w)) eqn:Hau; simpl in H; [|simplify_eq; by left].
  case_match; [simplify_eq; by left|].
  assert (forall (res : world * option go_error),
    match snd res with
    | Some err => handleCommandDispatchError e (request_channel (cmd_req cmd)) false err (fst res)
    | None => (fst res, None, true)
    end = (w', d, p) -> events w' = events (fst res)) as Hfin.
  { intros [w1 [err|]]; simpl; [|by intros [= <- _ _]].
    intros E. rewrite <- (events_dispatch_error e (request_channel (cmd_req cmd)) err w1). by rewrite E. }
  destruct (cmd_req cmd) as [tok|ch1|ch1|ch1 data1|ch1|ch1|data1|tok|ch1|] eqn:Hreq; try done;
    try (simplify_eq; by left); destruct (on_command_read hs) as [err|].
  all: try (injection H as H%(Hfin (w, Some err)); left; by rewrite H in Hin).
  all: try (simplify_eq; by left).
  - apply outcome_bind_ok in H as (res & Hs & H). injection H as H%Hfin. left.
    by rewrite H, (events_handleSubscribe _ _ _ _ _ _ Hs) in Hin.
  - injection H as H%Hfin. left. rewrite H in Hin. by eapply publishes_handleUnsubscribe.
  - injection H as H%Hfin. rewrite H in Hin.
    destruct (publishes_handlePublish _ _ _ _ _ _ _ _ Hin) as [?|(-> & -> & ctx & ?)]; [by left|].
    right. split_and!; eauto.
  - injection H as H%Hfin. left. by rewrite H, events_handlePresence in Hin.
  - injection H as H%Hfin. left. by rewrite H, events_handlePresence in Hin.
  - injection H as H%Hfin. left. rewrite H in Hin. by eapply publishes_handleSend.
  - injection H as H%Hfin. left. by rewrite H, events_handleRefresh in Hin.
Qed.

Definition sample_publisher : world :=
  with_cl (set_channels {["ch" := mkCtx "" 0 0 1 2 0]} (set_authenticated true (NewClient "c1" 0 0))) sample_world.

Definition sample_handlers : handlers :=
  mkHandlers None None (Some (fun _ _ => None)) None None false None.

Lemma publish_requires_role_witness :
  exists ctx, sample_publisher.(cl).(channels) !! "ch" = Some ctx /\ ctx.(ctx_role) = WriteRole.
Proof.
  destruct (dispatchCommand sample_env sample_handlers [] (fun _ w => Ok (w, None))
    (mkCommand 1 (RPublish "ch" "hi")) sample_publisher) as [[[w' d] p]|x|q] eqn:H;
    [|destruct x|vm_compute in H; discriminate H].
  destruct (publish_requires_role sample_env sample_handlers [] (fun _ w => Ok (w, None))
    (mkCommand 1 (RPublish "ch" "hi")) sample_publisher w' d p "ch" "hi" 2 eq_refl H)
    as [Hin|(_ & _ & _ & ctx & Hc & Hr & _)].
  - vm_compute in H. injection H as <- _ _. simpl. apply list_elem_of_singleton. reflexivity.
  - simpl in Hin. by apply elem_of_nil in Hin.
  - exists ctx. split; [exact Hc|exact Hr].
Defined.
