(* ===== verification/Ring.v ===== *)
(** The growing and shrinking ring buffer that both job queues of the
    deliverer are built on: the fields [nodes], [head], [tail], [cnt] and the
    three code fragments that touch them, as they appear in
    [server/deliverer/internal/queue/queue.go] and
    [server/deliverer/internal/dissolve/queue.go].  The abstraction is
    [ring_view], the queued elements oldest first. *)

From S2P Require Import Prelude.

Record ring (A : Type) := mkRing {
  nodes : list A;
  head : nat;
  tail : nat;
  cnt : nat
}.
Arguments mkRing {A} _ _ _ _.
Arguments nodes {A} _.
Arguments head {A} _.
Arguments tail {A} _.
Arguments cnt {A} _.

Section Ring.
Context {A : Type} (zero : A).

(** [nodes: make([]T, n)] with the indices zero-initialised. *)
Definition ring_make (n : nat) : ring A := mkRing (replicate n zero) 0 0 0.

(** [resize(n)]: copy the live elements to the front of a new slice. *)
Definition ring_resize (n : nat) (q : ring A) : outcome Empty_set (ring A) :=
  let fresh := replicate n zero in
  copied ←
    (if q.(head) <? q.(tail) then
       live ← go_slice q.(nodes) q.(head) q.(tail);
       Ok (go_copy fresh live)
     else
       back ← go_slice_from q.(nodes) q.(head);
       let fresh := go_copy fresh back in
       _ ← go_slice_from fresh (length q.(nodes) - q.(head));
       front ← go_slice q.(nodes) 0 q.(tail);
       Ok (go_copy_at fresh (length q.(nodes) - q.(head)) front));
  if n =? 0 then Panic DivideByZero
  else Ok (mkRing copied 0 (q.(cnt) mod n) q.(cnt)).

(** [if cnt == len(nodes) { resize(cnt * 2) }; nodes[tail] = i;
    tail = (tail + 1) % len(nodes); cnt++]. *)
Definition ring_push (x : A) (q : ring A) : outcome Empty_set (ring A) :=
  q ← (if q.(cnt) =? length q.(nodes) then ring_resize (q.(cnt) * 2) q else Ok q);
  nodes' ← go_store q.(nodes) q.(tail) x;
  Ok (mkRing nodes' q.(head) ((q.(tail) + 1) mod length nodes') (q.(cnt) + 1)).

(** [i := nodes[head]; head = (head + 1) % len(nodes); cnt--]. *)
Definition ring_take (q : ring A) : outcome Empty_set (A * ring A) :=
  x ← go_index q.(nodes) q.(head);
  Ok (x, mkRing q.(nodes) ((q.(head) + 1) mod length q.(nodes)) q.(tail) (q.(cnt) - 1)).

(** [if n := len(nodes) / 2; n >= initCap && cnt <= n { resize(n) }]. *)
Definition ring_shrink (initCap : nat) (q : ring A) : outcome Empty_set (ring A) :=
  let n := length q.(nodes) / 2 in
  if (initCap <=? n) && (q.(cnt) <=? n) then ring_resize n q else Ok q.

(** ** The abstraction and the invariant *)

(** The queued elements, oldest first. *)
Definition ring_view (q : ring A) : list A :=
  take q.(cnt) (drop q.(head) q.(nodes) ++ take q.(head) q.(nodes)).

(** The indices are consistent with the slice. *)
Definition ring_ok (q : ring A) : Prop :=
  q.(head) < length q.(nodes) /\ q.(cnt) <= length q.(nodes) /\
  q.(tail) = (q.(head) + q.(cnt)) mod length q.(nodes).

(** The capacity is the initial capacity doubled some number of times, and a
    grown slice is more than half full, so a shrink always finds exactly as
    many elements as it keeps. *)
Definition ring_cap_ok (initCap : nat) (q : ring A) : Prop :=
  0 < initCap /\
  (exists k, length q.(nodes) = initCap * 2 ^ k) /\
  (initCap < length q.(nodes) -> length q.(nodes) / 2 < q.(cnt)).

Lemma wrap_mod h c n :
  h < n -> c <= n -> (h + c) mod n = if decide (h + c < n) then h + c else h + c - n.
Proof.
  intros. case_decide.
  - by apply Nat.mod_small.
  - replace (h + c) with (h + c - n + 1 * n) at 1 by lia.
    rewrite Nat.Div0.mod_add. apply Nat.mod_small. lia.
Qed.

Lemma length_ring_view q :
  ring_ok q -> length (ring_view q) = q.(cnt).
Proof. intros (? & ? & ?). unfold ring_view. len_lia. Qed.

Lemma ring_view_lookup q i :
  ring_ok q -> i < q.(cnt) ->
  ring_view q !! i = q.(nodes) !! ((q.(head) + i) mod length q.(nodes)).
Proof.
  intros (? & ? & ?) ?. unfold ring_view.
  rewrite lookup_take_lt by lia. rewrite wrap_mod by lia. case_decide.
  - rewrite lookup_app_l by len_lia. by rewrite lookup_drop.
  - rewrite lookup_app_r by len_lia. rewrite length_drop, lookup_take_lt by lia.
    f_equal. lia.
Qed.

(** The two halves of the source's [resize] together copy the view. *)
Lemma ring_view_contiguous q :
  ring_ok q -> q.(head) < q.(tail) ->
  ring_view q = take (q.(tail) - q.(head)) (drop q.(head) q.(nodes)).
Proof.
  intros (? & ? & Ht) ?. rewrite wrap_mod in Ht by lia. unfold ring_view.
  case_decide; [|lia]. rewrite take_app_le by len_lia. f_equal. lia.
Qed.

Lemma ring_view_wrapped q :
  ring_ok q -> q.(tail) <= q.(head) -> 0 < q.(cnt) ->
  ring_view q = drop q.(head) q.(nodes) ++ take q.(tail) q.(nodes) /\
  q.(cnt) = length q.(nodes) - q.(head) + q.(tail).
Proof.
  intros (? & ? & Ht) ??. rewrite wrap_mod in Ht by lia. unfold ring_view.
  case_decide; [lia|]. split; [|lia].
  rewrite take_app_ge by len_lia. f_equal. rewrite length_drop, take_take. f_equal. lia.
Qed.

Lemma ring_resize_spec n q :
  ring_ok q -> 0 < q.(cnt) -> q.(cnt) <= n ->
  exists q', ring_resize n q = Ok q' /\ ring_ok q' /\ ring_view q' = ring_view q /\
    length q'.(nodes) = n /\ q'.(cnt) = q.(cnt).
Proof.
  intros Hok Hpos Hn. pose proof Hok as (Hh & Hc & Ht).
  pose proof (length_ring_view q Hok) as Hlen.
  assert (exists copied, ring_resize n q = Ok (mkRing copied 0 (q.(cnt) mod n) q.(cnt)) /\
    length copied = n /\ take q.(cnt) copied = ring_view q) as (cp & Heq & Hcl & Hcv).
  { unfold ring_resize. destruct (Nat.ltb_spec q.(head) q.(tail)) as [Hlt|Hge].
    - assert (q.(tail) <= length q.(nodes))
        by (rewrite Ht; pose proof (Nat.mod_upper_bound (q.(head) + q.(cnt)) (length q.(nodes))); lia).
      rewrite go_slice_ok by lia. simpl.
      rewrite <- ring_view_contiguous by done.
      destruct (Nat.eqb_spec n 0); [lia|]. eexists. split; [done|].
      rewrite length_go_copy, length_replicate. split; [done|].
      rewrite go_copy_fits by (rewrite length_replicate; lia).
      by rewrite take_app_length' by lia.
    - destruct (ring_view_wrapped q Hok Hge Hpos) as [Hv Hcnt].
      rewrite go_slice_from_ok by lia. simpl.
      rewrite go_slice_from_ok by (rewrite length_go_copy, length_replicate; lia). simpl.
      rewrite go_slice_ok by lia. simpl. rewrite Nat.sub_0_r, drop_0.
      destruct (Nat.eqb_spec n 0); [lia|]. eexists. split; [done|].
      rewrite length_go_copy_at by (rewrite length_go_copy, length_replicate; lia).
      rewrite length_go_copy, length_replicate. split; [done|].
      unfold go_copy_at.
      assert (length (drop q.(head) q.(nodes)) = length q.(nodes) - q.(head)) as Hd by len_lia.
      rewrite (go_copy_fits (replicate n zero)) by (rewrite length_replicate, Hd; lia).
      rewrite (take_app_length' (drop q.(head) q.(nodes))) by len_lia.
      rewrite drop_app_length' by len_lia.
      rewrite go_copy_fits by len_lia.
      rewrite app_assoc, <- Hv. by rewrite take_app_length' by lia. }
  exists (mkRing cp 0 (q.(cnt) mod n) q.(cnt)). split; [done|].
  unfold ring_ok, ring_view. simpl. rewrite Hcl, drop_0, take_app_le by lia.
  repeat split; [lia|lia|done].
Qed.

Lemma ring_store_view q x nodes' :
  ring_ok q -> q.(cnt) < length q.(nodes) -> nodes' = <[q.(tail):=x]> q.(nodes) ->
  let q' := mkRing nodes' q.(head) ((q.(tail) + 1) mod length nodes') (q.(cnt) + 1) in
  ring_ok q' /\ ring_view q' = ring_view q ++ [x].
Proof.
  intros Hok Hlt -> q'. pose proof Hok as (Hh & Hc & Ht).
  assert (ring_ok q') as Hok'.
  { unfold ring_ok, q'. simpl. rewrite length_insert. repeat split; [lia|lia|].
    rewrite Ht, Nat.Div0.add_mod_idemp_l. f_equal. lia. }
  split; [done|]. apply list_eq. intros i.
  pose proof (length_ring_view q Hok) as Hl. pose proof (length_ring_view q' Hok') as Hl'.
  simpl in Hl'. destruct (decide (i < q.(cnt))).
  - rewrite lookup_app_l by lia. rewrite !ring_view_lookup by (done || simpl; lia).
    simpl. rewrite length_insert. apply list_lookup_insert_ne. rewrite Ht.
    rewrite !wrap_mod by lia. repeat case_decide; lia.
  - destruct (decide (i = q.(cnt))) as [->|].
    + rewrite lookup_app_r, Hl, Nat.sub_diag by lia. rewrite ring_view_lookup by (done || simpl; lia).
      simpl. rewrite length_insert, <- Ht. apply list_lookup_insert_eq.
      rewrite Ht. apply Nat.mod_upper_bound. lia.
    + rewrite !lookup_ge_None_2; [done| |]; [rewrite length_app; simpl|]; lia.
Qed.

Lemma ring_push_spec initCap x q :
  ring_ok q -> ring_cap_ok initCap q ->
  exists q', ring_push x q = Ok q' /\ ring_ok q' /\ ring_cap_ok initCap q' /\
    ring_view q' = ring_view q ++ [x] /\ q'.(cnt) = q.(cnt) + 1.
Proof.
  intros Hok (Hi & (k & Hk) & Hhalf). pose proof Hok as (Hh & Hc & Ht).
  unfold ring_push. destruct (Nat.eqb_spec q.(cnt) (length q.(nodes))) as [Heq|Hne].
  - destruct (ring_resize_spec (q.(cnt) * 2) q) as (r & -> & Hr & Hv & Hl & Hcn); [done|lia|lia|].
    simpl. pose proof Hr as (Hrh & Hrc & Hrt).
    assert (r.(tail) < length r.(nodes)) by (rewrite Hrt; apply Nat.mod_upper_bound; lia).
    rewrite go_store_ok by done. simpl.
    destruct (ring_store_view r x _ Hr ltac:(lia) eq_refl) as [Hok' Hv'].
    eexists. split; [done|]. split; [done|]. split; [|split; [congruence|simpl; lia]].
    split; [done|]. cbn [nodes cnt]. rewrite length_insert, Hl. split.
    + exists (S k). rewrite Nat.pow_succ_r'. nia.
    + intros _. rewrite Nat.div_mul by lia. lia.
  - simpl. assert (q.(tail) < length q.(nodes)) by (rewrite Ht; apply Nat.mod_upper_bound; lia).
    rewrite go_store_ok by done. simpl.
    destruct (ring_store_view q x _ Hok ltac:(lia) eq_refl) as [Hok' Hv'].
    eexists. split; [done|]. split; [done|]. split; [|split; [done|done]].
    split; [done|]. cbn [nodes cnt]. rewrite length_insert. split; [by exists k|].
    intros. specialize (Hhalf ltac:(done)). lia.
Qed.

Lemma ring_take_spec q :
  ring_ok q -> 0 < q.(cnt) ->
  exists x q', ring_take q = Ok (x, q') /\ ring_ok q' /\ ring_view q = x :: ring_view q' /\
    q'.(cnt) = q.(cnt) - 1 /\ q'.(nodes) = q.(nodes).
Proof.
  intros Hok Hpos. pose proof Hok as (Hh & Hc & Ht).
  destruct (lookup_lt_is_Some_2 q.(nodes) q.(head) Hh) as [x Hx].
  unfold ring_take. rewrite (go_index_ok _ _ x) by done. simpl.
  eexists _, _. split; [done|].
  set (q' := mkRing _ _ _ _).
  assert (ring_ok q') as Hok'.
  { unfold ring_ok, q'. simpl. repeat split; [apply Nat.mod_upper_bound; lia|lia|].
    rewrite Ht, Nat.Div0.add_mod_idemp_l. f_equal. lia. }
  split; [done|]. split; [|done]. apply list_eq. intros [|i].
  - rewrite ring_view_lookup by (done || lia).
    rewrite Nat.add_0_r, Nat.mod_small by lia. done.
  - simpl. pose proof (length_ring_view q Hok). pose proof (length_ring_view q' Hok').
    simpl in *. destruct (decide (S i < q.(cnt))).
    + rewrite !ring_view_lookup by (done || simpl; lia). simpl.
      rewrite Nat.Div0.add_mod_idemp_l. do 2 f_equal. lia.
    + rewrite !lookup_ge_None_2 by lia. done.
Qed.

Lemma half_pow2 initCap k :
  0 < k -> initCap * 2 ^ k / 2 = initCap * 2 ^ (k - 1).
Proof.
  intros. replace (2 ^ k) with (2 ^ (k - 1) * 2)
    by (rewrite Nat.mul_comm, <- Nat.pow_succ_r'; f_equal; lia).
  rewrite Nat.mul_assoc. apply Nat.div_mul. lia.
Qed.

Lemma pow2_pos k : 0 < 2 ^ k.
Proof. apply Nat.neq_0_lt_0, Nat.pow_nonzero. lia. Qed.

(** Shrinking after a removal: the slice the removal found was within its
    capacity bound, and one element was taken from it. *)
Lemma ring_shrink_spec initCap q q0 :
  ring_ok q -> ring_cap_ok initCap q0 -> q.(nodes) = q0.(nodes) ->
  q.(cnt) = q0.(cnt) - 1 -> 0 < q0.(cnt) ->
  exists q', ring_shrink initCap q = Ok q' /\ ring_ok q' /\ ring_cap_ok initCap q' /\
    ring_view q' = ring_view q /\ q'.(cnt) = q.(cnt).
Proof.
  intros Hok (Hi & (k & Hk) & Hhalf) Hnodes Hcnt Hpos. unfold ring_shrink.
  rewrite <- Hnodes in Hk, Hhalf. pose proof (pow2_pos k).
  destruct (Nat.leb_spec initCap (length q.(nodes) / 2)) as [Hle|]; cbn [andb].
  - assert (initCap < length q.(nodes)) as Hbig.
    { assert (0 < length q.(nodes)) by (rewrite Hk; nia).
      pose proof (Nat.div_lt (length q.(nodes)) 2). lia. }
    specialize (Hhalf Hbig). assert (0 < k) by (destruct k; [simpl in *; lia|lia]).
    destruct (Nat.leb_spec q.(cnt) (length q.(nodes) / 2)).
    + assert (q.(cnt) = length q.(nodes) / 2) as Hexact by lia.
      destruct (ring_resize_spec (length q.(nodes) / 2) q) as (r & -> & Hr & Hv & Hl & Hc);
        [done|lia|lia|].
      exists r. split; [done|]. split; [done|]. split; [|split; done].
      split; [done|]. rewrite Hl. split.
      * exists (k - 1). rewrite Hk. by apply half_pow2.
      * intros. rewrite Hc, Hexact. apply Nat.div_lt; lia.
    + eexists. split; [done|]. split; [done|]. split; [|done].
      split; [done|]. split; [by exists k|lia].
  - eexists. split; [done|]. split; [done|]. split; [|done].
    split; [done|]. split; [by exists k|]. intros Hbig.
    assert (0 < k) by (destruct k; [simpl in *; lia|lia]).
    rewrite Hk, half_pow2 in * by done. pose proof (pow2_pos (k - 1)). nia.
Qed.

Lemma ring_make_spec initCap :
  0 < initCap ->
  ring_ok (ring_make initCap) /\ ring_cap_ok initCap (ring_make initCap) /\
  ring_view (ring_make initCap) = [].
Proof.
  intros. unfold ring_ok, ring_cap_ok, ring_view, ring_make. simpl.
  rewrite length_replicate. repeat split; [lia|lia| |lia| |lia].
  - by rewrite Nat.Div0.mod_0_l.
  - exists 0. simpl. lia.
Qed.

End Ring.

#[export] Hint Resolve ring_make_spec : kairos.
