(* ===== verification/Fifo.v ===== *)
(** The contract of a closable FIFO queue, which the writer and the dissolver
    rely on and the two ring-buffer queues provide (the Go interface [queue]
    of [server/deliverer/internal/dissolve/queue.go], lines 11-37, and the
    same methods of [queue.Queue]).  [fifo_state] is the abstract queue: the
    waiting elements, oldest first, and whether the queue was closed. *)

From S2P Require Import Prelude.

Record fifo_state (A : Type) := mkFifo { waiting : list A; is_closed : bool }.
Arguments mkFifo {A} _ _.
Arguments waiting {A} _.
Arguments is_closed {A} _.

Definition fifo_empty {A} : fifo_state A := mkFifo [] false.

(** [Add]: dropped with [false] once closed. *)
Definition fifo_add {A} (s : fifo_state A) (x : A) : fifo_state A * bool :=
  if s.(is_closed) then (s, false) else (mkFifo (s.(waiting) ++ [x]) false, true).

(** [Remove]: [false] when nothing waits. *)
Definition fifo_remove {A} (s : fifo_state A) : fifo_state A * option A :=
  match s.(waiting) with
  | [] => (s, None)
  | x :: rest => (mkFifo rest s.(is_closed), Some x)
  end.

(** [Close]: everything waiting is discarded. *)
Definition fifo_close {A} (s : fifo_state A) : fifo_state A := mkFifo [] true.

(** What a [Wait] call does: it returns, or blocks until it is signalled. *)
Inductive wait_result : Type :=
| WaitReturns (ok : bool)
| WaitBlocks.

Definition fifo_wait {A} (s : fifo_state A) : wait_result :=
  if s.(is_closed) then WaitReturns false
  else if decide (s.(waiting) = []) then WaitBlocks else WaitReturns true.

(** A queue implementation: its operations, its representation invariant, the
    abstract queue it stands for, and the laws that tie them together.  The
    operations never panic on a state that satisfies the invariant. *)
Class FifoQueue (Q A : Type) := {
  q_inv : Q -> Prop;
  q_abs : Q -> fifo_state A;
  q_add : Q -> A -> outcome Empty_set (Q * bool);
  q_remove : Q -> outcome Empty_set (Q * option A);
  q_close : Q -> Q;
  q_wait : Q -> wait_result;
  q_add_law q x : q_inv q ->
    exists q', q_add q x = Ok (q', snd (fifo_add (q_abs q) x)) /\
      q_inv q' /\ q_abs q' = fst (fifo_add (q_abs q) x);
  q_remove_law q : q_inv q ->
    exists q', q_remove q = Ok (q', snd (fifo_remove (q_abs q))) /\
      q_inv q' /\ q_abs q' = fst (fifo_remove (q_abs q));
  q_close_law q : q_inv q -> q_inv (q_close q) /\ q_abs (q_close q) = fifo_close (q_abs q);
  q_wait_law q : q_inv q -> q_wait q = fifo_wait (q_abs q);
}.
