(* ===== verification/Queue.v ===== *)
(** [server/deliverer/internal/queue/queue.go]: the per-connection message
    queue.  Every operation runs under the queue's mutex, so an operation is a
    state transformer; [Queue_Wait] says whether the call returns or blocks on
    the condition variable. *)

From stdpp Require Import list.
From S2P Require Import Prelude Ring Fifo.

Record Item := mkItem {
  Data : list Byte.byte;
  Channel : string;
  FrameType : Z
}.

Definition zero_item : Item := mkItem [] "" 0%Z.

Record Queue := mkQueue {
  buf : ring Item;
  size : Z;
  closed : bool;
  initCap : nat
}.

(** [New(initialCapacity)]; [make] panics on a negative length. *)
Definition Queue_New (initialCapacity : Z) : outcome Empty_set Queue :=
  if (initialCapacity <? 0)%Z then Panic (ExplicitPanic "makeslice: len out of range")
  else Ok (mkQueue (ring_make zero_item (Z.to_nat initialCapacity)) 0 false
             (Z.to_nat initialCapacity)).

Definition Queue_resize (n : nat) (q : Queue) : outcome Empty_set Queue :=
  buf' ← ring_resize zero_item n q.(buf);
  Ok (mkQueue buf' q.(size) q.(closed) q.(initCap)).

Definition Queue_Wait (q : Queue) : wait_result :=
  if q.(closed) then WaitReturns false
  else if q.(buf).(cnt) =? 0 then WaitBlocks else WaitReturns true.

Definition Queue_Remove (q : Queue) : outcome Empty_set (Queue * option Item) :=
  if q.(buf).(cnt) =? 0 then Ok (q, None)
  else
    '(i, buf') ← ring_take q.(buf);
    buf' ← ring_shrink zero_item q.(initCap) buf';
    Ok (mkQueue buf' (q.(size) - Z.of_nat (length i.(Data)))%Z q.(closed) q.(initCap),
        Some i).

Definition Queue_Closed (q : Queue) : bool := q.(closed).

Definition Queue_Len (q : Queue) : nat := q.(buf).(cnt).

Definition Queue_Add (q : Queue) (i : Item) : outcome Empty_set (Queue * bool) :=
  if q.(closed) then Ok (q, false)
  else
    buf' ← ring_push zero_item i q.(buf);
    Ok (mkQueue buf' (q.(size) + Z.of_nat (length i.(Data)))%Z q.(closed) q.(initCap), true).

Definition Queue_Size (q : Queue) : Z := q.(size).

(** The draining loop of [CloseRemaining]; [fuel] is the [cnt] it starts from. *)
Fixpoint drain (fuel : nat) (r : ring Item) : outcome Empty_set (ring Item * list Item) :=
  match fuel with
  | 0 => Ok (r, [])
  | S fuel =>
    '(i, r') ← ring_take r;
    '(r'', rest) ← drain fuel r';
    Ok (r'', i :: rest)
  end.

(** [closed = true; cnt = 0; nodes = nil; size = 0]: [head] and [tail] stay. *)
Definition Queue_Close (q : Queue) : Queue :=
  mkQueue (mkRing [] q.(buf).(head) q.(buf).(tail) 0) 0 true q.(initCap).

Definition Queue_CloseRemaining (q : Queue) : outcome Empty_set (Queue * list Item) :=
  if q.(closed) then Ok (q, [])
  else
    '(r, rem) ← drain q.(buf).(cnt) q.(buf);
    Ok (Queue_Close (mkQueue r q.(size) q.(closed) q.(initCap)), rem).

(** ** Invariant and abstraction *)

Definition data_size (l : list Item) : Z :=
  foldr (fun i acc => Z.of_nat (length i.(Data)) + acc)%Z 0%Z l.

Definition Queue_abs (q : Queue) : fifo_state Item :=
  mkFifo (if q.(closed) then [] else ring_view q.(buf)) q.(closed).

Definition Queue_inv (q : Queue) : Prop :=
  if q.(closed) then q.(buf).(cnt) = 0 /\ q.(size) = 0%Z /\ q.(buf).(nodes) = []
  else ring_ok q.(buf) /\ ring_cap_ok q.(initCap) q.(buf) /\
       q.(size) = data_size (ring_view q.(buf)).

Lemma Queue_abs_closed q : is_closed (Queue_abs q) = q.(closed).
Proof. done. Qed.

Lemma data_size_app l k : data_size (l ++ k) = (data_size l + data_size k)%Z.
Proof. induction l as [|i l IH]; simpl; lia. Qed.

Lemma data_size_nonneg l : (0 <= data_size l)%Z.
Proof. induction l; simpl; lia. Qed.

Lemma Queue_New_spec n :
  (0 < n)%Z -> exists q, Queue_New n = Ok q /\ Queue_inv q /\ Queue_abs q = fifo_empty /\
    q.(initCap) = Z.to_nat n.
Proof.
  intros Hn. unfold Queue_New. destruct (Z.ltb_spec n 0); [lia|].
  destruct (ring_make_spec zero_item (Z.to_nat n)) as (? & ? & Hv); [lia|].
  eexists. split; [done|]. unfold Queue_inv, Queue_abs. simpl. by rewrite Hv.
Qed.

Lemma Queue_Add_spec q i :
  Queue_inv q ->
  exists q', Queue_Add q i = Ok (q', snd (fifo_add (Queue_abs q) i)) /\
    Queue_inv q' /\ Queue_abs q' = fst (fifo_add (Queue_abs q) i) /\
    q'.(initCap) = q.(initCap).
Proof.
  unfold Queue_inv, Queue_Add, fifo_add, Queue_abs. simpl.
  destruct q.(closed) eqn:Hc; simpl.
  - intros (? & ? & ?). exists q. rewrite Hc. done.
  - intros (Hok & Hcap & Hs).
    destruct (ring_push_spec zero_item q.(initCap) i q.(buf)) as (r & -> & ? & ? & Hv & ?); [done..|].
    eexists. split; [done|]. simpl. rewrite ?Hc, Hv. split; [|done].
    split; [done|]. split; [done|]. rewrite data_size_app, <- Hs. simpl. lia.
Qed.

Lemma Queue_Remove_spec q :
  Queue_inv q ->
  exists q', Queue_Remove q = Ok (q', snd (fifo_remove (Queue_abs q))) /\
    Queue_inv q' /\ Queue_abs q' = fst (fifo_remove (Queue_abs q)) /\
    q'.(initCap) = q.(initCap).
Proof.
  unfold Queue_inv, Queue_Remove, fifo_remove, Queue_abs. simpl.
  destruct q.(closed) eqn:Hc.
  - intros (Hz & ? & ?). rewrite Hz. simpl. exists q. rewrite Hc. done.
  - intros (Hok & Hcap & Hs). pose proof (length_ring_view _ Hok) as Hl.
    destruct (Nat.eqb_spec q.(buf).(cnt) 0) as [Hz|Hnz].
    + rewrite Hz in Hl. apply nil_length_inv in Hl. rewrite Hl. simpl.
      exists q. rewrite Hc, Hl in *. done.
    + destruct (ring_take_spec q.(buf)) as (x & r & -> & Hr & Hv & Hcn & Hn); [done|lia|]. simpl.
      destruct (ring_shrink_spec zero_item q.(initCap) r q.(buf))
        as (r' & -> & ? & ? & Hv' & Hc'); [done|done|done|done|lia|].
      simpl. rewrite Hv. eexists. split; [done|]. simpl. rewrite ?Hc, Hv'. split; [|done].
      split; [done|]. split; [done|]. rewrite Hs, Hv. simpl. lia.
Qed.

Lemma drain_spec r n :
  ring_ok r -> n = r.(cnt) -> exists r', drain n r = Ok (r', ring_view r).
Proof.
  revert r. induction n as [|n IH]; intros r Hok Hn; simpl.
  - pose proof (length_ring_view _ Hok) as Hl. rewrite <- Hn in Hl.
    apply nil_length_inv in Hl. rewrite Hl. eauto.
  - destruct (ring_take_spec r) as (x & r' & -> & ? & -> & Hc & _); [done|lia|]. simpl.
    destruct (IH r') as [r'' ->]; [done|lia|]. simpl. eauto.
Qed.

Lemma Queue_Close_spec q :
  Queue_inv (Queue_Close q) /\ Queue_abs (Queue_Close q) = fifo_close (Queue_abs q).
Proof. done. Qed.

Lemma Queue_CloseRemaining_spec q :
  Queue_inv q ->
  exists q', Queue_CloseRemaining q = Ok (q', (Queue_abs q).(waiting)) /\
    Queue_inv q' /\ Queue_abs q' = fifo_close (Queue_abs q) /\
    q'.(initCap) = q.(initCap).
Proof.
  unfold Queue_inv, Queue_CloseRemaining, Queue_abs. simpl.
  destruct q.(closed) eqn:Hc.
  - intros (? & ? & ?). exists q. rewrite Hc. done.
  - intros (Hok & _ & _). destruct (drain_spec q.(buf) q.(buf).(cnt)) as [r ->]; [done..|].
    simpl. eexists. by split.
Qed.

Lemma Queue_Wait_spec q : Queue_inv q -> Queue_Wait q = fifo_wait (Queue_abs q).
Proof.
  unfold Queue_inv, Queue_Wait, fifo_wait, Queue_abs. simpl.
  destruct q.(closed); [done|]. intros (Hok & _ & _).
  pose proof (length_ring_view _ Hok) as Hl.
  destruct (Nat.eqb_spec q.(buf).(cnt) 0) as [Hz|]; case_decide as Hd; try done.
  - rewrite Hz in Hl. by apply nil_length_inv in Hl.
  - rewrite Hd in Hl. simpl in Hl. lia.
Qed.

Lemma Queue_Len_spec q : Queue_inv q -> Queue_Len q = length (Queue_abs q).(waiting).
Proof.
  unfold Queue_inv, Queue_Len, Queue_abs. simpl. destruct q.(closed); [by intros (-> & _ & _)|].
  intros (Hok & _ & _). by rewrite length_ring_view.
Qed.

Lemma Queue_Size_spec q : Queue_inv q -> Queue_Size q = data_size (Queue_abs q).(waiting).
Proof.
  unfold Queue_inv, Queue_Size, Queue_abs. simpl. destruct q.(closed); [by intros (_ & -> & _)|].
  by intros (_ & _ & ->).
Qed.

#[export] Instance Queue_FifoQueue : FifoQueue Queue Item.
Proof.
  refine {| q_inv := Queue_inv; q_abs := Queue_abs; q_add := Queue_Add;
            q_remove := Queue_Remove; q_close := Queue_Close; q_wait := Queue_Wait |}.
  - intros q x H. destruct (Queue_Add_spec q x H) as (q' & ? & ? & ? & ?). eauto.
  - intros q H. destruct (Queue_Remove_spec q H) as (q' & ? & ? & ? & ?). eauto.
  - intros q _. apply Queue_Close_spec.
  - apply Queue_Wait_spec.
Defined.

(** ** Whole runs

    The methods of the queue as a client calls them, with what they return. *)

Inductive queue_op : Type :=
| OpAdd (i : Item)
| OpRemove
| OpLen
| OpSize
| OpClosed
| OpCloseRemaining
| OpClose.

Inductive queue_reply : Type :=
| RBool (b : bool)
| RItem (i : option Item)
| RItems (l : list Item)
| RInt (n : Z)
| RUnit.

Definition queue_step (q : Queue) (o : queue_op) : outcome Empty_set (Queue * queue_reply) :=
  match o with
  | OpAdd i => '(q', b) ← Queue_Add q i; Ok (q', RBool b)
  | OpRemove => '(q', i) ← Queue_Remove q; Ok (q', RItem i)
  | OpLen => Ok (q, RInt (Z.of_nat (Queue_Len q)))
  | OpSize => Ok (q, RInt (Queue_Size q))
  | OpClosed => Ok (q, RBool (Queue_Closed q))
  | OpCloseRemaining => '(q', l) ← Queue_CloseRemaining q; Ok (q', RItems l)
  | OpClose => Ok (Queue_Close q, RUnit)
  end.

Fixpoint queue_run (q : Queue) (ops : list queue_op) : outcome Empty_set (Queue * list queue_reply) :=
  match ops with
  | [] => Ok (q, [])
  | o :: ops =>
    '(q', r) ← queue_step q o;
    '(q'', rs) ← queue_run q' ops;
    Ok (q'', r :: rs)
  end.

(** The same methods on the abstract queue. *)
Definition fifo_step (s : fifo_state Item) (o : queue_op) : fifo_state Item * queue_reply :=
  match o with
  | OpAdd i => let '(s', b) := fifo_add s i in (s', RBool b)
  | OpRemove => let '(s', i) := fifo_remove s in (s', RItem i)
  | OpLen => (s, RInt (Z.of_nat (length s.(waiting))))
  | OpSize => (s, RInt (data_size s.(waiting)))
  | OpClosed => (s, RBool s.(is_closed))
  | OpCloseRemaining => (fifo_close s, RItems s.(waiting))
  | OpClose => (fifo_close s, RUnit)
  end.

Fixpoint fifo_run (s : fifo_state Item) (ops : list queue_op) : fifo_state Item * list queue_reply :=
  match ops with
  | [] => (s, [])
  | o :: ops =>
    let '(s', r) := fifo_step s o in
    let '(s'', rs) := fifo_run s' ops in
    (s'', r :: rs)
  end.

Lemma queue_step_simulates q o :
  Queue_inv q ->
  exists q', queue_step q o = Ok (q', snd (fifo_step (Queue_abs q) o)) /\
    Queue_inv q' /\ Queue_abs q' = fst (fifo_step (Queue_abs q) o) /\
    q'.(initCap) = q.(initCap).
Proof.
  intros Hq. destruct o as [i| | | | | |]; simpl.
  - destruct (Queue_Add_spec q i Hq) as (q' & -> & ? & ? & ?).
    destruct (fifo_add _ i). simpl in *. eauto.
  - destruct (Queue_Remove_spec q Hq) as (q' & -> & ? & ? & ?).
    destruct (fifo_remove _). simpl in *. eauto.
  - rewrite Queue_Len_spec by done. eauto.
  - rewrite Queue_Size_spec by done. eauto.
  - eauto.
  - destruct (Queue_CloseRemaining_spec q Hq) as (q' & -> & ? & ? & ?). simpl. eauto.
  - eexists. split; [done|]. destruct (Queue_Close_spec q). done.
Qed.

Lemma queue_run_simulates q ops :
  Queue_inv q ->
  exists q', queue_run q ops = Ok (q', snd (fifo_run (Queue_abs q) ops)) /\
    Queue_inv q' /\ Queue_abs q' = fst (fifo_run (Queue_abs q) ops) /\
    q'.(initCap) = q.(initCap).
Proof.
  revert q. induction ops as [|o ops IH]; intros q Hq; [by exists q|]. simpl.
  destruct (queue_step_simulates q o Hq) as (q1 & -> & H1 & A1 & C1).
  destruct (fifo_step (Queue_abs q) o) as [s1 r1]. simpl in *. subst s1.
  destruct (IH q1 H1) as (q2 & -> & H2 & A2 & C2).
  destruct (fifo_run (Queue_abs q1) ops) as [s2 rs]. simpl in *.
  exists q2. split; [done|]. split; [done|]. split; [done|congruence].
Qed.

(** C3: from [New(cap)] with a positive capacity, every sequence of method
    calls runs without a panic and returns exactly what an unbounded FIFO list
    with a closed flag returns: the ring buffer, its growth and its shrinking
    are invisible. *)
Theorem queue_refines_fifo (cap : Z) (ops : list queue_op) :
  (0 < cap)%Z ->
  exists q0 q, Queue_New cap = Ok q0 /\
    queue_run q0 ops = Ok (q, snd (fifo_run fifo_empty ops)) /\
    Queue_abs q = fst (fifo_run fifo_empty ops).
Proof.
  intros Hcap. destruct (Queue_New_spec cap Hcap) as (q0 & Hnew & Hinv & Habs & _).
  destruct (queue_run_simulates q0 ops Hinv) as (q & Hrun & _ & Habs' & _).
  rewrite Habs in *. eauto.
Qed.

Lemma queue_refines_fifo_witness :
  exists q0 q, Queue_New 2 = Ok q0 /\
    queue_run q0 [OpAdd zero_item; OpAdd zero_item; OpAdd zero_item; OpRemove; OpLen]
      = Ok (q, [RBool true; RBool true; RBool true; RItem (Some zero_item); RInt 2]).
Proof.
  destruct (queue_refines_fifo 2
    [OpAdd zero_item; OpAdd zero_item; OpAdd zero_item; OpRemove; OpLen])
    as (q0 & q & H1 & H2 & _); [lia|].
  exists q0, q. split; [exact H1|exact H2].
Defined.

(** The memory the queue holds stays proportional to what waits in it:
    after any run of method calls the slice is no longer than the initial
    capacity or twice the number of waiting items, whichever is larger. *)
Theorem queue_capacity_bounded (cap : Z) (ops : list queue_op) :
  (0 < cap)%Z ->
  exists q0 q rs, Queue_New cap = Ok q0 /\ queue_run q0 ops = Ok (q, rs) /\
    length q.(buf).(nodes) <= Nat.max (Z.to_nat cap) (2 * Queue_Len q).
Proof.
  intros Hcap. destruct (Queue_New_spec cap Hcap) as (q0 & Hnew & Hinv & Habs & Hi).
  destruct (queue_run_simulates q0 ops Hinv) as (q & Hrun & Hq & Habs' & Hi').
  exists q0, q, (snd (fifo_run (Queue_abs q0) ops)). split; [done|]. split; [done|].
  unfold Queue_inv in Hq. destruct q.(closed) eqn:Hc.
  - destruct Hq as (_ & _ & ->). simpl. lia.
  - destruct Hq as (_ & (_ & _ & Hhalf) & _). unfold Queue_Len.
    destruct (decide (q.(initCap) < length q.(buf).(nodes))) as [Hb|]; [|lia].
    specialize (Hhalf Hb). pose proof (Nat.div_mod_eq (length q.(buf).(nodes)) 2).
    pose proof (Nat.mod_upper_bound (length q.(buf).(nodes)) 2). lia.
Qed.

Lemma queue_capacity_bounded_witness :
  exists q0 q rs, Queue_New 1 = Ok q0 /\
    queue_run q0 [OpAdd zero_item; OpAdd zero_item; OpAdd zero_item; OpRemove; OpRemove] = Ok (q, rs) /\
    length q.(buf).(nodes) <= Nat.max (Z.to_nat 1) (2 * Queue_Len q).
Proof. apply (queue_capacity_bounded 1). lia. Defined.
