(* ===== verification/Writer.v ===== *)
(** [server/deliverer/writer.go]: the goroutine that batches the messages
    queued for one connection into frames.  [WriteFn] and [WriteManyFn] are the
    transport; the model records the frames handed to them, and [write_err]
    says which of those calls fail. *)

From S2P Require Import Prelude Ring Fifo Queue Codes.

Record writer := mkWriter {
  messages : Queue;
  wclosed : bool;
  MaxQueueSize : Z;
  (** frames passed to [WriteFn]/[WriteManyFn], oldest first *)
  frames : list (list Item)
}.

Definition defaultMaxMessagesInFrame : Z := 16.

Definition newWriter (maxQueueSize queueInitialCap : Z) : outcome Empty_set writer :=
  let queueInitialCap := if (queueInitialCap =? 0)%Z then 2%Z else queueInitialCap in
  q ← Queue_New queueInitialCap;
  Ok (mkWriter q false maxQueueSize []).

Definition writer_enqueue (w : writer) (item : Item)
    : outcome Empty_set (writer * option Disconnect) :=
  '(q, ok) ← Queue_Add w.(messages) item;
  let w' := mkWriter q w.(wclosed) w.(MaxQueueSize) w.(frames) in
  if negb ok then Ok (w', Some DisconnectConnectionClosed)
  else if (0 <? w.(MaxQueueSize))%Z && (w.(MaxQueueSize) <? Queue_Size q)%Z
  then Ok (w', Some DisconnectSlow)
  else Ok (w', None).

(** The loop that fills a frame: [None] is the early [return false] on a queue
    that was closed meanwhile. *)
Fixpoint fill_frame (messageCount : nat) (maxMessagesInFrame : Z) (msgs : list Item) (q : Queue)
    : outcome Empty_set (Queue * option (list Item)) :=
  match messageCount with
  | 0 => Ok (q, Some msgs)
  | S messageCount =>
    if ((-1 <? maxMessagesInFrame)%Z && (maxMessagesInFrame <=? Z.of_nat (length msgs))%Z)
    then Ok (q, Some msgs)
    else
      '(q', r) ← Queue_Remove q;
      match r with
      | Some m => fill_frame messageCount maxMessagesInFrame (msgs ++ [m]) q'
      | None => if Queue_Closed q' then Ok (q', None) else Ok (q', Some msgs)
      end
  end.

Section Send.
(** Whether handing a frame to the transport fails. *)
Context (write_err : list Item -> bool).

Definition write_frame (w : writer) (q : Queue) (frame : list Item) : writer * bool :=
  (mkWriter q w.(wclosed) w.(MaxQueueSize) (w.(frames) ++ [frame]), negb (write_err frame)).

(** [waitSendMessage] after [Wait] returned [true] and the write delay passed:
    one frame leaves the queue.  The boolean tells [run] whether to go on. *)
Definition sendMessage (maxMessagesInFrame : Z) (w : writer) : outcome Empty_set (writer * bool) :=
  '(q, r) ← Queue_Remove w.(messages);
  let w0 := mkWriter q w.(wclosed) w.(MaxQueueSize) w.(frames) in
  match r with
  | None => Ok (w0, negb (Queue_Closed q))
  | Some msg =>
    let messageCount := Queue_Len q in
    if ((maxMessagesInFrame =? -1)%Z || (1 <? maxMessagesInFrame)%Z) && (0 <? messageCount) then
      '(q', msgs) ← fill_frame messageCount maxMessagesInFrame [msg] q;
      match msgs with
      | None => Ok (mkWriter q' w.(wclosed) w.(MaxQueueSize) w.(frames), false)
      | Some msgs => Ok (write_frame w0 q' msgs)
      end
    else Ok (write_frame w0 q [msg])
  end.

(** [waitSendMessage]: [None] while the call blocks on the empty queue, and
    [interrupted] says that [closeCh] fired during the write delay. *)
Definition waitSendMessage (maxMessagesInFrame : Z) (interrupted : bool) (w : writer)
    : outcome Empty_set (option (writer * bool)) :=
  match Queue_Wait w.(messages) with
  | WaitBlocks => Ok None
  | WaitReturns false => Ok (Some (w, false))
  | WaitReturns true =>
    if interrupted then Ok (Some (w, false))
    else Some <$> sendMessage maxMessagesInFrame w
  end.

(** [run]'s normalisation of the frame limit. *)
Definition run_limit (maxMessagesInFrame : Z) : Z :=
  if (maxMessagesInFrame =? 0)%Z then defaultMaxMessagesInFrame else maxMessagesInFrame.

Definition writer_close (flushRemaining : bool) (w : writer) : outcome Empty_set writer :=
  if w.(wclosed) then Ok w
  else if flushRemaining then
    '(q, remaining) ← Queue_CloseRemaining w.(messages);
    Ok (mkWriter q true w.(MaxQueueSize)
          (if decide (remaining = []) then w.(frames) else w.(frames) ++ [remaining]))
  else Ok (mkWriter (Queue_Close w.(messages)) true w.(MaxQueueSize) w.(frames)).

(** ** The batching rule *)

(** How many of [n] waiting messages one frame takes. *)
Definition frame_len (maxMessagesInFrame : Z) (n : nat) : nat :=
  if (maxMessagesInFrame =? -1)%Z then n
  else if (1 <? maxMessagesInFrame)%Z then Nat.min (Z.to_nat maxMessagesInFrame) n
  else Nat.min 1 n.

(** From here on the queue is used through its abstraction only. *)
#[local] Opaque Queue_abs.

Definition pending (w : writer) : list Item := (Queue_abs w.(messages)).(waiting).

Lemma fill_frame_spec n max msgs q :
  Queue_inv q -> length (Queue_abs q).(waiting) = n -> (max = -1 \/ 1 < max)%Z ->
  (max = -1 \/ Z.of_nat (length msgs) <= max)%Z ->
  let k := if (max =? -1)%Z then n else Nat.min (Z.to_nat max - length msgs) n in
  exists q', fill_frame n max msgs q = Ok (q', Some (msgs ++ take k (Queue_abs q).(waiting))) /\
    Queue_inv q' /\ (Queue_abs q').(waiting) = drop k (Queue_abs q).(waiting) /\
    q'.(closed) = q.(closed).
Proof.
  revert msgs q. induction n as [|n IH]; intros msgs q Hq Hn Hmax Hle k.
  - apply nil_length_inv in Hn. exists q. rewrite Hn. unfold k.
    replace (if (max =? -1)%Z then 0 else _) with 0 by (destruct (max =? -1)%Z; lia).
    simpl. by rewrite app_nil_r.
  - simpl. destruct (Queue_abs q).(waiting) as [|m rest] eqn:Hw; [done|]. simpl in Hn.
    destruct (Z.ltb_spec (-1) max) as [Hlt|Hge]; simpl.
    + destruct (Z.leb_spec max (Z.of_nat (length msgs))).
      * exists q. unfold k. destruct (Z.eqb_spec max (-1)); [lia|].
        replace (Z.to_nat max - length msgs) with 0 by lia. simpl.
        by rewrite app_nil_r.
      * destruct (Queue_Remove_spec q Hq) as (q1 & -> & H1 & A1 & _).
        unfold fifo_remove in *. rewrite Hw in *. simpl in *.
        assert (waiting (Queue_abs q1) = rest) as Hrest by (by rewrite A1).
        destruct (IH (msgs ++ [m]) q1) as (q2 & -> & H2 & A2 & C2);
          [done|rewrite Hrest; lia|done|rewrite length_app; simpl; lia|].
        exists q2. unfold k. destruct (Z.eqb_spec max (-1)); [lia|].
        rewrite length_app in *. simpl in *. rewrite Hrest in *.
        replace (Nat.min (Z.to_nat max - length msgs) (S n))
          with (S (Nat.min (Z.to_nat max - (length msgs + 1)) n)) by lia.
        simpl. split; [by rewrite <- app_assoc|]. split; [done|]. split; [done|].
        rewrite C2, <- !Queue_abs_closed. by rewrite A1.
    + destruct Hmax as [->|?]; [|lia]. simpl in *.
      destruct (Queue_Remove_spec q Hq) as (q1 & -> & H1 & A1 & _).
      unfold fifo_remove in *. rewrite Hw in *. simpl in *.
      assert (waiting (Queue_abs q1) = rest) as Hrest by (by rewrite A1).
      destruct (IH (msgs ++ [m]) q1) as (q2 & -> & H2 & A2 & C2);
        [done|rewrite Hrest; lia|auto|auto|].
      exists q2. simpl in *. rewrite Hrest in *. split; [by rewrite <- app_assoc|].
      split; [done|]. split; [done|].
      rewrite C2, <- !Queue_abs_closed. by rewrite A1.
Qed.

(** One send takes [frame_len] messages off the queue and hands exactly those
    to the transport, as one frame, in order. *)
Lemma sendMessage_spec max w :
  Queue_inv w.(messages) -> pending w <> [] ->
  exists w', sendMessage max w =
      Ok (w', negb (write_err (take (frame_len max (length (pending w))) (pending w)))) /\
    Queue_inv w'.(messages) /\
    pending w' = drop (frame_len max (length (pending w))) (pending w) /\
    w'.(frames) = w.(frames) ++ [take (frame_len max (length (pending w))) (pending w)] /\
    w'.(wclosed) = w.(wclosed) /\ w'.(MaxQueueSize) = w.(MaxQueueSize) /\
    w'.(messages).(closed) = w.(messages).(closed).
Proof.
  intros Hq Hp. unfold sendMessage, pending in *.
  destruct (Queue_Remove_spec _ Hq) as (q1 & -> & H1 & A1 & _).
  unfold fifo_remove in *. destruct (waiting (Queue_abs (messages w))) as [|m rest] eqn:Hw; [done|].
  simpl in *. assert (waiting (Queue_abs q1) = rest) as Hrest by (by rewrite A1).
  assert (closed q1 = closed (messages w)) as Hcl.
  { rewrite <- !Queue_abs_closed. by rewrite A1. }
  rewrite (Queue_Len_spec q1) by done. rewrite Hrest.
  destruct (((max =? -1)%Z || (1 <? max)%Z) && (0 <? length rest)) eqn:Hbatch.
  - apply andb_prop in Hbatch as [Hmax Hlen].
    assert (max = -1 \/ 1 < max)%Z as Hm
      by (apply orb_prop in Hmax as [?%Z.eqb_eq|?%Z.ltb_lt]; auto).
    destruct (fill_frame_spec (length rest) max [m] q1) as (q2 & -> & H2 & A2 & C2);
      [done|by rewrite Hrest|done|simpl; lia|].
    simpl. rewrite Hrest in *. unfold frame_len.
    destruct (Z.eqb_spec max (-1)) as [->|].
    + simpl. eexists. split; [done|]. simpl. split; [done|]. split; [done|]. split; [done|].
      repeat split; congruence.
    + destruct (Z.ltb_spec 1 max); [|lia]. simpl in *.
      replace (Nat.min (Z.to_nat max) (S (length rest)))
        with (S (Nat.min (Z.to_nat max - 1) (length rest))) by lia.
      simpl. eexists. split; [done|]. simpl. repeat split; (done || congruence).
  - assert (frame_len max (S (length rest)) = 1) as Hk.
    { unfold frame_len. apply andb_false_iff in Hbatch as [Hb|Hb].
      - apply orb_false_iff in Hb as [-> ->]. lia.
      - apply Nat.ltb_ge in Hb. destruct (max =? -1)%Z eqn:?; [lia|].
        destruct (Z.ltb_spec 1 max); lia. }
    rewrite Hk. simpl. eexists. split; [done|]. simpl. rewrite take_0, drop_0.
    repeat split; (done || congruence).
Qed.

(** ** A connection's life

    Messages are enqueued by any goroutine, the writer goroutine sends frames
    while [run] has not returned, and [close] ends it.  [accepted] is the
    history of items for which [enqueue] did not report a closed connection;
    [discarded] records a close that did not flush. *)

Record conn := mkConn { cw : writer; running : bool; accepted : list Item; discarded : bool }.

Inductive conn_step (max : Z) : conn -> conn -> Prop :=
| step_enqueue c item w d :
    writer_enqueue c.(cw) item = Ok (w, d) ->
    conn_step max c
      (mkConn w c.(running)
         (if decide (d = Some DisconnectConnectionClosed) then c.(accepted)
          else c.(accepted) ++ [item]) c.(discarded))
| step_send c interrupted w go_on :
    c.(running) = true ->
    waitSendMessage max interrupted c.(cw) = Ok (Some (w, go_on)) ->
    conn_step max c (mkConn w go_on c.(accepted) c.(discarded))
| step_close c flush w :
    writer_close flush c.(cw) = Ok w ->
    conn_step max c
      (mkConn w c.(running) c.(accepted)
         (c.(discarded) || (negb flush && negb c.(cw).(wclosed)))).

Definition conn_reachable (max : Z) (c : conn) : Prop :=
  exists mq cap w, (0 <= cap)%Z /\ newWriter mq cap = Ok w /\
    rtc (conn_step max) (mkConn w true [] false) c.

Definition conn_inv (c : conn) : Prop :=
  Queue_inv c.(cw).(messages) /\
  c.(cw).(wclosed) = c.(cw).(messages).(closed) /\
  (c.(discarded) = true -> c.(cw).(wclosed) = true) /\
  concat c.(cw).(frames) `prefix_of` c.(accepted) /\
  (c.(discarded) = false -> concat c.(cw).(frames) ++ pending c.(cw) = c.(accepted)).

Lemma newWriter_spec mq cap w :
  (0 <= cap)%Z -> newWriter mq cap = Ok w ->
  Queue_inv w.(messages) /\ Queue_abs w.(messages) = fifo_empty /\
  w.(wclosed) = false /\ w.(frames) = [].
Proof.
  intros Hcap. unfold newWriter.
  destruct (Queue_New_spec (if (cap =? 0)%Z then 2 else cap)%Z) as (q & -> & Hq & Ha & _);
    [destruct (Z.eqb_spec cap 0); lia|].
  simpl. intros [= <-]. done.
Qed.

Lemma enqueue_inv c item w d :
  conn_inv c -> writer_enqueue c.(cw) item = Ok (w, d) ->
  conn_inv (mkConn w c.(running)
    (if decide (d = Some DisconnectConnectionClosed) then c.(accepted)
     else c.(accepted) ++ [item]) c.(discarded)).
Proof.
  intros (Hq & Hc & Hd & Hpre & Hfifo). unfold writer_enqueue.
  destruct (Queue_Add_spec c.(cw).(messages) item Hq) as (q & -> & Hq' & A & _).
  assert (closed q = closed (messages (cw c))) as Hcl.
  { rewrite <- !Queue_abs_closed, A. unfold fifo_add.
    by destruct (is_closed (Queue_abs _)) eqn:?. }
  unfold fifo_add in *. rewrite Queue_abs_closed in *.
  destruct (closed (messages (cw c))) eqn:Hclosed; simpl in *.
  - intros [= <- <-]. rewrite decide_True by done. unfold conn_inv, pending in *. simpl in *.
    rewrite A in *. repeat split; auto. congruence.
  - intros Hret. assert (w = mkWriter q (wclosed (cw c)) (MaxQueueSize (cw c)) (frames (cw c)) /\
      d <> Some DisconnectConnectionClosed) as [-> Hd'].
    { destruct (_ && _); by simplify_eq. }
    rewrite decide_False by done. unfold conn_inv, pending in *. simpl in *.
    rewrite A. simpl. repeat split; auto; [congruence|by apply prefix_app_r|].
    intros Hdis. rewrite <- Hfifo by done. by rewrite app_assoc.
Qed.

Lemma send_inv max c interrupted w b :
  conn_inv c -> waitSendMessage max interrupted c.(cw) = Ok (Some (w, b)) ->
  conn_inv (mkConn w b c.(accepted) c.(discarded)).
Proof.
  intros (Hq & Hc & Hd & Hpre & Hfifo). unfold waitSendMessage.
  rewrite (Queue_Wait_spec _ Hq). unfold fifo_wait.
  rewrite Queue_abs_closed. destruct (closed _) eqn:Hcl; [intros [= <- <-]; unfold conn_inv; simpl; split_and!; auto; congruence|].
  case_decide as Hp; [done|]. destruct interrupted; [intros [= <- <-]; unfold conn_inv; simpl; split_and!; auto; congruence|].
  destruct (sendMessage_spec max c.(cw)) as (w' & -> & Hq' & Hp' & Hf & Hwc & _ & Hmc); [done..|].
  simpl. intros [= <- <-]. assert (discarded c = false) as Hdis.
  { destruct (discarded c); [|done]. specialize (Hd eq_refl). congruence. }
  specialize (Hfifo Hdis). unfold conn_inv. simpl.
  rewrite Hf, concat_app, Hp', Hwc, Hmc, Hdis. simpl. rewrite app_nil_r, <- app_assoc, take_drop.
  split_and!; [done|congruence|by intros| |by intros _]. rewrite <- Hfifo.
  apply prefix_app. by apply prefix_take.
Qed.

Lemma close_inv c flush w :
  conn_inv c -> writer_close flush c.(cw) = Ok w ->
  conn_inv (mkConn w c.(running) c.(accepted)
              (c.(discarded) || (negb flush && negb c.(cw).(wclosed)))).
Proof.
  intros (Hq & Hc & Hd & Hpre & Hfifo). unfold writer_close.
  destruct (wclosed (cw c)) eqn:Hwc.
  { intros [= <-]. rewrite andb_false_r, orb_false_r. by rewrite <- Hwc in Hc, Hd. }
  assert (discarded c = false) as Hdis by (destruct (discarded c); [by discriminate Hd|done]).
  specialize (Hfifo Hdis). rewrite Hdis. destruct flush; simpl.
  - destruct (Queue_CloseRemaining_spec _ Hq) as (q & -> & Hq' & A & _). simpl. intros [= <-].
    assert (closed q = true) as Hqc by (rewrite <- Queue_abs_closed, A; done).
    assert (concat (if decide (waiting (Queue_abs (messages (cw c))) = []) then frames (cw c)
      else frames (cw c) ++ [waiting (Queue_abs (messages (cw c)))]) = accepted c) as Hall.
    { rewrite <- Hfifo. unfold pending. case_decide as Hw; [by rewrite Hw, app_nil_r|].
      rewrite concat_app. simpl. by rewrite app_nil_r. }
    unfold conn_inv, pending. simpl in *. rewrite Hall, A, Hqc. simpl. rewrite app_nil_r.
    repeat split; auto.
  - intros [= <-]. unfold conn_inv. simpl. repeat split; auto. discriminate.
Qed.

Lemma conn_inv_reachable max c : conn_reachable max c -> conn_inv c.
Proof.
  intros (mq & cap & w & Hcap & Hnew & Hsteps).
  assert (conn_inv (mkConn w true [] false)) as Hinit.
  { destruct (newWriter_spec _ _ _ Hcap Hnew) as (Hq & Ha & Hc & Hf).
    unfold conn_inv, pending. simpl. rewrite Hf, Ha, Hc. repeat split; auto.
    by rewrite <- Queue_abs_closed, Ha. }
  revert Hinit. induction Hsteps as [|c c1 c2 Hstep _ IH]; [done|]. intros Hc. apply IH.
  destruct Hstep; eauto using enqueue_inv, send_inv, close_inv.
Qed.

(** C4: messages reach the transport in the order they were accepted, none
    lost and none twice: in every reachable state the frames written so far,
    concatenated, followed by what still waits are exactly the accepted
    messages; after a close that discards, they are a prefix of them. *)
Theorem writer_delivers_in_order (max : Z) (c : conn) :
  conn_reachable max c ->
  concat c.(cw).(frames) `prefix_of` c.(accepted) /\
  (c.(discarded) = false -> concat c.(cw).(frames) ++ pending c.(cw) = c.(accepted)).
Proof. intros Hc. by destruct (conn_inv_reachable max c Hc) as (_ & _ & _ & ? & ?). Qed.

(** A send with messages waiting never blocks and never panics; it writes
    one frame, which holds the oldest messages and respects the frame limit:
    all of them for -1, at most the limit for a limit above 1, one otherwise. *)
Theorem send_frame_bounded (max : Z) (w : writer) :
  Queue_inv w.(messages) -> w.(messages).(closed) = false -> pending w <> [] ->
  exists w' frame,
    waitSendMessage max false w = Ok (Some (w', negb (write_err frame))) /\
    w'.(frames) = w.(frames) ++ [frame] /\ frame ++ pending w' = pending w /\
    0 < length frame /\
    (1 < max -> Z.of_nat (length frame) <= max)%Z /\
    (max = -1 -> pending w' = [])%Z.
Proof.
  intros Hq Hcl Hp. unfold waitSendMessage. rewrite (Queue_Wait_spec _ Hq).
  unfold fifo_wait. rewrite Queue_abs_closed, Hcl. rewrite decide_False by done.
  destruct (sendMessage_spec max w Hq Hp) as (w' & -> & _ & Hp' & Hf & _).
  eexists w', _. simpl. split; [done|]. split; [done|]. rewrite Hp', take_drop. split; [done|].
  assert (0 < length (pending w)) by (destruct (pending w); [done|simpl; lia]).
  rewrite length_take. unfold frame_len.
  destruct (Z.eqb_spec max (-1)) as [->|].
  - rewrite drop_all. repeat split; [lia|lia].
  - destruct (Z.ltb_spec 1 max); repeat split; lia.
Qed.

End Send.

(** A connection on which one message was enqueued and sent. *)
Definition sample_item : Item := mkItem [Byte.x41] "room" 4.

Definition sample_conn : conn :=
  mkConn (mkWriter (mkQueue (mkRing [sample_item; zero_item] 1 1 0) 0 false 2) false 0 [[sample_item]])
    true [sample_item] false.

Lemma sample_conn_reachable : conn_reachable (fun _ => false) 16 sample_conn.
Proof.
  exists 0%Z, 0%Z. eexists. split; [lia|]. split; [reflexivity|].
  eapply rtc_l.
  { eapply (step_enqueue _ _ _ sample_item). vm_compute. reflexivity. }
  eapply rtc_l.
  { eapply (step_send _ _ _ false); [reflexivity|]. vm_compute. reflexivity. }
  apply rtc_refl.
Qed.

Lemma writer_delivers_in_order_witness :
  concat sample_conn.(cw).(frames) ++ pending sample_conn.(cw) = [sample_item].
Proof.
  destruct (writer_delivers_in_order (fun _ => false) 16 sample_conn) as [_ H].
  - exact sample_conn_reachable.
  - exact (H eq_refl).
Defined.

Definition sample_writer : writer :=
  mkWriter (mkQueue (mkRing [sample_item; sample_item] 0 0 2) 2 false 2) false 0 [].

Lemma send_frame_bounded_witness :
  exists w' frame,
    waitSendMessage (fun _ => false) 16 false sample_writer = Ok (Some (w', true)) /\
    w'.(frames) = [frame] /\ frame ++ pending w' = [sample_item; sample_item].
Proof.
  destruct (send_frame_bounded (fun _ => false) 16 sample_writer)
    as (w' & frame & H1 & H2 & H3 & _).
  - unfold Queue_inv, ring_ok, ring_cap_ok. simpl. repeat split; try lia.
    exists 0. reflexivity.
  - reflexivity.
  - vm_compute. discriminate.
  - exists w', frame. split; [exact H1|]. split; [exact H2|exact H3].
Defined.
