(* ===== verification/Dissolve.v ===== *)
(** [server/deliverer/internal/dissolve]: the unbounded job queue
    ([queue.go]) and the dissolver that runs every submitted job until it
    succeeds ([dissolve.go]).  The dissolver is proved against the contract
    [FifoQueue], as the Go code uses its queue through an interface; the ring
    buffer [queueImpl] discharges the contract. *)

From S2P Require Import Prelude Ring Fifo.

(** ** The job queue *)

Section QueueImpl.
Context {Job : Type} (nil_job : Job).

Record queueImpl := mkQueueImpl {
  jbuf : ring Job;
  jsize : Z;
  jclosed : bool;
  jinitCap : nat
}.

Definition initialCapacity : nat := 2.

Definition newQueue : queueImpl :=
  mkQueueImpl (ring_make nil_job initialCapacity) 0 false initialCapacity.

Definition queueImpl_resize (n : nat) (q : queueImpl) : outcome Empty_set queueImpl :=
  r ← ring_resize nil_job n q.(jbuf);
  Ok (mkQueueImpl r q.(jsize) q.(jclosed) q.(jinitCap)).

Definition queueImpl_Add (q : queueImpl) (i : Job) : outcome Empty_set (queueImpl * bool) :=
  if q.(jclosed) then Ok (q, false)
  else
    r ← ring_push nil_job i q.(jbuf);
    Ok (mkQueueImpl r q.(jsize) q.(jclosed) q.(jinitCap), true).

Definition queueImpl_Close (q : queueImpl) : queueImpl :=
  mkQueueImpl (mkRing [] q.(jbuf).(head) q.(jbuf).(tail) 0) 0 true q.(jinitCap).

Definition queueImpl_Closed (q : queueImpl) : bool := q.(jclosed).

Definition queueImpl_Remove (q : queueImpl) : outcome Empty_set (queueImpl * option Job) :=
  if q.(jbuf).(cnt) =? 0 then Ok (q, None)
  else
    '(i, r) ← ring_take q.(jbuf);
    r ← ring_shrink nil_job q.(jinitCap) r;
    Ok (mkQueueImpl r q.(jsize) q.(jclosed) q.(jinitCap), Some i).

(** The part of [Wait] before its call of [Remove]: return at once with
    [false], go on to [Remove], or block on the condition variable first. *)
Definition queueImpl_Wait (q : queueImpl) : wait_result :=
  if q.(jclosed) then WaitReturns false
  else if q.(jbuf).(cnt) =? 0 then WaitBlocks else WaitReturns true.

Definition queueImpl_abs (q : queueImpl) : fifo_state Job :=
  mkFifo (if q.(jclosed) then [] else ring_view q.(jbuf)) q.(jclosed).

Definition queueImpl_inv (q : queueImpl) : Prop :=
  if q.(jclosed) then q.(jbuf).(cnt) = 0
  else ring_ok q.(jbuf) /\ ring_cap_ok q.(jinitCap) q.(jbuf).

Lemma newQueue_spec : queueImpl_inv newQueue /\ queueImpl_abs newQueue = fifo_empty.
Proof.
  destruct (ring_make_spec nil_job initialCapacity) as (? & ? & Hv); [unfold initialCapacity; lia|].
  unfold queueImpl_inv, queueImpl_abs. simpl. by rewrite Hv.
Qed.

Lemma queueImpl_Add_spec q i :
  queueImpl_inv q ->
  exists q', queueImpl_Add q i = Ok (q', snd (fifo_add (queueImpl_abs q) i)) /\
    queueImpl_inv q' /\ queueImpl_abs q' = fst (fifo_add (queueImpl_abs q) i).
Proof.
  unfold queueImpl_inv, queueImpl_Add, fifo_add, queueImpl_abs. simpl.
  destruct q.(jclosed) eqn:Hc; simpl.
  - intros ?. exists q. rewrite Hc. done.
  - intros [Hok Hcap].
    destruct (ring_push_spec nil_job q.(jinitCap) i q.(jbuf)) as (r & -> & ? & ? & Hv & ?); [done..|].
    eexists. split; [done|]. simpl. rewrite ?Hc, Hv. done.
Qed.

Lemma queueImpl_Remove_spec q :
  queueImpl_inv q ->
  exists q', queueImpl_Remove q = Ok (q', snd (fifo_remove (queueImpl_abs q))) /\
    queueImpl_inv q' /\ queueImpl_abs q' = fst (fifo_remove (queueImpl_abs q)).
Proof.
  unfold queueImpl_inv, queueImpl_Remove, fifo_remove, queueImpl_abs. simpl.
  destruct q.(jclosed) eqn:Hc.
  - intros Hz. rewrite Hz. simpl. exists q. rewrite Hc. done.
  - intros [Hok Hcap]. pose proof (length_ring_view _ Hok) as Hl.
    destruct (Nat.eqb_spec q.(jbuf).(cnt) 0) as [Hz|Hnz].
    + rewrite Hz in Hl. apply nil_length_inv in Hl. rewrite Hl. simpl.
      exists q. rewrite Hc, Hl in *. done.
    + destruct (ring_take_spec q.(jbuf)) as (x & r & -> & Hr & Hv & Hcn & Hn); [done|lia|]. simpl.
      destruct (ring_shrink_spec nil_job q.(jinitCap) r q.(jbuf))
        as (r' & -> & ? & ? & Hv' & Hc'); [done|done|done|done|lia|].
      simpl. rewrite Hv. eexists. split; [done|]. simpl. rewrite ?Hc, Hv'. done.
Qed.

Lemma queueImpl_Wait_spec q : queueImpl_inv q -> queueImpl_Wait q = fifo_wait (queueImpl_abs q).
Proof.
  unfold queueImpl_inv, queueImpl_Wait, fifo_wait, queueImpl_abs. simpl.
  destruct q.(jclosed); [done|]. intros [Hok _].
  pose proof (length_ring_view _ Hok) as Hl.
  destruct (Nat.eqb_spec q.(jbuf).(cnt) 0) as [Hz|]; case_decide as Hd; try done.
  - rewrite Hz in Hl. by apply nil_length_inv in Hl.
  - rewrite Hd in Hl. simpl in Hl. lia.
Qed.

#[export] Instance queueImpl_FifoQueue : FifoQueue queueImpl Job.
Proof.
  refine {| q_inv := queueImpl_inv; q_abs := queueImpl_abs; q_add := queueImpl_Add;
            q_remove := queueImpl_Remove; q_close := queueImpl_Close; q_wait := queueImpl_Wait |}.
  - intros q x H. destruct (queueImpl_Add_spec q x H) as (q' & ? & ? & ?). eauto.
  - intros q H. destruct (queueImpl_Remove_spec q H) as (q' & ? & ? & ?). eauto.
  - intros q _. done.
  - apply queueImpl_Wait_spec.
Defined.

End QueueImpl.
Arguments queueImpl : clear implicits.

(** ** The dissolver

    Its workers share the queue.  A worker takes a job with [Wait], runs it
    outside the lock, and puts it back when it returns an error; jobs a worker
    is running are in [running].  The other fields are the history: what
    [Submit] accepted, which jobs returned [nil], and the jobs the close threw
    away (waiting in the queue, or re-added after it). *)

Section Dissolver.
Context {Q Job : Type} `{HF : FifoQueue Q Job}.

Record Dissolver := mkDissolver {
  queue : Q;
  running : list Job;
  submitted : list Job;
  done_jobs : list Job;
  dropped : list Job
}.

Definition newDissolver (q : Q) : Dissolver := mkDissolver q [] [] [] [].

(** [Submit]: [Err] when the dissolver is closed. *)
Definition Submit (d : Dissolver) (job : Job) : outcome string Dissolver :=
  match q_add d.(queue) job with
  | Ok (q, true) =>
    Ok (mkDissolver q d.(running) (d.(submitted) ++ [job]) d.(done_jobs) d.(dropped))
  | Ok (q, false) => Err "can not submit job to closed dissolver"
  | Err e => match e with end
  | Panic p => Panic p
  end.

(** [job, ok := d.queue.Wait()] once it does not block: [None] for [!ok]. *)
Definition runWorker_take (d : Dissolver) : outcome Empty_set (Dissolver * option Job) :=
  match q_wait d.(queue) with
  | WaitReturns false => Ok (d, None)
  | _ =>
    '(q, r) ← q_remove d.(queue);
    Ok (mkDissolver q (option_list r ++ d.(running)) d.(submitted) d.(done_jobs) d.(dropped), r)
  end.

(** [err := job()] returned; on an error the job is added again (the result of
    [Add] is ignored, so a closed queue drops it). *)
Definition runWorker_finish (d : Dissolver) (job : Job) (rest : list Job) (err : bool)
    : outcome Empty_set Dissolver :=
  if err then
    '(q, ok) ← q_add d.(queue) job;
    Ok (mkDissolver q rest d.(submitted) d.(done_jobs)
          (if (ok : bool) then d.(dropped) else d.(dropped) ++ [job]))
  else Ok (mkDissolver d.(queue) rest d.(submitted) (d.(done_jobs) ++ [job]) d.(dropped)).

Definition Dissolver_Close (d : Dissolver) : Dissolver :=
  mkDissolver (q_close d.(queue)) d.(running) d.(submitted) d.(done_jobs)
    (d.(dropped) ++ (q_abs d.(queue)).(waiting)).

Inductive dissolver_step : Dissolver -> Dissolver -> Prop :=
| step_submit d job d' : Submit d job = Ok d' -> dissolver_step d d'
| step_take d d' r : runWorker_take d = Ok (d', r) -> dissolver_step d d'
| step_finish d job l1 l2 err d' :
    d.(running) = l1 ++ job :: l2 ->
    runWorker_finish d job (l1 ++ l2) err = Ok d' -> dissolver_step d d'
| step_dclose d : dissolver_step d (Dissolver_Close d).

Definition dissolver_inv (d : Dissolver) : Prop :=
  q_inv d.(queue) /\
  Permutation d.(submitted)
    ((q_abs d.(queue)).(waiting) ++ d.(running) ++ d.(done_jobs) ++ d.(dropped)) /\
  ((q_abs d.(queue)).(is_closed) = false -> d.(dropped) = []).

Lemma submit_inv d job d' : dissolver_inv d -> Submit d job = Ok d' -> dissolver_inv d'.
Proof.
  intros (Hq & Hperm & Hdrop). unfold Submit.
  destruct (q_add_law _ job Hq) as (q & -> & Hq' & A). unfold fifo_add in *.
  destruct (is_closed (q_abs (queue d))) eqn:Hc; simpl in *; [done|]. intros [= <-].
  unfold dissolver_inv. simpl. rewrite A. simpl. split; [done|]. split; [|by auto].
  rewrite Hperm. solve_Permutation.
Qed.

Lemma take_inv d d' r : dissolver_inv d -> runWorker_take d = Ok (d', r) -> dissolver_inv d'.
Proof.
  intros (Hq & Hperm & Hdrop). unfold runWorker_take.
  destruct (q_remove_law _ Hq) as (q & -> & Hq' & A). unfold fifo_remove in *.
  destruct (q_wait (queue d)) as [[]|]; simpl;
    [|intros [= <- <-]; unfold dissolver_inv; auto|];
  (intros [= <- <-]; destruct (waiting (q_abs (queue d))) as [|x rest] eqn:Hw; simpl in *;
   unfold dissolver_inv; simpl; rewrite A; simpl; rewrite ?Hw;
   (split; [done|]); (split; [|done]); rewrite Hperm; simpl; solve_Permutation).
Qed.

Lemma finish_inv d job l1 l2 err d' :
  dissolver_inv d -> d.(running) = l1 ++ job :: l2 ->
  runWorker_finish d job (l1 ++ l2) err = Ok d' -> dissolver_inv d'.
Proof.
  intros (Hq & Hperm & Hdrop) Hrun. unfold runWorker_finish. destruct err; simpl.
  - destruct (q_add_law _ job Hq) as (q & -> & Hq' & A). unfold fifo_add in *. simpl.
    rewrite Hrun in Hperm.
    destruct (is_closed (q_abs (queue d))) eqn:Hc; simpl in *; intros [= <-];
      unfold dissolver_inv; simpl; rewrite A; simpl; (split; [done|]).
    + split; [rewrite Hperm; solve_Permutation|congruence].
    + split; [rewrite Hperm; solve_Permutation|auto].
  - intros [= <-]. unfold dissolver_inv. simpl. split; [done|]. split; [|done].
    rewrite Hperm, Hrun. solve_Permutation.
Qed.

Lemma dissolver_step_inv d d' : dissolver_inv d -> dissolver_step d d' -> dissolver_inv d'.
Proof.
  intros Hd Hstep. destruct Hstep as [d job d' H|d d' r H|d job l1 l2 err d' Hr H|d].
  - by eapply submit_inv.
  - by eapply take_inv.
  - by eapply finish_inv.
  - destruct Hd as (Hq & Hperm & Hdrop). destruct (q_close_law _ Hq) as [Hq' A].
    unfold dissolver_inv, Dissolver_Close. simpl. rewrite A. simpl.
    split; [done|]. split; [|done]. rewrite Hperm. solve_Permutation.
Qed.

Definition dissolver_reachable (q0 : Q) (d : Dissolver) : Prop :=
  rtc dissolver_step (newDissolver q0) d.

Lemma dissolver_inv_reachable q0 d :
  q_inv q0 -> q_abs q0 = fifo_empty -> dissolver_reachable q0 d -> dissolver_inv d.
Proof.
  intros Hq Ha Hr. assert (dissolver_inv (newDissolver q0)) as Hi
    by (unfold dissolver_inv; simpl; by rewrite Ha).
  revert Hi. induction Hr; eauto using dissolver_step_inv.
Qed.

End Dissolver.

(** C29: no interleaving of submits, workers, failing jobs and a close loses or
    duplicates a job: while the dissolver is open every accepted job is
    waiting, being run, or has succeeded, exactly once, so a failed job is
    always retried; only a close drops jobs. *)
Theorem dissolver_keeps_jobs {Job : Type} (nil_job : Job) (d : @Dissolver (queueImpl Job) Job) :
  dissolver_reachable (Q := queueImpl Job) (HF := queueImpl_FifoQueue nil_job) (newQueue nil_job) d ->
  Permutation d.(submitted)
    ((queueImpl_abs d.(queue)).(waiting) ++ d.(running) ++ d.(done_jobs) ++ d.(dropped)) /\
  (d.(queue).(jclosed) = false -> d.(dropped) = []).
Proof.
  intros Hr. destruct (newQueue_spec nil_job) as [Hi Ha].
  by destruct (dissolver_inv_reachable (HF := queueImpl_FifoQueue nil_job) _ _ Hi Ha Hr)
    as (_ & Hp & Hd).
Qed.

(** One job submitted, taken, failed and therefore waiting again. *)
Definition sample_dissolver : @Dissolver (queueImpl nat) nat :=
  mkDissolver (mkQueueImpl (mkRing [7; 7] 1 0 1) 0 false 2) [] [7] [] [].

Lemma sample_dissolver_reachable :
  dissolver_reachable (HF := queueImpl_FifoQueue 0) (newQueue 0) sample_dissolver.
Proof.
  eapply rtc_l. { eapply (step_submit _ 7). vm_compute. reflexivity. }
  eapply rtc_l. { eapply step_take. vm_compute. reflexivity. }
  eapply rtc_l. { eapply (step_finish _ 7 [] [] true); vm_compute; reflexivity. }
  apply rtc_refl.
Qed.

Lemma dissolver_keeps_jobs_witness :
  sample_dissolver.(queue).(jclosed) = false /\ sample_dissolver.(dropped) = [].
Proof.
  split; [reflexivity|].
  apply (dissolver_keeps_jobs 0 sample_dissolver sample_dissolver_reachable). reflexivity.
Defined.
