(* ===== verification/CircBuf.v ===== *)
(** [pkg/circbuf/circbuf.go]: the fixed-size buffer that keeps the output of a
    task, overwriting the oldest bytes.  [written] is an [int64] in Go; it is
    unbounded here, as [2^63] bytes are out of reach. *)

From S2P Require Import Prelude.

Section CircBuf.
Context {B : Type} (zero : B).

Record Buffer := mkBuffer { data : list B; bsize : nat; writeCursor : nat; written : nat }.

Definition NewBuffer (n : nat) : Buffer := mkBuffer (replicate n zero) n 0 0.

(** [Write]: [b.size == 0] makes the last [%] panic. *)
Definition Buffer_Write (b : Buffer) (buf : list B) : outcome Empty_set (Buffer * nat) :=
  let n := length buf in
  let written := b.(written) + n in
  let buf := if b.(bsize) <? n then drop (n - b.(bsize)) buf else buf in
  let remain := b.(bsize) - b.(writeCursor) in
  let d := go_copy_at b.(data) b.(writeCursor) buf in
  let d := if remain <? length buf then go_copy d (drop remain buf) else d in
  if b.(bsize) =? 0 then Panic DivideByZero
  else Ok (mkBuffer d b.(bsize) ((b.(writeCursor) + length buf) mod b.(bsize)) written, n).

Definition Buffer_Size (b : Buffer) : nat := b.(bsize).

Definition Buffer_TotalWritten (b : Buffer) : nat := b.(written).

Definition Buffer_Bytes (b : Buffer) : list B :=
  if (b.(bsize) <=? b.(written)) && (b.(writeCursor) =? 0) then b.(data)
  else if b.(bsize) <? b.(written) then
    let out := go_copy (replicate b.(bsize) zero) (drop b.(writeCursor) b.(data)) in
    go_copy_at out (b.(bsize) - b.(writeCursor)) (take b.(writeCursor) b.(data))
  else take b.(writeCursor) b.(data).

Definition Buffer_Reset (b : Buffer) : Buffer := mkBuffer b.(data) b.(bsize) 0 0.

(** ** The invariant *)

(** The ring read from its cursor: oldest byte first. *)
Definition rot (b : Buffer) : list B := drop b.(writeCursor) b.(data) ++ take b.(writeCursor) b.(data).

(** [h] is what was written since the last reset. *)
Record buffer_inv (n : nat) (h : list B) (b : Buffer) : Prop := {
  bi_size : b.(bsize) = n;
  bi_len : length b.(data) = n;
  bi_cur : b.(writeCursor) < n;
  bi_written : b.(written) = length h;
  bi_part : length h <= n -> b.(writeCursor) = length h mod n;
  bi_view : lastn (Nat.min (length h) n) (rot b) = lastn n h
}.

Lemma length_rot n h b : buffer_inv n h b -> length (rot b) = n.
Proof. intros [? Hl Hc ???]. unfold rot. rewrite length_app, length_drop, length_take. lia. Qed.

Lemma lastn_lastn {A} k m (l : list A) : k <= m -> lastn k (lastn m l) = lastn k l.
Proof.
  intros. unfold lastn. rewrite drop_drop, length_drop. f_equal. lia.
Qed.

Lemma lastn_drop {A} k m (l : list A) : k + m <= length l -> lastn k (drop m l) = lastn k l.
Proof. intros. unfold lastn. rewrite drop_drop, length_drop. f_equal. lia. Qed.

(** One write of at most [n] bytes, seen from the cursor: the oldest bytes go,
    the new ones are appended. *)
Lemma rot_write n (d buf : list B) wc :
  length d = n -> wc < n -> length buf <= n ->
  let d1 := go_copy_at d wc buf in
  let d2 := if n - wc <? length buf then go_copy d1 (drop (n - wc) buf) else d1 in
  let wc' := (wc + length buf) mod n in
  length d2 = n /\ wc' < n /\
  drop wc' d2 ++ take wc' d2 = drop (length buf) (drop wc d ++ take wc d) ++ buf.
Proof.
  intros Hd Hwc Hb d1 d2 wc'.
  assert (length d1 = n) as Hd1 by (unfold d1; rewrite length_go_copy_at; lia).
  assert (wc' < n) as Hwc' by (apply Nat.mod_upper_bound; lia).
  destruct (Nat.ltb_spec (n - wc) (length buf)) as [Hlt|Hge].
  - assert (length d2 = n) as Hd2 by (unfold d2; rewrite length_go_copy; lia).
    split; [done|]. split; [done|].
    assert (wc' = length buf - (n - wc)) as Hw.
    { unfold wc'. replace (wc + length buf) with ((length buf - (n - wc)) + 1 * n) by lia.
      rewrite Nat.Div0.mod_add. apply Nat.mod_small. lia. }
    assert (d1 = take wc d ++ take (n - wc) buf) as E1.
    { unfold d1, go_copy_at, go_copy. rewrite length_drop, Hd.
      by rewrite (drop_ge (drop wc d)), app_nil_r by (rewrite length_drop; lia). }
    unfold d2. rewrite go_copy_fits by (rewrite length_drop; lia). rewrite length_drop, Hw.
    rewrite drop_app_length' by (rewrite length_drop; lia).
    rewrite take_app_length' by (rewrite length_drop; lia).
    rewrite E1, drop_app_le by (rewrite length_take; lia).
    rewrite (drop_app_ge (drop wc d)) by (rewrite length_drop; lia). rewrite length_drop, Hd.
    by rewrite <- (app_assoc _ (take _ buf)), take_drop.
  - assert (d1 = take wc d ++ buf ++ drop (wc + length buf) d) as E1.
    { unfold d1, go_copy_at. rewrite go_copy_fits by (rewrite length_drop; lia). by rewrite drop_drop. }
    unfold d2. split; [done|]. split; [done|].
    destruct (decide (length buf = n - wc)) as [He|Hne].
    + assert (wc' = 0) as ->.
      { unfold wc'. replace (wc + length buf) with n by lia. by apply Nat.Div0.mod_same. }
      simpl. rewrite E1, (drop_ge d (wc + length buf)), !app_nil_r by lia. rewrite drop_0.
      rewrite (drop_app_length' (drop wc d)) by (rewrite length_drop; lia). done.
    + assert (wc' = wc + length buf) as -> by (apply Nat.mod_small; lia).
      rewrite E1. rewrite !app_assoc.
      rewrite drop_app_length' by (rewrite length_app, length_take; lia).
      rewrite take_app_length' by (rewrite length_app, length_take; lia).
      rewrite drop_app_le by (rewrite length_drop; lia). by rewrite drop_drop, app_assoc.
Qed.

Lemma NewBuffer_inv n : 0 < n -> buffer_inv n [] (NewBuffer n).
Proof.
  intros. split; simpl; try done; [by rewrite length_replicate|by rewrite Nat.Div0.mod_0_l|].
  unfold lastn. rewrite drop_ge; [done|]. simpl. lia.
Qed.

Lemma Buffer_Reset_inv n h b : buffer_inv n h b -> buffer_inv n [] (Buffer_Reset b).
Proof.
  intros [? ? ? ? ? ?]. split; simpl; try done; [lia|by rewrite Nat.Div0.mod_0_l|]. unfold lastn.
  rewrite drop_ge; [done|]. simpl. lia.
Qed.

Lemma Buffer_Write_inv n h b buf :
  buffer_inv n h b -> exists b', Buffer_Write b buf = Ok (b', length buf) /\ buffer_inv n (h ++ buf) b'.
Proof.
  intros Hi. pose proof (length_rot _ _ _ Hi) as Hrot. destruct Hi as [Hs Hl Hc Hw Hp Hv].
  unfold Buffer_Write. rewrite Hs.
  set (buf' := if n <? length buf then drop (length buf - n) buf else buf).
  assert (buf' = lastn n buf) as Hbuf.
  { unfold buf', lastn. case_match; [done|]. by replace (length buf - n) with 0 by lia. }
  assert (length buf' = Nat.min n (length buf)) as Hlb by (by rewrite Hbuf, length_lastn).
  destruct (rot_write n b.(data) buf' b.(writeCursor) Hl Hc) as (Hd2 & Hwc2 & Hrot2); [lia|].
  destruct (Nat.eqb_spec n 0); [lia|]. eexists. split; [done|]. split; simpl; try done.
  - by rewrite length_app, Hw.
  - rewrite length_app. intros. rewrite Hp, Hlb, Nat.min_r by lia. apply Nat.Div0.add_mod_idemp_l.
  - unfold rot at 1. simpl. rewrite Hrot2. fold (rot b). rewrite length_app.
    destruct (decide (n <= length buf)) as [Hge|Hlt].
    + rewrite lastn_app_ge by lia. rewrite (lastn_app_ge n h) by done. rewrite Hbuf.
      rewrite lastn_lastn by lia. f_equal. lia.
    + assert (buf' = buf) as Eb by (rewrite Hbuf; apply lastn_all; lia). rewrite Eb.
      rewrite lastn_app_le by lia. rewrite lastn_app_le by lia. f_equal.
      rewrite lastn_drop by lia.
      rewrite <- (lastn_lastn _ (Nat.min (length h) n)) by lia. rewrite Hv, lastn_lastn by lia.
      destruct (decide (length h + length buf <= n)).
      * rewrite !lastn_all by lia. done.
      * f_equal. lia.
Qed.

Lemma Buffer_Bytes_spec n h b : buffer_inv n h b -> Buffer_Bytes b = lastn n h.
Proof.
  intros Hi. pose proof (length_rot _ _ _ Hi) as Hrot. destruct Hi as [Hs Hl Hc Hw Hp Hv].
  unfold Buffer_Bytes. rewrite Hs, Hw.
  assert (n <= length h -> rot b = lastn n h) as Hfull.
  { intros. rewrite <- Hv. rewrite Nat.min_r by lia. by rewrite lastn_all by lia. }
  destruct (Nat.leb_spec n (length h)) as [Hge|Hlt]; simpl.
  - rewrite <- Hfull by done. unfold rot. destruct (Nat.eqb_spec b.(writeCursor) 0) as [He|Hne].
    + rewrite He. simpl. by rewrite drop_0, app_nil_r.
    + destruct (Nat.ltb_spec n (length h)).
      * unfold go_copy_at. rewrite go_copy_fits by (rewrite length_replicate, length_drop; lia).
        rewrite take_app_length' by (rewrite length_drop; lia). f_equal.
        rewrite drop_app_length' by (rewrite length_drop; lia).
        rewrite go_copy_fits by (rewrite length_take, length_drop, length_replicate, length_drop; lia).
        rewrite (drop_ge (drop _ _)); [by rewrite app_nil_r|].
        rewrite length_take, !length_drop, length_replicate. lia.
      * assert (length h = n) as Hn by lia.
        rewrite Hp, Hn, Nat.Div0.mod_same in Hne by lia. done.
  - destruct (Nat.ltb_spec n (length h)); [lia|].
    assert (writeCursor b = length h) as Hcur by (rewrite Hp by lia; apply Nat.mod_small; lia).
    rewrite <- Hv. rewrite Nat.min_l by lia. unfold rot. rewrite Hcur. rewrite lastn_app_ge by (rewrite length_take; lia).
    by rewrite lastn_all by (rewrite length_take; lia).
Qed.

End CircBuf.

(** ** Sequences of writes and resets *)

Inductive buffer_op (B : Type) : Type :=
| WriteOp (buf : list B)
| ResetOp.
Arguments WriteOp {B} _.
Arguments ResetOp {B}.

Definition buffer_step {B} (b : Buffer (B := B)) (o : buffer_op B) : option (Buffer (B := B)) :=
  match o with
  | WriteOp buf => match Buffer_Write b buf with Ok (b', _) => Some b' | _ => None end
  | ResetOp => Some (Buffer_Reset b)
  end.

(** What was written since the last reset. *)
Definition history {B} (ops : list (buffer_op B)) (h : list B) : list B :=
  fold_left (fun h o => match o with WriteOp buf => h ++ buf | ResetOp => [] end) ops h.

Lemma buffer_run_inv {B} n (ops : list (buffer_op B)) (h : list B) b :
  buffer_inv n h b -> exists b', run buffer_step ops b = Some b' /\ buffer_inv n (history ops h) b'.
Proof.
  revert h b. induction ops as [|o ops IH]; intros h b Hi; simpl; [eauto|]. destruct o as [buf|]; simpl.
  - destruct (Buffer_Write_inv n h b buf Hi) as (b' & -> & Hi'). eauto.
  - eauto using Buffer_Reset_inv.
Qed.

(** However the writes are cut, a buffer of positive size never panics,
    holds exactly the last [n] bytes written since the last reset (all of them
    when there are fewer), and counts every byte. *)
Theorem circbuf_keeps_last {B} (zero : B) n ops :
  0 < n ->
  exists b, run buffer_step ops (NewBuffer zero n) = Some b /\
    Buffer_Bytes zero b = lastn n (history ops []) /\
    Buffer_TotalWritten b = length (history ops []).
Proof.
  intros Hn. destruct (buffer_run_inv n ops [] _ (NewBuffer_inv zero n Hn)) as (b & -> & Hi).
  exists b. split; [done|]. split; [by apply Buffer_Bytes_spec|apply Hi].
Qed.

Lemma circbuf_keeps_last_witness :
  exists b, run buffer_step [WriteOp [1; 2; 3]; WriteOp [4; 5]; WriteOp [6]] (NewBuffer 0 4) = Some b /\
    Buffer_Bytes 0 b = [3; 4; 5; 6].
Proof.
  destruct (circbuf_keeps_last 0 4 [WriteOp [1; 2; 3]; WriteOp [4; 5]; WriteOp [6]]) as (b & H1 & H2 & _);
    [lia|]. exists b. split; [exact H1|exact H2].
Defined.
