(* ===== verification/CbQueue.v ===== *)
(** [pkg/cbqueue/cbqueue.go]: the queue of callbacks that the pubsub client
    hands its events to; one goroutine, [Dispatch], runs them.

    The queue is a linked list of cells.  The model keeps the cells in a heap
    and the two pointers [head] and [tail]; its abstraction is the list of
    callbacks that wait.  A cell without a callback is the mark that [Close]
    appends. *)

From S2P Require Import Prelude.

Section CBQueue.
Context {F : Type}.

Record AsyncCB := mkCB { fn : option F; next : option nat }.

Record CBQueue := mkCBQueue {
  heap : gmap nat AsyncCB;
  fresh : nat;
  head : option nat;
  tail : option nat
}.

Definition newCBQueue : CBQueue := mkCBQueue ∅ 0 None None.

(** [PushOrClose(f, close)]. *)
Definition PushOrClose (f : option F) (close : bool) (q : CBQueue) : outcome () CBQueue :=
  if negb close && bool_decide (f = None)
  then Panic (ExplicitPanic "pushing a nil callback with false close")
  else
    let cell := q.(fresh) in
    let h := <[cell := mkCB f None]> q.(heap) in
    match q.(tail) with
    | Some t => Ok (mkCBQueue (alter (fun c => mkCB c.(fn) (Some cell)) t h) (S cell) q.(head) (Some cell))
    | None => Ok (mkCBQueue h (S cell) (Some cell) (Some cell))
    end.

Definition Push (f : F) (q : CBQueue) : outcome () CBQueue := PushOrClose (Some f) false q.

Definition Close (q : CBQueue) : outcome () CBQueue := PushOrClose None true q.

(** The locked part of an iteration of [Dispatch]: take the first cell.  [None]
    is the wait on the condition variable. *)
Definition take_head (q : CBQueue) : option (option F * CBQueue) :=
  match q.(head) with
  | None => None
  | Some curr =>
    match q.(heap) !! curr with
    | None => None
    | Some cb =>
      Some (cb.(fn), mkCBQueue q.(heap) q.(fresh) cb.(next)
                       (if decide (Some curr = q.(tail)) then None else q.(tail)))
    end
  end.

(** [Dispatch] until it waits or returns, for at most [fuel] iterations: the
    callbacks it runs, the queue it leaves, and whether it returned. *)
Fixpoint Dispatch (fuel : nat) (q : CBQueue) : list F * CBQueue * bool :=
  match fuel with
  | 0 => ([], q, false)
  | S fuel =>
    match take_head q with
    | None => ([], q, false)
    | Some (None, q) => ([], q, true)
    | Some (Some f, q) =>
      let '(fs, q', stopped) := Dispatch fuel q in (f :: fs, q', stopped)
    end
  end.

(** ** The list a queue represents *)

Fixpoint chain (h : gmap nat AsyncCB) (p : option nat) (l : list (nat * option F)) : Prop :=
  match l with
  | [] => p = None
  | (loc, f) :: l => p = Some loc /\ exists nx, h !! loc = Some (mkCB f nx) /\ chain h nx l
  end.

Record represents (q : CBQueue) (l : list (nat * option F)) : Prop := {
  rep_chain : chain q.(heap) q.(head) l;
  rep_tail : q.(tail) = fst <$> last l;
  rep_nodup : NoDup l.*1;
  rep_fresh : forall loc, loc ∈ l.*1 -> loc < q.(fresh)
}.

(** [waiting q cbs]: the callbacks [cbs] wait in [q], in this order. *)
Definition waiting (q : CBQueue) (cbs : list (option F)) : Prop :=
  exists l, represents q l /\ l.*2 = cbs.

Lemma chain_frame h h' p l :
  (forall loc, loc ∈ l.*1 -> h' !! loc = h !! loc) -> chain h p l -> chain h' p l.
Proof.
  revert p. induction l as [|[loc f] l IH]; intros p Hf; simpl; [done|].
  intros (-> & nx & Hl & Hc). split; [done|]. exists nx. split.
  - rewrite Hf; [done|]. set_solver.
  - apply IH; [|done]. intros. apply Hf. set_solver.
Qed.

(** Linking a fresh cell behind the last one. *)
Lemma chain_snoc h p l t ft cell f :
  NoDup (l ++ [(t, ft)]).*1 -> cell ∉ (l ++ [(t, ft)]).*1 ->
  chain h p (l ++ [(t, ft)]) ->
  chain (alter (fun c => mkCB c.(fn) (Some cell)) t (<[cell := mkCB f None]> h)) p
        ((l ++ [(t, ft)]) ++ [(cell, f)]).
Proof.
  revert p. induction l as [|[loc g] l IH]; intros p Hnd Hc; simpl.
  - intros (-> & nx & Ht & ->). simpl in Hc. split; [done|]. exists (Some cell). split.
    { rewrite lookup_alter_eq, lookup_insert_ne, Ht by set_solver. done. }
    split; [done|]. exists None. rewrite lookup_alter_ne, lookup_insert_eq by set_solver. done.
  - intros (-> & nx & Hl & Hch). simpl in Hnd, Hc. apply NoDup_cons in Hnd as [Hn Hnd].
    split; [done|]. exists nx. split.
    { rewrite fmap_app in Hn. simpl in Hn. rewrite lookup_alter_ne, lookup_insert_ne by set_solver. done. }
    apply IH; [done| |done]. by intros Hin; apply Hc; right.
Qed.

Lemma represents_new : represents newCBQueue [].
Proof. split; [done|done|constructor|]. intros ? Hl. by apply elem_of_nil in Hl. Qed.

Lemma represents_push f c q l :
  (c = true \/ f <> None) -> represents q l ->
  exists q', PushOrClose f c q = Ok q' /\ represents q' (l ++ [(q.(fresh), f)]).
Proof.
  intros Hc [Hch Ht Hnd Hfr]. unfold PushOrClose.
  replace (negb c && bool_decide (f = None)) with false
    by (destruct Hc as [-> | Hf]; [done|]; by rewrite bool_decide_false, andb_false_r).
  assert (Hn : q.(fresh) ∉ l.*1) by (intros Hin%Hfr; lia).
  assert (Hnd' : NoDup (l ++ [(q.(fresh), f)]).*1).
  { rewrite fmap_app, NoDup_app. split_and!; [done| |apply NoDup_singleton]. set_solver. }
  assert (Hfr' : forall loc, loc ∈ (l ++ [(q.(fresh), f)]).*1 -> loc < S q.(fresh)).
  { intros loc. rewrite fmap_app. simpl. rewrite elem_of_snoc. intros [Hl%Hfr| ->]; lia. }
  destruct l as [|[t ft] l _] using rev_ind.
  - simpl in Ht. rewrite Ht. eexists. split; [done|]. split; [|done..].
    simpl in *. split; [done|]. exists None. by rewrite lookup_insert_eq.
  - rewrite Ht, last_snoc. simpl. eexists. split; [done|]. split; [|by rewrite last_snoc|done..].
    by apply chain_snoc.
Qed.

Lemma represents_take q loc f l :
  represents q ((loc, f) :: l) ->
  exists q', take_head q = Some (f, q') /\ represents q' l.
Proof.
  intros [Hch Ht Hnd Hfr]. destruct Hch as (Hh & nx & Hl & Hch). unfold take_head.
  rewrite Hh, Hl. eexists. split; [done|]. apply NoDup_cons in Hnd as [Hn Hnd].
  split; simpl; [done| |done|]; [|intros; apply Hfr; set_solver].
  rewrite Ht. destruct l as [|[t ft] l _] using rev_ind.
  - simpl. by rewrite decide_True.
  - change ((loc, f) :: l ++ [(t, ft)]) with (((loc, f) :: l) ++ [(t, ft)]). rewrite !last_snoc.
    simpl. rewrite decide_False; [done|]. intros [= ->]. apply Hn. apply list_elem_of_fmap. exists (t, ft).
    split; [done|]. apply elem_of_snoc. by right.
Qed.

Lemma represents_empty q : represents q [] -> take_head q = None.
Proof. intros [Hch _ _ _]. unfold take_head. by rewrite Hch. Qed.

(** The list of callbacks that wait, driven by the specification: [Push] and
    [Close] append, [Dispatch] takes from the front. *)
Lemma push_waiting f c q cbs :
  (c = true \/ f <> None) -> waiting q cbs ->
  exists q', PushOrClose f c q = Ok q' /\ waiting q' (cbs ++ [f]).
Proof.
  intros Hc (l & Hr & <-). destruct (represents_push f c q l Hc Hr) as (q' & Hq & Hr').
  exists q'. split; [done|]. eexists. split; [done|]. by rewrite fmap_app.
Qed.

Lemma dispatch_waiting fuel q fs rest :
  waiting q ((Some <$> fs) ++ rest) -> length fs <= fuel ->
  exists q', waiting q' rest /\
    Dispatch fuel q = let '(gs, q'', b) := Dispatch (fuel - length fs) q' in (fs ++ gs, q'', b).
Proof.
  revert fuel q. induction fs as [|f fs IH]; intros fuel q Hw Hf; simpl in *.
  - exists q. split; [done|]. rewrite Nat.sub_0_r. by destruct (Dispatch fuel q) as [[]].
  - destruct fuel as [|fuel]; [lia|]. destruct Hw as ([|[loc g] l] & Hr & Hl); simpl in Hl; [done|].
    injection Hl as -> Hl. destruct (represents_take _ _ _ _ Hr) as (q1 & Ht & Hr1).
    destruct (IH fuel q1) as (q' & Hw' & Hd); [by exists l|lia|].
    exists q'. split; [done|]. simpl. rewrite Ht, Hd.
    by destruct (Dispatch (fuel - length fs) q') as [[]].
Qed.

(** Everything pushed before the first [Close] is run, once and in the order of
    the pushes; what is pushed later is never run, although [Push] accepts
    it. *)
Theorem dispatch_until_close fs gs :
  exists q fin rest,
    run (fun q f => match PushOrClose f (bool_decide (f = None)) q with Ok q => Some q | _ => None end)
      ((Some <$> fs) ++ None :: (Some <$> gs)) newCBQueue = Some q /\
    Dispatch (S (length fs)) q = (fs, fin, true) /\ waiting fin rest /\ rest = Some <$> gs.
Proof.
  assert (Hpush : forall cbs q0 l, waiting q0 l ->
    exists q, run (fun q f => match PushOrClose f (bool_decide (f = None)) q with Ok q => Some q | _ => None end)
      cbs q0 = Some q /\ waiting q (l ++ cbs)).
  { induction cbs as [|f cbs IH]; intros q0 l Hw; simpl.
    - exists q0. by rewrite app_nil_r.
    - destruct (push_waiting f (bool_decide (f = None)) q0 l) as (q1 & -> & Hw1); [|done|].
      { destruct f; [by right|left; by apply bool_decide_eq_true]. }
      destruct (IH q1 _ Hw1) as (q & Hr & Hwq). exists q. by rewrite <- app_assoc in Hwq. }
  destruct (Hpush ((Some <$> fs) ++ None :: (Some <$> gs)) newCBQueue []) as (q & Hr & Hw);
    [by exists []; split; [apply represents_new|]|]. simpl in Hw.
  destruct (dispatch_waiting (S (length fs)) q fs _ Hw) as (q1 & Hw1 & Hd); [lia|].
  replace (S (length fs) - length fs) with 1 in Hd by lia.
  destruct Hw1 as ([|[loc g] l] & Hrep & Hl); simpl in Hl; [done|]. injection Hl as -> Hl.
  destruct (represents_take _ _ _ _ Hrep) as (fin & Ht & Hrep').
  exists q, fin, l.*2. split_and!; [done| |by exists l|done].
  rewrite Hd. simpl. rewrite Ht. by rewrite app_nil_r.
Qed.

End CBQueue.

Arguments CBQueue : clear implicits.
Arguments AsyncCB : clear implicits.
