(* ===== verification/PubSubData.v ===== *)
(** The data of the pubsub client,
    [kairos-local/kairosdeamon/pubsub]: codes.go, errors.go, protocol.go,
    config.go, the events of client_events.go and subscription_events.go, the
    structs [Client] and [Subscription], and the part of
    transport_websoket.go that reads a close frame.

    Closures that the code registers (callbacks of requests, of futures, of
    timers) are constructors with the variables they capture.  A goroutine is
    the list of the operations it still has to do, one operation per critical
    section; [PubSub] gives their effects. *)

From S2P Require Import Prelude.

(** ** Codes and errors *)

Definition disconnectedDisconnectCalled : Z := 0.
Definition disconnectedUnauthorized : Z := 1.
Definition disconnectBadProtocol : Z := 2.
Definition disconnectMessageSizeLimit : Z := 3.

Definition connectingConnectCalled : Z := 0.
Definition connectingTransportClosed : Z := 1.
Definition connectingNoPing : Z := 2.
Definition connectingSubscribeTimeout : Z := 3.
Definition connectingUnsubscribeError : Z := 4.

Definition subscribingSubscribeCalled : Z := 0.
Definition subscribingTransportClosed : Z := 1.

Definition unsubscribedUnsubscribeCalled : Z := 0.
Definition unsubscribedUnauthorized : Z := 1.
Definition unsubscribedClientClosed : Z := 2.

(** The errors that reach callbacks: the variables of errors.go, [*Error], the
    error of a context, [io.EOF], and errors of other packages by their text. *)
Inductive gerr : Type :=
| ErrTimeout
| ErrClientDisconnected
| ErrClientClosed
| ErrSubscriptionUnsubscribed
| ErrDuplicateSubscription
| ErrUnauthorized
| ErrEOF
| ErrCtx
| ErrServer (code : Z) (message : string)
| ErrText (text : string).

#[export] Instance gerr_eq_dec : EqDecision gerr.
Proof. solve_decision. Defined.

Definition isTokenExpiredError (err : gerr) : bool :=
  match err with ErrServer code _ => (code =? 109)%Z | _ => false end.

Definition isServerError (err : gerr) : bool :=
  match err with ErrServer _ _ => true | _ => false end.

(** The error values handed to [onError]. *)
Inductive error_event : Type :=
| TransportError (e : gerr)
| RefreshError (e : gerr)
| ConfigurationError (e : gerr)
| ConnectError (e : gerr)
| SubscriptionSubscribeError (e : gerr)
| SubscriptionRefreshError (e : gerr).

(** ** Messages *)

(** A byte slice that may be nil. *)
Notation bytes := (option string).

Record ClientInfo := mkInfo { info_Client : string; info_User : string; ConnInfo : bytes; ChanInfo : bytes }.

Record Publication := mkPub { pub_Data : bytes; pub_Info : option ClientInfo; pub_Tags : list (string * string) }.

(** [if len(b) > 0 { x = b }]. *)
Definition nonempty (b : bytes) : bytes :=
  match b with Some (String _ _) => b | _ => None end.

Definition infoFromProto (v : ClientInfo) : ClientInfo :=
  mkInfo v.(info_Client) v.(info_User) (nonempty v.(ConnInfo)) (nonempty v.(ChanInfo)).

Definition pubFromProto (p : Publication) : Publication :=
  mkPub p.(pub_Data) (infoFromProto <$> p.(pub_Info)) p.(pub_Tags).

Record SubscribeResult := mkSubRes {
  sr_Data : string; sr_Expires : bool; sr_Ttl : Z; sr_Publications : list Publication }.

Record ConnectResult := mkConRes {
  cr_Client : string; cr_Data : string; cr_Expires : bool; cr_Ttl : Z; cr_Ping : Z;
  cr_Subs : gmap string SubscribeResult }.

Record Push := mkPush {
  p_Channel : string;
  p_Message : option string;
  p_Unsubscribe : option (Z * string);
  p_Pub : option Publication;
  p_Subscribe : option string;
  p_Disconnect : option (Z * string)
}.

(** A reply of the server; the pointers it does not set are [None]. *)
Record Reply := mkReply {
  r_Id : Z;
  r_Error : option (Z * string);
  r_Push : option Push;
  r_Connect : option ConnectResult;
  r_Subscribe : option SubscribeResult;
  r_Refresh : option (bool * Z);
  r_SubRefresh : option (bool * Z);
  r_Presence : option (list (string * ClientInfo));
  r_PresenceStats : option (Z * Z)
}.

Definition errorFromProto (e : Z * string) : gerr := ErrServer e.1 e.2.

(** The commands written to a transport. *)
Inductive command : Type :=
| CmdConnect (token name : string) (data : string)
| CmdRefresh (token : string)
| CmdSubscribe (channel : string) (data : string) (token : string)
| CmdSubRefresh (channel token : string)
| CmdPublish (channel data : string)
| CmdPresence (channel : string)
| CmdPresenceStats (channel : string)
| CmdUnsubscribe (channel : string)
| CmdSend (data : string).

(** [type disconnect struct]. *)
Record disconnect := mkDis { dis_Code : Z; dis_Reason : string; dis_Reconnect : bool }.

#[export] Instance disconnect_eq_dec : EqDecision disconnect.
Proof. solve_decision. Defined.

(** The codes after which the client reconnects: the condition of
    [handlePush] and of [extractDisconnectWebsocket]. *)
Definition reconnect_code (code : Z) : bool :=
  (code <? 3500)%Z || (5000 <=? code)%Z || ((4000 <=? code)%Z && (code <? 4500)%Z).

Definition CloseMessageTooBig : Z := 1009.

(** [extractDisconnectWebsocket]: what a failed read says about the reason.
    [close] is the code and text of a websocket close frame, [None] for another
    error; [json_disconnect] is [json.Unmarshal] into a [disconnect]. *)
Definition extractDisconnectWebsocket (json_disconnect : string -> option disconnect)
    (close : option (Z * string)) : option disconnect :=
  match close with
  | None => None
  | Some (c, text) =>
    match json_disconnect text with
    | Some d => Some d
    | None =>
      let code := wrap_u32 c in
      Some (mkDis
        (if (code <? 3000)%Z
         then if (code =? CloseMessageTooBig)%Z then disconnectMessageSizeLimit else connectingTransportClosed
         else code) text (reconnect_code code))
    end
  end.

(** ** Handlers and configuration *)

(** Which handlers of [eventHub] are set. *)
Record Handlers := mkHandlers {
  onConnected : bool;
  onDisconnected : bool;
  onConnecting : bool;
  onError : bool;
  onMessage : bool;
  onServerSubscribe : bool;
  onServerSubscribing : bool;
  onServerUnsubscribed : bool;
  onServerPublication : bool
}.

(** Which handlers of [subscriptionEventHub] are set. *)
Record SubHandlers := mkSubHandlers {
  onSubscribing : bool;
  onSubscribed : bool;
  onUnsubscribe : bool;
  onSubError : bool;
  onPublication : bool
}.

Record SubscriptionConfig := mkSubCfg {
  sc_Data : string; sc_Token : string; sc_GetToken : bool; sc_handlers : SubHandlers }.

Record Config := mkConfig {
  endpoints : list string;
  cfg_Token : string;
  cfg_GetToken : bool;
  cfg_Data : string;
  cfg_Name : string;
  cfg_handlers : Handlers
}.

(** The calls of handlers, with their events; those of a subscription carry the
    identity of the subscription. *)
Inductive event : Type :=
| EvConnecting (code : Z) (reason : string)
| EvConnected (client data : string)
| EvDisconnected (code : Z) (reason : string)
| EvError (e : error_event)
| EvMessage (data : string)
| EvServerSubscribed (channel data : string)
| EvServerSubscribing (channel : string)
| EvServerUnsubscribed (channel : string)
| EvServerPublication (channel : string) (p : Publication)
| EvSubscribing (s : nat) (code : Z) (reason : string)
| EvSubscribed (s : nat) (data : string)
| EvUnsubscribed (s : nat) (code : Z) (reason : string)
| EvSubError (s : nat) (e : error_event)
| EvPublication (s : nat) (p : Publication).

(** What the function passed to [publish], [presence], ... is called with. *)
Inductive result : Type :=
| RDone
| RPresence (clients : list (string * ClientInfo))
| RStats (NumClients NumUsers : Z)
| RError (e : gerr).

(** ** Closures *)

(** The functions given to [onConnect] and [onSubscribe], by the call that
    waits for them. *)
Inductive future : Type :=
| FSend (call : nat) (data : string)
| FPublish (call : nat) (channel data : string)
| FPresence (call : nat) (channel : string)
| FPresenceStats (call : nat) (channel : string).

Definition fut_call (f : future) : nat :=
  match f with FSend c _ | FPublish c _ _ | FPresence c _ | FPresenceStats c _ => c end.

(** The callbacks of requests.  [CbConnect t] is the closure of
    [startReconnecting] for transport [t]. *)
Inductive callback : Type :=
| CbConnect (t : nat)
| CbRefresh
| CbSubscribe (s : nat)
| CbSubRefresh (s : nat)
| CbPublish (call : nat)
| CbPresence (call : nat)
| CbPresenceStats (call : nat)
| CbUnsubscribe.

(** The functions given to [time.AfterFunc]: [startReconnecting] with the
    attempt its delay is computed from, [sendRefresh], the timers of a
    subscription. *)
Inductive timer : Type :=
| TReconnect (attempt : Z)
| TRefresh (seconds : Z)
| TResubscribe (s : nat) (attempt : Z)
| TSubRefresh (s : nat) (seconds : Z).

(** ** The client and its subscriptions *)

Inductive State : Type := StateDisconnected | StateConnecting | StateConnected | StateClosed.

#[export] Instance State_eq_dec : EqDecision State.
Proof. solve_decision. Defined.

Inductive SubState : Type := SubStateUnsubscribed | SubStateSubscribing | SubStateSubscribed.

#[export] Instance SubState_eq_dec : EqDecision SubState.
Proof. solve_decision. Defined.

(** [Client].  A transport, a timer, a channel and a subscription are known by
    numbers; [CBQueue] is whether the pointer is not nil, [delayPing] the fill
    of the channel. *)
Record Client := mkClient {
  cmdID : Z;
  futureID : Z;
  round : Z;
  token : string;
  transport : option nat;
  state : State;
  subs : gmap string nat;
  serverSubs : gset string;
  requests : gmap Z callback;
  reconnectAttempts : Z;
  delayPing : nat;
  closeCh : option nat;
  connectFutures : gmap Z future;
  CBQueue : bool;
  reconnectTimer : option nat;
  refreshTimer : option nat;
  refreshRequired : bool
}.

Definition set_cmdID (v : Z) (c : Client) : Client :=
  mkClient v c.(futureID) c.(round) c.(token) c.(transport) c.(state) c.(subs) c.(serverSubs)
    c.(requests) c.(reconnectAttempts) c.(delayPing) c.(closeCh) c.(connectFutures) c.(CBQueue)
    c.(reconnectTimer) c.(refreshTimer) c.(refreshRequired).
Definition set_futureID (v : Z) (c : Client) : Client :=
  mkClient c.(cmdID) v c.(round) c.(token) c.(transport) c.(state) c.(subs) c.(serverSubs)
    c.(requests) c.(reconnectAttempts) c.(delayPing) c.(closeCh) c.(connectFutures) c.(CBQueue)
    c.(reconnectTimer) c.(refreshTimer) c.(refreshRequired).
Definition set_round (v : Z) (c : Client) : Client :=
  mkClient c.(cmdID) c.(futureID) v c.(token) c.(transport) c.(state) c.(subs) c.(serverSubs)
    c.(requests) c.(reconnectAttempts) c.(delayPing) c.(closeCh) c.(connectFutures) c.(CBQueue)
    c.(reconnectTimer) c.(refreshTimer) c.(refreshRequired).
Definition set_token (v : string) (c : Client) : Client :=
  mkClient c.(cmdID) c.(futureID) c.(round) v c.(transport) c.(state) c.(subs) c.(serverSubs)
    c.(requests) c.(reconnectAttempts) c.(delayPing) c.(closeCh) c.(connectFutures) c.(CBQueue)
    c.(reconnectTimer) c.(refreshTimer) c.(refreshRequired).
Definition set_transport (v : option nat) (c : Client) : Client :=
  mkClient c.(cmdID) c.(futureID) c.(round) c.(token) v c.(state) c.(subs) c.(serverSubs)
    c.(requests) c.(reconnectAttempts) c.(delayPing) c.(closeCh) c.(connectFutures) c.(CBQueue)
    c.(reconnectTimer) c.(refreshTimer) c.(refreshRequired).
Definition set_state (v : State) (c : Client) : Client :=
  mkClient c.(cmdID) c.(futureID) c.(round) c.(token) c.(transport) v c.(subs) c.(serverSubs)
    c.(requests) c.(reconnectAttempts) c.(delayPing) c.(closeCh) c.(connectFutures) c.(CBQueue)
    c.(reconnectTimer) c.(refreshTimer) c.(refreshRequired).
Definition set_subs (v : gmap string nat) (c : Client) : Client :=
  mkClient c.(cmdID) c.(futureID) c.(round) c.(token) c.(transport) c.(state) v c.(serverSubs)
    c.(requests) c.(reconnectAttempts) c.(delayPing) c.(closeCh) c.(connectFutures) c.(CBQueue)
    c.(reconnectTimer) c.(refreshTimer) c.(refreshRequired).
Definition set_serverSubs (v : gset string) (c : Client) : Client :=
  mkClient c.(cmdID) c.(futureID) c.(round) c.(token) c.(transport) c.(state) c.(subs) v
    c.(requests) c.(reconnectAttempts) c.(delayPing) c.(closeCh) c.(connectFutures) c.(CBQueue)
    c.(reconnectTimer) c.(refreshTimer) c.(refreshRequired).
Definition set_requests (v : gmap Z callback) (c : Client) : Client :=
  mkClient c.(cmdID) c.(futureID) c.(round) c.(token) c.(transport) c.(state) c.(subs)
    c.(serverSubs) v c.(reconnectAttempts) c.(delayPing) c.(closeCh) c.(connectFutures)
    c.(CBQueue) c.(reconnectTimer) c.(refreshTimer) c.(refreshRequired).
Definition set_reconnectAttempts (v : Z) (c : Client) : Client :=
  mkClient c.(cmdID) c.(futureID) c.(round) c.(token) c.(transport) c.(state) c.(subs)
    c.(serverSubs) c.(requests) v c.(delayPing) c.(closeCh) c.(connectFutures) c.(CBQueue)
    c.(reconnectTimer) c.(refreshTimer) c.(refreshRequired).
Definition set_delayPing (v : nat) (c : Client) : Client :=
  mkClient c.(cmdID) c.(futureID) c.(round) c.(token) c.(transport) c.(state) c.(subs)
    c.(serverSubs) c.(requests) c.(reconnectAttempts) v c.(closeCh) c.(connectFutures)
    c.(CBQueue) c.(reconnectTimer) c.(refreshTimer) c.(refreshRequired).
Definition set_closeCh (v : option nat) (c : Client) : Client :=
  mkClient c.(cmdID) c.(futureID) c.(round) c.(token) c.(transport) c.(state) c.(subs)
    c.(serverSubs) c.(requests) c.(reconnectAttempts) c.(delayPing) v c.(connectFutures)
    c.(CBQueue) c.(reconnectTimer) c.(refreshTimer) c.(refreshRequired).
Definition set_connectFutures (v : gmap Z future) (c : Client) : Client :=
  mkClient c.(cmdID) c.(futureID) c.(round) c.(token) c.(transport) c.(state) c.(subs)
    c.(serverSubs) c.(requests) c.(reconnectAttempts) c.(delayPing) c.(closeCh) v c.(CBQueue)
    c.(reconnectTimer) c.(refreshTimer) c.(refreshRequired).
Definition set_CBQueue (v : bool) (c : Client) : Client :=
  mkClient c.(cmdID) c.(futureID) c.(round) c.(token) c.(transport) c.(state) c.(subs)
    c.(serverSubs) c.(requests) c.(reconnectAttempts) c.(delayPing) c.(closeCh)
    c.(connectFutures) v c.(reconnectTimer) c.(refreshTimer) c.(refreshRequired).
Definition set_reconnectTimer (v : option nat) (c : Client) : Client :=
  mkClient c.(cmdID) c.(futureID) c.(round) c.(token) c.(transport) c.(state) c.(subs)
    c.(serverSubs) c.(requests) c.(reconnectAttempts) c.(delayPing) c.(closeCh)
    c.(connectFutures) c.(CBQueue) v c.(refreshTimer) c.(refreshRequired).
Definition set_refreshTimer (v : option nat) (c : Client) : Client :=
  mkClient c.(cmdID) c.(futureID) c.(round) c.(token) c.(transport) c.(state) c.(subs)
    c.(serverSubs) c.(requests) c.(reconnectAttempts) c.(delayPing) c.(closeCh)
    c.(connectFutures) c.(CBQueue) c.(reconnectTimer) v c.(refreshRequired).
Definition set_refreshRequired (v : bool) (c : Client) : Client :=
  mkClient c.(cmdID) c.(futureID) c.(round) c.(token) c.(transport) c.(state) c.(subs)
    c.(serverSubs) c.(requests) c.(reconnectAttempts) c.(delayPing) c.(closeCh)
    c.(connectFutures) c.(CBQueue) c.(reconnectTimer) c.(refreshTimer) v.

(** [Subscription]. *)
Record Subscription := mkSub {
  Channel : string;
  sub_state : SubState;
  sub_futureID : Z;
  subFutures : gmap Z future;
  sub_token : string;
  resubscribeAttempts : Z;
  resubscribeTimer : option nat;
  sub_refreshTimer : option nat;
  sub_cfg : SubscriptionConfig
}.

Definition put_Channel (v : string) (s : Subscription) : Subscription :=
  mkSub v s.(sub_state) s.(sub_futureID) s.(subFutures) s.(sub_token) s.(resubscribeAttempts)
    s.(resubscribeTimer) s.(sub_refreshTimer) s.(sub_cfg).
Definition put_sub_state (v : SubState) (s : Subscription) : Subscription :=
  mkSub s.(Channel) v s.(sub_futureID) s.(subFutures) s.(sub_token) s.(resubscribeAttempts)
    s.(resubscribeTimer) s.(sub_refreshTimer) s.(sub_cfg).
Definition put_sub_futureID (v : Z) (s : Subscription) : Subscription :=
  mkSub s.(Channel) s.(sub_state) v s.(subFutures) s.(sub_token) s.(resubscribeAttempts)
    s.(resubscribeTimer) s.(sub_refreshTimer) s.(sub_cfg).
Definition put_subFutures (v : gmap Z future) (s : Subscription) : Subscription :=
  mkSub s.(Channel) s.(sub_state) s.(sub_futureID) v s.(sub_token) s.(resubscribeAttempts)
    s.(resubscribeTimer) s.(sub_refreshTimer) s.(sub_cfg).
Definition put_sub_token (v : string) (s : Subscription) : Subscription :=
  mkSub s.(Channel) s.(sub_state) s.(sub_futureID) s.(subFutures) v s.(resubscribeAttempts)
    s.(resubscribeTimer) s.(sub_refreshTimer) s.(sub_cfg).
Definition put_resubscribeAttempts (v : Z) (s : Subscription) : Subscription :=
  mkSub s.(Channel) s.(sub_state) s.(sub_futureID) s.(subFutures) s.(sub_token) v
    s.(resubscribeTimer) s.(sub_refreshTimer) s.(sub_cfg).
Definition put_resubscribeTimer (v : option nat) (s : Subscription) : Subscription :=
  mkSub s.(Channel) s.(sub_state) s.(sub_futureID) s.(subFutures) s.(sub_token)
    s.(resubscribeAttempts) v s.(sub_refreshTimer) s.(sub_cfg).
Definition put_sub_refreshTimer (v : option nat) (s : Subscription) : Subscription :=
  mkSub s.(Channel) s.(sub_state) s.(sub_futureID) s.(subFutures) s.(sub_token)
    s.(resubscribeAttempts) s.(resubscribeTimer) v s.(sub_cfg).
Definition put_sub_cfg (v : SubscriptionConfig) (s : Subscription) : Subscription :=
  mkSub s.(Channel) s.(sub_state) s.(sub_futureID) s.(subFutures) s.(sub_token)
    s.(resubscribeAttempts) s.(resubscribeTimer) s.(sub_refreshTimer) v.

(** ** Goroutines

    The calls of the API that run through [isClosed]. *)
Inductive api : Type :=
| ADisconnect
| AClose
| ASend (data : string)
| APublish (channel data : string)
| APresence (channel : string)
| APresenceStats (channel : string)
| ASubscribe (s : nat)
| AUnsubscribe (s : nat).

Inductive op : Type :=
(* handlers *)
| OEmit (sync : bool) (evs : list event)
(* client API *)
| OApi (call : nat) (a : api)
| OSetClientToken (tok : string)
| ONewSubscription (channel : string) (cfg : SubscriptionConfig)
| ORemoveSubscription (s : nat)
| ORemoveSub (s : nat)
(* connecting *)
| OStartConnecting
| OStartReconnecting
| ODial (refreshRequired : bool) (tok url : string)
| ORefreshToken (t : nat)
| OSetToken (t : nat) (tok : string)
| OInstall (t : nat)
| ORearm (t : option nat) (refresh : bool)
| OConnectCb (t : nat) (res : option ConnectResult + gerr)
| OConnectErr (t : nat) (e : gerr)
| OConnected (t : nat) (res : option ConnectResult)
| OServerSubAdd (channel : string)
| OServerPubs (channel : string) (pubs : list Publication)
| OServerUnsubs (res : gmap string SubscribeResult)
| OConnectedTail (t : nat) (ping : Z)
| OUnlock
(* state changes *)
| OMoveDisconnected (code : Z) (reason : string)
| OMoveConnecting (code : Z) (reason : string)
| OMoveClosed
| OCloseQueue
| OHandleDisconnect (d : option disconnect)
(* transport and requests *)
| OReader (t : nat)
| OHandle (r : Reply)
| OHandlePush (p : Push)
| OServerSub (channel data : string)
| OServerUnsub (channel : string)
| OWaitPing (t : nat)
| OAwaitStart (id : Z)
| OAwait (id : Z) (ch : option nat)
| ORemove (id : Z)
| OResult (call : nat) (r : result)
| OCrash
| OUnsubscribeCb (err : option gerr)
(* token refresh *)
| OSendRefresh
| OSendRefreshTok (tok : string)
| OHandleRefreshError
| ORefreshCb (r : Reply + gerr)
| ORefreshDenied (code : Z) (reason : string)
| ORefreshed (ttl : Z)
(* futures *)
| OOnConnect (f : future)
| OFn (f : future) (err : option gerr)
| OFutureWait (id : Z)
(* subscriptions *)
| OSubscribe (s : nat)
| OSubIfConnected (s : nat)
| OResubscribe (s : nat)
| OSubToken (s : nat)
| OSendSubscribe (s : nat) (tok : string)
| OSubscribeError (s : nat) (e : gerr)
| OSubscribeErrorTail (s : nat) (e : gerr)
| OMoveUnsubscribed (s : nat) (code : Z) (reason : string)
| OMoveSubscribing (s : nat) (code : Z) (reason : string)
| OMoveSubscribed (s : nat) (res : option SubscribeResult)
| OSubPubs (s : nat) (pubs : list Publication)
| OHandlePublication (s : nat) (p : Publication)
| OResubTimer (s : nat)
| OSubRefresh (s : nat)
| OSubRefreshTok (s : nat)
| OScheduleSubRefresh (s : nat) (ttl : Z)
| OSubRefreshCb (s : nat) (res : option (bool * Z) + gerr)
| OClientUnsubscribe (channel : string)
| OSendUnsubscribe (channel : string)
| OSubCall (s : nat) (f : future)
| OOnSubscribe (s : nat) (f : future)
| OSubFn (f : future) (err : option gerr)
| OSubFutureWait (s : nat) (id : Z).

(** The client in its world: the subscriptions that exist, the armed timers,
    the next unused number, the closed channels, the open transports, the
    goroutines, the calls of handlers, the results of calls and the commands
    written.  [locked] is that some goroutine holds [c.mu] across operations,
    [crashed] that a goroutine has panicked.  [issued] counts the command
    numbers without wrapping and [called] the futures that have been called. *)
Record world := mkWorld {
  cl : Client;
  objs : gmap nat Subscription;
  timers : gmap nat timer;
  fresh : nat;
  closed : gset nat;
  open_ : gset nat;
  threads : list (list op);
  events : list event;
  results : list (nat * result);
  wire : list (nat * Z * command);
  locked : bool;
  crashed : bool;
  issued : Z;
  called : list Z
}.

Definition with_cl (v : Client) (w : world) : world :=
  mkWorld v w.(objs) w.(timers) w.(fresh) w.(closed) w.(open_) w.(threads) w.(events)
    w.(results) w.(wire) w.(locked) w.(crashed) w.(issued) w.(called).
Definition with_objs (v : gmap nat Subscription) (w : world) : world :=
  mkWorld w.(cl) v w.(timers) w.(fresh) w.(closed) w.(open_) w.(threads) w.(events) w.(results)
    w.(wire) w.(locked) w.(crashed) w.(issued) w.(called).
Definition with_timers (v : gmap nat timer) (w : world) : world :=
  mkWorld w.(cl) w.(objs) v w.(fresh) w.(closed) w.(open_) w.(threads) w.(events) w.(results)
    w.(wire) w.(locked) w.(crashed) w.(issued) w.(called).
Definition with_fresh (v : nat) (w : world) : world :=
  mkWorld w.(cl) w.(objs) w.(timers) v w.(closed) w.(open_) w.(threads) w.(events) w.(results)
    w.(wire) w.(locked) w.(crashed) w.(issued) w.(called).
Definition with_closed (v : gset nat) (w : world) : world :=
  mkWorld w.(cl) w.(objs) w.(timers) w.(fresh) v w.(open_) w.(threads) w.(events) w.(results)
    w.(wire) w.(locked) w.(crashed) w.(issued) w.(called).
Definition with_open (v : gset nat) (w : world) : world :=
  mkWorld w.(cl) w.(objs) w.(timers) w.(fresh) w.(closed) v w.(threads) w.(events) w.(results)
    w.(wire) w.(locked) w.(crashed) w.(issued) w.(called).
Definition with_threads (v : list (list op)) (w : world) : world :=
  mkWorld w.(cl) w.(objs) w.(timers) w.(fresh) w.(closed) w.(open_) v w.(events) w.(results)
    w.(wire) w.(locked) w.(crashed) w.(issued) w.(called).
Definition with_events (v : list event) (w : world) : world :=
  mkWorld w.(cl) w.(objs) w.(timers) w.(fresh) w.(closed) w.(open_) w.(threads) v w.(results)
    w.(wire) w.(locked) w.(crashed) w.(issued) w.(called).
Definition with_results (v : list (nat * result)) (w : world) : world :=
  mkWorld w.(cl) w.(objs) w.(timers) w.(fresh) w.(closed) w.(open_) w.(threads) w.(events) v
    w.(wire) w.(locked) w.(crashed) w.(issued) w.(called).
Definition with_wire (v : list (nat * Z * command)) (w : world) : world :=
  mkWorld w.(cl) w.(objs) w.(timers) w.(fresh) w.(closed) w.(open_) w.(threads) w.(events)
    w.(results) v w.(locked) w.(crashed) w.(issued) w.(called).
Definition with_locked (v : bool) (w : world) : world :=
  mkWorld w.(cl) w.(objs) w.(timers) w.(fresh) w.(closed) w.(open_) w.(threads) w.(events)
    w.(results) w.(wire) v w.(crashed) w.(issued) w.(called).
Definition with_crashed (v : bool) (w : world) : world :=
  mkWorld w.(cl) w.(objs) w.(timers) w.(fresh) w.(closed) w.(open_) w.(threads) w.(events)
    w.(results) w.(wire) w.(locked) v w.(issued) w.(called).
Definition with_issued (v : Z) (w : world) : world :=
  mkWorld w.(cl) w.(objs) w.(timers) w.(fresh) w.(closed) w.(open_) w.(threads) w.(events)
    w.(results) w.(wire) w.(locked) w.(crashed) v w.(called).
Definition with_called (v : list Z) (w : world) : world :=
  mkWorld w.(cl) w.(objs) w.(timers) w.(fresh) w.(closed) w.(open_) w.(threads) w.(events)
    w.(results) w.(wire) w.(locked) w.(crashed) w.(issued) v.
