(* ===== verification/PubSub.v ===== *)
(** [kairos-local/kairosdeamon/pubsub]: client.go and subscription.go as a
    transition system.

    [exec] runs one operation of a goroutine: the code of one critical section
    of [c.mu] or [s.mu], or of the stretch between two of them.  What the code
    does after releasing the lock is the list of operations it returns, so
    other goroutines may run in between.  [step] interleaves the goroutines,
    lets timers fire and lets the application call the API.

    A critical section that waits for something else is not one operation: the
    end of [startReconnecting] calls [handleError], and [resubscribe] the token
    handlers, with [c.mu] held.  There [locked] is set and operations that take
    [c.mu] are not enabled until [OUnlock].  Functions of futures run inside the
    section of [c.mu] that resolves them, those of a subscription right after
    the section of [s.mu].

    What the network, the contexts of calls, the token handlers and the order of
    map iterations do is the [oracle] of a step.  Handlers return and only
    record their event. *)

From S2P Require Import Prelude PubSubData.

(** ** What the environment decides *)

Record oracle := mkOracle {
  o_dial : bool;                       (* the dial succeeds *)
  o_write : Z -> bool;                 (* the write of a command succeeds *)
  o_ctx : nat -> bool;                 (* the context of a call is done *)
  o_token : string + gerr;             (* the answer of a token handler *)
  o_read : Reply + option disconnect;  (* the result of a read *)
  o_select : nat;                      (* the branch of a select *)
  o_futures : list Z;                  (* orders of map iterations *)
  o_subs : list string;
  o_serverSubs : list string
}.

(** [order] lists the keys of [m]. *)
Definition is_order {K V} `{Countable K} (order : list K) (m : gmap K V) : bool :=
  bool_decide (order ≡ₚ (map_to_list m).*1).

Definition is_set_order {K} `{Countable K} (order : list K) (m : gset K) : bool :=
  bool_decide (order ≡ₚ elements m).

Section Client.
Context (cfg : Config).

Notation hs := cfg.(cfg_handlers).

(** ** Building blocks *)

Definition on_cl (f : Client -> Client) (w : world) : world := with_cl (f w.(cl)) w.

Definition spawn (th : list op) (w : world) : world := with_threads (w.(threads) ++ [th]) w.

Definition spawn_all (ths : list (list op)) (w : world) : world := with_threads (w.(threads) ++ ths) w.

Definition crash (w : world) : world := with_crashed true w.

Definition finish (call : nat) (r : result) (w : world) : world :=
  with_results (w.(results) ++ [(call, r)]) w.

(** A number nobody uses. *)
Definition alloc (w : world) : nat * world := (w.(fresh), with_fresh (S w.(fresh)) w).

Definition AfterFunc (k : timer) (w : world) : nat * world :=
  let '(id, w) := alloc w in (id, with_timers (<[id := k]> w.(timers)) w).

(** [timer.Stop()] on a timer that may be nil. *)
Definition stop (t : option nat) (w : world) : world :=
  match t with Some id => with_timers (delete id w.(timers)) w | None => w end.

Definition close_transport (t : nat) (w : world) : world := with_open (w.(open_) ∖ {[t]}) w.

Definition close_channel (ch : option nat) (w : world) : world :=
  match ch with Some ch => with_closed (w.(closed) ∪ {[ch]}) w | None => w end.

Definition on_sub (s : nat) (f : Subscription -> Subscription) (w : world) : world :=
  with_objs (alter f s w.(objs)) w.

Definition get_sub (s : nat) (w : world) : option Subscription := w.(objs) !! s.

(** [if handler != nil { runHandler... }]. *)
Definition emit_if (set : bool) (sync : bool) (evs : list event) : list op :=
  if set then [OEmit sync evs] else [].

Definition handleError (e : error_event) : list op := emit_if hs.(onError) true [EvError e].

Definition emitError (sub : Subscription) (s : nat) (e : error_event) : list op :=
  emit_if sub.(sub_cfg).(sc_handlers).(onSubError) true [EvSubError s e].

(** ** Requests *)

Definition nextCmdID (w : world) : Z * world :=
  let id := wrap_u32 (w.(cl).(cmdID) + 1) in
  (id, with_issued (w.(issued) + 1) (on_cl (set_cmdID id) w)).

Definition addRequest (id : Z) (cb : callback) (w : world) : world :=
  on_cl (fun c => set_requests (<[id := cb]> c.(requests)) c) w.

Definition removeRequest (id : Z) (w : world) : world :=
  on_cl (fun c => set_requests (delete id c.(requests)) c) w.

(** [send]: a failed write starts [handleDisconnect]. *)
Definition send (o : oracle) (id : Z) (cmd : command) (w : world) : world * option gerr :=
  match w.(cl).(transport) with
  | None => (w, Some ErrClientDisconnected)
  | Some t =>
    if o.(o_write) id then (with_wire (w.(wire) ++ [(t, id, cmd)]) w, None)
    else (spawn [OHandleDisconnect (Some (mkDis connectingTransportClosed "write error" true))] w,
          Some ErrEOF)
  end.

(** [sendAsync], with the number of the command. *)
Definition sendAsync (o : oracle) (cmd : command) (cb : callback) (w : world) : world * option gerr :=
  let '(id, w) := nextCmdID w in
  let '(w, err) := send o id cmd (addRequest id cb w) in
  match err with
  | Some e => (w, Some e)
  | None => (spawn [OAwaitStart id] w, None)
  end.

(** The callers of [sendAsync] that report a failed send themselves. *)
Definition send_call (o : oracle) (cmd : command) (call : nat) (cb : callback) (w : world) : world :=
  let '(w, err) := sendAsync o cmd cb w in
  match err with Some e => finish call (RError e) w | None => w end.

Definition sendPublish (o : oracle) (call : nat) (ch data : string) (w : world) : world :=
  send_call o (CmdPublish ch data) call (CbPublish call) w.

Definition sendPresence (o : oracle) (call : nat) (ch : string) (w : world) : world :=
  send_call o (CmdPresence ch) call (CbPresence call) w.

Definition sendPresenceStats (o : oracle) (call : nat) (ch : string) (w : world) : world :=
  send_call o (CmdPresenceStats ch) call (CbPresenceStats call) w.

(** *** The callbacks of requests: what they do with a reply or an error *)

(** The callback of [sendConnect]. *)
Definition connect_reply (t : nat) (r : Reply + gerr) : list op :=
  match r with
  | inr e => [OConnectCb t (inr e)]
  | inl r =>
    match r.(r_Error) with
    | Some e => [OConnectCb t (inr (errorFromProto e))]
    | None => [OConnectCb t (inl r.(r_Connect))]
    end
  end.

(** The callback of [sendSubscribe]. *)
Definition subscribe_reply (s : nat) (r : Reply + gerr) : list op :=
  match r with
  | inr e => [OSubscribeError s e]
  | inl r =>
    match r.(r_Error) with
    | Some e => [OSubscribeError s (errorFromProto e)]
    | None => [OMoveSubscribed s r.(r_Subscribe)]
    end
  end.

(** The callback of [sendSubRefresh]. *)
Definition subrefresh_reply (s : nat) (r : Reply + gerr) : list op :=
  match r with
  | inr e => [OSubRefreshCb s (inr e)]
  | inl r =>
    match r.(r_Error) with
    | Some e => [OSubRefreshCb s (inr (errorFromProto e))]
    | None => [OSubRefreshCb s (inl r.(r_SubRefresh))]
    end
  end.

(** The callback of [sendPublish]. *)
Definition publish_reply (call : nat) (r : Reply + gerr) : list op :=
  match r with
  | inr e => [OResult call (RError e)]
  | inl r =>
    match r.(r_Error) with
    | Some e => [OResult call (RError (errorFromProto e))]
    | None => [OResult call RDone]
    end
  end.

Definition presence_result (p : list (string * ClientInfo)) : result :=
  RPresence ((fun '(uid, i) => (uid, infoFromProto i)) <$> p).

(** The callback of [sendPresence]: a reply without a result is dereferenced. *)
Definition presence_reply (call : nat) (r : Reply + gerr) : list op :=
  match r with
  | inr e => [OResult call (RError e)]
  | inl r =>
    match r.(r_Error), r.(r_Presence) with
    | Some e, _ => [OResult call (RError (errorFromProto e))]
    | None, Some p => [OResult call (presence_result p)]
    | None, None => [OCrash]
    end
  end.

(** The callback of [sendPresenceStats]. *)
Definition stats_reply (call : nat) (r : Reply + gerr) : list op :=
  match r with
  | inr e => [OResult call (RError e)]
  | inl r =>
    match r.(r_Error), r.(r_PresenceStats) with
    | Some e, _ => [OResult call (RError (errorFromProto e))]
    | None, Some (n, u) => [OResult call (RStats n u)]
    | None, None => [OCrash]
    end
  end.

(** The callback of [sendUnsubscribe]. *)
Definition unsubscribe_reply (r : Reply + gerr) : list op :=
  match r with
  | inr e => [OUnsubscribeCb (Some e)]
  | inl r => [OUnsubscribeCb (errorFromProto <$> r.(r_Error))]
  end.

Definition run_callback (cb : callback) (r : Reply + gerr) : list op :=
  match cb with
  | CbConnect t => connect_reply t r
  | CbRefresh => [ORefreshCb r]
  | CbSubscribe s => subscribe_reply s r
  | CbSubRefresh s => subrefresh_reply s r
  | CbPublish call => publish_reply call r
  | CbPresence call => presence_reply call r
  | CbPresenceStats call => stats_reply call r
  | CbUnsubscribe => unsubscribe_reply r
  end.

(** ** Futures

    The functions given to [onConnect]: of [Send], [publish], [presence],
    [presenceStats]. *)

Definition send_fn (o : oracle) (call : nat) (data : string) (err : option gerr) (w : world) : world :=
  match err with
  | Some e => finish call (RError e) w
  | None =>
    if o.(o_ctx) call then finish call (RError ErrCtx) w
    else let '(w, err) := send o 0 (CmdSend data) w in
         finish call (match err with Some e => RError e | None => RDone end) w
  end.

Definition publish (o : oracle) (call : nat) (ch data : string) (err : option gerr) (w : world) : world :=
  match err with
  | Some e => finish call (RError e) w
  | None => sendPublish o call ch data w
  end.

Definition presence (o : oracle) (call : nat) (ch : string) (err : option gerr) (w : world) : world :=
  if o.(o_ctx) call then finish call (RError ErrCtx) w
  else match err with
       | Some e => finish call (RError e) w
       | None => sendPresence o call ch w
       end.

Definition presenceStats (o : oracle) (call : nat) (ch : string) (err : option gerr) (w : world) : world :=
  if o.(o_ctx) call then finish call (RError ErrCtx) w
  else match err with
       | Some e => finish call (RError e) w
       | None => sendPresenceStats o call ch w
       end.

Definition run_future (o : oracle) (f : future) (err : option gerr) (w : world) : world :=
  match f with
  | FSend call data => send_fn o call data err w
  | FPublish call ch data => publish o call ch data err w
  | FPresence call ch => presence o call ch err w
  | FPresenceStats call ch => presenceStats o call ch err w
  end.

Definition call_future (o : oracle) (err : option gerr) (futs : gmap Z future) (id : Z) (w : world) : world :=
  match futs !! id with
  | Some f => run_future o f err (with_called (w.(called) ++ [id]) w)
  | None => w
  end.

Definition resolveConnectFutures (o : oracle) (err : option gerr) (w : world) : option world :=
  let futs := w.(cl).(connectFutures) in
  if is_order o.(o_futures) futs then
    Some (on_cl (set_connectFutures ∅)
            (foldl (fun w id => call_future o err futs id w) w o.(o_futures)))
  else None.

(** The functions that [publish], [presence], [presenceStats] of a subscription
    give to [onSubscribe]. *)
Definition run_sub_future (o : oracle) (f : future) (err : option gerr) (w : world) : world * list op :=
  let ctx := match f with FPresence call _ | FPresenceStats call _ => o.(o_ctx) call | _ => false end in
  if ctx then (finish (fut_call f) (RError ErrCtx) w, [])
  else match err with
       | Some e => (finish (fut_call f) (RError e) w, [])
       | None => (w, [OOnConnect f])
       end.

Definition call_sub_future (o : oracle) (err : option gerr) (futs : gmap Z future)
    (acc : world * list op) (id : Z) : world * list op :=
  match futs !! id with
  | Some f => let '(w, ops) := run_sub_future o f err acc.1 in (w, acc.2 ++ ops)
  | None => acc
  end.

Definition resolveSubFutures (o : oracle) (err : option gerr) (s : nat) (sub : Subscription) (w : world)
    : option (world * list op) :=
  let futs := sub.(subFutures) in
  if is_order o.(o_futures) futs then
    let '(w, ops) := foldl (call_sub_future o err futs) (w, []) o.(o_futures) in
    Some (on_sub s (put_subFutures ∅) w, ops)
  else None.

(** ** Connection state *)

(** [c.reconnectAttempts++] and the timer of the next [startReconnecting]. *)
Definition schedule_reconnect (w : world) : world :=
  let n := (w.(cl).(reconnectAttempts) + 1)%Z in
  let '(id, w) := AfterFunc (TReconnect n) w in
  on_cl (fun c => set_reconnectTimer (Some id) (set_reconnectAttempts n c)) w.

Definition schedule_refresh (seconds : Z) (w : world) : world :=
  let '(id, w) := AfterFunc (TRefresh seconds) w in on_cl (set_refreshTimer (Some id)) w.

Definition clearConnectedState (w : world) : world :=
  let c := w.(cl) in
  let w := stop c.(reconnectTimer) w in
  let w := stop c.(refreshTimer) w in
  let w := close_channel c.(closeCh) w in
  let w := on_cl (fun c => set_requests ∅ (set_closeCh None (set_refreshTimer None (set_reconnectTimer None c)))) w in
  spawn_all ((fun '(_, cb) => run_callback cb (inr ErrClientDisconnected)) <$> map_to_list c.(requests)) w.

Definition drop_transport (w : world) : world :=
  match w.(cl).(transport) with
  | Some t => on_cl (set_transport None) (close_transport t w)
  | None => w
  end.

(** The subscriptions that are not unsubscribed, in the order of an iteration
    over [c.subs]. *)
Definition subsToUnsubscribe (order : list string) (w : world) : list nat :=
  omap (fun ch =>
    match w.(cl).(subs) !! ch with
    | Some s =>
      match get_sub s w with
      | Some sub => if decide (sub.(sub_state) = SubStateUnsubscribed) then None else Some s
      | None => None
      end
    | None => None
    end) order.

Definition orders_ok (o : oracle) (w : world) : bool :=
  is_order o.(o_subs) w.(cl).(subs) && is_set_order o.(o_serverSubs) w.(cl).(serverSubs).

(** The first critical section of [moveToDisconnected] and [moveToConnecting]:
    the new state, and what the section collects. *)
Definition leave_connection (o : oracle) (st : State) (w : world) : option world :=
  if orders_ok o w then
    resolveConnectFutures o (Some ErrClientDisconnected)
      (clearConnectedState (on_cl (set_state st) (drop_transport w)))
  else None.

Definition moveToDisconnected (o : oracle) (code : Z) (reason : string) (w : world)
    : option (world * list op) :=
  match w.(cl).(state) with
  | StateDisconnected | StateClosed => Some (w, [])
  | prev =>
    match leave_connection o StateDisconnected w with
    | None => None
    | Some w' =>
      Some (w',
        ((fun s => OMoveSubscribing s subscribingTransportClosed "transport closed") <$>
           subsToUnsubscribe o.(o_subs) w) ++
        emit_if (bool_decide (prev = StateConnected) && hs.(onServerSubscribing)) false
          (EvServerSubscribing <$> o.(o_serverSubs)) ++
        emit_if hs.(onDisconnected) false [EvDisconnected code reason])
    end
  end.

Definition moveToConnecting (o : oracle) (code : Z) (reason : string) (w : world)
    : option (world * list op) :=
  match w.(cl).(state) with
  | StateDisconnected | StateClosed | StateConnecting => Some (w, [])
  | StateConnected =>
    match leave_connection o StateConnecting w with
    | None => None
    | Some w' =>
      Some (w',
        ((fun s => OMoveSubscribing s subscribingTransportClosed "transport closed") <$>
           subsToUnsubscribe o.(o_subs) w) ++
        emit_if hs.(onServerSubscribing) true (EvServerSubscribing <$> o.(o_serverSubs)) ++
        emit_if hs.(onConnecting) true [EvConnecting code reason] ++
        [ORearm None false])
    end
  end.

Definition moveToClosed (o : oracle) (w : world) : option (world * list op) :=
  if decide (w.(cl).(state) = StateClosed) then Some (w, [])
  else if orders_ok o w then
    Some (on_cl (set_state StateClosed) w,
      ((fun s => OMoveUnsubscribed s unsubscribedClientClosed "client closed") <$>
         subsToUnsubscribe o.(o_subs) w) ++
      emit_if hs.(onServerUnsubscribed) false (EvServerUnsubscribed <$> o.(o_serverSubs)) ++
      [OCloseQueue])
  else None.

Definition handleDisconnect (d : option disconnect) : list op :=
  let d := default (mkDis connectingTransportClosed "transport closed" true) d in
  if d.(dis_Reconnect) then [OMoveConnecting d.(dis_Code) d.(dis_Reason)]
  else [OMoveDisconnected d.(dis_Code) d.(dis_Reason)].

(** ** Connecting *)

Definition startConnecting (w : world) : world * list op :=
  match w.(cl).(state) with
  | StateClosed | StateConnected | StateConnecting => (w, [])
  | StateDisconnected =>
    let w := match w.(cl).(closeCh) with
             | None => let '(ch, w) := alloc w in on_cl (set_closeCh (Some ch)) w
             | Some _ => w
             end in
    (on_cl (set_state StateConnecting) w,
     emit_if hs.(onConnecting) true [EvConnecting connectingConnectCalled "connect called"] ++
     [OStartReconnecting])
  end.

(** [startReconnecting] up to the dial. *)
Definition startReconnecting (w : world) : world * list op :=
  let round := (w.(cl).(round) + 1)%Z in
  let w := on_cl (set_round round) w in
  let c := w.(cl) in
  if decide (c.(state) = StateConnecting) then
    let u := nth (Z.to_nat (round mod Z.of_nat (length cfg.(endpoints)))) cfg.(endpoints) "" in
    (w, [ODial c.(refreshRequired) c.(token) u])
  else (w, []).

(** The dial and what follows it. *)
Definition dial (o : oracle) (refreshRequired : bool) (tok : string) (w : world) : world * list op :=
  if o.(o_dial) then
    let '(t, w) := alloc w in
    let w := with_open (w.(open_) ∪ {[t]}) w in
    if refreshRequired || (bool_decide (tok = "") && cfg.(cfg_GetToken)) then (w, [ORefreshToken t])
    else (w, [OInstall t])
  else (w, handleError (TransportError (ErrText "error dial")) ++ [ORearm None false]).

(** [refreshToken] when no [GetToken] is configured. *)
Definition no_GetToken : list op :=
  handleError (ConfigurationError (ErrText "GetToken must be set to handle expired token")).

Definition refresh_for_connect (o : oracle) (t : nat) : list op :=
  if cfg.(cfg_GetToken) then
    match o.(o_token) with
    | inl tok => [OSetToken t tok]
    | inr ErrUnauthorized => [OMoveDisconnected disconnectedUnauthorized "unauthorized"]
    | inr e => handleError (RefreshError e) ++ [ORearm (Some t) false]
    end
  else no_GetToken ++ [OMoveDisconnected disconnectedUnauthorized "unauthorized"].

(** The section that stores the new token. *)
Definition token_refreshed (t : nat) (tok : string) (w : world) : world * list op :=
  (on_cl (set_token tok) w, if decide (w.(cl).(state) = StateConnecting) then [OInstall t] else []).

(** The section that schedules the next attempt, if the client still connects. *)
Definition rearm (t : option nat) (refresh : bool) (w : world) : world :=
  if decide (w.(cl).(state) = StateConnecting) then
    schedule_reconnect (if refresh then on_cl (set_refreshRequired true) w else w)
  else match t with Some t => close_transport t w | None => w end.

(** The connect command could not be sent: [handleError] is called with [c.mu]
    held. *)
Definition install_failed (t : nat) (e : gerr) (w : world) : world * list op :=
  let w := schedule_reconnect (close_transport t w) in
  if hs.(onError) then (with_locked true w, handleError (ConnectError e) ++ [OUnlock])
  else (w, []).

(** The last section of [startReconnecting]: the transport is installed and the
    connect command sent. *)
Definition install (o : oracle) (t : nat) (w : world) : world * list op :=
  if decide (w.(cl).(state) = StateConnecting) then
    let w := on_cl (fun c => set_transport (Some t) (set_refreshRequired false c)) w in
    let w := spawn [OReader t] w in
    let '(w, err) := sendAsync o (CmdConnect w.(cl).(token) cfg.(cfg_Name) cfg.(cfg_Data)) (CbConnect t) w in
    match err with
    | None => (w, [])
    | Some e => install_failed t e w
    end
  else (close_transport t w, []).

(** The callback of the connect command. *)
Definition connect_cb (t : nat) (res : option ConnectResult + gerr) (w : world) : list op :=
  if decide (w.(cl).(state) = StateConnecting) then
    match res with
    | inr e => handleError (ConnectError e) ++ [OConnectErr t e]
    | inl res => [OConnected t res]
    end
  else [].

Definition connect_err (t : nat) (e : gerr) (w : world) : world * list op :=
  (close_transport t w,
   if isTokenExpiredError e then [ORearm None true]
   else match e with
        | ErrServer code msg => [OMoveDisconnected code msg]
        | _ => [ORearm None false]
        end).

(** The part of the callback that handles the subscriptions of the result. *)
Definition connected_subs (order : list string) (subs : gmap string SubscribeResult) : list op :=
  order ≫= (fun ch =>
    match subs !! ch with
    | Some res =>
      OServerSubAdd ch ::
      emit_if hs.(onServerSubscribe) true [EvServerSubscribed ch res.(sr_Data)] ++
      (if hs.(onServerPublication) then [OServerPubs ch res.(sr_Publications)] else [])
    | None => []
    end).

Definition connected (o : oracle) (t : nat) (res : option ConnectResult) (w : world)
    : option (world * list op) :=
  if decide (w.(cl).(state) = StateConnecting) then
    let w := on_cl (set_state StateConnected) w in
    match res with
    | None => Some (crash w, [])
    | Some res =>
      let w := if res.(cr_Expires) then schedule_refresh res.(cr_Ttl) w else w in
      if is_order o.(o_subs) res.(cr_Subs) then
        match resolveConnectFutures o None w with
        | None => None
        | Some w =>
          Some (w,
            emit_if hs.(onConnected) true [EvConnected res.(cr_Client) res.(cr_Data)] ++
            connected_subs o.(o_subs) res.(cr_Subs) ++
            [OServerUnsubs res.(cr_Subs); OConnectedTail t res.(cr_Ping)])
        end
      else None
    end
  else Some (close_transport t w, []).

(** A server subscription of the result, and its publications, which a handler
    stores again one by one. *)
Definition server_sub_add (ch : string) (w : world) : world :=
  on_cl (fun c => set_serverSubs (c.(serverSubs) ∪ {[ch]}) c) w.

(** Server subscriptions that are missing from the result are announced, and
    stay in [c.serverSubs]. *)
Definition server_unsubs (o : oracle) (res : gmap string SubscribeResult) (w : world) : option (list op) :=
  if is_set_order o.(o_serverSubs) w.(cl).(serverSubs) then
    Some (o.(o_serverSubs) ≫= (fun ch =>
      if bool_decide (is_Some (res !! ch)) then []
      else emit_if (hs.(onServerSubscribing) && hs.(onServerUnsubscribed)) true [EvServerUnsubscribed ch]))
  else None.

Definition connected_tail (o : oracle) (t : nat) (ping : Z) (w : world) : option (world * list op) :=
  let w := on_cl (set_reconnectAttempts 0) w in
  if decide (w.(cl).(state) = StateConnected) then
    let w := if (0 <? ping)%Z then spawn [OWaitPing t] w else w in
    if is_order o.(o_subs) w.(cl).(subs) then
      Some (with_locked true w,
            (OResubscribe <$> omap (fun ch => w.(cl).(subs) !! ch) o.(o_subs)) ++ [OUnlock])
    else None
  else Some (w, []).

(** ** The reader *)

Definition handle (r : Reply) (w : world) : option (world * list op) :=
  if (0 <? r.(r_Id))%Z then
    Some (w, match w.(cl).(requests) !! r.(r_Id) with
             | Some cb => run_callback cb (inl r) ++ [ORemove r.(r_Id)]
             | None => [ORemove r.(r_Id)]
             end)
  else
    match r.(r_Push) with
    | None =>
      if decide (w.(cl).(delayPing) < 32)
      then Some (on_cl (fun c => set_delayPing (S c.(delayPing)) c) w, [])
      else None
    | Some p => Some (w, if decide (w.(cl).(state) = StateConnected) then [OHandlePush p] else [])
    end.

Definition handleUnsubscribe (s : nat) (code : Z) (reason : string) : list op :=
  if (code <? 2500)%Z then [OMoveUnsubscribed s code reason]
  else [OMoveSubscribing s code reason; OResubscribe s].

Definition handlePush (p : Push) (w : world) : list op :=
  let ch := p.(p_Channel) in
  let sub := w.(cl).(subs) !! ch in
  match p.(p_Message) with
  | Some data => emit_if hs.(onMessage) true [EvMessage data]
  | None =>
  match p.(p_Unsubscribe) with
  | Some (code, reason) =>
    match sub with
    | None => [OServerUnsub ch]
    | Some s => handleUnsubscribe s code reason
    end
  | None =>
  match p.(p_Pub) with
  | Some pub =>
    match sub with
    | None => emit_if hs.(onServerPublication) true [EvServerPublication ch (pubFromProto pub)]
    | Some s => [OHandlePublication s pub]
    end
  | None =>
  match p.(p_Subscribe) with
  | Some data => match sub with Some _ => [] | None => [OServerSub ch data] end
  | None =>
  match p.(p_Disconnect) with
  | Some (code, reason) =>
    if reconnect_code code then [OMoveConnecting code reason] else [OMoveDisconnected code reason]
  | None => []
  end end end end end.

(** [readOnce] and the loop of [reader]: a reply is handled, an error starts
    [handleDisconnect] and ends the reader, which closes its channel.  The server
    is taken to answer only commands that were sent: the client does not check
    it, and a reply with a number that is issued later would remove the callback
    of that command. *)
Definition readOnce (o : oracle) (t : nat) (w : world) : option (world * list op) :=
  match o.(o_read) with
  | inl r => if (r.(r_Id) <=? w.(issued))%Z then Some (w, [OHandle r; OReader t]) else None
  | inr d => Some (close_channel (Some t) (spawn [OHandleDisconnect d] w), [])
  end.

Definition handleServerSub (ch data : string) (w : world) : world * list op :=
  if decide (ch ∈ w.(cl).(serverSubs)) then (w, [])
  else (on_cl (fun c => set_serverSubs (c.(serverSubs) ∪ {[ch]}) c) w,
        emit_if hs.(onServerSubscribe) true [EvServerSubscribed ch data]).

Definition handleServerUnsub (ch : string) (w : world) : world * list op :=
  if decide (ch ∈ w.(cl).(serverSubs)) then
    (on_cl (fun c => set_serverSubs (c.(serverSubs) ∖ {[ch]}) c) w,
     emit_if hs.(onServerUnsubscribed) true [EvServerUnsubscribed ch])
  else (w, []).

(** An iteration of [waitServerPing]. *)
Definition waitServerPing (o : oracle) (t : nat) (w : world) : option (world * list op) :=
  match o.(o_select) with
  | 0 => match w.(cl).(delayPing) with
         | 0 => None
         | S n => Some (on_cl (set_delayPing n) w, [OWaitPing t])
         end
  | 1 => Some (spawn [OHandleDisconnect (Some (mkDis connectingNoPing "no ping" true))] w, [OWaitPing t])
  | _ => if decide (t ∈ w.(closed)) then Some (w, []) else None
  end.

(** The select of the goroutine that [sendAsync] starts. *)
Definition await (o : oracle) (id : Z) (ch : option nat) (w : world) : option (list op) :=
  let answer e := match w.(cl).(requests) !! id with
                  | Some cb => run_callback cb (inr e) ++ [ORemove id]
                  | None => [ORemove id]
                  end in
  match o.(o_select) with
  | 1 => Some (answer ErrTimeout)
  | 2 => match ch with
         | Some ch => if decide (ch ∈ w.(closed)) then Some (answer ErrClientDisconnected) else None
         | None => None
         end
  | _ => None
  end.

(** ** Token refresh *)

Definition sendRefresh (o : oracle) : list op :=
  if cfg.(cfg_GetToken) then
    match o.(o_token) with
    | inl tok => [OSendRefreshTok tok]
    | inr ErrUnauthorized => [OMoveDisconnected disconnectedUnauthorized "unauthorized"]
    | inr e => handleError (RefreshError e) ++ [OHandleRefreshError]
    end
  else no_GetToken ++ [OMoveDisconnected disconnectedUnauthorized "unauthorized"].

Definition if_connected (f : world -> world) (w : world) : world :=
  if decide (w.(cl).(state) = StateConnected) then f w else w.

Definition handleRefreshError (w : world) : world := if_connected (schedule_refresh 10) w.

Definition refresh_cb (r : Reply + gerr) : list op :=
  match r with
  | inr e => handleError (RefreshError e) ++ [OHandleRefreshError]
  | inl r =>
    match r.(r_Error), r.(r_Refresh) with
    | Some (code, msg), _ => [ORefreshDenied code msg]
    | None, Some (expires, ttl) => if expires : bool then [ORefreshed ttl] else []
    | None, None => [OCrash]
    end
  end.

(** The branch of the callback of [sendRefresh] for a refused refresh. *)
Definition refresh_denied (code : Z) (reason : string) (w : world) : list op :=
  if decide (w.(cl).(state) = StateConnected) then [OMoveDisconnected code reason] else [].

(** The rest of [sendRefresh] with a token. *)
Definition refresh_with (o : oracle) (tok : string) (w : world) : world :=
  (sendAsync o (CmdRefresh tok) CbRefresh (on_cl (set_token tok) w)).1.

(** ** Futures of calls *)

Definition onConnect (f : future) (w : world) : world * list op :=
  match w.(cl).(state) with
  | StateConnected => (w, [OFn f None])
  | StateDisconnected => (w, [OFn f (Some ErrClientDisconnected)])
  | _ =>
    let id := (w.(cl).(futureID) + 1)%Z in
    (spawn [OFutureWait id]
       (on_cl (fun c => set_connectFutures (<[id := f]> c.(connectFutures)) (set_futureID id c)) w), [])
  end.

Definition future_wait (o : oracle) (id : Z) (w : world) : option world :=
  match o.(o_select) with
  | 1 => match w.(cl).(connectFutures) !! id with
         | None => Some w
         | Some f =>
           Some (run_future o f (Some ErrTimeout)
                   (with_called (w.(called) ++ [id])
                      (on_cl (fun c => set_connectFutures (delete id c.(connectFutures)) c) w)))
         end
  | _ => if decide (id ∈ w.(called)) then Some w else None
  end.

(** ** Subscriptions *)

Definition scheduleResubscribe (s : nat) (sub : Subscription) (w : world) : world :=
  let n := sub.(resubscribeAttempts) in
  let '(id, w) := AfterFunc (TResubscribe s n) w in
  on_sub s (fun sub => put_resubscribeTimer (Some id) (put_resubscribeAttempts (n + 1) sub)) w.

Definition scheduleSubRefresh (s : nat) (ttl : Z) (w : world) : world :=
  match get_sub s w with
  | Some sub =>
    if decide (sub.(sub_state) = SubStateSubscribed) then
      let '(id, w) := AfterFunc (TSubRefresh s ttl) w in
      on_sub s (put_sub_refreshTimer (Some id)) w
    else w
  | None => w
  end.

Definition newSubscription (ch : string) (scfg : SubscriptionConfig) : Subscription :=
  mkSub ch SubStateUnsubscribed 0 ∅ scfg.(sc_Token) 0 None None scfg.

Definition NewSubscription (ch : string) (scfg : SubscriptionConfig) (w : world) : world :=
  match w.(cl).(subs) !! ch with
  | Some _ => w
  | None =>
    let '(s, w) := alloc w in
    on_cl (fun c => set_subs (<[ch := s]> c.(subs)) c)
      (with_objs (<[s := newSubscription ch scfg]> w.(objs)) w)
  end.

Definition Subscribe (s : nat) (sub : Subscription) (w : world) : world * list op :=
  match sub.(sub_state) with
  | SubStateUnsubscribed =>
    (on_sub s (put_sub_state SubStateSubscribing) w,
     emit_if sub.(sub_cfg).(sc_handlers).(onSubscribing) false
       [EvSubscribing s subscribingSubscribeCalled "subscribe called"] ++ [OSubIfConnected s])
  | _ => (w, [])
  end.

(** [s.unsubscribe(code, reason, sendUnsubscribe)]. *)
Definition unsubscribe (s : nat) (sub : Subscription) (code : Z) (reason : string) (sendUnsubscribe : bool) : list op :=
  OMoveUnsubscribed s code reason ::
  (if sendUnsubscribe then [OClientUnsubscribe sub.(Channel)] else []).

(** The common part of [moveToUnsubscribed] and [moveToSubscribing]. *)
Definition sub_reset (s : nat) (sub : Subscription) (st : SubState) (w : world) : world :=
  on_sub s (fun sub => put_sub_state st (put_resubscribeAttempts 0 sub))
    (stop sub.(sub_refreshTimer) (stop sub.(resubscribeTimer) w)).

Definition moveToUnsubscribed (s : nat) (sub : Subscription) (code : Z) (reason : string) (w : world)
    : world * list op :=
  (sub_reset s sub SubStateUnsubscribed w,
   emit_if (bool_decide (sub.(sub_state) <> SubStateUnsubscribed) && sub.(sub_cfg).(sc_handlers).(onUnsubscribe))
     false [EvUnsubscribed s code reason]).

Definition moveToSubscribing (s : nat) (sub : Subscription) (code : Z) (reason : string) (w : world)
    : world * list op :=
  (sub_reset s sub SubStateSubscribing w,
   emit_if (bool_decide (sub.(sub_state) <> SubStateSubscribing) && sub.(sub_cfg).(sc_handlers).(onSubscribing))
     false [EvSubscribing s code reason]).

Definition moveToSubscribed (o : oracle) (s : nat) (sub : Subscription) (res : option SubscribeResult) (w : world)
    : option (world * list op) :=
  if decide (sub.(sub_state) = SubStateSubscribing) then
    match res with
    | None => Some (crash w, [])
    | Some res =>
      let w := on_sub s (put_sub_state SubStateSubscribed) w in
      let w := if res.(sr_Expires) then scheduleSubRefresh s res.(sr_Ttl) w else w in
      let w := stop sub.(resubscribeTimer) (on_sub s (put_resubscribeAttempts 0) w) in
      match resolveSubFutures o None s sub w with
      | None => None
      | Some (w, ops) =>
        Some (w, ops ++
          emit_if sub.(sub_cfg).(sc_handlers).(onSubscribed) true [EvSubscribed s res.(sr_Data)] ++
          (match res.(sr_Publications) with [] => [] | pubs => [OSubPubs s pubs] end))
      end
    end
  else Some (w, []).

(** The publications of a subscribe result, run by the dispatcher: they stop
    when the subscription is no longer subscribed. *)
Definition sub_pubs (s : nat) (sub : Subscription) (pubs : list Publication) : list event :=
  if bool_decide (sub.(sub_state) = SubStateSubscribed) && sub.(sub_cfg).(sc_handlers).(onPublication)
  then (fun p => EvPublication s (pubFromProto p)) <$> pubs else [].

Definition subscribeError (s : nat) (sub : Subscription) (e : gerr) (w : world) : world * list op :=
  if decide (sub.(sub_state) = SubStateSubscribing) then
    if decide (e = ErrTimeout) then
      (spawn [OHandleDisconnect (Some (mkDis connectingSubscribeTimeout "subscribe timeout" true))] w, [])
    else (w, emitError sub s (SubscriptionSubscribeError e) ++ [OSubscribeErrorTail s e])
  else (w, []).

Definition subscribeError_tail (o : oracle) (s : nat) (sub : Subscription) (e : gerr) (w : world)
    : option (world * list op) :=
  match e with
  | ErrServer code msg =>
    if (code =? 109)%Z then
      Some (scheduleResubscribe s sub (on_sub s (put_sub_token "") w), [])
    else
      match resolveSubFutures o (Some e) s sub w with
      | None => None
      | Some (w, ops) => Some (w, ops ++ unsubscribe s sub code msg false)
      end
  | _ => Some (scheduleResubscribe s sub w, [])
  end.

Definition handlePublication (s : nat) (sub : Subscription) (p : Publication) : list op :=
  if decide (sub.(sub_state) = SubStateSubscribed)
  then emit_if sub.(sub_cfg).(sc_handlers).(onPublication) true [EvPublication s (pubFromProto p)]
  else [].

(** [resubscribe] up to the token. *)
Definition resubscribe (s : nat) (sub : Subscription) : list op :=
  if decide (sub.(sub_state) = SubStateSubscribing) then
    if bool_decide (sub.(sub_token) = "") && sub.(sub_cfg).(sc_GetToken) then [OSubToken s]
    else [OSendSubscribe s sub.(sub_token)]
  else [].

Definition sub_token_answer (o : oracle) (s : nat) (sub : Subscription) (w : world) : world * list op :=
  match o.(o_token) with
  | inr ErrUnauthorized | inl "" => (w, unsubscribe s sub unsubscribedUnauthorized "unauthorized" false)
  | inr e => (w, [OSubscribeError s e])
  | inl tok => (on_sub s (put_sub_token tok) w, [OSendSubscribe s tok])
  end.

Definition sendSubscribe (o : oracle) (s : nat) (sub : Subscription) (tok : string) (w : world) : world :=
  if decide (sub.(sub_state) = SubStateSubscribing) then
    let '(w, err) := sendAsync o (CmdSubscribe sub.(Channel) sub.(sub_cfg).(sc_Data) tok) (CbSubscribe s) w in
    match err with Some _ => scheduleResubscribe s sub w | None => w end
  else w.

(** The timer of [scheduleResubscribe]. *)
Definition resubscribe_timer (s : nat) (sub : Subscription) : list op :=
  if decide (sub.(sub_state) = SubStateSubscribing) then [OResubscribe s] else [].

(** The timer of [scheduleSubRefresh]. *)
Definition sub_refresh_timer (s : nat) (sub : Subscription) : list op :=
  if decide (sub.(sub_state) = SubStateSubscribed) then [OSubRefreshTok s] else [].

(** The source reports the error with the subscription's lock held, so a handler
    that calls back into the subscription would wait for ever; the model has no
    locks of single subscriptions. *)
Definition sub_refresh_token (o : oracle) (s : nat) (sub : Subscription) (w : world) : world * list op :=
  let fail e := (w, emitError sub s (SubscriptionRefreshError e) ++ [OScheduleSubRefresh s 10]) in
  if sub.(sub_cfg).(sc_GetToken) then
    match o.(o_token) with
    | inr ErrUnauthorized | inl "" => (w, unsubscribe s sub unsubscribedUnauthorized "unauthorized" true)
    | inr e => fail e
    | inl tok => ((sendAsync o (CmdSubRefresh sub.(Channel) tok) (CbSubRefresh s) w).1, [])
    end
  else fail (ErrText "GetToken must be set to get subscription token").

Definition sub_refresh_cb (s : nat) (sub : Subscription) (res : option (bool * Z) + gerr) : list op :=
  match res with
  | inr e =>
    emitError sub s (SubscriptionSubscribeError e) ++
    match e with
    | ErrServer code msg => unsubscribe s sub code msg true
    | _ => [OScheduleSubRefresh s 10]
    end
  | inl None => [OCrash]
  | inl (Some (expires, ttl)) => if expires : bool then [OScheduleSubRefresh s ttl] else []
  end.

(** [c.unsubscribe], up to its section. *)
Definition client_unsubscribe (ch : string) (w : world) : list op :=
  if bool_decide (is_Some (w.(cl).(subs) !! ch)) then [OSendUnsubscribe ch] else [].

(** The function [s.unsubscribe] gives to it. *)
Definition unsubscribed (err : option gerr) (w : world) : world :=
  match err with
  | Some _ => spawn [OHandleDisconnect (Some (mkDis connectingUnsubscribeError "unsubscribe error" true))] w
  | None => w
  end.

(** [c.sendUnsubscribe], in the section of [c.unsubscribe]. *)
Definition sendUnsubscribe (o : oracle) (ch : string) (w : world) : world :=
  if_connected (fun w =>
    let '(w, err) := sendAsync o (CmdUnsubscribe ch) CbUnsubscribe w in
    match err with Some e => unsubscribed (Some e) w | None => w end) w.

(** [Publish], [Presence], [PresenceStats] of a subscription. *)
Definition sub_call (s : nat) (sub : Subscription) (f : future) (w : world) : world * list op :=
  if decide (sub.(sub_state) = SubStateUnsubscribed)
  then (finish (fut_call f) (RError ErrSubscriptionUnsubscribed) w, [])
  else (w, [OOnSubscribe s f]).

Definition onSubscribe (s : nat) (sub : Subscription) (f : future) (w : world) : world :=
  match sub.(sub_state) with
  | SubStateSubscribed => spawn [OSubFn f None] w
  | SubStateUnsubscribed => spawn [OSubFn f (Some ErrSubscriptionUnsubscribed)] w
  | SubStateSubscribing =>
    let id := (sub.(sub_futureID) + 1)%Z in
    spawn [OSubFutureWait s id]
      (on_sub s (fun sub => put_subFutures (<[id := f]> sub.(subFutures)) (put_sub_futureID id sub)) w)
  end.

Definition sub_future_wait (o : oracle) (s : nat) (sub : Subscription) (id : Z) (w : world)
    : option (world * list op) :=
  match o.(o_select), sub.(subFutures) !! id with
  | 1, Some f =>
    Some (run_sub_future o f (Some ErrTimeout)
            (on_sub s (fun sub => put_subFutures (delete id sub.(subFutures)) sub) w))
  | 1, None => Some (w, [])
  | _, None => Some (w, [])
  | _, Some _ => None
  end.

(** ** Operations *)

(** *** The calls of the API, after [isClosed] *)

Definition Disconnect : list op := [OMoveDisconnected disconnectedDisconnectCalled "disconnect called"].
Definition Close : list op :=
  [OMoveDisconnected disconnectedDisconnectCalled "disconnect called"; OMoveClosed].
Definition Send (call : nat) (data : string) : list op := [OOnConnect (FSend call data)].
Definition Publish (call : nat) (ch data : string) : list op := [OOnConnect (FPublish call ch data)].
Definition Presence (call : nat) (ch : string) : list op := [OOnConnect (FPresence call ch)].
Definition PresenceStats (call : nat) (ch : string) : list op := [OOnConnect (FPresenceStats call ch)].
Definition Unsubscribe (s : nat) (w : world) : list op :=
  match get_sub s w with
  | Some sub => unsubscribe s sub unsubscribedUnsubscribeCalled "unsubscribe called" true
  | None => []
  end.

Definition call_api (call : nat) (a : api) (w : world) : world * list op :=
  if decide (w.(cl).(state) = StateClosed) then
    (match a with AClose => w | _ => finish call (RError ErrClientClosed) w end, [])
  else
    (w, match a with
        | ADisconnect => Disconnect
        | AClose => Close
        | ASend data => Send call data
        | APublish ch data => Publish call ch data
        | APresence ch => Presence call ch
        | APresenceStats ch => PresenceStats call ch
        | ASubscribe s => [OSubscribe s]
        | AUnsubscribe s => Unsubscribe s w
        end).

(** [RemoveSubscription]: the check and the removal are two sections. *)
Definition RemoveSubscription (s : nat) (sub : Subscription) : list op :=
  if decide (sub.(sub_state) = SubStateUnsubscribed) then [ORemoveSub s] else [].

Definition delete_sub (sub : Subscription) (w : world) : world :=
  on_cl (fun c => set_subs (delete sub.(Channel) c.(subs)) c) w.

(** The effect of a handler call on the queue of callbacks: a nil [CBQueue] is
    dereferenced. *)
Definition emit (evs : list event) (w : world) : world :=
  if w.(cl).(CBQueue) then with_events (w.(events) ++ evs) w else crash w.

Definition server_pubs (ch : string) (pubs : list Publication) (w : world) : world :=
  emit ((fun p => EvServerPublication ch (pubFromProto p)) <$> pubs)
    (if bool_decide (pubs = []) then w else server_sub_add ch w).

(** A handle always denotes a subscription that [NewSubscription] made: they
    are never freed. *)
Definition with_sub (s : nat) (w : world) (f : Subscription -> option (world * list op))
    : option (world * list op) :=
  match get_sub s w with Some sub => f sub | None => Some (w, []) end.

Definition exec (o : oracle) (x : op) (w : world) : option (world * list op) :=
  match x with
  | OEmit _ evs => Some (emit evs w, [])
  | OApi call a => Some (call_api call a w)
  | OSetClientToken tok => Some (on_cl (set_token tok) w, [])
  | ONewSubscription ch scfg => Some (NewSubscription ch scfg w, [])
  | ORemoveSubscription s =>
    with_sub s w (fun sub => Some (w, RemoveSubscription s sub))
  | ORemoveSub s => with_sub s w (fun sub => Some (delete_sub sub w, []))
  | OStartConnecting => Some (startConnecting w)
  | OStartReconnecting => Some (startReconnecting w)
  | ODial refreshRequired tok _ => Some (dial o refreshRequired tok w)
  | ORefreshToken t => Some (w, refresh_for_connect o t)
  | OSetToken t tok => Some (token_refreshed t tok w)
  | OInstall t => Some (install o t w)
  | ORearm t refresh => Some (rearm t refresh w, [])
  | OConnectCb t res => Some (w, connect_cb t res w)
  | OConnectErr t e => Some (connect_err t e w)
  | OConnected t res => connected o t res w
  | OServerSubAdd ch => Some (server_sub_add ch w, [])
  | OServerPubs ch pubs => Some (server_pubs ch pubs w, [])
  | OServerUnsubs res => (fun ops => (w, ops)) <$> server_unsubs o res w
  | OConnectedTail t ping => connected_tail o t ping w
  | OUnlock => Some (with_locked false w, [])
  | OMoveDisconnected code reason => moveToDisconnected o code reason w
  | OMoveConnecting code reason => moveToConnecting o code reason w
  | OMoveClosed => moveToClosed o w
  | OCloseQueue => Some (if w.(cl).(CBQueue) then on_cl (set_CBQueue false) w else crash w, [])
  | OHandleDisconnect d => Some (w, handleDisconnect d)
  | OReader t => readOnce o t w
  | OHandle r => handle r w
  | OHandlePush p => Some (w, handlePush p w)
  | OServerSub ch data => Some (handleServerSub ch data w)
  | OServerUnsub ch => Some (handleServerUnsub ch w)
  | OWaitPing t => waitServerPing o t w
  | OAwaitStart id => Some (w, [OAwait id w.(cl).(closeCh)])
  | OAwait id ch => (fun ops => (w, ops)) <$> await o id ch w
  | ORemove id => Some (removeRequest id w, [])
  | OResult call r => Some (finish call r w, [])
  | OCrash => Some (crash w, [])
  | OUnsubscribeCb err => Some (unsubscribed err w, [])
  | OSendRefresh => Some (w, sendRefresh o)
  | OSendRefreshTok tok =>
    Some (refresh_with o tok w, [])
  | OHandleRefreshError => Some (handleRefreshError w, [])
  | ORefreshCb r => Some (w, refresh_cb r)
  | ORefreshDenied code reason =>
    Some (w, refresh_denied code reason w)
  | ORefreshed ttl => Some (if_connected (schedule_refresh ttl) w, [])
  | OOnConnect f => Some (onConnect f w)
  | OFn f err => Some (run_future o f err w, [])
  | OFutureWait id => (fun w => (w, [])) <$> future_wait o id w
  | OSubscribe s => with_sub s w (fun sub => Some (Subscribe s sub w))
  | OSubIfConnected s =>
    Some (w, if decide (w.(cl).(state) = StateConnected) then [OResubscribe s] else [])
  | OResubscribe s => with_sub s w (fun sub => Some (w, resubscribe s sub))
  | OSubToken s => with_sub s w (fun sub => Some (sub_token_answer o s sub w))
  | OSendSubscribe s tok => with_sub s w (fun sub => Some (sendSubscribe o s sub tok w, []))
  | OSubscribeError s e => with_sub s w (fun sub => Some (subscribeError s sub e w))
  | OSubscribeErrorTail s e => with_sub s w (fun sub => subscribeError_tail o s sub e w)
  | OMoveUnsubscribed s code reason => with_sub s w (fun sub => Some (moveToUnsubscribed s sub code reason w))
  | OMoveSubscribing s code reason => with_sub s w (fun sub => Some (moveToSubscribing s sub code reason w))
  | OMoveSubscribed s res => with_sub s w (fun sub => moveToSubscribed o s sub res w)
  | OSubPubs s pubs => with_sub s w (fun sub => Some (emit (sub_pubs s sub pubs) w, []))
  | OHandlePublication s p => with_sub s w (fun sub => Some (w, handlePublication s sub p))
  | OResubTimer s =>
    with_sub s w (fun sub => Some (w, resubscribe_timer s sub))
  | OSubRefresh s =>
    with_sub s w (fun sub => Some (w, sub_refresh_timer s sub))
  | OSubRefreshTok s => with_sub s w (fun sub => Some (sub_refresh_token o s sub w))
  | OScheduleSubRefresh s ttl => Some (scheduleSubRefresh s ttl w, [])
  | OSubRefreshCb s res => with_sub s w (fun sub => Some (w, sub_refresh_cb s sub res))
  | OClientUnsubscribe ch =>
    Some (w, client_unsubscribe ch w)
  | OSendUnsubscribe ch => Some (sendUnsubscribe o ch w, [])
  | OSubCall s f => with_sub s w (fun sub => Some (sub_call s sub f w))
  | OOnSubscribe s f => with_sub s w (fun sub => Some (onSubscribe s sub f w, []))
  | OSubFn f err => Some (run_sub_future o f err w)
  | OSubFutureWait s id => with_sub s w (fun sub => sub_future_wait o s sub id w)
  end.

(** The operations that take [c.mu]. *)
Definition needs_mu (x : op) : bool :=
  match x with
  | OEmit sync _ => sync
  | OHandle r => negb (0 <? r.(r_Id))%Z && bool_decide (is_Some r.(r_Push))
  | OApi _ _ | OSetClientToken _ | ONewSubscription _ _ | ORemoveSub _
  | OStartConnecting | OStartReconnecting | OSetToken _ _ | OInstall _ | ORearm _ _ | OConnectCb _ _
  | OConnected _ _ | OServerSubAdd _ | OServerPubs _ _ | OConnectedTail _ _
  | OMoveDisconnected _ _ | OMoveConnecting _ _ | OMoveClosed | OCloseQueue
  | OHandlePush _ | OServerSub _ _ | OServerUnsub _ | OAwaitStart _
  | OSendRefreshTok _ | OHandleRefreshError | ORefreshDenied _ _ | ORefreshed _
  | OOnConnect _ | OFutureWait _ | OSubIfConnected _ | OSubPubs _ _
  | OClientUnsubscribe _ | OSendUnsubscribe _ => true
  | _ => false
  end.

(** What a timer runs. *)
Definition fire (k : timer) : list op :=
  match k with
  | TReconnect _ => [OStartReconnecting]
  | TRefresh _ => [OSendRefresh]
  | TResubscribe s _ => [OResubTimer s]
  | TSubRefresh s _ => [OSubRefresh s]
  end.

(** The calls of the application; [call] is the number of the call. *)
Definition api_call (w : world) (x : op) : Prop :=
  match x with
  | OStartConnecting | OSetClientToken _ | ONewSubscription _ _ | ORemoveSubscription _ => True
  | OApi call _ => call = w.(fresh)
  | OSubCall _ f => fut_call f = w.(fresh) /\ match f with FSend _ _ => False | _ => True end
  | _ => False
  end.

(** One step of a goroutine. *)
Definition run_thread (i : nat) (o : oracle) (w : world) : option world :=
  match w.(threads) !! i with
  | Some (x :: rest) =>
    if w.(crashed) || (needs_mu x && w.(locked)) then None
    else match exec o x w with
         | Some (w', ops) => Some (with_threads (<[i := ops ++ rest]> w'.(threads)) w')
         | None => None
         end
  | _ => None
  end.

Definition fire_timer (id : nat) (w : world) : option world :=
  if w.(crashed) then None
  else match w.(timers) !! id with
       | Some k => Some (spawn (fire k) (with_timers (delete id w.(timers)) w))
       | None => None
       end.

(** The steps the client takes by itself. *)
Inductive istep (w : world) : world -> Prop :=
| step_thread i o w' : run_thread i o w = Some w' -> istep w w'
| step_timer id w' : fire_timer id w = Some w' -> istep w w'.

Inductive step (w : world) : world -> Prop :=
| step_internal w' : istep w w' -> step w w'
| step_api x : w.(crashed) = false -> api_call w x -> step w (spawn [x] (alloc w).2).

(** [newClient]. *)
Definition newClient : world :=
  mkWorld
    (mkClient 0 0 0 cfg.(cfg_Token) None StateDisconnected ∅ ∅ ∅ 0 0 None ∅ true None None false)
    ∅ ∅ 0 ∅ ∅ [] [] [] [] false false 0 [].

Definition reachable (w : world) : Prop := rtc step newClient w.

End Client.
