(* ===== verification/PubSubFrame.v ===== *)
(** What the operations of the pubsub client leave alone: [frame] and the lemma
    that all but a few operations are framed ([exec_frame]); the effect of
    leaving a connection ([leave_connection_spec]). *)

From S2P Require Import Prelude PubSubData PubSub.

(** ** Frames

    Most operations leave the connection alone.  [frame] says what they keep,
    what they may add, and that timers stay typed. *)

(** [c.reconnectTimer], [c.refreshTimer] and the timers of a subscription are
    stopped or run what they were made for. *)
Definition points_to (w : world) (ref : option nat) (P : timer -> Prop) : Prop :=
  match ref with
  | Some id => id < w.(fresh) /\ forall k, w.(timers) !! id = Some k -> P k
  | None => True
  end.

Definition is_reconnect (k : timer) : Prop := match k with TReconnect _ => True | _ => False end.
Definition is_refresh (k : timer) : Prop := match k with TRefresh _ => True | _ => False end.
Definition is_resubscribe (s : nat) (k : timer) : Prop :=
  match k with TResubscribe s' _ => s' = s | _ => False end.
Definition is_subrefresh (s : nat) (k : timer) : Prop :=
  match k with TSubRefresh s' _ => s' = s | _ => False end.

Record timers_typed (w : world) : Prop := {
  tt_fresh : forall id k, w.(timers) !! id = Some k -> id < w.(fresh);
  tt_reconnect : points_to w w.(cl).(reconnectTimer) is_reconnect;
  tt_refresh : points_to w w.(cl).(refreshTimer) is_refresh;
  tt_sub : forall s sub, w.(objs) !! s = Some sub ->
    points_to w sub.(resubscribeTimer) (is_resubscribe s) /\
    points_to w sub.(sub_refreshTimer) (is_subrefresh s)
}.

Record ok (w : world) : Prop := {
  ok_issued : (0 <= w.(issued))%Z;
  ok_cmdID : w.(cl).(cmdID) = wrap_u32 w.(issued);
  ok_timers : timers_typed w
}.

(** The number of the request an operation is about. *)
Definition op_id (x : op) : option Z :=
  match x with
  | ORemove id | OAwaitStart id | OAwait id _ => Some id
  | OHandle r => Some r.(r_Id)
  | _ => None
  end.

(** Operations that are neither about a request nor about to release the lock or
    the queue of callbacks. *)
Definition plain (x : op) : bool :=
  match x with
  | ORemove _ | OAwaitStart _ | OAwait _ _ | OHandle _ | OCloseQueue | OUnlock => false
  | _ => true
  end.

Definition clean (th : list op) : Prop := Forall (fun x => plain x = true) th.

Definition core (w : world) :=
  let c := w.(cl) in
  (c.(state), c.(transport), c.(closeCh), c.(connectFutures), c.(futureID), c.(CBQueue),
   c.(reconnectTimer), c.(refreshTimer), w.(called), w.(locked)).

(** A goroutine that a framed operation may start. *)
Definition new_thread (w w' : world) (th : list op) : Prop :=
  clean th \/ exists id, th = [OAwaitStart id] /\ (w.(issued) < id <= w'.(issued))%Z.

Record framed (w w' : world) : Prop := {
  fr_ok : ok w';
  fr_core : core w' = core w;
  fr_old : forall id cb, (id <= w.(issued))%Z ->
    w.(cl).(requests) !! id = Some cb -> w'.(cl).(requests) !! id = Some cb;
  fr_new : forall id cb, w'.(cl).(requests) !! id = Some cb ->
    w.(cl).(requests) !! id = Some cb \/ (w.(issued) < id <= w'.(issued))%Z;
  fr_threads : exists new, w'.(threads) = w.(threads) ++ new /\ Forall (new_thread w w') new;
  fr_timers : forall id n, w.(timers) !! id = Some (TReconnect n) -> w'.(timers) !! id = Some (TReconnect n)
}.

Definition frame (w w' : world) : Prop :=
  (w.(issued) <= w'.(issued))%Z /\ (ok w -> (w'.(issued) < 2 ^ 32)%Z -> framed w w').

#[export] Instance frame_refl : Reflexive frame.
Proof.
  intros w. split; [lia|]. intros Hok _. split; [done|done|done|by left| |done].
  exists []. by rewrite app_nil_r.
Qed.

#[export] Instance frame_trans : Transitive frame.
Proof.
  intros w1 w2 w3 [Hi1 H1] [Hi2 H2]. split; [lia|]. intros Hok Hlt.
  destruct H1 as [Hok2 Hc1 Ho1 Hn1 (new1 & Ht1 & Hf1) Htm1]; [done|lia|].
  destruct H2 as [Hok3 Hc2 Ho2 Hn2 (new2 & Ht2 & Hf2) Htm2]; [done..|].
  split; [done|congruence| | | |auto].
  - intros id cb Hid Hr. apply Ho2; [lia|]. by apply Ho1.
  - intros id cb Hr. destruct (Hn2 id cb Hr) as [Hr'|]; [|right; lia].
    destruct (Hn1 id cb Hr'); [by left|right; lia].
  - exists (new1 ++ new2). rewrite Ht2, Ht1, app_assoc. split; [done|]. apply Forall_app. split.
    + eapply Forall_impl; [done|]. intros th [?|(id & -> & ?)]; [by left|right; exists id; split; [done|lia]].
    + eapply Forall_impl; [done|]. intros th [?|(id & -> & ?)]; [by left|right; exists id; split; [done|lia]].
Qed.

Create HintDb pubsub.

(** *** Transformers that touch nothing of it *)

Lemma points_to_ext w w' ref P :
  w'.(timers) = w.(timers) -> w.(fresh) <= w'.(fresh) -> points_to w ref P -> points_to w' ref P.
Proof. destruct ref; simpl; [|done]. intros -> ? []. split; [lia|done]. Qed.

Lemma timers_typed_ext w w' :
  w'.(timers) = w.(timers) -> w.(fresh) <= w'.(fresh) ->
  w'.(cl).(reconnectTimer) = w.(cl).(reconnectTimer) ->
  w'.(cl).(refreshTimer) = w.(cl).(refreshTimer) ->
  (forall s sub', w'.(objs) !! s = Some sub' ->
     (sub'.(resubscribeTimer) = None /\ sub'.(sub_refreshTimer) = None) \/
     exists sub, w.(objs) !! s = Some sub /\
     sub'.(resubscribeTimer) = sub.(resubscribeTimer) /\ sub'.(sub_refreshTimer) = sub.(sub_refreshTimer)) ->
  timers_typed w -> timers_typed w'.
Proof.
  intros Ht Hf H1 H2 Ho [Hfr Hr Hrf Hs]. split.
  - intros id k. rewrite Ht. intros ?%Hfr. lia.
  - rewrite H1. by eapply points_to_ext.
  - rewrite H2. by eapply points_to_ext.
  - intros s sub' Hsub. destruct (Ho s sub' Hsub) as [[-> ->]|(sub & Hw & -> & ->)]; [done|].
    destruct (Hs s sub Hw). split; by eapply points_to_ext.
Qed.

Lemma frame_ext w w' :
  core w' = core w -> w'.(cl).(cmdID) = w.(cl).(cmdID) -> w'.(issued) = w.(issued) ->
  w'.(cl).(requests) = w.(cl).(requests) -> w'.(timers) = w.(timers) -> w.(fresh) <= w'.(fresh) ->
  (forall s sub', w'.(objs) !! s = Some sub' ->
     (sub'.(resubscribeTimer) = None /\ sub'.(sub_refreshTimer) = None) \/
     exists sub, w.(objs) !! s = Some sub /\
     sub'.(resubscribeTimer) = sub.(resubscribeTimer) /\ sub'.(sub_refreshTimer) = sub.(sub_refreshTimer)) ->
  (exists new, w'.(threads) = w.(threads) ++ new /\ Forall clean new) ->
  frame w w'.
Proof.
  intros Hc Hcmd Hi Hr Ht Hf Ho (new & Hth & Hnew). split; [lia|]. intros [Hok1 Hok2 Hok3] _. split.
  - split; [lia|congruence|]. unfold core in Hc. simplify_eq. by apply (timers_typed_ext w).
  - done.
  - intros id cb _. by rewrite Hr.
  - intros id cb. rewrite Hr. by left.
  - exists new. split; [done|]. eapply Forall_impl; [done|]. by left.
  - intros id n. by rewrite Ht.
Qed.

Ltac frame_ext :=
  apply frame_ext; try done; simpl;
  first [ lia
        | by intros s sub' ?; right; eauto
        | by exists []; rewrite app_nil_r
        | by eexists; split; [reflexivity|]
        | idtac ].

Lemma frame_spawn th w : clean th -> frame w (spawn th w).
Proof. intros. frame_ext. exists [th]. split; [done|]. by constructor. Qed.

Lemma frame_crash w : frame w (crash w).
Proof. frame_ext. Qed.
Lemma frame_finish call r w : frame w (finish call r w).
Proof. frame_ext. Qed.
Lemma frame_wire l w : frame w (with_wire l w).
Proof. frame_ext. Qed.
Lemma frame_events l w : frame w (with_events l w).
Proof. frame_ext. Qed.
Lemma frame_open l w : frame w (with_open l w).
Proof. frame_ext. Qed.
Lemma frame_close_transport t w : frame w (close_transport t w).
Proof. frame_ext. Qed.
Lemma frame_close_channel ch w : frame w (close_channel ch w).
Proof. destruct ch; [frame_ext|reflexivity]. Qed.
Lemma frame_alloc w : frame w (alloc w).2.
Proof. frame_ext. Qed.

(** Changes of the client's other fields. *)
Lemma frame_on_cl f w :
  (forall c, f c = mkClient c.(cmdID) c.(futureID) (f c).(round) (f c).(token) c.(transport) c.(state)
     (f c).(subs) (f c).(serverSubs) c.(requests) (f c).(reconnectAttempts) (f c).(delayPing) c.(closeCh)
     c.(connectFutures) c.(CBQueue) c.(reconnectTimer) c.(refreshTimer) (f c).(refreshRequired)) ->
  frame w (on_cl f w).
Proof.
  intros Hf. specialize (Hf w.(cl)). apply frame_ext; unfold on_cl, core; simpl;
    first [ done | rewrite Hf; reflexivity | by intros; right; eauto | by exists []; rewrite app_nil_r ].
Qed.

(** Changes of a subscription that keep its timers. *)
Lemma frame_on_sub s f w :
  (forall sub, (f sub).(resubscribeTimer) = sub.(resubscribeTimer) /\
               (f sub).(sub_refreshTimer) = sub.(sub_refreshTimer)) ->
  frame w (on_sub s f w).
Proof.
  intros Hf. apply frame_ext; try done; simpl; [|by exists []; rewrite app_nil_r].
  intros s' sub' [Hs|Hs]%lookup_alter_Some; right.
  - destruct Hs as (-> & sub & Hw & ->). exists sub. split; [done|]. apply Hf.
  - exists sub'. by destruct Hs.
Qed.

(** *** Timers *)

(** Updating a map of timers at a number that no other reference denotes. *)
Lemma frame_AfterFunc_sub s f k w :
  (forall n, k <> TReconnect n) ->
  (forall id sub,
     ((f id sub).(resubscribeTimer) = sub.(resubscribeTimer) \/
      (f id sub).(resubscribeTimer) = Some id /\ is_resubscribe s k) /\
     ((f id sub).(sub_refreshTimer) = sub.(sub_refreshTimer) \/
      (f id sub).(sub_refreshTimer) = Some id /\ is_subrefresh s k)) ->
  frame w (let '(id, w) := AfterFunc k w in on_sub s (f id) w).
Proof.
  intros Hk Hf. simpl. split; [done|]. intros [Hok1 Hok2 [Hfr Hr Hrf Hs]] _.
  assert (Hext : forall ref P, points_to w ref P ->
    points_to (on_sub s (f (fresh w)) (with_timers (<[fresh w:=k]> (timers w)) (with_fresh (S (fresh w)) w))) ref P).
  { intros [id|] P; simpl; [|done]. intros [Hid Hp]. split; [lia|]. intros k'.
    rewrite lookup_insert_ne by lia. apply Hp. }
  split; [|done|done|by left|by exists []; rewrite app_nil_r|].
  - split; [done|done|]. split; simpl.
    + intros id k' [[<- <-]|[? Hl%Hfr]]%lookup_insert_Some; lia.
    + by apply Hext.
    + by apply Hext.
    + intros s' sub' [(-> & sub & Hw & ->)|[? Hw]]%lookup_alter_Some;
        destruct (Hs _ _ Hw) as [H1 H2]; [|split; by apply Hext].
      destruct (Hf (fresh w) sub) as [[-> |[-> Hk1]] [-> |[-> Hk2]]]; split; try (by apply Hext);
        simpl; (split; [lia|]); rewrite lookup_insert_eq; by intros ? [= <-].
  - intros id n Hid. simpl. rewrite lookup_insert_ne; [done|]. intros <-. apply Hfr in Hid. lia.
Qed.

(** Stopping timers that are not the client's. *)
Lemma frame_stop ref P w :
  (ok w -> points_to w ref P) -> (forall n, ~ P (TReconnect n)) -> frame w (stop ref w).
Proof.
  intros Href HP. destruct ref as [id|]; simpl; [|reflexivity]. split; [done|].
  intros Hok _. specialize (Href Hok) as [Hid Hk]. destruct Hok as [Hok1 Hok2 [Hfr Hr Hrf Hs]].
  assert (Hext : forall ref P, points_to w ref P -> points_to (with_timers (delete id (timers w)) w) ref P).
  { intros [i|] Q; simpl; [|done]. intros [? Hq]. split; [done|]. intros k [_ Hl]%lookup_delete_Some. auto. }
  split; [|done|done|by left|by exists []; rewrite app_nil_r|].
  - split; [done|done|]. split; simpl; [|by apply Hext..|].
    + intros i k [_ Hl]%lookup_delete_Some. by apply (Hfr i k).
    + intros s sub Hw. destruct (Hs _ _ Hw). split; by apply Hext.
  - intros i n Hi. simpl. rewrite lookup_delete_ne; [done|]. intros <-. by apply (HP n), Hk.
Qed.

(** *** Requests *)

Lemma nextCmdID_spec w :
  ok w -> (w.(issued) + 1 < 2 ^ 32)%Z ->
  (nextCmdID w).1 = (w.(issued) + 1)%Z /\ ok (nextCmdID w).2.
Proof.
  intros [H1 H2 H3] Hlt.
  assert (E : wrap_u32 (w.(cl).(cmdID) + 1) = (w.(issued) + 1)%Z).
  { rewrite H2, (wrap_u32_small w.(issued)) by lia. by rewrite wrap_u32_small by lia. }
  split; [done|]. split; simpl; [lia| |].
  - by rewrite E, wrap_u32_small by lia.
  - apply (timers_typed_ext w); simpl; try done; intros; right; eauto.
Qed.

(** A request under a new number, with the goroutine that waits for it. *)
Lemma frame_request cb th w :
  (th = [] \/ th = [[OAwaitStart (nextCmdID w).1]] \/ exists t, th = [t] /\ clean t) ->
  frame w (spawn_all th (addRequest (nextCmdID w).1 cb (nextCmdID w).2)).
Proof.
  intros Hth. split; simpl; [lia|]. intros Hok Hlt.
  destruct (nextCmdID_spec w Hok Hlt) as [Hid [H1 H2 H3]]. cbn -[Z.pow] in Hid.
  split; [|done| | | |done].
  - split; [done|done|]. apply (timers_typed_ext (nextCmdID w).2); simpl; try done; intros; right; eauto.
  - intros id c Hle Hr. simpl. rewrite Hid, lookup_insert_ne by lia. done.
  - intros id c. simpl. rewrite Hid. intros [[<- _]|[_ ?]]%lookup_insert_Some; [right; lia|by left].
  - exists th. split; [done|]. destruct Hth as [-> |[-> |(t & -> & Ht)]];
      [constructor|constructor; [|constructor]..].
    + right. eexists. split; [done|]. cbn -[Z.pow]. rewrite Hid. lia.
    + by left.
Qed.

Lemma spawn_all_nil w : spawn_all [] w = w.
Proof. destruct w. unfold spawn_all, with_threads. simpl. by rewrite app_nil_r. Qed.

Lemma frame_sendAsync o cmd cb w : frame w (sendAsync o cmd cb w).1.
Proof.
  unfold sendAsync. destruct (nextCmdID w) as [id w1] eqn:En. unfold send. simpl.
  assert (Hid : id = (nextCmdID w).1) by by rewrite En.
  assert (Hw1 : w1 = (nextCmdID w).2) by by rewrite En.
  destruct (transport (cl w1)) as [t|]; simpl.
  2:{ pose proof (frame_request cb [] w (or_introl eq_refl)) as Hf.
      rewrite spawn_all_nil, <- Hid, <- Hw1 in Hf. done. }
  destruct (o_write o id); simpl.
  - etrans; [apply (frame_request cb [[OAwaitStart id]] w); right; left; by rewrite Hid|].
    rewrite <- Hid, <- Hw1. apply frame_ext; try done; simpl; [by intros; right; eauto|].
    exists []. by rewrite app_nil_r.
  - rewrite Hid, Hw1. apply (frame_request cb [_] w). right. right. eexists. split; [done|]. by constructor.
Qed.

Lemma frame_send o id cmd w : frame w (send o id cmd w).1.
Proof.
  unfold send. destruct (transport (cl w)); simpl; [|reflexivity].
  destruct (o_write o id); [apply frame_wire|]. apply frame_spawn. by repeat constructor.
Qed.

Lemma frame_send_call o cmd call cb w : frame w (send_call o cmd call cb w).
Proof.
  unfold send_call. pose proof (frame_sendAsync o cmd cb w) as Hf.
  destruct (sendAsync o cmd cb w) as [w' [e|]]; simpl in *; [|done].
  etrans; [done|]. apply frame_finish.
Qed.

#[export] Hint Resolve frame_finish frame_send_call frame_crash frame_events frame_open
  frame_close_transport frame_close_channel frame_alloc : pubsub.

Lemma frame_run_future o f err w : frame w (run_future o f err w).
Proof.
  destruct f; simpl; unfold send_fn, publish, presence, presenceStats, sendPublish, sendPresence, sendPresenceStats;
    try (repeat case_match; by auto with pubsub).
  destruct err; [auto with pubsub|]. case_match; [auto with pubsub|].
  pose proof (frame_send o 0 (CmdSend data) w) as Hf. destruct (send o 0 (CmdSend data) w).
  etrans; [exact Hf|apply frame_finish].
Qed.

Lemma frame_run_sub_future o f err w : frame w (run_sub_future o f err w).1.
Proof. unfold run_sub_future. repeat case_match; simplify_eq; simpl; auto with pubsub; reflexivity. Qed.

Lemma clean_run_sub_future o f err w : clean (run_sub_future o f err w).2.
Proof. unfold run_sub_future. repeat case_match; simplify_eq; simpl; repeat constructor. Qed.

Lemma foldl_sub_futures o err futs order w ops :
  clean ops ->
  frame w (foldl (call_sub_future o err futs) (w, ops) order).1 /\
  clean (foldl (call_sub_future o err futs) (w, ops) order).2.
Proof.
  revert w ops. induction order as [|id order IH]; intros w ops Hc; simpl; [split; [reflexivity|done]|].
  unfold call_sub_future at 2 4. simpl. destruct (futs !! id) as [f|]; [|by apply IH].
  pose proof (frame_run_sub_future o f err w) as Hf.
  pose proof (clean_run_sub_future o f err w) as Hc'.
  destruct (run_sub_future o f err w) as [w1 ops1]. simpl in *.
  destruct (IH w1 (ops ++ ops1)) as [H1 H2]; [by apply Forall_app|].
  split; [|done]. by etrans.
Qed.

Lemma frame_resolveSubFutures o err s sub w w' ops :
  resolveSubFutures o err s sub w = Some (w', ops) -> frame w w' /\ clean ops.
Proof.
  unfold resolveSubFutures. case_match; [|done].
  pose proof (foldl_sub_futures o err (subFutures sub) (o_futures o) w []) as Hf.
  destruct (foldl _ _ _) as [w1 ops1]. intros [= <- <-].
  destruct Hf as [H1 H2]; [constructor|]. split; [|done].
  etrans; [apply H1|]. by apply frame_on_sub.
Qed.

(** *** Subscriptions *)

Lemma frame_scheduleResubscribe s sub w : frame w (scheduleResubscribe s sub w).
Proof.
  apply (frame_AfterFunc_sub s (fun id sub0 =>
    put_resubscribeTimer (Some id) (put_resubscribeAttempts (resubscribeAttempts sub + 1) sub0))); [done|].
  intros id sub0. split; [right|left]; done.
Qed.

Lemma frame_scheduleSubRefresh s ttl w : frame w (scheduleSubRefresh s ttl w).
Proof.
  unfold scheduleSubRefresh. destruct (get_sub s w) as [sub|]; [|reflexivity].
  case_decide; [|reflexivity].
  apply (frame_AfterFunc_sub s (fun id sub0 => put_sub_refreshTimer (Some id) sub0)); [done|].
  intros id sub0. split; [left|right]; done.
Qed.

Lemma frame_sub_reset s sub st w : get_sub s w = Some sub -> frame w (sub_reset s sub st w).
Proof.
  intros Hs. unfold sub_reset.
  etrans; [|by apply frame_on_sub].
  etrans; [apply (frame_stop sub.(resubscribeTimer) (is_resubscribe s))|
           apply (frame_stop sub.(sub_refreshTimer) (is_subrefresh s))]; try (by intros ? []).
  - intros Hok. by apply (tt_sub _ (ok_timers _ Hok) s sub).
  - intros Hok. apply (tt_sub _ (ok_timers _ Hok) s sub). unfold stop. by destruct sub.(resubscribeTimer).
Qed.

Lemma scheduleSubRefresh_resub s ttl w sub :
  get_sub s w = Some sub ->
  exists sub', get_sub s (scheduleSubRefresh s ttl w) = Some sub' /\
    sub'.(resubscribeTimer) = sub.(resubscribeTimer).
Proof.
  intros Hs. unfold scheduleSubRefresh. rewrite Hs. case_decide; [|eauto].
  unfold get_sub in *. simpl. rewrite lookup_alter_eq, Hs. simpl. by eexists.
Qed.

Lemma frame_moveToSubscribed o s sub res w w' ops :
  get_sub s w = Some sub ->
  moveToSubscribed o s sub res w = Some (w', ops) -> frame w w' /\ clean ops.
Proof.
  intros Hs. unfold moveToSubscribed. case_decide as Hst; [|intros [= <- <-]; split; [reflexivity|constructor]].
  destruct res as [res|]; [|intros [= <- <-]; split; [auto with pubsub|constructor]].
  set (w1 := on_sub s (put_sub_state SubStateSubscribed) w).
  set (w2 := if sr_Expires res then _ else _).
  assert (H2 : frame w w2 /\ exists sub', get_sub s w2 = Some sub' /\ sub'.(resubscribeTimer) = sub.(resubscribeTimer)).
  { assert (H1 : frame w w1) by by apply frame_on_sub.
    assert (Hs1 : get_sub s w1 = Some (put_sub_state SubStateSubscribed sub)).
    { unfold get_sub, w1, on_sub in *. simpl. by rewrite lookup_alter_eq, Hs. }
    unfold w2. destruct (sr_Expires res); [|split; [done|by eexists]]. split.
    - etrans; [done|]. apply frame_scheduleSubRefresh.
    - destruct (scheduleSubRefresh_resub s (sr_Ttl res) w1 _ Hs1) as (sub' & ? & ?). by exists sub'. }
  destruct H2 as [H2 (sub' & Hs' & Hrt)].
  set (w3 := on_sub s (put_resubscribeAttempts 0) w2).
  assert (H4 : frame w (stop (resubscribeTimer sub) w3)).
  { etrans; [exact H2|]. etrans; [by apply (frame_on_sub s (put_resubscribeAttempts 0))|].
    apply (frame_stop _ (is_resubscribe s)); [|by intros ? []]. intros Hok. rewrite <- Hrt.
    apply (tt_sub _ (ok_timers _ Hok) s (put_resubscribeAttempts 0 sub')).
    unfold get_sub, w3, on_sub in *. simpl. by rewrite lookup_alter_eq, Hs'. }
  destruct (resolveSubFutures _ _ _ _ _) as [[w4 ops4]|] eqn:E; [|done].
  apply frame_resolveSubFutures in E as [H5 H6]. intros [= <- <-]. split; [by etrans|].
  apply Forall_app. split; [done|]. apply Forall_app. split.
  - unfold emit_if. by case_match; repeat constructor.
  - case_match; repeat constructor.
Qed.

(** *** Operations *)

(** The operations that change the connection, its requests or its futures. *)
Definition special (x : op) : bool :=
  match x with
  | OStartConnecting | OInstall _ | ORearm _ _ | OConnected _ _ | OMoveDisconnected _ _
  | OMoveConnecting _ _ | OMoveClosed | OCloseQueue | OReader _ | OHandle _ | OAwaitStart _
  | OAwait _ _ | ORemove _ | OOnConnect _ | OFutureWait _ | OHandleRefreshError | ORefreshed _
  | OConnectedTail _ _ | OUnlock => true
  | _ => false
  end.

Lemma clean_nil : clean [].
Proof. constructor. Qed.
Lemma clean_app l k : clean l -> clean k -> clean (l ++ k).
Proof. intros. by apply Forall_app. Qed.
Lemma clean_cons x l : plain x = true -> clean l -> clean (x :: l).
Proof. intros. by constructor. Qed.
Lemma clean_emit_if b sync evs : clean (emit_if b sync evs).
Proof. destruct b; repeat constructor. Qed.
Lemma clean_handleError cfg e : clean (handleError cfg e).
Proof. apply clean_emit_if. Qed.
Lemma clean_emitError sub s e : clean (emitError sub s e).
Proof. apply clean_emit_if. Qed.
Lemma clean_fmap {A} (f : A -> op) l : (forall a, plain (f a) = true) -> clean (f <$> l).
Proof. intros. apply Forall_fmap, Forall_true. done. Qed.
Lemma clean_bind {A} (f : A -> list op) l : (forall a, clean (f a)) -> clean (l ≫= f).
Proof. intros Hf. induction l as [|a l IH]; simpl; [constructor|]. by apply clean_app. Qed.

#[export] Hint Resolve clean_nil clean_app clean_emit_if clean_handleError clean_emitError : pubsub.
#[export] Hint Extern 1 (clean (_ :: _)) => apply clean_cons; [reflexivity|] : pubsub.
#[export] Hint Extern 1 (clean (_ <$> _)) => apply clean_fmap; reflexivity : pubsub.

Lemma frame_if_connected f w : (forall w, frame w (f w)) -> frame w (if_connected f w).
Proof. unfold if_connected. case_decide; [auto|reflexivity]. Qed.

Lemma frame_emit evs w : frame w (emit evs w).
Proof. unfold emit. case_match; auto with pubsub. Qed.

#[export] Hint Resolve frame_emit frame_sendAsync frame_run_future frame_scheduleResubscribe
  frame_scheduleSubRefresh frame_sub_reset frame_run_sub_future clean_run_sub_future : pubsub.
#[export] Hint Extern 1 (frame ?w ?w) => reflexivity : pubsub.
#[export] Hint Extern 2 (frame _ (on_cl _ _)) => apply frame_on_cl; reflexivity : pubsub.
#[export] Hint Extern 2 (frame _ (on_sub _ _ _)) => apply frame_on_sub; done : pubsub.
#[export] Hint Extern 2 (frame _ (spawn _ _)) => apply frame_spawn; by repeat constructor : pubsub.

Section Frames.
Context (cfg : Config).

Lemma frame_call_api call a w : frame w (call_api call a w).1 /\ clean (call_api call a w).2.
Proof.
  unfold call_api. case_decide; [destruct a; simpl; split; auto with pubsub|].
  destruct a; simpl; unfold Disconnect, Close, Send, Publish, Presence, PresenceStats, Unsubscribe, unsubscribe;
    repeat case_match; split; auto 6 with pubsub.
Qed.

Lemma frame_dial o rr tok w : frame w (dial cfg o rr tok w).1 /\ clean (dial cfg o rr tok w).2.
Proof.
  unfold dial. case_match; [|simpl; split; [reflexivity|auto with pubsub]]. simpl.
  case_match; simpl; (split; [|auto with pubsub]); (etrans; [apply frame_alloc|]); auto with pubsub.
Qed.

Lemma frame_sendSubscribe o s sub tok w : frame w (sendSubscribe o s sub tok w).
Proof.
  unfold sendSubscribe. case_decide; [|reflexivity].
  pose proof (frame_sendAsync o (CmdSubscribe sub.(Channel) sub.(sub_cfg).(sc_Data) tok) (CbSubscribe s) w) as Hf.
  destruct (sendAsync _ _ _ _) as [w' [e|]]; simpl in Hf; [|done]. etrans; [done|]. auto with pubsub.
Qed.

Lemma frame_sendUnsubscribe o ch w : frame w (sendUnsubscribe o ch w).
Proof.
  apply frame_if_connected. clear w. intros w. unfold unsubscribed.
  pose proof (frame_sendAsync o (CmdUnsubscribe ch) CbUnsubscribe w) as Hf.
  destruct (sendAsync _ _ _ _) as [w' [e|]]; simpl in Hf; [|done]. etrans; [done|]. auto with pubsub.
Qed.

Lemma frame_NewSubscription ch scfg w : frame w (NewSubscription ch scfg w).
Proof.
  unfold NewSubscription. case_match; [reflexivity|]. simpl.
  apply frame_ext; try done; simpl; [lia| |by exists []; rewrite app_nil_r].
  intros s sub' [[<- <-]|[? Hl]]%lookup_insert_Some; [by left|right; eauto].
Qed.

Lemma frame_sub_refresh_token o s sub w :
  frame w (sub_refresh_token o s sub w).1 /\ clean (sub_refresh_token o s sub w).2.
Proof.
  unfold sub_refresh_token, unsubscribe.
  repeat case_match; simpl; split; auto 7 with pubsub.
Qed.

Lemma frame_future_subs o s sub e w w' ops :
  subscribeError_tail o s sub e w = Some (w', ops) -> frame w w' /\ clean ops.
Proof.
  unfold subscribeError_tail, unsubscribe. destruct e; try (intros [= <- <-]; split; auto with pubsub).
  case_match; [intros [= <- <-]|].
  - split; [|auto with pubsub]. etrans; [|apply frame_scheduleResubscribe]. auto with pubsub.
  - case_match eqn:E; [|done]. case_match. intros [= <- <-].
    apply frame_resolveSubFutures in E as [? ?]. split; [done|]. auto 6 with pubsub.
Qed.

Lemma frame_connected_tail o t ping w w' ops :
  connected_tail o t ping w = Some (w', ops) ->
  (frame w w' /\ ops = []) \/
  exists w1 l, frame w w1 /\ w' = with_locked true w1 /\ ops = (OResubscribe <$> l) ++ [OUnlock].
Proof.
  unfold connected_tail. set (w0 := on_cl _ w).
  assert (H0 : frame w w0) by (unfold w0; auto with pubsub).
  set (w1 := if (0 <? ping)%Z then _ else _).
  assert (H1 : frame w w1).
  { unfold w1. destruct (0 <? ping)%Z; [|done]. etrans; [exact H0|]. auto with pubsub. }
  case_decide; [|intros [= <- <-]; by left]. case_match; [|done]. intros [= <- <-]. right. by exists w1; eexists.
Qed.

Lemma frame_server_unsubs o res w ops : server_unsubs cfg o res w = Some ops -> clean ops.
Proof.
  unfold server_unsubs. case_match; [|done]. intros [= <-].
  apply clean_bind. intros ch. case_match; auto with pubsub.
Qed.

Lemma frame_onSubscribe s sub f w : frame w (onSubscribe s sub f w).
Proof.
  unfold onSubscribe. case_match; auto with pubsub.
  etrans; [|apply frame_spawn; by repeat constructor]. auto with pubsub.
Qed.

Lemma frame_sub_future_wait o s sub id w w' ops :
  sub_future_wait o s sub id w = Some (w', ops) -> frame w w' /\ clean ops.
Proof.
  unfold sub_future_wait. repeat case_match; try done; intros Hc; simplify_eq; try (by auto with pubsub).
  set (w0 := on_sub s _ w) in Hc.
  pose proof (frame_run_sub_future o f (Some ErrTimeout) w0) as Hfr.
  pose proof (clean_run_sub_future o f (Some ErrTimeout) w0) as Hcl.
  rewrite Hc in Hfr, Hcl. split; [|done]. etrans; [|exact Hfr]. unfold w0. auto with pubsub.
Qed.

(** Closes the goal of an operation whose definition has been unfolded: the
    branches are framed and return clean lists. *)
Ltac frame_branches :=
  repeat case_match; try discriminate; intros [= <- <-]; split; auto 7 with pubsub.

(** Everything else is framed. *)
Lemma exec_frame o x w w' ops :
  special x = false -> exec cfg o x w = Some (w', ops) -> frame w w' /\ clean ops.
Proof.
  intros Hsp. destruct x; try discriminate Hsp; unfold exec, with_sub;
    try (destruct (get_sub _ w) as [sub|] eqn:Hs; [|intros [= <- <-]; auto with pubsub]);
    try (intros [= <- <-]; split; [by auto with pubsub|by auto with pubsub]).
  all: try lazymatch goal with
    | |- Some (call_api ?c ?a ?w) = _ -> _ =>
      intros [= Hc]; pose proof (frame_call_api c a w); by rewrite Hc in *
    | |- Some (dial _ ?o ?r ?t ?w) = _ -> _ =>
      intros [= Hc]; pose proof (frame_dial o r t w); by rewrite Hc in *
    | |- Some (sub_refresh_token ?o ?s ?sub ?w) = _ -> _ =>
      intros [= Hc]; pose proof (frame_sub_refresh_token o s sub w); by rewrite Hc in *
    | |- Some (run_sub_future ?o ?f ?e ?w) = _ -> _ =>
      intros [= Hc]; pose proof (frame_run_sub_future o f e w);
      pose proof (clean_run_sub_future o f e w); by rewrite Hc in *
    | |- moveToSubscribed _ _ _ _ _ = _ -> _ => by apply frame_moveToSubscribed
    | |- subscribeError_tail _ _ _ _ _ = _ -> _ => apply frame_future_subs
    | |- sub_future_wait _ _ _ _ _ = _ -> _ => apply frame_sub_future_wait
    | |- Some (NewSubscription _ _ _, _) = _ -> _ =>
      intros [= <- <-]; split; [apply frame_NewSubscription|auto with pubsub]
    | |- Some (sendSubscribe _ _ _ _ _, _) = _ -> _ =>
      intros [= <- <-]; split; [apply frame_sendSubscribe|auto with pubsub]
    | |- Some (sendUnsubscribe _ _ _, _) = _ -> _ =>
      intros [= <- <-]; split; [apply frame_sendUnsubscribe|auto with pubsub]
    | |- Some (onSubscribe _ _ _ _, _) = _ -> _ =>
      intros [= <- <-]; split; [apply frame_onSubscribe|auto with pubsub]
    | |- Some (refresh_with _ _ _, _) = _ -> _ =>
      unfold refresh_with; intros [= <- <-]; split; [etrans; [|apply frame_sendAsync]|]; auto with pubsub
    | |- Some (server_pubs _ _ _, _) = _ -> _ =>
      unfold server_pubs, server_sub_add; intros [= <- <-];
      split; [etrans; [|apply frame_emit]; case_match|]; auto with pubsub
    | |- _ <$> server_unsubs _ _ _ _ = _ -> _ =>
      destruct (server_unsubs _ _ _ _) eqn:E; [|done]; intros [= <- <-];
      split; [auto with pubsub|by eapply frame_server_unsubs]
    end.
  all: unfold startReconnecting, refresh_for_connect, connect_cb, connect_err,
    handleDisconnect, handlePush, handleUnsubscribe, handleServerSub, handleServerUnsub,
    waitServerPing, sendRefresh, refresh_cb, Subscribe, resubscribe, sub_token_answer,
    subscribeError, handlePublication, sub_refresh_cb, unsubscribe, no_GetToken, RemoveSubscription, delete_sub,
    token_refreshed, client_unsubscribe, unsubscribed, refresh_denied, resubscribe_timer, sub_refresh_timer,
    sub_call, server_sub_add; frame_branches.
Qed.

End Frames.

(** *** Leaving a connection *)

Lemma clean_run_callback cb r : clean (run_callback cb r).
Proof.
  destruct cb, r; simpl; unfold connect_reply, subscribe_reply, subrefresh_reply, publish_reply, presence_reply,
    stats_reply, unsubscribe_reply; repeat case_match; auto with pubsub.
Qed.

Lemma called_run_future o f err w : called (run_future o f err w) = called w.
Proof.
  destruct f; simpl; unfold send_fn, publish, presence, presenceStats, sendPublish, sendPresence, sendPresenceStats,
    send_call, sendAsync, send, nextCmdID; repeat case_match; by simplify_eq/=.
Qed.

Lemma frame_called l w w' :
  called w' = called w -> frame w w' -> frame (with_called l w) (with_called l w').
Proof.
  intros Hc [Hi Hf]. split; [done|]. intros Hok Hlt.
  assert (Hokw : ok w).
  { destruct Hok as [H1 H2 H3]. split; [done..|]. apply (timers_typed_ext (with_called l w)); try done.
    intros; right; eauto. }
  destruct (Hf Hokw Hlt) as [[H1 H2 H3] Hcore Ho Hn Ht Htm]. split; [|unfold core in *; simpl in *; congruence|done..].
  split; [done..|]. apply (timers_typed_ext w'); try done. intros; right; eauto.
Qed.

Lemma frame_call_futures o err futs order w :
  (forall id, id ∈ order -> is_Some (futs !! id)) ->
  frame (with_called (w.(called) ++ order) w) (foldl (fun w id => call_future o err futs id w) w order).
Proof.
  revert w. induction order as [|id order IH]; intros w Hin; simpl.
  - rewrite app_nil_r. destruct w; reflexivity.
  - destruct (Hin id) as [f Hf]; [left|]. etrans; [|apply IH; intros; apply Hin; by right].
    unfold call_future. rewrite Hf, called_run_future. simpl.
    replace (called w ++ id :: order) with ((called w ++ [id]) ++ order) by by rewrite <- app_assoc.
    pose proof (frame_called ((called w ++ [id]) ++ order) (with_called (called w ++ [id]) w)
      (run_future o f err (with_called (called w ++ [id]) w))) as Hfr.
    apply Hfr; [apply called_run_future|apply frame_run_future].
Qed.

(** [resolveConnectFutures] calls every future once and forgets them. *)
Lemma resolveConnectFutures_spec o err w w' :
  resolveConnectFutures o err w = Some w' ->
  o.(o_futures) ≡ₚ (map_to_list w.(cl).(connectFutures)).*1 /\
  exists w1, frame (with_called (w.(called) ++ o.(o_futures)) w) w1 /\ w' = on_cl (set_connectFutures ∅) w1.
Proof.
  unfold resolveConnectFutures, is_order. case_bool_decide as Hp; [|done]. intros [= <-].
  split; [done|]. eexists. split; [|done]. apply frame_call_futures.
  intros id Hid. apply elem_of_map_keys. by rewrite <- Hp.
Qed.

Lemma ok_ext w w' :
  w'.(issued) = w.(issued) -> w'.(cl).(cmdID) = w.(cl).(cmdID) ->
  w'.(timers) = w.(timers) -> w.(fresh) <= w'.(fresh) ->
  w'.(cl).(reconnectTimer) = w.(cl).(reconnectTimer) ->
  w'.(cl).(refreshTimer) = w.(cl).(refreshTimer) -> w'.(objs) = w.(objs) ->
  ok w -> ok w'.
Proof.
  intros Hi Hc Ht Hf H1 H2 Ho [Ha Hb Hd]. split; [by rewrite Hi|by rewrite Hc, Hi|].
  apply (timers_typed_ext w); [done..| |done]. rewrite Ho. intros; right; eauto.
Qed.

Lemma ok_stop ref w : ok w -> ok (stop ref w).
Proof.
  destruct ref as [id|]; [|done]. intros [H1 H2 [Hfr Hr Hrf Hs]].
  assert (Hext : forall ref P, points_to w ref P -> points_to (stop (Some id) w) ref P).
  { intros [i|] Q; simpl; [|done]. intros [? Hq]. split; [done|]. intros k [_ Hl]%lookup_delete_Some. auto. }
  split; [done..|]. split; simpl; [|by apply Hext..|].
  - intros i k [_ Hl]%lookup_delete_Some. by apply (Hfr i k).
  - intros s sub Hw. destruct (Hs _ _ Hw). split; by apply Hext.
Qed.

Lemma ok_no_timers w : ok w -> ok (on_cl (fun c => set_refreshTimer None (set_reconnectTimer None c)) w).
Proof.
  intros [H1 H2 [Hfr Hr Hrf Hs]]. split; [done..|]. by split.
Qed.

Lemma ok_clearConnectedState w : ok w -> ok (clearConnectedState w).
Proof.
  intros Hok. unfold clearConnectedState.
  set (w1 := close_channel _ _).
  assert (H1 : ok w1).
  { unfold w1. apply (ok_stop (reconnectTimer (cl w))), (ok_stop (refreshTimer (cl w))) in Hok.
    destruct (closeCh (cl w)); simpl; [|done]. by eapply ok_ext; [..|exact Hok]. }
  apply ok_no_timers in H1. by eapply ok_ext; [..|exact H1].
Qed.

(** What is left of a connection after the section of [moveToDisconnected] or
    [moveToConnecting]. *)
Record left (o : oracle) (st : State) (w w' : world) : Prop := {
  lf_ok : ok w -> (w'.(issued) < 2 ^ 32)%Z -> ok w';
  lf_issued : (w.(issued) <= w'.(issued))%Z;
  lf_state : ok w -> (w'.(issued) < 2 ^ 32)%Z ->
    core w' = (st, None, None, ∅, w.(cl).(futureID), w.(cl).(CBQueue), None, None,
               w.(called) ++ o.(o_futures), w.(locked));
  lf_order : o.(o_futures) ≡ₚ (map_to_list w.(cl).(connectFutures)).*1;
  lf_requests : forall id cb, ok w -> (w'.(issued) < 2 ^ 32)%Z ->
    w'.(cl).(requests) !! id = Some cb -> (w.(issued) < id <= w'.(issued))%Z;
  lf_threads : ok w -> (w'.(issued) < 2 ^ 32)%Z ->
    exists new, w'.(threads) = w.(threads) ++ new /\ Forall (new_thread w w') new
}.

Lemma drop_transport_fields w :
  (cl (drop_transport w)) = set_transport None (cl w) /\ issued (drop_transport w) = issued w /\
  called (drop_transport w) = called w /\ threads (drop_transport w) = threads w /\
  locked (drop_transport w) = locked w /\ (ok w -> ok (drop_transport w)).
Proof.
  unfold drop_transport. destruct (transport (cl w)) eqn:E; simpl.
  - split_and!; try done. intros Hok. by eapply ok_ext; [..|exact Hok].
  - destruct w as [c]; destruct c; simpl in *; subst. by split_and!.
Qed.

Lemma clear_fields w :
  let w' := clearConnectedState w in
  cl w' = set_requests ∅ (set_closeCh None (set_refreshTimer None (set_reconnectTimer None (cl w)))) /\
  issued w' = issued w /\ called w' = called w /\ locked w' = locked w /\
  exists new, threads w' = threads w ++ new /\ Forall clean new.
Proof.
  unfold clearConnectedState. simpl.
  assert (Hcl : forall a w, cl (stop a w) = cl w /\ issued (stop a w) = issued w /\
    called (stop a w) = called w /\ locked (stop a w) = locked w /\ threads (stop a w) = threads w) by (by intros []).
  assert (Hch : forall a w, cl (close_channel a w) = cl w /\ issued (close_channel a w) = issued w /\
    called (close_channel a w) = called w /\ locked (close_channel a w) = locked w /\
    threads (close_channel a w) = threads w) by (by intros []).
  destruct (Hch (closeCh (cl w)) (stop (refreshTimer (cl w)) (stop (reconnectTimer (cl w)) w))) as (-> & -> & -> & -> & ->).
  destruct (Hcl (refreshTimer (cl w)) (stop (reconnectTimer (cl w)) w)) as (-> & -> & -> & -> & ->).
  destruct (Hcl (reconnectTimer (cl w)) w) as (-> & -> & -> & -> & ->).
  split_and!; [done..|]. eexists. split; [done|]. apply Forall_fmap, Forall_true.
  intros [? cb]. apply clean_run_callback.
Qed.

Lemma leave_connection_spec o st w w' : leave_connection o st w = Some w' -> left o st w w'.
Proof.
  unfold leave_connection. case_match; [|done].
  set (w1 := on_cl (set_state st) (drop_transport w)).
  destruct (drop_transport_fields w) as (Hc & Hi & Hca & Ht & Hlk & Hok).
  assert (Hok1 : ok w -> ok w1) by (intros ?%Hok; by eapply ok_ext; [..|done]).
  destruct (clear_fields w1) as (Hc2 & Hi2 & Hca2 & Hlk2 & new & Ht2 & Hnew). cbv zeta in *.
  pose proof (ok_clearConnectedState w1) as Hok2.
  generalize dependent (clearConnectedState w1). intros w2 Hc2 Hi2 Hca2 Hlk2 Ht2 Hok2 Hr.
  apply resolveConnectFutures_spec in Hr as (Hord & w3 & [Hi3 Hf] & ->).
  unfold w1 in *. simpl in *. rewrite Hc2, Hc in Hord. simpl in Hord. rewrite Hi2, Hi in Hi3.
  rewrite Hca2, Hca in *. rewrite Ht in Ht2. rewrite Hlk in Hlk2.
  assert (Hf' : ok w -> (issued w3 < 2 ^ 32)%Z -> framed (with_called (called w ++ o_futures o) w2) w3).
  { intros H1 H2. apply Hf; [|done]. eapply ok_ext; [..|exact (Hok2 (Hok1 H1))]; done. }
  split; simpl; [|done| |done| |].
  - intros H1 H2. eapply ok_ext; [..|exact (fr_ok _ _ (Hf' H1 H2))]; done.
  - intros H1 H2. pose proof (fr_core _ _ (Hf' H1 H2)) as Hcore. unfold core in *. simpl in *.
    rewrite Hc2, Hc, Hlk2 in Hcore. simpl in Hcore. by injection Hcore as -> -> -> _ -> -> -> -> -> ->.
  - intros id cb H1 H2 Hr. destruct (fr_new _ _ (Hf' H1 H2) id cb Hr) as [Hr'|]; simpl in *; [|lia].
    by rewrite Hc2 in Hr'.
  - intros H1 H2. destruct (fr_threads _ _ (Hf' H1 H2)) as (new3 & Ht3 & Hn3). simpl in Ht3.
    exists (new ++ new3). rewrite Ht3, Ht2, app_assoc. split; [done|]. apply Forall_app. split.
    + eapply Forall_impl; [exact Hnew|]. by left.
    + eapply Forall_impl; [exact Hn3|]. intros th [?|(id & -> & ?)]; [by left|]. right.
      exists id. split; [done|]. simpl in *. lia.
Qed.
