(* ===== verification/PubSubInv.v ===== *)
(** The invariant of the pubsub client, [inv], and that every reachable world has
    it ([inv_reachable]): commands keep their numbers apart, each state of the
    client excludes what it should, futures are called once, and a client that
    is connecting has something that takes it further ([driver]).

    The invariant is about runs of fewer than 2^32 commands: after that the
    numbers of commands wrap around and a pending request may be overwritten. *)

From S2P Require Import Prelude PubSubData PubSub PubSubFrame.

(** ** The invariant *)

(** Operations that a goroutine passes before it goes on connecting. *)
Definition transparent (x : op) : bool :=
  match x with OEmit _ _ | OMoveSubscribing _ _ _ => true | _ => false end.

(** Operations that carry on connecting, or give it up. *)
Definition is_driver (x : op) : bool :=
  match x with
  | OStartReconnecting | ODial _ _ _ | ORefreshToken _ | OSetToken _ _ | OInstall _ | ORearm _ _
  | OConnectCb _ _ | OConnectErr _ _ | OConnected _ _ | OMoveDisconnected _ _ => true
  | _ => false
  end.

Fixpoint drives (th : list op) : bool :=
  match th with
  | [] => false
  | x :: th => is_driver x || (transparent x && drives th)
  end.

(** The goroutine of [sendAsync] for the request [id]. *)
Definition awaits (id : Z) (th : list op) : Prop :=
  match th with
  | OAwaitStart id' :: _ | OAwait id' _ :: _ => id' = id
  | _ => False
  end.

(** Something that will take a connecting client further: a goroutine that
    connects, an armed timer, or a connect command whose answer or timeout is
    outstanding. *)
Inductive driver (w : world) : Prop :=
| dr_thread i th : w.(threads) !! i = Some th -> drives th = true -> driver w
| dr_timer id n : w.(timers) !! id = Some (TReconnect n) -> driver w
| dr_request id t i th :
    w.(cl).(requests) !! id = Some (CbConnect t) -> w.(threads) !! i = Some th -> awaits id th ->
    (forall th, th ∈ w.(threads) -> ORemove id ∉ th) -> driver w.

Definition ids_le (n : Z) (ths : list (list op)) : Prop :=
  forall th x id, th ∈ ths -> x ∈ th -> op_id x = Some id -> (id <= n)%Z.

(** What each state of the client excludes. *)
Record state_inv (c : Client) : Prop := {
  si_disconnected : c.(state) = StateDisconnected ->
    c.(transport) = None /\ c.(closeCh) = None /\ c.(reconnectTimer) = None /\ c.(refreshTimer) = None /\
    c.(connectFutures) = ∅;
  si_queue : c.(CBQueue) = false -> c.(state) = StateClosed
}.

(** Futures are numbered; each is either pending, with the goroutine of its
    timeout, or has been called once. *)
Record futures_inv (w : world) : Prop := {
  fi_id : (0 <= w.(cl).(futureID))%Z;
  fi_pending : forall id f, w.(cl).(connectFutures) !! id = Some f ->
    (0 < id <= w.(cl).(futureID))%Z /\ [OFutureWait id] ∈ w.(threads);
  fi_called : forall id, id ∈ w.(called) ->
    (0 < id <= w.(cl).(futureID))%Z /\ w.(cl).(connectFutures) !! id = None;
  fi_nodup : NoDup w.(called);
  fi_all : forall id, (0 < id <= w.(cl).(futureID))%Z ->
    is_Some (w.(cl).(connectFutures) !! id) \/ id ∈ w.(called)
}.

Record inv0 (w : world) : Prop := {
  iv_ok : ok w;
  iv_ids : ids_le w.(issued) w.(threads);
  iv_requests : forall id cb, w.(cl).(requests) !! id = Some cb -> (id <= w.(issued))%Z;
  iv_state : state_inv w.(cl);
  iv_futures : futures_inv w;
  iv_closing : forall th, th ∈ w.(threads) -> OCloseQueue ∈ th -> w.(cl).(state) = StateClosed
}.

Record inv (w : world) : Prop := {
  iv_0 : inv0 w;
  iv_driver : w.(cl).(state) = StateConnecting -> driver w
}.

(** The world in which goroutine [i] goes on with [ops]. *)
Definition resume (i : nat) (th : list op) (w : world) : world :=
  with_threads (<[i := th]> w.(threads)) w.

Lemma drives_app l k : drives l = true -> drives (l ++ k) = true.
Proof.
  induction l as [|x l IH]; simpl; [done|]. destruct (is_driver x); [done|].
  destruct (transparent x); simpl; [done|done].
Qed.

Lemma drives_transparent l k : forallb transparent l = true -> drives k = true -> drives (l ++ k) = true.
Proof.
  induction l as [|x l IH]; simpl; [done|]. intros [-> Hl]%andb_true_iff Hk.
  rewrite (IH Hl Hk). by rewrite orb_true_r.
Qed.

Lemma transparent_emit_if b sync evs : forallb transparent (emit_if b sync evs) = true.
Proof. by destruct b. Qed.

Lemma resume_elem i x rest th w new th0 :
  w.(threads) !! i = Some (x :: rest) ->
  th0 ∈ <[i := th]> (w.(threads) ++ new) -> th0 = th \/ th0 ∈ w.(threads) \/ th0 ∈ new.
Proof.
  intros Hi Hin. apply list_elem_of_lookup in Hin as [j Hj].
  destruct (decide (i = j)) as [<-|Hne].
  - rewrite list_lookup_insert_eq in Hj; [injection Hj as <-; by left|].
    apply lookup_lt_Some in Hi. rewrite length_app. lia.
  - rewrite list_lookup_insert_ne in Hj by done. right. rewrite <- elem_of_app.
    by eapply list_elem_of_lookup_2.
Qed.

Lemma resume_keeps i x rest th w new th0 :
  w.(threads) !! i = Some (x :: rest) -> th0 ∈ w.(threads) -> th0 <> x :: rest ->
  th0 ∈ <[i := th]> (w.(threads) ++ new).
Proof.
  intros Hi [j Hj]%list_elem_of_lookup Hne. apply (list_elem_of_lookup_2 _ j).
  rewrite list_lookup_insert_ne by congruence. by apply lookup_app_l_Some.
Qed.

Lemma ids_clean n th : clean th -> ids_le n [th].
Proof.
  intros Hc th' x id ->%list_elem_of_singleton Hx Hid. unfold clean in Hc. rewrite Forall_forall in Hc.
  specialize (Hc x Hx). by destruct x.
Qed.

Lemma ids_new w w' new : Forall (new_thread w w') new -> ids_le w'.(issued) new.
Proof.
  intros Hn th x id Hin Hx Hid. rewrite Forall_forall in Hn. destruct (Hn th Hin) as [Hc|(id' & -> & Hle)].
  - apply (ids_clean (issued w') th Hc th x id); [left|done..].
  - apply list_elem_of_singleton in Hx as ->. simplify_eq/=. lia.
Qed.

Lemma new_no_remove w w' new th id : Forall (new_thread w w') new -> th ∈ new -> ORemove id ∉ th.
Proof.
  intros Hn Hin Hr. rewrite Forall_forall in Hn. destruct (Hn th Hin) as [Hc|(id' & -> & Hle)].
  - unfold clean in Hc. rewrite Forall_forall in Hc. by specialize (Hc _ Hr).
  - by apply list_elem_of_singleton in Hr.
Qed.

Lemma new_plain w w' new th : Forall (new_thread w w') new -> th ∈ new -> OCloseQueue ∉ th.
Proof.
  intros Hn Hin Hr. rewrite Forall_forall in Hn. destruct (Hn th Hin) as [Hc|(id' & -> & Hle)].
  - unfold clean in Hc. rewrite Forall_forall in Hc. by specialize (Hc _ Hr).
  - by apply list_elem_of_singleton in Hr.
Qed.

(** A step that keeps [inv0]: what remains to be shown of the world [w1] after
    the operation [x] of goroutine [i]. *)
Lemma inv0_resume i x rest ops w w1 new :
  inv0 w -> w.(threads) !! i = Some (x :: rest) ->
  (w.(issued) <= w1.(issued))%Z -> ok w1 ->
  (forall id cb, w1.(cl).(requests) !! id = Some cb -> (id <= w1.(issued))%Z) ->
  state_inv w1.(cl) ->
  (w.(cl).(state) = StateClosed -> w1.(cl).(state) = StateClosed) ->
  w1.(threads) = w.(threads) ++ new -> Forall (new_thread w w1) new -> ids_le w1.(issued) [ops] ->
  (OCloseQueue ∈ ops -> w1.(cl).(state) = StateClosed) ->
  futures_inv (resume i (ops ++ rest) w1) ->
  inv0 (resume i (ops ++ rest) w1).
Proof.
  intros [Hok Hids Hreq Hst Hfut Hcl] Hi Hle Hok1 Hreq1 Hst1 Hclosed Hth Hn Hops Hcq Hfut1.
  pose proof (ids_new _ _ _ Hn) as Hnew. split.
  - by eapply ok_ext; [..|exact Hok1].
  - intros th y id Hin Hy Hid. simpl in *. rewrite Hth in Hin.
    destruct (resume_elem _ _ _ _ _ _ _ Hi Hin) as [-> |[Hw|Hn0]].
    + apply elem_of_app in Hy as [Hy|Hy]; [by eapply (Hops ops); [left|..]|].
      assert (id <= issued w)%Z; [|lia]. apply (Hids (x :: rest) y); [by eapply list_elem_of_lookup_2|by right|done].
    + assert (id <= issued w)%Z; [|lia]. by eapply Hids.
    + by eapply Hnew.
  - done.
  - done.
  - done.
  - intros th Hin Hc. simpl in *. rewrite Hth in Hin.
    destruct (resume_elem _ _ _ _ _ _ _ Hi Hin) as [-> |[Hw|Hn0]].
    + apply elem_of_app in Hc as [Hc|Hc]; [auto|]. apply Hclosed, (Hcl (x :: rest)); [|by right].
      by eapply list_elem_of_lookup_2.
    + by eapply Hclosed, Hcl.
    + by destruct (new_plain _ _ _ _ Hn Hn0 Hc).
Qed.

(** Futures are not concerned by an operation that keeps them. *)
Lemma futures_resume i x rest th w w1 new :
  futures_inv w -> w.(threads) !! i = Some (x :: rest) -> w1.(threads) = w.(threads) ++ new ->
  w1.(cl).(futureID) = w.(cl).(futureID) -> w1.(cl).(connectFutures) = w.(cl).(connectFutures) ->
  w1.(called) = w.(called) -> (forall id, x <> OFutureWait id) ->
  futures_inv (resume i th w1).
Proof.
  intros [H1 H2 H3 H4 H5] Hi Hth E1 E2 E3 Hx. split; simpl; rewrite ?E1, ?E2, ?E3; auto.
  intros id f Hf. destruct (H2 id f Hf) as [Hid Hin]. split; [done|]. rewrite Hth.
  eapply resume_keeps; [done..|]. intros [= <- _]. by eapply Hx.
Qed.

Lemma state_inv_core w w1 : core w1 = core w -> state_inv w.(cl) -> state_inv w1.(cl).
Proof.
  unfold core. intros Hc [H1 H2]. injection Hc as E1 E2 E3 E4 E5 E6 E7 E8 E9 E10.
  split; rewrite ?E1, ?E2, ?E3, ?E4, ?E6, ?E7, ?E8; done.
Qed.

(** [driver] survives a step of goroutine [i]. *)
Lemma driver_resume i x rest ops w w1 new :
  driver w -> w.(threads) !! i = Some (x :: rest) -> w1.(threads) = w.(threads) ++ new ->
  (forall id n, w.(timers) !! id = Some (TReconnect n) -> w1.(timers) !! id = Some (TReconnect n)) ->
  (forall id t, w.(cl).(requests) !! id = Some (CbConnect t) -> (forall th, th ∈ w.(threads) -> ORemove id ∉ th) ->
     w1.(cl).(requests) !! id = Some (CbConnect t)) ->
  (forall th id, th ∈ new -> ORemove id ∉ th) ->
  (drives (x :: rest) = true -> drives (ops ++ rest) = true) ->
  (forall id t, w.(cl).(requests) !! id = Some (CbConnect t) ->
     drives (ops ++ rest) = true \/
     ORemove id ∉ ops /\ (awaits id (x :: rest) -> awaits id (ops ++ rest))) ->
  driver (resume i (ops ++ rest) w1).
Proof.
  intros Hd Hi Hth Htm Hrq Hnew Hdr Haw.
  assert (Hin : <[i := ops ++ rest]> (threads w1) !! i = Some (ops ++ rest)).
  { apply list_lookup_insert_eq. rewrite Hth, length_app. apply lookup_lt_Some in Hi. lia. }
  assert (Hne : forall j th, i <> j -> threads w !! j = Some th -> <[i := ops ++ rest]> (threads w1) !! j = Some th).
  { intros j th ? Hj. rewrite list_lookup_insert_ne by done. rewrite Hth. by apply lookup_app_l_Some. }
  destruct Hd as [j th Hj Hdj|id n Ht|id t j th Hr Hj Ha Hno].
  - destruct (decide (i = j)) as [<-|Hij]; [|by eapply (dr_thread _ j th); [apply Hne|]].
    eapply (dr_thread _ i); [done|]. apply Hdr. congruence.
  - by eapply dr_timer, Htm.
  - assert (Hcase : drives (ops ++ rest) = true \/
      ORemove id ∉ ops /\ exists j th, <[i := ops ++ rest]> (threads w1) !! j = Some th /\ awaits id th).
    { destruct (Haw id t Hr) as [?|[Hops Hkeep]]; [by left|]. right. split; [done|].
      destruct (decide (i = j)) as [<-|Hij]; [|exists j, th; split; [by apply Hne|done]].
      rewrite Hi in Hj. injection Hj as <-. eauto. }
    destruct Hcase as [Hd|(Hops & j' & th' & Hj' & Ha')]; [by eapply (dr_thread _ i)|].
    eapply (dr_request _ id t j' th'); simpl; [by apply Hrq|done..|].
    intros th0 Hin0. rewrite Hth in Hin0. destruct (resume_elem _ _ _ _ _ _ _ Hi Hin0) as [-> |[Hw|Hn]].
    + rewrite not_elem_of_app. split; [done|]. intros Hr0.
      apply (Hno (x :: rest)); [by eapply list_elem_of_lookup_2|by right].
    + by apply Hno.
    + by apply Hnew.
Qed.

Lemma clean_no_close ops : clean ops -> OCloseQueue ∉ ops.
Proof. unfold clean. rewrite Forall_forall. intros Hc Hin. by specialize (Hc _ Hin). Qed.

Lemma clean_no_remove id ops : clean ops -> ORemove id ∉ ops.
Proof. unfold clean. rewrite Forall_forall. intros Hc Hin. by specialize (Hc _ Hin). Qed.

(** A framed operation keeps the invariant. *)
Lemma inv_framed i x rest ops w w1 :
  inv w -> w.(threads) !! i = Some (x :: rest) -> framed w w1 ->
  ids_le w1.(issued) [ops] -> OCloseQueue ∉ ops -> (w.(issued) <= w1.(issued))%Z ->
  (forall id, x <> OFutureWait id) ->
  (w.(cl).(state) = StateConnecting -> drives (x :: rest) = true -> drives (ops ++ rest) = true) ->
  (forall id t, w.(cl).(requests) !! id = Some (CbConnect t) ->
     drives (ops ++ rest) = true \/
     ORemove id ∉ ops /\ (awaits id (x :: rest) -> awaits id (ops ++ rest))) ->
  inv (resume i (ops ++ rest) w1).
Proof.
  intros [H0 Hd] Hi [Hok Hcore Hold Hnew (new & Hth & Hn) Htm] Hops Hcq Hle Hx Hdr Haw.
  pose proof Hcore as Hcore'. unfold core in Hcore'. injection Hcore' as E1 E2 E3 E4 E5 E6 E7 E8 E9 E10.
  split.
  - eapply inv0_resume; [done|done|done|done| | |congruence|exact Hth|done|done|done|].
    + intros id cb Hr. destruct (Hnew id cb Hr) as [Hr'|]; [|lia].
      assert (id <= issued w)%Z by by eapply iv_requests. lia.
    + eapply state_inv_core; [done|apply H0].
    + eapply futures_resume; [apply H0|done..].
  - simpl. intros Hst. rewrite E1 in Hst. eapply driver_resume; [by apply Hd|done|exact Hth|done| | |by apply Hdr|done].
    + intros id t Hr _. apply Hold; [|done]. by eapply iv_requests.
    + intros th id Hin. by eapply new_no_remove.
Qed.

Section Invariant.
Context (cfg : Config).

Lemma exec_drives o x w w1 ops rest :
  special x = false -> exec cfg o x w = Some (w1, ops) -> w.(cl).(state) = StateConnecting ->
  drives (x :: rest) = true -> drives (ops ++ rest) = true.
Proof.
  intros Hsp He Hst Hd. destruct x; try discriminate; simpl in Hd; unfold exec, with_sub in He;
    try (destruct (get_sub _ w) as [sub|]; [|by injection He as <- <-]).
  - injection He as <- <-. done.
  - unfold startReconnecting in He. simpl in He. rewrite decide_True in He by done. injection He as <- <-. done.
  - unfold dial, handleError, emit_if in He. simpl in He. repeat case_match; simplify_eq/=; done.
  - unfold refresh_for_connect, no_GetToken, handleError, emit_if in He. repeat case_match; simplify_eq/=; done.
  - unfold token_refreshed in He. rewrite decide_True in He by done. by injection He as <- <-.
  - unfold connect_cb, handleError, emit_if in He. rewrite decide_True in He by done.
    repeat case_match; simplify_eq/=; done.
  - unfold connect_err in He. injection He as <- <-. repeat case_match; done.
  - unfold moveToSubscribing in He. injection He as <- <-.
    apply drives_transparent; [apply transparent_emit_if|done].
Qed.

Lemma special_awaits x rest id : special x = false -> ~ awaits id (x :: rest).
Proof. destruct x; simpl; by auto. Qed.

Lemma inv_not_special o i x rest ops w w1 :
  inv w -> w.(threads) !! i = Some (x :: rest) -> special x = false ->
  exec cfg o x w = Some (w1, ops) -> (w1.(issued) < 2 ^ 32)%Z ->
  inv (resume i (ops ++ rest) w1).
Proof.
  intros Hinv Hi Hsp He Hlt. destruct (exec_frame cfg o x w w1 ops Hsp He) as [[Hle Hf] Hc].
  eapply inv_framed; [done|done|by apply Hf; [apply Hinv|]|by apply ids_clean|by apply clean_no_close|done| | |].
  - by intros id ->.
  - intros Hst. by eapply exec_drives.
  - intros id t _. right. split; [by apply clean_no_remove|]. intros Ha. by destruct (special_awaits x rest id Hsp).
Qed.

(** *** Requests *)

Lemma inv_skip i x rest ops w :
  inv w -> w.(threads) !! i = Some (x :: rest) -> ids_le w.(issued) [ops] -> OCloseQueue ∉ ops ->
  (forall id, x <> OFutureWait id) ->
  (w.(cl).(state) = StateConnecting -> drives (x :: rest) = true -> drives (ops ++ rest) = true) ->
  (forall id t, w.(cl).(requests) !! id = Some (CbConnect t) ->
     drives (ops ++ rest) = true \/
     ORemove id ∉ ops /\ (awaits id (x :: rest) -> awaits id (ops ++ rest))) ->
  inv (resume i (ops ++ rest) w).
Proof.
  intros Hinv Hi Hops Hcq Hx Hdr Haw. eapply inv_framed; [done..| |done|done|lia|done|done|done].
  split; [apply Hinv|done|done|by left| |done]. exists []. by rewrite app_nil_r.
Qed.

Lemma drives_callback t r rest : drives (run_callback (CbConnect t) r ++ rest) = true.
Proof. destruct r; simpl; unfold connect_reply; repeat case_match; done. Qed.

(** Answering a request: its callback, then its removal. *)
Definition answer (w : world) (id : Z) (r : Reply + gerr) : list op :=
  match w.(cl).(requests) !! id with
  | Some cb => run_callback cb r ++ [ORemove id]
  | None => [ORemove id]
  end.

Lemma ids_answer w id r : (id <= w.(issued))%Z -> ids_le w.(issued) [answer w id r].
Proof.
  intros Hle th x id' ->%list_elem_of_singleton Hx Hid. unfold answer in Hx.
  assert (Hcase : x = ORemove id \/ exists cb, x ∈ run_callback cb r).
  { destruct (requests (cl w) !! id) as [cb|]; [apply elem_of_app in Hx as [Hx|Hx]; [eauto|]|];
      apply list_elem_of_singleton in Hx; by left. }
  destruct Hcase as [-> |[cb Hcb]]; [by simplify_eq/=|].
  pose proof (clean_run_callback cb r) as Hc. unfold clean in Hc. rewrite Forall_forall in Hc.
  specialize (Hc x Hcb). by destruct x.
Qed.

Lemma close_answer w id r : OCloseQueue ∉ answer w id r.
Proof.
  unfold answer. destruct (requests (cl w) !! id) as [cb|]; [rewrite not_elem_of_app; split|].
  - apply clean_no_close, clean_run_callback.
  - by intros ?%list_elem_of_singleton.
  - by intros ?%list_elem_of_singleton.
Qed.

Lemma answer_drives w id r rest id' t :
  w.(cl).(requests) !! id' = Some (CbConnect t) ->
  drives (answer w id r ++ rest) = true \/ ORemove id' ∉ answer w id r /\ id' <> id.
Proof.
  intros Hr. unfold answer. destruct (decide (id' = id)) as [-> |Hne].
  - rewrite Hr, <- app_assoc. left. apply drives_callback.
  - right. split; [|done]. destruct (requests (cl w) !! id) as [cb|].
    + rewrite not_elem_of_app. split; [apply clean_no_remove, clean_run_callback|].
      intros Hin%list_elem_of_singleton. congruence.
    + intros Hin%list_elem_of_singleton. congruence.
Qed.

Lemma inv_remove i id rest w :
  inv w -> w.(threads) !! i = Some (ORemove id :: rest) -> inv (resume i rest (removeRequest id w)).
Proof.
  intros [H0 Hd] Hi. change rest with ([] ++ rest). split.
  - eapply (inv0_resume i _ rest [] w (removeRequest id w) []); [done|done|done| | |by eapply (state_inv_core w); [|apply H0]|done| |done|apply ids_clean, clean_nil|by intros ?%elem_of_nil|].
    + eapply ok_ext; [..|apply H0]; done.
    + simpl. intros id' cb [_ Hl]%lookup_delete_Some. by eapply iv_requests.
    + simpl. by rewrite app_nil_r.
    + eapply (futures_resume i _ rest _ w _ []); [apply H0|done|simpl; by rewrite app_nil_r|done..].
  - simpl. intros Hst. eapply (driver_resume i _ rest [] w (removeRequest id w) []);
      [by apply Hd|done|simpl; by rewrite app_nil_r|done| |by intros ? ? ?%elem_of_nil|done|].
    + simpl. intros id' t Hr Hno. rewrite lookup_delete_ne; [done|]. intros <-.
      apply (Hno (ORemove id :: rest)); [by eapply list_elem_of_lookup_2|left].
    + intros id' t Hr. right. split; [apply not_elem_of_nil|done].
Qed.

(** *** Timers *)

Lemma ok_AfterFunc k f w :
  ok w ->
  (forall id c, (f id c).(cmdID) = c.(cmdID) /\
     ((f id c).(reconnectTimer) = c.(reconnectTimer) \/ (f id c).(reconnectTimer) = Some id /\ is_reconnect k) /\
     ((f id c).(refreshTimer) = c.(refreshTimer) \/ (f id c).(refreshTimer) = Some id /\ is_refresh k)) ->
  ok (let '(id, w) := AfterFunc k w in on_cl (f id) w).
Proof.
  intros [H1 H2 [Hfr Hr Hrf Hs]] Hf. simpl.
  set (w' := on_cl _ _).
  assert (Hext : forall ref P, points_to w ref P -> points_to w' ref P).
  { intros [id|] P; simpl; [|done]. intros [Hid Hp]. split; [lia|]. intros k'.
    rewrite lookup_insert_ne by lia. apply Hp. }
  assert (Hnew : forall P : timer -> Prop, P k -> points_to w' (Some (fresh w)) P).
  { intros P HP. simpl. split; [lia|]. rewrite lookup_insert_eq. by intros ? [= <-]. }
  destruct (Hf (fresh w) (cl w)) as (Hc & Hr' & Hrf').
  split; [done|by unfold w'; simpl; rewrite Hc|]. split; simpl.
  - intros id k' [[<- <-]|[? Hl%Hfr]]%lookup_insert_Some; lia.
  - destruct Hr' as [-> |[-> ?]]; auto.
  - destruct Hrf' as [-> |[-> ?]]; auto.
  - intros s sub Hw. destruct (Hs _ _ Hw). auto.
Qed.

Lemma ok_schedule_reconnect w : ok w -> ok (schedule_reconnect w).
Proof.
  intros Hok. apply (ok_AfterFunc (TReconnect (reconnectAttempts (cl w) + 1))
    (fun id c => set_reconnectTimer (Some id) (set_reconnectAttempts (reconnectAttempts (cl w) + 1) c)) w Hok).
  intros id c. simpl. split_and!; [done|right|left]; done.
Qed.

Lemma ok_schedule_refresh n w : ok w -> ok (schedule_refresh n w).
Proof.
  intros Hok. apply (ok_AfterFunc (TRefresh n) (fun id c => set_refreshTimer (Some id) c) w Hok).
  intros id c. simpl. split_and!; [done|left|right]; done.
Qed.

End Invariant.

(** *** Operations that change the connection *)

Lemma inv_change i x rest ops w w1 new :
  inv w -> w.(threads) !! i = Some (x :: rest) ->
  ok w1 -> (w.(issued) <= w1.(issued))%Z ->
  (forall id cb, w1.(cl).(requests) !! id = Some cb ->
     w.(cl).(requests) !! id = Some cb \/ (id <= w1.(issued))%Z) ->
  state_inv w1.(cl) -> (w.(cl).(state) = StateClosed -> w1.(cl).(state) = StateClosed) ->
  w1.(threads) = w.(threads) ++ new -> Forall (new_thread w w1) new ->
  (w1.(cl).(state) = StateClosed \/ OCloseQueue ∉ ops) -> ids_le w1.(issued) [ops] ->
  w1.(cl).(futureID) = w.(cl).(futureID) -> w1.(cl).(connectFutures) = w.(cl).(connectFutures) ->
  w1.(called) = w.(called) -> (forall id, x <> OFutureWait id) ->
  (w1.(cl).(state) = StateConnecting -> driver (resume i (ops ++ rest) w1)) ->
  inv (resume i (ops ++ rest) w1).
Proof.
  intros [H0 Hd] Hi Hok Hle Hreq Hst Hcl Hth Hn Hops Hids E1 E2 E3 Hx Hdr. split; [|done].
  eapply inv0_resume; [done|done|done|done| |done|done|exact Hth|done|done| |].
  - intros id cb Hr. destruct (Hreq id cb Hr) as [Hr'|]; [|done].
    assert (id <= issued w)%Z by by eapply iv_requests. lia.
  - intros Hin. by destruct Hops as [?|Hc].
  - eapply futures_resume; [apply H0|done..].
Qed.

Lemma inv_change_clean i x rest ops w w1 new :
  inv w -> w.(threads) !! i = Some (x :: rest) ->
  ok w1 -> (w.(issued) <= w1.(issued))%Z ->
  (forall id cb, w1.(cl).(requests) !! id = Some cb ->
     w.(cl).(requests) !! id = Some cb \/ (id <= w1.(issued))%Z) ->
  state_inv w1.(cl) -> (w.(cl).(state) = StateClosed -> w1.(cl).(state) = StateClosed) ->
  w1.(threads) = w.(threads) ++ new -> Forall (new_thread w w1) new -> clean ops ->
  w1.(cl).(futureID) = w.(cl).(futureID) -> w1.(cl).(connectFutures) = w.(cl).(connectFutures) ->
  w1.(called) = w.(called) -> (forall id, x <> OFutureWait id) ->
  (w1.(cl).(state) = StateConnecting -> driver (resume i (ops ++ rest) w1)) ->
  inv (resume i (ops ++ rest) w1).
Proof. intros. eapply inv_change; try done; [right; by apply clean_no_close|by apply ids_clean]. Qed.

(** Lists that end by releasing the lock. *)
Lemma no_close_unlock l : clean l -> OCloseQueue ∉ l ++ [OUnlock].
Proof.
  intros Hc. rewrite not_elem_of_app. split; [by apply clean_no_close|]. by intros ?%list_elem_of_singleton.
Qed.

Lemma no_remove_unlock id l : clean l -> ORemove id ∉ l ++ [OUnlock].
Proof.
  intros Hc. rewrite not_elem_of_app. split; [by apply clean_no_remove|]. by intros ?%list_elem_of_singleton.
Qed.

Lemma ids_unlock n l : clean l -> ids_le n [l ++ [OUnlock]].
Proof.
  intros Hc th x id ->%list_elem_of_singleton [Hx| ->%list_elem_of_singleton]%elem_of_app Hid; [|done].
  by eapply (ids_clean n l Hc l); [left|..].
Qed.

Lemma resume_lookup i x rest th w w1 new :
  w.(threads) !! i = Some (x :: rest) -> w1.(threads) = w.(threads) ++ new ->
  (resume i th w1).(threads) !! i = Some th.
Proof.
  intros Hi Hth. simpl. apply list_lookup_insert_eq. rewrite Hth, length_app.
  apply lookup_lt_Some in Hi. lia.
Qed.

Lemma driver_ops i x rest ops w w1 new :
  w.(threads) !! i = Some (x :: rest) -> w1.(threads) = w.(threads) ++ new ->
  drives ops = true -> driver (resume i (ops ++ rest) w1).
Proof.
  intros Hi Hth Hd. eapply (dr_thread _ i); [by eapply resume_lookup|by apply drives_app].
Qed.

Lemma driver_schedule i th w : driver (resume i th (schedule_reconnect w)).
Proof. eapply (dr_timer _ (fresh w)). simpl. by rewrite lookup_insert_eq. Qed.

Ltac skip_op Hinv Hi :=
  eapply inv_skip; [exact Hinv|exact Hi|apply ids_clean; by auto with pubsub|apply clean_no_close; by auto with pubsub|done|done|];
  intros ? ? _; right; split; [apply clean_no_remove; by auto with pubsub|by intros []].

Section Special.
Context (cfg : Config).
Context (i : nat) (rest : list op) (w : world) (Hinv : inv w) (Hlt : (w.(issued) < 2 ^ 32)%Z).

Lemma inv_startConnecting w1 ops :
  w.(threads) !! i = Some (OStartConnecting :: rest) -> startConnecting cfg w = (w1, ops) ->
  inv (resume i (ops ++ rest) w1).
Proof.
  intros Hi. unfold startConnecting.
  destruct (state (cl w)) eqn:Hst; try (intros [= <- <-]; skip_op Hinv Hi).
  destruct (iv_state _ (iv_0 _ Hinv)) as [Hd Hq]. destruct (Hd Hst) as (Ht & Hc & Hr & Hrf & _).
  rewrite Hc. intros [= <- <-].
  eapply (inv_change_clean i OStartConnecting rest _ w _ []);
    [done|done| |done|by left| |congruence|by rewrite app_nil_r|done|auto with pubsub|done..|].
  - eapply ok_ext; [..|apply Hinv]; try done. simpl. lia.
  - split; simpl; [done|]. intros Hb. by rewrite (Hq Hb) in Hst.
  - intros _. eapply (driver_ops i _ _ _ w _ []); [done|by rewrite app_nil_r|].
    apply drives_transparent; [apply transparent_emit_if|done].
Qed.

Lemma inv_rearm t refresh :
  w.(threads) !! i = Some (ORearm t refresh :: rest) -> inv (resume i rest (rearm t refresh w)).
Proof.
  intros Hi. change rest with ([] ++ rest). unfold rearm. case_decide as Hst.
  - set (w0 := if refresh then _ else _).
    assert (E : ok w0 /\ core w0 = core w /\ requests (cl w0) = requests (cl w) /\ issued w0 = issued w /\
      threads w0 = threads w /\ state (cl w0) = StateConnecting).
    { unfold w0. destruct refresh; split_and!; try done; [|apply Hinv]. eapply ok_ext; [..|apply Hinv]; done. }
    clearbody w0. destruct E as (Hok & Hc & Hr & Hiss & Hth & Hst0).
    pose proof (state_inv_core _ _ Hc (iv_state _ (iv_0 _ Hinv))) as [Ha Hd].
    unfold core in Hc. injection Hc as E1 E2 E3 E4 E5 E6 E7 E8 E9 E10.
    eapply (inv_change_clean i (ORearm t refresh) rest [] w _ []);
      [done|done|by apply ok_schedule_reconnect|simpl; lia| | |simpl; congruence|simpl; by rewrite app_nil_r|done|apply clean_nil|done..|].
    + simpl. rewrite Hr. by left.
    + split; simpl; [congruence|]. intros Hq. by rewrite (Hd Hq) in Hst0.
    + intros _. apply driver_schedule.
  - destruct t as [t|]; [|skip_op Hinv Hi].
    eapply inv_framed; [done|done|apply (frame_close_transport t w); [apply Hinv|done]|apply ids_clean, clean_nil|apply not_elem_of_nil|done..|].
    intros ? ? _. right. split; [apply not_elem_of_nil|done].
Qed.

Lemma sendAsync_ok o cmd cb w0 w1 :
  ok w0 -> (w0.(issued) + 1 < 2 ^ 32)%Z -> sendAsync o cmd cb w0 = (w1, None) ->
  let id := (w0.(issued) + 1)%Z in
  w1.(cl).(requests) !! id = Some cb /\ w1.(threads) = w0.(threads) ++ [[OAwaitStart id]] /\ w1.(issued) = id.
Proof.
  intros Hok Hb. destruct (nextCmdID_spec w0 Hok Hb) as [Hid _]. unfold sendAsync.
  destruct (nextCmdID w0) as [id w0'] eqn:En. simpl in Hid. subst id.
  assert (Hw : w0' = (nextCmdID w0).2) by by rewrite En. subst w0'.
  unfold send. simpl. destruct (transport (cl w0)); [|done]. destruct (o_write o _); [|done].
  intros [= <-]. simpl.
  split_and!; [by rewrite lookup_insert_eq|done|done].
Qed.

Lemma sendAsync_issued o cmd cb w0 : issued (sendAsync o cmd cb w0).1 = (issued w0 + 1)%Z.
Proof. unfold sendAsync, send, nextCmdID. repeat case_match; by simplify_eq/=. Qed.

(** The world in which the connect command is sent, and after it. *)
Definition installing (t : nat) : world :=
  spawn [OReader t] (on_cl (fun c => set_transport (Some t) (set_refreshRequired false c)) w).

Record sent (w2 : world) : Prop := {
  sn_ok : ok w2;
  sn_requests : forall id cb, w2.(cl).(requests) !! id = Some cb ->
    w.(cl).(requests) !! id = Some cb \/ (id <= w2.(issued))%Z;
  sn_state : state_inv w2.(cl);
  sn_connecting : w2.(cl).(state) = StateConnecting;
  sn_threads : exists new, w2.(threads) = w.(threads) ++ new /\ Forall (new_thread w w2) new;
  sn_futureID : w2.(cl).(futureID) = w.(cl).(futureID);
  sn_futures : w2.(cl).(connectFutures) = w.(cl).(connectFutures);
  sn_called : w2.(called) = w.(called)
}.

Lemma ok_installing t : ok (installing t).
Proof using Hinv. eapply ok_ext; [..|apply Hinv]; done. Qed.

Lemma installing_sent t w2 :
  w.(cl).(state) = StateConnecting -> frame (installing t) w2 -> (w2.(issued) < 2 ^ 32)%Z -> sent w2.
Proof.
  intros Hst [Hle Hf] Hb. destruct (Hf (ok_installing t) Hb) as [Hok2 Hcore Hold Hnew (new & Hth & Hn) Htm].
  pose proof (iv_state _ (iv_0 _ Hinv)) as [_ Hq].
  unfold core in Hcore. injection Hcore as E1 E2 E3 E4 E5 E6 E7 E8 E9 E10. simpl in *.
  split; [done| | |congruence| |done..].
  - intros id cb Hr. destruct (Hnew id cb Hr) as [?|[_ ?]]; [by left|by right].
  - split; [congruence|]. rewrite E6. intros Hb0. by rewrite (Hq Hb0) in Hst.
  - exists ([OReader t] :: new). split; [rewrite Hth; unfold installing; simpl; by rewrite <- app_assoc|].
    constructor; [left; by repeat constructor|exact Hn].
Qed.

(** The driver that a connect command is. *)
Lemma driver_sent t w2 new id :
  w.(threads) !! i = Some (OInstall t :: rest) -> w2.(threads) = w.(threads) ++ new ->
  Forall (new_thread w w2) new -> [OAwaitStart id] ∈ new -> (w.(issued) < id)%Z ->
  w2.(cl).(requests) !! id = Some (CbConnect t) ->
  driver (resume i ([] ++ rest) w2).
Proof.
  intros Hi Hth Hn Hin Hid Hr. apply list_elem_of_lookup in Hin as [j Hj].
  eapply (dr_request _ id t (length (threads w) + j) [OAwaitStart id]); [exact Hr| |done|].
  - simpl. apply lookup_lt_Some in Hi as Hl. rewrite list_lookup_insert_ne by lia.
    rewrite Hth, lookup_app_r by lia. by replace (length (threads w) + j - length (threads w)) with j by lia.
  - intros th Hin Hrm. simpl in Hin. rewrite Hth in Hin.
    assert (Hids := iv_ids _ (iv_0 _ Hinv)).
    destruct (resume_elem _ _ _ _ _ _ _ Hi Hin) as [-> |[Hw|Hn0]].
    + assert (id <= issued w)%Z; [|lia].
      eapply (Hids _ _ _ (list_elem_of_lookup_2 _ _ _ Hi)); [right; exact Hrm|done].
    + assert (id <= issued w)%Z; [|lia]. by eapply (Hids th).
    + by eapply (new_no_remove w w2 new).
Qed.

Lemma inv_install o t w1 ops :
  w.(threads) !! i = Some (OInstall t :: rest) -> install cfg o t w = (w1, ops) ->
  (w1.(issued) < 2 ^ 32)%Z -> inv (resume i (ops ++ rest) w1).
Proof.
  intros Hi. unfold install, install_failed. case_decide as Hst.
  2:{ intros [= <- <-] _. eapply inv_framed;
        [done|done|apply (frame_close_transport t w); [apply Hinv|done]|apply ids_clean, clean_nil|apply not_elem_of_nil|done..|].
      intros ? ? _. right. split; [apply not_elem_of_nil|done]. }
  fold (installing t). set (cmd := CmdConnect _ _ _).
  pose proof (frame_sendAsync o cmd (CbConnect t) (installing t)) as Hf.
  pose proof (sendAsync_ok o cmd (CbConnect t) (installing t)) as Hsok.
  pose proof (sendAsync_issued o cmd (CbConnect t) (installing t)) as His.
  destruct (sendAsync _ _ _ _) as [w2 err]. simpl in Hf, His. intros Hres Hb.
  assert (Hw1 : issued w1 = issued w2) by (repeat case_match; by simplify_eq/=).
  destruct (installing_sent t w2 Hst Hf) as [Hok Hreq Hs Hcon (new & Hth & Hn) F1 F2 F3]; [lia|].
  destruct err as [e|].
  - set (w3 := schedule_reconnect (close_transport t w2)) in Hres.
    assert (Hok3 : ok w3) by (apply ok_schedule_reconnect; by eapply ok_ext; [..|exact Hok]).
    assert (Hcase : (OCloseQueue ∉ ops /\ forall n, ids_le n [ops]) /\ cl w1 = cl w3 /\ threads w1 = threads w2 /\ timers w1 = timers w3 /\
      ok w1 /\ called w1 = called w2).
    { destruct (onError (cfg_handlers cfg)); injection Hres as <- <-; split_and!; try done.
      - apply no_close_unlock. auto with pubsub.
      - intros n. apply ids_unlock. auto with pubsub.
      - by eapply ok_ext; [..|exact Hok3].
      - apply not_elem_of_nil.
      - intros n. apply ids_clean, clean_nil. }
    destruct Hcase as ([Hcq Hids] & Hcl & Hth1 & Htm1 & Hok1 & Hca).
    eapply (inv_change i (OInstall t) rest ops w w1 new);
      [done|done|done|lia|by rewrite Hcl, Hw1| |congruence|congruence| |by right|done|by rewrite Hcl|by rewrite Hcl|congruence|done|].
    + rewrite Hcl. destruct Hs as [S1 S2]. split; simpl; [congruence|done].
    + eapply Forall_impl; [exact Hn|]. intros th [?|(id & -> & ?)]; [by left|right]. exists id. by rewrite Hw1.
    + intros _. eapply (dr_timer _ (fresh w2)). simpl. rewrite Htm1. simpl. by rewrite lookup_insert_eq.
  - injection Hres as <- <-. destruct (Hsok w2 (ok_installing t)) as (Hr & Ht2 & Hi2); [unfold installing; simpl; lia|done|].
    eapply (inv_change_clean i (OInstall t) rest [] w w2 new);
      [done|done|done|lia|done|done|congruence|done|done|apply clean_nil|done..|].
    intros _. eapply (driver_sent t w2 new _ Hi Hth Hn _ _ Hr). Unshelve.
    + rewrite Ht2 in Hth. unfold installing in Hth. simpl in Hth. rewrite <- app_assoc in Hth.
      apply app_inv_head in Hth as <-. simpl. right. left.
    + unfold installing. simpl. lia.
Qed.
End Special.

(** *** Leaving, closing, connected *)

(** All pending futures have been called. *)
Lemma futures_resolved order w w' :
  futures_inv w -> order ≡ₚ (map_to_list w.(cl).(connectFutures)).*1 ->
  w'.(cl).(futureID) = w.(cl).(futureID) -> w'.(cl).(connectFutures) = ∅ ->
  w'.(called) = w.(called) ++ order -> futures_inv w'.
Proof.
  intros [H1 H2 H3 H4 H5] Hp E1 E2 E3.
  assert (Ho : forall id, id ∈ order <-> is_Some (connectFutures (cl w) !! id)).
  { intros id. rewrite Hp. apply elem_of_map_keys. }
  split; rewrite ?E1, ?E2, ?E3; [done| | | |].
  - intros id f. by rewrite lookup_empty.
  - intros id [Hid|Hid]%elem_of_app; (split; [|done]); [by apply H3|]. apply Ho in Hid as [f Hf]. by apply (H2 id f).
  - apply NoDup_app. split_and!; [done| |rewrite Hp; apply NoDup_fst_map_to_list].
    intros id Hid [f Hf]%Ho. destruct (H3 id Hid). congruence.
  - intros id Hid. right. apply elem_of_app. destruct (H5 id Hid) as [?|?]; [right; by apply Ho|by left].
Qed.

Lemma transparent_moves (l : list nat) k :
  drives k = true ->
  drives (((fun s => OMoveSubscribing s subscribingTransportClosed "transport closed") <$> l) ++ k) = true.
Proof. intros Hk. apply drives_transparent; [|done]. by induction l. Qed.

Section Special2.
Context (cfg : Config).
Context (i : nat) (rest : list op) (w : world) (Hinv : inv w) (Hlt : (w.(issued) < 2 ^ 32)%Z).

Lemma inv_left o st x w1 ops :
  w.(threads) !! i = Some (x :: rest) -> left o st w w1 -> (w1.(issued) < 2 ^ 32)%Z ->
  st = StateDisconnected \/ st = StateConnecting /\ drives ops = true ->
  w.(cl).(state) <> StateClosed -> clean ops ->
  inv (resume i (ops ++ rest) w1).
Proof.
  intros Hi Hl Hb Hcase Hnc Hc. assert (Hok : ok w) by apply Hinv.
  destruct (lf_threads _ _ _ _ Hl Hok Hb) as (new & Hth & Hn).
  pose proof (lf_state _ _ _ _ Hl Hok Hb) as Hcore. unfold core in Hcore.
  injection Hcore as E1 E2 E3 E4 E5 E6 E7 E8 E9 E10. split.
  - eapply (inv0_resume i x rest ops w w1 new);
      [apply Hinv|done|apply Hl|by apply Hl| | |done|done|done|by apply ids_clean|by intros ?%clean_no_close|].
    + intros id cb Hr. by apply (lf_requests _ _ _ _ Hl id cb Hok Hb) in Hr as [_ ?].
    + split; [done|]. rewrite E6. intros Hq. by destruct Hnc; apply (si_queue _ (iv_state _ (iv_0 _ Hinv))).
    + eapply (futures_resolved _ w); [apply Hinv|apply Hl|done..].
  - simpl. intros Hst. destruct Hcase as [-> |[-> Hd]]; [congruence|]. by eapply driver_ops.
Qed.

Lemma inv_moveToDisconnected o code reason w1 ops :
  w.(threads) !! i = Some (OMoveDisconnected code reason :: rest) ->
  moveToDisconnected cfg o code reason w = Some (w1, ops) -> (w1.(issued) < 2 ^ 32)%Z ->
  inv (resume i (ops ++ rest) w1).
Proof.
  intros Hi. unfold moveToDisconnected.
  destruct (state (cl w)) eqn:Hst;
    try (intros [= <- <-] Hb; eapply inv_skip;
      [done|done|apply ids_clean, clean_nil|apply not_elem_of_nil|done|congruence|];
      intros ? ? _; right; split; [apply not_elem_of_nil|by intros []]).
  all: destruct (leave_connection _ _ _) as [w2|] eqn:El; [|done]; intros [= <- <-] Hb;
    eapply (inv_left o StateDisconnected); [done|by apply leave_connection_spec|done|by left|congruence|auto 7 with pubsub].
Qed.

Lemma inv_moveToConnecting o code reason w1 ops :
  w.(threads) !! i = Some (OMoveConnecting code reason :: rest) ->
  moveToConnecting cfg o code reason w = Some (w1, ops) -> (w1.(issued) < 2 ^ 32)%Z ->
  inv (resume i (ops ++ rest) w1).
Proof.
  intros Hi. unfold moveToConnecting.
  destruct (state (cl w)) eqn:Hst; try (intros [= <- <-] Hb; skip_op Hinv Hi).
  destruct (leave_connection _ _ _) as [w2|] eqn:El; [|done]. intros [= <- <-] Hb.
  eapply (inv_left o StateConnecting); [done|by apply leave_connection_spec|done| |congruence|auto 8 with pubsub].
  right. split; [done|]. apply transparent_moves.
  by repeat (apply drives_transparent; [apply transparent_emit_if|]).
Qed.

Lemma inv_moveToClosed o w1 ops :
  w.(threads) !! i = Some (OMoveClosed :: rest) -> moveToClosed cfg o w = Some (w1, ops) ->
  inv (resume i (ops ++ rest) w1).
Proof.
  intros Hi. unfold moveToClosed. case_decide as Hst; [intros [= <- <-]; skip_op Hinv Hi|].
  case_match; [|done]. intros [= <- <-].
  eapply (inv_change i OMoveClosed rest _ w _ []);
    [done|done| |done|by left| |done|simpl; by rewrite app_nil_r|done|by left| |done..].
  - eapply ok_ext; [..|apply Hinv]; done.
  - by split.
  - rewrite app_assoc. intros th x id ->%list_elem_of_singleton [Hx| ->%list_elem_of_singleton]%elem_of_app Hid; [|done].
    eapply (ids_clean _ _ _ _ x id (list_elem_of_here _ _) Hx Hid). Unshelve. auto with pubsub.
Qed.

Lemma inv_closeQueue :
  w.(threads) !! i = Some (OCloseQueue :: rest) ->
  inv (resume i rest (if w.(cl).(CBQueue) then on_cl (set_CBQueue false) w else crash w)).
Proof.
  intros Hi. assert (Hst : state (cl w) = StateClosed).
  { eapply iv_closing; [apply Hinv|by eapply list_elem_of_lookup_2|left]. }
  change rest with ([] ++ rest). destruct (CBQueue (cl w)).
  - eapply (inv_change_clean i OCloseQueue rest _ w _ []);
      [done|done| |done|by left| |done|simpl; by rewrite app_nil_r|done|auto with pubsub|done|done|done|done|simpl; by rewrite Hst].
    + eapply ok_ext; [..|apply Hinv]; done.
    + split; simpl; by rewrite ?Hst.
  - eapply inv_framed; [done|done|apply (frame_crash w); [apply Hinv|done]|apply ids_clean, clean_nil|apply not_elem_of_nil|done..|].
    intros ? ? _. right. split; [apply not_elem_of_nil|done].
Qed.

Lemma clean_connected_ops order subs (res : ConnectResult) t :
  clean (emit_if (onConnected (cfg_handlers cfg)) true [EvConnected (cr_Client res) (cr_Data res)] ++
         connected_subs cfg order subs ++ [OServerUnsubs subs; OConnectedTail t (cr_Ping res)]).
Proof.
  apply clean_app; [auto with pubsub|]. apply clean_app; [|auto with pubsub].
  apply clean_bind. intros ch. case_match; [|auto with pubsub].
  apply clean_cons; [done|]. apply clean_app; [auto with pubsub|]. case_match; auto with pubsub.
Qed.

(** The connect command is answered. *)
Lemma inv_connected o t res w1 ops :
  w.(threads) !! i = Some (OConnected t res :: rest) ->
  connected cfg o t res w = Some (w1, ops) -> (w1.(issued) < 2 ^ 32)%Z ->
  inv (resume i (ops ++ rest) w1).
Proof.
  intros Hi. unfold connected. case_decide as Hst.
  2:{ intros [= <- <-] Hb. eapply inv_framed;
        [done|done|by apply (frame_close_transport t w); [apply Hinv|]|apply ids_clean, clean_nil|apply not_elem_of_nil|done..|].
      intros ? ? _. right. split; [apply not_elem_of_nil|done]. }
  destruct res as [res|].
  2:{ intros [= <- <-] Hb.
      eapply (inv_change_clean i (OConnected t None) rest [] w _ []);
        [done|done|by eapply ok_ext; [..|apply Hinv]|done|by left| |simpl; congruence|simpl; by rewrite app_nil_r
        |done|auto with pubsub|done..].
      split; simpl; [done|]. intros Hq. by rewrite (si_queue _ (iv_state _ (iv_0 _ Hinv)) Hq) in Hst. }
  set (wa := on_cl (set_state StateConnected) w).
  set (wb := if cr_Expires res then _ else _).
  assert (Hwb : ok wb /\ issued wb = issued w /\ threads wb = threads w /\ called wb = called w /\
    requests (cl wb) = requests (cl w) /\ state (cl wb) = StateConnected /\ CBQueue (cl wb) = CBQueue (cl w) /\
    connectFutures (cl wb) = connectFutures (cl w) /\ futureID (cl wb) = futureID (cl w)).
  { assert (ok wa) by (eapply ok_ext; [..|apply Hinv]; done).
    unfold wb. destruct (cr_Expires res); split_and!; try done. by apply ok_schedule_refresh. }
  clearbody wb. destruct Hwb as (Hok & Ei & Et & Ec & Er & Es & Eq & Ef & Eid).
  case_match; [|done]. destruct (resolveConnectFutures _ _ _) as [w2|] eqn:Hres; [|done]. intros [= <- <-] Hb.
  apply resolveConnectFutures_spec in Hres as (Hord & w3 & [Hle Hf] & ->). simpl in Hb, Hle.
  destruct Hf as [Hok3 Hcore Hold Hnew (new & Hth & Hn) Htm]; [by eapply ok_ext; [..|exact Hok]|done|].
  unfold core in Hcore. injection Hcore as E1 E2 E3 E4 E5 E6 E7 E8 E9 E10. simpl in *.
  pose proof (iv_state _ (iv_0 _ Hinv)) as [S1 S3].
  split; [|simpl; congruence].
  eapply (inv0_resume i _ rest _ w _ new);
    [apply Hinv|done|simpl; lia|by eapply ok_ext; [..|exact Hok3]| | |simpl; congruence|simpl; congruence
    | |apply ids_clean|intros Hc; exfalso; revert Hc; apply clean_no_close|].
  - simpl. intros id cb Hr. destruct (Hnew id cb Hr) as [Hr'|]; [|lia]. simpl in Hr'. rewrite Er in Hr'.
    pose proof (iv_requests _ (iv_0 _ Hinv) _ _ Hr'). lia.
  - split; simpl; [congruence|]. rewrite E6, Eq. intros Hq. by rewrite (S3 Hq) in Hst.
  - eapply Forall_impl; [exact Hn|]. intros th [?|(id & -> & ?)]; [by left|right]. exists id. simpl in *.
    split; [done|]. lia.
  - apply clean_connected_ops.
  - apply clean_connected_ops.
  - eapply (futures_resolved _ w); [apply Hinv|by rewrite Ef in Hord|simpl; congruence|done|simpl; congruence].
Qed.

Lemma inv_refresh x n :
  w.(threads) !! i = Some (x :: rest) -> (forall id, x <> OFutureWait id) ->
  is_driver x = false -> transparent x = false -> (forall id, ~ awaits id (x :: rest)) ->
  inv (resume i rest (if_connected (schedule_refresh n) w)).
Proof.
  intros Hi Hx Hd Ht Ha. change rest with ([] ++ rest). unfold if_connected. case_decide as Hst.
  - eapply (inv_change_clean i x rest [] w _ []);
      [done|done|apply ok_schedule_refresh, Hinv|done|by left| |done|simpl; by rewrite app_nil_r|done|auto with pubsub
      |done|done|done|done|simpl; congruence].
    simpl. destruct (iv_state _ (iv_0 _ Hinv)) as [S1 S2]. split; simpl; [congruence|done].
  - eapply inv_skip; [done|done|apply ids_clean, clean_nil|apply not_elem_of_nil|done|simpl; by rewrite Hd, Ht|].
    intros id t _. right. split; [apply not_elem_of_nil|]. by intros ?%Ha.
Qed.

End Special2.

(** *** Futures *)

Lemma futures_add i x rest th f w w1 :
  let id := (w.(cl).(futureID) + 1)%Z in
  futures_inv w -> w.(threads) !! i = Some (x :: rest) -> (forall id, x <> OFutureWait id) ->
  w1.(threads) = w.(threads) ++ [[OFutureWait id]] -> w1.(cl).(futureID) = id ->
  w1.(cl).(connectFutures) = <[id := f]> w.(cl).(connectFutures) -> w1.(called) = w.(called) ->
  futures_inv (resume i th w1).
Proof.
  intros id [F1 F2 F3 F4 F5] Hi Hx Hth E1 E2 E3.
  split; simpl; rewrite ?E1, ?E2, ?E3; [unfold id; lia| | |done|].
  - intros id' f' [[<- <-]|[Hne Hf]]%lookup_insert_Some; rewrite Hth.
    + split; [unfold id; lia|]. apply (list_elem_of_lookup_2 _ (length (threads w))).
      rewrite list_lookup_insert_ne by (apply lookup_lt_Some in Hi; lia). by rewrite list_lookup_middle.
    + destruct (F2 id' f' Hf) as [Hid Hin]. split; [unfold id; lia|].
      eapply resume_keeps; [done..|]. intros [= <- _]. by eapply Hx.
  - intros id' Hc. destruct (F3 id' Hc) as [Hid Hn]. split; [unfold id; lia|].
    rewrite lookup_insert_ne; [done|]. unfold id. lia.
  - intros id' Hid'. destruct (decide (id' = id)) as [-> |Hne].
    + left. rewrite lookup_insert_eq. eauto.
    + rewrite lookup_insert_ne by done. apply F5. unfold id in *. lia.
Qed.

(** A future that times out. *)
Lemma futures_timeout i rest th id f w w1 new :
  futures_inv w -> w.(threads) !! i = Some (OFutureWait id :: rest) ->
  w.(cl).(connectFutures) !! id = Some f -> w1.(threads) = w.(threads) ++ new ->
  w1.(cl).(futureID) = w.(cl).(futureID) -> w1.(cl).(connectFutures) = delete id w.(cl).(connectFutures) ->
  w1.(called) = w.(called) ++ [id] ->
  futures_inv (resume i th w1).
Proof.
  intros [F1 F2 F3 F4 F5] Hi Hf Hth E1 E2 E3.
  split; simpl; rewrite ?E1, ?E2, ?E3; [done| | | |].
  - intros id' f' [Hne Hf']%lookup_delete_Some. destruct (F2 id' f' Hf') as [Hid Hin]. split; [done|].
    rewrite Hth. eapply resume_keeps; [done..|]. intros [= ? _]. by apply Hne.
  - intros id' [Hc| ->]%elem_of_snoc.
    + destruct (F3 id' Hc) as [Hid Hn]. split; [done|]. rewrite lookup_delete_None. by right.
    + split; [by apply (F2 id f)|]. apply lookup_delete_eq.
  - apply NoDup_app. split_and!; [done| |apply NoDup_singleton].
    intros id' Hc ->%list_elem_of_singleton. destruct (F3 id Hc). congruence.
  - intros id' Hid'. rewrite elem_of_snoc. destruct (decide (id' = id)) as [-> |Hne]; [by right; right|].
    rewrite lookup_delete_ne by done. destruct (F5 id' Hid'); [by left|by right; left].
Qed.

Section Special3.
Context (cfg : Config).
Context (i : nat) (rest : list op) (w : world) (Hinv : inv w) (Hlt : (w.(issued) < 2 ^ 32)%Z).

Lemma inv_onConnect f w1 ops :
  w.(threads) !! i = Some (OOnConnect f :: rest) -> onConnect f w = (w1, ops) ->
  inv (resume i (ops ++ rest) w1).
Proof.
  intros Hi. unfold onConnect.
  set (w1' := spawn _ _).
  assert (Hmain : state (cl w) <> StateDisconnected -> inv (resume i ([] ++ rest) w1')).
  { intros Hst. pose proof (iv_state _ (iv_0 _ Hinv)) as [S1 S2]. split.
    - eapply (inv0_resume i _ rest [] w w1' [[OFutureWait (futureID (cl w) + 1)]]);
        [apply Hinv|done|done|by eapply ok_ext; [..|apply Hinv]|apply Hinv| |done|done| |
         apply ids_clean, clean_nil|by intros ?%elem_of_nil|].
      + by split.
      + constructor; [left; by repeat constructor|constructor].
      + by eapply futures_add; [apply Hinv|..].
    - simpl. intros Hc. eapply (driver_resume i _ rest [] w w1' [[OFutureWait (futureID (cl w) + 1)]]);
        [by apply Hinv|done|done|done|done| |done|].
      + intros th id ->%list_elem_of_singleton. by intros ?%list_elem_of_singleton.
      + intros ? ? _. right. split; [apply not_elem_of_nil|by intros []]. }
  destruct (state (cl w)) eqn:Hst; try (intros [= <- <-]; skip_op Hinv Hi).
  all: intros [= <- <-]; by apply Hmain.
Qed.

Lemma inv_future_wait o id w1 :
  w.(threads) !! i = Some (OFutureWait id :: rest) -> future_wait o id w = Some w1 ->
  (w1.(issued) < 2 ^ 32)%Z -> inv (resume i rest w1).
Proof.
  intros Hi. assert (Hgone : connectFutures (cl w) !! id = None -> inv (resume i ([] ++ rest) w)).
  { intros Hn. destruct (iv_futures _ (iv_0 _ Hinv)) as [F1 F2 F3 F4 F5]. split.
    - eapply (inv0_resume i _ rest [] w w []); [apply Hinv|done|done|apply Hinv..|done|by rewrite app_nil_r|done|
        apply ids_clean, clean_nil|by intros ?%elem_of_nil|].
      split; [done| |done|done|done]. simpl. intros id' f' Hf'. destruct (F2 id' f' Hf') as [Hid Hin]. split; [done|].
      rewrite <- (app_nil_r (threads w)). eapply resume_keeps; [done..|]. intros [= -> _]. congruence.
    - simpl. intros Hc. eapply (driver_resume i _ rest [] w w []);
        [by apply Hinv|done|by rewrite app_nil_r|done|done|by intros ? ? ?%elem_of_nil|done|].
      intros ? ? _. right. split; [apply not_elem_of_nil|by intros []]. }
  unfold future_wait. intros Hw Hb. change rest with ([] ++ rest).
  assert (Hcase : (connectFutures (cl w) !! id = None /\ w1 = w) \/
    exists f, connectFutures (cl w) !! id = Some f /\
      w1 = run_future o f (Some ErrTimeout) (with_called (called w ++ [id])
             (on_cl (fun c => set_connectFutures (delete id (connectFutures c)) c) w))).
  { destruct (o_select o) as [|[|?]]; repeat case_match; simplify_eq; eauto.
    all: left; split; [|done]; by apply (fi_called _ (iv_futures _ (iv_0 _ Hinv))). }
  destruct Hcase as [[Hn ->]|(f & Hf & Hw1)]; [by apply Hgone|]. clear Hw Hgone.
  set (w0 := with_called _ _) in Hw1.
  destruct (frame_run_future o f (Some ErrTimeout) w0) as [Hle Hfr]. rewrite <- Hw1 in *.
  destruct Hfr as [Hok1 Hcore Hold Hnew (new & Hth & Hn) Htm]; [by eapply ok_ext; [..|apply Hinv]|done|].
  unfold core in Hcore. injection Hcore as E1 E2 E3 E4 E5 E6 E7 E8 E9 E10. simpl in *.
  pose proof (iv_state _ (iv_0 _ Hinv)) as [S1 S2].
  assert (Hns : state (cl w) <> StateDisconnected).
  { intros Hd. destruct (S1 Hd) as (_ & _ & _ & _ & He). by rewrite He in Hf. }
  split.
  - eapply (inv0_resume i _ rest [] w w1 new); [apply Hinv|done|done|done| | |congruence|done|done|
      apply ids_clean, clean_nil|by intros ?%elem_of_nil|].
    + intros id' cb Hr. destruct (Hnew id' cb Hr) as [Hr'|[_ ?]]; [|done].
      pose proof (iv_requests _ (iv_0 _ Hinv) _ _ Hr'). lia.
    + split; [congruence|]. rewrite E6, E1. done.
    + by eapply futures_timeout; [apply Hinv|..].
  - simpl. intros Hc. eapply (driver_resume i _ rest [] w w1 new);
      [apply Hinv; congruence|done|done|done| | |done|].
    + intros id' t Hr _. apply Hold; [|done]. by apply (iv_requests _ (iv_0 _ Hinv) _ _ Hr).
    + intros th id'. by eapply new_no_remove.
    + intros ? ? _. right. split; [apply not_elem_of_nil|by intros []].
Qed.

(** *** The reader and the goroutines that wait *)

Lemma inv_answer x id r :
  w.(threads) !! i = Some (x :: rest) -> (id <= w.(issued))%Z ->
  is_driver x = false -> transparent x = false -> (forall id, x <> OFutureWait id) ->
  (forall id', awaits id' (x :: rest) -> id' = id) ->
  inv (resume i (answer w id r ++ rest) w).
Proof.
  intros Hi Hid Hd Ht Hx Ha.
  eapply inv_skip; [done|done|by apply ids_answer|apply close_answer|done|simpl; by rewrite Hd, Ht|].
  intros id' t Hr. destruct (answer_drives w id r rest id' t Hr) as [?|[Hn Hne]]; [by left|].
  right. split; [done|]. by intros ?%Ha.
Qed.

Lemma op_bounded x id : w.(threads) !! i = Some (x :: rest) -> op_id x = Some id -> (id <= w.(issued))%Z.
Proof.
  intros Hi Hid. eapply (iv_ids _ (iv_0 _ Hinv)); [by eapply list_elem_of_lookup_2|left|done].
Qed.

Lemma inv_reader o t w1 ops :
  w.(threads) !! i = Some (OReader t :: rest) -> exec cfg o (OReader t) w = Some (w1, ops) ->
  inv (resume i (ops ++ rest) w1).
Proof.
  intros Hi. unfold exec, readOnce. destruct (o_read o) as [r|d].
  - destruct (Z.leb_spec (r_Id r) (issued w)) as [Hle|]; [|done]. intros [= <- <-].
    eapply inv_skip; [done|done| |rewrite !not_elem_of_cons; split_and!; [done|done|apply not_elem_of_nil]|done|done|].
    + intros th x id ->%list_elem_of_singleton [-> |[-> |[]%elem_of_nil]%elem_of_cons]%elem_of_cons Hid;
        by simplify_eq/=.
    + intros ? ? _. right. split; [|by intros []]. rewrite !not_elem_of_cons; split_and!; [done|done|apply not_elem_of_nil].
  - intros [= <- <-].
    assert (Hf : frame w (close_channel (Some t) (spawn [OHandleDisconnect d] w))).
    { etrans; [|apply frame_close_channel]. auto with pubsub. }
    eapply inv_framed; [done|done|by apply Hf; [apply Hinv|]|apply ids_clean, clean_nil|apply not_elem_of_nil|done..|].
    intros ? ? _. right. split; [apply not_elem_of_nil|by intros []].
Qed.

Lemma inv_handle r w1 ops :
  w.(threads) !! i = Some (OHandle r :: rest) -> handle r w = Some (w1, ops) ->
  inv (resume i (ops ++ rest) w1).
Proof.
  intros Hi. unfold handle. case_match eqn:Hpos.
  { intros [= <- <-]. change (inv (resume i (answer w (r_Id r) (inl r) ++ rest) w)).
    eapply inv_answer; [done|by eapply (op_bounded (OHandle r))|done|done|done|by intros ? []]. }
  destruct (r_Push r) as [p|].
  - intros [= <- <-]. case_decide; skip_op Hinv Hi.
  - case_decide; [|done]. intros [= <- <-].
    eapply inv_framed; [done|done|by apply frame_on_cl; [done|apply Hinv|]|apply ids_clean, clean_nil|
      apply not_elem_of_nil|done..|].
    intros ? ? _. right. split; [apply not_elem_of_nil|by intros []].
Qed.

Lemma inv_await_start id :
  w.(threads) !! i = Some (OAwaitStart id :: rest) ->
  inv (resume i ([OAwait id w.(cl).(closeCh)] ++ rest) w).
Proof.
  intros Hi. eapply inv_skip; [done|done| |by intros ?%list_elem_of_singleton|done|done|].
  - intros th x id' ->%list_elem_of_singleton ->%list_elem_of_singleton Hid. simplify_eq/=.
    by eapply (op_bounded (OAwaitStart id')).
  - intros ? ? _. right. split; [by intros ?%list_elem_of_singleton|done].
Qed.

Lemma await_answer o id ch ops : await o id ch w = Some ops -> exists e, ops = answer w id (inr e).
Proof.
  unfold await. intros Ha. destruct (o_select o) as [|[|[|?]]]; try done; [injection Ha as <-; by eexists|].
  destruct ch; [|done]. case_decide; [|done]. injection Ha as <-. by eexists.
Qed.

Lemma inv_await o id ch ops :
  w.(threads) !! i = Some (OAwait id ch :: rest) -> await o id ch w = Some ops ->
  inv (resume i (ops ++ rest) w).
Proof.
  intros Hi [e ->]%await_answer. eapply inv_answer; [done|by eapply (op_bounded (OAwait id ch))|done|done|done|].
  by intros id' <-.
Qed.

(** *** The lock *)

(** A framed operation, and then the lock. *)
Lemma inv_lock x b w0 ops :
  w.(threads) !! i = Some (x :: rest) -> (w0.(issued) < 2 ^ 32)%Z -> frame w w0 ->
  OCloseQueue ∉ ops -> ids_le w0.(issued) [ops] -> (forall id, ORemove id ∉ ops) ->
  (forall id, x <> OFutureWait id) -> drives (x :: rest) = false -> (forall id, ~ awaits id (x :: rest)) ->
  inv (resume i (ops ++ rest) (with_locked b w0)).
Proof.
  intros Hi Hb [Hle Hf] Hcq Hids Hnr Hx Hd Ha.
  destruct (Hf (iv_ok _ (iv_0 _ Hinv)) Hb) as [Hok Hcore Hold Hnew (new & Hth & Hn) Htm].
  pose proof (state_inv_core _ _ Hcore (iv_state _ (iv_0 _ Hinv))) as Hst.
  unfold core in Hcore. injection Hcore as E1 E2 E3 E4 E5 E6 E7 E8 E9 E10.
  eapply (inv_change i x rest ops w _ new);
    [done|done|by eapply ok_ext; [..|exact Hok]|done| |done|simpl; congruence|done|done|by right|done..|].
  - intros id cb Hr. destruct (Hnew id cb Hr) as [?|[_ ?]]; [by left|by right].
  - simpl. intros Hc. eapply (driver_resume i x rest ops w _ new);
      [apply Hinv; congruence|done|done|done| | |by rewrite Hd|].
    + intros id t Hr _. apply Hold; [|done]. by apply (iv_requests _ (iv_0 _ Hinv) _ _ Hr).
    + intros th id. by eapply new_no_remove.
    + intros id t _. right. split; [done|]. by intros ?%Ha.
Qed.

Lemma inv_connected_tail o t ping w1 ops :
  w.(threads) !! i = Some (OConnectedTail t ping :: rest) -> connected_tail o t ping w = Some (w1, ops) ->
  (w1.(issued) < 2 ^ 32)%Z -> inv (resume i (ops ++ rest) w1).
Proof.
  intros Hi He Hb. apply frame_connected_tail in He as [[[Hle Hf] ->]|(w0 & l & Hf & -> & ->)].
  - eapply inv_framed; [done|done|by apply Hf; [apply Hinv|]|apply ids_clean, clean_nil|apply not_elem_of_nil|done..|].
    intros ? ? _. right. split; [apply not_elem_of_nil|by intros []].
  - eapply (inv_lock (OConnectedTail t ping)); [done..| | | |done|done|by intros ? []].
    + apply no_close_unlock. auto with pubsub.
    + apply ids_unlock. auto with pubsub.
    + intros id. apply no_remove_unlock. auto with pubsub.
Qed.

Lemma inv_unlock :
  w.(threads) !! i = Some (OUnlock :: rest) -> inv (resume i rest (with_locked false w)).
Proof.
  intros Hi. apply (inv_lock OUnlock false w []); try done.
  - apply not_elem_of_nil.
  - apply ids_clean, clean_nil.
  - intros id. apply not_elem_of_nil.
  - by intros ? [].
Qed.

End Special3.

(** ** Every step keeps the invariant *)

Section Steps.
Context (cfg : Config).

Lemma inv_exec o i x rest w w1 ops :
  inv w -> (w.(issued) < 2 ^ 32)%Z -> w.(threads) !! i = Some (x :: rest) ->
  exec cfg o x w = Some (w1, ops) -> (w1.(issued) < 2 ^ 32)%Z ->
  inv (resume i (ops ++ rest) w1).
Proof.
  intros Hinv Hlt Hi He Hb. destruct (special x) eqn:Hsp; [|by eapply inv_not_special].
  destruct x; try discriminate Hsp; try (by eapply inv_reader);
    unfold exec in He; first [injection He as <- <-|injection He as He|idtac].
  - by eapply inv_startConnecting.
  - by eapply inv_install.
  - by eapply inv_rearm.
  - by eapply inv_connected.
  - by eapply inv_connected_tail.
  - by apply inv_unlock.
  - by eapply inv_moveToDisconnected.
  - by eapply inv_moveToConnecting.
  - by eapply inv_moveToClosed.
  - by eapply inv_closeQueue.
  - by eapply inv_handle.
  - by eapply inv_await_start.
  - destruct (await o id ch w) eqn:Ea; [|done]. injection He as <- <-. by eapply inv_await.
  - by eapply inv_remove.
  - apply (inv_refresh i rest w Hinv OHandleRefreshError 10 Hi); try done; by intros ? [].
  - apply (inv_refresh i rest w Hinv (ORefreshed ttl) ttl Hi); try done; by intros ? [].
  - by eapply inv_onConnect.
  - destruct (future_wait o id w) eqn:Ea; [|done]. injection He as <- <-. by eapply inv_future_wait.
Qed.

End Steps.

(** A goroutine is started. *)
Lemma inv_spawn th w0 w :
  inv w0 -> ok w -> w.(issued) = w0.(issued) -> w.(cl) = w0.(cl) -> w.(called) = w0.(called) ->
  w.(threads) = w0.(threads) -> clean th ->
  (forall id n, w0.(timers) !! id = Some (TReconnect n) ->
     w.(timers) !! id = Some (TReconnect n) \/ drives th = true) ->
  inv (spawn th w).
Proof.
  intros [[Hok Hids Hreq Hst [F1 F2 F3 F4 F5] Hcl] Hd] Hok1 Ei Ec Eca Et Hth Htm. split.
  - split; simpl.
    + by eapply ok_ext; [..|exact Hok1].
    + rewrite Ei, Et. intros th' x id [Hin| ->]%elem_of_snoc Hx Hid; [by eapply Hids|].
      by eapply (ids_clean _ th Hth th); [left|..].
    + by rewrite Ec, Ei.
    + by rewrite Ec.
    + split; simpl; rewrite ?Ec, ?Eca, ?Et; [done| |done..].
      intros id f Hf. destruct (F2 id f Hf). split; [done|]. rewrite elem_of_snoc. by left.
    + rewrite Ec, Et. intros th' [Hin| ->]%elem_of_snoc Hc; [by eapply Hcl|]. by apply clean_no_close in Hc.
  - simpl. rewrite Ec. intros Hs.
    assert (Hnew : drives th = true -> driver (spawn th w)).
    { intros Hdr. eapply (dr_thread _ (length (threads w)) th); [|done]. simpl. by rewrite list_lookup_middle. }
    assert (Hkeep : forall j th', threads w0 !! j = Some th' -> threads (spawn th w) !! j = Some th').
    { intros j th' Hj. simpl. rewrite Et. by apply lookup_app_l_Some. }
    destruct (Hd Hs) as [j th' Hj Hdr|id n Hid|id t j th' Hr Hj Ha Hno].
    + by eapply dr_thread; [apply Hkeep|].
    + destruct (Htm id n Hid) as [?|?]; [by eapply dr_timer|by apply Hnew].
    + eapply dr_request; [simpl; by rewrite Ec|by apply Hkeep|done|].
      simpl. rewrite Et. intros th0 [?| ->]%elem_of_snoc; [by apply Hno|by apply clean_no_remove].
Qed.

Section Reachable.
Context (cfg : Config).

Lemma exec_issued o x w w1 ops : exec cfg o x w = Some (w1, ops) -> (w.(issued) <= w1.(issued))%Z.
Proof.
  intros He. destruct (special x) eqn:Hsp; [|by apply (exec_frame cfg o x w w1 ops Hsp He)].
  destruct x; try discriminate Hsp; unfold exec in He.
  - unfold startConnecting, alloc in He. repeat case_match; (simplify_eq/=; lia).
  - unfold install, install_failed in He. case_decide; [|(simplify_eq/=; lia)].
    pose proof (sendAsync_issued o (CmdConnect (token (cl w)) (cfg_Name cfg) (cfg_Data cfg)) (CbConnect t)
      (spawn [OReader t] (on_cl (fun c => set_transport (Some t) (set_refreshRequired false c)) w))) as Hi.
    simpl in Hi, He. destruct (sendAsync _ _ _ _) as [w2 e]. simpl in Hi.
    repeat case_match; simplify_eq/=; lia.
  - unfold rearm in He. repeat case_match; (simplify_eq/=; lia).
  - unfold connected in He. case_decide; [|(simplify_eq/=; lia)]. destruct res as [res|]; [|(simplify_eq/=; lia)].
    case_match; [|done]. destruct (resolveConnectFutures _ _ _) as [w2|] eqn:Hr; [|done]. injection He as <- <-.
    apply resolveConnectFutures_spec in Hr as (_ & w3 & [Hle _] & ->). simpl in *. destruct (cr_Expires res); simpl in *; lia.
  - apply frame_connected_tail in He as [[Hf _]|(w0 & l & Hf & -> & _)]; apply Hf.
  - simplify_eq/=; lia.
  - unfold moveToDisconnected in He. destruct (state (cl w)); try (simplify_eq/=; lia).
    all: destruct (leave_connection _ _ _) as [w2|] eqn:El; [|done]; injection He as <- <-;
      by eapply lf_issued, leave_connection_spec.
  - unfold moveToConnecting in He. destruct (state (cl w)); try (simplify_eq/=; lia).
    destruct (leave_connection _ _ _) as [w2|] eqn:El; [|done]; injection He as <- <-;
      by eapply lf_issued, leave_connection_spec.
  - unfold moveToClosed in He. repeat case_match; (simplify_eq/=; lia).
  - case_match; (simplify_eq/=; lia).
  - unfold readOnce in He. repeat case_match; (simplify_eq/=; lia).
  - unfold handle in He. repeat case_match; (simplify_eq/=; lia).
  - (simplify_eq/=; lia).
  - destruct (await _ _ _ _); (simplify_eq/=; lia).
  - (simplify_eq/=; lia).
  - unfold handleRefreshError, if_connected in He. case_decide; (simplify_eq/=; lia).
  - unfold if_connected in He. case_decide; (simplify_eq/=; lia).
  - unfold onConnect in He. repeat case_match; (simplify_eq/=; lia).
  - unfold future_wait in He.
    assert (Hf : forall f e w0, (issued w0 <= issued (run_future o f e w0))%Z) by (intros; apply frame_run_future).
    repeat case_match; simplify_eq/=; try lia. etrans; [|apply Hf]. done.
Qed.

Lemma inv_run_thread i o w w1 :
  inv w -> (w.(issued) < 2 ^ 32)%Z -> run_thread cfg i o w = Some w1 -> (w1.(issued) < 2 ^ 32)%Z -> inv w1.
Proof.
  unfold run_thread. intros Hinv Hlt. destruct (threads w !! i) as [[|x rest]|] eqn:Hi; [done| |done].
  case_match; [done|]. destruct (exec cfg o x w) as [[w2 ops]|] eqn:He; [|done]. intros [= <-] Hb.
  by eapply inv_exec.
Qed.

Lemma inv_step w w1 :
  inv w -> (w.(issued) < 2 ^ 32)%Z -> step cfg w w1 -> (w1.(issued) < 2 ^ 32)%Z -> inv w1.
Proof.
  intros Hinv Hlt [w' [i o w'' Hr|id w'' Hf]|x Hc Ha] Hb.
  - by eapply inv_run_thread.
  - unfold fire_timer in Hf. case_match; [done|]. destruct (timers w !! id) as [k|] eqn:Hk; [|done].
    injection Hf as <-. eapply (inv_spawn _ w); [done|apply (ok_stop (Some id)), Hinv|done..| |].
    + destruct k; repeat constructor.
    + intros id' n Hid'. destruct (decide (id' = id)) as [-> |Hne].
      * right. by simplify_eq.
      * left. simpl. by rewrite lookup_delete_ne.
  - eapply (inv_spawn _ w); [done| |done..| |by left].
    + eapply ok_ext; [..|apply Hinv]; try done. simpl. lia.
    + destruct x; try done; repeat constructor.
Qed.

Lemma step_issued w w1 : step cfg w w1 -> (w.(issued) <= w1.(issued))%Z.
Proof.
  intros [w' [i o w'' Hr|id w'' Hf]|x Hc Ha].
  - unfold run_thread in Hr. destruct (threads w !! i) as [[|x rest]|]; [done| |done]. case_match; [done|].
    destruct (exec cfg o x w) as [[w2 ops]|] eqn:He; [|done]. injection Hr as <-. exact (exec_issued o x w w2 ops He).
  - unfold fire_timer in Hf. repeat case_match; simplify_eq/=; lia.
  - done.
Qed.

Lemma inv_newClient : inv (newClient cfg).
Proof.
  split; [|done]. split; simpl.
  - split; [done..|]. split; simpl; [done|done|done|]. intros s sub. by rewrite lookup_empty.
  - by intros ? ? ? ?%elem_of_nil.
  - intros id cb. by rewrite lookup_empty.
  - by split.
  - split; simpl; [done| |by intros ? ?%elem_of_nil|constructor|lia]. intros id f. by rewrite lookup_empty.
  - by intros ? ?%elem_of_nil.
Qed.

Lemma inv_reachable w : reachable cfg w -> (w.(issued) < 2 ^ 32)%Z -> inv w.
Proof.
  unfold reachable. revert w. apply (rtc_ind_r (fun w => (issued w < 2 ^ 32)%Z -> inv w)).
  - intros _. apply inv_newClient.
  - intros w1 w2 _ Hs IH Hb. pose proof (step_issued _ _ Hs). eapply inv_step; [apply IH; lia|lia|done..].
Qed.

End Reachable.
