(* ===== verification/PubSubLive.v ===== *)
(** Liveness of the pubsub client: a client that is connecting is never
    abandoned.  From every reachable world there is a continuation, made of the
    client's own steps and an answering network, that ends connected or
    disconnected. *)

From S2P Require Import Prelude PubSubData PubSub PubSubFrame PubSubInv.

(** A connecting client with [c.mu] free that has issued fewer than [n]
    commands. *)
Record live (n : Z) (w : world) : Prop := {
  lv_crashed : w.(crashed) = false;
  lv_locked : w.(locked) = false;
  lv_state : w.(cl).(state) = StateConnecting;
  lv_queue : w.(cl).(CBQueue) = true;
  lv_issued : (0 <= w.(issued) < n)%Z;
  lv_cmdID : w.(cl).(cmdID) = w.(issued)
}.

(** A reply without error and without the result the command asks for. *)
Definition nil_result (x : op) : bool :=
  match x with OConnectCb _ (inl None) | OConnected _ None => true | _ => false end.

Definition settled (w : world) : Prop :=
  w.(crashed) = false /\ (w.(cl).(state) = StateConnected \/ w.(cl).(state) = StateDisconnected).

(** A network that answers. *)
Definition good_oracle (w : world) : oracle :=
  mkOracle true (fun _ => true) (fun _ => false) (inl "token") (inr None) 1
    (map_to_list w.(cl).(connectFutures)).*1 (map_to_list w.(cl).(subs)).*1 (elements w.(cl).(serverSubs)).

Definition good_result : ConnectResult := mkConRes "" "" false 0 0 ∅.

Definition good_reply (id : Z) : Reply :=
  mkReply id None None (Some good_result) None None None None None.

Section Live.
Context (cfg : Config).

Definition reaches (w : world) : Prop := exists w', rtc (istep cfg) w w' /\ settled w'.

Lemma reach_now w : settled w -> reaches w.
Proof. by exists w. Qed.

Lemma reach_istep w w1 : istep cfg w w1 -> reaches w1 -> reaches w.
Proof. intros Hs (w' & Hr & Hw'). exists w'. split; [by eapply rtc_l|done]. Qed.

(** One operation of goroutine [i]. *)
Lemma reach_op i o x rest w w1 ops :
  w.(crashed) = false -> w.(locked) = false -> w.(threads) !! i = Some (x :: rest) ->
  exec cfg o x w = Some (w1, ops) -> reaches (resume i (ops ++ rest) w1) -> reaches w.
Proof.
  intros Hc Hl Hi He Hr. eapply reach_istep; [|exact Hr]. apply (step_thread _ _ i o).
  unfold run_thread. by rewrite Hi, Hc, Hl, andb_false_r, He.
Qed.

Ltac run_op o := eapply (reach_op _ o); [by eapply lv_crashed|by eapply lv_locked|eassumption| |].

Lemma live_ext n w w1 :
  live n w -> w1.(crashed) = w.(crashed) -> w1.(locked) = w.(locked) -> w1.(issued) = w.(issued) ->
  w1.(cl).(state) = w.(cl).(state) -> w1.(cl).(CBQueue) = w.(cl).(CBQueue) ->
  w1.(cl).(cmdID) = w.(cl).(cmdID) -> live n w1.
Proof. intros [] E1 E2 E3 E4 E5 E6. split; congruence. Qed.

(** *** The connect command is answered *)

Lemma run_future_keeps o f err w :
  let w1 := run_future o f err w in
  w1.(crashed) = w.(crashed) /\ w1.(cl).(state) = w.(cl).(state) /\ w1.(cl).(connectFutures) = w.(cl).(connectFutures).
Proof.
  destruct f; simpl; unfold send_fn, publish, presence, presenceStats, sendPublish, sendPresence, sendPresenceStats,
    send_call, sendAsync, send, nextCmdID; repeat case_match; by simplify_eq/=.
Qed.

Lemma resolve_ok o err w :
  o.(o_futures) = (map_to_list w.(cl).(connectFutures)).*1 ->
  exists w1, resolveConnectFutures o err w = Some w1 /\ w1.(crashed) = w.(crashed) /\ w1.(cl).(state) = w.(cl).(state).
Proof.
  intros Ho. unfold resolveConnectFutures, is_order. rewrite bool_decide_true by by rewrite Ho.
  eexists. split; [done|]. simpl. generalize (o_futures o) as order. clear Ho.
  intros order. generalize (connectFutures (cl w)) as futs. intros futs.
  revert w. induction order as [|id order IH]; intros w; [done|]. simpl.
  destruct (IH (call_future o err futs id w)) as [-> ->]. unfold call_future. destruct (futs !! id) as [f|]; [|done].
  destruct (run_future_keeps o f err (with_called (called w ++ [id]) w)) as (-> & -> & _). done.
Qed.

Lemma reach_connected n i t rest w :
  live n w -> w.(threads) !! i = Some (OConnected t (Some good_result) :: rest) -> reaches w.
Proof.
  intros Hl Hi. destruct (resolve_ok (mkOracle true (fun _ => true) (fun _ => false) (inl "") (inr None) 1
    (map_to_list (connectFutures (cl w))).*1 [] []) None (on_cl (set_state StateConnected) w)) as (w1 & Hr & Hc & Hs); [done|].
  run_op (mkOracle true (fun _ => true) (fun _ => false) (inl "") (inr None) 1
    (map_to_list (connectFutures (cl w))).*1 [] []).
  - simpl. unfold connected. rewrite decide_True by apply Hl. simpl. unfold is_order at 1. simpl.
    rewrite bool_decide_true by done. rewrite Hr. done.
  - apply reach_now. split; simpl; [rewrite Hc; apply Hl|left; by rewrite Hs].
Qed.

Lemma reach_connect_cb n i t rest w :
  live n w -> w.(threads) !! i = Some (OConnectCb t (inl (Some good_result)) :: rest) -> reaches w.
Proof.
  intros Hl Hi. run_op (good_oracle w).
  - simpl. unfold connect_cb. rewrite decide_True by apply Hl. done.
  - eapply (reach_connected n i t rest); [by apply (live_ext n w)|]. by eapply (resume_lookup _ _ _ _ w w []); [|rewrite app_nil_r].
Qed.

Lemma reach_handle n i t id rest w :
  live n w -> (0 < id)%Z -> w.(cl).(requests) !! id = Some (CbConnect t) ->
  w.(threads) !! i = Some (OHandle (good_reply id) :: rest) -> reaches w.
Proof.
  intros Hl Hid Hr Hi. run_op (good_oracle w).
  - simpl. unfold handle. simpl. rewrite (proj2 (Z.ltb_lt 0 id) Hid), Hr. done.
  - simpl. eapply (reach_connect_cb n i t); [by apply (live_ext n w)|].
    by eapply (resume_lookup _ _ _ _ w w []); [|rewrite app_nil_r].
Qed.

Lemma reach_reader n i t id rest w :
  live n w -> (0 < id <= w.(issued))%Z -> w.(cl).(requests) !! id = Some (CbConnect t) ->
  w.(threads) !! i = Some (OReader t :: rest) -> reaches w.
Proof.
  intros Hl Hid Hr Hi.
  run_op (mkOracle true (fun _ => true) (fun _ => false) (inl "") (inl (good_reply id)) 1 [] [] []).
  - unfold exec, readOnce. simpl. rewrite (proj2 (Z.leb_le id (issued w))) by lia. done.
  - simpl. eapply (reach_handle n i t id); [by apply (live_ext n w)|lia|done|].
    by eapply (resume_lookup _ _ _ _ w w []); [|rewrite app_nil_r].
Qed.

(** *** From the dial to the connect command *)

Lemma reach_install i t rest w :
  live (2 ^ 32 - 1) w -> w.(threads) !! i = Some (OInstall t :: rest) -> reaches w.
Proof.
  intros Hl Hi. pose proof (lv_issued _ _ Hl) as Hiss.
  assert (Hid : wrap_u32 (cmdID (cl w) + 1) = (issued w + 1)%Z)
    by (rewrite (lv_cmdID _ _ Hl); apply wrap_u32_small; lia).
  run_op (good_oracle w).
  - simpl. unfold install. rewrite decide_True by apply Hl. simpl. unfold sendAsync, send. simpl. done.
  - simpl. apply (reach_reader (2 ^ 32) (length (threads w)) t (issued w + 1) []); simpl.
    + split; cbn -[Z.pow]; try apply Hl; [lia|]. done.
    + lia.
    + rewrite Hid. by rewrite lookup_insert_eq.
    + rewrite list_lookup_insert_ne by (apply lookup_lt_Some in Hi; lia).
      rewrite lookup_app_l by (rewrite length_app; simpl; lia). by rewrite list_lookup_middle.
Qed.

(** The upstream lemmas are about a client that may still issue a command. *)
Notation live1 := (live (2 ^ 32 - 1)).

Lemma reach_set_token i t tok rest w :
  live1 w -> w.(threads) !! i = Some (OSetToken t tok :: rest) -> reaches w.
Proof.
  intros Hl Hi. run_op (good_oracle w).
  - unfold exec, token_refreshed. rewrite decide_True by apply Hl. done.
  - eapply (reach_install i t); [by apply (live_ext _ w)|]. by eapply (resume_lookup _ _ _ _ w _ []); [|rewrite app_nil_r].
Qed.

Lemma settled_disconnected o code reason w :
  w.(crashed) = false -> w.(cl).(state) = StateConnecting ->
  o.(o_futures) = (map_to_list w.(cl).(connectFutures)).*1 ->
  o.(o_subs) = (map_to_list w.(cl).(subs)).*1 -> o.(o_serverSubs) = elements w.(cl).(serverSubs) ->
  exists w1 ops, moveToDisconnected cfg o code reason w = Some (w1, ops) /\ settled w1.
Proof.
  intros Hc Hs Ho1 Ho2 Ho3. unfold moveToDisconnected. rewrite Hs.
  unfold leave_connection, orders_ok, is_order, is_set_order.
  rewrite (bool_decide_true (_ ≡ₚ (map_to_list (subs (cl w))).*1)) by by rewrite Ho2.
  rewrite (bool_decide_true (_ ≡ₚ elements _)) by by rewrite Ho3. simpl.
  set (w1 := clearConnectedState _).
  assert (Hw1 : connectFutures (cl w1) = connectFutures (cl w) /\ crashed w1 = crashed w /\ state (cl w1) = StateDisconnected).
  { unfold w1, clearConnectedState, drop_transport, stop, close_channel. repeat case_match; done. }
  destruct Hw1 as (Hf & Hc1 & Hs1).
  destruct (resolve_ok o (Some ErrClientDisconnected) w1) as (w2 & -> & Hc2 & Hs2); [by rewrite Hf|].
  eexists _, _. split; [done|]. split; [congruence|right; congruence].
Qed.

Lemma reach_disconnect i code reason rest w :
  live1 w -> w.(threads) !! i = Some (OMoveDisconnected code reason :: rest) -> reaches w.
Proof.
  intros Hl Hi.
  destruct (settled_disconnected (good_oracle w) code reason w) as (w1 & ops & He & Hs);
    [apply Hl|apply Hl|done..|].
  run_op (good_oracle w); [exact He|]. by apply reach_now.
Qed.

(** Handlers and subscriptions are passed on the way. *)
Definition is_emit (x : op) : bool := match x with OEmit _ _ => true | _ => false end.

Lemma emits_emit_if b sync evs : forallb is_emit (emit_if b sync evs) = true.
Proof. by destruct b. Qed.

Lemma reach_emits i l rest w :
  live1 w -> forallb is_emit l = true -> w.(threads) !! i = Some (l ++ rest) ->
  (forall w, live1 w -> w.(threads) !! i = Some rest -> reaches w) -> reaches w.
Proof.
  intros Hl Ht Hi Hk. revert w Hl Hi. induction l as [|x l IH]; intros w Hl Hi; [by apply Hk|].
  simpl in Ht. apply andb_true_iff in Ht as [Hx Ht]. destruct x; try done. run_op (good_oracle w).
  - simpl. unfold emit. by rewrite (lv_queue _ _ Hl).
  - apply IH; [done|by apply (live_ext _ w)|]. by eapply (resume_lookup _ _ _ _ w _ []); [|rewrite app_nil_r].
Qed.

Lemma reach_subscribing i s code reason rest w :
  live1 w -> w.(threads) !! i = Some (OMoveSubscribing s code reason :: rest) ->
  (forall w, live1 w -> w.(threads) !! i = Some rest -> reaches w) -> reaches w.
Proof.
  intros Hl Hi Hk. destruct (get_sub s w) as [sub|] eqn:Hs;
    (run_op (good_oracle w); [unfold exec, with_sub; rewrite Hs; reflexivity|]).
  - eapply reach_emits; [| | |exact Hk]; [|apply emits_emit_if|].
    + apply (live_ext _ w); try done; unfold sub_reset, stop; repeat case_match; done.
    + eapply (resume_lookup _ _ _ _ w _ []); [done|]. rewrite app_nil_r. unfold sub_reset, stop. repeat case_match; done.
  - apply Hk; [by apply (live_ext _ w)|]. by eapply (resume_lookup _ _ _ _ w _ []); [|rewrite app_nil_r].
Qed.

Lemma reach_transparent i l rest w :
  live1 w -> forallb transparent l = true -> w.(threads) !! i = Some (l ++ rest) ->
  (forall w, live1 w -> w.(threads) !! i = Some rest -> reaches w) -> reaches w.
Proof.
  intros Hl Ht Hi Hk. revert w Hl Hi. induction l as [|x l IH]; intros w Hl Hi; [by apply Hk|].
  simpl in Ht. apply andb_true_iff in Ht as [Hx Ht]. destruct x; try done.
  - apply (reach_emits i [OEmit sync evs] (l ++ rest)); try done. by apply IH.
  - apply (reach_subscribing i s code reason (l ++ rest)); try done. by apply IH.
Qed.

Lemma reach_refresh_token i t rest w :
  live1 w -> w.(threads) !! i = Some (ORefreshToken t :: rest) -> reaches w.
Proof.
  intros Hl Hi. run_op (good_oracle w); [done|]. unfold refresh_for_connect, no_GetToken. simpl.
  destruct (cfg_GetToken cfg).
  - eapply (reach_set_token i t); [by apply (live_ext _ w)|]. by eapply (resume_lookup _ _ _ _ w _ []); [|rewrite app_nil_r].
  - rewrite <- app_assoc. eapply reach_emits; [|apply emits_emit_if| |intros; by eapply reach_disconnect].
    + by apply (live_ext _ w).
    + by eapply (resume_lookup _ _ _ _ w _ []); [|rewrite app_nil_r].
Qed.

Lemma reach_dial i rr tok url rest w :
  live1 w -> w.(threads) !! i = Some (ODial rr tok url :: rest) -> reaches w.
Proof.
  intros Hl Hi. destruct (rr || (bool_decide (tok = "") && cfg_GetToken cfg)) eqn:Hr;
    (run_op (good_oracle w); [unfold exec, dial; simpl; by rewrite Hr|]).
  - eapply (reach_refresh_token i); [by apply (live_ext _ w)|]. by eapply (resume_lookup _ _ _ _ w _ []); [|rewrite app_nil_r].
  - eapply (reach_install i); [by apply (live_ext _ w)|]. by eapply (resume_lookup _ _ _ _ w _ []); [|rewrite app_nil_r].
Qed.

Lemma reach_start i rest w :
  live1 w -> w.(threads) !! i = Some (OStartReconnecting :: rest) -> reaches w.
Proof.
  intros Hl Hi. run_op (good_oracle w).
  - unfold exec, startReconnecting. simpl. rewrite decide_True by apply Hl. done.
  - eapply (reach_dial i); [by apply (live_ext _ w)|]. by eapply (resume_lookup _ _ _ _ w _ []); [|rewrite app_nil_r].
Qed.

Lemma reach_timer id n w : live1 w -> w.(timers) !! id = Some (TReconnect n) -> reaches w.
Proof.
  intros Hl Hid. eapply reach_istep.
  - apply (step_timer _ _ id). unfold fire_timer. by rewrite (lv_crashed _ _ Hl), Hid.
  - apply (reach_start (length (threads w)) []); [by apply (live_ext _ w)|]. simpl. by rewrite list_lookup_middle.
Qed.

Lemma reach_rearm i t refresh rest w :
  live1 w -> w.(threads) !! i = Some (ORearm t refresh :: rest) -> reaches w.
Proof.
  intros Hl Hi. run_op (good_oracle w); [done|]. unfold rearm. rewrite decide_True by apply Hl.
  apply (reach_timer (fresh w) (reconnectAttempts (cl w) + 1)).
  - apply (live_ext _ w); try done; by destruct refresh.
  - simpl. destruct refresh; simpl; by rewrite lookup_insert_eq.
Qed.

Lemma reach_connect_err i t e rest w :
  live1 w -> w.(threads) !! i = Some (OConnectErr t e :: rest) -> reaches w.
Proof.
  intros Hl Hi. run_op (good_oracle w); [done|].
  change (reaches (resume i ((connect_err t e w).2 ++ rest) (close_transport t w))).
  assert (Hl' : live1 (resume i ((connect_err t e w).2 ++ rest) (close_transport t w))) by by apply (live_ext _ w).
  assert (Hi' : threads (resume i ((connect_err t e w).2 ++ rest) (close_transport t w)) !! i =
    Some ((connect_err t e w).2 ++ rest)).
  { by eapply (resume_lookup _ _ _ _ w _ []); [|rewrite app_nil_r]. }
  revert Hl' Hi'. generalize (resume i ((connect_err t e w).2 ++ rest) (close_transport t w)). unfold connect_err. simpl.
  intros w' Hl' Hi'. repeat case_match; first [by eapply reach_rearm|by eapply reach_disconnect].
Qed.

Lemma reach_connect_failed i t e rest w :
  live1 w -> w.(threads) !! i = Some (OConnectCb t (inr e) :: rest) -> reaches w.
Proof.
  intros Hl Hi. run_op (good_oracle w).
  - simpl. unfold connect_cb. rewrite decide_True by apply Hl. done.
  - rewrite <- app_assoc. eapply reach_emits; [|apply emits_emit_if| |intros; by eapply reach_connect_err].
    + by apply (live_ext _ w).
    + by eapply (resume_lookup _ _ _ _ w _ []); [|rewrite app_nil_r].
Qed.

(** Whatever the result was, an answered connect command settles the client. *)
Lemma reach_connected_any i t res rest w :
  live1 w -> w.(threads) !! i = Some (OConnected t (Some res) :: rest) -> reaches w.
Proof.
  intros Hl Hi. set (o := mkOracle true (fun _ => true) (fun _ => false) (inl "") (inr None) 1
    (map_to_list (connectFutures (cl w))).*1 (map_to_list (cr_Subs res)).*1 []).
  set (w0 := if cr_Expires res then schedule_refresh (cr_Ttl res) (on_cl (set_state StateConnected) w)
             else on_cl (set_state StateConnected) w).
  assert (H0 : connectFutures (cl w0) = connectFutures (cl w) /\ crashed w0 = crashed w /\ state (cl w0) = StateConnected)
    by (unfold w0; by destruct (cr_Expires res)).
  destruct H0 as (Hf & Hc & Hs).
  destruct (resolve_ok o None w0) as (w1 & Hr & Hc1 & Hs1); [by rewrite Hf|].
  run_op o.
  - simpl. unfold connected. rewrite decide_True by apply Hl. fold w0. unfold is_order at 1. simpl.
    rewrite bool_decide_true by done. by rewrite Hr.
  - apply reach_now. split; simpl; [rewrite Hc1, Hc; apply Hl|left; congruence].
Qed.

Lemma reach_connect_answered i t res rest w :
  live1 w -> w.(threads) !! i = Some (OConnectCb t (inl (Some res)) :: rest) -> reaches w.
Proof.
  intros Hl Hi. run_op (good_oracle w).
  - simpl. unfold connect_cb. rewrite decide_True by apply Hl. done.
  - eapply (reach_connected_any i t); [by apply (live_ext _ w)|]. by eapply (resume_lookup _ _ _ _ w _ []); [|rewrite app_nil_r].
Qed.

(** A driver takes the client further. *)
Lemma reach_driver_op i x rest w :
  live1 w -> is_driver x = true -> nil_result x = false -> w.(threads) !! i = Some (x :: rest) -> reaches w.
Proof.
  intros Hl Hd Hn Hi. destruct x; try done.
  - by eapply reach_start.
  - by eapply reach_dial.
  - by eapply reach_refresh_token.
  - by eapply reach_set_token.
  - by eapply reach_install.
  - by eapply reach_rearm.
  - destruct res as [[res|]|e]; [by eapply reach_connect_answered|done|by eapply reach_connect_failed].
  - by eapply reach_connect_err.
  - destruct res as [res|]; [by eapply reach_connected_any|done].
  - by eapply reach_disconnect.
Qed.

Lemma drives_split th :
  drives th = true -> exists l x rest, th = l ++ x :: rest /\ forallb transparent l = true /\ is_driver x = true.
Proof.
  induction th as [|x th IH]; simpl; [done|]. destruct (is_driver x) eqn:Hx; [by exists [], x, th|].
  simpl. intros [Ht Hd]%andb_true_iff. destruct (IH Hd) as (l & y & rest & -> & Hl & Hy).
  exists (x :: l), y, rest. simpl. by rewrite Ht.
Qed.

Lemma reach_await i id ch t rest w :
  live1 w -> w.(cl).(requests) !! id = Some (CbConnect t) ->
  w.(threads) !! i = Some (OAwait id ch :: rest) -> reaches w.
Proof.
  intros Hl Hr Hi. run_op (good_oracle w).
  - simpl. rewrite Hr. done.
  - eapply (reach_connect_failed i t ErrTimeout); [by apply (live_ext _ w)|].
    by eapply (resume_lookup _ _ _ _ w _ []); [|rewrite app_nil_r].
Qed.

Lemma reach_driver w :
  live1 w -> (forall th x, th ∈ w.(threads) -> x ∈ th -> nil_result x = false) -> driver w -> reaches w.
Proof.
  intros Hl Hn [i th Hi Hd|id n Hid|id t i th Hr Hi Ha _].
  - apply drives_split in Hd as (l & x & rest & -> & Ht & Hd).
    eapply reach_transparent; [done..|]. intros w1 Hl1 Hi1. eapply reach_driver_op; [done..| |done].
    apply (Hn (l ++ x :: rest)); [by eapply list_elem_of_lookup_2|]. apply elem_of_app. right. left.
  - by eapply reach_timer.
  - destruct th as [|[] rest]; try done; simpl in Ha; subst; [|by eapply reach_await].
    run_op (good_oracle w); [done|]. eapply (reach_await i id); [by apply (live_ext _ w)|done|].
    by eapply (resume_lookup _ _ _ _ w _ []); [|rewrite app_nil_r].
Qed.

End Live.
