(* ===== verification/PubSubProps.v ===== *)
(** What the pubsub client guarantees in every reachable world, and runs in
    which it does not do what it means to.

    A run is a script: which goroutine runs with which answers of the
    environment, which timer fires, which call the application makes. *)

From S2P Require Import Prelude Codes PubSubData PubSub PubSubFrame PubSubInv PubSubLive.

(** ** Scripts *)

Inductive action : Type :=
| Run (i : nat) (o : oracle)
| Fire (id : nat)
| Call (x : op).

Definition is_api_call (w : world) (x : op) : bool :=
  match x with
  | OStartConnecting | OSetClientToken _ | ONewSubscription _ _ | ORemoveSubscription _ => true
  | OApi call _ => call =? w.(fresh)
  | OSubCall _ (FSend _ _) => false
  | OSubCall _ f => fut_call f =? w.(fresh)
  | _ => false
  end.

Definition act (cfg : Config) (a : action) (w : world) : option world :=
  match a with
  | Run i o => run_thread cfg i o w
  | Fire id => fire_timer id w
  | Call x => if negb w.(crashed) && is_api_call w x then Some (spawn [x] (alloc w).2) else None
  end.

Fixpoint play (cfg : Config) (l : list action) (w : world) : option world :=
  match l with
  | [] => Some w
  | a :: l => match act cfg a w with Some w => play cfg l w | None => None end
  end.

Lemma act_step cfg a w w' : act cfg a w = Some w' -> step cfg w w'.
Proof.
  destruct a as [i o|id|x]; simpl.
  - intros. by eapply step_internal, step_thread.
  - intros. by eapply step_internal, step_timer.
  - destruct (crashed w) eqn:Hc; [done|]. simpl. destruct (is_api_call w x) eqn:Ha; [|done].
    intros [= <-]. apply step_api; [done|]. destruct x; try done; simpl in *.
    + by apply Nat.eqb_eq.
    + destruct f; [done|..]; (split; [by apply Nat.eqb_eq|done]).
Qed.

Lemma play_reachable cfg l w w' : reachable cfg w -> play cfg l w = Some w' -> reachable cfg w'.
Proof.
  revert w. induction l as [|a l IH]; intros w Hr; simpl; [congruence|].
  destruct (act cfg a w) as [w1|] eqn:Ha; [|done]. apply IH. eapply rtc_r; [exact Hr|]. by eapply act_step.
Qed.

(** Answers of the environment: everything works, ... *)
Definition yes : oracle :=
  mkOracle true (fun _ => true) (fun _ => false) (inl "token") (inr None) 1 [] [] [].
Definition subs_order (l : list string) : oracle :=
  mkOracle true (fun _ => true) (fun _ => false) (inl "token") (inr None) 1 [] l [].
(** ..., writes fail, the dial fails, the server replies. *)
Definition write_fails : oracle :=
  mkOracle true (fun _ => false) (fun _ => false) (inl "token") (inr None) 1 [] [] [].
Definition dial_fails : oracle :=
  mkOracle false (fun _ => true) (fun _ => false) (inl "token") (inr None) 1 [] [] [].
Definition server (r : Reply) : oracle :=
  mkOracle true (fun _ => true) (fun _ => false) (inl "token") (inl r) 1 [] [] [].

Definition no_handlers : Handlers := mkHandlers false false false false false false false false false.
Definition error_handler : Handlers := mkHandlers false false false true false false false false false.
Definition cfg_with (h : Handlers) : Config := mkConfig ["ws://server"] "token" false "" "name" h.

(** [Connect] up to the point where the connect command has been sent, in
    goroutine [i]. *)
Definition connect_script (i : nat) : list action :=
  [Call OStartConnecting; Run i yes; Run i yes; Run i yes; Run i yes].

(** ** Guarantees *)

Section Guarantees.
Context (cfg : Config).

(** A disconnected client is quiet: it has no transport, its two timers are
    stopped and forgotten, the channel its requests wait on is closed and no
    call waits for a connection. *)
Theorem disconnected_is_quiet w :
  reachable cfg w -> (w.(issued) < 2 ^ 32)%Z -> w.(cl).(state) = StateDisconnected ->
  w.(cl).(transport) = None /\ w.(cl).(reconnectTimer) = None /\ w.(cl).(refreshTimer) = None /\
  w.(cl).(closeCh) = None /\ w.(cl).(connectFutures) = ∅.
Proof.
  intros Hr Hb Hs. destruct (si_disconnected _ (iv_state _ (iv_0 _ (inv_reachable cfg w Hr Hb))) Hs)
    as (? & ? & ? & ? & ?). by split_and!.
Qed.

(** C28: every call that waits for the connection ([onConnect]) is answered
    exactly once.  Its function is either pending, and then the goroutine of its
    timeout runs, or it has been called once and is forgotten, whether by the
    connection, by a disconnect or by the timeout. *)
Theorem futures_called_once w id :
  reachable cfg w -> (w.(issued) < 2 ^ 32)%Z -> (0 < id <= w.(cl).(futureID))%Z ->
  (exists f, w.(cl).(connectFutures) !! id = Some f /\ id ∉ w.(called) /\ [OFutureWait id] ∈ w.(threads)) \/
  (w.(cl).(connectFutures) !! id = None /\ length (filter (.= id) w.(called)) = 1).
Proof.
  intros Hr Hb Hid. destruct (iv_futures _ (iv_0 _ (inv_reachable cfg w Hr Hb))) as [F1 F2 F3 F4 F5].
  destruct (F5 id Hid) as [[f Hf]|Hc].
  - left. exists f. split; [done|]. split; [|by apply (F2 id f)]. intros Hc. destruct (F3 id Hc). congruence.
  - right. split; [by apply F3|]. apply list_elem_of_split in Hc as (l1 & l2 & E). rewrite E in *.
    apply NoDup_app in F4 as (N1 & N2 & N3). apply NoDup_cons in N3 as [N3 N4].
    rewrite filter_app, filter_cons, decide_True by done.
    assert (Hnil : forall l, id ∉ l -> filter (.= id) l = []).
    { induction l as [|y l IH]; [done|]. intros Hn. rewrite not_elem_of_cons in Hn. destruct Hn.
      rewrite filter_cons, decide_False by done. by apply IH. }
    rewrite (Hnil l1), (Hnil l2); [done|done|]. intros Hin. apply (N2 id Hin). left.
Qed.

(** C27: a client that connects is never abandoned.  From every reachable world in
    which it connects and [c.mu] is free, its own steps (goroutines and timers)
    can take it to connected or to disconnected, however dials, writes,
    replies, timeouts and calls of the API were interleaved before.  A reply
    to the connect command that carries neither an error nor a result is
    excluded: it makes the client panic. *)
Theorem connecting_progresses w :
  reachable cfg w -> (w.(issued) < 2 ^ 32 - 1)%Z ->
  w.(cl).(state) = StateConnecting -> w.(crashed) = false -> w.(locked) = false ->
  (forall th x, th ∈ w.(threads) -> x ∈ th -> nil_result x = false) ->
  exists w', rtc (istep cfg) w w' /\ w'.(crashed) = false /\
    (w'.(cl).(state) = StateConnected \/ w'.(cl).(state) = StateDisconnected).
Proof.
  intros Hr Hb Hs Hc Hl Hn. destruct (inv_reachable cfg w Hr) as [H0 Hd]; [lia|].
  pose proof (ok_issued _ (iv_ok _ H0)) as Hpos. pose proof (ok_cmdID _ (iv_ok _ H0)) as Hcmd.
  apply (reach_driver cfg w); [|done|by apply Hd]. split; try done.
  - destruct (CBQueue (cl w)) eqn:Hq; [done|]. rewrite (si_queue _ (iv_state _ H0) Hq) in Hs. done.
  - by rewrite Hcmd, wrap_u32_small by lia.
Qed.

(** *** A deadlock is forever *)

(** Goroutine [i] holds [c.mu] and is about to call a handler, which takes
    [c.mu]; nobody else is about to release it. *)
Definition deadlocked (i : nat) (w : world) : Prop :=
  w.(locked) = true /\
  (exists evs rest, w.(threads) !! i = Some (OEmit true evs :: rest)) /\
  (forall j th, j <> i -> w.(threads) !! j = Some th -> OUnlock ∉ th).

Lemma clean_no_unlock l : clean l -> OUnlock ∉ l.
Proof. unfold clean. rewrite Forall_forall. intros Hc Hin. by specialize (Hc _ Hin). Qed.

Definition starts_quietly (w w1 : world) : Prop :=
  exists new, w1.(threads) = w.(threads) ++ new /\ forall th, th ∈ new -> OUnlock ∉ th.

Lemma starts_nothing w w1 : w1.(threads) = w.(threads) -> starts_quietly w w1.
Proof. intros E. exists []. rewrite app_nil_r. split; [done|]. by intros ? ?%elem_of_nil. Qed.

Lemma answer_no_unlock w id r : OUnlock ∉ answer w id r.
Proof.
  unfold answer. destruct (requests (cl w) !! id) as [cb|]; [rewrite not_elem_of_app; split|].
  - apply clean_no_unlock, clean_run_callback.
  - by intros ?%list_elem_of_singleton.
  - by intros ?%list_elem_of_singleton.
Qed.

(** An operation that does not take [c.mu] keeps the state and the lock, and
    starts nothing that releases it. *)
Lemma unlocked_special o x w w1 ops :
  special x = true -> needs_mu x = false -> x <> OUnlock -> exec cfg o x w = Some (w1, ops) ->
  w1.(locked) = w.(locked) /\ w1.(cl).(state) = w.(cl).(state) /\ OUnlock ∉ ops /\ starts_quietly w w1.
Proof.
  intros Hsp Hmu Hx He. destruct x; try discriminate; try done; simpl in He.
  - unfold readOnce in He. destruct (o_read o) as [r|d]; [case_match; [|done]|]; injection He as <- <-; split_and!; try done.
    + rewrite !not_elem_of_cons. split_and!; [done|done|apply not_elem_of_nil].
    + by apply starts_nothing.
    + apply not_elem_of_nil.
    + eexists. split; [done|]. intros th ->%list_elem_of_singleton. by intros ?%list_elem_of_singleton.
  - simpl in Hmu. unfold handle in He. destruct (0 <? r_Id r)%Z.
    + injection He as <- <-. split_and!; [done|done|apply (answer_no_unlock w (r_Id r) (inl r))|by apply starts_nothing].
    + destruct (r_Push r); [done|]. case_decide; [|done]. injection He as <- <-.
      split_and!; [done|done|apply not_elem_of_nil|by apply starts_nothing].
  - destruct (await o id ch w) as [l|] eqn:Ha; [|done]. injection He as <- <-.
    apply await_answer in Ha as [e ->]. split_and!; [done|done|apply answer_no_unlock|by apply starts_nothing].
  - injection He as <- <-. split_and!; [done|done|apply not_elem_of_nil|by apply starts_nothing].
Qed.

Lemma unlocked_op o x w w1 ops :
  inv w -> needs_mu x = false -> x <> OUnlock -> exec cfg o x w = Some (w1, ops) -> (w1.(issued) < 2 ^ 32)%Z ->
  w1.(locked) = w.(locked) /\ w1.(cl).(state) = w.(cl).(state) /\ OUnlock ∉ ops /\ starts_quietly w w1.
Proof.
  intros Hinv Hmu Hx He Hb. destruct (special x) eqn:Hsp; [by eapply unlocked_special|].
  destruct (exec_frame cfg o x w w1 ops Hsp He) as [[Hle Hf] Hc].
  destruct (Hf (iv_ok _ (iv_0 _ Hinv)) Hb) as [Hok Hcore _ _ (new & Hth & Hn) _].
  unfold core in Hcore. injection Hcore as E1 E2 E3 E4 E5 E6 E7 E8 E9 E10.
  split_and!; [done|done|by apply clean_no_unlock|]. exists new. split; [done|].
  intros th Hin. rewrite Forall_forall in Hn. destruct (Hn th Hin) as [?|(id & -> & _)]; [by apply clean_no_unlock|].
  by intros ?%list_elem_of_singleton.
Qed.

(** Starting a goroutine that does not release the lock. *)
Lemma deadlocked_spawn i th w w1 :
  deadlocked i w -> w1.(locked) = w.(locked) -> w1.(threads) = w.(threads) ++ [th] -> OUnlock ∉ th ->
  deadlocked i w1.
Proof.
  intros (Hl & (evs & rest & Hi) & Ho) El Et Hth. split; [congruence|]. rewrite Et. split.
  - exists evs, rest. by apply lookup_app_l_Some.
  - intros j th' Hj [Hw|[_ Hw]]%lookup_app_Some; [by eapply Ho|].
    apply list_lookup_singleton_Some in Hw as [_ <-]. done.
Qed.

Lemma deadlocked_step i w w1 :
  inv w -> (w1.(issued) < 2 ^ 32)%Z -> deadlocked i w -> step cfg w w1 ->
  deadlocked i w1 /\ w1.(cl).(state) = w.(cl).(state).
Proof.
  intros Hinv Hb Hd Hs. revert Hb. destruct Hs as [w' [j o w'' Hr|id w'' Hf]|x Hc Ha]; intros Hb.
  - destruct Hd as (Hl & (evs & rest & Hi) & Ho). unfold run_thread in Hr.
    destruct (threads w !! j) as [[|x restj]|] eqn:Hj; [done| |done]. rewrite Hl, andb_true_r in Hr.
    destruct (crashed w); [done|]. destruct (needs_mu x) eqn:Hmu; [done|]. simpl in Hr.
    destruct (exec cfg o x w) as [[w2 ops]|] eqn:He; [|done]. injection Hr as <-.
    assert (Hij : j <> i) by (intros ->; rewrite Hi in Hj; by simplify_eq).
    assert (Hx : OUnlock ∉ x :: restj) by by eapply Ho.
    apply not_elem_of_cons in Hx as [Hx Hrest].
    destruct (unlocked_op o x w w2 ops) as (El & Es & Hops & new & Hth & Hnew); [done|done|by intros ->|done|exact Hb|].
    split; [|done]. split; [simpl; congruence|]. simpl. rewrite Hth. split.
    + exists evs, rest. rewrite list_lookup_insert_ne by done. by apply lookup_app_l_Some.
    + intros k th Hk Hlk. assert (Hin : th ∈ <[j:=ops ++ restj]> (threads w ++ new)) by by eapply list_elem_of_lookup_2.
      destruct (decide (j = k)) as [<-|Hjk].
      * rewrite list_lookup_insert_eq in Hlk by (apply lookup_lt_Some in Hj; rewrite length_app; lia).
        injection Hlk as <-. by apply not_elem_of_app.
      * rewrite list_lookup_insert_ne in Hlk by done. apply lookup_app_Some in Hlk as [Hlk|[_ Hlk]]; [by eapply Ho|].
        by eapply Hnew, list_elem_of_lookup_2.
  - unfold fire_timer in Hf. destruct (crashed w); [done|]. destruct (timers w !! id) as [k|]; [|done].
    injection Hf as <-. split; [|done].
    eapply deadlocked_spawn; [done..|]. destruct k; by intros ?%list_elem_of_singleton.
  - split; [|done]. eapply deadlocked_spawn; [done..|]. intros Hin%list_elem_of_singleton. by subst x.
Qed.

Theorem deadlock_is_final i w w' :
  reachable cfg w -> deadlocked i w -> rtc (step cfg) w w' -> (w'.(issued) < 2 ^ 32)%Z ->
  deadlocked i w' /\ w'.(cl).(state) = w.(cl).(state).
Proof.
  intros Hr Hd Hs. revert w' Hs. apply (rtc_ind_r (fun w' => (issued w' < 2 ^ 32)%Z -> _)); [done|].
  intros w1 w2 H1 H2 IH Hb. pose proof (step_issued _ _ _ H2). destruct IH as [Hd1 Es]; [lia|].
  destruct (deadlocked_step i w1 w2) as [Hd2 Es2]; [|done..|split; [done|congruence]].
  apply (inv_reachable cfg); [|lia]. by apply (rtc_trans (R := step cfg)) with w. 
Qed.

End Guarantees.

(** ** Runs *)

(** The reply to a connect command, in goroutine [i] that reads: the reader
    takes it, looks the request up and calls its callback. *)
Definition reply_script (i : nat) (id : Z) : list action :=
  [Run i (server (good_reply id)); Run i yes; Run i yes].

(** The connect command cannot be written. *)
Definition deadlock_script : list action :=
  [Call OStartConnecting; Run 0 yes; Run 0 yes; Run 0 yes; Run 0 write_fails].

(** The answer to the first connect command is being handled when the
    application calls [Disconnect] and [Connect]. *)
Definition stale_script : list action :=
  connect_script 0 ++ reply_script 1 1 ++
  [Call (OApi 3 ADisconnect); Run 3 yes; Run 3 yes;
   Call OStartConnecting; Run 5 yes; Run 1 yes].

(** [Close] between its two halves, and a [Connect]. *)
Definition close_script : list action :=
  [Call (OApi 0 AClose); Run 0 yes; Run 0 yes] ++ connect_script 1 ++ [Run 0 yes; Run 0 yes].

(** [Close] while a dial is under way, which then fails. *)
Definition crash_script : list action :=
  [Call OStartConnecting; Run 0 yes; Run 0 yes;
   Call (OApi 2 AClose); Run 1 yes; Run 1 yes; Run 1 yes; Run 1 yes;
   Run 0 dial_fails; Run 0 yes].

(** The world at the end of a script; the initial one if it cannot be played. *)
Definition world_after (h : Handlers) (l : list action) : world :=
  default (newClient (cfg_with h)) (play (cfg_with h) l (newClient (cfg_with h))).

Lemma world_after_reachable h l : reachable (cfg_with h) (world_after h l).
Proof.
  unfold world_after. destruct (play _ _ _) as [w|] eqn:E; [|apply rtc_refl].
  eapply play_reachable; [apply rtc_refl|exact E].
Qed.

(** *** The guarantees at concrete worlds *)

(** A client that waits for the answer to its connect command; a call waits for
    the connection, another one has timed out. *)
Definition waiting_script : list action :=
  connect_script 0 ++
  [Call (OApi 3 (APublish "ch" "a")); Run 3 yes; Run 3 yes;
   Call (OApi 4 (APublish "ch" "b")); Run 5 yes; Run 5 yes; Run 4 yes].

Definition waiting_world : world := world_after no_handlers waiting_script.

Lemma waiting_world_reachable : reachable (cfg_with no_handlers) waiting_world.
Proof. apply world_after_reachable. Defined.

Lemma connecting_progresses_witness :
  exists w', rtc (istep (cfg_with no_handlers)) waiting_world w' /\ w'.(crashed) = false /\
    (w'.(cl).(state) = StateConnected \/ w'.(cl).(state) = StateDisconnected).
Proof.
  apply (connecting_progresses (cfg_with no_handlers) waiting_world waiting_world_reachable);
    [by vm_compute..|].
  intros th x Hth Hx.
  assert (Hall : forallb (forallb (fun x => negb (nil_result x))) (threads waiting_world) = true) by by vm_compute.
  rewrite forallb_forall in Hall. apply list_elem_of_In, Hall in Hth. rewrite forallb_forall in Hth.
  apply list_elem_of_In, Hth in Hx. by destruct (nil_result x).
Defined.

Lemma futures_called_once_witness :
  waiting_world.(cl).(futureID) = 2%Z /\ waiting_world.(called) = [1%Z] /\
  ((exists f, waiting_world.(cl).(connectFutures) !! 2%Z = Some f /\ 2%Z ∉ waiting_world.(called) /\
      [OFutureWait 2] ∈ waiting_world.(threads)) \/
   (waiting_world.(cl).(connectFutures) !! 2%Z = None /\
      length (filter (.= 2%Z) waiting_world.(called)) = 1)).
Proof.
  split; [by vm_compute|]. split; [by vm_compute|].
  apply (futures_called_once (cfg_with no_handlers) waiting_world 2 waiting_world_reachable); [by vm_compute|].
  by vm_compute.
Defined.

Lemma disconnected_is_quiet_witness :
  let w := world_after no_handlers (waiting_script ++ [Call (OApi 5 ADisconnect); Run 7 yes;
    Run 7 (mkOracle true (fun _ => true) (fun _ => false) (inl "") (inr None) 1 [2%Z] [] [])]) in
  w.(cl).(state) = StateDisconnected /\ w.(cl).(transport) = None /\ w.(cl).(reconnectTimer) = None /\
  w.(cl).(refreshTimer) = None /\ w.(cl).(closeCh) = None /\ w.(cl).(connectFutures) = ∅.
Proof.
  intros w. assert (Hs : w.(cl).(state) = StateDisconnected) by by vm_compute. split; [done|].
  apply (disconnected_is_quiet (cfg_with no_handlers)); [apply world_after_reachable|by vm_compute|done].
Defined.

(** A subscription of one channel, without handlers. *)
Definition plain_sub : SubscriptionConfig := mkSubCfg "" "" false (mkSubHandlers false false false false false).

Definition subscribed_reply (id : Z) : Reply :=
  mkReply id None None None (Some (mkSubRes "" false 0 [])) None None None None.

(** The end of the connect callback in goroutine [i], with [resubscribe]. *)
Definition connected_script (i : nat) : list action :=
  [Run i yes; Run i yes; Run i (subs_order ["ch"]); Run i yes; Run i yes; Run i yes].

(** A subscribed client is disconnected and connects again before
    [moveToDisconnected] has come to its subscription. *)
Definition lost_script : list action :=
  [Call (ONewSubscription "ch" plain_sub); Run 0 yes] ++
  connect_script 1 ++ reply_script 2 1 ++ connected_script 2 ++
  [Call (OApi 5 (ASubscribe 1)); Run 4 yes; Run 4 yes; Run 4 yes; Run 4 yes; Run 4 yes;
   Run 2 (server (subscribed_reply 2)); Run 2 yes; Run 2 yes; Run 2 yes] ++
  [Call (OApi 6 ADisconnect); Run 6 yes; Run 6 (subs_order ["ch"])] ++
  connect_script 7 ++ reply_script 8 3 ++ connected_script 8 ++
  [Run 6 yes].

(** Operations that only wait: for the network, or for a reply. *)
Definition waits (x : op) : bool :=
  match x with OReader _ | OAwaitStart _ | OAwait _ _ => true | _ => false end.

(** The connect command cannot be written and an [onError] handler is set.
    [startReconnecting] calls the handler while it holds [c.mu], and the handler
    is run through [runHandlerSync], which takes [c.mu]: the client is
    connecting and locked in every continuation of the run, although its
    reconnect timer is armed. *)
Theorem connect_write_error_deadlocks :
  let w := world_after error_handler deadlock_script in
  reachable (cfg_with error_handler) w /\ w.(timers) !! 3 = Some (TReconnect 1) /\
  forall w', rtc (step (cfg_with error_handler)) w w' -> (w'.(issued) < 2 ^ 32)%Z ->
    deadlocked 0 w' /\ w'.(cl).(state) = StateConnecting.
Proof.
  split; [apply world_after_reachable|]. split; [by vm_compute|]. intros w' Hs Hb.
  change StateConnecting with (state (cl (world_after error_handler deadlock_script))).
  apply (deadlock_is_final (cfg_with error_handler)); [apply world_after_reachable| |done|done].
  split; [by vm_compute|]. split; [eexists _, _; by vm_compute|].
  intros [|[|[|j]]] th Hj Ht; [done|..]; vm_compute in Ht; simplify_eq; by intros ?%list_elem_of_singleton.
Qed.

(** [moveToDisconnected] marks the subscriptions after it has released
    [c.mu].  When the application reconnects in between, [resubscribe] finds the
    subscription still subscribed and does nothing; then it is marked as
    subscribing.  The client is connected, nothing is pending, no timer is
    armed, and the subscription waits for good. *)
Theorem resubscription_lost :
  let w := world_after no_handlers lost_script in
  reachable (cfg_with no_handlers) w /\
  w.(cl).(state) = StateConnected /\ w.(cl).(transport) = Some 9 /\ w.(locked) = false /\
  sub_state <$> w.(objs) !! 1 = Some SubStateSubscribing /\
  map_to_list w.(timers) = [] /\ map_to_list w.(cl).(requests) = [] /\
  forallb (forallb waits) w.(threads) = true.
Proof. split; [apply world_after_reachable|]. by vm_compute. Qed.

(** Three more runs.  A reply that is handled across [Disconnect] and [Connect]
    leaves the client connected without a transport. *)
Example stale_reply_connects :
  let w := world_after no_handlers stale_script in
  w.(cl).(state) = StateConnected /\ w.(cl).(transport) = None.
Proof. by vm_compute. Qed.

(** [Close] that overlaps [Connect] leaves the transport of a closed client
    open. *)
Example close_leaves_transport :
  let w := world_after no_handlers close_script in
  w.(cl).(state) = StateClosed /\ w.(cl).(transport) = Some 3 /\ elements w.(open_) = [3].
Proof. by vm_compute. Qed.

(** A dial that fails after [Close] calls [onError] through a nil queue. *)
Example close_while_dialing_panics :
  let w := world_after error_handler crash_script in w.(cl).(state) = StateClosed /\ w.(crashed) = true.
Proof. by vm_compute. Qed.

(** ** Agreement with the server *)

(** The reasons for which the deliverer closes connections. *)
Definition server_disconnects : list Codes.Disconnect :=
  [DisconnectConnectionClosed; DisconnectShutdown; DisconnectServerError; DisconnectExpired;
   DisconnectSubExpired; DisconnectSlow; DisconnectWriteError; DisconnectInsufficientState;
   DisconnectForceReconnect; DisconnectNoPong; DisconnectTooManyRequests; DisconnectInvalidToken;
   DisconnectBadRequest; DisconnectStale; DisconnectForceNoReconnect; DisconnectConnectionLimit;
   DisconnectChannelLimit; DisconnectInappropriateProtocol; DisconnectPermissionDenied;
   DisconnectNotAvailable; DisconnectTooManyErrors].

(** The close frame in which the deliverer sends the code and reason of a
    disconnect reaches the client's handler as that code and reason, and the
    client reconnects exactly for the codes below 3500; a disconnect push is
    treated the same way. *)
Theorem close_reasons_understood json_disconnect cfg d w :
  d ∈ server_disconnects -> json_disconnect d.(dreason) = None ->
  let next := if (d.(dcode) <? 3500)%Z then [OMoveConnecting d.(dcode) d.(dreason)]
              else [OMoveDisconnected d.(dcode) d.(dreason)] in
  handleDisconnect (extractDisconnectWebsocket json_disconnect (Some (d.(dcode), d.(dreason)))) = next /\
  handlePush cfg (mkPush "" None None None None (Some (d.(dcode), d.(dreason)))) w = next.
Proof.
  intros Hd Hj. unfold extractDisconnectWebsocket. rewrite Hj. clear Hj.
  unfold server_disconnects in Hd.
  repeat (apply elem_of_cons in Hd as [-> |Hd]; [by split|]). by apply elem_of_nil in Hd.
Qed.

(** The client refreshes its token when a connect command is refused with code
    109; the deliverer's code for an expired connection is 110, and every error
    it sends makes the client disconnect for good. *)
Example server_errors_disconnect t w :
  forallb (fun e => match (connect_err t (ErrServer e.(ecode) e.(emessage)) w).2 with
                    | [OMoveDisconnected _ _] => true | _ => false end)
    [ErrorExpired; ErrorInternal; ErrorPermissionDenied; ErrorBadRequest; ErrorUnrecoverablePosition;
     ErrorNotAvailable; ErrorAlreadySubscribed; ErrorLimitExceeded] = true.
Proof. done. Qed.

Lemma close_reasons_understood_witness :
  handleDisconnect (extractDisconnectWebsocket (fun _ => None) (Some (3503%Z, "force disconnect"))) =
    [OMoveDisconnected 3503 "force disconnect"] /\
  handlePush (cfg_with no_handlers) (mkPush "" None None None None (Some (3503%Z, "force disconnect")))
    (newClient (cfg_with no_handlers)) = [OMoveDisconnected 3503 "force disconnect"].
Proof.
  apply (close_reasons_understood (fun _ => None) (cfg_with no_handlers) DisconnectForceNoReconnect);
    [|done]. apply list_elem_of_In. vm_compute. tauto.
Defined.
