(* ===== verification/Scheduler.v ===== *)
(** The runner's scheduler: [server/runner/scheduler.go].

    One scheduler serves all workers of a runner.  It keeps three crons, one
    for tasks, one for brokers and one for channels, and files at most one
    entry per object in each.  The cron itself is robfig/cron: the class [Cron]
    holds its operations, [CronLaws] what its documentation promises. *)

From S2P Require Import Prelude GoStrings.

(** A cron over jobs of type [J]: [Entries], [AddJob] (an error when the
    schedule does not parse), [Remove], [Start], [Stop]. *)
Class Cron (J : Type) := {
  cron : Type;
  cron_new : cron;
  (** the schedules the parser accepts *)
  parses : string -> bool;
  Entries : cron -> list (Z * J);
  running : cron -> bool;
  AddJob : string -> J -> cron -> option (cron * Z);
  Remove : Z -> cron -> cron;
  Start : cron -> cron;
  Stop : cron -> cron
}.

(** [Entries] lists the jobs in an order of its own; identifiers are not used
    twice. *)
Class CronLaws {J : Type} (C : Cron J) : Prop := {
  entries_new : Entries cron_new = [] /\ running cron_new = false;
  add_parses : forall s j c, parses s = true <-> is_Some (AddJob s j c);
  entries_add : forall s j c c' id, AddJob s j c = Some (c', id) ->
    Entries c' ≡ₚ (id, j) :: Entries c /\ id ∉ (Entries c).*1 /\ running c' = running c;
  entries_remove : forall id c,
    Entries (Remove id c) ≡ₚ filter (fun e => e.1 <> id) (Entries c) /\ running (Remove id c) = running c;
  entries_start : forall c, Entries (Start c) = Entries c /\ running (Start c) = true;
  entries_stop : forall c, Entries (Stop c) = Entries c /\ running (Stop c) = false
}.

(** What the scheduler needs of a job: the [ID] of its object. *)
Class HasID (J : Type) := ID_of : J -> Z.

(** What the [Add] functions do besides filing: run the object at once when it
    has no schedule. *)
Inductive added : Type :=
| RunNow
| Scheduled (id : Z)
| BadSchedule.

Section Schedule.
Context {J : Type} `{HasID J} {C : Cron J}.
Implicit Types (c : cron) (j : J).

(** [GetEntryTask], [GetEntryBroker], [GetEntryChannel]: the first entry of the
    object. *)
Definition GetEntry (id : Z) c : option (Z * J) :=
  match filter (fun e => ID_of e.2 = id) (Entries c) with
  | e :: _ => Some e
  | [] => None
  end.

(** [RemoveTask], [RemoveBroker], [RemoveChannel]. *)
Definition RemoveEntry (id : Z) c : cron :=
  match GetEntry id c with
  | Some (eid, _) => Remove eid c
  | None => c
  end.

(** The common part of the [Add] functions: an entry of the object is removed,
    then the job is filed under [filed], or run at once when the object has no
    [schedule]. *)
Definition file_job (schedule filed : string) j c : cron * added :=
  let c := RemoveEntry (ID_of j) c in
  if bool_decide (schedule = "") then (c, RunNow)
  else match AddJob filed j c with
       | None => (c, BadSchedule)
       | Some (c, id) => (Start c, Scheduled id)
       end.

(** [AddTask] puts the time zone before a schedule that names none. *)
Definition task_schedule (schedule timezone : string) : string :=
  if negb (bool_decide (timezone = "")) && negb (HasPrefix schedule "@")
     && negb (HasPrefix schedule "TZ=") && negb (HasPrefix schedule "CRON_TZ=")
  then "CRON_TZ=" +:+ timezone +:+ " " +:+ schedule
  else schedule.

Definition AddTask (schedule timezone : string) j c : cron * added :=
  file_job schedule (task_schedule schedule timezone) j c.

(** [AddBroker] and [AddChannel] take the schedule of the trigger. *)
Definition AddBroker (schedule : string) j c : cron * added := file_job schedule schedule j c.
Definition AddChannel (schedule : string) j c : cron * added := file_job schedule schedule j c.

(** [ClearCron], for a cron whose jobs all have the type it expects: every
    listed entry's object is removed in turn. *)
Definition ClearCron c : cron :=
  fold_left (fun c e => RemoveEntry (ID_of e.2) c) (Entries c) c.

(** One entry per object, one object per entry identifier. *)
Definition one_each c : Prop :=
  NoDup (Entries c).*1 /\ NoDup (ID_of <$> (Entries c).*2).

(** The jobs of the cron by object. *)
Definition job_of (id : Z) c : option J := snd <$> GetEntry id c.

Context {L : CronLaws C}.

Lemma GetEntry_Some id c eid j :
  GetEntry id c = Some (eid, j) -> (eid, j) ∈ Entries c /\ ID_of j = id.
Proof.
  unfold GetEntry. destruct (filter _ _) as [|e l] eqn:Hf; [done|]. intros [= ->].
  assert (He : (eid, j) ∈ filter (fun e => ID_of e.2 = id) (Entries c)) by (rewrite Hf; left).
  apply list_elem_of_filter in He. naive_solver.
Qed.

Lemma GetEntry_None id c : GetEntry id c = None <-> id ∉ (ID_of <$> (Entries c).*2).
Proof.
  unfold GetEntry. destruct (filter _ _) as [|e l] eqn:Hf.
  - split; [|done]. intros _. intros (j & -> & ([eid j'] & -> & Hin)%list_elem_of_fmap)%list_elem_of_fmap.
    assert (He : (eid, j') ∈ filter (fun e => ID_of e.2 = ID_of j') (Entries c))
      by (by apply list_elem_of_filter).
    cbn in Hf. rewrite Hf in He. by apply elem_of_nil in He.
  - split; [done|]. intros Hn. exfalso. apply Hn.
    assert (He : e ∈ filter (fun e => ID_of e.2 = id) (Entries c)) by (rewrite Hf; left).
    apply list_elem_of_filter in He as [<- He].
    apply list_elem_of_fmap. exists e.2. split; [done|]. by apply list_elem_of_fmap_2.
Qed.

(** Objects of a cron with one entry each are found by their [ID]. *)
Lemma GetEntry_unique c eid j :
  one_each c -> (eid, j) ∈ Entries c -> GetEntry (ID_of j) c = Some (eid, j).
Proof.
  intros [_ Hnd] Hin. destruct (GetEntry (ID_of j) c) as [[eid' j']|] eqn:Hg.
  - apply GetEntry_Some in Hg as [Hin' Hid].
    apply list_elem_of_lookup in Hin as [i Hi]. apply list_elem_of_lookup in Hin' as [i' Hi'].
    assert (i = i') as ->; [|by rewrite Hi' in Hi; injection Hi as -> ->].
    eapply NoDup_lookup; [exact Hnd| |].
    + rewrite !list_lookup_fmap, Hi. done.
    + rewrite !list_lookup_fmap, Hi'. cbn. by rewrite Hid.
  - apply GetEntry_None in Hg. destruct Hg. apply list_elem_of_fmap. exists j. split; [done|].
    by apply (list_elem_of_fmap_2 snd _ (eid, j)).
Qed.

Lemma remove_entries id c :
  Entries (RemoveEntry id c) ≡ₚ
    match GetEntry id c with
    | Some g => filter (fun e => e.1 <> g.1) (Entries c)
    | None => Entries c
    end /\
  running (RemoveEntry id c) = running c.
Proof.
  unfold RemoveEntry. destruct (GetEntry id c) as [[eid j]|] eqn:Hg; [apply entries_remove|done].
Qed.

Lemma one_each_filter (P : Z * J -> Prop) `{!forall e, Decision (P e)} c c' :
  one_each c -> Entries c' ≡ₚ filter P (Entries c) -> one_each c'.
Proof.
  intros [H1 H2] Hp. split; rewrite Hp.
  - eapply sublist_NoDup; [exact H1|]. eapply fmap_sublist. eapply sublist_filter.
  - eapply sublist_NoDup; [exact H2|]. eapply fmap_sublist, fmap_sublist. eapply sublist_filter.
Qed.

(** Removing an object leaves the entries of the others and none of its own. *)
Lemma RemoveEntry_spec id c :
  one_each c ->
  one_each (RemoveEntry id c) /\ running (RemoveEntry id c) = running c /\
  (forall e, e ∈ Entries (RemoveEntry id c) <-> e ∈ Entries c /\ ID_of e.2 <> id).
Proof.
  intros Ho. destruct (remove_entries id c) as [Hp Hr].
  destruct (GetEntry id c) as [[eid' j']|] eqn:Hg.
  all: split_and!; [first [by eapply one_each_filter|by unfold one_each in *; rewrite Hp]|done|].
  all: intros [eid j]; rewrite Hp, ?list_elem_of_filter; cbn; split.
  - intros [Hne Hin]. split; [done|]. intros Hid. apply Hne.
    pose proof (GetEntry_unique c eid j Ho Hin) as Hu. rewrite Hid, Hg in Hu. by injection Hu as -> ->.
  - intros [Hin Hid]. split; [|done]. intros ->. apply GetEntry_Some in Hg as [Hin' Hid'].
    assert (j = j') as ->; [|done]. destruct Ho as [Hnd _].
    apply list_elem_of_lookup in Hin as [i Hi]. apply list_elem_of_lookup in Hin' as [i' Hi'].
    assert (i = i') as ->; [|by rewrite Hi' in Hi; injection Hi].
    eapply NoDup_lookup; [exact Hnd| |]; by rewrite list_lookup_fmap, ?Hi, ?Hi'.
  - intros Hin. split; [done|]. intros Hid. apply GetEntry_None in Hg. apply Hg.
    rewrite <- Hid. apply (list_elem_of_fmap_2 ID_of (Entries c).*2 j).
    by apply (list_elem_of_fmap_2 snd _ (eid, j)).
  - naive_solver.
Qed.

(** ** The contract

    A cron is a finite map from the [ID] of an object to the job filed for it,
    and a flag that says whether jobs fire. *)

Inductive sched_op : Type :=
| OpAddTask (schedule timezone : string) (j : J)
| OpAddBroker (schedule : string) (j : J)
| OpAddChannel (schedule : string) (j : J)
| OpRemove (id : Z)
| OpStop.

Definition sched_step (o : sched_op) c : cron * option added :=
  match o with
  | OpAddTask s tz j => let '(c, a) := AddTask s tz j c in (c, Some a)
  | OpAddBroker s j => let '(c, a) := AddBroker s j c in (c, Some a)
  | OpAddChannel s j => let '(c, a) := AddChannel s j c in (c, Some a)
  | OpRemove id => (RemoveEntry id c, None)
  | OpStop => (Stop c, None)
  end.

Definition sched_run (ops : list sched_op) c : cron :=
  fold_left (fun c o => (sched_step o c).1) ops c.

Definition spec_add (schedule : string) (filed : string) j (m : gmap Z J * bool) : gmap Z J * bool :=
  if bool_decide (schedule = "") || negb (parses filed) then (delete (ID_of j) m.1, m.2)
  else (<[ID_of j := j]> m.1, true).

Definition spec_step (o : sched_op) (m : gmap Z J * bool) : gmap Z J * bool :=
  match o with
  | OpAddTask s tz j => spec_add s (task_schedule s tz) j m
  | OpAddBroker s j | OpAddChannel s j => spec_add s s j m
  | OpRemove id => (delete id m.1, m.2)
  | OpStop => (m.1, false)
  end.

(** [c] holds the jobs of [m], each once. *)
Definition represents c (m : gmap Z J * bool) : Prop :=
  one_each c /\ running c = m.2 /\
  forall id j, m.1 !! id = Some j <-> ID_of j = id /\ exists eid, (eid, j) ∈ Entries c.

Lemma cron_represents_new : represents cron_new (∅, false).
Proof.
  destruct entries_new as [He Hr]. split_and!.
  - unfold one_each. rewrite He. split; constructor.
  - done.
  - intros id j. cbn. rewrite lookup_empty, He. split; [done|].
    intros (_ & eid & Hin). by apply elem_of_nil in Hin.
Qed.

Lemma represents_remove id c m :
  represents c m -> represents (RemoveEntry id c) (delete id m.1, m.2).
Proof.
  intros (Ho & Hr & Hm). destruct (RemoveEntry_spec id c Ho) as (Ho' & Hr' & Hin).
  split_and!; [done|by rewrite Hr'|]. intros k j. cbn. rewrite lookup_delete_Some, Hm.
  setoid_rewrite Hin. cbn. naive_solver.
Qed.

Lemma represents_file s j c c' eid m :
  represents c m -> m.1 !! ID_of j = None -> AddJob s j c = Some (c', eid) ->
  represents (Start c') (<[ID_of j := j]> m.1, true).
Proof.
  intros (Ho & Hr & Hm) Hfresh Ha. destruct (entries_add _ _ _ _ _ Ha) as (Hp & Hid & _).
  destruct (entries_start c') as [Hs Hs']. split_and!; [|by rewrite Hs'|].
  - unfold one_each in *. rewrite Hs, Hp. cbn. split; apply NoDup_cons; split; try apply Ho; [done|].
    intros (j' & Hj & ([e j''] & -> & Hin)%list_elem_of_fmap)%list_elem_of_fmap.
    assert (m.1 !! ID_of j = Some j''); [|by simplify_eq].
    apply Hm. split; [done|]. by exists e.
  - intros k j'. cbn. rewrite lookup_insert_Some, Hm, Hs. setoid_rewrite Hp. setoid_rewrite elem_of_cons.
    split; [|].
    + intros [[<- <-]|(Hne & Hj & e & Hin)]; split; try done; [exists eid|exists e]; auto.
    + intros (Hk & e & [[= -> ->]|Hin]); [by left|].
      destruct (decide (ID_of j = k)) as [Heq|]; [|naive_solver].
      exfalso. assert (m.1 !! ID_of j = Some j'); [|by simplify_eq].
      apply Hm. split; [by rewrite Heq|]. by exists e.
Qed.

Lemma represents_add schedule filed j c m :
  represents c m ->
  represents (file_job schedule filed j c).1 (spec_add schedule filed j m).
Proof.
  intros Hr. pose proof (represents_remove (ID_of j) c m Hr) as Hd. unfold file_job, spec_add.
  case_bool_decide; [done|]. cbn.
  destruct (AddJob filed j (RemoveEntry (ID_of j) c)) as [[c' id]|] eqn:Ha.
  - rewrite (proj2 (add_parses filed j (RemoveEntry (ID_of j) c))) by by rewrite Ha. cbn.
    rewrite <- insert_delete_eq. eapply (represents_file _ _ _ _ _ (delete _ _, _) Hd); [|done].
    apply lookup_delete_eq.
  - destruct (parses filed) eqn:Hp; [|done].
    apply (add_parses filed j (RemoveEntry (ID_of j) c)) in Hp as [? ?]. congruence.
Qed.

Lemma represents_step o c m :
  represents c m -> represents (sched_step o c).1 (spec_step o m).
Proof.
  intros Hr. destruct o as [s tz j|s j|s j|id|]; cbn [sched_step spec_step].
  - pose proof (represents_add s (task_schedule s tz) j c m Hr) as Ha. unfold AddTask.
    by destruct (file_job _ _ _ _).
  - pose proof (represents_add s s j c m Hr) as Ha. unfold AddBroker. by destruct (file_job _ _ _ _).
  - pose proof (represents_add s s j c m Hr) as Ha. unfold AddChannel. by destruct (file_job _ _ _ _).
  - by apply represents_remove.
  - destruct Hr as (Ho & _ & Hm). destruct (entries_stop c) as [He Hf].
    unfold represents, one_each in *. cbn. by rewrite He, Hf.
Qed.

(** Whatever is added, removed and stopped, a cron of the scheduler behaves
    as a finite map with a flag.  Each object has at most one entry, found by
    [GetEntry]; adding it again replaces the job; an empty or unparsable
    schedule leaves the object without an entry, also when it had one before;
    and jobs fire exactly when something was scheduled after the last stop,
    whoever stopped. *)
Theorem schedule_refines_map ops id :
  job_of id (sched_run ops cron_new) = fst (foldl (fun m o => spec_step o m) (∅, false) ops) !! id /\
  running (sched_run ops cron_new) = snd (foldl (fun m o => spec_step o m) (∅, false) ops).
Proof.
  assert (Hr : represents (sched_run ops cron_new) (foldl (fun m o => spec_step o m) (∅, false) ops)).
  { unfold sched_run. generalize cron_represents_new. generalize cron_new, (∅ : gmap Z J, false).
    induction ops as [|o ops IH]; intros c m Hr; [done|]. by apply IH, represents_step. }
  split; [|apply Hr]. destruct (foldl _ _ ops) as [m b]. destruct Hr as (Ho & _ & Hm). cbn in *.
  unfold job_of. destruct (GetEntry id _) as [[eid j]|] eqn:Hg; cbn; symmetry.
  - apply GetEntry_Some in Hg as [Hin Hid]. apply Hm. split; [done|]. by exists eid.
  - apply eq_None_not_Some. intros [j (<- & eid & Hin)%Hm].
    by rewrite (GetEntry_unique _ _ _ Ho Hin) in Hg.
Qed.

End Schedule.

(** A cron that keeps its entries in a list; it parses schedules that start
    with an at sign. *)
Record list_cron (J : Type) := mkCron { lc_entries : list (Z * J); lc_next : Z; lc_running : bool }.
Arguments mkCron {J} _ _ _.
Arguments lc_entries {J} _.
Arguments lc_next {J} _.
Arguments lc_running {J} _.

#[export] Instance list_cron_cron (J : Type) : Cron J := {|
  cron := list_cron J;
  cron_new := mkCron [] 1 false;
  parses s := HasPrefix s "@";
  Entries := lc_entries;
  running := lc_running;
  AddJob s j c :=
    if HasPrefix s "@" then
      let id := (1 + foldr Z.max c.(lc_next) (lc_entries c).*1)%Z in
      Some (mkCron (c.(lc_entries) ++ [(id, j)]) id c.(lc_running), id)
    else None;
  Remove id c := mkCron (filter (fun e => e.1 <> id) c.(lc_entries)) c.(lc_next) c.(lc_running);
  Start c := mkCron c.(lc_entries) c.(lc_next) true;
  Stop c := mkCron c.(lc_entries) c.(lc_next) false
|}.

Lemma foldr_max_le (l : list Z) d x : x ∈ l -> (x <= foldr Z.max d l)%Z.
Proof. induction 1 as [|y l Hin IH]; cbn; lia. Qed.

#[export] Instance list_cron_laws (J : Type) : CronLaws (list_cron_cron J).
Proof.
  split; try done.
  - intros s j c. cbn. destruct (HasPrefix s "@"); split; try done; by intros [? ?].
  - intros s j c c' id. cbn. destruct (HasPrefix s "@"); [|done]. intros [= <- <-]. cbn.
    split_and!; [by rewrite Permutation_app_comm| |done].
    intros Hin. pose proof (foldr_max_le _ (lc_next c) _ Hin). lia.
Qed.

#[local] Instance sample_id : HasID (Z * string) := fst.

Lemma schedule_refines_map_witness :
  job_of (J:=Z * string) 7%Z
    (sched_run [OpAddBroker "@daily" (7%Z, "a"); OpAddBroker "@hourly" (7%Z, "b"); OpStop] cron_new) = Some (7%Z, "b").
Proof.
  exact (proj1 (schedule_refines_map (J:=Z * string) [OpAddBroker "@daily" (7%Z, "a"); OpAddBroker "@hourly" (7%Z, "b"); OpStop] 7%Z)).
Defined.
