(* ===== verification/WorkerData.v ===== *)
(** The runner's worker: data of [server/runner/worker.go].

    A worker runs one workflow.  It keeps the requests it sent to clients and
    waits for, what was delivered to whom, the points (clients, channels,
    tasks, brokers) messages go to, and many goroutines.  [CmdTask] objects are
    shared between goroutines, which write into them, so they live in a store
    and are passed by reference, as runtimes of templates are.  A goroutine is
    the list of the operations it still has to do; callbacks of requests are
    the constructors of [cbk].

    The template engine is the class [Engine], [encoding/json] on the messages
    of the package is the class [Json]; [interp_engine] is the engine of
    [Interp]. *)

From S2P Require Import Prelude GoStrings Names OrderedMap Template Compile Value Runtime Interp Scheduler.

#[local] Open Scope Z_scope.

(** ** Constants *)

(** Commands of events. *)
Definition DeliverBorkerCmd : Z := 0.
Definition DeleteWorkerCmd : Z := 1.
Definition ReceiveDeliverTaskCmd : Z := 2.
Definition ReceiveDeliverBrokerCmd : Z := 3.

(** Types of points. *)
Definition KairosPoint : Z := 0.
Definition ClientPoint : Z := 1.
Definition ChannelPoint : Z := 2.
Definition BrokerPoint : Z := 3.
Definition TaskPoint : Z := 4.

(** Status of triggers. *)
Definition TriggerDeliver : Z := 0.
Definition TriggerScheduled : Z := 1.
Definition TriggerFinish : Z := 2.
Definition TriggerRunning : Z := 3.

(** Status of points. *)
Definition PointNormal : Z := 0.
Definition PointDestroy : Z := 1.

(** Status of workflows (workflow.go). *)
Definition Pending : Z := 0.
Definition Delivering : Z := 1.
Definition Running : Z := 2.
Definition Pause : Z := 3.
Definition Destroying : Z := 4.
Definition Destroyed : Z := 5.
Definition Recovering : Z := 6.

(** [RequestActionTask]. *)
Definition SetTaskCmd : Z := 0.
Definition TriggerStartTaskCmd : Z := 1.
Definition InputTaskCmd : Z := 2.
Definition RequestTaskRunSyncCmd : Z := 3.
Definition SetBrokerCmd : Z := 4.
Definition RequestDestroyWf : Z := 5.
Definition TriggerCmd : Z := 6.

(** [ResponseActionTask]. *)
Definition ReplySetTaskCmd : Z := 0.
Definition ReplyStartTaskCmd : Z := 1.
Definition ReplyOutputTaskCmd : Z := 2.
Definition ReplyInputTaskCmd : Z := 3.
Definition ReplyMessageCmd : Z := 4.
Definition ReplyRequestTaskSyncCmd : Z := 5.
Definition ReplySetBrokerCmd : Z := 6.
Definition ReplyDestroyWf : Z := 7.
Definition ReplyLogWfCmd : Z := 8.
Definition ReplyTriggerCmd : Z := 9.

(** Status of deliveries. *)
Definition PendingDeliver : Z := 0.
Definition SuccessSetTask : Z := 1.
Definition FaultSetTask : Z := 2.
Definition SuccessTriggerTask : Z := 3.
Definition FaultTriggerTask : Z := 4.
Definition SuccessReceiveInputTaskCmd : Z := 5.
Definition SuccessReceiveOutputTaskCmd : Z := 6.
Definition FaultInputTask : Z := 7.
Definition SuccessReceiveRequestRunSyncTaskCmd : Z := 8.
Definition SuccessSetBroker : Z := 9.
Definition FaultSetBroker : Z := 10.
Definition SuccessDestroyWorkflow : Z := 11.
Definition FaultDestroyWorkflow : Z := 12.

(** Commands of the monitor. *)
Definition SetStatusWorkflow : Z := 0.
Definition LogMessageFlow : Z := 1.
Definition DestroyWorkflow : Z := 2.
Definition RecoverWorkflow : Z := 3.
Definition ObjectStatusWorkflow : Z := 4.
Definition TriggerStatusWorkflow : Z := 5.

(** Kinds of message flows and of workflow records (models). *)
Definition FlowDeliver : Z := 0.
Definition FlowReciever : Z := 1.
Definition FlowLog : Z := 2.
Definition FlowKairosLog : Z := 3.

Definition WFRecordFault : Z := 0.
Definition WFRecordScuccess : Z := 1.

Definition HttpHookTask : string := "httphook".
Definition KairosDaemon : string := "kairosdeamon".

(** [Point]. *)
Record Point := mkPoint {
  p_ID : Z;
  p_Type : Z;
  p_Name : string;
  p_Status : Z
}.

Definition put_p_Status (v : Z) (x : Point) : Point :=
  mkPoint x.(p_ID) x.(p_Type) x.(p_Name) v.

(** [workflow.Trigger]. *)
Record Trigger := mkTrigger {
  tg_ID : Z;
  tg_WorkflowID : Z;
  tg_ObjectID : Z;
  tg_Name : string;
  tg_Type : string;
  tg_Schedule : string;
  tg_Input : string;
  tg_Status : Z;
  tg_TriggerAt : Z;
  tg_Client : string;
  tg_Action : string
}.


Definition trigger_with_id (id : Z) : Trigger := mkTrigger id 0 0 "" "" "" "" 0 0 "" "".

(** [workflow.Retry]. *)
Record Retry := mkRetry { rt_ID : Z; rt_Attempt : Z }.

(** [workflow.Task] as the worker uses it: the compiled task with its input,
    output and metadata (the identifiers of its clients). *)
Record WTask := mkWTask {
  tk : Task;
  tk_Input : string;
  tk_Output : string;
  tk_Metadata : gmap string string
}.

(** A task in a message: [ID], [WorkflowID], [Name], [Input] and [Output]. *)
Definition msg_task (id wid : Z) (name input output : string) : WTask :=
  mkWTask (mkTask id name "" "" [] 0 "" "" "" wid "") input output ∅.

(** [workflow.Channel] and [workflow.Client]. *)
Record Named := mkNamed { n_ID : Z; n_Name : string }.

(** What one run of a template gives: deliveries, the error of the tracking, the
    result and the JSON text of the whole. *)
Record exec_out (V : Type) := mkExecOut {
  eo_flows : list (DeliverFlow V);
  eo_err : option string;
  eo_result : string;
  eo_json : string
}.
Arguments mkExecOut {V} _ _ _ _.
Arguments eo_flows {V} _.
Arguments eo_err {V} _.
Arguments eo_result {V} _.
Arguments eo_json {V} _.

(** The template engine: functions, values, runtimes and contents of messages;
    [NewRutime] and [Execute] (which may loop, hence the fuel); appending to
    [ExpInput]; the type assertion to a string, [json.Marshal], and the values
    the worker makes. *)
Class Engine := {
  EFn : Type;
  EV : Type;
  ERt : Type;
  Content : Type;
  engine_new : Template EFn -> gmap string (gmap string EV) -> ERt;
  engine_execute : nat -> ERt -> outcome Empty_set (option (ERt * exec_out EV));
  engine_input : EV -> ERt -> ERt;
  ev_as_string : EV -> option string;
  ev_json : EV -> string;
  ev_string : string -> EV;
  ev_content : Content -> EV;
  ev_result : Result -> EV;
  (** [ReplyTask] and [ReplyChannel] *)
  ev_reply_task : option Result -> EV;
  ev_reply_channel : option Content -> EV
}.

Section Data.
Context {E : Engine}.

(** [workflow.Broker] with its [Queue] flag; [DynamicVars] is part of the world. *)
Record BrokerObj := mkBrokerObj {
  bo : Broker EFn;
  bo_Queue : bool
}.


(** [workflow.CmdTask]. *)
Record CmdTask := mkCmd {
  c_Cmd : Z;
  c_Task : option WTask;
  c_Message : option EV;
  c_DeliverID : Z;
  c_WorkflowID : Z;
  c_Channel : string;
  c_Status : Z;
  c_From : string;
  c_SendAt : Z;
  c_Offset : Z;
  c_RunCount : Z;
  c_Broker : option BrokerObj;
  c_Trigger : option Trigger;
  c_Group : string;
  c_Parent : string;
  c_Part : string;
  c_Start : bool;
  c_StartInput : string;
  c_Retry : option Retry;
  c_Attempt : Z
}.

Definition put_c_Cmd (v : Z) (x : CmdTask) : CmdTask :=
  mkCmd v x.(c_Task) x.(c_Message) x.(c_DeliverID) x.(c_WorkflowID) x.(c_Channel) x.(c_Status)
    x.(c_From) x.(c_SendAt) x.(c_Offset) x.(c_RunCount) x.(c_Broker) x.(c_Trigger) x.(c_Group)
    x.(c_Parent) x.(c_Part) x.(c_Start) x.(c_StartInput) x.(c_Retry) x.(c_Attempt).
Definition put_c_Task (v : option WTask) (x : CmdTask) : CmdTask :=
  mkCmd x.(c_Cmd) v x.(c_Message) x.(c_DeliverID) x.(c_WorkflowID) x.(c_Channel) x.(c_Status)
    x.(c_From) x.(c_SendAt) x.(c_Offset) x.(c_RunCount) x.(c_Broker) x.(c_Trigger) x.(c_Group)
    x.(c_Parent) x.(c_Part) x.(c_Start) x.(c_StartInput) x.(c_Retry) x.(c_Attempt).
Definition put_c_Message (v : option EV) (x : CmdTask) : CmdTask :=
  mkCmd x.(c_Cmd) x.(c_Task) v x.(c_DeliverID) x.(c_WorkflowID) x.(c_Channel) x.(c_Status)
    x.(c_From) x.(c_SendAt) x.(c_Offset) x.(c_RunCount) x.(c_Broker) x.(c_Trigger) x.(c_Group)
    x.(c_Parent) x.(c_Part) x.(c_Start) x.(c_StartInput) x.(c_Retry) x.(c_Attempt).
Definition put_c_DeliverID (v : Z) (x : CmdTask) : CmdTask :=
  mkCmd x.(c_Cmd) x.(c_Task) x.(c_Message) v x.(c_WorkflowID) x.(c_Channel) x.(c_Status) x.(c_From)
    x.(c_SendAt) x.(c_Offset) x.(c_RunCount) x.(c_Broker) x.(c_Trigger) x.(c_Group) x.(c_Parent)
    x.(c_Part) x.(c_Start) x.(c_StartInput) x.(c_Retry) x.(c_Attempt).
Definition put_c_WorkflowID (v : Z) (x : CmdTask) : CmdTask :=
  mkCmd x.(c_Cmd) x.(c_Task) x.(c_Message) x.(c_DeliverID) v x.(c_Channel) x.(c_Status) x.(c_From)
    x.(c_SendAt) x.(c_Offset) x.(c_RunCount) x.(c_Broker) x.(c_Trigger) x.(c_Group) x.(c_Parent)
    x.(c_Part) x.(c_Start) x.(c_StartInput) x.(c_Retry) x.(c_Attempt).
Definition put_c_Channel (v : string) (x : CmdTask) : CmdTask :=
  mkCmd x.(c_Cmd) x.(c_Task) x.(c_Message) x.(c_DeliverID) x.(c_WorkflowID) v x.(c_Status)
    x.(c_From) x.(c_SendAt) x.(c_Offset) x.(c_RunCount) x.(c_Broker) x.(c_Trigger) x.(c_Group)
    x.(c_Parent) x.(c_Part) x.(c_Start) x.(c_StartInput) x.(c_Retry) x.(c_Attempt).
Definition put_c_Status (v : Z) (x : CmdTask) : CmdTask :=
  mkCmd x.(c_Cmd) x.(c_Task) x.(c_Message) x.(c_DeliverID) x.(c_WorkflowID) x.(c_Channel) v
    x.(c_From) x.(c_SendAt) x.(c_Offset) x.(c_RunCount) x.(c_Broker) x.(c_Trigger) x.(c_Group)
    x.(c_Parent) x.(c_Part) x.(c_Start) x.(c_StartInput) x.(c_Retry) x.(c_Attempt).
Definition put_c_From (v : string) (x : CmdTask) : CmdTask :=
  mkCmd x.(c_Cmd) x.(c_Task) x.(c_Message) x.(c_DeliverID) x.(c_WorkflowID) x.(c_Channel)
    x.(c_Status) v x.(c_SendAt) x.(c_Offset) x.(c_RunCount) x.(c_Broker) x.(c_Trigger) x.(c_Group)
    x.(c_Parent) x.(c_Part) x.(c_Start) x.(c_StartInput) x.(c_Retry) x.(c_Attempt).
Definition put_c_SendAt (v : Z) (x : CmdTask) : CmdTask :=
  mkCmd x.(c_Cmd) x.(c_Task) x.(c_Message) x.(c_DeliverID) x.(c_WorkflowID) x.(c_Channel)
    x.(c_Status) x.(c_From) v x.(c_Offset) x.(c_RunCount) x.(c_Broker) x.(c_Trigger) x.(c_Group)
    x.(c_Parent) x.(c_Part) x.(c_Start) x.(c_StartInput) x.(c_Retry) x.(c_Attempt).
Definition put_c_RunCount (v : Z) (x : CmdTask) : CmdTask :=
  mkCmd x.(c_Cmd) x.(c_Task) x.(c_Message) x.(c_DeliverID) x.(c_WorkflowID) x.(c_Channel)
    x.(c_Status) x.(c_From) x.(c_SendAt) x.(c_Offset) v x.(c_Broker) x.(c_Trigger) x.(c_Group)
    x.(c_Parent) x.(c_Part) x.(c_Start) x.(c_StartInput) x.(c_Retry) x.(c_Attempt).
Definition put_c_Broker (v : option BrokerObj) (x : CmdTask) : CmdTask :=
  mkCmd x.(c_Cmd) x.(c_Task) x.(c_Message) x.(c_DeliverID) x.(c_WorkflowID) x.(c_Channel)
    x.(c_Status) x.(c_From) x.(c_SendAt) x.(c_Offset) x.(c_RunCount) v x.(c_Trigger) x.(c_Group)
    x.(c_Parent) x.(c_Part) x.(c_Start) x.(c_StartInput) x.(c_Retry) x.(c_Attempt).
Definition put_c_Trigger (v : option Trigger) (x : CmdTask) : CmdTask :=
  mkCmd x.(c_Cmd) x.(c_Task) x.(c_Message) x.(c_DeliverID) x.(c_WorkflowID) x.(c_Channel)
    x.(c_Status) x.(c_From) x.(c_SendAt) x.(c_Offset) x.(c_RunCount) x.(c_Broker) v x.(c_Group)
    x.(c_Parent) x.(c_Part) x.(c_Start) x.(c_StartInput) x.(c_Retry) x.(c_Attempt).
Definition put_c_Group (v : string) (x : CmdTask) : CmdTask :=
  mkCmd x.(c_Cmd) x.(c_Task) x.(c_Message) x.(c_DeliverID) x.(c_WorkflowID) x.(c_Channel)
    x.(c_Status) x.(c_From) x.(c_SendAt) x.(c_Offset) x.(c_RunCount) x.(c_Broker) x.(c_Trigger) v
    x.(c_Parent) x.(c_Part) x.(c_Start) x.(c_StartInput) x.(c_Retry) x.(c_Attempt).
Definition put_c_Parent (v : string) (x : CmdTask) : CmdTask :=
  mkCmd x.(c_Cmd) x.(c_Task) x.(c_Message) x.(c_DeliverID) x.(c_WorkflowID) x.(c_Channel)
    x.(c_Status) x.(c_From) x.(c_SendAt) x.(c_Offset) x.(c_RunCount) x.(c_Broker) x.(c_Trigger)
    x.(c_Group) v x.(c_Part) x.(c_Start) x.(c_StartInput) x.(c_Retry) x.(c_Attempt).
Definition put_c_Part (v : string) (x : CmdTask) : CmdTask :=
  mkCmd x.(c_Cmd) x.(c_Task) x.(c_Message) x.(c_DeliverID) x.(c_WorkflowID) x.(c_Channel)
    x.(c_Status) x.(c_From) x.(c_SendAt) x.(c_Offset) x.(c_RunCount) x.(c_Broker) x.(c_Trigger)
    x.(c_Group) x.(c_Parent) v x.(c_Start) x.(c_StartInput) x.(c_Retry) x.(c_Attempt).
Definition put_c_Start (v : bool) (x : CmdTask) : CmdTask :=
  mkCmd x.(c_Cmd) x.(c_Task) x.(c_Message) x.(c_DeliverID) x.(c_WorkflowID) x.(c_Channel)
    x.(c_Status) x.(c_From) x.(c_SendAt) x.(c_Offset) x.(c_RunCount) x.(c_Broker) x.(c_Trigger)
    x.(c_Group) x.(c_Parent) x.(c_Part) v x.(c_StartInput) x.(c_Retry) x.(c_Attempt).
Definition put_c_StartInput (v : string) (x : CmdTask) : CmdTask :=
  mkCmd x.(c_Cmd) x.(c_Task) x.(c_Message) x.(c_DeliverID) x.(c_WorkflowID) x.(c_Channel)
    x.(c_Status) x.(c_From) x.(c_SendAt) x.(c_Offset) x.(c_RunCount) x.(c_Broker) x.(c_Trigger)
    x.(c_Group) x.(c_Parent) x.(c_Part) x.(c_Start) v x.(c_Retry) x.(c_Attempt).
Definition put_c_Retry (v : option Retry) (x : CmdTask) : CmdTask :=
  mkCmd x.(c_Cmd) x.(c_Task) x.(c_Message) x.(c_DeliverID) x.(c_WorkflowID) x.(c_Channel)
    x.(c_Status) x.(c_From) x.(c_SendAt) x.(c_Offset) x.(c_RunCount) x.(c_Broker) x.(c_Trigger)
    x.(c_Group) x.(c_Parent) x.(c_Part) x.(c_Start) x.(c_StartInput) v x.(c_Attempt).
Definition put_c_Attempt (v : Z) (x : CmdTask) : CmdTask :=
  mkCmd x.(c_Cmd) x.(c_Task) x.(c_Message) x.(c_DeliverID) x.(c_WorkflowID) x.(c_Channel)
    x.(c_Status) x.(c_From) x.(c_SendAt) x.(c_Offset) x.(c_RunCount) x.(c_Broker) x.(c_Trigger)
    x.(c_Group) x.(c_Parent) x.(c_Part) x.(c_Start) x.(c_StartInput) x.(c_Retry) v.

Definition zero_cmd : CmdTask :=
  mkCmd 0 None None 0 0 "" 0 "" 0 0 0 None None "" "" "" false "" None 0.

(** [workflow.CmdReplyTask]. *)
Record CmdReplyTask := mkReplyTask {
  r_Cmd : Z;
  r_TaskID : Z;
  r_TaskName : string;
  r_BrokerID : Z;
  r_BrokerName : string;
  r_DeliverID : Z;
  r_RunOn : string;
  r_Status : Z;
  r_WorkflowID : Z;
  r_Channel : string;
  r_Message : string;
  r_Content : option Content;
  r_Result : option Result;
  r_Trigger : option Trigger;
  r_Input : string;
  r_SendAt : Z;
  r_RunCount : Z;
  r_Group : string;
  r_StartInput : string;
  r_Start : bool;
  r_Parent : string;
  r_Part : string;
  r_BeginPart : bool;
  r_FinishPart : bool;
  r_TaskInput : string
}.

Definition put_r_Cmd (v : Z) (x : CmdReplyTask) : CmdReplyTask :=
  mkReplyTask v x.(r_TaskID) x.(r_TaskName) x.(r_BrokerID) x.(r_BrokerName) x.(r_DeliverID)
    x.(r_RunOn) x.(r_Status) x.(r_WorkflowID) x.(r_Channel) x.(r_Message) x.(r_Content)
    x.(r_Result) x.(r_Trigger) x.(r_Input) x.(r_SendAt) x.(r_RunCount) x.(r_Group)
    x.(r_StartInput) x.(r_Start) x.(r_Parent) x.(r_Part) x.(r_BeginPart) x.(r_FinishPart)
    x.(r_TaskInput).
Definition put_r_TaskID (v : Z) (x : CmdReplyTask) : CmdReplyTask :=
  mkReplyTask x.(r_Cmd) v x.(r_TaskName) x.(r_BrokerID) x.(r_BrokerName) x.(r_DeliverID) x.(r_RunOn)
    x.(r_Status) x.(r_WorkflowID) x.(r_Channel) x.(r_Message) x.(r_Content) x.(r_Result)
    x.(r_Trigger) x.(r_Input) x.(r_SendAt) x.(r_RunCount) x.(r_Group) x.(r_StartInput) x.(r_Start)
    x.(r_Parent) x.(r_Part) x.(r_BeginPart) x.(r_FinishPart) x.(r_TaskInput).
Definition put_r_TaskName (v : string) (x : CmdReplyTask) : CmdReplyTask :=
  mkReplyTask x.(r_Cmd) x.(r_TaskID) v x.(r_BrokerID) x.(r_BrokerName) x.(r_DeliverID) x.(r_RunOn)
    x.(r_Status) x.(r_WorkflowID) x.(r_Channel) x.(r_Message) x.(r_Content) x.(r_Result)
    x.(r_Trigger) x.(r_Input) x.(r_SendAt) x.(r_RunCount) x.(r_Group) x.(r_StartInput) x.(r_Start)
    x.(r_Parent) x.(r_Part) x.(r_BeginPart) x.(r_FinishPart) x.(r_TaskInput).
Definition put_r_BrokerID (v : Z) (x : CmdReplyTask) : CmdReplyTask :=
  mkReplyTask x.(r_Cmd) x.(r_TaskID) x.(r_TaskName) v x.(r_BrokerName) x.(r_DeliverID) x.(r_RunOn)
    x.(r_Status) x.(r_WorkflowID) x.(r_Channel) x.(r_Message) x.(r_Content) x.(r_Result)
    x.(r_Trigger) x.(r_Input) x.(r_SendAt) x.(r_RunCount) x.(r_Group) x.(r_StartInput) x.(r_Start)
    x.(r_Parent) x.(r_Part) x.(r_BeginPart) x.(r_FinishPart) x.(r_TaskInput).
Definition put_r_BrokerName (v : string) (x : CmdReplyTask) : CmdReplyTask :=
  mkReplyTask x.(r_Cmd) x.(r_TaskID) x.(r_TaskName) x.(r_BrokerID) v x.(r_DeliverID) x.(r_RunOn)
    x.(r_Status) x.(r_WorkflowID) x.(r_Channel) x.(r_Message) x.(r_Content) x.(r_Result)
    x.(r_Trigger) x.(r_Input) x.(r_SendAt) x.(r_RunCount) x.(r_Group) x.(r_StartInput) x.(r_Start)
    x.(r_Parent) x.(r_Part) x.(r_BeginPart) x.(r_FinishPart) x.(r_TaskInput).
Definition put_r_DeliverID (v : Z) (x : CmdReplyTask) : CmdReplyTask :=
  mkReplyTask x.(r_Cmd) x.(r_TaskID) x.(r_TaskName) x.(r_BrokerID) x.(r_BrokerName) v x.(r_RunOn)
    x.(r_Status) x.(r_WorkflowID) x.(r_Channel) x.(r_Message) x.(r_Content) x.(r_Result)
    x.(r_Trigger) x.(r_Input) x.(r_SendAt) x.(r_RunCount) x.(r_Group) x.(r_StartInput) x.(r_Start)
    x.(r_Parent) x.(r_Part) x.(r_BeginPart) x.(r_FinishPart) x.(r_TaskInput).
Definition put_r_RunOn (v : string) (x : CmdReplyTask) : CmdReplyTask :=
  mkReplyTask x.(r_Cmd) x.(r_TaskID) x.(r_TaskName) x.(r_BrokerID) x.(r_BrokerName) x.(r_DeliverID)
    v x.(r_Status) x.(r_WorkflowID) x.(r_Channel) x.(r_Message) x.(r_Content) x.(r_Result)
    x.(r_Trigger) x.(r_Input) x.(r_SendAt) x.(r_RunCount) x.(r_Group) x.(r_StartInput) x.(r_Start)
    x.(r_Parent) x.(r_Part) x.(r_BeginPart) x.(r_FinishPart) x.(r_TaskInput).
Definition put_r_Status (v : Z) (x : CmdReplyTask) : CmdReplyTask :=
  mkReplyTask x.(r_Cmd) x.(r_TaskID) x.(r_TaskName) x.(r_BrokerID) x.(r_BrokerName) x.(r_DeliverID)
    x.(r_RunOn) v x.(r_WorkflowID) x.(r_Channel) x.(r_Message) x.(r_Content) x.(r_Result)
    x.(r_Trigger) x.(r_Input) x.(r_SendAt) x.(r_RunCount) x.(r_Group) x.(r_StartInput) x.(r_Start)
    x.(r_Parent) x.(r_Part) x.(r_BeginPart) x.(r_FinishPart) x.(r_TaskInput).
Definition put_r_WorkflowID (v : Z) (x : CmdReplyTask) : CmdReplyTask :=
  mkReplyTask x.(r_Cmd) x.(r_TaskID) x.(r_TaskName) x.(r_BrokerID) x.(r_BrokerName) x.(r_DeliverID)
    x.(r_RunOn) x.(r_Status) v x.(r_Channel) x.(r_Message) x.(r_Content) x.(r_Result)
    x.(r_Trigger) x.(r_Input) x.(r_SendAt) x.(r_RunCount) x.(r_Group) x.(r_StartInput) x.(r_Start)
    x.(r_Parent) x.(r_Part) x.(r_BeginPart) x.(r_FinishPart) x.(r_TaskInput).
Definition put_r_Message (v : string) (x : CmdReplyTask) : CmdReplyTask :=
  mkReplyTask x.(r_Cmd) x.(r_TaskID) x.(r_TaskName) x.(r_BrokerID) x.(r_BrokerName) x.(r_DeliverID)
    x.(r_RunOn) x.(r_Status) x.(r_WorkflowID) x.(r_Channel) v x.(r_Content) x.(r_Result)
    x.(r_Trigger) x.(r_Input) x.(r_SendAt) x.(r_RunCount) x.(r_Group) x.(r_StartInput) x.(r_Start)
    x.(r_Parent) x.(r_Part) x.(r_BeginPart) x.(r_FinishPart) x.(r_TaskInput).
Definition put_r_Trigger (v : option Trigger) (x : CmdReplyTask) : CmdReplyTask :=
  mkReplyTask x.(r_Cmd) x.(r_TaskID) x.(r_TaskName) x.(r_BrokerID) x.(r_BrokerName) x.(r_DeliverID)
    x.(r_RunOn) x.(r_Status) x.(r_WorkflowID) x.(r_Channel) x.(r_Message) x.(r_Content)
    x.(r_Result) v x.(r_Input) x.(r_SendAt) x.(r_RunCount) x.(r_Group) x.(r_StartInput)
    x.(r_Start) x.(r_Parent) x.(r_Part) x.(r_BeginPart) x.(r_FinishPart) x.(r_TaskInput).
Definition put_r_Group (v : string) (x : CmdReplyTask) : CmdReplyTask :=
  mkReplyTask x.(r_Cmd) x.(r_TaskID) x.(r_TaskName) x.(r_BrokerID) x.(r_BrokerName) x.(r_DeliverID)
    x.(r_RunOn) x.(r_Status) x.(r_WorkflowID) x.(r_Channel) x.(r_Message) x.(r_Content)
    x.(r_Result) x.(r_Trigger) x.(r_Input) x.(r_SendAt) x.(r_RunCount) v x.(r_StartInput)
    x.(r_Start) x.(r_Parent) x.(r_Part) x.(r_BeginPart) x.(r_FinishPart) x.(r_TaskInput).
Definition put_r_StartInput (v : string) (x : CmdReplyTask) : CmdReplyTask :=
  mkReplyTask x.(r_Cmd) x.(r_TaskID) x.(r_TaskName) x.(r_BrokerID) x.(r_BrokerName) x.(r_DeliverID)
    x.(r_RunOn) x.(r_Status) x.(r_WorkflowID) x.(r_Channel) x.(r_Message) x.(r_Content)
    x.(r_Result) x.(r_Trigger) x.(r_Input) x.(r_SendAt) x.(r_RunCount) x.(r_Group) v x.(r_Start)
    x.(r_Parent) x.(r_Part) x.(r_BeginPart) x.(r_FinishPart) x.(r_TaskInput).
Definition put_r_Start (v : bool) (x : CmdReplyTask) : CmdReplyTask :=
  mkReplyTask x.(r_Cmd) x.(r_TaskID) x.(r_TaskName) x.(r_BrokerID) x.(r_BrokerName) x.(r_DeliverID)
    x.(r_RunOn) x.(r_Status) x.(r_WorkflowID) x.(r_Channel) x.(r_Message) x.(r_Content)
    x.(r_Result) x.(r_Trigger) x.(r_Input) x.(r_SendAt) x.(r_RunCount) x.(r_Group)
    x.(r_StartInput) v x.(r_Parent) x.(r_Part) x.(r_BeginPart) x.(r_FinishPart) x.(r_TaskInput).
Definition put_r_Parent (v : string) (x : CmdReplyTask) : CmdReplyTask :=
  mkReplyTask x.(r_Cmd) x.(r_TaskID) x.(r_TaskName) x.(r_BrokerID) x.(r_BrokerName) x.(r_DeliverID)
    x.(r_RunOn) x.(r_Status) x.(r_WorkflowID) x.(r_Channel) x.(r_Message) x.(r_Content)
    x.(r_Result) x.(r_Trigger) x.(r_Input) x.(r_SendAt) x.(r_RunCount) x.(r_Group)
    x.(r_StartInput) x.(r_Start) v x.(r_Part) x.(r_BeginPart) x.(r_FinishPart) x.(r_TaskInput).
Definition put_r_Part (v : string) (x : CmdReplyTask) : CmdReplyTask :=
  mkReplyTask x.(r_Cmd) x.(r_TaskID) x.(r_TaskName) x.(r_BrokerID) x.(r_BrokerName) x.(r_DeliverID)
    x.(r_RunOn) x.(r_Status) x.(r_WorkflowID) x.(r_Channel) x.(r_Message) x.(r_Content)
    x.(r_Result) x.(r_Trigger) x.(r_Input) x.(r_SendAt) x.(r_RunCount) x.(r_Group)
    x.(r_StartInput) x.(r_Start) x.(r_Parent) v x.(r_BeginPart) x.(r_FinishPart) x.(r_TaskInput).
Definition put_r_BeginPart (v : bool) (x : CmdReplyTask) : CmdReplyTask :=
  mkReplyTask x.(r_Cmd) x.(r_TaskID) x.(r_TaskName) x.(r_BrokerID) x.(r_BrokerName) x.(r_DeliverID)
    x.(r_RunOn) x.(r_Status) x.(r_WorkflowID) x.(r_Channel) x.(r_Message) x.(r_Content)
    x.(r_Result) x.(r_Trigger) x.(r_Input) x.(r_SendAt) x.(r_RunCount) x.(r_Group)
    x.(r_StartInput) x.(r_Start) x.(r_Parent) x.(r_Part) v x.(r_FinishPart) x.(r_TaskInput).

Definition zero_reply : CmdReplyTask :=
  mkReplyTask 0 0 "" 0 "" 0 "" 0 0 "" "" None None None "" 0 0 "" "" false "" "" false false "".

(** [workflow.LogDaemon]. *)
Record LogDaemon := mkLogDaemon {
  ld_Reply : option CmdReplyTask;
  ld_Request : option CmdTask;
  ld_RunOn : string;
  ld_SendAt : Z;
  ld_Tracking : string;
  ld_BrokerName : string;
  ld_BrokerGroup : string
}.


(** [models.MessageFlow], the columns the worker writes. *)
Record MessageFlow := mkMessageFlow {
  mf_ID : Z;
  mf_Status : Z;
  mf_SenderID : Z;
  mf_SenderType : Z;
  mf_SenderName : string;
  mf_ReceiverID : Z;
  mf_ReceiverType : Z;
  mf_ReceiverName : string;
  mf_WorkflowID : Z;
  mf_Message : string;
  mf_Attempt : Z;
  mf_Flow : Z;
  mf_CreatedAt : Z;
  mf_DeliverID : Z;
  mf_ResponseSize : Z;
  mf_Cmd : Z;
  mf_Start : bool;
  mf_StartInput : string;
  mf_Group : string;
  mf_TaskID : Z;
  mf_SendAt : Z;
  mf_ReceiveAt : Z;
  mf_TaskName : string;
  mf_Part : string;
  mf_Parent : string;
  mf_BeginPart : bool;
  mf_FinishPart : bool;
  mf_Tracking : string;
  mf_BrokerGroup : string;
  mf_TriggerID : Z
}.

Definition put_mf_ID (v : Z) (x : MessageFlow) : MessageFlow :=
  mkMessageFlow v x.(mf_Status) x.(mf_SenderID) x.(mf_SenderType) x.(mf_SenderName)
    x.(mf_ReceiverID) x.(mf_ReceiverType) x.(mf_ReceiverName) x.(mf_WorkflowID) x.(mf_Message)
    x.(mf_Attempt) x.(mf_Flow) x.(mf_CreatedAt) x.(mf_DeliverID) x.(mf_ResponseSize) x.(mf_Cmd)
    x.(mf_Start) x.(mf_StartInput) x.(mf_Group) x.(mf_TaskID) x.(mf_SendAt) x.(mf_ReceiveAt)
    x.(mf_TaskName) x.(mf_Part) x.(mf_Parent) x.(mf_BeginPart) x.(mf_FinishPart) x.(mf_Tracking)
    x.(mf_BrokerGroup) x.(mf_TriggerID).

(** [DeliverErr]: [de_Msg] refers to the store of commands. *)
Record DeliverErr := mkDeliverErr {
  de_err : option string;
  de_From : Point;
  de_Receiver : Point;
  de_Msg : nat;
  de_Reply : CmdReplyTask
}.

(** What [json.Marshal] keeps of a [DeliverErr]. *)
Record saved_err := mkSaved {
  sv_From : Point;
  sv_Receiver : Point;
  sv_Msg : CmdTask;
  sv_Reply : CmdReplyTask
}.

(** [models.WorkflowRecords], as read and as written. *)
Record wf_record := mkRecord {
  wr_ID : Z;
  wr_Record : string;
  wr_Status : Z;
  wr_DeliverErr : string;
  wr_IsRecovered : bool;
  wr_Retry : Z;
  wr_DeliverID : Z;
  wr_CreatedAt : Z
}.

(** [encoding/json] and [strconv] on the data of the worker.  Where the code
    ignores the error of [Marshal] the text is empty.  [Unmarshal] into a struct
    leaves what it decoded before an error. *)
Class Json := {
  reply_json : CmdReplyTask -> string;
  reply_parse : string -> CmdReplyTask * option string;
  log_parse : string -> option LogDaemon;
  trigger_parse : string -> Trigger * option string;
  cmd_json : CmdTask -> option string;
  cmd_parse : string -> CmdTask -> option CmdTask;
  task_json : WTask -> string;
  broker_json : BrokerObj -> string;
  result_json : Result -> string;
  content_json : Content -> option string;
  flow_json : MessageFlow -> option string;
  saved_json : saved_err -> option string;
  saved_parse : string -> option saved_err;
  payload_parse : string -> option (gmap string EV);
  input_parse : string -> option (gmap string (gmap string EV))
}.

(** [workflow.Workflow]: tasks and brokers in the order of their ordered maps. *)
Record Wf := mkWf {
  wf_ID : Z;
  wf_Name : string;
  wf_UserID : Z;
  wf_Tasks : list (string * WTask);
  wf_Brokers : list (string * BrokerObj);
  wf_Channels : list Named;
  wf_Clients : list Named
}.

(** ** Goroutines

    Callbacks of requests: the closures passed to [deliverAsync]. *)
Inductive cbk : Type :=
| CbTrigger (from receiver : Point) (cmd : nat) (trigger : Z)
| CbRetry (first : bool) (e : DeliverErr)
| CbSync (from receiver : Point) (reply : CmdReplyTask) (req : nat) (trun : nat)
    (resultCh : option nat) (bg : string)
| CbInput (from receiver : Point) (req : nat)
| CbSetup (from receiver : Point) (msg : nat)
| CbRecover (batch : nat) (from receiver : Point) (msg : nat) (call : nat)
| CbDestroy (from : Point) (p : string) (cmd : nat) (call : nat).

(** [Event], [taskDeliver] and [brokerDeliver]. *)
Record Event := mkEvent { ev_cmd : Z; ev_cmdtask : CmdReplyTask }.
Record delivery := mkDelivery { d_client : string; d_status : Z }.

(** The unbuffered channels and what is sent over them. *)
Inductive chan : Type := ChEvent | ChErr | ChTrigger | ChResult (n : nat).
Inductive packet : Type :=
| PkEvent (e : Event)
| PkErr (e : DeliverErr)
| PkTrigger (t : option Trigger)
| PkResult (b : string).

(** One operation of a goroutine. *)
Inductive op : Type :=
(* Run *)
| OConnect
| OSubscribe
| OSubscribeSync
| OInitFC
| OStarted
| OQueue
| ORunLoop
| ODelete
| OUpdateTask (task : Z) (d : delivery)
| OUpdateBroker (broker : Z) (d : delivery)
| OCheckDelivered
(* run, pushAllCmdTask, deliverTask, deliverBrokers *)
| OPush (cmd : Z) (cur : option (WTask * list string)) (rest : list WTask)
| OBrokers (cmd : Z) (cur : option (BrokerObj * list string)) (rest : list BrokerObj)
| OWaitClose
(* channels *)
| OSend (c : chan) (p : packet)
| OSendResult (ch : option nat) (b : string)
| ORespond (ch : nat)
| OWaitResult (ch : nat)
(* requests *)
| OTimer (id : Z)
| ORemoveRequest (id : Z)
| OCallback (cb : cbk) (reply : CmdReplyTask) (err : option string)
(* the subscriptions *)
| ONats
| ONatsTrigger
| ONatsSync
| ONatsClient (daemon : bool) (cid : Z)
(* the queue of callbacks *)
| ODispatch
| OLogReply (from receiver : option Point) (m : string) (receiveAt : Z) (bg : string)
| OLogRequest (from receiver : Point) (msg : nat) (tracking bg : string)
| OSaveTask (reply : CmdReplyTask)
| OUpdateTrigger (trigger : Z)
(* retries *)
| ORetryLoop
| ORetryJob (e : DeliverErr)
| ORetryTimer (e : DeliverErr)
| ORetryRow (row : MessageFlow)
(* messages to brokers *)
| OBroker (reply : CmdReplyTask) (req : nat) (ch : option nat) (m : string) (dest : bool)
    (rest : list (nat * BrokerObj))
| OProcess (dv : nat) (b : BrokerObj) (from : Point) (reply : CmdReplyTask) (req : nat)
    (input : option (gmap string (gmap string EV))) (ch : option nat)
| OExecute (dv : nat) (b : BrokerObj) (from : Point) (reply : CmdReplyTask) (req : nat)
    (input : option (gmap string (gmap string EV))) (ch : option nat) (bg : string)
| OResume (input : EV) (from : Point) (reply : CmdReplyTask) (req trun : nat) (ch : option nat)
    (bg : string)
| OHandle (from : Point) (flows : list (DeliverFlow EV)) (reply : CmdReplyTask) (req trun : nat)
    (ch : option nat) (tracking bg : string)
| OInput (from : Point) (receiver : option Point) (req : nat) (reply : option CmdReplyTask)
    (tracking : string) (bg : string)
| OSync (from : Point) (receiver : option Point) (reply : CmdReplyTask) (req trun : nat) (ch : option nat)
    (bg : string)
(* triggers *)
| OTriggerStart
| OTriggerLoop
| ORunBroker (dv : nat) (b : BrokerObj) (input : string) (trigger : Z)
| ORunChannel (c : Named) (input : string) (trigger : Z)
(* tasks that publish *)
| OExecTask (task : WTask) (payload : gmap string EV)
(* status, recovery, destruction *)
| OStatus (status : Z)
| ORecover (call : nat)
| ORecoverRows (call batch : nat) (rows : list wf_record)
| ORecoverCheck (call : nat)
| OSetRecovered (batch call : nat)
| ODestroy
| ODestroySend (from : Point) (p : string) (cmd : nat) (call : nat)
| ODestroyed (p : string) (call : nat)
| ODrop (call : nat)
| OFail (call : nat)
| ODone (call : nat)
| OWait (call : nat).

(** What goes out over NATS: commands to the deliverer with the reference of
    the object they are a copy of, messages to the monitor, answers. *)
Inductive sent : Type :=
| SentCmd (obj : nat) (c : CmdTask)
| SentMonitor (cmd : Z) (data : string)
| SentAnswer (b : string).

(** What is written to the database. *)
Inductive stored : Type :=
| StFlow (mf : MessageFlow)
| StDeleteFlow (did : Z)
| StAttempt (deliver attempt : Z)
| StTaskRecord (status : Z) (output : string) (task client started finished : Z)
| StBrokerQueue (key : string) (value : string)
| StTrigger (id status : Z)
| StDropped.

(** Jobs of the crons. *)
Inductive job : Type :=
| JTask (t : WTask)
| JBroker (id : Z) (ready : bool) (t : Trigger)
| JChannel (id : Z) (ready : bool) (t : Trigger).

#[export] Instance job_id : HasID job :=
  fun j => match j with JTask t => t.(tk).(t_ID) | JBroker id _ _ => id | JChannel id _ _ => id end.

(** [Worker].  [CBQueue] says whether the field is set; [natsOpen] is the state of
    the connection, [dynamicVars] the field [DynamicVars] of the broker objects,
    [executes] the closures [Task.Execute] by task, [triggerReady] whether the
    objects of the workflow got their trigger channel. *)
Record Worker := mkWorker {
  w_status : Z;
  deliverCmd : Z;
  requests : gmap Z cbk;
  responsesIDs : gset Z;
  points : gmap string Point;
  taskDelivers : gmap Z (list delivery);
  brokerDelivers : gmap Z (list delivery);
  clientsActive : list string;
  CBQueue : bool;
  flowMap : gmap string string;
  requestMap : gmap string string;
  natsOpen : bool;
  dynamicVars : gmap nat (gmap string CmdReplyTask);
  executes : gmap Z (gmap string EV);
  triggerReady : bool
}.

Definition put_w_status (v : Z) (x : Worker) : Worker :=
  mkWorker v x.(deliverCmd) x.(requests) x.(responsesIDs) x.(points) x.(taskDelivers)
    x.(brokerDelivers) x.(clientsActive) x.(CBQueue) x.(flowMap) x.(requestMap) x.(natsOpen)
    x.(dynamicVars) x.(executes) x.(triggerReady).
Definition put_deliverCmd (v : Z) (x : Worker) : Worker :=
  mkWorker x.(w_status) v x.(requests) x.(responsesIDs) x.(points) x.(taskDelivers)
    x.(brokerDelivers) x.(clientsActive) x.(CBQueue) x.(flowMap) x.(requestMap) x.(natsOpen)
    x.(dynamicVars) x.(executes) x.(triggerReady).
Definition put_requests (v : gmap Z cbk) (x : Worker) : Worker :=
  mkWorker x.(w_status) x.(deliverCmd) v x.(responsesIDs) x.(points) x.(taskDelivers)
    x.(brokerDelivers) x.(clientsActive) x.(CBQueue) x.(flowMap) x.(requestMap) x.(natsOpen)
    x.(dynamicVars) x.(executes) x.(triggerReady).
Definition put_responsesIDs (v : gset Z) (x : Worker) : Worker :=
  mkWorker x.(w_status) x.(deliverCmd) x.(requests) v x.(points) x.(taskDelivers) x.(brokerDelivers)
    x.(clientsActive) x.(CBQueue) x.(flowMap) x.(requestMap) x.(natsOpen) x.(dynamicVars)
    x.(executes) x.(triggerReady).
Definition put_points (v : gmap string Point) (x : Worker) : Worker :=
  mkWorker x.(w_status) x.(deliverCmd) x.(requests) x.(responsesIDs) v x.(taskDelivers)
    x.(brokerDelivers) x.(clientsActive) x.(CBQueue) x.(flowMap) x.(requestMap) x.(natsOpen)
    x.(dynamicVars) x.(executes) x.(triggerReady).
Definition put_taskDelivers (v : gmap Z (list delivery)) (x : Worker) : Worker :=
  mkWorker x.(w_status) x.(deliverCmd) x.(requests) x.(responsesIDs) x.(points) v x.(brokerDelivers)
    x.(clientsActive) x.(CBQueue) x.(flowMap) x.(requestMap) x.(natsOpen) x.(dynamicVars)
    x.(executes) x.(triggerReady).
Definition put_brokerDelivers (v : gmap Z (list delivery)) (x : Worker) : Worker :=
  mkWorker x.(w_status) x.(deliverCmd) x.(requests) x.(responsesIDs) x.(points) x.(taskDelivers) v
    x.(clientsActive) x.(CBQueue) x.(flowMap) x.(requestMap) x.(natsOpen) x.(dynamicVars)
    x.(executes) x.(triggerReady).
Definition put_clientsActive (v : list string) (x : Worker) : Worker :=
  mkWorker x.(w_status) x.(deliverCmd) x.(requests) x.(responsesIDs) x.(points) x.(taskDelivers)
    x.(brokerDelivers) v x.(CBQueue) x.(flowMap) x.(requestMap) x.(natsOpen) x.(dynamicVars)
    x.(executes) x.(triggerReady).
Definition put_CBQueue (v : bool) (x : Worker) : Worker :=
  mkWorker x.(w_status) x.(deliverCmd) x.(requests) x.(responsesIDs) x.(points) x.(taskDelivers)
    x.(brokerDelivers) x.(clientsActive) v x.(flowMap) x.(requestMap) x.(natsOpen) x.(dynamicVars)
    x.(executes) x.(triggerReady).
Definition put_flowMap (v : gmap string string) (x : Worker) : Worker :=
  mkWorker x.(w_status) x.(deliverCmd) x.(requests) x.(responsesIDs) x.(points) x.(taskDelivers)
    x.(brokerDelivers) x.(clientsActive) x.(CBQueue) v x.(requestMap) x.(natsOpen) x.(dynamicVars)
    x.(executes) x.(triggerReady).
Definition put_requestMap (v : gmap string string) (x : Worker) : Worker :=
  mkWorker x.(w_status) x.(deliverCmd) x.(requests) x.(responsesIDs) x.(points) x.(taskDelivers)
    x.(brokerDelivers) x.(clientsActive) x.(CBQueue) x.(flowMap) v x.(natsOpen) x.(dynamicVars)
    x.(executes) x.(triggerReady).
Definition put_natsOpen (v : bool) (x : Worker) : Worker :=
  mkWorker x.(w_status) x.(deliverCmd) x.(requests) x.(responsesIDs) x.(points) x.(taskDelivers)
    x.(brokerDelivers) x.(clientsActive) x.(CBQueue) x.(flowMap) x.(requestMap) v x.(dynamicVars)
    x.(executes) x.(triggerReady).
Definition put_dynamicVars (v : gmap nat (gmap string CmdReplyTask)) (x : Worker) : Worker :=
  mkWorker x.(w_status) x.(deliverCmd) x.(requests) x.(responsesIDs) x.(points) x.(taskDelivers)
    x.(brokerDelivers) x.(clientsActive) x.(CBQueue) x.(flowMap) x.(requestMap) x.(natsOpen) v
    x.(executes) x.(triggerReady).
Definition put_executes (v : gmap Z (gmap string EV)) (x : Worker) : Worker :=
  mkWorker x.(w_status) x.(deliverCmd) x.(requests) x.(responsesIDs) x.(points) x.(taskDelivers)
    x.(brokerDelivers) x.(clientsActive) x.(CBQueue) x.(flowMap) x.(requestMap) x.(natsOpen)
    x.(dynamicVars) v x.(triggerReady).
Definition put_triggerReady (v : bool) (x : Worker) : Worker :=
  mkWorker x.(w_status) x.(deliverCmd) x.(requests) x.(responsesIDs) x.(points) x.(taskDelivers)
    x.(brokerDelivers) x.(clientsActive) x.(CBQueue) x.(flowMap) x.(requestMap) x.(natsOpen)
    x.(dynamicVars) x.(executes) v.

Context {CR : Cron job}.

(** The world of a worker: the objects it shares, its goroutines, the callbacks in
    its queue ([None] is the mark of [Close]), the loop variables that closures
    share, the table of workflow records, the state of
    the channels that can be closed, the wait groups and [success] variables of
    the calls of [Destroy] and [Recover], what was sent and stored, the crons of
    the scheduler, and whether a goroutine panicked. *)
Record world := mkWorld {
  wk : Worker;
  cmds : gmap nat CmdTask;
  truns : gmap nat ERt;
  next : nat;
  jobs : list (option (list op));
  lastErr : option DeliverErr;
  loopVars : gmap nat wf_record;
  records : list wf_record;
  threads : list (list op);
  eventClosed : bool;
  closeClosed : bool;
  waits : gmap nat Z;
  successes : gmap nat bool;
  out : list sent;
  db : list stored;
  taskCron : cron;
  brokerCron : cron;
  channelCron : cron;
  crashed : bool
}.

Definition put_wk (v : Worker) (x : world) : world :=
  mkWorld v x.(cmds) x.(truns) x.(next) x.(jobs) x.(lastErr) x.(loopVars) x.(records) x.(threads)
    x.(eventClosed) x.(closeClosed) x.(waits) x.(successes) x.(out) x.(db) x.(taskCron)
    x.(brokerCron) x.(channelCron) x.(crashed).
Definition put_cmds (v : gmap nat CmdTask) (x : world) : world :=
  mkWorld x.(wk) v x.(truns) x.(next) x.(jobs) x.(lastErr) x.(loopVars) x.(records) x.(threads)
    x.(eventClosed) x.(closeClosed) x.(waits) x.(successes) x.(out) x.(db) x.(taskCron)
    x.(brokerCron) x.(channelCron) x.(crashed).
Definition put_truns (v : gmap nat ERt) (x : world) : world :=
  mkWorld x.(wk) x.(cmds) v x.(next) x.(jobs) x.(lastErr) x.(loopVars) x.(records) x.(threads)
    x.(eventClosed) x.(closeClosed) x.(waits) x.(successes) x.(out) x.(db) x.(taskCron)
    x.(brokerCron) x.(channelCron) x.(crashed).
Definition put_next (v : nat) (x : world) : world :=
  mkWorld x.(wk) x.(cmds) x.(truns) v x.(jobs) x.(lastErr) x.(loopVars) x.(records) x.(threads)
    x.(eventClosed) x.(closeClosed) x.(waits) x.(successes) x.(out) x.(db) x.(taskCron)
    x.(brokerCron) x.(channelCron) x.(crashed).
Definition put_jobs (v : list (option (list op))) (x : world) : world :=
  mkWorld x.(wk) x.(cmds) x.(truns) x.(next) v x.(lastErr) x.(loopVars) x.(records) x.(threads)
    x.(eventClosed) x.(closeClosed) x.(waits) x.(successes) x.(out) x.(db) x.(taskCron)
    x.(brokerCron) x.(channelCron) x.(crashed).
Definition put_lastErr (v : option DeliverErr) (x : world) : world :=
  mkWorld x.(wk) x.(cmds) x.(truns) x.(next) x.(jobs) v x.(loopVars) x.(records) x.(threads)
    x.(eventClosed) x.(closeClosed) x.(waits) x.(successes) x.(out) x.(db) x.(taskCron)
    x.(brokerCron) x.(channelCron) x.(crashed).
Definition put_loopVars (v : gmap nat wf_record) (x : world) : world :=
  mkWorld x.(wk) x.(cmds) x.(truns) x.(next) x.(jobs) x.(lastErr) v x.(records) x.(threads)
    x.(eventClosed) x.(closeClosed) x.(waits) x.(successes) x.(out) x.(db) x.(taskCron)
    x.(brokerCron) x.(channelCron) x.(crashed).
Definition put_records (v : list wf_record) (x : world) : world :=
  mkWorld x.(wk) x.(cmds) x.(truns) x.(next) x.(jobs) x.(lastErr) x.(loopVars) v x.(threads)
    x.(eventClosed) x.(closeClosed) x.(waits) x.(successes) x.(out) x.(db) x.(taskCron)
    x.(brokerCron) x.(channelCron) x.(crashed).
Definition put_threads (v : list (list op)) (x : world) : world :=
  mkWorld x.(wk) x.(cmds) x.(truns) x.(next) x.(jobs) x.(lastErr) x.(loopVars) x.(records) v
    x.(eventClosed) x.(closeClosed) x.(waits) x.(successes) x.(out) x.(db) x.(taskCron)
    x.(brokerCron) x.(channelCron) x.(crashed).
Definition put_eventClosed (v : bool) (x : world) : world :=
  mkWorld x.(wk) x.(cmds) x.(truns) x.(next) x.(jobs) x.(lastErr) x.(loopVars) x.(records)
    x.(threads) v x.(closeClosed) x.(waits) x.(successes) x.(out) x.(db) x.(taskCron)
    x.(brokerCron) x.(channelCron) x.(crashed).
Definition put_closeClosed (v : bool) (x : world) : world :=
  mkWorld x.(wk) x.(cmds) x.(truns) x.(next) x.(jobs) x.(lastErr) x.(loopVars) x.(records)
    x.(threads) x.(eventClosed) v x.(waits) x.(successes) x.(out) x.(db) x.(taskCron)
    x.(brokerCron) x.(channelCron) x.(crashed).
Definition put_waits (v : gmap nat Z) (x : world) : world :=
  mkWorld x.(wk) x.(cmds) x.(truns) x.(next) x.(jobs) x.(lastErr) x.(loopVars) x.(records)
    x.(threads) x.(eventClosed) x.(closeClosed) v x.(successes) x.(out) x.(db) x.(taskCron)
    x.(brokerCron) x.(channelCron) x.(crashed).
Definition put_successes (v : gmap nat bool) (x : world) : world :=
  mkWorld x.(wk) x.(cmds) x.(truns) x.(next) x.(jobs) x.(lastErr) x.(loopVars) x.(records)
    x.(threads) x.(eventClosed) x.(closeClosed) x.(waits) v x.(out) x.(db) x.(taskCron)
    x.(brokerCron) x.(channelCron) x.(crashed).
Definition put_out (v : list sent) (x : world) : world :=
  mkWorld x.(wk) x.(cmds) x.(truns) x.(next) x.(jobs) x.(lastErr) x.(loopVars) x.(records)
    x.(threads) x.(eventClosed) x.(closeClosed) x.(waits) x.(successes) v x.(db) x.(taskCron)
    x.(brokerCron) x.(channelCron) x.(crashed).
Definition put_db (v : list stored) (x : world) : world :=
  mkWorld x.(wk) x.(cmds) x.(truns) x.(next) x.(jobs) x.(lastErr) x.(loopVars) x.(records)
    x.(threads) x.(eventClosed) x.(closeClosed) x.(waits) x.(successes) x.(out) v x.(taskCron)
    x.(brokerCron) x.(channelCron) x.(crashed).
Definition put_taskCron (v : cron) (x : world) : world :=
  mkWorld x.(wk) x.(cmds) x.(truns) x.(next) x.(jobs) x.(lastErr) x.(loopVars) x.(records)
    x.(threads) x.(eventClosed) x.(closeClosed) x.(waits) x.(successes) x.(out) x.(db) v
    x.(brokerCron) x.(channelCron) x.(crashed).
Definition put_brokerCron (v : cron) (x : world) : world :=
  mkWorld x.(wk) x.(cmds) x.(truns) x.(next) x.(jobs) x.(lastErr) x.(loopVars) x.(records)
    x.(threads) x.(eventClosed) x.(closeClosed) x.(waits) x.(successes) x.(out) x.(db)
    x.(taskCron) v x.(channelCron) x.(crashed).
Definition put_channelCron (v : cron) (x : world) : world :=
  mkWorld x.(wk) x.(cmds) x.(truns) x.(next) x.(jobs) x.(lastErr) x.(loopVars) x.(records)
    x.(threads) x.(eventClosed) x.(closeClosed) x.(waits) x.(successes) x.(out) x.(db)
    x.(taskCron) x.(brokerCron) v x.(crashed).
Definition put_crashed (v : bool) (x : world) : world :=
  mkWorld x.(wk) x.(cmds) x.(truns) x.(next) x.(jobs) x.(lastErr) x.(loopVars) x.(records)
    x.(threads) x.(eventClosed) x.(closeClosed) x.(waits) x.(successes) x.(out) x.(db)
    x.(taskCron) x.(brokerCron) x.(channelCron) v.

End Data.
