(* ===== verification/Worker.v ===== *)
(** The runner's worker: operations of [server/runner/worker.go].

    [exec] runs the next operation of a goroutine; it gives [None] while the
    operation has to wait.  Sends and receives on the unbuffered channels meet
    in the rule [step_comm].  An operation is what the code does between two
    points where it waits, takes a lock or leaves a closure to another
    goroutine; the answers of NATS, the database, the clock and the orders of
    Go maps come from an [oracle].  A function that returns early drops what it
    would have done, so operations that are steps of a loop carry the rest of
    the loop.

    Loop variables are shared by the closures of all rounds (the module asks
    for Go 1.21): [lastErr] is the one of [retryDeliver], [loopVars] those of
    [Recover].  [deliverCmd] starts at a time in seconds and is taken not to
    reach 2^63. *)

From stdpp Require Import pretty.
From Stdlib Require Import Ascii.
From S2P Require Import Prelude GoStrings Names OrderedMap Template Compile Value Runtime Interp Scheduler WorkerData.

#[local] Open Scope Z_scope.

Section Worker.
Context {E : Engine} {JS : Json} {CR : Cron job}.
Context (wf : Wf).
Implicit Types (w : world) (p : Point) (r : CmdReplyTask) (c : CmdTask).

(** What the environment answers in one step. *)
Record oracle := mkOracle {
  o_now : Z;                 (* the clock *)
  o_delay : Z;               (* how long a callback waited *)
  o_conn : bool;             (* [nats.Connect], [InitFC], [Subscribe] succeed *)
  o_subs : list bool;
  o_pub : bool;              (* a command is published *)
  o_mon : bool;              (* a message to the monitor is published *)
  o_timeout : bool;          (* the time-out of a request, not the close *)
  o_data : string;           (* the message that arrives *)
  o_read : bool;             (* a query, an insert, an update succeed *)
  o_insert : bool;
  o_update : bool;
  o_update2 : bool;
  o_flow : Z;                (* the identifier of the stored flow *)
  o_rows : option (list MessageFlow);
  o_kv : option (list (string * string));
  o_order : list string;     (* the order of a map *)
  o_fuel : nat               (* how long a template runs *)
}.
Implicit Types o : oracle.

Definition on_wk (f : Worker -> Worker) w : world := put_wk (f w.(wk)) w.
Definition spawn (th : list op) w : world := put_threads (w.(threads) ++ [th]) w.
Definition crash w : world := put_crashed true w.
Definition store (s : stored) w : world := put_db (w.(db) ++ [s]) w.
Definition emit (s : sent) w : world := put_out (w.(out) ++ [s]) w.
Definition fresh w : nat * world := (w.(next), put_next (S w.(next)) w).

(** Objects of type [CmdTask]. *)
Definition new_cmd c w : nat * world :=
  (w.(next), put_next (S w.(next)) (put_cmds (<[w.(next) := c]> w.(cmds)) w)).
Definition cmd_at (i : nat) w : CmdTask := default zero_cmd (w.(cmds) !! i).
Definition on_cmd (i : nat) (f : CmdTask -> CmdTask) w : world := put_cmds (alter f i w.(cmds)) w.

(** [w.CBQueue.Push]: on a nil queue it panics. *)
Definition push (job : list op) w : world :=
  if w.(wk).(CBQueue) then put_jobs (w.(jobs) ++ [Some job]) w else crash w.

(** [natsConn.Publish] to the monitor; its error is only logged. *)
Definition monitor o (cmd : Z) (data : string) w : world :=
  if w.(wk).(natsOpen) && o.(o_mon) then emit (SentMonitor cmd data) w else w.

(** A JSON object with one string field. *)
Definition json_field (name v : string) : string :=
  "{" +:+ quote +:+ name +:+ quote +:+ ": " +:+ quote +:+ v +:+ quote +:+ "}".

(** ** Identifiers, parts and groups *)

Definition nextCmdID w : Z * world :=
  let id := w.(wk).(deliverCmd) + 1 in (id, on_wk (put_deliverCmd id) w).

Definition part_name (id : Z) : string := "part-" +:+ pretty wf.(wf_ID) +:+ "-" +:+ pretty id.
Definition part_key (part : string) (rvID rvType : Z) : string :=
  part +:+ "@" +:+ pretty rvID +:+ "-" +:+ pretty rvType.

Definition getPart (replyPart : string) (rvID rvType : Z) w : string * world :=
  if bool_decide (replyPart = "") then let '(id, w) := nextCmdID w in (part_name id, w)
  else
    let my := part_key replyPart rvID rvType in
    match w.(wk).(flowMap) !! my with
    | Some reqPart => (reqPart, w)
    | None =>
      let '(id, w) := nextCmdID w in
      (part_name id, on_wk (fun k => put_flowMap (<[my := part_name id]> k.(flowMap)) k) w)
    end.

Definition getReplyPart (parentPart : string) (rvID rvType : Z) w : string * world :=
  if bool_decide (parentPart = "") then let '(id, w) := nextCmdID w in (part_name id, w)
  else
    let my := part_key parentPart rvID rvType in
    match w.(wk).(requestMap) !! my with
    | Some reqPart => (reqPart, w)
    | None =>
      let '(id, w) := nextCmdID w in
      (part_name id, on_wk (fun k => put_requestMap (<[my := part_name id]> k.(requestMap)) k) w)
    end.

Definition getGroup w : string * world :=
  let '(id, w) := nextCmdID w in
  ("kairos-" +:+ pretty wf.(wf_ID) +:+ "-" +:+ pretty id +:+ "-0", w).

Definition getBrokerGroup w : string * world :=
  let '(id, w) := nextCmdID w in
  ("kairosbroker-" +:+ pretty wf.(wf_ID) +:+ "-" +:+ pretty id +:+ "-0", w).

(** ** Points *)

Definition kairos_point : Point := mkPoint (-1) KairosPoint "kairos" PointNormal.

(** [setPoints]: later names overwrite earlier ones. *)
Definition point_list : list (string * Point) :=
  [("kairos", kairos_point)]
  ++ ((fun kb => (GetBrokerName kb.1, mkPoint kb.2.(bo).(b_ID) BrokerPoint kb.2.(bo).(b_Name) PointNormal))
        <$> wf.(wf_Brokers))
  ++ ((fun kt => (GetTaskName kt.1, mkPoint kt.2.(tk).(t_ID) TaskPoint kt.2.(tk).(t_Name) PointNormal))
        <$> wf.(wf_Tasks))
  ++ ((fun n => (GetChannelName n.(n_Name), mkPoint n.(n_ID) ChannelPoint n.(n_Name) PointNormal))
        <$> wf.(wf_Channels))
  ++ ((fun n => (GetClientName n.(n_Name), mkPoint n.(n_ID) ClientPoint n.(n_Name) PointNormal))
        <$> wf.(wf_Clients)).

Definition setPoints (m : gmap string Point) : gmap string Point :=
  fold_left (fun m kp => <[kp.1 := kp.2]> m) point_list m.

Definition point (name : string) w : option Point := w.(wk).(points) !! name.

(** [w.points["kairos"]], which [setPoints] sets before anything reads it. *)
Definition kairos w : Point := default kairos_point (point "kairos" w).

Definition getChannel p : string :=
  if bool_decide (p.(p_Type) = ClientPoint) then "kairosdeamon-" +:+ pretty p.(p_ID)
  else if bool_decide (p.(p_Type) = ChannelPoint) then p.(p_Name) +:+ "-" +:+ pretty p.(p_ID)
  else "".

Definition getNameType (t : Z) : string :=
  if bool_decide (t = BrokerPoint) then "broker"
  else if bool_decide (t = ChannelPoint) then "channel"
  else if bool_decide (t = TaskPoint) then "task"
  else "server".

Definition same_point p1 p2 : bool :=
  bool_decide (p1.(p_ID) = p2.(p_ID)) && bool_decide (p1.(p_Name) = p2.(p_Name))
  && bool_decide (p1.(p_Type) = p2.(p_Type)).

(** ** What was delivered *)

Definition task_entry (d e : delivery) : bool :=
  bool_decide (e.(d_client) +:+ SubClient = d.(d_client)) || bool_decide (e.(d_client) = "kairos").
Definition broker_entry (d e : delivery) : bool :=
  bool_decide (e.(d_client) +:+ SubClient = d.(d_client)).

(** Every entry that matches is replaced; [d] is appended when none does. *)
Definition update_entries (matches : delivery -> bool) (d : delivery) (v : list delivery)
    : list delivery :=
  if existsb matches v then (fun e => if matches e then d else e) <$> v else v ++ [d].

Definition updateStatusDeliverTask (id : Z) (d : delivery) (m : gmap Z (list delivery))
    : gmap Z (list delivery) :=
  <[id := match m !! id with
          | None => [d]
          | Some v => update_entries (task_entry d) d v
          end]> m.

Definition updateStatusDeliverBroker (id : Z) (d : delivery) (m : gmap Z (list delivery))
    : gmap Z (list delivery) :=
  <[id := match m !! id with
          | None => [d]
          | Some v => update_entries (broker_entry d) d v
          end]> m.

Definition all_status (s : Z) (m : gmap Z (list delivery)) : bool :=
  forallb (fun kv => forallb (fun e => bool_decide (e.(d_status) = s)) kv.2) (map_to_list m).

Definition allDelivered (k : Worker) : bool :=
  all_status SuccessSetTask k.(taskDelivers) && all_status SuccessSetBroker k.(brokerDelivers).

Definition update_task (id : Z) (d : delivery) w : world :=
  on_wk (fun k => put_taskDelivers (updateStatusDeliverTask id d k.(taskDelivers)) k) w.
Definition update_broker (id : Z) (d : delivery) w : world :=
  on_wk (fun k => put_brokerDelivers (updateStatusDeliverBroker id d k.(brokerDelivers)) k) w.

(** [IsRunning]. *)
Definition IsRunning (k : Worker) : bool := bool_decide (k.(w_status) = Running).

(** ** Logs *)

(** The row [logMessageFlowReply] writes; [None] when the content cannot be
    marshalled. *)
Definition reply_flow o (from receiver : Point) (mrs : string) (receiverAt : Z) (bg : string)
    : option MessageFlow :=
  let msg := (reply_parse mrs).1 in
  let row (m : string) (begin_ finish : bool) :=
    mkMessageFlow 0 msg.(r_Status) from.(p_ID) from.(p_Type) from.(p_Name)
      receiver.(p_ID) receiver.(p_Type) receiver.(p_Name) wf.(wf_ID) m 0
      (if bool_decide (msg.(r_DeliverID) = -2) then FlowLog
       else if bool_decide (receiver.(p_Type) = KairosPoint) then FlowKairosLog else FlowReciever)
      o.(o_now) msg.(r_DeliverID) (Z.of_nat (String.length mrs)) msg.(r_Cmd) msg.(r_Start)
      msg.(r_StartInput) msg.(r_Group) msg.(r_TaskID) 0 receiverAt msg.(r_TaskName) msg.(r_Part)
      msg.(r_Parent) begin_ finish "" bg (from_option tg_ID 0 msg.(r_Trigger)) in
  match msg.(r_Result), msg.(r_Content) with
  | Some res, _ =>
    Some (row (result_json res) (negb (bool_decide (res.(StartedAt) = 0)))
            (negb (bool_decide (res.(FinishedAt) = 0))))
  | None, Some content => (fun m => row m true true) <$> content_json content
  | None, None => Some (row "" msg.(r_BeginPart) msg.(r_FinishPart))
  end.

(** [logMessageFlowReply]: the broker group of a recovered delivery is its
    identifier, whose earlier row is deleted; only other rows are shown. *)
Definition logMessageFlowReply o (from receiver : Point) (mrs : string) (receiverAt : Z)
    (bg : string) w : world :=
  match reply_flow o from receiver mrs receiverAt bg with
  | None => w
  | Some mf =>
    let did := Atoi bg in
    let w := match did with Some d => store (StDeleteFlow d) w | None => w end in
    let w := if o.(o_insert) then store (StFlow mf) w else w in
    if bool_decide (default 0 did = 0) then
      match flow_json (put_mf_ID o.(o_flow) mf) with Some data => monitor o LogMessageFlow data w | None => w end
    else w
  end.

(** The row [logMessageFlowRequest] writes. *)
Definition request_flow o (from receiver : Point) c (sendAt : Z) (tracking bg : string)
    : option MessageFlow :=
  if bool_decide (c.(c_Channel) = "") && negb (bool_decide (is_Some c.(c_Task)))
     && negb (bool_decide (is_Some c.(c_Broker))) then None
  else
    let '(m, id, name) :=
      if bool_decide (receiver.(p_Type) = ChannelPoint) then
        (match c.(c_Message) with
         | Some v => default (ev_json v) (ev_as_string v)
         | None => "null"
         end, 0, "")
      else match c.(c_Task), c.(c_Broker) with
           | Some t, _ => (task_json t, t.(tk).(t_ID), t.(tk).(t_Name))
           | None, Some b => (broker_json b, -1, "")
           | None, None => ("", 0, "")
           end in
    let log := bool_decide (c.(c_DeliverID) = -2) in
    Some (mkMessageFlow 0 c.(c_Status) from.(p_ID) from.(p_Type) from.(p_Name)
      receiver.(p_ID) receiver.(p_Type) receiver.(p_Name) wf.(wf_ID) m c.(c_Attempt)
      (if log then FlowLog else FlowDeliver) o.(o_now) c.(c_DeliverID)
      (Z.of_nat (String.length (default "" (cmd_json c)))) c.(c_Cmd) c.(c_Start) c.(c_StartInput)
      c.(c_Group) id sendAt 0 name c.(c_Part) c.(c_Parent) true log tracking bg
      (from_option tg_ID 0 c.(c_Trigger))).

Definition logMessageFlowRequest o (from receiver : Point) c (sendAt : Z) (tracking bg : string) w
    : world :=
  match request_flow o from receiver c sendAt tracking bg with
  | None => w
  | Some mf =>
    let w := if o.(o_insert) then store (StFlow mf) w else w in
    match flow_json (put_mf_ID o.(o_flow) mf) with Some data => monitor o LogMessageFlow data w | None => w end
  end.

(** [UpdateTrigger] and [sendTriggerStatus]. *)
Definition UpdateTrigger o (id status : Z) w : world :=
  let w := if o.(o_update) then store (StTrigger id status) w else w in
  monitor o TriggerStatusWorkflow (json_field (pretty id) (pretty status)) w.

(** [setWfStatus]. *)
Definition setWfStatus o (status : Z) w : world :=
  monitor o SetStatusWorkflow (json_field "status" (pretty status)) (on_wk (put_w_status status) w).

Definition next_record w : Z := 1 + foldr Z.max 0 (wr_ID <$> w.(records)).

(** [logWorkflow]: the identifier of the record, -1 when it was not written. *)
Definition logWorkflow o (record : string) (status : Z) (de : option saved_err) (deliverID : Z) w
    : Z * world :=
  let data := match de with None => Some "" | Some de => saved_json de end in
  match data with
  | None => (-1, w)
  | Some data =>
    if o.(o_insert) then
      let id := next_record w in
      (id, put_records (w.(records) ++
              [mkRecord id record status data (negb (bool_decide (is_Some de))) 0 deliverID o.(o_now)]) w)
    else (-1, w)
  end.

(** [storage.GetWorkflowRecord]: the record of a delivery. *)
Definition GetWorkflowRecord (deliverID : Z) w : option Z :=
  match filter (fun e => e.(wr_DeliverID) = deliverID) w.(records) with
  | e :: _ => Some e.(wr_ID)
  | [] => None
  end.

(** [storage.SetWfRecovered]. *)
Definition SetWfRecovered (id attempt : Z) (success : bool) w : world :=
  put_records ((fun e =>
    if bool_decide (e.(wr_ID) = id)
    then mkRecord e.(wr_ID) e.(wr_Record) e.(wr_Status) e.(wr_DeliverErr) success attempt
           e.(wr_DeliverID) e.(wr_CreatedAt)
    else e) <$> w.(records)) w.

(** [storage.GetWorkflowRecordsRecovery]: at most ten faults not recovered, in
    the order they were written. *)
Definition GetWorkflowRecordsRecovery w : list wf_record :=
  take 10 (filter (fun e => e.(wr_IsRecovered) = false /\ e.(wr_Status) = WFRecordFault) w.(records)).

Definition setBrokerQueue o (key : string) r w : world :=
  if o.(o_update) then store (StBrokerQueue key (reply_json r)) w else w.

(** [saveTaskRecord]; the result is read without a check. *)
Definition saveTaskRecord o r w : world :=
  match point r.(r_RunOn) w with
  | None => w
  | Some p =>
    match r.(r_Result) with
    | None => crash w
    | Some res =>
      if o.(o_insert)
      then store (StTaskRecord (if res.(Success) then 1 else 0) res.(Output) r.(r_TaskID) p.(p_ID)
                    res.(StartedAt) res.(FinishedAt)) w
      else w
    end
  end.

(** ** Requests *)

Definition addRequest (id : Z) (cb : cbk) w : world :=
  on_wk (fun k => put_requests (<[id := cb]> k.(requests)) k) w.
Definition removeRequest (id : Z) w : world :=
  on_wk (fun k => put_requests (delete id k.(requests)) k) w.

(** [deliver]: the command is published as JSON. *)
Definition deliver o (obj : nat) c w : world * option string :=
  match cmd_json c with
  | None => (w, Some "json")
  | Some _ =>
    if w.(wk).(natsOpen) && o.(o_pub) then (emit (SentCmd obj c) w, None) else (w, Some "nats")
  end.

(** [deliverAsync]: a copy of the command is sent; the callback waits under its
    identifier, and a goroutine for the time-out, unless publishing failed. *)
Definition deliverAsync o (receiver : Point) (cmd : nat) (cb : cbk) w : world * option string :=
  let c := put_c_SendAt o.(o_now) (put_c_Status PendingDeliver
             (put_c_Channel (getChannel receiver) (cmd_at cmd w))) in
  let '(c, w) :=
    if bool_decide (c.(c_DeliverID) = 0)
    then let '(id, w) := nextCmdID w in (put_c_DeliverID id c, w) else (c, w) in
  let w := addRequest c.(c_DeliverID) cb w in
  let '(w, err) := deliver o cmd c w in
  match err with
  | Some e => (w, Some e)
  | None => (spawn [OTimer c.(c_DeliverID)] w, None)
  end.

(** [wrapDeliverErr]. *)
Definition wrapDeliverErr (from receiver : Point) (cmd : nat) r (err : option string) : op :=
  OSend ChErr (PkErr (mkDeliverErr err from receiver cmd r)).

(** The first lines of the deliver functions: an identifier and an attempt. *)
Definition number_cmd (cmd : nat) w : world :=
  let w := if bool_decide ((cmd_at cmd w).(c_DeliverID) = 0)
           then let '(id, w) := nextCmdID w in on_cmd cmd (put_c_DeliverID id) w else w in
  if bool_decide ((cmd_at cmd w).(c_Attempt) = 0)
  then on_cmd cmd (fun c => put_c_Attempt (c.(c_Attempt) + 1) c) w else w.

Definition deliverTaskToClient o (from receiver : Point) (msg : nat) w : world * option string :=
  let w := number_cmd msg w in
  let '(part, w) := getPart "" (-1) (-1) w in
  let w := on_cmd msg (put_c_Part part) w in
  let w := push [OLogRequest from receiver msg "" ""] w in
  deliverAsync o receiver msg (CbSetup from receiver msg) w.

(** [deliverInputTaskCmd]; a message from a point to itself is only logged. *)
Definition deliverInputTaskCmd o (from receiver : Point) (req : nat) (reply : option CmdReplyTask)
    (tracking bg : string) w : world * list op :=
  let w := number_cmd req w in
  let save := match reply with
              | Some r => if bool_decide (r.(r_Cmd) = ReplyOutputTaskCmd) then [OSaveTask r] else []
              | None => []
              end in
  let w := push (save ++ [OLogRequest from receiver req tracking bg]) w in
  if same_point from receiver then (w, [])
  else
    let '(w, err) := deliverAsync o receiver req (CbInput from receiver req) w in
    match err with
    | Some e => (w, [wrapDeliverErr from receiver req zero_reply (Some e)])
    | None => (w, [])
    end.

(** [deliverRequestRunTaskSync]. *)
Definition deliverRequestRunTaskSync o (from receiver : Point) r (req trun : nat)
    (ch : option nat) (bg : string) w : world * list op :=
  let w := number_cmd req w in
  let '(w, err) := deliverAsync o receiver req (CbSync from receiver r req trun ch bg) w in
  match err with
  | Some e => (w, [wrapDeliverErr from receiver req zero_reply (Some e)])
  | None => (w, [])
  end.

(** ** Retries *)

Definition save_err (e : DeliverErr) w : saved_err :=
  mkSaved e.(de_From) e.(de_Receiver) (cmd_at e.(de_Msg) w) e.(de_Reply).

(** The retry of a message that was retried before: at most three times, after
    a delay. *)
Definition retry_again o (e : DeliverErr) (rt : Retry) w : world :=
  let msg := cmd_at e.(de_Msg) w in
  if 3 <? msg.(c_Attempt) then w
  else
    let id := if bool_decide (rt.(rt_ID) = 0)
              then if o.(o_read) then GetWorkflowRecord msg.(c_DeliverID) w else None
              else Some rt.(rt_ID) in
    match id with
    | None => w
    | Some id =>
      let attempt := rt.(rt_Attempt) + 1 in
      let w := on_cmd e.(de_Msg) (fun c =>
                 put_c_Retry (Some (mkRetry id attempt)) (put_c_Attempt (c.(c_Attempt) + 1) c)) w in
      if negb o.(o_update) then w
      else
        let w := SetWfRecovered id attempt false w in
        if negb o.(o_update2) then w
        else spawn [ORetryTimer e] (store (StAttempt msg.(c_DeliverID) attempt) w)
    end.

(** The first retry: the failure is logged, a record is made or found, and the
    message goes out again at once under the identifier of the reply. *)
Definition retry_first o (record : string) (e : DeliverErr) w : world :=
  let msg := cmd_at e.(de_Msg) w in
  let reply := put_r_Group msg.(c_Group) (put_r_Parent msg.(c_Parent) (put_r_Part msg.(c_Part) e.(de_Reply))) in
  let e := mkDeliverErr e.(de_err) e.(de_From) e.(de_Receiver) e.(de_Msg) reply in
  let w := if o.(o_update) then store (StAttempt msg.(c_DeliverID) msg.(c_Attempt)) w else w in
  let w := logMessageFlowReply o e.(de_Receiver) e.(de_From) (reply_json reply)
             (o.(o_now) - msg.(c_SendAt)) "" w in
  if negb o.(o_read) then w
  else
    let '(id, w) :=
      match GetWorkflowRecord msg.(c_DeliverID) w with
      | Some id => (id, w)
      | None => logWorkflow o record WFRecordFault (Some (save_err e w)) msg.(c_DeliverID) w
      end in
    let w := on_cmd e.(de_Msg) (fun c =>
               put_c_DeliverID reply.(r_DeliverID)
                 (put_c_Retry (Some (mkRetry id (c.(c_Attempt) + 1))) (put_c_Attempt (c.(c_Attempt) + 1) c))) w in
    (deliverAsync o e.(de_Receiver) e.(de_Msg) (CbRetry true e) w).1.

Definition handleRetryDeliver o (record : string) (e : DeliverErr) w : world :=
  match (cmd_at e.(de_Msg) w).(c_Retry) with
  | Some rt => retry_again o e rt w
  | None => retry_first o record e w
  end.

(** The reply of a failed delivery, as [retryDeliver] completes it. *)
Definition failed_reply (msg : CmdTask) (err : option string) (cmd : Z) r : CmdReplyTask :=
  let r := match msg.(c_Task) with Some t => put_r_TaskID t.(tk).(t_ID) r | None => r end in
  let r := put_r_WorkflowID wf.(wf_ID) r in
  let r := match err with
           | Some e => if bool_decide (r.(r_Message) = "") then put_r_Message e r else r
           | None => r
           end in
  put_r_Cmd cmd (put_r_Status (-99) r).

(** The closure [retryDeliver] queues for an error [ne]; [e] is the loop
    variable when the closure runs. *)
Definition retryDeliver o (ne : DeliverErr) w : world :=
  let e := default ne w.(lastErr) in
  let msg := cmd_at ne.(de_Msg) w in
  let go (cmd : Z) (text : string -> string) :=
    let r := failed_reply msg e.(de_err) cmd ne.(de_Reply) in
    handleRetryDeliver o (text (", msg = " +:+ r.(r_Message) +:+ " "))
      (mkDeliverErr ne.(de_err) ne.(de_From) ne.(de_Receiver) ne.(de_Msg) r) w in
  let rcv := e.(de_Receiver).(p_Name) in
  if bool_decide (msg.(c_Cmd) = SetTaskCmd) then
    match msg.(c_Task) with
    | Some t => go ReplySetTaskCmd (fun m =>
        "Task '" +:+ t.(tk).(t_Name) +:+ "' can't setup on client '" +:+ rcv +:+ "'" +:+ m)
    | None => crash w
    end
  else if bool_decide (msg.(c_Cmd) = TriggerStartTaskCmd) then
    match msg.(c_Task) with
    | Some t => go ReplyStartTaskCmd (fun m =>
        "Task '" +:+ t.(tk).(t_Name) +:+ "' can't trigger on client '" +:+ msg.(c_From) +:+ "'" +:+ m)
    | None => crash w
    end
  else if bool_decide (msg.(c_Cmd) = InputTaskCmd) then
    match msg.(c_Task) with
    | Some _ => go ReplyInputTaskCmd (fun m =>
        "Can't deliver to '" +:+ rcv +:+ "'(" +:+ getNameType e.(de_Receiver).(p_Type) +:+ ")" +:+ m)
    | None => w
    end
  else if bool_decide (msg.(c_Cmd) = SetBrokerCmd) then
    match msg.(c_Broker) with
    | Some b => go ReplySetBrokerCmd (fun m =>
        "Broker '" +:+ b.(bo).(b_Name) +:+ "' can't setup on client '" +:+ rcv +:+ "'" +:+ m)
    | None => crash w
    end
  else if bool_decide (msg.(c_Cmd) = RequestDestroyWf) then
    match msg.(c_Broker) with
    | Some b => go ReplyDestroyWf (fun m =>
        "Broker '" +:+ b.(bo).(b_Name) +:+ "' can't setup on client '" +:+ rcv +:+ "'" +:+ m)
    | None => w
    end
  else w.

(** A message to a channel that was not delivered, sent again when the channel
    connects ([syncData]). *)
Definition retry_row o (mf : MessageFlow) w : world :=
  match o.(o_rows) with
  | Some [req] =>
    let c := put_c_Cmd req.(mf_Cmd) (put_c_Task (Some (msg_task req.(mf_TaskID) 0 req.(mf_TaskName) req.(mf_Message) ""))
      (put_c_Message (Some (ev_string req.(mf_Message))) (put_c_Retry (Some (mkRetry 0 req.(mf_Attempt)))
      (put_c_DeliverID req.(mf_DeliverID) (put_c_WorkflowID req.(mf_WorkflowID)
      (put_c_Group req.(mf_Group) (put_c_Start req.(mf_Start) (put_c_StartInput req.(mf_StartInput)
      (put_c_Parent req.(mf_Parent) (put_c_Part req.(mf_Part) zero_cmd)))))))))) in
    let r := put_r_Cmd mf.(mf_Cmd) (put_r_Group mf.(mf_Group) (put_r_DeliverID mf.(mf_DeliverID)
      (put_r_Parent mf.(mf_Parent) (put_r_Part mf.(mf_Part) zero_reply)))) in
    let '(i, w) := new_cmd c w in
    handleRetryDeliver o ""
      (mkDeliverErr None (mkPoint req.(mf_SenderID) req.(mf_SenderType) req.(mf_SenderName) 0)
         (mkPoint req.(mf_ReceiverID) req.(mf_ReceiverType) req.(mf_ReceiverName) 0) i r) w
  | _ => w
  end.

(** ** Callbacks of requests *)

(** A delivery that succeeded after retries closes its record. *)
Definition mark_recovered o (msg : nat) (more : Z) w : world :=
  match (cmd_at msg w).(c_Retry) with
  | Some rt => if o.(o_update) then SetWfRecovered rt.(rt_ID) (rt.(rt_Attempt) + more) true w else w
  | None => w
  end.

(** [checkCmdReply] without an error of the request: what follows, and whether
    it returns nil. *)
Definition checkCmdReply (from receiver : Point) (msg : nat) r (ignore : bool) w
    : world * list op * bool :=
  let log w := push [OLogReply (Some receiver) (Some from) (reply_json r) (cmd_at msg w).(c_SendAt) ""] w in
  if bool_decide (r.(r_Cmd) = ReplySetTaskCmd) then
    (log w, [OSend ChEvent (PkEvent (mkEvent ReceiveDeliverTaskCmd r))], true)
  else if bool_decide (r.(r_Cmd) = ReplyStartTaskCmd) then (log w, [], true)
  else if bool_decide (r.(r_Cmd) = ReplySetBrokerCmd) then
    if bool_decide (r.(r_Status) = FaultSetBroker) then
      (w, if ignore then [] else [wrapDeliverErr from receiver msg r None], false)
    else (log w, [OSend ChEvent (PkEvent (mkEvent ReceiveDeliverBrokerCmd r))], true)
  else (w, [], true).

(** Group and parts of the message a reply belongs to. *)
Definition reply_parts (msg : nat) r w : CmdReplyTask :=
  let c := cmd_at msg w in
  put_r_Group c.(c_Group) (put_r_Parent c.(c_Parent) (put_r_Part c.(c_Part) r)).

(** A call of the closure [cb] with a reply and an error. *)
Definition callback o (cb : cbk) r (err : option string) w : world * list op :=
  match cb with
  | CbTrigger from receiver cmd trigger =>
    match err with
    | Some _ => (w, [wrapDeliverErr from receiver cmd r err])
    | None => (push [OUpdateTrigger trigger] (mark_recovered o cmd 1 w), [])
    end
  | CbRetry first e =>
    let r := if first then r else reply_parts e.(de_Msg) r w in
    match err with
    | Some _ => (w, [wrapDeliverErr e.(de_From) e.(de_Receiver) e.(de_Msg) r err])
    | None =>
      let w := mark_recovered o e.(de_Msg) (if first then 1 else 0) w in
      (logMessageFlowReply o e.(de_Receiver) e.(de_From) (reply_json r) o.(o_now)
         (pretty (cmd_at e.(de_Msg) w).(c_DeliverID)) w, [])
    end
  | CbSync from receiver reply req trun ch bg =>
    match err with
    | Some e => (w, [wrapDeliverErr from receiver req r err;
                     OResume (ev_string e) from reply req trun ch bg])
    | None =>
      let v := if bool_decide (receiver.(p_Type) = TaskPoint) || bool_decide (receiver.(p_Type) = ClientPoint)
               then ev_reply_task r.(r_Result) else ev_reply_channel reply.(r_Content) in
      (mark_recovered o req 1 w, [OResume v from reply req trun ch bg])
    end
  | CbInput from receiver req =>
    match err with
    | Some _ => (w, [wrapDeliverErr from receiver req r err])
    | None =>
      let r := reply_parts req r w in
      (push [OLogReply (Some receiver) (Some from) (reply_json r) r.(r_SendAt) ""] (mark_recovered o req 1 w), [])
    end
  | CbSetup from receiver msg =>
    match err with
    | Some _ => (w, [wrapDeliverErr from receiver msg r err])
    | None => (checkCmdReply from receiver msg r false w).1
    end
  | CbRecover batch from receiver msg call =>
    match err with
    | Some _ => (w, [OFail call; ODone call])
    | None =>
      let '(w, ops, ok) := checkCmdReply from receiver msg r true w in
      (w, ops ++ [if ok : bool then OSetRecovered batch call else OFail call; ODone call])
    end
  | CbDestroy from p cmd call =>
    let pt := default kairos_point (point p w) in
    let failed := Some ("Client '" +:+ pt.(p_Name) +:+ "' can't clear workflow, msg = " +:+ r.(r_Message) +:+ " ") in
    match err with
    | Some _ => (w, [OFail call; wrapDeliverErr from pt cmd r failed; ODone call])
    | None =>
      if bool_decide (r.(r_Status) = SuccessDestroyWorkflow) then (w, [ODestroyed p call])
      else (w, [OFail call; wrapDeliverErr from pt cmd r failed; ODone call])
    end
  end.

(** ** Messages to brokers *)

(** The clients of the tasks with an identifier. *)
Definition task_clients (id : Z) : list string :=
  concat ((fun kt => if bool_decide (kt.2.(tk).(t_ID) = id) then kt.2.(tk).(t_Clients) else [])
            <$> wf.(wf_Tasks)).

(** The command for one receiver of a path of [handleDeliver]; [None] when the
    reply is read and is nil. *)
Definition path_cmd (path : DeliverFlow EV) (rev : string) (receiver : Point)
    (reply : option CmdReplyTask) c : option CmdTask :=
  if HasSuffix rev SubChannel then Some (put_c_Message (Some path.(Msg)) c)
  else if HasSuffix rev SubTask then
    r ← reply;
    let input := default (ev_json path.(Msg)) (ev_as_string path.(Msg)) in
    Some (put_c_Task (Some (msg_task receiver.(p_ID) r.(r_WorkflowID) receiver.(p_Name) input "")) c)
  else Some c.

(** One receiver of a path.  A task stands for its clients, which share the
    object of the command.  [inl]: the receiver is unknown. *)
Definition deliver_one (from : Point) (reply : option CmdReplyTask) (req : nat) (trun ch : option nat)
    (tracking bg : string) (path : DeliverFlow EV) (rev : string) w : unit + world * bool :=
  match point rev w with
  | None => inl ()
  | Some receiver =>
    let c := put_c_WorkflowID wf.(wf_ID) (cmd_at req w) in
    let '(c, w) :=
      match reply with
      | Some r => let '(part, w) := getPart r.(r_Part) receiver.(p_ID) receiver.(p_Type) w in
                  (put_c_Parent r.(r_Part) (put_c_Part part c), w)
      | None => (c, w)
      end in
    match path_cmd path rev receiver reply c with
    | None => inr (crash w, false)
    | Some c =>
      let '(c, w) :=
        if bool_decide (path.(Send) = SENDU) then
          let '(id, w) := nextCmdID w in
          (put_c_RunCount id (put_c_DeliverID id c),
           on_wk (fun k => put_responsesIDs ({[id]} ∪ k.(responsesIDs)) k) w)
        else (c, w) in
      let sync := bool_decide (path.(Send) = SENDSYNC) in
      let c := if sync then put_c_Cmd RequestTaskRunSyncCmd c else c in
      let '(obj, w) := new_cmd c w in
      let go (rv : option Point) : list op :=
        match sync && bool_decide (receiver.(p_Type) = TaskPoint), reply, trun with
        | true, Some r, Some t => [OSync from rv r obj t ch bg]
        | _, _, _ => [OInput from rv obj reply tracking bg]
        end in
      let receivers :=
        if bool_decide (receiver.(p_Type) = TaskPoint)
        then (fun cl => point (GetClientName cl) w) <$> task_clients receiver.(p_ID)
        else [Some receiver] in
      inr (fold_left (fun w rv => spawn (go rv) w) receivers w, sync)
    end
  end.

(** The loops of [handleDeliver]: [None] when they return early, else whether a
    path was synchronous. *)
Fixpoint deliver_paths (from : Point) (reply : option CmdReplyTask) (req : nat) (trun ch : option nat)
    (tracking bg : string) (paths : list (DeliverFlow EV * string)) (hasSync : bool) w
    : world * option bool :=
  match paths with
  | [] => (w, Some hasSync)
  | (path, rev) :: paths =>
    match deliver_one from reply req trun ch tracking bg path rev w with
    | inl _ => (w, None)
    | inr (w, sync) => deliver_paths from reply req trun ch tracking bg paths (hasSync || sync) w
    end
  end.

Definition split_paths (delivers : list (DeliverFlow EV)) : list (DeliverFlow EV * string) :=
  flat_map (fun path => (fun rev => (path, rev)) <$> Split path.(Reciever) ","%char) delivers.

(** [handleDeliver]; [tracking] is the JSON text of [exeOutput]. *)
Definition handleDeliver (from : Point) (delivers : list (DeliverFlow EV)) (reply : option CmdReplyTask)
    (req : nat) (trun ch : option nat) (tracking bg : string) w : world * list op :=
  match deliver_paths from reply req trun ch tracking bg (split_paths delivers) false w with
  | (w, None) => (w, [])
  | (w, Some hasSync) =>
    let w :=
      match delivers, reply with
      | [], Some r =>
        let '(part, w) := getPart r.(r_Part) from.(p_ID) from.(p_Type) w in
        let '(obj, w) := new_cmd (put_c_Message (Some (ev_string tracking)) (put_c_Parent r.(r_Part)
                           (put_c_Part part (put_c_WorkflowID wf.(wf_ID) (cmd_at req w))))) w in
        spawn [OInput from (Some from) obj reply tracking bg] w
      | _, _ => w
      end in
    (w, if hasSync then [] else [OSendResult ch ""])
  end.

(** The deliveries of a broker with endpoints: an endpoint that is a task stands
    for its clients; [receiver] is one variable for all of them. *)
Definition endpoint_client (from : Point) (req : nat) r (bg : string) (s : option Point * world)
    (cl : string) : option Point * world :=
  let rv := point (GetClientName cl) s.2 in
  (rv, spawn [OInput from rv req (Some r) "" bg] s.2).

Definition endpoint_task (from : Point) (req : nat) r (bg : string) (s : option Point * world)
    (kt : string * WTask) : option Point * world :=
  match s.1 with
  | None => (None, crash s.2)
  | Some receiver =>
    if bool_decide (receiver.(p_ID) = kt.2.(tk).(t_ID))
    then fold_left (endpoint_client from req r bg) kt.2.(tk).(t_Clients) s
    else s
  end.

Definition deliver_endpoint (from : Point) (req : nat) r (bg : string) w (endpoint : string) : world :=
  match point endpoint w with
  | None => crash w
  | Some receiver =>
    if bool_decide (receiver.(p_Type) = TaskPoint)
    then (fold_left (endpoint_task from req r bg) wf.(wf_Tasks) (Some receiver, w)).2
    else spawn [OInput from (Some receiver) req (Some r) "" bg] w
  end.

(** What a broker without a queue sees: the reply under the names it came from. *)
Definition reply_vars r : gmap string CmdReplyTask :=
  let own : gmap string CmdReplyTask := {[ ToLower r.(r_RunOn) := r ]} in
  (if HasSuffix r.(r_RunOn) SubChannel then own else ∅)
  ∪ (if HasSuffix r.(r_RunOn) SubClient then
       (if bool_decide (r.(r_TaskName) ∈ wf.(wf_Tasks).*1)
        then <[ToLower (GetTaskName r.(r_TaskName)) := r]> own else own)
     else ∅).

(** The replies a queueing broker reads back; [false] when one does not decode. *)
Fixpoint load_queue (kvs : list (string * string)) (vars : gmap string CmdReplyTask)
    : gmap string CmdReplyTask * bool :=
  match kvs with
  | [] => (vars, true)
  | (k, v) :: kvs =>
    match reply_parse v with
    | (r, None) => load_queue kvs (<[k := r]> vars)
    | (_, Some _) => (vars, false)
    end
  end.

(** [processBroker] up to the run of the template. *)
Definition processBroker o (dv : nat) (b : BrokerObj) (from : Point) r (req : nat)
    (input : option (gmap string (gmap string EV))) (ch : option nat) w : world * list op :=
  let '(bg, w) := getBrokerGroup w in
  let sender := point r.(r_RunOn) w in
  let m := reply_json r in
  let w := on_cmd req (put_c_Task (Some (msg_task r.(r_TaskID) r.(r_WorkflowID) r.(r_TaskName) "" ""))) w in
  let w := push [OLogReply sender (Some from) m r.(r_SendAt) bg] w in
  match b.(bo).(Flows).(Endpoints) with
  | Some (e :: es) => (fold_left (deliver_endpoint from req r bg) (e :: es) w, [])
  | _ =>
    let next := [OExecute dv b from r req input ch bg] in
    if negb b.(bo_Queue) then
      (on_wk (fun k => put_dynamicVars (<[dv := reply_vars r]> k.(dynamicVars)) k) w, next)
    else
      let w := setBrokerQueue o (ToLower r.(r_RunOn)) r w in
      let w := if HasSuffix r.(r_RunOn) SubClient && negb (bool_decide (r.(r_TaskName) = ""))
               then setBrokerQueue o (ToLower (GetTaskName r.(r_TaskName))) r w else w in
      match o.(o_kv) with
      | None => (w, [])
      | Some kvs =>
        let '(vars, ok) := load_queue kvs (default ∅ (w.(wk).(dynamicVars) !! dv)) in
        (on_wk (fun k => put_dynamicVars (<[dv := vars]> k.(dynamicVars)) k) w, if ok : bool then next else [])
      end
  end.

(** The map a template runs on: content and result of each reply, overridden by
    the input of a trigger. *)
Definition reply_data r : gmap string EV :=
  (match r.(r_Content) with Some c => {["content" := ev_content c]} | None => ∅ end)
  ∪ (match r.(r_Result) with Some res => {["result" := ev_result res]} | None => ∅ end).

Definition template_input (vars : gmap string CmdReplyTask)
    (input : option (gmap string (gmap string EV))) : gmap string (gmap string EV) :=
  default ∅ input ∪ (reply_data <$> vars).

(** The run of the template; [None] while it does not end. *)
Definition execute_broker o (dv : nat) (b : BrokerObj) (from : Point) r (req : nat)
    (input : option (gmap string (gmap string EV))) (ch : option nat) (bg : string) w
    : option (world * list op) :=
  match b.(bo).(b_Template) with
  | None => Some (crash w, [])
  | Some t =>
    let vars := default ∅ (w.(wk).(dynamicVars) !! dv) in
    match engine_execute o.(o_fuel) (engine_new t (template_input vars input)) with
    | Ok (Some (rt, out)) =>
      let '(trun, w) := fresh w in
      let w := put_truns (<[trun := rt]> w.(truns)) w in
      let w := push [] w in
      Some (handleDeliver from out.(eo_flows) (Some r) req (Some trun) ch out.(eo_json) bg w)
    | Ok None => None
    | _ => Some (crash w, [])
    end
  end.

(** The callback of a synchronous delivery goes on with the template. *)
Definition resume o (v : EV) (from : Point) r (req trun : nat) (ch : option nat) (bg : string) w
    : option (world * list op) :=
  match w.(truns) !! trun with
  | None => Some (w, [])
  | Some rt =>
    match engine_execute o.(o_fuel) (engine_input v rt) with
    | Ok (Some (rt, out)) =>
      let w := put_truns (<[trun := rt]> w.(truns)) w in
      let err := match out.(eo_err) with Some e => [OSendResult ch e] | None => [] end in
      Some (w, err ++ match out.(eo_flows) with
                      | [] => [OSendResult ch out.(eo_result)]
                      | flows => [OHandle from flows r req trun ch out.(eo_json) bg]
                      end)
    | Ok None => None
    | _ => Some (crash w, [])
    end
  end.

(** ** The subscriptions *)

(** [computeMsg] up to the loop over the brokers.  [Start] is cleared after the
    message was marshalled; a reply with a task input counts as delivered when
    it starts a flow. *)
Definition computeMsg r (req : nat) (ch : option nat) w : world * list op :=
  if bool_decide (r.(r_Group) = "") then (w, [])
  else
    let w := on_cmd req (put_c_Group r.(r_Group)) w in
    let m := reply_json r in
    match point r.(r_RunOn) w with
    | None => (w, [])
    | Some sender =>
      let brokers := imap (fun i kb => (i, kb.2)) wf.(wf_Brokers) in
      if bool_decide (r.(r_TaskInput) = "") then (w, [OBroker r req ch m false brokers])
      else
        (push [OLogReply (Some sender) (Some sender) m r.(r_SendAt) ""] w,
         [OBroker (put_r_Start false r) req ch m r.(r_Start) brokers])
    end.

(** A message of a task without a result or of a channel without a content. *)
Definition empty_message r : bool :=
  (HasSuffix r.(r_RunOn) SubTask && negb (bool_decide (is_Some r.(r_Result))))
  || (HasSuffix r.(r_RunOn) SubChannel && match r.(r_Content) with None => true | Some _ => false end).

(** One round of the loop of [computeMsg] over the brokers, and its end. *)
Definition broker_round r (req : nat) (ch : option nat) (m : string) (dest : bool)
    (rest : list (nat * BrokerObj)) w : world * list op :=
  match rest with
  | [] =>
    if dest then (w, [])
    else (push [OLogReply (point r.(r_RunOn) w) (Some (kairos w)) m r.(r_SendAt) ""] w, [])
  | (i, b) :: rest =>
    if negb (bool_decide (r.(r_WorkflowID) = wf.(wf_ID))) then (w, [OBroker r req ch m dest []])
    else if (Broker_IsListen b.(bo).(Listens) r.(r_TaskName) || Broker_IsListen b.(bo).(Listens) r.(r_RunOn))
            && bool_decide (b.(bo).(b_Clients) = []) then
      let '(part, w) := getPart r.(r_Part) b.(bo).(b_ID) BrokerPoint w in
      let r' := put_r_Part part (put_r_Parent r.(r_Part) r) in
      if empty_message r' then (w, [OBroker r req ch m true []])
      else (w, [OProcess i b (mkPoint b.(bo).(b_ID) BrokerPoint b.(bo).(b_Name) 0) r' req None ch;
                OBroker r req ch m true rest])
    else (w, [OBroker r req ch m dest rest])
  end.

(** [handleLogFromDaem]. *)
Definition handleLogFromDaem o (l : LogDaemon) w : world :=
  match l.(ld_Reply), l.(ld_Request) with
  | Some r, _ =>
    match point r.(r_RunOn) w, point (GetBrokerName r.(r_BrokerName)) w with
    | Some from, Some to =>
      logMessageFlowReply o from to (reply_json (put_r_DeliverID (-2) r)) l.(ld_SendAt) l.(ld_BrokerGroup) w
    | _, _ => w
    end
  | None, Some c =>
    match point (GetBrokerName l.(ld_BrokerName)) w, point l.(ld_RunOn) w with
    | Some from, Some to =>
      logMessageFlowRequest o from to (put_c_DeliverID (-2) c) l.(ld_SendAt) l.(ld_Tracking) l.(ld_BrokerGroup) w
    | Some _, None => match c.(c_Task) with Some _ => w | None => crash w end
    | None, _ => w
    end
  | None, None => w
  end.

(** The test that is meant to drop messages of other workflows. *)
Definition dropped r (err : option string) : bool :=
  (bool_decide (is_Some err) || negb (bool_decide (r.(r_WorkflowID) = wf.(wf_ID))))
  && HasSuffix r.(r_RunOn) SubChannel && HasSuffix r.(r_RunOn) SubClient.

(** [reciveMessage]: a message on the subject of the workflow. *)
Definition reciveMessage o w : world * list op :=
  let '(r, err) := reply_parse o.(o_data) in
  if dropped r err then (w, [])
  else if bool_decide (r.(r_Cmd) = ReplyLogWfCmd) then
    (match log_parse o.(o_data) with Some l => handleLogFromDaem o l w | None => w end, [])
  else if bool_decide (r.(r_DeliverID) = DeliverBorkerCmd) then
    let r := put_r_WorkflowID wf.(wf_ID) (put_r_Status SuccessReceiveOutputTaskCmd r) in
    let '(req, w) := new_cmd (put_c_Cmd InputTaskCmd (put_c_From r.(r_RunOn)
                       (put_c_WorkflowID r.(r_WorkflowID) zero_cmd))) w in
    if bool_decide (r.(r_RunCount) = 0) then computeMsg r req None w
    else if bool_decide (r.(r_RunCount) ∈ w.(wk).(responsesIDs)) then
      computeMsg r req None
        (on_wk (fun k => put_responsesIDs (k.(responsesIDs) ∖ {[r.(r_RunCount)]}) k) w)
    else (w, [])
  else
    let r := put_r_WorkflowID wf.(wf_ID) r in
    (w, ORemoveRequest r.(r_DeliverID) ::
        match w.(wk).(requests) !! r.(r_DeliverID) with
        | Some cb => [OCallback cb r err]
        | None => []
        end).

(** [reciveMessageSync]: a message that is answered. *)
Definition dropped_sync r (err : option string) : bool :=
  (bool_decide (is_Some err) || negb (bool_decide (r.(r_WorkflowID) = wf.(wf_ID))))
  && negb (HasSuffix r.(r_RunOn) SubChannel).

Definition reciveMessageSync o w : world * list op :=
  let '(r, err) := reply_parse o.(o_data) in
  if dropped_sync r err then (w, [])
  else
    let '(id, w) := nextCmdID w in
    let r := put_r_WorkflowID wf.(wf_ID) r in
    let '(req, w) := new_cmd (put_c_Cmd InputTaskCmd (put_c_DeliverID id (put_c_From r.(r_RunOn)
                       (put_c_WorkflowID r.(r_WorkflowID) zero_cmd)))) w in
    let '(ch, w) := fresh w in
    let '(w, ops) := computeMsg r req (Some ch) w in
    (w, ops ++ [ORespond ch]).

(** [syncData] for a channel that connects. *)
Definition syncData o (daemon : bool) : list op :=
  if bool_decide (o.(o_data) = "connect") && negb daemon
  then ORetryRow <$> default [] o.(o_rows) else [].

(** ** Triggers *)

(** The last task or broker with an identifier, the first channel. *)
Definition find_task (id : Z) : option WTask :=
  snd <$> last (filter (fun kt => kt.2.(tk).(t_ID) = id) wf.(wf_Tasks)).
Definition find_broker (id : Z) : option (nat * BrokerObj) :=
  last (filter (fun ib => ib.2.(bo).(b_ID) = id) (imap (fun i kb => (i, kb.2)) wf.(wf_Brokers))).
Definition channels_with (id : Z) : list Named :=
  filter (fun n => n.(n_ID) = id) wf.(wf_Channels).

(** [w.Sched.AddTask]: [RunTask] does nothing. *)
Definition sched_task (t : WTask) w : world :=
  put_taskCron (AddTask t.(tk).(t_Schedule) t.(tk).(t_Timezone) (JTask t) w.(taskCron)).1 w.

(** [w.Sched.AddBroker] works on a copy of the broker and runs it when the
    trigger has no schedule; [AddChannel] likewise. *)
Definition sched_broker (ib : nat * BrokerObj) (t : Trigger) w : world * list op :=
  let '(c, a) := AddBroker t.(tg_Schedule) (JBroker ib.2.(bo).(b_ID) w.(wk).(triggerReady) t) w.(brokerCron) in
  let w := put_brokerCron c w in
  match a with
  | RunNow =>
    let '(dv, w) := fresh w in
    (on_wk (fun k => put_dynamicVars (<[dv := default ∅ (k.(dynamicVars) !! ib.1)]> k.(dynamicVars)) k) w,
     [ORunBroker dv ib.2 t.(tg_Input) t.(tg_ID)])
  | _ => (w, [])
  end.

Definition sched_channel (n : Named) (t : Trigger) w : world * list op :=
  let '(c, a) := AddChannel t.(tg_Schedule) (JChannel n.(n_ID) w.(wk).(triggerReady) t) w.(channelCron) in
  let w := put_channelCron c w in
  match a with RunNow => (w, [ORunChannel n t.(tg_Input) t.(tg_ID)]) | _ => (w, []) end.

(** [handleTrigger]. *)
Definition handleTrigger o (t : Trigger) w : world * list op :=
  if negb (bool_decide (t.(tg_Client) = "")) then
    let '(id, w) := nextCmdID w in
    let '(cmd, w) := new_cmd (put_c_Cmd TriggerCmd (put_c_Trigger (Some t) (put_c_WorkflowID wf.(wf_ID)
                       (put_c_DeliverID id (put_c_Attempt 1 zero_cmd))))) w in
    match point (GetClientName t.(tg_Client)) w with
    | None => (crash w, [])
    | Some receiver =>
      ((deliverAsync o receiver cmd (CbTrigger (kairos w) receiver cmd t.(tg_ID)) w).1, [])
    end
  else
    let delete := bool_decide (t.(tg_Action) = "delete") in
    let id := t.(tg_ObjectID) in
    if bool_decide (t.(tg_Type) = "task") then
      if delete then (put_taskCron (RemoveEntry id w.(taskCron)) w, [])
      else match find_task id with
           | Some tsk => (sched_task tsk w, [OUpdateTrigger t.(tg_ID)])
           | None => (w, [])
           end
    else if bool_decide (t.(tg_Type) = "broker") then
      if delete then (put_brokerCron (RemoveEntry id w.(brokerCron)) w, [])
      else match find_broker id with
           | Some b => let '(w, ops) := sched_broker b t w in (w, ops ++ [OUpdateTrigger t.(tg_ID)])
           | None => (w, [])
           end
    else if bool_decide (t.(tg_Type) = "channel") then
      if delete then (put_channelCron (RemoveEntry id w.(channelCron)) w, [])
      else match channels_with id with
           | n :: _ => let '(w, ops) := sched_channel n t w in (w, ops ++ [OUpdateTrigger t.(tg_ID)])
           | [] => (w, [])
           end
    else (w, []).

(** A trigger on [triggerCh]: [handleTriggerSchedule]. *)
Definition handleTriggerSchedule (t : Trigger) : list op :=
  let done := OUpdateTrigger t.(tg_ID) in
  if bool_decide (t.(tg_Type) = "task") then
    match find_task t.(tg_ObjectID) with Some _ => [done] | None => [] end
  else if bool_decide (t.(tg_Type) = "broker") then
    match find_broker t.(tg_ObjectID) with
    | Some (i, b) => [ORunBroker i b t.(tg_Input) t.(tg_ID); done]
    | None => []
    end
  else if bool_decide (t.(tg_Type) = "channel") then
    flat_map (fun n => [ORunChannel n t.(tg_Input) t.(tg_ID); done]) (channels_with t.(tg_ObjectID))
  else [].

(** [RunBroker]: the broker runs in a goroutine of its own, and this one waits
    for its answer. *)
Definition RunBroker (dv : nat) (b : BrokerObj) (input : string) (trigger : Z) w : world * list op :=
  let '(group, w) := getGroup w in
  let '(part, w) := getPart "" 0 0 w in
  let name := GetBrokerName b.(bo).(b_Name) in
  let r := put_r_Cmd (-1) (put_r_BeginPart true (put_r_StartInput input (put_r_Start true (put_r_RunOn name
    (put_r_BrokerID b.(bo).(b_ID) (put_r_BrokerName b.(bo).(b_Name) (put_r_Group group (put_r_Part part
    (put_r_WorkflowID wf.(wf_ID) (put_r_Trigger (Some (trigger_with_id trigger)) zero_reply)))))))))) in
  let '(req, w) := new_cmd (put_c_Cmd InputTaskCmd (put_c_From name (put_c_WorkflowID wf.(wf_ID)
    (put_c_Group group (put_c_StartInput input zero_cmd))))) w in
  let '(ch, w) := fresh w in
  match point name w with
  | None => (crash w, [])
  | Some from =>
    (spawn [OProcess dv b from r req (Some (default ∅ (input_parse input))) (Some ch)] w, [OWaitResult ch])
  end.

(** [RunChannel]. *)
Definition RunChannel (n : Named) (input : string) (trigger : Z) w : world :=
  match point (GetChannelName n.(n_Name)) w with
  | None => crash w
  | Some p =>
    let '(group, w) := getGroup w in
    let '(part, w) := getPart "" p.(p_ID) ClientPoint w in
    let '(req, w) := new_cmd (put_c_Cmd InputTaskCmd (put_c_Message (Some (ev_string input))
      (put_c_Group group (put_c_Part part (put_c_Start true (put_c_Channel n.(n_Name)
      (put_c_WorkflowID wf.(wf_ID) (put_c_StartInput input
      (put_c_Trigger (Some (trigger_with_id trigger)) zero_cmd))))))))) w in
    spawn [OInput (kairos w) (Some p) req None "" ""] w
  end.

(** ** Setting the workflow up *)

(** A task that publishes: it runs on the worker, which tells itself so through
    the event channel.  Before the start its closure [Execute] is set. *)
Definition push_pubsub (cmd : Z) (t : WTask) (rest : list WTask) w : world * list op :=
  let id := t.(tk).(t_ID) in
  let w := update_task id (mkDelivery "kairos" PendingDeliver) w in
  match payload_parse t.(tk).(t_Payload) with
  | None => (w, [])
  | Some maps =>
    let start := bool_decide (cmd = TriggerStartTaskCmd) in
    let w := if start
             then sched_task t (on_wk (fun k => put_executes (<[id := maps]> k.(executes)) k) w) else w in
    let w := sched_task t w in
    let r := put_r_Cmd (if start then ReplyStartTaskCmd else ReplySetTaskCmd)
               (put_r_Status (if start then SuccessTriggerTask else SuccessSetTask)
                 (put_r_RunOn "kairos" (put_r_TaskID id zero_reply))) in
    (w, [OSend ChEvent (PkEvent (mkEvent ReceiveDeliverTaskCmd r)); OPush cmd None rest])
  end.

(** [deliverTask] for one client: its identifier comes from the metadata of the
    task; the error of the delivery is dropped. *)
Definition deliver_task_client o (cmd : Z) (t : WTask) (cl : string) w : world * bool :=
  let w := update_task t.(tk).(t_ID) (mkDelivery cl PendingDeliver) w in
  match point (GetClientName cl) w with
  | None => (crash w, false)
  | Some p =>
    let '(id, w) := nextCmdID w in
    let '(i, w) := new_cmd (put_c_Task (Some t) (put_c_Cmd cmd (put_c_WorkflowID wf.(wf_ID)
                     (put_c_DeliverID id (put_c_Channel p.(p_Name) zero_cmd))))) w in
    match Atoi (default "" (t.(tk_Metadata) !! cl)) with
    | None => (w, false)
    | Some cid =>
      ((deliverTaskToClient o (kairos w) (mkPoint cid ClientPoint cl 0) i w).1, true)
    end
  end.

(** [pushAllCmdTask] and [deliverTask], one round at a time. *)
Definition push_round o (cmd : Z) (cur : option (WTask * list string)) (rest : list WTask) w
    : world * list op :=
  match cur, rest with
  | Some (t, cl :: cls), _ =>
    let '(w, ok) := deliver_task_client o cmd t cl w in
    (w, if ok : bool then [OPush cmd (Some (t, cls)) rest] else [])
  | Some (_, []), _ => (w, [OPush cmd None rest])
  | None, [] => (w, [])
  | None, t :: rest =>
    if bool_decide (t.(tk).(t_Executor) = PubSubTask) then push_pubsub cmd t rest w
    else if bool_decide (t.(tk).(t_Executor) = HttpHookTask) then (w, [OPush cmd None rest])
    else (w, [OPush cmd (Some (t, t.(tk).(t_Clients))) rest])
  end.

Definition pushAllCmdTask (cmd : Z) : op := OPush cmd None wf.(wf_Tasks).*2.

(** [deliverBrokers], one client at a time; an error ends the loop. *)
Definition broker_client o (cmd : Z) (b : BrokerObj) (cl : string) w : world * bool :=
  let w := update_broker b.(bo).(b_ID) (mkDelivery cl PendingDeliver) w in
  let c := put_c_Cmd cmd (put_c_Broker (Some b) (put_c_WorkflowID wf.(wf_ID) zero_cmd)) in
  match cmd_parse (default "" (cmd_json c)) c with
  | None => (w, false)
  | Some c =>
    match point (GetClientName cl) w with
    | None => (crash w, false)
    | Some p =>
      let '(i, w) := new_cmd (put_c_Channel p.(p_Name) c) w in
      let '(w, err) := deliverTaskToClient o (kairos w) p i w in
      (w, match err with None => true | Some _ => false end)
    end
  end.

Definition brokers_round o (cmd : Z) (cur : option (BrokerObj * list string)) (rest : list BrokerObj) w
    : world * list op :=
  match cur, rest with
  | Some (b, cl :: cls), _ =>
    let '(w, ok) := broker_client o cmd b cl w in
    (w, if ok : bool then [OBrokers cmd (Some (b, cls)) rest] else [])
  | Some (_, []), _ => (w, [OBrokers cmd None rest])
  | None, [] => (w, [])
  | None, b :: rest => (w, [OBrokers cmd (Some (b, b.(bo).(b_Clients))) rest])
  end.

Definition deliverBrokers (cmd : Z) : op := OBrokers cmd None wf.(wf_Brokers).*2.

(** [run]. *)
Definition run_ops : list op := [pushAllCmdTask SetTaskCmd; deliverBrokers SetBrokerCmd; OWaitClose].

(** The closure [Execute] of a publishing task, called by the cron without a
    command: the payload names the receiver and the data. *)
Definition execute_task (t : WTask) (outputs : gmap string EV) w : world :=
  let data := match outputs !! "data" with
              | Some v => default (ev_json v) (ev_as_string v)
              | None => "null"
              end in
  match outputs !! "sub" ≫= ev_as_string with
  | None => crash w
  | Some objectName =>
    match point objectName w with
    | None => w
    | Some receiver =>
      let '(id, w) := nextCmdID w in
      let '(group, w) := getGroup w in
      let c := put_c_Cmd InputTaskCmd (put_c_DeliverID id (put_c_Group group
                 (put_c_Channel receiver.(p_Name) zero_cmd))) in
      let c := if HasSuffix objectName SubTask
               then put_c_Task (Some (msg_task receiver.(p_ID) wf.(wf_ID) receiver.(p_Name) "" data)) c
               else if HasSuffix objectName SubChannel then put_c_Message (Some (ev_string data)) c
               else c in
      let '(req, w) := new_cmd c w in
      match point (GetTaskName t.(tk).(t_Name)) w with
      | None => crash w
      | Some from =>
        (handleDeliver from [mkFlow objectName "send" (ev_string data)] None req None None "" "" w).1
      end
    end
  end.

(** An event of [Run]; after [DeleteWorkerCmd] it returns. *)
Definition handle_event (e : Event) : list op :=
  let r := e.(ev_cmdtask) in
  let d := mkDelivery r.(r_RunOn) r.(r_Status) in
  if bool_decide (e.(ev_cmd) = DeleteWorkerCmd) then [ODelete]
  else if bool_decide (e.(ev_cmd) = ReceiveDeliverTaskCmd) then
    [OUpdateTask r.(r_TaskID) d; OCheckDelivered; ORunLoop]
  else if bool_decide (e.(ev_cmd) = ReceiveDeliverBrokerCmd) then
    [OUpdateBroker r.(r_BrokerID) d; OCheckDelivered; ORunLoop]
  else [ORunLoop].

(** Everything was delivered: the workflow runs and its tasks are started. *)
Definition check_delivered o w : world * list op :=
  if allDelivered w.(wk) then
    let w := spawn [OStatus Running] w in
    ((logWorkflow o "Workflow setup success" WFRecordScuccess None (-1) w).2,
     [pushAllCmdTask TriggerStartTaskCmd])
  else (w, []).

(** ** Recovery *)

Definition Recover o w : world * list op :=
  let '(call, w) := fresh w in
  (put_successes (<[call := true]> (w.(successes)))
     (put_waits (<[call := 0]> w.(waits)) (setWfStatus o Recovering w)), [ORecover call]).

(** One batch of failed deliveries. *)
Definition recover_batch o (call : nat) w : world * list op :=
  if negb o.(o_read) then (w, [])
  else match GetWorkflowRecordsRecovery w with
       | [] =>
         let w := setWfStatus o Running w in
         let w := (logWorkflow o "Successful Recovery Workflow" WFRecordScuccess None (-1) w).2 in
         (monitor o RecoverWorkflow (json_field "status" "true") w, [])
       | rows => let '(batch, w) := fresh w in (w, [ORecoverRows call batch rows])
       end.

(** The deliveries of a batch; a record that does not decode ends [Recover]. *)
Definition recover_rows o (call batch : nat) (rows : list wf_record) w : world * list op :=
  match rows with
  | [] => (w, [OWait call; ORecoverCheck call])
  | e :: rest =>
    let w := put_loopVars (<[batch := e]> w.(loopVars)) w in
    if bool_decide (e.(wr_DeliverErr) = "") then (w, [ORecoverRows call batch rest])
    else match saved_parse e.(wr_DeliverErr) with
         | None => (w, [])
         | Some sv =>
           let w := put_waits (<[call := default 0 (w.(waits) !! call) + 1]> w.(waits)) w in
           let '(msg, w) := new_cmd sv.(sv_Msg) w in
           ((deliverAsync o sv.(sv_Receiver) msg (CbRecover batch sv.(sv_From) sv.(sv_Receiver) msg call) w).1,
            [ORecoverRows call batch rest])
         end
  end.

(** After a batch: stop when a delivery failed, else the next batch. *)
Definition recover_check o (call : nat) w : world * list op :=
  if default true (w.(successes) !! call) then (w, [ORecover call])
  else
    let w := (logWorkflow o "Fault recovery workflow" WFRecordFault None (-1) w).2 in
    (monitor o RecoverWorkflow (json_field "status" "false") w, []).

(** A delivery of a batch succeeded: the record in the loop variable is closed. *)
Definition set_recovered o (batch call : nat) w : world :=
  match w.(loopVars) !! batch with
  | Some e =>
    if o.(o_update) then SetWfRecovered e.(wr_ID) (e.(wr_Retry) + 1) true w
    else put_successes (<[call := false]> w.(successes)) w
  | None => w
  end.

(** ** Destruction *)

(** [Destroy]: the crons stop, every client is asked to clear the workflow. *)
Definition Destroy o w : option (world * list op) :=
  let w := put_taskCron (Stop w.(taskCron)) (put_brokerCron (Stop w.(brokerCron))
             (put_channelCron (Stop w.(channelCron)) w)) in
  let w := setWfStatus o Destroying w in
  let clients := filter (fun k => HasSuffix k SubClient = true) o.(o_order) in
  if bool_decide (o.(o_order) ≡ₚ (map_to_list w.(wk).(points)).*1) then
    let w := on_wk (fun k => put_clientsActive (k.(clientsActive) ++ clients) k) w in
    let active := w.(wk).(clientsActive) in
    let '(call, w) := fresh w in
    let w := put_successes (<[call := true]> w.(successes))
               (put_waits (<[call := Z.of_nat (length active)]> w.(waits)) w) in
    let w := fold_left (fun w q =>
               let '(cmd, w) := new_cmd (put_c_Cmd RequestDestroyWf (put_c_WorkflowID wf.(wf_ID) zero_cmd)) w in
               spawn [ODestroySend (kairos w) q cmd call] w) active w in
    Some (w, [OWait call])
  else None.

Definition destroy_send o (from : Point) (p : string) (cmd call : nat) w : world :=
  match point p w with
  | None => crash w
  | Some pt => (deliverAsync o pt cmd (CbDestroy from p cmd call) w).1
  end.

(** A client cleared the workflow; the last one lets it be dropped. *)
Definition client_destroyed o (p : string) (call : nat) w : world * list op :=
  let w := on_wk (fun k => put_points (alter (put_p_Status PointDestroy) p k.(points)) k) w in
  let name := from_option p_Name "" (point p w) in
  let w := (logWorkflow o ("Client '" +:+ name +:+ "' clear workflow ") WFRecordScuccess None (-1) w).2 in
  if forallb (fun q => bool_decide (p_Status <$> point q w = Some PointDestroy)) w.(wk).(clientsActive)
  then (w, [ODrop call; ODone call]) else (w, [ODone call]).

(** [DropWorkflow], which succeeds also when the workflow is gone; then the
    channels are closed, and closing a closed one panics. *)
Definition drop_workflow o (call : nat) w : world :=
  if negb o.(o_update) then put_successes (<[call := false]> w.(successes)) w
  else
    let w := monitor o DestroyWorkflow (json_field "status" (pretty Destroyed)) (store StDropped w) in
    if w.(closeClosed) || w.(eventClosed) then crash w
    else put_eventClosed true (put_closeClosed true w).

(** ** Steps *)

(** The subjects [reciveMessage] subscribes to besides those of the workflow. *)
Definition client_subs : list (bool * Z) :=
  ((fun n => (true, n.(n_ID))) <$> wf.(wf_Clients)) ++ ((fun n => (false, n.(n_ID))) <$> wf.(wf_Channels)).

(** [reciveMessage] ignores a failure of its first subscription, and one of its
    second unless there are no others; a failure of the others ends it. *)
Fixpoint subscribe_clients (oks : list bool) (subs : list (bool * Z)) w : world * bool :=
  match subs with
  | [] => (w, true)
  | (daemon, cid) :: subs =>
    match oks with
    | false :: _ => (w, false)
    | _ => subscribe_clients (tl oks) subs (spawn [ONatsClient daemon cid] w)
    end
  end.

Definition subscribe o w : world * bool :=
  let ok1 := hd true o.(o_subs) in
  let ok2 := hd true (tl o.(o_subs)) in
  let w := if ok1 : bool then spawn [ONats] w else w in
  let w := if ok2 : bool then spawn [ONatsTrigger] w else w in
  match client_subs with
  | [] => (w, ok2)
  | subs => subscribe_clients (tl (tl o.(o_subs))) subs w
  end.

(** The time-out of a request, or the end of the worker. *)
Definition expire (id : Z) (err : string) w : world * list op :=
  (w, match w.(wk).(requests) !! id with
      | Some cb => [OCallback cb (put_r_DeliverID id zero_reply) (Some err); ORemoveRequest id]
      | None => [ORemoveRequest id]
      end).

(** A nil receiver is dereferenced. *)
Definition with_point (rv : option Point) w (f : Point -> world * list op) : world * list op :=
  match rv with Some p => f p | None => (crash w, []) end.

Definition exec o (x : op) w : option (world * list op) :=
  match x with
  | OConnect => Some (if o.(o_conn) then (on_wk (put_natsOpen true) w, [OSubscribe]) else (w, []))
  | OSubscribe => let '(w, ok) := subscribe o w in Some (w, if ok : bool then [OSubscribeSync] else [])
  | OSubscribeSync => Some (if o.(o_conn) then (spawn [ONatsSync] w, [OInitFC]) else (w, []))
  | OInitFC => Some (w, if o.(o_conn) then [OStarted; OQueue; ORunLoop] else [])
  | OStarted =>
    let w := on_wk (put_w_status Running) w in
    let w := spawn [OStatus Delivering] w in
    let w := spawn [ORetryLoop] w in
    let w := on_wk (fun k => put_points (setPoints k.(points)) k) w in
    Some (spawn run_ops w, [])
  | OQueue => Some (spawn [OTriggerStart] (spawn [ODispatch] (on_wk (put_CBQueue true) w)), [])
  | ORunLoop => if w.(eventClosed) then Some (w, []) else None
  | ODelete =>
    let w := if w.(wk).(CBQueue) then on_wk (put_CBQueue false) (put_jobs (w.(jobs) ++ [None]) w) else crash w in
    Some (if w.(closeClosed) then crash w else put_closeClosed true w, [])
  | OUpdateTask id d => Some (update_task id d w, [])
  | OUpdateBroker id d => Some (update_broker id d w, [])
  | OCheckDelivered => Some (check_delivered o w)
  | OPush cmd cur rest => Some (push_round o cmd cur rest w)
  | OBrokers cmd cur rest => Some (brokers_round o cmd cur rest w)
  | OWaitClose => if w.(closeClosed) then Some (on_wk (put_natsOpen false) w, []) else None
  | OSend ChEvent _ => if w.(eventClosed) then Some (crash w, []) else None
  | OSend _ _ => None
  | OSendResult ch b =>
    Some (w, match ch with Some n => [OSend (ChResult n) (PkResult b)] | None => [] end)
  | ORespond _ | OWaitResult _ | ORetryLoop | OTriggerLoop => None
  | OTimer id =>
    if o.(o_timeout) then Some (expire id "deliver timeout" w)
    else if w.(closeClosed) then Some (expire id "worker: stopped" w) else None
  | ORemoveRequest id => Some (removeRequest id w, [])
  | OCallback cb r err => Some (callback o cb r err w)
  | ONats => let '(w, ops) := reciveMessage o w in Some (w, ops ++ [ONats])
  | ONatsTrigger => let '(w, ops) := handleTrigger o (trigger_parse o.(o_data)).1 w in Some (w, ops ++ [ONatsTrigger])
  | ONatsSync => let '(w, ops) := reciveMessageSync o w in Some (w, ops ++ [ONatsSync])
  | ONatsClient daemon cid => Some (w, syncData o daemon ++ [ONatsClient daemon cid])
  | ODispatch =>
    match w.(jobs) with
    | Some job :: rest => Some (put_jobs rest w, job ++ [ODispatch])
    | None :: rest => Some (put_jobs rest w, [])
    | [] => None
    end
  | OLogReply from receiver m at_ bg =>
    Some (with_point from w (fun f => with_point receiver w (fun rv =>
            (logMessageFlowReply o f rv m at_ bg w, []))))
  | OLogRequest from receiver msg tracking bg =>
    Some (logMessageFlowRequest o from receiver (cmd_at msg w) o.(o_delay) tracking bg w, [])
  | OSaveTask r => Some (saveTaskRecord o r w, [])
  | OUpdateTrigger t => Some (UpdateTrigger o t TriggerScheduled w, [])
  | ORetryJob e => Some (retryDeliver o e w, [])
  | ORetryTimer e => Some ((deliverAsync o e.(de_Receiver) e.(de_Msg) (CbRetry false e) w).1, [])
  | ORetryRow mf => Some (retry_row o mf w, [])
  | OBroker r req ch m dest rest => Some (broker_round r req ch m dest rest w)
  | OProcess dv b from r req input ch => Some (processBroker o dv b from r req input ch w)
  | OExecute dv b from r req input ch bg => execute_broker o dv b from r req input ch bg w
  | OResume v from r req trun ch bg => resume o v from r req trun ch bg w
  | OHandle from flows r req trun ch tracking bg =>
    Some (handleDeliver from flows (Some r) req (Some trun) ch tracking bg w)
  | OInput from rv req reply tracking bg =>
    Some (with_point rv w (fun p => deliverInputTaskCmd o from p req reply tracking bg w))
  | OSync from rv r req trun ch bg =>
    Some (with_point rv w (fun p => deliverRequestRunTaskSync o from p r req trun ch bg w))
  | OTriggerStart => Some (on_wk (put_triggerReady true) w, [OTriggerLoop])
  | ORunBroker dv b input t => Some (RunBroker dv b input t w)
  | ORunChannel n input t => Some (RunChannel n input t w, [])
  | OExecTask t outputs => Some (execute_task t outputs w, [])
  | OStatus s => Some (setWfStatus o s w, [])
  | ORecover call => Some (recover_batch o call w)
  | ORecoverRows call batch rows => Some (recover_rows o call batch rows w)
  | ORecoverCheck call => Some (recover_check o call w)
  | OSetRecovered batch call => Some (set_recovered o batch call w, [])
  | ODestroy => Destroy o w
  | ODestroySend from p cmd call => Some (destroy_send o from p cmd call w, [])
  | ODestroyed p call => Some (client_destroyed o p call w)
  | ODrop call => Some (drop_workflow o call w, [])
  | OFail call => Some (put_successes (<[call := false]> w.(successes)) w, [])
  | ODone call =>
    let n := default 0 (w.(waits) !! call) in
    Some (if n <=? 0 then crash w else put_waits (<[call := n - 1]> w.(waits)) w, [])
  | OWait call => if bool_decide (default 0 (w.(waits) !! call) = 0) then Some (w, []) else None
  end.

(** What a goroutine that waits for a channel does with what it receives. *)
Definition receive (x : op) (c : chan) (pk : packet) w : option (world * list op) :=
  match x, c, pk with
  | ORunLoop, ChEvent, PkEvent e => Some (w, handle_event e)
  | ORetryLoop, ChErr, PkErr e => Some (push [ORetryJob e] (put_lastErr (Some e) w), [ORetryLoop])
  | OTriggerLoop, ChTrigger, PkTrigger t =>
    Some (w, from_option handleTriggerSchedule [] t ++ [OTriggerLoop])
  | ORespond n, ChResult m, PkResult b =>
    if bool_decide (n = m) then Some (emit (SentAnswer b) w, []) else None
  | OWaitResult n, ChResult m, PkResult _ => if bool_decide (n = m) then Some (w, []) else None
  | _, _, _ => None
  end.

(** Goroutine [i] runs its next operation. *)
Definition run_thread (i : nat) o w : option world :=
  if w.(crashed) then None
  else match w.(threads) !! i with
       | Some (x :: k) =>
         '(w', ops) ← exec o x w;
         Some (put_threads (<[i := ops ++ k]> w'.(threads)) w')
       | _ => None
       end.

(** Goroutine [i] hands a value to goroutine [j] over an unbuffered channel. *)
Definition communicate (i j : nat) w : option world :=
  if w.(crashed) then None
  else match w.(threads) !! i, w.(threads) !! j with
       | Some (OSend c pk :: k), Some (x :: k') =>
         '(w', ops) ← receive x c pk w;
         Some (put_threads (<[i := k]> (<[j := ops ++ k']> w'.(threads))) w')
       | _, _ => None
       end.

(** A cron that runs fires a job in a goroutine of its own; one whose object has
    no trigger channel yet waits for ever, which is to do nothing. *)
Definition fire (j : job) w : list op :=
  match j with
  | JTask t => match w.(wk).(executes) !! t.(tk).(t_ID) with
               | Some maps => [OExecTask t maps]
               | None => []
               end
  | JBroker _ ready t | JChannel _ ready t =>
    if ready then [OSend ChTrigger (PkTrigger (Some t))] else []
  end.

Definition fires (j : job) w : Prop :=
  (running w.(taskCron) = true /\ j ∈ (Entries w.(taskCron)).*2) \/
  (running w.(brokerCron) = true /\ j ∈ (Entries w.(brokerCron)).*2) \/
  (running w.(channelCron) = true /\ j ∈ (Entries w.(channelCron)).*2).

Inductive step w : world -> Prop :=
| step_run i o w' : run_thread i o w = Some w' -> step w w'
| step_comm i j w' : i <> j -> communicate i j w = Some w' -> step w w'
| step_cron j : w.(crashed) = false -> fires j w -> step w (spawn (fire j w) w)
| step_destroy : w.(crashed) = false -> step w (spawn [ODestroy] w)
| step_recover o w' ops : w.(crashed) = false -> Recover o w = (w', ops) -> step w (spawn ops w').

(** [NewWorker], about to [Run]: the runner sets the status to pending. *)
Definition NewWorker (now : Z) : world :=
  mkWorld
    (mkWorker Pending now ∅ ∅ ∅ ∅ ∅ [] false ∅ ∅ false
       (list_to_map (imap (fun i _ => (i, ∅)) wf.(wf_Brokers))) ∅ false)
    ∅ ∅ (length wf.(wf_Brokers)) [] None ∅ [] [[OConnect]] false false ∅ ∅ [] [] cron_new cron_new cron_new false.

Definition reachable (now : Z) w : Prop := rtc step (NewWorker now) w.

End Worker.
