(* ===== verification/WorkerInv.v ===== *)
(** What the operations of a worker can add to its world: goroutines, queued
    callbacks and requests never run the loop of [Run] ([only_run_runs]) nor
    get hold of a result channel that was not passed to them, and the parts of
    messages stay distinct.  [grows] collects it, [exec_grows] is the lemma for
    every operation, [abandoned] what follows for a goroutine that waits. *)

From stdpp Require Import pretty.
From S2P Require Import Prelude GoStrings Names OrderedMap Template Compile Value Runtime Interp Scheduler WorkerData Worker.

#[local] Open Scope Z_scope.

Create HintDb wk discriminated.
#[export] Hint Constants Opaque : wk.

Section Inv.
Context {E : Engine} {JS : Json} {CR : Cron job}.
Context (wf : Wf).
(** A result channel that is watched. *)
Context (ch0 : option nat).
(** Whether nobody destroys the worker. *)
Context (quiet : bool).
Implicit Types (w : world) (p : Point) (r : CmdReplyTask) (c : CmdTask) (o : oracle).

(** The operations of [Run] itself. *)
Definition is_run (x : op) : bool :=
  match x with
  | OConnect | OSubscribe | OSubscribeSync | OInitFC | OStarted | OQueue | ORunLoop | OCheckDelivered => true
  | OPush cmd _ _ => bool_decide (cmd = TriggerStartTaskCmd)
  | _ => false
  end.

Definition ch_ok (ch : option nat) : Prop :=
  match ch0 with None => True | Some n => ch <> Some n end.

Definition cb_ok (cb : cbk) : Prop :=
  match cb with
  | CbSync _ _ _ _ _ ch _ => ch_ok ch
  | CbDestroy _ _ _ _ => quiet = false
  | _ => True
  end.

Definition has_endpoints (b : BrokerObj) : bool :=
  match b.(bo).(Flows).(Endpoints) with Some (_ :: _) => true | _ => false end.

(** The operation cannot use the watched channel, and when [quiet] it neither
    destroys nor deletes the worker. *)
Definition apart (x : op) : Prop :=
  match x with
  | ORespond n | OWaitResult n | OSend (ChResult n) _ => ch_ok (Some n)
  | OSendResult ch _ | OBroker _ _ ch _ _ _ | OExecute _ _ _ _ _ _ ch _ | OResume _ _ _ _ _ ch _
  | OHandle _ _ _ _ _ ch _ _ | OSync _ _ _ _ _ ch _ => ch_ok ch
  | OProcess _ b _ _ _ _ ch => has_endpoints b = true \/ ch_ok ch
  | OCallback cb _ _ => cb_ok cb
  | ODelete | ODestroy | ODestroySend _ _ _ _ | ODestroyed _ _ | ODrop _ => quiet = false
  | OSend ChEvent (PkEvent e) => quiet = true -> e.(ev_cmd) <> DeleteWorkerCmd
  | _ => True
  end.

Definition fine (x : op) : Prop := is_run x = false /\ apart x.

(** Parts of messages: the map is injective and its values were issued. *)
Record parts_ok w : Prop := {
  po_issued : forall k s, w.(wk).(flowMap) !! k = Some s ->
    exists id, s = part_name wf id /\ id <= w.(wk).(deliverCmd);
  po_inj : forall k1 k2 s, w.(wk).(flowMap) !! k1 = Some s -> w.(wk).(flowMap) !! k2 = Some s -> k1 = k2
}.

(** How often a command may still be sent again because of a failed delivery. *)
Definition budget c : Z :=
  match c.(c_Retry) with
  | Some _ => Z.max 0 (4 - c.(c_Attempt))
  | None => Z.max 1 (4 - c.(c_Attempt))
  end.

(** Objects are made under names that are not used yet. *)
Definition cmds_ok w : Prop := forall i c, w.(cmds) !! i = Some c -> (i < w.(next))%nat.

(** No command gets its attempts back. *)
Definition spends w w' : Prop :=
  forall i c, w.(cmds) !! i = Some c -> exists c', w'.(cmds) !! i = Some c' /\ budget c' <= budget c.

(** What only the deletion of the worker takes away: the channel of the events
    is open, the queue is there and every point is still a point. *)
Record kept w w' : Prop := {
  ke_open : w'.(eventClosed) = w.(eventClosed);
  ke_queue : w.(wk).(CBQueue) = true -> w'.(wk).(CBQueue) = true;
  ke_points : forall q, is_Some (w.(wk).(points) !! q) -> is_Some (w'.(wk).(points) !! q)
}.

Record grows w w' : Prop := {
  gr_threads : exists new, w'.(threads) = w.(threads) ++ new /\ Forall (Forall fine) new;
  gr_jobs : forall job, Some job ∈ w'.(jobs) -> Some job ∈ w.(jobs) \/ Forall fine job;
  gr_requests : forall id cb, w'.(wk).(requests) !! id = Some cb ->
    w.(wk).(requests) !! id = Some cb \/ cb_ok cb;
  gr_next : (w.(next) <= w'.(next))%nat;
  gr_ids : w.(wk).(deliverCmd) <= w'.(wk).(deliverCmd);
  gr_parts : parts_ok w -> parts_ok w';
  gr_open : quiet = true -> kept w w';
  gr_cmds : cmds_ok w -> cmds_ok w' /\ spends w w'
}.

Lemma spends_refl w : spends w w.
Proof. intros i c Hc. eauto with lia. Qed.

Lemma spends_trans w1 w2 w3 : spends w1 w2 -> spends w2 w3 -> spends w1 w3.
Proof.
  intros H1 H2 i c Hc. destruct (H1 i c Hc) as (c' & Hc' & ?). destruct (H2 i c' Hc') as (c'' & ? & ?).
  exists c''. split; [done|lia].
Qed.

Lemma cmds_kept w w' :
  w'.(cmds) = w.(cmds) -> (w.(next) <= w'.(next))%nat -> cmds_ok w -> cmds_ok w' /\ spends w w'.
Proof.
  intros Hc Hn Hok. split; [|intros i c Hi; rewrite Hc; eauto with lia].
  intros i c Hi. rewrite Hc in Hi. apply Hok in Hi. lia.
Qed.

Lemma grows_refl w : grows w w.
Proof.
  split; auto with lia; [exists []; by rewrite app_nil_r|by split|intros; split; [done|apply spends_refl]].
Qed.

Lemma grows_trans w1 w2 w3 : grows w1 w2 -> grows w2 w3 -> grows w1 w3.
Proof.
  intros [(n1 & Ht1 & Hn1) Hj1 Hr1 Hx1 Hi1 Hp1 Ho1 Hc1] [(n2 & Ht2 & Hn2) Hj2 Hr2 Hx2 Hi2 Hp2 Ho2 Hc2]. split.
  - exists (n1 ++ n2). rewrite Ht2, Ht1, app_assoc. split; [done|]. by apply Forall_app.
  - intros job [Hj|]%Hj2; [by apply Hj1|by right].
  - intros id cb [Hr|]%Hr2; [by apply Hr1|by right].
  - lia.
  - lia.
  - auto.
  - intros Hq. destruct (Ho1 Hq), (Ho2 Hq). split; [congruence|auto..].
  - intros Hok. destruct (Hc1 Hok) as [Hok2 Hs1]. destruct (Hc2 Hok2) as [Hok3 Hs2].
    split; [done|]. by eapply spends_trans.
Qed.

(** ** Primitives *)

Lemma grows_same w0 w w' :
  w'.(threads) = w.(threads) -> w'.(jobs) = w.(jobs) -> w'.(wk).(requests) = w.(wk).(requests) ->
  (w.(next) <= w'.(next))%nat -> w'.(wk).(deliverCmd) = w.(wk).(deliverCmd) ->
  w'.(wk).(flowMap) = w.(wk).(flowMap) -> (quiet = true -> kept w w') ->
  w'.(cmds) = w.(cmds) -> grows w0 w -> grows w0 w'.
Proof.
  intros Ht Hj Hr Hx Hi Hf Ho Hc Hg. eapply grows_trans; [exact Hg|]. split.
  - exists []. by rewrite Ht, app_nil_r.
  - rewrite Hj. by left.
  - rewrite Hr. by left.
  - done.
  - lia.
  - intros [H1 H2]. split; by rewrite Hf, ?Hi.
  - done.
  - by apply cmds_kept.
Qed.

Ltac same := intros; eapply grows_same; [..|eassumption]; try reflexivity; try (by split); cbn; try lia; auto.

Lemma grows_crash w0 w : grows w0 w -> grows w0 (crash w).
Proof. same. Qed.
Lemma grows_store s w0 w : grows w0 w -> grows w0 (store s w).
Proof. same. Qed.
Lemma grows_emit s w0 w : grows w0 w -> grows w0 (emit s w).
Proof. same. Qed.
Lemma grows_cmds w0 w w' :
  (exists v, w' = put_cmds v w \/ w' = put_next (S w.(next)) (put_cmds v w)) ->
  (cmds_ok w -> cmds_ok w' /\ spends w w') -> grows w0 w -> grows w0 w'.
Proof.
  intros [v Hw] Hc Hg. eapply grows_trans; [exact Hg|].
  destruct Hw; subst w'; split; cbn; auto; try lia; try (by intros [? ?]); try (by split); exists []; by rewrite app_nil_r.
Qed.

Lemma grows_on_cmd i f w0 w :
  (forall c, budget (f c) <= budget c) -> grows w0 w -> grows w0 (on_cmd i f w).
Proof.
  intros Hf. apply grows_cmds; [eexists; by left|]. intros Hok. split.
  - intros j c Hj. unfold on_cmd in Hj. cbn in *. apply lookup_alter_Some in Hj as [(_ & c0 & Hj & _)|[_ Hj]]; by eapply Hok.
  - intros j c Hj. unfold on_cmd. cbn. destruct (decide (i = j)) as [->|Hne].
    + rewrite lookup_alter_eq, Hj. cbn. eauto.
    + rewrite lookup_alter_ne by done. eauto with lia.
Qed.
Lemma grows_truns v w0 w : grows w0 w -> grows w0 (put_truns v w).
Proof. same. Qed.
Lemma grows_records v w0 w : grows w0 w -> grows w0 (put_records v w).
Proof. same. Qed.
Lemma grows_loopVars v w0 w : grows w0 w -> grows w0 (put_loopVars v w).
Proof. same. Qed.
Lemma grows_waits v w0 w : grows w0 w -> grows w0 (put_waits v w).
Proof. same. Qed.
Lemma grows_successes v w0 w : grows w0 w -> grows w0 (put_successes v w).
Proof. same. Qed.
Lemma grows_taskCron v w0 w : grows w0 w -> grows w0 (put_taskCron v w).
Proof. same. Qed.
Lemma grows_brokerCron v w0 w : grows w0 w -> grows w0 (put_brokerCron v w).
Proof. same. Qed.
Lemma grows_channelCron v w0 w : grows w0 w -> grows w0 (put_channelCron v w).
Proof. same. Qed.
Lemma grows_closeClosed v w0 w : grows w0 w -> grows w0 (put_closeClosed v w).
Proof. same. Qed.
Lemma grows_eventClosed v w0 w : quiet = false -> grows w0 w -> grows w0 (put_eventClosed v w).
Proof. intros Hq Hg. eapply grows_same; [..|exact Hg]; try done. congruence. Qed.
Lemma grows_lastErr v w0 w : grows w0 w -> grows w0 (put_lastErr v w).
Proof. same. Qed.
Lemma grows_new_cmd c w0 w : grows w0 w -> grows w0 (new_cmd c w).2.
Proof.
  apply grows_cmds; [eexists; by right|]. intros Hok. cbn. split.
  - intros j c' Hj. cbn in *. apply lookup_insert_Some in Hj as [[<- _]|[_ Hj%Hok]]; lia.
  - intros j c' Hj. cbn. rewrite lookup_insert_ne by (apply Hok in Hj; lia). eauto with lia.
Qed.
Lemma grows_fresh w0 w : grows w0 w -> grows w0 (fresh w).2.
Proof. same. Qed.

Lemma grows_on_wk f w0 w :
  (forall k, (f k).(requests) = k.(requests) /\ (f k).(deliverCmd) = k.(deliverCmd) /\ (f k).(flowMap) = k.(flowMap) /\
    (quiet = true -> (k.(CBQueue) = true -> (f k).(CBQueue) = true) /\
       forall q, is_Some (k.(points) !! q) -> is_Some ((f k).(points) !! q))) ->
  grows w0 w -> grows w0 (on_wk f w).
Proof.
  intros Hf Hg. destruct (Hf w.(wk)) as (H1 & H2 & H3 & H4). eapply grows_same; [..|exact Hg]; cbn; auto.
  intros Hq. by destruct (H4 Hq).
Qed.

Lemma insert_all_some {V} (l : list (string * V)) (m : gmap string V) q :
  is_Some (m !! q) \/ q ∈ l.*1 -> is_Some (fold_left (fun m kp => <[kp.1 := kp.2]> m) l m !! q).
Proof.
  revert m. induction l as [|[k v] l IH]; cbn; intros m Hq; [by destruct Hq as [|Hq%elem_of_nil]|]. apply IH.
  rewrite lookup_insert_is_Some'. destruct Hq as [|[->|]%elem_of_cons]; auto.
Qed.

Lemma grows_setPoints w0 w :
  grows w0 w -> grows w0 (on_wk (fun k => put_points (setPoints wf k.(points)) k) w).
Proof.
  apply grows_on_wk. intros k. do 3 (split; [done|]). intros _. split; [done|]. intros q Hq.
  apply (insert_all_some (point_list wf) k.(points)). by left.
Qed.

Lemma grows_alter_point f q w0 w :
  grows w0 w -> grows w0 (on_wk (fun k => put_points (alter f q k.(points)) k) w).
Proof.
  apply grows_on_wk. intros k. do 3 (split; [done|]). intros _. split; [done|]. intros q' Hq. cbn.
  destruct (decide (q = q')) as [->|Hn]; [rewrite lookup_alter_eq; by apply fmap_is_Some|by rewrite lookup_alter_ne].
Qed.

Lemma grows_spawn th w0 w : Forall fine th -> grows w0 w -> grows w0 (spawn th w).
Proof.
  intros Hth Hg. eapply grows_trans; [exact Hg|]. split; cbn; auto; try lia; try (by apply cmds_kept); try (by split).
  - exists [th]. split; [done|]. by apply Forall_singleton.
  - by intros [H1 H2].
Qed.

Lemma grows_push job w0 w : Forall fine job -> grows w0 w -> grows w0 (push job w).
Proof.
  intros Hjob Hg. unfold push. case_match; [|by apply grows_crash].
  eapply grows_trans; [exact Hg|]. split; cbn; auto; try lia; try (by apply cmds_kept); try (by split).
  - exists []. by rewrite app_nil_r.
  - intros job' [Hj|Hj]%elem_of_app; [by left|]. right. apply list_elem_of_singleton in Hj. congruence.
  - by intros [H1 H2].
Qed.

Lemma grows_addRequest id cb w0 w : cb_ok cb -> grows w0 w -> grows w0 (addRequest id cb w).
Proof.
  intros Hcb Hg. eapply grows_trans; [exact Hg|]. split; cbn; auto; try lia; try (by apply cmds_kept); try (by split).
  - exists []. by rewrite app_nil_r.
  - intros id' cb' [[<- <-]|[_ H]]%lookup_insert_Some; auto.
  - by intros [H1 H2].
Qed.

Lemma grows_removeRequest id w0 w : grows w0 w -> grows w0 (removeRequest id w).
Proof.
  intros Hg. eapply grows_trans; [exact Hg|]. split; cbn; auto; try lia; try (by apply cmds_kept); try (by split).
  - exists []. by rewrite app_nil_r.
  - intros id' cb' [_ H]%lookup_delete_Some. auto.
  - by intros [H1 H2].
Qed.

Lemma grows_nextCmdID w0 w : grows w0 w -> grows w0 (nextCmdID w).2.
Proof.
  intros Hg. eapply grows_trans; [exact Hg|]. split; cbn; auto; try lia; try (by apply cmds_kept); try (by split).
  - exists []. by rewrite app_nil_r.
  - intros [H1 H2]. split; cbn; [|done]. intros k s Hk. destruct (H1 k s Hk) as (id & -> & ?).
    exists id. split; [done|lia].
Qed.

Lemma part_name_inj id id' : part_name wf id = part_name wf id' -> id = id'.
Proof. unfold part_name. intros H. by simplify_eq. Qed.

Hint Resolve grows_refl grows_crash grows_store grows_emit grows_truns grows_records
  grows_loopVars grows_waits grows_successes grows_taskCron grows_brokerCron grows_channelCron
  grows_closeClosed grows_eventClosed grows_lastErr grows_new_cmd grows_fresh grows_removeRequest
  grows_nextCmdID : wk.
Hint Resolve grows_spawn grows_push grows_addRequest : wk.
Hint Extern 2 (grows _ (on_cmd _ _ _)) =>
  apply grows_on_cmd; [intros []; unfold budget; cbn; repeat case_match; lia|] : wk.
Hint Extern 1 (grows _ (on_wk _ _)) => first [apply grows_setPoints|apply grows_alter_point] : wk.
Hint Extern 2 (grows _ (on_wk _ _)) => apply grows_on_wk; [by intros []|] : wk.
Hint Extern 1 (Forall _ (_ :: _)) => apply Forall_cons; split : wk.
Hint Extern 1 (Forall _ []) => apply Forall_nil; exact I : wk.
Hint Extern 1 (Forall _ (_ ++ _)) => apply Forall_app; split : wk.
Hint Extern 1 (fine _) => split; [reflexivity|cbn; auto with wk] : wk.
Hint Extern 1 (_ <> _) => discriminate : wk.
Hint Extern 1 (cb_ok _) => progress cbn; auto with wk : wk.
Hint Extern 1 (apart _) => progress cbn; auto with wk : wk.

Lemma grows_fst {A} w0 w (a : A) : grows w0 w -> grows w0 (w, a).1.
Proof. done. Qed.
Lemma grows_snd {A} w0 w (a : A) : grows w0 w -> grows w0 (a, w).2.
Proof. done. Qed.
Hint Resolve grows_fst grows_snd : wk.

(** Splits tests and pairs of the goal, keeping what is known of the worlds. *)
Ltac grow_pair w0 t :=
  first
    [ let H := fresh "Hg" in assert (H : grows w0 t.2) by auto 10 with wk;
      destruct t as [? ?]; cbn [snd] in H
    | let H := fresh "Hg" in assert (H : grows w0 t.1) by auto 10 with wk;
      destruct t as [? ?]; cbn [fst] in H ].
Ltac grow_step :=
  match goal with
  | |- grows ?w0 ?g =>
    match g with
    | context [match ?t with (_, _) => _ end] => grow_pair w0 t
    | context [if ?b then _ else _] => destruct b eqn:?
    | context [match ?t with Some _ => _ | None => _ end] => destruct t eqn:?
    | context [match ?t with [] => _ | _ :: _ => _ end] => destruct t eqn:?
    end
  end.
Ltac grow := cbn zeta; repeat grow_step; auto 12 with wk.

Lemma grows_getPart s i t w0 w : grows w0 w -> grows w0 (getPart wf s i t w).2.
Proof.
  intros Hg. unfold getPart. case_bool_decide; [by apply grows_nextCmdID|].
  destruct (flowMap _ !! _) eqn:Hf; [done|]. cbn.
  eapply grows_trans; [exact Hg|]. split; cbn; auto; try lia; try (by apply cmds_kept); try (by split).
  - exists []. by rewrite app_nil_r.
  - intros [H1 H2].
    assert (Hnew : forall k, flowMap (wk w) !! k <> Some (part_name wf (deliverCmd (wk w) + 1))).
    { intros k Hk. destruct (H1 _ _ Hk) as (id & Hid & Hle). apply part_name_inj in Hid. lia. }
    split; cbn.
    + intros k s' [[<- <-]|[_ Hk]]%lookup_insert_Some; [by eexists|].
      destruct (H1 _ _ Hk) as (id & -> & ?). exists id. split; [done|lia].
    + intros k1 k2 s' [[<- <-]|[Hn1 Hk1]]%lookup_insert_Some [[<- Hs]|[Hn2 Hk2]]%lookup_insert_Some;
        simplify_eq; try done; [by apply Hnew in Hk2|by apply Hnew in Hk1|by eapply H2].
Qed.
Lemma grows_getGroup w0 w : grows w0 w -> grows w0 (getGroup wf w).2.
Proof. apply grows_nextCmdID. Qed.
Lemma grows_getBrokerGroup w0 w : grows w0 w -> grows w0 (getBrokerGroup wf w).2.
Proof. apply grows_nextCmdID. Qed.
Hint Resolve grows_getPart grows_getGroup grows_getBrokerGroup : wk.

Lemma grows_monitor o cmd data w0 w : grows w0 w -> grows w0 (monitor o cmd data w).
Proof. intros. unfold monitor. grow. Qed.
Lemma grows_update_task id d w0 w : grows w0 w -> grows w0 (update_task id d w).
Proof. intros. unfold update_task. grow. Qed.
Lemma grows_update_broker id d w0 w : grows w0 w -> grows w0 (update_broker id d w).
Proof. intros. unfold update_broker. grow. Qed.
Hint Resolve grows_monitor grows_update_task grows_update_broker : wk.

Lemma grows_logReply o f rv m a bg w0 w : grows w0 w -> grows w0 (logMessageFlowReply wf o f rv m a bg w).
Proof. intros. unfold logMessageFlowReply. grow. Qed.
Lemma grows_logRequest o f rv c a t bg w0 w : grows w0 w -> grows w0 (logMessageFlowRequest wf o f rv c a t bg w).
Proof. intros. unfold logMessageFlowRequest. grow. Qed.
Lemma grows_UpdateTrigger o t s w0 w : grows w0 w -> grows w0 (UpdateTrigger o t s w).
Proof. intros. unfold UpdateTrigger. grow. Qed.
Lemma grows_setWfStatus o s w0 w : grows w0 w -> grows w0 (setWfStatus o s w).
Proof. intros. unfold setWfStatus. grow. Qed.
Lemma grows_logWorkflow o s st de d w0 w : grows w0 w -> grows w0 (logWorkflow o s st de d w).2.
Proof. intros. unfold logWorkflow. grow. Qed.
Lemma grows_SetWfRecovered i a s w0 w : grows w0 w -> grows w0 (SetWfRecovered i a s w).
Proof. intros. unfold SetWfRecovered. grow. Qed.
Lemma grows_setBrokerQueue o k r w0 w : grows w0 w -> grows w0 (setBrokerQueue o k r w).
Proof. intros. unfold setBrokerQueue. grow. Qed.
Lemma grows_saveTaskRecord o r w0 w : grows w0 w -> grows w0 (saveTaskRecord o r w).
Proof. intros. unfold saveTaskRecord. grow. Qed.
Hint Resolve grows_logReply grows_logRequest grows_UpdateTrigger grows_setWfStatus grows_logWorkflow
  grows_SetWfRecovered grows_setBrokerQueue grows_saveTaskRecord : wk.

Lemma grows_deliver o i c w0 w : grows w0 w -> grows w0 (deliver o i c w).1.
Proof. intros. unfold deliver. grow. Qed.
Hint Resolve grows_deliver : wk.
Lemma grows_deliverAsync o rv i cb w0 w :
  cb_ok cb -> grows w0 w -> grows w0 (deliverAsync o rv i cb w).1.
Proof. intros. unfold deliverAsync. grow. Qed.
Hint Resolve grows_deliverAsync : wk.

(** A result of an operation: a world that grew and operations that are fine. *)
Definition made w0 (res : world * list op) : Prop := grows w0 res.1 /\ Forall fine res.2.

Lemma made_intro w0 w ops : grows w0 w -> Forall fine ops -> made w0 (w, ops).
Proof. by split. Qed.
Hint Resolve made_intro : wk.

Ltac made_step :=
  match goal with
  | |- made ?w0 ?g =>
    match g with
    | context [match ?t with (_, _) => _ end] =>
      first [ let H := fresh "Hg" in assert (H : made w0 t) by auto 10 with wk;
              destruct t as [? ?]; destruct H as [? ?]; cbn [fst snd] in *
            | grow_pair w0 t ]
    | context [if ?b then _ else _] => destruct b eqn:?
    | context [match ?t with Some _ => _ | None => _ end] => destruct t eqn:?
    | context [match ?t with [] => _ | _ :: _ => _ end] => destruct t eqn:?
    end
  end.
Ltac make := cbn zeta; repeat made_step; auto 12 with wk.

Lemma grows_number_cmd i w0 w : grows w0 w -> grows w0 (number_cmd i w).
Proof. intros. unfold number_cmd. grow. Qed.
Hint Resolve grows_number_cmd : wk.
Lemma grows_deliverTaskToClient o f rv i w0 w :
  grows w0 w -> grows w0 (deliverTaskToClient wf o f rv i w).1.
Proof. intros. unfold deliverTaskToClient. grow. Qed.
Lemma made_deliverInput o f rv i reply t bg w0 w :
  grows w0 w -> made w0 (deliverInputTaskCmd o f rv i reply t bg w).
Proof.
  intros. unfold deliverInputTaskCmd, wrapDeliverErr.
  assert (Forall fine (match reply with
    | Some r => if bool_decide (r_Cmd r = ReplyOutputTaskCmd) then [OSaveTask r] else []
    | None => []
    end)) as Hs by (destruct reply; [case_bool_decide|]; auto with wk).
  revert Hs. generalize (match reply with
    | Some r => if bool_decide (r_Cmd r = ReplyOutputTaskCmd) then [OSaveTask r] else []
    | None => []
    end). intros save Hs. make.
Qed.
Lemma made_deliverSync o f rv r i t ch bg w0 w :
  ch_ok ch -> grows w0 w -> made w0 (deliverRequestRunTaskSync o f rv r i t ch bg w).
Proof. intros. unfold deliverRequestRunTaskSync, wrapDeliverErr. make. Qed.
Hint Resolve grows_deliverTaskToClient made_deliverInput made_deliverSync : wk.

(** *** Retries and callbacks *)

Lemma grows_retry_again o e rt w0 w : grows w0 w -> grows w0 (retry_again o e rt w).
Proof. intros. unfold retry_again. grow. Qed.
Lemma grows_retry_first o s e w0 w : grows w0 w -> grows w0 (retry_first wf o s e w).
Proof.
  intros. unfold retry_first. cbn zeta. grow_step; [grow|].
  match goal with |- context [match GetWorkflowRecord ?d ?w' with _ => _ end] =>
    assert (Hw : grows w0 w') by grow; revert Hw; generalize w'; intros wx Hw end.
  grow.
Qed.
Lemma grows_handleRetry o s e w0 w : grows w0 w -> grows w0 (handleRetryDeliver wf o s e w).
Proof. intros. unfold handleRetryDeliver. case_match; auto using grows_retry_again, grows_retry_first. Qed.
Hint Resolve grows_handleRetry : wk.
Lemma grows_retryDeliver o e w0 w : grows w0 w -> grows w0 (retryDeliver wf o e w).
Proof. intros. unfold retryDeliver. grow. Qed.
Lemma grows_retry_row o mf w0 w : grows w0 w -> grows w0 (retry_row wf o mf w).
Proof. intros. unfold retry_row. grow. Qed.
Lemma grows_mark o i n w0 w : grows w0 w -> grows w0 (mark_recovered o i n w).
Proof. intros. unfold mark_recovered. grow. Qed.
Hint Resolve grows_retryDeliver grows_retry_row grows_mark : wk.

Lemma made_check f rv i r b w0 w :
  grows w0 w -> made w0 (checkCmdReply f rv i r b w).1.
Proof. intros. unfold checkCmdReply, wrapDeliverErr. cbn beta zeta.
  repeat case_bool_decide; try destruct b; cbn [fst]; apply made_intro; auto 10 with wk. Qed.
Hint Resolve made_check : wk.

Lemma made_callback o cb r err w0 w :
  cb_ok cb -> grows w0 w -> made w0 (callback wf o cb r err w).
Proof.
  intros Hcb Hg. unfold callback, wrapDeliverErr.
  destruct cb; cbn in Hcb; try (by make).
  destruct err; [make|]. pose proof (made_check from receiver msg r true w0 w Hg) as [Hw Hops].
  destruct (checkCmdReply _ _ _ _ _ _) as [[w1 ops] ok]. cbn in *.
  apply made_intro; [done|]. destruct ok; auto 10 with wk.
Qed.
Hint Resolve made_callback : wk.

(** *** Messages to brokers *)

Lemma grows_fold {A} (f : world -> A -> world) l w0 w :
  (forall a w, grows w0 w -> grows w0 (f w a)) -> grows w0 w -> grows w0 (fold_left f l w).
Proof. intros Hf. revert w. induction l as [|a l IH]; intros w Hw; [done|]. cbn. auto. Qed.

Lemma grows_deliver_one f reply i t ch tr bg path rev w0 w w' b :
  ch_ok ch -> grows w0 w -> deliver_one wf f reply i t ch tr bg path rev w = inr (w', b) -> grows w0 w'.
Proof.
  intros Hch Hg. unfold deliver_one. destruct (point rev w); [|done]. cbn zeta.
  destruct (match reply with Some _ => _ | None => _ end) as [c1 w1] eqn:H1.
  assert (Hw1 : grows w0 w1).
  { destruct reply; [|by simplify_eq]. destruct (getPart _ _ _ _ _) as [s w2] eqn:Hp. simplify_eq.
    pose proof (grows_getPart (r_Part c) (p_ID p) (p_Type p) w0 w Hg) as H. by rewrite Hp in H. }
  destruct (path_cmd _ _ _ _ _) as [c2|]; [|intros [= <- <-]; auto with wk].
  destruct (if bool_decide (Send path = SENDU) then _ else _) as [c3 w2] eqn:H2.
  assert (Hw2 : grows w0 w2).
  { pose proof (grows_nextCmdID w0 w1 Hw1) as Hn. destruct (nextCmdID w1) as [id w3]. cbn in Hn.
    case_bool_decide; simplify_eq; auto with wk. }
  pose proof (grows_new_cmd (if bool_decide (Send path = SENDSYNC) then put_c_Cmd RequestTaskRunSyncCmd c3 else c3)
    w0 w2 Hw2) as Hw4. destruct (new_cmd _ w2) as [obj w4]. cbn in Hw4.
  intros [= <- <-]. apply grows_fold; [|done].
  intros rv w3 Hw3. apply grows_spawn; [|done].
  destruct (_ && _), reply, t; auto with wk.
Qed.

Lemma grows_deliver_paths f reply i t ch tr bg paths b w0 w :
  ch_ok ch -> grows w0 w -> grows w0 (deliver_paths wf f reply i t ch tr bg paths b w).1.
Proof.
  intros Hch. revert b w. induction paths as [|[path rev] paths IH]; intros b w Hg; [done|]. cbn.
  destruct (deliver_one _ _ _ _ _ _ _ _ _ _ _) as [|[w' sync]] eqn:H1; [done|].
  apply IH. by eapply grows_deliver_one.
Qed.
Hint Resolve grows_deliver_paths : wk.

Lemma made_handleDeliver f ds reply i t ch tr bg w0 w :
  ch_ok ch -> grows w0 w -> made w0 (handleDeliver wf f ds reply i t ch tr bg w).
Proof.
  intros Hch Hg. unfold handleDeliver.
  pose proof (grows_deliver_paths f reply i t ch tr bg (split_paths ds) false w0 w Hch Hg) as H.
  destruct (deliver_paths _ _ _ _ _ _ _ _ _ _ _) as [w1 [b|]]; cbn in H; [|auto with wk].
  apply made_intro; [|destruct b; auto with wk].
  destruct ds, reply; auto with wk. grow.
Qed.
Hint Resolve made_handleDeliver : wk.

Lemma grows_endpoint f i r bg w0 w e : grows w0 w -> grows w0 (deliver_endpoint wf f i r bg w e).
Proof.
  intros Hg. unfold deliver_endpoint. destruct (point e w); [|auto with wk].
  case_bool_decide; [|auto 10 with wk]. generalize (Some p). revert w Hg.
  induction (wf_Tasks wf) as [|kt l IH]; intros w Hg rv; [done|]. cbn.
  destruct (endpoint_task f i r bg (rv, w) kt) as [rv' w'] eqn:Ht. apply IH.
  unfold endpoint_task in Ht. cbn in Ht. destruct rv as [p'|]; [|simplify_eq; auto with wk].
  case_bool_decide; [|by simplify_eq]. revert Ht. generalize (Some p'). revert w Hg.
  induction (t_Clients (tk kt.2)) as [|cl cls IH2]; intros w Hg rv Ht; cbn in Ht; [by simplify_eq|].
  eapply IH2; [|exact Ht]. cbn. auto 10 with wk.
Qed.

Lemma made_processBroker o dv b f r i input ch w0 w :
  has_endpoints b = true \/ ch_ok ch -> grows w0 w -> made w0 (processBroker wf o dv b f r i input ch w).
Proof.
  intros Hch Hg. unfold processBroker, has_endpoints in *. cbn zeta.
  pose proof (grows_getBrokerGroup w0 w Hg) as H. destruct (getBrokerGroup wf w) as [bg w1]. cbn in H.
  match goal with |- context [push ?j ?w'] =>
    assert (Hw : grows w0 (push j w')) by (auto 10 with wk); revert Hw; generalize (push j w'); intros w2 Hw end.
  destruct (Endpoints _) as [[|e es]|].
  2: { apply made_intro; [|auto with wk]. apply grows_fold; [|done]. intros. by apply grows_endpoint. }
  all: destruct Hch as [|Hch]; [done|].
  all: destruct (bo_Queue b); cbn [negb]; [|auto 10 with wk].
  all: match goal with |- context [if ?c then setBrokerQueue ?o ?k ?r ?w' else ?w''] =>
    assert (Hq : grows w0 (if c then setBrokerQueue o k r w' else w'')) by (destruct c; auto 10 with wk);
    revert Hq; generalize (if c then setBrokerQueue o k r w' else w''); intros w3 Hq end.
  all: destruct (o_kv o); [|auto with wk].
  all: destruct (load_queue _ _) as [vars [|]]; auto 10 with wk.
Qed.

Lemma made_execute o dv b f r i input ch bg w0 w res :
  ch_ok ch -> grows w0 w -> execute_broker wf o dv b f r i input ch bg w = Some res -> made w0 res.
Proof.
  intros Hch Hg. unfold execute_broker. destruct (b_Template _); [|intros [= <-]; auto with wk].
  pose proof (grows_fresh w0 w Hg) as Hf. destruct (fresh w) as [n1 w1]. cbn in Hf.
  destruct (engine_execute _ _) as [[[rt out]|]|e|pn]; intros H; simplify_eq; auto 10 with wk.
Qed.

Lemma made_resume o v f r i t ch bg w0 w res :
  ch_ok ch -> grows w0 w -> resume o v f r i t ch bg w = Some res -> made w0 res.
Proof.
  intros Hch Hg. unfold resume. destruct (_ !! _); [|intros [= <-]; auto with wk].
  destruct (engine_execute _ _) as [[[rt out]|]|er|pn]; intros H; simplify_eq; auto with wk.
  apply made_intro; [auto with wk|]. apply Forall_app. split.
  - destruct (eo_err out); auto with wk.
  - destruct (eo_flows out); auto with wk.
Qed.

(** *** The subscriptions *)

Lemma made_computeMsg r i ch w0 w : ch_ok ch -> grows w0 w -> made w0 (computeMsg wf r i ch w).
Proof. intros. unfold computeMsg. make. Qed.
Lemma made_broker_round r i ch m d rest w0 w :
  ch_ok ch -> grows w0 w -> made w0 (broker_round wf r i ch m d rest w).
Proof. intros. unfold broker_round. destruct rest as [|[j b] rest]; make. Qed.
Lemma grows_handleLog o l w0 w : grows w0 w -> grows w0 (handleLogFromDaem wf o l w).
Proof. intros. unfold handleLogFromDaem. grow. Qed.
Hint Resolve made_computeMsg made_broker_round grows_handleLog made_processBroker : wk.

Definition reqs_ok w : Prop := forall id cb, w.(wk).(requests) !! id = Some cb -> cb_ok cb.

Lemma ch_ok_None : ch_ok None.
Proof. unfold ch_ok. by case_match. Qed.
Hint Resolve ch_ok_None : wk.

(** Replaces the first pair of a goal about [made]. *)
Ltac grow_made :=
  match goal with
  | |- made ?w0 ?g => match g with context [match ?t with (_, _) => _ end] => grow_pair w0 t end
  end.

Lemma made_reciveMessage o w : reqs_ok w -> made w (reciveMessage wf o w).
Proof.
  intros Hr. unfold reciveMessage. destruct (reply_parse _) as [r err].
  destruct (dropped _ _ _); [auto with wk|]. case_bool_decide; [destruct (log_parse _); auto 10 with wk|].
  case_bool_decide.
  - cbn zeta. grow_made. destruct (bool_decide _); [by apply made_computeMsg; [apply ch_ok_None|]|].
    destruct (bool_decide _); [|by apply made_intro].
    apply made_computeMsg; [apply ch_ok_None|]. auto with wk.
  - apply made_intro; [auto with wk|]. destruct (_ !! _) eqn:H1; [apply Hr in H1|]; auto 10 with wk.
Qed.

(** The watched channel is not made between the two worlds. *)
Definition avoids w w' : Prop :=
  match ch0 with None => True | Some n => (n < w.(next))%nat \/ (w'.(next) <= n)%nat end.

Lemma avoids_fresh w w' n : avoids w w' -> (w.(next) <= n < w'.(next))%nat -> ch_ok (Some n).
Proof. unfold avoids, ch_ok. destruct ch0; [|done]. intros ? ? [= ->]. lia. Qed.

Lemma computeMsg_next r i ch w : (computeMsg wf r i ch w).1.(next) = w.(next).
Proof.
  unfold computeMsg, push. destruct (bool_decide _); [done|]. cbn zeta.
  destruct (point _ _); [|done]. destruct (bool_decide _); [done|]. cbn. by destruct (CBQueue _).
Qed.

Lemma made_reciveMessageSync o w :
  avoids w (reciveMessageSync wf o w).1 -> made w (reciveMessageSync wf o w).
Proof.
  unfold reciveMessageSync. destruct (reply_parse _) as [r err].
  destruct (dropped_sync _ _ _); [auto with wk|]. cbn.
  match goal with |- context [computeMsg wf ?r ?i ?ch ?w'] =>
    pose proof (computeMsg_next r i ch w') as Hn; pose proof (made_computeMsg r i ch w w') as Hm;
    destruct (computeMsg wf r i ch w') as [w1 ops] end.
  cbn in *. intros Ho.
  assert (Hch : ch_ok (Some (S (next w)))) by (eapply avoids_fresh; [exact Ho|lia]).
  destruct Hm as [Hm1 Hm2]; [done| |].
  - apply (grows_fresh w (new_cmd _ (nextCmdID w).2).2). auto with wk.
  - cbn in *. apply made_intro; auto with wk.
Qed.

Lemma fine_syncData o d : Forall fine (syncData o d).
Proof. unfold syncData. case_match; [|done]. apply Forall_fmap, Forall_true. intros. by split. Qed.

(** *** Triggers *)

Lemma grows_sched_task t w0 w : grows w0 w -> grows w0 (sched_task t w).
Proof. intros. unfold sched_task. auto with wk. Qed.
Lemma made_sched_broker ib t w0 w : grows w0 w -> made w0 (sched_broker ib t w).
Proof.
  intros. unfold sched_broker. destruct (AddBroker _ _ _) as [c [| |]]; cbn zeta; [grow_made|..]; auto 10 with wk.
Qed.
Lemma made_sched_channel n t w0 w : grows w0 w -> made w0 (sched_channel n t w).
Proof. intros. unfold sched_channel. destruct (AddChannel _ _ _) as [c [| |]]; auto 10 with wk. Qed.
Hint Resolve grows_sched_task made_sched_broker made_sched_channel : wk.

Lemma made_handleTrigger o t w : made w (handleTrigger wf o t w).
Proof.
  unfold handleTrigger. cbn zeta. destruct (negb _).
  - do 2 grow_made. destruct (point _ _); auto 10 with wk.
  - case_bool_decide; [|case_bool_decide; [|case_bool_decide; [|auto with wk]]].
    all: case_bool_decide; [auto with wk|].
    + destruct (find_task _ _); auto 10 with wk.
    + destruct (find_broker _ _) as [b|]; [|auto with wk].
      pose proof (made_sched_broker b t w w (grows_refl w)) as [H3 H4].
      destruct (sched_broker b t w). auto 10 with wk.
    + destruct (channels_with _ _) as [|n ns]; [auto with wk|].
      pose proof (made_sched_channel n t w w (grows_refl w)) as [H4 H5].
      destruct (sched_channel n t w). auto 10 with wk.
Qed.

Lemma fine_triggerSchedule t : Forall fine (handleTriggerSchedule wf t).
Proof.
  unfold handleTriggerSchedule. repeat case_bool_decide; try (case_match; auto with wk); auto with wk.
  - case_match. auto 10 with wk.
  - induction (channels_with _ _); cbn; auto 10 with wk.
Qed.

Lemma made_RunBroker dv b input t w :
  avoids w (RunBroker wf dv b input t w).1 -> made w (RunBroker wf dv b input t w).
Proof.
  unfold RunBroker. cbn zeta.
  pose proof (grows_getGroup w w (grows_refl w)) as H1. destruct (getGroup wf w) as [g w1]. cbn in H1.
  pose proof (grows_getPart "" 0 0 w w1 H1) as H2. destruct (getPart wf "" 0 0 w1) as [s w2]. cbn in H2.
  match goal with |- context [new_cmd ?c w2] => pose proof (grows_new_cmd c w w2 H2) as H3;
    destruct (new_cmd c w2) as [i w3] end. cbn in H3.
  pose proof (grows_fresh w w3 H3) as H4. unfold fresh in *. cbn in H4.
  destruct (point _ _); [|auto with wk]. intros Ho.
  assert (Hch : ch_ok (Some (next w3))).
  { eapply avoids_fresh; [exact Ho|]. cbn. destruct H3. lia. }
  apply made_intro; auto 10 with wk.
Qed.

Lemma grows_RunChannel n input t w0 w : grows w0 w -> grows w0 (RunChannel wf n input t w).
Proof.
  intros. unfold RunChannel. cbn zeta. destruct (point _ _); [|auto with wk]. do 3 grow_step. auto 10 with wk.
Qed.

(** *** Setting up, recovery, destruction *)

(** [Run] queues its own next steps; every other operation makes only fine ones. *)
Definition made_by (x : op) w0 (res : world * list op) : Prop :=
  grows w0 res.1 /\ Forall apart res.2 /\ (is_run x = false -> Forall fine res.2).

Lemma made_made_by x w0 res : made w0 res -> made_by x w0 res.
Proof.
  intros [H1 H2]. split_and!; [done| |done]. eapply Forall_impl; [exact H2|]. by intros y [].
Qed.

(** What the loop over the tasks queues: a start is an operation of [Run]. *)
Definition of_push (cmd : Z) (y : op) : Prop :=
  apart y /\ (is_run y = false \/ exists cur rest, y = OPush cmd cur rest).

Lemma made_push cmd cur rest w0 w ops :
  grows w0 w -> Forall (of_push cmd) ops -> made_by (OPush cmd cur rest) w0 (w, ops).
Proof.
  intros Hg Ho. split_and!; [done|..].
  - eapply Forall_impl; [exact Ho|]. by intros y [].
  - intros Hr. eapply Forall_impl; [exact Ho|]. by intros y [Ha [Hy|(c & r & ->)]].
Qed.

Lemma of_push_next cmd cur rest : of_push cmd (OPush cmd cur rest).
Proof. split; [done|]. right. by eexists _, _. Qed.
Hint Resolve made_push of_push_next : wk.
Hint Extern 1 (of_push _ (OSend _ _)) => split; [cbn; auto with wk|by left] : wk.

Lemma made_push_pubsub cmd cur t rest w :
  made_by (OPush cmd cur (t :: rest)) w (push_pubsub cmd t rest w).
Proof. unfold push_pubsub. cbn zeta. destruct (payload_parse _); [case_bool_decide|]; auto 12 with wk. Qed.
Lemma grows_task_client o cmd t cl w0 w : grows w0 w -> grows w0 (deliver_task_client wf o cmd t cl w).1.
Proof. intros. unfold deliver_task_client. grow. Qed.
Hint Resolve grows_task_client : wk.
Lemma made_push_round o cmd cur rest w :
  made_by (OPush cmd cur rest) w (push_round wf o cmd cur rest w).
Proof.
  unfold push_round. destruct cur as [[t [|cl cls]]|]; [auto with wk| |destruct rest as [|t rest]; [auto with wk|]].
  - pose proof (grows_task_client o cmd t cl w w (grows_refl w)) as H.
    destruct (deliver_task_client wf o cmd t cl w) as [w1 [|]]; auto with wk.
  - case_bool_decide; [apply made_push_pubsub|]. case_bool_decide; auto with wk.
Qed.
Lemma grows_broker_client o cmd b cl w0 w : grows w0 w -> grows w0 (broker_client wf o cmd b cl w).1.
Proof. intros. unfold broker_client. grow. Qed.
Hint Resolve grows_broker_client : wk.
Lemma made_brokers_round o cmd cur rest w0 w : grows w0 w -> made w0 (brokers_round wf o cmd cur rest w).
Proof.
  intros. unfold brokers_round. destruct cur as [[b [|cl cls]]|]; [..|destruct rest]; make.
Qed.

Lemma grows_execute_task t outputs w : grows w (execute_task wf t outputs w).
Proof.
  unfold execute_task. cbn zeta. destruct (_ ≫= _); [|auto with wk]. destruct (point _ _); [|auto with wk].
  do 3 grow_step. destruct (point _ _); [|auto with wk].
  match goal with |- grows _ (handleDeliver ?a ?b ?c ?d ?e ?f ?g ?h ?i ?j).1 =>
    apply (made_handleDeliver b c d e f g h i w j) end; auto with wk.
Qed.

Lemma made_check_delivered o w : made_by OCheckDelivered w (check_delivered wf o w).
Proof.
  unfold check_delivered, pushAllCmdTask. split_and!; [|destruct (allDelivered _); by repeat constructor|done].
  destruct (allDelivered _); cbn [fst]; auto 10 with wk.
Qed.

Lemma made_recover_batch o call w : made w (recover_batch o call w).
Proof.
  unfold recover_batch. destruct (negb _); [auto with wk|]. destruct (GetWorkflowRecordsRecovery w).
  - auto 10 with wk.
  - cbn zeta. grow_made. auto 10 with wk.
Qed.
Lemma made_recover_rows o call batch rows w : made w (recover_rows o call batch rows w).
Proof. unfold recover_rows. destruct rows; make. Qed.
Lemma made_recover_check o call w : made w (recover_check o call w).
Proof. unfold recover_check. make. Qed.
Lemma grows_set_recovered o batch call w : grows w (set_recovered o batch call w).
Proof. unfold set_recovered. grow. Qed.

Lemma made_Destroy o w res : quiet = false -> Destroy wf o w = Some res -> made w res.
Proof.
  intros Hq. unfold Destroy. cbn zeta.
  match goal with |- context [setWfStatus ?o ?s ?w'] =>
    assert (Hw : grows w (setWfStatus o s w')) by auto 10 with wk;
    revert Hw; generalize (setWfStatus o s w'); intros w1 Hw end.
  case_bool_decide; [|done].
  match goal with |- context [fresh ?w'] =>
    assert (Hf : grows w (fresh w').2) by auto 10 with wk;
    destruct (fresh w') as [call w2] end. cbn [snd] in Hf.
  intros [= <-]. apply made_intro; [|auto with wk]. apply grows_fold; [|auto with wk].
  intros q w3 Hw3.
  pose proof (grows_new_cmd (put_c_Cmd RequestDestroyWf (put_c_WorkflowID (wf_ID wf) zero_cmd)) w w3 Hw3) as Hn.
  cbn in Hn. auto 10 with wk.
Qed.
Lemma grows_destroy_send o f q cmd call w : quiet = false -> grows w (destroy_send o f q cmd call w).
Proof. intros Hq. unfold destroy_send. grow. Qed.
Lemma made_client_destroyed o q call w : quiet = false -> made w (client_destroyed o q call w).
Proof. intros Hq. unfold client_destroyed. make. Qed.
Lemma grows_drop o call w : quiet = false -> grows w (drop_workflow o call w).
Proof. intros Hq. unfold drop_workflow. grow. Qed.
Lemma made_Recover o w : made w (Recover o w).
Proof. unfold Recover. cbn zeta. grow_made. auto 10 with wk. Qed.

Lemma grows_subscribe_clients oks subs w0 w : grows w0 w -> grows w0 (subscribe_clients oks subs w).1.
Proof.
  revert oks w. induction subs as [|[d cid] subs IH]; intros oks w Hg; [done|]. cbn.
  destruct oks as [|[|] oks]; [..|done]; apply IH; auto with wk.
Qed.
Lemma grows_subscribe o w : grows w (subscribe wf o w).1.
Proof.
  unfold subscribe. cbn zeta.
  match goal with |- context [if ?b then spawn [ONatsTrigger] ?w' else ?w''] =>
    assert (Hw : grows w (if b then spawn [ONatsTrigger] w' else w''));
    [|revert Hw; generalize (if b then spawn [ONatsTrigger] w' else w''); intros w1 Hw] end.
  - destruct (hd _ _), (hd _ _); auto with wk.
  - destruct (client_subs wf); [done|]. by apply grows_subscribe_clients.
Qed.

(** *** Every operation *)

Lemma grows_jobs rest w :
  (forall job, Some job ∈ rest -> Some job ∈ w.(jobs)) -> grows w (put_jobs rest w).
Proof.
  intros Hj. split; cbn; auto; try lia; try (by apply cmds_kept); try (by split).
  - exists []. by rewrite app_nil_r.
  - by intros [H1 H2].
Qed.

Definition jobs_ok w : Prop := forall job, Some job ∈ w.(jobs) -> Forall fine job.

Hint Resolve made_push_round made_brokers_round made_check_delivered made_recover_batch made_recover_rows
  made_recover_check made_client_destroyed grows_RunChannel grows_execute_task
  grows_set_recovered grows_destroy_send grows_drop made_reciveMessage made_handleTrigger
  fine_syncData : wk.

Lemma made_loop x w ops w1 : made w (w1, ops) -> fine x -> made w (w1, ops ++ [x]).
Proof. intros [H1 H2] Hx. apply made_intro; auto with wk. Qed.

Lemma made_expire id err w : reqs_ok w -> made w (expire id err w).
Proof.
  intros Hr. unfold expire. apply made_intro; [auto with wk|].
  destruct (_ !! _) eqn:H; [apply Hr in H|]; auto 10 with wk.
Qed.

Lemma made_with_point rv w f :
  (forall p, made w (f p)) -> made w (with_point rv w f).
Proof. intros Hf. unfold with_point. destruct rv; auto with wk. Qed.

Lemma made_delete w : quiet = false ->
  made w (let w := if w.(wk).(CBQueue) then on_wk (put_CBQueue false) (put_jobs (w.(jobs) ++ [None]) w) else crash w in
    (if w.(closeClosed) then crash w else put_closeClosed true w, [])).
Proof.
  intros Hq. cbn zeta. apply made_intro; [|auto with wk].
  assert (H : grows w (if w.(wk).(CBQueue) then on_wk (put_CBQueue false) (put_jobs (w.(jobs) ++ [None]) w) else crash w)).
  { destruct (CBQueue _); [|auto with wk]. apply grows_on_wk; [intros []; split_and!; [done..|congruence]|]. apply grows_jobs.
    intros job [Hj|Hj]%elem_of_app; [done|]. by apply list_elem_of_singleton in Hj. }
  revert H. generalize (if CBQueue (wk w) then on_wk (put_CBQueue false) (put_jobs (jobs w ++ [None]) w) else crash w).
  intros w1 H. destruct (closeClosed w1); auto with wk.
Qed.

(** The steps of [Run] before its loop. *)
Lemma exec_run_grows o x w res :
  is_run x = true -> exec wf o x w = Some res -> made_by x w res.
Proof.
  intros Hx He.
  assert (Hops : forall ops : list op, Forall apart ops -> forall w1, grows w w1 -> made_by x w (w1, ops)).
  { intros. split_and!; [done..|]. intros. congruence. }
  destruct x; try discriminate Hx; cbn [exec] in He.
  - injection He as <-. destruct (o_conn o); apply Hops; auto 10 with wk.
  - pose proof (grows_subscribe o w) as H. destruct (subscribe wf o w) as [w1 ok]. cbn in H.
    injection He as <-. destruct ok; apply Hops; auto 10 with wk.
  - injection He as <-. destruct (o_conn o); apply Hops; auto 10 with wk.
  - injection He as <-. destruct (o_conn o); apply Hops; auto 10 with wk.
  - injection He as <-. apply Hops; auto with wk. unfold run_ops, pushAllCmdTask, deliverBrokers. auto 20 with wk.
  - injection He as <-. apply Hops; auto 20 with wk.
  - destruct (eventClosed w); [|done]. injection He as <-. apply Hops; auto with wk.
  - injection He as <-. apply made_check_delivered.
  - injection He as <-. apply made_push_round.
Qed.

(** The operations that only run when something happened. *)
Lemma exec_waiting_grows o x w res :
  avoids w res.1 -> reqs_ok w -> jobs_ok w -> apart x -> is_run x = false ->
  match x with
  | OWaitClose | OSend _ _ | OTimer _ | ONats | ONatsTrigger | ONatsSync | ODispatch
  | OExecute _ _ _ _ _ _ _ _ | OResume _ _ _ _ _ _ _ | ODestroy | OWait _ => True
  | _ => False
  end ->
  exec wf o x w = Some res -> made w res.
Proof.
  intros Ho Hr Hj Hx Hrun Hw He. destruct x; try contradiction; cbn [exec] in He.
  - destruct (closeClosed w); [|done]. injection He as <-. auto 10 with wk.
  - destruct c; try discriminate. destruct (eventClosed w); [|done]. injection He as <-. auto with wk.
  - destruct (o_timeout o); [injection He as <-; by apply made_expire|].
    destruct (closeClosed w); [|done]. injection He as <-. by apply made_expire.
  - pose proof (made_reciveMessage o w Hr) as H. destruct (reciveMessage wf o w). injection He as <-.
    apply made_loop; auto with wk.
  - pose proof (made_handleTrigger o (trigger_parse (o_data o)).1 w) as H.
    destruct (handleTrigger _ _ _ _). injection He as <-. apply made_loop; auto with wk.
  - pose proof (made_reciveMessageSync o w) as H. destruct (reciveMessageSync wf o w). injection He as <-.
    apply made_loop; auto with wk.
  - destruct (jobs w) as [|[job|] rest] eqn:Hq; [done|..]; injection He as <-.
    + apply made_loop; [|auto with wk]. apply made_intro; [|apply Hj; rewrite Hq; left].
      apply grows_jobs. rewrite Hq. by right.
    + apply made_intro; [|auto with wk]. apply grows_jobs. rewrite Hq. by right.
  - eapply made_execute; [exact Hx|apply grows_refl|exact He].
  - eapply made_resume; [exact Hx|apply grows_refl|exact He].
  - by eapply made_Destroy.
  - case_bool_decide; [|done]. injection He as <-. auto with wk.
Qed.

Lemma exec_grows o x w res :
  avoids w res.1 -> reqs_ok w -> jobs_ok w -> apart x ->
  exec wf o x w = Some res -> made_by x w res.
Proof.
  intros Ho Hr Hj Hx He. destruct (is_run x) eqn:Hrun; [by eapply exec_run_grows|]. apply made_made_by.
  destruct x; try discriminate Hrun; try (by eapply exec_waiting_grows); cbn [exec] in He; cbn [apart] in Hx;
    try discriminate He; injection He as <-.
  all: try (by auto 10 with wk).
  - by apply made_delete.
  - destruct (made_push_round o cmd cur rest w) as (H1 & _ & H2). split; [done|by apply H2].
  - destruct ch; auto 10 with wk.
  - apply made_with_point. intros f. apply made_with_point. auto with wk.
  - apply made_with_point. auto with wk.
  - apply made_with_point. auto with wk.
  - by apply made_RunBroker.
  - case_match; auto with wk.
Qed.

(** ** Steps *)

(** What a goroutine does with a value it receives. *)
Lemma receive_grows x (c : chan) pk w res :
  apart x -> apart (OSend c pk) -> receive wf x c pk w = Some res -> made_by x w res.
Proof.
  intros Hx Hs He. unfold receive in He.
  destruct x; try discriminate He; destruct c; try discriminate He; destruct pk; try discriminate He.
  - injection He as <-. split_and!; [apply grows_refl| |done]. cbn [snd]. unfold handle_event.
    case_bool_decide; [|repeat case_bool_decide; auto 10 with wk].
    apply Forall_singleton. cbn in *. destruct quiet; [by destruct Hs|done].
  - case_bool_decide; [|done]. injection He as <-. apply made_made_by. auto with wk.
  - case_bool_decide; [|done]. injection He as <-. apply made_made_by. auto with wk.
  - injection He as <-. apply made_made_by. auto 10 with wk.
  - injection He as <-. apply made_made_by. apply made_intro; [auto with wk|].
    apply Forall_app. split; [|auto with wk]. destruct t; [apply fine_triggerSchedule|auto with wk].
Qed.

(** Every goroutine but [s] satisfies [P]; queued callbacks and requests are
    fine. *)
Record guarded (P : op -> Prop) (s : option nat) w : Prop := {
  gd_threads : forall i th, w.(threads) !! i = Some th -> s <> Some i -> Forall P th;
  gd_jobs : jobs_ok w;
  gd_requests : reqs_ok w
}.

Lemma guarded_grows P s w w' :
  (forall x, fine x -> P x) -> guarded P s w -> grows w w' -> guarded P s w'.
Proof.
  intros HP [Ht Hj Hr] [(new & Hth & Hnew) Hgj Hgr _ _ _ _ _]. split.
  - intros i th Hi Hne. rewrite Hth in Hi. apply lookup_app_Some in Hi as [Hi|[_ Hi]]; [by eapply Ht|].
    apply list_elem_of_lookup_2, (proj1 (Forall_forall _ _) Hnew) in Hi.
    eapply Forall_impl; [exact Hi|exact HP].
  - intros job [H|H]%Hgj; [by apply Hj|done].
  - intros id cb [H|H]%Hgr; [by eapply Hr|done].
Qed.

Lemma guarded_put P s w i th :
  guarded P s w -> (s <> Some i -> Forall P th) -> guarded P s (put_threads (<[i := th]> w.(threads)) w).
Proof.
  intros [Ht Hj Hr] Hth. split; [|done..]. cbn. intros j th' Hl Hne.
  destruct (decide (i = j)) as [->|Hij].
  - apply list_lookup_insert_Some in Hl as [(_ & -> & _)|[? _]]; [auto|done].
  - rewrite list_lookup_insert_ne in Hl by done. by eapply Ht.
Qed.

Lemma guarded_tail P s w i x k :
  guarded P s w -> w.(threads) !! i = Some (x :: k) -> s <> Some i -> P x /\ Forall P k.
Proof. intros Hg Hi Hne. by apply Forall_cons, (gd_threads _ _ _ Hg i). Qed.

(** The step is a call of [Destroy]. *)
Definition calls_destroy w w' : Prop := w'.(threads) = w.(threads) ++ [[ODestroy]].

Lemma fine_fire j w : Forall fine (fire j w).
Proof. unfold fire. destruct j as [t|id [|] t|id [|] t]; auto with wk. case_match; auto with wk. Qed.

Section Guard.
Context (P : op -> Prop) (s : option nat).
Hypothesis P_fine : forall x, fine x -> P x.
Hypothesis P_apart : forall x, P x -> apart x.
(** What operations that satisfy [P] make satisfies it. *)
Hypothesis P_made : forall x w0 w ops, P x -> made_by x w0 (w, ops) -> Forall P ops.

Lemma run_guarded i o w w' x k :
  guarded P s w -> (s = Some i -> apart x) -> avoids w w' ->
  w.(threads) !! i = Some (x :: k) -> run_thread wf i o w = Some w' -> guarded P s w'.
Proof.
  intros Hg Hxs Ho Hi Hrun. unfold run_thread in Hrun. destruct (crashed w); [done|]. rewrite Hi in Hrun.
  destruct (exec wf o x w) as [[w1 ops]|] eqn:He; [|done]. cbn in Hrun. injection Hrun as <-.
  assert (Hx : apart x).
  { destruct (decide (s = Some i)); [auto|]. apply P_apart. by eapply guarded_tail. }
  assert (Hm : made_by x w (w1, ops)) by (eapply exec_grows; [exact Ho|apply Hg..|exact Hx|exact He]).
  pose proof (proj1 Hm) as Hgr. cbn in Hgr.
  apply guarded_put; [by eapply guarded_grows|].
  intros Hne. destruct (guarded_tail _ _ _ _ _ _ Hg Hi Hne) as [HPx HPk].
  apply Forall_app. split; [|done]. by eapply P_made.
Qed.

Lemma communicate_guarded i j w w' (c : chan) pk k x k' :
  guarded P s w -> (s = Some j -> apart x) -> (s = Some i -> apart (OSend c pk)) ->
  w.(threads) !! i = Some (OSend c pk :: k) -> w.(threads) !! j = Some (x :: k') ->
  communicate wf i j w = Some w' -> guarded P s w'.
Proof.
  intros Hg Hxs Hss Hi Hj Hc. unfold communicate in Hc. destruct (crashed w); [done|]. rewrite Hi, Hj in Hc.
  destruct (receive wf x c pk w) as [[w1 ops]|] eqn:He; [|done]. cbn in Hc. injection Hc as <-.
  assert (Hx : apart x).
  { destruct (decide (s = Some j)); [auto|]. apply P_apart. by eapply guarded_tail. }
  assert (Hsend : apart (OSend c pk)).
  { destruct (decide (s = Some i)); [auto|]. apply P_apart. by apply (guarded_tail _ _ _ _ _ _ Hg Hi). }
  assert (Hm : made_by x w (w1, ops)) by (eapply receive_grows; [exact Hx|exact Hsend|exact He]).
  pose proof (proj1 Hm) as Hgr. cbn in Hgr.
  pose proof (guarded_put P s w1 j (ops ++ k')) as H1.
  refine (guarded_put P s (put_threads (<[j := ops ++ k']> (threads w1)) w1) i k (H1 _ _) _).
  - by eapply guarded_grows.
  - intros Hne. destruct (guarded_tail _ _ _ _ _ _ Hg Hj Hne) as [HPx HPk].
    apply Forall_app. split; [|done]. by eapply P_made.
  - intros Hne. by eapply guarded_tail.
Qed.

Lemma environment_guarded w w' th :
  guarded P s w -> grows w w' -> Forall fine th -> guarded P s (spawn th w').
Proof. intros Hg Hgr Hth. apply (guarded_grows P s w); auto with wk. Qed.

(** A step keeps the guard when the goroutine [s] only does what is apart, or
    waits. *)
Lemma step_guarded w w' :
  step wf w w' ->
  (forall i x k, s = Some i -> w.(threads) !! i = Some (x :: k) ->
     apart x \/ (forall o, exec wf o x w = None) /\ (forall (c : chan) pk, x <> OSend c pk) /\
       forall j (c : chan) pk k', w.(threads) !! j = Some (OSend c pk :: k') -> j <> i -> receive wf x c pk w = None) ->
  (quiet = true -> ~ calls_destroy w w') -> avoids w w' -> guarded P s w -> guarded P s w'.
Proof.
  intros Hst Hself Hq Ho Hg. destruct Hst as [i o w' Hr|i j w' Hij Hc|j Hcr Hf|Hcr|o w' ops Hcr HR].
  - pose proof Hr as Hr'. unfold run_thread in Hr'. destruct (crashed w); [done|].
    destruct (threads w !! i) as [[|x k]|] eqn:Hi; try done.
    eapply run_guarded; eauto. intros ->.
    destruct (Hself i x k eq_refl Hi) as [|[Hn _]]; [done|]. by rewrite Hn in Hr'.
  - pose proof Hc as Hc'. unfold communicate in Hc'. destruct (crashed w); [done|].
    destruct (threads w !! i) as [[|[] k]|] eqn:Hi; try done.
    destruct (threads w !! j) as [[|x k']|] eqn:Hj; try done.
    eapply communicate_guarded; eauto; intros ->.
    + destruct (Hself j x k' eq_refl Hj) as [|(_ & _ & Hn)]; [done|]. by erewrite Hn in Hc'.
    + destruct (Hself i _ k eq_refl Hi) as [|(_ & Hn & _)]; [done|]. by edestruct Hn.
  - apply (environment_guarded w w); auto with wk. apply fine_fire.
  - destruct quiet eqn:Hb; [by destruct Hq|]. apply (environment_guarded w w); auto with wk.
  - pose proof (made_Recover o w) as [H1 H2]. rewrite HR in H1, H2. by apply (environment_guarded w w').
Qed.

End Guard.

(** The counters only go up and the parts stay distinct. *)
Definition grown w w' : Prop :=
  (w.(next) <= w'.(next))%nat /\ w.(wk).(deliverCmd) <= w'.(wk).(deliverCmd) /\ (parts_ok w -> parts_ok w') /\
  (quiet = true -> kept w w') /\ (cmds_ok w -> cmds_ok w' /\ spends w w').

Lemma grows_grown w w' : grows w w' -> grown w w'.
Proof. intros []. by split_and!. Qed.

Lemma grown_threads th w w' : grown w w' -> grown w (put_threads th w').
Proof. 
  intros (H1 & H2 & H3 & H4 & H5). split_and!; [done..| | |done].
  - intros [H6 H7]%H3. by split.
  - intros Hq. by destruct (H4 Hq).
Qed.

Lemma step_grown w w' :
  step wf w w' -> avoids w w' -> reqs_ok w -> jobs_ok w ->
  (forall i x k, w.(threads) !! i = Some (x :: k) -> apart x) ->
  (quiet = true -> ~ calls_destroy w w') -> grown w w'.
Proof.
  intros Hst Ho Hr Hj Ha Hq. destruct Hst as [i o w' Hrun|i j w' Hij Hc|j Hcr Hf|Hcr|o w' ops Hcr HR].
  - unfold run_thread in Hrun. destruct (crashed w); [done|].
    destruct (threads w !! i) as [[|x k]|] eqn:Hi; try done.
    destruct (exec wf o x w) as [[w1 ops]|] eqn:He; [|done]. cbn in Hrun. injection Hrun as <-.
    assert (Hm : made_by x w (w1, ops)) by (eapply exec_grows; [exact Ho|done..|by eapply Ha|exact He]).
    apply grown_threads, grows_grown, Hm.
  - unfold communicate in Hc. destruct (crashed w); [done|].
    destruct (threads w !! i) as [[|[] k]|] eqn:Hi'; try done.
    destruct (threads w !! j) as [[|x k']|] eqn:Hj'; try done.
    destruct (receive wf x _ _ w) as [[w1 ops]|] eqn:He; [|done]. cbn in Hc. injection Hc as <-.
    assert (Hm : made_by x w (w1, ops)) by (eapply receive_grows; [by eapply Ha|by eapply Ha|exact He]).
    apply grown_threads, grows_grown, Hm.
  - apply grows_grown. pose proof (fine_fire j w). auto with wk.
  - apply grows_grown. destruct quiet eqn:Hb; [by destruct Hq|]. auto with wk.
  - pose proof (made_Recover o w) as [H1 H2]. rewrite HR in H1, H2. apply grows_grown. auto with wk.
Qed.

End Inv.

(** ** Reachable worlds *)

Section Reachable.
Context {E : Engine} {JS : Json} {CR : Cron job}.
Context (wf : Wf) (now : Z).
Implicit Types w : world.

Lemma apart_None x : apart None false x.
Proof. destruct x; cbn; auto; [by destruct c, p|by destruct cb]. Qed.

Lemma reqs_None w : reqs_ok None false w.
Proof. intros id cb _. by destruct cb. Qed.

Definition not_run (x : op) : Prop := is_run x = false.

Lemma made_not_run x w0 w ops : not_run x -> made_by wf None false x w0 (w, ops) -> Forall not_run ops.
Proof. intros Hx (_ & _ & H). eapply Forall_impl; [by apply H|]. by intros y []. Qed.

(** Only the first goroutine runs the operations of [Run]. *)
Lemma only_run_runs w : reachable wf now w -> guarded None false not_run (Some 0%nat) w.
Proof.
  unfold reachable. revert w. apply rtc_ind_r; [|intros w w' _ Hst IH].
  - split; [|by intros job Hj%elem_of_nil|apply reqs_None]. cbn. intros [|i] th Hi Hne; done.
  - refine (step_guarded wf None false not_run _ _ _ _ w w' _ _ _ _ IH); try done.
    + by intros x [].
    + intros. apply apart_None.
    + apply made_not_run.
    + intros. left. apply apart_None.
Qed.

Lemma reachable_step w w' : reachable wf now w -> step wf w w' -> grown wf false w w'.
Proof.
  intros Hr Hst. eapply (step_grown wf None false); [exact Hst|done|apply reqs_None| | |done].
  - apply (only_run_runs w Hr).
  - intros. apply apart_None.
Qed.

Lemma reachable_steps w w' : reachable wf now w -> rtc (step wf) w w' -> reachable wf now w'.
Proof. unfold reachable. intros. by etrans. Qed.

(** A channel that is not made yet is in nobody's hands. *)
Lemma reachable_apart n w :
  reachable wf now w -> (w.(next) <= n)%nat -> guarded (Some n) false (apart (Some n) false) None w.
Proof.
  unfold reachable. revert w.
  apply (rtc_ind_r (fun w => (w.(next) <= n)%nat -> _)); [|intros w w' Hw Hst IH]; intros Hn.
  - split; [|by intros job Hj%elem_of_nil|by intros id cb Hcb; cbn in Hcb; apply lookup_empty_Some in Hcb].
    cbn. intros [|i] th Hi _; [injection Hi as <-; by repeat constructor|done].
  - destruct (reachable_step w w' Hw Hst) as (Hle & _).
    assert (Hg : guarded (Some n) false (apart (Some n) false) None w) by (apply IH; lia).
    refine (step_guarded wf (Some n) false _ _ _ _ _ w w' Hst _ _ _ Hg); try done.
    + by intros x [].
    + by intros x w0 w1 ops _ (_ & H2 & _).
    + by right.
Qed.

(** A goroutine keeps its operations while it waits for an answer that nobody
    can give. *)
Definition waits_for (n : nat) (x : op) : Prop := x = ORespond n \/ x = OWaitResult n.

Lemma waits_receive n x (c : chan) pk w :
  waits_for n x -> apart (Some n) false (OSend c pk) -> receive wf x c pk w = None.
Proof.
  intros [-> | ->] Ha; destruct c as [| | |m]; try done; destruct pk; try done; cbn in *;
    case_bool_decide; congruence.
Qed.

Lemma grows_keeps w w' i th : grows wf None false w w' -> w.(threads) !! i = Some th -> w'.(threads) !! i = Some th.
Proof. intros [(new & -> & _) _ _ _ _ _ _] Hi. by apply lookup_app_l_Some. Qed.

(** Only its own runs and meetings change what a goroutine has left to do. *)
Lemma step_at w w' i th :
  reachable wf now w -> step wf w w' -> w.(threads) !! i = Some th ->
  (exists o, run_thread wf i o w = Some w') \/
  (exists j, j <> i /\ (communicate wf i j w = Some w' \/ communicate wf j i w = Some w')) \/
  w'.(threads) !! i = Some th.
Proof.
  intros Hr Hst Hi.
  assert (Hj : jobs_ok None false w) by apply (only_run_runs w Hr).
  destruct Hst as [i' o w' Hr'|i' j w' Hij Hc|j Hcr Hf|Hcr|o w' ops Hcr HR].
  - destruct (decide (i' = i)) as [->|Hne]; [left; by eexists|right; right].
    unfold run_thread in Hr'. destruct (crashed w); [done|].
    destruct (threads w !! i') as [[|x k]|] eqn:Hi'; try done.
    destruct (exec wf o x w) as [[w1 ops]|] eqn:He; [|done]. cbn in Hr'. injection Hr' as <-. cbn.
    rewrite list_lookup_insert_ne by done. eapply grows_keeps; [|done].
    eapply (exec_grows wf None false o x w (w1, ops)); [done|apply reqs_None|done|apply apart_None|done].
  - destruct (decide (i' = i)) as [->|Hni]; [right; left; exists j; by auto|].
    destruct (decide (j = i)) as [->|Hnj]; [right; left; exists i'; by auto|right; right].
    unfold communicate in Hc. destruct (crashed w); [done|].
    destruct (threads w !! i') as [[|[] k]|]; try done.
    destruct (threads w !! j) as [[|x k']|]; try done.
    destruct (receive wf x _ _ w) as [[w1 ops]|] eqn:He; [|done]. cbn in Hc. injection Hc as <-. cbn.
    rewrite !list_lookup_insert_ne by done. eapply grows_keeps; [|done].
    eapply (receive_grows wf None false x _ _ w (w1, ops)); [apply apart_None|apply apart_None|done].
  - right; right. cbn. by apply lookup_app_l_Some.
  - right; right. cbn. by apply lookup_app_l_Some.
  - right; right. cbn. apply lookup_app_l_Some. eapply grows_keeps; [|done].
    pose proof (made_Recover wf None false o w) as [H1 _]. by rewrite HR in H1.
Qed.

(** A goroutine that cannot meet another keeps its operations until it runs. *)
Lemma step_keeps w w' i th :
  reachable wf now w -> step wf w w' -> w.(threads) !! i = Some th ->
  (forall j, j <> i -> communicate wf i j w = None /\ communicate wf j i w = None) ->
  (exists o, run_thread wf i o w = Some w') \/ w'.(threads) !! i = Some th.
Proof.
  intros Hr Hst Hi Hcom. destruct (step_at w w' i th Hr Hst Hi) as [H|[(j & Hj & H)|H]]; [by left| |by right].
  destruct (Hcom j Hj) as [H1 H2]. rewrite H1, H2 in H. by destruct H.
Qed.

Lemma crashed_stops w w' : w.(crashed) = true -> ~ step wf w w'.
Proof.
  intros Hc Hst. destruct Hst as [i o w' H|i j w' _ H|j H _|H|o w' ops H _]; try congruence;
    unfold run_thread, communicate in H; by rewrite Hc in H.
Qed.

(** A goroutine that waits on a channel nobody else can use waits for ever. *)
Lemma abandoned n i x k w w' :
  reachable wf now w -> (n < w.(next))%nat -> waits_for n x -> w.(threads) !! i = Some (x :: k) ->
  guarded (Some n) false (apart (Some n) false) (Some i) w ->
  rtc (step wf) w w' -> w'.(threads) !! i = Some (x :: k).
Proof.
  intros Hr Hn Hx Hi Hg Hst. revert Hr Hn Hi Hg. induction Hst as [|w w1 w' Hst _ IH]; [done|].
  intros Hr Hn Hi Hg.
  assert (Hexec : forall o w, exec wf o x w = None) by (by intros o wx; destruct Hx as [-> | ->]).
  assert (Hrecv : forall j (c : chan) pk k', w.(threads) !! j = Some (OSend c pk :: k') -> j <> i ->
            receive wf x c pk w = None).
  { intros j c pk k' Hj Hne. eapply waits_receive; [exact Hx|].
    apply (guarded_tail _ _ _ _ _ _ _ _ Hg Hj). congruence. }
  destruct (reachable_step w w1 Hr Hst) as (Hle & _).
  apply IH.
  - eapply reachable_steps; [exact Hr|]. by apply rtc_once.
  - lia.
  - destruct (step_keeps w w1 i (x :: k) Hr Hst Hi) as [[o Hrun]|]; [| |done].
    + intros j Hne. unfold communicate. rewrite Hi. split; destruct (crashed w); try done.
      * by destruct Hx as [-> | ->].
      * destruct (threads w !! j) as [[|[] k']|] eqn:Hj; try done. by erewrite Hrecv.
    + unfold run_thread in Hrun. rewrite Hi, Hexec in Hrun. by destruct (crashed w).
  - refine (step_guarded wf (Some n) false (apart (Some n) false) _ _ _ _ w w1 Hst _ _ _ Hg); try done.
    + by intros y [].
    + by intros y w0 w2 ops _ (_ & H2 & _).
    + intros i' y k' [= <-] Hi'. rewrite Hi in Hi'. injection Hi' as <- <-. right.
      split_and!; [done| |done]. by destruct Hx as [-> | ->].
    + by left.
Qed.

End Reachable.
