(* ===== verification/WorkerProps.v ===== *)
(** Theorems about the runner's worker. *)

From stdpp Require Import pretty.
From Stdlib Require Import Ascii.
From S2P Require Import Prelude GoStrings Names OrderedMap Template Compile Value Runtime Interp Scheduler WorkerData Worker WorkerInv.

#[local] Open Scope Z_scope.

(** ** Numbers in names *)

Definition is_digit (a : ascii) : Prop := a <> "-"%char /\ a <> "@"%char.

Lemma pretty_N_go_digits x s :
  Forall is_digit (explode s) -> Forall is_digit (explode (pretty_N_go x s)).
Proof.
  revert s. induction (N.lt_wf_0 x) as [x _ IH]; intros s Hs.
  assert (x = 0 \/ 0 < x)%N as [->|Hx] by lia; [by rewrite pretty_N_go_0|].
  rewrite pretty_N_go_step by done. apply IH; [by apply N.div_lt|].
  apply Forall_cons. split; [|done]. unfold is_digit, pretty_N_char. by repeat case_match.
Qed.

Lemma pretty_N_digits (x : N) : Forall is_digit (explode (pretty x)).
Proof.
  unfold pretty, pretty_N. case_decide; [by repeat constructor|]. by apply pretty_N_go_digits.
Qed.

(** The text of an integer: a sign, then digits. *)
Lemma pretty_Z_shape (z : Z) :
  exists l, Forall is_digit l /\ explode (pretty z) = (if bool_decide (z < 0) then ["-"%char] else []) ++ l /\ l <> [].
Proof.
  assert (Hne : forall n : N, explode (pretty n) <> []).
  { intros n Hn. assert (pretty n = ""); [by apply explode_inj|]. unfold pretty, pretty_N in H. case_decide; [done|].
    rewrite pretty_N_go_step in H by lia. revert H.
    generalize (pretty_N_char (n `mod` 10)) (n `div` 10)%N. intros a m.
    assert (forall s, s <> "" -> pretty_N_go m s <> "") as Hg; [|by apply Hg].
    induction (N.lt_wf_0 m) as [m _ IH]; intros s Hs.
    assert (m = 0 \/ 0 < m)%N as [->|Hm] by lia; [by rewrite pretty_N_go_0|].
    rewrite pretty_N_go_step by done. apply IH; [by apply N.div_lt|done]. }
  destruct z as [|x|x].
  - exists ["0"%char]. split_and!; [by repeat constructor|done|done].
  - exists (explode (pretty (Npos x))). split_and!; [apply pretty_N_digits|by rewrite bool_decide_eq_false_2|done].
  - exists (explode (pretty (Npos x))). split_and!; [apply pretty_N_digits|by rewrite bool_decide_eq_true_2|done].
Qed.

Lemma digits_split (a : ascii) l1 l2 r1 r2 :
  ~ is_digit a -> Forall is_digit l1 -> Forall is_digit l2 -> l1 ++ a :: r1 = l2 ++ a :: r2 ->
  l1 = l2 /\ r1 = r2.
Proof.
  intros Ha H1. revert l2. induction H1 as [|x l1 Hx H1 IH]; intros [|y l2] H2 Heq; simplify_eq/=; [done|..].
  - apply Forall_cons in H2 as [? _]. done.
  - done.
  - apply Forall_cons in H2 as [_ H2]. destruct (IH l2 H2) as [-> ->]; auto.
Qed.

(** Numbers before a sign or an at can be read back. *)
Lemma number_split (a : ascii) (i j : Z) r1 r2 :
  ~ is_digit a -> explode (pretty i) ++ a :: r1 = explode (pretty j) ++ a :: r2 -> i = j /\ r1 = r2.
Proof.
  intros Ha Heq. destruct (pretty_Z_shape i) as (l1 & H1 & E1 & N1), (pretty_Z_shape j) as (l2 & H2 & E2 & N2).
  assert (Hs : explode (pretty i) = explode (pretty j) /\ r1 = r2).
  { rewrite E1, E2 in *. destruct l1 as [|x l1]; [by destruct N1|]. destruct l2 as [|y l2]; [by destruct N2|].
    apply Forall_cons in H1 as [Hx H1]. apply Forall_cons in H2 as [Hy H2].
    repeat case_bool_decide; cbn in *; simplify_eq; try (destruct Hx; congruence); try (destruct Hy; congruence);
      (destruct (digits_split a l1 l2 r1 r2) as [-> ->]; [done..|by split]). }
  destruct Hs as [Hs ->]. split; [|done]. apply (inj pretty), explode_inj, Hs.
Qed.

Section Props.
Context {E : Engine} {JS : Json} {CR : Cron job}.
Context (wf : Wf) (now : Z).
Implicit Types (w : world) (p : Point) (r : CmdReplyTask) (c : CmdTask) (o : oracle).

(** ** Goroutines that wait for ever *)

(** The loop of [Run] is the only receiver of events: when its goroutine sends
    one, it waits for ever, or panics because the channel was closed. *)
Lemma event_send_blocks w w' pk k :
  reachable wf now w -> w.(threads) !! 0%nat = Some (OSend ChEvent pk :: k) -> rtc (step wf) w w' ->
  w'.(crashed) = true \/ w'.(threads) !! 0%nat = Some (OSend ChEvent pk :: k).
Proof.
  intros Hr Hi Hst. revert Hr Hi. induction Hst as [w|w w1 w' Hst Hs IH]; [by right|]. intros Hr Hi.
  assert (Hr1 : reachable wf now w1) by (eapply reachable_steps; [exact Hr|by apply rtc_once]).
  destruct (decide (crashed w1 = true)) as [Hc|Hc].
  { left. destruct Hs as [|w1 w2 w' Hs _]; [done|]. by apply crashed_stops in Hs. }
  apply IH; [done|]. pose proof (only_run_runs wf now w Hr) as Hg.
  destruct (step_keeps wf now w w1 0 _ Hr Hst Hi) as [[o Hrun]|]; [| |done].
  - intros j Hne. unfold communicate. rewrite Hi. split; destruct (crashed w); try done.
    + destruct (threads w !! j) as [[|x k']|] eqn:Hj; try done.
      destruct (guarded_tail None false _ _ _ _ _ _ Hg Hj) as [Hx _]; [congruence|]. by destruct x.
    + by destruct (threads w !! j) as [[|[] k']|].
  - unfold run_thread in Hrun. rewrite Hi in Hrun. cbn in Hrun. destruct (crashed w); [done|].
    destruct (eventClosed w); [|done]. cbn in Hrun. by simplify_eq.
Qed.

(** ** Setting up *)

(** The operation starts tasks. *)
Definition starts (x : op) : Prop := exists cur rest, x = OPush TriggerStartTaskCmd cur rest.

Lemma fine_starts x : fine None false x -> ~ starts x.
Proof. by intros [Hx _] (cur & rest & ->). Qed.

(** [Run] starts tasks only while it does so already or when it finds
    everything delivered. *)
Lemma exec_starts o x w w1 ops y :
  jobs_ok None false w -> exec wf o x w = Some (w1, ops) -> y ∈ ops -> starts y ->
  starts x \/ x = OCheckDelivered /\ allDelivered w.(wk) = true.
Proof.
  intros Hj He Hy Hs. pose proof (exec_grows wf None false o x w (w1, ops) I (reqs_None w) Hj (apart_None x) He) as (_ & _ & Hf).
  destruct (is_run x) eqn:Hx.
  2:{ apply (Forall_forall _ _) with (x := y) in Hf; [|done..]. by apply fine_starts in Hf. }
  destruct x; try discriminate Hx.
  9:{ left. apply bool_decide_eq_true in Hx as ->. by eexists _, _. }
  8:{ right. cbn in He. unfold check_delivered in He. destruct (allDelivered _); [done|].
      injection He as <- <-. by apply elem_of_nil in Hy. }
  all: exfalso; destruct Hs as (cur & rest & ->); cbn in He.
  2: destruct (subscribe wf o w).
  all: try match type of He with context [if ?b then _ else _] => destruct b end;
    try discriminate He; injection He as <- <-; set_solver.
Qed.

(** What the first goroutine has left to do after one of its operations. *)
Lemma run_at w o w' th :
  reachable wf now w -> w.(threads) !! 0%nat = Some th -> run_thread wf 0 o w = Some w' ->
  exists x k ops w1, th = x :: k /\ exec wf o x w = Some (w1, ops) /\ w'.(threads) !! 0%nat = Some (ops ++ k).
Proof.
  intros Hr Hi Hrun. unfold run_thread in Hrun. destruct (crashed w); [done|]. rewrite Hi in Hrun.
  destruct th as [|x k]; [done|]. destruct (exec wf o x w) as [[w1 ops]|] eqn:He; [|done].
  cbn in Hrun. injection Hrun as <-. exists x, k, ops, w1. split_and!; [done..|]. cbn.
  apply list_lookup_insert_eq. eapply lookup_lt_Some, grows_keeps; [|exact Hi].
  eapply (exec_grows wf None false o x w (w1, ops)); [done|apply reqs_None|apply (only_run_runs wf now w Hr)|apply apart_None|done].
Qed.

(** And after a meeting. *)
Lemma meet_at w w' th j :
  w.(threads) !! 0%nat = Some th -> j <> 0%nat ->
  communicate wf 0 j w = Some w' \/ communicate wf j 0 w = Some w' ->
  exists x k th', th = x :: k /\ w'.(threads) !! 0%nat = Some th' /\
    ((exists (c : chan) pk, x = OSend c pk /\ th' = k) \/
     (exists (c : chan) pk k' w1 ops, w.(threads) !! j = Some (OSend c pk :: k') /\
        receive wf x c pk w = Some (w1, ops) /\ th' = ops ++ k)).
Proof.
  intros Hi Hj Hc. unfold communicate in Hc. destruct (crashed w); [by destruct Hc|].
  rewrite Hi in Hc. destruct Hc as [Hc|Hc].
  - destruct th as [|[] k]; try done. destruct (threads w !! j) as [[|x k']|]; try done.
    destruct (receive wf x _ _ w) as [[w1 ops]|] eqn:He; [|done]. cbn in Hc. injection Hc as <-. cbn.
    eexists _, k, k. split_and!; [done| |left; by eexists _, _].
    apply list_lookup_insert_eq. rewrite length_insert.
    eapply lookup_lt_Some, grows_keeps; [|exact Hi].
    apply (receive_grows wf None false x _ _ w (w1, ops) (apart_None x) (apart_None _) He).
  - destruct (threads w !! j) as [[|[] k]|] eqn:Hs; try done. destruct th as [|x k']; [done|].
    destruct (receive wf x _ _ w) as [[w1 ops]|] eqn:He; [|done]. cbn in Hc. injection Hc as <-. cbn.
    pose proof (receive_grows wf None false x _ _ w (w1, ops) (apart_None x) (apart_None _) He) as (Hg & _).
    eexists x, k', (ops ++ k'). split_and!; [done| |right; by eexists _, _, _, _, _].
    rewrite list_lookup_insert_ne by done. apply list_lookup_insert_eq.
    eapply lookup_lt_Some, grows_keeps; [exact Hg|exact Hi].
Qed.

(** A meeting adds no start to the first goroutine. *)
Lemma receive_starts x (c : chan) pk w w1 ops y :
  receive wf x c pk w = Some (w1, ops) -> y ∈ ops -> ~ starts y.
Proof.
  intros He Hy Hs.
  pose proof (receive_grows wf None false x _ _ w (w1, ops) (apart_None x) (apart_None _) He) as (_ & _ & Hf).
  destruct (is_run x) eqn:Hx; [|apply (Forall_forall _ _) with (x := y) in Hf; [|done..]; by apply fine_starts in Hf].
  destruct Hs as (cur & rest & ->). destruct x; try done; destruct c; try done; destruct pk; try done.
  cbn in He. injection He as <- <-. unfold handle_event in Hy. repeat case_bool_decide; set_solver.
Qed.

(** The worker was at a check that found everything delivered. *)
Definition was_delivered w : Prop :=
  exists w1 k, reachable wf now w1 /\ rtc (step wf) w1 w /\
    w1.(threads) !! 0%nat = Some (OCheckDelivered :: k) /\ allDelivered w1.(wk) = true.

Lemma was_delivered_step w w' : was_delivered w -> step wf w w' -> was_delivered w'.
Proof. intros (w1 & k & H1 & H2 & H3) Hs. exists w1, k. split_and!; [done| |apply H3..]. by eapply rtc_r. Qed.

Lemma starts_delivered w :
  reachable wf now w ->
  exists th, w.(threads) !! 0%nat = Some th /\ forall y, y ∈ th -> starts y -> was_delivered w.
Proof.
  intros Hr. unfold reachable in Hr. revert w Hr. apply rtc_ind_r.
  - eexists. split; [done|]. intros y Hy (cur & rest & ->). set_solver.
  - intros w w' Hr Hst (th & Hi & Hth).
    assert (Hold : forall y, y ∈ th -> starts y -> was_delivered w').
    { intros y Hy Hs. eapply was_delivered_step; [by eapply Hth|done]. }
    destruct (step_at wf now w w' 0 th Hr Hst Hi) as [[o Hrun]|[(j & Hj & Hc)|Hk]].
    + destruct (run_at w o w' th Hr Hi Hrun) as (x & k & ops & w1 & -> & He & Hi').
      exists (ops ++ k). split; [done|]. intros y [Hy|Hy]%elem_of_app Hs; [|eapply Hold; [by right|done]].
      destruct (exec_starts o x w w1 ops y) as [Hx|[-> Ha]]; [apply (only_run_runs wf now w Hr)|done..| |].
      * eapply Hold; [by left|done].
      * exists w, k. split_and!; [done|by apply rtc_once|done..].
    + destruct (meet_at w w' th j Hi Hj Hc) as
        (x & k & th' & -> & Hi' & [(c & pk & _ & ->)|(c & pk & k' & w1 & ops & _ & He & ->)]).
      all: eexists; split; [done|]; intros y Hy Hs.
      * eapply Hold; [by right|done].
      * apply elem_of_app in Hy as [Hy|Hy]; [by edestruct receive_starts|]. eapply Hold; [by right|done].
    + by exists th.
Qed.

Lemma all_status_elem s (m : gmap Z (list delivery)) id l d :
  all_status s m = true -> m !! id = Some l -> d ∈ l -> d.(d_status) = s.
Proof.
  unfold all_status. rewrite forallb_forall. intros Ha Hl Hd.
  assert (Hin : In (id, l) (map_to_list m)) by by apply list_elem_of_In, elem_of_map_to_list.
  apply Ha in Hin. rewrite forallb_forall in Hin. apply list_elem_of_In, Hin in Hd. by apply bool_decide_eq_true in Hd.
Qed.

(** C30: tasks are started after the setup only.  In every reachable state of a
    worker, only the goroutine of [Run] has a start of the tasks before it, and
    it got there through a state in which it had just recorded an answer and
    every delivery recorded of a task or a broker was a successful setup. *)
Theorem tasks_start_after_setup w i th cur rest :
  reachable wf now w -> w.(threads) !! i = Some th -> OPush TriggerStartTaskCmd cur rest ∈ th ->
  i = 0%nat /\
  exists w1 k, reachable wf now w1 /\ rtc (step wf) w1 w /\
    w1.(threads) !! 0%nat = Some (OCheckDelivered :: k) /\
    (forall id l d, w1.(wk).(taskDelivers) !! id = Some l -> d ∈ l -> d.(d_status) = SuccessSetTask) /\
    (forall id l d, w1.(wk).(brokerDelivers) !! id = Some l -> d ∈ l -> d.(d_status) = SuccessSetBroker).
Proof.
  intros Hr Hi Hin.
  assert (i = 0%nat) as ->.
  { destruct i as [|i]; [done|]. pose proof (gd_threads _ _ _ _ _ (only_run_runs wf now w Hr) _ _ Hi) as Hf.
    apply (Forall_forall _ _) with (x := OPush TriggerStartTaskCmd cur rest) in Hf; done. }
  split; [done|]. destruct (starts_delivered w Hr) as (th' & Hi' & Hth).
  destruct (Hth (OPush TriggerStartTaskCmd cur rest)) as (w1 & k & H1 & H2 & H3 & Ha); [congruence|by eexists _, _|].
  apply andb_prop in Ha as [Ht Hb]. exists w1, k. split_and!; [done..| |]; intros; by eapply all_status_elem.
Qed.

(** ** Serving *)

(** A step in which nobody calls [Destroy]. *)
Definition undisturbed w w' : Prop := step wf w w' /\ ~ calls_destroy w w'.

Lemma undisturbed_reachable w : rtc undisturbed (NewWorker wf now) w -> reachable wf now w.
Proof. apply (rtc_subrel undisturbed (step wf)). by intros x y []. Qed.

Lemma undisturbed_kept w w' : guarded None true (apart None true) None w -> undisturbed w w' -> kept w w'.
Proof.
  intros Hg [Hst Hq]. destruct (step_grown wf None true w w' Hst) as (_ & _ & _ & H & _); [done|apply Hg..| |done|].
  - intros i x k Hi. by apply (guarded_tail _ _ _ _ _ _ _ _ Hg Hi).
  - by apply H.
Qed.

(** While nobody does, no goroutine deletes the worker and events can be sent. *)
Lemma undisturbed_guarded w :
  rtc undisturbed (NewWorker wf now) w -> guarded None true (apart None true) None w /\ w.(eventClosed) = false.
Proof.
  revert w. apply rtc_ind_r.
  - split; [|done]. split; [|by intros job Hj%elem_of_nil|by intros id cb Hcb; cbn in Hcb; apply lookup_empty_Some in Hcb].
    intros [|i] th Hi _; [injection Hi as <-; by repeat constructor|done].
  - intros w w' Hr Hst [Hg Ho]. destruct (undisturbed_kept w w' Hg Hst) as [He _ _]. split; [|by rewrite He].
    destruct Hst as [Hst Hq]. refine (step_guarded wf None true (apart None true) None _ _ _ w w' Hst _ _ _ Hg); try done.
    + by intros x [].
    + by intros x w0 w1 ops _ (_ & H & _).
Qed.

Definition is_loop (x : op) : bool := match x with ORunLoop => true | _ => false end.

Lemma last_replace (x y : op) ops k :
  last (x :: k) = Some y -> x <> y \/ last ops = Some y -> last (ops ++ k) = Some y.
Proof.
  intros Hl Hx. destruct k as [|z k].
  - injection Hl as ->. rewrite app_nil_r. by destruct Hx.
  - rewrite last_app. by rewrite last_cons_cons in Hl; rewrite Hl.
Qed.

(** [Run] got to its loop over the events and will go back to it. *)
Definition serving w : Prop :=
  rtc undisturbed (NewWorker wf now) w /\
  exists th, w.(threads) !! 0%nat = Some th /\ last th = Some ORunLoop.

Lemma serving_step w w' : serving w -> undisturbed w w' -> serving w'.
Proof.
  intros (Hr & th & Hi & Hl) Hs. split; [by eapply rtc_r|].
  destruct (undisturbed_guarded w Hr) as [Hg Ho]. pose proof (undisturbed_reachable w Hr) as Hr'.
  destruct (step_at wf now w w' 0 th Hr' (proj1 Hs) Hi) as [[o Hrun]|[(j & Hj & Hc)|Hk]]; [| |by exists th].
  - destruct (run_at w o w' th Hr' Hi Hrun) as (x & k & ops & w2 & -> & He & Hi'). exists (ops ++ k).
    split; [done|]. eapply last_replace; [exact Hl|]. left. intros ->. cbn in He. by rewrite Ho in He.
  - destruct (meet_at w w' th j Hi Hj Hc) as
      (x & k & th' & -> & Hi' & [(c & pk & -> & ->)|(c & pk & k' & w2 & ops & Hj' & He & ->)]).
    all: eexists; split; [exact Hi'|].
    + by apply (last_replace (OSend c pk) _ []); [|left].
    + eapply last_replace; [exact Hl|]. destruct (decide (is_loop x = true)) as [Hx|Hx]; [right|left; by intros ->].
      destruct x; try done. destruct c; try done. destruct pk; try done.
      destruct (guarded_tail _ _ _ _ _ _ _ _ Hg Hj') as [Hsend _]; [done|]. cbn in Hsend.
      cbn in He. injection He as <- <-. unfold handle_event.
      rewrite bool_decide_eq_false_2 by by apply Hsend. by repeat case_bool_decide.
Qed.

(** ** Run does not panic by itself *)

(** Every client of a task is a client of the workflow, so it has a point. *)
Definition clients_known : bool :=
  forallb (fun kt => forallb (fun cl => bool_decide (GetClientName cl ∈ (point_list wf).*1)) kt.2.(tk).(t_Clients))
    wf.(wf_Tasks).

Definition known (cl : string) : Prop := GetClientName cl ∈ (point_list wf).*1.
Definition task_known (t : WTask) : Prop := Forall known t.(tk).(t_Clients).
Definition points_set w : Prop := forall q, q ∈ (point_list wf).*1 -> is_Some (w.(wk).(points) !! q).

Lemma clients_known_tasks : clients_known = true -> Forall task_known wf.(wf_Tasks).*2.
Proof.
  unfold clients_known. rewrite forallb_forall. intros Hc. apply Forall_fmap, Forall_forall.
  intros kt Hkt%list_elem_of_In%Hc. rewrite forallb_forall in Hkt. apply Forall_forall.
  intros cl Hcl%list_elem_of_In%Hkt. by apply bool_decide_eq_true in Hcl.
Qed.

(** What the goroutine of [Run] does once the points and the queue are there. *)
Definition run_part (x : op) : Prop :=
  match x with
  | ORunLoop | OUpdateTask _ _ | OUpdateBroker _ _ | OCheckDelivered | OSend ChEvent _ => True
  | OPush _ cur rest => Forall task_known rest /\ from_option (fun tc => Forall known tc.2) True cur
  | _ => False
  end.

Definition early (th : list op) : Prop :=
  th ∈ [[]; [OConnect]; [OSubscribe]; [OSubscribeSync]; [OInitFC]; [OStarted; OQueue; ORunLoop]].

Definition run_state w (th : list op) : Prop :=
  early th \/ points_set w /\ (th = [OQueue; ORunLoop] \/ w.(wk).(CBQueue) = true /\ Forall run_part th).

Lemma run_state_kept w w' th : kept w w' -> run_state w th -> run_state w' th.
Proof.
  intros [_ Hc Hp] [He|[Hs Ht]]; [by left|right]. split; [by intros q Hq%Hs%Hp|].
  destruct Ht as [|[Hq Hf]]; [by left|right]. split; auto.
Qed.

(** Neither panics nor takes the queue away. *)
Definition calmly w w' : Prop := w'.(crashed) = w.(crashed) /\ w'.(wk).(CBQueue) = w.(wk).(CBQueue).

Lemma number_cmd_calmly i w : calmly w (number_cmd i w).
Proof. unfold number_cmd. by repeat case_bool_decide. Qed.

Lemma getPart_calmly part id ty w : calmly w (getPart wf part id ty w).2.
Proof. unfold getPart. case_bool_decide; [done|]. by case_match. Qed.

Lemma deliver_calmly o i c w : calmly w (deliver o i c w).1.
Proof. unfold deliver. case_match; [|done]. by destruct (_ && _). Qed.

Lemma deliverAsync_calmly o rv i cb w : calmly w (deliverAsync o rv i cb w).1.
Proof.
  unfold deliverAsync. case_bool_decide; cbn;
    match goal with |- context [deliver o i ?c ?w0] =>
      destruct (deliver_calmly o i c w0) as [H1 H2]; destruct (deliver o i c w0) as [w1 [e|]] end; by split.
Qed.

Lemma deliverTaskToClient_calmly o from rv i w :
  w.(wk).(CBQueue) = true -> calmly w (deliverTaskToClient wf o from rv i w).1.
Proof.
  intros Hq. unfold deliverTaskToClient. destruct (number_cmd_calmly i w) as [H1 H2].
  destruct (getPart_calmly "" (-1) (-1) (number_cmd i w)) as [H3 H4].
  destruct (getPart wf "" (-1) (-1) (number_cmd i w)) as [part w1]. cbn in H3, H4.
  match goal with |- context [deliverAsync o rv i ?cb ?w0] =>
    destruct (deliverAsync_calmly o rv i cb w0) as [H5 H6]; revert H5 H6; generalize (deliverAsync o rv i cb w0) end.
  unfold push. cbn [on_cmd wk put_cmds]. rewrite H4, H2, Hq. cbn. intros w2 H5 H6. split; congruence.
Qed.

Lemma update_task_calmly id d w : calmly w (update_task id d w) /\ (update_task id d w).(wk).(points) = w.(wk).(points).
Proof. done. Qed.
Lemma nextCmdID_calmly w : calmly w (nextCmdID w).2.
Proof. done. Qed.
Lemma new_cmd_calmly c w : calmly w (new_cmd c w).2.
Proof. done. Qed.

Lemma deliver_task_client_calm o cmd t cl w :
  points_set w -> w.(wk).(CBQueue) = true -> known cl -> (deliver_task_client wf o cmd t cl w).1.(crashed) = w.(crashed).
Proof.
  intros Hp Hq Hk. unfold deliver_task_client. destruct (Hp _ Hk) as [p Ep]. cbv zeta.
  destruct (update_task_calmly t.(tk).(t_ID) (mkDelivery cl PendingDeliver) w) as [[C1 Q1] P1].
  generalize dependent (update_task t.(tk).(t_ID) (mkDelivery cl PendingDeliver) w). intros w1 C1 Q1 P1.
  assert (point (GetClientName cl) w1 = Some p) as -> by (by rewrite <- P1 in Ep).
  destruct (nextCmdID_calmly w1) as [C2 Q2]. destruct (nextCmdID w1) as [id w2]. cbn [snd] in C2, Q2.
  match goal with |- context [new_cmd ?c w2] =>
    destruct (new_cmd_calmly c w2) as [C3 Q3]; destruct (new_cmd c w2) as [i w3] end. cbn [snd] in C3, Q3.
  destruct (Atoi _) as [cid|]; [|simpl; congruence].
  destruct (deliverTaskToClient_calmly o (kairos w3) (mkPoint cid ClientPoint cl 0) i w3) as [Hd _]; [congruence|].
  revert Hd. generalize (deliverTaskToClient wf o (kairos w3) (mkPoint cid ClientPoint cl 0) i w3).
  intros [w4 e]; simpl. congruence.
Qed.

Lemma push_round_calm o cmd cur rest w :
  points_set w -> w.(wk).(CBQueue) = true -> w.(crashed) = false -> run_part (OPush cmd cur rest) ->
  (push_round wf o cmd cur rest w).1.(crashed) = false /\ Forall run_part (push_round wf o cmd cur rest w).2.
Proof.
  intros Hp Hq Hc [Hr Hcur]. destruct cur as [[t [|cl cls]]|]; cbn in Hcur |- *.
  - split; [done|]. by repeat constructor.
  - apply Forall_cons in Hcur as [Hk Hcur]. pose proof (deliver_task_client_calm o cmd t cl w Hp Hq Hk) as Hd.
    destruct (deliver_task_client wf o cmd t cl w) as [w1 ok]. cbn in *. split; [congruence|].
    destruct ok; by repeat constructor.
  - destruct rest as [|t rest]; [done|]. apply Forall_cons in Hr as [Ht Hr].
    case_bool_decide; [|case_bool_decide; split; [done|by repeat constructor..]].
    unfold push_pubsub. destruct (payload_parse _); [|done]. case_bool_decide; split; [done|by repeat constructor..].
Qed.

Lemma subscribe_clients_calm oks subs w : (subscribe_clients oks subs w).1.(crashed) = w.(crashed).
Proof.
  revert oks w. induction subs as [|[d cid] subs IH]; intros oks w; [done|]. cbn. destruct oks as [|[] oks]; by rewrite ?IH.
Qed.

Lemma subscribe_calm o w : (subscribe wf o w).1.(crashed) = w.(crashed).
Proof.
  unfold subscribe. set (ok1 := hd true _). set (ok2 := hd true _).
  destruct ok1, ok2, (client_subs wf); try done; by rewrite subscribe_clients_calm.
Qed.

Lemma exec_calm o x w w1 ops :
  clients_known = true -> points_set w -> w.(wk).(CBQueue) = true -> w.(eventClosed) = false -> w.(crashed) = false ->
  run_part x -> exec wf o x w = Some (w1, ops) -> w1.(crashed) = false /\ Forall run_part ops.
Proof.
  intros Hk Hp Hq Ho Hc Hx He. destruct x; try done; cbn [exec] in He; rewrite ?Ho in He; try done.
  - by simplify_eq.
  - by simplify_eq.
  - injection He as He1. pose proof (clients_known_tasks Hk). unfold check_delivered, logWorkflow in He1.
    destruct (allDelivered _), (o_insert o); simplify_eq; by repeat constructor.
  - injection He as He1. pose proof (push_round_calm o cmd cur rest w Hp Hq Hc Hx). by rewrite He1 in *.
  - by destruct c.
Qed.

(** The goroutine of [Run] after one of its operations, which did not panic. *)
Lemma run_state_exec o x k w w1 ops :
  clients_known = true -> w.(eventClosed) = false -> w.(crashed) = false -> kept w w1 ->
  run_state w (x :: k) -> exec wf o x w = Some (w1, ops) -> w1.(crashed) = false /\ run_state w1 (ops ++ k).
Proof.
  intros Hk Ho Hc Hw [He|[Hp [Ht|[Hq Hf]]]] Hx.
  - unfold early in He. rewrite !elem_of_cons in He.
    destruct He as [?|[?|[?|[?|[?|[?|[]%elem_of_nil]]]]]]; simplify_eq; cbn [exec] in Hx.
    + injection Hx as Hx. destruct (o_conn o); simplify_eq; split; try done; by left; repeat constructor.
    + pose proof (subscribe_calm o w) as Hs. destruct (subscribe wf o w) as [w2 ok]. cbn in Hs. simplify_eq.
      split; [congruence|]. destruct ok; by left; repeat constructor.
    + injection Hx as Hx. destruct (o_conn o); simplify_eq; split; try done; left; by repeat constructor.
    + injection Hx as Hx. destruct (o_conn o); simplify_eq; split; try done; left; by repeat constructor.
    + injection Hx as Hx. simplify_eq. split; [done|]. right. split; [|by left].
      intros q Hin. apply (insert_all_some (point_list wf) w.(wk).(points)). by right.
  - simplify_eq. cbn [exec] in Hx. simplify_eq. split; [done|]. right. split; [by intros q Hq%Hp%(ke_points _ _ Hw)|].
    right. split; [done|by repeat constructor].
  - apply Forall_cons in Hf as [Hx1 Hf]. destruct (exec_calm o x w w1 ops) as [H1 H2]; [done..|]. split; [done|].
    right. split; [by intros q Hin%Hp%(ke_points _ _ Hw)|]. right. split; [by apply (ke_queue _ _ Hw)|].
    by apply Forall_app.
Qed.

(** The step is one of [Run]'s goroutine. *)
Definition in_run w w' : Prop :=
  (exists o, run_thread wf 0 o w = Some w') \/ (exists j, j <> 0%nat /\ communicate wf j 0 w = Some w').

Definition run_calm w : Prop := exists th, w.(threads) !! 0%nat = Some th /\ run_state w th.

Lemma run_state_tail w x k : run_state w (x :: k) -> (exists (c : chan) pk, x = OSend c pk) -> run_state w k.
Proof.
  intros [He|[Hp [Ht|[Hq Hf]]]] (c & pk & ->).
  - unfold early in He. rewrite !elem_of_cons in He. by destruct He as [?|[?|[?|[?|[?|[?|[]%elem_of_nil]]]]]].
  - done.
  - right. split; [done|]. right. split; [done|]. by apply Forall_cons in Hf as [_ Hf].
Qed.

(** A meeting in which [Run]'s goroutine receives: an event, not a deletion. *)
Lemma run_state_receive w x k (c : chan) pk w1 ops :
  apart None true (OSend c pk) -> run_state w (x :: k) -> receive wf x c pk w = Some (w1, ops) ->
  w1 = w /\ run_state w (ops ++ k).
Proof.
  intros Ha Hs He. assert (x = ORunLoop) as ->.
  { destruct Hs as [Hs|[_ [[= -> ->]|[_ [Hx _]%Forall_cons]]]]; [|done|by destruct x].
    unfold early in Hs. rewrite !elem_of_cons in Hs.
    destruct Hs as [?|[?|[?|[?|[?|[?|[]%elem_of_nil]]]]]]; by simplify_eq. }
  destruct c; try done. destruct pk; try done. cbn in He. injection He as <- <-. split; [done|].
  destruct Hs as [Hs|[Hp [Ht|[Hq Hf]]]]; [|done|].
  - unfold early in Hs. rewrite !elem_of_cons in Hs. by destruct Hs as [?|[?|[?|[?|[?|[?|[]%elem_of_nil]]]]]].
  - right. split; [done|]. right. split; [done|]. apply Forall_cons in Hf as [_ Hf]. apply Forall_app. split; [|done].
    unfold handle_event. rewrite bool_decide_eq_false_2 by by apply Ha.
    repeat case_bool_decide; by repeat constructor.
Qed.

(** A step of [Run]'s goroutine does not panic and leaves it in order. *)
Lemma in_run_calm w w' :
  clients_known = true -> rtc undisturbed (NewWorker wf now) w -> run_calm w -> undisturbed w w' -> in_run w w' ->
  w'.(crashed) = false /\ run_calm w'.
Proof.
  intros Hk Hr (th & Hi & Hs) Hu Hin. destruct (undisturbed_guarded w Hr) as [Hg Ho].
  pose proof (undisturbed_kept w w' Hg Hu) as Hke. pose proof (undisturbed_reachable w Hr) as Hr'.
  destruct Hin as [[o Hrun]|(j & Hj & Hc)].
  - destruct (run_at w o w' th Hr' Hi Hrun) as (x & k & ops & w1 & -> & He & Hi').
    unfold run_thread in Hrun. destruct (crashed w) eqn:Hcr; [done|]. rewrite Hi, He in Hrun. cbn in Hrun.
    injection Hrun as <-. destruct (run_state_exec o x k w w1 ops) as [H1 H2]; [done..|by destruct Hke|done|done|].
    split; [done|]. by exists (ops ++ k).
  - destruct (meet_at w w' th j Hi Hj (or_intror Hc)) as (x & k & th' & -> & Hi' & Hm).
    unfold communicate in Hc. destruct (crashed w) eqn:Hcr; [done|]. rewrite Hi in Hc.
    destruct (threads w !! j) as [[|[] k']|] eqn:Hj'; try done.
    destruct (receive wf x _ _ w) as [[w1 ops]|] eqn:He; [|done]. cbn in Hc. injection Hc as <-.
    destruct (guarded_tail _ _ _ _ _ _ _ _ Hg Hj') as [Hsend _]; [done|].
    destruct (run_state_receive w x k _ _ w1 ops Hsend Hs He) as [-> H2]. split; [done|].
    exists (ops ++ k). split; [|exact H2]. cbn. rewrite list_lookup_insert_ne by done.
    apply list_lookup_insert_eq. by eapply lookup_lt_Some.
Qed.

Lemma run_calm_step w w' :
  clients_known = true -> rtc undisturbed (NewWorker wf now) w -> run_calm w -> undisturbed w w' -> run_calm w'.
Proof.
  intros Hk Hr Hca Hu. pose proof Hca as (th & Hi & Hs). destruct (undisturbed_guarded w Hr) as [Hg Ho].
  pose proof (undisturbed_kept w w' Hg Hu) as Hke.
  destruct (step_at wf now w w' 0 th (undisturbed_reachable w Hr) (proj1 Hu) Hi) as [Hrun|[(j & Hj & [Hc|Hc])|Hsame]].
  - eapply in_run_calm; [done..|by left].
  - destruct (meet_at w w' th j Hi Hj (or_introl Hc)) as (x & k & th' & -> & Hi' & Hm).
    unfold communicate in Hc. destruct (crashed w); [done|]. rewrite Hi in Hc. destruct x; try done.
    destruct Hm as [(c' & pk & _ & ->)|(c' & pk & k' & w2 & ops & _ & He & _)]; [|done].
    exists k. split; [done|]. eapply run_state_kept; [done|]. eapply run_state_tail; [done|]. by eexists _, _.
  - eapply in_run_calm; [done..|right; by exists j].
  - exists th. split; [done|]. by eapply run_state_kept.
Qed.

(** As long as nobody destroys a worker whose tasks have known clients, no step
    of [Run]'s own goroutine panics. *)
Theorem run_never_panics w w' :
  clients_known = true -> rtc undisturbed (NewWorker wf now) w -> undisturbed w w' -> in_run w w' ->
  w'.(crashed) = false.
Proof.
  intros Hk Hr Hu Hin. eapply in_run_calm; [done|done| |done|done]. revert w Hr Hu Hin. intros w Hr _ _. revert w Hr.
  apply (rtc_ind_r (fun w => run_calm w)).
  - exists [OConnect]. split; [done|]. left. unfold early. set_solver.
  - intros w1 w2 Hr1 Hst IH. by eapply run_calm_step.
Qed.

(** A worker serves until it is destroyed.  As long as nobody calls
    [Destroy], once [Run] got to its loop over the events it goes back to it
    after every event: in every later state the loop is still the last thing the
    goroutine has to do, whatever messages, time-outs, triggers, retries and
    recoveries happen. *)
Theorem worker_serves_until_destroyed w w' th :
  rtc undisturbed (NewWorker wf now) w -> w.(threads) !! 0%nat = Some th -> last th = Some ORunLoop ->
  rtc undisturbed w w' ->
  exists th', w'.(threads) !! 0%nat = Some th' /\ last th' = Some ORunLoop.
Proof.
  intros Hr Hi Hl Hst. assert (Hs : serving w) by (split; [done|by exists th]). clear Hr Hi Hl.
  induction Hst as [w|w w1 w' Hs1 _ IH]; [apply Hs|]. by apply IH, (serving_step w).
Qed.

(** C32: a workflow with a task that publishes stops when it is set up.  Once
    everything was delivered, [Run] starts the tasks from its own goroutine;
    for a publishing task it sends itself an event over an unbuffered channel
    whose only receiver it is.  From then on, whatever else happens, [Run] never
    gets back to its loop: it handles no event any more, not even the deletion
    of the worker. *)
Theorem publishing_task_blocks_worker w o w1 w' t rest k maps :
  reachable wf now w ->
  w.(threads) !! 0%nat = Some (OPush TriggerStartTaskCmd None (t :: rest) :: k) ->
  t.(tk).(t_Executor) = PubSubTask -> payload_parse t.(tk).(t_Payload) = Some maps ->
  run_thread wf 0 o w = Some w1 -> rtc (step wf) w1 w' ->
  w'.(crashed) = true \/
  exists e, w'.(threads) !! 0%nat = Some (OSend ChEvent (PkEvent e) :: OPush TriggerStartTaskCmd None rest :: k).
Proof.
  intros Hr Hi Hx Hp Hrun Hst.
  assert (Hr1 : reachable wf now w1).
  { eapply reachable_steps; [exact Hr|]. apply rtc_once. by eapply step_run. }
  assert (Hi1 : exists e, w1.(threads) !! 0%nat =
    Some (OSend ChEvent (PkEvent e) :: OPush TriggerStartTaskCmd None rest :: k)).
  { unfold run_thread in Hrun. rewrite Hi in Hrun. destruct (crashed w); [done|]. cbn in Hrun.
    rewrite bool_decide_eq_true_2 in Hrun by done. unfold push_pubsub in Hrun. rewrite Hp in Hrun. cbn in Hrun.
    simplify_eq. cbn. eexists. rewrite list_lookup_insert_eq; [done|]. by apply lookup_lt_Some in Hi. }
  destruct Hi1 as [e Hi1]. destruct (event_send_blocks w1 w' _ _ Hr1 Hi1 Hst); [by left|]. right. by eexists.
Qed.

(** A goroutine that starts to wait on a channel it just made, of which nobody
    else got hold, waits for ever. *)
Lemma never_answered w w1 w' n i x k :
  reachable wf now w -> (w.(next) <= n < w1.(next))%nat -> waits_for n x ->
  grows wf (Some n) false w w1 -> (i < length w1.(threads))%nat ->
  reachable wf now (put_threads (<[i := x :: k]> w1.(threads)) w1) ->
  rtc (step wf) (put_threads (<[i := x :: k]> w1.(threads)) w1) w' -> w'.(threads) !! i = Some (x :: k).
Proof.
  intros Hr Hn Hx Hg Hi Hr2 Hst. eapply (abandoned wf now n); [exact Hr2| |exact Hx| | |exact Hst].
  - cbn. lia.
  - cbn. by rewrite list_lookup_insert_eq.
  - apply guarded_put; [|congruence]. apply (guarded_grows wf (Some n) false _ _ w); [by intros y []| |exact Hg].
    destruct (reachable_apart wf now n w Hr) as [H1 H2 H3]; [lia|]. split; [|done..].
    intros j th Hj _. by apply (H1 j).
Qed.

Lemma run_reachable i o w w1 : reachable wf now w -> run_thread wf i o w = Some w1 -> reachable wf now w1.
Proof. intros Hr Hrun. eapply reachable_steps; [exact Hr|]. apply rtc_once. by eapply step_run. Qed.

(** [RunBroker] makes the channel and hands it to the goroutine it starts. *)
Lemma RunBroker_shape dv b input t w :
  exists w3, (forall ch, grows wf ch false w w3) /\ w3.(next) = S (S w.(next)) /\
    (RunBroker wf dv b input t w = (crash w3, []) \/
     exists p r req inp, RunBroker wf dv b input t w =
       (spawn [OProcess dv b p r req inp (Some (S w.(next)))] w3, [OWaitResult (S w.(next))])).
Proof.
  unfold RunBroker. cbn zeta.
  assert (H1 : forall ch, grows wf ch false w (getGroup wf w).2) by (intros; apply grows_getGroup, grows_refl).
  assert (Hn1 : next (getGroup wf w).2 = next w) by done.
  destruct (getGroup wf w) as [g wa]. cbn in H1, Hn1.
  assert (H2 : forall ch, grows wf ch false w (getPart wf "" 0 0 wa).2) by (intros; by apply grows_getPart).
  assert (Hn2 : next (getPart wf "" 0 0 wa).2 = next wa) by done.
  destruct (getPart wf "" 0 0 wa) as [s wb]. cbn in H2, Hn2.
  match goal with |- context [new_cmd ?cc wb] =>
    assert (H3 : forall ch, grows wf ch false w (new_cmd cc wb).2) by (intros; by apply grows_new_cmd);
    assert (Hn3 : next (new_cmd cc wb).2 = S (next wb)) by done;
    destruct (new_cmd cc wb) as [q wc] end. cbn in H3, Hn3.
  assert (H4 : forall ch, grows wf ch false w (fresh wc).2) by (intros; by apply grows_fresh).
  assert (Hn4 : next (fresh wc).2 = S (next wc) /\ (fresh wc).1 = next wc) by done.
  destruct (fresh wc) as [m wd]. cbn in H4, Hn4. destruct Hn4 as [Hn4 ->].
  exists wd. split_and!; [done|congruence|]. destruct (point _ _) as [p|]; [right|by left].
  exists p. do 3 eexists. by rewrite Hn3, Hn2, Hn1.
Qed.

(** Triggering a broker that has endpoints blocks the goroutine that does
    it.  [RunBroker] waits for an answer on a channel of its own, but
    [processBroker] answers only from the branch without endpoints; nobody else
    has the channel, so the goroutine (the loop over scheduled triggers, or the
    subscription to triggers) waits for ever. *)
Theorem endpoint_broker_never_answers w i o w1 w' dv b input t k :
  reachable wf now w -> has_endpoints b = true ->
  w.(threads) !! i = Some (ORunBroker dv b input t :: k) ->
  run_thread wf i o w = Some w1 -> rtc (step wf) w1 w' ->
  w'.(crashed) = true \/ exists n, w'.(threads) !! i = Some (OWaitResult n :: k).
Proof.
  intros Hr Hb Hi Hrun Hst. pose proof (run_reachable _ _ _ _ Hr Hrun) as Hr1.
  assert (Hlen : (i < length (threads w))%nat) by by apply lookup_lt_Some in Hi.
  unfold run_thread in Hrun. rewrite Hi in Hrun. destruct (crashed w); [done|]. cbn [exec] in Hrun.
  destruct (RunBroker_shape dv b input t w) as (w3 & Hg & Hn & Hshape).
  destruct (RunBroker wf dv b input t w) as [w4 ops]. cbn in Hrun. injection Hrun as <-.
  destruct Hshape as [[= -> ->]|(p & r & req & inp & [= -> ->])].
  - left. inversion Hst as [|? ? ? Hs _]; [by subst|]. by apply crashed_stops in Hs.
  - right. exists (S (next w)). eapply never_answered; [exact Hr| |by right| | |exact Hr1|exact Hst].
    + cbn. lia.
    + apply grows_spawn; [|apply Hg]. apply Forall_singleton. split; [done|by left].
    + cbn. rewrite length_app. destruct (Hg None) as [(new & -> & _) _ _ _ _ _]. rewrite length_app. lia.
Qed.

(** A synchronous message that cannot be handled is never answered and
    blocks all later ones.  When its group is empty or its sender unknown,
    [computeMsg] returns without using the result channel, while the
    subscription waits on it: the goroutine of the subscription takes no other
    message, whatever happens. *)
Theorem sync_message_blocks_subscription w i o w1 w' r err k :
  reachable wf now w -> w.(threads) !! i = Some (ONatsSync :: k) ->
  reply_parse o.(o_data) = (r, err) -> dropped_sync wf r err = false ->
  r.(r_Group) = "" \/ point r.(r_RunOn) w = None ->
  run_thread wf i o w = Some w1 -> rtc (step wf) w1 w' ->
  exists n, w'.(threads) !! i = Some (ORespond n :: ONatsSync :: k).
Proof.
  intros Hr Hi Hparse Hd Hbad Hrun Hst. pose proof (run_reachable _ _ _ _ Hr Hrun) as Hr1.
  unfold run_thread in Hrun. rewrite Hi in Hrun. destruct (crashed w); [done|]. cbn [exec] in Hrun.
  unfold reciveMessageSync in Hrun. rewrite Hparse, Hd in Hrun. cbn in Hrun.
  assert (Hlen : (i < length (threads w))%nat) by by apply lookup_lt_Some in Hi.
  set (n := S (next w)).
  match type of Hrun with context [computeMsg wf ?r ?q ?ch ?wx] =>
    assert (Hc : exists g, computeMsg wf r q ch wx = (on_cmd q g wx, []) /\ forall c, budget (g c) <= budget c);
    [|set (wy := wx) in *] end.
  { unfold computeMsg. destruct Hbad as [Hg|Hs].
    - exists id. split; [|done]. rewrite bool_decide_eq_true_2 by done. unfold on_cmd. cbn. f_equal.
      unfold put_cmds. cbn. by rewrite alter_id.
    - case_bool_decide; [|].
      + exists id. split; [|done]. unfold on_cmd, put_cmds. cbn. by rewrite alter_id.
      + eexists. split; [cbn; unfold point in *; cbn in *; by rewrite Hs|]. intros []. unfold budget. cbn. lia. }
  destruct Hc as (g & Hc & Hb). rewrite Hc in Hrun. cbn in Hrun. injection Hrun as <-.
  exists n. eapply never_answered; [exact Hr| |by left| | |exact Hr1|exact Hst].
  - cbn. subst n. lia.
  - apply (grows_on_cmd wf (Some n) false); [exact Hb|]. apply (grows_fresh wf (Some n) false w (new_cmd _ (nextCmdID w).2).2).
    apply grows_new_cmd, grows_nextCmdID, grows_refl.
  - done.
Qed.

(** ** Parts *)

Lemma part_key_inj x y i j t u :
  part_key (part_name wf x) i t = part_key (part_name wf y) j u -> x = y /\ i = j /\ t = u.
Proof.
  unfold part_key, part_name. intros H. apply (f_equal explode) in H. rewrite !explode_app in H.
  rewrite <- !app_assoc in H. apply app_inv_head in H. apply app_inv_head in H. apply app_inv_head in H.
  cbn in H. apply number_split in H as [-> H]; [|by intros []].
  apply number_split in H as [-> H]; [|by intros []]. split_and!; [done..|].
  by apply (inj pretty), explode_inj.
Qed.

Lemma reachable_parts w : reachable wf now w -> parts_ok wf w.
Proof.
  unfold reachable. revert w. apply rtc_ind_r.
  - split; cbn; [intros k s|intros k1 k2 s]; by rewrite lookup_empty.
  - intros w w' Hr Hst IH. by apply (reachable_step wf now w w' Hr Hst).
Qed.

(** The parts of messages identify the way they took.  However the worker
    got where it is, two deliveries from issued parts get the same part exactly
    when they start from the same part and go to the same point; and a part is
    given again when it is asked for again. *)
Theorem parts_identify_deliveries w x i t y j u :
  reachable wf now w ->
  let '(s1, w1) := getPart wf (part_name wf x) i t w in
  let '(s2, _) := getPart wf (part_name wf y) j u w1 in
  s1 = s2 <-> x = y /\ i = j /\ t = u.
Proof.
  intros Hr. pose proof (reachable_parts w Hr) as Hp.
  assert (Hne : forall x, part_name wf x <> "") by done.
  assert (Hget : forall x i t w, parts_ok wf w -> let '(s, w') := getPart wf (part_name wf x) i t w in
    parts_ok wf w' /\ w'.(wk).(flowMap) !! part_key (part_name wf x) i t = Some s /\
    forall k s', w.(wk).(flowMap) !! k = Some s' -> w'.(wk).(flowMap) !! k = Some s').
  { intros x' i' t' w0 Hp0.
    pose proof (gr_parts _ _ _ _ _ (grows_getPart wf None false (part_name wf x') i' t' w0 w0 (grows_refl _ _ _ w0)) Hp0) as H1.
    unfold getPart in *. rewrite bool_decide_eq_false_2 in * by done.
    destruct (flowMap (wk w0) !! _) eqn:Hf; [by split_and!|]. cbn in *. split_and!; [done|apply lookup_insert_eq|].
    intros k s' Hk. rewrite lookup_insert_ne; [done|]. congruence. }
  pose proof (Hget x i t w Hp) as H1. destruct (getPart wf (part_name wf x) i t w) as [s1 w1].
  destruct H1 as (Hp1 & Hs1 & _).
  pose proof (Hget y j u w1 Hp1) as H2. destruct (getPart wf (part_name wf y) j u w1) as [s2 w2].
  destruct H2 as (Hp2 & Hs2 & Hk). apply Hk in Hs1. split.
  - intros ->. apply part_key_inj. by eapply (po_inj wf w2).
  - intros (-> & -> & ->). congruence.
Qed.

(** ** Retries *)

Definition sends (i : nat) (s : sent) : bool :=
  match s with SentCmd j _ => bool_decide (j = i) | _ => false end.
Definition will_send (i : nat) (th : list op) : bool :=
  existsb (fun x => match x with ORetryTimer e => bool_decide (e.(de_Msg) = i) | _ => false end) th.

(** How often the command [i] was sent, or is about to be after a delay. *)
Definition resends (i : nat) w : nat :=
  length (List.filter (sends i) w.(out)) + length (List.filter (will_send i) w.(threads)).

Lemma resends_spawn i th w :
  resends i (spawn th w) = (resends i w + if will_send i th then 1 else 0)%nat.
Proof.
  unfold resends, spawn. cbn. rewrite List.filter_app, length_app. cbn. destruct (will_send i th); cbn; lia.
Qed.

Lemma resends_emit i s w : resends i (emit s w) = (resends i w + if sends i s then 1 else 0)%nat.
Proof. unfold resends, emit. cbn. rewrite List.filter_app, length_app. cbn. destruct (sends i s); cbn; lia. Qed.

Lemma resends_monitor i o cmd data w : resends i (monitor o cmd data w) = resends i w.
Proof. unfold monitor. case_match; [|done]. rewrite resends_emit. cbn. lia. Qed.

Lemma resends_log i o f rv m a bg w : resends i (logMessageFlowReply wf o f rv m a bg w) = resends i w.
Proof.
  unfold logMessageFlowReply. destruct (reply_flow _ _ _ _ _ _ _); [|done]. cbn zeta.
  repeat (case_match; rewrite ?resends_monitor); done.
Qed.

Lemma cmds_log o f rv m a bg w : (logMessageFlowReply wf o f rv m a bg w).(cmds) = w.(cmds).
Proof.
  unfold logMessageFlowReply, monitor. destruct (reply_flow _ _ _ _ _ _ _); [|done]. cbn zeta.
  repeat case_match; done.
Qed.

Lemma resends_async i o rv cmd cb w :
  (resends i (deliverAsync o rv cmd cb w).1 <= S (resends i w))%nat /\
  (deliverAsync o rv cmd cb w).1.(cmds) = w.(cmds).
Proof.
  unfold deliverAsync, deliver. cbn zeta.
  destruct (if bool_decide _ then _ else _) as [c1 w1] eqn:H1.
  assert (Hw : resends i w1 = resends i w /\ cmds w1 = cmds w)
    by (case_bool_decide; unfold nextCmdID in H1; cbn in H1; by simplify_eq).
  destruct Hw as [Hw Hc]. destruct (cmd_json c1); [|cbn; split; [unfold resends in *; cbn in *; lia|done]].
  destruct (_ && _); cbn [fst]; (split; [|done]).
  - rewrite resends_spawn, resends_emit.
    assert (resends i (addRequest (c_DeliverID c1) cb w1) = resends i w1) as -> by done.
    cbn [will_send existsb sends orb]. rewrite Hw. destruct (bool_decide (cmd = i)); lia.
  - assert (resends i (addRequest (c_DeliverID c1) cb w1) = resends i w1) as -> by done. lia.
Qed.

Lemma store_if i (b : bool) s w :
  resends i (if b then store s w else w) = resends i w /\ cmds (if b then store s w else w) = cmds w.
Proof. by destruct b. Qed.

(** One failure spends what it sends. *)
Lemma retry_spends o rec e w c :
  w.(cmds) !! e.(de_Msg) = Some c ->
  let w' := handleRetryDeliver wf o rec e w in
  exists c', w'.(cmds) !! e.(de_Msg) = Some c' /\
    Z.of_nat (resends e.(de_Msg) w') + budget c' <= Z.of_nat (resends e.(de_Msg) w) + budget c.
Proof.
  intros Hc w'. assert (Hat : cmd_at (de_Msg e) w = c) by (unfold cmd_at; by rewrite Hc).
  subst w'. unfold handleRetryDeliver. rewrite Hat. destruct (c_Retry c) as [rt|] eqn:Hrt.
  - unfold retry_again. rewrite Hat. destruct (3 <? c_Attempt c) eqn:H3; [exists c; split; [done|lia]|].
    destruct (if bool_decide (rt_ID rt = 0) then _ else _) as [id|]; [|exists c; split; [done|lia]].
    assert (Hb : budget c = budget (put_c_Retry (Some (mkRetry id (rt_Attempt rt + 1)))
              (put_c_Attempt (c_Attempt c + 1) c)) + 1) by (unfold budget; rewrite Hrt; cbn; lia).
    assert (Hl : alter (fun c0 => put_c_Retry (Some (mkRetry id (rt_Attempt rt + 1)))
       (put_c_Attempt (c_Attempt c0 + 1) c0)) (de_Msg e) (cmds w) !! de_Msg e =
       Some (put_c_Retry (Some (mkRetry id (rt_Attempt rt + 1))) (put_c_Attempt (c_Attempt c + 1) c)))
      by (by rewrite lookup_alter_eq, Hc).
    eexists. destruct (o_update o); cbn zeta; cbn [negb]; [|split; [exact Hl|unfold resends in *; cbn in *; lia]].
    destruct (o_update2 o); cbn zeta; cbn [negb]; [|split; [exact Hl|unfold resends in *; cbn in *; lia]].
    split; [exact Hl|]. rewrite resends_spawn. cbn [will_send existsb]. rewrite bool_decide_eq_true_2 by done. cbn [orb].
    unfold resends in *. cbn in *. lia.
  - unfold retry_first. rewrite Hat. cbn zeta.
    match goal with |- context [logMessageFlowReply wf ?o ?a ?b ?m ?d ?g ?wx] =>
      pose proof (resends_log (de_Msg e) o a b m d g wx) as Hw; pose proof (cmds_log o a b m d g wx) as Hcw;
      revert Hw Hcw; generalize (logMessageFlowReply wf o a b m d g wx); intros wl Hw Hcw end.
    rewrite (proj1 (store_if _ _ _ _)) in Hw. rewrite (proj2 (store_if 0 _ _ _)) in Hcw. destruct (o_read o); cbn [negb];
      [|exists c; rewrite Hcw; split; [done|lia]].
    match goal with |- context [let '(_, _) := ?t in _] => destruct t as [id w2] eqn:Hid end.
    assert (Hw2 : resends (de_Msg e) w2 = resends (de_Msg e) w /\ cmds w2 = cmds w).
    { destruct (GetWorkflowRecord _ _); [by injection Hid as <- <-|]. unfold logWorkflow in Hid.
      destruct (saved_json _); [|by injection Hid as <- <-]. destruct (o_insert o); by injection Hid as <- <-. }
    destruct Hw2 as [Hw2 Hc2].
    assert (Hx : forall f, resends (de_Msg e) (on_cmd (de_Msg e) f w2) = resends (de_Msg e) w2) by done.
    match goal with |- context [deliverAsync ?o ?a ?b ?cb ?wx] =>
      destruct (resends_async (de_Msg e) o a b cb wx) as [Ha Hca];
      destruct (deliverAsync o a b cb wx) as [wz er] end.
    cbn [fst cmds on_cmd put_cmds de_Msg] in *. rewrite Hx, Hw2 in Ha.
    eexists. rewrite Hca, Hc2, lookup_alter_eq, Hc. split; [done|]. unfold budget. rewrite Hrt. cbn [c_Retry c_Attempt put_c_DeliverID put_c_Retry put_c_Attempt].
    lia.
Qed.

(** The closure that handles a failed delivery spends what it sends. *)
Lemma retry_job_spends o e w c :
  w.(cmds) !! e.(de_Msg) = Some c ->
  exists c', (retryDeliver wf o e w).(cmds) !! e.(de_Msg) = Some c' /\
    Z.of_nat (resends e.(de_Msg) (retryDeliver wf o e w)) + budget c' <= Z.of_nat (resends e.(de_Msg) w) + budget c.
Proof.
  intros Hc. unfold retryDeliver. cbn zeta.
  repeat case_bool_decide; try destruct (c_Task _); try destruct (c_Broker _);
    try (exists c; split; [exact Hc|unfold resends; cbn; lia]);
    match goal with |- context [handleRetryDeliver wf o ?rec ?e' w] => exact (retry_spends o rec e' w c Hc) end.
Qed.

Lemma filter_insert {A} (f : A -> bool) l t x y :
  l !! t = Some y -> f x = f y -> length (List.filter f (<[t := x]> l)) = length (List.filter f l).
Proof.
  intros Hl Hf. revert t Hl. induction l as [|z l IH]; intros [|t] Hl; try done; cbn in *.
  - injection Hl as ->. rewrite Hf. by destruct (f y).
  - destruct (f z); cbn; by rewrite IH.
Qed.

(** A run of the worker in which the failed deliveries of the command [i] that
    are handled send it [n] times: the steps of [rt_failed], which are the runs of
    the closure [retryDeliver] queues for such a failure, are counted, and any
    other step may come in between. *)
Inductive retries (i : nat) : world -> nat -> world -> Prop :=
| rt_done w : retries i w 0 w
| rt_step w w1 n w' : step wf w w1 -> retries i w1 n w' -> retries i w n w'
| rt_failed t o e k w w1 n w' :
    w.(threads) !! t = Some (ORetryJob e :: k) -> e.(de_Msg) = i -> run_thread wf t o w = Some w1 ->
    retries i w1 n w' -> retries i w (resends i w1 - resends i w + n) w'.

(** Such a step. *)
Lemma failed_spends i t o e k w w1 c :
  w.(threads) !! t = Some (ORetryJob e :: k) -> e.(de_Msg) = i -> run_thread wf t o w = Some w1 ->
  cmds_ok w -> w.(cmds) !! i = Some c ->
  exists c', w1.(cmds) !! i = Some c' /\ Z.of_nat (resends i w1 - resends i w) + budget c' <= budget c.
Proof.
  intros Ht <- Hrun Hok Hc. unfold run_thread in Hrun. destruct (crashed w); [done|]. rewrite Ht in Hrun.
  cbn in Hrun. injection Hrun as <-. destruct (retry_job_spends o e w c Hc) as (c' & Hc' & Hle).
  pose proof (grows_retryDeliver wf None false o e w w (grows_refl wf None false w)) as Hg.
  exists c'. split; [exact Hc'|].
  assert (Hk : resends (de_Msg e) (put_threads (<[t := k]> (threads (retryDeliver wf o e w))) (retryDeliver wf o e w)) =
               resends (de_Msg e) (retryDeliver wf o e w)).
  { unfold resends. cbn. f_equal. eapply filter_insert; [by eapply grows_keeps|]. done. }
  destruct (proj2 (gr_cmds _ _ _ _ _ Hg Hok) _ _ Hc) as (c2 & Hc2 & Hb). rewrite Hc' in Hc2. injection Hc2 as <-.
  rewrite Hk. lia.
Qed.

Lemma reachable_cmds w : reachable wf now w -> cmds_ok w.
Proof.
  unfold reachable. revert w. apply rtc_ind_r.
  - intros i c Hi. cbn in Hi. by apply lookup_empty_Some in Hi.
  - intros w w' Hr Hst IH. by apply (reachable_step wf now w w' Hr Hst).
Qed.

(** C31: in every run of the worker, whatever its other goroutines do in between
    and whatever the database answers, the handling of the failed deliveries of a
    message sends it again at most [4 - Attempt] times (and once, when it was never
    retried): at most three times for a message that was sent as usual, whose
    [Attempt] is at least 1, and at most four times for one with [Attempt] 0, such as
    those [syncData] makes.  Each failure that sends the message spends one of its
    attempts, no other step gives one back, and the message of the fourth attempt
    is given up. *)
Theorem retries_bounded i w n w' c :
  reachable wf now w -> w.(cmds) !! i = Some c -> retries i w n w' ->
  Z.of_nat n <= Z.max 1 (4 - c.(c_Attempt)).
Proof.
  intros Hr Hc Hrun. transitivity (budget c); [|unfold budget; case_match; lia].
  revert c Hr Hc. induction Hrun as [w|w w1 n w' Hst _ IH|t o e k w w1 n w' Ht He Hx _ IH]; intros c Hr Hc.
  - unfold budget. case_match; lia.
  - destruct (reachable_step wf now w w1 Hr Hst) as (_ & _ & _ & _ & Hs).
    destruct (proj2 (Hs (reachable_cmds w Hr)) i c Hc) as (c' & Hc' & Hb).
    specialize (IH c' (reachable_steps wf now w w1 Hr (rtc_once _ _ Hst)) Hc'). lia.
  - destruct (failed_spends i t o e k w w1 c Ht He Hx (reachable_cmds w Hr) Hc) as (c' & Hc' & Hb).
    assert (Hst : step wf w w1) by (by eapply step_run).
    specialize (IH c' (reachable_steps wf now w w1 Hr (rtc_once _ _ Hst)) Hc'). lia.
Qed.

(** ** Deliveries that share a command *)

Lemma push_keeps job w :
  (push job w).(cmds) = w.(cmds) /\ (push job w).(wk) = w.(wk) /\ (push job w).(out) = w.(out) /\
  (push job w).(threads) = w.(threads).
Proof. unfold push. by destruct (CBQueue _). Qed.

(** What sending a numbered command leaves behind. *)
Lemma async_effect o rv i cb w c :
  w.(cmds) !! i = Some c -> c.(c_DeliverID) <> 0 ->
  let w' := (deliverAsync o rv i cb w).1 in
  w'.(cmds) = w.(cmds) /\ w'.(wk).(requests) = <[c.(c_DeliverID) := cb]> w.(wk).(requests) /\
  w'.(wk).(points) = w.(wk).(points) /\
  (exists l, w'.(out) = w.(out) ++ l /\ forall c', SentCmd i c' ∈ l -> c'.(c_DeliverID) = c.(c_DeliverID)) /\
  (exists new, w'.(threads) = w.(threads) ++ new).
Proof.
  intros Hc Hid w'. subst w'. unfold deliverAsync, cmd_at. rewrite Hc. cbn [default from_option].
  cbn [c_DeliverID put_c_SendAt put_c_Status put_c_Channel]. rewrite bool_decide_eq_false_2 by done.
  unfold deliver, id in *. destruct (cmd_json _).
  2: { split_and!; try done; [exists []|exists []]; rewrite app_nil_r; split; try done.
       by intros c' Hin%elem_of_nil. }
  destruct (_ && _).
  - split_and!; try done; eexists; [|done]. split; [done|].
    intros c' [= ->]%list_elem_of_singleton. done.
  - split_and!; try done; [exists []|exists []]; rewrite app_nil_r; split; try done.
    by intros c' Hin%elem_of_nil.
Qed.

Lemma number_effect i w c :
  w.(cmds) !! i = Some c -> 0 <= w.(wk).(deliverCmd) ->
  let w' := number_cmd i w in
  exists c', w'.(cmds) !! i = Some c' /\ c'.(c_DeliverID) <> 0 /\
    (c.(c_DeliverID) <> 0 -> c'.(c_DeliverID) = c.(c_DeliverID)) /\
    0 <= w'.(wk).(deliverCmd) /\ w'.(wk).(requests) = w.(wk).(requests) /\
    w'.(wk).(points) = w.(wk).(points) /\ w'.(out) = w.(out) /\ w'.(threads) = w.(threads).
Proof.
  intros Hc Hd w'. subst w'. unfold number_cmd, cmd_at. rewrite Hc. cbn [default from_option].
  destruct (decide (c_DeliverID c = 0)) as [Hz|Hz];
    [rewrite (bool_decide_eq_true_2 _ Hz)|rewrite (bool_decide_eq_false_2 _ Hz)];
    cbn; rewrite ?lookup_alter_eq, ?Hc; cbn; case_bool_decide as Ha; cbn;
    rewrite ?lookup_alter_eq, ?Hc; cbn; eexists; split_and!; try done; cbn; lia.
Qed.

(** [deliverInputTaskCmd] files its callback under the identifier the command
    keeps. *)
Lemma input_effect o from p i reply tr bg w c :
  w.(cmds) !! i = Some c -> 0 <= w.(wk).(deliverCmd) -> same_point from p = false ->
  let w' := (deliverInputTaskCmd o from p i reply tr bg w).1 in
  exists c', w'.(cmds) !! i = Some c' /\ c'.(c_DeliverID) <> 0 /\
    (c.(c_DeliverID) <> 0 -> c'.(c_DeliverID) = c.(c_DeliverID)) /\
    0 <= w'.(wk).(deliverCmd) /\
    w'.(wk).(requests) !! c'.(c_DeliverID) = Some (CbInput from p i) /\
    (exists l, w'.(out) = w.(out) ++ l /\ forall c2, SentCmd i c2 ∈ l -> c2.(c_DeliverID) = c'.(c_DeliverID)) /\
    (exists new, w'.(threads) = w.(threads) ++ new).
Proof.
  intros Hc Hd Hp w'. subst w'. unfold deliverInputTaskCmd. rewrite Hp.
  destruct (number_effect i w c Hc Hd) as (c' & Hc' & Hid & Hkeep & Hd' & Hreq & Hpt & Hout & Hth).
  match goal with |- context [push ?job (number_cmd i w)] =>
    destruct (push_keeps job (number_cmd i w)) as (Hp1 & Hp2 & Hp3 & Hp4);
    pose proof (grows_deliverAsync wf None false o p i (CbInput from p i) _ (push job (number_cmd i w)) I
      (grows_refl _ _ _ _)) as Hgr;
    pose proof (async_effect o p i (CbInput from p i) (push job (number_cmd i w)) c') as Ha;
    destruct (deliverAsync o p i (CbInput from p i) (push job (number_cmd i w))) as [w2 err]; cbn [fst] in * end.
  rewrite Hp1, Hp2, Hp3, Hp4 in Ha. destruct (Ha Hc' Hid) as (Hc2 & Hr2 & _ & (l & Hl & Hsent) & new & Hnew).
  assert (H2 : 0 <= deliverCmd (wk w2)) by (destruct Hgr as [_ _ _ _ Hids _]; rewrite Hp2 in Hids; lia).
  assert (Hfst : (match err with
    | Some e => (w2, [wrapDeliverErr from p i zero_reply (Some e)])
    | None => (w2, [])
    end).1 = w2) by by destruct err.
  rewrite Hfst. exists c'. rewrite Hc2, Hr2, Hl, Hnew, Hout, Hth.
  split_and!; [done..|apply lookup_insert_eq| |by eexists]. exists l. by split.
Qed.

(** The clients of a task share one request.  When a broker sends to a task
    that runs on two clients, both goroutines send the same command object, so
    both messages carry one identifier, and the callback for the second client
    replaces that for the first: the reply of either client is taken for the
    second's, and the other reply is dropped. *)
Theorem clients_share_request from r i trun ch tr bg path rev rv cl1 cl2 a b w w1 sync o1 o2 w2 w3 :
  point rev w = Some rv -> rv.(p_Type) = TaskPoint -> path.(Send) <> SENDSYNC ->
  task_clients wf rv.(p_ID) = [cl1; cl2] ->
  point (GetClientName cl1) w = Some a -> point (GetClientName cl2) w = Some b ->
  same_point from a = false -> same_point from b = false -> 0 <= w.(wk).(deliverCmd) ->
  deliver_one wf from (Some r) i trun ch tr bg path rev w = inr (w1, sync) ->
  run_thread wf (length w.(threads)) o1 w1 = Some w2 ->
  run_thread wf (S (length w.(threads))) o2 w2 = Some w3 ->
  exists obj id l, w3.(wk).(requests) !! id = Some (CbInput from b obj) /\
    w3.(out) = w.(out) ++ l /\ forall c, SentCmd obj c ∈ l -> c.(c_DeliverID) = id.
Proof.
  intros Hrev Hty Hsend Hcl Ha Hb Hsa Hsb Hd Hone Hrun1 Hrun2.
  assert (Hshape : exists obj c, w1.(cmds) !! obj = Some c /\ 0 <= w1.(wk).(deliverCmd) /\
    w1.(out) = w.(out) /\
    w1.(threads) = w.(threads) ++ [[OInput from (Some a) obj (Some r) tr bg]; [OInput from (Some b) obj (Some r) tr bg]]).
  { unfold deliver_one in Hone. rewrite Hrev in Hone. cbn zeta in Hone.
    assert (Hpart : forall s x y, let w' := (getPart wf s x y w).2 in
      w'.(wk).(points) = w.(wk).(points) /\ 0 <= w'.(wk).(deliverCmd) /\ w'.(out) = w.(out) /\ w'.(threads) = w.(threads)).
    { clear -Hd. intros s x y. unfold getPart. destruct (bool_decide (s = "")); [split_and!; cbn; try done; lia|].
      destruct (flowMap (wk w) !! part_key s x y); split_and!; cbn; try done; lia. }
    specialize (Hpart (r_Part r) (p_ID rv) (p_Type rv)).
    destruct (getPart wf (r_Part r) (p_ID rv) (p_Type rv) w) as [s wa].
    destruct Hpart as (Hpt & Hda & Hoa & Hta). cbn [snd] in *.
    rewrite (bool_decide_eq_false_2 _ Hsend), (bool_decide_eq_true_2 _ Hty) in Hone.
    unfold point in *.
    destruct (path_cmd _ _ _ _ _); [|unfold crash in Hone; simplify_eq; unfold run_thread in Hrun1; done].
    destruct (bool_decide (Send path = SENDU)); cbn in Hone; injection Hone as <- <-;
      rewrite Hcl; unfold spawn; cbn; rewrite Hpt, Ha, Hb, Hta, <- app_assoc;
      (eexists _, _; split_and!; [apply lookup_insert_eq|cbn; lia|done|done]). }
  destruct Hshape as (obj & c & Hc & Hd1 & Ho1 & Ht1). exists obj.
  unfold run_thread in Hrun1. destruct (crashed w1); [done|].
  rewrite Ht1, lookup_app_r, Nat.sub_diag in Hrun1 by done. cbn [exec lookup list_lookup with_point] in Hrun1.
  destruct (input_effect o1 from a obj (Some r) tr bg w1 c Hc Hd1 Hsa)
    as (c1 & Hc1 & Hid1 & _ & Hd2 & Hr1 & (l1 & Hl1 & Hs1) & new1 & Hn1).
  destruct (deliverInputTaskCmd o1 from a obj (Some r) tr bg w1) as [wx opsx]. cbn [fst] in *.
  cbn in Hrun1. injection Hrun1 as <-.
  unfold run_thread in Hrun2. cbn [crashed threads put_threads] in Hrun2. destruct (crashed wx); [done|].
  rewrite Hn1, Ht1, <- app_assoc in Hrun2.
  rewrite list_lookup_insert_ne in Hrun2 by lia. rewrite lookup_app_r in Hrun2 by lia.
  replace (S (length (threads w)) - length (threads w))%nat with 1%nat in Hrun2 by lia.
  cbn [app exec lookup list_lookup with_point] in Hrun2.
  match type of Hrun2 with context [deliverInputTaskCmd o2 from b obj (Some r) tr bg ?wz] =>
    destruct (input_effect o2 from b obj (Some r) tr bg wz c1 Hc1 Hd2 Hsb)
      as (c2 & Hc2 & Hid2 & Hkeep & _ & Hr2 & (l2 & Hl2 & Hs2) & _);
    destruct (deliverInputTaskCmd o2 from b obj (Some r) tr bg wz) as [wy opsy] end.
  cbn [fst] in *. cbn in Hrun2. injection Hrun2 as <-. exists (c_DeliverID c2), (l1 ++ l2).
  split_and!; [done|cbn; rewrite Hl2; cbn; by rewrite Hl1, Ho1, app_assoc|].
  intros c' [Hin|Hin]%elem_of_app; [|by apply Hs2]. rewrite (Hs1 _ Hin). symmetry. by apply Hkeep.
Qed.

(** ** Recovery *)

(** The rounds of [Recover] over a batch, each with the answers it gets. *)
Fixpoint recover_all (os : list oracle) (call batch : nat) (rows : list wf_record) w : world :=
  match rows, os with
  | _ :: rest, o :: os => recover_all os call batch rest (recover_rows o call batch rows w).1
  | _, _ => w
  end.

Lemma async_keeps o rv i cb w :
  (deliverAsync o rv i cb w).1.(loopVars) = w.(loopVars) /\ (deliverAsync o rv i cb w).1.(records) = w.(records).
Proof.
  unfold deliverAsync, deliver. cbn zeta.
  destruct (if bool_decide _ then _ else _) as [c1 w1] eqn:H1.
  assert (Hw : loopVars w1 = loopVars w /\ records w1 = records w).
  { destruct (bool_decide _); unfold nextCmdID in H1; cbn in H1; injection H1 as <- <-; done. }
  destruct (cmd_json c1); [|done]. by destruct (_ && _).
Qed.

Lemma recover_row_keeps o call batch e rest w :
  (recover_rows o call batch (e :: rest) w).1.(loopVars) = <[batch := e]> w.(loopVars) /\
  (recover_rows o call batch (e :: rest) w).1.(records) = w.(records).
Proof.
  unfold recover_rows. case_bool_decide; [done|]. destruct (saved_parse _); [|done]. cbn zeta.
  match goal with |- context [new_cmd ?cc ?wx] => set (wn := new_cmd cc wx) end.
  assert (H1 : loopVars wn.2 = <[batch := e]> (loopVars w) /\ records wn.2 = records w) by done.
  destruct wn as [msg w1]. cbn [fst snd] in *.
  match goal with |- context [deliverAsync ?a ?b ?c ?d ?wx] =>
    destruct (async_keeps a b c d wx) as [-> ->] end. done.
Qed.

(** However many deliveries of a batch succeed, [Recover] closes only the
    last record of the batch.  The callbacks read the loop variable, which is
    one variable for all rounds and holds the last record when they run; the
    records before it stay open and their deliveries are sent again with the
    next batch. *)
Theorem recovery_closes_last os call batch rows last_row w n o e :
  length os = length rows -> last rows = Some last_row ->
  let w' := recover_all os call batch rows w in
  e ∈ w.(records) -> e.(wr_ID) <> last_row.(wr_ID) ->
  e ∈ (Nat.iter n (set_recovered o batch call) w').(records).
Proof.
  intros Hlen Hlast w' He Hne.
  assert (Hw : w'.(loopVars) !! batch = Some last_row /\ w'.(records) = w.(records)).
  { subst w'. clear He Hne. revert os w Hlen Hlast.
    induction rows as [|e1 rows IH]; intros [|o1 os] w Hlen Hlast; try done.
    cbn [recover_all]. destruct (recover_row_keeps o1 call batch e1 rows w) as [H1 H2].
    destruct rows as [|e2 rows].
    - injection Hlast as ->. destruct os; [|done]. cbn [recover_all]. rewrite H1, H2. split; [|done].
      apply lookup_insert_eq.
    - rewrite <- H2. apply IH; [by injection Hlen|done]. }
  destruct Hw as [Hv Hrec].
  assert (Hit : (Nat.iter n (set_recovered o batch call) w').(loopVars) !! batch = Some last_row /\
                e ∈ (Nat.iter n (set_recovered o batch call) w').(records)); [|apply Hit].
  induction n as [|n [IHv IHr]]; [by split; [|cbn; rewrite Hrec]|].
  change (Nat.iter (S n) (set_recovered o batch call) w')
    with (set_recovered o batch call (Nat.iter n (set_recovered o batch call) w')).
  revert IHv IHr. generalize (Nat.iter n (set_recovered o batch call) w'). intros wn IHv IHr.
  unfold set_recovered. rewrite IHv.
  destruct (o_update o); cbn; [|by split]. split; [done|]. apply list_elem_of_fmap. exists e.
  split; [by rewrite bool_decide_eq_false_2|done].
Qed.

End Props.
