(* ===== verification/WorkerRuns.v ===== *)
(** Runs of the runner's worker on concrete workflows: the template engine of
    [Interp] as an instance of [Engine], a small codec, schedules of steps, and
    the races they show. *)

From stdpp Require Import pretty.
From S2P Require Import Prelude GoStrings Names OrderedMap Template Compile Value Runtime Interp Scheduler WorkerData Worker WorkerInv WorkerProps.

#[local] Open Scope Z_scope.

(** ** The template engine

    Values leave the engine with the store their slices live in.  [tag] turns
    the structs of the callers into values, [text] documents into JSON text. *)
Section Engine.
Context {F Host Fn : Type} `{Lib : GoLib F Host Fn}.
Context (of_content : jv F -> Host) (of_result : Result -> Host)
  (of_reply_task : option Result -> Host) (of_reply_channel : option (jv F) -> Host)
  (text : jv F -> string) (out_text : ExecOutput (F:=F) (Host:=Host) -> string)
  (err_text : exec_error -> string).

Definition run_engine (fuel : nat) (rt : Template Fn * gmap string (option (gmap string (Value.value F Host)))
    * TemplateRuntime (F:=F) (Host:=Host))
    : outcome Empty_set (option ((Template Fn * gmap string (option (gmap string (Value.value F Host)))
        * TemplateRuntime (F:=F) (Host:=Host)) * exec_out (list (list (Value.value F Host)) * Value.value F Host))) :=
  let '(t, vars, tr) := rt in
  res ← TemplateRuntime_Execute t.(Exps) t.(IndexRun)
          (Expression_Execute (mkEnv t.(Vars) vars (Some t.(FuncCalls)))) fuel tr;
  Ok (match res with
      | None => None
      | Some tr =>
        let out := tr.(exeOutput) in
        Some ((t, vars, tr),
          mkExecOut ((fun f => mkFlow f.(Reciever) f.(Send) (tr.(tr_st).(rt_heap), f.(Msg))) <$> out.(DeliverFlows))
            (err_text <$> out.(TrackErr)) (from_option text "" out.(ExecResult)) (out_text out))
      end).

(** The replies without the stores. *)
Definition strip (vars : gmap string (gmap string (list (list (Value.value F Host)) * Value.value F Host)))
    : gmap string (option (gmap string (Value.value F Host))) :=
  fmap (M:=gmap string) (fun m => Some (fmap (M:=gmap string) snd m)) vars.

#[export] Instance interp_engine : Engine := {|
  EFn := Fn;
  EV := list (list (Value.value F Host)) * Value.value F Host;
  ERt := Template Fn * gmap string (option (gmap string (Value.value F Host))) * TemplateRuntime (F:=F) (Host:=Host);
  Content := jv F;
  engine_new t vars := (t, strip vars, NewRutime);
  engine_execute := run_engine;
  engine_input v rt := (rt.1, with_input (Some (default [] rt.2.(ExpInput) ++ [v.2])) rt.2);
  ev_as_string v := match v.2 with VStr s => Some s | _ => None end;
  ev_json v := from_option text "" (marshal maxNestingDepth v.1 v.2);
  ev_string s := ([], VStr s);
  ev_content c := ([], VHost (of_content c));
  ev_result r := ([], VHost (of_result r));
  ev_reply_task r := ([], VHost (of_reply_task r));
  ev_reply_channel c := ([], VHost (of_reply_channel c))
|}.

(** What a worker executes is what the interpreter executes: the deliveries and
    the error of [run_template]. *)
Lemma engine_runs_template fuel (t : Template Fn) (vars : gmap string (gmap string EV)) out :
  run_template fuel t (strip vars) = Ok (Some out) ->
  exists rt eo, engine_execute fuel (engine_new t vars) = Ok (Some (rt, eo)) /\
    (Reciever <$> eo.(eo_flows)) = (Reciever <$> out.(DeliverFlows)) /\
    (Send <$> eo.(eo_flows)) = (Send <$> out.(DeliverFlows)) /\
    eo.(eo_err) = err_text <$> out.(TrackErr).
Proof.
  unfold run_template. cbn. unfold run_engine.
  destruct (TemplateRuntime_Execute _ _ _ _ _) as [[tr|]|e|pn]; cbn; intros H; simplify_eq.
  do 2 eexists. split; [done|]. cbn. rewrite <- !list_fmap_compose. done.
Qed.
End Engine.

(** ** A small engine and codec *)

Definition small_engine : Engine := {|
  EFn := unit;
  EV := string;
  ERt := unit;
  Content := string;
  engine_new _ _ := ();
  engine_execute _ _ := Ok (Some ((), mkExecOut [] None "" "{}"));
  engine_input _ rt := rt;
  ev_as_string v := Some v;
  ev_json v := v;
  ev_string v := v;
  ev_content c := c;
  ev_result _ := "result";
  ev_reply_task _ := "task";
  ev_reply_channel c := default "" c
|}.
#[local] Existing Instance small_engine.

(** Messages by name. *)
Definition messages : list (string * CmdReplyTask) :=
  [("destroyed", put_r_DeliverID 101 (put_r_Cmd ReplyDestroyWf (put_r_Status SuccessDestroyWorkflow zero_reply)));
   ("task set", put_r_DeliverID 101 (put_r_Cmd ReplySetTaskCmd (put_r_Status SuccessSetTask
      (put_r_RunOn "c_client" (put_r_TaskID 5 zero_reply)))));
   ("no group", put_r_WorkflowID 1 (put_r_RunOn "c_client" zero_reply))].

Definition find_message (s : string) : CmdReplyTask * option string :=
  match filter (fun m => m.1 = s) messages with
  | m :: _ => (m.2, None)
  | [] => (zero_reply, Some "json")
  end.

Definition small_json : Json := {|
  reply_json _ := "reply";
  reply_parse := find_message;
  log_parse _ := None;
  trigger_parse s :=
    if bool_decide (s = "run b") then (mkTrigger 4 1 3 "" "broker" "" "{}" 0 0 "" "", None)
    else (trigger_with_id 0, Some "json");
  cmd_json _ := Some "cmd";
  cmd_parse _ c := Some c;
  task_json _ := "task";
  broker_json _ := "broker";
  result_json _ := "result";
  content_json := Some;
  flow_json _ := Some "flow";
  saved_json _ := Some "saved";
  saved_parse s :=
    if bool_decide (s = "saved")
    then Some (mkSaved kairos_point (mkPoint 7 ClientPoint "c" 0) zero_cmd zero_reply) else None;
  payload_parse s := if bool_decide (s = "{}") then Some ∅ else None;
  input_parse _ := None
|}.
#[local] Existing Instance small_json.

(** ** Schedules *)

Definition calm : oracle :=
  mkOracle 0 0 true [] true true false "" true true true true 1 None None [] 0.
Definition after_timeout : oracle :=
  mkOracle 0 0 true [] true true true "" true true true true 1 None None [] 0.
Definition hears (s : string) : oracle :=
  mkOracle 0 0 true [] true true false s true true true true 1 None None [] 0.
Definition ordered (l : list string) : oracle :=
  mkOracle 0 0 true [] true true false "" true true true true 1 None None l 0.

Inductive choice : Type :=
| Run (i : nat) (o : oracle)
| Meet (i j : nat)
| CallDestroy.

Definition choose (wf : Wf) (c : choice) (w : world) : option world :=
  match c with
  | Run i o => run_thread wf i o w
  | Meet i j => if bool_decide (i = j) then None else communicate wf i j w
  | CallDestroy => if w.(crashed) then None else Some (spawn [ODestroy] w)
  end.

Fixpoint choose_all (wf : Wf) (cs : list choice) (w : world) : option world :=
  match cs with
  | [] => Some w
  | c :: cs => w ← choose wf c w; choose_all wf cs w
  end.

Lemma choose_step wf c w w' : choose wf c w = Some w' -> step wf w w'.
Proof.
  destruct c as [i o|i j|]; cbn; intros H.
  - by eapply step_run.
  - case_bool_decide; [done|]. by eapply step_comm.
  - destruct (crashed w) eqn:Hc; [done|]. simplify_eq. by apply step_destroy.
Qed.

Lemma choose_all_steps wf cs w w' : choose_all wf cs w = Some w' -> rtc (step wf) w w'.
Proof.
  revert w. induction cs as [|c cs IH]; intros w H; cbn in H; [by simplify_eq|].
  destruct (choose wf c w) as [w1|] eqn:Hc; [|done]. eapply rtc_l; [by eapply choose_step|by apply IH].
Qed.

(** The world a schedule ends in. *)
Definition world_after (wf : Wf) (cs : list choice) : world :=
  default (NewWorker wf 100) (choose_all wf cs (NewWorker wf 100)).

Lemma schedule_reachable wf cs : reachable wf 100 (world_after wf cs).
Proof.
  unfold world_after, reachable. destruct (choose_all wf cs _) eqn:H; [|done]. by eapply choose_all_steps.
Qed.

(** Schedules in which nobody calls [Destroy]. *)
Definition ends_destroy (w : world) : bool :=
  match last w.(threads) with Some [ODestroy] => true | _ => false end.

Fixpoint calm_all (wf : Wf) (cs : list choice) (w : world) : option world :=
  match cs with
  | [] => Some w
  | c :: cs => w ← choose wf c w; if ends_destroy w then None else calm_all wf cs w
  end.

Lemma calm_all_steps wf cs w w' : calm_all wf cs w = Some w' -> rtc (undisturbed wf) w w'.
Proof.
  revert w. induction cs as [|c cs IH]; intros w H; cbn in H; [by simplify_eq|].
  destruct (choose wf c w) as [w1|] eqn:Hc; [|done]. cbn in H. destruct (ends_destroy w1) eqn:He; [done|].
  eapply rtc_l; [|by apply IH]. split; [by eapply choose_step|].
  unfold calls_destroy, ends_destroy in *. intros Hd. by rewrite Hd, last_snoc in He.
Qed.

(** [Run] up to its loop. *)
Definition boot : list choice := replicate 6 (Run 0 calm).

(** ** A publishing task *)

Definition publishing : Wf :=
  mkWf 1 "wf" 9 [("t", mkWTask (mkTask 5 "t" "" "" [] 0 PubSubTask "{}" "" 1 "") "" "" ∅)] [] [] [].

(** The task is set up, [Run] hears of it and starts the tasks. *)
Definition publishing_run : list choice :=
  boot ++ [Run 6 calm; Meet 6 0; Run 0 calm; Run 0 calm].

Lemma worker_serves_until_destroyed_witness :
  exists w w' th, calm_all publishing boot (NewWorker publishing 100) = Some w /\
    calm_all publishing (drop 6 publishing_run) w = Some w' /\
    w'.(threads) !! 0%nat = Some th /\ last th = Some ORunLoop.
Proof.
  destruct (calm_all publishing boot (NewWorker publishing 100)) as [w|] eqn:H1; [|by vm_compute in H1].
  destruct (calm_all publishing (drop 6 publishing_run) w) as [w'|] eqn:H2.
  - destruct (worker_serves_until_destroyed publishing 100 w w' [ORunLoop]) as (th & Hi & Hl).
    + by eapply calm_all_steps.
    + vm_compute in H1. injection H1 as <-. reflexivity.
    + reflexivity.
    + by eapply calm_all_steps.
    + exists w, w', th. by split_and!.
  - vm_compute in H1. injection H1 as <-. by vm_compute in H2.
Defined.

Lemma tasks_start_after_setup_witness :
  exists w1 k, reachable publishing 100 w1 /\ rtc (step publishing) w1 (world_after publishing publishing_run) /\
    w1.(threads) !! 0%nat = Some (OCheckDelivered :: k) /\
    (forall id l d, w1.(wk).(taskDelivers) !! id = Some l -> d ∈ l -> d.(d_status) = SuccessSetTask) /\
    (forall id l d, w1.(wk).(brokerDelivers) !! id = Some l -> d ∈ l -> d.(d_status) = SuccessSetBroker).
Proof.
  refine (proj2 (tasks_start_after_setup publishing 100 (world_after publishing publishing_run) 0
    [OPush TriggerStartTaskCmd None publishing.(wf_Tasks).*2; ORunLoop] None publishing.(wf_Tasks).*2 _ _ _)).
  - apply schedule_reachable.
  - vm_compute. reflexivity.
  - left.
Defined.

Lemma publishing_task_blocks_worker_witness :
  exists w1, run_thread publishing 0 calm (world_after publishing publishing_run) = Some w1 /\
  forall w', rtc (step publishing) w1 w' ->
    w'.(crashed) = true \/
    exists e, w'.(threads) !! 0%nat =
      Some (OSend ChEvent (PkEvent e) :: OPush TriggerStartTaskCmd None [] :: [ORunLoop]).
Proof.
  eexists. split; [vm_compute; reflexivity|]. intros w' Hst.
  refine (publishing_task_blocks_worker publishing 100 (world_after publishing publishing_run) calm _ w'
    (mkWTask (mkTask 5 "t" "" "" [] 0 PubSubTask "{}" "" 1 "") "" "" ∅) [] [ORunLoop] ∅ _ _ _ _ _ Hst).
  - apply schedule_reachable.
  - vm_compute. reflexivity.
  - reflexivity.
  - reflexivity.
  - vm_compute. reflexivity.
Defined.

(** ** Answers that never come *)

Definition flow_broker : BrokerObj :=
  mkBrokerObj (mkBroker 3 "b" "" [] [] (mkFlows (Some ["c_channel"]) "") None 1) false.

Definition with_broker : Wf := mkWf 1 "wf" 9 [] [("b", flow_broker)] [mkNamed 7 "c"] [].

(** A trigger of the broker arrives. *)
Definition trigger_run : list choice := boot ++ [Run 2 (hears "run b")].

Lemma endpoint_broker_never_answers_witness :
  exists w1, run_thread with_broker 2 calm (world_after with_broker trigger_run) = Some w1 /\
  forall w', rtc (step with_broker) w1 w' ->
    w'.(crashed) = true \/
    exists n, w'.(threads) !! 2%nat = Some (OWaitResult n :: [OUpdateTrigger 4; ONatsTrigger]).
Proof.
  eexists. split; [vm_compute; reflexivity|]. intros w' Hst.
  refine (endpoint_broker_never_answers with_broker 100 (world_after with_broker trigger_run) 2 calm _ w'
    1%nat flow_broker "{}" 4 [OUpdateTrigger 4; ONatsTrigger] _ eq_refl _ _ Hst).
  - apply schedule_reachable.
  - vm_compute. reflexivity.
  - vm_compute. reflexivity.
Defined.

Lemma sync_message_blocks_subscription_witness :
  exists w1, run_thread publishing 3 (hears "no group") (world_after publishing boot) = Some w1 /\
  forall w', rtc (step publishing) w1 w' ->
    exists n, w'.(threads) !! 3%nat = Some (ORespond n :: ONatsSync :: []).
Proof.
  eexists. split; [vm_compute; reflexivity|]. intros w' Hst.
  refine (sync_message_blocks_subscription publishing 100 (world_after publishing boot) 3 (hears "no group")
    _ w' _ _ [] _ _ eq_refl _ _ _ Hst).
  - apply schedule_reachable.
  - vm_compute. reflexivity.
  - vm_compute. reflexivity.
  - left. reflexivity.
  - vm_compute. reflexivity.
Defined.

(** ** A reply and a time-out of the same request *)

Definition one_client : Wf := mkWf 1 "wf" 9 [] [] [] [mkNamed 7 "c"].

(** [Destroy] asks the client; the time-out of the request looks the callback up
    and is overtaken by the reply of the client, which looks it up too.  The
    reply drops the workflow and ends the wait; then the time-out calls the
    callback again. *)
Definition race_run : list choice :=
  boot ++ [CallDestroy; Run 10 (ordered ["kairos"; "c_client"]); Run 11 calm; Run 12 after_timeout;
    Run 1 (hears "destroyed"); Run 1 calm; Run 1 calm; Run 1 calm; Run 1 calm; Run 1 calm;
    Run 12 calm; Run 12 calm; Meet 12 6; Run 12 calm].

(** Destroying a workflow can panic.  The reply of a client and the time-out
    of the request can both find the callback before either removes it, so it
    runs twice; its second run calls [Done] on the wait group that is already
    at zero.  In the run the client had answered that it cleared the workflow,
    which was dropped. *)
Theorem destroy_panics_on_late_timeout :
  exists w, reachable one_client 100 w /\ w.(crashed) = true /\ StDropped ∈ w.(db) /\
    w.(wk).(points) !! "c_client" = Some (mkPoint 7 ClientPoint "c" PointDestroy).
Proof.
  exists (world_after one_client race_run). split; [apply schedule_reachable|].
  split_and!; [by vm_compute|vm_compute; left|by vm_compute].
Qed.

(** ** A delivery that succeeds after a retry *)

Definition script_task (cls : list string) : WTask :=
  mkWTask (mkTask 5 "t" "" "" cls 0 "script" "" "" 1 "") "" "" {["c" := "7"; "d" := "8"]}.
Definition one_task : Wf := mkWf 1 "wf" 9 [("t", script_task ["c"])] [] [] [mkNamed 7 "c"].

(** The task is sent to its client; the request times out, and the error reaches
    the queue of callbacks. *)
Definition timeout_run : list choice :=
  boot ++ [Run 7 calm; Run 7 calm; Run 7 calm; Run 10 after_timeout; Run 10 calm; Meet 10 6].

(** The queue logs the first attempt and retries the delivery. *)
Definition retry_run : list choice := [Run 8 calm; Run 8 calm; Run 8 calm; Run 8 calm].

(** The goroutines that wait for something to happen. *)
Definition idle (x : op) : bool :=
  match x with
  | ORunLoop | ONats | ONatsTrigger | ONatsSync | ONatsClient _ _ | ORetryLoop | ODispatch
  | OTimer _ | OStatus _ | OTriggerStart | OPush _ None [] | OBrokers _ None [] | OWaitClose => true
  | _ => false
  end.

Definition settled (w : world) : bool :=
  forallb (forallb idle) w.(threads) && match w.(jobs) with [] => true | _ => false end.

(** The commands that were sent, by identifier and attempt. *)
Definition attempts (w : world) : list (Z * Z) :=
  omap (fun s => match s with SentCmd _ c => Some (c.(c_DeliverID), c.(c_Attempt)) | _ => None end) w.(out).

(** A workflow whose task was set up by a retry never runs.  The client does
    not answer in time, the delivery is retried, and the client answers that
    the task is set.  The callback of a retry closes the record of the failure
    but does not tell [Run]: the worker is settled with the task still pending,
    no request open, and nothing left for a recovery to deliver. *)
Theorem retried_setup_stays_pending :
  exists w, reachable one_task 100 w /\ settled w = true /\ attempts w = [(101, 1); (101, 2)] /\
    w.(wk).(taskDelivers) = {[5 := [mkDelivery "c" PendingDeliver]]} /\ w.(wk).(requests) = ∅ /\
    allDelivered w.(wk) = false /\ length w.(records) = 1%nat /\ GetWorkflowRecordsRecovery w = [].
Proof.
  exists (world_after one_task (timeout_run ++ [Run 10 calm] ++ retry_run ++
    [Run 1 (hears "task set"); Run 1 calm; Run 1 calm])).
  split; [apply schedule_reachable|]. split_and!; by vm_compute.
Qed.

(** A retry can lose its callback.  The goroutine of a time-out removes the
    request only after it called the callback, whose error is retried under the
    same identifier by the queue; when the queue is faster, the removal takes
    away the callback of the retry.  The reply of the client is then ignored:
    the worker is settled, with the record of the failure open and nothing that
    could close it. *)
Theorem retry_loses_callback :
  exists w, reachable one_task 100 w /\ settled w = true /\ attempts w = [(101, 1); (101, 2)] /\
    w.(wk).(requests) = ∅ /\ allDelivered w.(wk) = false /\
    (wr_IsRecovered <$> w.(records)) = [false].
Proof.
  exists (world_after one_task (timeout_run ++ retry_run ++ [Run 10 calm; Run 1 (hears "task set"); Run 1 calm])).
  split; [apply schedule_reachable|]. split_and!; by vm_compute.
Qed.

(** ** Witnesses *)

Definition two_clients : Wf := mkWf 1 "wf" 9 [("t", script_task ["c"; "d"])] [("b", flow_broker)] []
  [mkNamed 7 "c"; mkNamed 8 "d"].

(** The deliveries of the broker, and the goroutines of the two clients. *)
Definition from_b : Point := mkPoint 3 BrokerPoint "b" 0.
Definition sent_to_task : world :=
  match deliver_one two_clients from_b (Some zero_reply) 0 None None "" "" (mkFlow "t_task" "send" "x") "t_task"
          (world_after two_clients boot) with
  | inr (w, _) => w
  | inl _ => world_after two_clients boot
  end.
Definition first_sent : world := default sent_to_task (run_thread two_clients 11 calm sent_to_task).
Definition second_sent : world := default first_sent (run_thread two_clients 12 calm first_sent).

Lemma clients_share_request_witness :
  length second_sent.(out) = 2%nat /\
  exists obj id l,
    second_sent.(wk).(requests) !! id = Some (CbInput from_b (mkPoint 8 ClientPoint "d" 0) obj) /\
    second_sent.(out) = (world_after two_clients boot).(out) ++ l /\
    forall c, SentCmd obj c ∈ l -> c.(c_DeliverID) = id.
Proof.
  split; [by vm_compute|].
  refine (clients_share_request two_clients from_b zero_reply 0 None None "" ""
    (mkFlow "t_task" "send" "x") "t_task" (mkPoint 5 TaskPoint "t" 0) "c" "d"
    (mkPoint 7 ClientPoint "c" 0) (mkPoint 8 ClientPoint "d" 0)
    (world_after two_clients boot) sent_to_task false calm calm first_sent second_sent _ eq_refl _ _ _ _ _ _ _ _ _ _).
  all: try (vm_compute; reflexivity).
  - discriminate.
  - by vm_compute.
Defined.

Lemma parts_identify_deliveries_witness :
  let '(s1, w1) := getPart publishing (part_name publishing 1) 3 BrokerPoint (world_after publishing boot) in
  let '(s2, _) := getPart publishing (part_name publishing 1) 3 TaskPoint w1 in
  s1 = s2 <-> 1 = 1 /\ 3 = 3 /\ BrokerPoint = TaskPoint.
Proof.
  apply (parts_identify_deliveries publishing 100 (world_after publishing boot)). apply schedule_reachable.
Defined.

(** The closure for the time-out of [timeout_run] is about to run, and runs. *)
Definition retry_due : world :=
  world_after one_task (timeout_run ++ [Run 10 calm; Run 8 calm; Run 8 calm; Run 8 calm]).
Definition retry_done : world := default retry_due (run_thread one_task 8 calm retry_due).

Lemma retries_bounded_witness :
  retries one_task 0 retry_due 1 retry_done /\ Z.of_nat 1 <= 3.
Proof.
  assert (Hrun : retries one_task 0 retry_due 1 retry_done).
  { destruct (threads retry_due !! 8%nat) as [[|[] k]|] eqn:Ht; try (vm_compute in Ht; discriminate Ht).
    assert (Hi : de_Msg e = 0%nat) by (vm_compute in Ht; by injection Ht as <- _).
    assert (Hx : run_thread one_task 8 calm retry_due = Some retry_done) by (vm_compute; reflexivity).
    exact (rt_failed one_task 0 8 calm e k retry_due retry_done 0 retry_done Ht Hi Hx (rt_done one_task 0 retry_done)). }
  split; [exact Hrun|].
  apply (retries_bounded one_task 100 0 retry_due 1 retry_done (cmd_at 0 retry_due)); [|vm_compute; reflexivity|exact Hrun].
  apply schedule_reachable.
Defined.

(** A message that [syncData] takes up again is made with [Attempt] 0, so
    its first sending is a retry and three more may follow: it is sent four
    times before it is given up. *)
Definition lost_row : MessageFlow :=
  mkMessageFlow 1 0 9 KairosPoint "" 7 ChannelPoint "c" 1 "{}" 0 0 0 55 0 InputTaskCmd false "" "" 5 0 0 "t" "" "" false false "" "" 0.
Definition finds_row : oracle :=
  mkOracle 0 0 true [] true true false "" true true true true 1 (Some [lost_row]) None [] 0.
Definition before_sync : world :=
  put_records [mkRecord 1 "" WFRecordFault "saved" false 0 55 0] (world_after one_task boot).
Definition after_sync : world := retry_row one_task finds_row lost_row before_sync.

Example synced_message_sent_four_times :
  let i := before_sync.(next) in
  let e := mkDeliverErr None kairos_point (mkPoint 7 ChannelPoint "c" 0) i (put_r_DeliverID 55 zero_reply) in
  resends i after_sync = 1%nat /\
  resends i (fold_left (fun w o => handleRetryDeliver one_task o "" e w) (replicate 9 calm) after_sync) = 4%nat.
Proof. vm_compute. done. Qed.

(** Two failures in the table. *)
Definition failed_record (id : Z) : wf_record := mkRecord id "" WFRecordFault "saved" false 0 id 0.
Definition two_failures : world :=
  put_records [failed_record 1; failed_record 2] (world_after one_task boot).

Lemma recovery_closes_last_witness :
  failed_record 1 ∈ (Nat.iter 2 (set_recovered calm 40 41)
    (recover_all [calm; calm] 41 40 [failed_record 1; failed_record 2] two_failures)).(records) /\
  (wr_IsRecovered <$> (Nat.iter 2 (set_recovered calm 40 41)
    (recover_all [calm; calm] 41 40 [failed_record 1; failed_record 2] two_failures)).(records)) = [false; true].
Proof.
  split; [|by vm_compute].
  refine (recovery_closes_last [calm; calm] 41 40 [failed_record 1; failed_record 2] (failed_record 2)
    two_failures 2 calm (failed_record 1) eq_refl eq_refl _ _); [left|by vm_compute].
Defined.
