(* ===== verification/Runner.v ===== *)
(** The runner (server/runner/runner.go): it listens to the events of the API,
    runs every workflow in a slot of a pool of limited size, and keeps a map
    from workflows to their workers.

    A worker is what the class [WorkerSys] says; [WorkerLife] is what the runner
    can rely on, proved of the worker of [Worker.v] below.  The pool (package
    ants) has a fixed number of slots; [Invoke] waits for a free one, and a
    panic of its function is recovered: the slot is free again and what the
    function had left to do is not done.  A panic of any other goroutine ends the
    process.  The two unbuffered hand-overs, of the subscription to the consumer of [wfEvent] and
    of the consumer to the pool, are steps of their own. *)

From stdpp Require Import gmap.
From S2P Require Import Prelude GoStrings Names OrderedMap Template Json Compile Value Runtime Interp Scheduler WorkerData Worker WorkerInv WorkerProps WorkerRuns.

#[local] Open Scope Z_scope.

(** ** Workers, as the runner sees them *)

Class WorkerSys := {
  wstate : Type;
  (** [NewWorker] for the workflow, about to [Run]. *)
  wnew : Z -> wstate;
  (** What happens to a worker besides calls of [Destroy]. *)
  wstep : wstate -> wstate -> Prop;
  (** A call of [Destroy]. *)
  wdestroy : wstate -> wstate;
  (** [Run] returned. *)
  returned : wstate -> bool;
  (** [Run] panicked, in a goroutine of the pool. *)
  run_panicked : wstate -> bool;
  (** Another goroutine panicked. *)
  wfatal : wstate -> bool
}.

Class WorkerLife (W : WorkerSys) := {
  wserving : wstate -> Prop;
  wserving_step : forall s s', wserving s -> wstep s s' -> wserving s';
  wserving_returned : forall s, wserving s -> returned s = false;
  wserving_panicked : forall s, wserving s -> run_panicked s = false
}.

(** A panic of [Run] is not undone. *)
Class WorkerPanics (W : WorkerSys) := {
  run_panicked_step : forall s s', run_panicked s = true -> wstep s s' -> run_panicked s' = true;
  run_panicked_destroy : forall s, run_panicked s = true -> run_panicked (wdestroy s) = true
}.

(** [events.WfEvent]: the commands; the workflow is its identifier. *)
Definition WfCmdCreate : Z := 0.
Definition WfCmdDelete : Z := 2.
Definition WfCmdRecover : Z := 4.
Definition WfCmdInfo : Z := 5.

Record WfEvent := mkWfEvent { we_Cmd : Z; we_Workflow : option Z; we_WfIDs : list Z }.

Definition create_event (id : Z) : WfEvent := mkWfEvent WfCmdCreate (Some id) [].

(** [startInitWorkflow]: the stored workflows are read and compiled one after
    the other; the first that fails ends it. *)
Section Startup.
Context {Fn : Type} (render : string -> gmap string string -> outcome string string).
Context (json_parse : string -> option json) (detail : Z -> option (Workflow Fn)).

Fixpoint startInitWorkflow (ids : list Z) : list WfEvent * outcome (option wf_error) () :=
  match ids with
  | [] => ([], Ok ())
  | id :: ids =>
    match detail id with
    | None => ([], Err None)
    | Some wf =>
      match Workflow_Compile render json_parse None wf with
      | Ok wf => let '(es, res) := startInitWorkflow ids in (create_event wf.(w_ID) :: es, res)
      | Err e => ([], Err (Some e))
      | Panic p => ([], Panic p)
      end
    end
  end.

(** One stored workflow that does not compile keeps those behind it from
    starting. *)
Lemma startup_stops_at_failure ids id ids' wf e :
  detail id = Some wf -> Workflow_Compile render json_parse None wf = Err e ->
  (startInitWorkflow (ids ++ id :: ids')).1 = (startInitWorkflow ids).1.
Proof.
  intros Hd Hc. induction ids as [|i ids IH]; cbn; [by rewrite Hd, Hc|].
  destruct (detail i) as [wi|]; [|reflexivity]. destruct (Workflow_Compile render json_parse None wi); [|reflexivity..].
  destruct (startInitWorkflow (ids ++ id :: ids')), (startInitWorkflow ids). cbn in *. congruence.
Qed.

End Startup.

Section Runner.
Context {W : WorkerSys} (size : nat).

(** Goroutines that destroy a worker. *)
Inductive destroyer : Type := DestroyWorker (id : Z) | Destroying (id : Z).

Record Runner := mkRunner {
  wfMap : gmap Z nat;
  workers : list (Z * wstate);     (* every worker ever made, with its workflow *)
  slots : list nat;                (* the workers that [Run] in the pool *)
  inbox : list WfEvent;            (* messages the subscription has not taken *)
  listener : option WfEvent;       (* what its callback sends to [wfEvent] *)
  initial : list WfEvent;          (* what [startInitWorkflow] has left to send *)
  consumer : option WfEvent;       (* what the consumer passes to [Invoke] *)
  destroyers : list destroyer;
  answers : list (list Z);         (* answers to [WfCmdInfo] *)
  panicked : bool
}.

Definition NewRunner (initial : list WfEvent) : Runner :=
  mkRunner ∅ [] [] [] None initial None [] [] false.

Implicit Types r : Runner.

(** [GetWfInfo]: those of the workflows that have a worker. *)
Definition GetWfInfo (ids : list Z) r : list Z :=
  filter (fun id => is_Some (r.(wfMap) !! id)) ids.

(** The callback of [listenMB] takes a message. *)
Definition listenMB r : option Runner :=
  match r.(listener), r.(inbox) with
  | None, e :: rest =>
    Some (if bool_decide (e.(we_Cmd) = WfCmdInfo)
          then mkRunner r.(wfMap) r.(workers) r.(slots) rest None r.(initial) r.(consumer) r.(destroyers)
                 (r.(answers) ++ [GetWfInfo e.(we_WfIDs) r]) r.(panicked)
          else mkRunner r.(wfMap) r.(workers) r.(slots) rest (Some e) r.(initial) r.(consumer) r.(destroyers)
                 r.(answers) r.(panicked))
  | _, _ => None
  end.

(** The consumer receives an event and logs the name of its workflow. *)
Definition consume (e : WfEvent) r : Runner :=
  mkRunner r.(wfMap) r.(workers) r.(slots) r.(inbox) r.(listener) r.(initial) (Some e) r.(destroyers)
    r.(answers) (bool_decide (e.(we_Workflow) = None) || r.(panicked)).

Definition take_listener r : option Runner :=
  match r.(consumer), r.(listener) with
  | None, Some e =>
    Some (consume e (mkRunner r.(wfMap) r.(workers) r.(slots) r.(inbox) None r.(initial) None r.(destroyers)
                       r.(answers) r.(panicked)))
  | _, _ => None
  end.

Definition take_initial r : option Runner :=
  match r.(consumer), r.(initial) with
  | None, e :: rest =>
    Some (consume e (mkRunner r.(wfMap) r.(workers) r.(slots) r.(inbox) r.(listener) rest None r.(destroyers)
                       r.(answers) r.(panicked)))
  | _, _ => None
  end.

(** The function of the pool, up to [Run]: a new worker is filed and keeps its
    slot; a deletion or a recovery starts a goroutine and gives it back. *)
Definition execute (e : WfEvent) (id : Z) r : Runner :=
  if bool_decide (e.(we_Cmd) = WfCmdCreate) then
    let k := length r.(workers) in
    mkRunner (<[id := k]> r.(wfMap)) (r.(workers) ++ [(id, wnew id)]) (r.(slots) ++ [k]) r.(inbox)
      r.(listener) r.(initial) None r.(destroyers) r.(answers) r.(panicked)
  else
    mkRunner r.(wfMap) r.(workers) r.(slots) r.(inbox) r.(listener) r.(initial) None
      (r.(destroyers) ++ if bool_decide (e.(we_Cmd) = WfCmdDelete) then [DestroyWorker id] else [])
      r.(answers) r.(panicked).

(** [Invoke] waits for a free slot. *)
Definition Invoke r : option Runner :=
  match r.(consumer) with
  | Some e =>
    match e.(we_Workflow) with
    | Some id => if bool_decide (length r.(slots) < size)%nat then Some (execute e id r) else None
    | None => None
    end
  | None => None
  end.

(** A worker's [Run] returns: its workflow leaves the map, its slot is free. *)
Definition run_returns (k : nat) r : option Runner :=
  match r.(workers) !! k with
  | Some (id, s) =>
    if bool_decide (k ∈ r.(slots)) && returned s then
      Some (mkRunner (delete id r.(wfMap)) r.(workers) (filter (fun j => j <> k) r.(slots)) r.(inbox)
              r.(listener) r.(initial) r.(consumer) r.(destroyers) r.(answers) r.(panicked))
    else None
  | None => None
  end.

(** A worker's [Run] panics: the pool recovers and frees the slot, but the
    deletion from the map stands behind the call and is not deferred. *)
Definition run_panics (k : nat) r : option Runner :=
  match r.(workers) !! k with
  | Some (id, s) =>
    if bool_decide (k ∈ r.(slots)) && run_panicked s then
      Some (mkRunner r.(wfMap) r.(workers) (filter (fun j => j <> k) r.(slots)) r.(inbox)
              r.(listener) r.(initial) r.(consumer) r.(destroyers) r.(answers) r.(panicked))
    else None
  | None => None
  end.

Definition put_worker (k : nat) (s : wstate) r : Runner :=
  mkRunner r.(wfMap) (alter (fun p => (p.1, s)) k r.(workers)) r.(slots) r.(inbox) r.(listener) r.(initial)
    r.(consumer) r.(destroyers) r.(answers) r.(panicked).

(** A worker goes on; a panic outside [Run] takes the process with it. *)
Definition work (k : nat) (s : wstate) r : Runner :=
  let r := put_worker k s r in
  mkRunner r.(wfMap) r.(workers) r.(slots) r.(inbox) r.(listener) r.(initial) r.(consumer) r.(destroyers)
    r.(answers) (wfatal s || r.(panicked)).

Definition put_destroyers (ds : list destroyer) r : Runner :=
  mkRunner r.(wfMap) r.(workers) r.(slots) r.(inbox) r.(listener) r.(initial) r.(consumer) ds
    r.(answers) r.(panicked).

(** [DestroyWorker]: the worker of the map is destroyed, if there is one; when
    that succeeds, the workflow leaves the map. *)
Definition run_destroyer (i : nat) (success : bool) r : option Runner :=
  match r.(destroyers) !! i with
  | Some (DestroyWorker id) =>
    Some (match r.(wfMap) !! id ≫= fun k => (k,.) ∘ snd <$> r.(workers) !! k with
          | Some (k, s) =>
            put_worker k (wdestroy s) (put_destroyers (<[i := Destroying id]> r.(destroyers)) r)
          | None => put_destroyers (delete i r.(destroyers)) r
          end)
  | Some (Destroying id) =>
    let r := put_destroyers (delete i r.(destroyers)) r in
    Some (if success
          then mkRunner (delete id r.(wfMap)) r.(workers) r.(slots) r.(inbox) r.(listener) r.(initial)
                 r.(consumer) r.(destroyers) r.(answers) r.(panicked)
          else r)
  | None => None
  end.

Definition receive_event (e : WfEvent) r : Runner :=
  mkRunner r.(wfMap) r.(workers) r.(slots) (r.(inbox) ++ [e]) r.(listener) r.(initial) r.(consumer)
    r.(destroyers) r.(answers) r.(panicked).

Inductive rstep r : Runner -> Prop :=
| r_receive e : r.(panicked) = false -> rstep r (receive_event e r)
| r_listen r' : r.(panicked) = false -> listenMB r = Some r' -> rstep r r'
| r_take r' : r.(panicked) = false -> take_listener r = Some r' -> rstep r r'
| r_init r' : r.(panicked) = false -> take_initial r = Some r' -> rstep r r'
| r_invoke r' : r.(panicked) = false -> Invoke r = Some r' -> rstep r r'
| r_return k r' : r.(panicked) = false -> run_returns k r = Some r' -> rstep r r'
| r_panic k r' : r.(panicked) = false -> run_panics k r = Some r' -> rstep r r'
| r_work k id s s' : r.(panicked) = false -> r.(workers) !! k = Some (id, s) -> wstep s s' ->
    rstep r (work k s' r)
| r_destroy i success r' : r.(panicked) = false -> run_destroyer i success r = Some r' -> rstep r r'.

Definition rreachable (init : list WfEvent) r : Prop := rtc rstep (NewRunner init) r.

End Runner.

(** ** The map of workers *)

Section Map.
Context {W : WorkerSys} {P : WorkerPanics W} (size : nat).
Implicit Types r : Runner.

Record map_ok r : Prop := {
  mo_live : forall id k, r.(wfMap) !! id = Some k ->
    exists s, r.(workers) !! k = Some (id, s) /\ (k ∈ r.(slots) \/ run_panicked s = true);
  mo_slots : forall k, k ∈ r.(slots) -> (k < length r.(workers))%nat;
  mo_once : NoDup r.(slots);
  mo_size : (length r.(slots) <= size)%nat
}.

Lemma map_ok_same r r' :
  r'.(wfMap) ⊆ r.(wfMap) -> r'.(workers) = r.(workers) -> r'.(slots) = r.(slots) -> map_ok r -> map_ok r'.
Proof.
  intros Hm Hw Hs [H1 H2 H3 H4]. split; rewrite ?Hw, ?Hs; [|done..].
  intros id k Hk. apply H1. by eapply lookup_weaken.
Qed.

(** A worker changes; when its [Run] panicked, that stays so. *)
Lemma map_ok_worker k id s s' r :
  r.(workers) !! k = Some (id, s) -> (run_panicked s = true -> run_panicked s' = true) ->
  map_ok r -> map_ok (put_worker k s' r).
Proof.
  intros Hk Hp [H1 H2 H3 H4]. split; cbn; [| |done|done].
  - intros id' j Hj. destruct (H1 id' j Hj) as (sj & Hw & Hl). destruct (decide (k = j)) as [->|Hn].
    + rewrite list_lookup_alter_eq, Hw. simplify_eq. exists s'. split; [done|]. destruct Hl; auto.
    + rewrite list_lookup_alter_ne by done. by exists sj.
  - intros j Hj. rewrite length_alter. auto.
Qed.

Lemma map_ok_execute e id r :
  (length r.(slots) < size)%nat -> map_ok r -> map_ok (execute e id r).
Proof.
  intros Hs Hok. unfold execute. case_bool_decide; [|by apply (map_ok_same r)].
  destruct Hok as [H1 H2 H3 H4]. split; cbn.
  - intros id' k [[<- <-]|[_ Hk]]%lookup_insert_Some.
    + exists (wnew id). split; [by rewrite lookup_app_r, Nat.sub_diag by lia|].
      left. apply elem_of_app. right. by left.
    + destruct (H1 _ _ Hk) as (s & Hw & Hl). exists s. split; [by apply lookup_app_l_Some|].
      destruct Hl; [left; apply elem_of_app; by left|by right].
  - intros k [Hk%H2|Hk%list_elem_of_singleton]%elem_of_app; rewrite length_app; cbn; lia.
  - apply NoDup_app. split_and!; [done| |apply NoDup_singleton].
    intros k Hk%H2 ?%list_elem_of_singleton. lia.
  - rewrite length_app. cbn. lia.
Qed.

(** Leaving a slot, with or without leaving the map. *)
Lemma map_ok_leave k (m : gmap Z nat) r :
  m ⊆ r.(wfMap) ->
  (forall id s, r.(workers) !! k = Some (id, s) -> run_panicked s = true \/ m !! id = None) -> map_ok r ->
  map_ok (mkRunner m r.(workers) (filter (fun j => j <> k) r.(slots)) r.(inbox) r.(listener) r.(initial)
            r.(consumer) r.(destroyers) r.(answers) r.(panicked)).
Proof.
  intros Hm Hk [H1 H2 H3 H4]. split; cbn.
  - intros id j Hj. destruct (H1 id j (lookup_weaken _ _ _ _ Hj Hm)) as (s & Hw & Hl). exists s. split; [done|].
    destruct (decide (j = k)) as [->|Hn]; [destruct (Hk id s Hw) as [|Hno]; [by right|congruence]|].
    destruct Hl; [left; by apply list_elem_of_filter|by right].
  - intros j [_ Hj]%list_elem_of_filter. auto.
  - by apply NoDup_filter.
  - etrans; [apply length_filter|done].
Qed.

Lemma map_ok_return k r r' : run_returns k r = Some r' -> map_ok r -> map_ok r'.
Proof.
  intros Hr Hok. unfold run_returns in Hr. destruct (workers r !! k) as [[id s]|] eqn:Hw; [|done].
  destruct (_ && _); [|done]. injection Hr as <-. apply map_ok_leave; [apply delete_subseteq| |done].
  intros id' s' Hw'. rewrite Hw in Hw'. injection Hw' as <- <-. right. apply lookup_delete_eq.
Qed.

Lemma map_ok_panic k r r' : run_panics k r = Some r' -> map_ok r -> map_ok r'.
Proof.
  intros Hr Hok. unfold run_panics in Hr. destruct (workers r !! k) as [[id s]|] eqn:Hw; [|done].
  destruct (bool_decide (k ∈ slots r)), (run_panicked s) eqn:Hp; try done. injection Hr as <-. apply map_ok_leave; [done| |done].
  intros id' s' Hw'. rewrite Hw in Hw'. injection Hw' as <- <-. by left.
Qed.

Lemma map_ok_destroyer i b r r' : run_destroyer i b r = Some r' -> map_ok r -> map_ok r'.
Proof.
  unfold run_destroyer. intros Hr Hok. destruct (destroyers r !! i) as [[id|id]|]; [..|done]; injection Hr as <-.
  - destruct (wfMap r !! id) as [k|]; [|by apply (map_ok_same r)]. cbn.
    destruct (workers r !! k) as [[id' s]|] eqn:Hw; [|by apply (map_ok_same r)]. cbn.
    eapply map_ok_worker; [exact Hw|apply run_panicked_destroy|by apply (map_ok_same r)].
  - destruct b; apply (map_ok_same r); try done. apply delete_subseteq.
Qed.

(** C38: the runner's map is sound and the pool keeps its size.  In every
    reachable state a workflow's entry is a worker of that workflow that holds a
    slot of the pool, or one whose [Run] panicked in the pool, which frees the
    slot and leaves the entry; nothing else that [GetWfInfo] reports or
    [DestroyWorker] and [RecoverWorker] act on has stopped running.  No worker
    holds two slots, and no more workers run than the pool has slots. *)
Theorem runner_map_sound init r id k :
  rreachable size init r ->
  (length r.(slots) <= size)%nat /\ NoDup r.(slots) /\
  (r.(wfMap) !! id = Some k ->
     exists s, r.(workers) !! k = Some (id, s) /\ (k ∈ r.(slots) \/ run_panicked s = true)).
Proof.
  intros Hr. enough (map_ok r) as [H1 _ H2 H3] by (split_and!; [done..|apply H1]).
  revert r Hr. apply rtc_ind_r; [split; cbn; [done|by intros ? ?%elem_of_nil|constructor|lia]|].
  intros r r' _ Hst Hok.
  destruct Hst as [e _|r' _ H|r' _ H|r' _ H|r' _ H|j r' _ H|j r' _ H|j i s s' _ Hw Hs|i b r' _ H].
  - by apply (map_ok_same r).
  - unfold listenMB in H. destruct (listener r), (inbox r) as [|e es]; try done. injection H as <-.
    case_bool_decide; by apply (map_ok_same r).
  - unfold take_listener in H. destruct (consumer r), (listener r); try done. injection H as <-.
    by apply (map_ok_same r).
  - unfold take_initial in H. destruct (consumer r), (initial r); try done. injection H as <-.
    by apply (map_ok_same r).
  - unfold Invoke in H. destruct (consumer r) as [e|]; [|done]. destruct (we_Workflow e); [|done].
    case_bool_decide; [|done]. injection H as <-. by apply map_ok_execute.
  - by eapply map_ok_return.
  - by eapply map_ok_panic.
  - apply (map_ok_same (put_worker j s' r)); [done..|]. eapply map_ok_worker; [exact Hw| |done].
    intros Hp. by eapply run_panicked_step.
  - by eapply map_ok_destroyer.
Qed.

End Map.

(** ** A full pool *)

Section Full.
Context {W : WorkerSys} {L : WorkerLife W} (size : nat).
Implicit Types r : Runner.

(** Every slot is held by a worker that serves, nobody destroys one, and the
    consumer waits with an event. *)
Record stuck (e : WfEvent) r : Prop := {
  sk_full : length r.(slots) = size;
  sk_serving : forall k, k ∈ r.(slots) -> exists id s, r.(workers) !! k = Some (id, s) /\ wserving s;
  sk_destroyers : r.(destroyers) = [];
  sk_consumer : r.(consumer) = Some e
}.

Lemma stuck_same e r r' :
  r'.(workers) = r.(workers) -> r'.(slots) = r.(slots) -> r'.(destroyers) = r.(destroyers) ->
  r'.(consumer) = r.(consumer) -> stuck e r -> stuck e r'.
Proof. intros Hw Hs Hd Hc [H1 H2 H3 H4]. split; rewrite ?Hw, ?Hs, ?Hd, ?Hc; done. Qed.

Lemma stuck_step e r r' :
  stuck e r -> rstep size r r' ->
  stuck e r' /\ r'.(slots) = r.(slots) /\ (is_Some r.(listener) -> r'.(listener) = r.(listener) /\ r'.(answers) = r.(answers)).
Proof.
  intros Hk Hst. pose proof Hk as [Hf Hs Hd Hc].
  destruct Hst as [e' _|r' _ H|r' _ H|r' _ H|r' _ H|j r' _ H|j r' _ H|j i s s' _ Hw Hstep|i b r' _ H].
  - split_and!; [by apply (stuck_same e r)|done|done].
  - unfold listenMB in H. destruct (listener r), (inbox r) as [|e' es]; try done. injection H as <-.
    split_and!; [|by case_bool_decide|by intros []]. case_bool_decide; by apply (stuck_same e r).
  - unfold take_listener in H. by rewrite Hc in H.
  - unfold take_initial in H. by rewrite Hc in H.
  - unfold Invoke in H. rewrite Hc in H. destruct (we_Workflow e); [|done].
    rewrite bool_decide_eq_false_2 in H by lia. done.
  - unfold run_returns in H. destruct (workers r !! j) as [[id s]|] eqn:Hw; [|done].
    destruct (bool_decide (j ∈ slots r)) eqn:Hj; [|done]. apply bool_decide_eq_true in Hj.
    destruct (Hs j Hj) as (id' & s' & Hw' & Hserv). rewrite Hw in Hw'. injection Hw' as <- <-.
    by rewrite (wserving_returned s Hserv) in H.
  - unfold run_panics in H. destruct (workers r !! j) as [[id s]|] eqn:Hw; [|done].
    destruct (bool_decide (j ∈ slots r)) eqn:Hj; [|done]. apply bool_decide_eq_true in Hj.
    destruct (Hs j Hj) as (id' & s' & Hw' & Hserv). rewrite Hw in Hw'. injection Hw' as <- <-.
    by rewrite (wserving_panicked s Hserv) in H.
  - split_and!; [|done|done]. split; cbn; [done| |done|done]. intros k Hin.
    destruct (Hs k Hin) as (id & sk & Hk' & Hserv). rewrite list_lookup_alter.
    destruct (decide (j = k)) as [->|Hne]; [|by exists id, sk].
    rewrite Hk' in Hw |- *. injection Hw as -> ->. exists i, s'. split; [done|by eapply wserving_step].
  - unfold run_destroyer in H. by rewrite Hd in H.
Qed.

(** C39: a full pool is never left.  When workers that serve hold all slots of
    the pool and an event waits for one, nothing that happens later frees a
    slot: the event, be it the deletion of a workflow that runs, waits for ever,
    no worker is destroyed, and once the subscription waits behind it with
    another event, no request for information is answered any more. *)
Theorem full_pool_is_stuck e r r' :
  stuck e r -> rtc (rstep size) r r' ->
  r'.(consumer) = Some e /\ r'.(destroyers) = [] /\ r'.(slots) = r.(slots) /\
  (is_Some r.(listener) -> r'.(answers) = r.(answers)).
Proof.
  intros Hk Hst. induction Hst as [r|r r1 r' Hst _ IH]; [by destruct Hk|].
  destruct (stuck_step e r r1 Hk Hst) as (Hk1 & Hs1 & Hl1). destruct (IH Hk1) as (H1 & H2 & H3 & H4).
  split_and!; [done|done|congruence|]. intros Hl. destruct (Hl1 Hl) as [Hl' Ha]. rewrite <- Ha. apply H4. by rewrite Hl'.
Qed.

End Full.

(** ** The worker of [Worker.v] *)

Section Instance.
Context {E : Engine} {JS : Json} {CR : Cron job}.
Context (wf_of : Z -> Wf) (now : Z).

Record hosted := mkHosted { h_wf : Z; h_world : world; h_panicked : bool }.

(** The goroutine of [Run] has nothing left to do. *)
Definition run_returned (w : world) : bool :=
  match w.(threads) !! 0%nat with Some [] => true | _ => false end.

(** The world after a recovered panic of [Run]: its goroutine is gone, the others
    go on. *)
Definition unwind (w : world) : world := put_crashed false (put_threads (<[0%nat := []]> w.(threads)) w).

Inductive goes_on (s : hosted) : hosted -> Prop :=
| goes w' : undisturbed (wf_of s.(h_wf)) s.(h_world) w' ->
    (w'.(crashed) = true -> ~ in_run (wf_of s.(h_wf)) s.(h_world) w') ->
    goes_on s (mkHosted s.(h_wf) w' s.(h_panicked))
| unwinds w' : undisturbed (wf_of s.(h_wf)) s.(h_world) w' ->
    w'.(crashed) = true -> in_run (wf_of s.(h_wf)) s.(h_world) w' ->
    goes_on s (mkHosted s.(h_wf) (unwind w') true).

Definition worker_sys : WorkerSys := {|
  wstate := hosted;
  wnew id := mkHosted id (NewWorker (wf_of id) now) false;
  wstep := goes_on;
  wdestroy s := mkHosted s.(h_wf) (spawn [ODestroy] s.(h_world)) s.(h_panicked);
  returned s := run_returned s.(h_world) && negb s.(h_panicked);
  run_panicked := h_panicked;
  wfatal s := s.(h_world).(crashed)
|}.

Lemma worker_panicked_step (s s' : hosted) :
  s.(h_panicked) = true -> goes_on s s' -> s'.(h_panicked) = true.
Proof. by intros Hp []. Qed.

Definition worker_panics : WorkerPanics worker_sys :=
  Build_WorkerPanics worker_sys worker_panicked_step (fun s Hp => Hp).

(** The workflows name only clients they have. *)
Context (known_clients : forall id, clients_known (wf_of id) = true).

Definition worker_serving (s : hosted) : Prop := serving (wf_of s.(h_wf)) now s.(h_world) /\ s.(h_panicked) = false.

Lemma worker_serving_step (s s' : hosted) : worker_serving s -> goes_on s s' -> worker_serving s'.
Proof.
  intros [Hs Hp] [w' Hu _|w' Hu Hc Hin].
  - split; [by eapply serving_step|done].
  - pose proof (run_never_panics _ now _ _ (known_clients s.(h_wf)) (proj1 Hs) Hu Hin). congruence.
Qed.

Lemma worker_serving_returned (s : hosted) : worker_serving s -> run_returned s.(h_world) && negb s.(h_panicked) = false.
Proof. intros [(_ & th & Hi & Hl) _]. unfold run_returned. rewrite Hi. by destruct th. Qed.

Definition worker_life : WorkerLife worker_sys :=
  Build_WorkerLife worker_sys worker_serving worker_serving_step worker_serving_returned (fun s Hs => proj2 Hs).

End Instance.

(** A worker goes on while the runner does nothing else. *)
Lemma work_steps {W : WorkerSys} size (r : Runner) k id s s' :
  r.(panicked) = false -> r.(workers) !! k = Some (id, s) ->
  rtc (fun x y => wstep x y /\ wfatal y = false) s s' -> rtc (rstep size) r (put_worker k s' r).
Proof.
  intros Hp Hk Hst. revert r Hp Hk. induction Hst as [s|s s1 s' [Hs Hf] _ IH]; intros r Hp Hk.
  - enough (put_worker k s r = r) as -> by done. destruct r. unfold put_worker. cbn in *. f_equal.
    apply list_eq. intros j. rewrite list_lookup_alter. case_decide; [|done]. subst. by rewrite Hk.
  - assert (work k s1 r = put_worker k s1 r) as Hw by (unfold work, put_worker; cbn; by rewrite Hf).
    eapply rtc_l; [eapply r_work; [done|exact Hk|exact Hs]|]. rewrite Hw.
    replace (put_worker k s' r) with (put_worker k s' (put_worker k s1 r)).
    + apply IH; [done|]. cbn. rewrite list_lookup_alter, decide_True by done. by rewrite Hk.
    + unfold put_worker. cbn. f_equal. apply list_eq. intros j.
      destruct (decide (k = j)) as [->|Hne]; [|by rewrite !list_lookup_alter_ne].
      rewrite !list_lookup_alter_eq. by destruct (workers r !! j).
Qed.

(** A worker that did not panic on the way. *)
Lemma hosted_steps {E : Engine} {JS : Json} {CR : Cron job} wf_of now id w w' :
  rtc (undisturbed (wf_of id)) w w' -> w'.(crashed) = false ->
  rtc (fun x y => @wstep (worker_sys wf_of now) x y /\ @wfatal (worker_sys wf_of now) y = false)
    (mkHosted id w false) (mkHosted id w' false).
Proof.
  intros Hst Hc. induction Hst as [w|w w1 w' Hu Hst IH]; [done|]. specialize (IH Hc).
  assert (w1.(crashed) = false) as H1.
  { destruct (crashed w1) eqn:H1; [|done]. inversion Hst as [|? w2 ? [Hs _]]; subst; [congruence|].
    by apply crashed_stops in Hs. }
  eapply rtc_l; [|exact IH]. split; [|done]. apply (goes wf_of (mkHosted id w false)); cbn; [done|congruence].
Qed.

(** One slot; its workflow is created, runs up to its loop, and is to be
    deleted. *)
#[local] Existing Instances small_json small_engine.
#[local] Instance sample_sys : WorkerSys := worker_sys (fun _ => publishing) 100.
#[local] Instance sample_panics : WorkerPanics sample_sys := worker_panics (fun _ => publishing) 100.
#[local] Instance sample_life : WorkerLife sample_sys := worker_life (fun _ => publishing) 100 (fun _ => eq_refl).

Definition deletion : WfEvent := mkWfEvent WfCmdDelete (Some 1) [].
Definition booted : world := default (NewWorker publishing 100) (calm_all publishing boot (NewWorker publishing 100)).

Definition full : Runner :=
  mkRunner {[1 := 0%nat]} [(1, mkHosted 1 booted false)] [0%nat] [] None [] (Some deletion) [] [] false.

Lemma boot_steps : rtc (undisturbed publishing) (NewWorker publishing 100) booted.
Proof. unfold booted. destruct (calm_all _ _ _) eqn:H; [|done]. by eapply calm_all_steps. Qed.

Lemma full_reachable : rreachable 1 [create_event 1] full.
Proof.
  unfold rreachable. eapply rtc_l; [by apply r_init|]. eapply rtc_l; [by apply r_invoke|].
  etrans; [apply (work_steps (W := sample_sys) 1 _ 0 1 (mkHosted 1 (NewWorker publishing 100) false)
                    (mkHosted 1 booted false)); [done..|]|].
  - apply (hosted_steps (fun _ => publishing) 100 1); [exact boot_steps|by vm_compute].
  - eapply rtc_l; [by apply (r_receive _ _ deletion)|]. eapply rtc_l; [by apply r_listen|].
    eapply rtc_l; [by apply r_take|]. done.
Qed.

Lemma full_pool_is_stuck_witness :
  rreachable 1 [create_event 1] full /\
  forall r', rtc (rstep 1) full r' -> r'.(consumer) = Some deletion /\ r'.(destroyers) = [].
Proof.
  split; [exact full_reachable|]. intros r' Hst.
  destruct (full_pool_is_stuck 1 deletion full r') as (H1 & H2 & _); [|done|by split].
  split; [done| |done|done]. intros k Hk. apply list_elem_of_singleton in Hk as ->.
  exists 1, (mkHosted 1 booted false). split; [done|]. split; [|done]. split; [exact boot_steps|].
  exists [ORunLoop]. by vm_compute.
Defined.

(** A workflow whose second task names a client it does not have.  The first task
    is set up, [Run] hears of it and starts the tasks: at the second one it
    panics. *)
Definition leaky : Wf :=
  mkWf 1 "wf" 9
    [("a", mkWTask (mkTask 5 "a" "" "" ["c"] 0 "" "{}" "" 1 "") "" "" {["c" := "7"]});
     ("u", mkWTask (mkTask 6 "u" "" "" ["ghost"] 0 "" "{}" "" 1 "") "" "" ∅)] [] [] [mkNamed 7 "c"].

Definition leaky_run : list choice :=
  boot ++ [Run 7 calm; Run 7 calm; Run 1 (hears "task set"); Run 1 calm; Run 1 calm; Meet 1 0] ++ replicate 6 (Run 0 calm).

Definition leaky_world : world := default (NewWorker leaky 100) (calm_all leaky leaky_run (NewWorker leaky 100)).
Definition leaky_panic : world := default leaky_world (run_thread leaky 0 calm leaky_world).

Definition leaky_sys : WorkerSys := worker_sys (fun _ => leaky) 100.
Definition leaky_panics : WorkerPanics leaky_sys := worker_panics (fun _ => leaky) 100.

Definition leaked : @Runner leaky_sys :=
  @mkRunner leaky_sys {[1 := 0%nat]} [(1, mkHosted 1 (unwind leaky_panic) true)] [] [] None [] None [] [] false.

Lemma leaky_steps : rtc (undisturbed leaky) (NewWorker leaky 100) leaky_world.
Proof. unfold leaky_world. destruct (calm_all _ _ _) eqn:H; [|done]. by eapply calm_all_steps. Qed.

Lemma leaky_panics_in_run : run_thread leaky 0 calm leaky_world = Some leaky_panic.
Proof. by vm_compute. Qed.

Lemma leaked_reachable : @rreachable leaky_sys 1 [create_event 1] leaked.
Proof.
  unfold rreachable. eapply rtc_l; [by apply r_init|]. eapply rtc_l; [by apply r_invoke|].
  etrans; [apply (work_steps (W := leaky_sys) 1 _ 0 1 (mkHosted 1 (NewWorker leaky 100) false)
                    (mkHosted 1 leaky_world false)); [done..|]|].
  - apply (hosted_steps (fun _ => leaky) 100 1); [exact leaky_steps|by vm_compute].
  - eapply rtc_l; [eapply (r_work (W := leaky_sys) 1 _ 0 1); [done|reflexivity|]|].
    + apply (unwinds (fun _ => leaky) (mkHosted 1 leaky_world false) leaky_panic).
      * split; [eapply step_run, leaky_panics_in_run|].
        unfold calls_destroy. intros Hd. apply (f_equal (fun l => last l)) in Hd. rewrite last_snoc in Hd. by vm_compute in Hd.
      * by vm_compute.
      * left. exists calm. apply leaky_panics_in_run.
    + eapply rtc_l; [by apply (r_panic (W := leaky_sys) 1 _ 0)|]. done.
Qed.

Lemma runner_map_sound_witness :
  leaked.(wfMap) !! 1 = Some 0%nat /\ leaked.(slots) = [] /\
  exists s, leaked.(workers) !! 0%nat = Some (1, s) /\ (0%nat ∈ leaked.(slots) \/ @run_panicked leaky_sys s = true).
Proof.
  split_and!; [done|done|].
  apply (proj2 (proj2 (@runner_map_sound leaky_sys leaky_panics 1 [create_event 1] leaked 1 0%nat leaked_reachable))). done.
Defined.
