(* ===== verification/AgentBolt.v ===== *)
(** The agent's database: what [kairosdeamon/agent/store.go] uses of boltdb.

    Bolt is a library, so its operations are the class [Bolt]: buckets are
    named by their path from the root, and [bucket d p] is the content of the
    bucket at [p], keys with their values.  [BoltLaws] states what bolt
    documents.  A function passed to [db.Update] is a program of the monad [tx],
    which threads the memory the function captured and the transaction's
    database.  A cursor over a bucket that changed since the cursor was placed
    is outside bolt's documentation: such a run ends in [Undocumented].

    [flat_bolt] is an instance, used to run the store on examples. *)

From Stdlib Require Import Ascii.
From stdpp Require Import sorting strings.
From S2P Require Import Prelude GoStrings.

#[local] Open Scope Z_scope.

(** Paths of buckets, from the root. *)
Notation path := (list string) (only parsing).

(** bolt's bounds on keys and values. *)
Definition MaxKeySize : Z := 32768.
Definition MaxValueSize : Z := 2 ^ 31 - 2.

Definition key_fits (k : string) : bool :=
  bool_decide (k <> "") && bool_decide (Z.of_nat (String.length k) <= MaxKeySize).
Definition value_fits (v : string) : bool :=
  bool_decide (Z.of_nat (String.length v) <= MaxValueSize).

(** Each operation gives the database after it and its error. *)
Class Bolt := {
  db : Type;
  db_new : db;
  bucket : db -> path -> option (gmap string string);
  (** what a cursor goes over, [First] first *)
  cursor : db -> path -> list (string * string);
  CreateBucketIfNotExists : path -> db -> db * option string;
  Put : path -> string -> string -> db -> db * option string;
  Delete : path -> string -> db -> db * option string;
  DeleteBucket : path -> db -> db * option string
}.

(** Byte order of keys. *)
Fixpoint bytes_le (s t : list ascii) : bool :=
  match s, t with
  | [], _ => true
  | _ :: _, [] => false
  | a :: s', b :: t' =>
      let m := Ascii.nat_of_ascii a in
      let n := Ascii.nat_of_ascii b in
      bool_decide (m < n)%nat || (bool_decide (m = n) && bytes_le s' t')
  end.
Definition key_le (x y : string * string) : Prop := bytes_le (explode x.1) (explode y.1) = true.

#[export] Instance key_le_dec x y : Decision (key_le x y).
Proof. unfold key_le. apply _. Defined.

Definition sorted_entries (m : gmap string string) : list (string * string) :=
  merge_sort key_le (map_to_list m).

(** A bucket without buckets in it. *)
Definition flat `{Bolt} (d : db) (p : path) : Prop := forall k, bucket d (p ++ [k]) = None.

Definition at_path (p q : path) (x y : option (gmap string string)) : option (gmap string string) :=
  if bool_decide (q = p) then x else y.

Class BoltLaws (B : Bolt) : Prop := {
  bucket_new : forall p, bucket db_new p = None;
  (** A cursor goes over the keys in byte order. *)
  cursor_flat : forall d p m, bucket d p = Some m -> flat d p -> cursor d p = sorted_entries m;
  (** [CreateBucketIfNotExists]: in an existing bucket or at the root, unless a
      plain key has the name. *)
  create_either : forall d p k, (p = [] \/ exists m, bucket d p = Some m /\ m !! k = None) ->
    (exists e, CreateBucketIfNotExists (p ++ [k]) d = (d, Some e)) \/
    (exists d', CreateBucketIfNotExists (p ++ [k]) d = (d', None) /\
       forall q, bucket d' q = at_path (p ++ [k]) q (Some (default ∅ (bucket d (p ++ [k])))) (bucket d q));
  create_ok : forall d p k, key_fits k = true ->
    (p = [] \/ exists m, bucket d p = Some m /\ m !! k = None) ->
    snd (CreateBucketIfNotExists (p ++ [k]) d) = None;
  create_exists : forall d p, is_Some (bucket d p) -> CreateBucketIfNotExists p d = (d, None);
  create_blank : forall d p, bucket d (p ++ [""]) = None -> exists e, CreateBucketIfNotExists (p ++ [""]) d = (d, Some e);
  (** [Put]: unless a bucket has the key. *)
  put_either : forall d p k v m, bucket d p = Some m -> bucket d (p ++ [k]) = None ->
    (exists e, Put p k v d = (d, Some e)) \/
    (exists d', Put p k v d = (d', None) /\
       forall q, bucket d' q = at_path p q (Some (<[k := v]> m)) (bucket d q));
  put_ok : forall d p k v m, key_fits k = true -> value_fits v = true ->
    bucket d p = Some m -> bucket d (p ++ [k]) = None -> snd (Put p k v d) = None;
  (** [Delete] of a key that is not there does nothing. *)
  delete_ok : forall d p k m, bucket d p = Some m -> bucket d (p ++ [k]) = None ->
    exists d', Delete p k d = (d', None) /\
      forall q, bucket d' q = at_path p q (Some (base.delete k m)) (bucket d q);
  (** [DeleteBucket] takes the buckets inside with it. *)
  drop_missing : forall d p, bucket d p = None -> exists e, DeleteBucket p d = (d, Some e);
  drop_ok : forall d p, is_Some (bucket d p) -> exists d', DeleteBucket p d = (d', None) /\
      forall q, bucket d' q = if bool_decide (p `prefix_of` q) then None else bucket d q
}.

(** ** Transactions *)

Inductive tres (A : Type) : Type :=
| Done (a : A)
| Failed (e : string)
| Panicked (p : panic)
| Undocumented.
Arguments Done {A} _.
Arguments Failed {A} _.
Arguments Panicked {A} _.
Arguments Undocumented {A}.

Section Tx.
Context {B : Bolt}.

(** [M] is the memory the function captured. *)
Definition tx (M A : Type) : Type := M -> db -> tres A * M * db.

#[export] Instance tx_ret {M} : MRet (tx M) := fun A a m d => (Done a, m, d).

#[export] Instance tx_bind {M} : MBind (tx M) := fun A A' f x m d =>
  match x m d with
  | (Done a, m', d') => f a m' d'
  | (Failed e, m', d') => (Failed e, m', d')
  | (Panicked p, m', d') => (Panicked p, m', d')
  | (Undocumented, m', d') => (Undocumented, m', d')
  end.

Definition fail {M A} (e : string) : tx M A := fun m d => (Failed e, m, d).
Definition crash {M A} (p : panic) : tx M A := fun m d => (Panicked p, m, d).
Definition undocumented {M A} : tx M A := fun m d => (Undocumented, m, d).
Definition load {M} : tx M M := fun m d => (Done m, m, d).
Definition save {M} (m : M) : tx M unit := fun _ d => (Done tt, m, d).

Definition lift {M} (f : db -> db * option string) : tx M unit := fun m d =>
  match f d with
  | (d', None) => (Done tt, m, d')
  | (d', Some e) => (Failed e, m, d')
  end.
Definition create {M} (p : path) : tx M unit := lift (CreateBucketIfNotExists p).
Definition put {M} (p : path) (k v : string) : tx M unit := lift (Put p k v).
Definition remove {M} (p : path) (k : string) : tx M unit := lift (Delete p k).
Definition drop_bucket {M} (p : path) : tx M unit := lift (DeleteBucket p).

(** [Bucket.Get]; a call on a missing bucket dereferences nil. *)
Definition get {M} (p : path) (k : string) : tx M (option string) := fun m d =>
  match bucket d p with
  | Some b => (Done (b !! k), m, d)
  | None => (Panicked NilDereference, m, d)
  end.

(** [Bucket.Bucket]: whether the bucket is there. *)
Definition has_bucket {M} (p : path) : tx M bool := fun m d => (Done (bool_decide (is_Some (bucket d p))), m, d).

(** [Bucket.Cursor] *)
Definition entries {M} (p : path) : tx M (list (string * string)) := fun m d =>
  match bucket d p with
  | Some _ => (Done (cursor d p), m, d)
  | None => (Panicked NilDereference, m, d)
  end.

(** An error the caller drops: [None]. *)
Definition attempt {M A} (x : tx M A) : tx M (option A) := fun m d =>
  match x m d with
  | (Done a, m', d') => (Done (Some a), m', d')
  | (Failed _, m', d') => (Done None, m', d')
  | (Panicked p, m', d') => (Panicked p, m', d')
  | (Undocumented, m', d') => (Undocumented, m', d')
  end.
Definition ignore {M A} (x : tx M A) : tx M unit := attempt x ≫= fun _ => mret tt.

(** A call whose function captured other memory. *)
Definition with_memory {M N A} (n : N) (x : tx N A) : tx M (A * N) := fun m d =>
  match x n d with
  | (Done a, n', d') => (Done (a, n'), m, d')
  | (Failed e, _, d') => (Failed e, m, d')
  | (Panicked p, _, d') => (Panicked p, m, d')
  | (Undocumented, _, d') => (Undocumented, m, d')
  end.

(** [Cursor.Next] on a bucket that no longer is what the cursor was placed on. *)
Definition still {M} (p : path) (seen : list (string * string)) : tx M unit :=
  now ← entries p;
  if bool_decide (now = seen) then mret tt else undocumented.

(** [for k, v := c.First(); k != nil; k, v = c.Next()] *)
Fixpoint for_each {M} (body : string -> string -> tx M unit) (p : path)
    (seen todo : list (string * string)) : tx M unit :=
  match todo with
  | [] => mret tt
  | (k, v) :: todo' => body k v;; still p seen;; for_each body p seen todo'
  end.
Definition walk {M} (p : path) (body : string -> string -> tx M unit) : tx M unit :=
  seen ← entries p;
  for_each body p seen seen.

End Tx.

(** ** The order of keys *)

Lemma bytes_le_total s t : bytes_le s t = true \/ bytes_le t s = true.
Proof.
  revert t. induction s as [|a s IH]; intros [|b t]; simpl; [by left|by left|by right|].
  rewrite !orb_true_iff, !andb_true_iff, !bool_decide_eq_true.
  destruct (IH t); destruct (Nat.lt_trichotomy (Ascii.nat_of_ascii a) (Ascii.nat_of_ascii b)) as [|[|]]; auto 6.
Qed.

Lemma bytes_le_trans s t u : bytes_le s t = true -> bytes_le t u = true -> bytes_le s u = true.
Proof.
  revert t u. induction s as [|a s IH]; intros [|b t] [|c u]; simpl; try done.
  rewrite !orb_true_iff, !andb_true_iff, !bool_decide_eq_true.
  intros [H1|[H1 H1']] [H2|[H2 H2']]; [left; lia|left; lia|left; lia|right].
  split; [congruence|by eapply IH].
Qed.

#[export] Instance key_le_total : Total key_le.
Proof. intros x y. apply bytes_le_total. Qed.
#[export] Instance key_le_trans : Transitive key_le.
Proof. intros x y z. apply bytes_le_trans. Qed.

Lemma elem_of_entries m k v : (k, v) ∈ sorted_entries m <-> m !! k = Some v.
Proof. unfold sorted_entries. by rewrite merge_sort_Permutation, elem_of_map_to_list. Qed.

(** The first entry has the least key. *)
Lemma entries_head m k v rest k' v' :
  sorted_entries m = (k, v) :: rest -> m !! k' = Some v' -> k' <> k ->
  bytes_le (explode k) (explode k') = true.
Proof.
  intros E Hk Hn. pose proof (StronglySorted_merge_sort key_le (map_to_list m)) as Hs.
  unfold sorted_entries in E. rewrite E in Hs. apply StronglySorted_inv in Hs as [_ Hs].
  apply elem_of_entries in Hk. unfold sorted_entries in Hk. rewrite E in Hk.
  apply elem_of_cons in Hk as [[= -> ->]|Hk]; [done|]. rewrite Forall_forall in Hs. apply (Hs _ Hk).
Qed.

(** ** An instance: buckets by path *)

Notation flat_db := (gmap (list string) (gmap string string)).

Definition flat_create (p : path) (d : flat_db) : flat_db * option string :=
  match d !! p with
  | Some _ => (d, None)
  | None =>
      match last p with
      | None | Some "" => (d, Some "bucket name required")
      | Some _ => (<[p := ∅]> d, None)
      end
  end.

Definition flat_put (p : path) (k v : string) (d : flat_db) : flat_db * option string :=
  if negb (key_fits k) then (d, Some "key required")
  else if negb (value_fits v) then (d, Some "value too large")
  else (<[p := <[k := v]> (default ∅ (d !! p))]> d, None).

Definition flat_delete (p : path) (k : string) (d : flat_db) : flat_db * option string :=
  (<[p := base.delete k (default ∅ (d !! p))]> d, None).

Definition flat_drop (p : path) (d : flat_db) : flat_db * option string :=
  match d !! p with
  | None => (d, Some "bucket not found")
  | Some _ => (filter (fun x => ~ p `prefix_of` x.1) d, None)
  end.

#[export] Instance flat_bolt : Bolt := {|
  db := flat_db;
  db_new := ∅;
  bucket d p := d !! p;
  cursor d p := sorted_entries (default ∅ (d !! p));
  CreateBucketIfNotExists := flat_create;
  Put := flat_put;
  Delete := flat_delete;
  DeleteBucket := flat_drop
|}.

Lemma lookup_at (d : flat_db) p q x : <[p := x]> d !! q = at_path p q (Some x) (d !! q).
Proof.
  unfold at_path. destruct (bool_decide_reflect (q = p)) as [->|Hn].
  - by rewrite lookup_insert_eq.
  - by rewrite lookup_insert_ne.
Qed.

#[export] Instance flat_bolt_laws : BoltLaws flat_bolt.
Proof.
  split; unfold bucket, CreateBucketIfNotExists, Put, Delete, DeleteBucket; simpl.
  - intros p. apply lookup_empty.
  - intros d p m E _. by rewrite E.
  - intros d p k _. unfold flat_create. destruct (d !! (p ++ [k])) as [m|] eqn:E.
    { right. exists d. split; [done|]. intros q. unfold at_path.
      by destruct (bool_decide_reflect (q = p ++ [k])) as [->|]. }
    rewrite last_snoc. destruct k as [|a k]; [by left; eexists|right].
    eexists; split; [done|]. intros q; apply lookup_at.
  - intros d p k Hk _. unfold flat_create. destruct (d !! (p ++ [k])); [done|]. rewrite last_snoc. by destruct k.
  - intros d p [m E]. unfold flat_create. by rewrite E.
  - intros d p E. unfold flat_create. rewrite E, last_snoc. by eexists.
  - intros d p k v m E _. unfold flat_put. rewrite E.
    destruct (key_fits k); [|by left; eexists]. destruct (value_fits v); [right|by left; eexists].
    eexists; split; [done|]. intros q; apply lookup_at.
  - intros d p k v m Hk Hv _ _. unfold flat_put. by rewrite Hk, Hv.
  - intros d p k m E _. unfold flat_delete. rewrite E. eexists; split; [done|]. intros q; apply lookup_at.
  - intros d p E. unfold flat_drop. rewrite E. by eexists.
  - intros d p [m E]. unfold flat_drop. rewrite E. eexists; split; [done|]. intros q.
    destruct (bool_decide_reflect (p `prefix_of` q)) as [Hp|Hp].
    + apply map_lookup_filter_None. right. intros x _ Hn. by apply Hn.
    + destruct (d !! q) as [x|] eqn:Eq.
      * apply map_lookup_filter_Some. done.
      * apply map_lookup_filter_None. by left.
Qed.
