(* ===== verification/AgentData.v ===== *)
(** The agent's data: [kairosdeamon/agent/task.go], [execution.go] and
    [pkg/ntime].

    Tasks as the agent keeps them, executions, records of brokers, with the
    operations on them that touch nothing else.  Instants are nanoseconds since
    the Unix epoch.  [encoding/json] on a type is the class [Codec]; the parser
    of schedules and the time zones are the class [GoTime]. *)

From Stdlib Require Import Ascii.
From stdpp Require Import pretty strings.
From S2P Require Import Prelude GoStrings Value Compile WorkerData.

#[local] Open Scope Z_scope.

(** ** Instants *)

Definition second : Z := 1000000000.

(** [time.Time{}]: the first of January of the year 1. *)
Definition zero_time : Z := -62135596800 * second.

(** [Time.Unix] and [Time.UnixNano] *)
Definition Unix (t : Z) : Z := t / second.
Definition UnixNano (t : Z) : Z := wrap_i64 t.

(** [NullableTime] *)
Record NullableTime := mkNT { nt_hasValue : bool; nt_time : Z }.

Definition no_time : NullableTime := mkNT false zero_time.
Definition NT_HasValue (t : NullableTime) : bool := t.(nt_hasValue).
Definition NT_Set (newTime : Z) (_ : NullableTime) : NullableTime := mkNT true newTime.
Definition NT_Unset (t : NullableTime) : NullableTime := mkNT false t.(nt_time).
Definition NT_Get (t : NullableTime) : outcome string Z :=
  if t.(nt_hasValue) then Ok t.(nt_time)
  else Panic (ExplicitPanic "runtime error: attempt to get value of NullableTime set to nil.").

Definition NT_After (t u : NullableTime) : bool :=
  if negb t.(nt_hasValue) then false
  else if negb u.(nt_hasValue) then true
  else bool_decide (u.(nt_time) < t.(nt_time)).

(** ** Numbers in text

    [strconv.ParseInt] with base 10 and 64 bits, whose error the agent always
    drops: a syntax error gives 0, a number out of range the nearest bound. *)
Definition digit_of (c : ascii) : option Z :=
  let n := Z.of_nat (nat_of_ascii c) in
  if bool_decide (48 <= n <= 57) then Some (n - 48) else None.

Fixpoint digits_value (acc : Z) (l : list ascii) : option Z :=
  match l with
  | [] => Some acc
  | c :: l' => d ← digit_of c; digits_value (10 * acc + d) l'
  end.

Definition parse_unsigned (l : list ascii) : option Z :=
  match l with [] => None | _ => digits_value 0 l end.

Definition ParseInt (s : string) : Z :=
  match explode s with
  | "-"%char :: l => match parse_unsigned l with Some n => Z.max (- n) (- 2 ^ 63) | None => 0 end
  | "+"%char :: l => match parse_unsigned l with Some n => Z.min n (2 ^ 63 - 1) | None => 0 end
  | l => match parse_unsigned l with Some n => Z.min n (2 ^ 63 - 1) | None => 0 end
  end.

(** [strings.Contains] *)
Definition Contains (s sub : string) : bool := bool_decide (is_Some (String.index 0 sub s)).

(** [encoding/json] on [T]: [Unmarshal] writes into a value, also before it
    fails.  Results that are errors are on the left. *)
Class Codec (T : Type) := {
  marshal : T -> string + string;
  unmarshal : string -> T -> T * option string
}.

(** Schedules ([extcron.Parse] and [Schedule.Next]), [time.LoadLocation] and
    [time.ParseDuration], the last two by their error. *)
Class GoTime := {
  cron_next : string -> string + (Z -> Z);
  LoadLocation : string -> option string;
  ParseDuration : string -> option string
}.

(** ** Status values *)

Definition StatusNotSet : string := "".
Definition StatusSuccess : string := "success".
Definition StatusRunning : string := "running".
Definition StatusFailed : string := "failed".
Definition StatusPartiallyFailed : string := "partially_failed".

Definition PendingTask : Z := 0.
Definition RunningTask : Z := 1.
Definition FaultTask : Z := 2.

(** [Execution] *)
Record Execution := mkExecution {
  e_Id : string;
  e_TaskID : string;
  e_StartedAt : Z;
  e_FinishedAt : Z;
  e_Success : bool;
  e_Output : string;
  e_NodeName : string;
  e_Group : string;
  e_Attempt : Z;
  e_Offset : Z;
  e_Part : string;
  e_Parent : string;
  e_Status : Z
}.

Definition zero_execution : Execution :=
  mkExecution "" "" zero_time zero_time false "" "" "" 0 0 "" "" 0.

Definition NewExecution (taskID group : string) : Execution :=
  mkExecution "" taskID zero_time zero_time false "" "" group 1 0 "" "" 0.

Definition Execution_Key (e : Execution) : string :=
  pretty (UnixNano e.(e_StartedAt)) +:+ "-" +:+ e.(e_NodeName).

Definition GetGroup (e : Execution) : string := e.(e_Group).

Definition GetResult (e : Execution) : Result :=
  mkResult e.(e_Success) e.(e_Output) e.(e_Attempt)
    (if bool_decide (1 < e.(e_Offset)) then 0 else Unix e.(e_StartedAt))
    (if bool_decide (Unix e.(e_FinishedAt) < 0) then 0 else Unix e.(e_FinishedAt))
    e.(e_Offset) 0.

(** [BrokerRecordLocal] *)
Record BrokerRecordLocal := mkBrokerRecord {
  brl_ID : Z;
  brl_Status : Z;
  brl_Input : string;
  brl_Output : string;
  brl_BrokerID : Z;
  brl_CreatedAt : Z;
  brl_WorkflowID : Z
}.
Definition zero_record : BrokerRecordLocal := mkBrokerRecord 0 0 "" "" 0 0 0.

Section TaskData.
Context {E : Engine}.

(** [Task]; [at_Agent] and [at_logger] say whether the pointers are set.  The
    channel [Result] is made and never used. *)
Record ATask := mkATask {
  at_ID : string;
  at_Name : string;
  at_WorkflowID : Z;
  at_Timezone : string;
  at_Schedule : string;
  at_SuccessCount : Z;
  at_ErrorCount : Z;
  at_LastSuccess : NullableTime;
  at_LastError : NullableTime;
  at_Disabled : bool;
  at_Metadata : gmap string string;
  at_Agent : bool;
  at_Trigger : option Trigger;
  at_Retries : Z;
  at_Executor : string;
  at_ExecutorConfig : gmap string EV;
  at_Status : string;
  at_Next : Z;
  at_Ephemeral : bool;
  at_ExpiresAt : NullableTime;
  at_UserDefineVars : gmap string string;
  at_Wait : string;
  at_Input : string;
  at_logger : bool
}.

Definition put_at_SuccessCount (v : Z) (x : ATask) : ATask :=
  mkATask x.(at_ID) x.(at_Name) x.(at_WorkflowID) x.(at_Timezone) x.(at_Schedule) v
    x.(at_ErrorCount) x.(at_LastSuccess) x.(at_LastError) x.(at_Disabled) x.(at_Metadata)
    x.(at_Agent) x.(at_Trigger) x.(at_Retries) x.(at_Executor) x.(at_ExecutorConfig)
    x.(at_Status) x.(at_Next) x.(at_Ephemeral) x.(at_ExpiresAt) x.(at_UserDefineVars)
    x.(at_Wait) x.(at_Input) x.(at_logger).
Definition put_at_ErrorCount (v : Z) (x : ATask) : ATask :=
  mkATask x.(at_ID) x.(at_Name) x.(at_WorkflowID) x.(at_Timezone) x.(at_Schedule)
    x.(at_SuccessCount) v x.(at_LastSuccess) x.(at_LastError) x.(at_Disabled) x.(at_Metadata)
    x.(at_Agent) x.(at_Trigger) x.(at_Retries) x.(at_Executor) x.(at_ExecutorConfig)
    x.(at_Status) x.(at_Next) x.(at_Ephemeral) x.(at_ExpiresAt) x.(at_UserDefineVars)
    x.(at_Wait) x.(at_Input) x.(at_logger).
Definition put_at_LastSuccess (v : NullableTime) (x : ATask) : ATask :=
  mkATask x.(at_ID) x.(at_Name) x.(at_WorkflowID) x.(at_Timezone) x.(at_Schedule)
    x.(at_SuccessCount) x.(at_ErrorCount) v x.(at_LastError) x.(at_Disabled) x.(at_Metadata)
    x.(at_Agent) x.(at_Trigger) x.(at_Retries) x.(at_Executor) x.(at_ExecutorConfig)
    x.(at_Status) x.(at_Next) x.(at_Ephemeral) x.(at_ExpiresAt) x.(at_UserDefineVars)
    x.(at_Wait) x.(at_Input) x.(at_logger).
Definition put_at_LastError (v : NullableTime) (x : ATask) : ATask :=
  mkATask x.(at_ID) x.(at_Name) x.(at_WorkflowID) x.(at_Timezone) x.(at_Schedule)
    x.(at_SuccessCount) x.(at_ErrorCount) x.(at_LastSuccess) v x.(at_Disabled) x.(at_Metadata)
    x.(at_Agent) x.(at_Trigger) x.(at_Retries) x.(at_Executor) x.(at_ExecutorConfig)
    x.(at_Status) x.(at_Next) x.(at_Ephemeral) x.(at_ExpiresAt) x.(at_UserDefineVars)
    x.(at_Wait) x.(at_Input) x.(at_logger).
Definition put_at_Status (v : string) (x : ATask) : ATask :=
  mkATask x.(at_ID) x.(at_Name) x.(at_WorkflowID) x.(at_Timezone) x.(at_Schedule)
    x.(at_SuccessCount) x.(at_ErrorCount) x.(at_LastSuccess) x.(at_LastError) x.(at_Disabled)
    x.(at_Metadata) x.(at_Agent) x.(at_Trigger) x.(at_Retries) x.(at_Executor)
    x.(at_ExecutorConfig) v x.(at_Next) x.(at_Ephemeral) x.(at_ExpiresAt) x.(at_UserDefineVars)
    x.(at_Wait) x.(at_Input) x.(at_logger).
Definition put_at_Next (v : Z) (x : ATask) : ATask :=
  mkATask x.(at_ID) x.(at_Name) x.(at_WorkflowID) x.(at_Timezone) x.(at_Schedule)
    x.(at_SuccessCount) x.(at_ErrorCount) x.(at_LastSuccess) x.(at_LastError) x.(at_Disabled)
    x.(at_Metadata) x.(at_Agent) x.(at_Trigger) x.(at_Retries) x.(at_Executor)
    x.(at_ExecutorConfig) x.(at_Status) v x.(at_Ephemeral) x.(at_ExpiresAt)
    x.(at_UserDefineVars) x.(at_Wait) x.(at_Input) x.(at_logger).
Definition put_at_logger (v : bool) (x : ATask) : ATask :=
  mkATask x.(at_ID) x.(at_Name) x.(at_WorkflowID) x.(at_Timezone) x.(at_Schedule)
    x.(at_SuccessCount) x.(at_ErrorCount) x.(at_LastSuccess) x.(at_LastError) x.(at_Disabled)
    x.(at_Metadata) x.(at_Agent) x.(at_Trigger) x.(at_Retries) x.(at_Executor)
    x.(at_ExecutorConfig) x.(at_Status) x.(at_Next) x.(at_Ephemeral) x.(at_ExpiresAt)
    x.(at_UserDefineVars) x.(at_Wait) x.(at_Input) v.
Definition put_at_Agent (v : bool) (x : ATask) : ATask :=
  mkATask x.(at_ID) x.(at_Name) x.(at_WorkflowID) x.(at_Timezone) x.(at_Schedule)
    x.(at_SuccessCount) x.(at_ErrorCount) x.(at_LastSuccess) x.(at_LastError) x.(at_Disabled)
    x.(at_Metadata) v x.(at_Trigger) x.(at_Retries) x.(at_Executor) x.(at_ExecutorConfig)
    x.(at_Status) x.(at_Next) x.(at_Ephemeral) x.(at_ExpiresAt) x.(at_UserDefineVars)
    x.(at_Wait) x.(at_Input) x.(at_logger).
Definition put_at_Input (v : string) (x : ATask) : ATask :=
  mkATask x.(at_ID) x.(at_Name) x.(at_WorkflowID) x.(at_Timezone) x.(at_Schedule)
    x.(at_SuccessCount) x.(at_ErrorCount) x.(at_LastSuccess) x.(at_LastError) x.(at_Disabled)
    x.(at_Metadata) x.(at_Agent) x.(at_Trigger) x.(at_Retries) x.(at_Executor)
    x.(at_ExecutorConfig) x.(at_Status) x.(at_Next) x.(at_Ephemeral) x.(at_ExpiresAt)
    x.(at_UserDefineVars) x.(at_Wait) v x.(at_logger).
Definition put_at_Schedule (v : string) (x : ATask) : ATask :=
  mkATask x.(at_ID) x.(at_Name) x.(at_WorkflowID) x.(at_Timezone) v x.(at_SuccessCount)
    x.(at_ErrorCount) x.(at_LastSuccess) x.(at_LastError) x.(at_Disabled) x.(at_Metadata)
    x.(at_Agent) x.(at_Trigger) x.(at_Retries) x.(at_Executor) x.(at_ExecutorConfig)
    x.(at_Status) x.(at_Next) x.(at_Ephemeral) x.(at_ExpiresAt) x.(at_UserDefineVars)
    x.(at_Wait) x.(at_Input) x.(at_logger).
Definition put_at_Trigger (v : option Trigger) (x : ATask) : ATask :=
  mkATask x.(at_ID) x.(at_Name) x.(at_WorkflowID) x.(at_Timezone) x.(at_Schedule)
    x.(at_SuccessCount) x.(at_ErrorCount) x.(at_LastSuccess) x.(at_LastError) x.(at_Disabled)
    x.(at_Metadata) x.(at_Agent) v x.(at_Retries) x.(at_Executor) x.(at_ExecutorConfig)
    x.(at_Status) x.(at_Next) x.(at_Ephemeral) x.(at_ExpiresAt) x.(at_UserDefineVars)
    x.(at_Wait) x.(at_Input) x.(at_logger).

Definition zero_atask : ATask :=
  mkATask "" "" 0 "" "" 0 0 no_time no_time false ∅ false None 0 "" ∅ "" zero_time false no_time
    ∅ "" "" false.

(** ** Operations on tasks *)

(** [Setup]: [ec] is the decoded payload, [vars] the task's [UserDefineVars]. *)
Definition Setup (ec : string + gmap string EV) (wt : WTask) (vars : gmap string string)
    (t : ATask) : ATask * option string :=
  match ec with
  | inl e => (t, Some e)
  | inr c =>
      (mkATask (pretty (t_ID wt.(tk))) (t_Name wt.(tk)) (t_WorkflowID wt.(tk)) (t_Timezone wt.(tk))
         (t_Schedule wt.(tk)) t.(at_SuccessCount) t.(at_ErrorCount) t.(at_LastSuccess) t.(at_LastError)
         t.(at_Disabled) wt.(tk_Metadata) t.(at_Agent) t.(at_Trigger) (t_Retries wt.(tk))
         (t_Executor wt.(tk)) c t.(at_Status) t.(at_Next) t.(at_Ephemeral) t.(at_ExpiresAt) vars
         (t_Wait wt.(tk)) wt.(tk_Input) t.(at_logger), None)
  end.

Definition ToCmdTask (t : ATask) : CmdTask :=
  put_c_Task (Some (msg_task (ParseInt t.(at_ID)) t.(at_WorkflowID) "" "" "")) zero_cmd.

Definition ToCmdReplyTask (t : ATask) : CmdReplyTask :=
  put_r_TaskName t.(at_Name)
    (put_r_WorkflowID t.(at_WorkflowID) (put_r_TaskID (ParseInt t.(at_ID)) zero_reply)).

(** [isRunnable] at the time [now]. *)
Definition isRunnable (now : Z) (t : ATask) : bool :=
  negb (t.(at_Disabled)
        || (NT_HasValue t.(at_ExpiresAt) && bool_decide (t.(at_ExpiresAt).(nt_time) < now))).

Context {T : GoTime}.

Definition Validate (t : ATask) : option string :=
  if bool_decide (t.(at_ID) = "") then Some "id cannot be empty"
  else
    match (if bool_decide (t.(at_Schedule) <> "") then cron_next t.(at_Schedule) else inr id) with
    | inl e => Some ("can't parse task schedule: " +:+ e)
    | inr _ =>
        match LoadLocation t.(at_Timezone) with
        | Some e => Some e
        | None =>
            if bool_decide (t.(at_Executor) = "shell") then
              match t.(at_ExecutorConfig) !! "timeout" ≫= ev_as_string with
              | Some timeout =>
                  if bool_decide (timeout = "") then None
                  else if ParseDuration timeout then Some "Error parsing task timeout value" else None
              | None => None
              end
            else None
        end
    end.

(** [GetNext]: the next run after [now]; the zero time without a schedule. *)
Definition GetNext (now : Z) (t : ATask) : string + Z :=
  if bool_decide (t.(at_Schedule) <> "") then
    match cron_next t.(at_Schedule) with
    | inl e => inl e
    | inr next => inr (next now)
    end
  else inr zero_time.

Definition Task_String (t : ATask) : string :=
  String "034" ("Task: " +:+ t.(at_Name) +:+ ", id: " +:+ t.(at_ID) +:+ ", scheduled at: "
    +:+ t.(at_Schedule) +:+ String "034" "").

End TaskData.

(** ** Numbers and their text *)

Lemma digit_of_char x : (x < 10)%N -> digit_of (pretty_N_char x) = Some (Z.of_N x).
Proof. intros H. do 10 (destruct x as [|x] using N.peano_ind; [done|clear IHx]). lia. Qed.

Lemma digits_value_go x s :
  digits_value 0 (explode (pretty_N_go x s)) = digits_value (Z.of_N x) (explode s).
Proof.
  revert s. induction (N.lt_wf_0 x) as [x _ IH]; intros s.
  destruct (decide (0 < x)%N) as [Hx|Hx]; [|by replace x with 0%N by lia].
  rewrite pretty_N_go_step by done. rewrite IH by (by apply N.div_lt). simpl.
  rewrite digit_of_char by (by apply N.mod_lt). simpl. f_equal.
  rewrite N2Z.inj_div, N2Z.inj_mod. pose proof (Z.div_mod (Z.of_N x) 10). lia.
Qed.

Lemma digits_value_pretty x : 0 <= x -> digits_value 0 (explode (pretty x)) = Some x.
Proof.
  destruct x as [|x|x]; intros H; [done| |lia].
  unfold pretty, pretty_Z, pretty, pretty_positive, pretty, pretty_N. rewrite decide_False by done.
  apply digits_value_go.
Qed.

(** Digits are above the signs. *)
Lemma pretty_digits x : 0 <= x -> exists c l, explode (pretty x) = c :: l /\ is_Some (digit_of c).
Proof.
  intros H. pose proof (digits_value_pretty x H) as Hv. destruct (explode (pretty x)) as [|c l] eqn:E.
  - injection Hv as <-. discriminate E.
  - exists c, l. split; [done|]. simpl in Hv. by destruct (digit_of c).
Qed.

(** [ParseInt] reads what [Sprint] wrote of an [int64]. *)
Lemma ParseInt_pretty x : - 2 ^ 63 <= x < 2 ^ 63 -> ParseInt (pretty x) = x.
Proof.
  intros Hx. destruct (decide (0 <= x)) as [H|H].
  - pose proof (digits_value_pretty x H) as Hv. destruct (pretty_digits x H) as (c & l & E & Hc).
    unfold ParseInt. rewrite E in *.
    assert (parse_unsigned (c :: l) = Some x) as Hp by done.
    destruct (decide (c = "-"%char)) as [->|]; [by destruct Hc|].
    destruct (decide (c = "+"%char)) as [->|]; [by destruct Hc|].
    transitivity (match parse_unsigned (c :: l) with Some n => Z.min n (2 ^ 63 - 1) | None => 0 end);
      [|rewrite Hp; lia].
    clear - n n0. by destruct c as [[] [] [] [] [] [] [] []].
  - destruct x as [|p|p]; [lia..|]. pose proof (digits_value_pretty (Z.pos p) ltac:(lia)) as Hv.
    destruct (pretty_digits (Z.pos p) ltac:(lia)) as (c & l & E & _).
    unfold ParseInt. change (explode (pretty (Z.neg p))) with ("-"%char :: explode (pretty (Z.pos p))).
    cbv beta iota. rewrite E in *. unfold parse_unsigned. rewrite Hv. lia.
Qed.

Lemma digit_of_range c d : digit_of c = Some d -> 0 <= d <= 9.
Proof. unfold digit_of. case_bool_decide; [|done]. intros [= <-]. lia. Qed.

Lemma digits_value_bounds acc l x :
  0 <= acc -> digits_value acc l = Some x ->
  acc * 10 ^ Z.of_nat (length l) <= x < (acc + 1) * 10 ^ Z.of_nat (length l).
Proof.
  revert acc. induction l as [|c l IH]; intros acc Ha H; simpl in *; [injection H; lia|].
  destruct (digit_of c) as [d|] eqn:Ed; [|done]. simpl in H.
  pose proof (digit_of_range _ _ Ed) as Hd.
  apply IH in H; [|lia]. rewrite Nat2Z.inj_succ, Z.pow_succ_r by lia.
  assert (0 < 10 ^ Z.of_nat (length l)) by (apply Z.pow_pos_nonneg; lia). nia.
Qed.

Lemma digit_of_order c1 c2 d1 d2 :
  digit_of c1 = Some d1 -> digit_of c2 = Some d2 ->
  d1 - d2 = Z.of_nat (nat_of_ascii c1) - Z.of_nat (nat_of_ascii c2).
Proof.
  unfold digit_of. intros H1 H2. repeat case_bool_decide; try done. injection H1. injection H2. lia.
Qed.
