(* ===== verification/ExtCron.v ===== *)
(** Schedules: [pkg/extcron], the parser that the scheduler of the runner and the
    agent use.

    A schedule is a function that gives the time of the next run after a time,
    and the zero time when there is none.  The standard parser of robfig/cron and
    the dates of RFC 3339 are parameters; [ext_time] is the interface the agent's
    tasks use, by this parser. *)

From stdpp Require Import strings.
From S2P Require Import Prelude GoStrings AgentData.

#[local] Open Scope Z_scope.

(** [SimpleSchedule], [At] and [Next] *)
Record SimpleSchedule := mkSimple { ss_Date : Z }.
Definition At (date : Z) : SimpleSchedule := mkSimple date.
Definition SimpleSchedule_Next (s : SimpleSchedule) (t : Z) : Z :=
  if bool_decide (t < s.(ss_Date)) then s.(ss_Date) else zero_time.

Section Parser.
Context (std_parse : string -> string + (Z -> Z)) (rfc3339 : string -> string + Z).

Definition at_prefix : string := "@at ".

(** [ExtParser.Parse] *)
Definition Parse (spec : string) : string + (Z -> Z) :=
  if bool_decide (spec = "@manually") then inr (SimpleSchedule_Next (At zero_time))
  else
    let spec := if bool_decide (spec = "@minutely") then "0 * * * * *" else spec in
    if HasPrefix spec at_prefix then
      match rfc3339 (String.substring 4 (String.length spec - 4) spec) with
      | inl e => inl ("failed to parse date " +:+ spec +:+ ": " +:+ e)
      | inr date => inr (SimpleSchedule_Next (At date))
      end
    else std_parse spec.

(** The times of the runs of a schedule from [t] on, at most [n]: a cron asks for
    the next time after the one it ran at. *)
Fixpoint runs (n : nat) (next : Z -> Z) (t : Z) : list Z :=
  match n with
  | O => []
  | S n' => let t' := next t in if bool_decide (t' = zero_time) then [] else t' :: runs n' next t'
  end.

(** A schedule made of a date runs once, at the date, when it is yet to come, and
    never when it is past or the schedule is manual. *)
Theorem simple_schedule_runs_once date n t :
  zero_time < date ->
  runs (S n) (SimpleSchedule_Next (At date)) t = (if bool_decide (t < date) then [date] else []) /\
  (forall t', zero_time <= t' -> runs (S n) (SimpleSchedule_Next (At zero_time)) t' = []).
Proof.
  intros Hd. assert (forall m u, date <= u -> runs m (SimpleSchedule_Next (At date)) u = []) as Hpast.
  { intros [|m] u Hu; [done|]. simpl. unfold SimpleSchedule_Next. simpl.
    rewrite (bool_decide_false (u < date)) by lia. by rewrite bool_decide_true. }
  split.
  - destruct (bool_decide_reflect (t < date)) as [Ht|Ht]; [|apply Hpast; lia].
    cbn [runs]. assert (SimpleSchedule_Next (At date) t = date) as ->.
    { unfold SimpleSchedule_Next. simpl. by rewrite bool_decide_true. }
    rewrite bool_decide_false by lia. by rewrite Hpast.
  - intros t' Ht. simpl. unfold SimpleSchedule_Next. simpl. rewrite (bool_decide_false (t' < zero_time)) by lia.
    by rewrite bool_decide_true.
Qed.

End Parser.

Lemma simple_schedule_runs_once_witness :
  runs 3 (SimpleSchedule_Next (At 100)) 50 = [100] /\
  (forall t', zero_time <= t' -> runs 3 (SimpleSchedule_Next (At zero_time)) t' = []).
Proof. apply (simple_schedule_runs_once 100 2 50). unfold zero_time, second. lia. Defined.

(** The interface of tasks by this parser. *)
Definition ext_time (std_parse : string -> string + (Z -> Z)) (rfc3339 : string -> string + Z)
    (location duration : string -> option string) : GoTime := {|
  cron_next := Parse std_parse rfc3339;
  LoadLocation := location;
  ParseDuration := duration
|}.
