(* ===== verification/AgentStore.v ===== *)
(** The agent's store: [kairosdeamon/agent/store.go].

    The store keeps tasks, brokers, executions, queues of inputs, scripts,
    triggers and settings in a bolt database.  A workflow's bucket indexes its
    tasks and brokers.  Functions passed to [db.Update] are programs of [tx];
    functions that open a transaction themselves are programs of [tx] run by
    [Begin], whose memory is the value they collect.  Some of these return
    without closing the transaction: bolt has one writer at a time, so every
    later call on the store blocks. *)

From stdpp Require Import pretty strings.
From S2P Require Import Prelude GoStrings Value Compile WorkerData AgentBolt AgentData.

#[local] Open Scope Z_scope.

(** ** Buckets *)

Definition ErrNotFound : string := "not found".

Definition workflowBucket : string := "workflows".
Definition tasksBucket : string := "tasks".
Definition executionsBucket : string := "executions".
Definition metaBucket : string := "meta".
Definition brokersBucket : string := "brokers".
Definition queueBucket : string := "queue".
Definition brokerRecordBucket : string := "broker_record".
Definition scriptBucket : string := "script".
Definition triggerBucket : string := "trigger".

Definition executionsPrefix : string := "executions".

(** The index of a workflow. *)
Definition wf_tasks (w : string) : list string := [workflowBucket; w; tasksBucket].
Definition wf_brokers (w : string) : list string := [workflowBucket; w; brokersBucket].

(** [TaskOptions] and [BrOptions] *)
Record TaskOptions := mkTaskOptions {
  o_Metadata : gmap string string;
  o_Sort : string;
  o_WorkflowID : Z;
  o_Query : string;
  o_Status : string;
  o_Disabled : string;
  o_NoScheduler : string;
  o_Name : string
}.
Record BrOptions := mkBrOptions { bo_WorkflowID : Z; bo_BrokerID : Z }.

(** [WorkflowInfo] *)
Record WorkflowInfo := mkWorkflowInfo { TaskIDs : list Z; BrokerIDs : list Z }.

(** ** Sessions *)

(** How a call of the store ends: it returns, waits for ever for the writer's
    lock, panics, or bolt does not say. *)
Inductive called (A : Type) : Type :=
| Returned (a : A)
| Blocks
| Crashed (p : panic)
| Unknown.
Arguments Returned {A} _.
Arguments Blocks {A}.
Arguments Crashed {A} _.
Arguments Unknown {A}.

#[export] Instance called_fmap : FMap called := fun A A' f x =>
  match x with
  | Returned a => Returned (f a)
  | Blocks => Blocks
  | Crashed p => Crashed p
  | Unknown => Unknown
  end.

Section Store.
Context {E : Engine} {B : Bolt} {T : GoTime}.
Context {CT : Codec ATask} {CB : Codec BrokerObj} {CE : Codec Execution}
        {CR : Codec BrokerRecordLocal} {CG : Codec Trigger}.

(** [Store]: the committed database, whether a writing transaction was left
    open, whether the database was closed. *)
Record Store := mkStore { s_db : db; s_open : bool; s_closed : bool }.

Definition new_store (d : db) : Store := mkStore d false false.
Definition put_db (d : db) (s : Store) : Store := mkStore d s.(s_open) s.(s_closed).
Definition left_open (s : Store) : Store := mkStore s.(s_db) true s.(s_closed).

Definition ErrDatabaseNotOpen : string := "database not open".

(** The end of a transaction; [commit] is the error of [Commit]. *)
Definition finish {M} (commit : option string) (d : db) (m : M) (s : Store)
    : Store * (M * called (option string)) :=
  match commit with
  | None => (put_db d s, (m, Returned None))
  | Some e => (s, (m, Returned (Some e)))
  end.

(** [tx, err := db.Begin(true)] and the code up to the end of the function;
    [deferred] when it defers [tx.Rollback]. *)
Definition Begin {M} (deferred : bool) (commit : option string) (body : tx M unit) (m : M) (s : Store)
    : Store * (M * called (option string)) :=
  if s.(s_open) then (s, (m, Blocks))
  else if s.(s_closed) then (s, (m, Returned (Some ErrDatabaseNotOpen)))
  else
    let after := if deferred then s else left_open s in
    match body m s.(s_db) with
    | (Done _, m', d') => finish commit d' m' s
    | (Failed e, m', _) => (after, (m', Returned (Some e)))
    | (Panicked p, m', _) => (after, (m', Crashed p))
    | (Undocumented, m', _) => (after, (m', Unknown))
    end.

(** [db.Update] *)
Definition Update {M} (commit : option string) (f : tx M unit) (m : M) (s : Store)
    : Store * (M * called (option string)) := Begin true commit f m s.

(** The functions on scripts use the transaction before they look at the error
    of [Begin]. *)
Definition BeginUnchecked {M} (commit : option string) (body : tx M unit) (m : M) (s : Store)
    : Store * (M * called (option string)) :=
  if negb s.(s_open) && s.(s_closed) then (s, (m, Crashed NilDereference))
  else Begin false commit body m s.

(** What a function returns: its error only, its value with the error. *)
Definition error_only {M} (x : Store * (M * called (option string))) : Store * called (option string) :=
  (x.1, x.2.2).
Definition with_value {M} (x : Store * (M * called (option string)))
    : Store * called (M * option string) := (x.1, (fun e => (x.2.1, e)) <$> x.2.2).
(** [nil] in place of the value when there is an error. *)
Definition or_nil {M} (x : Store * (list M * called (option string)))
    : Store * called (list M * option string) :=
  (x.1, (fun e => (match e with None => x.2.1 | Some _ => [] end, e)) <$> x.2.2).

(** [db.Close] waits for the transactions that are open. *)
Definition Shutdown (s : Store) : Store * called (option string) :=
  if s.(s_open) then (s, Blocks) else (mkStore s.(s_db) false true, Returned None).

(** An error of [json], raised. *)
Definition decode {T' M} `{Codec T'} (b : string) (x : T') : tx M (T' * option string) :=
  mret (unmarshal b x).
Definition check {M} (e : option string) : tx M unit :=
  match e with None => mret tt | Some e => fail e end.
Definition encode {T' M} `{Codec T'} (x : T') : tx M string :=
  match marshal x with inl e => fail e | inr b => mret b end.

(** ** Settings *)

Definition GetMeta (commit : option string) (key : string) : Store -> Store * called (string * option string) :=
  fun s => with_value (Begin true commit (
    create [metaBucket];;
    v ← get [metaBucket] key;
    save (default "" v)) "" s).

(** [getMetaTxFunc] points its own parameter at the value: the caller's variable
    stays as it was. *)
Definition getMetaTxFunc (key : string) : tx string unit :=
  create [metaBucket];;
  get [metaBucket] key;;
  mret tt.

Definition setMetaTxFunc {M} (key value : string) : tx M unit :=
  create [metaBucket];;
  ignore (put [metaBucket] key value).

Definition SetMeta (commit : option string) (key value : string) : Store -> Store * called (option string) :=
  fun s => error_only (Update commit (setMetaTxFunc key value) tt s).

(** ** Records of brokers *)

Definition setBrokerRecordTxFunc {M} (br : BrokerRecordLocal) : tx M unit :=
  create [brokerRecordBucket];;
  create [brokerRecordBucket; pretty br.(brl_BrokerID)];;
  v ← encode br;
  ignore (put [brokerRecordBucket; pretty br.(brl_BrokerID)] (pretty br.(brl_BrokerID)) v).

Definition deleteBrokerRecordTxFunc {M} (brokerID : string) : tx M unit :=
  create [brokerRecordBucket];;
  there ← has_bucket [brokerRecordBucket; brokerID];
  if (there : bool) then drop_bucket [brokerRecordBucket; brokerID] else mret tt.

Definition SetBrokerRecord (commit : option string) (br : BrokerRecordLocal)
    : Store -> Store * called (option string) :=
  fun s => error_only (Update commit (setBrokerRecordTxFunc br) tt s).

Definition brFn (options : BrOptions) (br : BrokerRecordLocal) : bool :=
  bool_decide (options.(bo_WorkflowID) = 0) || bool_decide (options.(bo_WorkflowID) = br.(brl_WorkflowID)).

(** Decode each value a cursor gives and keep those [keep] accepts. *)
Definition collect {T'} `{Codec T'} (zero : T') (adjust : T' -> T') (keep : T' -> bool) (p : list string)
    : tx (list T') unit :=
  walk p (fun _ v =>
    '(x, e) ← decode v zero;
    check e;;
    xs ← load;
    save (if keep (adjust x) then xs ++ [adjust x] else xs)).

Definition GetBrokerRecord (commit : option string) (options : option BrOptions)
    : Store -> Store * called (list BrokerRecordLocal * option string) :=
  fun s => with_value (Begin false commit (
    create [brokerRecordBucket];;
    match options with
    | None => crash NilDereference
    | Some o =>
        create [brokerRecordBucket; pretty o.(bo_BrokerID)];;
        collect zero_record id (brFn o) [brokerRecordBucket; pretty o.(bo_BrokerID)]
    end) [] s).

(** ** Tasks *)

Definition FormatBool (b : bool) : string := if b then "true" else "false".

Definition taskHasMetadata (task : ATask) (metadata : gmap string string) : bool :=
  bool_decide (task.(at_Metadata) <> ∅)
  && bool_decide (map_Forall (fun k v => task.(at_Metadata) !! k = Some v) metadata).

Definition tasksFn (o : TaskOptions) (task : ATask) : bool :=
  (bool_decide (o.(o_WorkflowID) = 0) || bool_decide (o.(o_WorkflowID) = task.(at_WorkflowID)))
  && (bool_decide (o.(o_Metadata) = ∅) || taskHasMetadata task o.(o_Metadata))
  && (bool_decide (o.(o_Query) = "") || Contains task.(at_Name) o.(o_Query))
  && (bool_decide (o.(o_Disabled) = "") || bool_decide (FormatBool task.(at_Disabled) = o.(o_Disabled)))
  && (bool_decide (task.(at_Status) = "")
      || (bool_decide (o.(o_Status) = "") || bool_decide (task.(at_Status) = o.(o_Status))))
  && (bool_decide (o.(o_NoScheduler) = "")
      || (bool_decide (o.(o_NoScheduler) = "true") && bool_decide (task.(at_Schedule) = ""))
      || (bool_decide (o.(o_NoScheduler) = "false") && bool_decide (task.(at_Schedule) <> "")))
  && (bool_decide (o.(o_Name) = "") || bool_decide (task.(at_Name) = o.(o_Name))).

(** The options of a call without options. *)
Definition any_task : TaskOptions := mkTaskOptions ∅ "id" 0 "" "" "" "" "".

Definition GetTasks (commit : option string) (options : option TaskOptions)
    : Store -> Store * called (list ATask * option string) :=
  fun s => with_value (Begin true commit (
    create [tasksBucket];;
    collect zero_atask (put_at_logger true) (tasksFn (default any_task options)) [tasksBucket]) [] s).

(** The memory is the task the caller passed. *)
Definition getTaskTxFunc (taskID : string) : tx ATask unit :=
  create [tasksBucket];;
  v ← get [tasksBucket] taskID;
  match v with
  | None => fail ErrNotFound
  | Some v =>
      task ← load;
      '(task, e) ← decode v task;
      save task;;
      check e;;
      save (put_at_logger true task)
  end.

(** [GetTask] drops the error: an unknown task is the zero task. *)
Definition GetTask (commit : option string) (id : string) : Store -> Store * called (ATask * option string) :=
  fun s => let '(s, (task, r)) := Update commit (getTaskTxFunc id) zero_atask s in
           (s, (fun _ => (task, None)) <$> r).

(** What [setTaskTxFunc] takes over from the stored task [et]. *)
Definition merge_task (now : Z) (et task : ATask) : ATask * option string :=
  let task := if NT_After et.(at_LastError) task.(at_LastError)
              then put_at_LastError et.(at_LastError) task else task in
  let task := if NT_After et.(at_LastSuccess) task.(at_LastSuccess)
              then put_at_LastSuccess et.(at_LastSuccess) task else task in
  let task := if bool_decide (task.(at_SuccessCount) < et.(at_SuccessCount))
              then put_at_SuccessCount et.(at_SuccessCount) task else task in
  let task := if bool_decide (task.(at_ErrorCount) < et.(at_ErrorCount))
              then put_at_ErrorCount et.(at_ErrorCount) task else task in
  let task := if bool_decide (et.(at_Status) <> "") then put_at_Status et.(at_Status) task else task in
  if bool_decide (task.(at_Schedule) <> et.(at_Schedule)) then
    match GetNext now task with
    | inl e => (put_at_Next zero_time task, Some e)
    | inr next => (put_at_Next next task, None)
    end
  else if bool_decide (task.(at_Next) < et.(at_Next)) then (put_at_Next et.(at_Next) task, None)
  else (task, None).

(** [setTaskTxFunc]: the memory is the caller's task.  The text that is stored
    was made before the counts of the stored task were taken over. *)
Definition setTaskTxFunc (now : Z) : tx ATask unit :=
  task ← load;
  create [workflowBucket];;
  create [workflowBucket; pretty task.(at_WorkflowID)];;
  create (wf_tasks (pretty task.(at_WorkflowID)));;
  bt ← encode task;
  put (wf_tasks (pretty task.(at_WorkflowID))) task.(at_ID) bt;;
  attempt (create [tasksBucket]);;
  te ← get [tasksBucket] task.(at_ID);
  match te with
  | None => mret tt
  | Some te =>
      '(et, e) ← decode te zero_atask;
      check e;;
      let '(task, e) := merge_task now et task in
      save task;;
      check e
  end;;
  ignore (put [tasksBucket] task.(at_ID) bt).

Definition SetTask (commit : option string) (now : Z) (task : ATask)
    : Store -> Store * (ATask * called (option string)) :=
  fun s => Update commit (setTaskTxFunc now) task s.

Definition deleteTaskTxFunc {M} (taskID : string) : tx M unit :=
  create [tasksBucket];;
  te ← get [tasksBucket] taskID;
  match te with
  | None => fail ErrNotFound
  | Some te =>
      '(task, e) ← decode te zero_atask;
      check e;;
      create [workflowBucket];;
      create [workflowBucket; pretty task.(at_WorkflowID)];;
      create (wf_tasks (pretty task.(at_WorkflowID)));;
      remove (wf_tasks (pretty task.(at_WorkflowID))) (pretty task.(at_WorkflowID));;
      remove [tasksBucket] taskID
  end.

Definition deleteExecutionsTxFunc {M} (taskID : string) : tx M unit :=
  create [executionsBucket];;
  drop_bucket [executionsBucket; taskID].

(** [DeleteTask] drops the error of the transaction. *)
Definition DeleteTask (commit : option string) (id : string) : Store -> Store * called (option string) :=
  fun s => let '(s, (_, r)) := Update commit (deleteTaskTxFunc id;; deleteExecutionsTxFunc id) tt s in
           (s, (fun _ => None) <$> r).

(** ** Brokers *)

Definition setBrokerTxFunc {M} (broker : BrokerObj) : tx M unit :=
  let w := pretty (b_WorkflowID broker.(bo)) in
  let id := pretty (b_ID broker.(bo)) in
  create [workflowBucket];;
  create [workflowBucket; w];;
  create (wf_brokers w);;
  create [brokersBucket];;
  bt ← encode broker;
  ignore (put [brokersBucket] id bt);;
  ignore (put (wf_brokers w) id bt).

Definition SetBroker (commit : option string) (broker : BrokerObj) : Store -> Store * called (option string) :=
  fun s => error_only (Update commit (setBrokerTxFunc broker) tt s).

Definition zero_broker : BrokerObj := mkBrokerObj (mkBroker 0 "" "" [] [] (mkFlows None "") None 0) false.

Definition getBrokerTxFunc (brokerID : string) : tx BrokerObj unit :=
  create [brokersBucket];;
  v ← get [brokersBucket] brokerID;
  match v with
  | None => fail ErrNotFound
  | Some v =>
      broker ← load;
      '(broker, e) ← decode v broker;
      save broker;;
      check e
  end.

Definition GetBroker (commit : option string) (id : string) : Store -> Store * called (BrokerObj * option string) :=
  fun s => let '(s, (broker, r)) := Update commit (getBrokerTxFunc id) zero_broker s in
           (s, (fun _ => (broker, None)) <$> r).

Definition GetBrokers (commit : option string) : Store -> Store * called (list BrokerObj * option string) :=
  fun s => with_value (Begin true commit (
    create [brokersBucket];;
    collect zero_broker id (fun b => bool_decide (b_ID b.(bo) <> 0)) [brokersBucket]) [] s).

Definition deleteBrokerTxFunc {M} (brokerID : string) : tx M unit :=
  create [brokersBucket];;
  be ← get [brokersBucket] brokerID;
  match be with
  | None => fail ErrNotFound
  | Some be =>
      '(broker, e) ← decode be zero_broker;
      check e;;
      let w := pretty (b_WorkflowID broker.(bo)) in
      create [workflowBucket];;
      create [workflowBucket; w];;
      create (wf_brokers w);;
      remove (wf_brokers w) w;;
      remove [brokersBucket] brokerID
  end.

Definition DeleteBroker (commit : option string) (id : string) : Store -> Store * called (option string) :=
  fun s => let '(s, (_, r)) := Update commit (deleteBrokerTxFunc id;; deleteBrokerRecordTxFunc id) tt s in
           (s, (fun _ => None) <$> r).

(** ** Workflows *)

(** The buckets of a workflow, made when they are missing; the error of the
    first [Create] is overwritten by the second. *)
Definition open_workflow {M} (w : string) : tx M bool :=
  create [workflowBucket];;
  create [workflowBucket; w];;
  t ← attempt (create (wf_tasks w));
  create (wf_brokers w);;
  mret (bool_decide (is_Some t)).

(** The second loop starts at the first broker and goes on with the cursor of
    the tasks, which is at its end. *)
Definition first_broker {M} (w : string) (tasks : list (string * string)) (body : string -> tx M unit)
    : tx M unit :=
  brokers ← entries (wf_brokers w);
  match brokers with
  | [] => mret tt
  | (k, _) :: _ => body k;; still (wf_tasks w) tasks
  end.

Definition deleteWorkflowTxFunc {M} (w : string) : tx M unit :=
  opened ← open_workflow w;
  if negb opened then crash NilDereference
  else
    tasks ← entries (wf_tasks w);
    for_each (fun k _ => ignore (deleteTaskTxFunc k)) (wf_tasks w) tasks tasks;;
    first_broker w tasks (fun k => ignore (deleteBrokerTxFunc k));;
    drop_bucket [workflowBucket; w].

Definition DeleteWorkflow (commit : option string) (id : string) : Store -> Store * called (option string) :=
  fun s => let '(s, (_, r)) := Update commit (deleteWorkflowTxFunc id) tt s in
           (s, (fun _ => None) <$> r).

Definition getWorklowTxFunc (w : string) : tx WorkflowInfo unit :=
  opened ← open_workflow w;
  if negb opened then crash NilDereference
  else
    tasks ← entries (wf_tasks w);
    for_each (fun k _ =>
      wfi ← load; save (mkWorkflowInfo (wfi.(TaskIDs) ++ [ParseInt k]) wfi.(BrokerIDs))) (wf_tasks w) tasks tasks;;
    first_broker w tasks (fun k =>
      wfi ← load; save (mkWorkflowInfo wfi.(TaskIDs) (wfi.(BrokerIDs) ++ [ParseInt k]))).

Definition GetWorkflow (commit : option string) (id : string)
    : Store -> Store * called (WorkflowInfo * option string) :=
  fun s => let '(s, (wfi, r)) := Update commit (getWorklowTxFunc id) (mkWorkflowInfo [] []) s in
           (s, (fun _ => (wfi, None)) <$> r).

(** ** Queues: the inputs of a task, by the time they came at. *)

Definition setQueueTxFunc {M} (now : Z) (k v : string) : tx M unit :=
  create [queueBucket];;
  create [queueBucket; k];;
  put [queueBucket; k] (pretty (UnixNano now)) v.

Definition SetQueue (commit : option string) (now : Z) (k v : string) : Store -> Store * called (option string) :=
  fun s => error_only (Update commit (setQueueTxFunc now k v) tt s).

Definition GetQueue (commit : option string) (k : string) : Store -> Store * called (string * option string) :=
  fun s =>
    let '(s, (v, r)) := Begin false commit (
      create [queueBucket];;
      create [queueBucket; k];;
      c ← entries [queueBucket; k];
      match c with
      | (t, v) :: _ => remove [queueBucket; k] t;; save v
      | [] => mret tt
      end) "" s in
    (s, (fun e => (v, e)) <$> r).

(** ** Scripts *)

Definition setScriptTxFunc {M} (name script : string) : tx M unit :=
  create [scriptBucket];;
  put [scriptBucket] name script.

Definition SetScript (commit : option string) (name script : string) : Store -> Store * called (option string) :=
  fun s => error_only (Update commit (setScriptTxFunc name script) tt s).

Definition GetScript (commit : option string) (name : string) : Store -> Store * called (string * option string) :=
  fun s => with_value (BeginUnchecked commit (
    create [scriptBucket];;
    v ← get [scriptBucket] name;
    save (default "" v)) "" s).

Definition list_scripts (commit : option string) (item : string -> string -> string)
    : Store -> Store * called (list string * option string) :=
  fun s => with_value (BeginUnchecked commit (
    create [scriptBucket];;
    walk [scriptBucket] (fun k v => xs ← load; save (xs ++ [item k v]))) [] s).
Definition GetScripts (commit : option string) := list_scripts commit (fun _ v => v).
Definition ListScript (commit : option string) := list_scripts commit (fun k _ => k).

Definition DeleteScript (commit : option string) (name : string) : Store -> Store * called (option string) :=
  fun s => error_only (BeginUnchecked commit (
    create [scriptBucket];;
    remove [scriptBucket] name) tt s).

(** ** Executions *)

Definition setExecutionTxFunc {M} (taskID : string) (execution : Execution) : tx M unit :=
  opened ← attempt (create [executionsBucket]);
  if bool_decide (opened = None) then crash NilDereference
  else
    create [executionsBucket; taskID];;
    eb ← encode execution;
    put [executionsBucket; taskID] execution.(e_Id) eb.

Definition SetExecution (commit : option string) (taskID : string) (execution : Execution)
    : Store -> Store * called (option string) :=
  fun s => error_only (Update commit (setExecutionTxFunc taskID execution) tt s).

(** The task after an execution. *)
Definition count_execution (execution : Execution) (task : ATask) : ATask :=
  if execution.(e_Success) then
    put_at_SuccessCount (wrap_i64 (task.(at_SuccessCount) + 1))
      (put_at_LastSuccess (NT_Set execution.(e_FinishedAt) task.(at_LastSuccess)) task)
  else
    put_at_ErrorCount (wrap_i64 (task.(at_ErrorCount) + 1))
      (put_at_LastError (NT_Set execution.(e_FinishedAt) task.(at_LastError)) task).

Definition setExecutionDoneTxFunc {M} (now : Z) (taskID : string) (execution : Execution) : tx M unit :=
  setExecutionTxFunc taskID execution;;
  '(_, task) ← with_memory zero_atask (getTaskTxFunc taskID);
  with_memory (count_execution execution task) (setTaskTxFunc now);;
  mret tt.

Definition SetExecutionDone (commit : option string) (now : Z) (taskID : string) (execution : Execution)
    : Store -> Store * called (bool * option string) :=
  fun s => let '(s, r) := error_only (Update commit (setExecutionDoneTxFunc now taskID execution) tt s) in
           (s, (fun e => (bool_decide (e = None), e)) <$> r).

(** [unmarshalExecutions]; instants do not depend on the time zone. *)
Fixpoint unmarshalExecutions (items : list (string * string)) : list Execution * option string :=
  match items with
  | [] => ([], None)
  | (_, v) :: items' =>
      let '(ex, e) := unmarshal v zero_execution in
      match e with
      | Some e => ([], Some e)
      | None =>
          let '(rest, e) := unmarshalExecutions items' in
          (match e with None => ex :: rest | Some _ => [] end, e)
      end
  end.

Definition GetExecutions (commit : option string) (taskID : string)
    : Store -> Store * called (list Execution * option string) :=
  fun s =>
    let '(s, (kvs, r)) := Begin true commit (
      create [executionsBucket];;
      there ← has_bucket [executionsBucket; taskID];
      if negb there then fail ErrNotFound
      else walk [executionsBucket; taskID] (fun k v => xs ← load; save (xs ++ [(k, v)]))) [] s in
    (s, (fun e => match e with Some e => ([], Some e) | None => unmarshalExecutions kvs end) <$> r).

(** ** Status of a group of executions *)

Definition isDirectoryKey (key : string) : bool := HasSuffix key ":".
Definition trimDirectoryKey (key : string) : string :=
  if isDirectoryKey key then TrimSuffix key ":" else key.

(** [listTxFunc] on the items in the order the index gives them. *)
Fixpoint list_items (prefix : string) (items : list (string * string)) : list (string * string) * bool :=
  match items with
  | [] => ([], false)
  | (key, value) :: items' =>
      let '(kvs, found) := list_items prefix items' in
      if HasPrefix key prefix then
        (if bool_decide (trimDirectoryKey key = prefix) then kvs else (key, value) :: kvs, true)
      else (kvs, found)
  end.

Definition group_status (executions : list Execution) : string :=
  let success := length (filter (fun ex => ex.(e_Success) = true) executions) in
  let failed := length (filter (fun ex => ex.(e_Success) = false) executions) in
  if bool_decide (failed = 0%nat) then StatusSuccess
  else if bool_decide (success = 0%nat) then StatusFailed
  else StatusPartiallyFailed.

(** [computeStatus]; [items] is what the index of the database gives, in order. *)
Definition computeStatus (taskID exGroup : string) (items : string + list (string * string))
    : string * option string :=
  match items with
  | inl e => ("", Some e)
  | inr items =>
      let prefix := executionsPrefix +:+ ":" +:+ taskID +:+ ":" in
      let '(execs, e) := unmarshalExecutions (list_items prefix items).1 in
      match e with
      | Some e => ("", Some e)
      | None => (group_status (filter (fun ex => ex.(e_Group) = exGroup) execs), None)
      end
  end.

(** ** Triggers *)

Definition setTrigger {M} (tr : Trigger) : tx M unit :=
  create [triggerBucket];;
  trb ← encode tr;
  put [triggerBucket] (pretty tr.(tg_ID)) trb.

Definition SetTrigger (commit : option string) (tr : Trigger) : Store -> Store * called (option string) :=
  fun s => error_only (Update commit (setTrigger tr) tt s).

Definition GetTriggers (commit : option string) : Store -> Store * called (list Trigger * option string) :=
  fun s => or_nil (Begin true commit (
    opened ← attempt (create [triggerBucket]);
    if bool_decide (opened = None) then crash NilDereference
    else collect (trigger_with_id 0) id (fun _ => true) [triggerBucket]) [] s).

Definition DeleteTrigger (commit : option string) (trid : string) : Store -> Store * called (option string) :=
  fun s => error_only (Begin true commit (
    create [triggerBucket];;
    remove [triggerBucket] trid) tt s).

End Store.
