(* ===== verification/AgentStoreInv.v ===== *)
(** The layout of the agent's database and rules to reason on [tx] programs.

    [layout]: the buckets of the database are the ones the store makes, and the
    buckets that hold buckets hold no plain keys.  In such a database no
    operation of the store meets a key where it expects a bucket, so the laws of
    [BoltLaws] apply.  [change p g d d'] says what one operation does to the
    contents: the bucket at [p] becomes its image by [g] and all else stays. *)

From stdpp Require Import pretty strings sorting.
From S2P Require Import Prelude GoStrings Value Compile WorkerData AgentBolt AgentData AgentStore.

(** Buckets of buckets, and buckets of keys. *)
Definition inner (p : list string) : bool :=
  match p with
  | [a] => bool_decide (a = workflowBucket) || bool_decide (a = executionsBucket)
           || bool_decide (a = queueBucket) || bool_decide (a = brokerRecordBucket)
  | [a; _] => bool_decide (a = workflowBucket)
  | _ => false
  end.

Definition leaf (p : list string) : bool :=
  match p with
  | [a] => bool_decide (a = tasksBucket) || bool_decide (a = metaBucket) || bool_decide (a = brokersBucket)
           || bool_decide (a = scriptBucket) || bool_decide (a = triggerBucket)
  | [a; _] => bool_decide (a = executionsBucket) || bool_decide (a = queueBucket)
              || bool_decide (a = brokerRecordBucket)
  | [a; _; c] => bool_decide (a = workflowBucket)
                 && (bool_decide (c = tasksBucket) || bool_decide (c = brokersBucket))
  | _ => false
  end.

Section Layout.
Context {B : Bolt}.

Definition content (d : db) (p : list string) : gmap string string := default ∅ (bucket d p).

Definition layout (d : db) : Prop :=
  forall p m, bucket d p = Some m -> leaf p = true \/ (inner p = true /\ m = ∅).

Record change (p : list string) (g : gmap string string -> gmap string string) (d d' : db) : Prop := {
  ch_layout : layout d';
  ch_content : forall q, content d' q = if bool_decide (q = p) then g (content d p) else content d q;
  ch_there : forall q, is_Some (bucket d q) -> is_Some (bucket d' q);
  ch_other : forall q, q <> p -> bucket d' q = bucket d q
}.

(** Only empty buckets were made. *)
Record grown (d d' : db) : Prop := {
  gr_layout : layout d';
  gr_content : forall q, content d' q = content d q;
  gr_there : forall q, is_Some (bucket d q) -> is_Some (bucket d' q)
}.

Lemma grown_refl d : layout d -> grown d d.
Proof. by split. Qed.

Lemma grown_trans d1 d2 d3 : grown d1 d2 -> grown d2 d3 -> grown d1 d3.
Proof.
  intros [_ C1 T1] [L2 C2 T2]. split; [done| |auto]. intros q. by rewrite C2, C1.
Qed.

Lemma grown_missing d d' q : grown d d' -> bucket d' q = None -> bucket d q = None.
Proof. intros G H. apply eq_None_not_Some. intros Hs%(gr_there _ _ G). rewrite H in Hs. by destruct Hs. Qed.

(** The weakest precondition of a program. *)
Definition wp {M A} (x : tx M A) (Q : tres A -> M -> db -> Prop) (m : M) (d : db) : Prop :=
  Q (x m d).1.1 (x m d).1.2 (x m d).2.

Lemma wp_mono {M A} (x : tx M A) (Q Q' : tres A -> M -> db -> Prop) m d :
  wp x Q m d -> (forall r m' d', Q r m' d' -> Q' r m' d') -> wp x Q' m d.
Proof. unfold wp. auto. Qed.

Lemma wp_ret {M A} (a : A) (Q : tres A -> M -> db -> Prop) m d : Q (Done a) m d -> wp (mret a) Q m d.
Proof. done. Qed.

(** What is left of a program that ended early. *)
Definition early {A A' : Type} (r : tres A) : tres A' :=
  match r with Done _ | Undocumented => Undocumented | Failed e => Failed e | Panicked p => Panicked p end.

Lemma wp_bind {M A A'} (x : tx M A) (f : A -> tx M A') (Q : tres A' -> M -> db -> Prop) m d :
  wp x (fun r m' d' => match r with Done a => wp (f a) Q m' d' | _ => Q (early r) m' d' end) m d ->
  wp (x ≫= f) Q m d.
Proof. unfold wp, mbind, tx_bind. by destruct (x m d) as [[[] ?] ?]. Qed.

Lemma wp_attempt {M A} (x : tx M A) (Q : tres (option A) -> M -> db -> Prop) m d :
  wp x (fun r m' d' => match r with
                       | Done a => Q (Done (Some a)) m' d'
                       | Failed _ => Q (Done None) m' d'
                       | _ => Q (early r) m' d'
                       end) m d ->
  wp (attempt x) Q m d.
Proof. unfold wp, attempt. by destruct (x m d) as [[[] ?] ?]. Qed.

Lemma wp_ignore {M A} (x : tx M A) (Q : tres unit -> M -> db -> Prop) m d :
  wp x (fun r m' d' => match r with
                       | Done _ | Failed _ => Q (Done tt) m' d'
                       | _ => Q (early r) m' d'
                       end) m d ->
  wp (ignore x) Q m d.
Proof. intros H. apply wp_bind, wp_attempt. eapply wp_mono; [exact H|]. by intros []. Qed.

Lemma wp_load {M} (Q : tres M -> M -> db -> Prop) m d : Q (Done m) m d -> wp load Q m d.
Proof. done. Qed.

Lemma wp_save {M} (m' : M) (Q : tres unit -> M -> db -> Prop) m d : Q (Done tt) m' d -> wp (save m') Q m d.
Proof. done. Qed.

Lemma wp_fail {M A} e (Q : tres A -> M -> db -> Prop) m d : Q (Failed e) m d -> wp (fail e) Q m d.
Proof. done. Qed.

Lemma wp_crash {M A} p (Q : tres A -> M -> db -> Prop) m d : Q (Panicked p) m d -> wp (crash p) Q m d.
Proof. done. Qed.

Lemma wp_check {M} e (Q : tres unit -> M -> db -> Prop) m d :
  (e = None -> Q (Done tt) m d) -> (forall e', e = Some e' -> Q (Failed e') m d) -> wp (check e) Q m d.
Proof. destruct e; intros H1 H2; [by apply H2|by apply H1]. Qed.

Lemma wp_encode {T' M} `{Codec T'} (x : T') (Q : tres string -> M -> db -> Prop) m d :
  (forall e, marshal x = inl e -> Q (Failed e) m d) -> (forall b, marshal x = inr b -> Q (Done b) m d) ->
  wp (encode x) Q m d.
Proof. unfold encode. destruct (marshal x); intros H1 H2; [by apply H1|by apply H2]. Qed.

Lemma wp_has_bucket {M} p (Q : tres bool -> M -> db -> Prop) m d :
  Q (Done (bool_decide (is_Some (bucket d p)))) m d -> wp (has_bucket p) Q m d.
Proof. done. Qed.

Lemma wp_with_memory {M N A} (n : N) (x : tx N A) (Q : tres (A * N) -> M -> db -> Prop) m d :
  wp x (fun r n' d' => match r with Done a => Q (Done (a, n')) m d' | _ => Q (early r) m d' end) n d ->
  wp (with_memory n x) Q m d.
Proof. unfold wp, with_memory. by destruct (x n d) as [[[] ?] ?]. Qed.

Lemma wp_for_each {M} (body : string -> string -> tx M unit) p seen
    (J : list (string * string) -> M -> db -> Prop) (Q : tres unit -> M -> db -> Prop) todo m d :
  J todo m d ->
  (forall k v todo' m d, J ((k, v) :: todo') m d ->
     wp (body k v;; still p seen)
       (fun r m' d' => match r with Done _ => J todo' m' d' | _ => Q (early r) m' d' end) m d) ->
  (forall m d, J [] m d -> Q (Done tt) m d) ->
  wp (for_each body p seen todo) Q m d.
Proof.
  intros HJ Hstep Hend. revert m d HJ. induction todo as [|[k v] todo IH]; intros m d HJ; simpl.
  { by apply Hend. }
  apply wp_bind. specialize (Hstep _ _ _ _ _ HJ). unfold wp, mbind, tx_bind in *.
  destruct (body k v m d) as [[[] ?] ?]; try done.
  destruct (still p seen _ _) as [[[[]| | |] ?] ?]; try done. by apply IH.
Qed.

Lemma wp_get {M} p k (Q : tres (option string) -> M -> db -> Prop) m d :
  is_Some (bucket d p) -> Q (Done (content d p !! k)) m d -> wp (get p k) Q m d.
Proof. unfold wp, get, content. by intros [b ->]. Qed.

Lemma wp_entries {M} p (Q : tres (list (string * string)) -> M -> db -> Prop) m d :
  is_Some (bucket d p) -> Q (Done (cursor d p)) m d -> wp (entries p) Q m d.
Proof. unfold wp, entries. by intros [b ->]. Qed.

Lemma wp_still {M} p seen (Q : tres unit -> M -> db -> Prop) m d :
  is_Some (bucket d p) ->
  (cursor d p = seen -> Q (Done tt) m d) -> (cursor d p <> seen -> Q Undocumented m d) ->
  wp (still p seen) Q m d.
Proof.
  intros Hp H1 H2. apply wp_bind, wp_entries; [done|].
  destruct (bool_decide_reflect (cursor d p = seen)); [by apply wp_ret, H1|by apply H2].
Qed.

Context {L : BoltLaws B}.

Lemma inner_empty d p m : layout d -> bucket d p = Some m -> inner p = true -> m = ∅.
Proof.
  intros H E Hi. destruct (H _ _ E) as [Hl|[_ Hm]]; [exfalso|done].
  destruct p as [|a [|b [|c [|? ?]]]]; simpl in *; try done;
    rewrite !orb_true_iff, ?bool_decide_eq_true in *; repeat destruct_or!; subst; done.
Qed.

(** Nothing is below a bucket of keys. *)
Lemma leaf_flat d p : layout d -> leaf p = true -> flat d p.
Proof.
  intros H Hl k. destruct (bucket d (p ++ [k])) as [m|] eqn:E; [exfalso|done].
  apply H in E. destruct p as [|a [|b [|c [|? ?]]]]; simpl in *; try done; destruct E as [E|[E _]]; try done;
    rewrite ?andb_true_iff, ?orb_true_iff, ?bool_decide_eq_true in *; repeat destruct_or!; destruct_and?; subst; done.
Qed.

Lemma layout_new : layout db_new.
Proof. intros p m. by rewrite bucket_new. Qed.

(** The bucket at [p ++ [k]] can be made: at the root or below a bucket of buckets. *)
Definition reachable_bucket (d : db) (p : list string) : Prop :=
  p = [] \/ (inner p = true /\ is_Some (bucket d p)).

Lemma reachable_free d p k : layout d -> reachable_bucket d p ->
  p = [] \/ exists m, bucket d p = Some m /\ m !! k = None.
Proof.
  intros H [->|[Hi [m E]]]; [by left|right]. exists m. split; [done|].
  by rewrite (inner_empty _ _ _ H E Hi).
Qed.

Lemma grown_create d d' p :
  layout d -> leaf p || inner p = true ->
  (forall q, bucket d' q = at_path p q (Some (default ∅ (bucket d p))) (bucket d q)) ->
  grown d d' /\ is_Some (bucket d' p) /\ (forall q, q <> p -> bucket d' q = bucket d q).
Proof.
  unfold at_path. intros H Hp E. split_and!; [|rewrite E, bool_decide_true by done; by eexists|].
  2: { intros q Hq. by rewrite E, bool_decide_false. }
  split.
  - intros q m. rewrite E. destruct (bool_decide_reflect (q = p)) as [->|]; [|by apply H].
    intros [= <-]. destruct (bucket d p) as [m|] eqn:Ed; [by apply H|].
    apply orb_true_iff in Hp as [?|?]; [by left|by right].
  - intros q. unfold content. rewrite E. by destruct (bool_decide_reflect (q = p)) as [->|].
  - intros q Hq. rewrite E. by destruct (bool_decide_reflect (q = p)) as [->|].
Qed.

Lemma wp_create {M} p k (Q : tres unit -> M -> db -> Prop) m d :
  layout d -> reachable_bucket d p -> leaf (p ++ [k]) || inner (p ++ [k]) = true ->
  (bucket d (p ++ [k]) = None -> key_fits k = false -> forall e, Q (Failed e) m d) ->
  (forall d', grown d d' -> is_Some (bucket d' (p ++ [k])) ->
     (forall q, q <> p ++ [k] -> bucket d' q = bucket d q) -> Q (Done tt) m d') ->
  wp (create (p ++ [k])) Q m d.
Proof.
  intros H Hr Hp Hf Hd. unfold wp, create, lift. pose proof (reachable_free _ _ k H Hr) as Hk.
  destruct (decide (is_Some (bucket d (p ++ [k])))) as [Hs|Hn%eq_None_not_Some].
  { rewrite create_exists by done. apply Hd; [by apply grown_refl|done|done]. }
  destruct (create_either d p k Hk) as [[e E]|[d' [E Ed]]].
  - rewrite E. apply Hf; [done|]. destruct (key_fits k) eqn:Ek; [|done].
    pose proof (create_ok d p k Ek Hk) as Hok. by rewrite E in Hok.
  - rewrite E. destruct (grown_create d d' _ H Hp Ed) as (? & ? & ?). by apply Hd.
Qed.

(** The same where the name fits: it does not fail. *)
Lemma wp_create_fits {M} p k (Q : tres unit -> M -> db -> Prop) m d :
  layout d -> reachable_bucket d p -> leaf (p ++ [k]) || inner (p ++ [k]) = true -> key_fits k = true ->
  (forall d', grown d d' -> is_Some (bucket d' (p ++ [k])) ->
     (forall q, q <> p ++ [k] -> bucket d' q = bucket d q) -> Q (Done tt) m d') ->
  wp (create (p ++ [k])) Q m d.
Proof. intros H Hr Hp Hk Hd. apply wp_create; [done..|congruence|done]. Qed.

(** And where the bucket is there. *)
Lemma wp_create_exists {M} p (Q : tres unit -> M -> db -> Prop) m d :
  is_Some (bucket d p) -> Q (Done tt) m d -> wp (create p) Q m d.
Proof. intros H HQ. unfold wp, create, lift. by rewrite create_exists. Qed.

Lemma change_leaf d d' p m m' :
  layout d -> leaf p = true -> bucket d p = Some m ->
  (forall q, bucket d' q = at_path p q (Some m') (bucket d q)) ->
  change p (fun _ => m') d d'.
Proof.
  unfold at_path. intros H Hp Em E. split.
  - intros q x. rewrite E. destruct (bool_decide_reflect (q = p)) as [->|]; [by left|by apply H].
  - intros q. unfold content. rewrite E. by destruct (bool_decide_reflect (q = p)) as [->|].
  - intros q Hq. rewrite E. by destruct (bool_decide_reflect (q = p)) as [->|].
  - intros q Hq. by rewrite E, bool_decide_false.
Qed.

Lemma wp_put {M} p k v (Q : tres unit -> M -> db -> Prop) m d :
  layout d -> leaf p = true -> is_Some (bucket d p) ->
  (forall e, Q (Failed e) m d) ->
  (forall d', change p (fun _ => <[k := v]> (content d p)) d d' -> Q (Done tt) m d') ->
  wp (put p k v) Q m d.
Proof.
  intros H Hp [b Eb] Hf Hd. unfold wp, put, lift. unfold content in Hd. rewrite Eb in Hd.
  destruct (put_either d p k v b Eb (leaf_flat _ _ H Hp k)) as [[e E]|[d' [E Ed]]];
    rewrite E; [apply Hf|]. apply Hd. by eapply change_leaf.
Qed.

Lemma wp_put_fits {M} p k v (Q : tres unit -> M -> db -> Prop) m d :
  layout d -> leaf p = true -> is_Some (bucket d p) -> key_fits k = true -> value_fits v = true ->
  (forall d', change p (fun _ => <[k := v]> (content d p)) d d' -> Q (Done tt) m d') ->
  wp (put p k v) Q m d.
Proof.
  intros H Hp [b Eb] Hk Hv Hd. unfold wp, put, lift. unfold content in Hd. rewrite Eb in Hd.
  pose proof (leaf_flat _ _ H Hp k) as Hf. pose proof (put_ok d p k v b Hk Hv Eb Hf) as Hok.
  destruct (put_either d p k v b Eb Hf) as [[e E]|[d' [E Ed]]]; rewrite E in Hok |- *; [done|].
  apply Hd. by eapply change_leaf.
Qed.

Lemma wp_remove {M} p k (Q : tres unit -> M -> db -> Prop) m d :
  layout d -> leaf p = true -> is_Some (bucket d p) ->
  (forall d', change p (fun _ => base.delete k (content d p)) d d' -> Q (Done tt) m d') ->
  wp (remove p k) Q m d.
Proof.
  intros H Hp [b Eb] Hd. unfold wp, remove, lift. unfold content in Hd. rewrite Eb in Hd.
  destruct (delete_ok d p k b Eb (leaf_flat _ _ H Hp k)) as [d' [E Ed]]. rewrite E.
  apply Hd. by eapply change_leaf.
Qed.

(** A dropped bucket. *)
Record dropped (p : list string) (d d' : db) : Prop := {
  dr_layout : layout d';
  dr_bucket : forall q, bucket d' q = if bool_decide (p `prefix_of` q) then None else bucket d q
}.

Lemma wp_drop {M} p (Q : tres unit -> M -> db -> Prop) m d :
  layout d ->
  (bucket d p = None -> forall e, Q (Failed e) m d) ->
  (is_Some (bucket d p) -> forall d', dropped p d d' -> Q (Done tt) m d') ->
  wp (drop_bucket p) Q m d.
Proof.
  intros H Hf Hd. unfold wp, drop_bucket, lift. destruct (bucket d p) as [b|] eqn:E.
  - destruct (drop_ok d p) as [d' [-> Ed]]; [by eexists|]. apply Hd; [by eexists|]. split; [|done].
    intros q x. rewrite Ed. case_bool_decide; [done|apply H].
  - destruct (drop_missing d p E) as [e ->]. by apply Hf.
Qed.

Lemma content_dropped p d d' q :
  dropped p d d' -> content d' q = if bool_decide (p `prefix_of` q) then ∅ else content d q.
Proof. intros [_ E]. unfold content. rewrite E. by destruct (bool_decide _). Qed.

Lemma cursor_content d p : layout d -> leaf p = true -> is_Some (bucket d p) ->
  cursor d p = sorted_entries (content d p).
Proof.
  intros H Hp [m E]. unfold content. rewrite E. apply cursor_flat; [done|by apply leaf_flat].
Qed.

End Layout.
