(* ===== verification/AgentStoreSound.v ===== *)
(** What the agent's store guarantees.

    [store_stays_sound]: whatever operations run, in any order and with any
    failing commits, the database keeps its layout, every stored task is in the
    index of its workflow, and no transaction is left open, so no later call
    blocks. *)

From stdpp Require Import pretty strings sorting.
From S2P Require Import Prelude GoStrings Value Compile WorkerData AgentBolt AgentData AgentStore AgentStoreInv.

(** What [encoding/json] promises on tasks and records: the number of the
    workflow survives, and what was written can be read. *)
Class StoreCodecs `{Engine} (CT : Codec ATask) (CR : Codec BrokerRecordLocal) : Prop := {
  task_back : forall t b, marshal t = inr b ->
    exists t', unmarshal b zero_atask = (t', None) /\ t'.(at_WorkflowID) = t.(at_WorkflowID);
  record_back : forall r b, marshal (T:=BrokerRecordLocal) r = inr b -> (unmarshal b zero_record).2 = None
}.

Create HintDb store.
#[export] Hint Resolve gr_layout gr_there ch_layout ch_there dr_layout grown_refl : store.

Section Props.
Context {E : Engine} {B : Bolt} {T : GoTime}.
Context {CT : Codec ATask} {CB : Codec BrokerObj} {CE : Codec Execution}
        {CR : Codec BrokerRecordLocal} {CG : Codec Trigger}.
Context {L : BoltLaws B} {J : StoreCodecs CT CR}.

(** A stored task is listed by its workflow.  Deleting a task takes the key of
    the workflow's own number out of the index, hence the exception. *)
Definition indexed (d : db) : Prop :=
  forall k v t, content d [tasksBucket] !! k = Some v -> unmarshal v zero_atask = (t, None) ->
    k <> pretty t.(at_WorkflowID) ->
    is_Some (content d (wf_tasks (pretty t.(at_WorkflowID))) !! k).

Definition readable (d : db) : Prop :=
  forall b k v, content d [brokerRecordBucket; b] !! k = Some v -> (unmarshal v zero_record).2 = None.

Record sound (d : db) : Prop := {
  so_layout : layout d;
  so_indexed : indexed d;
  so_readable : readable d
}.

Lemma sound_new : sound db_new.
Proof.
  split; [apply layout_new|..]; unfold indexed, readable, content; intros *;
    rewrite bucket_new; simpl; rewrite lookup_empty; done.
Qed.

Lemma sound_grown d d' : sound d -> grown d d' -> sound d'.
Proof.
  intros [_ Hi Hr] [Hl Hc _]. split; [done|..].
  - intros k v t. rewrite !Hc. apply Hi.
  - intros b k v. rewrite Hc. apply Hr.
Qed.

(** Writing outside tasks, indexes and records. *)
Lemma sound_frame p g d d' :
  sound d -> change p g d d' -> p <> [tasksBucket] -> (forall w, p <> wf_tasks w) ->
  (forall b, p <> [brokerRecordBucket; b]) -> sound d'.
Proof.
  intros [_ Hi Hr] [Hl Hc _ _] H1 H2 H3. split; [done|..].
  - intros k v t. rewrite !Hc, !bool_decide_false by auto. apply Hi.
  - intros b k v. rewrite Hc, bool_decide_false by auto. apply Hr.
Qed.

Lemma sound_index g w d d' :
  sound d -> change (wf_tasks w) g d d' ->
  (forall k, k <> w -> is_Some (content d (wf_tasks w) !! k) -> is_Some (g (content d (wf_tasks w)) !! k)) ->
  sound d'.
Proof.
  intros [_ Hi Hr] [Hl Hc _ _] Hg. split; [done|..].
  - intros k v t. rewrite !Hc, bool_decide_false by done. intros Ek Et Hn.
    specialize (Hi _ _ _ Ek Et Hn). case_bool_decide as Hw; [|done].
    unfold wf_tasks in Hw. injection Hw as Hw. rewrite Hw in Hi, Hn. apply Hg; auto.
  - intros b k v. rewrite Hc, bool_decide_false by done. apply Hr.
Qed.

Lemma sound_task_removed k d d' :
  sound d -> change [tasksBucket] (fun _ => base.delete k (content d [tasksBucket])) d d' -> sound d'.
Proof.
  intros [_ Hi Hr] [Hl Hc _ _]. split; [done|..].
  - intros k' v t. rewrite !Hc, bool_decide_true, bool_decide_false by done.
    rewrite lookup_delete_Some. intros [_ Ek]. by eapply Hi.
  - intros b k' v. rewrite Hc, bool_decide_false by done. apply Hr.
Qed.

(** Storing a task that is in the index of its workflow. *)
Lemma sound_task_stored (task : ATask) b d d' :
  sound d -> marshal task = inr b ->
  is_Some (content d (wf_tasks (pretty task.(at_WorkflowID))) !! task.(at_ID)) ->
  change [tasksBucket] (fun _ => <[task.(at_ID) := b]> (content d [tasksBucket])) d d' -> sound d'.
Proof.
  intros [_ Hi Hr] Hm Hs [Hl Hc _ _]. split; [done|..].
  - intros k' v t. rewrite !Hc, bool_decide_true, bool_decide_false by done.
    rewrite lookup_insert_Some. intros [[<- <-]|[_ Ek]] Et Hn; [|by eapply Hi].
    destruct (task_back _ _ Hm) as [t' [Et' Hw]]. rewrite Et in Et'. injection Et' as <-. by rewrite Hw.
  - intros b' k' v. rewrite Hc, bool_decide_false by done. apply Hr.
Qed.

Lemma sound_record p (r : BrokerRecordLocal) b d d' :
  sound d -> marshal r = inr b ->
  change [brokerRecordBucket; p] (fun _ => <[p := b]> (content d [brokerRecordBucket; p])) d d' -> sound d'.
Proof.
  intros [_ Hi Hr] Hm [Hl Hc _ _]. split; [done|..].
  - intros k v t. rewrite !Hc, !bool_decide_false by done. apply Hi.
  - intros b' k v. rewrite Hc. case_bool_decide as Hb; [|apply Hr].
    rewrite lookup_insert_Some. intros [[_ <-]|[_ Ek]]; [apply (record_back _ _ Hm)|exact (Hr p _ _ Ek)].
Qed.

(** Dropping a bucket other than a workflow's. *)
Lemma sound_dropped a k d d' :
  sound d -> dropped [a; k] d d' -> a <> workflowBucket -> sound d'.
Proof.
  intros [_ Hi Hr] Hd Ha. split; [by eapply dr_layout|..].
  - intros k' v t. rewrite !(content_dropped _ _ _ _ Hd), (bool_decide_false (_ `prefix_of` [tasksBucket])).
    2: { intros [l Hl]. done. }
    rewrite bool_decide_false; [apply Hi|]. intros [l Hl]. injection Hl. congruence.
  - intros b k' v. rewrite (content_dropped _ _ _ _ Hd). case_bool_decide; [by rewrite lookup_empty|apply Hr].
Qed.

End Props.

#[export] Hint Resolve so_layout : store.

(** One step of a program; side conditions on buckets follow from the changes so
    far. *)
Ltac bucket_side := first [ solve [eauto 12 with store] | by right; split; [done|eauto 12 with store] | by left | done ].
Ltac made_grown :=
  let d := fresh "d" in let G := fresh "G" in let P := fresh "P" in
  let S := fresh "S" in let N := fresh "N" in
  intros d G P N; cbn [app] in P, N; pose proof (sound_grown _ _ ltac:(eassumption) G) as S.
Ltac wp_create_with p k :=
  first [ apply (wp_create_fits p k); [bucket_side|bucket_side|done|reflexivity|made_grown]
        | apply (wp_create p k); [bucket_side|bucket_side|done|cbn [app]; intros; cbn [early]|made_grown] ].
Ltac wp_step :=
  match goal with
  | |- wp (mbind _ _) _ _ _ => apply wp_bind
  | |- wp (mret _) _ _ _ => apply wp_ret
  | |- wp (create [?a]) _ _ _ => wp_create_with (@nil string) a
  | |- wp (create [?a; ?b]) _ _ _ => wp_create_with [a] b
  | |- wp (create (wf_tasks ?w)) _ _ _ => wp_create_with [workflowBucket; w] tasksBucket
  | |- wp (create (wf_brokers ?w)) _ _ _ => wp_create_with [workflowBucket; w] brokersBucket
  | |- wp (get _ _) _ _ _ => apply wp_get; [bucket_side|]
  | |- wp (entries _) _ _ _ => apply wp_entries; [bucket_side|]
  | |- wp (ignore _) _ _ _ => apply wp_ignore
  | |- wp (attempt _) _ _ _ => apply wp_attempt
  | |- wp load _ _ _ => apply wp_load
  | |- wp (save _) _ _ _ => apply wp_save
  | |- wp (fail _) _ _ _ => apply wp_fail
  | |- wp (crash _) _ _ _ => apply wp_crash
  | |- wp (check _) _ _ _ => apply wp_check; [intros ?|intros ? ?; cbn [early]]
  | |- wp (encode _) _ _ _ => apply wp_encode; [intros ? ?; cbn [early]|intros ? ?]
  | |- wp (decode _ _) _ _ _ => apply wp_ret
  | |- wp (has_bucket _) _ _ _ => apply wp_has_bucket
  | |- wp (match ?x with _ => _ end) _ _ _ => destruct x eqn:?
  | |- wp (if ?x then _ else _) _ _ _ => destruct x eqn:?
  end.
Ltac wp_steps := repeat (wp_step; try done).

(** Writes and what they leave sound. *)
Ltac wp_write C := intros ? C; cbn [early].
Ltac frame C := eapply (sound_frame _ _ _ _ ltac:(eassumption) C); [done|intros ?; done|intros ?; done].

(** ** Every program keeps a sound database sound *)

Section Programs.
Context {E : Engine} {B : Bolt} {T : GoTime}.
Context {CT : Codec ATask} {CB : Codec BrokerObj} {CE : Codec Execution}
        {CR : Codec BrokerRecordLocal} {CG : Codec Trigger}.
Context {L : BoltLaws B} {J : StoreCodecs CT CR}.

Definition keeps {M A} (x : tx M A) : Prop := forall m d, sound d -> wp x (fun _ _ d' => sound d') m d.

Lemma index_put w k v d d' :
  sound d -> change (wf_tasks w) (fun _ => <[k := v]> (content d (wf_tasks w))) d d' -> sound d'.
Proof.
  intros S C. eapply (sound_index _ _ _ _ S C). intros k' _ H. apply lookup_insert_is_Some'. by right.
Qed.

Lemma index_removed w d d' :
  sound d -> change (wf_tasks w) (fun _ => base.delete w (content d (wf_tasks w))) d d' -> sound d'.
Proof.
  intros S C. eapply (sound_index _ _ _ _ S C). intros k' H1 H2. by rewrite lookup_delete_ne.
Qed.

Lemma keeps_setMeta {M} k v : keeps (setMetaTxFunc (M:=M) k v).
Proof.
  intros m d S. unfold setMetaTxFunc. wp_steps. apply wp_put; [bucket_side..|done|wp_write C]. frame C.
Qed.

Lemma keeps_setBrokerRecord {M} br : keeps (setBrokerRecordTxFunc (M:=M) br).
Proof.
  intros m d S. unfold setBrokerRecordTxFunc. wp_steps. apply wp_put; [bucket_side..|done|wp_write C].
  by eapply sound_record.
Qed.

Lemma keeps_deleteBrokerRecord {M} id : keeps (deleteBrokerRecordTxFunc (M:=M) id).
Proof.
  intros m d S. unfold deleteBrokerRecordTxFunc. wp_steps. apply wp_drop; [bucket_side|done|].
  intros _ d' D. by eapply sound_dropped.
Qed.

Lemma keeps_deleteTask {M} k : keeps (deleteTaskTxFunc (M:=M) k).
Proof.
  intros m d S. unfold deleteTaskTxFunc. wp_steps.
  apply wp_remove; [bucket_side..|wp_write C]. pose proof (index_removed _ _ _ ltac:(eassumption) C).
  apply wp_remove; [bucket_side..|wp_write C']. by eapply sound_task_removed.
Qed.

Lemma keeps_deleteExecutions {M} k : keeps (deleteExecutionsTxFunc (M:=M) k).
Proof.
  intros m d S. unfold deleteExecutionsTxFunc. wp_steps. apply wp_drop; [bucket_side|done|].
  intros _ d' D. by eapply sound_dropped.
Qed.

Lemma keeps_setBroker {M} b : keeps (setBrokerTxFunc (M:=M) b).
Proof.
  intros m d S. unfold setBrokerTxFunc. wp_steps. apply wp_put; [bucket_side..|intros e|wp_write C].
  - wp_steps. apply wp_put; [bucket_side..|done|wp_write C]. frame C.
  - assert (sound d') by frame C. wp_steps. apply wp_put; [bucket_side..|done|wp_write C']. frame C'.
Qed.

Lemma keeps_deleteBroker {M} k : keeps (deleteBrokerTxFunc (M:=M) k).
Proof.
  intros m d S. unfold deleteBrokerTxFunc. wp_steps.
  apply wp_remove; [bucket_side..|wp_write C]. assert (sound d') by frame C.
  apply wp_remove; [bucket_side..|wp_write C']. frame C'.
Qed.

Lemma keeps_getTask id : keeps (getTaskTxFunc id).
Proof. intros m d S. unfold getTaskTxFunc. wp_steps. Qed.

Lemma keeps_getBroker id : keeps (getBrokerTxFunc id).
Proof. intros m d S. unfold getBrokerTxFunc. wp_steps. Qed.

Lemma keeps_setTask now : keeps (setTaskTxFunc now).
Proof.
  intros m d S. unfold setTaskTxFunc. wp_steps.
  apply wp_put; [bucket_side..|done|wp_write C]. pose proof (index_put _ _ _ _ _ ltac:(eassumption) C).
  wp_steps.
  all: apply wp_put; [bucket_side..|done|wp_write C'].
  all: eapply sound_task_stored; [..|exact C']; [done|done|].
  all: rewrite (gr_content _ _ ltac:(eassumption)), (ch_content _ _ _ _ C), bool_decide_true by done.
  all: by rewrite lookup_insert_eq.
Qed.

Lemma keeps_setQueue {M} now k v : keeps (setQueueTxFunc (M:=M) now k v).
Proof.
  intros m d S. unfold setQueueTxFunc. wp_steps. apply wp_put; [bucket_side..|done|wp_write C]. frame C.
Qed.

Lemma keeps_setScript {M} k v : keeps (setScriptTxFunc (M:=M) k v).
Proof.
  intros m d S. unfold setScriptTxFunc. wp_steps. apply wp_put; [bucket_side..|done|wp_write C]. frame C.
Qed.

Lemma keeps_setExecution {M} k ex : keeps (setExecutionTxFunc (M:=M) k ex).
Proof.
  intros m d S. unfold setExecutionTxFunc. wp_steps. apply wp_put; [bucket_side..|done|wp_write C]. frame C.
Qed.

Lemma keeps_setTrigger {M} tr : keeps (setTrigger (M:=M) tr).
Proof.
  intros m d S. unfold setTrigger. wp_steps. apply wp_put; [bucket_side..|done|wp_write C]. frame C.
Qed.

Lemma keeps_bind {M A A'} (x : tx M A) (f : A -> tx M A') :
  keeps x -> (forall a, keeps (f a)) -> keeps (x ≫= f).
Proof.
  intros Hx Hf m d S. apply wp_bind. eapply wp_mono; [by apply Hx|]. intros [a|e|p|] m' d' S'; [|done..].
  by apply Hf.
Qed.

Lemma keeps_with_memory {M N A} (n : N) (x : tx N A) : keeps x -> keeps (with_memory (M:=M) n x).
Proof.
  intros Hx m d S. apply wp_with_memory. eapply wp_mono; [by apply Hx|]. by intros [].
Qed.

Lemma keeps_setExecutionDone {M} now k ex : keeps (setExecutionDoneTxFunc (M:=M) now k ex).
Proof.
  apply keeps_bind; [apply keeps_setExecution|intros _].
  apply keeps_bind; [apply keeps_with_memory, keeps_getTask|intros [_ task]].
  apply keeps_bind; [apply keeps_with_memory, keeps_setTask|intros []]. by intros m d S.
Qed.

(** ** Deleting a workflow *)

(** What deleting the task [k] does, whether it succeeds or not. *)
Record task_gone (k : string) (d d' : db) : Prop := {
  tg_sound : sound d';
  tg_there : forall q, is_Some (bucket d q) -> is_Some (bucket d' q);
  tg_index : forall w, content d (wf_tasks w) !! w = None -> content d' (wf_tasks w) = content d (wf_tasks w);
  tg_else : forall q, q <> [tasksBucket] -> (forall w, q <> wf_tasks w) -> content d' q = content d q;
  tg_tasks : forall k' v, content d' [tasksBucket] !! k' = Some v -> content d [tasksBucket] !! k' = Some v;
  tg_gone : forall v t, content d [tasksBucket] !! k = Some v -> unmarshal v zero_atask = (t, None) ->
    is_Some (bucket d [workflowBucket; pretty t.(at_WorkflowID)]) -> content d' [tasksBucket] !! k = None
}.

Definition returns {A} (r : tres A) : Prop := match r with Done _ | Failed _ => True | _ => False end.

(** Nothing but empty buckets was made, and the task was not there, could not be
    read, or the bucket of its workflow could not be made. *)
Lemma task_gone_grown k d d' :
  sound d -> grown d d' ->
  (forall v t, content d [tasksBucket] !! k = Some v -> unmarshal v zero_atask = (t, None) ->
     bucket d [workflowBucket; pretty t.(at_WorkflowID)] = None) ->
  task_gone k d d'.
Proof.
  intros S G H. split; [by eapply sound_grown|by eapply gr_there|..]; intros *; rewrite ?(gr_content _ _ G); try done.
  intros Ev Et Hb. rewrite (H _ _ Ev Et) in Hb. by apply is_Some_None in Hb.
Qed.

Lemma task_gone_removed k w d d1 d2 d3 :
  sound d -> grown d d1 ->
  change (wf_tasks w) (fun _ => base.delete w (content d1 (wf_tasks w))) d1 d2 ->
  change [tasksBucket] (fun _ => base.delete k (content d2 [tasksBucket])) d2 d3 ->
  task_gone k d d3.
Proof.
  intros S G C C'. pose proof (sound_grown _ _ S G) as S1. pose proof (index_removed _ _ _ S1 C) as S2.
  split; [by eapply sound_task_removed|by eauto with store|..].
  - intros w' Hw. rewrite (ch_content _ _ _ _ C'), bool_decide_false, (ch_content _ _ _ _ C) by done.
    case_bool_decide as Hq; rewrite !(gr_content _ _ G); [|done]. injection Hq as ->. by apply delete_id.
  - intros q Hq1 Hq2. rewrite (ch_content _ _ _ _ C'), bool_decide_false, (ch_content _ _ _ _ C) by done.
    rewrite bool_decide_false by done. apply (gr_content _ _ G).
  - intros k' v. rewrite (ch_content _ _ _ _ C'), bool_decide_true, (ch_content _ _ _ _ C) by done.
    rewrite bool_decide_false, (gr_content _ _ G), lookup_delete_Some by done. by intros [_ ?].
  - intros v t _ _ _. rewrite (ch_content _ _ _ _ C'), bool_decide_true by done. apply lookup_delete_eq.
Qed.

Lemma deleteTask_effect {M} k (m : M) d :
  sound d -> wp (deleteTaskTxFunc k) (fun r _ d' => returns r /\ task_gone k d d') m d.
Proof.
  intros S. unfold deleteTaskTxFunc. wp_steps.
  all: try (split; [done|apply task_gone_grown; [done|by eauto using grown_trans|]]; intros v t Ev Et;
            rewrite <- (gr_content _ _ G) in Ev; simplify_eq).
  all: try (rewrite ?Et in Heqp; simplify_eq; eauto using grown_missing).
  apply wp_remove; [bucket_side..|wp_write C]. apply wp_remove; [bucket_side..|wp_write C'].
  split; [done|]. eapply task_gone_removed; [done| |done|done]. eauto using grown_trans.
Qed.

(** Deleting the broker [k] touches brokers and their indexes only. *)
Record broker_gone (k : string) (d d' : db) : Prop := {
  bg_sound : sound d';
  bg_there : forall q, is_Some (bucket d q) -> is_Some (bucket d' q);
  bg_else : forall q, q <> [brokersBucket] -> (forall w, q <> wf_brokers w) -> content d' q = content d q;
  bg_others : forall k', k' <> k -> content d' [brokersBucket] !! k' = content d [brokersBucket] !! k'
}.

Lemma broker_gone_grown k d d' : sound d -> grown d d' -> broker_gone k d d'.
Proof.
  intros S G. split; [by eapply sound_grown|by eapply gr_there|..]; intros *; by rewrite (gr_content _ _ G).
Qed.

Lemma broker_gone_removed k w d d1 d2 d3 :
  sound d -> grown d d1 ->
  change (wf_brokers w) (fun _ => base.delete w (content d1 (wf_brokers w))) d1 d2 ->
  change [brokersBucket] (fun _ => base.delete k (content d2 [brokersBucket])) d2 d3 ->
  broker_gone k d d3.
Proof.
  intros S G C C'. pose proof (sound_grown _ _ S G) as S1. assert (sound d2) by frame C.
  split; [frame C'|by eauto with store|..].
  - intros q H1 H2. rewrite (ch_content _ _ _ _ C'), bool_decide_false, (ch_content _ _ _ _ C) by done.
    rewrite bool_decide_false by done. apply (gr_content _ _ G).
  - intros k' Hk. rewrite (ch_content _ _ _ _ C'), bool_decide_true, lookup_delete_ne by done.
    rewrite (ch_content _ _ _ _ C), bool_decide_false by done. by rewrite (gr_content _ _ G).
Qed.

Lemma deleteBroker_effect {M} k (m : M) d :
  sound d -> wp (deleteBrokerTxFunc k) (fun r _ d' => returns r /\ broker_gone k d d') m d.
Proof.
  intros S. unfold deleteBrokerTxFunc. wp_steps.
  all: try (split; [done|by eauto using broker_gone_grown, grown_trans]).
  apply wp_remove; [bucket_side..|wp_write C]. apply wp_remove; [bucket_side..|wp_write C'].
  split; [done|]. eapply broker_gone_removed; [done| |done|done]. eauto using grown_trans.
Qed.

(** Dropping the bucket of a workflow without stored tasks. *)
Lemma sound_workflow_dropped w d d' :
  sound d -> dropped [workflowBucket; w] d d' ->
  (forall k v t, content d [tasksBucket] !! k = Some v -> unmarshal v zero_atask = (t, None) ->
     pretty t.(at_WorkflowID) = w -> k = w) ->
  sound d'.
Proof.
  intros [_ Hi Hr] D Hw. split; [by eapply dr_layout|..].
  - intros k v t. rewrite !(content_dropped _ _ _ _ D). rewrite (bool_decide_false (_ `prefix_of` [tasksBucket])).
    2: { by intros [l Hl]. }
    intros Ek Et Hn. case_bool_decide as Hp; [|by eapply Hi]. destruct Hp as [l Hl]. injection Hl as Hl _.
    by rewrite (Hw _ _ _ Ek Et Hl) in Hn.
  - intros b k v. rewrite (content_dropped _ _ _ _ D), bool_decide_false; [apply Hr|]. by intros [l Hl].
Qed.

(** The three buckets of a workflow. *)
Definition opened (w : string) (d : db) : Prop :=
  is_Some (bucket d [workflowBucket; w]) /\ is_Some (bucket d (wf_tasks w)) /\ is_Some (bucket d (wf_brokers w)).

Lemma open_workflow_spec {M} w (Q : tres bool -> M -> db -> Prop) m d :
  sound d ->
  (key_fits w = false -> forall e d', grown d d' -> Q (Failed e) m d') ->
  (forall d', grown d d' -> opened w d' -> Q (Done true) m d') ->
  wp (open_workflow w) Q m d.
Proof.
  intros S Hf Hd. unfold open_workflow. wp_steps; [by apply Hf|].
  apply Hd; [eauto using grown_trans|]. split_and!; unfold wf_tasks, wf_brokers; eauto 10 with store.
Qed.

Lemma there_opened w d d' :
  (forall q, is_Some (bucket d q) -> is_Some (bucket d' q)) -> opened w d -> opened w d'.
Proof. intros H (H1 & H2 & H3). split_and!; by apply H. Qed.

(** Where the loop over the tasks of [w] is, with [todo] left. *)
Record swept (w : string) (d0 : db) (todo : list (string * string)) (d : db) : Prop := {
  sw_sound : sound d;
  sw_opened : opened w d;
  sw_cursor : cursor d (wf_tasks w) = cursor d0 (wf_tasks w);
  sw_index : content d0 (wf_tasks w) !! w = None -> content d (wf_tasks w) = content d0 (wf_tasks w);
  sw_left : forall k v t, content d [tasksBucket] !! k = Some v -> unmarshal v zero_atask = (t, None) ->
    pretty t.(at_WorkflowID) = w -> k = w \/ k ∈ todo.*1;
  sw_tasks : forall k v, content d [tasksBucket] !! k = Some v -> content d0 [tasksBucket] !! k = Some v;
  sw_else : forall q, q <> [tasksBucket] -> (forall w', q <> wf_tasks w') -> content d q = content d0 q
}.

Lemma swept_start w d : sound d -> opened w d -> swept w d (cursor d (wf_tasks w)) d.
Proof.
  intros S O. split; try done. intros k v t Ek Et Hw. destruct (decide (k = w)) as [->|Hn]; [by left|right].
  rewrite cursor_content by (first [by eapply so_layout|done|by apply O]).
  destruct (so_indexed _ S _ _ _ Ek Et) as [x Hx]; [by rewrite Hw|]. rewrite Hw in Hx.
  apply list_elem_of_fmap. exists (k, x). split; [done|]. by apply elem_of_entries.
Qed.

Lemma swept_step w d0 k v todo d d' :
  swept w d0 ((k, v) :: todo) d -> task_gone k d d' -> cursor d' (wf_tasks w) = cursor d0 (wf_tasks w) ->
  swept w d0 todo d'.
Proof.
  intros W G Hc. split; [by eapply tg_sound|eapply there_opened; [by eapply tg_there|by eapply sw_opened]|done|..].
  - intros Hn. pose proof (sw_index _ _ _ _ W Hn) as Hi. rewrite (tg_index _ _ _ G); [done|by rewrite Hi].
  - intros k' v' t Ek Et Hw. pose proof (tg_tasks _ _ _ G _ _ Ek) as Ek'.
    destruct (sw_left _ _ _ _ W _ _ _ Ek' Et Hw) as [->|Hin]; [by left|].
    apply elem_of_cons in Hin as [Hk|Hin]; [exfalso|by right]. simpl in Hk; subst k'.
    rewrite (tg_gone _ _ _ G _ _ Ek' Et) in Ek; [done|]. rewrite Hw. by apply (sw_opened _ _ _ _ W).
  - intros k' v' Ek. by eapply (sw_tasks _ _ _ _ W), (tg_tasks _ _ _ G).
  - intros q H1 H2. rewrite (tg_else _ _ _ G) by done. by eapply sw_else.
Qed.

Lemma delete_tasks_spec {M} w (Q : tres unit -> M -> db -> Prop) m d :
  sound d -> opened w d ->
  (forall m d', swept w d [] d' -> Q (Done tt) m d') ->
  (forall m d', sound d' -> is_Some (content d (wf_tasks w) !! w) -> Q Undocumented m d') ->
  wp (for_each (fun k _ => ignore (deleteTaskTxFunc k)) (wf_tasks w) (cursor d (wf_tasks w)) (cursor d (wf_tasks w)))
    Q m d.
Proof.
  intros S O Hd Hu. eapply (wp_for_each _ _ _ (fun todo _ d' => swept w d todo d')); [by apply swept_start| |done].
  intros k v todo m1 d1 W. apply wp_bind, wp_ignore.
  eapply wp_mono; [by eapply deleteTask_effect, sw_sound|]. intros r m2 d2 [Hr G].
  assert (wp (still (wf_tasks w) (cursor d (wf_tasks w))) (fun r m' d' =>
    match r with Done _ => swept w d todo d' | _ => Q (early r) m' d' end) m2 d2) as Hs.
  { apply wp_still; [apply (tg_there _ _ _ G), (sw_opened _ _ _ _ W)| |].
    - intros Hc. by eapply swept_step.
    - intros Hc. apply Hu; [by eapply tg_sound|]. destruct (content d (wf_tasks w) !! w) eqn:En; [by eexists|].
      destruct Hc. pose proof (sw_index _ _ _ _ W En) as Hi.
      rewrite !cursor_content; try done; try (by eapply so_layout; eauto using tg_sound);
        try by apply O. 2: { apply (tg_there _ _ _ G), (sw_opened _ _ _ _ W). }
      by rewrite (tg_index _ _ _ G), Hi; [|rewrite Hi]. }
  by destruct r.
Qed.


(** What deleting the workflow [w] does when it succeeds. *)
Record workflow_gone (w : string) (d d' : db) : Prop := {
  wg_index : forall q, [workflowBucket; w] `prefix_of` q -> bucket d' q = None;
  wg_tasks : forall k v t, content d' [tasksBucket] !! k = Some v -> unmarshal v zero_atask = (t, None) ->
    pretty t.(at_WorkflowID) = w -> k = w;
  wg_kept : forall k v, content d' [tasksBucket] !! k = Some v -> content d [tasksBucket] !! k = Some v;
  wg_brokers : forall k, head ((sorted_entries (content d (wf_brokers w))).*1) <> Some k ->
    content d' [brokersBucket] !! k = content d [brokersBucket] !! k
}.

Lemma workflow_gone_dropped w d d0 d1 d2 d3 k :
  grown d d0 -> swept w d0 [] d1 -> d2 = d1 \/ broker_gone k d1 d2 -> dropped [workflowBucket; w] d2 d3 ->
  (d2 = d1 \/ head ((sorted_entries (content d (wf_brokers w))).*1) = Some k) ->
  sound d3 /\ workflow_gone w d d3.
Proof.
  intros G W HB D Hk.
  assert (sound d2) as S2 by (destruct HB as [->|HB]; [by eapply sw_sound|by eapply bg_sound]).
  assert (content d2 [tasksBucket] = content d1 [tasksBucket]) as Ht
    by (destruct HB as [->|HB]; [done|by apply (bg_else _ _ _ HB)]).
  assert (content d3 [tasksBucket] = content d1 [tasksBucket]) as Ht3.
  { rewrite (content_dropped _ _ _ _ D), bool_decide_false; [done|by intros [l Hl]]. }
  assert (forall k v t, content d1 [tasksBucket] !! k = Some v -> unmarshal v zero_atask = (t, None) ->
     pretty t.(at_WorkflowID) = w -> k = w) as Hleft.
  { intros k' v t Ek Et Hw. destruct (sw_left _ _ _ _ W _ _ _ Ek Et Hw) as [?|Hin]; [done|]. by apply elem_of_nil in Hin. }
  split; [eapply sound_workflow_dropped; [done|done|by rewrite Ht]|]. split.
  - intros q Hq. rewrite (dr_bucket _ _ _ D). by rewrite bool_decide_true.
  - by rewrite Ht3.
  - rewrite Ht3. intros k' v Ek. rewrite <- (gr_content _ _ G). by eapply sw_tasks.
  - intros k' Hn. rewrite (content_dropped _ _ _ _ D), bool_decide_false by (by intros [l Hl]).
    rewrite <- (gr_content _ _ G), <- (sw_else _ _ _ _ W) by done.
    destruct HB as [->|HB]; [done|]. destruct Hk as [->|Hk]; [done|]. apply (bg_others _ _ _ HB). congruence.
Qed.

(** How deleting [w] may end.  It ends outside bolt's documentation when the
    index of [w] has the number of [w] itself: the loop then deletes from the
    bucket it goes over. *)
Definition deletes (w : string) (d : db) (r : tres unit) (d' : db) : Prop :=
  sound d' /\
  match r with
  | Done _ => workflow_gone w d d'
  | Failed _ => key_fits w = false
  | Panicked _ => False
  | Undocumented => is_Some (content d (wf_tasks w) !! w)
  end.

Lemma drop_workflow_spec {M} w d d0 d1 d2 k (m : M) :
  grown d d0 -> swept w d0 [] d1 -> d2 = d1 \/ broker_gone k d1 d2 ->
  (d2 = d1 \/ head ((sorted_entries (content d (wf_brokers w))).*1) = Some k) ->
  wp (drop_bucket [workflowBucket; w]) (fun r _ d' => deletes w d r d') m d2.
Proof.
  intros G W HB Hk. destruct (sw_opened _ _ _ _ W) as (O1 & _ & _). apply wp_drop.
  - destruct HB as [->|HB]; [apply (sw_sound _ _ _ _ W)|apply (bg_sound _ _ _ HB)].
  - intros Hn. exfalso. destruct HB as [->|HB]; [|apply (bg_there _ _ _ HB) in O1];
      rewrite Hn in O1; by destruct O1.
  - intros _ d3 D. by eapply workflow_gone_dropped.
Qed.

Lemma delete_brokers_spec {M} w d d0 d1 (m : M) :
  grown d d0 -> opened w d0 -> sound d0 -> swept w d0 [] d1 ->
  wp (first_broker w (cursor d0 (wf_tasks w)) (fun k => ignore (deleteBrokerTxFunc k));;
      drop_bucket [workflowBucket; w]) (fun r _ d' => deletes w d r d') m d1.
Proof.
  intros G O S0 W. pose proof (sw_sound _ _ _ _ W) as S1. destruct (sw_opened _ _ _ _ W) as (_ & O2 & O3).
  apply wp_bind, wp_bind, wp_entries; [done|].
  rewrite (cursor_content d1 (wf_brokers w)) by (first [by eapply so_layout|done]).
  rewrite (sw_else _ _ _ _ W), (gr_content _ _ G) by done.
  destruct (sorted_entries (content d (wf_brokers w))) as [|[k v] rest] eqn:Eb.
  { by apply wp_ret, (drop_workflow_spec w d d0 d1 d1 ""); [..|left|left]. }
  apply wp_bind, wp_ignore. eapply wp_mono; [by apply deleteBroker_effect|]. intros r m2 d2 [Hr HB].
  assert (forall Q : tres unit -> M -> db -> Prop, Q (Done tt) m2 d2 ->
    wp (still (wf_tasks w) (cursor d0 (wf_tasks w))) Q m2 d2) as Hs.
  { intros Q HQ. apply wp_still; [by apply (bg_there _ _ _ HB)|done|]. intros Hc. destruct Hc.
    rewrite <- (sw_cursor _ _ _ _ W), !cursor_content; try done; try (by eapply so_layout);
      [by rewrite (bg_else _ _ _ HB)|by eapply so_layout, bg_sound|by apply (bg_there _ _ _ HB)]. }
  assert (wp (drop_bucket [workflowBucket; w]) (fun r _ d' => deletes w d r d') m2 d2) as Hd.
  { apply (drop_workflow_spec w d d0 d1 d2 k); [done|done|by right|right]. by rewrite Eb. }
  destruct r; try done; by apply Hs.
Qed.

Lemma deleteWorkflow_spec {M} w (m : M) d :
  sound d -> wp (deleteWorkflowTxFunc w) (fun r _ d' => deletes w d r d') m d.
Proof.
  intros S. apply wp_bind, open_workflow_spec; [done| |].
  { intros Hk e d' G. split; [by eapply sound_grown|done]. }
  intros d0 G O. pose proof (sound_grown _ _ S G) as S0. cbn [negb].
  apply wp_bind, wp_entries; [apply O|]. apply wp_bind, delete_tasks_spec; [done|done| |].
  - intros m1 d1 W. by eapply delete_brokers_spec.
  - intros m1 d1 S1 Hw. split; [done|]. by rewrite <- (gr_content _ _ G).
Qed.


(** ** Programs that only read *)

Definition reads {M A} (x : tx M A) : Prop := forall m d, (x m d).2 = d.

Lemma reads_bind {M A A'} (x : tx M A) (f : A -> tx M A') :
  reads x -> (forall a, reads (f a)) -> reads (x ≫= f).
Proof.
  intros Hx Hf m d. specialize (Hx m d). unfold mbind, tx_bind.
  destruct (x m d) as [[[a|e|p|] m'] d'] eqn:Ex; simpl in Hx; subst d'; [apply Hf|done..].
Qed.

Lemma reads_entries {M} p : reads (entries (M:=M) p).
Proof. intros m d. unfold entries. by destruct (bucket d p). Qed.

Lemma reads_check {M} e : reads (check (M:=M) e).
Proof. by destruct e. Qed.

Lemma reads_still {M} p seen : reads (still (M:=M) p seen).
Proof. apply reads_bind; [apply reads_entries|intros now m d]. by destruct (bool_decide _). Qed.

Lemma reads_for_each {M} (body : string -> string -> tx M unit) p seen todo :
  (forall k v, reads (body k v)) -> reads (for_each body p seen todo).
Proof.
  intros Hb. induction todo as [|[k v] todo IH]; [done|]. simpl.
  apply reads_bind; [apply Hb|intros _]. apply reads_bind; [apply reads_still|by intros _].
Qed.

Lemma reads_walk {M} p (body : string -> string -> tx M unit) :
  (forall k v, reads (body k v)) -> reads (walk p body).
Proof. intros Hb. apply reads_bind; [apply reads_entries|intros seen]. by apply reads_for_each. Qed.

Lemma keeps_reads {M A} (x : tx M A) : reads x -> keeps x.
Proof. intros Hx m d S. unfold wp. by rewrite Hx. Qed.

Lemma reads_collect {T'} `{Codec T'} (zero : T') adjust keep p : reads (collect zero adjust keep p).
Proof.
  apply reads_walk. intros k v. apply reads_bind; [done|intros [x e]].
  apply reads_bind; [apply reads_check|by intros _].
Qed.

(** Values that can be read are all collected. *)
Lemma collect_done {T'} `{Codec T'} (zero : T') adjust keep p (m : list T') d :
  is_Some (bucket d p) -> (forall x, x ∈ cursor d p -> (unmarshal x.2 zero).2 = None) ->
  wp (collect zero adjust keep p) (fun r _ d' => r = Done tt /\ d' = d) m d.
Proof.
  intros Hp Hx. apply wp_bind, wp_entries; [done|].
  apply (wp_for_each _ _ _ (fun todo _ d' => d' = d /\ forall x, x ∈ todo -> (unmarshal x.2 zero).2 = None));
    [done| |by intros ? ? [-> _]].
  intros k v todo m1 d1 [-> Hall]. assert ((unmarshal v zero).2 = None) as Hkv by (apply (Hall (k, v)); by left).
  apply wp_bind, wp_bind, wp_ret. destruct (unmarshal v zero) as [x e]. simpl in Hkv.
  apply wp_bind, wp_check; [intros _|by intros e' ->].
  apply wp_bind, wp_load, wp_save, wp_still; [done|intros _|done].
  split; [done|]. intros y Hy. apply Hall. by right.
Qed.


(** ** Runs of the store *)

Inductive store_op : Type :=
| OGetMeta (key : string)
| OSetMeta (key value : string)
| OSetBrokerRecord (br : BrokerRecordLocal)
| OGetBrokerRecord (o : option BrOptions)
| OGetTasks (o : option TaskOptions)
| OGetTask (id : string)
| OSetTask (now : Z) (task : ATask)
| ODeleteTask (id : string)
| OSetBroker (b : BrokerObj)
| OGetBroker (id : string)
| OGetBrokers
| ODeleteBroker (id : string)
| ODeleteWorkflow (id : string)
| OGetWorkflow (id : string)
| OSetQueue (now : Z) (k v : string)
| OGetQueue (k : string)
| OSetScript (name script : string)
| OGetScript (name : string)
| OGetScripts
| OListScript
| ODeleteScript (name : string)
| OSetExecution (id : string) (ex : Execution)
| OSetExecutionDone (now : Z) (id : string) (ex : Execution)
| OGetExecutions (id : string)
| OSetTrigger (tr : Trigger)
| OGetTriggers
| ODeleteTrigger (id : string)
| OShutdown
| ORestart.

Definition forget {A} (x : Store * called A) : Store * called unit := (x.1, (fun _ => tt) <$> x.2).

(** One call; [c] is the error of its commit.  [ORestart] is [NewStore] on the
    same file, in a new process. *)
Definition store_call (c : option string) (o : store_op) (s : Store) : Store * called unit :=
  match o with
  | OGetMeta key => forget (GetMeta c key s)
  | OSetMeta key value => forget (SetMeta c key value s)
  | OSetBrokerRecord br => forget (SetBrokerRecord c br s)
  | OGetBrokerRecord o => forget (GetBrokerRecord c o s)
  | OGetTasks o => forget (GetTasks c o s)
  | OGetTask id => forget (GetTask c id s)
  | OSetTask now task => let '(s, (_, r)) := SetTask c now task s in forget (s, r)
  | ODeleteTask id => forget (DeleteTask c id s)
  | OSetBroker b => forget (SetBroker c b s)
  | OGetBroker id => forget (GetBroker c id s)
  | OGetBrokers => forget (GetBrokers c s)
  | ODeleteBroker id => forget (DeleteBroker c id s)
  | ODeleteWorkflow id => forget (DeleteWorkflow c id s)
  | OGetWorkflow id => forget (GetWorkflow c id s)
  | OSetQueue now k v => forget (SetQueue c now k v s)
  | OGetQueue k => forget (GetQueue c k s)
  | OSetScript name script => forget (SetScript c name script s)
  | OGetScript name => forget (GetScript c name s)
  | OGetScripts => forget (GetScripts c s)
  | OListScript => forget (ListScript c s)
  | ODeleteScript name => forget (DeleteScript c name s)
  | OSetExecution id ex => forget (SetExecution c id ex s)
  | OSetExecutionDone now id ex => forget (SetExecutionDone c now id ex s)
  | OGetExecutions id => forget (GetExecutions c id s)
  | OSetTrigger tr => forget (SetTrigger c tr s)
  | OGetTriggers => forget (GetTriggers c s)
  | ODeleteTrigger id => forget (DeleteTrigger c id s)
  | OShutdown => forget (Shutdown s)
  | ORestart => (new_store s.(s_db), Returned tt)
  end.

Definition store_run (ops : list (option string * store_op)) (s : Store) : Store :=
  foldl (fun s o => (store_call o.1 o.2 s).1) s ops.

(** The calls that cannot leave their transaction open: all but
    [GetBrokerRecord] without options or with a broker whose key does not fit,
    and [GetQueue] with a name that does not fit, which return or panic between
    [db.Begin] and [tx.Commit] and have no [defer tx.Rollback]. *)
Definition op_fits (o : store_op) : bool :=
  match o with
  | OGetBrokerRecord None => false
  | OGetBrokerRecord (Some o) => key_fits (pretty o.(bo_BrokerID))
  | OGetQueue k => key_fits k
  | _ => true
  end.

Definition s_ok (s : Store) : Prop := s.(s_open) = false /\ sound s.(s_db).

Lemma Begin_ok {M} (deferred : bool) c (body : tx M unit) (m : M) s :
  keeps body -> (deferred = false -> forall d, sound d -> exists m' d', body m d = (Done tt, m', d')) ->
  s_ok s -> s_ok (Begin deferred c body m s).1 /\ (Begin deferred c body m s).2.2 <> Blocks.
Proof.
  intros Hk Hd [Ho S]. unfold Begin. rewrite Ho. destruct (s_closed s); [done|].
  specialize (Hk m _ S). unfold wp in Hk. destruct deferred.
  - destruct (body m (s_db s)) as [[[a|e|p|] m'] d'] eqn:Eb; try done. destruct c; [done|]. by split.
  - destruct (Hd eq_refl _ S) as [m' [d' Eb]]. rewrite Eb in *. destruct c; [done|]. by split.
Qed.

Lemma s_ok_new : s_ok (new_store db_new).
Proof. split; [done|apply sound_new]. Qed.


(** A call that left the store in order and did not wait. *)
Definition call_ok {A} (x : Store * called A) : Prop := s_ok x.1 /\ x.2 <> Blocks.
Definition session_ok {M A} (x : Store * (M * called A)) : Prop := s_ok x.1 /\ x.2.2 <> Blocks.

Lemma fmap_not_blocks {A A'} (f : A -> A') (r : called A) : r <> Blocks -> f <$> r <> Blocks.
Proof. by destruct r. Qed.

Lemma call_forget {A} (x : Store * called A) : call_ok x -> call_ok (forget x).
Proof. intros [S N]. split; [done|by apply fmap_not_blocks]. Qed.

Lemma call_session {M A A'} (f : M -> A -> A') (x : Store * (M * called A)) :
  session_ok x -> call_ok (let '(s, (m, r)) := x in (s, f m <$> r)).
Proof. destruct x as [s [m r]]. intros [S N]. split; [done|by apply fmap_not_blocks]. Qed.

Lemma call_error {M} (x : Store * (M * called (option string))) : session_ok x -> call_ok (error_only x).
Proof. by intros [S N]. Qed.

Lemma call_value {M} (x : Store * (M * called (option string))) : session_ok x -> call_ok (with_value x).
Proof. intros [S N]. split; [done|by apply fmap_not_blocks]. Qed.

Lemma call_or_nil {M} (x : Store * (list M * called (option string))) : session_ok x -> call_ok (or_nil x).
Proof. intros [S N]. split; [done|by apply fmap_not_blocks]. Qed.

(** A transaction that is closed on every path. *)
Lemma session_deferred {M} c (body : tx M unit) (m : M) s :
  keeps body -> s_ok s -> session_ok (Begin true c body m s).
Proof. intros Hk S. by apply Begin_ok. Qed.

(** A transaction without [defer tx.Rollback], which never leaves early. *)
Lemma session_plain {M} c (body : tx M unit) (m : M) s :
  (forall d, sound d -> wp body (fun r _ d' => r = Done tt /\ sound d') m d) ->
  s_ok s -> session_ok (Begin false c body m s).
Proof.
  intros Hw [Ho S]. unfold Begin. rewrite Ho. destruct (s_closed s); [done|].
  specialize (Hw _ S). unfold wp in Hw.
  destruct (body m (s_db s)) as [[r m'] d']. destruct Hw as [Hr S']; simpl in Hr, S'; subst r.
  by destruct c.
Qed.

Lemma session_unchecked {M} c (body : tx M unit) (m : M) s :
  (forall d, sound d -> wp body (fun r _ d' => r = Done tt /\ sound d') m d) ->
  s_ok s -> session_ok (BeginUnchecked c body m s).
Proof.
  intros Hw S. unfold BeginUnchecked. destruct (negb _ && _); [by split|by apply session_plain].
Qed.

Lemma walk_scripts (item : string -> string -> string) (m : list string) d :
  sound d -> wp (create [scriptBucket];; walk [scriptBucket] (fun k v => xs ← load; save (xs ++ [item k v])))
    (fun r _ d' => r = Done tt /\ sound d') m d.
Proof.
  intros S. wp_steps. apply wp_bind, wp_entries; [done|].
  apply (wp_for_each _ _ _ (fun _ _ d' => d' = d0)); [done| |by intros ? ? ->].
  intros k v todo m1 d1 ->. by apply wp_bind, wp_bind, wp_load, wp_save, wp_still.
Qed.

Lemma keeps_open_workflow {M A} w (x : bool -> tx M A) :
  (forall b, reads (x b)) -> keeps (open_workflow w ≫= x).
Proof.
  intros Hx m d S. apply wp_bind, open_workflow_spec; [done| |].
  - intros _ e d' G. by eapply sound_grown.
  - intros d' G O. apply keeps_reads; [done|by eapply sound_grown].
Qed.

Lemma keeps_getWorkflow w : keeps (getWorklowTxFunc w).
Proof.
  apply keeps_open_workflow. intros []; [|done]. simpl.
  apply reads_bind; [apply reads_entries|intros tasks].
  apply reads_bind; [by apply reads_for_each|intros _].
  apply reads_bind; [apply reads_entries|intros brokers]. destruct brokers as [|[k v] rest]; [done|].
  apply reads_bind; [done|intros _]. apply reads_still.
Qed.

Lemma keeps_deleteWorkflow {M} w : keeps (deleteWorkflowTxFunc (M:=M) w).
Proof. intros m d S. eapply wp_mono; [by apply deleteWorkflow_spec|]. by intros r m' d' [? _]. Qed.

Lemma keeps_create {M A} a (x : tx M A) : leaf [a] || inner [a] = true -> keeps x -> keeps (create [a];; x).
Proof.
  intros Ha Hx. apply keeps_bind; [|done]. intros m d S.
  apply (wp_create [] a); [by eapply so_layout|by left|done|done|]. intros d' G _ _. by eapply sound_grown.
Qed.

Lemma getQueue_spec k d :
  sound d -> key_fits k = true ->
  wp (create [queueBucket];; create [queueBucket; k];;
      c ← entries [queueBucket; k];
      match c with
      | (t, v) :: _ => remove [queueBucket; k] t;; save v
      | [] => mret tt
      end) (fun r _ d' => r = Done tt /\ sound d') "" d.
Proof.
  intros S Hk. wp_step. wp_step. wp_step. apply (wp_create_fits [queueBucket] k); [bucket_side..|made_grown].
  wp_steps. apply wp_remove; [bucket_side..|wp_write C]. apply wp_save. split; [done|]. frame C.
Qed.


Lemma getBrokerRecord_spec o (m : list BrokerRecordLocal) d :
  sound d -> key_fits (pretty o.(bo_BrokerID)) = true ->
  wp (create [brokerRecordBucket];; create [brokerRecordBucket; pretty o.(bo_BrokerID)];;
      collect zero_record id (brFn o) [brokerRecordBucket; pretty o.(bo_BrokerID)])
    (fun r _ d' => r = Done tt /\ sound d') m d.
Proof.
  intros S Hk. wp_step. wp_step. wp_step.
  apply (wp_create_fits [brokerRecordBucket] (pretty o.(bo_BrokerID))); [bucket_side..|made_grown].
  eapply wp_mono; [apply collect_done; [done|]|by intros ? ? ? [-> ->]].
  intros [k v]. rewrite cursor_content by (first [by eapply so_layout|done]). rewrite elem_of_entries.
  intros Hv. by eapply so_readable.
Qed.

#[local] Hint Resolve keeps_setMeta keeps_setBrokerRecord keeps_deleteBrokerRecord keeps_deleteTask
  keeps_deleteExecutions keeps_setBroker keeps_deleteBroker keeps_getTask keeps_getBroker keeps_setTask
  keeps_setQueue keeps_setScript keeps_setExecution keeps_setTrigger keeps_setExecutionDone
  keeps_getWorkflow keeps_deleteWorkflow keeps_bind keeps_reads reads_collect : keeps.

(** Transactions that are closed on every path. *)
Ltac call_deferred :=
  apply call_forget;
  first [ apply call_error | apply call_value | apply call_or_nil
        | apply (call_session (fun _ _ => None)) | apply call_session ];
  apply session_deferred; [|done].

Lemma store_call_ok c o s : op_fits o = true -> s_ok s -> call_ok (store_call c o s).
Proof.
  intros Hf S. destruct o; simpl in Hf |- *; try (destruct o; [|done]); try (by call_deferred; auto with keeps).
  - call_deferred. intros m d Sd. wp_steps.
  - apply call_forget, call_value, session_plain; [|done]. intros d Sd. by apply getBrokerRecord_spec.
  - call_deferred. apply keeps_create; auto with keeps.
  - pose proof (session_deferred c _ task s (keeps_setTask now) S) as Hs. unfold SetTask, Update.
    destruct (Begin _ _ _ _ _) as [s' [t r]]. by apply call_forget.
  - call_deferred. apply keeps_create; auto with keeps.
  - apply call_forget. apply call_session, session_plain; [|done]. intros d Sd. by apply getQueue_spec.
  - apply call_forget, call_value, session_unchecked; [|done]. intros d Sd. wp_steps.
  - apply call_forget, call_value, session_unchecked; [|done]. intros d Sd. by apply walk_scripts.
  - apply call_forget, call_value, session_unchecked; [|done]. intros d Sd. by apply walk_scripts.
  - apply call_forget, call_error, session_unchecked; [|done]. intros d Sd. wp_steps.
    apply wp_remove; [bucket_side..|wp_write C]. split; [done|]. frame C.
  - pose proof (session_deferred c _ tt s (keeps_setExecutionDone now id ex) S) as Hs.
    unfold SetExecutionDone, Update, error_only.
    destruct (Begin _ _ _ _ _) as [s' [t r]]. apply call_forget. destruct Hs as [Hs Hn].
    split; [done|by apply fmap_not_blocks].
  - call_deferred. apply keeps_create; [done|]. intros m d Sd. apply wp_bind, wp_has_bucket.
    destruct (bool_decide _); [|done]. apply keeps_reads; [by apply reads_walk|done].
  - call_deferred. intros m d Sd. wp_steps. by apply keeps_reads; auto with keeps.
  - call_deferred. intros m d Sd. wp_steps. apply wp_remove; [bucket_side..|wp_write C]. frame C.
  - apply call_forget. unfold Shutdown. destruct S as [So Sd]. by rewrite So.
  - by destruct S.
Qed.

Lemma store_run_ok ops s : Forall (fun o => op_fits o.2 = true) ops -> s_ok s -> s_ok (store_run ops s).
Proof.
  intros Hf. revert s. induction Hf as [|o ops Ho _ IH]; intros s S; simpl; [done|].
  by apply IH, store_call_ok.
Qed.

(** ** Calls of any kind *)

(** Bodies that may leave early. *)
Lemma keeps_getQueue k :
  keeps (create [queueBucket];; create [queueBucket; k];;
      c ← entries [queueBucket; k];
      match c with
      | (t, v) :: _ => remove [queueBucket; k] t;; save v
      | [] => mret tt
      end).
Proof. intros m d S. wp_steps. apply wp_remove; [bucket_side..|wp_write C]. apply wp_save. frame C. Qed.

Lemma keeps_getBrokerRecord o :
  keeps (create [brokerRecordBucket];;
    match o with
    | None => crash NilDereference
    | Some o =>
        create [brokerRecordBucket; pretty o.(bo_BrokerID)];;
        collect zero_record id (brFn o) [brokerRecordBucket; pretty o.(bo_BrokerID)]
    end).
Proof. intros m d S. wp_steps. by apply keeps_reads; auto with keeps. Qed.

(** A transaction begun in a store with none open: it does not wait, and what
    is committed is sound, whether or not it is left open. *)
Lemma Begin_any {M} deferred c (body : tx M unit) (m : M) s :
  keeps body -> s.(s_open) = false -> sound s.(s_db) ->
  sound (Begin deferred c body m s).1.(s_db) /\ (Begin deferred c body m s).2.2 <> Blocks.
Proof.
  intros Hk Ho S. unfold Begin. rewrite Ho. destruct (s_closed s); [done|].
  specialize (Hk m _ S). unfold wp in Hk. destruct (body m (s_db s)) as [[[a|e|p|] m'] d'].
  - by destruct c.
  - by destruct deferred.
  - by destruct deferred.
  - by destruct deferred.
Qed.

Lemma store_call_sound c o s :
  s.(s_open) = false -> sound s.(s_db) -> sound (store_call c o s).1.(s_db) /\ (store_call c o s).2 <> Blocks.
Proof.
  intros Ho S. destruct (op_fits o) eqn:Hf; [by destruct (store_call_ok c o s Hf (conj Ho S)) as [[_ ?] ?]|].
  destruct o; try done; simpl.
  - destruct (Begin_any false c _ [] s (keeps_getBrokerRecord o) Ho S) as [H1 H2].
    split; [done|by apply fmap_not_blocks, fmap_not_blocks].
  - unfold GetQueue. destruct (Begin_any false c _ "" s (keeps_getQueue k) Ho S) as [H1 H2].
    destruct (Begin _ _ _ _ _) as [s' [v r]]. split; [done|by apply fmap_not_blocks, fmap_not_blocks].
Qed.

(** Every call waits for the transaction that is open; only a new process does
    not. *)
Lemma store_call_open c o s :
  s.(s_open) = true -> o = ORestart \/ store_call c o s = (s, Blocks).
Proof.
  intros Ho. assert (forall M deferred (body : tx M unit) m, Begin deferred c body m s = (s, (m, Blocks))) as Hb
    by (intros; unfold Begin; by rewrite Ho).
  assert (forall M (body : tx M unit) m, BeginUnchecked c body m s = (s, (m, Blocks))) as Hu
    by (intros; unfold BeginUnchecked; by rewrite Ho, Hb).
  assert (Shutdown s = (s, Blocks)) as Hs by (unfold Shutdown; by rewrite Ho).
  destruct o; try (by left); right; cbn [store_call];
    unfold GetMeta, SetMeta, SetBrokerRecord, GetBrokerRecord, GetTasks, GetTask, SetTask, DeleteTask, SetBroker,
      GetBroker, GetBrokers, DeleteBroker, DeleteWorkflow, GetWorkflow, SetQueue, GetQueue, SetScript, GetScript,
      GetScripts, ListScript, list_scripts, DeleteScript, SetExecution, SetExecutionDone, GetExecutions, SetTrigger,
      GetTriggers, DeleteTrigger, Update; rewrite ?Hb, ?Hu, ?Hs; try done.
Qed.

(** Runs of any calls, from the end. *)
Lemma store_run_snoc ops o s : store_run (ops ++ [o]) s = (store_call o.1 o.2 (store_run ops s)).1.
Proof. unfold store_run. by rewrite foldl_snoc. Qed.

Lemma store_run_sound ops s : sound s.(s_db) -> sound (store_run ops s).(s_db).
Proof.
  intros S. induction ops as [|o ops IH] using rev_ind; [done|]. rewrite store_run_snoc.
  destruct (s_open (store_run ops s)) eqn:Ho; [|by apply store_call_sound].
  destruct (store_call_open o.1 o.2 _ Ho) as [->| ->]; done.
Qed.

(** The call of [ops] that left the transaction open, since the process began. *)
Definition left_open_by (ops : list (option string * store_op)) : Prop :=
  exists before o after, ops = before ++ o :: after /\ op_fits o.2 = false /\
    Forall (fun o' => o'.2 <> ORestart) after.

Lemma store_run_open ops s :
  s_ok s -> (store_run ops s).(s_open) = true -> left_open_by ops.
Proof.
  intros [Ho0 S]. induction ops as [|o ops IH] using rev_ind; [simpl; congruence|]. rewrite store_run_snoc.
  destruct (s_open (store_run ops s)) eqn:Ho; intros Hl.
  - destruct (IH eq_refl) as (before & o' & after & -> & Hf & Ha).
    exists before, o', (after ++ [o]). rewrite <- (assoc_L (++)). split_and!; [done|done|].
    apply Forall_app. split; [done|]. constructor; [|done]. intros E'. by rewrite E' in Hl.
  - exists ops, o, []. split_and!; [done| |done]. destruct (op_fits o.2) eqn:Hf; [|done].
    destruct (store_call_ok o.1 o.2 _ Hf (conj Ho (store_run_sound ops s S))) as [[Hn _] _]. congruence.
Qed.

End Programs.
