(* ===== verification/AgentStoreProps.v ===== *)
(** What the agent's store guarantees, and what it does not.

    The queues of inputs of the agent's store are first in, first out.

    [SetQueue] files a message under the text of the time in nanoseconds and
    [GetQueue] takes the least key.  Texts of numbers are in the order of the
    numbers as long as they have the same number of digits: 19 from September
    2001 until the clock of nanoseconds overflows, in 2262. *)

From Stdlib Require Import Ascii.
From stdpp Require Import pretty strings sorting.
From S2P Require Import Prelude GoStrings Value Compile WorkerData AgentBolt AgentData AgentStore AgentStoreInv AgentStoreSound.

Section Props.
Context {E : Engine} {B : Bolt} {T : GoTime}.
Context {CT : Codec ATask} {CB : Codec BrokerObj} {CE : Codec Execution}
        {CR : Codec BrokerRecordLocal} {CG : Codec Trigger}.
Context {L : BoltLaws B} {J : StoreCodecs CT CR}.

(** A program that ends as its specification says, in a store in order. *)
Lemma Begin_done {M} deferred (body : tx M unit) (m : M) s (P : M -> db -> Prop) :
  s_ok s -> s.(s_closed) = false -> wp body (fun r m' d' => r = Done tt /\ P m' d') m s.(s_db) ->
  exists m' d', Begin deferred None body m s = (put_db d' s, (m', Returned None)) /\ P m' d'.
Proof.
  intros [Ho _] Hc Hw. unfold wp in Hw. unfold Begin. rewrite Ho, Hc.
  destruct (body m (s_db s)) as [[r m'] d']. destruct Hw as [Hr HP]; simpl in Hr; subst r. by exists m', d'.
Qed.

(** Where [b], the text of [task], was stored. *)
Record task_stored (task : ATask) (b : string) (d d' : db) : Prop := {
  ts_sound : sound d';
  ts_there : forall q, is_Some (bucket d q) -> is_Some (bucket d' q);
  ts_task : content d' [tasksBucket] = <[task.(at_ID) := b]> (content d [tasksBucket]);
  ts_index : content d' (wf_tasks (pretty task.(at_WorkflowID)))
             = <[task.(at_ID) := b]> (content d (wf_tasks (pretty task.(at_WorkflowID))));
  ts_else : forall q, q <> [tasksBucket] -> q <> wf_tasks (pretty task.(at_WorkflowID)) -> content d' q = content d q
}.

Lemma task_stored_changes task b d d1 d2 d3 d4 :
  sound d -> grown d d1 -> marshal task = inr b ->
  change (wf_tasks (pretty task.(at_WorkflowID)))
    (fun _ => <[task.(at_ID) := b]> (content d1 (wf_tasks (pretty task.(at_WorkflowID))))) d1 d2 ->
  grown d2 d3 ->
  change [tasksBucket] (fun _ => <[task.(at_ID) := b]> (content d3 [tasksBucket])) d3 d4 ->
  task_stored task b d d4.
Proof.
  intros S G Hm C G' C'. pose proof (sound_grown _ _ S G) as S1. pose proof (index_put _ _ _ _ _ S1 C) as S2.
  pose proof (sound_grown _ _ S2 G') as S3.
  assert (content d3 (wf_tasks (pretty task.(at_WorkflowID)))
          = <[task.(at_ID) := b]> (content d (wf_tasks (pretty task.(at_WorkflowID))))) as Hi.
  { rewrite (gr_content _ _ G'), (ch_content _ _ _ _ C), bool_decide_true by done. by rewrite (gr_content _ _ G). }
  assert (forall q, q <> wf_tasks (pretty task.(at_WorkflowID)) -> content d3 q = content d q) as He.
  { intros q Hq. rewrite (gr_content _ _ G'), (ch_content _ _ _ _ C), bool_decide_false by done.
    apply (gr_content _ _ G). }
  split.
  - eapply (sound_task_stored task b d3); [done|done| |done]. rewrite Hi. by rewrite lookup_insert_eq.
  - eauto with store.
  - rewrite (ch_content _ _ _ _ C'), bool_decide_true by done. by rewrite He.
  - by rewrite (ch_content _ _ _ _ C'), bool_decide_false.
  - intros q H1 H2. rewrite (ch_content _ _ _ _ C'), bool_decide_false by done. by apply He.
Qed.

(** The stored text is that of the caller's task; what is taken over from the
    stored task goes into the caller's task only. *)
Definition taken_over (now : Z) (d : db) (task : ATask) : ATask :=
  match content d [tasksBucket] !! task.(at_ID) with
  | None => task
  | Some v => (merge_task now (unmarshal v zero_atask).1 task).1
  end.

Lemma setTask_spec now task b d :
  sound d -> marshal task = inr b ->
  key_fits (pretty task.(at_WorkflowID)) = true -> key_fits task.(at_ID) = true -> value_fits b = true ->
  (forall v, content d [tasksBucket] !! task.(at_ID) = Some v ->
     (unmarshal v zero_atask).2 = None /\ (merge_task now (unmarshal v zero_atask).1 task).2 = None) ->
  wp (setTaskTxFunc now) (fun r m' d' => r = Done tt /\ m' = taken_over now d task /\ task_stored task b d d') task d.
Proof.
  intros S Hm Hw Hk Hv Ho. unfold setTaskTxFunc. wp_steps; try congruence.
  rewrite Hm in H; injection H as <-. apply wp_put_fits; [bucket_side..|done|done|wp_write C].
  pose proof (index_put _ _ _ _ _ S2 C) as S3.
  assert (content d' [tasksBucket] = content d [tasksBucket]) as Ht.
  { rewrite (ch_content _ _ _ _ C), bool_decide_false by done. by rewrite (gr_content _ _ G1), (gr_content _ _ G0), (gr_content _ _ G). }
  wp_steps.
  all: rewrite (gr_content _ _ G2), Ht in Heqo.
  all: try (destruct (Ho _ Heqo) as [H1 H2]; rewrite Heqp in H1, H2; simpl in H1, H2;
            rewrite ?Heqp0 in H2; simpl in H2; congruence).
  all: apply wp_put_fits; [bucket_side..|done|done|wp_write C']; split_and!; [done| |].
  all: try (apply (task_stored_changes _ _ _ d2 d' d3); [done|by eauto using grown_trans|done..]).
  all: unfold taken_over; rewrite Heqo; try done. rewrite Heqp; simpl. by rewrite Heqp0.
Qed.

(** Taking over from a task with the same schedule cannot fail. *)
Lemma merge_counts now et task :
  task.(at_Schedule) = et.(at_Schedule) ->
  (merge_task now et task).2 = None /\
  (merge_task now et task).1.(at_SuccessCount) = Z.max task.(at_SuccessCount) et.(at_SuccessCount) /\
  (merge_task now et task).1.(at_ErrorCount) = Z.max task.(at_ErrorCount) et.(at_ErrorCount).
Proof.
  intros Hs. unfold merge_task.
  destruct (NT_After et.(at_LastError) _), (NT_After et.(at_LastSuccess) _); simpl;
    repeat (case_bool_decide; simpl in *); split_and!; first [done|lia].
Qed.


(** Storing a task again: the call succeeds and fills the caller's task from the
    stored one, but what is stored is the text of the task as it was passed.
    The counts and times of the runs so far, which the caller's task of a new
    setup does not have, are lost. *)
Theorem setup_forgets_counts s now task b v et :
  s_ok s -> s.(s_closed) = false -> marshal task = inr b ->
  key_fits (pretty task.(at_WorkflowID)) = true -> key_fits task.(at_ID) = true -> value_fits b = true ->
  content s.(s_db) [tasksBucket] !! task.(at_ID) = Some v -> unmarshal v zero_atask = (et, None) ->
  task.(at_Schedule) = et.(at_Schedule) ->
  exists s' task', SetTask None now task s = (s', (task', Returned None)) /\
    Z.max task.(at_SuccessCount) et.(at_SuccessCount) = task'.(at_SuccessCount) /\
    Z.max task.(at_ErrorCount) et.(at_ErrorCount) = task'.(at_ErrorCount) /\
    content s'.(s_db) [tasksBucket] !! task.(at_ID) = Some b.
Proof.
  intros S Hc Hm Hw Hk Hv Ek Et Hs. pose proof S as [_ Sd].
  destruct (merge_counts now et task Hs) as (Hn & H1 & H2).
  assert (forall v', content s.(s_db) [tasksBucket] !! task.(at_ID) = Some v' ->
    (unmarshal v' zero_atask).2 = None /\ (merge_task now (unmarshal v' zero_atask).1 task).2 = None) as Ho.
  { intros v' Ek'. rewrite Ek in Ek'. injection Ek' as <-. by rewrite Et. }
  destruct (Begin_done true _ _ _ _ S Hc (setTask_spec now task b _ Sd Hm Hw Hk Hv Ho)) as (task' & d' & Eb & Ht & St).
  exists (put_db d' s), task'. unfold taken_over in Ht. rewrite Ek, Et in Ht. simpl in Ht. subst task'.
  split_and!; [done|done|done|]. simpl. rewrite (ts_task _ _ _ _ St). apply lookup_insert_eq.
Qed.



(** What [SetExecutionDone] stores. *)
Lemma setExecution_spec {M} id ex eb (m : M) d :
  sound d -> marshal ex = inr eb -> key_fits id = true -> key_fits ex.(e_Id) = true -> value_fits eb = true ->
  wp (setExecutionTxFunc id ex) (fun r _ d' => r = Done tt /\ sound d' /\
    (forall q, content d' q = if bool_decide (q = [executionsBucket; id])
                              then <[ex.(e_Id) := eb]> (content d [executionsBucket; id]) else content d q)) m d.
Proof.
  intros S Hm Hi He Hv. unfold setExecutionTxFunc. wp_steps; try congruence.
  rewrite Hm in H; injection H as <-. apply wp_put_fits; [bucket_side..|done|done|wp_write C].
  split_and!; [done|frame C|]. intros q. rewrite (ch_content _ _ _ _ C).
  by rewrite !(gr_content _ _ G0), !(gr_content _ _ G).
Qed.

Lemma getTask_spec id v t d :
  sound d -> content d [tasksBucket] !! id = Some v -> unmarshal v zero_atask = (t, None) ->
  wp (getTaskTxFunc id) (fun r m' d' => r = Done tt /\ m' = put_at_logger true t /\ grown d d') zero_atask d.
Proof.
  intros S Ek Et. unfold getTaskTxFunc. wp_steps.
  all: rewrite (gr_content _ _ G) in Heqo; simplify_eq; rewrite Et in Heqp; by simplify_eq.
Qed.

(** The task an execution of [t] leaves. *)
Lemma count_execution_keeps ex t :
  (count_execution ex t).(at_ID) = t.(at_ID) /\ (count_execution ex t).(at_WorkflowID) = t.(at_WorkflowID) /\
  (count_execution ex t).(at_Schedule) = t.(at_Schedule).
Proof. unfold count_execution. by destruct (e_Success ex). Qed.

Lemma setExecutionDone_spec now id ex eb v t b d :
  sound d -> content d [tasksBucket] !! id = Some v -> unmarshal v zero_atask = (t, None) -> t.(at_ID) = id ->
  marshal ex = inr eb -> marshal (count_execution ex (put_at_logger true t)) = inr b ->
  key_fits id = true -> key_fits (pretty t.(at_WorkflowID)) = true -> key_fits ex.(e_Id) = true ->
  value_fits eb = true -> value_fits b = true ->
  wp (setExecutionDoneTxFunc now id ex) (fun r _ d' => r = Done tt /\
    exists d1, task_stored (count_execution ex (put_at_logger true t)) b d1 d' /\
    (forall q, content d1 q = if bool_decide (q = [executionsBucket; id])
       then <[ex.(e_Id) := eb]> (content d [executionsBucket; id]) else content d q)) tt d.
Proof.
  intros S Ek Et Hid Hme Hmt Hk1 Hk2 Hk3 Hv1 Hv2.
  destruct (count_execution_keeps ex (put_at_logger true t)) as (I1 & I2 & I3).
  apply wp_bind. eapply wp_mono; [by apply (setExecution_spec id ex eb)|]. intros r m1 d1 (-> & S1 & C1).
  assert (content d1 [tasksBucket] !! id = Some v) as Ek1 by (by rewrite C1, bool_decide_false).
  apply wp_bind, wp_with_memory. eapply wp_mono; [by eapply getTask_spec|]. intros r m2 d2 (-> & -> & G).
  apply wp_bind, wp_with_memory. eapply wp_mono.
  { apply (setTask_spec now _ b); [by eapply sound_grown|done|by rewrite I2|by rewrite I1; simpl; rewrite Hid|done|].
    rewrite I1, (gr_content _ _ G). simpl. rewrite Hid, Ek1. intros v' [= <-]. rewrite Et.
    split; [done|]. by apply merge_counts. }
  intros r m3 d3 (-> & _ & St). apply wp_ret. split; [done|]. exists d2. split; [done|].
  intros q. rewrite (gr_content _ _ G). apply C1.
Qed.

(** The end of an execution: the execution is stored, and the stored task is
    the one that was there with one more success or error and the time of it.
    Nothing else of the database changes. *)
Theorem execution_done_counts s now id ex eb v t b :
  s_ok s -> s.(s_closed) = false ->
  content s.(s_db) [tasksBucket] !! id = Some v -> unmarshal v zero_atask = (t, None) -> t.(at_ID) = id ->
  marshal ex = inr eb -> marshal (count_execution ex (put_at_logger true t)) = inr b ->
  key_fits id = true -> key_fits (pretty t.(at_WorkflowID)) = true -> key_fits ex.(e_Id) = true ->
  value_fits eb = true -> value_fits b = true ->
  exists s', SetExecutionDone None now id ex s = (s', Returned (true, None)) /\
    content s'.(s_db) [tasksBucket] = <[id := b]> (content s.(s_db) [tasksBucket]) /\
    content s'.(s_db) [executionsBucket; id] = <[ex.(e_Id) := eb]> (content s.(s_db) [executionsBucket; id]) /\
    (forall q, q <> [tasksBucket] -> q <> [executionsBucket; id] -> q <> wf_tasks (pretty t.(at_WorkflowID)) ->
       content s'.(s_db) q = content s.(s_db) q).
Proof.
  intros S Hc Ek Et Hid Hme Hmt Hk1 Hk2 Hk3 Hv1 Hv2. pose proof S as [_ Sd].
  destruct (count_execution_keeps ex (put_at_logger true t)) as (I1 & I2 & I3).
  destruct (Begin_done true _ tt s _ S Hc
    (setExecutionDone_spec now id ex eb v t b _ Sd Ek Et Hid Hme Hmt Hk1 Hk2 Hk3 Hv1 Hv2)) as (m' & d' & Eb & d1 & St & C).
  exists (put_db d' s). unfold SetExecutionDone, Update. rewrite Eb. simpl. split; [done|].
  rewrite (ts_task _ _ _ _ St), I1. simpl. rewrite Hid, C, bool_decide_false by done. split; [done|].
  split; [by rewrite (ts_else _ _ _ _ St), C, bool_decide_true|].
  intros q H1 H2 H3. rewrite (ts_else _ _ _ _ St), C, bool_decide_false; [done|done|done|by rewrite I2].
Qed.


(** ** Deleting a task *)

Ltac same_bucket :=
  repeat match goal with
  | N : forall q, q <> _ -> bucket ?d q = _ |- context [bucket ?d _] => rewrite N by done
  | C : change _ _ _ ?d |- context [bucket ?d _] => rewrite (ch_other _ _ _ _ C) by done
  end.

Lemma deleteTask_executions {M} k id (m : M) d :
  sound d -> wp (deleteTaskTxFunc k) (fun r _ d' => returns r /\ sound d' /\
    bucket d' [executionsBucket; id] = bucket d [executionsBucket; id]) m d.
Proof.
  intros S. unfold deleteTaskTxFunc. wp_steps.
  all: try (split; [done|split; [done|by same_bucket]]).
  apply wp_remove; [bucket_side..|wp_write C]. pose proof (index_removed _ _ _ ltac:(eassumption) C).
  apply wp_remove; [bucket_side..|wp_write C'].
  split; [done|split; [by eapply sound_task_removed|by same_bucket]].
Qed.

(** A task that never ran has no bucket of executions.  Deleting it fails at that
    bucket, the transaction is rolled back, and [DeleteTask] reports success:
    the task is still stored. *)
Theorem delete_task_rolled_back s c id :
  s_ok s -> s.(s_closed) = false -> bucket s.(s_db) [executionsBucket; id] = None ->
  DeleteTask c id s = (s, Returned None).
Proof.
  intros [Ho Sd] Hc He.
  assert (wp (deleteTaskTxFunc id;; deleteExecutionsTxFunc id) (fun r _ _ => exists e, r = Failed e) tt s.(s_db)) as Hw.
  { apply wp_bind. eapply wp_mono; [by apply deleteTask_executions|]. intros r m d (Hr & S & Hb).
    rewrite He in Hb. destruct r as [[]|e|p|]; try done; [|by eexists].
    unfold deleteExecutionsTxFunc. wp_steps. apply wp_drop; [bucket_side|by eexists|].
    intros [x Hx]. by rewrite N, Hb in Hx. }
  unfold wp in Hw. unfold DeleteTask, Update, Begin. rewrite Ho, Hc.
  destruct ((deleteTaskTxFunc id ≫= _) tt (s_db s)) as [[r m] d]. destruct Hw as [e He']. simpl in He'. by subst r.
Qed.


(** Deleting a workflow that does not list a task with the workflow's own
    number: it reports success, its bucket is gone and no task of it is stored,
    nothing else of the tasks changes; of its brokers at most the first in
    the order of keys is deleted. *)
Theorem workflow_deleted ops w :
  Forall (fun o => op_fits o.2 = true) ops ->
  let s := store_run ops (new_store db_new) in
  s.(s_closed) = false -> key_fits w = true -> content s.(s_db) (wf_tasks w) !! w = None ->
  exists s', DeleteWorkflow None w s = (s', Returned None) /\ workflow_gone w s.(s_db) s'.(s_db).
Proof.
  intros Hops s Hc Hw Hn. assert (s_ok s) as [Ho S] by (apply store_run_ok; [done|apply s_ok_new]).
  pose proof (deleteWorkflow_spec w tt _ S) as Hd. unfold wp in Hd.
  unfold DeleteWorkflow, Update, Begin. rewrite Ho, Hc.
  destruct (deleteWorkflowTxFunc w tt (s_db s)) as [[[a|e|p|] m] d']; destruct Hd as [_ Hd]; simpl in Hd; simpl.
  - by eexists.
  - congruence.
  - done.
  - rewrite Hn in Hd. by destruct Hd.
Qed.

End Props.

#[local] Open Scope Z_scope.

(** Texts of digits of the same length are ordered as their numbers. *)
Lemma bytes_le_digits a l1 l2 x y :
  0 <= a -> length l1 = length l2 -> digits_value a l1 = Some x -> digits_value a l2 = Some y ->
  bytes_le l1 l2 = true -> x <= y.
Proof.
  revert a l2. induction l1 as [|c1 l1 IH]; intros a [|c2 l2] Ha Hl H1 H2 Hle; simplify_eq/=; [lia|].
  destruct (digit_of c1) as [d1|] eqn:E1, (digit_of c2) as [d2|] eqn:E2; simplify_eq/=.
  pose proof (digit_of_order _ _ _ _ E1 E2). pose proof (digit_of_range _ _ E1). pose proof (digit_of_range _ _ E2).
  apply orb_true_iff in Hle as [Hlt%bool_decide_eq_true|[He%bool_decide_eq_true Hle]%andb_true_iff].
  - apply digits_value_bounds in H1, H2; [|lia..]. rewrite Hl in H1.
    assert (0 < 10 ^ Z.of_nat (length l2)) by (apply Z.pow_pos_nonneg; lia). nia.
  - assert (d1 = d2) as <- by lia. eapply (IH (10 * a + d1)); eauto. lia.
Qed.

Lemma length_explode s : length (explode s) = String.length s.
Proof. induction s as [|c s IH]; [done|]. simpl. by rewrite <- IH. Qed.

Lemma stamps_ordered x y :
  0 <= x -> 0 <= y -> String.length (pretty x) = String.length (pretty y) ->
  bytes_le (explode (pretty x)) (explode (pretty y)) = true -> x <= y.
Proof.
  intros Hx Hy Hl. apply bytes_le_digits with 0; [done| |by apply digits_value_pretty..].
  by rewrite !length_explode.
Qed.

(** A time whose text has 19 digits, in the range of [UnixNano]. *)
Definition stamp_ok (t : Z) : bool :=
  bool_decide (0 <= t < 2 ^ 63) && bool_decide (String.length (pretty t) = 19%nat).

(** Messages with their times, and the bucket that holds them. *)
Definition keyed (l : list (Z * string)) : gmap string string :=
  list_to_map ((fun x => (pretty x.1, x.2)) <$> l).

Definition ordered (ts : list Z) : Prop := StronglySorted Z.lt ts /\ Forall (fun t => stamp_ok t = true) ts.

Lemma keyed_fresh t l : t ∉ l.*1 -> keyed l !! pretty t = None.
Proof.
  intros Ht. apply not_elem_of_list_to_map_1. rewrite <- list_fmap_compose.
  intros ([t' v] & He & Hin)%list_elem_of_fmap. simpl in He. apply (inj pretty) in He as <-.
  apply Ht, list_elem_of_fmap. by exists (t, v).
Qed.

Lemma keyed_elem t v l : NoDup l.*1 -> keyed l !! pretty t = Some v <-> (t, v) ∈ l.
Proof.
  intros Hd. unfold keyed. rewrite <- elem_of_list_to_map.
  - rewrite list_elem_of_fmap. split.
    + intros ([t' v'] & [= He ->] & Hin). simpl in He. apply (inj pretty) in He. by subst.
    + intros Hin. by exists (t, v).
  - assert (((fun x : Z * string => (pretty x.1, x.2)) <$> l).*1 = pretty <$> l.*1) as ->
      by (by rewrite <- !list_fmap_compose).
    by apply NoDup_fmap_2; [apply _|].
Qed.

Lemma sorted_NoDup (ts : list Z) : StronglySorted Z.lt ts -> NoDup ts.
Proof.
  induction 1 as [|t ts _ IH Hf]; constructor; [|done]. rewrite Forall_forall in Hf.
  intros Hin%Hf. lia.
Qed.

(** The first entry of the bucket is the oldest message. *)
Lemma keyed_head t v l :
  ordered (t :: l.*1) -> exists rest, sorted_entries (keyed ((t, v) :: l)) = (pretty t, v) :: rest.
Proof.
  intros [Hs Hf]. assert (NoDup ((t, v) :: l).*1) as Hd by (by apply sorted_NoDup).
  assert (keyed ((t, v) :: l) !! pretty t = Some v) as Ht by (apply keyed_elem; [done|by left]).
  destruct (sorted_entries (keyed ((t, v) :: l))) as [|[k v'] rest] eqn:E.
  { apply elem_of_entries in Ht. rewrite E in Ht. by apply elem_of_nil in Ht. }
  exists rest. assert (keyed ((t, v) :: l) !! k = Some v') as Hk by (apply elem_of_entries; rewrite E; by left).
  destruct (decide (pretty t = k)) as [<-|Hn]; [by simplify_eq|exfalso].
  pose proof (entries_head _ _ _ _ _ _ E Ht Hn) as Hle.
  apply elem_of_list_to_map_2, list_elem_of_fmap in Hk as ([t' x] & [= -> ->] & Hin).
  apply elem_of_cons in Hin as [[= -> ->]|Hin]; [done|].
  assert (t' ∈ l.*1) as Hin' by (apply list_elem_of_fmap; by exists (t', x)).
  apply StronglySorted_inv in Hs as [_ Hlt]. rewrite Forall_forall in Hlt. specialize (Hlt _ Hin').
  rewrite Forall_forall in Hf. pose proof (Hf t ltac:(by left)) as H1. pose proof (Hf t' ltac:(by right)) as H2.
  unfold stamp_ok in H1, H2. rewrite andb_true_iff, !bool_decide_eq_true in H1, H2.
  assert (t' <= t); [apply stamps_ordered; [lia..| |done]; destruct H1, H2; congruence|lia].
Qed.

Lemma keyed_tail t v l : t ∉ l.*1 -> base.delete (pretty t) (keyed ((t, v) :: l)) = keyed l.
Proof. intros Ht. unfold keyed. simpl. apply delete_insert_id. by apply keyed_fresh. Qed.

Lemma keyed_snoc t v l : t ∉ l.*1 -> <[pretty t := v]> (keyed l) = keyed (l ++ [(t, v)]).
Proof.
  intros Ht. unfold keyed. rewrite fmap_app. simpl. symmetry. apply list_to_map_snoc.
  intros ([t' v'] & He & Hin)%list_elem_of_fmap. simpl in He.
  apply list_elem_of_fmap in Hin as ([t2 v2] & [= -> ->] & Hin). simpl in He. apply (inj pretty) in He as ->.
  apply Ht, list_elem_of_fmap. by exists (t2, v2).
Qed.

Section Fifo.
Context {E : Engine} {B : Bolt} {T : GoTime}.
Context {CT : Codec ATask} {CB : Codec BrokerObj} {CE : Codec Execution}
        {CR : Codec BrokerRecordLocal} {CG : Codec Trigger}.
Context {L : BoltLaws B} {J : StoreCodecs CT CR}.

(** Messages come at a time; a run of the task takes the next one. *)
Inductive queue_op : Type :=
| Send (now : Z) (v : string)
| Take.

(** The calls on the queue [k], with what the takes return. *)
Fixpoint queue_run (k : string) (ops : list queue_op) (s : Store) : list (called (string * option string)) :=
  match ops with
  | [] => []
  | Send now v :: ops' => queue_run k ops' (SetQueue None now k v s).1
  | Take :: ops' => let '(s, r) := GetQueue None k s in r :: queue_run k ops' s
  end.

(** The specification: a list, and the empty message when there is none. *)
Fixpoint queue_spec (ops : list queue_op) (l : list string) : list (called (string * option string)) :=
  match ops with
  | [] => []
  | Send _ v :: ops' => queue_spec ops' (l ++ [v])
  | Take :: ops' => Returned (default "" (head l), None) :: queue_spec ops' (tail l)
  end.

Definition sent_at (o : queue_op) : option Z := match o with Send t _ => Some t | Take => None end.
Definition sent_fits (o : queue_op) : bool := match o with Send _ v => value_fits v | Take => true end.

(** The store holds the messages [l] of the queue [k]. *)
Record holds (k : string) (l : list (Z * string)) (s : Store) : Prop := {
  h_ok : s_ok s;
  h_closed : s.(s_closed) = false;
  h_content : content s.(s_db) [queueBucket; k] = keyed l
}.

Lemma stamp_key t : stamp_ok t = true -> UnixNano t = t /\ key_fits (pretty t) = true.
Proof.
  unfold stamp_ok. rewrite andb_true_iff, !bool_decide_eq_true. intros [Hr Hl]. split.
  - unfold UnixNano, wrap_i64. rewrite Z.mod_small by lia. lia.
  - unfold key_fits. rewrite Hl, andb_true_iff, !bool_decide_eq_true. split; [|done].
    intros He. by rewrite He in Hl.
Qed.

Lemma holds_send k l now v s :
  key_fits k = true -> value_fits v = true -> stamp_ok now = true -> now ∉ l.*1 ->
  holds k l s -> holds k (l ++ [(now, v)]) (SetQueue None now k v s).1.
Proof.
  intros Hk Hv Hn Hf [S Hc Hl]. destruct (stamp_key _ Hn) as [Hu Hkey].
  assert (wp (setQueueTxFunc now k v) (fun r (_ : unit) d' => r = Done tt /\
    sound d' /\ content d' [queueBucket; k] = keyed (l ++ [(now, v)])) tt s.(s_db)) as Hw.
  { destruct S as [_ S]. unfold setQueueTxFunc. wp_steps; [congruence|]. rewrite Hu.
    apply wp_put_fits; [bucket_side..|done|done|wp_write C]. split_and!; [done|frame C|].
    rewrite (ch_content _ _ _ _ C), bool_decide_true, (gr_content _ _ G0), (gr_content _ _ G), Hl by done.
    by apply keyed_snoc. }
  destruct (Begin_done true _ _ _ _ S Hc Hw) as (m & d' & Eb & Sd & Hd).
  unfold SetQueue, Update. rewrite Eb. by split; [split; [apply S|]| |].
Qed.

Lemma holds_take k l s :
  key_fits k = true -> ordered l.*1 -> holds k l s ->
  exists s', GetQueue None k s = (s', Returned (default "" (head l.*2), None)) /\ holds k (tail l) s'.
Proof.
  intros Hk Ho [S Hc Hl].
  assert (wp (create [queueBucket];; create [queueBucket; k];;
      c ← entries [queueBucket; k];
      match c with
      | (t, v) :: _ => remove [queueBucket; k] t;; save v
      | [] => mret tt
      end) (fun r v d' => r = Done tt /\ v = default "" (head l.*2) /\ sound d' /\
        content d' [queueBucket; k] = keyed (tail l)) "" s.(s_db)) as Hw.
  { destruct S as [_ S]. wp_step. wp_step. wp_step.
    apply (wp_create_fits [queueBucket] k); [bucket_side..|made_grown].
    apply wp_bind, wp_entries; [done|]. rewrite cursor_content by (first [by eapply so_layout|done]).
    rewrite (gr_content _ _ G0), (gr_content _ _ G), Hl. destruct l as [|[t v] l].
    - apply wp_ret. by rewrite (gr_content _ _ G0), (gr_content _ _ G), Hl.
    - destruct (keyed_head t v l Ho) as [rest ->].
      apply wp_bind, wp_remove; [bucket_side..|wp_write C]. apply wp_save. split_and!; [done|done|frame C|].
      rewrite (ch_content _ _ _ _ C), bool_decide_true, (gr_content _ _ G0), (gr_content _ _ G), Hl by done.
      apply keyed_tail. destruct Ho as [Ho _]. by apply sorted_NoDup, NoDup_cons in Ho as [? _]. }
  destruct (Begin_done false _ _ _ _ S Hc Hw) as (m & d' & Eb & Hm & Sd & Hd).
  exists (put_db d' s). unfold GetQueue. rewrite Eb. subst m. split; [done|]. by split; [split; [apply S|]| |].
Qed.

(** Whatever the order of messages and takes on a queue, as long as the clock
    moves forward between messages, every take returns the oldest message not
    yet taken, and the empty text when there is none. *)
Theorem queue_is_fifo s k ops :
  s_ok s -> s.(s_closed) = false -> key_fits k = true -> content s.(s_db) [queueBucket; k] = ∅ ->
  ordered (omap sent_at ops) -> forallb sent_fits ops = true ->
  queue_run k ops s = queue_spec ops [].
Proof.
  intros S Hc Hk He Ho Hf. assert (holds k [] s) as H by done. clear S Hc He.
  change ([] : list string) with (([] : list (Z * string)).*2).
  change (omap sent_at ops) with (([] : list (Z * string)).*1 ++ omap sent_at ops) in Ho.
  revert s H Ho. generalize ([] : list (Z * string)). induction ops as [|o ops IH]; intros l s H Ho; simpl; [done|].
  simpl in Hf. apply andb_true_iff in Hf as [Hv Hf]. destruct o as [now v|]; simpl in Ho, Hv.
  - assert (now ∉ l.*1 /\ stamp_ok now = true) as [Hn Hs].
    { destruct Ho as [H1 H2]. apply sorted_NoDup in H1. apply Forall_app in H2 as [_ H2]. inversion H2; subst.
      split; [|done]. intros Hin. apply NoDup_app in H1 as (_ & H1 & _). apply (H1 _ Hin). by left. }
    replace (l.*2 ++ [v]) with ((l ++ [(now, v)]).*2) by (by rewrite fmap_app).
    apply IH; [done|by apply holds_send|]. by rewrite fmap_app, <- (assoc_L (++)).
  - assert (ordered l.*1) as Hl.
    { destruct Ho as [H1 H2]. apply Forall_app in H2 as [H2 _]. split; [|done].
      by apply StronglySorted_app_1_l in H1. }
    destruct (holds_take k l s Hk Hl H) as (s' & -> & H'). f_equal.
    replace (tail l.*2) with ((tail l).*2) by (by destruct l). apply IH; [done|done|].
    destruct l as [|x l]; [done|]. simpl in *. destruct Ho as [H1 H2].
    apply StronglySorted_inv in H1 as [H1 _]. by apply Forall_cons in H2 as [_ H2].
Qed.

End Fifo.
