(* ===== verification/AgentStoreRuns.v ===== *)
(** Runs of the agent's store on a small database: a codec that writes the
    fields the runs look at as one number, and the hypotheses of the theorems on
    the store at concrete inputs. *)

From stdpp Require Import pretty strings sorting countable.
From S2P Require Import Prelude GoStrings Value Compile WorkerData WorkerRuns AgentBolt AgentData AgentStore AgentStoreInv AgentStoreSound AgentStoreProps.

#[local] Open Scope Z_scope.
#[local] Existing Instance small_engine.

(** ** A codec *)

Definition text {A} `{Countable A} (x : A) : string := pretty (Zpos (countable.encode x)).
Definition untext {A} `{Countable A} (s : string) : option A :=
  match digits_value 0 (explode s) with
  | Some (Zpos p) => countable.decode p
  | _ => None
  end.

Lemma untext_text {A} `{Countable A} (x : A) : untext (text x) = Some x.
Proof. unfold untext, text. rewrite digits_value_pretty by lia. apply decode_encode. Qed.

(** A codec of [T'] by a view of it. *)
Definition view_codec {T' A} `{Countable A} (view : T' -> A) (fill : A -> T' -> T') : Codec T' := {|
  marshal x := inr (text (view x));
  unmarshal b x := match untext b with Some a => (fill a x, None) | None => (x, Some "json") end
|}.

#[export] Instance small_tasks : Codec ATask :=
  view_codec (fun t => (t.(at_ID), t.(at_WorkflowID), t.(at_SuccessCount), t.(at_ErrorCount)))
    (fun '(id, w, n, e) t =>
       mkATask id t.(at_Name) w t.(at_Timezone) t.(at_Schedule) n e t.(at_LastSuccess) t.(at_LastError)
         t.(at_Disabled) t.(at_Metadata) t.(at_Agent) t.(at_Trigger) t.(at_Retries) t.(at_Executor)
         t.(at_ExecutorConfig) t.(at_Status) t.(at_Next) t.(at_Ephemeral) t.(at_ExpiresAt)
         t.(at_UserDefineVars) t.(at_Wait) t.(at_Input) t.(at_logger)).
#[export] Instance small_brokers : Codec BrokerObj :=
  view_codec (fun b => (b_ID b.(bo), b_Name b.(bo), b_WorkflowID b.(bo)))
    (fun '(id, name, w) b => mkBrokerObj (mkBroker id name "" [] [] (mkFlows None "") None w) b.(bo_Queue)).
#[export] Instance small_executions : Codec Execution :=
  view_codec (fun e => (e.(e_Id), e.(e_Success)))
    (fun '(id, ok) e => mkExecution id e.(e_TaskID) e.(e_StartedAt) e.(e_FinishedAt) ok e.(e_Output) e.(e_NodeName)
       e.(e_Group) e.(e_Attempt) e.(e_Offset) e.(e_Part) e.(e_Parent) e.(e_Status)).
#[export] Instance small_records : Codec BrokerRecordLocal :=
  view_codec brl_BrokerID (fun id r => mkBrokerRecord r.(brl_ID) r.(brl_Status) r.(brl_Input) r.(brl_Output) id
    r.(brl_CreatedAt) r.(brl_WorkflowID)).
#[export] Instance small_triggers : Codec Trigger := view_codec tg_ID (fun id _ => trigger_with_id id).

#[export] Instance small_codecs : StoreCodecs small_tasks small_records.
Proof.
  split; intros x b [= <-]; simpl; rewrite untext_text; [|done]. by eexists.
Qed.

#[export] Instance small_time : GoTime := {|
  cron_next s := if bool_decide (s = "@hourly") then inr (fun now => now + 3600 * second) else inl "bad schedule";
  LoadLocation s := if bool_decide (s = "") then None else Some "unknown time zone";
  ParseDuration s := if bool_decide (s = "1s") then None else Some "bad duration"
|}.

(** ** Runs *)

Definition small_task (id : string) (w n : Z) : ATask :=
  mkATask id "" w "" "" n 0 no_time no_time false ∅ false None 0 "" ∅ "" zero_time false no_time ∅ "" "" false.
Definition small_broker (id w : Z) : BrokerObj := mkBrokerObj (mkBroker id "b" "" [] [] (mkFlows None "") None w) false.

(** Workflow 7 with the tasks 11 and 12 and the brokers 3 and 4, and the task 13 of workflow 8. *)
Definition setup : list (option string * store_op) :=
  [(None, OSetTask 0 (small_task "11" 7 0)); (None, OSetTask 0 (small_task "12" 7 5));
   (None, OSetTask 0 (small_task "13" 8 0)); (Some "disk full", OSetTask 0 (small_task "14" 8 0));
   (None, OSetBroker (small_broker 3 7)); (None, OSetBroker (small_broker 4 7)); (None, OGetQueue "t-7")].

Definition small_store : Store := store_run setup (new_store db_new).

Lemma setup_fits : Forall (fun o => op_fits o.2 = true) setup.
Proof. by repeat constructor. Qed.

Lemma small_store_ok : s_ok small_store.
Proof. apply store_run_ok; [apply setup_fits|apply s_ok_new]. Qed.



(** Deleting workflow 7: its tasks are gone, broker 4 is still there. *)
Definition after_delete : Store := (DeleteWorkflow None "7" small_store).1.

Lemma delete_leaves :
  (sorted_entries (content after_delete.(s_db) [tasksBucket])).*1 = ["13"] /\
  (sorted_entries (content after_delete.(s_db) [brokersBucket])).*1 = ["4"].
Proof. vm_compute. done. Qed.

Lemma workflow_deleted_witness :
  exists s', DeleteWorkflow None "7" small_store = (s', Returned None) /\
    workflow_gone "7" small_store.(s_db) s'.(s_db).
Proof.
  apply (workflow_deleted setup "7"); [apply setup_fits|reflexivity|reflexivity|vm_compute; reflexivity].
Defined.

Lemma setup_forgets_counts_witness :
  exists s' task', SetTask None 0 (small_task "12" 7 0) small_store = (s', (task', Returned None)) /\
    Z.max 0 5 = task'.(at_SuccessCount) /\ Z.max 0 0 = task'.(at_ErrorCount) /\
    content s'.(s_db) [tasksBucket] !! "12" = Some (text ("12", 7, 0, 0)).
Proof.
  apply (setup_forgets_counts small_store 0 (small_task "12" 7 0) (text ("12", 7, 0, 0)) (text ("12", 7, 5, 0))
    (small_task "12" 7 5));
    [apply small_store_ok|vm_compute; reflexivity..].
Defined.

Definition small_execution : Execution :=
  mkExecution "1-agent" "11" 1 2 true "" "agent" "" 1 1 "" "" 1.

Lemma execution_done_counts_witness :
  exists s', SetExecutionDone None 0 "11" small_execution small_store = (s', Returned (true, None)) /\
    content s'.(s_db) [tasksBucket] = <["11" := text ("11", 7, 1, 0)]> (content small_store.(s_db) [tasksBucket]) /\
    content s'.(s_db) [executionsBucket; "11"] = <["1-agent" := text ("1-agent", true)]> (content small_store.(s_db) [executionsBucket; "11"]) /\
    (forall q, q <> [tasksBucket] -> q <> [executionsBucket; "11"] -> q <> wf_tasks (pretty 7) ->
       content s'.(s_db) q = content small_store.(s_db) q).
Proof.
  apply (execution_done_counts small_store 0 "11" small_execution (text ("1-agent", true)) (text ("11", 7, 0, 0))
    (small_task "11" 7 0) (text ("11", 7, 1, 0)));
    [apply small_store_ok|vm_compute; reflexivity..].
Defined.

Lemma delete_task_rolled_back_witness : DeleteTask None "11" small_store = (small_store, Returned None).
Proof. apply delete_task_rolled_back; [apply small_store_ok|vm_compute; reflexivity..]. Defined.

(** Two messages, three takes. *)
Definition queue_ops : list queue_op :=
  [Take; Send 1700000000000000001 "a"; Send 1700000000000000002 "b"; Take; Take; Take].

Lemma queue_is_fifo_witness :
  queue_run "t-7" queue_ops small_store
  = [Returned ("", None); Returned ("a", None); Returned ("b", None); Returned ("", None)].
Proof.
  apply (queue_is_fifo small_store "t-7" queue_ops);
    [apply small_store_ok|vm_compute; reflexivity|reflexivity|vm_compute; reflexivity| |reflexivity].
  split; [|by repeat constructor]. repeat constructor; lia.
Defined.
