(* ===== verification/AgentBroker.v ===== *)
(** The agent's message broker: [kairosdeamon/agent/broker].

    Subscribers are objects shared by goroutines, so they live in a store, by
    their identifier.  [Broadcast] starts one goroutine per subscriber of the
    topic; each sends on the subscriber's unbuffered channel while it holds the
    subscriber's read lock.  [Detach] takes the write lock to mark the
    subscriber, and closes the channel after it gave the lock back.  Sending on
    a closed channel and closing it twice are panics of the whole process.

    [step] is one step of one goroutine.  Theorems: nothing is sent on a closed
    channel; a subscriber that is detached twice brings the process down; without
    races, broker and subscribers agree on the topics and a detached subscriber
    is in none. *)

From S2P Require Import Prelude GoStrings.

#[local] Open Scope nat_scope.

(** [Message]; payloads are of the type [P]. *)
Record Message (P : Type) := mkMessage { m_topic : string; m_payload : P; m_createdAt : Z }.
Arguments mkMessage {P} _ _ _.
Arguments m_topic {P} _.
Arguments m_payload {P} _.
Arguments m_createdAt {P} _.

(** [Subscriber]: what its lock guards, and whether its channel is closed. *)
Record Subscriber := mkSubscriber {
  sb_topics : gset string;
  sb_destroyed : bool;
  sb_closed : bool
}.

Definition NewSubscriber : Subscriber := mkSubscriber ∅ false false.

Definition AddTopic (topic : string) (s : Subscriber) : Subscriber :=
  mkSubscriber ({[topic]} ∪ s.(sb_topics)) s.(sb_destroyed) s.(sb_closed).
Definition RemoveTopic (topic : string) (s : Subscriber) : Subscriber :=
  mkSubscriber (s.(sb_topics) ∖ {[topic]}) s.(sb_destroyed) s.(sb_closed).
Definition GetTopics (s : Subscriber) : list string := elements s.(sb_topics).

(** The locked part of [destroy], and the [close] after it. *)
Definition mark_destroyed (s : Subscriber) : Subscriber := mkSubscriber s.(sb_topics) true s.(sb_closed).
Definition close_channel (s : Subscriber) : option Subscriber :=
  if s.(sb_closed) then None else Some (mkSubscriber s.(sb_topics) s.(sb_destroyed) true).

(** [Broker] with the subscribers that exist, attached or not. *)
Record Broker := mkBroker {
  objects : gmap string Subscriber;
  subscribers : gset string;
  topics : gmap string (gset string)
}.

Definition NewBroker : Broker := mkBroker ∅ ∅ ∅.

Definition on_sub (f : Subscriber -> Subscriber) (id : string) (b : Broker) : Broker :=
  mkBroker (alter f id b.(objects)) b.(subscribers) b.(topics).

(** The subscribers of a topic. *)
Definition of_topic (topic : string) (b : Broker) : gset string := default ∅ (b.(topics) !! topic).

(** [NewSubscriber] with the random identifier [id]; [Attach] also files it. *)
Definition create (id : string) (b : Broker) : Broker :=
  mkBroker (<[id := NewSubscriber]> b.(objects)) b.(subscribers) b.(topics).
Definition Attach (id : string) (b : Broker) : Broker :=
  let b := create id b in mkBroker b.(objects) ({[id]} ∪ b.(subscribers)) b.(topics).

Definition subscribe_one (id topic : string) (b : Broker) : Broker :=
  let b := on_sub (AddTopic topic) id b in
  mkBroker b.(objects) b.(subscribers) (<[topic := {[id]} ∪ of_topic topic b]> b.(topics)).
Definition Subscribe (id : string) (ts : list string) (b : Broker) : Broker :=
  foldl (fun b topic => subscribe_one id topic b) b ts.

(** The part of [Unsubscribe] under the broker's lock. *)
Definition drop_topic (id topic : string) (b : Broker) : Broker :=
  mkBroker b.(objects) b.(subscribers) (<[topic := of_topic topic b ∖ {[id]}]> b.(topics)).
Definition unsubscribe_one (id topic : string) (b : Broker) : Broker :=
  match b.(topics) !! topic with
  | None => b
  | Some _ => on_sub (RemoveTopic topic) id (drop_topic id topic b)
  end.
Definition Unsubscribe (id : string) (ts : list string) (b : Broker) : Broker :=
  foldl (fun b topic => unsubscribe_one id topic b) b ts.

Definition topics_of (id : string) (b : Broker) : list string :=
  match b.(objects) !! id with Some s => GetTopics s | None => [] end.
Definition unfile (id : string) (b : Broker) : Broker :=
  mkBroker b.(objects) (b.(subscribers) ∖ {[id]}) b.(topics).

(** What [Detach] does after [destroy], when nothing runs in between. *)
Definition detach_rest (id : string) (b : Broker) : Broker := unfile id (Unsubscribe id (topics_of id b) b).

(** [Subscribers] and [Broker.GetTopics] *)
Definition Subscribers (topic : string) (b : Broker) : nat := size (of_topic topic b).
Definition Broker_GetTopics (b : Broker) : gset string := dom b.(topics).

Section Goroutines.
Context {P : Type}.

(** Goroutines: [Signal] before its check and while it sends under the read
    lock; [Detach] before the lock, before the close, after it; [Unsubscribe]
    before each topic, and between the broker's and the subscriber's part of
    one ([last] when [Detach] called it); [HandleMessage] waiting for a message
    and while its function runs. *)
Inductive proc : Type :=
| PSignal (id : string) (m : Message P)
| PSend (id : string) (m : Message P)
| PDestroy (id : string)
| PClose (id : string)
| PUnsubscribe (id : string)
| PDrop (id : string) (ts : list string) (last : bool)
| PForget (id : string) (topic : string) (ts : list string) (last : bool)
| PHandle (id : string)
| PBusy (id : string).

(** What happened: a message was handed to a subscriber's handler, a handler
    ended, the process panicked. *)
Inductive occurrence : Type :=
| Handled (id : string) (m : Message P)
| HandlerEnded (id : string)
| Panicked (msg : string).

Record world := mkWorld {
  broker : Broker;
  procs : list proc;
  trace : list occurrence
}.

(** [Broadcast] to one topic: a goroutine per subscriber. *)
Definition Broadcast (payload : P) (now : Z) (topic : string) (b : Broker) : list proc :=
  if bool_decide (Subscribers topic b < 1) then []
  else (fun id => PSignal id (mkMessage topic payload now)) <$> elements (of_topic topic b).

(** The goroutine holds the read lock of [id]. *)
Definition sends_to (id : string) (p : proc) : bool :=
  match p with PSend id' _ => bool_decide (id' = id) | _ => false end.
Definition destroyed (id : string) (b : Broker) : bool :=
  match b.(objects) !! id with Some s => s.(sb_destroyed) | None => false end.
Definition closed (id : string) (b : Broker) : bool :=
  match b.(objects) !! id with Some s => s.(sb_closed) | None => false end.

(** One step of one goroutine, or a call of the agent.  [rest] are the other
    goroutines. *)
Inductive step : world -> world -> Prop :=
| s_signal b ps rest id m tr :
    ps ≡ₚ PSignal id m :: rest ->
    step (mkWorld b ps tr) (mkWorld b (if destroyed id b then rest else PSend id m :: rest) tr)
| s_send b ps rest id m tr :
    ps ≡ₚ PSend id m :: PHandle id :: rest -> closed id b = false ->
    step (mkWorld b ps tr) (mkWorld b (PBusy id :: rest) (tr ++ [Handled id m]))
| s_send_closed b ps rest id m tr :
    ps ≡ₚ PSend id m :: rest -> closed id b = true ->
    step (mkWorld b ps tr) (mkWorld b rest (tr ++ [Panicked "send on closed channel"]))
| s_handled b ps rest id tr :
    ps ≡ₚ PBusy id :: rest -> step (mkWorld b ps tr) (mkWorld b (PHandle id :: rest) tr)
| s_handle_end b ps rest id tr :
    ps ≡ₚ PHandle id :: rest -> closed id b = true ->
    step (mkWorld b ps tr) (mkWorld b rest (tr ++ [HandlerEnded id]))
| s_destroy b ps rest id tr :
    ps ≡ₚ PDestroy id :: rest -> existsb (sends_to id) rest = false ->
    step (mkWorld b ps tr) (mkWorld (on_sub mark_destroyed id b) (PClose id :: rest) tr)
| s_close b ps rest id tr s s' :
    ps ≡ₚ PClose id :: rest -> b.(objects) !! id = Some s -> close_channel s = Some s' ->
    step (mkWorld b ps tr)
      (mkWorld (mkBroker (<[id := s']> b.(objects)) b.(subscribers) b.(topics)) (PUnsubscribe id :: rest) tr)
| s_close_closed b ps rest id tr s :
    ps ≡ₚ PClose id :: rest -> b.(objects) !! id = Some s -> close_channel s = None ->
    step (mkWorld b ps tr) (mkWorld b rest (tr ++ [Panicked "close of closed channel"]))
| s_unsubscribe b ps rest id tr :
    ps ≡ₚ PUnsubscribe id :: rest ->
    step (mkWorld b ps tr) (mkWorld b (PDrop id (topics_of id b) true :: rest) tr)
| s_drop b ps rest id t ts last tr :
    ps ≡ₚ PDrop id (t :: ts) last :: rest ->
    step (mkWorld b ps tr)
      (match b.(topics) !! t with
       | None => mkWorld b (PDrop id ts last :: rest) tr
       | Some _ => mkWorld (drop_topic id t b) (PForget id t ts last :: rest) tr
       end)
| s_forget b ps rest id t ts last tr :
    ps ≡ₚ PForget id t ts last :: rest ->
    step (mkWorld b ps tr) (mkWorld (on_sub (RemoveTopic t) id b) (PDrop id ts last :: rest) tr)
| s_dropped b ps rest id (last : bool) tr :
    ps ≡ₚ PDrop id [] last :: rest ->
    step (mkWorld b ps tr) (mkWorld (if last then unfile id b else b) rest tr)
| s_create b ps tr id :
    b.(objects) !! id = None -> step (mkWorld b ps tr) (mkWorld (create id b) ps tr)
| s_attach b ps tr id :
    b.(objects) !! id = None -> step (mkWorld b ps tr) (mkWorld (Attach id b) ps tr)
| s_handle b ps tr id :
    is_Some (b.(objects) !! id) -> step (mkWorld b ps tr) (mkWorld b (PHandle id :: ps) tr)
| s_subscribe b ps tr id ts :
    is_Some (b.(objects) !! id) -> step (mkWorld b ps tr) (mkWorld (Subscribe id ts b) ps tr)
| s_unsubscribe_call b ps tr id ts :
    is_Some (b.(objects) !! id) -> step (mkWorld b ps tr) (mkWorld b (PDrop id ts false :: ps) tr)
| s_detach b ps tr id :
    is_Some (b.(objects) !! id) -> step (mkWorld b ps tr) (mkWorld b (PDestroy id :: ps) tr)
| s_broadcast b ps tr payload now topic :
    step (mkWorld b ps tr) (mkWorld b (ps ++ Broadcast payload now topic b) tr).

Definition start : world := mkWorld NewBroker [] [].
Definition reachable (w : world) : Prop := rtc step start w.

(** ** Topics *)

(** Broker and subscribers agree on who listens to what. *)
Definition agree (b : Broker) : Prop :=
  forall id t, id ∈ of_topic t b <-> exists s, b.(objects) !! id = Some s /\ t ∈ s.(sb_topics).

Lemma of_topic_insert t t' x objs subs tps :
  of_topic t (mkBroker objs subs (<[t' := x]> tps)) = if bool_decide (t = t') then x else default ∅ (tps !! t).
Proof.
  unfold of_topic; simpl. destruct (bool_decide_reflect (t = t')) as [->|Hn].
  - by rewrite lookup_insert_eq.
  - by rewrite lookup_insert_ne.
Qed.

Lemma lookup_on_sub f id id' b :
  (on_sub f id b).(objects) !! id' = if bool_decide (id' = id) then f <$> b.(objects) !! id' else b.(objects) !! id'.
Proof.
  unfold on_sub; simpl. destruct (bool_decide_reflect (id' = id)) as [->|Hn].
  - by rewrite lookup_alter_eq.
  - by rewrite lookup_alter_ne.
Qed.

(** A change of a subscriber that leaves its topics. *)
Lemma agree_same_topics b objs subs :
  agree b -> (forall id, sb_topics <$> objs !! id = sb_topics <$> b.(objects) !! id) ->
  agree (mkBroker objs subs b.(topics)).
Proof.
  unfold agree. intros H Ho id t. change (of_topic t (mkBroker objs subs (topics b))) with (of_topic t b).
  rewrite H. specialize (Ho id). split.
  - intros (s & Es & Ht). rewrite Es in Ho. simpl in *. destruct (objs !! id) as [s'|]; [|done].
    injection Ho as Ho. exists s'. by rewrite Ho.
  - simpl. intros (s & Es & Ht). rewrite Es in Ho. simpl in *. destruct (objects b !! id) as [s'|]; [|done].
    injection Ho as Ho. exists s'. by rewrite <- Ho.
Qed.

Lemma agree_subscribe_one id topic b :
  is_Some (b.(objects) !! id) -> agree b -> agree (subscribe_one id topic b).
Proof.
  unfold agree. intros [s0 E0] H id' t. unfold subscribe_one. rewrite of_topic_insert. simpl.
  change (default ∅ (topics b !! t)) with (of_topic t b).
  change (alter (AddTopic topic) id (objects b)) with (objects (on_sub (AddTopic topic) id b)).
  change (of_topic topic (on_sub _ _ b)) with (of_topic topic b). rewrite lookup_on_sub.
  destruct (bool_decide_reflect (t = topic)) as [->|Ht], (bool_decide_reflect (id' = id)) as [->|Hid].
  - rewrite E0. simpl. split; [intros _|set_solver]. exists (AddTopic topic s0). simpl. set_solver.
  - rewrite elem_of_union, elem_of_singleton, H. naive_solver.
  - rewrite H, E0. simpl. split; intros (s & [= <-] & Hs).
    + exists (AddTopic topic s0). simpl. set_solver.
    + exists s0. simpl in Hs. set_solver.
  - apply H.
Qed.

Lemma agree_unsubscribe_one id topic b : agree b -> agree (unsubscribe_one id topic b).
Proof.
  unfold agree. intros H. unfold unsubscribe_one. destruct (topics b !! topic) as [ids|] eqn:Et; [|done].
  intros id' t. rewrite lookup_on_sub. unfold on_sub, drop_topic. simpl.
  rewrite of_topic_insert. change (default ∅ (topics b !! t)) with (of_topic t b).
  destruct (bool_decide_reflect (t = topic)) as [->|Ht], (bool_decide_reflect (id' = id)) as [->|Hid].
  - split; [set_solver|]. intros (s & Es & Hs). destruct (objects b !! id); simplify_eq/=. set_solver.
  - rewrite elem_of_difference, H, elem_of_singleton. naive_solver.
  - rewrite H. destruct (objects b !! id) as [s0|]; simpl; [|naive_solver]. split; intros (s & [= <-] & Hs).
    + exists (RemoveTopic topic s0). simpl. set_solver.
    + exists s0. simpl in Hs. set_solver.
  - apply H.
Qed.

Lemma agree_Subscribe id ts b : is_Some (b.(objects) !! id) -> agree b -> agree (Subscribe id ts b).
Proof.
  unfold Subscribe. revert b. induction ts as [|t ts IH]; intros b Hs H; simpl; [done|]. apply IH.
  - unfold subscribe_one, on_sub. simpl. rewrite lookup_alter_eq. by apply fmap_is_Some.
  - by apply agree_subscribe_one.
Qed.

Lemma agree_Unsubscribe id ts b : agree b -> agree (Unsubscribe id ts b).
Proof.
  unfold Unsubscribe. revert b. induction ts as [|t ts IH]; intros b H; simpl; [done|].
  by apply IH, agree_unsubscribe_one.
Qed.

Lemma Unsubscribe_gone id ts b t :
  id ∈ of_topic t (Unsubscribe id ts b) -> id ∈ of_topic t b /\ t ∉ ts.
Proof.
  unfold Unsubscribe. revert b. induction ts as [|t' ts IH]; intros b; simpl; [set_solver|].
  intros [Hin Hn]%IH. unfold unsubscribe_one in Hin. destruct (topics b !! t') as [ids|] eqn:Et.
  - change (of_topic t (on_sub _ _ ?x)) with (of_topic t x) in Hin. unfold drop_topic in Hin.
    rewrite of_topic_insert in Hin. change (default ∅ (topics b !! t)) with (of_topic t b) in Hin.
    destruct (bool_decide_reflect (t = t')); set_solver.
  - split; [done|]. intros [->|?]%elem_of_cons; [|done]. unfold of_topic in Hin. rewrite Et in Hin. set_solver.
Qed.

(** A detached subscriber is in no topic. *)
Lemma detach_leaves_topics id b t : agree b -> id ∉ of_topic t (detach_rest id b).
Proof.
  unfold agree. intros H Hin. unfold detach_rest in Hin. change (of_topic t (unfile id ?x)) with (of_topic t x) in Hin.
  apply Unsubscribe_gone in Hin as [Hin Hn]. apply H in Hin as (s & Es & Ht). apply Hn.
  unfold topics_of. rewrite Es. unfold GetTopics. by apply elem_of_elements.
Qed.

(** ** The invariant *)

Record fine (w : world) : Prop := {
  (** who sends holds the lock of a live subscriber *)
  f_send : forall id m, PSend id m ∈ w.(procs) -> destroyed id w.(broker) = false;
  f_there : forall id, PDestroy id ∈ w.(procs) -> is_Some (w.(broker).(objects) !! id);
  f_close : forall id, PClose id ∈ w.(procs) -> destroyed id w.(broker) = true;
  f_closed : forall id, closed id w.(broker) = true -> destroyed id w.(broker) = true;
  f_trace : Panicked "send on closed channel" ∉ w.(trace)
}.

Lemma start_fine : fine start.
Proof.
  split; simpl; intros; set_solver.
Qed.

(** Marks are kept where topics change. *)
Definition same_marks (b b' : Broker) : Prop :=
  forall id, destroyed id b' = destroyed id b /\ closed id b' = closed id b /\
    (is_Some (b.(objects) !! id) -> is_Some (b'.(objects) !! id)).

Lemma same_marks_refl b : same_marks b b.
Proof. done. Qed.

Lemma marks_on_sub f id objs subs tps tps' :
  (forall s, (f s).(sb_destroyed) = s.(sb_destroyed) /\ (f s).(sb_closed) = s.(sb_closed)) ->
  same_marks (mkBroker objs subs tps) (mkBroker (alter f id objs) subs tps').
Proof.
  intros Hf id'. unfold destroyed, closed; simpl. destruct (decide (id' = id)) as [->|Hn].
  - rewrite lookup_alter_eq. destruct (objs !! id) as [s|]; simpl; [|done].
    destruct (Hf s). split_and!; [done|done|by eexists].
  - by rewrite lookup_alter_ne.
Qed.

Lemma marks_trans b1 b2 b3 : same_marks b1 b2 -> same_marks b2 b3 -> same_marks b1 b3.
Proof.
  intros H1 H2 id. destruct (H1 id) as (? & ? & ?), (H2 id) as (? & ? & ?). split_and!; [congruence..|auto].
Qed.

Lemma marks_Subscribe id ts b : same_marks b (Subscribe id ts b).
Proof.
  unfold Subscribe. revert b. induction ts as [|t ts IH]; intros b; simpl; [done|].
  eapply marks_trans; [|apply IH]. destruct b. by apply marks_on_sub.
Qed.

Lemma marks_Unsubscribe id ts b : same_marks b (Unsubscribe id ts b).
Proof.
  unfold Unsubscribe. revert b. induction ts as [|t ts IH]; intros b; simpl; [done|].
  eapply marks_trans; [|apply IH]. unfold unsubscribe_one. destruct (topics b !! t); [|done].
  destruct b. by apply marks_on_sub.
Qed.

(** Goroutines come and go without new sends or closes. *)
Lemma fine_same b b' ps ps' tr :
  fine (mkWorld b ps tr) -> same_marks b b' ->
  (forall p, p ∈ ps' -> match p with
                        | PSend _ _ | PClose _ => p ∈ ps
                        | PDestroy id => p ∈ ps \/ is_Some (b.(objects) !! id)
                        | _ => True
                        end) ->
  fine (mkWorld b' ps' tr).
Proof.
  intros [H2 H6 H3 H4 H5] Hm Hp. split; simpl in *; [| | | |done].
  - intros id m Hin. destruct (Hm id) as [-> _]. by apply (H2 id m), (Hp _ Hin).
  - intros id Hin. destruct (Hm id) as (_ & _ & Hs). apply Hs. destruct (Hp _ Hin); auto.
  - intros id Hin. destruct (Hm id) as [-> _]. by apply H3, (Hp _ Hin).
  - intros id. destruct (Hm id) as (-> & -> & _). eauto.
Qed.

Lemma fine_occurs b ps tr o :
  o <> Panicked "send on closed channel" -> fine (mkWorld b ps tr) -> fine (mkWorld b ps (tr ++ [o])).
Proof. intros Ho [? ? ? ? H5]. split; try done. simpl in *. set_solver. Qed.

Lemma agree_create id b : b.(objects) !! id = None -> agree b -> agree (create id b).
Proof.
  unfold agree. intros Hn H id' t. change (of_topic t (create id b)) with (of_topic t b). rewrite H. simpl.
  destruct (decide (id' = id)) as [->|Hd].
  - rewrite lookup_insert_eq, Hn. split; [naive_solver|]. intros (s & [= <-] & Hs). set_solver.
  - by rewrite lookup_insert_ne.
Qed.

Lemma marks_create id b : b.(objects) !! id = None -> same_marks b (create id b).
Proof.
  intros Hn id'. unfold destroyed, closed; simpl. destruct (decide (id' = id)) as [->|Hd].
  - by rewrite lookup_insert_eq, Hn.
  - by rewrite lookup_insert_ne.
Qed.

Lemma no_sends id ps : existsb (sends_to id) ps = false -> forall m, PSend id m ∉ ps.
Proof.
  intros H m Hin. assert (existsb (sends_to id) ps = true); [|congruence].
  apply existsb_exists. exists (PSend id m). split; [by apply list_elem_of_In|]. simpl. by apply bool_decide_eq_true.
Qed.

Lemma destroyed_mark id i b :
  is_Some (b.(objects) !! id) ->
  destroyed i (on_sub mark_destroyed id b) = if bool_decide (i = id) then true else destroyed i b.
Proof.
  intros [s Es]. unfold destroyed. rewrite lookup_on_sub.
  destruct (bool_decide_reflect (i = id)) as [->|]; [by rewrite Es|done].
Qed.

Lemma fine_destroy b ps rest id tr :
  fine (mkWorld b ps tr) -> ps ≡ₚ PDestroy id :: rest -> existsb (sends_to id) rest = false ->
  fine (mkWorld (on_sub mark_destroyed id b) (PClose id :: rest) tr).
Proof.
  intros [H2 H6 H3 H4 H5] Hp Hn. simpl in *.
  assert (is_Some (objects b !! id)) as Hid by (apply H6; rewrite Hp; by left).
  split; simpl; [| | | |done].
  - intros i m Hin. apply elem_of_cons in Hin as [?|Hin]; [done|]. rewrite destroyed_mark by done.
    destruct (bool_decide_reflect (i = id)) as [->|]; [by destruct (no_sends _ _ Hn m)|].
    apply (H2 i m). rewrite Hp. by right.
  - intros i Hin. apply elem_of_cons in Hin as [?|Hin]; [done|].
    change (alter mark_destroyed id (objects b)) with (objects (on_sub mark_destroyed id b)).
    rewrite lookup_on_sub. assert (is_Some (objects b !! i)) as [s ->] by (apply H6; rewrite Hp; by right).
    destruct (bool_decide _); by eexists.
  - intros i Hin. rewrite destroyed_mark by done. destruct (bool_decide_reflect (i = id)) as [->|Hi]; [done|].
    apply H3. rewrite Hp. apply elem_of_cons in Hin as [[= ->]|Hin]; [done|by right].
  - intros i. rewrite destroyed_mark by done. destruct (bool_decide_reflect (i = id)) as [->|Hi]; [done|].
    intros Hc. apply H4. unfold closed in *. rewrite lookup_on_sub, bool_decide_false in Hc; done.
Qed.

Lemma fine_closed b ps rest id tr s s' :
  fine (mkWorld b ps tr) -> ps ≡ₚ PClose id :: rest -> b.(objects) !! id = Some s -> close_channel s = Some s' ->
  fine (mkWorld (mkBroker (<[id := s']> b.(objects)) b.(subscribers) b.(topics)) (PUnsubscribe id :: rest) tr).
Proof.
  intros [H2 H6 H3 H4 H5] Hp Es Hc. simpl in *. unfold close_channel in Hc.
  destruct (sb_closed s) eqn:Ec; [done|]. injection Hc as <-.
  assert (destroyed id b = true) as Hd by (apply H3; rewrite Hp; by left).
  set (b' := mkBroker _ _ _). assert (forall i, destroyed i b' = destroyed i b) as Hd'.
  { intros i. unfold destroyed, b'; simpl. destruct (decide (i = id)) as [->|Hi].
    - by rewrite lookup_insert_eq, Es.
    - by rewrite lookup_insert_ne. }
  split; simpl; [| | | |done].
  - intros i m Hin. apply elem_of_cons in Hin as [?|Hin]; [done|]. rewrite Hd'. apply (H2 i m). rewrite Hp. by right.
  - intros i Hin. apply elem_of_cons in Hin as [?|Hin]; [done|]. apply lookup_insert_is_Some'. right.
    apply H6. rewrite Hp. by right.
  - intros i Hin. apply elem_of_cons in Hin as [?|Hin]; [done|]. rewrite Hd'. apply H3. rewrite Hp. by right.
  - intros i. rewrite Hd'. destruct (decide (i = id)) as [->|Hi]; [done|].
    unfold closed, b'; simpl. rewrite lookup_insert_ne by done. apply H4.
Qed.

Lemma elem_of_broadcast p payload now topic b :
  p ∈ Broadcast payload now topic b -> exists id m, p = PSignal id m.
Proof.
  unfold Broadcast. destruct (bool_decide _); [by intros ?%elem_of_nil|].
  intros (id & -> & _)%list_elem_of_fmap. eauto.
Qed.

(** A goroutine ends; one starts. *)
Lemma fine_ends b ps p rest tr : fine (mkWorld b ps tr) -> ps ≡ₚ p :: rest -> fine (mkWorld b rest tr).
Proof.
  intros F Hp. apply (fine_same _ _ _ _ _ F); [done|]. intros q Hin.
  assert (q ∈ ps) by (rewrite Hp; by right). destruct q; auto.
Qed.

Lemma fine_broker_starts b ps p tr :
  fine (mkWorld b ps tr) ->
  match p with
  | PSend id _ => destroyed id b = false
  | PDestroy id => is_Some (b.(objects) !! id)
  | PClose id => destroyed id b = true
  | _ => True
  end -> fine (mkWorld b (p :: ps) tr).
Proof.
  intros [H2 H6 H3 H4 H5] Hp. split; simpl in *; [| | |done|done].
  - intros id m [<-|Hin]%elem_of_cons; [done|by apply (H2 id m)].
  - intros id [<-|Hin]%elem_of_cons; [done|by apply H6].
  - intros id [<-|Hin]%elem_of_cons; [done|by apply H3].
Qed.

Lemma fine_step w w' : fine w -> step w w' -> fine w'.
Proof.
  intros F H. destruct H as [b ps rest id m tr Hp|b ps rest id m tr Hp Hc|b ps rest id m tr Hp Hc|b ps rest id tr Hp
    |b ps rest id tr Hp Hc|b ps rest id tr Hp Hn|b ps rest id tr s s' Hp Es Hc|b ps rest id tr s Hp Es Hc
    |b ps rest id tr Hp|b ps rest id t ts last tr Hp|b ps rest id t ts last tr Hp|b ps rest id last tr Hp
    |b ps tr id Hn|b ps tr id Hn|b ps tr id Hs|b ps tr id ts Hs|b ps tr id ts Hs|b ps tr id Hs
    |b ps tr payload now topic].
  - destruct (destroyed id b) eqn:Ed; [by eapply fine_ends|]. apply fine_broker_starts; [by eapply fine_ends|done].
  - apply fine_occurs; [done|]. apply fine_broker_starts; [|done]. eapply fine_ends; [by eapply fine_ends|done].
  - exfalso. assert (destroyed id b = false) by (apply (f_send _ F id m); simpl; rewrite Hp; by left).
    pose proof (f_closed _ F id Hc) as Hd. simpl in Hd. congruence.
  - apply fine_broker_starts; [by eapply fine_ends|done].
  - apply fine_occurs; [done|]. by eapply fine_ends.
  - by eapply fine_destroy.
  - by eapply fine_closed.
  - apply fine_occurs; [done|]. by eapply fine_ends.
  - apply fine_broker_starts; [by eapply fine_ends|done].
  - assert (fine (mkWorld b rest tr)) as F' by (by eapply fine_ends).
    destruct (topics b !! t); apply fine_broker_starts; try done. by apply (fine_same b _ rest); [..|intros []; auto].
  - apply fine_broker_starts; [|done]. apply (fine_same b _ rest); [by eapply fine_ends| |intros []; auto].
    destruct b. by apply marks_on_sub.
  - apply (fine_same b _ rest); [by eapply fine_ends|by destruct last|intros []; auto].
  - apply (fine_same b _ ps); [done|by apply marks_create|]. intros []; auto.
  - apply (fine_same b _ ps); [done|by apply marks_create|]. intros []; auto.
  - by apply fine_broker_starts.
  - apply (fine_same b _ ps); [done|apply marks_Subscribe|]. intros []; auto.
  - by apply fine_broker_starts.
  - by apply fine_broker_starts.
  - apply (fine_same b _ ps); [done|done|]. intros p Hin. apply elem_of_app in Hin as [Hin|Hin]; [destruct p; auto|].
    by apply elem_of_broadcast in Hin as (i & m & ->).
Qed.

Lemma fine_steps w w' : rtc step w w' -> fine w -> fine w'.
Proof. induction 1; eauto using fine_step. Qed.

Lemma reachable_fine w : reachable w -> fine w.
Proof. intros H. apply (fine_steps _ _ H), start_fine. Qed.

(** C36: whatever the agent does with its broker and however its goroutines run, no
    message is sent on a closed channel: a goroutine that sends holds the lock
    of a subscriber whose channel is open. *)
Theorem no_send_on_closed w :
  reachable w ->
  Panicked "send on closed channel" ∉ w.(trace) /\
  (forall id m, PSend id m ∈ w.(procs) -> closed id w.(broker) = false).
Proof.
  intros F%reachable_fine. split; [apply F|]. intros id m Hin.
  destruct (closed id (broker w)) eqn:Ec; [|done]. apply (f_closed _ F) in Ec.
  rewrite (f_send _ F id m Hin) in Ec. done.
Qed.

(** Detaching a subscriber that was detached before: nothing stops it, and it
    panics the process.  The agent keeps the subscriber of a deleted workflow's
    broker and detaches it again when the broker is set again. *)
Lemma second_detach_panics w id :
  reachable w -> closed id w.(broker) = true -> PDestroy id ∈ w.(procs) ->
  exists w', rtc step w w' /\ Panicked "close of closed channel" ∈ w'.(trace).
Proof.
  intros F%reachable_fine Hc Hin. pose proof (f_closed _ F _ Hc) as Hd.
  apply list_elem_of_split in Hin as (l1 & l2 & Hl). destruct w as [b ps tr]. simpl in *.
  assert (ps ≡ₚ PDestroy id :: l1 ++ l2) as Hp by (rewrite Hl; by rewrite <- Permutation_middle).
  assert (existsb (sends_to id) (l1 ++ l2) = false) as Hn.
  { apply not_true_iff_false. intros ([] & Hi & Hs)%existsb_exists; try done.
    simpl in Hs. apply bool_decide_eq_true in Hs as ->. apply list_elem_of_In in Hi.
    assert (destroyed id b = false) by (apply (f_send _ F id m); simpl; rewrite Hp; by right). congruence. }
  unfold closed in Hc. destruct (objects b !! id) as [s|] eqn:Es; [|done].
  eexists. split.
  - eapply rtc_l; [by apply (s_destroy b ps (l1 ++ l2) id tr)|].
    eapply rtc_l; [|apply rtc_refl].
    apply (s_close_closed _ _ (l1 ++ l2) id tr (mark_destroyed s)); [done| |].
    + rewrite lookup_on_sub, bool_decide_true, Es; done.
    + unfold close_channel. simpl. by rewrite Hc.
  - simpl. set_solver.
Qed.

End Goroutines.
Arguments world : clear implicits.
Arguments proc : clear implicits.
Arguments occurrence : clear implicits.

(** A subscriber detached, and detached again. *)
Lemma second_detach_reached :
  exists w : world unit, reachable w /\ closed "s" w.(broker) = true /\ PDestroy "s" ∈ w.(procs).
Proof.
  eexists. split.
  - unfold reachable, start.
    eapply rtc_l; [apply (s_create _ _ _ "s"); done|].
    eapply rtc_l; [apply (s_detach _ _ _ "s"); vm_compute; by eexists|].
    eapply rtc_l; [apply (s_destroy _ _ [] "s"); done|].
    eapply rtc_l; [eapply (s_close _ _ [] "s"); vm_compute; done|].
    eapply rtc_l; [apply (s_detach _ _ _ "s"); vm_compute; by eexists|]. apply rtc_refl.
  - split; [vm_compute; done|by left].
Qed.

(** A message on its way to a subscriber that is being detached. *)
Lemma send_and_detach_reached :
  exists w : world unit, reachable w /\ PSend "s" (mkMessage "t" tt 0%Z) ∈ w.(procs) /\ PDestroy "s" ∈ w.(procs).
Proof.
  eexists. split.
  - unfold reachable, start.
    eapply rtc_l; [apply (s_create _ _ _ "s"); done|].
    eapply rtc_l; [apply (s_subscribe _ _ _ "s" ["t"]); vm_compute; by eexists|].
    eapply rtc_l; [apply (s_broadcast _ _ _ tt 0%Z "t")|].
    eapply rtc_l; [apply (s_signal _ _ [] "s" (mkMessage "t" tt 0%Z)); vm_compute; done|].
    eapply rtc_l; [apply (s_detach _ _ _ "s"); vm_compute; by eexists|]. apply rtc_refl.
  - split; [by right; left|by left].
Qed.

Lemma no_send_on_closed_witness :
  exists w : world unit, reachable w /\ PDestroy "s" ∈ w.(procs) /\
    Panicked "send on closed channel" ∉ w.(trace) /\ closed "s" w.(broker) = false.
Proof.
  destruct send_and_detach_reached as (w & Hr & Hs & Hd). exists w.
  destruct (no_send_on_closed w Hr) as (H1 & H2). split_and!; [done..|by eapply H2].
Defined.
