(* ===== verification/AgentSched.v ===== *)
(** The agent's scheduler: [kairosdeamon/agent/scheduler.go].

    Two crons: one for tasks, one for brokers.  [AddBroker] looks for an old
    entry in the cron of brokers and files the new one in the cron of tasks.
    [Start] files the stored tasks and stops at the first that cannot be filed. *)

From stdpp Require Import pretty strings.
From S2P Require Import Prelude GoStrings Value Compile WorkerData Scheduler AgentData.

#[local] Open Scope Z_scope.

Section Sched.
Context {E : Engine}.

(** What the crons hold. *)
Inductive ajob : Type :=
| JTask (t : ATask)
| JBroker (b : BrokerObj).

Definition is_task (id : string) (j : ajob) : bool :=
  match j with JTask t => bool_decide (t.(at_ID) = id) | JBroker _ => false end.
Definition is_broker (id : string) (j : ajob) : bool :=
  match j with JBroker b => bool_decide (pretty (b_ID b.(bo)) = id) | JTask _ => false end.

Context {C : Cron ajob}.

(** [Scheduler] *)
Record ASched := mkASched { a_Cron : cron; a_BrokerCron : cron; a_started : bool }.

Definition NewScheduler : ASched := mkASched cron_new cron_new false.
Definition put_Cron (c : cron) (s : ASched) : ASched := mkASched c s.(a_BrokerCron) s.(a_started).

Definition first_entry (p : ajob -> bool) (c : cron) : option (Z * ajob) :=
  head (filter (fun e => p e.2 = true) (Entries c)).

Definition GetEntryTask (taskID : string) (s : ASched) : option (Z * ajob) :=
  first_entry (is_task taskID) s.(a_Cron).
Definition GetEntryBroker (brokerID : string) (s : ASched) : option (Z * ajob) :=
  first_entry (is_broker brokerID) s.(a_BrokerCron).

Definition RemoveTask (taskID : string) (s : ASched) : ASched :=
  match GetEntryTask taskID s with
  | Some (eid, _) => put_Cron (Remove eid s.(a_Cron)) s
  | None => s
  end.
Definition RemoveBroker (brokerID : string) (s : ASched) : ASched :=
  match GetEntryBroker brokerID s with
  | Some (eid, _) => mkASched s.(a_Cron) (Remove eid s.(a_BrokerCron)) s.(a_started)
  | None => s
  end.

(** What adding gave: the object is run at once, in the caller's goroutine; it
    is disabled; it was filed; its schedule does not parse. *)
Inductive filed : Type := FRun | FDisabled | FFiled | FBad.

Definition add_job (schedule : string) (j : ajob) (s : ASched) : ASched * filed :=
  match AddJob schedule j s.(a_Cron) with
  | Some (c, _) => (put_Cron (Start c) s, FFiled)
  | None => (s, FBad)
  end.

Definition AddBroker (broker : BrokerObj) (s : ASched) : ASched * filed :=
  if bool_decide (b_Schedule broker.(bo) = "") then (s, FRun)
  else
    let id := pretty (b_ID broker.(bo)) in
    let s := match GetEntryBroker id s with Some _ => RemoveBroker id s | None => s end in
    add_job (b_Schedule broker.(bo)) (JBroker broker) s.

Definition agent_schedule (task : ATask) : string :=
  if bool_decide (task.(at_Timezone) <> "") && negb (HasPrefix task.(at_Schedule) "@")
     && negb (HasPrefix task.(at_Schedule) "TZ=") && negb (HasPrefix task.(at_Schedule) "CRON_TZ=")
  then "CRON_TZ=" +:+ task.(at_Timezone) +:+ " " +:+ task.(at_Schedule)
  else task.(at_Schedule).

Definition AddTask (task : ATask) (s : ASched) : ASched * filed :=
  let s := match GetEntryTask task.(at_ID) s with Some _ => RemoveTask task.(at_ID) s | None => s end in
  if task.(at_Disabled) then (s, FDisabled)
  else if bool_decide (task.(at_Schedule) = "") && bool_decide (task.(at_Input) <> "") then (s, FRun)
  else add_job (agent_schedule task) (JTask (put_at_logger true task)) s.

(** [ClearCron] goes over the entries there were. *)
Definition ClearCron (s : ASched) : ASched :=
  foldl (fun s e => match e.2 with
                    | JTask t => RemoveTask t.(at_ID) s
                    | JBroker _ => put_Cron (Remove e.1 s.(a_Cron)) s
                    end) s (Entries s.(a_Cron)).

(** The loop of [Start]: the tasks that were run at once, and whether all could
    be filed. *)
Fixpoint add_tasks (tasks : list ATask) (s : ASched) : ASched * list ATask * bool :=
  match tasks with
  | [] => (s, [], true)
  | t :: tasks' =>
      let t := put_at_Agent true t in
      let '(s, r) := AddTask t s in
      match r with
      | FBad => (s, [], false)
      | FRun => let '(s, ran, ok) := add_tasks tasks' s in (s, put_at_logger true t :: ran, ok)
      | FDisabled | FFiled => add_tasks tasks' s
      end
  end.

(** [Start]; [false] when it returned an error. *)
Definition Sched_Start (tasks : list ATask) (s : ASched) : ASched * list ATask * bool :=
  if s.(a_started) then (s, [], false)
  else
    let '(s, ran, ok) := add_tasks tasks (ClearCron s) in
    if (ok : bool) then (mkASched (Start s.(a_Cron)) s.(a_BrokerCron) true, ran, true)
    else (s, ran, false).

Definition Sched_Stop (s : ASched) : ASched := mkASched (Stop s.(a_Cron)) s.(a_BrokerCron) false.
Definition Started (s : ASched) : bool := s.(a_started).

(** ** Facts *)

Context {L : CronLaws C}.

(** A task has at most one entry, identifiers of entries are not shared, and the
    cron of brokers is empty. *)
Record sched_ok (s : ASched) : Prop := {
  so_entries : NoDup (Entries s.(a_Cron)).*1;
  so_tasks : forall i j t t', (i, JTask t) ∈ Entries s.(a_Cron) -> (j, JTask t') ∈ Entries s.(a_Cron) ->
    t.(at_ID) = t'.(at_ID) -> i = j;
  so_brokers : Entries s.(a_BrokerCron) = []
}.

(** The entries of the brokers with the number [id]. *)
Definition broker_entries (id : string) (s : ASched) : list (Z * ajob) :=
  filter (fun e => is_broker id e.2 = true) (Entries s.(a_Cron)).

Lemma first_entry_Some p c i j : first_entry p c = Some (i, j) -> (i, j) ∈ Entries c /\ p j = true.
Proof.
  unfold first_entry. destruct (filter _ _) as [|e l] eqn:Hf; [done|]. intros [= ->].
  assert ((i, j) ∈ filter (fun e => p e.2 = true) (Entries c)) as He by (rewrite Hf; left).
  apply list_elem_of_filter in He. naive_solver.
Qed.

Lemma first_entry_None p c i j : first_entry p c = None -> (i, j) ∈ Entries c -> p j = false.
Proof.
  unfold first_entry. destruct (filter _ _) as [|e l] eqn:Hf; [|done]. intros _ Hin.
  destruct (p j) eqn:Ep; [|done].
  assert ((i, j) ∈ filter (fun e => p e.2 = true) (Entries c)) as He by (by apply list_elem_of_filter).
  rewrite Hf in He. by apply elem_of_nil in He.
Qed.

Lemma ok_removed eid s : sched_ok s -> sched_ok (put_Cron (Remove eid s.(a_Cron)) s).
Proof.
  intros [H1 H2 H3]. destruct (entries_remove eid (a_Cron s)) as [Hp _]. split; simpl; [| |done].
  - rewrite Hp. eapply sublist_NoDup; [exact H1|]. eapply fmap_sublist, sublist_filter.
  - intros i j t t'. rewrite Hp, !list_elem_of_filter. intros [_ Hi] [_ Hj]. by eapply H2.
Qed.

Lemma RemoveTask_ok id s : sched_ok s -> sched_ok (RemoveTask id s).
Proof. intros H. unfold RemoveTask. destruct (GetEntryTask id s) as [[eid j]|]; [by apply ok_removed|done]. Qed.

Lemma RemoveTask_gone id s i t :
  sched_ok s -> (i, JTask t) ∈ Entries (RemoveTask id s).(a_Cron) -> t.(at_ID) <> id.
Proof.
  intros H Hin Hid. unfold RemoveTask in Hin. destruct (GetEntryTask id s) as [[eid j]|] eqn:Hg.
  - simpl in Hin. destruct (entries_remove eid (a_Cron s)) as [Hp _]. rewrite Hp in Hin.
    apply list_elem_of_filter in Hin as [Hn Hin]. apply first_entry_Some in Hg as [Hin' Hj].
    destruct j as [t'|]; [|done]. simpl in Hj. apply bool_decide_eq_true in Hj.
    apply Hn. simpl. eapply (so_tasks _ H); eauto. congruence.
  - pose proof (first_entry_None _ _ _ _ Hg Hin) as Hf. simpl in Hf. by apply bool_decide_eq_false in Hf.
Qed.

Lemma add_job_ok schedule j s :
  sched_ok s ->
  match j with JTask t => forall i t', (i, JTask t') ∈ Entries s.(a_Cron) -> t'.(at_ID) <> t.(at_ID) | _ => True end ->
  sched_ok (add_job schedule j s).1.
Proof.
  intros [H1 H2 H3] Hj. unfold add_job. destruct (AddJob schedule j (a_Cron s)) as [[c eid]|] eqn:Ea; [|done].
  destruct (entries_add _ _ _ _ _ Ea) as (Hp & Hn & _). destruct (entries_start c) as [Hs _].
  split; simpl; [| |done]; rewrite Hs.
  - rewrite Hp. simpl. by constructor.
  - intros i i' t t'. rewrite Hp, !elem_of_cons. intros [Hi|Hi] [Hi'|Hi'] Hid.
    + by injection Hi as -> _; injection Hi' as -> _.
    + injection Hi as -> <-. by destruct (Hj _ _ Hi').
    + injection Hi' as -> <-. by destruct (Hj _ _ Hi).
    + by eapply H2.
Qed.

Lemma old_entry_removed id s :
  match GetEntryTask id s with Some _ => RemoveTask id s | None => s end = RemoveTask id s.
Proof. unfold RemoveTask. by destruct (GetEntryTask id s) as [[]|]. Qed.

Lemma AddTask_ok task s : sched_ok s -> sched_ok (AddTask task s).1.
Proof.
  intros H. unfold AddTask. rewrite old_entry_removed. pose proof (RemoveTask_ok task.(at_ID) s H) as H'.
  destruct (at_Disabled task); [done|]. destruct (bool_decide _ && bool_decide _); [done|].
  apply add_job_ok; [done|]. intros i t'. by apply RemoveTask_gone.
Qed.

Lemma no_broker_entry id s : sched_ok s -> GetEntryBroker id s = None.
Proof. intros H. unfold GetEntryBroker, first_entry. by rewrite (so_brokers _ H). Qed.

Lemma AddBroker_ok b s : sched_ok s -> sched_ok (AddBroker b s).1.
Proof.
  intros H. unfold AddBroker. destruct (bool_decide _); [done|]. rewrite no_broker_entry by done.
  by apply add_job_ok.
Qed.

(** Calls on a running scheduler. *)
Inductive asched_op : Type :=
| AddT (t : ATask)
| AddB (b : BrokerObj)
| RemT (id : string)
| RemB (id : string)
| StopAll.

Definition asched_step (s : ASched) (o : asched_op) : ASched :=
  match o with
  | AddT t => (AddTask t s).1
  | AddB b => (AddBroker b s).1
  | RemT id => RemoveTask id s
  | RemB id => RemoveBroker id s
  | StopAll => Sched_Stop s
  end.
Definition asched_run (ops : list asched_op) : ASched := foldl asched_step NewScheduler ops.

Lemma new_ok : sched_ok NewScheduler.
Proof. destruct entries_new as [Hn _]. split; simpl; rewrite Hn; [constructor|by intros ? ? ? ? ?%elem_of_nil|done]. Qed.

Lemma asched_step_ok s o : sched_ok s -> sched_ok (asched_step s o).
Proof.
  intros H. destruct o; simpl; [by apply AddTask_ok|by apply AddBroker_ok|by apply RemoveTask_ok| |].
  - unfold RemoveBroker. by rewrite no_broker_entry.
  - destruct H as [H1 H2 H3]. destruct (entries_stop (a_Cron s)) as [Hs _]. split; simpl; rewrite ?Hs; done.
Qed.

Lemma asched_run_ok ops : sched_ok (asched_run ops).
Proof.
  unfold asched_run. assert (forall s, sched_ok s -> sched_ok (foldl asched_step s ops)) as H.
  { induction ops as [|o ops IH]; intros s Hs; simpl; [done|]. by apply IH, asched_step_ok. }
  apply H, new_ok.
Qed.

(** How many entries a broker should have: one per time it was scheduled. *)
Definition scheduled (id : string) (o : asched_op) : bool :=
  match o with
  | AddB b => bool_decide (b_Schedule b.(bo) <> "") && parses (b_Schedule b.(bo)) && is_broker id (JBroker b)
  | _ => false
  end.

Lemma filter_within {A} (P Q : A -> Prop) `{!forall x, Decision (P x)} `{!forall x, Decision (Q x)} (l : list A) :
  (forall x, x ∈ l -> P x -> Q x) -> filter P (filter Q l) = filter P l.
Proof.
  induction l as [|x l IH]; intros HPQ; [done|]. rewrite (filter_cons Q), (filter_cons P _ l).
  assert (filter P (filter Q l) = filter P l) as Hl by (apply IH; intros y Hy; apply HPQ; by right).
  assert (P x -> Q x) by (apply HPQ; by left).
  destruct (decide (Q x)); [rewrite filter_cons|]; destruct (decide (P x)); rewrite ?Hl; tauto.
Qed.

Lemma RemoveTask_brokers id tid s :
  sched_ok s -> broker_entries id (RemoveTask tid s) ≡ₚ broker_entries id s.
Proof.
  intros H. unfold RemoveTask. destruct (GetEntryTask tid s) as [[eid j]|] eqn:Hg; [|done].
  apply first_entry_Some in Hg as [Hin Hj]. destruct j as [t|]; [|done].
  unfold broker_entries. simpl. destruct (entries_remove eid (a_Cron s)) as [Hp _]. rewrite Hp.
  rewrite filter_within; [done|]. intros [i j] Hin' Hb Hi. simpl in Hi, Hb. subst i.
  destruct j as [t'|b]; [done|]. pose proof (so_entries _ H) as Hn.
  apply list_elem_of_lookup in Hin as [n Hl]. apply list_elem_of_lookup in Hin' as [n' Hl'].
  assert (n = n') as <-; [|by rewrite Hl in Hl'].
  eapply NoDup_lookup; [exact Hn| |]; by rewrite list_lookup_fmap, ?Hl, ?Hl'.
Qed.

Lemma add_job_brokers id schedule j s :
  length (broker_entries id (add_job schedule j s).1)
  = (length (broker_entries id s) + (if parses schedule && is_broker id j then 1 else 0))%nat.
Proof.
  unfold add_job. pose proof (add_parses schedule j (a_Cron s)) as Hps.
  destruct (AddJob schedule j (a_Cron s)) as [[c eid]|] eqn:Ea.
  - rewrite (proj2 Hps) by (by eexists). destruct (entries_add _ _ _ _ _ Ea) as (Hp & _ & _).
    destruct (entries_start c) as [Hs _]. unfold broker_entries. simpl. rewrite Hs, Hp, filter_cons. simpl.
    destruct (is_broker id j); simpl; lia.
  - destruct (parses schedule); [|simpl; lia]. destruct (proj1 Hps eq_refl) as [x Hx]. done.
Qed.

Lemma asched_step_brokers id s o :
  sched_ok s ->
  length (broker_entries id (asched_step s o))
  = (length (broker_entries id s) + (if scheduled id o then 1 else 0))%nat.
Proof.
  intros H. destruct o; simpl.
  - unfold AddTask. rewrite old_entry_removed. pose proof (RemoveTask_brokers id t.(at_ID) s H) as Hb.
    destruct (at_Disabled t); [simpl; rewrite Hb; lia|].
    destruct (bool_decide _ && bool_decide _); [simpl; rewrite Hb; lia|].
    rewrite add_job_brokers, Hb. simpl. rewrite andb_false_r. lia.
  - unfold AddBroker. destruct (bool_decide_reflect (b_Schedule (bo b) = "")) as [Hs|Hs].
    + rewrite bool_decide_false by tauto. simpl. lia.
    + rewrite no_broker_entry, add_job_brokers, bool_decide_true by done. simpl. done.
  - rewrite RemoveTask_brokers by done. lia.
  - unfold RemoveBroker. rewrite no_broker_entry by done. lia.
  - unfold broker_entries. simpl. destruct (entries_stop (a_Cron s)) as [-> _]. lia.
Qed.

(** A broker that is scheduled again keeps its old entries: after any calls it has
    as many entries in the cron as times it was scheduled, each of which runs
    it, while a task has at most one. *)
Theorem broker_entries_pile_up ops id :
  let s := asched_run ops in
  length (broker_entries id s) = length (filter (fun o => scheduled id o = true) ops) /\
  (forall i j t t', (i, JTask t) ∈ Entries s.(a_Cron) -> (j, JTask t') ∈ Entries s.(a_Cron) ->
     t.(at_ID) = t'.(at_ID) -> i = j).
Proof.
  simpl. split; [|apply (asched_run_ok ops)]. unfold asched_run.
  assert (forall s, sched_ok s -> length (broker_entries id (foldl asched_step s ops))
    = (length (broker_entries id s) + length (filter (fun o => scheduled id o = true) ops))%nat) as Hc.
  { induction ops as [|o ops IH]; intros s Hs; simpl; [lia|].
    rewrite IH, asched_step_brokers, filter_cons by (by try apply asched_step_ok).
    destruct (scheduled id o); simpl; lia. }
  rewrite Hc by apply new_ok. unfold broker_entries. simpl. destruct entries_new as [-> _]. done.
Qed.

(** ** Starting *)

(** What [AddTask] makes of a task in a fresh cron. *)
Definition fileable (t : ATask) : bool :=
  t.(at_Disabled) || (bool_decide (t.(at_Schedule) = "") && bool_decide (t.(at_Input) <> ""))
  || parses (agent_schedule t).

Lemma RemoveTask_entries id s e : e ∈ Entries (RemoveTask id s).(a_Cron) -> e ∈ Entries s.(a_Cron).
Proof.
  unfold RemoveTask. destruct (GetEntryTask id s) as [[eid j]|]; [|done]. simpl.
  destruct (entries_remove eid (a_Cron s)) as [Hp _]. rewrite Hp. by intros [_ ?]%list_elem_of_filter.
Qed.

(** The entries after adding a task: old ones, or its own. *)
Lemma AddTask_entries t s i t' :
  (i, JTask t') ∈ Entries (AddTask t s).1.(a_Cron) -> t'.(at_ID) = t.(at_ID) \/ (i, JTask t') ∈ Entries s.(a_Cron).
Proof.
  unfold AddTask. rewrite old_entry_removed.
  destruct (at_Disabled t); [intros ?%RemoveTask_entries; by right|].
  destruct (bool_decide _ && bool_decide _); [intros ?%RemoveTask_entries; by right|].
  unfold add_job. destruct (AddJob _ _ _) as [[c eid]|] eqn:Ea; [|intros ?%RemoveTask_entries; by right].
  destruct (entries_add _ _ _ _ _ Ea) as (Hp & _ & _). destruct (entries_start c) as [Hs _]. simpl.
  rewrite Hs, Hp, elem_of_cons. intros [[= -> ->]|?%RemoveTask_entries]; [by left|by right].
Qed.

Lemma AddTask_flags t s :
  (AddTask t s).1.(a_started) = s.(a_started) /\ ((AddTask t s).2 = FBad <-> fileable t = false).
Proof.
  unfold AddTask, fileable. rewrite old_entry_removed.
  assert ((RemoveTask (at_ID t) s).(a_started) = s.(a_started)) as Hr
    by (unfold RemoveTask; by destruct (GetEntryTask _ s) as [[]|]).
  destruct (at_Disabled t); [done|]. destruct (bool_decide _ && bool_decide _); [done|]. simpl.
  unfold add_job. pose proof (add_parses (agent_schedule t) (JTask (put_at_logger true t)) (a_Cron (RemoveTask (at_ID t) s))) as Hp.
  destruct (AddJob _ _ _) as [[c eid]|].
  - rewrite (proj2 Hp) by (by eexists). done.
  - split; [done|]. split; [|done]. intros _. destruct (parses _); [|done]. by destruct (proj1 Hp eq_refl).
Qed.

Lemma add_tasks_stops pre t post s :
  fileable t = false ->
  (add_tasks (pre ++ t :: post) s).2 = false /\
  (add_tasks (pre ++ t :: post) s).1.1.(a_started) = s.(a_started) /\
  (forall i t', (i, JTask t') ∈ Entries (add_tasks (pre ++ t :: post) s).1.1.(a_Cron) ->
     t'.(at_ID) ∈ at_ID <$> pre ++ [t] \/ (i, JTask t') ∈ Entries s.(a_Cron)).
Proof.
  intros Hf. revert s. induction pre as [|t0 pre IH]; intros s; simpl.
  - destruct (AddTask_flags (put_at_Agent true t) s) as [Hs Hb].
    pose proof (fun i t' => AddTask_entries (put_at_Agent true t) s i t') as He.
    destruct (AddTask (put_at_Agent true t) s) as [s' r]. simpl in *. rewrite (proj2 Hb Hf). simpl.
    split_and!; [done|done|]. intros i t' Hin. destruct (He i t' Hin) as [->|?]; [left; by left|by right].
  - destruct (AddTask_flags (put_at_Agent true t0) s) as [Hs _].
    pose proof (fun i t' => AddTask_entries (put_at_Agent true t0) s i t') as He.
    destruct (AddTask (put_at_Agent true t0) s) as [s' r]. simpl in *. destruct (IH s') as (H1 & H2 & H3).
    assert (forall i t', (i, JTask t') ∈ Entries (add_tasks (pre ++ t :: post) s').1.1.(a_Cron) ->
      t'.(at_ID) ∈ at_ID t0 :: (at_ID <$> pre ++ [t]) \/ (i, JTask t') ∈ Entries s.(a_Cron)) as H4.
    { intros i t' Hin. destruct (H3 i t' Hin) as [?|Hin']; [left; by right|].
      destruct (He i t' Hin') as [->|?]; [left; by left|by right]. }
    destruct r; simpl; [|by split_and!; [..|]; try congruence|by split_and!; try congruence|].
    + destruct (add_tasks (pre ++ t :: post) s') as [[s2 ran] ok]. simpl in *. by split_and!; try congruence.
    + split_and!; [done|done|]. intros i t' Hin. destruct (He i t' Hin) as [->|?]; [left; by left|by right].
Qed.

(** Stored tasks when the daemon starts: at the first task that cannot be filed,
    for example one without a schedule that waits for input, [Start] returns an
    error, which its caller drops.  The scheduler does not count as started and
    no task after that one is scheduled. *)
Theorem start_stops_at_unscheduled pre t post t' :
  fileable t = false -> t' ∈ post -> t'.(at_ID) ∉ at_ID <$> pre ++ [t] ->
  let '(s, _, ok) := Sched_Start (pre ++ t :: post) NewScheduler in
  ok = false /\ s.(a_started) = false /\ GetEntryTask t'.(at_ID) s = None.
Proof.
  intros Hf Hin Hn. unfold Sched_Start. simpl.
  assert (Entries (ClearCron NewScheduler).(a_Cron) = [] /\ (ClearCron NewScheduler).(a_started) = false) as [Hc Hst].
  { unfold ClearCron. simpl. destruct entries_new as [He _]. by rewrite He. }
  destruct (add_tasks_stops pre t post (ClearCron NewScheduler) Hf) as (H1 & H2 & H3).
  destruct (add_tasks (pre ++ t :: post) (ClearCron NewScheduler)) as [[s ran] ok]. simpl in *. subst ok.
  split_and!; [done|congruence|]. destruct (GetEntryTask (at_ID t') s) as [[i j]|] eqn:Hg; [|done].
  apply first_entry_Some in Hg as [Hi Hj]. destruct j as [t2|]; [|done]. simpl in Hj. apply bool_decide_eq_true in Hj.
  rewrite Hc in H3. destruct (H3 _ _ Hi) as [Hx|Hx]; [|by apply elem_of_nil in Hx]. rewrite Hj in Hx. done.
Qed.

End Sched.
