(* ===== verification/BufCb.v ===== *)
(** The callback buffer: [pkg/bufcb].

    [Write] hands what it gets to the callback at once; the bytes the buffer
    keeps are never written, so [Flush] hands over nothing.  A Go slice is the
    rest of its array, as long as its capacity, and its length.  The callback
    changes a state and may return an error. *)

From S2P Require Import Prelude.

Section BufCb.
Context {A S : Type}.

(** [Buffer]: [data] up to its length, [size], [written]. *)
Record Buffer := mkBuffer { b_data : list A; b_size : nat; b_written : nat }.

(** [nil] is [None]. *)
Definition callback := option (list A) -> S -> S * option string.

Definition NewBuffer (size : nat) (zero : A) : Buffer := mkBuffer (replicate size zero) size 0.

(** The loop of [Write]; each round hands over [buf[:n]]. *)
Fixpoint write_loop (fuel : nat) (cb : callback) (size n : nat) (arr : list A) (s : S)
    : S * outcome string unit :=
  match fuel with
  | 0 => (s, Ok tt)
  | Datatypes.S fuel' =>
      if bool_decide (n = 0) then (s, Ok tt)
      else if bool_decide (length arr < n) then (s, Panic SliceOutOfRange)
      else
        match cb (Some (take n arr)) s with
        | (s, Some e) => (s, Err e)
        | (s, None) => write_loop fuel' cb size (n - Nat.min size n) (drop n arr) s
        end
  end.

(** [Flush] *)
Definition Flush (cb : callback) (b : Buffer) (s : S) : Buffer * S * outcome string unit :=
  let f := take b.(b_written) b.(b_data) in
  if bool_decide (length b.(b_data) < b.(b_written)) then (b, s, Panic SliceOutOfRange)
  else
    match (if bool_decide (0 < length f) then cb (Some f) s else (s, None)) with
    | (s, Some e) => (b, s, Err e)
    | (s, None) => (mkBuffer f b.(b_size) 0, s, Ok tt)
    end.

(** [Write] of the slice with the array [arr] and the length [n]; [None] is nil.
    The loop has at most one round more than [n] when the size is positive. *)
Definition Write (cb : callback) (buf : option (list A * nat)) (b : Buffer) (s : S)
    : Buffer * S * outcome string unit :=
  match buf with
  | None =>
      let '(s, e) := cb None s in
      (b, s, match e with Some e => Err e | None => Ok tt end)
  | Some (arr, n) =>
      if bool_decide (n = 0) then Flush cb b s
      else let '(s, r) := write_loop (Datatypes.S n) cb b.(b_size) n arr s in (b, s, r)
  end.

(** A buffer nobody wrote to directly. *)
Definition idle (b : Buffer) : Prop := b.(b_written) = 0.

Lemma Flush_idle cb b s : idle b -> Flush cb b s = (mkBuffer [] b.(b_size) 0, s, Ok tt).
Proof. intros H. unfold Flush. rewrite H. simpl. done. Qed.

Lemma Write_idle cb buf b s : idle b -> idle (Write cb buf b s).1.1.
Proof.
  intros H. destruct buf as [[arr n]|]; simpl; [|by destruct (cb None s)].
  destruct (bool_decide (n = 0)); [by rewrite Flush_idle|].
  destruct (if bool_decide (length arr < n) then _ else _). done.
Qed.

(** What fits in the buffer is handed over whole, in one call. *)
Lemma Write_once cb arr n b s :
  0 < n <= b.(b_size) -> n <= length arr ->
  Write cb (Some (arr, n)) b s
  = (b, (cb (Some (take n arr)) s).1, match (cb (Some (take n arr)) s).2 with Some e => Err e | None => Ok tt end).
Proof.
  intros Hn Ha. unfold Write. rewrite bool_decide_false by lia. simpl.
  rewrite !bool_decide_false by lia. destruct (cb (Some (take n arr)) s) as [s' [e|]]; simpl; [done|].
  rewrite Nat.min_r by lia. rewrite Nat.sub_diag. by destruct n.
Qed.

(** More than the size of the buffer, in a slice without spare capacity: all of it
    is handed over in the first call, and the second round panics. *)
Lemma Write_too_large cb arr b s :
  0 < b.(b_size) < length arr -> (cb (Some arr) s).2 = None ->
  Write cb (Some (arr, length arr)) b s = (b, (cb (Some arr) s).1, Panic SliceOutOfRange).
Proof.
  intros Hn Hc. unfold Write. rewrite bool_decide_false by lia. cbn [write_loop].
  rewrite !bool_decide_false by lia. rewrite take_ge by lia.
  destruct (cb (Some arr) s) as [s' e]. simpl in Hc. subst e. rewrite drop_ge by lia.
  destruct (length arr) as [|k] eqn:El; [lia|]. cbn [write_loop].
  rewrite bool_decide_false by lia. rewrite bool_decide_true by (simpl; lia). done.
Qed.

(** What the callback keeps, the buffer keeps. *)
Lemma write_loop_keeps (P : S -> Prop) cb fuel size n arr s :
  (forall b s, P s -> P (cb b s).1) -> P s -> P (write_loop fuel cb size n arr s).1.
Proof.
  intros Hcb. revert n arr s. induction fuel as [|fuel IH]; intros n arr s HP; simpl; [done|].
  destruct (bool_decide _); [done|]. destruct (bool_decide _); [done|].
  specialize (Hcb (Some (take n arr)) s HP). destruct (cb _ s) as [s' [e|]]; simpl in Hcb; [done|by apply IH].
Qed.

Lemma Flush_keeps (P : S -> Prop) cb b s :
  (forall b s, P s -> P (cb b s).1) -> P s -> P (Flush cb b s).1.2.
Proof.
  intros Hcb HP. unfold Flush. destruct (bool_decide _); [done|]. destruct (bool_decide _); [|done].
  specialize (Hcb (Some (take (b_written b) (b_data b))) s HP). by destruct (cb _ s) as [s' [e|]].
Qed.

Lemma Write_keeps (P : S -> Prop) cb buf b s :
  (forall b s, P s -> P (cb b s).1) -> P s -> P (Write cb buf b s).1.2.
Proof.
  intros Hcb HP. unfold Write. destruct buf as [[arr n]|].
  - destruct (bool_decide _); [by apply Flush_keeps|].
    pose proof (write_loop_keeps P cb (Datatypes.S n) (b_size b) n arr s Hcb HP) as H. by destruct (write_loop _ _ _ _ _ _).
  - specialize (Hcb None s HP). by destruct (cb None s) as [s' [e|]].
Qed.

End BufCb.
Arguments Buffer : clear implicits.
