(* ===== verification/Agent.v ===== *)
(** The agent: [kairosdeamon/agent/agent.go], with [Run] and its kin of [task.go]
    and [Publish] of [hub.go].

    A function of the agent is a program of [am]: it changes the agent's state
    and returns, waits for ever, panics, or depends on what bolt leaves open
    ([called]).  What it does to the outside (messages to the server, goroutines
    it starts, calls on the message broker) is listed in [ag_out], in order.  A
    goroutine is a value of [goroutine], and [run_goroutine] its body.

    The environment gives the answers in [Env] (clock, random source, commits,
    connections) and the functions of [AgentEnv] (codecs, scripts, executors). *)

From Stdlib Require Import Ascii.
From stdpp Require Import pretty strings.
From S2P Require Import Prelude GoStrings Names Template Compile Value Interp WorkerData Scheduler AgentBolt AgentData AgentStore AgentSched BufCb CircBuf.

#[local] Open Scope Z_scope.

Definition maxBufSize : nat := Z.to_nat 256000.

(** Status of an active task. *)
Definition ActiveRunning : string := "running".
Definition ActiveSchedule : string := "schedule".
Definition ActiveFinish : string := "finish".
Definition ActiveWait : string := "wait".

Definition SuccessTrigger : Z := 13.
Definition FaultTrigger : Z := 14.
Definition TaskWaitInput : string := "input".
Definition BrokerExecuteFault : Z := 0.
Definition BrokerExecuteSuccess : Z := 1.

(** [TaskActive] *)
Record TaskActive := mkActive { ta_ExecutionID : string; ta_Status : string; ta_StartAt : Z }.

(** What an executor gives: its calls of [Update], the response, the error.  Bytes
    are [None] when they are nil. *)
Record exec_result := mkExecResult {
  x_updates : list (option string * bool);
  x_out : option (option string * string);
  x_err : option string
}.

Section Agent.
Context {E : Engine} {B : Bolt} {T : GoTime} {C : Cron ajob}.
Context {CT : Codec ATask} {CB : Codec BrokerObj} {CE : Codec Execution}
        {CR : Codec BrokerRecordLocal} {CG : Codec Trigger} {CC : Codec CmdTask}.

(** What the agent gets from outside: decoders of payloads and inputs, encoders of
    maps, the text of a cron's error, the variables of a task in a message, the
    spare bytes behind a slice made of a string, executors by name, the fuel of
    templates, the JavaScript machine (its compiler by its error; a program
    that fails may have changed it), and whether a call of [Detach] on a
    subscriber, after so many effects, waits for ever for its lock. *)
Class AgentEnv := {
  config_parse : string -> string + gmap string EV;
  map_json : gmap string string -> string;
  replies_json : gmap string (gmap string EV) -> string;
  ev_number : Z -> EV;
  cron_error : string -> string;
  task_vars : WTask -> gmap string string;
  spare : string -> list ascii;
  executors : gmap string (Z -> gmap string string -> exec_result);
  template_fuel : nat;
  VM : Type;
  vm_new : VM;
  vm_compile : string -> option string;
  vm_run : string -> VM -> VM * option string;
  vm_get : VM -> string -> js_lookup EFn;
  detach_waits : nat -> string -> bool
}.
Context {V : AgentEnv}.

(** ** State *)

(** Goroutines the agent starts. *)
Inductive goroutine : Type :=
| GPublish (r : CmdReplyTask)
| GLog (wid : Z) (l : LogDaemon)
| GRunTask (t : ATask)
| GRunTrigger (t : ATask) (re : CmdTask)
| GRun (t : ATask) (ex : Execution) (re : CmdTask)
| GBroadcast (r : CmdReplyTask)
| GSetupBroker (b : BrokerObj)
| GHandleSub (sub : string) (b : BrokerObj)
| GTrigger (tr : Trigger)
| GTopic (r : CmdReplyTask) (topic : string).

Inductive effect : Type :=
| Publish (r : CmdReplyTask)
| PublishLog (wid : Z) (l : LogDaemon)
| Go (g : goroutine)
| NewSub (sub : string)
| SubscribeTo (sub : string) (topics : list string)
| DetachSub (sub : string)
| BroadcastTo (topic : string) (r : CmdReplyTask)
| Disconnect.

(** [Hub]: whether it has a client, and what it remembers of the login. *)
Record Hub := mkHub { h_Client : bool; h_clientName : string; h_userID : Z; h_channel : string }.

(** What the environment will answer: commits of transactions and connections to
    the server by their errors, times, random identifiers ([None] when reading
    them fails), states of the connection. *)
Record Env := mkEnv {
  v_commits : list (option string);
  v_clock : list Z;
  v_ids : list (option string);
  v_connects : list (option string);
  v_states : list bool
}.

(** [Agent]; [ag_calls] and [ag_vm] are its [Script]. *)
Record Ag := mkAg {
  ag_store : Store;
  ag_sched : ASched;
  ag_hub : Hub;
  ag_cnt : Z;
  ag_flowMap : gmap string string;
  ag_actives : gmap string (gmap string TaskActive);
  ag_brokerWfs : gmap Z string;
  ag_calls : gmap string EFn;
  ag_vm : VM;
  ag_ClientID : string;
  ag_ClientName : string;
  ag_env : Env;
  ag_out : list effect
}.

Definition put_store (v : Store) (x : Ag) : Ag :=
  mkAg v x.(ag_sched) x.(ag_hub) x.(ag_cnt) x.(ag_flowMap) x.(ag_actives) x.(ag_brokerWfs) x.(ag_calls)
    x.(ag_vm) x.(ag_ClientID) x.(ag_ClientName) x.(ag_env) x.(ag_out).
Definition put_sched (v : ASched) (x : Ag) : Ag :=
  mkAg x.(ag_store) v x.(ag_hub) x.(ag_cnt) x.(ag_flowMap) x.(ag_actives) x.(ag_brokerWfs) x.(ag_calls)
    x.(ag_vm) x.(ag_ClientID) x.(ag_ClientName) x.(ag_env) x.(ag_out).
Definition put_hub (v : Hub) (x : Ag) : Ag :=
  mkAg x.(ag_store) x.(ag_sched) v x.(ag_cnt) x.(ag_flowMap) x.(ag_actives) x.(ag_brokerWfs) x.(ag_calls)
    x.(ag_vm) x.(ag_ClientID) x.(ag_ClientName) x.(ag_env) x.(ag_out).
Definition put_cnt (v : Z) (x : Ag) : Ag :=
  mkAg x.(ag_store) x.(ag_sched) x.(ag_hub) v x.(ag_flowMap) x.(ag_actives) x.(ag_brokerWfs) x.(ag_calls)
    x.(ag_vm) x.(ag_ClientID) x.(ag_ClientName) x.(ag_env) x.(ag_out).
Definition put_flowMap (v : gmap string string) (x : Ag) : Ag :=
  mkAg x.(ag_store) x.(ag_sched) x.(ag_hub) x.(ag_cnt) v x.(ag_actives) x.(ag_brokerWfs) x.(ag_calls)
    x.(ag_vm) x.(ag_ClientID) x.(ag_ClientName) x.(ag_env) x.(ag_out).
Definition put_actives (v : gmap string (gmap string TaskActive)) (x : Ag) : Ag :=
  mkAg x.(ag_store) x.(ag_sched) x.(ag_hub) x.(ag_cnt) x.(ag_flowMap) v x.(ag_brokerWfs) x.(ag_calls)
    x.(ag_vm) x.(ag_ClientID) x.(ag_ClientName) x.(ag_env) x.(ag_out).
Definition put_brokerWfs (v : gmap Z string) (x : Ag) : Ag :=
  mkAg x.(ag_store) x.(ag_sched) x.(ag_hub) x.(ag_cnt) x.(ag_flowMap) x.(ag_actives) v x.(ag_calls) x.(ag_vm)
    x.(ag_ClientID) x.(ag_ClientName) x.(ag_env) x.(ag_out).
Definition put_calls (v : gmap string EFn) (x : Ag) : Ag :=
  mkAg x.(ag_store) x.(ag_sched) x.(ag_hub) x.(ag_cnt) x.(ag_flowMap) x.(ag_actives) x.(ag_brokerWfs) v
    x.(ag_vm) x.(ag_ClientID) x.(ag_ClientName) x.(ag_env) x.(ag_out).
Definition put_vm (v : VM) (x : Ag) : Ag :=
  mkAg x.(ag_store) x.(ag_sched) x.(ag_hub) x.(ag_cnt) x.(ag_flowMap) x.(ag_actives) x.(ag_brokerWfs)
    x.(ag_calls) v x.(ag_ClientID) x.(ag_ClientName) x.(ag_env) x.(ag_out).
Definition put_env (v : Env) (x : Ag) : Ag :=
  mkAg x.(ag_store) x.(ag_sched) x.(ag_hub) x.(ag_cnt) x.(ag_flowMap) x.(ag_actives) x.(ag_brokerWfs)
    x.(ag_calls) x.(ag_vm) x.(ag_ClientID) x.(ag_ClientName) v x.(ag_out).
Definition put_out (v : list effect) (x : Ag) : Ag :=
  mkAg x.(ag_store) x.(ag_sched) x.(ag_hub) x.(ag_cnt) x.(ag_flowMap) x.(ag_actives) x.(ag_brokerWfs)
    x.(ag_calls) x.(ag_vm) x.(ag_ClientID) x.(ag_ClientName) x.(ag_env) v.
Definition put_client (id name : string) (x : Ag) : Ag :=
  mkAg x.(ag_store) x.(ag_sched) x.(ag_hub) x.(ag_cnt) x.(ag_flowMap) x.(ag_actives) x.(ag_brokerWfs) x.(ag_calls)
    x.(ag_vm) id name x.(ag_env) x.(ag_out).

(** ** Programs *)

Definition am (A : Type) : Type := Ag -> Ag * called A.

#[export] Instance am_ret : MRet am := fun A a s => (s, Returned a).
#[export] Instance am_bind : MBind am := fun A A' f x s =>
  match x s with
  | (s', Returned a) => f a s'
  | (s', Blocks) => (s', Blocks)
  | (s', Crashed p) => (s', Crashed p)
  | (s', Unknown) => (s', Unknown)
  end.

Definition gets {A} (f : Ag -> A) : am A := fun s => (s, Returned (f s)).
Definition modify (f : Ag -> Ag) : am unit := fun s => (f s, Returned tt).
Definition am_crash {A} (p : panic) : am A := fun s => (s, Crashed p).
Definition emit (e : effect) : am unit := modify (fun s => put_out (s.(ag_out) ++ [e]) s).
Definition go (g : goroutine) : am unit := emit (Go g).

(** The subscriber was detached before, so its channel is closed. *)
Definition detached (sub : string) (es : list effect) : bool :=
  existsb (fun e => match e with DetachSub s => bool_decide (s = sub) | _ => false end) es.

(** [a.Broker.Detach(sub)], which the caller runs itself: it waits for the lock
    of the subscriber, which a sender may hold, and closes the subscriber's
    channel without looking whether it is closed. *)
Definition detach (sub : string) : am unit := fun s =>
  (put_out (s.(ag_out) ++ [DetachSub sub]) s,
   if detach_waits (length s.(ag_out)) sub then Blocks
   else if detached sub s.(ag_out) then Crashed (ExplicitPanic "close of closed channel")
   else Returned tt).

(** The next answers of the environment. *)
Definition tick : am Z := fun s =>
  let v := s.(ag_env) in
  (put_env (mkEnv v.(v_commits) (tail v.(v_clock)) v.(v_ids) v.(v_connects) v.(v_states)) s,
   Returned (default 0 (head v.(v_clock)))).
Definition next_id : am (option string) := fun s =>
  let v := s.(ag_env) in
  (put_env (mkEnv v.(v_commits) v.(v_clock) (tail v.(v_ids)) v.(v_connects) v.(v_states)) s,
   Returned (mjoin (head v.(v_ids)))).
Definition next_connect : am (option string) := fun s =>
  let v := s.(ag_env) in
  (put_env (mkEnv v.(v_commits) v.(v_clock) v.(v_ids) (tail v.(v_connects)) v.(v_states)) s,
   Returned (mjoin (head v.(v_connects)))).
Definition next_state : am bool := fun s =>
  let v := s.(ag_env) in
  (put_env (mkEnv v.(v_commits) v.(v_clock) v.(v_ids) v.(v_connects) (tail v.(v_states))) s,
   Returned (default false (head v.(v_states)))).

(** A call of the store, with the next answer of a commit. *)
Definition store {A} (f : option string -> Store -> Store * called A) : am A := fun s =>
  let v := s.(ag_env) in
  let '(st, r) := f (mjoin (head v.(v_commits))) s.(ag_store) in
  (put_env (mkEnv (tail v.(v_commits)) v.(v_clock) v.(v_ids) v.(v_connects) v.(v_states)) (put_store st s), r).

(** The value of a pointer that must not be nil. *)
Definition deref {A} (x : option A) : am A :=
  match x with Some a => mret a | None => am_crash NilDereference end.

Fixpoint for_all {A} (f : A -> am unit) (l : list A) : am unit :=
  match l with [] => mret tt | x :: l' => f x;; for_all f l' end.

(** ** Replies *)

Definition put_r_Channel (v : string) (x : CmdReplyTask) : CmdReplyTask :=
  mkReplyTask x.(r_Cmd) x.(r_TaskID) x.(r_TaskName) x.(r_BrokerID) x.(r_BrokerName) x.(r_DeliverID) x.(r_RunOn)
    x.(r_Status) x.(r_WorkflowID) v x.(r_Message) x.(r_Content) x.(r_Result) x.(r_Trigger) x.(r_Input) x.(r_SendAt)
    x.(r_RunCount) x.(r_Group) x.(r_StartInput) x.(r_Start) x.(r_Parent) x.(r_Part) x.(r_BeginPart)
    x.(r_FinishPart) x.(r_TaskInput).
Definition put_r_Result (v : option Result) (x : CmdReplyTask) : CmdReplyTask :=
  mkReplyTask x.(r_Cmd) x.(r_TaskID) x.(r_TaskName) x.(r_BrokerID) x.(r_BrokerName) x.(r_DeliverID) x.(r_RunOn)
    x.(r_Status) x.(r_WorkflowID) x.(r_Channel) x.(r_Message) x.(r_Content) v x.(r_Trigger) x.(r_Input) x.(r_SendAt)
    x.(r_RunCount) x.(r_Group) x.(r_StartInput) x.(r_Start) x.(r_Parent) x.(r_Part) x.(r_BeginPart)
    x.(r_FinishPart) x.(r_TaskInput).
Definition put_r_RunCount (v : Z) (x : CmdReplyTask) : CmdReplyTask :=
  mkReplyTask x.(r_Cmd) x.(r_TaskID) x.(r_TaskName) x.(r_BrokerID) x.(r_BrokerName) x.(r_DeliverID) x.(r_RunOn)
    x.(r_Status) x.(r_WorkflowID) x.(r_Channel) x.(r_Message) x.(r_Content) x.(r_Result) x.(r_Trigger) x.(r_Input)
    x.(r_SendAt) v x.(r_Group) x.(r_StartInput) x.(r_Start) x.(r_Parent) x.(r_Part) x.(r_BeginPart)
    x.(r_FinishPart) x.(r_TaskInput).
Definition put_r_SendAt (v : Z) (x : CmdReplyTask) : CmdReplyTask :=
  mkReplyTask x.(r_Cmd) x.(r_TaskID) x.(r_TaskName) x.(r_BrokerID) x.(r_BrokerName) x.(r_DeliverID) x.(r_RunOn)
    x.(r_Status) x.(r_WorkflowID) x.(r_Channel) x.(r_Message) x.(r_Content) x.(r_Result) x.(r_Trigger) x.(r_Input)
    v x.(r_RunCount) x.(r_Group) x.(r_StartInput) x.(r_Start) x.(r_Parent) x.(r_Part) x.(r_BeginPart)
    x.(r_FinishPart) x.(r_TaskInput).
Definition put_r_FinishPart (v : bool) (x : CmdReplyTask) : CmdReplyTask :=
  mkReplyTask x.(r_Cmd) x.(r_TaskID) x.(r_TaskName) x.(r_BrokerID) x.(r_BrokerName) x.(r_DeliverID) x.(r_RunOn)
    x.(r_Status) x.(r_WorkflowID) x.(r_Channel) x.(r_Message) x.(r_Content) x.(r_Result) x.(r_Trigger) x.(r_Input)
    x.(r_SendAt) x.(r_RunCount) x.(r_Group) x.(r_StartInput) x.(r_Start) x.(r_Parent) x.(r_Part) x.(r_BeginPart)
    v x.(r_TaskInput).
Definition put_r_TaskInput (v : string) (x : CmdReplyTask) : CmdReplyTask :=
  mkReplyTask x.(r_Cmd) x.(r_TaskID) x.(r_TaskName) x.(r_BrokerID) x.(r_BrokerName) x.(r_DeliverID) x.(r_RunOn)
    x.(r_Status) x.(r_WorkflowID) x.(r_Channel) x.(r_Message) x.(r_Content) x.(r_Result) x.(r_Trigger) x.(r_Input)
    x.(r_SendAt) x.(r_RunCount) x.(r_Group) x.(r_StartInput) x.(r_Start) x.(r_Parent) x.(r_Part) x.(r_BeginPart)
    x.(r_FinishPart) v.

(** [Hub.RunOn], [Hub.Publish], [Hub.PublishLog]; a hub that never connected has
    no client to publish with. *)
Definition RunOn : am string := gets (fun s => s.(ag_hub).(h_clientName) +:+ SubClient).
Definition with_client (e : effect) : am unit :=
  h ← gets ag_hub; if h.(h_Client) then emit e else am_crash NilDereference.
Definition hub_Publish (r : CmdReplyTask) : am unit :=
  on ← RunOn;
  now ← tick;
  with_client (Publish (put_r_SendAt now (put_r_RunOn on r))).
Definition hub_PublishLog (wid : Z) (l : LogDaemon) : am unit :=
  on ← RunOn;
  now ← tick;
  with_client (PublishLog wid (mkLogDaemon l.(ld_Reply) l.(ld_Request) on now l.(ld_Tracking) l.(ld_BrokerName)
                                 l.(ld_BrokerGroup))).

(** ** Counters, groups and parts *)

Definition nextCnt : am Z :=
  c ← gets ag_cnt;
  modify (put_cnt (wrap_i64 (c + 1)));;
  mret (wrap_i64 (c + 1)).

Definition getGroup (wid : Z) : am string :=
  id ← nextCnt;
  cl ← gets ag_ClientID;
  mret ("deamongroup-" +:+ pretty wid +:+ "-" +:+ pretty id +:+ "-" +:+ cl).

Definition getBrokerGroup (wid : Z) : am string :=
  id ← nextCnt;
  cl ← gets ag_ClientID;
  mret ("deamonbroker-" +:+ pretty wid +:+ "-" +:+ pretty id +:+ "-" +:+ cl).

Definition part_key (replyPart : string) (rvID rvType : Z) : string :=
  replyPart +:+ "@" +:+ pretty rvID +:+ "-" +:+ pretty rvType.

Definition getPart (replyPart : string) (wid rvID rvType : Z) : am string :=
  if bool_decide (replyPart = "") then
    id ← nextCnt; mret ("daemonpart-" +:+ pretty wid +:+ "-" +:+ pretty id)
  else
    m ← gets ag_flowMap;
    match m !! part_key replyPart rvID rvType with
    | Some p => mret p
    | None =>
        id ← nextCnt;
        let p := "part-" +:+ pretty wid +:+ "-" +:+ pretty id in
        modify (put_flowMap (<[part_key replyPart rvID rvType := p]> m));;
        mret p
    end.

(** ** Active tasks *)

Definition update_actives (taskID : string) (ta : TaskActive) (m : gmap string (gmap string TaskActive))
    : gmap string (gmap string TaskActive) :=
  match m !! taskID with
  | None =>
      if bool_decide (ta.(ta_Status) = ActiveRunning) || bool_decide (ta.(ta_Status) = ActiveSchedule)
      then <[taskID := {[ta.(ta_ExecutionID) := ta]}]> m else m
  | Some l =>
      if bool_decide (ta.(ta_Status) = ActiveFinish) then <[taskID := delete ta.(ta_ExecutionID) l]> m else m
  end.

Definition UpdateTaskRecord (taskID : string) (ta : TaskActive) : am unit :=
  modify (fun s => put_actives (update_actives taskID ta s.(ag_actives)) s).

(** The status [GetTasks] shows. *)
Definition shown_status (taskID : string) (m : gmap string (gmap string TaskActive)) : string :=
  match m !! taskID with
  | Some l => if bool_decide (l = ∅) then ActiveWait else ActiveRunning
  | None => ActiveWait
  end.

Definition Agent_GetTasks (o : option TaskOptions) : am (list ATask * option string) :=
  '(tasks, e) ← store (fun c => GetTasks c o);
  match e with
  | Some e => mret ([], Some e)
  | None =>
      m ← gets ag_actives;
      mret ((fun t => put_at_Status (shown_status t.(at_ID) m) t) <$> tasks, None)
  end.

(** ** Running a task *)

Definition put_e_Start (started : Z) (node id : string) (x : Execution) : Execution :=
  mkExecution id x.(e_TaskID) started x.(e_FinishedAt) x.(e_Success) x.(e_Output) node x.(e_Group) x.(e_Attempt)
    x.(e_Offset) x.(e_Part) x.(e_Parent) x.(e_Status).
Definition put_e_FinishedAt (v : Z) (x : Execution) : Execution :=
  mkExecution x.(e_Id) x.(e_TaskID) x.(e_StartedAt) v x.(e_Success) x.(e_Output) x.(e_NodeName) x.(e_Group)
    x.(e_Attempt) x.(e_Offset) x.(e_Part) x.(e_Parent) x.(e_Status).
Definition put_e_Success (v : bool) (x : Execution) : Execution :=
  mkExecution x.(e_Id) x.(e_TaskID) x.(e_StartedAt) x.(e_FinishedAt) v x.(e_Output) x.(e_NodeName) x.(e_Group)
    x.(e_Attempt) x.(e_Offset) x.(e_Part) x.(e_Parent) x.(e_Status).
Definition put_e_Output (v : string) (x : Execution) : Execution :=
  mkExecution x.(e_Id) x.(e_TaskID) x.(e_StartedAt) x.(e_FinishedAt) x.(e_Success) v x.(e_NodeName) x.(e_Group)
    x.(e_Attempt) x.(e_Offset) x.(e_Part) x.(e_Parent) x.(e_Status).
Definition put_e_Offset (v : Z) (x : Execution) : Execution :=
  mkExecution x.(e_Id) x.(e_TaskID) x.(e_StartedAt) x.(e_FinishedAt) x.(e_Success) x.(e_Output) x.(e_NodeName)
    x.(e_Group) x.(e_Attempt) v x.(e_Part) x.(e_Parent) x.(e_Status).
Definition put_e_Parts (part parent : string) (x : Execution) : Execution :=
  mkExecution x.(e_Id) x.(e_TaskID) x.(e_StartedAt) x.(e_FinishedAt) x.(e_Success) x.(e_Output) x.(e_NodeName)
    x.(e_Group) x.(e_Attempt) x.(e_Offset) part parent x.(e_Status).
Definition put_e_Status (v : Z) (x : Execution) : Execution :=
  mkExecution x.(e_Id) x.(e_TaskID) x.(e_StartedAt) x.(e_FinishedAt) x.(e_Success) x.(e_Output) x.(e_NodeName)
    x.(e_Group) x.(e_Attempt) x.(e_Offset) x.(e_Part) x.(e_Parent) v.

(** A value of a configuration as text; values that came from JSON can be encoded. *)
Definition text_of (v : EV) : string := match ev_as_string v with Some s => s | None => ev_json v end.

Definition queue_name (t : ATask) : string := t.(at_Name) +:+ "-" +:+ pretty t.(at_WorkflowID).

(** [SaveExecutorResult] *)
Definition SaveExecutorResult (e : Execution) : am (option string) :=
  now ← tick;
  '(_, err) ← store (fun c => SetExecutionDone c now e.(e_TaskID) e);
  mret err.

(** [Broadcast]: to the server, then to the broker, on the task's topic. *)
Definition Agent_Broadcast (r : CmdReplyTask) : am unit :=
  hub_Publish r;;
  go (GTopic r (GetTaskName r.(r_TaskName) +:+ "-" +:+ pretty r.(r_WorkflowID))).

(** The start of the callback of [Run]: the execution before it is stored. *)
Definition output_part (t : ATask) (re : option CmdTask) (ex : Execution) : am Execution :=
  if bool_decide (ex.(e_Offset) = 0) then
    part ← getPart "" t.(at_WorkflowID) (ParseInt t.(at_ID)) TaskPoint;
    mret (match re with
          | Some re => put_e_Parts re.(c_Part) re.(c_Parent) ex
          | None => put_e_Parts part ex.(e_Parent) ex
          end)
  else mret ex.

Definition output_success (ex : Execution) : Execution :=
  if bool_decide (ex.(e_Status) = PendingTask) || bool_decide (ex.(e_Status) = RunningTask) then put_e_Success true ex
  else if bool_decide (ex.(e_Status) = FaultTask) then put_e_Success false ex
  else ex.

(** The reply of one output. *)
Definition output_reply (t : ATask) (re : option CmdTask) (inputTask : string) (first : bool) (ex : Execution)
    : CmdReplyTask :=
  let r := ToCmdReplyTask t in
  let r := if first then put_r_Trigger t.(at_Trigger) (put_r_BeginPart true r) else r in
  let r := put_r_Status ex.(e_Status) (put_r_Parent ex.(e_Parent) (put_r_Part ex.(e_Part)
             (put_r_Result (Some (GetResult ex)) (put_r_Cmd ReplyOutputTaskCmd r)))) in
  match re with
  | Some re => put_r_RunCount re.(c_RunCount) (put_r_Group re.(c_Group) r)
  | None =>
      let r := put_r_Group ex.(e_Group) r in
      if bool_decide (ex.(e_Offset) = 1) then
        put_r_StartInput t.(at_Input) (put_r_TaskInput inputTask (put_r_TaskName t.(at_Name)
          (put_r_Parent ex.(e_Part) (put_r_Start true r))))
      else r
  end.

(** The callback of [Run] on the bytes [b]. *)
Definition output (t : ATask) (re : option CmdTask) (inputTask : string) (b : option string) (ex : Execution)
    : am (Execution * option string) :=
  let first := bool_decide (ex.(e_Offset) = 0) in
  let ex := match b with Some b => put_e_Output (TrimRight b (String "000" "")) ex | None => ex end in
  ex ← output_part t re ex;
  let ex := output_success ex in
  let ex := put_e_Offset (wrap_i64 (ex.(e_Offset) + 1)) ex in
  err ← SaveExecutorResult ex;
  match err with
  | Some e => mret (ex, Some e)
  | None => go (GBroadcast (output_reply t re inputTask first ex));; mret (ex, None)
  end.

(** [output] as a callback of the buffer: it keeps how it ended when it did not
    return. *)
Record run_state := mkRun { rs_ag : Ag; rs_ex : Execution; rs_end : called unit }.

Definition output_cb (t : ATask) (re : option CmdTask) (inputTask : string)
    (b : option (list ascii)) (s : run_state) : run_state * option string :=
  match s.(rs_end) with
  | Returned _ =>
      match output t re inputTask (implode <$> b) s.(rs_ex) s.(rs_ag) with
      | (ag, Returned (ex, e)) => (mkRun ag ex (Returned tt), e)
      | (ag, Blocks) => (mkRun ag s.(rs_ex) Blocks, Some "")
      | (ag, Crashed p) => (mkRun ag s.(rs_ex) (Crashed p), Some "")
      | (ag, Unknown) => (mkRun ag s.(rs_ex) Unknown, Some "")
      end
  | _ => (s, Some "")
  end.

(** [Buffer.Write], then [Flush] when [flush]; errors are dropped. *)
Definition write (t : ATask) (re : option CmdTask) (inputTask : string) (flush : bool) (b : option string)
    (bs : BufCb.Buffer ascii * run_state) : BufCb.Buffer ascii * run_state :=
  let '(buf, s) := bs in
  match s.(rs_end) with Returned _ =>
  let '(buf, s, r) := Write (output_cb t re inputTask) ((fun b => (explode b ++ spare b, String.length b)) <$> b) buf s in
  match r with
  | Panic p => (buf, mkRun s.(rs_ag) s.(rs_ex) (Crashed p))
  | _ =>
      if flush then
        let '(buf, s, r) := Flush (output_cb t re inputTask) buf s in
        (buf, match r with Panic p => mkRun s.(rs_ag) s.(rs_ex) (Crashed p) | _ => s end)
      else (buf, s)
  end
  | _ => bs
  end.

Definition put_rs_ex (f : Execution -> Execution) (s : run_state) : run_state :=
  mkRun s.(rs_ag) (f s.(rs_ex)) s.(rs_end).

(** [statusAgentHelper.Update] *)
Definition Update_output (t : ATask) (re : option CmdTask) (inputTask : string)
    (bs : BufCb.Buffer ascii * run_state) (u : option string * bool) : BufCb.Buffer ascii * run_state :=
  write t re inputTask false u.1 (bs.1, put_rs_ex (put_e_Success u.2) bs.2).

(** The part of [Run] with the executor [x]: its updates, the end time, the error
    and the output. *)
Definition run_executor (t : ATask) (re : option CmdTask) (inputTask : string) (x : exec_result) (ex : Execution)
    : am unit := fun s =>
  let bs := (BufCb.NewBuffer maxBufSize "000"%char, mkRun s (put_e_Status RunningTask ex) (Returned tt)) in
  let bs := foldl (Update_output t re inputTask) bs x.(x_updates) in
  match bs.2.(rs_end) with
  | Returned _ =>
      match x.(x_err), x.(x_out) with
      | None, None => (bs.2.(rs_ag), Crashed NilDereference)
      | _, _ =>
          let err := match x.(x_err), x.(x_out) with
                     | None, Some (_, e) => if bool_decide (e <> "") then Some e else None
                     | err, _ => err
                     end in
          let '(ag, now) := match tick bs.2.(rs_ag) with (ag, Returned n) => (ag, n) | (ag, _) => (ag, 0) end in
          let bs := (bs.1, mkRun ag (put_e_FinishedAt now bs.2.(rs_ex)) (Returned tt)) in
          let bs := match err with
                    | Some e => write t re inputTask true (Some (e +:+ String "010" ""))
                                  (bs.1, put_rs_ex (put_e_Status FaultTask) bs.2)
                    | None => bs
                    end in
          let bs := match x.(x_out) with
                    | Some (o, _) => write t re inputTask true o bs
                    | None => write t re inputTask false None bs
                    end in
          (bs.2.(rs_ag), bs.2.(rs_end))
      end
  | r => (bs.2.(rs_ag), r)
  end.

(** The part of [Run] without the executor. *)
Definition run_missing (t : ATask) (re : option CmdTask) (inputTask : string) (ex : Execution) : am (option string) :=
  now ← tick;
  part ← getPart "" t.(at_WorkflowID) (ParseInt t.(at_ID)) TaskPoint;
  let ex := put_e_FinishedAt now (put_e_Output "deamon: specified executor is not present"
              (put_e_Status FaultTask (put_e_Success false ex))) in
  let ex := put_e_Parts part (match re with Some re => re.(c_Part) | None => ex.(e_Parent) end) ex in
  let ex := put_e_Offset (wrap_i64 (ex.(e_Offset) + 1)) ex in
  err ← SaveExecutorResult ex;
  match err with
  | Some e => mret (Some e)
  | None =>
      let r := put_r_Result (Some (GetResult ex)) (put_r_Cmd ReplyOutputTaskCmd (ToCmdReplyTask t)) in
      let r := match re with
               | Some re => put_r_RunCount re.(c_RunCount) (put_r_Group re.(c_Group) r)
               | None =>
                   let r := put_r_Group ex.(e_Group) r in
                   if bool_decide (ex.(e_Offset) = 1) then
                     put_r_TaskInput inputTask (put_r_TaskName t.(at_Name) (put_r_Parent ex.(e_Part) (put_r_Start true r)))
                   else r
               end in
      go (GBroadcast r);;
      mret None
  end.

(** The input of a run: the task's own, the request's, or the next of the queue.
    [inl] is an early return. *)
Definition run_input (t : ATask) (re : option CmdTask) (exc : gmap string string)
    : am (option string + string * gmap string string) :=
  if bool_decide (t.(at_Input) <> "") then mret (inr (t.(at_Input), exc))
  else
    match re with
    | Some re =>
        if bool_decide (t.(at_Schedule) <> "") then
          match marshal re with
          | inl e => mret (inl (Some e))
          | inr s =>
              now ← tick;
              err ← store (fun c => SetQueue c now (queue_name t) s);
              mret (inl err)
          end
        else
          w ← deref re.(c_Task);
          mret (inr (w.(tk_Input), <["worklow_id" := pretty re.(c_WorkflowID)]> exc))
    | None =>
        '(e, err) ← store (fun c => GetQueue c (queue_name t));
        match err with
        | Some err => mret (inl (Some err))
        | None =>
            if bool_decide (e = "") then mret (inr ("", exc))
            else
              match unmarshal e zero_cmd with
              | (_, Some err) => mret (inl (Some err))
              | (ct, None) => w ← deref ct.(c_Task); mret (inr (w.(tk_Input), exc))
              end
        end
    end.

(** What the input adds to the configuration. *)
Definition add_input (input : string) (exc : gmap string string) : string + gmap string string :=
  if bool_decide (input = "") then inr exc
  else
    match config_parse input with
    | inl e => inl e
    | inr mp => inr ((text_of <$> mp) ∪ exc)
    end.

Definition run_body (t : ATask) (ex : Execution) (re : option CmdTask) : am (option string) :=
  input ← run_input t re (text_of <$> t.(at_ExecutorConfig));
  match input with
  | inl err => mret err
  | inr (input, exc) =>
      match add_input input exc with
      | inl e => mret (Some e)
      | inr exc =>
          now ← tick;
          let ex := put_e_Start now "agent" "" ex in
          let ex := put_e_Start now "agent" (Execution_Key ex) ex in
          store (fun c => SetExecution c ex.(e_TaskID) ex);;
          let inputTask := map_json exc in
          if bool_decide (t.(at_Executor) = "") then mret (Some "agent: No executor defined, nothing to do")
          else
            match executors !! t.(at_Executor) with
            | Some x => run_executor t re inputTask (x (ParseInt t.(at_ID)) exc) ex;; mret None
            | None => run_missing t re inputTask ex
            end
      end
  end.

(** [Agent.Run]: the record of the end is made before the run and filed at its end. *)
Definition Run (t : ATask) (ex : Execution) (re : option CmdTask) : am (option string) :=
  now ← tick;
  UpdateTaskRecord t.(at_ID) (mkActive ex.(e_Id) ActiveRunning now);;
  now ← tick;
  err ← run_body t ex re;
  UpdateTaskRecord t.(at_ID) (mkActive ex.(e_Id) ActiveFinish now);;
  mret err.

(** The circular buffer after the writes [l]; it only panics when its size is 0. *)
Definition sync_buffer (l : list string) : CircBuf.Buffer (B:=ascii) :=
  foldl (fun b w => match CircBuf.Buffer_Write b (explode w) with Ok (b, _) => b | _ => b end)
    (CircBuf.NewBuffer "000"%char maxBufSize) l.

(** What the executor's calls of [Update] do there. *)
Definition sync_writes (x : exec_result) : list string := (fun u => default "" u.1) <$> x.(x_updates).
Definition last_success (x : exec_result) (ex : Execution) : Execution :=
  foldl (fun ex u => put_e_Success u.2 ex) ex x.(x_updates).

(** [Agent.RunSync]: the output of the executor goes through a circular buffer. *)
Definition RunSync (t : ATask) (ex : Execution) (re : option CmdTask) : am (option Result * option string) :=
  exc ← match re with
        | Some re =>
            w ← deref re.(c_Task);
            mret (<["worklow_id" := pretty re.(c_WorkflowID)]> (<["deliver_id" := pretty re.(c_DeliverID)]>
                    (<["input" := w.(tk_Input)]> (∅ : gmap string string))))
        | None => mret ∅
        end;
  now ← tick;
  let ex := put_e_Start now "agent" "" ex in
  let ex := put_e_Start now "agent" (Execution_Key ex) ex in
  store (fun c => SetExecution c ex.(e_TaskID) ex);;
  if bool_decide (t.(at_Executor) = "") then mret (None, Some "agent: No executor defined, nothing to do")
  else
    match executors !! t.(at_Executor) with
    | None => mret (None, Some "deamon: specified executor is not present")
    | Some x =>
        let x := x (ParseInt t.(at_ID)) exc in
        let ex := last_success x ex in
        match x.(x_err), x.(x_out) with
        | None, None => am_crash NilDereference
        | Some e, _ => mret (Some (GetResult (put_e_Success false ex)), Some e)
        | None, Some (o, e) =>
            if bool_decide (e <> "") then mret (Some (GetResult (put_e_Success false ex)), Some e)
            else
              let buf := sync_buffer (sync_writes x ++ [default "" o]) in
              now ← tick;
              let ex := put_e_Offset (wrap_i64 (ex.(e_Offset) + 1))
                          (put_e_Output (implode (CircBuf.Buffer_Bytes "000"%char buf))
                             (put_e_FinishedAt now (put_e_Success true ex))) in
              err ← SaveExecutorResult ex;
              match err with
              | Some e => mret (None, Some e)
              | None => mret (Some (GetResult ex), None)
              end
        end
    end.

(** ** [Task.Run], [Task.RunTrigger], [Task.RunSync]

    Each first logs, with the task's own logger; a task without an agent ends the
    process ([logger.Fatal]). *)
Definition with_task {A} (t : ATask) (skip : A) (body : am A) : am A :=
  if negb t.(at_logger) then am_crash NilDereference
  else if negb t.(at_Agent) then am_crash (ExplicitPanic "task: agent not set")
  else
    now ← (if NT_HasValue t.(at_ExpiresAt) && negb t.(at_Disabled) then tick else mret 0);
    if isRunnable now t then body else mret skip.

Definition Task_Run (t : ATask) : am unit :=
  with_task t tt (
    g ← getGroup t.(at_WorkflowID);
    Run t (NewExecution t.(at_ID) g) None;;
    mret tt).

Definition Task_RequestRun (t : ATask) (re : CmdTask) : am unit :=
  with_task t tt (Run t (NewExecution t.(at_ID) re.(c_Group)) (Some re);; mret tt).

Definition Task_RunTrigger (t : ATask) (re : CmdTask) : am (option string) :=
  with_task t (Some "task can't run") (
    err ← Run t (NewExecution t.(at_ID) re.(c_Group)) (Some re);
    mret (match err with Some e => Some e | None => Some "task can't run" end)).

Definition Task_RunSync (t : ATask) (re : CmdTask) : am (option Result * option string) :=
  with_task t (None, Some "task can't run") (
    g ← getGroup t.(at_WorkflowID);
    RunSync t (NewExecution t.(at_ID) g) (Some re)).

End Agent.
Arguments AgentEnv {E}.
