(* ===== verification/AgentHandlers.v ===== *)
(** What the agent does with commands, triggers, outputs of brokers and scripts:
    the rest of [kairosdeamon/agent/agent.go] and of [hub.go].

    [handle_cmd] is one round of [handleTaskEvent], and [run_goroutine] the body
    of each goroutine the agent starts.  A broker that was decoded from JSON has
    no channel [TriggerCh], so its [Run] waits for ever. *)

From stdpp Require Import pretty strings.
From S2P Require Import Prelude GoStrings Names Template Compile Value Interp WorkerData Scheduler AgentBolt AgentData AgentStore AgentSched Agent.

#[local] Open Scope Z_scope.

(** [config.Auth] *)
Record Auth := mkAuth { au_Token : string; au_ClientName : string; au_ClientID : string; au_UserID : string }.

Section Handlers.
Context {E : Engine} {B : Bolt} {T : GoTime} {C : Cron ajob}.
Context {CT : Codec ATask} {CB : Codec BrokerObj} {CE : Codec Execution}
        {CR : Codec BrokerRecordLocal} {CG : Codec Trigger} {CC : Codec CmdTask} {CP : Codec CmdReplyTask}.
Context {V : AgentEnv}.

(** ** Tasks *)

Definition sched {A} (f : ASched -> ASched * A) : am A := fun s =>
  let '(sc, a) := f s.(ag_sched) in (put_sched sc s, Returned a).

(** [Scheduler.AddTask] as the agent calls it: a task that is not filed runs here. *)
Definition sched_AddTask (t : ATask) : am (option string) :=
  r ← sched (AddTask t);
  match r with
  | FBad => mret (Some (cron_error (agent_schedule t)))
  | FRun => Task_Run (put_at_logger true t);; mret None
  | FDisabled | FFiled => mret None
  end.

Definition ScheduleTask (t : ATask) : am (option string) :=
  let t := put_at_Agent true t in
  if bool_decide (t.(at_Schedule) = "") then
    if bool_decide (t.(at_Wait) = TaskWaitInput) then mret None
    else go (GRunTask t);; mret None
  else sched_AddTask t.

(** [Store.SetTask] writes into the caller's task, which the callers here keep. *)
Definition store_SetTask (t : ATask) : am (ATask * option string) :=
  now ← tick;
  store (fun c s => let '(s, (t, r)) := SetTask c now t s in (s, (fun e => (t, e)) <$> r)).

Definition Agent_SetTask (t : ATask) : am (option string) := r ← store_SetTask t; mret r.2.

Definition SetTaskAndRun (t : ATask) : am (option string) :=
  '(t, err) ← store_SetTask t;
  match err with
  | Some e => mret (Some e)
  | None => go (GRunTask (put_at_logger true (put_at_Agent true t)));; mret None
  end.

Definition SetTaskAndSched (t : ATask) : am (option string) :=
  '(t, err) ← store_SetTask t;
  match err with
  | Some e => mret (Some e)
  | None => sched_AddTask (put_at_Agent true t)
  end.

Definition Agent_GetTask (id : string) : am (ATask * option string) := store (fun c => GetTask c id).

Definition Agent_DeleteTask (id : string) : am (option string) :=
  sched (fun sc => (RemoveTask id sc, tt));;
  store (fun c => DeleteTask c id).

(** ** Brokers *)

(** The agent's [Script], and a broker with it. *)
Definition Script : am (FuncCall EFn) := gets (fun s => mkFuncCall s.(ag_calls) (Some (vm_get s.(ag_vm)))).

Definition with_FuncCalls (fc : FuncCall EFn) (t : Template EFn) : Template EFn :=
  mkTemplate t.(ListenVars) t.(Vars) t.(IndexRun) t.(Input) t.(Exps) fc t.(FuncNotFound).

Definition getSubBroker (bid : Z) : am (option string) := gets (fun s => s.(ag_brokerWfs) !! bid).
Definition setSubBroker (bid : Z) (sub : string) : am unit :=
  modify (fun s => put_brokerWfs (<[bid := sub]> s.(ag_brokerWfs)) s).

Definition broker_topics (b : BrokerObj) : list string :=
  (fun l => l +:+ "-" +:+ pretty (b_WorkflowID b.(bo))) <$> Listens b.(bo).

Definition setupBroker (b : BrokerObj) : am (option string) :=
  old ← getSubBroker (b_ID b.(bo));
  match old with Some sub => detach sub | None => mret tt end;;
  id ← next_id;
  match id with
  | None => mret (Some "rand")
  | Some sub =>
      emit (NewSub sub);;
      setSubBroker (b_ID b.(bo)) sub;;
      emit (SubscribeTo sub (broker_topics b));;
      go (GHandleSub sub b);;
      mret None
  end.

(** A stored broker without a template is a nil dereference. *)
Definition setupBrokers : am (option string) :=
  '(bs, err) ← store GetBrokers;
  match err with
  | Some e => mret (Some e)
  | None => for_all (fun b => deref (b_Template b.(bo));; setupBroker b;; mret tt) bs;; mret None
  end.

(** The function [f] of a template is there, or can be taken from the scripts. *)
Definition find_function (f : string) : am bool :=
  calls ← gets ag_calls;
  match calls !! f with
  | Some _ => mret true
  | None =>
      vm ← gets ag_vm;
      match vm_get vm f with
      | JsFunction m => modify (put_calls (<[f := m]> calls));; mret true
      | JsUndefined | JsNotCallable => mret false
      end
  end.

Fixpoint find_functions (fs : list string) : am (option string) :=
  match fs with
  | [] => mret None
  | f :: fs' => ok ← find_function f; if (ok : bool) then find_functions fs' else mret (Some f)
  end.

(** The task a delivery goes to: [inl true] when none was found, [inl false] when
    several were. *)
Definition receiver (b : BrokerObj) (d : DeliverFlow EV) : am (bool + ATask) :=
  '(tasks, err) ← store (fun c => GetTasks c (Some (mkTaskOptions ∅ "" (b_WorkflowID b.(bo)) "" "" "" "" (GetRawName d.(Reciever)))));
  mret (match err, tasks with
        | None, [t] => inr t
        | None, _ :: _ :: _ => inl false
        | _, _ => inl true
        end).

Definition deliver_request (b : BrokerObj) (t : ATask) (d : DeliverFlow EV) (group part : string) : am CmdTask :=
  p ← getPart part (b_WorkflowID b.(bo)) (ParseInt t.(at_ID)) TaskPoint;
  on ← RunOn;
  mret (put_c_From on (put_c_Parent part (put_c_Part p (put_c_Group group (put_c_Cmd InputTaskCmd
    (put_c_WorkflowID (b_WorkflowID b.(bo))
      (put_c_Task (Some (msg_task (ParseInt t.(at_ID)) t.(at_WorkflowID) t.(at_Name) (ev_json d.(Msg)) "")) zero_cmd))))))).

Fixpoint deliver_all (b : BrokerObj) (bg tracking group part : string) (ds : list (DeliverFlow EV)) : am unit :=
  match ds with
  | [] => mret tt
  | d :: ds' =>
      r ← receiver b d;
      match r with
      | inl true => mret tt
      | inl false => deliver_all b bg tracking group part ds'
      | inr t =>
          re ← deliver_request b t d group part;
          go (GLog (b_WorkflowID b.(bo)) (mkLogDaemon None (Some re) "" 0 tracking (b_Name b.(bo)) bg));;
          g ← getGroup t.(at_WorkflowID);
          go (GRun (put_at_Agent true t) (NewExecution t.(at_ID) g) re);;
          deliver_all b bg tracking group part ds'
      end
  end.

(** [binput] and [btrigger] are the fields [Input] and [Trigger] of the broker. *)
Definition handleBrokerDeliver (b : BrokerObj) (binput : string) (btrigger : option Trigger)
    (exo : exec_out EV) (reply : option CmdReplyTask) : am unit :=
  bg ← getBrokerGroup (b_WorkflowID b.(bo));
  '(group, part) ←
    match reply with
    | Some r =>
        go (GLog (b_WorkflowID b.(bo)) (mkLogDaemon (Some r) None "" 0 "" "" bg));;
        mret (r.(r_Group), r.(r_Part))
    | None =>
        group ← getGroup (b_WorkflowID b.(bo));
        part ← getPart "" (b_WorkflowID b.(bo)) (b_ID b.(bo)) BrokerPoint;
        on ← RunOn;
        let r := put_r_Trigger btrigger (put_r_Part part (put_r_Group group (put_r_BrokerName (b_Name b.(bo))
                   (put_r_BrokerID (b_ID b.(bo)) (put_r_RunOn on (put_r_Start true (put_r_StartInput binput
                     (put_r_BeginPart true zero_reply)))))))) in
        go (GLog (b_WorkflowID b.(bo)) (mkLogDaemon (Some r) None "" 0 "" "" bg));;
        mret (group, part)
    end;
  deliver_all b bg exo.(eo_json) group part exo.(eo_flows).

(** [DeepCopy]: through JSON. *)
Definition DeepCopy (r : CmdReplyTask) : am CmdReplyTask :=
  match marshal r with
  | inl e => am_crash (ExplicitPanic e)
  | inr s =>
      match unmarshal s zero_reply with
      | (c, None) => mret c
      | (_, Some e) => am_crash (ExplicitPanic e)
      end
  end.

Definition execute (t : Template EFn) (replies : gmap string (gmap string EV)) : am (exec_out EV) := fun s =>
  match engine_execute template_fuel (engine_new t replies) with
  | Ok (Some (_, out)) => (s, Returned out)
  | Panic p => (s, Crashed p)
  | _ => (s, Unknown)
  end.

(** What the broker's template gets of a reply. *)
Definition reply_data (r : CmdReplyTask) : gmap string (gmap string EV) :=
  {[ GetTaskName r.(r_TaskName) :=
       match r.(r_Result) with
       | Some res => <["result" := ev_result res]> {["workflow_id" := ev_number r.(r_WorkflowID)]}
       | None => {["workflow_id" := ev_number r.(r_WorkflowID)]}
       end ]}.

(** The function [handleSubMessage] gives to the subscriber, on one reply; replies
    and outputs of templates can be encoded. *)
Definition handleSubMessage (b : BrokerObj) (reply : CmdReplyTask) : am unit :=
  new ← DeepCopy reply;
  let new := put_r_TaskInput "" (put_r_Start false new) in
  let replies := reply_data new in
  let old := new.(r_Part) in
  part ← getPart old (b_WorkflowID b.(bo)) (b_ID b.(bo)) BrokerPoint;
  let new := put_r_Part part (put_r_Parent old (put_r_BrokerName (b_Name b.(bo))
               (put_r_WorkflowID (b_WorkflowID b.(bo)) new))) in
  t ← deref (b_Template b.(bo));
  fc ← Script;
  exo ← execute (with_FuncCalls fc t) replies;
  handleBrokerDeliver b "" None exo (Some new);;
  now ← tick;
  let status := match exo.(eo_err) with None => BrokerExecuteSuccess | Some _ => BrokerExecuteFault end in
  store (fun c => SetBrokerRecord c (mkBrokerRecord 0 status (replies_json replies) exo.(eo_json) (b_ID b.(bo)) now 0));;
  mret tt.

(** ** Triggers *)

Definition put_b_Schedule (v : string) (b : BrokerObj) : BrokerObj :=
  let x := b.(bo) in
  mkBrokerObj (mkBroker (b_ID x) (b_Name x) v (Listens x) (b_Clients x) (Flows x) (b_Template x) (b_WorkflowID x))
    b.(bo_Queue).

(** [Broker.Run] sends on a nil channel. *)
Definition Broker_Run : am unit := fun s => (s, Blocks).

Definition sched_AddBroker (b : BrokerObj) : am (option string) :=
  r ← sched (AddBroker b);
  match r with
  | FBad => mret (Some (cron_error (b_Schedule b.(bo))))
  | FRun => Broker_Run;; mret None
  | FDisabled | FFiled => mret None
  end.

Definition Agent_Trigger (tr : Trigger) : am (option string) :=
  if bool_decide (tr.(tg_Type) = "broker") then
    '(b, err) ← store (fun c => GetBroker c (pretty tr.(tg_ObjectID)));
    if bool_decide (b_Name b.(bo) = "") then mret (Some ("not found broker id = " +:+ pretty tr.(tg_ObjectID)))
    else
      match err with
      | Some e => mret (Some e)
      | None =>
          err ← sched_AddBroker (put_b_Schedule tr.(tg_Schedule) b);
          match err with
          | Some e => mret (Some e)
          | None => store (fun c => DeleteTrigger c (pretty tr.(tg_ID)));; mret None
          end
      end
  else if bool_decide (tr.(tg_Type) = "task") then
    '(t, err) ← Agent_GetTask (pretty tr.(tg_ObjectID));
    match err with
    | Some e => mret (Some e)
    | None =>
        err ← sched_AddTask (put_at_Agent true (put_at_Schedule tr.(tg_Schedule)
                              (put_at_Input tr.(tg_Input) (put_at_Trigger (Some tr) t))));
        match err with
        | Some e => mret (Some e)
        | None => store (fun c => DeleteTrigger c (pretty tr.(tg_ID)));; mret None
        end
    end
  else mret None.

(** [GetWorkflow] never gives an error, so nor does this. *)
Definition Agent_DeleteWorkflow (wid : Z) : am (option string) :=
  '(wfi, err) ← store (fun c => GetWorkflow c (pretty wid));
  match err with
  | Some e => mret (Some e)
  | None =>
      for_all (fun bid => sub ← getSubBroker bid;
                          match sub with Some sub => detach sub | None => mret tt end) wfi.(BrokerIDs);;
      for_all (fun tid => Agent_DeleteTask (pretty tid);; mret tt) wfi.(TaskIDs);;
      store (fun c => DeleteWorkflow c (pretty wid));;
      mret None
  end.

(** ** Commands *)

(** The reply of a command before the switch. *)
Definition reply_of (te : CmdTask) : CmdReplyTask :=
  let re := put_r_Parent te.(c_Parent) (put_r_Part te.(c_Part) (put_r_FinishPart true (put_r_Channel te.(c_Channel)
              (put_r_Group te.(c_Group) (put_r_DeliverID te.(c_DeliverID) zero_reply))))) in
  match te.(c_Task) with
  | Some t => put_r_TaskID (t_ID t.(tk)) (put_r_WorkflowID (t_WorkflowID t.(tk)) re)
  | None => put_r_WorkflowID te.(c_WorkflowID) re
  end.

Definition fault (status : Z) (e : option string) (re : CmdReplyTask) : CmdReplyTask :=
  match e with Some e => put_r_Status status (put_r_Message e re) | None => re end.

Definition set_task (te : CmdTask) (re : CmdReplyTask) : am unit :=
  w ← deref te.(c_Task);
  let '(t, err) := Setup (config_parse (t_Payload w.(tk))) w (task_vars w) zero_atask in
  match err with
  | Some e => go (GPublish (fault FaultSetTask (Some e) re))
  | None =>
      err ← Agent_SetTask t;
      go (GPublish (put_r_Status SuccessSetTask (fault FaultSetTask err re)))
  end.

Definition start_task (te : CmdTask) (re : CmdReplyTask) : am unit :=
  w ← deref te.(c_Task);
  '(t, err) ← Agent_GetTask (pretty (t_ID w.(tk)));
  err ← match err with Some e => mret (Some e) | None => ScheduleTask t end;
  go (GPublish (put_r_Status SuccessSetTask (fault FaultTriggerTask err re))).

Definition input_task (te : CmdTask) (re : CmdReplyTask) : am unit :=
  w ← deref te.(c_Task);
  go (GPublish (put_r_TaskID (t_ID w.(tk)) (put_r_Status SuccessReceiveInputTaskCmd re)));;
  '(t, _) ← Agent_GetTask (pretty (t_ID w.(tk)));
  if bool_decide (t.(at_ID) = "") then mret tt
  else go (GRunTrigger (put_at_logger true (put_at_Agent true t)) te).

(** [workflow.Result] of an error. *)
Definition error_result (e : string) : Result := mkResult false e 0 0 0 0 0.

Definition run_sync (te : CmdTask) (re : CmdReplyTask) : am unit :=
  w ← deref te.(c_Task);
  '(t, _) ← Agent_GetTask (pretty (t_ID w.(tk)));
  '(result, err) ← Task_RunSync (put_at_Agent true t) te;
  hub_Publish (put_r_Result (match err with Some e => Some (error_result e) | None => result end) re).

Definition set_broker (te : CmdTask) (re : CmdReplyTask) : am unit :=
  match te.(c_Broker) with
  | None => mret tt
  | Some b =>
      let re := put_r_BrokerID (b_ID b.(bo)) (put_r_Status SuccessSetBroker re) in
      err ← store (fun c => SetBroker c b);
      match err with
      | Some e => hub_Publish (fault FaultSetBroker (Some e) re)
      | None =>
          match b_Template b.(bo) with
          | None =>
              let re := fault FaultSetBroker (Some "template empty") re in
              hub_Publish re;;
              hub_Publish re
          | Some t =>
              missing ← find_functions t.(FuncNotFound);
              match missing with
              | Some f =>
                  name ← gets ag_ClientName;
                  let re := fault FaultSetBroker (Some ("function " +:+ f +:+ " not found in broker " +:+
                              b_Name b.(bo) +:+ " on client " +:+ name)) re in
                  hub_Publish re;;
                  hub_Publish re
              | None => go (GSetupBroker b);; hub_Publish re
              end
          end
      end
  end.

Definition destroy_wf (te : CmdTask) (re : CmdReplyTask) : am unit :=
  err ← Agent_DeleteWorkflow te.(c_WorkflowID);
  hub_Publish (fault FaultDestroyWorkflow err (put_r_Status SuccessDestroyWorkflow re)).

Definition trigger_cmd (te : CmdTask) (re : CmdReplyTask) : am unit :=
  let re := put_r_WorkflowID te.(c_WorkflowID) (put_r_Status SuccessTrigger re) in
  re ← match te.(c_Trigger) with
       | None => mret re
       | Some tr =>
           err ← store (fun c => SetTrigger c tr);
           match err with
           | Some _ => mret (put_r_Status FaultTrigger re)
           | None => go (GTrigger tr);; mret re
           end
       end;
  go (GPublish re).

(** One command of [handleTaskEvent]. *)
Definition handle_cmd (te : CmdTask) : am unit :=
  let re := reply_of te in
  let cmd := te.(c_Cmd) in
  if bool_decide (cmd = SetTaskCmd) then set_task te (put_r_Cmd ReplySetTaskCmd re)
  else if bool_decide (cmd = TriggerStartTaskCmd) then start_task te (put_r_Cmd ReplyStartTaskCmd re)
  else if bool_decide (cmd = InputTaskCmd) then input_task te (put_r_Cmd ReplyInputTaskCmd re)
  else if bool_decide (cmd = RequestTaskRunSyncCmd) then run_sync te (put_r_Cmd ReplyRequestTaskSyncCmd re)
  else if bool_decide (cmd = SetBrokerCmd) then set_broker te (put_r_Cmd ReplySetBrokerCmd re)
  else if bool_decide (cmd = RequestDestroyWf) then destroy_wf te (put_r_Cmd ReplyDestroyWf re)
  else if bool_decide (cmd = TriggerCmd) then trigger_cmd te (put_r_Cmd ReplyTriggerCmd re)
  else mret tt.

(** What the hub makes of a publication: the error of the decoder is dropped, and
    the command is handed to [handleTaskEvent]. *)
Definition received (data : string) : CmdTask := (unmarshal data zero_cmd).1.

Definition handleTaskEvent (tes : list CmdTask) : am unit := for_all handle_cmd tes.

(** ** Scripts *)

Definition run_script (script : string) : am (option string) :=
  match vm_compile script with
  | Some e => mret (Some e)
  | None => fun s => let '(vm, err) := vm_run script s.(ag_vm) in (put_vm vm s, Returned err)
  end.

Fixpoint run_scripts (scripts : list string) : am (option string) :=
  match scripts with
  | [] => mret None
  | p :: ps => err ← run_script p; match err with Some e => mret (Some e) | None => run_scripts ps end
  end.

(** [setupScripts]: the agent always has a [Script], so the scripts run in the
    machine there is. *)
Definition setupScripts : am (option string) :=
  '(scripts, err) ← store GetScripts;
  match err with
  | Some e => mret (Some e)
  | None => run_scripts scripts
  end.

Definition SetupScript (name script : string) : am (option string) :=
  err ← run_script script;
  match err with
  | Some e => mret (Some e)
  | None => store (fun c => SetScript c name script)
  end.

Definition dropScript (name : string) : am (option string) :=
  err ← store (fun c => DeleteScript c name);
  match err with
  | Some e => mret (Some e)
  | None => setupScripts
  end.

(** ** Starting and stopping *)

Definition scheduleTasks : am (option string) :=
  '(tasks, err) ← store (fun c => GetTasks c None);
  match err with
  | Some e => mret (Some e)
  | None =>
      r ← sched (fun sc => let '(sc, ran, ok) := Sched_Start tasks sc in (sc, (ran, ok)));
      for_all Task_Run r.1;;
      mret None
  end.

(** [Hub.HandleConnectServer]; the client is kept when connecting fails. *)
Definition HandleConnectServer (a : Auth) : am (option string) :=
  modify (put_hub (mkHub true a.(au_ClientName) (ParseInt a.(au_UserID)) ("kairosdeamon-" +:+ a.(au_ClientID))));;
  next_connect.

Definition IsConnect : am bool :=
  h ← gets ag_hub; if h.(h_Client) then next_state else mret false.

Definition initConnectServer : am unit :=
  '(token, err) ← store (fun c => GetMeta c "token");
  match err with
  | Some _ => mret tt
  | None =>
      '(name, _) ← store (fun c => GetMeta c "clientname");
      '(id, _) ← store (fun c => GetMeta c "client_id");
      '(user, _) ← store (fun c => GetMeta c "user_id");
      connected ← IsConnect;
      (if (connected : bool) then emit Disconnect else mret tt);;
      if bool_decide (token = "") then mret tt
      else
        modify (put_client id name);;
        HandleConnectServer (mkAuth token name id user);;
        mret tt
  end.

(** The event [ConnectServerCmd] of [handleEvent]; [false] when the loop ends.  The
    errors of the store are dropped, and the agent's own names stay. *)
Definition connect_event (auth : option Auth) : am bool :=
  match auth with
  | None => mret false
  | Some a =>
      store (fun c => SetMeta c "token" a.(au_Token));;
      store (fun c => SetMeta c "clientname" a.(au_ClientName));;
      store (fun c => SetMeta c "client_id" a.(au_ClientID));;
      store (fun c => SetMeta c "user_id" a.(au_UserID));;
      err ← HandleConnectServer a;
      mret (match err with Some _ => false | None => true end)
  end.

(** [Stop]; its wait for the jobs that still run is not modelled. *)
Definition Agent_Stop : am (option string) :=
  started ← gets (fun s => Started s.(ag_sched));
  (if (started : bool) then sched (fun sc => (Sched_Stop sc, tt)) else mret tt);;
  store (fun _ => Shutdown).

(** The goroutine of [StartServer]. *)
Definition start_stored : am unit := setupBrokers;; scheduleTasks;; mret tt.

(** [NewAgent] and [StartServer] on the store [st]. *)
Definition new_agent (now : Z) (st : Store) (v : Env) : Ag :=
  mkAg st NewScheduler (mkHub false "" 0 "") now ∅ ∅ ∅ ∅ vm_new "" "" v [].

(** ** Goroutines *)

(** The bodies; [HandleMessage] of a subscriber runs in [AgentBroker]. *)
Definition run_goroutine (g : goroutine) : am unit :=
  match g with
  | GPublish r => hub_Publish r
  | GLog wid l => hub_PublishLog wid l
  | GRunTask t => Task_Run t
  | GRunTrigger t re => Task_RunTrigger t re;; mret tt
  | GRun t ex re => Run t ex (Some re);; mret tt
  | GBroadcast r => Agent_Broadcast r
  | GSetupBroker b => setupBroker b;; mret tt
  | GHandleSub _ _ => mret tt
  | GTrigger tr => Agent_Trigger tr;; mret tt
  | GTopic r topic => emit (BroadcastTo topic r)
  end.

(** A job of the cron. *)
Definition run_job (j : ajob) : am unit :=
  match j with JTask t => Task_Run t | JBroker _ => Broker_Run end.

End Handlers.
