(* ===== verification/AgentProps.v ===== *)
(** What the agent answers to commands, and what becomes of it. *)

From stdpp Require Import pretty strings.
From S2P Require Import Prelude GoStrings Names Template Compile Value Interp WorkerData Scheduler AgentBolt AgentData AgentStore AgentStoreInv AgentStoreSound AgentSched Agent AgentHandlers.

#[local] Open Scope Z_scope.

Section Props.
Context {E : Engine} {B : Bolt} {T : GoTime} {C : Cron ajob}.
Context {CT : Codec ATask} {CB : Codec BrokerObj} {CE : Codec Execution}
        {CR : Codec BrokerRecordLocal} {CG : Codec Trigger} {CC : Codec CmdTask} {CP : Codec CmdReplyTask}.
Context {V : AgentEnv}.

(** ** What a program emits *)

Definition result {A} (r : called A) : option A := match r with Returned a => Some a | _ => None end.

(** [x] adds effects [es] to the list, as [Q] says of them and of the value [x]
    returns, if it does. *)
Definition emits {A} (x : am A) (Q : list effect -> option A -> Prop) : Prop :=
  forall s, exists es, (x s).1.(ag_out) = s.(ag_out) ++ es /\ Q es (result (x s).2).

Definition quiet {A} (x : am A) : Prop := emits x (fun es _ => es = []).

Lemma emits_mono {A} (x : am A) (Q Q' : list effect -> option A -> Prop) :
  emits x Q -> (forall es r, Q es r -> Q' es r) -> emits x Q'.
Proof. intros H HQ s. destruct (H s) as (es & He & Hq). eauto. Qed.

Lemma emits_bind {A A'} (x : am A) (f : A -> am A') (P : list effect -> option A -> Prop)
    (Q : list effect -> option A' -> Prop) :
  emits x P -> (forall es, P es None -> Q es None) ->
  (forall a es, P es (Some a) -> emits (f a) (fun es' r => Q (es ++ es') r)) -> emits (x ≫= f) Q.
Proof.
  intros Hx Hn Hf s. destruct (Hx s) as (es & He & Hp). unfold mbind, am_bind.
  destruct (x s) as [s1 [a| |p|]]; simpl in *; [|by exists es; auto..].
  destruct (Hf a es Hp s1) as (es' & He' & Hq). exists (es ++ es'). split; [|done].
  by rewrite He', He, <- app_assoc.
Qed.

Lemma emits_quiet {A A'} (x : am A) (f : A -> am A') (Q : list effect -> option A' -> Prop) :
  quiet x -> Q [] None -> (forall a, emits (f a) Q) -> emits (x ≫= f) Q.
Proof. intros Hx Hn Hf. eapply emits_bind; [exact Hx|by intros es ->|]. intros a es ->. apply Hf. Qed.

Lemma emits_ret {A} (a : A) (Q : list effect -> option A -> Prop) : Q [] (Some a) -> emits (mret a) Q.
Proof. intros H s. exists []. by rewrite app_nil_r. Qed.

Lemma emits_emit e (Q : list effect -> option unit -> Prop) : Q [e] (Some tt) -> emits (emit e) Q.
Proof. intros H s. by exists [e]. Qed.

Lemma quiet_bind {A A'} (x : am A) (f : A -> am A') : quiet x -> (forall a, quiet (f a)) -> quiet (x ≫= f).
Proof. intros Hx Hf. by apply (emits_quiet _ _ _ Hx). Qed.

Lemma quiet_ret {A} (a : A) : quiet (mret a).
Proof. by apply emits_ret. Qed.

Lemma quiet_gets {A} (f : Ag -> A) : quiet (gets f).
Proof. intros s. exists []. by rewrite app_nil_r. Qed.

Lemma quiet_modify f : (forall s, (f s).(ag_out) = s.(ag_out)) -> quiet (modify f).
Proof. intros H s. exists []. rewrite app_nil_r. split; [apply H|done]. Qed.

Lemma quiet_crash {A} p : quiet (am_crash (A:=A) p).
Proof. intros s. exists []. by rewrite app_nil_r. Qed.

Lemma quiet_tick : quiet tick.
Proof. intros s. exists []. by rewrite app_nil_r. Qed.

Lemma quiet_store {A} f : quiet (store (A:=A) f).
Proof. intros s. exists []. unfold store. destruct (f _ _). by rewrite app_nil_r. Qed.

Lemma quiet_sched {A} f : quiet (sched (A:=A) f).
Proof. intros s. exists []. unfold sched. destruct (f _). by rewrite app_nil_r. Qed.

Lemma quiet_deref {A} (x : option A) : quiet (deref x).
Proof. destruct x; [apply quiet_ret|apply quiet_crash]. Qed.

#[local] Hint Resolve quiet_bind quiet_ret quiet_gets quiet_crash quiet_tick quiet_store quiet_sched quiet_deref : quiet.
#[local] Hint Extern 1 (quiet (modify _)) => (apply quiet_modify; done) : quiet.

Ltac quiet_steps :=
  repeat match goal with
  | |- quiet (_ ≫= _) => apply quiet_bind; [|intros ?]
  | |- quiet (let '(_, _) := ?x in _) => destruct x
  | |- quiet (match ?x with _ => _ end) => destruct x
  | |- quiet (if ?x then _ else _) => destruct x
  | |- quiet _ => solve [auto with quiet]
  end.

Lemma quiet_nextCnt : quiet nextCnt.
Proof. unfold nextCnt. quiet_steps. Qed.

Lemma quiet_getGroup w : quiet (getGroup w).
Proof. apply quiet_bind; [apply quiet_nextCnt|intros ?]. quiet_steps. Qed.

Lemma quiet_getPart p w i k : quiet (getPart p w i k).
Proof.
  unfold getPart. destruct (bool_decide _); [apply quiet_bind; [apply quiet_nextCnt|intros ?]; quiet_steps|].
  apply quiet_bind; [apply quiet_gets|intros m]. destruct (m !! _); [apply quiet_ret|].
  apply quiet_bind; [apply quiet_nextCnt|intros ?]. quiet_steps.
Qed.

#[local] Hint Resolve quiet_nextCnt quiet_getGroup quiet_getPart : quiet.

Lemma quiet_SaveExecutorResult e : quiet (SaveExecutorResult e).
Proof. unfold SaveExecutorResult. quiet_steps. Qed.
#[local] Hint Resolve quiet_SaveExecutorResult : quiet.

Lemma quiet_RunSync t ex re : quiet (RunSync t ex re).
Proof. unfold RunSync. quiet_steps. Qed.
#[local] Hint Resolve quiet_RunSync : quiet.

Lemma quiet_Task_RunSync t re : quiet (Task_RunSync t re).
Proof. unfold Task_RunSync, with_task. quiet_steps. Qed.

Lemma quiet_store_SetTask t : quiet (store_SetTask t).
Proof. unfold store_SetTask. quiet_steps. Qed.

Lemma quiet_GetTask id : quiet (Agent_GetTask id).
Proof. apply quiet_store. Qed.
#[local] Hint Resolve quiet_Task_RunSync quiet_store_SetTask quiet_GetTask : quiet.

(** ** Replies *)

Definition is_reply (e : effect) : option CmdReplyTask :=
  match e with Publish r | Go (GPublish r) => Some r | _ => None end.

Definition replies (es : list effect) : list CmdReplyTask := omap is_reply es.

Lemma replies_after es es' : replies es = [] -> replies (es ++ es') = replies es'.
Proof. unfold replies. intros H. by rewrite omap_app, H. Qed.

(** The command a reply has to have. *)
Definition reply_cmd (cmd : Z) : Z :=
  if bool_decide (cmd = SetTaskCmd) then ReplySetTaskCmd
  else if bool_decide (cmd = TriggerStartTaskCmd) then ReplyStartTaskCmd
  else if bool_decide (cmd = InputTaskCmd) then ReplyInputTaskCmd
  else if bool_decide (cmd = RequestTaskRunSyncCmd) then ReplyRequestTaskSyncCmd
  else if bool_decide (cmd = SetBrokerCmd) then ReplySetBrokerCmd
  else if bool_decide (cmd = RequestDestroyWf) then ReplyDestroyWf
  else ReplyTriggerCmd.

(** [r] answers [te]: the fields the server finds the request by. *)
Record answers (te : CmdTask) (r : CmdReplyTask) : Prop := {
  an_Cmd : r.(r_Cmd) = reply_cmd te.(c_Cmd);
  an_DeliverID : r.(r_DeliverID) = te.(c_DeliverID);
  an_Group : r.(r_Group) = te.(c_Group);
  an_Channel : r.(r_Channel) = te.(c_Channel);
  an_Part : r.(r_Part) = te.(c_Part);
  an_Parent : r.(r_Parent) = te.(c_Parent);
  an_FinishPart : r.(r_FinishPart) = true
}.

(** A command of the seven that is not a broker's without a broker. *)
Definition answerable (te : CmdTask) : bool :=
  bool_decide (0 <= te.(c_Cmd) <= 6)
  && (bool_decide (te.(c_Cmd) <> SetBrokerCmd) || bool_decide (is_Some te.(c_Broker))).

(** Every reply answers [te], all replies say the same, and there is one when the
    command was handled to the end. *)
Record answered (te : CmdTask) (es : list effect) (r : option unit) : Prop := {
  ad_answers : Forall (answers te) (replies es);
  ad_same : forall r1 r2, r1 ∈ replies es -> r2 ∈ replies es ->
    r1.(r_Status) = r2.(r_Status) /\ r1.(r_Message) = r2.(r_Message) /\ r1.(r_Result) = r2.(r_Result);
  ad_some : r = Some tt -> answerable te = true -> replies es <> []
}.

Lemma answered_nothing te : answered te [] None.
Proof. split; [constructor|by intros ? ? ?%elem_of_nil|done]. Qed.

Lemma answered_one te es rep r : replies es = [rep] -> answers te rep -> answered te es r.
Proof.
  intros He Ha. split; rewrite He; [by apply Forall_singleton| |done].
  by intros ? ? ->%list_elem_of_singleton ->%list_elem_of_singleton.
Qed.

Lemma answered_twice te es r1 r2 r :
  replies es = [r1; r2] -> answers te r1 -> answers te r2 -> r1.(r_Status) = r2.(r_Status) ->
  r1.(r_Message) = r2.(r_Message) -> r1.(r_Result) = r2.(r_Result) -> answered te es r.
Proof.
  intros He H1 H2 Hs Hm Hr. split; rewrite He; [by rewrite !Forall_cons, Forall_nil| |done].
  intros ? ?. rewrite !elem_of_cons. intros [->|[->|[]%elem_of_nil]] [->|[->|[]%elem_of_nil]]; done.
Qed.

Lemma emits_go g (Q : list effect -> option unit -> Prop) : Q [Go g] (Some tt) -> emits (go g) Q.
Proof. apply emits_emit. Qed.

Lemma emits_Publish rep (Q : list effect -> option unit -> Prop) :
  Q [] None -> (forall on now, Q [Publish (put_r_SendAt now (put_r_RunOn on rep))] (Some tt)) ->
  emits (hub_Publish rep) Q.
Proof.
  intros Hn HQ. apply emits_quiet; [apply quiet_gets|done|intros on].
  apply emits_quiet; [apply quiet_tick|done|intros now]. unfold with_client.
  apply emits_quiet; [apply quiet_gets|done|intros h]. destruct (h_Client h); [by apply emits_emit|].
  intros s. exists []. by rewrite app_nil_r.
Qed.

(** Replies made of [reply_of te]. *)
Ltac answers_solve Hc := split; unfold reply_of, fault; rewrite ?Hc;
  repeat match goal with |- context [match ?x with _ => _ end] => destruct x end; reflexivity.

Lemma set_task_answered te :
  te.(c_Cmd) = SetTaskCmd -> emits (set_task te (put_r_Cmd ReplySetTaskCmd (reply_of te))) (answered te).
Proof.
  intros Hc. apply emits_quiet; [apply quiet_deref|apply answered_nothing|intros w].
  destruct (Setup _ _ _ _) as [t [e|]].
  - apply emits_go. eapply answered_one; [done|answers_solve Hc].
  - apply emits_quiet; [unfold Agent_SetTask; quiet_steps|apply answered_nothing|intros err].
    apply emits_go. eapply answered_one; [done|answers_solve Hc].
Qed.

(** [ScheduleTask] of a task that is not run here. *)
Lemma ScheduleTask_emits t : emits (ScheduleTask t) (fun es _ => replies es = []).
Proof.
  unfold ScheduleTask, sched_AddTask. destruct (bool_decide_reflect (at_Schedule (put_at_Agent true t) = "")) as [Hs|Hs].
  - destruct (bool_decide _); [by apply emits_ret|].
    eapply emits_bind; [by apply emits_go with (Q := fun es _ => replies es = [])|done|].
    intros [] es He. apply emits_ret. by rewrite app_nil_r.
  - intros s. unfold mbind, am_bind, sched. exists [].
    destruct (AddTask (put_at_Agent true t) (ag_sched s)) as [sc r] eqn:Ea.
    assert (r <> FRun) as Hr.
    { intros ->. revert Ea. unfold AddTask. rewrite (bool_decide_false _ Hs). simpl.
      destruct (at_Disabled t); [done|]. unfold add_job. by destruct (AddJob _ _ _) as [[]|]. }
    destruct r; [done|..]; simpl; by rewrite app_nil_r.
Qed.

Lemma start_task_answered te :
  te.(c_Cmd) = TriggerStartTaskCmd -> emits (start_task te (put_r_Cmd ReplyStartTaskCmd (reply_of te))) (answered te).
Proof.
  intros Hc. apply emits_quiet; [apply quiet_deref|apply answered_nothing|intros w].
  apply emits_quiet; [apply quiet_store|apply answered_nothing|intros [t e]].
  eapply (emits_bind _ _ (fun es _ => replies es = [])).
  - destruct e; [by apply emits_ret|apply ScheduleTask_emits].
  - intros es He. split; rewrite He; [constructor|by intros ? ? ?%elem_of_nil|done].
  - intros err es He. apply emits_go. eapply answered_one; [by rewrite replies_after|answers_solve Hc].
Qed.

Lemma input_task_answered te :
  te.(c_Cmd) = InputTaskCmd -> emits (input_task te (put_r_Cmd ReplyInputTaskCmd (reply_of te))) (answered te).
Proof.
  intros Hc. apply emits_quiet; [apply quiet_deref|apply answered_nothing|intros w].
  eapply (emits_bind _ _ (fun es _ => es = [Go (GPublish _)])); [by apply emits_go| |].
  { intros es ->. eapply answered_one; [done|answers_solve Hc]. }
  intros [] es ->. apply emits_quiet; [apply quiet_store|eapply answered_one; [done|answers_solve Hc]|intros [t e]].
  destruct (bool_decide _); [apply emits_ret|apply emits_go]; (eapply answered_one; [done|answers_solve Hc]).
Qed.

Lemma run_sync_answered te :
  te.(c_Cmd) = RequestTaskRunSyncCmd ->
  emits (run_sync te (put_r_Cmd ReplyRequestTaskSyncCmd (reply_of te))) (answered te).
Proof.
  intros Hc. apply emits_quiet; [apply quiet_deref|apply answered_nothing|intros w].
  apply emits_quiet; [apply quiet_store|apply answered_nothing|intros [t e]].
  apply emits_quiet; [apply quiet_Task_RunSync|apply answered_nothing|intros [res err]].
  apply emits_Publish; [apply answered_nothing|intros on now]. eapply answered_one; [done|answers_solve Hc].
Qed.

Lemma quiet_find_functions fs : quiet (find_functions fs).
Proof.
  induction fs as [|f fs IH]; simpl; [apply quiet_ret|].
  apply quiet_bind; [unfold find_function; quiet_steps|intros []; [done|apply quiet_ret]].
Qed.

(** The same reply published twice. *)
Lemma publish_twice te rep :
  answers te rep -> emits (hub_Publish rep;; hub_Publish rep) (answered te).
Proof.
  intros Ha.
  assert (forall on now, answers te (put_r_SendAt now (put_r_RunOn on rep))) as Ha' by (by intros; destruct Ha).
  eapply (emits_bind _ _ (fun es r => match r with
                          | None => es = []
                          | Some _ => exists on now, es = [Publish (put_r_SendAt now (put_r_RunOn on rep))] end)).
  - apply emits_Publish; [done|]. intros on now. by exists on, now.
  - intros es ->. apply answered_nothing.
  - intros [] es (on & now & ->). apply emits_Publish; [by eapply answered_one|].
    intros on' now'. by eapply answered_twice.
Qed.

Lemma set_broker_answered te :
  te.(c_Cmd) = SetBrokerCmd -> emits (set_broker te (put_r_Cmd ReplySetBrokerCmd (reply_of te))) (answered te).
Proof.
  intros Hc. unfold set_broker. destruct (c_Broker te) as [b|] eqn:Eb.
  2: { apply emits_ret. split; [constructor|by intros ? ? ?%elem_of_nil|]. intros _.
       unfold answerable. rewrite Hc, Eb. intros H. by vm_compute in H. }
  apply emits_quiet; [apply quiet_store|apply answered_nothing|intros [e|]].
  { apply emits_Publish; [apply answered_nothing|intros on now]. eapply answered_one; [done|answers_solve Hc]. }
  destruct (b_Template (bo b)) as [t|]; [|apply publish_twice; answers_solve Hc].
  apply emits_quiet; [apply quiet_find_functions|apply answered_nothing|intros [f|]].
  - apply emits_quiet; [apply quiet_gets|apply answered_nothing|intros name]. apply publish_twice. answers_solve Hc.
  - eapply (emits_bind _ _ (fun es _ => es = [Go (GSetupBroker b)])); [by apply emits_go| |].
    + intros es ->. split; [constructor|by intros ? ? ?%elem_of_nil|done].
    + intros [] es ->. apply emits_Publish.
      * split; [constructor|by intros ? ? ?%elem_of_nil|done].
      * intros on now. eapply answered_one; [done|answers_solve Hc].
Qed.

(** Nothing of this is a reply. *)
Definition silent {A} (x : am A) : Prop := emits x (fun es _ => replies es = []).

Lemma silent_quiet {A} (x : am A) : quiet x -> silent x.
Proof. intros H. eapply emits_mono; [exact H|by intros es r ->]. Qed.

Lemma silent_bind {A A'} (x : am A) (f : A -> am A') : silent x -> (forall a, silent (f a)) -> silent (x ≫= f).
Proof.
  intros Hx Hf. eapply emits_bind; [exact Hx|done|]. intros a es He. eapply emits_mono; [apply Hf|].
  intros es' r He'. simpl in *. unfold replies in *. by rewrite omap_app, He, He'.
Qed.

Lemma silent_for_all {A} (f : A -> am unit) l : (forall a, silent (f a)) -> silent (for_all f l).
Proof.
  intros Hf. induction l as [|a l IH]; simpl; [by apply silent_quiet, quiet_ret|].
  apply silent_bind; [apply Hf|by intros _].
Qed.

Lemma silent_DeleteWorkflow w : silent (Agent_DeleteWorkflow w).
Proof.
  apply silent_bind; [apply silent_quiet, quiet_store|intros [wfi [e|]]]; [apply silent_quiet, quiet_ret|].
  apply silent_bind; [|intros _; apply silent_bind; [|intros _; apply silent_quiet; quiet_steps]].
  - apply silent_for_all. intros bid. apply silent_bind; [apply silent_quiet, quiet_gets|].
    intros [sub|]; [by intros s; exists [DetachSub sub]|apply silent_quiet, quiet_ret].
  - apply silent_for_all. intros tid. apply silent_quiet. unfold Agent_DeleteTask. quiet_steps.
Qed.

Lemma destroy_wf_answered te :
  te.(c_Cmd) = RequestDestroyWf -> emits (destroy_wf te (put_r_Cmd ReplyDestroyWf (reply_of te))) (answered te).
Proof.
  intros Hc. eapply emits_bind; [apply silent_DeleteWorkflow| |].
  - intros es He. split; rewrite He; [constructor|by intros ? ? ?%elem_of_nil|done].
  - intros err es He. apply emits_Publish.
    + rewrite app_nil_r. split; rewrite He; [constructor|by intros ? ? ?%elem_of_nil|done].
    + intros on now. eapply answered_one; [by rewrite replies_after|answers_solve Hc].
Qed.

Lemma trigger_cmd_answered te :
  te.(c_Cmd) = TriggerCmd -> emits (trigger_cmd te (put_r_Cmd ReplyTriggerCmd (reply_of te))) (answered te).
Proof.
  intros Hc. unfold trigger_cmd. set (re := put_r_WorkflowID _ _).
  assert (answers te re) as Hre by (unfold re; answers_solve Hc).
  assert (forall v, answers te (put_r_Status v re)) as Hst by (by intros v; destruct Hre).
  eapply (emits_bind _ _ (fun es r => replies es = [] /\ forall re', r = Some re' -> answers te re')).
  - destruct (c_Trigger te) as [tr|]; [|by apply emits_ret; split; [|intros ? [= <-]]].
    apply emits_quiet; [apply quiet_store|done|intros [e|]]; [by apply emits_ret; split; [|intros ? [= <-]]|].
    eapply emits_bind; [by apply emits_go with (Q := fun es _ => replies es = [])|done|].
    intros [] es He. apply emits_ret. rewrite app_nil_r. split; [done|]. by intros ? [= <-].
  - intros es [He _]. split; rewrite He; [constructor|by intros ? ? ?%elem_of_nil|done].
  - intros re' es [He Ha]. apply emits_go. eapply answered_one; [by rewrite replies_after|by apply Ha].
Qed.

Lemma handle_answered te : emits (handle_cmd te) (answered te).
Proof.
  unfold handle_cmd.
  repeat (case_bool_decide; [by auto using set_task_answered, start_task_answered, input_task_answered,
    run_sync_answered, set_broker_answered, destroy_wf_answered, trigger_cmd_answered|]).
  apply emits_ret. split; [constructor|by intros ? ? ?%elem_of_nil|]. intros _ Ha. exfalso. revert Ha.
  unfold answerable, SetTaskCmd, TriggerStartTaskCmd, InputTaskCmd, RequestTaskRunSyncCmd, SetBrokerCmd,
    RequestDestroyWf, TriggerCmd in *. rewrite andb_true_iff, bool_decide_eq_true. lia.
Qed.

(** C34: whatever command the agent gets and in whatever state, every reply it sends
    or starts to send carries the fields by which the server finds the request
    (command, delivery, group, channel, part, parent) and is marked as the end of
    the part; when it sends more than one, they have the same status, message
    and result; and a command that was handled to its end was answered, unless
    it set a broker and carried none. *)
Theorem replies_answer_command te s :
  exists es, (handle_cmd te s).1.(ag_out) = s.(ag_out) ++ es /\ Forall (answers te) (replies es) /\
    (forall r1 r2, r1 ∈ replies es -> r2 ∈ replies es ->
       r1.(r_Status) = r2.(r_Status) /\ r1.(r_Message) = r2.(r_Message) /\ r1.(r_Result) = r2.(r_Result)) /\
    ((handle_cmd te s).2 = Returned tt -> answerable te = true -> replies es <> []).
Proof.
  destruct (handle_answered te s) as (es & He & [H1 H2 H3]). exists es. split_and!; [done..|].
  intros Hr. apply H3. by rewrite Hr.
Qed.

End Props.
