(* ===== verification/AgentServes.v ===== *)
(** The agent serves commands: on a connected agent whose store is in order,
    commands that carry what they need are handled to their end and answered. *)

From stdpp Require Import pretty strings.
From S2P Require Import Prelude GoStrings Names Template Compile Value Interp WorkerData Scheduler AgentBolt AgentData AgentStore AgentStoreInv AgentStoreSound AgentSched Agent AgentHandlers AgentProps.

#[local] Open Scope Z_scope.

Section Serves.
Context {E : Engine} {B : Bolt} {T : GoTime} {C : Cron ajob}.
Context {CT : Codec ATask} {CB : Codec BrokerObj} {CE : Codec Execution}
        {CR : Codec BrokerRecordLocal} {CG : Codec Trigger} {CC : Codec CmdTask} {CP : Codec CmdReplyTask}.
Context {V : AgentEnv} {L : BoltLaws B} {J : StoreCodecs CT CR}.

(** ** Transactions that end *)

Definition returning {M A} (x : tx M A) : Prop :=
  forall m d, sound d -> wp x (fun r _ _ => returns r) m d.

Lemma returning_getTask id : returning (getTaskTxFunc id).
Proof. intros m d S. unfold getTaskTxFunc. wp_steps. Qed.

Lemma returning_setBroker {M} b : returning (setBrokerTxFunc (M:=M) b).
Proof.
  intros m d S. unfold setBrokerTxFunc. wp_steps. apply wp_put; [bucket_side..|intros e|wp_write W].
  - wp_steps. apply wp_put; [bucket_side..|done|by wp_write W].
  - assert (sound d') by frame W. wp_steps. apply wp_put; [bucket_side..|done|by wp_write W'].
Qed.

Lemma returning_setTrigger {M} tr : returning (setTrigger (M:=M) tr).
Proof. intros m d S. unfold setTrigger. wp_steps. apply wp_put; [bucket_side..|done|by wp_write W]. Qed.

Lemma returning_setTask now : returning (setTaskTxFunc now).
Proof.
  intros m d S. unfold setTaskTxFunc. wp_steps.
  apply wp_put; [bucket_side..|done|wp_write W]. pose proof (index_put _ _ _ _ _ ltac:(eassumption) W).
  wp_steps. all: apply wp_put; [bucket_side..|done|by wp_write W'].
Qed.

Lemma returning_deleteTask {M} id : returning (M:=M) (deleteTaskTxFunc id;; deleteExecutionsTxFunc id).
Proof.
  intros m d S. apply wp_bind. eapply wp_mono; [by apply deleteTask_effect|].
  intros [[]|e|p|] m' d' [Hr G]; try done. pose proof (tg_sound _ _ _ G) as S'.
  unfold deleteExecutionsTxFunc. wp_steps. by apply wp_drop; [bucket_side|..].
Qed.

(** What [GetWorkflow] collects: all tasks, and the first broker. *)
Definition workflow_info (w : string) (d : db) : WorkflowInfo :=
  mkWorkflowInfo (ParseInt <$> (sorted_entries (content d (wf_tasks w))).*1)
    (ParseInt <$> take 1 (sorted_entries (content d (wf_brokers w))).*1).

Lemma getWorkflow_spec w d :
  sound d ->
  wp (getWorklowTxFunc w)
    (fun r m d' => grown d d' /\
       (r = Done tt /\ m = workflow_info w d \/
        (exists e, r = Failed e) /\ m = mkWorkflowInfo [] [] /\ key_fits w = false))
    (mkWorkflowInfo [] []) d.
Proof.
  intros S. apply wp_bind, open_workflow_spec; [done|by naive_solver|]. intros d' G (O1 & O2 & O3). cbn [negb].
  pose proof (sound_grown _ _ S G) as S'. apply wp_bind, wp_entries; [done|].
  assert (cursor d' (wf_tasks w) = sorted_entries (content d (wf_tasks w))) as Ht.
  { rewrite cursor_content by (first [by eapply so_layout|done]). by rewrite (gr_content _ _ G). }
  assert (cursor d' (wf_brokers w) = sorted_entries (content d (wf_brokers w))) as Hb.
  { rewrite cursor_content by (first [by eapply so_layout|done]). by rewrite (gr_content _ _ G). }
  apply wp_bind, (wp_for_each _ _ _ (fun todo m d1 => d1 = d' /\ m.(BrokerIDs) = [] /\
    m.(TaskIDs) ++ (ParseInt <$> todo.*1) = ParseInt <$> (cursor d' (wf_tasks w)).*1)).
  - done.
  - intros k v todo m d1 (-> & H1 & H2). apply wp_bind, wp_bind, wp_load, wp_save, wp_still; [done| |done].
    intros _. split_and!; [done|done|]. simpl. rewrite <- H2, <- app_assoc. done.
  - intros [ts bs] d1 (-> & H1 & H2). simpl in H1, H2. rewrite app_nil_r in H2. subst ts bs.
    apply wp_bind, wp_entries; [done|]. unfold workflow_info. rewrite <- Ht, <- Hb.
    destruct (cursor d' (wf_brokers w)) as [|[k v] rest]; [by apply wp_ret; auto|].
    apply wp_bind, wp_bind, wp_load, wp_save, wp_still; [done| |done]. auto.
Qed.

(** ** Calls of the store that return *)

(** [f] returns, and leaves a store in order. *)
Definition store_serves {A} (f : option string -> Store -> Store * called A) : Prop :=
  forall c st, s_ok st -> s_ok (f c st).1 /\ exists a, (f c st).2 = Returned a.

Lemma Begin_returns {M} c (x : tx M unit) (m : M) st :
  returning x -> s_ok st -> exists e, (Begin true c x m st).2.2 = Returned e.
Proof.
  intros Hx [Ho S]. unfold Begin. rewrite Ho. destruct (s_closed st); [by eexists|].
  specialize (Hx m _ S). unfold wp in Hx. destruct (x m (s_db st)) as [[[a|e|p|] m'] d']; try done; [|by eexists].
  destruct c; by eexists.
Qed.

Lemma session_serves {M A} (f : option string -> Store -> Store * called A) (o : store_op) (x : tx M unit) (m : M)
    (g : M -> option string -> A) :
  (forall c st, f c st = let '(st', (m', r)) := Begin true c x m st in (st', g m' <$> r)) ->
  (forall c st, (f c st).1 = (store_call c o st).1) -> op_fits o = true -> returning x -> store_serves f.
Proof.
  intros Hf Ho Hfit Hx c st S. split; [rewrite Ho; by apply store_call_ok|]. rewrite Hf.
  destruct (Begin_returns c x m st Hx S) as [e He]. destruct (Begin true c x m st) as [st' [m' r]]. simpl in *.
  subst r. by eexists.
Qed.

Ltac session := intros c st; try reflexivity; simpl;
  unfold forget, error_only, GetTask, SetTask, SetBroker, SetTrigger, DeleteTask, GetWorkflow, Update;
  destruct (Begin _ _ _ _ _) as [? [? []]]; reflexivity.

Lemma serves_GetTask id : store_serves (fun c => GetTask c id).
Proof. apply (session_serves _ (OGetTask id) (getTaskTxFunc id) zero_atask (fun t _ => (t, None))); [session..|done|apply returning_getTask]. Qed.

Lemma serves_SetTask now t : store_serves (fun c s => let '(s, (t, r)) := SetTask c now t s in (s, (fun e => (t, e)) <$> r)).
Proof. apply (session_serves _ (OSetTask now t) (setTaskTxFunc now) t pair); [session..|done|apply returning_setTask]. Qed.

Lemma serves_SetBroker b : store_serves (fun c => SetBroker c b).
Proof. apply (session_serves _ (OSetBroker b) (setBrokerTxFunc b) tt (fun _ e => e)); [session..|done|apply returning_setBroker]. Qed.

Lemma serves_SetTrigger tr : store_serves (fun c => SetTrigger c tr).
Proof. apply (session_serves _ (OSetTrigger tr) (setTrigger tr) tt (fun _ e => e)); [session..|done|apply returning_setTrigger]. Qed.

Lemma serves_DeleteTask id : store_serves (fun c => DeleteTask c id).
Proof. apply (session_serves _ (ODeleteTask id) (deleteTaskTxFunc id;; deleteExecutionsTxFunc id) tt (fun _ _ => None)); [session..|done|apply returning_deleteTask]. Qed.

Lemma serves_GetWorkflow w : store_serves (fun c => GetWorkflow c w).
Proof.
  intros c st S. split; [exact (proj1 (store_call_ok c (OGetWorkflow w) st eq_refl S))|].
  destruct S as [Ho S]. pose proof (getWorkflow_spec w _ S) as Hw. unfold wp in Hw.
  unfold GetWorkflow, Update, Begin. rewrite Ho. destruct (s_closed st); [by eexists|].
  destruct (getWorklowTxFunc w _ _) as [[r m'] d']. simpl in Hw.
  destruct Hw as [_ [[-> _]|((e & ->) & _)]]; [destruct c|]; by eexists.
Qed.

(** ** Programs of the agent that return *)

Definition ready (s : Ag) : Prop := s_ok s.(ag_store) /\ s.(ag_hub).(h_Client) = true.

(** Where [P] holds, [x] returns, and [Q] holds then. *)
Definition leads {A} (P : Ag -> Prop) (x : am A) (Q : Ag -> Prop) : Prop :=
  forall s, P s -> (exists a, (x s).2 = Returned a) /\ Q (x s).1.
Definition serves_in {A} (I : Ag -> Prop) (x : am A) : Prop := leads I x I.

Lemma leads_bind {A A'} P Q R (x : am A) (f : A -> am A') :
  leads P x Q -> (forall a, leads Q (f a) R) -> leads P (x ≫= f) R.
Proof.
  intros Hx Hf s H. destruct (Hx s H) as [[a Ha] H']. unfold mbind, am_bind.
  destruct (x s) as [s' r]. simpl in Ha, H'. subst r. by apply Hf.
Qed.

Lemma serves_in_bind {A A'} I (x : am A) (f : A -> am A') :
  serves_in I x -> (forall a, serves_in I (f a)) -> serves_in I (x ≫= f).
Proof. apply leads_bind. Qed.

Lemma serves_in_for_all {A} I (f : A -> am unit) l : (forall a, serves_in I (f a)) -> serves_in I (for_all f l).
Proof.
  intros Hf. induction l as [|a l IH]; simpl; [by intros s R; split; [eexists|]|].
  apply serves_in_bind; [apply Hf|by intros _].
Qed.

Definition serves {A} (x : am A) : Prop := serves_in ready x.

Lemma serves_bind {A A'} (x : am A) (f : A -> am A') : serves x -> (forall a, serves (f a)) -> serves (x ≫= f).
Proof. apply serves_in_bind. Qed.

Lemma serves_ret {A} (a : A) : serves (mret a).
Proof. intros s R. split; [by eexists|done]. Qed.

Lemma serves_gets {A} (f : Ag -> A) : serves (gets f).
Proof. intros s R. split; [by eexists|done]. Qed.

Lemma serves_modify f : (forall s, (f s).(ag_store) = s.(ag_store) /\ (f s).(ag_hub) = s.(ag_hub)) -> serves (modify f).
Proof.
  intros H s R. split; [by eexists|]. unfold ready. simpl. by destruct (H s) as [-> ->].
Qed.

Lemma serves_tick : serves tick.
Proof. intros s R. split; [by eexists|done]. Qed.

Lemma serves_emit e : serves (emit e).
Proof. by apply serves_modify. Qed.

Lemma serves_store {A} (f : option string -> Store -> Store * called A) : store_serves f -> serves (store f).
Proof.
  intros Hf s [S Hc]. destruct (Hf (mjoin (head (v_commits (ag_env s)))) _ S) as [S' Hr]. unfold store, ready in *.
  destruct (f _ _) as [st r]. done.
Qed.

Lemma serves_sched {A} f : serves (sched (A:=A) f).
Proof. intros s R. unfold sched, ready in *. destruct (f _). split; [by eexists|done]. Qed.

Lemma serves_Publish r : serves (hub_Publish r).
Proof.
  apply serves_bind; [apply serves_gets|intros on]. apply serves_bind; [apply serves_tick|intros now].
  intros s R. unfold with_client. unfold mbind, am_bind, gets. destruct R as [S Hc]. simpl. rewrite Hc.
  by apply serves_emit.
Qed.

#[local] Hint Resolve serves_ret serves_gets serves_tick serves_emit serves_store serves_sched serves_Publish
  serves_GetTask serves_SetTask serves_SetBroker serves_SetTrigger serves_DeleteTask serves_GetWorkflow : serves.
#[local] Hint Extern 1 (serves (modify _)) => (apply serves_modify; done) : serves.
#[local] Hint Extern 1 (serves (go _)) => apply serves_emit : serves.

Ltac serve_steps :=
  repeat match goal with
  | |- serves (_ ≫= _) => apply serves_bind; [|intros ?]
  | |- serves (let '(_, _) := ?x in _) => destruct x
  | |- serves (match ?x with _ => _ end) => destruct x
  | |- serves (if ?x then _ else _) => destruct x
  | |- serves _ => solve [auto with serves]
  end.

Lemma serves_set_task te re w : te.(c_Task) = Some w -> serves (set_task te re).
Proof. intros Hw. unfold set_task, Agent_SetTask, store_SetTask. rewrite Hw. simpl. serve_steps. Qed.

(** A task with a schedule is not run by the scheduler's call. *)
Lemma AddTask_not_run t sc : t.(at_Schedule) <> "" -> (AddTask t sc).2 <> FRun.
Proof.
  intros Hs. unfold AddTask. rewrite (bool_decide_false _ Hs). simpl. destruct (at_Disabled t); [done|].
  unfold add_job. by destruct (AddJob _ _ _) as [[]|].
Qed.

Lemma serves_ScheduleTask t : serves (ScheduleTask t).
Proof.
  unfold ScheduleTask, sched_AddTask. destruct (bool_decide_reflect (at_Schedule (put_at_Agent true t) = "")) as [|Hs].
  { serve_steps. }
  intros s R. pose proof (AddTask_not_run _ (ag_sched s) Hs) as Hr.
  unfold mbind, am_bind, sched, ready in *. destruct (AddTask _ _) as [sc r]. simpl in *.
  destruct r; [done|..]; (split; [by eexists|done]).
Qed.
#[local] Hint Resolve serves_ScheduleTask : serves.

Lemma serves_start_task te re w : te.(c_Task) = Some w -> serves (start_task te re).
Proof. intros Hw. unfold start_task, Agent_GetTask. rewrite Hw. simpl. serve_steps. Qed.

Lemma serves_input_task te re w : te.(c_Task) = Some w -> serves (input_task te re).
Proof. intros Hw. unfold input_task, Agent_GetTask. rewrite Hw. simpl. serve_steps. Qed.

Lemma serves_find_functions fs : serves (find_functions fs).
Proof. induction fs as [|f fs IH]; simpl; unfold find_function; serve_steps. Qed.
#[local] Hint Resolve serves_find_functions : serves.

Lemma serves_set_broker te re : serves (set_broker te re).
Proof. unfold set_broker. serve_steps. Qed.

Lemma serves_trigger_cmd te re : serves (trigger_cmd te re).
Proof. unfold trigger_cmd. serve_steps. Qed.

(** ** Destroying a workflow *)

(** No task of the workflow [w] has the number of the workflow. *)
Definition unshared (w : string) (d : db) : Prop := content d (wf_tasks w) !! w = None.

Definition ready_for (w : string) (s : Ag) : Prop := ready s /\ unshared w s.(ag_store).(s_db).

(** What does not touch the store. *)
Lemma serves_in_for {A} w (x : am A) :
  serves x -> (forall s, (x s).1.(ag_store) = s.(ag_store)) -> serves_in (ready_for w) x.
Proof.
  intros Hx Hs s [R U]. destruct (Hx s R) as [Hr R']. split; [done|split; [done|]]. by rewrite Hs.
Qed.

Lemma store_serves_for {A} w (f : option string -> Store -> Store * called A) :
  store_serves f ->
  (forall c st, s_ok st -> unshared w st.(s_db) -> unshared w (f c st).1.(s_db)) -> serves_in (ready_for w) (store f).
Proof.
  intros Hf Hu s [R U]. destruct (serves_store f Hf s R) as [Hr R']. split; [done|split; [done|]].
  specialize (Hu (mjoin (head (v_commits (ag_env s)))) _ (proj1 R) U). unfold store in *. by destruct (f _ _).
Qed.

Lemma deleteTask_unshared w id m d :
  sound d -> unshared w d ->
  wp (deleteTaskTxFunc id;; deleteExecutionsTxFunc id) (fun _ (_ : unit) d' => unshared w d') m d.
Proof.
  intros S U. unfold unshared in *. apply wp_bind. eapply wp_mono; [by apply deleteTask_effect|].
  intros r m' d' [_ G]. assert (content d' (wf_tasks w) !! w = None) as U' by (by rewrite (tg_index _ _ _ G)).
  destruct r as [[]|e|p|]; try done. pose proof (tg_sound _ _ _ G) as S'. unfold deleteExecutionsTxFunc.
  wp_steps. apply wp_drop; [bucket_side|by rewrite (gr_content _ _ G0)|].
  intros _ d2 D. rewrite (content_dropped _ _ _ _ D), bool_decide_false; [by rewrite (gr_content _ _ G0)|].
  intros [l Hl]. done.
Qed.

Lemma Update_unshared {M} c w (x : tx M unit) m st :
  s_ok st -> wp x (fun _ _ d' => unshared w d') m st.(s_db) -> unshared w st.(s_db) ->
  unshared w (Begin true c x m st).1.(s_db).
Proof.
  intros [Ho S] Hw U. unfold Begin. rewrite Ho. destruct (s_closed st); [done|]. unfold wp in Hw.
  destruct (x m (s_db st)) as [[[a|e|p|] m'] d']; try done. by destruct c.
Qed.

Lemma GetWorkflow_unshared c w w' st :
  s_ok st -> unshared w st.(s_db) -> unshared w (GetWorkflow c w' st).1.(s_db).
Proof.
  intros S U. pose proof (proj2 S) as Sd.
  assert (unshared w (Begin true c (getWorklowTxFunc w') (mkWorkflowInfo [] []) st).1.(s_db)) as H.
  { apply Update_unshared; [done| |done]. eapply wp_mono; [by apply getWorkflow_spec|].
    intros r m d' [G _]. unfold unshared. by rewrite (gr_content _ _ G). }
  unfold GetWorkflow, Update in *. by destruct (Begin _ _ _ _ _) as [? []].
Qed.

Lemma DeleteTask_unshared c w id st :
  s_ok st -> unshared w st.(s_db) -> unshared w (DeleteTask c id st).1.(s_db).
Proof.
  intros S U. pose proof (Update_unshared c w _ tt st S (deleteTask_unshared w id tt _ (proj2 S) U) U) as H.
  unfold DeleteTask, Update in *. by destruct (Begin _ _ _ _ _) as [? []].
Qed.

Lemma DeleteWorkflow_returns c w st :
  s_ok st -> unshared w st.(s_db) ->
  s_ok (DeleteWorkflow c w st).1 /\ exists a, (DeleteWorkflow c w st).2 = Returned a.
Proof.
  intros S U. split; [exact (proj1 (store_call_ok c (ODeleteWorkflow w) st eq_refl S))|].
  destruct S as [Ho S]. pose proof (deleteWorkflow_spec w tt _ S) as Hd. unfold wp in Hd.
  unfold DeleteWorkflow, Update, Begin. rewrite Ho. destruct (s_closed st); [by eexists|].
  destruct (deleteWorkflowTxFunc w tt (s_db st)) as [[[a|e|p|] m'] d']; destruct Hd as [_ Hd]; simpl in Hd; try done.
  - destruct c; by eexists.
  - by eexists.
  - unfold unshared in U. rewrite U in Hd. by destruct Hd.
Qed.

Lemma GetWorkflow_lists c w st :
  s_ok st -> s_closed st = false -> key_fits w = true ->
  (GetWorkflow c w st).2 = Returned (workflow_info w st.(s_db), None).
Proof.
  intros [Ho S] Hc Hk. pose proof (getWorkflow_spec w _ S) as Hw. unfold wp in Hw.
  unfold GetWorkflow, Update, Begin. rewrite Ho, Hc.
  destruct (getWorklowTxFunc w _ _) as [[r m] d']. simpl in Hw.
  destruct Hw as [_ [[-> ->]|(_ & _ & Hk')]]; [by destruct c|congruence].
Qed.

Lemma am_bind_returned {A A'} (x : am A) (f : A -> am A') s s1 a :
  x s = (s1, Returned a) -> (x ≫= f) s = f a s1.
Proof. intros H. unfold mbind, am_bind. by rewrite H. Qed.

(** The brokers [GetWorkflow] hands to [DeleteWorkflow]. *)
Lemma GetWorkflow_brokers c w st wfi err :
  s_ok st -> (GetWorkflow c w st).2 = Returned (wfi, err) ->
  wfi.(BrokerIDs) = [] \/ wfi.(BrokerIDs) = (workflow_info w st.(s_db)).(BrokerIDs).
Proof.
  intros [Ho S]. pose proof (getWorkflow_spec w _ S) as Hw. unfold wp in Hw.
  unfold GetWorkflow, Update, Begin. rewrite Ho. destruct (s_closed st); [intros [= <- <-]; by left|].
  destruct (getWorklowTxFunc w _ _) as [[r m'] d']. simpl in Hw.
  destruct Hw as [_ [[-> ->]|((e & ->) & -> & _)]]; [destruct c|]; intros [= <- <-]; auto.
Qed.

(** The subscriber of the workflow's broker, if the agent has one, was not
    detached before, and [Detach] gets its lock. *)
Definition detachable (bids : list Z) (s : Ag) : Prop :=
  forall bid sub, bid ∈ bids -> s.(ag_brokerWfs) !! bid = Some sub ->
    detached sub s.(ag_out) = false /\ detach_waits (length s.(ag_out)) sub = false.

(** At most one broker is detached. *)
Lemma detach_served w bids :
  (length bids <= 1)%nat ->
  leads (fun s => ready_for w s /\ detachable bids s)
    (for_all (fun bid => sub ← getSubBroker bid; match sub with Some sub => detach sub | None => mret tt end) bids)
    (ready_for w).
Proof.
  intros Hl s [R D]. destruct bids as [|bid [|bid' bids]]; [by split; [eexists|]| |simpl in Hl; lia].
  cbn [for_all]. unfold mbind, am_bind, getSubBroker, gets. destruct (ag_brokerWfs s !! bid) as [sub|] eqn:Hs;
    [|by split; [eexists|]].
  destruct (D bid sub) as [Hd Hw]; [by left|done|]. unfold detach. rewrite Hw, Hd. split; [by eexists|exact R].
Qed.

Lemma DeleteWorkflow_served w :
  leads (fun s => ready_for (pretty w) s /\ detachable (workflow_info (pretty w) s.(ag_store).(s_db)).(BrokerIDs) s)
    (Agent_DeleteWorkflow w) ready.
Proof.
  intros s [R D]. unfold Agent_DeleteWorkflow.
  assert (Hserves : serves_in (ready_for (pretty w)) (store (fun c => GetWorkflow c (pretty w)))).
  { apply store_serves_for; [apply serves_GetWorkflow|]. intros. by apply GetWorkflow_unshared. }
  destruct (Hserves s R) as [[[wfi err] Hr] R1].
  assert (Hb : detachable wfi.(BrokerIDs) (store (fun c => GetWorkflow c (pretty w)) s).1 /\ (length wfi.(BrokerIDs) <= 1)%nat).
  { unfold store in *. pose proof (GetWorkflow_brokers (mjoin (head (v_commits (ag_env s)))) (pretty w) (ag_store s) wfi err
      (proj1 (proj1 R))) as Hb. destruct (GetWorkflow _ _ _) as [st r]. simpl in *. destruct (Hb Hr) as [-> | ->].
    - split; [by intros bid sub ?%elem_of_nil|simpl; lia].
    - split; [exact D|]. unfold workflow_info. simpl. rewrite length_fmap, length_take. lia. }
  destruct (store (fun c => GetWorkflow c (pretty w)) s) as [s1 r] eqn:Es. simpl in Hr, R1, Hb. subst r.
  rewrite (am_bind_returned _ _ _ _ _ Es). destruct Hb as [D1 Hlen].
  destruct err as [e|]; [destruct R1 as [R1 _]; split; [by eexists|exact R1]|].
  refine (leads_bind _ _ _ _ _ (detach_served (pretty w) (BrokerIDs wfi) Hlen) _ s1 (conj R1 D1)).
  intros _. eapply leads_bind.
  - apply serves_in_for_all. intros tid. apply serves_in_bind; [apply serves_in_bind|].
    + apply serves_in_for; [apply serves_sched|done].
    + intros _. apply store_serves_for; [apply serves_DeleteTask|]. intros. by apply DeleteTask_unshared.
    + intros _. apply serves_in_for; [apply serves_ret|done].
  - intros _. eapply (leads_bind _ ready); [|intros a; apply serves_ret]. intros s2 [[S Hc] U].
    destruct (DeleteWorkflow_returns (mjoin (head (v_commits (ag_env s2)))) (pretty w) _ S U) as [S' Hr2].
    unfold store, ready. by destruct (DeleteWorkflow _ _ _).
Qed.

(** A command with what its handler reads, other than a synchronous run.  The
    buckets of bolt are not to be changed while a cursor walks them: a workflow
    is destroyed when no task has its number; and when its broker has a
    subscriber, this one is detached for the first time and its lock is free. *)
Definition servable (te : CmdTask) (s : Ag) : Prop :=
  answerable te = true /\
  (te.(c_Cmd) ∈ [SetTaskCmd; TriggerStartTaskCmd; InputTaskCmd] -> is_Some te.(c_Task)) /\
  te.(c_Cmd) <> RequestTaskRunSyncCmd /\
  (te.(c_Cmd) = RequestDestroyWf ->
     unshared (pretty te.(c_WorkflowID)) s.(ag_store).(s_db) /\
     detachable (workflow_info (pretty te.(c_WorkflowID)) s.(ag_store).(s_db)).(BrokerIDs) s).

Lemma servable_served te s :
  ready s -> servable te s -> (exists a, (handle_cmd te s).2 = Returned a) /\ ready (handle_cmd te s).1.
Proof.
  intros R (Ha & Ht & Hs & Hd). unfold handle_cmd.
  repeat (case_bool_decide as Hc; [|clear Hc]).
  - destruct Ht as [w Hw]; [rewrite Hc; set_solver|]. by eapply serves_set_task.
  - destruct Ht as [w Hw]; [rewrite Hc; set_solver|]. by eapply serves_start_task.
  - destruct Ht as [w Hw]; [rewrite Hc; set_solver|]. by eapply serves_input_task.
  - done.
  - by apply serves_set_broker.
  - destruct (Hd Hc) as [U D].
    eapply leads_bind; [apply DeleteWorkflow_served|intros err; apply serves_Publish|by split; [split|]].
  - by apply serves_trigger_cmd.
  - by apply serves_ret.
Qed.

(** C33: a connected agent with a store in order answers: every command with what its
    handler reads, other than a synchronous run, is handled to its end without
    waiting and without a panic, whatever commits of the store fail; it is
    answered; and the agent is ready for the next.  A workflow is destroyed under
    two conditions: no task of it has the number of the workflow itself, and the
    subscriber of its broker, if the agent has one, was not detached before and
    its lock is free.  [second_destroy_panics] shows the case it excludes. *)
Theorem commands_are_answered te s :
  s_ok s.(ag_store) -> s.(ag_hub).(h_Client) = true -> servable te s ->
  exists s' es r, handle_cmd te s = (s', Returned tt) /\ s'.(ag_out) = s.(ag_out) ++ es /\
    r ∈ replies es /\ answers te r /\ s_ok s'.(ag_store) /\ s'.(ag_hub).(h_Client) = true.
Proof.
  intros S Hc Hs. destruct (servable_served te s (conj S Hc) Hs) as [[[] Hr] [S' Hc']].
  destruct (handle_answered te s) as (es & He & [Ha _ Hn]). rewrite Hr in Hn.
  destruct (handle_cmd te s) as [s' x]. simpl in *. subst x. specialize (Hn eq_refl (proj1 Hs)).
  destruct (replies es) as [|r rs] eqn:Er; [done|]. exists s', es, r.
  rewrite Forall_cons in Ha. rewrite Er. split_and!; try done; [by left|by destruct Ha].
Qed.

(** A workflow that is destroyed again while the agent still has the
    subscriber of its broker, which the first time was closed: [Detach] closes the
    channel again, in the loop of commands. *)
Theorem second_destroy_panics te s bid sub :
  s_ok s.(ag_store) -> s_closed s.(ag_store) = false -> te.(c_Cmd) = RequestDestroyWf ->
  key_fits (pretty te.(c_WorkflowID)) = true ->
  (workflow_info (pretty te.(c_WorkflowID)) s.(ag_store).(s_db)).(BrokerIDs) = [bid] ->
  s.(ag_brokerWfs) !! bid = Some sub -> DetachSub sub ∈ s.(ag_out) ->
  detach_waits (length s.(ag_out)) sub = false ->
  (handle_cmd te s).2 = Crashed (ExplicitPanic "close of closed channel").
Proof.
  intros S Hc Hcmd Hk Hb Hs Hin Hw. unfold handle_cmd. rewrite Hcmd. simpl. unfold destroy_wf, Agent_DeleteWorkflow.
  assert (Hd : detached sub s.(ag_out) = true).
  { apply existsb_exists. exists (DetachSub sub). split; [by apply list_elem_of_In|by apply bool_decide_eq_true]. }
  pose proof (GetWorkflow_lists (mjoin (head (v_commits (ag_env s)))) (pretty te.(c_WorkflowID)) _ S Hc Hk) as Hg.
  unfold store. unfold mbind, am_bind. destruct (GetWorkflow _ _ (ag_store s)) as [st r]. simpl in Hg. subst r.
  rewrite Hb. cbn [for_all]. unfold mbind, am_bind, getSubBroker, gets. cbn. rewrite Hs. cbn. unfold detach. cbn.
  unfold detached in *. cbn in Hd. by rewrite Hw, Hd.
Qed.

End Serves.
