(* ===== verification/AgentFaults.v ===== *)
(** Where the agent goes wrong: faults that are reported as success, commands
    that bring it down, a broker that is refused and breaks the next start. *)

From stdpp Require Import pretty strings sorting.
From S2P Require Import Prelude GoStrings Names Template Compile Value Interp WorkerData Scheduler AgentBolt AgentData AgentStore AgentStoreInv AgentStoreSound AgentSched Agent AgentHandlers AgentProps AgentServes.

#[local] Open Scope Z_scope.

Section Faults.
Context {E : Engine} {B : Bolt} {T : GoTime} {C : Cron ajob}.
Context {CT : Codec ATask} {CB : Codec BrokerObj} {CE : Codec Execution}
        {CR : Codec BrokerRecordLocal} {CG : Codec Trigger} {CC : Codec CmdTask} {CP : Codec CmdReplyTask}.
Context {V : AgentEnv}.

(** ** Faults that are reported as success *)

(** The task of a command could not be stored: the reply carries the error's text
    and the status of success. *)
Theorem failed_setup_reported_as_success te s w c t s1 t1 e :
  te.(c_Cmd) = SetTaskCmd -> te.(c_Task) = Some w -> config_parse (t_Payload w.(tk)) = inr c ->
  Setup (inr c) w (task_vars w) zero_atask = (t, None) -> store_SetTask t s = (s1, Returned (t1, Some e)) ->
  exists s' r, handle_cmd te s = (s', Returned tt) /\ s'.(ag_out) = s.(ag_out) ++ [Go (GPublish r)] /\
    answers te r /\ r.(r_Status) = SuccessSetTask /\ r.(r_Message) = e.
Proof.
  intros Hc Hw Hp Ht Hs. destruct (quiet_store_SetTask t s) as (es & He & Hes). subst es.
  rewrite app_nil_r, Hs in He. simpl in He.
  unfold handle_cmd. rewrite Hc. simpl. unfold set_task, Agent_SetTask, mbind, am_bind. rewrite Hw. cbn [deref].
  unfold mret, am_ret. rewrite Hp, Ht, Hs. simpl. eexists _, _. split; [done|]. simpl. rewrite He.
  split; [done|]. split; [|done]. split; unfold reply_of; rewrite ?Hc, Hw; reflexivity.
Qed.

(** ** Messages that do not decode *)

(** A message from the server that is no JSON leaves the command at its zero value,
    which is a [SetTaskCmd] without a task: the agent panics in its loop of
    commands. *)
Theorem malformed_message_ends_agent data e s :
  unmarshal data zero_cmd = (zero_cmd, Some e) -> (handle_cmd (received data) s).2 = Crashed NilDereference.
Proof. intros H. unfold received. by rewrite H. Qed.

(** ** Unknown tasks *)

Context {L : BoltLaws B} {J : StoreCodecs CT CR}.

Lemma GetTask_unknown c id st :
  s_ok st -> content st.(s_db) [tasksBucket] !! id = None -> (GetTask c id st).2 = Returned (zero_atask, None).
Proof.
  intros [Ho S] Hn.
  assert (wp (getTaskTxFunc id) (fun r m _ => returns r /\ m = zero_atask) zero_atask st.(s_db)) as Hw.
  { unfold getTaskTxFunc. wp_steps; rewrite (gr_content _ _ G) in Heqo; congruence. }
  unfold GetTask, Update, Begin. rewrite Ho. destruct (s_closed st); [done|]. unfold wp in Hw.
  destruct (getTaskTxFunc id _ _) as [[[a|e|p|] m] d']; destruct Hw as [Hr Hm]; simpl in Hr, Hm; subst m; try done.
  by destruct c.
Qed.

Lemma Agent_GetTask_unknown id s :
  s_ok s.(ag_store) -> content s.(ag_store).(s_db) [tasksBucket] !! id = None ->
  exists s', Agent_GetTask id s = (s', Returned (zero_atask, None)) /\ s'.(ag_out) = s.(ag_out).
Proof.
  intros S Hn. pose proof (GetTask_unknown (mjoin (head (v_commits (ag_env s)))) _ _ S Hn) as Hg.
  unfold Agent_GetTask, store. destruct (GetTask _ _ _) as [st r]. simpl in Hg. subst r. by eexists.
Qed.

(** A command on a task the agent does not have: the store gives the zero task,
    which has no logger.  A synchronous run panics in the loop of commands; a
    start is answered with success, and the goroutine it starts panics, which
    ends the process. *)
Theorem unknown_task_ends_agent te s w :
  s_ok s.(ag_store) -> te.(c_Task) = Some w ->
  content s.(ag_store).(s_db) [tasksBucket] !! pretty (t_ID w.(tk)) = None ->
  (te.(c_Cmd) = RequestTaskRunSyncCmd -> (handle_cmd te s).2 = Crashed NilDereference) /\
  (te.(c_Cmd) = TriggerStartTaskCmd ->
   exists s' t r, handle_cmd te s = (s', Returned tt) /\
     s'.(ag_out) = s.(ag_out) ++ [Go (GRunTask t); Go (GPublish r)] /\ r.(r_Status) = SuccessSetTask /\
     forall s2, run_goroutine (GRunTask t) s2 = (s2, Crashed NilDereference)).
Proof.
  intros S Hw Hn. destruct (Agent_GetTask_unknown _ s S Hn) as (s1 & Hg & He). split; intros Hc.
  - unfold handle_cmd. rewrite Hc. simpl. unfold run_sync, mbind, am_bind. rewrite Hw. simpl. by rewrite Hg.
  - unfold handle_cmd. rewrite Hc. simpl. unfold start_task, mbind, am_bind. rewrite Hw. simpl. rewrite Hg. simpl.
    eexists _, _, _. split; [done|]. simpl. rewrite He, <- app_assoc. done.
Qed.

(** ** Tasks that run are shown as waiting *)

(** The records of the runs of tasks: [Run] files [Begins] when it starts and
    [Ends] when it ends, both under the identifier the execution has at first. *)
Inductive mark : Type :=
| Begins (id group : string) (at_ : Z)
| Ends (id group : string) (at_ : Z).

Definition file_mark (a : gmap string (gmap string TaskActive)) (m : mark) : gmap string (gmap string TaskActive) :=
  match m with
  | Begins id g t => update_actives id (mkActive (NewExecution id g).(e_Id) ActiveRunning t) a
  | Ends id g t => update_actives id (mkActive (NewExecution id g).(e_Id) ActiveFinish t) a
  end.

Definition only_first (a : gmap string (gmap string TaskActive)) : Prop :=
  forall id l k x, a !! id = Some l -> l !! k = Some x -> k = "".

Lemma file_mark_first a m : only_first a -> only_first (file_mark a m).
Proof.
  intros H id l k x. destruct m as [id' g t|id' g t]; simpl; unfold update_actives; simpl;
    destruct (a !! id') as [l'|] eqn:El; simpl; try apply H.
  - intros [[-> <-]|[_ Hl]]%lookup_insert_Some; [|by eapply H]. by intros [<- _]%lookup_singleton_Some.
  - intros [[-> <-]|[_ Hl]]%lookup_insert_Some; [|by eapply H]. intros [_ Hk]%lookup_delete_Some. by eapply H.
Qed.

Lemma file_mark_there a m id : is_Some (a !! id) -> is_Some (file_mark a m !! id).
Proof.
  intros Hs. destruct m as [id' g t|id' g t]; simpl; unfold update_actives; simpl;
    destruct (a !! id') as [l'|] eqn:El; simpl; try done; rewrite lookup_insert_is_Some'; auto.
Qed.

Lemma file_mark_empty a m id : a !! id = Some ∅ -> file_mark a m !! id = Some ∅.
Proof.
  intros Hs. destruct m as [id' g t|id' g t]; simpl; unfold update_actives; simpl;
    destruct (a !! id') as [l'|] eqn:El; simpl; try done.
  - rewrite lookup_insert_ne by congruence. done.
  - destruct (decide (id' = id)) as [->|Hn]; [|by rewrite lookup_insert_ne].
    rewrite lookup_insert_eq. simplify_eq. by rewrite delete_empty.
Qed.

(** Once a run of a task has ended, the task is shown as waiting for ever, however
    many of its runs begin later or are still going on. *)
Theorem running_shown_only_once before between after id g g' t t' :
  let calls := before ++ Begins id g t :: between ++ Ends id g' t' :: after in
  shown_status id (foldl file_mark ∅ calls) = ActiveWait.
Proof.
  intros calls. unfold calls. rewrite !foldl_app. cbn [foldl]. rewrite !foldl_app. cbn [foldl].
  assert (forall l a, only_first a -> only_first (foldl file_mark a l)) as Hf.
  { induction l as [|m l IH]; intros a Ha; [done|]. by apply IH, file_mark_first. }
  assert (forall l a, is_Some (a !! id) -> is_Some (foldl file_mark a l !! id)) as Ht.
  { induction l as [|m l IH]; intros a Ha; [done|]. by apply IH, file_mark_there. }
  assert (forall l a, a !! id = Some ∅ -> foldl file_mark a l !! id = Some ∅) as He.
  { induction l as [|m l IH]; intros a Ha; [done|]. by apply IH, file_mark_empty. }
  set (a0 := foldl file_mark ∅ before). assert (only_first a0) as H0 by (apply Hf; by intros ? ? ? ? []%lookup_empty_Some).
  set (a1 := foldl file_mark _ between).
  assert (only_first a1) as H1 by (by apply Hf, file_mark_first).
  assert (is_Some (a1 !! id)) as [l Hl].
  { apply Ht. unfold file_mark, update_actives. simpl. destruct (a0 !! id) eqn:E0; simpl; [by eexists|].
    rewrite lookup_insert_eq. by eexists. }
  unfold shown_status. rewrite He; [done|]. unfold file_mark, update_actives. rewrite Hl. simpl.
  rewrite lookup_insert_eq. f_equal. apply map_eq. intros k. rewrite lookup_empty, lookup_delete_None.
  destruct (l !! k) as [x|] eqn:Ek; [left|by right]. by rewrite (H1 _ _ _ _ Hl Ek).
Qed.

(** ** Brokers in the store *)

Lemma setBroker_spec b v d :
  sound d -> marshal b = inr v -> value_fits v = true ->
  key_fits (pretty (b_WorkflowID b.(bo))) = true -> key_fits (pretty (b_ID b.(bo))) = true ->
  wp (setBrokerTxFunc b) (fun r (_ : unit) d' => r = Done tt /\ sound d' /\
    content d' [brokersBucket] = <[pretty (b_ID b.(bo)) := v]> (content d [brokersBucket])) tt d.
Proof.
  intros S Hm Hv Hw Hi. unfold setBrokerTxFunc. wp_steps; try congruence. rewrite Hm in H; injection H as <-.
  apply wp_put_fits; [bucket_side..|done|done|wp_write W]. assert (sound d') by frame W.
  wp_steps. apply wp_put_fits; [bucket_side..|done|done|wp_write W']. split_and!; [done|frame W'|].
  rewrite (ch_content _ _ _ _ W'), bool_decide_false, (ch_content _ _ _ _ W), bool_decide_true by done.
  by rewrite (gr_content _ _ G2), (gr_content _ _ G1), (gr_content _ _ G0), (gr_content _ _ G).
Qed.

(** What a loop over a bucket collects. *)
Lemma collect_all {T'} `{Codec T'} (zero : T') adjust keep p (m : list T') d :
  is_Some (bucket d p) -> (forall x, x ∈ cursor d p -> (unmarshal x.2 zero).2 = None) ->
  wp (collect zero adjust keep p) (fun r m' d' => r = Done tt /\ d' = d /\
    m' = m ++ filter (fun x => keep x = true) ((fun x => adjust (unmarshal x.2 zero).1) <$> cursor d p)) m d.
Proof.
  intros Hp Hx. apply wp_bind, wp_entries; [done|].
  apply (wp_for_each _ _ _ (fun todo m1 d1 => d1 = d /\ (forall x, x ∈ todo -> (unmarshal x.2 zero).2 = None) /\
    m1 ++ filter (fun x => keep x = true) ((fun x => adjust (unmarshal x.2 zero).1) <$> todo)
    = m ++ filter (fun x => keep x = true) ((fun x => adjust (unmarshal x.2 zero).1) <$> cursor d p))).
  - done.
  - intros k v todo m1 d1 (-> & Hall & Hm). assert ((unmarshal v zero).2 = None) as Hkv by (apply (Hall (k, v)); by left).
    apply wp_bind, wp_bind, wp_ret. rewrite fmap_cons, filter_cons in Hm. cbn [fst snd] in Hm.
    destruct (unmarshal v zero) as [x e]. cbn [fst snd] in Hkv, Hm. subst e.
    apply wp_bind, wp_check; [intros _|done]. apply wp_bind, wp_load, wp_save, wp_still; [done|intros _|done].
    split_and!; [done|intros y Hy; apply Hall; by right|]. rewrite <- Hm.
    destruct (keep (adjust x)); simpl; [|done]. by rewrite <- app_assoc.
  - intros m1 d1 (-> & _ & Hm). simpl in Hm. rewrite app_nil_r in Hm. by split_and!.
Qed.

Definition brokers_readable (d : db) : Prop :=
  forall k v, content d [brokersBucket] !! k = Some v -> (unmarshal v zero_broker).2 = None.

(** A broker that can be read and has a number is among the stored ones. *)
Lemma GetBrokers_has st k v b :
  s_ok st -> s_closed st = false -> brokers_readable st.(s_db) ->
  content st.(s_db) [brokersBucket] !! k = Some v -> unmarshal v zero_broker = (b, None) -> b_ID b.(bo) <> 0 ->
  exists st' bs, GetBrokers None st = (st', Returned (bs, None)) /\ b ∈ bs.
Proof.
  intros [Ho S] Hc Hr Hk Hb Hn. unfold GetBrokers, Begin. rewrite Ho, Hc.
  assert (wp (create [brokersBucket];; collect zero_broker id (fun b => bool_decide (b_ID b.(bo) <> 0)) [brokersBucket])
    (fun r m _ => r = Done tt /\ b ∈ m) [] st.(s_db)) as Hw.
  { wp_steps. eapply wp_mono; [apply collect_all; [done|]|].
    - intros [k' v']. rewrite cursor_content by (first [by eapply so_layout|done]).
      rewrite elem_of_entries, (gr_content _ _ G). by apply Hr.
    - intros r m d' (-> & -> & ->). split; [done|]. simpl. apply list_elem_of_filter. split; [by apply bool_decide_eq_true|].
      apply list_elem_of_fmap. exists (k, v). simpl. rewrite Hb. split; [done|].
      rewrite cursor_content by (first [by eapply so_layout|done]). by rewrite elem_of_entries, (gr_content _ _ G). }
  unfold wp in Hw. destruct ((create _ ≫= _) [] (s_db st)) as [[r m] d']. destruct Hw as [Hr' Hin]. simpl in Hr', Hin.
  subst r. by exists (put_db d' st), m.
Qed.

(** ** A refused broker *)

(** A call that does not return. *)
Definition stops {A} (r : called A) : Prop := forall a, r <> Returned a.

Lemma for_all_stops {A} (f : A -> am unit) (a : A) l :
  a ∈ l -> (forall s, stops (f a s).2) -> forall s, stops (for_all f l s).2.
Proof.
  intros Hin Ha. induction l as [|b l IH]; [by apply elem_of_nil in Hin|]. intros s. simpl.
  unfold mbind, am_bind. destruct (f b s) as [s' [[]| |p|]] eqn:Eb; try done.
  apply IH. apply elem_of_cons in Hin as [->|Hin]; [|done]. destruct (Ha s tt). by rewrite Eb.
Qed.

Lemma setupBrokers_stops s k v b :
  s_ok s.(ag_store) -> s_closed s.(ag_store) = false -> mjoin (head s.(ag_env).(v_commits)) = None ->
  brokers_readable s.(ag_store).(s_db) -> content s.(ag_store).(s_db) [brokersBucket] !! k = Some v ->
  unmarshal v zero_broker = (b, None) -> b_ID b.(bo) <> 0 -> b_Template b.(bo) = None ->
  stops (setupBrokers s).2.
Proof.
  intros S Hc Hv Hr Hk Hb Hn Ht. destruct (GetBrokers_has _ _ _ _ S Hc Hr Hk Hb Hn) as (st' & bs & Hg & Hin).
  unfold setupBrokers, store. unfold mbind at 1, am_bind at 1. rewrite Hv, Hg. cbn [fst snd].
  set (s1 := put_env _ _). unfold mbind at 1, am_bind at 1.
  assert (stops (for_all (fun b => deref (b_Template b.(bo));; setupBroker b;; mret tt) bs s1).2) as Hf.
  { eapply for_all_stops; [exact Hin|]. intros s'. by rewrite Ht. }
  destruct (for_all _ bs s1) as [s2 [[]| |p|]]; try done. by destruct (Hf tt).
Qed.

(** A broker without a template is refused, but it was stored first: when the
    agent is started on that store again, setting up the stored brokers does
    not get past it, a nil dereference, at every start. *)
Theorem refused_broker_breaks_start te s b v b' now env :
  s_ok s.(ag_store) -> s.(ag_hub).(h_Client) = true -> s_closed s.(ag_store) = false ->
  mjoin (head s.(ag_env).(v_commits)) = None -> brokers_readable s.(ag_store).(s_db) ->
  te.(c_Cmd) = SetBrokerCmd -> te.(c_Broker) = Some b -> b_Template b.(bo) = None ->
  marshal b = inr v -> unmarshal v zero_broker = (b', None) -> b_ID b'.(bo) <> 0 -> b_Template b'.(bo) = None ->
  value_fits v = true -> key_fits (pretty (b_WorkflowID b.(bo))) = true -> key_fits (pretty (b_ID b.(bo))) = true ->
  mjoin (head env.(v_commits)) = None ->
  exists s' r1 r2, handle_cmd te s = (s', Returned tt) /\ s'.(ag_out) = s.(ag_out) ++ [Publish r1; Publish r2] /\
    r1.(r_Status) = FaultSetBroker /\ r2.(r_Status) = FaultSetBroker /\
    stops (start_stored (new_agent now (new_store s'.(ag_store).(s_db)) env)).2.
Proof.
  intros S Hcl Hc Hv Hr Hcmd Hb Ht Hm Hu Hn Ht' Hvf Hw Hi Henv. pose proof (proj2 S) as Sd. pose proof (proj1 S) as Ho.
  pose proof (setBroker_spec b v _ Sd Hm Hvf Hw Hi) as Hs. unfold wp in Hs.
  destruct (setBrokerTxFunc b tt (s_db (ag_store s))) as [[r m] d'] eqn:Es. destruct Hs as (Hdone & S' & Hcont).
  simpl in Hdone, S', Hcont. subst r.
  unfold handle_cmd. rewrite Hcmd. simpl. unfold set_broker. rewrite Hb.
  unfold store, SetBroker, Update, Begin, error_only. unfold mbind, am_bind. rewrite Hv, Ho, Hc, Es. simpl. rewrite Ht.
  unfold hub_Publish, with_client, mbind, am_bind, RunOn, gets, tick. simpl. rewrite Hcl. simpl. rewrite Hcl. simpl.
  eexists _, _, _. split; [done|]. simpl. rewrite <- app_assoc. split_and!; [done|done|done|].
  unfold start_stored. unfold mbind, am_bind.
  assert (stops (setupBrokers (new_agent now (new_store d') env)).2) as Hx.
  { eapply (setupBrokers_stops _ (pretty (b_ID (bo b))) v b'); simpl; try done.
    - intros k x. rewrite Hcont. intros [[<- <-]|[_ Hx]]%lookup_insert_Some; [by rewrite Hu|by eapply Hr].
    - by rewrite Hcont, lookup_insert_eq. }
  destruct (setupBrokers _) as [s2 [r| |p|]]; try done. by destruct (Hx r).
Qed.

(** ** Triggers of brokers *)

Lemma setTrigger_spec tr v d :
  sound d -> marshal tr = inr v -> value_fits v = true -> key_fits (pretty tr.(tg_ID)) = true ->
  wp (setTrigger tr) (fun r (_ : unit) d' => r = Done tt /\ sound d' /\
    content d' [triggerBucket] !! pretty tr.(tg_ID) = Some v /\
    content d' [brokersBucket] = content d [brokersBucket]) tt d.
Proof.
  intros S Hm Hv Hk. unfold setTrigger. wp_steps; try congruence. rewrite Hm in H; injection H as <-.
  apply wp_put_fits; [bucket_side..|done|done|wp_write W]. split_and!; [done|frame W|..].
  - rewrite (ch_content _ _ _ _ W), bool_decide_true by done. apply lookup_insert_eq.
  - rewrite (ch_content _ _ _ _ W), bool_decide_false by done. by rewrite (gr_content _ _ G).
Qed.

Lemma GetBroker_known c id v b st :
  s_ok st -> s_closed st = false -> content st.(s_db) [brokersBucket] !! id = Some v ->
  unmarshal v zero_broker = (b, None) ->
  (GetBroker c id st).2 = Returned (b, None) /\
  forall q, content (GetBroker c id st).1.(s_db) q = content st.(s_db) q.
Proof.
  intros [Ho S] Hc Hk Hb.
  assert (wp (getBrokerTxFunc id) (fun r m d' => r = Done tt /\ m = b /\ grown st.(s_db) d') zero_broker st.(s_db)) as Hw.
  { unfold getBrokerTxFunc. wp_steps; rewrite (gr_content _ _ G) in Heqo; simplify_eq; rewrite Hb in Heqp; by simplify_eq. }
  unfold GetBroker, Update, Begin. rewrite Ho, Hc. unfold wp in Hw.
  destruct (getBrokerTxFunc id _ _) as [[r m] d']. destruct Hw as (Hr & Hm & G). simpl in Hr, Hm, G. subst r m.
  destruct c; simpl; [done|]. split; [done|]. intros q. apply (gr_content _ _ G).
Qed.

(** A trigger without a schedule on a broker of the agent is answered with
    success; the goroutine that should run the broker waits for ever, and the
    trigger stays in the store. *)
Theorem broker_trigger_never_runs te s tr v b bv :
  s_ok s.(ag_store) -> s_closed s.(ag_store) = false -> mjoin (head s.(ag_env).(v_commits)) = None ->
  te.(c_Cmd) = TriggerCmd -> te.(c_Trigger) = Some tr -> tr.(tg_Type) = "broker" -> tr.(tg_Schedule) = "" ->
  marshal tr = inr v -> value_fits v = true -> key_fits (pretty tr.(tg_ID)) = true ->
  content s.(ag_store).(s_db) [brokersBucket] !! pretty tr.(tg_ObjectID) = Some bv ->
  unmarshal bv zero_broker = (b, None) -> b_Name b.(bo) <> "" ->
  exists s' r, handle_cmd te s = (s', Returned tt) /\
    s'.(ag_out) = s.(ag_out) ++ [Go (GTrigger tr); Go (GPublish r)] /\ r.(r_Status) = SuccessTrigger /\
    (run_goroutine (GTrigger tr) s').2 = Blocks /\
    content (run_goroutine (GTrigger tr) s').1.(ag_store).(s_db) [triggerBucket] !! pretty tr.(tg_ID) = Some v.
Proof.
  intros S Hc Hv Hcmd Htr Hty Hsc Hm Hvf Hk Hb Hu Hn. pose proof (proj2 S) as Sd. pose proof (proj1 S) as Ho.
  pose proof (setTrigger_spec tr v _ Sd Hm Hvf Hk) as Hs. unfold wp in Hs.
  destruct (setTrigger tr tt (s_db (ag_store s))) as [[r m] d'] eqn:Es. destruct Hs as (Hd & S' & Ht & Hbr).
  simpl in Hd, S', Ht, Hbr. subst r. rewrite <- Hbr in Hb.
  unfold handle_cmd. rewrite Hcmd. simpl. unfold trigger_cmd. rewrite Htr.
  unfold store, SetTrigger, Update, error_only, Begin. unfold mbind, am_bind. rewrite Hv, Ho, Hc, Es. simpl.
  eexists _, _. split; [done|]. simpl. rewrite <- app_assoc. split; [done|]. split; [done|].
  unfold Agent_Trigger. rewrite Hty, Hsc. unfold store, mbind, am_bind. simpl.
  match goal with |- context [GetBroker ?x] => set (c := x) end.
  destruct (GetBroker_known c _ _ _ (put_db d' (ag_store s)) ltac:(split; [exact Ho|exact S']) Hc Hb Hu) as [Hg Hq].
  destruct (GetBroker c _ _) as [st x]. simpl in Hg, Hq. subst x. cbn [fst snd].
  rewrite bool_decide_false by done. simpl. split; [done|]. by rewrite Hq.
Qed.

End Faults.
