(* ===== verification/AgentRedeploy.v ===== *)
(** A workflow that is destroyed and set again: agent, store and message broker
    together.

    The agent keeps the subscriber of a broker of a destroyed workflow, so
    setting the broker again detaches it a second time. *)

From stdpp Require Import pretty strings sorting.
From S2P Require Import AgentBroker.
From S2P Require Import Prelude GoStrings Names Template Compile Value Interp WorkerData Scheduler AgentBolt AgentData AgentStore AgentStoreInv AgentStoreSound AgentSched Agent AgentHandlers AgentProps AgentServes.

Section Redeploy.
Context {E : Engine} {B : Bolt} {T : GoTime} {C : Cron ajob}.
Context {CT : Codec ATask} {CB : Codec BrokerObj} {CE : Codec Execution}
        {CR : Codec BrokerRecordLocal} {CG : Codec Trigger} {CC : Codec CmdTask} {CP : Codec CmdReplyTask}.
Context {V : AgentEnv} {L : BoltLaws B} {J : StoreCodecs CT CR}.

Notation world := (AgentBroker.world CmdReplyTask).

(** What an effect of the agent is to its message broker. *)
Definition broker_call (e : effect) (w w' : world) : Prop :=
  match w with AgentBroker.mkWorld b ps tr =>
    match e with
    | NewSub sub => b.(AgentBroker.objects) !! sub = None /\ w' = AgentBroker.mkWorld (AgentBroker.create sub b) ps tr
    | SubscribeTo sub ts => is_Some (b.(AgentBroker.objects) !! sub) /\
                            w' = AgentBroker.mkWorld (AgentBroker.Subscribe sub ts b) ps tr
    | DetachSub sub => is_Some (b.(AgentBroker.objects) !! sub) /\
                       w' = AgentBroker.mkWorld b (AgentBroker.PDestroy sub :: ps) tr
    | BroadcastTo topic r => exists now, w' = AgentBroker.mkWorld b (ps ++ AgentBroker.Broadcast r now topic b) tr
    | _ => w' = w
    end
  end.

(** The broker does the first of the calls [es], with steps of its goroutines in
    between. *)
Inductive performs : list effect -> world -> world -> Prop :=
| perf_end es w : performs es w w
| perf_step es w w1 w2 : AgentBroker.step w w1 -> performs es w1 w2 -> performs es w w2
| perf_call e es w w1 w2 : broker_call e w w1 -> performs es w1 w2 -> performs (e :: es) w w2.

Lemma performs_steps es w w' : rtc AgentBroker.step w w' -> performs es w w'.
Proof. induction 1; [apply perf_end|by eapply perf_step]. Qed.

Lemma performs_after es w w1 w2 : rtc AgentBroker.step w w1 -> performs es w1 w2 -> performs es w w2.
Proof. induction 1; [done|]. intros. eapply perf_step; eauto. Qed.

(** A call of [Detach] that nothing holds up closes the subscriber's channel. *)
Lemma detach_closes b ps tr sub s :
  b.(AgentBroker.objects) !! sub = Some s -> s.(AgentBroker.sb_closed) = false ->
  existsb (AgentBroker.sends_to sub) ps = false ->
  exists w : world, rtc AgentBroker.step (AgentBroker.mkWorld b (AgentBroker.PDestroy sub :: ps) tr) w /\
    AgentBroker.closed sub w.(AgentBroker.broker) = true /\
    is_Some (w.(AgentBroker.broker).(AgentBroker.objects) !! sub).
Proof.
  intros Hs Hc Hn. eexists. split.
  - eapply rtc_l; [by apply (AgentBroker.s_destroy b _ ps sub tr)|].
    eapply rtc_l; [|apply rtc_refl].
    eapply (AgentBroker.s_close _ _ ps sub tr (AgentBroker.mark_destroyed s)); [done| |].
    + by rewrite AgentBroker.lookup_on_sub, bool_decide_true, Hs.
    + unfold AgentBroker.close_channel. simpl. by rewrite Hc.
  - unfold AgentBroker.closed. simpl. rewrite lookup_insert_eq. split; [done|by eexists].
Qed.

(** Two calls of [Detach] on one subscriber. *)
Lemma detached_twice es w sub s :
  AgentBroker.reachable w -> w.(AgentBroker.broker).(AgentBroker.objects) !! sub = Some s ->
  s.(AgentBroker.sb_closed) = false -> existsb (AgentBroker.sends_to sub) w.(AgentBroker.procs) = false ->
  exists w', performs (DetachSub sub :: DetachSub sub :: es) w w' /\
    AgentBroker.Panicked "close of closed channel" ∈ w'.(AgentBroker.trace).
Proof.
  intros R Hs Hc Hn. destruct w as [b ps tr]. simpl in *.
  destruct (detach_closes b ps tr sub s Hs Hc Hn) as ([b1 ps1 tr1] & Hr & Hcl & Ho). simpl in Hcl, Ho.
  assert (AgentBroker.reachable (AgentBroker.mkWorld b1 (AgentBroker.PDestroy sub :: ps1) tr1)) as R1.
  { eapply rtc_r; [|by apply AgentBroker.s_detach]. etransitivity; [exact R|].
    eapply rtc_l; [|exact Hr]. apply AgentBroker.s_detach. by rewrite Hs. }
  destruct (AgentBroker.second_detach_panics _ sub R1 Hcl) as (w' & Hw & Hp); [by left|].
  exists w'. split; [|done]. eapply perf_call; [by split; [rewrite Hs|]|].
  eapply performs_after; [exact Hr|]. eapply perf_call; [by split|]. by apply performs_steps.
Qed.

(** ** The agent's side *)

(** Programs that keep the subscribers and add nothing. *)
Definition still_subs {A} (x : am A) : Prop :=
  forall s, (x s).1.(ag_brokerWfs) = s.(ag_brokerWfs) /\ (x s).1.(ag_out) = s.(ag_out).

Lemma still_bind {A A'} (x : am A) (f : A -> am A') : still_subs x -> (forall a, still_subs (f a)) -> still_subs (x ≫= f).
Proof.
  intros Hx Hf s. destruct (Hx s) as [H1 H2]. unfold mbind, am_bind.
  destruct (x s) as [s1 [a| |p|]]; simpl in *; [|done..]. destruct (Hf a s1) as [-> ->]. done.
Qed.

Lemma still_store {A} f : still_subs (store (A:=A) f).
Proof. intros s. unfold store. by destruct (f _ _). Qed.

Lemma still_sched {A} f : still_subs (sched (A:=A) f).
Proof. intros s. unfold sched. by destruct (f _). Qed.

Lemma still_for_all {A} (f : A -> am unit) l : (forall a, still_subs (f a)) -> still_subs (for_all f l).
Proof. intros Hf. induction l as [|a l IH]; simpl; [done|]. by apply still_bind. Qed.

Lemma DeleteWorkflow_detaches w bid sub s :
  s_ok s.(ag_store) -> s_closed s.(ag_store) = false -> key_fits (pretty w) = true ->
  (workflow_info (pretty w) s.(ag_store).(s_db)).(BrokerIDs) = [bid] -> s.(ag_brokerWfs) !! bid = Some sub ->
  (Agent_DeleteWorkflow w s).1.(ag_brokerWfs) = s.(ag_brokerWfs) /\
  (Agent_DeleteWorkflow w s).1.(ag_out) = s.(ag_out) ++ [DetachSub sub].
Proof.
  intros S Hc Hk Hb Hs. destruct (still_store (fun c => GetWorkflow c (pretty w)) s) as [H1 H2].
  assert ((store (fun c => GetWorkflow c (pretty w)) s).2 = Returned (workflow_info (pretty w) (s_db (ag_store s)), None)) as Hg.
  { unfold store. pose proof (GetWorkflow_lists (mjoin (head (v_commits (ag_env s)))) _ _ S Hc Hk) as Hg.
    destruct (GetWorkflow _ _ _). by simpl in Hg. }
  destruct (store (fun c => GetWorkflow c (pretty w)) s) as [s1 r] eqn:Es. simpl in H1, H2, Hg. subst r.
  set (rest := for_all (fun tid => Agent_DeleteTask (pretty tid);; mret tt)
    (TaskIDs (workflow_info (pretty w) (s_db (ag_store s))));; store (fun c => DeleteWorkflow c (pretty w));; mret (None : option string)).
  assert (still_subs rest) as Hst.
  { apply still_bind; [apply still_for_all|by intros _; apply still_bind; [apply still_store|]].
    intros tid. apply still_bind; [|done]. apply still_bind; [apply still_sched|intros _; apply still_store]. }
  assert (Agent_DeleteWorkflow w s = (detach sub ≫= fun _ => rest) s1) as ->.
  { unfold Agent_DeleteWorkflow. rewrite (am_bind_returned _ _ _ _ _ Es). cbn beta iota. rewrite Hb.
    cbn [for_all]. unfold mbind, am_bind, getSubBroker, gets. rewrite H1, Hs. by destruct (detach sub s1) as [? []]. }
  unfold mbind, am_bind, detach.
  destruct (detach_waits _ _); [|destruct (detached _ _)]; [simpl; by rewrite ?H1, ?H2..|].
  destruct (Hst (put_out (s1.(ag_out) ++ [DetachSub sub]) s1)) as [-> ->]. simpl. by rewrite H1, H2.
Qed.

(** C37: the workflow [w] with the broker [bid], whose subscriber is [sub], is
    destroyed, and the broker is set again: the agent calls [Detach] twice on
    [sub], and a message broker on which nothing is being sent to [sub] ends in
    a panic of the process. *)
Theorem redeployed_broker_panics s w bid sub b :
  s_ok s.(ag_store) -> s_closed s.(ag_store) = false -> key_fits (pretty w) = true ->
  (workflow_info (pretty w) s.(ag_store).(s_db)).(BrokerIDs) = [bid] -> s.(ag_brokerWfs) !! bid = Some sub ->
  b_ID b.(bo) = bid ->
  exists es, (setupBroker b (Agent_DeleteWorkflow w s).1).1.(ag_out) = s.(ag_out) ++ es /\
    forall (bw : world) x, AgentBroker.reachable bw -> bw.(AgentBroker.broker).(AgentBroker.objects) !! sub = Some x ->
      x.(AgentBroker.sb_closed) = false -> existsb (AgentBroker.sends_to sub) bw.(AgentBroker.procs) = false ->
      exists bw', performs es bw bw' /\ AgentBroker.Panicked "close of closed channel" ∈ bw'.(AgentBroker.trace).
Proof.
  intros S Hc Hk Hb Hs Hid. destruct (DeleteWorkflow_detaches w bid sub s S Hc Hk Hb Hs) as [H1 H2].
  set (s1 := (Agent_DeleteWorkflow w s).1) in *.
  assert (exists es, (setupBroker b s1).1.(ag_out) = s1.(ag_out) ++ DetachSub sub :: es) as [es He].
  { unfold setupBroker, mbind, am_bind, getSubBroker, gets, next_id, detach. rewrite Hid, H1, Hs. simpl.
    destruct (detach_waits _ _); [|destruct (detached _ _); [|destruct (mjoin (head (v_ids _)))]]; simpl;
      rewrite <- ?app_assoc; by eexists. }
  exists (DetachSub sub :: DetachSub sub :: es). split; [by rewrite He, H2, <- app_assoc|].
  intros bw x R Hx Hcl Hn. by eapply detached_twice.
Qed.

End Redeploy.
