(* ===== verification/AgentOutputs.v ===== *)
(** What a run of a task on request sends back. *)

From Stdlib Require Import Ascii.
From stdpp Require Import pretty strings.
From S2P Require Import Prelude GoStrings Names Template Compile Value Interp WorkerData Scheduler AgentBolt AgentData AgentStore AgentSched BufCb Agent AgentHandlers AgentProps.

#[local] Open Scope Z_scope.

Section Outputs.
Context {E : Engine} {B : Bolt} {T : GoTime} {C : Cron ajob}.
Context {CT : Codec ATask} {CB : Codec BrokerObj} {CE : Codec Execution}
        {CR : Codec BrokerRecordLocal} {CG : Codec Trigger} {CC : Codec CmdTask}.
Context {V : AgentEnv}.

Section Request.
Context (t : ATask) (re : CmdTask).

(** [r] is an output of the task [t] for the request [re], in the part [part]
    under the parent [parent]. *)
Record output_of (part parent : string) (r : CmdReplyTask) : Prop := {
  oo_Cmd : r.(r_Cmd) = ReplyOutputTaskCmd;
  oo_TaskID : r.(r_TaskID) = ParseInt t.(at_ID);
  oo_TaskName : r.(r_TaskName) = t.(at_Name);
  oo_WorkflowID : r.(r_WorkflowID) = t.(at_WorkflowID);
  oo_Group : r.(r_Group) = re.(c_Group);
  oo_RunCount : r.(r_RunCount) = re.(c_RunCount);
  oo_Part : r.(r_Part) = part;
  oo_Parent : r.(r_Parent) = parent;
  oo_Result : is_Some r.(r_Result);
  oo_Start : r.(r_Start) = false
}.

(** All that is emitted are outputs, broadcast by goroutines. *)
Definition outputs_only (part parent : string) (es : list effect) : Prop :=
  Forall (fun e => exists r, e = Go (GBroadcast r) /\ output_of part parent r) es.

(** The parts of the execution, which are set with its first output. *)
Definition placed (ex : Execution) : Prop :=
  ex.(e_Offset) = 0 \/ (ex.(e_Part) = re.(c_Part) /\ ex.(e_Parent) = re.(c_Parent)).

Lemma output_emits it b ex :
  placed ex ->
  emits (output t (Some re) it b ex)
    (fun es r => outputs_only re.(c_Part) re.(c_Parent) es /\ forall ex' e, r = Some (ex', e) -> placed ex').
Proof.
  intros Hp. unfold output. set (ex1 := match b with Some _ => _ | None => _ end).
  assert (placed ex1 /\ e_Offset ex1 = e_Offset ex) as [Hp1 Ho] by (by destruct b).
  eapply (emits_bind _ _ (fun es r => es = [] /\ forall ex', r = Some ex' -> ex'.(e_Part) = re.(c_Part) /\ ex'.(e_Parent) = re.(c_Parent))).
  - unfold output_part. case_bool_decide as Hz.
    + apply emits_quiet; [apply quiet_getPart|done|intros part]. apply emits_ret. split; [done|]. by intros ? [= <-].
    + apply emits_ret. split; [done|]. intros ? [= <-]. by destruct Hp1.
  - intros es [-> _]. split; [constructor|done].
  - intros ex2 es [-> Hx]. destruct (Hx _ eq_refl) as [H1 H2]. simpl.
    set (ex3 := put_e_Offset _ (output_success ex2)).
    assert (ex3.(e_Part) = re.(c_Part) /\ ex3.(e_Parent) = re.(c_Parent)) as [H3 H4].
    { unfold ex3, output_success. by repeat destruct (bool_decide _). }
    apply emits_quiet; [apply quiet_SaveExecutorResult|split; [constructor|done]|intros [e|]].
    + apply emits_ret. split; [constructor|]. intros ? ? [= <- <-]. by right.
    + assert (forall first, outputs_only re.(c_Part) re.(c_Parent) [Go (GBroadcast (output_reply t (Some re) it first ex3))]) as Hr.
      { intros first. apply Forall_singleton. eexists. split; [done|].
        split; unfold output_reply; destruct first; simpl; by rewrite ?H3, ?H4. }
      eapply (emits_bind _ _ (fun es _ => es = [Go (GBroadcast (output_reply t (Some re) it _ ex3))])); [by apply emits_go|..].
      * intros ? ->. by split.
      * intros [] ? ->. apply emits_ret. split; [apply Hr|]. intros ? ? [= <- <-]. by right.
Qed.

(** ** The executor's part *)

Definition run_inv (s0 : Ag) (s : run_state) : Prop :=
  placed s.(rs_ex) /\ exists es, s.(rs_ag).(ag_out) = s0.(ag_out) ++ es /\ outputs_only re.(c_Part) re.(c_Parent) es.

Lemma output_cb_keeps s0 it b s : run_inv s0 s -> run_inv s0 (output_cb t (Some re) it b s).1.
Proof.
  intros [Hp (es & He & Hes)]. unfold output_cb. destruct (rs_end s); try (split; [done|by exists es]).
  destruct (output_emits it (implode <$> b) (rs_ex s) Hp (rs_ag s)) as (es' & He' & Hes' & Hp').
  assert (outputs_only re.(c_Part) re.(c_Parent) (es ++ es')) as Hall by (by apply Forall_app).
  destruct (output t (Some re) it _ _ _) as [ag [[ex e]| |p|]]; simpl in He', Hp'; simpl;
    (split; [simpl; eauto|exists (es ++ es'); simpl; by rewrite He', He, app_assoc]).
Qed.

Lemma write_keeps s0 it flush b bs : run_inv s0 bs.2 -> run_inv s0 (write t (Some re) it flush b bs).2.
Proof.
  intros H. unfold write. destruct bs as [buf s]. simpl in H. destruct (rs_end s); try done.
  pose proof (Write_keeps (run_inv s0) (output_cb t (Some re) it) ((fun b => (explode b ++ spare b, String.length b)) <$> b) buf s
    (fun b s => output_cb_keeps s0 it b s) H) as Hw.
  destruct (Write _ _ buf s) as [[buf1 s1] r]. simpl in Hw. destruct r as [[]|e|p]; [..|done].
  all: destruct flush; [|done].
  all: pose proof (Flush_keeps (run_inv s0) (output_cb t (Some re) it) buf1 s1 (fun b s => output_cb_keeps s0 it b s) Hw) as Hf.
  all: destruct (Flush _ buf1 s1) as [[buf2 s2] r]; simpl in Hf; by destruct r.
Qed.

Lemma put_rs_ex_keeps s0 f s :
  (forall ex, placed ex -> placed (f ex)) -> run_inv s0 s -> run_inv s0 (put_rs_ex f s).
Proof. intros Hf [Hp He]. split; [by apply Hf|done]. Qed.

Lemma updates_keep s0 it us bs :
  run_inv s0 bs.2 -> run_inv s0 (foldl (Update_output t (Some re) it) bs us).2.
Proof.
  revert bs. induction us as [|u us IH]; intros bs H; simpl; [done|]. apply IH. unfold Update_output.
  apply write_keeps. simpl. by apply put_rs_ex_keeps.
Qed.

#[local] Arguments write : simpl never.

Lemma run_executor_emits it x ex :
  placed ex -> emits (run_executor t (Some re) it x ex) (fun es _ => outputs_only re.(c_Part) re.(c_Parent) es).
Proof.
  intros Hp s. unfold run_executor.
  assert (run_inv s (mkRun s (put_e_Status RunningTask ex) (Returned tt))) as H0.
  { split; [done|]. exists []. split; [by rewrite app_nil_r|constructor]. }
  pose proof (updates_keep s it x.(x_updates) (NewBuffer maxBufSize "000"%char, _) H0) as H1.
  destruct (foldl _ _ _) as [buf s1]. cbn [snd fst] in *.
  assert (forall s', run_inv s s' -> exists es, ag_out (rs_ag s') = ag_out s ++ es /\ outputs_only (c_Part re) (c_Parent re) es) as Hend
    by (by intros s' [_ ?]).
  destruct (rs_end s1) as [[]| |p|]; simpl; try (by apply Hend).
  assert (forall now, run_inv s (mkRun (tick (rs_ag s1)).1 (put_e_FinishedAt now (rs_ex s1)) (Returned tt))) as H2.
  { intros now. split; [apply H1|apply H1]. }
  destruct (x_err x) as [e|], (x_out x) as [[o oe]|]; simpl; try (by apply Hend);
    apply Hend; apply write_keeps; try apply H2; try (destruct (bool_decide _); simpl; [|apply H2]);
    apply write_keeps; apply put_rs_ex_keeps; done || apply H2.
Qed.

(** ** The run *)

Lemma run_missing_emits it ex :
  emits (run_missing t (Some re) it ex) (fun es _ => outputs_only "" "" es).
Proof.
  unfold run_missing. apply emits_quiet; [apply quiet_tick|constructor|intros now].
  apply emits_quiet; [apply quiet_getPart|constructor|intros part]. cbv zeta.
  apply emits_quiet; [apply quiet_SaveExecutorResult|constructor|intros [e|]]; [apply emits_ret; constructor|].
  eapply emits_bind; [apply emits_go with (Q := fun es _ => outputs_only "" "" es)|done|].
  - apply Forall_singleton. eexists. split; [done|]. by split.
  - intros [] es He. apply emits_ret. by rewrite app_nil_r.
Qed.

Lemma quiet_run_input exc : quiet (run_input t (Some re) exc).
Proof.
  unfold run_input. destruct (bool_decide _); [apply quiet_ret|]. destruct (bool_decide _).
  - destruct (marshal re); [apply quiet_ret|]. apply quiet_bind; [apply quiet_tick|intros now].
    apply quiet_bind; [apply quiet_store|intros err; apply quiet_ret].
  - apply quiet_bind; [apply quiet_deref|intros w; apply quiet_ret].
Qed.

(** Where the outputs of a run belong: the part of the request, or nowhere when
    there is no such executor. *)
Definition place : string * string :=
  match executors !! t.(at_Executor) with
  | Some _ => (re.(c_Part), re.(c_Parent))
  | None => ("", "")
  end.

Lemma run_body_emits ex :
  ex.(e_Offset) = 0 -> emits (run_body t ex (Some re)) (fun es _ => outputs_only place.1 place.2 es).
Proof.
  intros Ho. apply emits_quiet; [apply quiet_run_input|constructor|intros [err|[input exc]]]; [apply emits_ret; constructor|].
  destruct (add_input _ _); [apply emits_ret; constructor|]. apply emits_quiet; [apply quiet_tick|constructor|intros now].
  cbv zeta. apply emits_quiet; [apply quiet_store|constructor|intros _].
  destruct (bool_decide _); [apply emits_ret; constructor|]. unfold place. destruct (executors !! at_Executor t) as [x|].
  - eapply emits_bind; [apply run_executor_emits; by left|done|].
    intros [] es He. apply emits_ret. by rewrite app_nil_r.
  - apply run_missing_emits.
Qed.

End Request.

(** A run of the task [t] for the request [re], by whatever executor: all the
    agent sends are outputs of [t] with a result, in the group and with the run
    count of the request, in the request's part and under its parent.  When
    there is no such executor the fault is sent without part and parent. *)
Theorem outputs_answer_request t re s :
  exists es, (Run t (NewExecution t.(at_ID) re.(c_Group)) (Some re) s).1.(ag_out) = s.(ag_out) ++ es /\
    outputs_only t re (place t re).1 (place t re).2 es.
Proof.
  assert (emits (Run t (NewExecution t.(at_ID) re.(c_Group)) (Some re))
            (fun es _ => outputs_only t re (place t re).1 (place t re).2 es)) as H.
  { unfold Run. apply emits_quiet; [apply quiet_tick|constructor|intros n1].
    apply emits_quiet; [by apply quiet_modify|constructor|intros _].
    apply emits_quiet; [apply quiet_tick|constructor|intros n2].
    eapply emits_bind; [by apply run_body_emits|done|]. intros err es He.
    apply emits_quiet; [by apply quiet_modify|by rewrite app_nil_r|intros _]. apply emits_ret. by rewrite app_nil_r. }
  destruct (H s) as (es & He & Hes). by exists es.
Qed.

End Outputs.
