(* ===== verification/AgentRuns.v ===== *)
(** Runs of the agent: the hypotheses of the theorems on the agent, its scheduler
    and its broker at concrete inputs, on the small store of [AgentStoreRuns]. *)

From Stdlib Require Import Ascii.
From stdpp Require Import pretty strings sorting countable.
From S2P Require Import AgentBroker.
From S2P Require Import Prelude GoStrings Names Template Compile Value Interp WorkerData WorkerRuns Scheduler AgentBolt AgentData AgentStore AgentStoreInv AgentStoreSound AgentStoreRuns AgentSched Agent AgentHandlers AgentProps AgentServes AgentFaults AgentRedeploy AgentOutputs.

#[local] Open Scope Z_scope.
#[local] Existing Instance small_engine.

(** ** The agent's environment *)

#[export] Instance small_cmds : Codec CmdTask :=
  view_codec (fun c => (c.(c_Cmd), c.(c_Group))) (fun '(cmd, g) c => put_c_Group g (put_c_Cmd cmd c)).
#[export] Instance small_replies : Codec CmdReplyTask :=
  view_codec (fun r => (r.(r_Cmd), r.(r_TaskName), r.(r_Part), r.(r_Group)))
    (fun '(cmd, n, p, g) r => put_r_Group g (put_r_Part p (put_r_TaskName n (put_r_Cmd cmd r)))).

(** An executor that says two things, and one that fails. *)
Definition echo (id : Z) (config : gmap string string) : exec_result :=
  mkExecResult [(Some "one", true); (Some "two", true)] (Some (Some "", "")) None.
Definition broken (id : Z) (config : gmap string string) : exec_result :=
  mkExecResult [] (Some (None, "exit 1")) None.

#[export] Instance small_env : AgentEnv := {|
  config_parse s := if bool_decide (s = "{}") then inr ∅ else inl "json";
  map_json _ := "{}";
  replies_json _ := "{}";
  ev_number n := pretty n;
  cron_error s := "bad schedule";
  task_vars _ := ∅;
  spare _ := [];
  executors := <["echo" := echo]> {["broken" := broken]};
  template_fuel := 10;
  VM := list string;
  vm_new := [];
  vm_compile s := if bool_decide (s = "") then Some "syntax" else None;
  vm_run s vm := (vm ++ [s], None);
  vm_get vm f := if bool_decide (f ∈ vm) then JsFunction tt else JsUndefined;
  detach_waits _ _ := false
|}.

Definition answers_of : Env :=
  mkEnv [] [100; 101; 102; 103; 104; 105; 106; 107] [Some "sub1"; Some "sub2"] [] [].

(** An agent on the small store, connected. *)
Definition small_agent : Ag :=
  put_client "c1" "laptop" (put_hub (mkHub true "laptop" 5 "kairosdeamon-c1") (new_agent 1000 small_store answers_of)).

(** ** Commands *)

Definition cmd (c : Z) (t : option WTask) : CmdTask :=
  put_c_Part "p" (put_c_Group "g" (put_c_DeliverID 9 (put_c_Task t (put_c_Cmd c zero_cmd)))).
Definition msg (id wid : Z) (payload : string) : WTask :=
  mkWTask (mkTask id "t" "" "" [] 0 "echo" payload "" wid "") "" "" ∅.

Lemma malformed_message_ends_agent_witness : (handle_cmd (received "no json") small_agent).2 = Crashed NilDereference.
Proof. apply (malformed_message_ends_agent "no json" "json" small_agent). vm_compute. reflexivity. Defined.

(** The same agent after its store was closed. *)
Definition closed_agent : Ag := put_store (Shutdown small_store).1 small_agent.

Definition set_up : ATask := (Setup (inr ∅) (msg 15 7 "{}") ∅ zero_atask).1.

Lemma failed_setup_reported_as_success_witness :
  exists s' r, handle_cmd (cmd SetTaskCmd (Some (msg 15 7 "{}"))) closed_agent = (s', Returned tt) /\
    s'.(ag_out) = closed_agent.(ag_out) ++ [Go (GPublish r)] /\
    answers (cmd SetTaskCmd (Some (msg 15 7 "{}"))) r /\ r.(r_Status) = SuccessSetTask /\ r.(r_Message) = "database not open".
Proof.
  apply (failed_setup_reported_as_success (cmd SetTaskCmd (Some (msg 15 7 "{}"))) closed_agent (msg 15 7 "{}") ∅ set_up
    (store_SetTask set_up closed_agent).1 set_up "database not open");
    [reflexivity|reflexivity|vm_compute; reflexivity|vm_compute; reflexivity|].
  apply injective_projections; [reflexivity|vm_compute; reflexivity].
Defined.

Lemma task_99_unknown : content small_agent.(ag_store).(s_db) [tasksBucket] !! pretty 99 = None.
Proof. vm_compute. reflexivity. Qed.

Lemma unknown_task_ends_agent_witness :
  (handle_cmd (cmd RequestTaskRunSyncCmd (Some (msg 99 7 "{}"))) small_agent).2 = Crashed NilDereference /\
  exists s' t r, handle_cmd (cmd TriggerStartTaskCmd (Some (msg 99 7 "{}"))) small_agent = (s', Returned tt) /\
    s'.(ag_out) = small_agent.(ag_out) ++ [Go (GRunTask t); Go (GPublish r)] /\ r.(r_Status) = SuccessSetTask /\
    forall s2, run_goroutine (GRunTask t) s2 = (s2, Crashed NilDereference).
Proof.
  split.
  - apply (unknown_task_ends_agent (cmd RequestTaskRunSyncCmd (Some (msg 99 7 "{}"))) small_agent (msg 99 7 "{}"));
      [apply small_store_ok|reflexivity|apply task_99_unknown|reflexivity].
  - apply (unknown_task_ends_agent (cmd TriggerStartTaskCmd (Some (msg 99 7 "{}"))) small_agent (msg 99 7 "{}"));
      [apply small_store_ok|reflexivity|apply task_99_unknown|reflexivity].
Defined.

(** Brokers 3 and 4 of workflow 7 are stored; broker 6 comes without a template. *)
Definition broker_cmd (b : BrokerObj) : CmdTask := put_c_Broker (Some b) (cmd SetBrokerCmd None).

Lemma small_brokers_readable : brokers_readable small_store.(s_db).
Proof.
  intros k v Hk. assert (map_Forall (fun _ v => (unmarshal v zero_broker).2 = None) (content small_store.(s_db) [brokersBucket])) as H.
  { apply (bool_decide_unpack _). vm_compute. exact I. }
  by apply (H k v).
Qed.

Lemma refused_broker_breaks_start_witness :
  exists s' r1 r2, handle_cmd (broker_cmd (small_broker 6 7)) small_agent = (s', Returned tt) /\
    s'.(ag_out) = small_agent.(ag_out) ++ [Publish r1; Publish r2] /\
    r1.(r_Status) = FaultSetBroker /\ r2.(r_Status) = FaultSetBroker /\
    stops (start_stored (new_agent 2000 (new_store s'.(ag_store).(s_db)) answers_of)).2.
Proof.
  apply (refused_broker_breaks_start (broker_cmd (small_broker 6 7)) small_agent (small_broker 6 7)
    (text (6, "b", 7)) (small_broker 6 7) 2000 answers_of);
    [apply small_store_ok|reflexivity|vm_compute; reflexivity|reflexivity|apply small_brokers_readable
    |reflexivity|reflexivity|reflexivity|reflexivity|vm_compute; reflexivity|done|reflexivity
    |vm_compute; reflexivity|vm_compute; reflexivity|vm_compute; reflexivity|reflexivity].
Defined.

Definition broker_trigger : Trigger := mkTrigger 31 7 3 "b" "broker" "" "{}" 0 0 "laptop" "".

Lemma broker_trigger_never_runs_witness :
  exists s' r, handle_cmd (put_c_Trigger (Some broker_trigger) (cmd TriggerCmd None)) small_agent = (s', Returned tt) /\
    s'.(ag_out) = small_agent.(ag_out) ++ [Go (GTrigger broker_trigger); Go (GPublish r)] /\ r.(r_Status) = SuccessTrigger /\
    (run_goroutine (GTrigger broker_trigger) s').2 = Blocks /\
    content (run_goroutine (GTrigger broker_trigger) s').1.(ag_store).(s_db) [triggerBucket] !! pretty 31 = Some (text 31).
Proof.
  apply (broker_trigger_never_runs (put_c_Trigger (Some broker_trigger) (cmd TriggerCmd None)) small_agent broker_trigger
    (text 31) (small_broker 3 7) (text (3, "b", 7)));
    [apply small_store_ok|vm_compute; reflexivity|reflexivity|reflexivity|reflexivity|reflexivity|reflexivity
    |reflexivity|vm_compute; reflexivity|vm_compute; reflexivity|vm_compute; reflexivity|vm_compute; reflexivity|done].
Defined.

(** ** Deploying again *)

(** The agent after broker 3 was set up, with its subscriber "sub1". *)
Definition deployed : Ag := (setupBroker (small_broker 3 7) small_agent).1.

Lemma setupBroker_store b s : (setupBroker b s).1.(ag_store) = s.(ag_store).
Proof.
  unfold setupBroker, mbind, am_bind, getSubBroker, gets, next_id, detach.
  destruct (ag_brokerWfs s !! b_ID (bo b)); simpl; [destruct (detached _ _); simpl; [done|]|];
    by destruct (mjoin (head (v_ids _))).
Qed.

Lemma deployed_store : deployed.(ag_store) = small_agent.(ag_store).
Proof. exact (setupBroker_store (small_broker 3 7) small_agent). Qed.

(** Workflow 7 is destroyed for the first time. *)
Definition destroy_cmd : CmdTask := put_c_WorkflowID 7 (cmd RequestDestroyWf None).

Lemma commands_are_answered_witness :
  exists s' es r, handle_cmd destroy_cmd deployed = (s', Returned tt) /\
    s'.(ag_out) = deployed.(ag_out) ++ es /\ r ∈ replies es /\ answers destroy_cmd r /\
    s_ok s'.(ag_store) /\ s'.(ag_hub).(h_Client) = true.
Proof.
  apply (commands_are_answered destroy_cmd deployed); [rewrite deployed_store; apply small_store_ok|vm_compute; reflexivity|].
  split_and!; [reflexivity|intros Hin; repeat (apply elem_of_cons in Hin as [Hin|Hin]; [by vm_compute in Hin|]); by apply elem_of_nil in Hin|done|]. intros _. rewrite deployed_store. split.
  - vm_compute. reflexivity.
  - intros bid sub _ Hs. split; [|reflexivity]. vm_compute. reflexivity.
Defined.

(** The message broker with that subscriber. *)
Lemma one_subscriber :
  exists w : AgentBroker.world CmdReplyTask, AgentBroker.reachable w /\
    w.(AgentBroker.broker).(AgentBroker.objects) !! "sub1" = Some AgentBroker.NewSubscriber /\
    existsb (AgentBroker.sends_to "sub1") w.(AgentBroker.procs) = false.
Proof.
  eexists. split; [eapply rtc_once, (AgentBroker.s_create _ _ _ "sub1"); done|]. by split.
Qed.

Lemma redeployed_broker_panics_witness :
  exists es bw bw', (setupBroker (small_broker 3 7) (Agent_DeleteWorkflow 7 deployed).1).1.(ag_out) = deployed.(ag_out) ++ es /\
    performs es bw bw' /\ AgentBroker.Panicked "close of closed channel" ∈ bw'.(AgentBroker.trace).
Proof.
  destruct (redeployed_broker_panics deployed 7 3 "sub1" (small_broker 3 7)) as (es & He & Hp);
    [rewrite deployed_store; apply small_store_ok|rewrite deployed_store; vm_compute; reflexivity
    |vm_compute; reflexivity|rewrite deployed_store; vm_compute; reflexivity|vm_compute; reflexivity|reflexivity|].
  destruct one_subscriber as (bw & R & Hs & Hn). destruct (Hp bw _ R Hs eq_refl Hn) as (bw' & H1 & H2).
  exists es, bw, bw'. exact (conj He (conj H1 H2)).
Defined.

(** ** Outputs *)

Definition echo_task (name : string) : ATask :=
  mkATask "11" "t" 7 "" "" 0 0 no_time no_time false ∅ true None 0 name ∅ "" zero_time false no_time ∅ "" "" true.

(** Task 11 on request with an executor that says two things and ends: three
    outputs, the first marked as the begin. *)
Lemma echo_outputs :
  let s := (Run (echo_task "echo") (NewExecution "11" "g") (Some (cmd InputTaskCmd (Some (msg 11 7 "{}")))) small_agent).1 in
  (fun e => match e with Go (GBroadcast r) => (r.(r_Part), r.(r_Group), r.(r_BeginPart), Output <$> r.(r_Result)) | _ => ("", "", false, None) end)
    <$> s.(ag_out)
  = [("p", "g", true, Some "one"); ("p", "g", false, Some "two")].
Proof. vm_compute. reflexivity. Qed.

(** ** The scheduler *)

Definition hourly (id : Z) : BrokerObj := mkBrokerObj (mkBroker id "b" "@hourly" [] [] (mkFlows None "") None 7) false.

Lemma broker_entries_pile_up_witness :
  length (broker_entries "3" (asched_run [AddB (hourly 3); RemB "3"; AddB (hourly 3); AddB (hourly 4); AddB (hourly 3)])) = 3%nat.
Proof.
  destruct (broker_entries_pile_up [AddB (hourly 3); RemB "3"; AddB (hourly 3); AddB (hourly 4); AddB (hourly 3)] "3") as [H _].
  rewrite H. vm_compute. reflexivity.
Defined.

Definition scheduled_task (id schedule : string) : ATask := put_at_Schedule schedule (small_task id 7 0).

Lemma start_stops_at_unscheduled_witness :
  let '(s, _, ok) := Sched_Start ([scheduled_task "11" "@hourly"] ++ scheduled_task "12" "" :: [scheduled_task "13" "@hourly"]) NewScheduler in
  ok = false /\ s.(a_started) = false /\ GetEntryTask (scheduled_task "13" "@hourly").(at_ID) s = None.
Proof.
  apply (start_stops_at_unscheduled [scheduled_task "11" "@hourly"] (scheduled_task "12" "") [scheduled_task "13" "@hourly"]
    (scheduled_task "13" "@hourly")); [vm_compute; reflexivity|by left|].
  rewrite list_elem_of_fmap. intros (t & Ht & Hin). simpl in Hin. revert Ht.
  by apply elem_of_cons in Hin as [->|[->|[]%elem_of_nil]%elem_of_cons].
Defined.
