(* ===== verification/BytePool.v ===== *)
(** Bytes, the error values of package [io] and the variable-length integers
    of [encoding/binary], which the framing of [pkg/protocol/deliverprotocol]
    is built on.  A [[]byte] is a [list byte]; the integer of a byte is taken
    with [bz], and [zb] is Go's conversion [byte(x)].

    [pkg/protocol/deliverprotocol/bpool.go]: byte buffers kept in nineteen
    pools by the logarithm of their capacity.  [sync.Pool] may hand out any
    buffer that was put, or none: [pick] is that choice. *)

From Stdlib Require Export Strings.Byte.
From S2P Require Import Prelude.

#[export] Instance byte_eq_dec : EqDecision byte := Byte.byte_eq_dec.

Notation bytes := (list byte).

Definition bz (b : byte) : Z := Z.of_N (Byte.to_N b).
Definition zb (z : Z) : byte := default x00 (Byte.of_N (Z.to_N (z mod 256))).

(** The bytes of a string literal. *)
Definition lit (s : string) : bytes := String.list_byte_of_string s.

(** The newline that separates the messages of a JSON frame. *)
Definition nl : byte := x0a.

(** The errors the codecs of this package return. *)
Inductive io_error : Type :=
| EOF
| ErrUnexpectedEOF
| ErrShortBuffer
| ErrOverflow
| ErrInvalidJSON
| ErrOther (s : string).

#[export] Instance io_error_eq_dec : EqDecision io_error.
Proof. solve_decision. Defined.

(** ** [encoding/binary]: unsigned variable-length integers *)

Definition MaxVarintLen64 : nat := 10.

(** The loop of [binary.PutUvarint] from index [i]; an [uint64] has at most
    [MaxVarintLen64] groups of seven bits, which is the fuel. *)
Fixpoint PutUvarint_loop (fuel i : nat) (buf : bytes) (x : Z) : outcome Empty_set (bytes * nat) :=
  match fuel with
  | 0 => Panic (ExplicitPanic "not an uint64")
  | S fuel =>
    if (0x80 <=? x)%Z then
      buf ← go_store buf i (zb (Z.lor (x mod 256) 0x80));
      PutUvarint_loop fuel (S i) buf (Z.shiftr x 7)
    else
      buf ← go_store buf i (zb x);
      Ok (buf, S i)
  end.

Definition PutUvarint (buf : bytes) (x : Z) : outcome Empty_set (bytes * nat) :=
  PutUvarint_loop MaxVarintLen64 0 buf x.

(** The loop of [binary.Uvarint]: the value and the number of bytes read, zero
    when the buffer ends early and negative on overflow. *)
Fixpoint Uvarint_loop (i : nat) (x s : Z) (buf : bytes) : Z * Z :=
  match buf with
  | [] => (0, 0)%Z
  | b :: rest =>
    if i =? MaxVarintLen64 then (0, - (Z.of_nat i + 1))%Z
    else if (bz b <? 0x80)%Z then
      if (i =? MaxVarintLen64 - 1) && (1 <? bz b)%Z then (0, - (Z.of_nat i + 1))%Z
      else (Z.lor x (wrap_u64 (Z.shiftl (bz b) s)), Z.of_nat i + 1)%Z
    else Uvarint_loop (S i) (Z.lor x (wrap_u64 (Z.shiftl (Z.land (bz b) 0x7f) s))) (s + 7) rest
  end.

Definition Uvarint (buf : bytes) : Z * Z := Uvarint_loop 0 0 0 buf.

(** ** Readers

    A [bufio.Reader] over a connection's frame: the bytes still to come and
    the error the underlying reader reports behind them. *)

Record Reader := mkReader { r_rest : bytes; r_err : io_error }.

Definition ReadByte (r : Reader) : Reader * (io_error + byte) :=
  match r.(r_rest) with
  | [] => (r, inl r.(r_err))
  | b :: rest => (mkReader rest r.(r_err), inr b)
  end.

(** [bufio.Reader.ReadBytes]: through the first [delim], or everything that is
    left together with the reader's error. *)
Definition ReadBytes (delim : byte) (r : Reader) : Reader * bytes * option io_error :=
  match list_find (eq delim) r.(r_rest) with
  | Some (i, _) => (mkReader (drop (S i) r.(r_rest)) r.(r_err), take (S i) r.(r_rest), None)
  | None => (mkReader [] r.(r_err), r.(r_rest), Some r.(r_err))
  end.

(** [io.ReadFull] into a buffer of [n] bytes. *)
Definition ReadFull (n : nat) (r : Reader) : Reader * bytes * option io_error :=
  let got := take n r.(r_rest) in
  let r' := mkReader (drop n r.(r_rest)) r.(r_err) in
  if length got =? n then (r', got, None)
  else if (0 <? length got) && bool_decide (r.(r_err) = EOF) then (r', got, Some ErrUnexpectedEOF)
  else (r', got, Some r.(r_err)).

Fixpoint ReadUvarint_loop (fuel i : nat) (x s : Z) (r : Reader) : Reader * (io_error + Z) :=
  match fuel with
  | 0 => (r, inl ErrOverflow)
  | S fuel =>
    match ReadByte r with
    | (r, inl e) =>
      (r, inl (if (0 <? i) && bool_decide (e = EOF) then ErrUnexpectedEOF else e))
    | (r, inr b) =>
      if (bz b <? 0x80)%Z then
        if (i =? MaxVarintLen64 - 1) && (1 <? bz b)%Z then (r, inl ErrOverflow)
        else (r, inr (Z.lor x (wrap_u64 (Z.shiftl (bz b) s))))
      else ReadUvarint_loop fuel (S i) (Z.lor x (wrap_u64 (Z.shiftl (Z.land (bz b) 0x7f) s))) (s + 7) r
    end
  end.

Definition ReadUvarint (r : Reader) : Reader * (io_error + Z) :=
  ReadUvarint_loop MaxVarintLen64 0 0 0 r.

(** ** The encoding as a function of the integer *)

Fixpoint uvarint_groups (fuel : nat) (x : Z) : bytes :=
  match fuel with
  | 0 => []
  | S fuel =>
    if (0x80 <=? x)%Z then zb (Z.lor (x mod 256) 0x80) :: uvarint_groups fuel (Z.shiftr x 7)
    else [zb x]
  end.

Definition uvarint (x : Z) : bytes := uvarint_groups MaxVarintLen64 x.

(** ** Facts *)

(** Linear arithmetic with quotients and remainders by constants. *)
Ltac mod_lia := Z.to_euclidean_division_equations; lia.

Lemma bz_range b : (0 <= bz b < 256)%Z.
Proof. destruct b; vm_compute; split; congruence. Qed.

Lemma zb_bz b : zb (bz b) = b.
Proof. destruct b; reflexivity. Qed.

Lemma bz_zb z : bz (zb z) = (z mod 256)%Z.
Proof.
  unfold bz, zb. pose proof (Z.mod_pos_bound z 256 ltac:(lia)) as Hb.
  destruct (Byte.of_N (Z.to_N (z mod 256))) as [b|] eqn:Hof; simpl.
  - apply Byte.to_of_N in Hof. rewrite Hof. lia.
  - apply Byte.of_N_None_iff in Hof. lia.
Qed.

Lemma bz_inj a b : bz a = bz b -> a = b.
Proof. intros H. rewrite <- (zb_bz a), <- (zb_bz b). by rewrite H. Qed.

#[export] Hint Rewrite bz_zb zb_bz : kairos_len.

(** A property of the integers below 256 is checked byte by byte. *)
Lemma below_256 (P : Z -> Prop) : (forall b, P (bz b)) -> forall y, (0 <= y < 256)%Z -> P y.
Proof. intros H y Hy. specialize (H (zb y)). by rewrite bz_zb, Z.mod_small in H by lia. Qed.

(** Setting the continuation bit of a group. *)
Lemma group_bits x : Z.lor (x mod 256) 128 = (128 + x mod 128)%Z.
Proof.
  replace (x mod 128)%Z with ((x mod 256) mod 128)%Z by mod_lia.
  apply (below_256 (fun y => Z.lor y 128 = 128 + y mod 128)%Z).
  - intros b. destruct b; reflexivity.
  - mod_lia.
Qed.

Lemma land_127 y : (0 <= y < 256)%Z -> Z.land y 127 = (y mod 128)%Z.
Proof. revert y. apply below_256. intros b. destruct b; reflexivity. Qed.

(** Or-ing a value in above the bits that are there adds it. *)
Lemma lor_shift_add x v s :
  (0 <= s)%Z -> (0 <= x < 2 ^ s)%Z -> (0 <= v)%Z -> (v * 2 ^ s < 2 ^ 64)%Z ->
  Z.lor x (wrap_u64 (Z.shiftl v s)) = (x + v * 2 ^ s)%Z.
Proof.
  intros Hs Hx Hv Hlt. unfold wrap_u64. rewrite Z.shiftl_mul_pow2 by lia.
  rewrite Z.mod_small by nia.
  pose proof (Z.add_lor_land x (v * 2 ^ s)) as Hal.
  enough (Z.land x (v * 2 ^ s) = 0)%Z by lia.
  apply Z.bits_inj'. intros n Hn. rewrite Z.land_spec, Z.bits_0.
  destruct (Z.lt_ge_cases n s).
  - rewrite Z.mul_pow2_bits_low by lia. apply andb_false_r.
  - assert (Hx0 : (0 <= x)%Z) by lia. destruct (Z.eq_dec x 0) as [->|Hne]; [by rewrite Z.bits_0|].
    rewrite (Z.bits_above_log2 x n); [done|lia|].
    apply Z.log2_lt_pow2; [lia|]. eapply Z.lt_le_trans; [apply Hx|].
    apply Z.pow_le_mono_r; lia.
Qed.

(** The state of a decoding loop that has read [i] groups with value [x] and
    has the groups of [v] in front of it. *)
Definition at_group (i fuel : nat) (x s v : Z) : Prop :=
  (s = 7 * Z.of_nat i /\ 0 <= x < 2 ^ s /\ 0 <= v < 2 ^ (7 * Z.of_nat fuel) /\ v * 2 ^ s < 2 ^ 64)%Z /\
  i + fuel <= MaxVarintLen64.

Lemma at_group_last i fuel x s v :
  at_group i (S fuel) x s v -> (v < 128)%Z ->
  (i =? MaxVarintLen64) = false /\ ((i =? MaxVarintLen64 - 1) && (1 <? v)%Z) = false /\
  bz (zb v) = v /\ Z.lor x (wrap_u64 (Z.shiftl v s)) = (x + v * 2 ^ s)%Z.
Proof.
  intros [(-> & Hx & Hv & Hlt) Hi] Hv1. unfold MaxVarintLen64 in *. split_and!.
  - apply Nat.eqb_neq. lia.
  - change (10 - 1) with 9. destruct (Nat.eqb_spec i 9) as [->|]; [|done]. apply Z.ltb_ge.
    change (2 ^ (7 * Z.of_nat 9))%Z with (2 ^ 63)%Z in Hlt. lia.
  - rewrite bz_zb. apply Z.mod_small. lia.
  - apply lor_shift_add; lia.
Qed.

Lemma at_group_step i fuel x s v b :
  at_group i (S fuel) x s v -> (128 <= v)%Z -> b = zb (Z.lor (v mod 256) 0x80) ->
  exists x', Z.lor x (wrap_u64 (Z.shiftl (Z.land (bz b) 0x7f) s)) = x' /\
    (x' + Z.shiftr v 7 * 2 ^ (s + 7) = x + v * 2 ^ s)%Z /\
    (bz b <? 128)%Z = false /\ (i =? MaxVarintLen64) = false /\
    at_group (S i) fuel x' (s + 7) (Z.shiftr v 7).
Proof.
  intros [(-> & Hx & Hv & Hlt) Hi] Hv1 ->. unfold MaxVarintLen64 in *.
  assert (Hb : bz (zb (Z.lor (v mod 256) 128)) = (128 + v mod 128)%Z) by (rewrite bz_zb, group_bits; mod_lia).
  rewrite Hb. set (s := (7 * Z.of_nat i)%Z) in *.
  assert (Hp : (0 < 2 ^ s)%Z) by (apply Z.pow_pos_nonneg; lia).
  assert (Hp7 : (2 ^ (s + 7) = 2 ^ s * 128)%Z) by (rewrite Z.pow_add_r by lia; lia).
  assert (Hd : (v = 128 * (v / 128) + v mod 128)%Z) by (apply Z.div_mod; lia).
  pose proof (Z.mod_pos_bound v 128 ltac:(lia)) as Hm.
  rewrite land_127 by lia. replace ((128 + v mod 128) mod 128)%Z with (v mod 128)%Z by mod_lia.
  rewrite Z.shiftr_div_pow2 by lia. change (2 ^ 7)%Z with 128%Z.
  assert (Hf : (2 ^ (7 * Z.of_nat (S fuel)) = 2 ^ (7 * Z.of_nat fuel) * 128)%Z).
  { rewrite <- (Z.pow_add_r 2 _ 7) by lia. f_equal. lia. }
  clear Hb. remember (v / 128)%Z as q eqn:Hq. remember (v mod 128)%Z as m eqn:Hmd.
  clear Hq Hmd. subst v.
  eexists. split; [reflexivity|]. rewrite lor_shift_add by nia. split_and!.
  - rewrite Hp7. ring.
  - apply Z.ltb_ge. lia.
  - apply Nat.eqb_neq. lia.
  - unfold at_group, MaxVarintLen64. rewrite Hp7. split_and!; first [lia | nia].
Qed.

Lemma uvarint_groups_S fuel x :
  uvarint_groups (S fuel) x =
    if (0x80 <=? x)%Z then zb (Z.lor (x mod 256) 0x80) :: uvarint_groups fuel (Z.shiftr x 7) else [zb x].
Proof. done. Qed.

Lemma Uvarint_loop_cons i x s b rest :
  Uvarint_loop i x s (b :: rest) =
    if i =? MaxVarintLen64 then (0, - (Z.of_nat i + 1))%Z
    else if (bz b <? 0x80)%Z then
      if (i =? MaxVarintLen64 - 1) && (1 <? bz b)%Z then (0, - (Z.of_nat i + 1))%Z
      else (Z.lor x (wrap_u64 (Z.shiftl (bz b) s)), Z.of_nat i + 1)%Z
    else Uvarint_loop (S i) (Z.lor x (wrap_u64 (Z.shiftl (Z.land (bz b) 0x7f) s))) (s + 7) rest.
Proof. done. Qed.

Lemma ReadUvarint_loop_cons fuel i x s b rest e :
  ReadUvarint_loop (S fuel) i x s (mkReader (b :: rest) e) =
    let r := mkReader rest e in
    if (bz b <? 0x80)%Z then
      if (i =? MaxVarintLen64 - 1) && (1 <? bz b)%Z then (r, inl ErrOverflow)
      else (r, inr (Z.lor x (wrap_u64 (Z.shiftl (bz b) s))))
    else ReadUvarint_loop fuel (S i) (Z.lor x (wrap_u64 (Z.shiftl (Z.land (bz b) 0x7f) s))) (s + 7) r.
Proof. done. Qed.

Lemma at_group_fuel i x s v : at_group i 0 x s v -> v = 0%Z.
Proof. intros [(_ & _ & Hv & _) _]. change (2 ^ (7 * Z.of_nat 0))%Z with 1%Z in Hv. lia. Qed.

Lemma Uvarint_loop_groups fuel i x s v rest :
  at_group i (S fuel) x s v ->
  Uvarint_loop i x s (uvarint_groups (S fuel) v ++ rest) =
    (x + v * 2 ^ s, Z.of_nat (i + length (uvarint_groups (S fuel) v)))%Z.
Proof.
  revert i x s v. induction fuel as [|fuel IH]; intros i x s v Hat; rewrite uvarint_groups_S.
  all: destruct (Z.leb_spec 128 v) as [Hv|Hv]; rewrite <- app_comm_cons.
  2, 4: destruct (at_group_last _ _ _ _ _ Hat Hv) as (Hi & Hl & Hb & Hor).
  2, 3: rewrite Uvarint_loop_cons, Hi, Hb, Hl, Hor; destruct (Z.ltb_spec v 128); [|lia]; f_equal; simpl; lia.
  all: destruct (at_group_step _ _ _ _ _ _ Hat Hv eq_refl) as (x' & Hx' & Hsum & Hb & Hi & Hat').
  - apply at_group_fuel in Hat'. rewrite Z.shiftr_div_pow2 in Hat' by lia.
    change (2 ^ 7)%Z with 128%Z in Hat'. mod_lia.
  - rewrite Uvarint_loop_cons, Hi, Hb, Hx', IH by done. rewrite Hsum. f_equal. simpl length. lia.
Qed.

Lemma ReadUvarint_loop_groups fuel i x s v rest e :
  at_group i (S fuel) x s v ->
  ReadUvarint_loop (S fuel) i x s (mkReader (uvarint_groups (S fuel) v ++ rest) e) =
    (mkReader rest e, inr (x + v * 2 ^ s)%Z).
Proof.
  revert i x s v. induction fuel as [|fuel IH]; intros i x s v Hat; rewrite uvarint_groups_S.
  all: destruct (Z.leb_spec 128 v) as [Hv|Hv]; rewrite <- app_comm_cons.
  2, 4: destruct (at_group_last _ _ _ _ _ Hat Hv) as (Hi & Hl & Hb & Hor).
  2, 3: rewrite ReadUvarint_loop_cons, Hb, Hl, Hor; by destruct (Z.ltb_spec v 128); [|lia].
  all: destruct (at_group_step _ _ _ _ _ _ Hat Hv eq_refl) as (x' & Hx' & Hsum & Hb & Hi & Hat').
  - apply at_group_fuel in Hat'. rewrite Z.shiftr_div_pow2 in Hat' by lia.
    change (2 ^ 7)%Z with 128%Z in Hat'. mod_lia.
  - rewrite ReadUvarint_loop_cons, Hb, Hx'. cbv zeta. rewrite IH by done. by rewrite Hsum.
Qed.

Lemma at_group_start x : (0 <= x < 2 ^ 64)%Z -> at_group 0 MaxVarintLen64 0 0 x.
Proof.
  intros Hx. split; [|done]. change (2 ^ 0)%Z with 1%Z.
  change (2 ^ (7 * Z.of_nat MaxVarintLen64))%Z with (2 ^ 70)%Z. lia.
Qed.

(** Reading what was written, whatever follows it. *)
Lemma Uvarint_uvarint x rest : (0 <= x < 2 ^ 64)%Z ->
  Uvarint (uvarint x ++ rest) = (x, Z.of_nat (length (uvarint x))).
Proof.
  intros Hx. unfold Uvarint, uvarint, MaxVarintLen64. rewrite (Uvarint_loop_groups 9) by (by apply at_group_start).
  f_equal. change (2 ^ 0)%Z with 1%Z. lia.
Qed.

Lemma ReadUvarint_uvarint x rest e : (0 <= x < 2 ^ 64)%Z ->
  ReadUvarint (mkReader (uvarint x ++ rest) e) = (mkReader rest e, inr x).
Proof.
  intros Hx. unfold ReadUvarint, uvarint, MaxVarintLen64. rewrite (ReadUvarint_loop_groups 9) by (by apply at_group_start).
  do 2 f_equal. change (2 ^ 0)%Z with 1%Z. lia.
Qed.

Lemma uvarint_groups_nonempty fuel x : 0 < length (uvarint_groups (S fuel) x).
Proof. rewrite uvarint_groups_S. destruct (_ <=? _)%Z; apply Nat.lt_0_succ. Qed.

Lemma uvarint_nonempty x : 0 < length (uvarint x).
Proof. apply uvarint_groups_nonempty. Qed.

(** Dropping a group leaves one group fewer. *)
Lemma shiftr_group k x :
  (0 <= x < 2 ^ (7 * Z.of_nat (S k)))%Z -> (0 <= Z.shiftr x 7 < 2 ^ (7 * Z.of_nat k))%Z.
Proof.
  intros Hx. assert (Hk : (2 ^ (7 * Z.of_nat (S k)) = 128 * 2 ^ (7 * Z.of_nat k))%Z).
  { change 128%Z with (2 ^ 7)%Z. rewrite <- (Z.pow_add_r 2 7) by lia. f_equal. lia. }
  rewrite Z.shiftr_div_pow2 by lia. change (2 ^ 7)%Z with 128%Z.
  split; [apply Z.div_pos; lia|apply Z.div_lt_upper_bound; lia].
Qed.

(** [k] groups hold the integers of [7 * k] bits. *)
Lemma uvarint_groups_len fuel k x :
  (0 <= x < 2 ^ (7 * Z.of_nat (S k)))%Z -> length (uvarint_groups fuel x) <= S k.
Proof.
  revert k x. induction fuel as [|fuel IH]; intros k x Hx; [simpl; lia|]. rewrite uvarint_groups_S.
  destruct (Z.leb_spec 128 x) as [H|H]; [|simpl; lia]. destruct k as [|k].
  { change (2 ^ (7 * Z.of_nat 1))%Z with 128%Z in Hx. lia. }
  apply shiftr_group, (IH k) in Hx. rewrite length_cons. lia.
Qed.

Lemma go_store_app {E A} (done : list A) (y : A) rest x :
  go_store (E:=E) (done ++ y :: rest) (length done) x = Ok ((done ++ [x]) ++ rest).
Proof.
  unfold go_store. rewrite decide_True by (rewrite length_app; simpl; lia).
  by rewrite list_insert_middle || (rewrite insert_app_r_alt, Nat.sub_diag by lia; simpl; by rewrite <- app_assoc).
Qed.

Lemma PutUvarint_loop_S fuel i buf x :
  PutUvarint_loop (S fuel) i buf x =
    if (0x80 <=? x)%Z then
      buf ← go_store buf i (zb (Z.lor (x mod 256) 0x80)); PutUvarint_loop fuel (S i) buf (Z.shiftr x 7)
    else buf ← go_store buf i (zb x); Ok (buf, S i).
Proof. done. Qed.

Lemma PutUvarint_loop_groups fuel written room x :
  (0 <= x < 2 ^ (7 * Z.of_nat (S fuel)))%Z ->
  PutUvarint_loop (S fuel) (length written) (written ++ room) x =
    let enc := uvarint_groups (S fuel) x in
    if length enc <=? length room
    then Ok (written ++ enc ++ drop (length enc) room, length written + length enc)
    else Panic IndexOutOfRange.
Proof.
  revert written room x. induction fuel as [|fuel IH]; intros written room x Hx.
  all: rewrite uvarint_groups_S, PutUvarint_loop_S.
  all: destruct (Z.leb_spec 128 x) as [H|H].
  { change (2 ^ (7 * Z.of_nat 1))%Z with 128%Z in Hx. lia. }
  1, 3: destruct room as [|y room]; [unfold go_store; rewrite decide_False by (rewrite length_app; simpl; lia); done|].
  1, 2: rewrite go_store_app; simpl; f_equal; f_equal; [by rewrite <- app_assoc|lia].
  destruct room as [|y room].
  - unfold go_store. rewrite decide_False by (rewrite length_app; simpl; lia).
    cbv zeta. rewrite length_cons. done.
  - rewrite go_store_app. change (mbind ?f (Ok ?a)) with (f a). cbv beta.
    replace (S (length written)) with (length (written ++ [zb (Z.lor (x mod 256) 128)]))
      by (rewrite length_app; simpl; lia).
    rewrite IH. 
    + cbv zeta. rewrite !length_cons, length_app. cbn [length Nat.leb].
      destruct (_ <=? _); [|done]. f_equal. f_equal; [|lia]. rewrite <- app_assoc. done.
    + by apply shiftr_group.
Qed.

(** [PutUvarint] writes [uvarint x] at the front of the buffer, or panics when
    the buffer is too short for it. *)
Lemma PutUvarint_spec buf x : (0 <= x < 2 ^ 64)%Z ->
  PutUvarint buf x =
    if length (uvarint x) <=? length buf
    then Ok (uvarint x ++ drop (length (uvarint x)) buf, length (uvarint x))
    else Panic IndexOutOfRange.
Proof.
  intros Hx. unfold PutUvarint, uvarint, MaxVarintLen64.
  apply (PutUvarint_loop_groups 9 [] buf x). change (7 * Z.of_nat 10)%Z with 70%Z. lia.
Qed.

(** [cap_B] is the capacity of the slice [B]. *)
Record ByteBuffer := mkBB { B : bytes; cap_B : Z }.

Definition ByteBuffer_Reset (bb : ByteBuffer) : ByteBuffer := mkBB [] bb.(cap_B).

(** [Write] appends; [grown] is the capacity the runtime chooses when the
    slice must grow. *)
Definition ByteBuffer_Write (grown : Z) (bb : ByteBuffer) (p : bytes) : ByteBuffer * Z :=
  let n := Z.of_nat (length bb.(B) + length p) in
  (mkBB (bb.(B) ++ p) (if (n <=? bb.(cap_B))%Z then bb.(cap_B) else Z.max grown n), Z.of_nat (length p)).

Notation pools := (list (list ByteBuffer)).
Definition new_pools : pools := replicate 19 [].

Definition maxBufferLength : Z := 262144.

(** [bits.Len32]. *)
Definition Len32 (x : Z) : Z := if (x =? 0)%Z then 0 else (Z.log2 x + 1)%Z.

Definition nextLogBase2 (v : Z) : Z := Len32 (wrap_u32 (v - 1)).

Definition prevLogBase2 (num : Z) : Z :=
  let next := nextLogBase2 num in
  if (num =? wrap_u32 (Z.shiftl 1 next))%Z then next else wrap_u32 (next - 1).

(** [make([]byte, 0, n)]: the run-time panics on a negative capacity and on
    one above its limit. *)
Definition go_make (max_alloc n : Z) : outcome Empty_set ByteBuffer :=
  if ((n <? 0) || (max_alloc <? n))%Z then Panic SliceOutOfRange else Ok (mkBB [] n).

Definition getByteBuffer (max_alloc : Z) (pick : option nat) (ps : pools) (len : Z)
    : outcome Empty_set (pools * ByteBuffer) :=
  if (len =? 0)%Z then Ok (ps, mkBB [] 0)
  else if (maxBufferLength <? len)%Z then bb ← go_make max_alloc len; Ok (ps, bb)
  else
    let idx := Z.to_nat (nextLogBase2 (wrap_u32 len)) in
    pool ← go_index ps idx;
    match pick ≫= fun i => bb ← pool !! i; Some (i, bb) with
    | Some (i, bb) => Ok (<[idx := delete i pool]> ps, bb)
    | None => bb ← go_make max_alloc (Z.shiftl 1 (Z.of_nat idx)); Ok (ps, bb)
    end.

Definition putByteBuffer (ps : pools) (bb : ByteBuffer) : outcome Empty_set pools :=
  let capacity := bb.(cap_B) in
  if ((capacity =? 0) || (maxBufferLength <? capacity))%Z then Ok ps
  else
    let idx := Z.to_nat (prevLogBase2 (wrap_u32 capacity)) in
    pool ← go_index ps idx;
    go_store ps idx (pool ++ [ByteBuffer_Reset bb]).

(** ** Invariant: a pool holds empty buffers of at least its power of two *)

Definition buffer_in (idx : nat) (bb : ByteBuffer) : Prop :=
  bb.(B) = [] /\ (2 ^ Z.of_nat idx <= bb.(cap_B) <= maxBufferLength)%Z.

Record pools_ok (ps : pools) : Prop := {
  pools_len : length ps = 19;
  pools_fit idx pool bb : ps !! idx = Some pool -> bb ∈ pool -> buffer_in idx bb }.

Lemma Len32_bounds x : (0 <= x)%Z -> (x < 2 ^ Len32 x)%Z /\ ((0 < x)%Z -> (2 ^ (Len32 x - 1) <= x)%Z).
Proof.
  intros Hx. unfold Len32. destruct (Z.eqb_spec x 0) as [->|Hne]; [split; lia|].
  pose proof (Z.log2_spec x ltac:(lia)) as [Hl Hu]. split; [by rewrite Z.add_1_r|].
  intros _. by replace (Z.log2 x + 1 - 1)%Z with (Z.log2 x) by lia.
Qed.

(** Rounding up: the smallest power of two that is not below [v]. *)
Lemma nextLogBase2_spec v : (1 <= v <= maxBufferLength)%Z ->
  (0 <= nextLogBase2 v <= 18)%Z /\ (v <= 2 ^ nextLogBase2 v)%Z /\
  ((1 < v)%Z -> (2 ^ (nextLogBase2 v - 1) < v)%Z).
Proof.
  unfold maxBufferLength. intros Hv. unfold nextLogBase2, wrap_u32. rewrite Z.mod_small by lia.
  destruct (Len32_bounds (v - 1) ltac:(lia)) as [Hlt Hge].
  assert (Hr : (0 <= Len32 (v - 1) <= 18)%Z).
  { unfold Len32. destruct (_ =? _)%Z eqn:E; [lia|]. pose proof (Z.log2_nonneg (v - 1)).
    pose proof (Z.log2_lt_pow2 (v - 1) 18 ltac:(lia)) as [Hl _]. change (2 ^ 18)%Z with 262144%Z in Hl. lia. }
  split_and!; try lia.
Qed.

(** Rounding down: the largest power of two that is not above [v]. *)
Lemma prevLogBase2_spec v : (1 <= v <= maxBufferLength)%Z ->
  (0 <= prevLogBase2 v <= 18)%Z /\ (2 ^ prevLogBase2 v <= v < 2 ^ (prevLogBase2 v + 1))%Z.
Proof.
  intros Hv. destruct (Z.eq_dec v 1) as [->|Hv1]; [by vm_compute|].
  destruct (nextLogBase2_spec v Hv) as (Hr & Hle & Hlt). specialize (Hlt ltac:(lia)).
  unfold prevLogBase2. set (n := nextLogBase2 v) in *. clearbody n.
  assert (Hp : (2 ^ n <= 2 ^ 18)%Z) by (apply Z.pow_le_mono_r; lia).
  assert (Hpos : (0 < 2 ^ n)%Z) by (apply Z.pow_pos_nonneg; lia).
  rewrite Z.shiftl_1_l. unfold wrap_u32. rewrite (Z.mod_small (2 ^ n)) by lia.
  destruct (Z.eqb_spec v (2 ^ n)) as [->|Hne].
  { rewrite Z.pow_add_r by lia. lia. }
  destruct (Z.eq_dec n 0) as [->|]; [simpl in *; lia|].
  rewrite Z.mod_small by lia. replace (n - 1 + 1)%Z with n by lia. lia.
Qed.

Lemma pools_ok_lookup ps z : pools_ok ps -> (0 <= z <= 18)%Z -> exists pool, ps !! Z.to_nat z = Some pool.
Proof. intros Hps Hz. apply lookup_lt_is_Some. rewrite (pools_len _ Hps). lia. Qed.

Lemma pools_ok_insert ps idx pool :
  pools_ok ps -> (forall bb, bb ∈ pool -> buffer_in idx bb) -> pools_ok (<[idx := pool]> ps).
Proof.
  intros [Hlen Hfit] Hnew. split; [by rewrite length_insert|]. intros i p bb Hl Hin.
  apply list_lookup_insert_Some in Hl as [(-> & -> & _)|(_ & Hl)]; eauto.
Qed.

(** A buffer of the requested length comes back, whichever one the pool hands
    out, and the pools stay as they should. *)
Lemma getByteBuffer_spec ma pick ps len :
  pools_ok ps -> (maxBufferLength <= ma)%Z -> (0 <= len <= ma)%Z ->
  exists ps' bb, getByteBuffer ma pick ps len = Ok (ps', bb) /\ pools_ok ps' /\
    bb.(B) = [] /\ (len <= bb.(cap_B))%Z.
Proof.
  intros Hps Hma Hlen. unfold getByteBuffer, go_make.
  destruct (Z.eqb_spec len 0) as [->|Hne]; [by eexists _, _|].
  destruct (Z.ltb_spec maxBufferLength len) as [Hbig|Hsmall].
  { destruct (Z.ltb_spec len 0), (Z.ltb_spec ma len); try lia. by eexists _, _. }
  assert (Hw : wrap_u32 len = len) by (apply Z.mod_small; unfold maxBufferLength in *; lia).
  rewrite Hw. destruct (nextLogBase2_spec len ltac:(lia)) as (Hr & Hle & _).
  destruct (pools_ok_lookup _ _ Hps Hr) as [pool Hpool].
  rewrite (go_index_ok _ _ _ Hpool). simpl. rewrite Z2Nat.id by lia.
  destruct (pick ≫= _) as [[i bb]|] eqn:Hpick.
  - destruct pick as [j|]; simplify_eq/=. destruct (pool !! j) as [bb'|] eqn:Hbb; simplify_eq/=.
    destruct (pools_fit _ Hps _ _ _ Hpool (list_elem_of_lookup_2 _ _ _ Hbb)) as [HB Hcap].
    rewrite Z2Nat.id in Hcap by lia. eexists _, _. split_and!; [done| |done|lia].
    apply pools_ok_insert; [done|]. intros b Hb. apply (pools_fit _ Hps _ _ _ Hpool).
    eapply elem_of_submseteq; [exact Hb|].
    apply sublist_submseteq, sublist_delete.
  - rewrite Z.shiftl_1_l. assert (2 ^ nextLogBase2 len <= 2 ^ 18)%Z by (apply Z.pow_le_mono_r; lia).
    change (2 ^ 18)%Z with maxBufferLength in *.
    destruct (Z.ltb_spec (2 ^ nextLogBase2 len) 0), (Z.ltb_spec ma (2 ^ nextLogBase2 len)); try lia.
    by eexists _, _.
Qed.

(** Returning a buffer never panics and keeps the pools as they should be. *)
Lemma putByteBuffer_spec ps bb :
  pools_ok ps -> (0 <= bb.(cap_B))%Z ->
  exists ps', putByteBuffer ps bb = Ok ps' /\ pools_ok ps'.
Proof.
  intros Hps Hcap. unfold putByteBuffer.
  destruct (Z.eqb_spec (cap_B bb) 0) as [|Hne]; [by eexists|].
  destruct (Z.ltb_spec maxBufferLength (cap_B bb)) as [|Hle]; [by eexists|]. simpl.
  assert (Hw : wrap_u32 (cap_B bb) = cap_B bb) by (apply Z.mod_small; unfold maxBufferLength in *; lia).
  rewrite Hw. destruct (prevLogBase2_spec (cap_B bb) ltac:(lia)) as (Hr & Hpow).
  destruct (pools_ok_lookup _ _ Hps Hr) as [pool Hpool].
  rewrite (go_index_ok _ _ _ Hpool). simpl. rewrite go_store_ok by (rewrite (pools_len _ Hps); lia).
  eexists. split; [done|]. apply pools_ok_insert; [done|]. intros b Hb.
  apply elem_of_snoc in Hb as [Hb| ->]; [by eapply pools_fit|].
  split; [done|]. simpl. rewrite Z2Nat.id by lia. lia.
Qed.

(** ** Programs over the pools *)

(** Takes and returns in any order and with any choices of the pool; a buffer
    that is returned may have grown since. *)
Inductive pool_op : Type :=
| OpGet (pick : option nat) (len : Z)
| OpPut (bb : ByteBuffer).

Definition pool_step (ma : Z) (ps : pools) (o : pool_op) : outcome Empty_set pools :=
  match o with
  | OpGet pick len => '(ps', _) ← getByteBuffer ma pick ps len; Ok ps'
  | OpPut bb => putByteBuffer ps bb
  end.

Definition pool_op_ok (ma : Z) (o : pool_op) : Prop :=
  match o with OpGet _ len => (0 <= len <= ma)%Z | OpPut bb => (0 <= bb.(cap_B))%Z end.

Fixpoint pool_run (ma : Z) (ps : pools) (ops : list pool_op) : outcome Empty_set pools :=
  match ops with
  | [] => Ok ps
  | o :: ops => ps' ← pool_step ma ps o; pool_run ma ps' ops
  end.

Lemma pools_ok_new : pools_ok new_pools.
Proof.
  split; [done|]. intros idx pool bb Hl Hin. apply lookup_replicate in Hl as [-> _].
  by apply elem_of_nil in Hin.
Qed.

Lemma pool_run_ok ma ps ops :
  (maxBufferLength <= ma)%Z -> pools_ok ps -> Forall (pool_op_ok ma) ops ->
  exists ps', pool_run ma ps ops = Ok ps' /\ pools_ok ps'.
Proof.
  intros Hma Hps Hops. revert ps Hps. induction Hops as [|o ops Ho _ IH]; intros ps Hps; [by eexists|].
  destruct o as [pick len|bb]; simpl in *.
  - destruct (getByteBuffer_spec ma pick ps len Hps Hma Ho) as (ps' & bb & Hget & Hps' & _).
    rewrite Hget. simpl. auto.
  - destruct (putByteBuffer_spec ps bb Hps Ho) as (ps' & Hput & Hps'). rewrite Hput. simpl. auto.
Qed.

(** C21: however buffers were taken from and returned to the pools of
    bpool.go, and whichever buffers the pools hand out, taking and returning
    never panic, and a buffer taken for a length that can be allocated is empty
    and has room for that length. *)
Theorem getByteBuffer_has_room ma ops pick len :
  (maxBufferLength <= ma)%Z -> Forall (pool_op_ok ma) ops -> (0 <= len <= ma)%Z ->
  exists ps ps' bb, pool_run ma new_pools ops = Ok ps /\
    getByteBuffer ma pick ps len = Ok (ps', bb) /\ bb.(B) = [] /\ (len <= bb.(cap_B))%Z.
Proof.
  intros Hma Hops Hlen. destruct (pool_run_ok ma new_pools ops Hma pools_ok_new Hops) as (ps & Hrun & Hps).
  destruct (getByteBuffer_spec ma pick ps len Hps Hma Hlen) as (ps' & bb & Hget & _ & HB & Hcap). eauto 10.
Qed.

Lemma getByteBuffer_has_room_witness :
  let ops := [OpPut (mkBB [x61] 1000); OpPut (mkBB [] 512); OpGet (Some 0) 300] in
  exists ps ps' bb, pool_run (2 ^ 40) new_pools ops = Ok ps /\
    getByteBuffer (2 ^ 40) (Some 0) ps 400 = Ok (ps', bb) /\ bb.(B) = [] /\ (400 <= bb.(cap_B))%Z.
Proof.
  intros ops. apply (getByteBuffer_has_room (2 ^ 40) ops (Some 0) 400).
  - unfold maxBufferLength. lia.
  - unfold ops. repeat constructor; simpl; lia.
  - lia.
Defined.
