(* ===== verification/Framing.v ===== *)
(** The framing of [pkg/protocol/deliverprotocol]: several messages in one
    transport frame ([encode.go], [decode.go], [decode_stream.go], the pools of
    [type.go]) and the loop of [server/deliverer/handler_websocket.go] that
    reads a frame.  JSON messages are separated by newlines, Protobuf messages
    are preceded by their length.

    The payload codecs are parameters: [parse] is [json.Parse] of the segmentio
    package into a command, [UnmarshalVT] the generated Protobuf decoder. *)

From S2P Require Import Prelude BytePool.

(** ** [type.go] *)

Definition TypeJSON : string := "json".
Definition TypeProtobuf : string := "protobuf".

Definition FrameType_String (f : Z) : string :=
  match f with
  | 1 => "server_ping" | 2 => "client_pong"
  | 3 => "push_connect" | 4 => "push_subscribe" | 5 => "push_publication" | 6 => "push_join"
  | 7 => "push_leave" | 8 => "push_unsubscribe" | 9 => "push_message" | 10 => "push_refresh"
  | 11 => "push_disconnect"
  | 12 => "connect" | 13 => "subscribe" | 14 => "publish" | 15 => "unsubscribe"
  | 16 => "presence" | 17 => "presence_stats" | 18 => "history" | 19 => "refresh"
  | 20 => "sub_refresh" | 21 => "send"
  | _ => "unknown"
  end%Z.

(** ** Data encoders *)

Record JSONDataEncoder := mkJDE { jde_count : Z; jde_buffer : bytes }.
Definition NewJSONDataEncoder : JSONDataEncoder := mkJDE 0 [].
Definition JSONDataEncoder_Reset (e : JSONDataEncoder) : JSONDataEncoder := mkJDE 0 [].
Definition JSONDataEncoder_Encode (e : JSONDataEncoder) (data : bytes) : JSONDataEncoder :=
  let buffer := if (0 <? e.(jde_count))%Z then e.(jde_buffer) ++ [nl] else e.(jde_buffer) in
  mkJDE (e.(jde_count) + 1) (buffer ++ data).
Definition JSONDataEncoder_Finish (e : JSONDataEncoder) : bytes :=
  go_copy (replicate (length e.(jde_buffer)) x00) e.(jde_buffer).

Record ProtobufDataEncoder := mkPDE { pde_buffer : bytes }.
Definition NewProtobufDataEncoder : ProtobufDataEncoder := mkPDE [].
Definition ProtobufDataEncoder_Reset (e : ProtobufDataEncoder) : ProtobufDataEncoder := mkPDE [].
Definition ProtobufDataEncoder_Encode (e : ProtobufDataEncoder) (data : bytes)
    : outcome Empty_set ProtobufDataEncoder :=
  '(bs, n) ← PutUvarint (replicate 8 x00) (Z.of_nat (length data));
  hd ← go_slice bs 0 n;
  Ok (mkPDE ((e.(pde_buffer) ++ hd) ++ data)).
Definition ProtobufDataEncoder_Finish (e : ProtobufDataEncoder) : bytes :=
  go_copy (replicate (length e.(pde_buffer)) x00) e.(pde_buffer).

(** The interface [DataEncoder] with its two implementations. *)
Inductive DataEncoder : Type :=
| DEJSON (e : JSONDataEncoder)
| DEProtobuf (e : ProtobufDataEncoder).

Definition DataEncoder_Reset (e : DataEncoder) : DataEncoder :=
  match e with
  | DEJSON e => DEJSON (JSONDataEncoder_Reset e)
  | DEProtobuf e => DEProtobuf (ProtobufDataEncoder_Reset e)
  end.
Definition DataEncoder_Encode (e : DataEncoder) (data : bytes) : outcome Empty_set DataEncoder :=
  match e with
  | DEJSON e => Ok (DEJSON (JSONDataEncoder_Encode e data))
  | DEProtobuf e => e' ← ProtobufDataEncoder_Encode e data; Ok (DEProtobuf e')
  end.
Definition DataEncoder_Finish (e : DataEncoder) : bytes :=
  match e with
  | DEJSON e => JSONDataEncoder_Finish e
  | DEProtobuf e => ProtobufDataEncoder_Finish e
  end.

(** The two pools of encoders; [pick] is the choice of [sync.Pool.Get]. *)
Record encoder_pools := mkEP { jsonDataEncoderPool : list DataEncoder; protobufDataEncoderPool : list DataEncoder }.

Definition pool_get {A} (pick : option nat) (pool : list A) : list A * option A :=
  match pick ≫= fun i => x ← pool !! i; Some (i, x) with
  | Some (i, x) => (delete i pool, Some x)
  | None => (pool, None)
  end.

Definition GetDataEncoder (pick : option nat) (ps : encoder_pools) (protoType : string)
    : encoder_pools * DataEncoder :=
  if String.eqb protoType TypeJSON then
    let '(pool, e) := pool_get pick ps.(jsonDataEncoderPool) in
    (mkEP pool ps.(protobufDataEncoderPool),
     match e with None => DEJSON NewJSONDataEncoder | Some e => DataEncoder_Reset e end)
  else
    let '(pool, e) := pool_get pick ps.(protobufDataEncoderPool) in
    (mkEP ps.(jsonDataEncoderPool) pool,
     match e with None => DEProtobuf NewProtobufDataEncoder | Some e => DataEncoder_Reset e end).

Definition PutDataEncoder (ps : encoder_pools) (protoType : string) (e : DataEncoder) : encoder_pools :=
  if String.eqb protoType TypeJSON then mkEP (ps.(jsonDataEncoderPool) ++ [e]) ps.(protobufDataEncoderPool)
  else mkEP ps.(jsonDataEncoderPool) (ps.(protobufDataEncoderPool) ++ [e]).

(** [for i := range messages { _ = encoder.Encode(messages[i]) }]. *)
Fixpoint encode_messages (e : DataEncoder) (messages : list bytes) : outcome Empty_set DataEncoder :=
  match messages with
  | [] => Ok e
  | m :: messages => e' ← DataEncoder_Encode e m; encode_messages e' messages
  end.

Section Codec.
Context {Cmd : Type}.

(** ** Command encoders

    [MarshalVT] is the generated Protobuf encoder. *)

Definition ProtobufCommandEncoder_Encode (MarshalVT : Cmd -> io_error + bytes) (cmd : Cmd)
    : outcome io_error bytes :=
  match MarshalVT cmd with
  | inl e => Err e
  | inr commandBytes =>
    match PutUvarint (replicate 8 x00) (Z.of_nat (length commandBytes)) with
    | Ok (bs, n) => hd ← go_slice bs 0 n; Ok (hd ++ commandBytes)
    | Err e => match e with end
    | Panic p => Panic p
    end
  end.

(** ** Command decoders *)

Context (parse UnmarshalVT : bytes -> io_error + Cmd).

Record JSONCommandDecoder := mkJCD {
  jcd_data : bytes; jcd_messageCount : nat; jcd_prevNewLine : nat; jcd_numMessagesRead : nat }.

Definition NewJSONCommandDecoder (data : bytes) : JSONCommandDecoder :=
  let messageCount := length (filter (eq nl) data) + 1 in
  let messageCount :=
    if (length data =? 0) || bool_decide (last data = Some nl) then messageCount - 1 else messageCount in
  mkJCD data messageCount 0 0.

Definition JSONCommandDecoder_Reset (d : JSONCommandDecoder) (data : bytes) : JSONCommandDecoder :=
  let messageCount := length (filter (eq nl) data) + 1 in
  let messageCount :=
    if (length data =? 0) || bool_decide (last data = Some nl) then messageCount - 1 else messageCount in
  mkJCD data messageCount 0 0.

(** What [Decode] returns: the command pointer and the error. *)
Notation decoded := (option Cmd * option io_error)%type.

Definition JSONCommandDecoder_Decode (d : JSONCommandDecoder)
    : outcome Empty_set (JSONCommandDecoder * decoded) :=
  let '(mkJCD data messageCount prevNewLine numMessagesRead) := d in
  if messageCount =? 0 then Ok (d, (None, Some ErrUnexpectedEOF))
  else if messageCount =? 1 then
    match parse data with
    | inl e => Ok (d, (None, Some e))
    | inr c => Ok (d, (Some c, Some EOF))
    end
  else
    nextNewLine ←
      (if numMessagesRead =? messageCount - 1 then
         rest ← go_slice_from data prevNewLine; Ok (Some (length rest))
       else if prevNewLine <? length data then
         rest ← go_slice_from data prevNewLine; Ok (fst <$> list_find (eq nl) rest)
       else Ok None);
    match nextNewLine with
    | None => Ok (d, (None, Some ErrShortBuffer))
    | Some nextNewLine =>
      if prevNewLine + nextNewLine <=? length data then
        msg ← go_slice data prevNewLine (prevNewLine + nextNewLine);
        match parse msg with
        | inl e => Ok (d, (None, Some e))
        | inr c =>
          let d' := mkJCD data messageCount (prevNewLine + nextNewLine + 1) (numMessagesRead + 1) in
          Ok (d', (Some c, if numMessagesRead + 1 =? messageCount then Some EOF else None))
        end
      else Ok (d, (None, Some ErrShortBuffer))
    end.

Record ProtobufDecoder := mkPD { pd_data : bytes; pd_offset : Z }.
Definition NewProtobufCommandDecoder (data : bytes) : ProtobufDecoder := mkPD data 0.
Definition ProtobufCommandDecoder_Reset (d : ProtobufDecoder) (data : bytes) : ProtobufDecoder := mkPD data 0.

(** [s[i:j]] with [int] bounds. *)
Definition go_zslice {A} (l : list A) (i j : Z) : outcome Empty_set (list A) :=
  if ((0 <=? i) && (i <=? j) && (j <=? Z.of_nat (length l)))%Z
  then Ok (take (Z.to_nat (j - i)) (drop (Z.to_nat i) l))
  else Panic SliceOutOfRange.

Definition ProtobufCommandDecoder_Decode (d : ProtobufDecoder) : outcome Empty_set (ProtobufDecoder * decoded) :=
  let '(mkPD data offset) := d in
  let len := Z.of_nat (length data) in
  if (offset <? len)%Z then
    rest ← go_zslice data offset len;
    let '(l, n) := Uvarint rest in
    if (n <=? 0)%Z then Ok (d, (None, Some EOF))
    else
      let from := wrap_i64 (offset + n) in
      let to := wrap_i64 (offset + n + wrap_i64 l) in
      if ((0 <? to) && (to <=? len))%Z then
        cmdBytes ← go_zslice data from to;
        match UnmarshalVT cmdBytes with
        | inl e => Ok (d, (None, Some e))
        | inr c => Ok (mkPD data to, (Some c, if (to =? len)%Z then Some EOF else None))
        end
      else Ok (d, (None, Some ErrShortBuffer))
  else Ok (d, (None, Some EOF)).

(** [ProtobufReplyDecoder.Decode], with [UnmarshalVT] of replies. *)
Definition ProtobufReplyDecoder_Decode (d : ProtobufDecoder) : outcome Empty_set (ProtobufDecoder * decoded) :=
  let '(mkPD data offset) := d in
  let len := Z.of_nat (length data) in
  if (offset <? len)%Z then
    rest ← go_zslice data offset len;
    let '(l, n) := Uvarint rest in
    let to := wrap_i64 (offset + n + wrap_i64 l) in
    replyBytes ← go_zslice data (offset + n) to;
    match UnmarshalVT replyBytes with
    | inl e => Ok (d, (None, Some e))
    | inr c => Ok (mkPD data to, (Some c, None))
    end
  else Ok (d, (None, Some EOF)).

(** The interface [CommandDecoder] and the pools of [type.go]. *)
Inductive CommandDecoder : Type :=
| CDJSON (d : JSONCommandDecoder)
| CDProtobuf (d : ProtobufDecoder).

Record decoder_pools := mkDP { jsonCommandDecoderPool : list CommandDecoder; protobufCommandDecoderPool : list CommandDecoder }.

Definition GetCommandDecoder (pick : option nat) (ps : decoder_pools) (protoType : string) (data : bytes)
    : outcome Empty_set (decoder_pools * CommandDecoder) :=
  if String.eqb protoType TypeJSON then
    let '(pool, e) := pool_get pick ps.(jsonCommandDecoderPool) in
    let ps := mkDP pool ps.(protobufCommandDecoderPool) in
    match e with
    | None => Ok (ps, CDJSON (NewJSONCommandDecoder data))
    | Some (CDJSON d) => Ok (ps, CDJSON (JSONCommandDecoder_Reset d data))
    | Some (CDProtobuf _) => Panic TypeAssertion
    end
  else
    let '(pool, e) := pool_get pick ps.(protobufCommandDecoderPool) in
    let ps := mkDP ps.(jsonCommandDecoderPool) pool in
    match e with
    | None => Ok (ps, CDProtobuf (NewProtobufCommandDecoder data))
    | Some (CDProtobuf d) => Ok (ps, CDProtobuf (ProtobufCommandDecoder_Reset d data))
    | Some (CDJSON _) => Panic TypeAssertion
    end.

Definition PutCommandDecoder (ps : decoder_pools) (protoType : string) (e : CommandDecoder) : decoder_pools :=
  if String.eqb protoType TypeJSON then mkDP (ps.(jsonCommandDecoderPool) ++ [e]) ps.(protobufCommandDecoderPool)
  else mkDP ps.(jsonCommandDecoderPool) (ps.(protobufCommandDecoderPool) ++ [e]).

(** A caller that decodes until an error: the commands and the error, [None]
    when the fuel is spent. *)
Fixpoint drain {D} (decode : D -> outcome Empty_set (D * decoded)) (fuel : nat) (d : D)
    : outcome Empty_set (option (list Cmd * io_error)) :=
  match fuel with
  | 0 => Ok None
  | S fuel =>
    '(d', (c, err)) ← decode d;
    match err with
    | Some e => Ok (Some (option_list c, e))
    | None => r ← drain decode fuel d'; Ok (option_map (fun '(cs, e) => (option_list c ++ cs, e)) r)
    end
  end.

(** ** Stream decoders *)

(** What a stream's [Decode] returns: the command, its size and the error. *)
Notation streamed := (option Cmd * Z * option io_error)%type.

Definition JSONStreamCommandDecoder_Decode (r : Reader) : Reader * streamed :=
  match ReadBytes nl r with
  | (r', cmdBytes, Some err) =>
    if bool_decide (err = EOF) && (0 <? length cmdBytes) then
      match parse cmdBytes with
      | inl e => (r', (None, 0%Z, Some e))
      | inr c => (r', (Some c, Z.of_nat (length cmdBytes), None))
      end
    else (r', (None, 0%Z, Some err))
  | (r', cmdBytes, None) =>
    match parse cmdBytes with
    | inl e => (r', (None, 0%Z, Some e))
    | inr c => (r', (Some c, Z.of_nat (length cmdBytes), None))
    end
  end.

(** The buffer is taken from the pool and returned when the call ends. *)
Definition ProtobufStreamCommandDecoder_Decode (max_alloc : Z) (pick : option nat) (ps : pools) (r : Reader)
    : outcome Empty_set (pools * Reader * streamed) :=
  match ReadUvarint r with
  | (r', inl e) => Ok (ps, r', (None, 0%Z, Some e))
  | (r', inr msgLength) =>
    let len := wrap_i64 msgLength in
    '(ps, bb) ← getByteBuffer max_alloc pick ps len;
    if ((len <? 0) || (bb.(cap_B) <? len))%Z then Panic SliceOutOfRange
    else
      let '(r'', got, err) := ReadFull (Z.to_nat len) r' in
      ps ← putByteBuffer ps bb;
      match err with
      | Some e => Ok (ps, r'', (None, 0%Z, Some e))
      | None =>
        if negb (Z.of_nat (length got) =? msgLength)%Z then Ok (ps, r'', (None, 0%Z, Some ErrShortBuffer))
        else
          match UnmarshalVT got with
          | inl e => Ok (ps, r'', (None, 0%Z, Some e))
          | inr c => Ok (ps, r'', (Some c, wrap_i64 (len + 8), None))
          end
      end
  end.

(** The interface [StreamCommandDecoder] and its pools; a decoder without a
    reader is one that was put back. *)
Inductive StreamCommandDecoder : Type :=
| SDJSON (r : option Reader)
| SDProtobuf (r : option Reader).

Definition StreamCommandDecoder_Reset (d : StreamCommandDecoder) (r : option Reader) : StreamCommandDecoder :=
  match d with SDJSON _ => SDJSON r | SDProtobuf _ => SDProtobuf r end.

Record stream_pools := mkSP {
  streamJsonCommandDecoderPool : list StreamCommandDecoder; streamProtobufCommandDecoderPool : list StreamCommandDecoder }.

Definition GetStreamCommandDecoder (pick : option nat) (ps : stream_pools) (protoType : string) (r : Reader)
    : outcome Empty_set (stream_pools * StreamCommandDecoder) :=
  if String.eqb protoType TypeJSON then
    let '(pool, e) := pool_get pick ps.(streamJsonCommandDecoderPool) in
    let ps := mkSP pool ps.(streamProtobufCommandDecoderPool) in
    match e with
    | None => Ok (ps, SDJSON (Some r))
    | Some (SDJSON d) => Ok (ps, StreamCommandDecoder_Reset (SDJSON d) (Some r))
    | Some (SDProtobuf _) => Panic TypeAssertion
    end
  else
    let '(pool, e) := pool_get pick ps.(streamProtobufCommandDecoderPool) in
    let ps := mkSP ps.(streamJsonCommandDecoderPool) pool in
    match e with
    | None => Ok (ps, SDProtobuf (Some r))
    | Some (SDProtobuf d) => Ok (ps, StreamCommandDecoder_Reset (SDProtobuf d) (Some r))
    | Some (SDJSON _) => Panic TypeAssertion
    end.

Definition PutStreamCommandDecoder (ps : stream_pools) (protoType : string) (e : StreamCommandDecoder) : stream_pools :=
  let e := StreamCommandDecoder_Reset e None in
  if String.eqb protoType TypeJSON
  then mkSP (ps.(streamJsonCommandDecoderPool) ++ [e]) ps.(streamProtobufCommandDecoderPool)
  else mkSP ps.(streamJsonCommandDecoderPool) (ps.(streamProtobufCommandDecoderPool) ++ [e]).

(** ** [HandleReadFrame]

    The client is a state [St] with the operations the handler calls. *)

Context {St : Type} (HandleCommand : St -> Cmd -> Z -> St * bool) (DisconnectBadRequest : St -> St).

Definition stream_decode (protoType : string) (max_alloc : Z) (pick : option nat) (ps : pools) (r : Reader)
    : outcome Empty_set (pools * Reader * streamed) :=
  if String.eqb protoType TypeJSON then
    let '(r', d) := JSONStreamCommandDecoder_Decode r in Ok (ps, r', d)
  else ProtobufStreamCommandDecoder_Decode max_alloc pick ps r.

(** The loop of [HandleReadFrame]; [None] when the fuel is spent.  [picks] are
    the choices of the buffer pool. *)
Fixpoint read_frame_loop (protoType : string) (max_alloc : Z) (fuel : nat) (picks : nat -> option nat)
    (hadCommands : bool) (ps : pools) (r : Reader) (s : St)
    : outcome Empty_set (option (pools * St * bool)) :=
  match fuel with
  | 0 => Ok None
  | S fuel =>
    '(ps, r, (cmd, cmdProtocolSize, err)) ← stream_decode protoType max_alloc (picks fuel) ps r;
    let '(hadCommands, s, proceed) :=
      match cmd with
      | Some c => let '(s', p) := HandleCommand s c cmdProtocolSize in (true, s', p)
      | None => (hadCommands, s, true)
      end in
    if negb proceed then Ok (Some (ps, s, false))
    else
      match err with
      | Some e =>
        if bool_decide (e = EOF) then
          if negb hadCommands then Ok (Some (ps, DisconnectBadRequest s, false))
          else Ok (Some (ps, s, true))
        else Ok (Some (ps, DisconnectBadRequest s, false))
      | None => read_frame_loop protoType max_alloc fuel picks hadCommands ps r s
      end
  end.

Definition decoder_reader (d : StreamCommandDecoder) : option Reader :=
  match d with SDJSON r | SDProtobuf r => r end.

(** The decoder comes from its pool and goes back when the call returns.  Every
    round but the last consumes a byte of the frame, which is the fuel. *)
Definition HandleReadFrame (protoType : string) (max_alloc : Z) (pick : option nat) (picks : nat -> option nat)
    (sps : stream_pools) (ps : pools) (r : Reader) (s : St)
    : outcome Empty_set (option (stream_pools * pools * St * bool)) :=
  '(sps, decoder) ← GetStreamCommandDecoder pick sps protoType r;
  match decoder_reader decoder with
  | None => Panic NilDereference
  | Some r =>
    res ← read_frame_loop protoType max_alloc (S (length r.(r_rest))) picks false ps r s;
    Ok (option_map (fun '(ps, s, proceed) => (PutStreamCommandDecoder sps protoType decoder, ps, s, proceed)) res)
  end.

End Codec.
