(* ===== verification/FramingProps.v ===== *)
(** What the framing guarantees: messages come out of a frame as they went in,
    in order, with either protocol and whatever encoder the pools hand out;
    reading a frame always ends; and what a malformed Protobuf length does. *)

From S2P Require Import Prelude BytePool Framing.

(** ** The frame of a list of messages *)

Fixpoint join_nl (ms : list bytes) : bytes :=
  match ms with
  | [] => []
  | [m] => m
  | m :: ms => m ++ nl :: join_nl ms
  end.

Definition with_length (m : bytes) : bytes := uvarint (Z.of_nat (length m)) ++ m.

(** The bytes of a frame, without the buffers and pools they go through. *)
Definition frame_of (protoType : string) (ms : list bytes) : bytes :=
  if String.eqb protoType TypeJSON then join_nl ms else concat (map with_length ms).

(** A JSON message is one non-empty line; the length of a Protobuf message has
    to fit the eight bytes reserved for it. *)
Definition line (m : bytes) : Prop := m <> [] /\ nl ∉ m.
Definition short (m : bytes) : Prop := (Z.of_nat (length m) < 2 ^ 56)%Z.
Definition frameable (protoType : string) (m : bytes) : Prop :=
  if String.eqb protoType TypeJSON then line m else short m.

(** Each pool holds encoders of its own protocol. *)
Record encoder_pools_ok (ps : encoder_pools) : Prop := {
  json_pool_ok e : e ∈ ps.(jsonDataEncoderPool) -> exists j, e = DEJSON j;
  protobuf_pool_ok e : e ∈ ps.(protobufDataEncoderPool) -> exists p, e = DEProtobuf p }.

Definition new_encoder (protoType : string) : DataEncoder :=
  if String.eqb protoType TypeJSON then DEJSON NewJSONDataEncoder else DEProtobuf NewProtobufDataEncoder.

(** A frame as the transport makes it: an encoder from the pool, every message
    through it, and the encoder back to the pool. *)
Definition encode_frame (pick : option nat) (ps : encoder_pools) (protoType : string) (ms : list bytes)
    : outcome Empty_set (encoder_pools * bytes) :=
  let '(ps, e) := GetDataEncoder pick ps protoType in
  e ← encode_messages e ms;
  Ok (PutDataEncoder ps protoType e, DataEncoder_Finish e).

Lemma go_copy_full (d : bytes) : go_copy (replicate (length d) x00) d = d.
Proof. unfold go_copy. rewrite length_replicate, firstn_all, drop_ge, app_nil_r; [done|]. rewrite length_replicate. lia. Qed.

Lemma pool_get_incl {A} pick (pool pool' : list A) e :
  pool_get pick pool = (pool', e) ->
  (forall x, x ∈ pool' -> x ∈ pool) /\ (forall x, e = Some x -> x ∈ pool).
Proof.
  unfold pool_get. intros Hget. destruct (pick ≫= _) as [[i x]|] eqn:Hp; simplify_eq; [|by split].
  destruct pick as [j|]; simplify_eq/=. destruct (pool !! j) as [y|] eqn:Hy; simplify_eq/=. split.
  - intros z Hz. eapply elem_of_submseteq; [exact Hz|]. apply sublist_submseteq, sublist_delete.
  - intros z [= ->]. by eapply list_elem_of_lookup_2.
Qed.

(** Whatever encoder the pool hands out starts empty. *)
Lemma GetDataEncoder_fresh pick ps t :
  encoder_pools_ok ps ->
  encoder_pools_ok (GetDataEncoder pick ps t).1 /\ (GetDataEncoder pick ps t).2 = new_encoder t.
Proof.
  intros [Hj Hp]. unfold GetDataEncoder, new_encoder. destruct (String.eqb t TypeJSON).
  - destruct (pool_get pick (jsonDataEncoderPool ps)) as [pool e] eqn:Hget.
    apply pool_get_incl in Hget as [Hin Hsome]. split; [by split; simpl; eauto|]. simpl.
    destruct e as [e|]; [|done]. by destruct (Hj e (Hsome _ eq_refl)) as [j ->].
  - destruct (pool_get pick (protobufDataEncoderPool ps)) as [pool e] eqn:Hget.
    apply pool_get_incl in Hget as [Hin Hsome]. split; [by split; simpl; eauto|]. simpl.
    destruct e as [e|]; [|done]. by destruct (Hp e (Hsome _ eq_refl)) as [p ->].
Qed.

Lemma encode_messages_json count buffer ms :
  (0 < count)%Z ->
  encode_messages (DEJSON (mkJDE count buffer)) ms =
    Ok (DEJSON (mkJDE (count + Z.of_nat (length ms)) (buffer ++ concat (map (cons nl) ms)))).
Proof.
  revert count buffer. induction ms as [|m ms IH]; intros count buffer Hc; simpl.
  - by rewrite app_nil_r, Z.add_0_r.
  - unfold JSONDataEncoder_Encode. simpl. destruct (Z.ltb_spec 0 count); [|lia].
    rewrite IH by lia. do 3 f_equal; [lia|]. by rewrite <- !app_assoc.
Qed.

Lemma join_nl_cons m ms : join_nl (m :: ms) = m ++ concat (map (cons nl) ms).
Proof.
  revert m. induction ms as [|m' ms IH]; intros m; [by rewrite app_nil_r|].
  change (join_nl (m :: m' :: ms)) with (m ++ nl :: join_nl (m' :: ms)). by rewrite IH.
Qed.

Lemma uvarint_short m : short m -> length (uvarint (Z.of_nat (length m))) <= 8.
Proof.
  intros Hm. apply (uvarint_groups_len MaxVarintLen64 7). unfold short in Hm.
  change (7 * Z.of_nat 8)%Z with 56%Z. lia.
Qed.

Lemma put_length m : short m ->
  exists bs, PutUvarint (replicate 8 x00) (Z.of_nat (length m)) = Ok (bs, length (uvarint (Z.of_nat (length m)))) /\
    go_slice (E:=Empty_set) bs 0 (length (uvarint (Z.of_nat (length m)))) = Ok (uvarint (Z.of_nat (length m))) /\
    go_slice (E:=io_error) bs 0 (length (uvarint (Z.of_nat (length m)))) = Ok (uvarint (Z.of_nat (length m))).
Proof.
  intros Hm. pose proof (uvarint_short m Hm) as Hl. unfold short in Hm.
  rewrite PutUvarint_spec by lia. rewrite length_replicate. destruct (Nat.leb_spec (length (uvarint (Z.of_nat (length m)))) 8); [|lia].
  eexists. split; [done|]. unfold go_slice.
  split; rewrite decide_True by (rewrite length_app; lia); by rewrite Nat.sub_0_r, drop_0, take_app_length.
Qed.

Lemma encode_messages_protobuf buffer ms :
  Forall short ms ->
  encode_messages (DEProtobuf (mkPDE buffer)) ms =
    Ok (DEProtobuf (mkPDE (buffer ++ concat (map with_length ms)))).
Proof.
  intros Hms. revert buffer. induction Hms as [|m ms Hm _ IH]; intros buffer; simpl.
  - by rewrite app_nil_r.
  - unfold ProtobufDataEncoder_Encode. destruct (put_length m Hm) as (bs & Hput & Hsl & _).
    rewrite Hput. simpl. rewrite Hsl. simpl. rewrite IH. unfold with_length. by rewrite <- !app_assoc.
Qed.

(** The transport's frame is [frame_of], and the pools stay as they should. *)
Lemma encode_frame_spec pick ps t ms :
  encoder_pools_ok ps -> Forall (frameable t) ms ->
  exists ps', encode_frame pick ps t ms = Ok (ps', frame_of t ms) /\ encoder_pools_ok ps'.
Proof.
  intros Hps Hms. destruct (GetDataEncoder_fresh pick ps t Hps) as [Hps' Hnew]. unfold encode_frame.
  destruct (GetDataEncoder pick ps t) as [ps1 e]. simpl in Hps', Hnew. subst e.
  unfold new_encoder, frame_of, frameable, PutDataEncoder in *. destruct (String.eqb t TypeJSON).
  - assert (Henc : exists e, encode_messages (DEJSON NewJSONDataEncoder) ms = Ok (DEJSON e) /\ jde_buffer e = join_nl ms).
    { destruct ms as [|m ms]; [by eexists|]. rewrite join_nl_cons. simpl.
      unfold JSONDataEncoder_Encode. simpl. rewrite encode_messages_json by (simpl; lia). by eexists. }
    destruct Henc as (e & -> & He). simpl. unfold JSONDataEncoder_Finish. rewrite He, go_copy_full.
    eexists. split; [done|]. destruct Hps' as [Hj Hp]. split; simpl; [|done].
    intros x [Hx| ->]%elem_of_snoc; eauto.
  - unfold NewProtobufDataEncoder. rewrite encode_messages_protobuf by done. simpl.
    unfold ProtobufDataEncoder_Finish. simpl. rewrite go_copy_full. eexists. split; [done|].
    destruct Hps' as [Hj Hp]. split; simpl; [done|]. intros x [Hx| ->]%elem_of_snoc; eauto.
Qed.

Section Decoding.
Context {Cmd : Type} (parse UnmarshalVT : bytes -> io_error + Cmd).

(** Decoding the messages one by one, up to the first that fails. *)
Fixpoint decode_each (decode : bytes -> io_error + Cmd) (ms : list bytes) : list Cmd * io_error :=
  match ms with
  | [] => ([], EOF)
  | m :: ms =>
    match decode m with
    | inl e => ([], e)
    | inr c => let '(cs, e) := decode_each decode ms in (c :: cs, e)
    end
  end.

Lemma list_find_nl m rest : nl ∉ m -> list_find (eq nl) (m ++ nl :: rest) = Some (length m, nl).
Proof.
  intros Hm. apply list_find_Some. split_and!; [|done|].
  - rewrite lookup_app_r by lia. by rewrite Nat.sub_diag.
  - intros j y Hl Hj <-. rewrite lookup_app_l in Hl by done. exact (Hm (list_elem_of_lookup_2 _ _ _ Hl)).
Qed.

Lemma list_find_no_nl m : nl ∉ m -> list_find (eq nl) m = None.
Proof. intros Hm. apply list_find_None, Forall_forall. by intros x Hx <-. Qed.

Lemma count_nl_line m rest : nl ∉ m -> length (filter (eq nl) (m ++ rest)) = length (filter (eq nl) rest).
Proof.
  intros Hm. rewrite filter_app, length_app. enough (filter (eq nl) m = []) as ->; [done|].
  induction m as [|a m IH]; [done|].
  apply not_elem_of_cons in Hm as [Ha Hm]. rewrite filter_cons_False by done. auto.
Qed.

Lemma count_nl_join m ms : Forall line (m :: ms) -> length (filter (eq nl) (join_nl (m :: ms))) = length ms.
Proof.
  revert m. induction ms as [|m' ms IH]; intros m [[_ Hm] Hms]%Forall_cons.
  - simpl. rewrite <- (app_nil_r m), count_nl_line; done.
  - change (join_nl (m :: m' :: ms)) with (m ++ nl :: join_nl (m' :: ms)).
    rewrite count_nl_line by done. rewrite filter_cons_True by done. simpl. f_equal. by apply IH.
Qed.

Lemma last_join m ms : Forall line (m :: ms) -> last (join_nl (m :: ms)) <> Some nl /\ join_nl (m :: ms) <> [].
Proof.
  revert m. induction ms as [|m' ms IH]; intros m [[Hne Hm] Hms]%Forall_cons.
  - split; [|done]. simpl. rewrite last_lookup. intros Hl. exact (Hm (list_elem_of_lookup_2 _ _ _ Hl)).
  - change (join_nl (m :: m' :: ms)) with (m ++ nl :: join_nl (m' :: ms)).
    destruct (IH m' Hms) as [Hl Hn]. split; [|by destruct m].
    rewrite last_app. destruct (join_nl (m' :: ms)) as [|b rest] eqn:Hj; [done|].
    rewrite last_cons_cons. by destruct (last (b :: rest)) as [x|] eqn:Hx; [|by apply last_None in Hx].
Qed.

Lemma NewJSONCommandDecoder_frame m ms :
  Forall line (m :: ms) ->
  NewJSONCommandDecoder (join_nl (m :: ms)) = mkJCD (join_nl (m :: ms)) (S (length ms)) 0 0.
Proof.
  intros Hms. unfold NewJSONCommandDecoder. rewrite count_nl_join by done.
  destruct (last_join m ms Hms) as [Hl Hn]. rewrite bool_decide_eq_false_2 by done.
  destruct (join_nl (m :: ms)) as [|b rest] eqn:Hj; [done|]. simpl. f_equal. lia.
Qed.

(** A message in the middle of a frame, and the last one. *)
Lemma JSON_decode_middle pre m rest total k :
  nl ∉ m -> k + 1 < total ->
  JSONCommandDecoder_Decode parse (mkJCD (pre ++ m ++ nl :: rest) total (length pre) k) =
    match parse m with
    | inl e => Ok (mkJCD (pre ++ m ++ nl :: rest) total (length pre) k, (None, Some e))
    | inr c => Ok (mkJCD (pre ++ m ++ nl :: rest) total (length (pre ++ m ++ [nl])) (k + 1), (Some c, None))
    end.
Proof.
  intros Hm Hk. unfold JSONCommandDecoder_Decode, go_slice_from, go_slice.
  destruct (Nat.eqb_spec total 0), (Nat.eqb_spec total 1), (Nat.eqb_spec k (total - 1)); try lia.
  rewrite !length_app, !length_cons. destruct (Nat.ltb_spec (length pre) (length pre + (length m + S (length rest)))); [|lia].
  rewrite decide_True by lia. simpl. rewrite drop_app_length, list_find_nl by done. simpl.
  destruct (Nat.leb_spec (length pre + length m) (length pre + (length m + S (length rest)))); [|lia].
  rewrite decide_True by lia. simpl.
  replace (length pre + length m - length pre) with (length m) by lia. rewrite take_app_length.
  destruct (parse m); [done|]. do 3 f_equal; [lia|].
  destruct (Nat.eqb_spec (k + 1) total); [lia|done].
Qed.

Lemma JSON_decode_last pre m total :
  1 < total ->
  JSONCommandDecoder_Decode parse (mkJCD (pre ++ m) total (length pre) (total - 1)) =
    match parse m with
    | inl e => Ok (mkJCD (pre ++ m) total (length pre) (total - 1), (None, Some e))
    | inr c => Ok (mkJCD (pre ++ m) total (length pre + length m + 1) total, (Some c, Some EOF))
    end.
Proof.
  intros Hk. unfold JSONCommandDecoder_Decode, go_slice_from, go_slice.
  destruct (Nat.eqb_spec total 0), (Nat.eqb_spec total 1); try lia.
  rewrite Nat.eqb_refl, length_app, decide_True by lia. simpl. rewrite drop_app_length.
  destruct (Nat.leb_spec (length pre + length m) (length pre + length m)); [|lia].
  rewrite decide_True by lia. simpl.
  replace (length pre + length m - length pre) with (length m) by lia. rewrite firstn_all.
  destruct (parse m); [done|]. replace (total - 1 + 1) with total by lia. by rewrite Nat.eqb_refl.
Qed.

Lemma drain_JSON pre m ms k total :
  Forall line (m :: ms) -> 1 < total -> k + S (length ms) = total ->
  drain (JSONCommandDecoder_Decode parse) (S (length ms))
    (mkJCD (pre ++ join_nl (m :: ms)) total (length pre) k) = Ok (Some (decode_each parse (m :: ms))).
Proof.
  revert pre m k. induction ms as [|m' ms IH]; intros pre m k [[Hne Hm] Hms]%Forall_cons Ht Hk.
  - simpl length in Hk. assert (k = total - 1) as -> by lia.
    cbn [drain length]. rewrite JSON_decode_last by lia. simpl. by destruct (parse m).
  - change (join_nl (m :: m' :: ms)) with (m ++ nl :: join_nl (m' :: ms)).
    remember (length (m' :: ms)) as len eqn:Hlen. cbn [drain]. subst len. simpl length in Hk.
    rewrite JSON_decode_middle by (done || lia). simpl decode_each.
    destruct (parse m) as [e|c]; [done|]. change (mbind ?f (Ok ?a)) with (f a). cbv beta iota.
    replace (pre ++ m ++ nl :: join_nl (m' :: ms)) with ((pre ++ m ++ [nl]) ++ join_nl (m' :: ms))
      by (by rewrite <- !app_assoc).
    rewrite IH by (done || lia). simpl. destruct (parse m') as [e|c']; [done|].
    by destruct (decode_each parse ms).
Qed.

Lemma go_zslice_app {A} (pre l rest : list A) i j :
  i = Z.of_nat (length pre) -> j = (i + Z.of_nat (length l))%Z ->
  go_zslice (pre ++ l ++ rest) i j = Ok l.
Proof.
  intros -> ->. unfold go_zslice. rewrite !length_app.
  destruct (Z.leb_spec 0 (Z.of_nat (length pre))), (Z.leb_spec (Z.of_nat (length pre)) (Z.of_nat (length pre) + Z.of_nat (length l))),
    (Z.leb_spec (Z.of_nat (length pre) + Z.of_nat (length l)) (Z.of_nat (length pre + (length l + length rest)))); try lia.
  simpl. rewrite Nat2Z.id, drop_app_length.
  replace (Z.to_nat _) with (length l) by lia. by rewrite take_app_length.
Qed.

(** A length-prefixed message inside the decoder's data. *)
Lemma Protobuf_decode_step pre m rest :
  (Z.of_nat (length (pre ++ with_length m ++ rest)) < 2 ^ 62)%Z ->
  ProtobufCommandDecoder_Decode UnmarshalVT (mkPD (pre ++ with_length m ++ rest) (Z.of_nat (length pre))) =
    match UnmarshalVT m with
    | inl e => Ok (mkPD (pre ++ with_length m ++ rest) (Z.of_nat (length pre)), (None, Some e))
    | inr c => Ok (mkPD (pre ++ with_length m ++ rest) (Z.of_nat (length (pre ++ with_length m))),
                   (Some c, if bool_decide (rest = []) then Some EOF else None))
    end.
Proof.
  intros Hlen. unfold with_length in *. set (hd := uvarint (Z.of_nat (length m))) in *.
  pose proof (uvarint_nonempty (Z.of_nat (length m))) as Hhd. fold hd in Hhd.
  rewrite <- app_assoc in *. rewrite !length_app in Hlen. unfold ProtobufCommandDecoder_Decode.
  rewrite !length_app. destruct (Z.ltb_spec (Z.of_nat (length pre)) (Z.of_nat (length pre + (length hd + (length m + length rest))))); [|lia].
  rewrite <- (app_nil_r (hd ++ m ++ rest)) at 1.
  rewrite go_zslice_app by (done || rewrite ?length_app; lia). simpl.
  unfold hd at 1. rewrite Uvarint_uvarint by lia. fold hd.
  destruct (Z.leb_spec (Z.of_nat (length hd)) 0); [lia|].
  rewrite !wrap_i64_small by (rewrite ?wrap_i64_small; lia).
  destruct (Z.ltb_spec 0 (Z.of_nat (length pre) + Z.of_nat (length hd) + Z.of_nat (length m))); [|lia].
  destruct (Z.leb_spec (Z.of_nat (length pre) + Z.of_nat (length hd) + Z.of_nat (length m))
              (Z.of_nat (length pre + (length hd + (length m + length rest))))); [|lia]. simpl.
  rewrite (app_assoc pre hd). rewrite go_zslice_app by (rewrite ?length_app; lia). simpl.
  rewrite <- app_assoc. destruct (UnmarshalVT m); [done|]. do 3 f_equal; [lia|].
  destruct rest as [|b rest]; simpl length; case_bool_decide; try done;
    [destruct (Z.eqb_spec (Z.of_nat (length pre) + Z.of_nat (length hd) + Z.of_nat (length m)) (Z.of_nat (length pre + (length hd + (length m + 0))))); [done|lia]|].
  destruct (Z.eqb_spec (Z.of_nat (length pre) + Z.of_nat (length hd) + Z.of_nat (length m)) (Z.of_nat (length pre + (length hd + (length m + S (length rest)))))); [lia|done].
Qed.

Lemma length_with_length m : length m < length (with_length m).
Proof. unfold with_length. rewrite length_app. pose proof (uvarint_nonempty (Z.of_nat (length m))). lia. Qed.

Lemma with_length_nonempty m ms : concat (map with_length (m :: ms)) <> [].
Proof.
  simpl. pose proof (length_with_length m). destruct (with_length m); simpl in *; [lia|done].
Qed.

Lemma drain_Protobuf pre m ms :
  (Z.of_nat (length (pre ++ concat (map with_length (m :: ms)))) < 2 ^ 62)%Z ->
  drain (ProtobufCommandDecoder_Decode UnmarshalVT) (S (length ms))
    (mkPD (pre ++ concat (map with_length (m :: ms))) (Z.of_nat (length pre))) =
  Ok (Some (decode_each UnmarshalVT (m :: ms))).
Proof.
  revert pre m. induction ms as [|m' ms IH]; intros pre m Hlen.
  - cbn [map concat] in Hlen |- *. cbn [drain length]. rewrite Protobuf_decode_step by done.
    simpl. by destruct (UnmarshalVT m).
  - remember (m' :: ms) as ms' eqn:Hms. cbn [map concat] in Hlen |- *. cbn [drain].
    rewrite Protobuf_decode_step by done. simpl decode_each.
    destruct (UnmarshalVT m) as [e|c]; [done|]. rewrite bool_decide_eq_false_2 by (subst; apply with_length_nonempty).
    change (mbind ?f (Ok ?a)) with (f a). cbv beta iota. rewrite (app_assoc pre). subst ms'.
    change (length (m' :: ms)) with (S (length ms)). rewrite IH by (by rewrite <- app_assoc). simpl. destruct (UnmarshalVT m') as [e|c']; [done|].
    by destruct (decode_each UnmarshalVT ms).
Qed.

End Decoding.

(** ** Reading a frame *)

(** [json.Parse] skips white space behind a value. *)
Class TrailingNewline {Cmd} (parse : bytes -> io_error + Cmd) : Prop :=
  parse_trailing m : parse (m ++ [nl]) = parse m.

Section ReadFrame.
Context {Cmd St : Type} (parse UnmarshalVT : bytes -> io_error + Cmd).
Context (HandleCommand : St -> Cmd -> Z -> St * bool) (DisconnectBadRequest : St -> St).

Definition payload_decoder (protoType : string) : bytes -> io_error + Cmd :=
  if String.eqb protoType TypeJSON then parse else UnmarshalVT.

(** The size a stream decoder reports: the line with its newline, or the
    message with eight bytes for its length. *)
Definition reported_size (protoType : string) (m : bytes) (is_last : bool) : Z :=
  if String.eqb protoType TypeJSON then Z.of_nat (length m + if is_last then 0 else 1)
  else (Z.of_nat (length m) + 8)%Z.

(** What a frame does to the client: its commands are handled in order until
    one ends the connection or does not decode. *)
Fixpoint handle_each (protoType : string) (ms : list bytes) (s : St) : St * bool :=
  match ms with
  | [] => (s, true)
  | m :: ms =>
    match payload_decoder protoType m with
    | inl _ => (DisconnectBadRequest s, false)
    | inr c =>
      let '(s', proceed) := HandleCommand s c (reported_size protoType m (bool_decide (ms = []))) in
      if proceed then handle_each protoType ms s' else (s', false)
    end
  end.

Lemma JSON_stream_line m rest e :
  nl ∉ m ->
  JSONStreamCommandDecoder_Decode parse (mkReader (m ++ nl :: rest) e) =
    match parse (m ++ [nl]) with
    | inl err => (mkReader rest e, (None, 0%Z, Some err))
    | inr c => (mkReader rest e, (Some c, Z.of_nat (length m + 1), None))
    end.
Proof.
  intros Hm. unfold JSONStreamCommandDecoder_Decode, ReadBytes. simpl. rewrite list_find_nl by done.
  replace (S (length m)) with (length (m ++ [nl])) by (rewrite length_app; simpl; lia).
  replace (m ++ nl :: rest) with ((m ++ [nl]) ++ rest) by (by rewrite <- app_assoc).
  rewrite drop_app_length, take_app_length. by rewrite length_app.
Qed.

Lemma JSON_stream_last m :
  line m ->
  JSONStreamCommandDecoder_Decode parse (mkReader m EOF) =
    match parse m with
    | inl err => (mkReader [] EOF, (None, 0%Z, Some err))
    | inr c => (mkReader [] EOF, (Some c, Z.of_nat (length m), None))
    end.
Proof.
  intros [Hne Hm]. unfold JSONStreamCommandDecoder_Decode, ReadBytes. simpl. rewrite list_find_no_nl by done.
  by destruct m.
Qed.

(** An error of [Decode] other than at the end of a frame with commands. *)
Lemma read_frame_bad err had s (ps : pools) :
  (err = EOF -> had = false) ->
  (if bool_decide (err = EOF) then
     if negb had then Ok (E:=Empty_set) (Some (ps, DisconnectBadRequest s, false)) else Ok (Some (ps, s, true))
   else Ok (Some (ps, DisconnectBadRequest s, false))) = Ok (Some (ps, DisconnectBadRequest s, false)).
Proof. intros H. case_bool_decide; [|done]. by rewrite H. Qed.

(** [parse] does not report the end of the input as its error. *)
Definition no_EOF (decode : bytes -> io_error + Cmd) : Prop := forall m, decode m <> inl EOF.

Lemma read_frame_JSON `{!TrailingNewline parse} ma picks ps ms fuel had s :
  no_EOF parse -> Forall line ms -> length (join_nl ms) < fuel -> had = true \/ ms <> [] ->
  read_frame_loop parse UnmarshalVT HandleCommand DisconnectBadRequest TypeJSON ma fuel picks had ps
    (mkReader (join_nl ms) EOF) s =
  Ok (Some (ps, (handle_each TypeJSON ms s).1, (handle_each TypeJSON ms s).2)).
Proof.
  intros Hno. revert fuel had s. induction ms as [|m ms IH]; intros fuel had s Hms Hf Hhad.
  - destruct Hhad as [->|]; [|done]. destruct fuel as [|fuel]; [simpl in Hf; lia|]. done.
  - apply Forall_cons in Hms as [[Hne Hm] Hms]. destruct fuel as [|fuel]; [lia|].
    cbn [read_frame_loop]. unfold stream_decode. rewrite String.eqb_refl. cbn [handle_each].
    change (payload_decoder TypeJSON m) with (parse m). unfold reported_size. rewrite String.eqb_refl.
    destruct ms as [|m' ms].
    + change (join_nl [m]) with m in *. rewrite JSON_stream_last by done.
      destruct (parse m) as [err|c] eqn:Hp; simpl.
      { apply read_frame_bad. intros ->. by apply Hno in Hp. }
      rewrite Nat.add_0_r.
      destruct (HandleCommand s c _) as [s' [|]]; simpl; [|done].
      specialize (IH fuel true s' Hms). simpl join_nl in IH. rewrite IH; [done| |by left].
      assert (0 < length m) by (destruct m; [done|simpl; lia]). simpl. lia.
    + change (join_nl (m :: m' :: ms)) with (m ++ nl :: join_nl (m' :: ms)) in *.
      rewrite JSON_stream_line by done. rewrite (parse_trailing (parse:=parse)).
      destruct (parse m) as [err|c] eqn:Hp; simpl.
      { apply read_frame_bad. intros ->. by apply Hno in Hp. }
      destruct (HandleCommand s c _) as [s' [|]]; simpl; [|done].
      apply IH; [done| |by left]. rewrite length_app in Hf. cbn [length] in Hf. lia.
Qed.

Lemma Protobuf_stream_message ma pick ps m rest e :
  pools_ok ps -> (maxBufferLength <= ma)%Z -> (Z.of_nat (length m) <= ma)%Z -> short m ->
  exists ps', pools_ok ps' /\
    ProtobufStreamCommandDecoder_Decode UnmarshalVT ma pick ps (mkReader (with_length m ++ rest) e) =
    match UnmarshalVT m with
    | inl err => Ok (ps', mkReader rest e, (None, 0%Z, Some err))
    | inr c => Ok (ps', mkReader rest e, (Some c, Z.of_nat (length m) + 8, None)%Z)
    end.
Proof.
  intros Hps Hma Hlen Hs. unfold short in Hs. unfold ProtobufStreamCommandDecoder_Decode, with_length.
  rewrite <- app_assoc, ReadUvarint_uvarint by lia. rewrite (wrap_i64_small (Z.of_nat (length m))) by lia.
  destruct (getByteBuffer_spec ma pick ps (Z.of_nat (length m)) Hps Hma ltac:(lia)) as (ps1 & bb & -> & Hps1 & _ & Hcap).
  simpl. destruct (Z.ltb_spec (Z.of_nat (length m)) 0), (Z.ltb_spec (cap_B bb) (Z.of_nat (length m))); try lia. simpl.
  destruct (putByteBuffer_spec ps1 bb Hps1 ltac:(lia)) as (ps2 & Hput & Hps2).
  exists ps2. split; [done|]. unfold ReadFull. simpl. rewrite Nat2Z.id, take_app_length, drop_app_length, Nat.eqb_refl.
  simpl. rewrite Hput. simpl. rewrite Z.eqb_refl. simpl. by rewrite wrap_i64_small by lia.
Qed.

Lemma read_frame_Protobuf t ma picks ps ms fuel had s :
  String.eqb t TypeJSON = false ->
  no_EOF UnmarshalVT -> pools_ok ps -> (maxBufferLength <= ma)%Z ->
  Forall (fun m => short m /\ (Z.of_nat (length m) <= ma)%Z) ms ->
  length (concat (map with_length ms)) < fuel -> had = true \/ ms <> [] ->
  exists ps', read_frame_loop parse UnmarshalVT HandleCommand DisconnectBadRequest t ma fuel picks had ps
    (mkReader (concat (map with_length ms)) EOF) s =
  Ok (Some (ps', (handle_each t ms s).1, (handle_each t ms s).2)).
Proof.
  intros Ht Hno Hps Hma. revert fuel had ps s Hps. induction ms as [|m ms IH]; intros fuel had ps s Hps Hms Hf Hhad.
  - destruct Hhad as [->|]; [|done]. destruct fuel as [|fuel]; [simpl in Hf; lia|].
    exists ps. cbn [read_frame_loop]. unfold stream_decode. by rewrite Ht.
  - apply Forall_cons in Hms as [[Hs Hm] Hms]. destruct fuel as [|fuel]; [lia|].
    cbn [map concat] in Hf |- *. cbn [read_frame_loop]. unfold stream_decode. rewrite Ht. cbn [handle_each].
    unfold payload_decoder, reported_size. rewrite Ht.
    destruct (Protobuf_stream_message ma (picks fuel) ps m (concat (map with_length ms)) EOF Hps Hma Hm Hs)
      as (ps1 & Hps1 & ->). fold (payload_decoder t).
    destruct (UnmarshalVT m) as [err|c] eqn:Hp; simpl.
    { exists ps1. apply read_frame_bad. intros ->. by apply Hno in Hp. }
    destruct (HandleCommand s c _) as [s' [|]]; simpl; [|by exists ps1].
    apply IH; [done|done| |by left]. rewrite length_app in Hf. pose proof (length_with_length m). lia.
Qed.

End ReadFrame.

(** ** The properties *)

(** C8: messages that are framed by the data encoder of a connection's
    protocol, with whatever encoder the pool hands out, come out of the command
    decoder of that protocol in order: decoding the frame gives what decoding
    each message gives, up to the first that does not decode, and the end of the
    input behind the last one. *)
Theorem frame_decode_roundtrip {Cmd} (parse UnmarshalVT : bytes -> io_error + Cmd) pick ps m ms :
  encoder_pools_ok ps -> (Z.of_nat (length (frame_of TypeProtobuf (m :: ms))) < 2 ^ 62)%Z ->
  (Forall line (m :: ms) ->
    exists ps' data, encode_frame pick ps TypeJSON (m :: ms) = Ok (ps', data) /\
      drain (JSONCommandDecoder_Decode parse) (S (length ms)) (NewJSONCommandDecoder data)
        = Ok (Some (decode_each parse (m :: ms)))) /\
  (Forall short (m :: ms) ->
    exists ps' data, encode_frame pick ps TypeProtobuf (m :: ms) = Ok (ps', data) /\
      drain (ProtobufCommandDecoder_Decode UnmarshalVT) (S (length ms)) (NewProtobufCommandDecoder data)
        = Ok (Some (decode_each UnmarshalVT (m :: ms)))).
Proof.
  intros Hps Hlen. split; intros Hms.
  - destruct (encode_frame_spec pick ps TypeJSON (m :: ms) Hps Hms) as (ps' & Henc & _).
    eexists _, _. split; [exact Henc|]. change (frame_of TypeJSON (m :: ms)) with (join_nl (m :: ms)).
    rewrite NewJSONCommandDecoder_frame by done. destruct ms as [|m' ms].
    + cbn. by destruct (parse m).
    + apply (drain_JSON parse [] m (m' :: ms) 0); simpl; (done || lia).
  - destruct (encode_frame_spec pick ps TypeProtobuf (m :: ms) Hps Hms) as (ps' & Henc & _).
    eexists _, _. split; [exact Henc|]. by apply (drain_Protobuf UnmarshalVT []).
Qed.

Definition toy_decode (m : bytes) : io_error + bytes :=
  match m with [] => inl (ErrOther "empty") | _ => inr m end.

Lemma frame_decode_roundtrip_witness :
  let used := mkEP [DEJSON (mkJDE 3 (lit "old"))] [DEProtobuf (mkPDE (lit "old"))] in
  (Forall line [lit "a"; lit "bc"] ->
    exists ps' data, encode_frame (Some 0) used TypeJSON [lit "a"; lit "bc"] = Ok (ps', data) /\
      drain (JSONCommandDecoder_Decode toy_decode) 2 (NewJSONCommandDecoder data)
        = Ok (Some (decode_each toy_decode [lit "a"; lit "bc"]))) /\
  (Forall short [lit "a"; lit "bc"] ->
    exists ps' data, encode_frame (Some 0) used TypeProtobuf [lit "a"; lit "bc"] = Ok (ps', data) /\
      drain (ProtobufCommandDecoder_Decode toy_decode) 2 (NewProtobufCommandDecoder data)
        = Ok (Some (decode_each toy_decode [lit "a"; lit "bc"]))).
Proof.
  intros used. apply (frame_decode_roundtrip toy_decode toy_decode (Some 0) used (lit "a") [lit "bc"]).
  - split; intros e [->|[]%elem_of_nil]%elem_of_cons; eauto.
  - by vm_compute.
Defined.

(** Each pool holds stream decoders of its own protocol. *)
Record stream_pools_ok (ps : stream_pools) : Prop := {
  json_stream_ok d : d ∈ ps.(streamJsonCommandDecoderPool) -> exists r, d = SDJSON r;
  protobuf_stream_ok d : d ∈ ps.(streamProtobufCommandDecoderPool) -> exists r, d = SDProtobuf r }.

(** Whatever decoder the pool hands out reads the given frame. *)
Lemma GetStreamCommandDecoder_fresh pick ps t r :
  stream_pools_ok ps ->
  exists ps' d, GetStreamCommandDecoder pick ps t r = Ok (ps', d) /\ decoder_reader d = Some r /\
    stream_pools_ok (PutStreamCommandDecoder ps' t d).
Proof.
  intros [Hj Hp]. unfold GetStreamCommandDecoder, PutStreamCommandDecoder. destruct (String.eqb t TypeJSON).
  - destruct (pool_get pick (streamJsonCommandDecoderPool ps)) as [pool e] eqn:Hget.
    apply pool_get_incl in Hget as [Hin Hsome].
    assert (He : exists d', e = None \/ e = Some (SDJSON d')).
    { destruct e as [e|]; [|exists None; by left]. destruct (Hj e (Hsome _ eq_refl)) as [d ->]. exists d. by right. }
    destruct He as (d' & [-> | ->]); eexists _, _; (split; [done|]); (split; [done|]); split; simpl; try done;
      intros d [Hd| ->]%elem_of_snoc; eauto.
  - destruct (pool_get pick (streamProtobufCommandDecoderPool ps)) as [pool e] eqn:Hget.
    apply pool_get_incl in Hget as [Hin Hsome].
    assert (He : exists d', e = None \/ e = Some (SDProtobuf d')).
    { destruct e as [e|]; [|exists None; by left]. destruct (Hp e (Hsome _ eq_refl)) as [d ->]. exists d. by right. }
    destruct He as (d' & [-> | ->]); eexists _, _; (split; [done|]); (split; [done|]); split; simpl; try done;
      intros d [Hd| ->]%elem_of_snoc; eauto.
Qed.

(** A frame of commands that the data encoder of either protocol made is
    handled by [HandleReadFrame] command by command in order, until a command
    ends the connection or does not decode, which disconnects the client with a
    bad request, whatever stream decoders and buffers the pools hand out. *)
Theorem HandleReadFrame_frame {Cmd St} (parse UnmarshalVT : bytes -> io_error + Cmd)
    `{!TrailingNewline parse} (HandleCommand : St -> Cmd -> Z -> St * bool) (Disconnect : St -> St)
    protoType ma pick picks sps ps m ms s :
  no_EOF parse -> no_EOF UnmarshalVT -> stream_pools_ok sps -> pools_ok ps -> (maxBufferLength <= ma)%Z ->
  Forall (frameable protoType) (m :: ms) -> Forall (fun m => (Z.of_nat (length m) <= ma)%Z) (m :: ms) ->
  exists sps' ps', HandleReadFrame parse UnmarshalVT HandleCommand Disconnect protoType ma pick picks sps ps
      (mkReader (frame_of protoType (m :: ms)) EOF) s =
    Ok (Some (sps', ps', (handle_each parse UnmarshalVT HandleCommand Disconnect protoType (m :: ms) s).1,
                   (handle_each parse UnmarshalVT HandleCommand Disconnect protoType (m :: ms) s).2)) /\
    stream_pools_ok sps'.
Proof.
  intros Hj Hp Hsps Hps Hma Hms Hlen. unfold HandleReadFrame.
  destruct (GetStreamCommandDecoder_fresh pick sps protoType (mkReader (frame_of protoType (m :: ms)) EOF) Hsps)
    as (sps1 & d & -> & Hd & Hput). cbn [mbind outcome_bind]. rewrite Hd. cbn [r_rest].
  enough (exists ps', read_frame_loop parse UnmarshalVT HandleCommand Disconnect protoType ma
    (S (length (frame_of protoType (m :: ms)))) picks false ps (mkReader (frame_of protoType (m :: ms)) EOF) s =
    Ok (Some (ps', (handle_each parse UnmarshalVT HandleCommand Disconnect protoType (m :: ms) s).1,
                   (handle_each parse UnmarshalVT HandleCommand Disconnect protoType (m :: ms) s).2)))
    as (ps' & ->) by (by eexists _, ps').
  unfold frame_of, frameable in *. destruct (String.eqb protoType TypeJSON) eqn:Ht.
  - apply String.eqb_eq in Ht as ->. exists ps. apply read_frame_JSON; [done|done|done|lia|by right].
  - apply read_frame_Protobuf; [done|done|done|done| |lia|by right]. apply Forall_and. by split.
Qed.

Definition toy_client (s : list bytes) (c : bytes) (size : Z) : list bytes * bool := (s ++ [c], true).

(** A decoder that ignores newlines and takes any other bytes. *)
Definition toy_parse (m : bytes) : io_error + bytes := inr (filter (fun b => b <> nl) m).

#[export] Instance toy_parse_trailing : TrailingNewline toy_parse.
Proof. intros m. unfold toy_parse. by rewrite filter_app, app_nil_r. Qed.

Lemma HandleReadFrame_frame_witness :
  exists sps' ps', HandleReadFrame toy_parse toy_decode toy_client id TypeJSON (2 ^ 40) (Some 0) (fun _ => None)
      (mkSP [SDJSON None] []) new_pools (mkReader (frame_of TypeJSON [lit "a"; lit "bc"]) EOF) []
    = Ok (Some (sps', ps', [lit "a"; lit "bc"], true)) /\ stream_pools_ok sps'.
Proof.
  apply (HandleReadFrame_frame toy_parse toy_decode toy_client id TypeJSON (2 ^ 40) (Some 0) (fun _ => None)
           (mkSP [SDJSON None] []) new_pools (lit "a") [lit "bc"] []).
  - done.
  - by intros [|b m].
  - split; simpl; intros d; [intros [->|[]%elem_of_nil]%elem_of_cons; eauto|intros []%elem_of_nil].
  - apply pools_ok_new.
  - unfold maxBufferLength. lia.
  - repeat (apply Forall_cons_2; [split; [done|by apply (bool_decide_unpack _)]|]). apply Forall_nil_2.
  - repeat constructor; simpl; lia.
Defined.

(** ** Every frame is read to its end *)

Section Totality.
Context {Cmd St : Type} (parse UnmarshalVT : bytes -> io_error + Cmd).
Context (HandleCommand : St -> Cmd -> Z -> St * bool) (Disconnect : St -> St).

Lemma ReadUvarint_loop_shorter fuel i x s r :
  length (ReadUvarint_loop fuel i x s r).1.(r_rest) <= length r.(r_rest).
Proof.
  revert i x s r. induction fuel as [|fuel IH]; intros i x s [rest e]; [done|].
  destruct rest as [|b rest]; [done|]. rewrite ReadUvarint_loop_cons. cbv zeta.
  destruct (_ <? _)%Z; [destruct (_ && _); simpl; lia|]. etrans; [apply IH|]. simpl. lia.
Qed.

Lemma ReadUvarint_shorter r r' v :
  ReadUvarint r = (r', inr v) -> length r'.(r_rest) < length r.(r_rest).
Proof.
  unfold ReadUvarint, MaxVarintLen64. destruct r as [[|b rest] e]; [done|]. rewrite ReadUvarint_loop_cons.
  cbv zeta. intros H. destruct (_ <? _)%Z; [destruct (_ && _); simplify_eq/=; lia|].
  apply (f_equal (fun p => length p.1.(r_rest))) in H. cbn [fst] in H. rewrite <- H. simpl length.
  apply Nat.lt_succ_r. apply (ReadUvarint_loop_shorter 9 1).
Qed.

(** A round of the loop that goes on has consumed a byte of the frame. *)
Lemma stream_decode_shorter t ma pick ps r ps' r' c n :
  stream_decode parse UnmarshalVT t ma pick ps r = Ok (ps', r', (c, n, None)) ->
  length r'.(r_rest) < length r.(r_rest).
Proof.
  unfold stream_decode. destruct (String.eqb t TypeJSON).
  - unfold JSONStreamCommandDecoder_Decode, ReadBytes. intros H.
    destruct (list_find _ _) as [[i x]|] eqn:Hf; split_cases.
    + apply list_find_Some in Hf as (Hi & _). apply lookup_lt_Some in Hi. rewrite length_drop. lia.
    + destruct (r_rest r); simpl in *; [done|lia].
  - unfold ProtobufStreamCommandDecoder_Decode. destruct (ReadUvarint r) as [r1 [e|v]] eqn:Hr; [done|].
    apply ReadUvarint_shorter in Hr. intros H. apply outcome_bind_ok in H as ([ps1 bb] & _ & H).
    destruct (_ || _); [done|]. destruct (ReadFull _ r1) as [[r2 got] err] eqn:Hfull.
    apply outcome_bind_ok in H as (ps2 & _ & H).
    assert (length (r_rest r2) <= length (r_rest r1)).
    { unfold ReadFull in Hfull. split_cases; rewrite length_drop; lia. }
    destruct err; [done|]. destruct (negb _); [done|]. destruct (UnmarshalVT got); simplify_eq. lia.
Qed.

Lemma read_frame_not_none t ma fuel picks had ps r s :
  length r.(r_rest) < fuel ->
  read_frame_loop parse UnmarshalVT HandleCommand Disconnect t ma fuel picks had ps r s <> Ok None.
Proof.
  revert had ps r s. induction fuel as [|fuel IH]; intros had ps r s Hf; [lia|]. cbn [read_frame_loop].
  destruct (stream_decode _ _ t ma (picks fuel) ps r) as [[[ps1 r1] [[cmd n] err]]|e|p] eqn:Hd; [|done|done].
  simpl. destruct cmd as [c|]; [destruct (HandleCommand s c n) as [s1 [|]]|]; simpl; [|done|].
  all: destruct err as [e|]; [case_bool_decide; [destruct had|]; done|].
  all: apply IH; apply stream_decode_shorter in Hd; lia.
Qed.

Lemma read_frame_JSON_returns ma fuel picks had ps r s :
  length r.(r_rest) < fuel ->
  exists s' proceed,
    read_frame_loop parse UnmarshalVT HandleCommand Disconnect TypeJSON ma fuel picks had ps r s = Ok (Some (ps, s', proceed)).
Proof.
  revert had r s. induction fuel as [|fuel IH]; intros had r s Hf; [lia|]. cbn [read_frame_loop].
  assert (Hj : exists r1 d, stream_decode parse UnmarshalVT TypeJSON ma (picks fuel) ps r = Ok (ps, r1, d)).
  { unfold stream_decode. rewrite String.eqb_refl. destruct (JSONStreamCommandDecoder_Decode parse r). by eexists _, _. }
  destruct Hj as (r1 & [[cmd n] err] & Hd). rewrite Hd.
  simpl. destruct cmd as [c|]; [destruct (HandleCommand s c n) as [s1 [|]]|]; simpl; [|by eauto|].
  all: destruct err as [e|]; [case_bool_decide; [destruct had|]; simpl; by eauto|].
  all: apply IH; apply stream_decode_shorter in Hd; lia.
Qed.

(** C9: reading a frame of any bytes, well formed or not, from a reader that
    ends in any error, comes to an end: [HandleReadFrame] always returns with
    the JSON protocol, and with Protobuf the fuel of the loop is never what
    stops it. *)
Theorem HandleReadFrame_terminates protoType ma pick picks sps ps r s :
  stream_pools_ok sps ->
  HandleReadFrame parse UnmarshalVT HandleCommand Disconnect protoType ma pick picks sps ps r s <> Ok None /\
  exists sps' s' proceed,
    HandleReadFrame parse UnmarshalVT HandleCommand Disconnect TypeJSON ma pick picks sps ps r s
      = Ok (Some (sps', ps, s', proceed)).
Proof.
  intros Hsps. unfold HandleReadFrame. split.
  - destruct (GetStreamCommandDecoder_fresh pick sps protoType r Hsps) as (sps1 & d & -> & Hd & _).
    cbn [mbind outcome_bind]. rewrite Hd.
    pose proof (read_frame_not_none protoType ma (S (length (r_rest r))) picks false ps r s ltac:(lia)) as Hn.
    destruct (read_frame_loop _ _ _ _ _ _ _ _ _ _ _ _) as [[[[ps' s'] p]|]|e|p]; done.
  - destruct (GetStreamCommandDecoder_fresh pick sps TypeJSON r Hsps) as (sps1 & d & -> & Hd & _).
    cbn [mbind outcome_bind]. rewrite Hd.
    destruct (read_frame_JSON_returns ma (S (length (r_rest r))) picks false ps r s) as (s' & p & ->); [lia|].
    by eexists _, s', p.
Qed.

End Totality.

(** A frame of two empty lines from a reader that breaks off. *)
Lemma HandleReadFrame_terminates_witness :
  exists sps' s' proceed,
    HandleReadFrame toy_decode toy_decode toy_client id TypeJSON 0 None (fun _ => None) (mkSP [] []) new_pools
      (mkReader [nl; nl] (ErrOther "reset")) [] = Ok (Some (sps', new_pools, s', proceed)).
Proof.
  apply (HandleReadFrame_terminates toy_decode toy_decode toy_client id TypeProtobuf 0 None (fun _ => None)
           (mkSP [] []) new_pools (mkReader [nl; nl] (ErrOther "reset")) []).
  by split; simpl; intros d []%elem_of_nil.
Defined.

(** ** Malformed lengths *)

Lemma lor_u64 a b : (0 <= a < 2 ^ 64)%Z -> (0 <= b < 2 ^ 64)%Z -> (0 <= Z.lor a b < 2 ^ 64)%Z.
Proof.
  intros Ha Hb. assert (H0 : (0 <= Z.lor a b)%Z) by (apply Z.lor_nonneg; lia). split; [done|].
  destruct (Z.eq_dec (Z.lor a b) 0) as [->|]; [lia|]. apply Z.log2_lt_pow2; [lia|].
  rewrite Z.log2_lor by lia. apply Z.max_lub_lt.
  - destruct (Z.eq_dec a 0) as [->|]; [simpl; lia|]. apply Z.log2_lt_pow2; lia.
  - destruct (Z.eq_dec b 0) as [->|]; [simpl; lia|]. apply Z.log2_lt_pow2; lia.
Qed.

Lemma Uvarint_loop_range i x s buf :
  i <= MaxVarintLen64 -> (0 <= x < 2 ^ 64)%Z ->
  (0 <= (Uvarint_loop i x s buf).1 < 2 ^ 64)%Z /\
  (-11 <= (Uvarint_loop i x s buf).2 <= Z.of_nat (i + length buf))%Z.
Proof.
  revert i x s. induction buf as [|b buf IH]; intros i x s Hi Hx; [simpl; lia|].
  rewrite Uvarint_loop_cons, length_cons. unfold MaxVarintLen64 in *.
  destruct (Nat.eqb_spec i 10) as [|Hne]; [simpl; lia|].
  destruct (_ <? _)%Z.
  - destruct (_ && _); cbn [fst snd]; [lia|]. pose proof (lor_u64 x _ Hx (wrap_u64_range (Z.shiftl (bz b) s))). lia.
  - specialize (IH (S i) (Z.lor x (wrap_u64 (Z.shiftl (Z.land (bz b) 127) s))) (s + 7)%Z).
    destruct IH as [H1 H2]; [lia|by apply lor_u64; [|apply wrap_u64_range]|]. split; [done|]. lia.
Qed.

Lemma Uvarint_range buf l n : Uvarint buf = (l, n) ->
  (0 <= l < 2 ^ 64)%Z /\ (-11 <= n <= Z.of_nat (length buf))%Z.
Proof.
  intros H. pose proof (Uvarint_loop_range 0 0 0 buf ltac:(unfold MaxVarintLen64; lia) ltac:(lia)) as Hr.
  unfold Uvarint in H. rewrite H in Hr. simpl in Hr. lia.
Qed.

Lemma wrap_i64_of_u64 l : (0 <= l < 2 ^ 64)%Z -> wrap_i64 l = (if l <? 2 ^ 63 then l else l - 2 ^ 64)%Z.
Proof.
  intros Hl. unfold wrap_i64. destruct (Z.ltb_spec l (2 ^ 63)).
  - rewrite Z.mod_small; lia.
  - rewrite <- (Z.mod_unique_pos (l + 2 ^ 63) (2 ^ 64) 1 (l + 2 ^ 63 - 2 ^ 64)); lia.
Qed.

Lemma go_zslice_to_end {A} (l : list A) i :
  (0 <= i <= Z.of_nat (length l))%Z -> go_zslice l i (Z.of_nat (length l)) = Ok (drop (Z.to_nat i) l).
Proof.
  intros Hi. unfold go_zslice. destruct (Z.leb_spec 0 i), (Z.leb_spec i (Z.of_nat (length l))); try lia.
  rewrite Z.leb_refl. simpl. rewrite take_ge; [done|]. rewrite length_drop. lia.
Qed.

Section Malformed.
Context {Cmd : Type} (UnmarshalVT : bytes -> io_error + Cmd) (data : bytes) (offset : Z).
Hypothesis Hoff : (0 <= offset < Z.of_nat (length data))%Z.
Hypothesis Hlen : (Z.of_nat (length data) < 2 ^ 62)%Z.

Lemma Protobuf_decode_in l n :
  Uvarint (drop (Z.to_nat offset) data) = (l, n) -> (0 < n)%Z ->
  let to := wrap_i64 (offset + n + wrap_i64 l) in
  is_panic (ProtobufCommandDecoder_Decode UnmarshalVT (mkPD data offset)) =
    ((0 <? to) && (to <=? Z.of_nat (length data)) && negb (offset + n <=? to))%Z.
Proof.
  intros Huv Hn0 to. destruct (Uvarint_range _ _ _ Huv) as [Hl Hn]. rewrite length_drop in Hn.
  unfold ProtobufCommandDecoder_Decode. destruct (Z.ltb_spec offset (Z.of_nat (length data))); [|lia].
  rewrite go_zslice_to_end by lia. simpl. rewrite Huv. destruct (Z.leb_spec n 0); [lia|].
  rewrite (wrap_i64_small (offset + n)) by lia. fold to.
  destruct (0 <? to)%Z; [|done]. destruct (Z.leb_spec to (Z.of_nat (length data))); [|done]. simpl.
  unfold go_zslice. destruct (Z.leb_spec 0 (offset + n)); [|lia].
  destruct (Z.leb_spec (offset + n) to); [|done]. destruct (Z.leb_spec to (Z.of_nat (length data))); [|lia].
  simpl. by destruct (UnmarshalVT _).
Qed.

Lemma Protobuf_decode_panics l n :
  Uvarint (drop (Z.to_nat offset) data) = (l, n) -> (0 < n)%Z ->
  is_panic (ProtobufCommandDecoder_Decode UnmarshalVT (mkPD data offset)) = true <->
    (2 ^ 63 <= l /\ 0 < offset + n + (l - 2 ^ 64))%Z.
Proof.
  intros Huv Hn0. rewrite (Protobuf_decode_in l n) by done. cbv zeta.
  destruct (Uvarint_range _ _ _ Huv) as [Hl Hn]. rewrite length_drop in Hn. rewrite (wrap_i64_of_u64 l Hl).
  destruct (Z.ltb_spec l (2 ^ 63)) as [Hl63|Hl63]; [|rewrite wrap_i64_small by lia; lia].
  destruct (Z.lt_ge_cases (offset + n + l) (2 ^ 63)); [rewrite wrap_i64_small by lia; lia|].
  rewrite wrap_i64_of_u64 by lia. destruct (Z.ltb_spec (offset + n + l) (2 ^ 63)); lia.
Qed.

Lemma Reply_decode_stuck c :
  Uvarint (drop (Z.to_nat offset) data) = (0, 0)%Z -> UnmarshalVT [] = inr c ->
  ProtobufReplyDecoder_Decode UnmarshalVT (mkPD data offset) = Ok (mkPD data offset, (Some c, None)).
Proof.
  intros Huv Hc. unfold ProtobufReplyDecoder_Decode.
  destruct (Z.ltb_spec offset (Z.of_nat (length data))); [|lia].
  rewrite go_zslice_to_end by lia. simpl. rewrite Huv. change (wrap_i64 0) with 0%Z.
  rewrite !Z.add_0_r, wrap_i64_small by lia. unfold go_zslice.
  destruct (Z.leb_spec 0 offset), (Z.leb_spec offset offset), (Z.leb_spec offset (Z.of_nat (length data))); try lia.
  simpl. rewrite Z.sub_diag. change (Z.to_nat 0) with 0. rewrite take_0. by rewrite Hc.
Qed.

End Malformed.

(** A length prefix that is not a length.  The command decoder panics on
    a complete prefix exactly when it is an integer of at least 2^63, negative as
    an [int], that does not take the end of the message below the start of the
    data, and takes an incomplete prefix for the end of the input; the reply decoder, on data that ends within a prefix,
    returns an empty reply without moving, so that a caller that decodes until an
    error never stops. *)
Theorem malformed_length {Cmd} (UnmarshalVT : bytes -> io_error + Cmd) data offset l n :
  (0 <= offset < Z.of_nat (length data))%Z -> (Z.of_nat (length data) < 2 ^ 62)%Z ->
  Uvarint (drop (Z.to_nat offset) data) = (l, n) ->
  ((0 < n)%Z ->
     is_panic (ProtobufCommandDecoder_Decode UnmarshalVT (mkPD data offset)) = true <->
     (2 ^ 63 <= l /\ 0 < offset + n + (l - 2 ^ 64))%Z) /\
  ((n <= 0)%Z ->
     ProtobufCommandDecoder_Decode UnmarshalVT (mkPD data offset) = Ok (mkPD data offset, (None, Some EOF))) /\
  (forall c fuel, l = 0%Z -> n = 0%Z -> UnmarshalVT [] = inr c ->
     drain (ProtobufReplyDecoder_Decode UnmarshalVT) fuel (mkPD data offset) = Ok None).
Proof.
  intros Hoff Hlen Huv. split_and!.
  - by apply Protobuf_decode_panics.
  - intros Hn. unfold ProtobufCommandDecoder_Decode.
    destruct (Z.ltb_spec offset (Z.of_nat (length data))); [|lia].
    rewrite go_zslice_to_end by lia. simpl. rewrite Huv. by destruct (Z.leb_spec n 0); [|lia].
  - intros c fuel -> -> Hc. induction fuel as [|fuel IH]; [done|]. cbn [drain].
    rewrite (Reply_decode_stuck UnmarshalVT data offset Hoff Hlen c Huv Hc). simpl. by rewrite IH.
Qed.

Lemma malformed_length_witness :
  is_panic (ProtobufCommandDecoder_Decode (fun m => inr m) (mkPD (replicate 9 xff ++ [x01]) 0)) = true /\
  (forall fuel, drain (ProtobufReplyDecoder_Decode (fun m => inr m)) fuel (mkPD [x80] 0) = Ok None).
Proof.
  split.
  - apply (malformed_length (fun m => inr m) (replicate 9 xff ++ [x01]) 0 (2 ^ 64 - 1) 10);
      [by vm_compute..|reflexivity|lia|lia].
  - intros fuel. eapply (malformed_length (fun m => inr m) [x80] 0 0 0); [by vm_compute..|reflexivity|reflexivity|reflexivity|reflexivity].
Defined.
