(* ===== verification/JsonWriter.v ===== *)
(** [pkg/protocol/deliverprotocol/encode_writer.go], [raw.go]: the JSON writer
    the generated encoders write to, and the raw fields they copy.  The buffer
    of a writer is gone once its bytes are built, and a write then panics.  A
    Go string is its bytes, which need not be valid UTF-8. *)

From S2P Require Import Prelude BytePool.

(** ** [unicode/utf8] *)

Definition RuneError : Z := 0xfffd.
Definition RuneSelf : Z := 0x80.

(** The length of a sequence and the range of its second byte, from its first
    byte; [None] for a byte that starts no sequence. *)
Definition utf8_first (b : Z) : option (nat * Z * Z) :=
  if (b <? 0xc2)%Z then None
  else if (b <=? 0xdf)%Z then Some (2, 0x80%Z, 0xbf%Z)
  else if (b =? 0xe0)%Z then Some (3, 0xa0%Z, 0xbf%Z)
  else if (b =? 0xed)%Z then Some (3, 0x80%Z, 0x9f%Z)
  else if (b <=? 0xef)%Z then Some (3, 0x80%Z, 0xbf%Z)
  else if (b =? 0xf0)%Z then Some (4, 0x90%Z, 0xbf%Z)
  else if (b <=? 0xf3)%Z then Some (4, 0x80%Z, 0xbf%Z)
  else if (b =? 0xf4)%Z then Some (4, 0x80%Z, 0x8f%Z)
  else None.

Definition in_range (lo hi b : Z) : bool := ((lo <=? b) && (b <=? hi))%Z.

(** [utf8.DecodeRuneInString]: the rune and its width. *)
Definition DecodeRune (s : bytes) : Z * nat :=
  match s with
  | [] => (RuneError, 0)
  | b0 :: s1 =>
    if (bz b0 <? RuneSelf)%Z then (bz b0, 1)
    else match utf8_first (bz b0), s1 with
    | Some (2, lo, hi), b1 :: _ =>
      if in_range lo hi (bz b1)
      then (Z.lor (Z.shiftl (Z.land (bz b0) 0x1f) 6) (Z.land (bz b1) 0x3f), 2) else (RuneError, 1)
    | Some (3, lo, hi), b1 :: b2 :: _ =>
      if in_range lo hi (bz b1) && in_range 0x80 0xbf (bz b2)
      then (Z.lor (Z.shiftl (Z.land (bz b0) 0x0f) 12)
             (Z.lor (Z.shiftl (Z.land (bz b1) 0x3f) 6) (Z.land (bz b2) 0x3f)), 3) else (RuneError, 1)
    | Some (4, lo, hi), b1 :: b2 :: b3 :: _ =>
      if in_range lo hi (bz b1) && in_range 0x80 0xbf (bz b2) && in_range 0x80 0xbf (bz b3)
      then (Z.lor (Z.shiftl (Z.land (bz b0) 0x07) 18) (Z.lor (Z.shiftl (Z.land (bz b1) 0x3f) 12)
             (Z.lor (Z.shiftl (Z.land (bz b2) 0x3f) 6) (Z.land (bz b3) 0x3f))), 4) else (RuneError, 1)
    | _, _ => (RuneError, 1)
    end
  end.

(** ** The writer *)

(** [nilMapAsEmpty] and [nilSliceAsEmpty]. *)
Definition nilMapAsEmpty : Z := 1.
Definition nilSliceAsEmpty : Z := 2.

Record json_writer := mkW { w_Buffer : option bytes; w_Flags : Z; w_Error : option io_error; NoEscapeHTML : bool }.

Definition new_json_writer : json_writer := mkW (Some []) 0 None false.

(** The writes of [bytebufferpool.ByteBuffer]: appending, on a nil pointer a
    panic. *)
Definition w_append (w : json_writer) (p : bytes) : outcome Empty_set json_writer :=
  match w.(w_Buffer) with
  | Some b => Ok (mkW (Some (b ++ p)) w.(w_Flags) w.(w_Error) w.(NoEscapeHTML))
  | None => Panic NilDereference
  end.

(** [BuildBytes]; [reuse] is the capacity of the buffer given for reuse, which
    only decides where the bytes are kept. *)
Definition BuildBytes (w : json_writer) (reuse : option nat) : outcome io_error (json_writer * bytes) :=
  match w.(w_Error) with
  | Some e => Err e
  | None =>
    match w.(w_Buffer) with
    | Some b => Ok (mkW None w.(w_Flags) w.(w_Error) w.(NoEscapeHTML), b)
    | None => Panic NilDereference
    end
  end.

Definition RawByte (w : json_writer) (c : byte) : outcome Empty_set json_writer := w_append w [c].
Definition RawString (w : json_writer) (s : bytes) : outcome Empty_set json_writer := w_append w s.

Definition writer_Raw (w : json_writer) (src : bytes) (err : option io_error) : outcome Empty_set json_writer :=
  match w.(w_Error), err with
  | Some _, _ => Ok w
  | None, Some e => Ok (mkW w.(w_Buffer) w.(w_Flags) (Some e) w.(NoEscapeHTML))
  | None, None => if 0 <? length src then w_append w src else RawString w (lit "null")
  end.

(** [strconv.FormatUint(n, 10)]: at most twenty digits. *)
Definition digit (d : Z) : byte := zb (0x30 + d).
Fixpoint format_digits (fuel : nat) (n : Z) (acc : bytes) : bytes :=
  match fuel with
  | 0 => acc
  | S fuel =>
    let acc := digit (n mod 10) :: acc in
    if (n <? 10)%Z then acc else format_digits fuel (n / 10) acc
  end.
Definition FormatUint (n : Z) : bytes := format_digits 20 n [].
Definition FormatInt (n : Z) : bytes := if (n <? 0)%Z then x2d :: FormatUint (- n) else FormatUint n.

Definition writer_Uint32 (w : json_writer) (n : Z) : outcome Empty_set json_writer := w_append w (FormatUint n).
Definition writer_Uint64 (w : json_writer) (n : Z) : outcome Empty_set json_writer := w_append w (FormatUint n).
Definition writer_Int32 (w : json_writer) (n : Z) : outcome Empty_set json_writer := w_append w (FormatInt n).
Definition writer_Bool (w : json_writer) (v : bool) : outcome Empty_set json_writer :=
  if v then w_append w (lit "true") else w_append w (lit "false").

(** The tables [safeSet] and [htmlSafeSet] at an index below [RuneSelf]. *)
Definition safeSet (b : Z) : bool := ((0x20 <=? b) && negb (b =? 0x22) && negb (b =? 0x5c))%Z.
Definition htmlSafeSet (b : Z) : bool :=
  (safeSet b && negb (b =? 0x26) && negb (b =? 0x3c) && negb (b =? 0x3e))%Z.

Definition hex : bytes := lit "0123456789abcdef".
Definition hex_at (i : Z) : byte := default x00 (hex !! Z.to_nat i).

(** [if start < i { w.Buffer.WriteString(s[start:i]) }]. *)
Definition write_pending (w : json_writer) (s : bytes) (start i : nat) : outcome Empty_set json_writer :=
  if start <? i then p ← go_slice s start i; w_append w p else Ok w.

(** What is written for an ASCII byte that is not safe, after the backslash. *)
Definition escape_letter (w : json_writer) (b : byte) : outcome Empty_set json_writer :=
  if bool_decide (b = x5c) || bool_decide (b = x22) then w_append w [b]
  else if bool_decide (b = x0a) then w_append w (lit "n")
  else if bool_decide (b = x0d) then w_append w (lit "r")
  else if bool_decide (b = x09) then w_append w (lit "t")
  else
    w ← w_append w (lit "u00");
    w ← w_append w [hex_at (Z.shiftr (bz b) 4)];
    w_append w [hex_at (Z.land (bz b) 0xf)].

(** The loop of [writer.String]; it returns the writer and [start].  Every
    round advances [i], so the length of the string is enough fuel. *)
Fixpoint String_loop (fuel : nat) (w : json_writer) (s : bytes) (start i : nat)
    : outcome Empty_set (json_writer * nat) :=
  match fuel with
  | 0 => Ok (w, start)
  | S fuel =>
    if negb (i <? length s) then Ok (w, start)
    else
      b ← go_index s i;
      if (bz b <? RuneSelf)%Z then
        if htmlSafeSet (bz b) || (w.(NoEscapeHTML) && safeSet (bz b)) then String_loop fuel w s start (i + 1)
        else
          w ← write_pending w s start i;
          w ← w_append w [x5c];
          w ← escape_letter w b;
          String_loop fuel w s (i + 1) (i + 1)
      else
        rest ← go_slice_from s i;
        let '(c, size) := DecodeRune rest in
        if (c =? RuneError)%Z && (size =? 1) then
          w ← write_pending w s start i;
          w ← w_append w (lit "\ufffd");
          String_loop fuel w s (i + size) (i + size)
        else if ((c =? 0x2028) || (c =? 0x2029))%Z then
          w ← write_pending w s start i;
          w ← w_append w (lit "\u202");
          w ← w_append w [hex_at (Z.land c 0xf)];
          String_loop fuel w s (i + size) (i + size)
        else String_loop fuel w s start (i + size)
  end.

Definition writer_String (w : json_writer) (s : bytes) : outcome Empty_set json_writer :=
  w ← w_append w [x22];
  '(w, start) ← String_loop (length s) w s 0 0;
  w ← (if start <? length s then p ← go_slice_from s start; w_append w p else Ok w);
  w_append w [x22].

(** ** Raw fields *)

(** [Raw.MarshalJSON]; [None] is the nil slice. *)
Definition Raw_MarshalJSON (r : option bytes) : bytes * option io_error :=
  match r with
  | None => (lit "null", None)
  | Some r =>
    if negb (bool_decide (nl ∈ r)) then (r, None)
    else (filter (fun b => b <> nl) r, None)
  end.

(** [Raw.UnmarshalJSON]; the outer [None] is the nil pointer.  Appending
    nothing to a nil slice leaves it nil. *)
Definition Raw_UnmarshalJSON (r : option (option bytes)) (data : bytes) : outcome io_error (option bytes) :=
  match r with
  | None => Err (ErrOther "unmarshal Raw: UnmarshalJSON on nil pointer")
  | Some None => Ok (if bool_decide (data = []) then None else Some data)
  | Some (Some _) => Ok (Some data)
  end.
