(* ===== verification/JsonString.v ===== *)
(** What [writer.String] of [encode_writer.go] writes: a JSON string literal
    without control characters, whose content is the string with every byte that
    is not part of valid UTF-8 replaced by U+FFFD.

    The grammar of JSON texts (RFC 8259) that the encoders of
    [pkg/protocol/deliverprotocol] are held against, and the two facts about it
    they rely on: dropping newlines from a text leaves a text, and the numbers
    [strconv] prints are numbers of the grammar. *)

From S2P Require Import Prelude BytePool JsonWriter.

(** ** The written bytes as a function of the string *)

(** The letters that follow the backslash for an unsafe byte. *)
Definition esc_tail (b : byte) : bytes :=
  if bool_decide (b = x5c) || bool_decide (b = x22) then [b]
  else if bool_decide (b = x0a) then lit "n"
  else if bool_decide (b = x0d) then lit "r"
  else if bool_decide (b = x09) then lit "t"
  else lit "u00" ++ [hex_at (Z.shiftr (bz b) 4); hex_at (Z.land (bz b) 0xf)].

(** The first character of a string: what is written instead of it, if it is
    not written as it is, and its width. *)
Definition next_char (noescape : bool) (s : bytes) : option bytes * nat :=
  match s with
  | [] => (None, 0)
  | b :: _ =>
    if (bz b <? RuneSelf)%Z then
      (if htmlSafeSet (bz b) || (noescape && safeSet (bz b)) then None else Some (x5c :: esc_tail b), 1)
    else
      let '(c, size) := DecodeRune s in
      (if (c =? RuneError)%Z && (size =? 1) then Some (lit "\ufffd")
       else if ((c =? 0x2028) || (c =? 0x2029))%Z then Some (lit "\u202" ++ [hex_at (Z.land c 0xf)])
       else None, size)
  end.

Fixpoint escape (noescape : bool) (fuel : nat) (s : bytes) : bytes :=
  match fuel, s with
  | S fuel, _ :: _ =>
    let '(instead, size) := next_char noescape s in
    default (take size s) instead ++ escape noescape fuel (drop size s)
  | _, _ => []
  end.

Definition quoted (w : json_writer) (s : bytes) : bytes :=
  [x22] ++ escape w.(NoEscapeHTML) (length s) s ++ [x22].

(** The writer with another buffer. *)
Definition set_buf (w : json_writer) (b : bytes) : json_writer := mkW (Some b) w.(w_Flags) w.(w_Error) w.(NoEscapeHTML).

Lemma w_append_set w b p : w_append (set_buf w b) p = Ok (set_buf w (b ++ p)).
Proof. done. Qed.

Lemma escape_letter_set w b c : escape_letter (set_buf w b) c = Ok (set_buf w (b ++ esc_tail c)).
Proof.
  unfold escape_letter, esc_tail. destruct (_ || _); [done|]. repeat (case_bool_decide; [done|]).
  cbn. unfold set_buf. simpl. by rewrite <- !app_assoc.
Qed.

Lemma DecodeRune_size s : s <> [] -> 1 <= (DecodeRune s).2 <= length s.
Proof.
  destruct s as [|b0 s]; [done|]. intros _. unfold DecodeRune.
  destruct (_ <? _)%Z; [simpl; lia|].
  destruct (utf8_first (bz b0)) as [[[n lo] hi]|]; [|simpl; lia].
  destruct n as [|[|[|[|[|n]]]]], s as [|b1 [|b2 [|b3 s]]]; try (simpl; lia);
    destruct (in_range _ _ _); simpl; try lia; repeat (destruct (in_range _ _ _); simpl; try lia).
Qed.

Lemma take_extend {A} (s : list A) start i k :
  start <= i -> take (i + k - start) (drop start s) = take (i - start) (drop start s) ++ take k (drop i s).
Proof.
  intros Hi. replace (i + k - start) with ((i - start) + k) by lia.
  rewrite <- take_take_drop, drop_drop. do 3 f_equal. lia.
Qed.

(** Writing out the pending part of the string. *)
Lemma write_pending_set w b s start i :
  start <= i <= length s ->
  write_pending (set_buf w b) s start i = Ok (set_buf w (b ++ take (i - start) (drop start s))).
Proof.
  intros Hi. unfold write_pending. destruct (Nat.ltb_spec start i).
  - unfold go_slice. rewrite decide_True by lia. done.
  - replace (i - start) with 0 by lia. by rewrite take_0, app_nil_r.
Qed.

Lemma next_char_size ne s : s <> [] -> 1 <= (next_char ne s).2 <= length s.
Proof.
  intros Hs. pose proof (DecodeRune_size s Hs). destruct s as [|b s]; [done|]. unfold next_char.
  destruct (_ <? _)%Z; [simpl; lia|]. by destruct (DecodeRune (b :: s)).
Qed.

(** A round of the loop handles one character. *)
Lemma String_loop_step fuel w b s start i instead size :
  start <= i -> i < length s -> next_char w.(NoEscapeHTML) (drop i s) = (instead, size) ->
  String_loop (S fuel) (set_buf w b) s start i =
    match instead with
    | None => String_loop fuel (set_buf w b) s start (i + size)
    | Some e => String_loop fuel (set_buf w (b ++ take (i - start) (drop start s) ++ e)) s (i + size) (i + size)
    end.
Proof.
  intros Hst Hi Hnext. destruct (lookup_lt_is_Some_2 s i Hi) as [c Hc]. rewrite (drop_S s c i Hc) in Hnext.
  cbn [String_loop]. destruct (Nat.ltb_spec i (length s)); [|lia]. cbn [negb].
  rewrite (go_index_ok _ _ _ Hc). unfold go_slice_from. rewrite decide_True by lia.
  rewrite write_pending_set by lia. rewrite (drop_S s c i Hc).
  change (mbind ?f (Ok ?a)) with (f a). cbv beta. unfold next_char in Hnext.
  change (NoEscapeHTML (set_buf w b)) with (NoEscapeHTML w).
  destruct (bz c <? RuneSelf)%Z.
  { destruct (_ || _); simplify_eq; [done|]. change (mbind ?f (Ok ?a)) with (f a). cbv beta.
    rewrite w_append_set. cbn [mbind outcome_bind]. rewrite escape_letter_set. cbn [mbind outcome_bind].
    by rewrite <- !app_assoc. }
  change (mbind ?f (Ok ?a)) with (f a). cbv beta. destruct (DecodeRune (c :: drop (S i) s)) as [r k].
  destruct (_ && _); [|destruct (_ || _)]; simplify_eq; [| |done];
    change (mbind ?f (Ok ?a)) with (f a); cbv beta; rewrite !w_append_set; cbn [mbind outcome_bind];
    rewrite ?w_append_set; cbn [mbind outcome_bind]; by rewrite <- !app_assoc.
Qed.

Lemma String_loop_spec fuel w b s start i :
  start <= i <= length s -> length s - i <= fuel ->
  exists b' start', String_loop fuel (set_buf w b) s start i = Ok (set_buf w b', start') /\ start' <= length s /\
    b' ++ drop start' s = b ++ take (i - start) (drop start s) ++ escape w.(NoEscapeHTML) fuel (drop i s).
Proof.
  revert b start i. induction fuel as [|fuel IH]; intros b start i Hi Hf.
  { exists b, start. split; [done|]. split; [lia|]. rewrite app_nil_r, take_ge; [done|]. rewrite length_drop. lia. }
  destruct (decide (i < length s)) as [Hlt|Hge].
  2: { exists b, start. cbn [String_loop]. destruct (Nat.ltb_spec i (length s)); [lia|]. split; [done|].
       split; [lia|]. rewrite (drop_ge s i), app_nil_r, take_ge; [done| |lia]. rewrite length_drop. lia. }
  assert (Hne : drop i s <> []) by (intros Hd%(f_equal length); rewrite length_drop in Hd; simpl in Hd; lia).
  pose proof (next_char_size (NoEscapeHTML w) (drop i s) Hne) as Hsize. rewrite length_drop in Hsize.
  destruct (next_char (NoEscapeHTML w) (drop i s)) as [instead size] eqn:Hnext. simpl in Hsize.
  rewrite (String_loop_step fuel w b s start i instead size) by (done || lia).
  assert (Hesc : escape (NoEscapeHTML w) (S fuel) (drop i s) =
    default (take size (drop i s)) instead ++ escape (NoEscapeHTML w) fuel (drop (i + size) s)).
  { cbn [escape]. rewrite Hnext, drop_drop. by destruct (drop i s). }
  rewrite Hesc. destruct instead as [e|].
  - destruct (IH (b ++ take (i - start) (drop start s) ++ e) (i + size) (i + size)) as (b' & st & -> & Hst & Heq); [lia|lia|].
    exists b', st. split_and!; [done|done|]. rewrite Heq, Nat.sub_diag, take_0. simpl. by rewrite <- !app_assoc.
  - destruct (IH b start (i + size)) as (b' & st & -> & Hst & Heq); [lia|lia|].
    exists b', st. split_and!; [done|done|]. rewrite Heq, take_extend by lia. simpl. by rewrite <- !app_assoc.
Qed.

(** [writer.String] appends the quoted string and changes nothing else. *)
Lemma writer_String_set w b s : writer_String (set_buf w b) s = Ok (set_buf w (b ++ quoted w s)).
Proof.
  unfold writer_String. rewrite w_append_set. cbn [mbind outcome_bind].
  destruct (String_loop_spec (length s) w (b ++ [x22]) s 0 0) as (b' & st & -> & Hst & Heq); [lia|lia|].
  cbn [mbind outcome_bind]. rewrite drop_0, take_0 in Heq.
  assert (Hrest : (if st <? length s then p ← go_slice_from s st; w_append (set_buf w b') p else Ok (set_buf w b'))
                  = Ok (set_buf w (b' ++ drop st s))).
  { destruct (Nat.ltb_spec st (length s)).
    - unfold go_slice_from. by rewrite decide_True by lia.
    - by rewrite drop_ge, app_nil_r by lia. }
  rewrite Hrest. cbn [mbind outcome_bind]. rewrite w_append_set, Heq. unfold quoted. by rewrite <- !app_assoc.
Qed.

(** ** Reading a string literal back

    A reader of the content of JSON string literals, after the grammar of RFC
    8259.  It takes no escaped surrogates, which the writer never writes. *)

Definition hexval (b : byte) : option Z :=
  let v := bz b in
  if in_range 0x30 0x39 v then Some (v - 0x30)%Z
  else if in_range 0x61 0x66 v then Some (v - 0x61 + 10)%Z
  else if in_range 0x41 0x46 v then Some (v - 0x41 + 10)%Z
  else None.

Definition hex4 (h1 h2 h3 h4 : byte) : option Z :=
  v1 ← hexval h1; v2 ← hexval h2; v3 ← hexval h3; v4 ← hexval h4;
  Some (((v1 * 16 + v2) * 16 + v3) * 16 + v4)%Z.

Definition encode_rune (r : Z) : option bytes :=
  if (r <? 0x80)%Z then Some [zb r]
  else if (r <? 0x800)%Z then Some [zb (0xc0 + r / 64); zb (0x80 + r mod 64)]
  else if in_range 0xd800 0xdfff r then None
  else Some [zb (0xe0 + r / 4096); zb (0x80 + r / 64 mod 64); zb (0x80 + r mod 64)].

Definition simple_escape (c : byte) : option byte :=
  if bool_decide (c ∈ [x22; x5c; x2f]) then Some c
  else if bool_decide (c = x62) then Some x08
  else if bool_decide (c = x66) then Some x0c
  else if bool_decide (c = x6e) then Some x0a
  else if bool_decide (c = x72) then Some x0d
  else if bool_decide (c = x74) then Some x09
  else None.

(** A byte that stands for itself in a literal. *)
Definition plain (b : byte) : bool := ((0x20 <=? bz b) && negb (bz b =? 0x22) && negb (bz b =? 0x5c))%Z.

Fixpoint unescape (l : bytes) : option bytes :=
  match l with
  | [] => Some []
  | b :: l1 =>
    if plain b then rest ← unescape l1; Some (b :: rest)
    else if negb (bool_decide (b = x5c)) then None
    else
      match l1 with
      | [] => None
      | c :: l2 =>
        if negb (bool_decide (c = x75)) then e ← simple_escape c; rest ← unescape l2; Some (e :: rest)
        else
          match l2 with
          | h1 :: h2 :: h3 :: h4 :: l6 =>
            r ← hex4 h1 h2 h3 h4; e ← encode_rune r; rest ← unescape l6; Some (e ++ rest)
          | _ => None
          end
      end
  end.

(** A literal with its quotes. *)
Definition unquote (l : bytes) : option bytes :=
  match l with
  | q :: l' => if bool_decide (q = x22) && bool_decide (last l' = Some x22) then unescape (removelast l') else None
  | [] => None
  end.

(** Every byte outside valid UTF-8 replaced by U+FFFD. *)
Fixpoint sanitize_fuel (fuel : nat) (s : bytes) : bytes :=
  match fuel, s with
  | S fuel, _ :: _ =>
    let '(c, size) := DecodeRune s in
    (if (c =? RuneError)%Z && (size =? 1) then [xef; xbf; xbd] else take size s) ++ sanitize_fuel fuel (drop size s)
  | _, _ => []
  end.
Definition sanitize (s : bytes) : bytes := sanitize_fuel (length s) s.

(** Valid UTF-8. *)
Fixpoint valid_utf8_fuel (fuel : nat) (s : bytes) : bool :=
  match fuel, s with
  | S fuel, _ :: _ =>
    let '(c, size) := DecodeRune s in
    negb ((c =? RuneError)%Z && (size =? 1)) && valid_utf8_fuel fuel (drop size s)
  | _, _ => true
  end.
Definition valid_utf8 (s : bytes) : bool := valid_utf8_fuel (length s) s.

(** [e] is read as [x], whatever follows. *)
Definition reads (e x : bytes) : Prop := forall rest, unescape (e ++ rest) = app x <$> unescape rest.

Lemma reads_plain e : Forall (fun b => plain b = true) e -> reads e e.
Proof.
  intros He rest. induction He as [|b e Hb _ IH]; simpl.
  - by destruct (unescape rest).
  - rewrite Hb, IH. by destruct (unescape rest).
Qed.

Lemma reads_escape b : (bz b <? RuneSelf)%Z = true -> safeSet (bz b) = false \/ htmlSafeSet (bz b) = false ->
  reads (x5c :: esc_tail b) [b].
Proof. intros Hb Hs rest. destruct b; vm_compute in Hb; try done; by destruct Hs. Qed.

Lemma lor_low a b n : (0 <= n)%Z -> (0 <= a)%Z -> (0 <= b < 2 ^ n)%Z ->
  (a * 2 ^ n < 2 ^ 64)%Z -> Z.lor (Z.shiftl a n) b = (a * 2 ^ n + b)%Z.
Proof.
  intros Hn Ha Hb Hlt. rewrite Z.lor_comm.
  replace (Z.shiftl a n) with (wrap_u64 (Z.shiftl a n)).
  - rewrite lor_shift_add by lia. lia.
  - unfold wrap_u64. rewrite Z.shiftl_mul_pow2 by lia. apply Z.mod_small. nia.
Qed.

(** Masking with the low bits. *)
Lemma land_low b n m : (m = 2 ^ n - 1)%Z -> (0 <= n)%Z -> Z.land b m = (b mod 2 ^ n)%Z.
Proof. intros -> Hn. rewrite <- Z.land_ones by done. f_equal. rewrite Z.ones_equiv. lia. Qed.

Lemma utf8_first_inv b n lo hi :
  utf8_first b = Some (n, lo, hi) ->
  (0x80 <= lo /\ hi <= 0xbf)%Z /\
  ((n = 2 /\ (0xc2 <= b <= 0xdf)%Z) \/ (n = 3 /\ (0xe0 <= b <= 0xef)%Z) \/
   (n = 4 /\ (0xf0 <= b <= 0xf4)%Z /\ (b = 0xf0 -> 0x90 <= lo)%Z)).
Proof. unfold utf8_first. intros H. split_cases; lia. Qed.

Lemma in_range_true lo hi b : in_range lo hi b = true <-> (lo <= b <= hi)%Z.
Proof. unfold in_range. rewrite andb_true_iff, !Z.leb_le. done. Qed.

(** The sequences of two, three and four bytes. *)
Lemma DecodeRune_inv b0 s c k :
  (RuneSelf <= bz b0)%Z -> DecodeRune (b0 :: s) = (c, k) ->
  (c = RuneError /\ k = 1) \/
  (exists b1 rest, k = 2 /\ s = b1 :: rest /\ (0x80 <= bz b1 /\ c < 0x800)%Z) \/
  (exists b1 b2 rest, k = 3 /\ s = b1 :: b2 :: rest /\ (0xe0 <= bz b0 <= 0xef /\
     0x80 <= bz b1 <= 0xbf /\ 0x80 <= bz b2 <= 0xbf /\
     c = bz b0 mod 16 * 4096 + bz b1 mod 64 * 64 + bz b2 mod 64)%Z) \/
  (exists b1 b2 b3 rest, k = 4 /\ s = b1 :: b2 :: b3 :: rest /\
     (0x80 <= bz b1 /\ 0x80 <= bz b2 /\ 0x80 <= bz b3 /\ 0x10000 <= c)%Z).
Proof.
  intros Hb0 Hd. unfold DecodeRune in Hd. destruct (Z.ltb_spec (bz b0) RuneSelf); [lia|].
  destruct (utf8_first (bz b0)) as [[[n lo] hi]|] eqn:Hf; [|left; by simplify_eq].
  apply utf8_first_inv in Hf as [Hlh Hn].
  assert (Hm : forall b, (0 <= bz b mod 64 < 64)%Z) by (intros; apply Z.mod_pos_bound; lia).
  assert (Hl6 : forall b, Z.land (bz b) 0x3f = (bz b mod 64)%Z) by (intros; by apply (land_low _ 6)).
  destruct Hn as [[-> Hb]|[[-> Hb]|(-> & Hb & Hf0)]].
  - destruct s as [|b1 s]; [left; by simplify_eq|].
    destruct (in_range lo hi (bz b1)) eqn:H1; [|left; simpl in Hd; by simplify_eq]. apply in_range_true in H1.
    right; left. exists b1, s. rewrite Hl6, (land_low _ 5), lor_low in Hd by (done || mod_lia || apply Hm).
    simplify_eq. split_and!; try done; [lia|mod_lia].
  - destruct s as [|b1 [|b2 s]]; [left; by simplify_eq..|].
    destruct (in_range lo hi (bz b1)) eqn:H1; [|left; simpl in Hd; by simplify_eq]. apply in_range_true in H1.
    destruct (in_range 0x80 0xbf (bz b2)) eqn:H2; [|left; simpl in Hd; by simplify_eq]. apply in_range_true in H2.
    right; right; left. exists b1, b2, s. simpl andb in Hd. pose proof (Hm b1). pose proof (Hm b2).
    rewrite !Hl6, (land_low _ 4), (lor_low (bz b1 mod 64)), lor_low in Hd by (done || lia || mod_lia).
    change (2 ^ 4)%Z with 16%Z in Hd. simplify_eq. split_and!; try done; lia.
  - destruct s as [|b1 [|b2 [|b3 s]]]; [left; by simplify_eq..|].
    destruct (in_range lo hi (bz b1)) eqn:H1; [|left; simpl in Hd; by simplify_eq]. apply in_range_true in H1.
    destruct (in_range 0x80 0xbf (bz b2)) eqn:H2; [|left; simpl in Hd; by simplify_eq]. apply in_range_true in H2.
    destruct (in_range 0x80 0xbf (bz b3)) eqn:H3; [|left; simpl in Hd; by simplify_eq]. apply in_range_true in H3.
    right; right; right. exists b1, b2, b3, s. simpl andb in Hd. pose proof (Hm b1). pose proof (Hm b2). pose proof (Hm b3).
    rewrite !Hl6, (land_low _ 3), (lor_low (bz b2 mod 64)), (lor_low (bz b1 mod 64)), lor_low in Hd by (done || lia || mod_lia).
    change (2 ^ 3)%Z with 8%Z in Hd. simplify_eq. split_and!; try done; mod_lia.
Qed.

(** Only the bytes of U+2028 and U+2029 decode to them. *)
Lemma DecodeRune_separator b0 s c k :
  (RuneSelf <= bz b0)%Z -> DecodeRune (b0 :: s) = (c, k) -> (c = 0x2028 \/ c = 0x2029)%Z ->
  take k (b0 :: s) = [xe2; x80; zb (0x80 + c mod 64)].
Proof.
  intros Hb0 Hd Hc. apply DecodeRune_inv in Hd; [|done].
  destruct Hd as [(-> & _)|[(b1 & r & _ & _ & _ & Hlt)|[(b1 & b2 & r & -> & -> & Hb & H1 & H2 & Heq)|
    (b1 & b2 & b3 & r & _ & _ & _ & _ & _ & Hge)]]].
  1: unfold RuneError in Hc; lia. 1, 3: lia.
  simpl. f_equal; [|f_equal; [|f_equal]].
  1: apply bz_inj; change (bz xe2) with 0xe2%Z; mod_lia.
  1: apply bz_inj; change (bz x80) with 0x80%Z; mod_lia.
  apply bz_inj. rewrite bz_zb. mod_lia.
Qed.

Lemma DecodeRune_high b0 s c k :
  (RuneSelf <= bz b0)%Z -> DecodeRune (b0 :: s) = (c, k) ->
  Forall (fun b => plain b = true) (take k (b0 :: s)).
Proof.
  intros Hb0 Hd. assert (Hp : forall b, (0x80 <= bz b)%Z -> plain b = true) by (unfold plain; lia).
  apply DecodeRune_inv in Hd; [|done].
  destruct Hd as [(_ & ->)|[(b1 & r & -> & -> & H1 & _)|[(b1 & b2 & r & -> & -> & _ & H1 & H2 & _)|
    (b1 & b2 & b3 & r & -> & -> & H1 & H2 & H3 & _)]]]; simpl;
  repeat constructor; apply Hp; (done || lia).
Qed.

(** Each character is written so that it reads back. *)
Lemma next_char_reads ne b s instead k c size :
  next_char ne (b :: s) = (instead, k) -> DecodeRune (b :: s) = (c, size) ->
  k = size /\
  reads (default (take k (b :: s)) instead)
    (if (c =? RuneError)%Z && (size =? 1) then [xef; xbf; xbd] else take size (b :: s)).
Proof.
  intros Hn Hd. unfold next_char in Hn. destruct (Z.ltb_spec (bz b) RuneSelf) as [Hlt|Hge].
  - assert (c = bz b /\ size = 1) as [-> ->].
    { unfold DecodeRune in Hd. destruct (Z.ltb_spec (bz b) RuneSelf); [|lia]. by simplify_eq. }
    destruct (Z.eqb_spec (bz b) RuneError); [unfold RuneError, RuneSelf in *; lia|].
    destruct (_ || _) eqn:Hsafe; simplify_eq; split; try done; simpl.
    + apply reads_plain. repeat constructor.
      apply orb_true_iff in Hsafe. unfold htmlSafeSet, plain, safeSet in *. destruct Hsafe; lia.
    + apply reads_escape; [by apply Z.ltb_lt|]. apply orb_false_iff in Hsafe as [? _]. by right.
  - rewrite Hd in Hn. injection Hn as <- <-. split; [done|].
    destruct (_ && _) eqn:Herr; [intros rest; simpl; by destruct (unescape rest)|].
    destruct (_ || _) eqn:Hsep; [|simpl; apply reads_plain; by eapply DecodeRune_high].
    rewrite orb_true_iff, !Z.eqb_eq in Hsep. rewrite (DecodeRune_separator b s c size) by done.
    intros rest. destruct Hsep as [-> | ->]; simpl; by destruct (unescape rest).
Qed.

Lemma escape_reads ne fuel s : reads (escape ne fuel s) (sanitize_fuel fuel s).
Proof.
  revert s. induction fuel as [|fuel IH]; intros s rest; [simpl; by destruct (unescape rest)|].
  destruct s as [|b s]; [simpl; by destruct (unescape rest)|].
  cbn [escape sanitize_fuel]. destruct (next_char ne (b :: s)) as [instead k] eqn:Hn.
  destruct (DecodeRune (b :: s)) as [c size] eqn:Hd.
  destruct (next_char_reads _ _ _ _ _ _ _ Hn Hd) as [-> Hr].
  rewrite <- app_assoc, Hr, IH. destruct (unescape rest); simpl; [|done]. by rewrite <- app_assoc.
Qed.

Lemma sanitize_valid fuel s : length s <= fuel -> valid_utf8_fuel fuel s = true -> sanitize_fuel fuel s = s.
Proof.
  revert s. induction fuel as [|fuel IH]; intros s Hf Hv; [by destruct s; simpl in *; [|lia]|].
  destruct s as [|b s]; [done|]. cbn [sanitize_fuel valid_utf8_fuel] in *.
  pose proof (DecodeRune_size (b :: s) ltac:(done)) as Hsz.
  destruct (DecodeRune (b :: s)) as [c size]. simpl in Hsz. apply andb_true_iff in Hv as [Hok Hv].
  apply negb_true_iff in Hok. rewrite Hok, IH, take_drop; [done| |done].
  rewrite length_drop. simpl in *. lia.
Qed.

Lemma removelast_snoc (l : bytes) x : removelast (l ++ [x]) = l.
Proof. by rewrite removelast_app, app_nil_r by done. Qed.

Lemma unquote_quoted w s : unquote (quoted w s) = Some (sanitize s).
Proof.
  unfold unquote, quoted. simpl. rewrite last_snoc, bool_decide_eq_true_2 by done. simpl.
  rewrite removelast_snoc. pose proof (escape_reads (NoEscapeHTML w) (length s) s []) as H.
  rewrite app_nil_r in H. rewrite H. simpl. by rewrite app_nil_r.
Qed.

(** No control characters. *)
Definition printable (b : byte) : Prop := (0x20 <= bz b)%Z.

Lemma next_char_printable ne b s instead k :
  next_char ne (b :: s) = (instead, k) -> Forall printable (default (take k (b :: s)) instead).
Proof.
  intros Hn. unfold next_char in Hn. destruct (Z.ltb_spec (bz b) RuneSelf) as [Hlt|Hge].
  - destruct (_ || _) eqn:Hsafe; simplify_eq; simpl.
    + repeat constructor. apply orb_true_iff in Hsafe. unfold htmlSafeSet, printable, safeSet in *.
      destruct Hsafe; lia.
    + unfold printable. clear. apply (bool_decide_unpack _). by destruct b.
  - destruct (DecodeRune (b :: s)) as [c size] eqn:Hd. injection Hn as <- <-.
    destruct (_ && _) eqn:Herr; [unfold printable; by apply (bool_decide_unpack _)|].
    destruct (_ || _) eqn:Hsep.
    + rewrite orb_true_iff, !Z.eqb_eq in Hsep. unfold printable. apply (bool_decide_unpack _).
      by destruct Hsep as [-> | ->].
    + simpl. eapply Forall_impl; [by eapply DecodeRune_high|]. unfold plain, printable. intros x Hx. lia.
Qed.

Lemma escape_printable ne fuel s : Forall printable (escape ne fuel s).
Proof.
  revert s. induction fuel as [|fuel IH]; intros s; [constructor|]. destruct s as [|b s]; [constructor|].
  cbn [escape]. destruct (next_char ne (b :: s)) as [instead k] eqn:Hn. apply Forall_app. split; [|apply IH].
  by eapply next_char_printable.
Qed.

Lemma quoted_printable w s : Forall printable (quoted w s).
Proof.
  unfold quoted. rewrite !Forall_app. split_and!; [|apply escape_printable|]; repeat constructor; done.
Qed.

Lemma printable_no_nl l : Forall printable l -> nl ∉ l.
Proof. intros Hl Hin. rewrite Forall_forall in Hl. by apply Hl in Hin. Qed.

(** C11: [writer.String] appends a JSON string literal for any bytes: it has no
    control characters, hence no newline, and reads back as the string with each
    byte outside valid UTF-8 replaced by U+FFFD, as itself when the string is
    valid UTF-8. *)
Theorem writer_String_roundtrip w b s :
  exists e, writer_String (set_buf w b) s = Ok (set_buf w (b ++ e)) /\
    unquote e = Some (sanitize s) /\ (valid_utf8 s = true -> unquote e = Some s) /\
    Forall printable e /\ nl ∉ e.
Proof.
  exists (quoted w s). split_and!.
  - apply writer_String_set.
  - apply unquote_quoted.
  - intros Hv. rewrite unquote_quoted. unfold sanitize. by rewrite sanitize_valid.
  - apply quoted_printable.
  - apply printable_no_nl, quoted_printable.
Qed.

Definition ws (l : bytes) : Prop := Forall (fun b => b ∈ [x20; x09; x0a; x0d]) l.

Definition is_digit (b : byte) : bool := in_range 0x30 0x39 (bz b).
Definition digits (l : bytes) : Prop := l <> [] /\ Forall (fun b => is_digit b = true) l.

(** An integer without superfluous zeros. *)
Definition json_int (l : bytes) : Prop := digits l /\ (head l = Some x30 -> l = [x30]).

Definition json_number (l : bytes) : Prop :=
  exists sign int frac exp, l = sign ++ int ++ frac ++ exp /\
    (sign = [] \/ sign = [x2d]) /\ json_int int /\
    (frac = [] \/ exists d, frac = x2e :: d /\ digits d) /\
    (exp = [] \/ exists e s d, exp = e :: s ++ d /\ e ∈ [x65; x45] /\ s ∈ [[]; [x2b]; [x2d]] /\ digits d).

(** The content of a string literal: plain bytes and escapes. *)
Fixpoint literal_body (l : bytes) : bool :=
  match l with
  | [] => true
  | b :: l1 =>
    if plain b then literal_body l1
    else if negb (bool_decide (b = x5c)) then false
    else
      match l1 with
      | [] => false
      | c :: l2 =>
        if negb (bool_decide (c = x75)) then bool_decide (is_Some (simple_escape c)) && literal_body l2
        else
          match l2 with
          | h1 :: h2 :: h3 :: h4 :: l6 => bool_decide (is_Some (hex4 h1 h2 h3 h4)) && literal_body l6
          | _ => false
          end
      end
  end.
Definition json_string (l : bytes) : Prop := exists body, l = x22 :: body ++ [x22] /\ literal_body body = true.

Inductive json_value : bytes -> Prop :=
| JLiteral l : l ∈ [lit "null"; lit "true"; lit "false"] -> json_value l
| JNumber l : json_number l -> json_value l
| JString l : json_string l -> json_value l
| JEmptyArray w : ws w -> json_value (x5b :: w ++ [x5d])
| JArray es : json_elements es -> json_value (x5b :: es ++ [x5d])
| JEmptyObject w : ws w -> json_value (x7b :: w ++ [x7d])
| JObject ms : json_members ms -> json_value (x7b :: ms ++ [x7d])
with json_elements : bytes -> Prop :=
| JLastElement w1 v w2 : ws w1 -> json_value v -> ws w2 -> json_elements (w1 ++ v ++ w2)
| JElement w1 v w2 es :
    ws w1 -> json_value v -> ws w2 -> json_elements es -> json_elements (w1 ++ v ++ w2 ++ x2c :: es)
with json_members : bytes -> Prop :=
| JLastMember w1 k w2 w3 v w4 :
    ws w1 -> json_string k -> ws w2 -> ws w3 -> json_value v -> ws w4 ->
    json_members (w1 ++ k ++ w2 ++ x3a :: w3 ++ v ++ w4)
| JMember w1 k w2 w3 v w4 ms :
    ws w1 -> json_string k -> ws w2 -> ws w3 -> json_value v -> ws w4 -> json_members ms ->
    json_members (w1 ++ k ++ w2 ++ x3a :: w3 ++ v ++ w4 ++ x2c :: ms).

Scheme json_value_mut := Minimality for json_value Sort Prop
  with json_elements_mut := Minimality for json_elements Sort Prop
  with json_members_mut := Minimality for json_members Sort Prop.
Combined Scheme json_mutind from json_value_mut, json_elements_mut, json_members_mut.

(** A text: a value between white space. *)
Definition json_text (l : bytes) : Prop := exists w1 v w2, l = w1 ++ v ++ w2 /\ ws w1 /\ json_value v /\ ws w2.

Definition strip (l : bytes) : bytes := filter (fun b => b <> nl) l.

#[export] Hint Constructors json_value json_elements json_members : kairos.

(** ** Dropping newlines *)

Lemma strip_app a b : strip (a ++ b) = strip a ++ strip b.
Proof. apply filter_app. Qed.

Lemma strip_cons b l : b <> nl -> strip (b :: l) = b :: strip l.
Proof. intros Hb. unfold strip. by rewrite filter_cons_True. Qed.

Lemma strip_none l : nl ∉ l -> strip l = l.
Proof.
  intros Hl. unfold strip. induction l as [|b l IH]; [done|]. apply not_elem_of_cons in Hl as [Hb Hl].
  by rewrite filter_cons_True, IH by congruence.
Qed.

Lemma strip_no_nl l : nl ∉ strip l.
Proof. unfold strip. by intros [H _]%list_elem_of_filter. Qed.

Lemma ws_strip w : ws w -> ws (strip w).
Proof. intros Hw. unfold ws, strip in *. rewrite Forall_forall in *. intros b [_ Hb]%list_elem_of_filter. auto. Qed.

Lemma digits_no_nl l : Forall (fun b => is_digit b = true) l -> nl ∉ l.
Proof. intros Hl Hin. rewrite Forall_forall in Hl. by apply Hl in Hin. Qed.

Lemma json_number_no_nl l : json_number l -> nl ∉ l.
Proof.
  intros (sign & int & frac & exp & -> & Hs & [[_ Hi] _] & Hf & He). rewrite !not_elem_of_app. split_and!.
  - destruct Hs as [-> | ->]; by apply (bool_decide_unpack _).
  - by apply digits_no_nl.
  - destruct Hf as [-> | (d & -> & _ & Hd)]; [by apply (bool_decide_unpack _)|].
    rewrite not_elem_of_cons. split; [done|by apply digits_no_nl].
  - destruct He as [-> | (e & s & d & -> & He & Hs' & _ & Hd)]; [by apply (bool_decide_unpack _)|].
    rewrite not_elem_of_cons, not_elem_of_app. split_and!.
    + intros <-. by apply (bool_decide_unpack _) in He || by apply (bool_decide_pack _) in He.
    + intros Hin. repeat (apply elem_of_cons in Hs' as [->|Hs']; [by apply (bool_decide_pack _) in Hin|]).
      by apply elem_of_nil in Hs'.
    + by apply digits_no_nl.
Qed.

Lemma literal_body_no_nl l : literal_body l = true -> nl ∉ l.
Proof.
  remember (length l) as n eqn:Hn. revert l Hn.
  induction n as [n IH] using lt_wf_ind. intros l -> Hl. destruct l as [|b l1]; [by apply not_elem_of_nil|].
  rewrite not_elem_of_cons. cbn [literal_body] in Hl. destruct (plain b) eqn:Hb.
  { split; [by intros <-|]. by eapply (IH (length l1)); [simpl; lia|..]. }
  case_bool_decide as Hbs; [|done]. subst b. split; [done|]. destruct l1 as [|c l2]; [done|].
  rewrite not_elem_of_cons. case_bool_decide as Hc; simpl in Hl.
  - subst c. split; [done|]. destruct l2 as [|h1 [|h2 [|h3 [|h4 l6]]]]; try done.
    apply andb_true_iff in Hl as [Hh Hl]. apply bool_decide_eq_true in Hh. rewrite !not_elem_of_cons. split_and!.
    5: by eapply (IH (length l6)); [simpl; lia|..].
    all: intros <-; unfold hex4 in Hh; change (hexval nl) with (@None Z) in Hh; simpl in Hh.
    all: repeat match type of Hh with context [hexval ?h] => destruct (hexval h); simpl in Hh end; by destruct Hh.
  - apply andb_true_iff in Hl as [He Hl]. apply bool_decide_eq_true in He. split.
    + intros <-. by destruct He.
    + by eapply (IH (length l2)); [simpl; lia|..].
Qed.

Lemma json_string_no_nl l : json_string l -> nl ∉ l.
Proof.
  intros (body & -> & Hb%literal_body_no_nl). rewrite not_elem_of_cons, not_elem_of_app.
  split_and!; [done|done|]. by apply (bool_decide_unpack _).
Qed.

Lemma json_string_strip l : json_string l -> json_string (strip l).
Proof. intros Hl. by rewrite strip_none by (by apply json_string_no_nl). Qed.

#[export] Hint Resolve ws_strip json_string_strip : kairos.

(** [strip] goes through the punctuation of a text. *)
Ltac strip_through :=
  repeat (rewrite strip_app || (rewrite strip_cons by done)); try change (strip [x5d]) with [x5d];
  try change (strip [x7d]) with [x7d].

Lemma json_strip :
  (forall v, json_value v -> json_value (strip v)) /\
  (forall es, json_elements es -> json_elements (strip es)) /\
  (forall ms, json_members ms -> json_members (strip ms)).
Proof.
  apply json_mutind; intros; strip_through; eauto 10 with kairos.
  - apply JLiteral. rewrite strip_none; [done|]. intros Hin.
    repeat match goal with H : _ ∈ _ :: _ |- _ => apply elem_of_cons in H as [->|H];
      [by apply (bool_decide_pack _) in Hin|] end. by apply elem_of_nil in H.
  - apply JNumber. by rewrite strip_none by (by apply json_number_no_nl).
Qed.

Lemma json_text_strip l : json_text l -> json_text (strip l).
Proof.
  intros (w1 & v & w2 & -> & Hw1 & Hv & Hw2). exists (strip w1), (strip v), (strip w2).
  rewrite !strip_app. split_and!; auto with kairos. by apply json_strip.
Qed.

Lemma json_value_text v : json_value v -> json_text v.
Proof. intros Hv. exists [], v, []. rewrite app_nil_r. split_and!; try done; constructor. Qed.

(** ** Numbers of [strconv] *)

Lemma digit_is_digit d : (0 <= d < 10)%Z -> is_digit (digit d) = true.
Proof. intros Hd. unfold is_digit, digit. rewrite bz_zb, Z.mod_small by lia. apply in_range_true. lia. Qed.

Lemma format_digits_S fuel n acc :
  format_digits (S fuel) n acc =
    if (n <? 10)%Z then digit (n mod 10) :: acc else format_digits fuel (n / 10) (digit (n mod 10) :: acc).
Proof. done. Qed.

Lemma format_digits_spec fuel n acc :
  (0 <= n < 10 ^ Z.of_nat (S fuel))%Z -> Forall (fun b => is_digit b = true) acc ->
  exists d ds, format_digits (S fuel) n acc = d :: ds ++ acc /\
    Forall (fun b => is_digit b = true) (d :: ds) /\ (d = x30 -> n = 0%Z /\ ds = []).
Proof.
  revert n acc. induction fuel as [|fuel IH]; intros n acc Hn Hacc; rewrite format_digits_S.
  all: destruct (Z.ltb_spec n 10) as [Hlt|Hge].
  1, 3: exists (digit (n mod 10)), []; split_and!; [done|repeat constructor; apply digit_is_digit; mod_lia|];
    rewrite Z.mod_small by lia; intros Hd%(f_equal bz); unfold digit in Hd; rewrite bz_zb, Z.mod_small in Hd by lia;
    change (bz x30) with 48%Z in Hd; split; [lia|done].
  { change (10 ^ Z.of_nat 1)%Z with 10%Z in Hn. lia. }
  destruct (IH (n / 10)%Z (digit (n mod 10) :: acc)) as (d & ds & -> & Hds & Hz).
  { replace (Z.of_nat (S (S fuel))) with (1 + Z.of_nat (S fuel))%Z in Hn by lia.
    rewrite Z.pow_add_r in Hn by lia. split; [apply Z.div_pos; lia|apply Z.div_lt_upper_bound; lia]. }
  { constructor; [apply digit_is_digit; mod_lia|done]. }
  exists d, (ds ++ [digit (n mod 10)]). split_and!.
  - by rewrite <- app_assoc.
  - apply Forall_cons in Hds as [Hd Hds]. constructor; [done|]. apply Forall_app. split; [done|].
    repeat constructor. apply digit_is_digit. mod_lia.
  - intros Hd. apply Hz in Hd as [Hd _]. mod_lia.
Qed.

Lemma FormatUint_int n : (0 <= n < 2 ^ 64)%Z -> json_int (FormatUint n).
Proof.
  intros Hn. unfold FormatUint. destruct (format_digits_spec 19 n []) as (d & ds & -> & Hds & Hz).
  - change (10 ^ Z.of_nat 20)%Z with 100000000000000000000%Z. lia.
  - constructor.
  - rewrite app_nil_r. split; [by split|]. simpl. intros [= ->]. by destruct (Hz eq_refl) as [_ ->].
Qed.

Lemma FormatUint_number n : (0 <= n < 2 ^ 64)%Z -> json_number (FormatUint n).
Proof.
  intros Hn. exists [], (FormatUint n), [], []. rewrite !app_nil_r. split_and!; auto. by apply FormatUint_int.
Qed.

(** ** Literals of the writer *)

Lemma unescape_literal l x : unescape l = Some x -> literal_body l = true.
Proof.
  remember (length l) as n eqn:Hn. revert l x Hn.
  induction n as [n IH] using lt_wf_ind. intros l x -> Hl. destruct l as [|b l1]; [done|].
  cbn [literal_body unescape] in *. destruct (plain b).
  { destruct (unescape l1) as [y|] eqn:Hy; [|done]. by eapply (IH (length l1)); [simpl; lia|..]. }
  case_bool_decide; [|done]. simpl in *. destruct l1 as [|c l2]; [done|]. case_bool_decide; simpl in *.
  - destruct l2 as [|h1 [|h2 [|h3 [|h4 l6]]]]; try done. destruct (hex4 h1 h2 h3 h4) as [r|]; [|done].
    simpl in Hl. destruct (encode_rune r); [|done]. simpl in Hl. destruct (unescape l6) as [y|] eqn:Hy; [|done].
    simpl. by eapply (IH (length l6)); [simpl; lia|..].
  - destruct (simple_escape c) as [e|]; [|done]. simpl in Hl. destruct (unescape l2) as [y|] eqn:Hy; [|done].
    simpl. by eapply (IH (length l2)); [simpl; lia|..].
Qed.

Lemma quoted_json w s : json_string (quoted w s).
Proof.
  exists (escape (NoEscapeHTML w) (length s) s). split; [done|].
  apply (unescape_literal _ (sanitize s)). pose proof (escape_reads (NoEscapeHTML w) (length s) s []) as H.
  rewrite app_nil_r in H. rewrite H. simpl. by rewrite app_nil_r.
Qed.
