(* ===== verification/WireMsg.v ===== *)
(** The messages of [pkg/protocol/deliverprotocol] ([deliver.pb.go]) and their
    JSON encoders ([deliver.pb_easyjson.go]), and the encoders of [encode.go]
    built on them.

    A pointer is an [option], a [Raw] field the bytes or the nil slice, and a Go
    map the list of its entries in the order of the iteration, which Go leaves
    open.  [unknownFields] is what the protobuf decoder did not know, for nil the
    empty list. *)

From S2P Require Import Prelude BytePool JsonWriter.

(** ** The parts of a generated encoder *)

Definition enc := json_writer -> outcome Empty_set json_writer.

Definition nonempty {A} (l : list A) : bool := negb (length l =? 0).
Definition present {A} (o : option A) : bool := match o with Some _ => true | None => false end.

Definition enc_string (s : bytes) : enc := fun out => writer_String out s.
Definition enc_uint32 (n : Z) : enc := fun out => writer_Uint32 out n.
Definition enc_bool (v : bool) : enc := fun out => writer_Bool out v.

(** [out.Raw((in.Data).MarshalJSON())]. *)
Definition enc_raw (r : option bytes) : enc :=
  fun out => let '(src, err) := Raw_MarshalJSON r in writer_Raw out src err.

(** [( *in.F).MarshalEasyJSON(out)] behind the test that the field is set. *)
Definition enc_some {A} (f : A -> enc) (o : option A) : enc :=
  fun out => match o with Some v => f v out | None => Panic NilDereference end.

(** An element of a slice or map of pointers. *)
Definition enc_pointer {A} (f : A -> enc) (o : option A) : enc :=
  fun out => match o with None => RawString out (lit "null") | Some v => f v out end.

Fixpoint enc_elements {A} (f : A -> enc) (i : nat) (l : list (option A)) (out : json_writer)
    : outcome Empty_set json_writer :=
  match l with
  | [] => Ok out
  | v :: l =>
    out ← (if 0 <? i then RawByte out x2c else Ok out);
    out ← enc_pointer f v out;
    enc_elements f (S i) l out
  end.
Definition enc_array {A} (f : A -> enc) (l : list (option A)) : enc :=
  fun out => out ← RawByte out x5b; out ← enc_elements f 0 l out; RawByte out x5d.

Fixpoint enc_entries {A} (f : A -> enc) (first : bool) (l : list (bytes * A)) (out : json_writer)
    : outcome Empty_set json_writer :=
  match l with
  | [] => Ok out
  | (name, v) :: l =>
    out ← (if first then Ok out else RawByte out x2c);
    out ← writer_String out name;
    out ← RawByte out x3a;
    out ← f v out;
    enc_entries f false l out
  end.
Definition enc_map {A} (f : A -> enc) (l : list (bytes * A)) : enc :=
  fun out => out ← RawByte out x7b; out ← enc_entries f true l out; RawByte out x7d.
Definition enc_nil_map {A} (f : A -> enc) (m : option (list (bytes * A))) : enc :=
  fun out =>
    if negb (present m) && (Z.land out.(w_Flags) nilMapAsEmpty =? 0)%Z then RawString out (lit "null")
    else enc_map f (default [] m) out.

(** The constant [prefix] of a field: a comma, the quoted name, a colon. *)
Definition prefix (name : string) : bytes := x2c :: x22 :: lit name ++ [x22; x3a].

(** The state of an encoder: the writer and [first]. *)
Definition field_block := json_writer * bool -> outcome Empty_set (json_writer * bool).

(** The block of a field: the name with or without the comma, then the value.
    The first field is written without a test of [first], and fields behind one
    that is always written with the comma. *)
Definition field (cond : bool) (name : string) (value : enc) : field_block :=
  fun '(out, first) =>
    if cond then
      out ← (if first then RawString out (drop 1 (prefix name)) else RawString out (prefix name));
      out ← value out;
      Ok (out, false)
    else Ok (out, first).
Definition field_first (cond : bool) (name : string) (value : enc) : field_block :=
  fun '(out, first) =>
    if cond then
      out ← RawString out (drop 1 (prefix name)); out ← value out; Ok (out, false)
    else Ok (out, first).
Definition field_next (cond : bool) (name : string) (value : enc) : field_block :=
  fun '(out, first) =>
    if cond then out ← RawString out (prefix name); out ← value out; Ok (out, first)
    else Ok (out, first).

Fixpoint run_fields (fs : list field_block) (st : json_writer * bool) : outcome Empty_set (json_writer * bool) :=
  match fs with
  | [] => Ok st
  | f :: fs => st ← f st; run_fields fs st
  end.

Definition object (fs : list field_block) : enc :=
  fun out =>
    out ← RawByte out x7b;
    '(out, _) ← run_fields fs (out, true);
    RawByte out x7d.

(** ** The messages *)

Record pb_Error := mk_Error {
  Error_Code : Z;
  Error_Message : bytes;
  Error_unknownFields : bytes }.
Definition encode_Error (in_ : pb_Error) : enc := object [
  field_first (negb (in_.(Error_Code) =? 0)%Z) "code" (enc_uint32 in_.(Error_Code));
  field (nonempty in_.(Error_Message)) "message" (enc_string in_.(Error_Message))].

Record pb_SubscribeRequest := mk_SubscribeRequest {
  SubscribeRequest_Channel : bytes;
  SubscribeRequest_Token : bytes;
  SubscribeRequest_Data : option bytes;
  SubscribeRequest_JoinLeave : bool;
  SubscribeRequest_unknownFields : bytes }.
Definition encode_SubscribeRequest (in_ : pb_SubscribeRequest) : enc := object [
  field_first (nonempty in_.(SubscribeRequest_Channel)) "channel" (enc_string in_.(SubscribeRequest_Channel));
  field (nonempty in_.(SubscribeRequest_Token)) "token" (enc_string in_.(SubscribeRequest_Token));
  field (nonempty (default [] in_.(SubscribeRequest_Data))) "data" (enc_raw in_.(SubscribeRequest_Data));
  field in_.(SubscribeRequest_JoinLeave) "join_leave" (enc_bool in_.(SubscribeRequest_JoinLeave))].

Record pb_ConnectRequest := mk_ConnectRequest {
  ConnectRequest_Token : bytes;
  ConnectRequest_Data : option bytes;
  ConnectRequest_Subs : list (bytes * option pb_SubscribeRequest);
  ConnectRequest_Name : bytes;
  ConnectRequest_unknownFields : bytes }.
Definition encode_ConnectRequest (in_ : pb_ConnectRequest) : enc := object [
  field_first (nonempty in_.(ConnectRequest_Token)) "token" (enc_string in_.(ConnectRequest_Token));
  field (nonempty (default [] in_.(ConnectRequest_Data))) "data" (enc_raw in_.(ConnectRequest_Data));
  field (nonempty in_.(ConnectRequest_Subs)) "subs" (enc_map (enc_pointer encode_SubscribeRequest) in_.(ConnectRequest_Subs));
  field (nonempty in_.(ConnectRequest_Name)) "name" (enc_string in_.(ConnectRequest_Name))].

Record pb_UnsubscribeRequest := mk_UnsubscribeRequest {
  UnsubscribeRequest_Channel : bytes;
  UnsubscribeRequest_unknownFields : bytes }.
Definition encode_UnsubscribeRequest (in_ : pb_UnsubscribeRequest) : enc := object [
  field_first (nonempty in_.(UnsubscribeRequest_Channel)) "channel" (enc_string in_.(UnsubscribeRequest_Channel))].

Record pb_PublishRequest := mk_PublishRequest {
  PublishRequest_Channel : bytes;
  PublishRequest_Data : option bytes;
  PublishRequest_unknownFields : bytes }.
Definition encode_PublishRequest (in_ : pb_PublishRequest) : enc := object [
  field_first (nonempty in_.(PublishRequest_Channel)) "channel" (enc_string in_.(PublishRequest_Channel));
  field (nonempty (default [] in_.(PublishRequest_Data))) "data" (enc_raw in_.(PublishRequest_Data))].

Record pb_PresenceRequest := mk_PresenceRequest {
  PresenceRequest_Channel : bytes;
  PresenceRequest_unknownFields : bytes }.
Definition encode_PresenceRequest (in_ : pb_PresenceRequest) : enc := object [
  field_first (nonempty in_.(PresenceRequest_Channel)) "channel" (enc_string in_.(PresenceRequest_Channel))].

Record pb_PresenceStatsRequest := mk_PresenceStatsRequest {
  PresenceStatsRequest_Channel : bytes;
  PresenceStatsRequest_unknownFields : bytes }.
Definition encode_PresenceStatsRequest (in_ : pb_PresenceStatsRequest) : enc := object [
  field_first (nonempty in_.(PresenceStatsRequest_Channel)) "channel" (enc_string in_.(PresenceStatsRequest_Channel))].

Record pb_PingRequest := mk_PingRequest { PingRequest_unknownFields : bytes }.
Definition encode_PingRequest (in_ : pb_PingRequest) : enc := object [].

Record pb_SendRequest := mk_SendRequest {
  SendRequest_Data : option bytes;
  SendRequest_unknownFields : bytes }.
Definition encode_SendRequest (in_ : pb_SendRequest) : enc := object [
  field_first (nonempty (default [] in_.(SendRequest_Data))) "data" (enc_raw in_.(SendRequest_Data))].

Record pb_RefreshRequest := mk_RefreshRequest {
  RefreshRequest_Token : bytes;
  RefreshRequest_unknownFields : bytes }.
Definition encode_RefreshRequest (in_ : pb_RefreshRequest) : enc := object [
  field_first (nonempty in_.(RefreshRequest_Token)) "token" (enc_string in_.(RefreshRequest_Token))].

Record pb_SubRefreshRequest := mk_SubRefreshRequest {
  SubRefreshRequest_Channel : bytes;
  SubRefreshRequest_Token : bytes;
  SubRefreshRequest_unknownFields : bytes }.
Definition encode_SubRefreshRequest (in_ : pb_SubRefreshRequest) : enc := object [
  field_first (nonempty in_.(SubRefreshRequest_Channel)) "channel" (enc_string in_.(SubRefreshRequest_Channel));
  field (nonempty in_.(SubRefreshRequest_Token)) "token" (enc_string in_.(SubRefreshRequest_Token))].

Record pb_Command := mk_Command {
  Command_Id : Z;
  Command_Connect : option pb_ConnectRequest;
  Command_Subscribe : option pb_SubscribeRequest;
  Command_Unsubscribe : option pb_UnsubscribeRequest;
  Command_Publish : option pb_PublishRequest;
  Command_Presence : option pb_PresenceRequest;
  Command_PresenceStats : option pb_PresenceStatsRequest;
  Command_Ping : option pb_PingRequest;
  Command_Send : option pb_SendRequest;
  Command_Refresh : option pb_RefreshRequest;
  Command_SubRefresh : option pb_SubRefreshRequest;
  Command_unknownFields : bytes }.
Definition encode_Command (in_ : pb_Command) : enc := object [
  field_first (negb (in_.(Command_Id) =? 0)%Z) "id" (enc_uint32 in_.(Command_Id));
  field (present in_.(Command_Connect)) "connect" (enc_some encode_ConnectRequest in_.(Command_Connect));
  field (present in_.(Command_Subscribe)) "subscribe" (enc_some encode_SubscribeRequest in_.(Command_Subscribe));
  field (present in_.(Command_Unsubscribe)) "unsubscribe" (enc_some encode_UnsubscribeRequest in_.(Command_Unsubscribe));
  field (present in_.(Command_Publish)) "publish" (enc_some encode_PublishRequest in_.(Command_Publish));
  field (present in_.(Command_Presence)) "presence" (enc_some encode_PresenceRequest in_.(Command_Presence));
  field (present in_.(Command_PresenceStats)) "presence_stats" (enc_some encode_PresenceStatsRequest in_.(Command_PresenceStats));
  field (present in_.(Command_Ping)) "ping" (enc_some encode_PingRequest in_.(Command_Ping));
  field (present in_.(Command_Send)) "send" (enc_some encode_SendRequest in_.(Command_Send));
  field (present in_.(Command_Refresh)) "refresh" (enc_some encode_RefreshRequest in_.(Command_Refresh));
  field (present in_.(Command_SubRefresh)) "sub_refresh" (enc_some encode_SubRefreshRequest in_.(Command_SubRefresh))].

Record pb_ClientInfo := mk_ClientInfo {
  ClientInfo_User : bytes;
  ClientInfo_Client : bytes;
  ClientInfo_ConnInfo : option bytes;
  ClientInfo_ChanInfo : option bytes;
  ClientInfo_unknownFields : bytes }.
Definition encode_ClientInfo (in_ : pb_ClientInfo) : enc := object [
  field_first true "user" (enc_string in_.(ClientInfo_User));
  field_next true "client" (enc_string in_.(ClientInfo_Client));
  field_next (nonempty (default [] in_.(ClientInfo_ConnInfo))) "conn_info" (enc_raw in_.(ClientInfo_ConnInfo));
  field_next (nonempty (default [] in_.(ClientInfo_ChanInfo))) "chan_info" (enc_raw in_.(ClientInfo_ChanInfo))].

Record pb_Publication := mk_Publication {
  Publication_Data : option bytes;
  Publication_Info : option pb_ClientInfo;
  Publication_Tags : list (bytes * bytes);
  Publication_unknownFields : bytes }.
Definition encode_Publication (in_ : pb_Publication) : enc := object [
  field_first (nonempty (default [] in_.(Publication_Data))) "data" (enc_raw in_.(Publication_Data));
  field (present in_.(Publication_Info)) "info" (enc_some encode_ClientInfo in_.(Publication_Info));
  field (nonempty in_.(Publication_Tags)) "tags" (enc_map enc_string in_.(Publication_Tags))].

Record pb_Join := mk_Join {
  Join_Info : option pb_ClientInfo;
  Join_unknownFields : bytes }.
Definition encode_Join (in_ : pb_Join) : enc := object [
  field_first (present in_.(Join_Info)) "info" (enc_some encode_ClientInfo in_.(Join_Info))].

Record pb_Leave := mk_Leave {
  Leave_Info : option pb_ClientInfo;
  Leave_unknownFields : bytes }.
Definition encode_Leave (in_ : pb_Leave) : enc := object [
  field_first (present in_.(Leave_Info)) "info" (enc_some encode_ClientInfo in_.(Leave_Info))].

Record pb_Unsubscribe := mk_Unsubscribe {
  Unsubscribe_Code : Z;
  Unsubscribe_Reason : bytes;
  Unsubscribe_unknownFields : bytes }.
Definition encode_Unsubscribe (in_ : pb_Unsubscribe) : enc := object [
  field_first (negb (in_.(Unsubscribe_Code) =? 0)%Z) "code" (enc_uint32 in_.(Unsubscribe_Code));
  field (nonempty in_.(Unsubscribe_Reason)) "reason" (enc_string in_.(Unsubscribe_Reason))].

Record pb_Message := mk_Message {
  Message_Data : option bytes;
  Message_unknownFields : bytes }.
Definition encode_Message (in_ : pb_Message) : enc := object [
  field_first (nonempty (default [] in_.(Message_Data))) "data" (enc_raw in_.(Message_Data))].

Record pb_Subscribe := mk_Subscribe {
  Subscribe_Data : option bytes;
  Subscribe_unknownFields : bytes }.
Definition encode_Subscribe (in_ : pb_Subscribe) : enc := object [
  field_first (nonempty (default [] in_.(Subscribe_Data))) "data" (enc_raw in_.(Subscribe_Data))].

Record pb_SubscribeResult := mk_SubscribeResult {
  SubscribeResult_Expires : bool;
  SubscribeResult_Ttl : Z;
  SubscribeResult_Publications : list (option pb_Publication);
  SubscribeResult_Data : option bytes;
  SubscribeResult_unknownFields : bytes }.
Definition encode_SubscribeResult (in_ : pb_SubscribeResult) : enc := object [
  field_first in_.(SubscribeResult_Expires) "expires" (enc_bool in_.(SubscribeResult_Expires));
  field (negb (in_.(SubscribeResult_Ttl) =? 0)%Z) "ttl" (enc_uint32 in_.(SubscribeResult_Ttl));
  field (nonempty in_.(SubscribeResult_Publications)) "publications" (enc_array encode_Publication in_.(SubscribeResult_Publications));
  field (nonempty (default [] in_.(SubscribeResult_Data))) "data" (enc_raw in_.(SubscribeResult_Data))].

Record pb_Connect := mk_Connect {
  Connect_Client : bytes;
  Connect_Data : option bytes;
  Connect_Subs : list (bytes * option pb_SubscribeResult);
  Connect_Expires : bool;
  Connect_Ttl : Z;
  Connect_Ping : Z;
  Connect_Session : bytes;
  Connect_Node : bytes;
  Connect_unknownFields : bytes }.
Definition encode_Connect (in_ : pb_Connect) : enc := object [
  field_first (nonempty in_.(Connect_Client)) "client" (enc_string in_.(Connect_Client));
  field (nonempty (default [] in_.(Connect_Data))) "data" (enc_raw in_.(Connect_Data));
  field (nonempty in_.(Connect_Subs)) "subs" (enc_map (enc_pointer encode_SubscribeResult) in_.(Connect_Subs));
  field in_.(Connect_Expires) "expires" (enc_bool in_.(Connect_Expires));
  field (negb (in_.(Connect_Ttl) =? 0)%Z) "ttl" (enc_uint32 in_.(Connect_Ttl));
  field (negb (in_.(Connect_Ping) =? 0)%Z) "ping" (enc_uint32 in_.(Connect_Ping));
  field (nonempty in_.(Connect_Session)) "session" (enc_string in_.(Connect_Session));
  field (nonempty in_.(Connect_Node)) "node" (enc_string in_.(Connect_Node))].

Record pb_Disconnect := mk_Disconnect {
  Disconnect_Code : Z;
  Disconnect_Reason : bytes;
  Disconnect_Reconnect : bool;
  Disconnect_unknownFields : bytes }.
Definition encode_Disconnect (in_ : pb_Disconnect) : enc := object [
  field_first (negb (in_.(Disconnect_Code) =? 0)%Z) "code" (enc_uint32 in_.(Disconnect_Code));
  field (nonempty in_.(Disconnect_Reason)) "reason" (enc_string in_.(Disconnect_Reason));
  field in_.(Disconnect_Reconnect) "reconnect" (enc_bool in_.(Disconnect_Reconnect))].

Record pb_Refresh := mk_Refresh {
  Refresh_Expires : bool;
  Refresh_Ttl : Z;
  Refresh_unknownFields : bytes }.
Definition encode_Refresh (in_ : pb_Refresh) : enc := object [
  field_first in_.(Refresh_Expires) "expires" (enc_bool in_.(Refresh_Expires));
  field (negb (in_.(Refresh_Ttl) =? 0)%Z) "ttl" (enc_uint32 in_.(Refresh_Ttl))].

Record pb_Push := mk_Push {
  Push_Channel : bytes;
  Push_Pub : option pb_Publication;
  Push_Join : option pb_Join;
  Push_Leave : option pb_Leave;
  Push_Unsubscribe : option pb_Unsubscribe;
  Push_Message : option pb_Message;
  Push_Subscribe : option pb_Subscribe;
  Push_Connect : option pb_Connect;
  Push_Disconnect : option pb_Disconnect;
  Push_Refresh : option pb_Refresh;
  Push_unknownFields : bytes }.
Definition encode_Push (in_ : pb_Push) : enc := object [
  field_first (nonempty in_.(Push_Channel)) "channel" (enc_string in_.(Push_Channel));
  field (present in_.(Push_Pub)) "pub" (enc_some encode_Publication in_.(Push_Pub));
  field (present in_.(Push_Join)) "join" (enc_some encode_Join in_.(Push_Join));
  field (present in_.(Push_Leave)) "leave" (enc_some encode_Leave in_.(Push_Leave));
  field (present in_.(Push_Unsubscribe)) "unsubscribe" (enc_some encode_Unsubscribe in_.(Push_Unsubscribe));
  field (present in_.(Push_Message)) "message" (enc_some encode_Message in_.(Push_Message));
  field (present in_.(Push_Subscribe)) "subscribe" (enc_some encode_Subscribe in_.(Push_Subscribe));
  field (present in_.(Push_Connect)) "connect" (enc_some encode_Connect in_.(Push_Connect));
  field (present in_.(Push_Disconnect)) "disconnect" (enc_some encode_Disconnect in_.(Push_Disconnect));
  field (present in_.(Push_Refresh)) "refresh" (enc_some encode_Refresh in_.(Push_Refresh))].

Record pb_ConnectResult := mk_ConnectResult {
  ConnectResult_Client : bytes;
  ConnectResult_Expires : bool;
  ConnectResult_Ttl : Z;
  ConnectResult_Data : option bytes;
  ConnectResult_Subs : list (bytes * option pb_SubscribeResult);
  ConnectResult_Ping : Z;
  ConnectResult_Session : bytes;
  ConnectResult_Node : bytes;
  ConnectResult_unknownFields : bytes }.
Definition encode_ConnectResult (in_ : pb_ConnectResult) : enc := object [
  field_first (nonempty in_.(ConnectResult_Client)) "client" (enc_string in_.(ConnectResult_Client));
  field in_.(ConnectResult_Expires) "expires" (enc_bool in_.(ConnectResult_Expires));
  field (negb (in_.(ConnectResult_Ttl) =? 0)%Z) "ttl" (enc_uint32 in_.(ConnectResult_Ttl));
  field (nonempty (default [] in_.(ConnectResult_Data))) "data" (enc_raw in_.(ConnectResult_Data));
  field (nonempty in_.(ConnectResult_Subs)) "subs" (enc_map (enc_pointer encode_SubscribeResult) in_.(ConnectResult_Subs));
  field (negb (in_.(ConnectResult_Ping) =? 0)%Z) "ping" (enc_uint32 in_.(ConnectResult_Ping));
  field (nonempty in_.(ConnectResult_Session)) "session" (enc_string in_.(ConnectResult_Session));
  field (nonempty in_.(ConnectResult_Node)) "node" (enc_string in_.(ConnectResult_Node))].

Record pb_UnsubscribeResult := mk_UnsubscribeResult { UnsubscribeResult_unknownFields : bytes }.
Definition encode_UnsubscribeResult (in_ : pb_UnsubscribeResult) : enc := object [].

Record pb_PublishResult := mk_PublishResult { PublishResult_unknownFields : bytes }.
Definition encode_PublishResult (in_ : pb_PublishResult) : enc := object [].

Record pb_PresenceResult := mk_PresenceResult {
  PresenceResult_Presence : option (list (bytes * option pb_ClientInfo));
  PresenceResult_unknownFields : bytes }.
Definition encode_PresenceResult (in_ : pb_PresenceResult) : enc := object [
  field_first true "presence" (enc_nil_map (enc_pointer encode_ClientInfo) in_.(PresenceResult_Presence))].

Record pb_PresenceStatsResult := mk_PresenceStatsResult {
  PresenceStatsResult_NumClients : Z;
  PresenceStatsResult_NumUsers : Z;
  PresenceStatsResult_unknownFields : bytes }.
Definition encode_PresenceStatsResult (in_ : pb_PresenceStatsResult) : enc := object [
  field_first true "num_clients" (enc_uint32 in_.(PresenceStatsResult_NumClients));
  field_next true "num_users" (enc_uint32 in_.(PresenceStatsResult_NumUsers))].

Record pb_PingResult := mk_PingResult { PingResult_unknownFields : bytes }.
Definition encode_PingResult (in_ : pb_PingResult) : enc := object [].

Record pb_RefreshResult := mk_RefreshResult {
  RefreshResult_Client : bytes;
  RefreshResult_Version : bytes;
  RefreshResult_Expires : bool;
  RefreshResult_Ttl : Z;
  RefreshResult_unknownFields : bytes }.
Definition encode_RefreshResult (in_ : pb_RefreshResult) : enc := object [
  field_first (nonempty in_.(RefreshResult_Client)) "client" (enc_string in_.(RefreshResult_Client));
  field (nonempty in_.(RefreshResult_Version)) "version" (enc_string in_.(RefreshResult_Version));
  field in_.(RefreshResult_Expires) "expires" (enc_bool in_.(RefreshResult_Expires));
  field (negb (in_.(RefreshResult_Ttl) =? 0)%Z) "ttl" (enc_uint32 in_.(RefreshResult_Ttl))].

Record pb_SubRefreshResult := mk_SubRefreshResult {
  SubRefreshResult_Expires : bool;
  SubRefreshResult_Ttl : Z;
  SubRefreshResult_unknownFields : bytes }.
Definition encode_SubRefreshResult (in_ : pb_SubRefreshResult) : enc := object [
  field_first in_.(SubRefreshResult_Expires) "expires" (enc_bool in_.(SubRefreshResult_Expires));
  field (negb (in_.(SubRefreshResult_Ttl) =? 0)%Z) "ttl" (enc_uint32 in_.(SubRefreshResult_Ttl))].

Record pb_Reply := mk_Reply {
  Reply_Id : Z;
  Reply_Error : option pb_Error;
  Reply_Push : option pb_Push;
  Reply_Connect : option pb_ConnectResult;
  Reply_Subscribe : option pb_SubscribeResult;
  Reply_Unsubscribe : option pb_UnsubscribeResult;
  Reply_Publish : option pb_PublishResult;
  Reply_Presence : option pb_PresenceResult;
  Reply_PresenceStats : option pb_PresenceStatsResult;
  Reply_Ping : option pb_PingResult;
  Reply_Refresh : option pb_RefreshResult;
  Reply_SubRefresh : option pb_SubRefreshResult;
  Reply_unknownFields : bytes }.
Definition encode_Reply (in_ : pb_Reply) : enc := object [
  field_first (negb (in_.(Reply_Id) =? 0)%Z) "id" (enc_uint32 in_.(Reply_Id));
  field (present in_.(Reply_Error)) "error" (enc_some encode_Error in_.(Reply_Error));
  field (present in_.(Reply_Push)) "push" (enc_some encode_Push in_.(Reply_Push));
  field (present in_.(Reply_Connect)) "connect" (enc_some encode_ConnectResult in_.(Reply_Connect));
  field (present in_.(Reply_Subscribe)) "subscribe" (enc_some encode_SubscribeResult in_.(Reply_Subscribe));
  field (present in_.(Reply_Unsubscribe)) "unsubscribe" (enc_some encode_UnsubscribeResult in_.(Reply_Unsubscribe));
  field (present in_.(Reply_Publish)) "publish" (enc_some encode_PublishResult in_.(Reply_Publish));
  field (present in_.(Reply_Presence)) "presence" (enc_some encode_PresenceResult in_.(Reply_Presence));
  field (present in_.(Reply_PresenceStats)) "presence_stats" (enc_some encode_PresenceStatsResult in_.(Reply_PresenceStats));
  field (present in_.(Reply_Ping)) "ping" (enc_some encode_PingResult in_.(Reply_Ping));
  field (present in_.(Reply_Refresh)) "refresh" (enc_some encode_RefreshResult in_.(Reply_Refresh));
  field (present in_.(Reply_SubRefresh)) "sub_refresh" (enc_some encode_SubRefreshResult in_.(Reply_SubRefresh))].

(** ** [encode.go]

    [Valid] is [Valid] of the segmentio JSON package. *)

(** [newWriter], [MarshalEasyJSON] and [BuildBytes]. *)
Definition build (f : enc) (reuse : option nat) : outcome io_error bytes :=
  match f new_json_writer with
  | Ok w => '(_, b) ← BuildBytes w reuse; Ok b
  | Err e => match e with end
  | Panic p => Panic p
  end.

Section Encoders.
Context (Valid : bytes -> bool).

Definition isValidJSON (b : option bytes) : option io_error :=
  match b with
  | None => None
  | Some b => if negb (Valid b) then Some ErrInvalidJSON else None
  end.

Definition JSONPushEncoder_Encode (message : pb_Push) : outcome io_error bytes :=
  res ← build (encode_Push message) None;
  match isValidJSON (Some res) with Some err => Err err | None => Ok res end.

Definition JSONReplyEncoder_Encode (r : pb_Reply) : outcome io_error bytes :=
  result ← build (encode_Reply r) None;
  match isValidJSON (Some result) with Some err => Err err | None => Ok result end.

End Encoders.

Definition JSONPushEncoder_EncodePublication (message : pb_Publication) := build (encode_Publication message).
Definition JSONPushEncoder_EncodeMessage (message : pb_Message) := build (encode_Message message).
Definition JSONPushEncoder_EncodeJoin (message : pb_Join) := build (encode_Join message).
Definition JSONPushEncoder_EncodeLeave (message : pb_Leave) := build (encode_Leave message).
Definition JSONPushEncoder_EncodeUnsubscribe (message : pb_Unsubscribe) := build (encode_Unsubscribe message).
Definition JSONPushEncoder_EncodeSubscribe (message : pb_Subscribe) := build (encode_Subscribe message).
Definition JSONPushEncoder_EncodeConnect (message : pb_Connect) := build (encode_Connect message).
Definition JSONPushEncoder_EncodeDisconnect (message : pb_Disconnect) := build (encode_Disconnect message).
Definition JSONPushEncoder_EncodeRefresh (message : pb_Refresh) := build (encode_Refresh message).

Definition JSONResultEncoder_EncodeConnectResult (res : pb_ConnectResult) := build (encode_ConnectResult res) None.
Definition JSONResultEncoder_EncodeRefreshResult (res : pb_RefreshResult) := build (encode_RefreshResult res) None.
Definition JSONResultEncoder_EncodeSubscribeResult (res : pb_SubscribeResult) := build (encode_SubscribeResult res) None.
Definition JSONResultEncoder_EncodeSubRefreshResult (res : pb_SubRefreshResult) := build (encode_SubRefreshResult res) None.
Definition JSONResultEncoder_EncodeUnsubscribeResult (res : pb_UnsubscribeResult) := build (encode_UnsubscribeResult res) None.
Definition JSONResultEncoder_EncodePublishResult (res : pb_PublishResult) := build (encode_PublishResult res) None.
Definition JSONResultEncoder_EncodePresenceResult (res : pb_PresenceResult) := build (encode_PresenceResult res) None.
Definition JSONResultEncoder_EncodePresenceStatsResult (res : pb_PresenceStatsResult) := build (encode_PresenceStatsResult res) None.
Definition JSONResultEncoder_EncodePingResult (res : pb_PingResult) := build (encode_PingResult res) None.

Definition JSONCommandEncoder_Encode (cmd : pb_Command) : outcome io_error bytes := build (encode_Command cmd) None.

(** ** The Protobuf encoders of [encode.go]

    The methods [vtprotobuf] generates for a message of type [M]. *)
Record vt (M : Type) := mkVT {
  SizeVT : M -> nat;
  MarshalVT : M -> outcome io_error bytes;
  (** the buffer afterwards and the number of bytes *)
  MarshalToSizedBufferVT : M -> bytes -> outcome io_error (bytes * nat) }.
Arguments SizeVT {M} _ _.
Arguments MarshalVT {M} _ _.
Arguments MarshalToSizedBufferVT {M} _ _ _.

(** The body of the push encoders; a buffer of [reuse] is its bytes up to its
    capacity. *)
Definition encode_vt {M} (g : vt M) (message : M) (reuse : list bytes) : outcome io_error bytes :=
  match reuse with
  | [r] =>
    let size := SizeVT g message in
    if size <=? length r then
      '(buf, n) ← MarshalToSizedBufferVT g message (take size r);
      go_slice (buf ++ drop size r) 0 n
    else MarshalVT g message
  | _ => MarshalVT g message
  end.

Definition ProtobufPushEncoder_Encode (g : vt pb_Push) (message : pb_Push) := MarshalVT g message.
Definition ProtobufPushEncoder_EncodePublication (g : vt pb_Publication) := encode_vt g.
Definition ProtobufPushEncoder_EncodeMessage (g : vt pb_Message) := encode_vt g.
Definition ProtobufPushEncoder_EncodeJoin (g : vt pb_Join) := encode_vt g.
Definition ProtobufPushEncoder_EncodeLeave (g : vt pb_Leave) := encode_vt g.
Definition ProtobufPushEncoder_EncodeUnsubscribe (g : vt pb_Unsubscribe) := encode_vt g.
Definition ProtobufPushEncoder_EncodeSubscribe (g : vt pb_Subscribe) := encode_vt g.
Definition ProtobufPushEncoder_EncodeConnect (g : vt pb_Connect) := encode_vt g.
Definition ProtobufPushEncoder_EncodeDisconnect (g : vt pb_Disconnect) := encode_vt g.
Definition ProtobufPushEncoder_EncodeRefresh (g : vt pb_Refresh) := encode_vt g.
Definition ProtobufReplyEncoder_Encode (g : vt pb_Reply) (r : pb_Reply) := MarshalVT g r.

(** The generated methods agree on the messages of [P]: a buffer of the
    message's size is filled with the bytes [MarshalVT] returns. *)
Class VTLaws {M} (g : vt M) (P : M -> Prop) : Prop := {
  vt_size m b : P m -> MarshalVT g m = Ok b -> length b = SizeVT g m;
  vt_sized m buf : P m -> length buf = SizeVT g m ->
    MarshalToSizedBufferVT g m buf = (b ← MarshalVT g m; Ok (b, length b)) }.

(** A buffer given for reuse does not change what is encoded. *)
Lemma encode_vt_reuse {M} (g : vt M) P `{!VTLaws g P} m reuse : P m -> encode_vt g m reuse = MarshalVT g m.
Proof.
  intros HP. unfold encode_vt. destruct reuse as [|r [|r' reuse]]; [done| |done].
  destruct (Nat.leb_spec (SizeVT g m) (length r)) as [Hle|]; [|done].
  rewrite vt_sized by (done || rewrite length_take; lia). destruct (MarshalVT g m) as [b|e|pn] eqn:Hm; [|done|done].
  cbn [mbind outcome_bind]. unfold go_slice. rewrite decide_True by (rewrite length_app; lia).
  by rewrite Nat.sub_0_r, drop_0, take_app_length.
Qed.
