(* ===== verification/WireLine.v ===== *)
(** The JSON encoders write valid JSON on one line: every message whose raw
    fields hold JSON is encoded as a JSON object without a newline.

    Whatever a message holds, its JSON encoding stays on one line: no encoder
    of [deliver.pb_easyjson.go] writes a newline, not even for raw fields that
    hold one or that are no JSON at all, so that a message cannot break the
    frame it is put in. *)

From S2P Require Import Prelude BytePool JsonWriter JsonString WireMsg Framing FramingProps.

(** A text that fits on a line of a frame. *)
Definition one_line (e : bytes) : Prop := json_text e /\ nl ∉ e.
Definition one_value (e : bytes) : Prop := json_value e /\ nl ∉ e.

(** [f] appends some [e] with [P e], and changes nothing else. *)
Definition emits (f : enc) (P : bytes -> Prop) : Prop :=
  forall w b, w.(w_Error) = None -> exists e, f (set_buf w b) = Ok (set_buf w (b ++ e)) /\ P e.

Lemma emits_weaken f (P Q : bytes -> Prop) : emits f P -> (forall e, P e -> Q e) -> emits f Q.
Proof. intros Hf HPQ w b Hw. destruct (Hf w b Hw) as (e & ? & ?). eauto. Qed.

Lemma one_value_line e : one_value e -> one_line e.
Proof. intros [? ?]. split; [by apply json_value_text|done]. Qed.

(** ** Values *)

Lemma emits_string s : emits (enc_string s) one_line.
Proof.
  intros w b _. exists (quoted w s). split; [apply writer_String_set|]. apply one_value_line. split.
  - apply JString, quoted_json.
  - apply printable_no_nl, quoted_printable.
Qed.

Lemma emits_uint32 n : (0 <= n < 2 ^ 32)%Z -> emits (enc_uint32 n) one_line.
Proof.
  intros Hn w b _. exists (FormatUint n). split; [done|]. apply one_value_line.
  assert (H : json_number (FormatUint n)) by (apply FormatUint_number; lia).
  split; [by apply JNumber|by apply json_number_no_nl].
Qed.

Lemma one_line_literal l : l ∈ [lit "null"; lit "true"; lit "false"] -> one_line l.
Proof.
  intros Hl. apply one_value_line. split; [by apply JLiteral|]. intros Hin.
  repeat (apply elem_of_cons in Hl as [->|Hl]; [by apply (bool_decide_pack _) in Hin|]). by apply elem_of_nil in Hl.
Qed.

Lemma emits_bool v : emits (enc_bool v) one_line.
Proof.
  intros w b _. exists (if v then lit "true" else lit "false").
  split; [by destruct v|]. apply one_line_literal. destruct v; by apply (bool_decide_unpack _).
Qed.

Lemma json_text_nonempty l : json_text l -> l <> [].
Proof.
  intros (w1 & v & w2 & -> & _ & Hv & _) Hnil. apply app_eq_nil in Hnil as [_ Hnil].
  apply app_eq_nil in Hnil as [-> _]. inversion Hv as [l Hl|l Hl|l Hl| | | |]; subst.
  - by apply (bool_decide_pack _) in Hl.
  - destruct Hl as (sign & int & frac & exp & Hl & _ & [[Hne _] _] & _). symmetry in Hl.
    apply app_eq_nil in Hl as [_ Hl]. apply app_eq_nil in Hl as [-> _]. done.
  - by destruct Hl as (body & ? & _).
Qed.

(** The content of a raw field: nothing, or a JSON text. *)
Definition raw_ok (r : option bytes) : Prop := default [] r = [] \/ json_text (default [] r).

Lemma emits_raw r : raw_ok r -> nonempty (default [] r) = true -> emits (enc_raw r) one_line.
Proof.
  intros Hr Hne w b Hw. destruct Hr as [Hr|Ht]; [by rewrite Hr in Hne|].
  destruct r as [r|]; [|done]. simpl in Ht, Hne. unfold enc_raw, Raw_MarshalJSON.
  assert (Hsrc : (if negb (bool_decide (nl ∈ r)) then (r, @None io_error) else (filter (fun b => b <> nl) r, None))
                 = (strip r, None)).
  { case_bool_decide as Hin; simpl; [done|]. by rewrite strip_none. }
  rewrite Hsrc. unfold writer_Raw. change (w_Error (set_buf w b)) with (w_Error w). rewrite Hw.
  pose proof (json_text_strip r Ht) as Hs. pose proof (json_text_nonempty _ Hs) as Hn.
  exists (strip r). destruct (strip r) as [|x l] eqn:Hx; [done|]. split; [done|].
  split; [done|]. rewrite <- Hx. apply strip_no_nl.
Qed.

(** ** Objects *)

Definition one_members (e : bytes) : Prop := json_members e /\ nl ∉ e.

(** A field name of the messages. *)
Definition plain_name (name : string) : bool := forallb plain (lit name).

Lemma literal_plain l : forallb plain l = true -> literal_body l = true.
Proof. induction l as [|b l IH]; [done|]. cbn. intros [Hb Hl]%andb_true_iff. rewrite Hb. auto. Qed.

Lemma plain_no_nl l : forallb plain l = true -> nl ∉ l.
Proof. intros Hl Hin. rewrite forallb_forall in Hl. apply list_elem_of_In in Hin. by apply Hl in Hin. Qed.

Lemma no_nl_app (a b : bytes) : nl ∉ a ++ b <-> nl ∉ a /\ nl ∉ b.
Proof. rewrite elem_of_app. tauto. Qed.
Lemma no_nl_cons x (b : bytes) : nl ∉ x :: b <-> nl <> x /\ nl ∉ b.
Proof. rewrite elem_of_cons. tauto. Qed.
Lemma no_nl_nil : nl ∉ ([] : bytes).
Proof. by apply not_elem_of_nil. Qed.

Lemma ws_nil : ws [].
Proof. constructor. Qed.
#[export] Hint Resolve ws_nil no_nl_nil : kairos.

(** A member, and a member behind others. *)
Lemma members_one k v : json_string k -> nl ∉ k -> one_line v -> one_members (k ++ x3a :: v).
Proof.
  intros Hk Hkn [(w1 & v' & w2 & -> & Hw1 & Hv & Hw2) Hn]. split.
  - apply (JLastMember [] k [] w1 v' w2); auto with kairos.
  - rewrite no_nl_app, no_nl_cons. done.
Qed.

Lemma members_snoc ms k v :
  one_members ms -> json_string k -> nl ∉ k -> one_line v -> one_members (ms ++ x2c :: k ++ x3a :: v).
Proof.
  intros [Hms Hn] Hk Hkn Hv. destruct (members_one k v Hk Hkn Hv) as [Hone Hn1]. split.
  2: { rewrite no_nl_app, no_nl_cons. done. }
  clear Hn. induction Hms as [w1 k' w2 w3 v' w4|w1 k' w2 w3 v' w4 ms ? ? ? ? ? ? Hms IH]; rewrite <- !app_assoc; cbn [app].
  all: rewrite <- ?app_assoc; cbn [app]; rewrite <- ?app_assoc; cbn [app].
  - apply JMember; auto.
  - apply JMember; auto.
Qed.

Lemma name_json name : plain_name name = true ->
  json_string (x22 :: lit name ++ [x22]) /\ nl ∉ x22 :: lit name ++ [x22].
Proof.
  intros Hn. split; [exists (lit name); split; [done|by apply literal_plain]|].
  rewrite no_nl_cons, no_nl_app. split_and!; [done|by apply plain_no_nl|by apply (bool_decide_unpack _)].
Qed.

(** The fields written so far: [started] tells whether there are any, which is
    what [first] keeps track of. *)
Definition written (w : json_writer) (b : bytes) (started : bool) (st : json_writer * bool) : Prop :=
  exists e, st = (set_buf w (b ++ e), negb started) /\ if started then one_members e else e = [].

Definition fields_from (started : bool) (fs : list field_block) : Prop :=
  forall w b st, w.(w_Error) = None -> written w b started st ->
  exists st' started', run_fields fs st = Ok st' /\ written w b started' st'.

(** From either state. *)
Definition fields_ok (fs : list field_block) : Prop := fields_from true fs /\ fields_from false fs.

Lemma fields_nil : fields_ok [].
Proof. split; intros w b st _ Hst; eexists _, _; by split. Qed.

(** A field that is written extends the members; one that is not leaves them. *)
Lemma field_step name value w b e (started : bool) :
  plain_name name = true -> w.(w_Error) = None -> emits value one_line ->
  (if started then one_members e else e = []) ->
  exists e', one_members e' /\
    (out ← RawString (set_buf w (b ++ e)) (if started then prefix name else drop 1 (prefix name)); value out)
    = Ok (set_buf w (b ++ e')).
Proof.
  intros Hname Hw Hv He. destruct (name_json name Hname) as [Hj Hn].
  unfold RawString. rewrite w_append_set. cbn [mbind outcome_bind].
  destruct (Hv w ((b ++ e) ++ if started then prefix name else drop 1 (prefix name)) Hw) as (v & Hval & Hline).
  rewrite Hval. destruct started; simpl in He.
  - exists (e ++ x2c :: (x22 :: lit name ++ [x22]) ++ x3a :: v). split; [by apply members_snoc|].
    unfold prefix. do 2 f_equal. rewrite <- !app_assoc. cbn [app]. by rewrite <- !app_assoc.
  - subst e. exists ((x22 :: lit name ++ [x22]) ++ x3a :: v). split; [by apply members_one|].
    unfold prefix. do 2 f_equal. rewrite app_nil_r, <- !app_assoc. cbn [app drop]. by rewrite <- !app_assoc.
Qed.

Lemma field_from started cond name value fs :
  plain_name name = true -> (cond = true -> emits value one_line) -> fields_ok fs ->
  fields_from started (field cond name value :: fs).
Proof.
  intros Hname Hv [Ht Hf] w b st Hw (e & -> & He). cbn [run_fields]. unfold field.
  destruct cond; [|destruct started; [apply Ht|apply Hf]; try done; by exists e].
  destruct (field_step name value w b e started Hname Hw (Hv eq_refl) He) as (e' & He' & Hstep).
  replace (if negb started then RawString (set_buf w (b ++ e)) (drop 1 (prefix name)) else RawString (set_buf w (b ++ e)) (prefix name))
    with (RawString (set_buf w (b ++ e)) (if started then prefix name else drop 1 (prefix name))) by (by destruct started).
  unfold RawString in *. rewrite w_append_set in Hstep |- *. cbn [mbind outcome_bind] in Hstep |- *.
  rewrite Hstep. cbn [mbind outcome_bind]. apply Ht; [done|]. by exists e'.
Qed.

Lemma field_ok cond name value fs :
  plain_name name = true -> (cond = true -> emits value one_line) -> fields_ok fs ->
  fields_ok (field cond name value :: fs).
Proof. intros. split; by apply field_from. Qed.

Lemma field_first_always name value fs :
  plain_name name = true -> emits value one_line -> fields_from true fs ->
  fields_from false (field_first true name value :: fs).
Proof.
  intros Hname Hv Ht w b st Hw (e & -> & He). cbn [run_fields]. unfold field_first.
  destruct (field_step name value w b e false Hname Hw Hv He) as (e' & He' & Hstep).
  unfold RawString in *. rewrite w_append_set in Hstep |- *. cbn [mbind outcome_bind] in Hstep |- *.
  rewrite Hstep. cbn [mbind outcome_bind]. apply Ht; [done|]. by exists e'.
Qed.

Lemma field_first_ok cond name value fs :
  plain_name name = true -> (cond = true -> emits value one_line) -> fields_ok fs ->
  fields_from false (field_first cond name value :: fs).
Proof.
  intros Hname Hv [Ht Hf]. destruct cond; [by apply field_first_always; auto|].
  intros w b st Hw (e & -> & He). apply Hf; [done|by exists e].
Qed.

Lemma field_next_ok cond name value fs :
  plain_name name = true -> (cond = true -> emits value one_line) -> fields_from true fs ->
  fields_from true (field_next cond name value :: fs).
Proof.
  intros Hname Hv Ht w b st Hw (e & -> & He). cbn [run_fields]. unfold field_next.
  destruct cond; [|apply Ht; [done|by exists e]].
  destruct (field_step name value w b e true Hname Hw (Hv eq_refl) He) as (e' & He' & Hstep).
  unfold RawString in *. rewrite w_append_set in Hstep |- *. cbn [mbind outcome_bind] in Hstep |- *.
  rewrite Hstep. cbn [mbind outcome_bind]. apply Ht; [done|]. by exists e'.
Qed.

Lemma one_value_members ms : one_members ms -> one_value (x7b :: ms ++ [x7d]).
Proof.
  intros [Hm Hn]. split; [by apply JObject|]. rewrite no_nl_cons, no_nl_app, no_nl_cons.
  split_and!; auto with kairos; done.
Qed.

Lemma one_value_empty : one_value [x7b; x7d].
Proof. split; [apply (JEmptyObject []); constructor|by apply (bool_decide_unpack _)]. Qed.

Lemma object_emits fs : fields_from false fs -> emits (object fs) one_value.
Proof.
  intros Hfs w b Hw. unfold object, RawByte. rewrite w_append_set. cbn [mbind outcome_bind].
  destruct (Hfs w (b ++ [x7b]) (set_buf w (b ++ [x7b]), true) Hw) as (st & started & Hrun & e & -> & He).
  { exists []. by rewrite app_nil_r. }
  rewrite Hrun. cbn [mbind outcome_bind]. rewrite w_append_set. exists (x7b :: e ++ [x7d]).
  split; [by rewrite <- !app_assoc|]. destruct started; [by apply one_value_members|]. subst e. apply one_value_empty.
Qed.

(** ** Slices, maps and pointers *)

Definition one_elements (e : bytes) : Prop := json_elements e /\ nl ∉ e.

Lemma elements_one v : one_line v -> one_elements v.
Proof. intros [(w1 & v' & w2 & -> & Hw1 & Hv & Hw2) Hn]. split; [by apply JLastElement|done]. Qed.

Lemma elements_snoc es v : one_elements es -> one_line v -> one_elements (es ++ x2c :: v).
Proof.
  intros [Hes Hn] Hv. destruct (elements_one v Hv) as [Hone Hn1]. split.
  2: { rewrite no_nl_app, no_nl_cons. done. }
  clear Hn. induction Hes as [w1 v' w2|w1 v' w2 es ? ? ? Hes IH]; rewrite <- !app_assoc; cbn [app];
    rewrite <- ?app_assoc; by apply JElement.
Qed.

Lemma one_value_elements es : one_elements es -> one_value (x5b :: es ++ [x5d]).
Proof.
  intros [Hm Hn]. split; [by apply JArray|]. rewrite no_nl_cons, no_nl_app, no_nl_cons.
  split_and!; auto with kairos; done.
Qed.

Definition opt_ok {A} (P : A -> Prop) (o : option A) : Prop := match o with Some v => P v | None => True end.

Lemma emits_pointer {A} (f : A -> enc) (P : A -> Prop) o :
  (forall v, P v -> emits (f v) one_value) -> opt_ok P o -> emits (enc_pointer f o) one_line.
Proof.
  intros Hf Ho. destruct o as [v|].
  - eapply emits_weaken; [by apply Hf|apply one_value_line].
  - intros w b _. exists (lit "null"). split; [done|]. apply one_line_literal. by apply (bool_decide_unpack _).
Qed.

Lemma emits_some {A} (f : A -> enc) (P : A -> Prop) o :
  (forall v, P v -> emits (f v) one_value) -> opt_ok P o -> present o = true -> emits (enc_some f o) one_line.
Proof.
  intros Hf Ho Hp. destruct o as [v|]; [|done]. eapply emits_weaken; [by apply Hf|apply one_value_line].
Qed.

Lemma enc_elements_more {A} (f : A -> enc) w b i e l :
  w.(w_Error) = None -> one_elements e -> Forall (fun o => emits (enc_pointer f o) one_line) l ->
  exists e', enc_elements f (S i) l (set_buf w (b ++ e)) = Ok (set_buf w (b ++ e')) /\ one_elements e'.
Proof.
  intros Hw He Hl. revert i e He. induction Hl as [|o l Ho _ IH]; intros i e He; [by exists e|].
  cbn [enc_elements Nat.ltb Nat.leb]. unfold RawByte. rewrite w_append_set. cbn [mbind outcome_bind].
  destruct (Ho w ((b ++ e) ++ [x2c]) Hw) as (v & -> & Hv). cbn [mbind outcome_bind].
  replace (((b ++ e) ++ [x2c]) ++ v) with (b ++ (e ++ x2c :: v)) by (by rewrite <- !app_assoc).
  apply IH. by apply elements_snoc.
Qed.

Lemma emits_array {A} (f : A -> enc) (P : A -> Prop) l :
  (forall v, P v -> emits (f v) one_value) -> Forall (opt_ok P) l -> emits (enc_array f l) one_line.
Proof.
  intros Hf Hl w b Hw. unfold enc_array, RawByte. rewrite w_append_set. cbn [mbind outcome_bind].
  assert (Hall : Forall (fun o => emits (enc_pointer f o) one_line) l).
  { eapply Forall_impl; [exact Hl|]. intros o Ho. by eapply emits_pointer. }
  destruct Hall as [|o l Ho Hall].
  { exists [x5b; x5d]. split; [cbn; unfold set_buf; simpl; by rewrite <- app_assoc|]. apply one_value_line.
    split; [apply (JEmptyArray []); constructor|by apply (bool_decide_unpack _)]. }
  cbn [enc_elements Nat.ltb Nat.leb mbind outcome_bind].
  destruct (Ho w (b ++ [x5b]) Hw) as (v & -> & Hv). cbn [mbind outcome_bind].
  destruct (enc_elements_more f w (b ++ [x5b]) 0 v l Hw (elements_one v Hv) Hall) as (e & -> & He).
  cbn [mbind outcome_bind]. rewrite w_append_set. exists (x5b :: e ++ [x5d]).
  split; [by rewrite <- !app_assoc|]. by apply one_value_line, one_value_elements.
Qed.

(** An entry of a map. *)
Lemma entry_step {A} (f : A -> enc) name v w b :
  w.(w_Error) = None -> emits (f v) one_line ->
  exists k e, json_string k /\ nl ∉ k /\ one_line e /\
    (out ← writer_String (set_buf w b) name; out ← RawByte out x3a; f v out) = Ok (set_buf w (b ++ k ++ x3a :: e)).
Proof.
  intros Hw Hv. rewrite writer_String_set. cbn [mbind outcome_bind]. unfold RawByte. rewrite w_append_set.
  cbn [mbind outcome_bind]. destruct (Hv w ((b ++ quoted w name) ++ [x3a]) Hw) as (e & -> & He).
  exists (quoted w name), e. split_and!; [apply quoted_json|apply printable_no_nl, quoted_printable|done|].
  by rewrite <- !app_assoc.
Qed.

Lemma enc_entries_cons {A} (f : A -> enc) first name v l out :
  enc_entries f first ((name, v) :: l) out =
    out ← (if first then Ok out else RawByte out x2c);
    out ← (out ← writer_String out name; out ← RawByte out x3a; f v out);
    enc_entries f false l out.
Proof.
  cbn [enc_entries]. destruct (if first then Ok out else RawByte out x2c) as [o|e|p]; [|done|done]. cbn [mbind outcome_bind].
  destruct (writer_String o name) as [o1|e|p]; [|done|done]. cbn [mbind outcome_bind].
  by destruct (RawByte o1 x3a).
Qed.

Lemma enc_entries_more {A} (f : A -> enc) w b e l :
  w.(w_Error) = None -> one_members e -> Forall (fun kv => emits (f kv.2) one_line) l ->
  exists e', enc_entries f false l (set_buf w (b ++ e)) = Ok (set_buf w (b ++ e')) /\ one_members e'.
Proof.
  intros Hw He Hl. revert e He. induction Hl as [|[name v] l Hv _ IH]; intros e He; [by exists e|].
  rewrite enc_entries_cons. cbv iota.
  change (RawByte (set_buf w (b ++ e)) x2c) with (Ok (E:=Empty_set) (set_buf w ((b ++ e) ++ [x2c]))).
  change (mbind ?f (Ok ?a)) with (f a). cbv beta.
  destruct (entry_step f name v w ((b ++ e) ++ [x2c]) Hw Hv) as (k & x & Hk & Hkn & Hx & Hstep).
  rewrite Hstep. change (mbind ?f (Ok ?a)) with (f a). cbv beta.
  replace (((b ++ e) ++ [x2c]) ++ k ++ x3a :: x) with (b ++ (e ++ x2c :: k ++ x3a :: x)) by (by rewrite <- !app_assoc).
  apply IH. by apply members_snoc.
Qed.

Lemma emits_map {A} (f : A -> enc) (l : list (bytes * A)) :
  Forall (fun kv => emits (f kv.2) one_line) l -> emits (enc_map f l) one_line.
Proof.
  intros Hl w b Hw. unfold enc_map, RawByte. rewrite w_append_set. cbn [mbind outcome_bind].
  destruct Hl as [|[name v] l Hv Hl].
  { exists [x7b; x7d]. split; [cbn; unfold set_buf; simpl; by rewrite <- app_assoc|]. apply one_value_line, one_value_empty. }
  rewrite enc_entries_cons. cbv iota. change (mbind ?f (Ok ?a)) with (f a). cbv beta.
  destruct (entry_step f name v w (b ++ [x7b]) Hw Hv) as (k & x & Hk & Hkn & Hx & Hstep).
  rewrite Hstep. change (mbind ?f (Ok ?a)) with (f a). cbv beta.
  destruct (enc_entries_more f w (b ++ [x7b]) (k ++ x3a :: x) l Hw (members_one k x Hk Hkn Hx) Hl) as (e & -> & He).
  cbn [mbind outcome_bind]. rewrite w_append_set. exists (x7b :: e ++ [x7d]).
  split; [by rewrite <- !app_assoc|]. by apply one_value_line, one_value_members.
Qed.

Lemma emits_pointer_map {A} (f : A -> enc) (P : A -> Prop) l :
  (forall v, P v -> emits (f v) one_value) -> Forall (fun kv => opt_ok P kv.2) l ->
  emits (enc_map (enc_pointer f) l) one_line.
Proof.
  intros Hf Hl. apply emits_map. eapply Forall_impl; [exact Hl|]. intros [k o] Ho. by eapply emits_pointer.
Qed.

Lemma emits_string_map l : emits (enc_map enc_string l) one_line.
Proof. apply emits_map, Forall_true. intros [k v]. apply emits_string. Qed.

Lemma emits_nil_map {A} (f : A -> enc) (P : A -> Prop) m :
  (forall v, P v -> emits (f v) one_value) -> Forall (fun kv => opt_ok P kv.2) (default [] m) ->
  emits (enc_nil_map (enc_pointer f) m) one_line.
Proof.
  intros Hf Hl w b Hw. unfold enc_nil_map. destruct (_ && _).
  - exists (lit "null"). split; [done|]. apply one_line_literal. by apply (bool_decide_unpack _).
  - by apply (emits_pointer_map f P).
Qed.

(** ** The messages

    [wf_M m]: the numbers of [m] have their width and its raw fields, and those
    of the messages inside it, hold JSON. *)

Definition is_u32 (n : Z) : Prop := (0 <= n < 2 ^ 32)%Z.

Create HintDb wire.
#[export] Hint Resolve emits_string emits_uint32 emits_bool emits_raw emits_string_map : wire.
#[export] Hint Resolve emits_some emits_array emits_pointer_map emits_nil_map : wire.
#[export] Hint Unfold is_u32 : wire.

(** Walks over the fields of an encoder. *)
Ltac emit_message wf enc :=
  let H := fresh "H" in intros H; unfold wf in H; destruct_and? H; unfold enc; apply object_emits;
  repeat first
    [ apply field_first_always; [reflexivity|by eauto with wire|]
    | apply field_first_ok; [reflexivity|intros ?; by eauto with wire|]
    | apply field_ok; [reflexivity|intros ?; by eauto with wire|]
    | apply field_next_ok; [reflexivity|intros ?; by eauto with wire|]
    | apply fields_nil ].

Definition wf_Error (m : pb_Error) : Prop := is_u32 m.(Error_Code).
Lemma emits_Error m : wf_Error m -> emits (encode_Error m) one_value.
Proof. emit_message wf_Error encode_Error. Qed.
#[export] Hint Resolve emits_Error : wire.

Definition wf_SubscribeRequest (m : pb_SubscribeRequest) : Prop := raw_ok m.(SubscribeRequest_Data).
Lemma emits_SubscribeRequest m : wf_SubscribeRequest m -> emits (encode_SubscribeRequest m) one_value.
Proof. emit_message wf_SubscribeRequest encode_SubscribeRequest. Qed.
#[export] Hint Resolve emits_SubscribeRequest : wire.

Definition wf_ConnectRequest (m : pb_ConnectRequest) : Prop := raw_ok m.(ConnectRequest_Data) /\ Forall (fun kv => opt_ok wf_SubscribeRequest kv.2) m.(ConnectRequest_Subs).
Lemma emits_ConnectRequest m : wf_ConnectRequest m -> emits (encode_ConnectRequest m) one_value.
Proof. emit_message wf_ConnectRequest encode_ConnectRequest. Qed.
#[export] Hint Resolve emits_ConnectRequest : wire.

Definition wf_UnsubscribeRequest (m : pb_UnsubscribeRequest) : Prop := True.
Lemma emits_UnsubscribeRequest m : wf_UnsubscribeRequest m -> emits (encode_UnsubscribeRequest m) one_value.
Proof. emit_message wf_UnsubscribeRequest encode_UnsubscribeRequest. Qed.
#[export] Hint Resolve emits_UnsubscribeRequest : wire.

Definition wf_PublishRequest (m : pb_PublishRequest) : Prop := raw_ok m.(PublishRequest_Data).
Lemma emits_PublishRequest m : wf_PublishRequest m -> emits (encode_PublishRequest m) one_value.
Proof. emit_message wf_PublishRequest encode_PublishRequest. Qed.
#[export] Hint Resolve emits_PublishRequest : wire.

Definition wf_PresenceRequest (m : pb_PresenceRequest) : Prop := True.
Lemma emits_PresenceRequest m : wf_PresenceRequest m -> emits (encode_PresenceRequest m) one_value.
Proof. emit_message wf_PresenceRequest encode_PresenceRequest. Qed.
#[export] Hint Resolve emits_PresenceRequest : wire.

Definition wf_PresenceStatsRequest (m : pb_PresenceStatsRequest) : Prop := True.
Lemma emits_PresenceStatsRequest m : wf_PresenceStatsRequest m -> emits (encode_PresenceStatsRequest m) one_value.
Proof. emit_message wf_PresenceStatsRequest encode_PresenceStatsRequest. Qed.
#[export] Hint Resolve emits_PresenceStatsRequest : wire.

Definition wf_PingRequest (m : pb_PingRequest) : Prop := True.
Lemma emits_PingRequest m : wf_PingRequest m -> emits (encode_PingRequest m) one_value.
Proof. emit_message wf_PingRequest encode_PingRequest. Qed.
#[export] Hint Resolve emits_PingRequest : wire.

Definition wf_SendRequest (m : pb_SendRequest) : Prop := raw_ok m.(SendRequest_Data).
Lemma emits_SendRequest m : wf_SendRequest m -> emits (encode_SendRequest m) one_value.
Proof. emit_message wf_SendRequest encode_SendRequest. Qed.
#[export] Hint Resolve emits_SendRequest : wire.

Definition wf_RefreshRequest (m : pb_RefreshRequest) : Prop := True.
Lemma emits_RefreshRequest m : wf_RefreshRequest m -> emits (encode_RefreshRequest m) one_value.
Proof. emit_message wf_RefreshRequest encode_RefreshRequest. Qed.
#[export] Hint Resolve emits_RefreshRequest : wire.

Definition wf_SubRefreshRequest (m : pb_SubRefreshRequest) : Prop := True.
Lemma emits_SubRefreshRequest m : wf_SubRefreshRequest m -> emits (encode_SubRefreshRequest m) one_value.
Proof. emit_message wf_SubRefreshRequest encode_SubRefreshRequest. Qed.
#[export] Hint Resolve emits_SubRefreshRequest : wire.

Definition wf_Command (m : pb_Command) : Prop :=
  is_u32 m.(Command_Id) /\ opt_ok wf_ConnectRequest m.(Command_Connect) /\
  opt_ok wf_SubscribeRequest m.(Command_Subscribe) /\ opt_ok wf_UnsubscribeRequest m.(Command_Unsubscribe) /\
  opt_ok wf_PublishRequest m.(Command_Publish) /\ opt_ok wf_PresenceRequest m.(Command_Presence) /\
  opt_ok wf_PresenceStatsRequest m.(Command_PresenceStats) /\ opt_ok wf_PingRequest m.(Command_Ping) /\
  opt_ok wf_SendRequest m.(Command_Send) /\ opt_ok wf_RefreshRequest m.(Command_Refresh) /\
  opt_ok wf_SubRefreshRequest m.(Command_SubRefresh).
Lemma emits_Command m : wf_Command m -> emits (encode_Command m) one_value.
Proof. emit_message wf_Command encode_Command. Qed.
#[export] Hint Resolve emits_Command : wire.

Definition wf_ClientInfo (m : pb_ClientInfo) : Prop := raw_ok m.(ClientInfo_ConnInfo) /\ raw_ok m.(ClientInfo_ChanInfo).
Lemma emits_ClientInfo m : wf_ClientInfo m -> emits (encode_ClientInfo m) one_value.
Proof. emit_message wf_ClientInfo encode_ClientInfo. Qed.
#[export] Hint Resolve emits_ClientInfo : wire.

Definition wf_Publication (m : pb_Publication) : Prop := raw_ok m.(Publication_Data) /\ opt_ok wf_ClientInfo m.(Publication_Info).
Lemma emits_Publication m : wf_Publication m -> emits (encode_Publication m) one_value.
Proof. emit_message wf_Publication encode_Publication. Qed.
#[export] Hint Resolve emits_Publication : wire.

Definition wf_Join (m : pb_Join) : Prop := opt_ok wf_ClientInfo m.(Join_Info).
Lemma emits_Join m : wf_Join m -> emits (encode_Join m) one_value.
Proof. emit_message wf_Join encode_Join. Qed.
#[export] Hint Resolve emits_Join : wire.

Definition wf_Leave (m : pb_Leave) : Prop := opt_ok wf_ClientInfo m.(Leave_Info).
Lemma emits_Leave m : wf_Leave m -> emits (encode_Leave m) one_value.
Proof. emit_message wf_Leave encode_Leave. Qed.
#[export] Hint Resolve emits_Leave : wire.

Definition wf_Unsubscribe (m : pb_Unsubscribe) : Prop := is_u32 m.(Unsubscribe_Code).
Lemma emits_Unsubscribe m : wf_Unsubscribe m -> emits (encode_Unsubscribe m) one_value.
Proof. emit_message wf_Unsubscribe encode_Unsubscribe. Qed.
#[export] Hint Resolve emits_Unsubscribe : wire.

Definition wf_Message (m : pb_Message) : Prop := raw_ok m.(Message_Data).
Lemma emits_Message m : wf_Message m -> emits (encode_Message m) one_value.
Proof. emit_message wf_Message encode_Message. Qed.
#[export] Hint Resolve emits_Message : wire.

Definition wf_Subscribe (m : pb_Subscribe) : Prop := raw_ok m.(Subscribe_Data).
Lemma emits_Subscribe m : wf_Subscribe m -> emits (encode_Subscribe m) one_value.
Proof. emit_message wf_Subscribe encode_Subscribe. Qed.
#[export] Hint Resolve emits_Subscribe : wire.

Definition wf_SubscribeResult (m : pb_SubscribeResult) : Prop := is_u32 m.(SubscribeResult_Ttl) /\ Forall (opt_ok wf_Publication) m.(SubscribeResult_Publications) /\ raw_ok m.(SubscribeResult_Data).
Lemma emits_SubscribeResult m : wf_SubscribeResult m -> emits (encode_SubscribeResult m) one_value.
Proof. emit_message wf_SubscribeResult encode_SubscribeResult. Qed.
#[export] Hint Resolve emits_SubscribeResult : wire.

Definition wf_Connect (m : pb_Connect) : Prop :=
  raw_ok m.(Connect_Data) /\ Forall (fun kv => opt_ok wf_SubscribeResult kv.2) m.(Connect_Subs) /\
  is_u32 m.(Connect_Ttl) /\ is_u32 m.(Connect_Ping).
Lemma emits_Connect m : wf_Connect m -> emits (encode_Connect m) one_value.
Proof. emit_message wf_Connect encode_Connect. Qed.
#[export] Hint Resolve emits_Connect : wire.

Definition wf_Disconnect (m : pb_Disconnect) : Prop := is_u32 m.(Disconnect_Code).
Lemma emits_Disconnect m : wf_Disconnect m -> emits (encode_Disconnect m) one_value.
Proof. emit_message wf_Disconnect encode_Disconnect. Qed.
#[export] Hint Resolve emits_Disconnect : wire.

Definition wf_Refresh (m : pb_Refresh) : Prop := is_u32 m.(Refresh_Ttl).
Lemma emits_Refresh m : wf_Refresh m -> emits (encode_Refresh m) one_value.
Proof. emit_message wf_Refresh encode_Refresh. Qed.
#[export] Hint Resolve emits_Refresh : wire.

Definition wf_Push (m : pb_Push) : Prop :=
  opt_ok wf_Publication m.(Push_Pub) /\ opt_ok wf_Join m.(Push_Join) /\
  opt_ok wf_Leave m.(Push_Leave) /\ opt_ok wf_Unsubscribe m.(Push_Unsubscribe) /\
  opt_ok wf_Message m.(Push_Message) /\ opt_ok wf_Subscribe m.(Push_Subscribe) /\
  opt_ok wf_Connect m.(Push_Connect) /\ opt_ok wf_Disconnect m.(Push_Disconnect) /\
  opt_ok wf_Refresh m.(Push_Refresh).
Lemma emits_Push m : wf_Push m -> emits (encode_Push m) one_value.
Proof. emit_message wf_Push encode_Push. Qed.
#[export] Hint Resolve emits_Push : wire.

Definition wf_ConnectResult (m : pb_ConnectResult) : Prop :=
  is_u32 m.(ConnectResult_Ttl) /\ raw_ok m.(ConnectResult_Data) /\
  Forall (fun kv => opt_ok wf_SubscribeResult kv.2) m.(ConnectResult_Subs) /\ is_u32 m.(ConnectResult_Ping).
Lemma emits_ConnectResult m : wf_ConnectResult m -> emits (encode_ConnectResult m) one_value.
Proof. emit_message wf_ConnectResult encode_ConnectResult. Qed.
#[export] Hint Resolve emits_ConnectResult : wire.

Definition wf_UnsubscribeResult (m : pb_UnsubscribeResult) : Prop := True.
Lemma emits_UnsubscribeResult m : wf_UnsubscribeResult m -> emits (encode_UnsubscribeResult m) one_value.
Proof. emit_message wf_UnsubscribeResult encode_UnsubscribeResult. Qed.
#[export] Hint Resolve emits_UnsubscribeResult : wire.

Definition wf_PublishResult (m : pb_PublishResult) : Prop := True.
Lemma emits_PublishResult m : wf_PublishResult m -> emits (encode_PublishResult m) one_value.
Proof. emit_message wf_PublishResult encode_PublishResult. Qed.
#[export] Hint Resolve emits_PublishResult : wire.

Definition wf_PresenceResult (m : pb_PresenceResult) : Prop := Forall (fun kv => opt_ok wf_ClientInfo kv.2) (default [] m.(PresenceResult_Presence)).
Lemma emits_PresenceResult m : wf_PresenceResult m -> emits (encode_PresenceResult m) one_value.
Proof. emit_message wf_PresenceResult encode_PresenceResult. Qed.
#[export] Hint Resolve emits_PresenceResult : wire.

Definition wf_PresenceStatsResult (m : pb_PresenceStatsResult) : Prop := is_u32 m.(PresenceStatsResult_NumClients) /\ is_u32 m.(PresenceStatsResult_NumUsers).
Lemma emits_PresenceStatsResult m : wf_PresenceStatsResult m -> emits (encode_PresenceStatsResult m) one_value.
Proof. emit_message wf_PresenceStatsResult encode_PresenceStatsResult. Qed.
#[export] Hint Resolve emits_PresenceStatsResult : wire.

Definition wf_PingResult (m : pb_PingResult) : Prop := True.
Lemma emits_PingResult m : wf_PingResult m -> emits (encode_PingResult m) one_value.
Proof. emit_message wf_PingResult encode_PingResult. Qed.
#[export] Hint Resolve emits_PingResult : wire.

Definition wf_RefreshResult (m : pb_RefreshResult) : Prop := is_u32 m.(RefreshResult_Ttl).
Lemma emits_RefreshResult m : wf_RefreshResult m -> emits (encode_RefreshResult m) one_value.
Proof. emit_message wf_RefreshResult encode_RefreshResult. Qed.
#[export] Hint Resolve emits_RefreshResult : wire.

Definition wf_SubRefreshResult (m : pb_SubRefreshResult) : Prop := is_u32 m.(SubRefreshResult_Ttl).
Lemma emits_SubRefreshResult m : wf_SubRefreshResult m -> emits (encode_SubRefreshResult m) one_value.
Proof. emit_message wf_SubRefreshResult encode_SubRefreshResult. Qed.
#[export] Hint Resolve emits_SubRefreshResult : wire.

Definition wf_Reply (m : pb_Reply) : Prop :=
  is_u32 m.(Reply_Id) /\ opt_ok wf_Error m.(Reply_Error) /\
  opt_ok wf_Push m.(Reply_Push) /\ opt_ok wf_ConnectResult m.(Reply_Connect) /\
  opt_ok wf_SubscribeResult m.(Reply_Subscribe) /\ opt_ok wf_UnsubscribeResult m.(Reply_Unsubscribe) /\
  opt_ok wf_PublishResult m.(Reply_Publish) /\ opt_ok wf_PresenceResult m.(Reply_Presence) /\
  opt_ok wf_PresenceStatsResult m.(Reply_PresenceStats) /\ opt_ok wf_PingResult m.(Reply_Ping) /\
  opt_ok wf_RefreshResult m.(Reply_Refresh) /\ opt_ok wf_SubRefreshResult m.(Reply_SubRefresh).
Lemma emits_Reply m : wf_Reply m -> emits (encode_Reply m) one_value.
Proof. emit_message wf_Reply encode_Reply. Qed.
#[export] Hint Resolve emits_Reply : wire.

Definition clean (f : enc) : Prop := emits f (fun e => nl ∉ e).

(** The block of a field appends no newline. *)
Definition block_clean (f : field_block) : Prop :=
  forall w b first, w.(w_Error) = None ->
  exists e first', f (set_buf w b, first) = Ok (set_buf w (b ++ e), first') /\ nl ∉ e.

(** ** Sequences *)

Lemma clean_append p : nl ∉ p -> clean (fun out => w_append out p).
Proof. intros Hp w b _. by exists p. Qed.

Lemma clean_seq (f g : enc) : clean f -> clean g -> clean (fun out => out ← f out; g out).
Proof.
  intros Hf Hg w b Hw. destruct (Hf w b Hw) as (e & -> & He). destruct (Hg w (b ++ e) Hw) as (e' & Hg' & He').
  exists (e ++ e'). cbn [mbind outcome_bind]. rewrite Hg', <- app_assoc. split; [done|]. by rewrite no_nl_app.
Qed.

Lemma clean_skip : clean (fun out => Ok out).
Proof. intros w b _. exists []. rewrite app_nil_r. auto with kairos. Qed.

Lemma clean_string s : clean (enc_string s).
Proof. intros w b _. exists (quoted w s). split; [apply writer_String_set|]. apply printable_no_nl, quoted_printable. Qed.

Lemma digit_no_nl n : digit (n mod 10) <> nl.
Proof.
  intros H%(f_equal bz). unfold digit in H. rewrite bz_zb in H. change (bz nl) with 10%Z in H. mod_lia.
Qed.

Lemma format_digits_no_nl fuel n acc : nl ∉ acc -> nl ∉ format_digits fuel n acc.
Proof.
  revert n acc. induction fuel as [|fuel IH]; intros n acc Hacc; [done|]. rewrite format_digits_S.
  assert (nl ∉ digit (n mod 10) :: acc) by (rewrite no_nl_cons; split; [apply not_eq_sym, digit_no_nl|done]).
  destruct (_ <? _)%Z; auto.
Qed.

Lemma clean_uint32 n : clean (enc_uint32 n).
Proof. apply clean_append, format_digits_no_nl. auto with kairos. Qed.

Lemma clean_bool v : clean (enc_bool v).
Proof. destruct v; apply clean_append; by apply (bool_decide_unpack _). Qed.

Lemma clean_null : clean (fun out => RawString out (lit "null")).
Proof. apply clean_append. by apply (bool_decide_unpack _). Qed.

Lemma clean_raw r : clean (enc_raw r).
Proof.
  intros w b Hw. unfold enc_raw. assert (Hr : exists src, Raw_MarshalJSON r = (src, None) /\ nl ∉ src).
  { destruct r as [r|]; [|exists (lit "null"); split; [done|by apply (bool_decide_unpack _)]].
    unfold Raw_MarshalJSON. case_bool_decide as Hin; simpl; [|by exists r]. eexists. split; [done|]. apply strip_no_nl. }
  destruct Hr as (src & -> & Hsrc). unfold writer_Raw.
  change (w_Error (set_buf w b)) with (w_Error w). rewrite Hw.
  destruct (0 <? length src); [by exists src|]. by apply clean_null.
Qed.

Lemma clean_pointer {A} (f : A -> enc) o : (forall v, clean (f v)) -> clean (enc_pointer f o).
Proof. intros Hf. destruct o as [v|]; [apply Hf|apply clean_null]. Qed.

Lemma clean_some {A} (f : A -> enc) o : (forall v, clean (f v)) -> present o = true -> clean (enc_some f o).
Proof. intros Hf Ho. destruct o as [v|]; [apply Hf|done]. Qed.

Lemma clean_byte c : nl <> c -> clean (fun out => RawByte out c).
Proof. intros Hc. apply clean_append. rewrite no_nl_cons. auto with kairos. Qed.

Lemma clean_elements {A} (f : A -> enc) i l : (forall v, clean (f v)) -> clean (enc_elements f i l).
Proof.
  intros Hf. revert i. induction l as [|o l IH]; intros i; [apply clean_skip|]. cbn [enc_elements].
  apply (clean_seq (fun out => if 0 <? i then RawByte out x2c else Ok out)
           (fun out => out ← enc_pointer f o out; enc_elements f (S i) l out)).
  - destruct (0 <? i); [by apply clean_byte|apply clean_skip].
  - apply clean_seq; [by apply clean_pointer|apply IH].
Qed.

Lemma clean_array {A} (f : A -> enc) l : (forall v, clean (f v)) -> clean (enc_array f l).
Proof.
  intros Hf. apply (clean_seq (fun out => RawByte out x5b) (fun out => out ← enc_elements f 0 l out; RawByte out x5d)).
  - by apply clean_byte.
  - apply (clean_seq (enc_elements f 0 l) (fun out => RawByte out x5d)); [by apply clean_elements|by apply clean_byte].
Qed.

Lemma clean_entries {A} (f : A -> enc) first l : (forall v, clean (f v)) -> clean (enc_entries f first l).
Proof.
  intros Hf. revert first. induction l as [|[name v] l IH]; intros first; [apply clean_skip|]. cbn [enc_entries].
  apply (clean_seq (fun out => if first then Ok out else RawByte out x2c)
           (fun out => out ← writer_String out name; out ← RawByte out x3a; out ← f v out; enc_entries f false l out)).
  - destruct first; [apply clean_skip|by apply clean_byte].
  - apply (clean_seq (enc_string name)); [apply clean_string|].
    apply (clean_seq (fun out => RawByte out x3a)); [by apply clean_byte|]. apply clean_seq; [apply Hf|apply IH].
Qed.

Lemma clean_map {A} (f : A -> enc) l : (forall v, clean (f v)) -> clean (enc_map f l).
Proof.
  intros Hf. apply (clean_seq (fun out => RawByte out x7b) (fun out => out ← enc_entries f true l out; RawByte out x7d)).
  - by apply clean_byte.
  - apply (clean_seq (enc_entries f true l) (fun out => RawByte out x7d)); [by apply clean_entries|by apply clean_byte].
Qed.

Lemma clean_pointer_map {A} (f : A -> enc) l : (forall v, clean (f v)) -> clean (enc_map (enc_pointer f) l).
Proof. intros Hf. apply clean_map. intros o. by apply clean_pointer. Qed.

Lemma clean_nil_map {A} (f : A -> enc) m : (forall v, clean (f v)) -> clean (enc_nil_map (enc_pointer f) m).
Proof.
  intros Hf w b Hw. unfold enc_nil_map. destruct (_ && _); [by apply clean_null|].
  by apply (clean_pointer_map f (default [] m) Hf).
Qed.

(** ** Objects *)

Lemma prefix_no_nl name : plain_name name = true -> nl ∉ prefix name.
Proof.
  intros Hn%name_json. destruct Hn as [_ Hn]. unfold prefix. rewrite no_nl_cons. split; [done|].
  rewrite no_nl_cons, no_nl_app in Hn |- *. destruct Hn as (? & ? & _). split_and!; [done|done|by apply (bool_decide_unpack _)].
Qed.

Lemma drop_prefix_no_nl name : plain_name name = true -> nl ∉ drop 1 (prefix name).
Proof. intros Hn%prefix_no_nl. unfold prefix in *. cbn [drop]. by apply no_nl_cons in Hn as [_ Hn]. Qed.

(** A name, then a value. *)
Lemma block_named p value (first' : bool) w b :
  w.(w_Error) = None -> nl ∉ p -> clean value ->
  exists e first'', (out ← RawString (set_buf w b) p; out ← value out; Ok (out, first'))
    = Ok (E:=Empty_set) (set_buf w (b ++ e), first'') /\ nl ∉ e.
Proof.
  intros Hw Hp Hv. unfold RawString. rewrite w_append_set. cbn [mbind outcome_bind].
  destruct (Hv w (b ++ p) Hw) as (e & -> & He). exists (p ++ e), first'.
  cbn [mbind outcome_bind]. rewrite <- app_assoc. split; [done|]. by rewrite no_nl_app.
Qed.

Lemma block_skip w b (first : bool) :
  exists e first'', Ok (E:=Empty_set) (set_buf w b, first) = Ok (set_buf w (b ++ e), first'') /\ nl ∉ e.
Proof. exists [], first. rewrite app_nil_r. auto with kairos. Qed.

Lemma field_clean cond name value :
  plain_name name = true -> (cond = true -> clean value) -> block_clean (field cond name value).
Proof.
  intros Hn Hv w b first Hw. unfold field. destruct cond; [|apply block_skip].
  destruct first; apply block_named; auto using prefix_no_nl, drop_prefix_no_nl.
Qed.

Lemma field_first_clean cond name value :
  plain_name name = true -> (cond = true -> clean value) -> block_clean (field_first cond name value).
Proof.
  intros Hn Hv w b first Hw. unfold field_first. destruct cond; [|apply block_skip].
  apply block_named; auto using drop_prefix_no_nl.
Qed.

Lemma field_next_clean cond name value :
  plain_name name = true -> (cond = true -> clean value) -> block_clean (field_next cond name value).
Proof.
  intros Hn Hv w b first Hw. unfold field_next. destruct cond; [|apply block_skip].
  apply block_named; auto using prefix_no_nl.
Qed.

Lemma run_fields_clean fs : Forall block_clean fs ->
  forall w b first, w.(w_Error) = None ->
  exists e first', run_fields fs (set_buf w b, first) = Ok (set_buf w (b ++ e), first') /\ nl ∉ e.
Proof.
  induction 1 as [|f fs Hf _ IH]; intros w b first Hw; [apply block_skip|]. cbn [run_fields].
  destruct (Hf w b first Hw) as (e & first' & -> & He). cbn [mbind outcome_bind].
  destruct (IH w (b ++ e) first' Hw) as (e' & first'' & -> & He').
  exists (e ++ e'), first''. rewrite <- app_assoc. split; [done|]. by rewrite no_nl_app.
Qed.

Lemma object_line fs : Forall block_clean fs -> emits (object fs) line.
Proof.
  intros Hfs w b Hw. unfold object, RawByte. rewrite w_append_set. cbn [mbind outcome_bind].
  destruct (run_fields_clean fs Hfs w (b ++ [x7b]) true Hw) as (e & first' & -> & He).
  cbn [mbind outcome_bind]. rewrite w_append_set. exists (x7b :: e ++ [x7d]).
  rewrite <- !app_assoc. split; [done|]. split; [done|]. rewrite no_nl_cons, no_nl_app.
  split_and!; [done|done|by apply (bool_decide_unpack _)].
Qed.

Lemma clean_line f : emits f line -> clean f.
Proof. intros Hf. eapply emits_weaken; [exact Hf|]. by intros e [_ ?]. Qed.

(** ** The messages *)

#[export] Hint Resolve clean_string clean_uint32 clean_bool clean_raw clean_some clean_array clean_line : wire.
#[export] Hint Resolve clean_map clean_pointer_map clean_nil_map : wire.

Ltac line_message enc :=
  intros; unfold enc; apply object_line;
  repeat (apply Forall_cons_2;
    [first [apply field_clean | apply field_first_clean | apply field_next_clean];
       [reflexivity|intros ?; by eauto with wire]|]);
  apply Forall_nil_2.

Lemma line_Error m : emits (encode_Error m) line.
Proof. line_message encode_Error. Qed.
#[export] Hint Resolve line_Error : wire.

Lemma line_SubscribeRequest m : emits (encode_SubscribeRequest m) line.
Proof. line_message encode_SubscribeRequest. Qed.
#[export] Hint Resolve line_SubscribeRequest : wire.

Lemma line_ConnectRequest m : emits (encode_ConnectRequest m) line.
Proof. line_message encode_ConnectRequest. Qed.
#[export] Hint Resolve line_ConnectRequest : wire.

Lemma line_UnsubscribeRequest m : emits (encode_UnsubscribeRequest m) line.
Proof. line_message encode_UnsubscribeRequest. Qed.
#[export] Hint Resolve line_UnsubscribeRequest : wire.

Lemma line_PublishRequest m : emits (encode_PublishRequest m) line.
Proof. line_message encode_PublishRequest. Qed.
#[export] Hint Resolve line_PublishRequest : wire.

Lemma line_PresenceRequest m : emits (encode_PresenceRequest m) line.
Proof. line_message encode_PresenceRequest. Qed.
#[export] Hint Resolve line_PresenceRequest : wire.

Lemma line_PresenceStatsRequest m : emits (encode_PresenceStatsRequest m) line.
Proof. line_message encode_PresenceStatsRequest. Qed.
#[export] Hint Resolve line_PresenceStatsRequest : wire.

Lemma line_PingRequest m : emits (encode_PingRequest m) line.
Proof. line_message encode_PingRequest. Qed.
#[export] Hint Resolve line_PingRequest : wire.

Lemma line_SendRequest m : emits (encode_SendRequest m) line.
Proof. line_message encode_SendRequest. Qed.
#[export] Hint Resolve line_SendRequest : wire.

Lemma line_RefreshRequest m : emits (encode_RefreshRequest m) line.
Proof. line_message encode_RefreshRequest. Qed.
#[export] Hint Resolve line_RefreshRequest : wire.

Lemma line_SubRefreshRequest m : emits (encode_SubRefreshRequest m) line.
Proof. line_message encode_SubRefreshRequest. Qed.
#[export] Hint Resolve line_SubRefreshRequest : wire.

Lemma line_Command m : emits (encode_Command m) line.
Proof. line_message encode_Command. Qed.
#[export] Hint Resolve line_Command : wire.

Lemma line_ClientInfo m : emits (encode_ClientInfo m) line.
Proof. line_message encode_ClientInfo. Qed.
#[export] Hint Resolve line_ClientInfo : wire.

Lemma line_Publication m : emits (encode_Publication m) line.
Proof. line_message encode_Publication. Qed.
#[export] Hint Resolve line_Publication : wire.

Lemma line_Join m : emits (encode_Join m) line.
Proof. line_message encode_Join. Qed.
#[export] Hint Resolve line_Join : wire.

Lemma line_Leave m : emits (encode_Leave m) line.
Proof. line_message encode_Leave. Qed.
#[export] Hint Resolve line_Leave : wire.

Lemma line_Unsubscribe m : emits (encode_Unsubscribe m) line.
Proof. line_message encode_Unsubscribe. Qed.
#[export] Hint Resolve line_Unsubscribe : wire.

Lemma line_Message m : emits (encode_Message m) line.
Proof. line_message encode_Message. Qed.
#[export] Hint Resolve line_Message : wire.

Lemma line_Subscribe m : emits (encode_Subscribe m) line.
Proof. line_message encode_Subscribe. Qed.
#[export] Hint Resolve line_Subscribe : wire.

Lemma line_SubscribeResult m : emits (encode_SubscribeResult m) line.
Proof. line_message encode_SubscribeResult. Qed.
#[export] Hint Resolve line_SubscribeResult : wire.

Lemma line_Connect m : emits (encode_Connect m) line.
Proof. line_message encode_Connect. Qed.
#[export] Hint Resolve line_Connect : wire.

Lemma line_Disconnect m : emits (encode_Disconnect m) line.
Proof. line_message encode_Disconnect. Qed.
#[export] Hint Resolve line_Disconnect : wire.

Lemma line_Refresh m : emits (encode_Refresh m) line.
Proof. line_message encode_Refresh. Qed.
#[export] Hint Resolve line_Refresh : wire.

Lemma line_Push m : emits (encode_Push m) line.
Proof. line_message encode_Push. Qed.
#[export] Hint Resolve line_Push : wire.

Lemma line_ConnectResult m : emits (encode_ConnectResult m) line.
Proof. line_message encode_ConnectResult. Qed.
#[export] Hint Resolve line_ConnectResult : wire.

Lemma line_UnsubscribeResult m : emits (encode_UnsubscribeResult m) line.
Proof. line_message encode_UnsubscribeResult. Qed.
#[export] Hint Resolve line_UnsubscribeResult : wire.

Lemma line_PublishResult m : emits (encode_PublishResult m) line.
Proof. line_message encode_PublishResult. Qed.
#[export] Hint Resolve line_PublishResult : wire.

Lemma line_PresenceResult m : emits (encode_PresenceResult m) line.
Proof. line_message encode_PresenceResult. Qed.
#[export] Hint Resolve line_PresenceResult : wire.

Lemma line_PresenceStatsResult m : emits (encode_PresenceStatsResult m) line.
Proof. line_message encode_PresenceStatsResult. Qed.
#[export] Hint Resolve line_PresenceStatsResult : wire.

Lemma line_PingResult m : emits (encode_PingResult m) line.
Proof. line_message encode_PingResult. Qed.
#[export] Hint Resolve line_PingResult : wire.

Lemma line_RefreshResult m : emits (encode_RefreshResult m) line.
Proof. line_message encode_RefreshResult. Qed.
#[export] Hint Resolve line_RefreshResult : wire.

Lemma line_SubRefreshResult m : emits (encode_SubRefreshResult m) line.
Proof. line_message encode_SubRefreshResult. Qed.
#[export] Hint Resolve line_SubRefreshResult : wire.

Lemma line_Reply m : emits (encode_Reply m) line.
Proof. line_message encode_Reply. Qed.
#[export] Hint Resolve line_Reply : wire.

(** ** The properties *)

Lemma build_emits f reuse P : emits f P -> exists e, build f reuse = Ok e /\ P e.
Proof.
  intros Hf. destruct (Hf new_json_writer [] eq_refl) as (e & Hrun & He). exists e. unfold build.
  change (set_buf new_json_writer []) with new_json_writer in Hrun. by rewrite Hrun.
Qed.

(** Whatever a command, a reply or a push holds, raw fields with newlines
    and raw fields that are no JSON included, the JSON encoders do not panic and
    what they return is one non-empty line; the encoders of replies and pushes
    return bytes only when these are valid JSON and the error of invalid JSON
    otherwise. *)
Theorem encoded_message_is_one_line (Valid : bytes -> bool) :
  (forall r, (exists e, JSONReplyEncoder_Encode Valid r = Ok e /\ line e /\ Valid e = true) \/
             JSONReplyEncoder_Encode Valid r = Err ErrInvalidJSON) /\
  (forall p, (exists e, JSONPushEncoder_Encode Valid p = Ok e /\ line e /\ Valid e = true) \/
             JSONPushEncoder_Encode Valid p = Err ErrInvalidJSON) /\
  (forall c, exists e, JSONCommandEncoder_Encode c = Ok e /\ line e).
Proof.
  split_and!.
  - intros r. destruct (build_emits _ None _ (line_Reply r)) as (e & Hb & He).
    unfold JSONReplyEncoder_Encode. rewrite Hb. simpl. destruct (Valid e) eqn:Hv; simpl; [left; by exists e|by right].
  - intros r. destruct (build_emits _ None _ (line_Push r)) as (e & Hb & He).
    unfold JSONPushEncoder_Encode. rewrite Hb. simpl. destruct (Valid e) eqn:Hv; simpl; [left; by exists e|by right].
  - intros c. apply build_emits, line_Command.
Qed.

(** An encoder's result: a JSON value without newlines. *)
Definition encodes (o : outcome io_error bytes) : Prop := exists e, o = Ok e /\ json_value e /\ nl ∉ e.

Lemma build_encodes f reuse : emits f one_value -> encodes (build f reuse).
Proof. intros Hf. destruct (build_emits f reuse one_value Hf) as (e & -> & He). by exists e. Qed.

(** C10: A message whose raw fields hold JSON texts is encoded as valid JSON
    without a newline by each of the 21 JSON encoders of encode.go: the encoders
    of whole replies, pushes and commands, of the nine kinds of push and of the
    nine kinds of result; the check of the reply and push encoders accepts it,
    provided the validator accepts JSON values. *)
Theorem json_encoders_valid (Valid : bytes -> bool) :
  (forall v, json_value v -> Valid v = true) ->
  (forall r, wf_Reply r -> encodes (JSONReplyEncoder_Encode Valid r)) /\
  (forall p, wf_Push p -> encodes (JSONPushEncoder_Encode Valid p)) /\
  (forall c, wf_Command c -> encodes (JSONCommandEncoder_Encode c)) /\
  (forall reuse m, wf_Publication m -> encodes (JSONPushEncoder_EncodePublication m reuse)) /\
  (forall reuse m, wf_Message m -> encodes (JSONPushEncoder_EncodeMessage m reuse)) /\
  (forall reuse m, wf_Join m -> encodes (JSONPushEncoder_EncodeJoin m reuse)) /\
  (forall reuse m, wf_Leave m -> encodes (JSONPushEncoder_EncodeLeave m reuse)) /\
  (forall reuse m, wf_Unsubscribe m -> encodes (JSONPushEncoder_EncodeUnsubscribe m reuse)) /\
  (forall reuse m, wf_Subscribe m -> encodes (JSONPushEncoder_EncodeSubscribe m reuse)) /\
  (forall reuse m, wf_Connect m -> encodes (JSONPushEncoder_EncodeConnect m reuse)) /\
  (forall reuse m, wf_Disconnect m -> encodes (JSONPushEncoder_EncodeDisconnect m reuse)) /\
  (forall reuse m, wf_Refresh m -> encodes (JSONPushEncoder_EncodeRefresh m reuse)) /\
  (forall m, wf_ConnectResult m -> encodes (JSONResultEncoder_EncodeConnectResult m)) /\
  (forall m, wf_RefreshResult m -> encodes (JSONResultEncoder_EncodeRefreshResult m)) /\
  (forall m, wf_SubscribeResult m -> encodes (JSONResultEncoder_EncodeSubscribeResult m)) /\
  (forall m, wf_SubRefreshResult m -> encodes (JSONResultEncoder_EncodeSubRefreshResult m)) /\
  (forall m, encodes (JSONResultEncoder_EncodeUnsubscribeResult m)) /\
  (forall m, encodes (JSONResultEncoder_EncodePublishResult m)) /\
  (forall m, wf_PresenceResult m -> encodes (JSONResultEncoder_EncodePresenceResult m)) /\
  (forall m, wf_PresenceStatsResult m -> encodes (JSONResultEncoder_EncodePresenceStatsResult m)) /\
  (forall m, encodes (JSONResultEncoder_EncodePingResult m)).
Proof.
  intros HV. split_and!;
    try (intros; apply build_encodes; by eauto with wire).
  - intros r Hr. destruct (build_encodes _ None (emits_Reply r Hr)) as (e & Hb & Hv & Hn).
    exists e. unfold JSONReplyEncoder_Encode. rewrite Hb. simpl. by rewrite HV.
  - intros r Hr. destruct (build_encodes _ None (emits_Push r Hr)) as (e & Hb & Hv & Hn).
    exists e. unfold JSONPushEncoder_Encode. rewrite Hb. simpl. by rewrite HV.
  - intros m. exact (build_encodes _ _ (emits_UnsubscribeResult m I)).
  - intros m. exact (build_encodes _ _ (emits_PublishResult m I)).
  - intros m. exact (build_encodes _ _ (emits_PingResult m I)).
Qed.

(** A publication as it is pushed to a subscriber. *)
Definition sample_push : pb_Push :=
  mk_Push (lit "news") (Some (mk_Publication (Some (lit "{ }")) None [] [])) None None None None None None None None [].
Definition sample_reply : pb_Reply :=
  mk_Reply 0 None (Some sample_push) None None None None None None None None None [].

Lemma sample_reply_wf : wf_Reply sample_reply.
Proof.
  unfold wf_Reply, sample_reply, is_u32. simpl. split_and!; try done. unfold wf_Push, sample_push. simpl.
  split_and!; try done. split; [|done]. right. simpl. apply json_value_text, (JEmptyObject [x20]). repeat constructor.
Qed.

Lemma json_encoders_valid_witness :
  encodes (JSONReplyEncoder_Encode (fun _ => true) sample_reply).
Proof. exact (proj1 (json_encoders_valid (fun _ => true) (fun _ _ => eq_refl)) sample_reply sample_reply_wf). Defined.

Example sample_reply_bytes :
  JSONReplyEncoder_Encode (fun _ => true) sample_reply =
    Ok (lit "{" ++ [x22] ++ lit "push" ++ [x22] ++ lit ":{" ++ [x22] ++ lit "channel" ++ [x22] ++ lit ":" ++ [x22] ++
        lit "news" ++ [x22] ++ lit "," ++ [x22] ++ lit "pub" ++ [x22] ++ lit ":{" ++ [x22] ++ lit "data" ++ [x22] ++
        lit ":{ }}}}").
Proof. reflexivity. Qed.
