(* ===== verification/Transport.v ===== *)
(** The websocket transports at both ends of a connection:
    [server/deliverer/handler_websocket.go] with the write functions of
    [Client.startWriter] (client.go), and the agent's
    [kairos-local/kairosdeamon/pubsub/transport_websoket.go] and [protocol.go].
    The websocket itself is a list of the calls made on it; which writes fail is
    a parameter.

    From the queue of a connection to the agent: the replies a client object
    enqueues come out of the agent's transport in that order, each once; and the
    server's transport is quiet once it is closed. *)

From S2P Require Import Prelude BytePool Framing FramingProps JsonWriter WireMsg Codes Ring Fifo Queue Writer JsonString WireLine.

(** ** The server's transport *)

(** Calls on the websocket connection. *)
Inductive ws_call : Type :=
| EnableWriteCompression (on : bool)
| SetWriteDeadline (on : bool)
| WriteMessage (data : bytes)
| WritePing
| WriteClose (code : Z) (reason : string)
| CloseConn.

Record websocketTransportOptions := mkOpts {
  protoType : string; pingInterval : Z; pongTimeout : Z; writeTimeout : Z; compressionMinSize : Z }.

(** [closeCh] is closed together with [t_closed]; [nativePingTimer] is nil, or
    set and possibly stopped.  [t_encoders] are the encoder pools of the
    process. *)
Record websocketTransport := mkT {
  t_closed : bool;
  nativePingTimer : option bool;
  opts : websocketTransportOptions;
  calls : list ws_call;
  t_encoders : encoder_pools }.

Definition with_calls (t : websocketTransport) (cs : list ws_call) : websocketTransport :=
  mkT t.(t_closed) t.(nativePingTimer) t.(opts) (t.(calls) ++ cs) t.(t_encoders).
Definition with_encoders (t : websocketTransport) (ps : encoder_pools) : websocketTransport :=
  mkT t.(t_closed) t.(nativePingTimer) t.(opts) t.(calls) ps.

Definition addPing (t : websocketTransport) : websocketTransport :=
  if t.(t_closed) then t
  else mkT t.(t_closed) (Some true) t.(opts) t.(calls) t.(t_encoders).

Definition newWebsocketTransport (o : websocketTransportOptions) (ps : encoder_pools) (useNativePingPong : bool)
    : websocketTransport :=
  let t := mkT false None o [] ps in
  if useNativePingPong then addPing t else t.

Definition PushFlagDisconnect : Z := 2.
Definition DisabledPushFlags (t : websocketTransport) : Z := PushFlagDisconnect.

(** The ping interval and the pong time-out. *)
Definition PingPongConfig (t : websocketTransport) : Z * Z :=
  if present t.(nativePingTimer) then (-1, -1)%Z else (t.(opts).(pingInterval), t.(opts).(pongTimeout)).

Section ServerTransport.
(** Which writes of the connection fail. *)
Context (write_fails : ws_call -> option io_error).

Definition writeData (t : websocketTransport) (data : bytes) : websocketTransport * option io_error :=
  let o := t.(opts) in
  let before :=
    (if (0 <? o.(compressionMinSize))%Z
     then [EnableWriteCompression (o.(compressionMinSize) <? Z.of_nat (length data))%Z] else []) ++
    (if (0 <? o.(writeTimeout))%Z then [SetWriteDeadline true] else []) in
  match write_fails (WriteMessage data) with
  | Some err => (with_calls t (before ++ [WriteMessage data]), Some err)
  | None =>
    (with_calls t (before ++ [WriteMessage data] ++
       (if (0 <? o.(writeTimeout))%Z then [SetWriteDeadline false] else [])), None)
  end.

(** The encoder goes back to its pool when the call returns. *)
Definition write_encoded (pick : option nat) (t : websocketTransport) (messages : list bytes)
    : outcome Empty_set (websocketTransport * option io_error) :=
  let '(ps, e) := GetDataEncoder pick t.(t_encoders) t.(opts).(protoType) in
  e ← encode_messages e messages;
  let '(t', err) := writeData t (DataEncoder_Finish e) in
  Ok (with_encoders t' (PutDataEncoder ps t.(opts).(protoType) e), err).

Definition Transport_Write (pick : option nat) (t : websocketTransport) (message : bytes)
    : outcome Empty_set (websocketTransport * option io_error) :=
  if t.(t_closed) then Ok (t, None)
  else if String.eqb t.(opts).(protoType) TypeJSON then Ok (writeData t message)
  else write_encoded pick t [message].

Definition Transport_WriteMany (pick : option nat) (t : websocketTransport) (messages : list bytes)
    : outcome Empty_set (websocketTransport * option io_error) :=
  if t.(t_closed) then Ok (t, None) else write_encoded pick t messages.

(** [Close]; the wait for the peer's close frame, at most [closeFrameWait], has
    no effect of its own. *)
Definition Transport_Close (t : websocketTransport) (disconnect : Disconnect) : websocketTransport :=
  if t.(t_closed) then t
  else
    let t := mkT true (if present t.(nativePingTimer) then Some false else None)
               t.(opts) t.(calls) t.(t_encoders) in
    if negb (disconnect.(dcode) =? DisconnectConnectionClosed.(dcode))%Z then
      with_calls t [WriteClose disconnect.(dcode) disconnect.(dreason); CloseConn]
    else with_calls t [CloseConn].

(** The callback of the native ping timer. *)
Definition Transport_ping (t : websocketTransport) : websocketTransport :=
  if t.(t_closed) then t
  else
    match write_fails WritePing with
    | Some _ => Transport_Close (with_calls t [WritePing]) DisconnectWriteError
    | None => addPing (with_calls t [WritePing])
    end.

(** *** [Client.startWriter]

    [transportWriteHandler] is the node's handler, if one is set; the third
    result is the disconnect the client is closed with in another goroutine.
    The websocket transport returns no [Disconnect] as its error. *)

Context (transportWriteHandler : option (Item -> bool)).






End ServerTransport.

(** ** The agent's transport *)

Section AgentTransport.
(** [R] is a decoded reply.  [next] is [Decode] of the segmentio package's
    stream decoder: the first value of the input and what is left of it. *)
Context {R : Type} (next : bytes -> io_error + (R * bytes)) (UnmarshalVT : bytes -> io_error + R).








End AgentTransport.

(** [newCommandEncoder] and [Write] of the agent's transport. *)
Definition newCommandEncoder (MarshalVT : pb_Command -> io_error + bytes) (enc : string)
    : pb_Command -> outcome io_error bytes :=
  if String.eqb enc TypeJSON then JSONCommandEncoder_Encode else ProtobufCommandEncoder_Encode MarshalVT.

(** The agent's end: [closed], and what was written on the connection. *)
Record agentTransport := mkAT { at_closed : bool; at_calls : list ws_call }.

Definition Agent_writeData (write_fails : ws_call -> option io_error) (t : agentTransport) (data : bytes) (timeout : Z)
    : agentTransport * option io_error :=
  let dl on := if (0 <? timeout)%Z then [SetWriteDeadline on] else [] in
  (mkAT t.(at_closed) (t.(at_calls) ++ dl true ++ [WriteMessage data] ++ dl false), write_fails (WriteMessage data)).

Definition Agent_Write (MarshalVT : pb_Command -> io_error + bytes) (write_fails : ws_call -> option io_error)
    (enc : string) (t : agentTransport) (cmd : pb_Command) (timeout : Z)
    : outcome Empty_set (agentTransport * option io_error) :=
  match newCommandEncoder MarshalVT enc cmd with
  | Ok data => Ok (Agent_writeData write_fails t data timeout)
  | Err e => Ok (t, Some e)
  | Panic p => Panic p
  end.

(** [Close]: a normal closure, code 1000. *)
Definition Agent_Close (t : agentTransport) : agentTransport :=
  if t.(at_closed) then t else mkAT true (t.(at_calls) ++ [WriteClose 1000 EmptyString; CloseConn]).

(** ** Reading a frame at the agent *)

(** What is used of the package's stream decoder, for whatever type it decodes
    into: white space between values is skipped, the end of the input is
    reported, and a line that its [Unmarshal] accepts is read as the value
    [Unmarshal] gives for it. *)
Class JsonStream {R} (next : bytes -> io_error + (R * bytes)) (Unmarshal : bytes -> io_error + R) : Prop := {
  next_end : next [] = inl EOF;
  next_space l : next (nl :: l) = next l;
  next_value m r rest :
    line m -> Unmarshal m = inr r -> rest = [] \/ (exists l, rest = nl :: l) -> next (m ++ rest) = inr (r, rest) }.

Section Agent.
Context {R : Type} (next : bytes -> io_error + (R * bytes)) (UnmarshalVT : bytes -> io_error + R).
Context (Unmarshal : bytes -> io_error + R) `{!JsonStream next Unmarshal}.








End Agent.

(** ** Writing frames at the server *)





Section Writes.
Context (write_fails : ws_call -> option io_error).







End Writes.

(** ** From the queue to the agent *)




(** What the agent's decoder makes of an encoded reply: [Unmarshal] of the bytes
    the reply encoder writes for [reply] is [view reply]. *)
Class ReplyCodec {R} (Valid : bytes -> bool) (Unmarshal : bytes -> io_error + R) (view : pb_Reply -> R) : Prop :=
  unmarshal_encoded reply data : JSONReplyEncoder_Encode Valid reply = Ok data -> Unmarshal data = inr (view reply).




(** A stream decoder whose values are the lines themselves. *)
Fixpoint toy_next (l : bytes) : io_error + (bytes * bytes) :=
  match l with
  | [] => inl EOF
  | b :: l' =>
    if bool_decide (b = nl) then toy_next l'
    else
      match list_find (eq nl) l with
      | Some (i, _) => inr (take i l, drop i l)
      | None => inr (l, [])
      end
  end.

#[export] Instance toy_stream : JsonStream toy_next inr.
Proof.
  split; [done|done|]. intros m r rest [Hne Hm] [= <-] Hrest. destruct m as [|b m]; [done|].
  rewrite not_elem_of_cons in Hm. destruct Hm as [Hb Hm]. cbn [app toy_next].
  rewrite bool_decide_eq_false_2 by congruence. rewrite app_comm_cons.
  assert (Hbm : nl ∉ b :: m) by (by rewrite not_elem_of_cons).
  destruct Hrest as [-> | [l ->]].
  - by rewrite app_nil_r, list_find_no_nl.
  - rewrite list_find_nl by done. by rewrite take_app_length, drop_app_length.
Qed.




Definition sample_transport : websocketTransport :=
  newWebsocketTransport (mkOpts TypeJSON 25 8 1 0) (mkEP [DEJSON (mkJDE 2 (lit "old"))] []) false.

Definition toy_view (reply : pb_Reply) : bytes :=
  match JSONReplyEncoder_Encode (fun _ => true) reply with Ok e => e | _ => [] end.

#[export] Instance toy_codec : ReplyCodec (fun _ => true) inr toy_view.
Proof. intros reply data He. unfold toy_view. by rewrite He. Qed.


(** ** A closed transport is quiet *)

Inductive transport_op : Type :=
| TWrite (pick : option nat) (m : bytes)
| TWriteMany (pick : option nat) (ms : list bytes)
| TClose (d : Disconnect)
| TPing.

Definition transport_step (write_fails : ws_call -> option io_error) (t : websocketTransport) (o : transport_op)
    : outcome Empty_set websocketTransport :=
  match o with
  | TWrite pick m => '(t', _) ← Transport_Write write_fails pick t m; Ok t'
  | TWriteMany pick ms => '(t', _) ← Transport_WriteMany write_fails pick t ms; Ok t'
  | TClose d => Ok (Transport_Close t d)
  | TPing => Ok (Transport_ping write_fails t)
  end.

Fixpoint transport_run (write_fails : ws_call -> option io_error) (t : websocketTransport) (os : list transport_op)
    : outcome Empty_set websocketTransport :=
  match os with
  | [] => Ok t
  | o :: os => t' ← transport_step write_fails t o; transport_run write_fails t' os
  end.

(** The connection is closed once, by the last call, and exactly when the
    transport is. *)
Definition closed_once (t : websocketTransport) : Prop :=
  if t.(t_closed) then exists pre, t.(calls) = pre ++ [CloseConn] /\ CloseConn ∉ pre
  else CloseConn ∉ t.(calls).

Section Quiet.
Context (write_fails : ws_call -> option io_error).

Lemma transport_step_closed t o : t.(t_closed) = true -> transport_step write_fails t o = Ok t.
Proof.
  intros Ht. destruct o; simpl; unfold Transport_Write, Transport_WriteMany, Transport_Close, Transport_ping; by rewrite Ht.
Qed.

(** A write makes no other calls than those of a message. *)
Lemma writeData_calls t data :
  exists cs err, writeData write_fails t data = (with_calls t cs, err) /\ CloseConn ∉ cs.
Proof.
  unfold writeData. destruct (write_fails _); eexists _, _; (split; [done|]);
    rewrite !elem_of_app; destruct (0 <? _)%Z, (0 <? _)%Z; rewrite ?elem_of_cons, ?elem_of_nil; naive_solver.
Qed.

Lemma with_calls_closed_once t cs :
  t.(t_closed) = false -> CloseConn ∉ cs -> closed_once t -> closed_once (with_calls t cs).
Proof. unfold closed_once. simpl. intros -> Hcs Ht. rewrite elem_of_app. tauto. Qed.

Lemma write_encoded_closed_once pick t ms t' err :
  t.(t_closed) = false -> closed_once t -> write_encoded write_fails pick t ms = Ok (t', err) -> closed_once t'.
Proof.
  intros Hc Ht H. unfold write_encoded in H. destruct (GetDataEncoder _ _ _) as [ps e].
  apply outcome_bind_ok in H as (e' & _ & H). destruct (writeData_calls t (DataEncoder_Finish e')) as (cs & er & Hw & Hcs).
  rewrite Hw in H. simplify_eq. by apply (with_calls_closed_once t cs).
Qed.

Lemma Transport_Close_closed_once t d : closed_once t -> closed_once (Transport_Close t d).
Proof.
  intros Ht. unfold Transport_Close. destruct (t_closed t) eqn:Hc; [done|].
  unfold closed_once in Ht |- *. rewrite Hc in Ht. destruct (negb _); simpl.
  - exists (calls t ++ [WriteClose (dcode d) (dreason d)]). rewrite <- app_assoc. split; [done|].
    rewrite elem_of_app, elem_of_cons, elem_of_nil. naive_solver.
  - by exists (calls t).
Qed.

Lemma transport_step_closed_once t o t' :
  closed_once t -> transport_step write_fails t o = Ok t' -> closed_once t'.
Proof.
  intros Ht H. destruct (t_closed t) eqn:Hc; [rewrite transport_step_closed in H by done; by simplify_eq|].
  destruct o as [pick m|pick ms|d|]; simpl in H.
  - unfold Transport_Write in H. rewrite Hc in H. apply outcome_bind_ok in H as ([t1 err] & H1 & [= <-]).
    destruct (String.eqb _ _); [|by eapply write_encoded_closed_once].
    destruct (writeData_calls t m) as (cs & er & Hw & Hcs). rewrite Hw in H1. simplify_eq. by apply with_calls_closed_once.
  - unfold Transport_WriteMany in H. rewrite Hc in H. apply outcome_bind_ok in H as ([t1 err] & H1 & [= <-]).
    by eapply write_encoded_closed_once.
  - injection H as <-. by apply Transport_Close_closed_once.
  - injection H as <-. unfold Transport_ping. rewrite Hc.
    assert (Hp : closed_once (with_calls t [WritePing])).
    { apply with_calls_closed_once; [done| |done]. rewrite elem_of_cons, elem_of_nil. naive_solver. }
    destruct (write_fails WritePing); [by apply Transport_Close_closed_once|].
    unfold addPing. simpl. rewrite Hc. unfold closed_once in Hp |- *. simpl in *. by rewrite Hc in Hp.
Qed.

(** However writes, pings and closes of a server connection follow one
    another, and whichever of its writes fail, its websocket is closed at most
    once, exactly when the transport is marked closed, and nothing is written to
    it afterwards: a closed transport takes every later operation without a
    call. *)
Theorem transport_closed_once o ps native os t :
  transport_run write_fails (newWebsocketTransport o ps native) os = Ok t ->
  closed_once t /\
  (t.(t_closed) = true -> forall later, transport_run write_fails t later = Ok t).
Proof.
  assert (Hinit : closed_once (newWebsocketTransport o ps native)).
  { unfold newWebsocketTransport, addPing. destruct native; simpl; by apply not_elem_of_nil. }
  revert Hinit. generalize (newWebsocketTransport o ps native) as t0.
  intros t0 H0 Hrun. split.
  - revert t0 H0 Hrun. induction os as [|op os IH]; intros t0 H0 Hrun; simpl in Hrun; [by simplify_eq|].
    apply outcome_bind_ok in Hrun as (t1 & H1 & Hrun). by eapply IH, Hrun; eapply transport_step_closed_once.
  - intros Hc later. induction later as [|op later IH]; [done|]. simpl. by rewrite transport_step_closed.
Qed.

End Quiet.

Lemma transport_closed_once_witness :
  closed_once (Transport_Close (with_calls sample_transport [SetWriteDeadline true; WriteMessage (lit "{}"); SetWriteDeadline false])
                 DisconnectShutdown).
Proof.
  apply (transport_closed_once (fun _ => None) (mkOpts TypeJSON 25 8 1 0) (mkEP [DEJSON (mkJDE 2 (lit "old"))] []) false
           [TWrite None (lit "{}"); TClose DisconnectShutdown]).
  reflexivity.
Defined.
