(* ===== verification/ReplyPool.v ===== *)
(** [pkg/protocol/deliverprotocol/replies.go]: the pools of reply objects, and
    how the handlers of [server/deliverer/client.go] use them: a reply is taken
    for a result, given the id of the command and written, and returned.  A pool
    keeps the replies as they were returned, and may hand out any of them. *)

From S2P Require Import Prelude BytePool Framing FramingProps JsonWriter WireMsg.

(** The pools the program uses; those of RPC and history replies are never
    touched. *)
Record ReplyPoolCollection := mkRP {
  connectReplyPool : list pb_Reply;
  subscribeReplyPool : list pb_Reply;
  unsubscribeReplyPool : list pb_Reply;
  publishReplyPool : list pb_Reply;
  presenceReplyPool : list pb_Reply;
  presenceStatsReplyPool : list pb_Reply;
  refreshReplyPool : list pb_Reply;
  subRefreshReplyPool : list pb_Reply }.

Definition new_reply_pools : ReplyPoolCollection := mkRP [] [] [] [] [] [] [] [].

Definition empty_Reply : pb_Reply := mk_Reply 0 None None None None None None None None None None None [].

(** Setting a field of a reply object. *)
Definition set_Id (v : Z) (r : pb_Reply) : pb_Reply :=
  mk_Reply v r.(Reply_Error) r.(Reply_Push) r.(Reply_Connect) r.(Reply_Subscribe) r.(Reply_Unsubscribe) r.(Reply_Publish) r.(Reply_Presence) r.(Reply_PresenceStats) r.(Reply_Ping) r.(Reply_Refresh) r.(Reply_SubRefresh) r.(Reply_unknownFields).
Definition set_Connect (v : option pb_ConnectResult) (r : pb_Reply) : pb_Reply :=
  mk_Reply r.(Reply_Id) r.(Reply_Error) r.(Reply_Push) v r.(Reply_Subscribe) r.(Reply_Unsubscribe) r.(Reply_Publish) r.(Reply_Presence) r.(Reply_PresenceStats) r.(Reply_Ping) r.(Reply_Refresh) r.(Reply_SubRefresh) r.(Reply_unknownFields).
Definition set_Subscribe (v : option pb_SubscribeResult) (r : pb_Reply) : pb_Reply :=
  mk_Reply r.(Reply_Id) r.(Reply_Error) r.(Reply_Push) r.(Reply_Connect) v r.(Reply_Unsubscribe) r.(Reply_Publish) r.(Reply_Presence) r.(Reply_PresenceStats) r.(Reply_Ping) r.(Reply_Refresh) r.(Reply_SubRefresh) r.(Reply_unknownFields).
Definition set_Unsubscribe (v : option pb_UnsubscribeResult) (r : pb_Reply) : pb_Reply :=
  mk_Reply r.(Reply_Id) r.(Reply_Error) r.(Reply_Push) r.(Reply_Connect) r.(Reply_Subscribe) v r.(Reply_Publish) r.(Reply_Presence) r.(Reply_PresenceStats) r.(Reply_Ping) r.(Reply_Refresh) r.(Reply_SubRefresh) r.(Reply_unknownFields).
Definition set_Publish (v : option pb_PublishResult) (r : pb_Reply) : pb_Reply :=
  mk_Reply r.(Reply_Id) r.(Reply_Error) r.(Reply_Push) r.(Reply_Connect) r.(Reply_Subscribe) r.(Reply_Unsubscribe) v r.(Reply_Presence) r.(Reply_PresenceStats) r.(Reply_Ping) r.(Reply_Refresh) r.(Reply_SubRefresh) r.(Reply_unknownFields).
Definition set_Presence (v : option pb_PresenceResult) (r : pb_Reply) : pb_Reply :=
  mk_Reply r.(Reply_Id) r.(Reply_Error) r.(Reply_Push) r.(Reply_Connect) r.(Reply_Subscribe) r.(Reply_Unsubscribe) r.(Reply_Publish) v r.(Reply_PresenceStats) r.(Reply_Ping) r.(Reply_Refresh) r.(Reply_SubRefresh) r.(Reply_unknownFields).
Definition set_PresenceStats (v : option pb_PresenceStatsResult) (r : pb_Reply) : pb_Reply :=
  mk_Reply r.(Reply_Id) r.(Reply_Error) r.(Reply_Push) r.(Reply_Connect) r.(Reply_Subscribe) r.(Reply_Unsubscribe) r.(Reply_Publish) r.(Reply_Presence) v r.(Reply_Ping) r.(Reply_Refresh) r.(Reply_SubRefresh) r.(Reply_unknownFields).
Definition set_Refresh (v : option pb_RefreshResult) (r : pb_Reply) : pb_Reply :=
  mk_Reply r.(Reply_Id) r.(Reply_Error) r.(Reply_Push) r.(Reply_Connect) r.(Reply_Subscribe) r.(Reply_Unsubscribe) r.(Reply_Publish) r.(Reply_Presence) r.(Reply_PresenceStats) r.(Reply_Ping) v r.(Reply_SubRefresh) r.(Reply_unknownFields).
Definition set_SubRefresh (v : option pb_SubRefreshResult) (r : pb_Reply) : pb_Reply :=
  mk_Reply r.(Reply_Id) r.(Reply_Error) r.(Reply_Push) r.(Reply_Connect) r.(Reply_Subscribe) r.(Reply_Unsubscribe) r.(Reply_Publish) r.(Reply_Presence) r.(Reply_PresenceStats) r.(Reply_Ping) r.(Reply_Refresh) v r.(Reply_unknownFields).

(** Replacing a pool. *)
Definition put_Connect (p : ReplyPoolCollection) (l : list pb_Reply) : ReplyPoolCollection :=
  mkRP l p.(subscribeReplyPool) p.(unsubscribeReplyPool) p.(publishReplyPool) p.(presenceReplyPool) p.(presenceStatsReplyPool) p.(refreshReplyPool) p.(subRefreshReplyPool).
Definition put_Subscribe (p : ReplyPoolCollection) (l : list pb_Reply) : ReplyPoolCollection :=
  mkRP p.(connectReplyPool) l p.(unsubscribeReplyPool) p.(publishReplyPool) p.(presenceReplyPool) p.(presenceStatsReplyPool) p.(refreshReplyPool) p.(subRefreshReplyPool).
Definition put_Unsubscribe (p : ReplyPoolCollection) (l : list pb_Reply) : ReplyPoolCollection :=
  mkRP p.(connectReplyPool) p.(subscribeReplyPool) l p.(publishReplyPool) p.(presenceReplyPool) p.(presenceStatsReplyPool) p.(refreshReplyPool) p.(subRefreshReplyPool).
Definition put_Publish (p : ReplyPoolCollection) (l : list pb_Reply) : ReplyPoolCollection :=
  mkRP p.(connectReplyPool) p.(subscribeReplyPool) p.(unsubscribeReplyPool) l p.(presenceReplyPool) p.(presenceStatsReplyPool) p.(refreshReplyPool) p.(subRefreshReplyPool).
Definition put_Presence (p : ReplyPoolCollection) (l : list pb_Reply) : ReplyPoolCollection :=
  mkRP p.(connectReplyPool) p.(subscribeReplyPool) p.(unsubscribeReplyPool) p.(publishReplyPool) l p.(presenceStatsReplyPool) p.(refreshReplyPool) p.(subRefreshReplyPool).
Definition put_PresenceStats (p : ReplyPoolCollection) (l : list pb_Reply) : ReplyPoolCollection :=
  mkRP p.(connectReplyPool) p.(subscribeReplyPool) p.(unsubscribeReplyPool) p.(publishReplyPool) p.(presenceReplyPool) l p.(refreshReplyPool) p.(subRefreshReplyPool).
Definition put_Refresh (p : ReplyPoolCollection) (l : list pb_Reply) : ReplyPoolCollection :=
  mkRP p.(connectReplyPool) p.(subscribeReplyPool) p.(unsubscribeReplyPool) p.(publishReplyPool) p.(presenceReplyPool) p.(presenceStatsReplyPool) l p.(subRefreshReplyPool).
Definition put_SubRefresh (p : ReplyPoolCollection) (l : list pb_Reply) : ReplyPoolCollection :=
  mkRP p.(connectReplyPool) p.(subscribeReplyPool) p.(unsubscribeReplyPool) p.(publishReplyPool) p.(presenceReplyPool) p.(presenceStatsReplyPool) p.(refreshReplyPool) l.

(** The body of the acquire methods: a pooled reply with its field set, or a
    new one. *)
Definition AcquireConnectReply (pick : option nat) (p : ReplyPoolCollection) (result : option pb_ConnectResult)
    : ReplyPoolCollection * pb_Reply :=
  let '(l, r) := pool_get pick p.(connectReplyPool) in
  (put_Connect p l, match r with None => set_Connect result empty_Reply | Some reply => set_Connect result reply end).
Definition ReleaseConnectReply (p : ReplyPoolCollection) (r : pb_Reply) : ReplyPoolCollection :=
  put_Connect p (p.(connectReplyPool) ++ [set_Connect None r]).

Definition AcquireSubscribeReply (pick : option nat) (p : ReplyPoolCollection) (result : option pb_SubscribeResult)
    : ReplyPoolCollection * pb_Reply :=
  let '(l, r) := pool_get pick p.(subscribeReplyPool) in
  (put_Subscribe p l, match r with None => set_Subscribe result empty_Reply | Some reply => set_Subscribe result reply end).
Definition ReleaseSubscribeReply (p : ReplyPoolCollection) (r : pb_Reply) : ReplyPoolCollection :=
  put_Subscribe p (p.(subscribeReplyPool) ++ [set_Subscribe None r]).

Definition AcquireUnsubscribeReply (pick : option nat) (p : ReplyPoolCollection) (result : option pb_UnsubscribeResult)
    : ReplyPoolCollection * pb_Reply :=
  let '(l, r) := pool_get pick p.(unsubscribeReplyPool) in
  (put_Unsubscribe p l, match r with None => set_Unsubscribe result empty_Reply | Some reply => set_Unsubscribe result reply end).
Definition ReleaseUnsubscribeReply (p : ReplyPoolCollection) (r : pb_Reply) : ReplyPoolCollection :=
  put_Unsubscribe p (p.(unsubscribeReplyPool) ++ [set_Unsubscribe None r]).

Definition AcquirePublishReply (pick : option nat) (p : ReplyPoolCollection) (result : option pb_PublishResult)
    : ReplyPoolCollection * pb_Reply :=
  let '(l, r) := pool_get pick p.(publishReplyPool) in
  (put_Publish p l, match r with None => set_Publish result empty_Reply | Some reply => set_Publish result reply end).
Definition ReleasePublishReply (p : ReplyPoolCollection) (r : pb_Reply) : ReplyPoolCollection :=
  put_Publish p (p.(publishReplyPool) ++ [set_Publish None r]).

Definition AcquirePresenceReply (pick : option nat) (p : ReplyPoolCollection) (result : option pb_PresenceResult)
    : ReplyPoolCollection * pb_Reply :=
  let '(l, r) := pool_get pick p.(presenceReplyPool) in
  (put_Presence p l, match r with None => set_Presence result empty_Reply | Some reply => set_Presence result reply end).
Definition ReleasePresenceReply (p : ReplyPoolCollection) (r : pb_Reply) : ReplyPoolCollection :=
  put_Presence p (p.(presenceReplyPool) ++ [set_Presence None r]).

Definition AcquirePresenceStatsReply (pick : option nat) (p : ReplyPoolCollection) (result : option pb_PresenceStatsResult)
    : ReplyPoolCollection * pb_Reply :=
  let '(l, r) := pool_get pick p.(presenceStatsReplyPool) in
  (put_PresenceStats p l, match r with None => set_PresenceStats result empty_Reply | Some reply => set_PresenceStats result reply end).
Definition ReleasePresenceStatsReply (p : ReplyPoolCollection) (r : pb_Reply) : ReplyPoolCollection :=
  put_PresenceStats p (p.(presenceStatsReplyPool) ++ [set_PresenceStats None r]).

Definition AcquireRefreshReply (pick : option nat) (p : ReplyPoolCollection) (result : option pb_RefreshResult)
    : ReplyPoolCollection * pb_Reply :=
  let '(l, r) := pool_get pick p.(refreshReplyPool) in
  (put_Refresh p l, match r with None => set_Refresh result empty_Reply | Some reply => set_Refresh result reply end).
Definition ReleaseRefreshReply (p : ReplyPoolCollection) (r : pb_Reply) : ReplyPoolCollection :=
  put_Refresh p (p.(refreshReplyPool) ++ [set_Refresh None r]).

Definition AcquireSubRefreshReply (pick : option nat) (p : ReplyPoolCollection) (result : option pb_SubRefreshResult)
    : ReplyPoolCollection * pb_Reply :=
  let '(l, r) := pool_get pick p.(subRefreshReplyPool) in
  (put_SubRefresh p l, match r with None => set_SubRefresh result empty_Reply | Some reply => set_SubRefresh result reply end).
Definition ReleaseSubRefreshReply (p : ReplyPoolCollection) (r : pb_Reply) : ReplyPoolCollection :=
  put_SubRefresh p (p.(subRefreshReplyPool) ++ [set_SubRefresh None r]).

(** ** Answering commands *)

(** The result a command is answered with. *)
Inductive answer : Type :=
| AConnect (res : pb_ConnectResult)
| ASubscribe (res : pb_SubscribeResult)
| AUnsubscribe (res : pb_UnsubscribeResult)
| APublish (res : pb_PublishResult)
| APresence (res : pb_PresenceResult)
| APresenceStats (res : pb_PresenceStatsResult)
| ARefresh (res : pb_RefreshResult)
| ASubRefresh (res : pb_SubRefreshResult).

(** The get and release methods of the client, by the kind of the answer. *)
Definition getCommandReply (pick : option nat) (p : ReplyPoolCollection) (a : answer)
    : ReplyPoolCollection * pb_Reply :=
  match a with
  | AConnect res => AcquireConnectReply pick p (Some res)
  | ASubscribe res => AcquireSubscribeReply pick p (Some res)
  | AUnsubscribe res => AcquireUnsubscribeReply pick p (Some res)
  | APublish res => AcquirePublishReply pick p (Some res)
  | APresence res => AcquirePresenceReply pick p (Some res)
  | APresenceStats res => AcquirePresenceStatsReply pick p (Some res)
  | ARefresh res => AcquireRefreshReply pick p (Some res)
  | ASubRefresh res => AcquireSubRefreshReply pick p (Some res)
  end.
Definition releaseCommandReply (p : ReplyPoolCollection) (a : answer) (r : pb_Reply) : ReplyPoolCollection :=
  match a with
  | AConnect _ => ReleaseConnectReply p r
  | ASubscribe _ => ReleaseSubscribeReply p r
  | AUnsubscribe _ => ReleaseUnsubscribeReply p r
  | APublish _ => ReleasePublishReply p r
  | APresence _ => ReleasePresenceReply p r
  | APresenceStats _ => ReleasePresenceStatsReply p r
  | ARefresh _ => ReleaseRefreshReply p r
  | ASubRefresh _ => ReleaseSubRefreshReply p r
  end.

(** The reply a command with this id should get. *)
Definition reply_for (a : answer) (id : Z) : pb_Reply :=
  set_Id id (match a with
    | AConnect res => set_Connect (Some res) empty_Reply
    | ASubscribe res => set_Subscribe (Some res) empty_Reply
    | AUnsubscribe res => set_Unsubscribe (Some res) empty_Reply
    | APublish res => set_Publish (Some res) empty_Reply
    | APresence res => set_Presence (Some res) empty_Reply
    | APresenceStats res => set_PresenceStats (Some res) empty_Reply
    | ARefresh res => set_Refresh (Some res) empty_Reply
    | ASubRefresh res => set_SubRefresh (Some res) empty_Reply
    end).

(** The pools and the replies in use: taken and given their id by
    [writeEncodedCommandReply], not yet returned.  Connections run side by side,
    so takes and returns of different replies may come in any order. *)
Record reply_state := mkRS { rs_pools : ReplyPoolCollection; rs_used : list (answer * Z * pb_Reply) }.

Inductive reply_step : reply_state -> reply_state -> Prop :=
| step_get p used a id pick p' r :
    getCommandReply pick p a = (p', r) ->
    reply_step (mkRS p used) (mkRS p' (used ++ [(a, id, set_Id id r)]))
| step_release p l1 l2 a id r :
    reply_step (mkRS p (l1 ++ (a, id, r) :: l2)) (mkRS (releaseCommandReply p a r) (l1 ++ l2)).

(** *** A pooled reply has nothing set but its id *)

Definition blank (r : pb_Reply) : Prop := exists id, r = set_Id id empty_Reply.

Definition pools_blank (p : ReplyPoolCollection) : Prop :=
  Forall blank p.(connectReplyPool) /\
  Forall blank p.(subscribeReplyPool) /\
  Forall blank p.(unsubscribeReplyPool) /\
  Forall blank p.(publishReplyPool) /\
  Forall blank p.(presenceReplyPool) /\
  Forall blank p.(presenceStatsReplyPool) /\
  Forall blank p.(refreshReplyPool) /\
  Forall blank p.(subRefreshReplyPool).

Definition replies_ok (s : reply_state) : Prop :=
  pools_blank s.(rs_pools) /\ Forall (fun '(a, id, r) => r = reply_for a id) s.(rs_used).

Lemma pool_get_Forall {A} (P : A -> Prop) pick (l : list A) :
  Forall P l -> Forall P (pool_get pick l).1 /\ (forall x, (pool_get pick l).2 = Some x -> P x).
Proof.
  intros Hl. destruct (pool_get pick l) as [l' o] eqn:Hg. apply pool_get_incl in Hg as [Hin Hx].
  rewrite Forall_forall in Hl |- *. simpl. auto.
Qed.

Lemma get_ok pick p a id p' r :
  pools_blank p -> getCommandReply pick p a = (p', r) -> pools_blank p' /\ set_Id id r = reply_for a id.
Proof.
  intros Hp Hget. unfold pools_blank in *. destruct_and! Hp.
  destruct a; cbn [getCommandReply] in Hget;
    match type of Hget with ?acquire _ _ _ = _ => unfold acquire in Hget end;
    match type of Hget with context [pool_get pick ?l] =>
      let Hl := fresh "Hl" in let Hx := fresh "Hx" in
      destruct (pool_get_Forall blank pick l ltac:(done)) as [Hl Hx];
      destruct (pool_get pick l) as [l' [r'|]]; simpl in Hl, Hx; simplify_eq/=
    end; (split; [split_and!; assumption|]);
    try (destruct (Hx _ eq_refl) as [? ->]); reflexivity.
Qed.

Lemma release_ok p a id : pools_blank p -> pools_blank (releaseCommandReply p a (reply_for a id)).
Proof.
  intros Hp. unfold pools_blank in *. destruct_and! Hp.
  destruct a; simpl; split_and!; try assumption; apply Forall_app; (split; [assumption|]);
    repeat constructor; by exists id.
Qed.

Lemma reply_step_ok s s' : replies_ok s -> reply_step s s' -> replies_ok s'.
Proof.
  intros [Hp Hu] Hs. destruct Hs as [p used a id pick p' r Hget|p l1 l2 a id r]; simpl in *.
  - destruct (get_ok pick p a id p' r Hp Hget) as [Hp' Hr]. split; [done|]. apply Forall_app. split; [done|].
    by repeat constructor.
  - apply Forall_app in Hu as [H1 [Hr H2]%Forall_cons]. subst r. split; [by apply release_ok|]. by apply Forall_app.
Qed.

(** C19: reply objects are reused, and nothing of one answer shows in another:
    however the handlers of all connections take, fill and return replies, and
    whichever replies the pools hand out, every reply in use holds the id of its
    command and the result it is the answer for, and no other field is set. *)
Theorem pooled_replies_are_clean s :
  rtc reply_step (mkRS new_reply_pools []) s ->
  Forall (fun '(a, id, r) => r = reply_for a id) s.(rs_used).
Proof.
  intros Hs. enough (replies_ok s) as [_ H] by done.
  assert (H0 : replies_ok (mkRS new_reply_pools [])) by (split; [split_and!; constructor|constructor]).
  revert H0. induction Hs as [s|s s1 s2 Hstep _ IH]; [done|]. intros H0. by apply IH, (reply_step_ok s).
Qed.

(** Two answers, the second in the reply of the first. *)
Lemma pooled_replies_are_clean_witness :
  Forall (fun '(a, id, r) => r = reply_for a id)
    [(AConnect (mk_ConnectResult (lit "c") false 0 None [] 25 [] [] []), 2%Z,
      set_Id 2 (set_Connect (Some (mk_ConnectResult (lit "c") false 0 None [] 25 [] [] []))
        (set_Id 1 (set_Connect None (set_Connect (Some (mk_ConnectResult (lit "b") false 0 None [] 25 [] [] [])) empty_Reply)))))].
Proof.
  refine (pooled_replies_are_clean (mkRS new_reply_pools [_]) _).
  eapply rtc_l.
  { apply (step_get new_reply_pools [] (AConnect (mk_ConnectResult (lit "b") false 0 None [] 25 [] [] [])) 1 None). reflexivity. }
  eapply rtc_l; [apply (step_release _ [] [])|].
  eapply rtc_l; [apply (step_get _ [] (AConnect (mk_ConnectResult (lit "c") false 0 None [] 25 [] [] [])) 2 (Some 0)); reflexivity|].
  apply rtc_refl.
Defined.
