(* ===== verification/Dag.v ===== *)
(** [pkg/dag/dag.go]: the graph of tasks and its search for cycles.  The search
    marks the nodes of its path in [visited], which is a field of the graph and
    stays marked when a cycle is found.  [hasCycle] is given fuel; one more than
    the number of nodes with edges is enough. *)

From S2P Require Import Prelude.

Inductive dag_error :=
| ErrVertexExist
| ErrVertexTailNotExist
| ErrVertexHeadNotExist
| ErrEdgeExist
| ErrCycleExist.

Record Dag := mkDag {
  dag_nodes : list string;
  adjacency : gmap string (list string);
  visited : gmap string bool }.

Definition NewGraph : Dag := mkDag [] ∅ ∅.

(** Reading a map of Go at a key it may lack. *)
Definition neighbors (adj : gmap string (list string)) (u : string) : list string :=
  default [] (adj !! u).
Definition marked (vis : gmap string bool) (u : string) : bool := default false (vis !! u).

Definition AddVertex (g : Dag) (u : string) : Dag * option dag_error :=
  if existsb (String.eqb u) g.(dag_nodes) then (g, Some ErrVertexExist)
  else (mkDag (g.(dag_nodes) ++ [u]) g.(adjacency) g.(visited), None).

(** The loop of [AddEdge] over the nodes: it sets its two flags, to false. *)
Fixpoint AddEdge_scan (u v : string) (isExistHead isExistTail : bool) (nodes : list string) : bool * bool :=
  match nodes with
  | [] => (isExistHead, isExistTail)
  | node :: nodes' =>
      let isExistTail := if String.eqb u node then false else isExistTail in
      let isExistHead := if String.eqb v node then false else isExistHead in
      AddEdge_scan u v isExistHead isExistTail nodes'
  end.

Definition AddEdge (g : Dag) (u v : string) : Dag * option dag_error :=
  let '(isExistHead, isExistTail) := AddEdge_scan u v false false g.(dag_nodes) in
  if negb isExistHead then (g, Some ErrVertexHeadNotExist)
  else if negb isExistTail then (g, Some ErrVertexTailNotExist)
  else if existsb (String.eqb v) (neighbors g.(adjacency) u) then (g, Some ErrEdgeExist)
  else (mkDag g.(dag_nodes) (<[u := neighbors g.(adjacency) u ++ [v]]> g.(adjacency)) g.(visited), None).

(** The loop of [hasCycle] over the neighbors of a node, given the recursive
    call; it gives [None] when that ran out of fuel. *)
Fixpoint hasCycle_loop (rec : gmap string bool -> string -> option (bool * gmap string bool))
    (vis : gmap string bool) (ns : list string) : option (bool * gmap string bool) :=
  match ns with
  | [] => Some (false, vis)
  | n :: ns' =>
      if marked vis n then Some (true, vis)
      else match rec vis n with
           | None => None
           | Some (true, vis') => Some (true, vis')
           | Some (false, vis') => hasCycle_loop rec vis' ns'
           end
  end.

Fixpoint hasCycle (fuel : nat) (adj : gmap string (list string)) (vis : gmap string bool)
    (node : string) : option (bool * gmap string bool) :=
  match fuel with
  | O => None
  | S fuel' =>
      match hasCycle_loop (hasCycle fuel' adj) (<[node := true]> vis) (neighbors adj node) with
      | Some (false, vis') => Some (false, <[node := false]> vis')
      | r => r
      end
  end.

Fixpoint Validate_loop (fuel : nat) (adj : gmap string (list string)) (vis : gmap string bool)
    (nodes : list string) : option (gmap string bool * option dag_error) :=
  match nodes with
  | [] => Some (vis, None)
  | node :: nodes' =>
      if marked vis node then Validate_loop fuel adj vis nodes'
      else match hasCycle fuel adj vis node with
           | None => None
           | Some (true, vis') => Some (vis', Some ErrCycleExist)
           | Some (false, vis') => Validate_loop fuel adj vis' nodes'
           end
  end.

Definition dag_fuel (g : Dag) : nat := S (size g.(adjacency)).

Definition Validate (g : Dag) : option (Dag * option dag_error) :=
  match Validate_loop (dag_fuel g) g.(adjacency) g.(visited) g.(dag_nodes) with
  | None => None
  | Some (vis, r) => Some (mkDag g.(dag_nodes) g.(adjacency) vis, r)
  end.

(** ** Specification *)

Definition edge (adj : gmap string (list string)) (u v : string) : Prop := v ∈ neighbors adj u.

(** A node lies on a cycle. *)
Definition cyclic (adj : gmap string (list string)) (u : string) : Prop := tc (edge adj) u u.

(** From [u] a cycle can be reached. *)
Definition reaches_cycle (adj : gmap string (list string)) (u : string) : Prop :=
  exists c, rtc (edge adj) u c /\ cyclic adj c.

(** Every path from [u] ends. *)
Definition all_paths_end (adj : gmap string (list string)) (u : string) : Prop :=
  Acc (fun y x => edge adj x y) u.

Lemma all_paths_end_acyclic adj u : all_paths_end adj u -> ~ reaches_cycle adj u.
Proof.
  intros H. induction H as [u _ IH]. intros (c & Huc & Hc).
  inversion Huc as [x|x y z Huy Hyc]; subst.
  - inversion Hc as [x y Hcc|x y z Hcy Hyc]; subst.
    + apply (IH c Hcc). exists c. split; [apply rtc_refl|done].
    + apply (IH y Hcy). exists c. split; [by apply tc_rtc|done].
  - apply (IH y Huy). by exists c.
Qed.

(** Two maps of marks that read the same. *)
Definition same_marks (v w : gmap string bool) : Prop := forall x, marked v x = marked w x.

Lemma marked_insert vis u b x : marked (<[u := b]> vis) x = if decide (x = u) then b else marked vis x.
Proof.
  unfold marked. destruct (decide (x = u)) as [->|H]; [by rewrite lookup_insert_eq|].
  by rewrite lookup_insert_ne by congruence.
Qed.

(** Nodes with edges that the path does not have. *)
Definition unmarked (adj : gmap string (list string)) (vis : gmap string bool) : gset string :=
  filter (fun x => marked vis x = false) (dom adj).

Lemma unmarked_mark adj vis u :
  neighbors adj u <> [] -> marked vis u = false ->
  size (unmarked adj (<[u := true]> vis)) < size (unmarked adj vis).
Proof.
  intros Hn Hu. apply subset_size. split.
  - intros x. unfold unmarked. rewrite !elem_of_filter, marked_insert.
    destruct (decide (x = u)); naive_solver.
  - intros Hs. assert (Hin : u ∈ unmarked adj vis).
    { apply elem_of_filter. split; [done|]. apply elem_of_dom.
      unfold neighbors in Hn. destruct (adj !! u); [by eexists|done]. }
    apply Hs, elem_of_filter in Hin as [Hin _]. rewrite marked_insert, decide_True in Hin by done.
    done.
Qed.

Lemma unmarked_same adj v w : same_marks v w -> size (unmarked adj v) = size (unmarked adj w).
Proof.
  intros H. f_equal. apply set_eq. intros x. unfold unmarked. rewrite !elem_of_filter. by rewrite H.
Qed.

(** ** The search is correct *)

(** What a search from [node] with marks [vis] gives. *)
Definition found (adj : gmap string (list string)) (vis : gmap string bool) (node : string)
    (r : option (bool * gmap string bool)) : Prop :=
  match r with
  | None => False
  | Some (true, _) => reaches_cycle adj node
  | Some (false, vis') => all_paths_end adj node /\ same_marks vis' vis
  end.

(** The marked nodes are those of a path to [node]. *)
Definition path_to (adj : gmap string (list string)) (vis : gmap string bool) (node : string) : Prop :=
  forall x, marked vis x = true -> rtc (edge adj) x node.

Lemma reaches_cycle_step adj u v : edge adj u v -> reaches_cycle adj v -> reaches_cycle adj u.
Proof. intros He (c & Hc & Hcc). exists c. split; [by eapply rtc_l|done]. Qed.

Lemma hasCycle_loop_correct adj rec vis0 node :
  path_to adj vis0 node ->
  (forall vis n, same_marks vis vis0 -> marked vis n = false -> edge adj node n ->
     found adj vis n (rec vis n)) ->
  forall ns vis, same_marks vis vis0 -> (forall n, n ∈ ns -> edge adj node n) ->
  match hasCycle_loop rec vis ns with
  | None => False
  | Some (true, _) => reaches_cycle adj node
  | Some (false, vis') => (forall n, n ∈ ns -> all_paths_end adj n) /\ same_marks vis' vis0
  end.
Proof.
  intros Hp Hrec ns. induction ns as [|n ns IH]; intros vis Hv Hns; simpl.
  - split; [|done]. intros n Hn. by apply not_elem_of_nil in Hn.
  - assert (He : edge adj node n) by (apply Hns; left).
    destruct (marked vis n) eqn:Hm.
    + rewrite Hv in Hm. exists n. split; [by apply rtc_once|].
      eapply tc_rtc_l; [exact (Hp n Hm)|]. by apply tc_once.
    + specialize (Hrec vis n Hv Hm He). unfold found in Hrec.
      destruct (rec vis n) as [[[] vis']|]; [by eapply reaches_cycle_step| |done].
      destruct Hrec as [Hn Hv'].
      assert (Hv0 : same_marks vis' vis0) by (intros x; by rewrite Hv', Hv).
      specialize (IH vis' Hv0 (fun m Hm' => Hns m (list_elem_of_further _ _ _ Hm'))).
      destruct (hasCycle_loop rec vis' ns) as [[[] vis'']|]; [done| |done].
      destruct IH as [Hall Hm'']. split; [|done].
      intros m Hmn. apply elem_of_cons in Hmn as [->|Hmn]; [done|by apply Hall].
Qed.

Lemma hasCycle_correct fuel adj vis node :
  marked vis node = false -> size (unmarked adj vis) < fuel -> path_to adj vis node ->
  found adj vis node (hasCycle fuel adj vis node).
Proof.
  revert vis node. induction fuel as [|fuel IH]; intros vis node Hm Hf Hp; [lia|].
  cbn [hasCycle]. set (vis0 := <[node := true]> vis).
  assert (Hp0 : path_to adj vis0 node).
  { intros x. unfold vis0. rewrite marked_insert. destruct (decide (x = node)) as [->|]; [done|apply Hp]. }
  assert (Hrec : forall v n, same_marks v vis0 -> marked v n = false -> edge adj node n ->
     found adj v n (hasCycle fuel adj v n)).
  { intros v n Hv Hn He. apply IH; [done| |].
    - rewrite (unmarked_same adj v vis0 Hv).
      assert (neighbors adj node <> []) as Hne.
      { intros H. unfold edge in He. rewrite H in He. by apply not_elem_of_nil in He. }
      pose proof (unmarked_mark adj vis node Hne Hm). unfold vis0. lia.
    - intros x Hx. rewrite Hv in Hx. eapply rtc_r; [exact (Hp0 x Hx)|done]. }
  pose proof (hasCycle_loop_correct adj (hasCycle fuel adj) vis0 node Hp0 Hrec
    (neighbors adj node) vis0 (fun _ => eq_refl) (fun _ H => H)) as H.
  destruct (hasCycle_loop _ _ _) as [[[] vis']|]; [done| |done].
  destruct H as [Hall Hv']. split; [by constructor|].
  intros x. rewrite marked_insert. destruct (decide (x = node)) as [->|Hx]; [done|].
  rewrite Hv'. unfold vis0. by rewrite marked_insert, decide_False.
Qed.

Lemma unmarked_size adj vis : size (unmarked adj vis) <= size adj.
Proof. rewrite <- (size_dom adj). apply subseteq_size. intros x. unfold unmarked. set_solver. Qed.

Lemma Validate_loop_correct fuel adj nodes vis :
  size adj < fuel -> (forall x, marked vis x = false) ->
  match Validate_loop fuel adj vis nodes with
  | None => False
  | Some (vis', None) => (forall n, n ∈ nodes -> all_paths_end adj n) /\ (forall x, marked vis' x = false)
  | Some (_, Some e) => e = ErrCycleExist /\ exists n, n ∈ nodes /\ reaches_cycle adj n
  end.
Proof.
  intros Hf. revert vis. induction nodes as [|n ns IH]; intros vis Hv; simpl.
  - split; [|done]. intros n Hn. by apply not_elem_of_nil in Hn.
  - rewrite Hv. pose proof (unmarked_size adj vis) as Hs.
    pose proof (hasCycle_correct fuel adj vis n (Hv n) ltac:(lia)) as H.
    unfold found in H. destruct (hasCycle fuel adj vis n) as [[[] vis']|].
    + split; [done|]. exists n. split; [left|]. apply H. intros x Hx. by rewrite Hv in Hx.
    + destruct H as [Hn Hv'].
      { intros x Hx. by rewrite Hv in Hx. }
      assert (Hc : forall x, marked vis' x = false) by (intros x; by rewrite Hv', Hv).
      specialize (IH vis' Hc). destruct (Validate_loop fuel adj vis' ns) as [[v' [e|]]|]; [| |done].
      * destruct IH as (-> & m & Hm & Hr). split; [done|]. exists m. split; [by right|done].
      * destruct IH as [Hall Hv'']. split; [|done].
        intros m Hm. apply elem_of_cons in Hm as [->|Hm]; [done|by apply Hall].
    + apply H. intros x Hx. by rewrite Hv in Hx.
Qed.

(** C40: on a graph without marks the search of [Validate] ends and is exact: it
    reports a cycle when one can be reached from a vertex of the graph, and
    otherwise reports none, every path from a vertex ends, and no mark is left,
    so that the answer stays the same when it is asked again. *)
Theorem validate_finds_cycles (g : Dag) :
  (forall x, marked g.(visited) x = false) ->
  exists g' r, Validate g = Some (g', r) /\
    (r = Some ErrCycleExist <-> exists n, n ∈ g.(dag_nodes) /\ reaches_cycle g.(adjacency) n) /\
    (r <> Some ErrCycleExist -> r = None /\ (forall n, n ∈ g.(dag_nodes) -> all_paths_end g.(adjacency) n) /\
       forall x, marked g'.(visited) x = false).
Proof.
  intros Hv. unfold Validate, dag_fuel.
  pose proof (Validate_loop_correct (S (size (adjacency g))) (adjacency g) (dag_nodes g) (visited g)
    ltac:(lia) Hv) as H.
  destruct (Validate_loop _ _ _ _) as [[vis' [e|]]|]; [| |done].
  - destruct H as [-> Hc]. eexists _, _. split; [done|]. split; [done|]. done.
  - destruct H as [Hall Hvis]. eexists _, _. split; [done|]. split; [|done].
    split; [done|]. intros (n & Hn & Hr). by apply (all_paths_end_acyclic _ _ (Hall n Hn)) in Hr.
Qed.

(** Two vertices with edges to each other are found, and not found again: the
    first search leaves its marks, by which the second skips the vertices. *)
Definition loop_graph : Dag := mkDag ["a"; "b"]%string {[ "a"%string := ["b"%string]; "b"%string := ["a"%string] ]} ∅.

Lemma validate_finds_cycles_witness :
  (exists g' r, Validate loop_graph = Some (g', r) /\ r = Some ErrCycleExist) /\
  (exists g', Validate loop_graph = Some (g', Some ErrCycleExist) /\
     option_map snd (Validate g') = Some None).
Proof.
  split.
  - destruct (validate_finds_cycles loop_graph) as (g' & r & Hr & _ & _); [by intros x|].
    exists g', r. split; [exact Hr|]. vm_compute in Hr. injection Hr as _ <-. reflexivity.
  - eexists. split; reflexivity.
Defined.

(** ** What a client of the package sees *)

Inductive dag_op := OpVertex (u : string) | OpEdge (u v : string).

Definition dag_step (g : Dag) (op : dag_op) : Dag * option dag_error :=
  match op with OpVertex u => AddVertex g u | OpEdge u v => AddEdge g u v end.

Definition dag_run (ops : list dag_op) : Dag := fold_left (fun g op => fst (dag_step g op)) ops NewGraph.

Lemma AddEdge_scan_false u v nodes : AddEdge_scan u v false false nodes = (false, false).
Proof. induction nodes as [|n ns IH]; simpl; [done|]. by destruct (String.eqb u n), (String.eqb v n). Qed.

Lemma AddEdge_refuses g u v : AddEdge g u v = (g, Some ErrVertexHeadNotExist).
Proof. unfold AddEdge. by rewrite AddEdge_scan_false. Qed.

Lemma AddVertex_keeps g u :
  NoDup g.(dag_nodes) ->
  NoDup (fst (AddVertex g u)).(dag_nodes) /\ (fst (AddVertex g u)).(adjacency) = g.(adjacency) /\
  (fst (AddVertex g u)).(visited) = g.(visited).
Proof.
  intros H. unfold AddVertex. destruct (existsb _ _) eqn:He; [done|]. simpl. split; [|done].
  apply NoDup_app. split; [done|]. split; [|by apply NoDup_singleton].
  intros x Hx Hu. apply list_elem_of_singleton in Hu as ->.
  assert (existsb (String.eqb u) (dag_nodes g) = true) as Ht; [|congruence].
  apply existsb_exists. exists u. split; [by apply list_elem_of_In|apply String.eqb_refl].
Qed.

Lemma dag_run_edgeless ops :
  NoDup (dag_run ops).(dag_nodes) /\ (dag_run ops).(adjacency) = ∅ /\ (dag_run ops).(visited) = ∅.
Proof.
  unfold dag_run. set (P g := NoDup (dag_nodes g) /\ adjacency g = ∅ /\ visited g = ∅).
  assert (H : forall g, P g -> P (fold_left (fun g op => fst (dag_step g op)) ops g)).
  { induction ops as [|op ops IH]; intros g Hg; [done|]. simpl. apply IH.
    destruct op as [u|u v]; simpl; [|by rewrite AddEdge_refuses].
    destruct Hg as (Hn & Ha & Hv), (AddVertex_keeps g u Hn) as (Hn' & Ha' & Hv').
    split; [done|]. by rewrite Ha', Hv'. }
  apply H. split; [apply NoDup_nil_2|done].
Qed.

(** The flags [AddEdge] tests are never set, so that whatever vertices were
    added it refuses every edge, also one between two vertices of the graph, and
    [Validate] reports that a graph has no cycle whatever edges were asked for. *)
Theorem edges_are_refused (ops : list dag_op) (u v : string) :
  AddEdge (dag_run ops) u v = (dag_run ops, Some ErrVertexHeadNotExist) /\
  option_map snd (Validate (dag_run ops)) = Some None.
Proof.
  split; [apply AddEdge_refuses|]. destruct (dag_run_edgeless ops) as (_ & Ha & Hv).
  pose proof (Validate_loop_correct (dag_fuel (dag_run ops)) (adjacency (dag_run ops))
    (dag_nodes (dag_run ops)) (visited (dag_run ops)) ltac:(unfold dag_fuel; lia)) as H.
  unfold Validate. destruct (Validate_loop _ _ _ _) as [[vis' [e|]]|].
  - destruct H as (-> & n & _ & c & _ & Hc); [by intros x; rewrite Hv|].
    rewrite Ha in Hc. exfalso. inversion Hc as [x y He|x y z He]; subst;
      unfold edge, neighbors in He; rewrite lookup_empty in He; by apply not_elem_of_nil in He.
  - done.
  - by destruct H; intros x; rewrite Hv.
Qed.
