(* ===== verification/MemStream.v ===== *)
(** [server/deliverer/internal/recovery/sync.go]: the synchroniser that can hold
    back the publications of a channel while a subscription to it is set up.
    [pubBufferMu] is a mutex that stays locked from [LockBufferAndReadBuffered]
    to [StopBuffering]; a call that finds it locked waits, which is the result
    [Blocked].  Calls are atomic: each publication is appended, or passed on,
    within the locks the code takes.

    [server/deliverer/internal/memstream/stream.go]: the stream that keeps the
    newest values of a channel with their offsets.  The elements of the linked
    list are cells with an identity, so that [index] holds the very cells the
    list holds; offsets are [uint64] and wrap. *)

From S2P Require Import Prelude.

Section Recovery.
Context {Pub : Type}.

Record subscribeState := mkSubState {
  inSubscribe : bool;
  pubBufferMu : bool;
  pubBufferLocked : bool;
  pubBuffer : list Pub }.

Abbreviation PubSubSync := (gmap string subscribeState).

Definition NewPubSubSync : PubSubSync := ∅.

(** [StopBuffering]: unlocking a mutex that is not locked is fatal in Go. *)
Definition StopBuffering (channel : string) (c : PubSubSync) : outcome Empty_set PubSubSync :=
  match c !! channel with
  | None => Ok c
  | Some s =>
      if s.(pubBufferLocked) && negb s.(pubBufferMu)
      then Panic (ExplicitPanic "sync: unlock of unlocked mutex")
      else Ok (delete channel c)
  end.

Definition StartBuffering (channel : string) (c : PubSubSync) : PubSubSync :=
  <[channel := mkSubState true false false []]> c.

Inductive buffer_read :=
| Nothing
| ReadBlocked
| Buffered (pubs : list Pub).

(** [LockBufferAndReadBuffered]: the flag is set before the mutex is waited
    for, the buffer is emptied under it. *)
Definition LockBufferAndReadBuffered (channel : string) (c : PubSubSync) : PubSubSync * buffer_read :=
  match c !! channel with
  | None => (c, Nothing)
  | Some s =>
      if s.(pubBufferMu)
      then (<[channel := mkSubState s.(inSubscribe) true true s.(pubBuffer)]> c, ReadBlocked)
      else (<[channel := mkSubState s.(inSubscribe) true true []]> c, Buffered s.(pubBuffer))
  end.

(** Whether [SyncPublication] calls [syncedFn], buffers, or waits. *)
Inductive sync_result := SyncedFn | Kept | Blocked.

Definition SyncPublication (channel : string) (pub : Pub) (c : PubSubSync) : PubSubSync * sync_result :=
  match c !! channel with
  | None => (c, SyncedFn)
  | Some s =>
      if s.(inSubscribe) then
        if s.(pubBufferMu) then (c, Blocked)
        else (<[channel := mkSubState s.(inSubscribe) false s.(pubBufferLocked) (s.(pubBuffer) ++ [pub])]> c, Kept)
      else (c, SyncedFn)
  end.

(** Publications arriving one after another, and what becomes of each. *)
Fixpoint sync_all (channel : string) (pubs : list Pub) (c : PubSubSync) : PubSubSync * list sync_result :=
  match pubs with
  | [] => (c, [])
  | p :: pubs' =>
      let '(c, r) := SyncPublication channel p c in
      let '(c, rs) := sync_all channel pubs' c in (c, r :: rs)
  end.

Lemma sync_all_open channel pubs c :
  c !! channel = None -> sync_all channel pubs c = (c, replicate (length pubs) SyncedFn).
Proof.
  intros H. induction pubs as [|p pubs IH]; [done|]. simpl. unfold SyncPublication. by rewrite H, IH.
Qed.

Lemma sync_all_buffers channel pubs c b l :
  c !! channel = Some (mkSubState true false b l) ->
  sync_all channel pubs c =
    (<[channel := mkSubState true false b (l ++ pubs)]> c, replicate (length pubs) Kept).
Proof.
  revert c l. induction pubs as [|p pubs IH]; intros c l H; simpl.
  - by rewrite app_nil_r, insert_id.
  - unfold SyncPublication. rewrite H. simpl.
    rewrite (IH _ (l ++ [p])) by by rewrite lookup_insert_eq.
    by rewrite insert_insert_eq, <- app_assoc.
Qed.

Lemma sync_all_blocked channel pubs c b l :
  c !! channel = Some (mkSubState true true b l) ->
  sync_all channel pubs c = (c, replicate (length pubs) Blocked).
Proof.
  intros H. induction pubs as [|p pubs IH]; [done|]. simpl. unfold SyncPublication. rewrite H. simpl.
  by rewrite IH.
Qed.

(** A subscription that starts buffering, reads the buffer and stops loses and
    reorders nothing: the publications that come before the read are read in
    their order, those that come between the read and the end wait, and those
    after it are passed on; other channels are not affected. *)
Theorem buffering_session (channel : string) (c : PubSubSync) (before during after : list Pub) :
  let c1 := StartBuffering channel c in
  let '(c2, r_before) := sync_all channel before c1 in
  let '(c3, r_read) := LockBufferAndReadBuffered channel c2 in
  let '(c4, r_during) := sync_all channel during c3 in
  r_before = replicate (length before) Kept /\ r_read = Buffered before /\
  r_during = replicate (length during) Blocked /\
  exists c5, StopBuffering channel c4 = Ok c5 /\ c5 = delete channel c /\
    sync_all channel (during ++ after) c5 = (c5, replicate (length (during ++ after)) SyncedFn).
Proof.
  simpl. unfold StartBuffering.
  rewrite (sync_all_buffers channel before _ false []) by by rewrite lookup_insert_eq.
  rewrite insert_insert_eq. unfold LockBufferAndReadBuffered. rewrite lookup_insert_eq. simpl.
  rewrite insert_insert_eq.
  rewrite (sync_all_blocked channel during _ true []) by by rewrite lookup_insert_eq.
  split; [done|]. split; [done|]. split; [done|].
  unfold StopBuffering. rewrite lookup_insert_eq. simpl. eexists. split; [done|].
  rewrite delete_insert_eq. split; [done|]. apply sync_all_open, lookup_delete_eq.
Qed.

End Recovery.
Arguments subscribeState : clear implicits.

#[local] Open Scope Z_scope.

Section MemStream.
Context {V : Type}.

Record StreamItem := mkStreamItem { Offset : Z; Value : V }.

(** A [list.Element]: its address and its value. *)
Record Element := mkElement { el_addr : nat; el_Value : StreamItem }.

(** [s_next] is the next free address of the heap. *)
Record Stream := mkStream {
  s_top : Z;
  s_list : list Element;
  s_index : gmap Z Element;
  s_epoch : string;
  s_next : nat }.

(** [New]; the epoch is a random string. *)
Definition Stream_New (epoch : string) : Stream := mkStream 0 [] ∅ epoch 0.

(** The cells [e.Next()], [e.Next().Next()], ... of a cell of the list; those
    [Prev] gives are the same of the reversed list.  A cell that is not in the
    list has no successor. *)
Fixpoint elems_after (e : Element) (l : list Element) : list Element :=
  match l with
  | [] => []
  | x :: l' => if decide (el_addr x = el_addr e) then l' else elems_after e l'
  end.

(** The loop of [Get] over the cells that follow; [i] counts the results. *)
Fixpoint Get_loop (limit i : Z) (es : list Element) : list StreamItem :=
  match es with
  | [] => []
  | e :: es' =>
      if (0 <=? limit) && (limit <=? i) then []
      else el_Value e :: Get_loop limit (i + 1) es'
  end.

(** [Get]: where it starts, and what it collects from there. *)
Definition Get_start (s : Stream) (offset : Z) (useOffset reverse : bool) : option Element :=
  if useOffset then
    match s.(s_index) !! offset with
    | Some el => Some el
    | None => if reverse then None else head s.(s_list)
    end
  else if reverse then last s.(s_list) else head s.(s_list).

Definition Stream_Get (s : Stream) (offset : Z) (useOffset : bool) (limit : Z) (rev : bool) :
    list StreamItem * Z :=
  if useOffset && (wrap_u64 (s.(s_top) + 1) <=? offset) then ([], s.(s_top))
  else
    match Get_start s offset useOffset rev with
    | None => ([], s.(s_top))
    | Some el =>
        if limit =? 0 then ([], s.(s_top))
        else
          let rest := if rev then elems_after el (reverse s.(s_list))
                      else elems_after el s.(s_list) in
          (el_Value el :: Get_loop limit 1 rest, s.(s_top))
    end.

(** The loop of [Add] that removes the front until at most [size] are left:
    [Front] of an empty list is nil, and its value is read. *)
Fixpoint Add_trim (size : Z) (l : list Element) (index : gmap Z Element) :
    outcome Empty_set (list Element * gmap Z Element) :=
  if size <? Z.of_nat (length l) then
    match l with
    | [] => Panic NilDereference
    | el :: l' => Add_trim size l' (delete (Offset (el_Value el)) index)
    end
  else Ok (l, index).

Definition Stream_Add (s : Stream) (v : V) (size : Z) : outcome Empty_set (Stream * Z) :=
  let top := wrap_u64 (s.(s_top) + 1) in
  let el := mkElement s.(s_next) (mkStreamItem top v) in
  match Add_trim size (s.(s_list) ++ [el]) (<[top := el]> s.(s_index)) with
  | Ok (l, index) => Ok (mkStream top l index s.(s_epoch) (S s.(s_next)), top)
  | Err e => Err e
  | Panic p => Panic p
  end.

Definition Stream_Clear (s : Stream) : Stream := mkStream s.(s_top) [] ∅ s.(s_epoch) s.(s_next).

Definition Stream_Top (s : Stream) : Z := s.(s_top).

Definition Stream_Epoch (s : Stream) : string := s.(s_epoch).

(** ** Runs *)

Inductive stream_op :=
| OpAdd (v : V) (size : Z)
| OpClear
| OpGet (offset : Z) (useOffset : bool) (limit : Z) (rev : bool).

(** What a call gives back: the offset of the new item, or what was read. *)
Inductive stream_out :=
| OutAdded (offset : Z)
| OutCleared
| OutGot (items : list StreamItem) (top : Z).

Definition stream_step (s : Stream) (op : stream_op) : outcome Empty_set (Stream * stream_out) :=
  match op with
  | OpAdd v size =>
      match Stream_Add s v size with
      | Ok (s', o) => Ok (s', OutAdded o)
      | Err e => Err e
      | Panic p => Panic p
      end
  | OpClear => Ok (Stream_Clear s, OutCleared)
  | OpGet o u l r => let '(items, top) := Stream_Get s o u l r in Ok (s, OutGot items top)
  end.

(** The outputs of a run, and [None] in the place of the call that panics. *)
Fixpoint stream_run (s : Stream) (ops : list stream_op) : list (option stream_out) :=
  match ops with
  | [] => []
  | op :: ops' =>
      match stream_step s op with
      | Ok (s', out) => Some out :: stream_run s' ops'
      | _ => [None]
      end
  end.

(** ** The abstract stream: all values ever added, of which the first [forgot]
    are gone *)

Record Log := mkLog { values : list V; forgot : nat }.

Definition items (vs : list V) : list StreamItem :=
  imap (fun i v => mkStreamItem (Z.of_nat i + 1) v) vs.

Definition kept (a : Log) : list StreamItem := drop a.(forgot) (items a.(values)).

Definition limited {A} (limit : Z) (l : list A) : list A :=
  if limit <? 0 then l else take (Z.to_nat limit) l.

(** Forwards, the items from an offset on; backwards, those up to it. *)
Definition log_get (a : Log) (offset : Z) (useOffset : bool) (limit : Z) (rev : bool) :
    list StreamItem :=
  if negb useOffset then limited limit (if rev then reverse (kept a) else kept a)
  else if Z.of_nat (length a.(values)) <? offset then []
  else if rev then limited limit (reverse (filter (fun it => Offset it <= offset) (kept a)))
  else limited limit (filter (fun it => offset <= Offset it) (kept a)).

Definition log_step (a : Log) (op : stream_op) : option (Log * stream_out) :=
  match op with
  | OpAdd v size =>
      let n := S (length a.(values)) in
      if size <? 0 then None
      else Some (mkLog (a.(values) ++ [v]) (a.(forgot) `max` (n - Z.to_nat size)), OutAdded (Z.of_nat n))
  | OpClear => Some (mkLog a.(values) (length a.(values)), OutCleared)
  | OpGet o u l r => Some (a, OutGot (log_get a o u l r) (Z.of_nat (length a.(values))))
  end.

Fixpoint log_run (a : Log) (ops : list stream_op) : list (option stream_out) :=
  match ops with
  | [] => []
  | op :: ops' =>
      match log_step a op with
      | Some (a', out) => Some out :: log_run a' ops'
      | None => [None]
      end
  end.

(** ** Refinement *)

(** The cells of all values: the [i]-th was allocated at [i]. *)
Definition cells (vs : list V) : list Element :=
  imap (fun i v => mkElement i (mkStreamItem (Z.of_nat i + 1) v)) vs.

Record represents (s : Stream) (a : Log) : Prop := {
  rep_forgot : (a.(forgot) <= length a.(values))%nat;
  rep_top : s.(s_top) = Z.of_nat (length a.(values));
  rep_next : s.(s_next) = length a.(values);
  rep_list : s.(s_list) = drop a.(forgot) (cells a.(values));
  rep_index : forall o, s.(s_index) !! o =
    if decide (Z.of_nat a.(forgot) < o) then cells a.(values) !! Z.to_nat (o - 1) else None }.

Lemma length_cells vs : length (cells vs) = length vs.
Proof. apply length_imap. Qed.

Lemma cells_lookup vs i e :
  cells vs !! i = Some e -> el_addr e = i /\ Offset (el_Value e) = Z.of_nat i + 1.
Proof.
  unfold cells. rewrite list_lookup_imap. destruct (vs !! i); [|done].
  intros [= <-]. done.
Qed.

Lemma cells_snoc vs v :
  cells (vs ++ [v]) =
  cells vs ++ [mkElement (length vs) (mkStreamItem (Z.of_nat (length vs) + 1) v)].
Proof. unfold cells. rewrite imap_app. simpl. by rewrite Nat.add_0_r. Qed.

Lemma items_cells vs : el_Value <$> cells vs = items vs.
Proof. unfold cells, items. rewrite fmap_imap. done. Qed.

Lemma elems_after_lookup l i e :
  l !! i = Some e -> (forall j x, (j < i)%nat -> l !! j = Some x -> el_addr x <> el_addr e) ->
  elems_after e l = drop (S i) l.
Proof.
  revert i. induction l as [|x l IH]; intros i Hi Hu; [done|].
  destruct i as [|i]; simpl in *.
  - injection Hi as <-. by rewrite decide_True.
  - rewrite decide_False; [|exact (Hu 0%nat x ltac:(lia) eq_refl)].
    apply IH; [done|]. intros j y Hj Hy. apply (Hu (S j) y); [lia|done].
Qed.

Lemma Get_loop_limited limit i es :
  0 < i -> Get_loop limit i es =
  if limit <? 0 then el_Value <$> es else take (Z.to_nat (limit - i)) (el_Value <$> es).
Proof.
  revert i. induction es as [|e es IH]; intros i Hi; simpl.
  - destruct (limit <? 0); [done|]. by rewrite take_nil.
  - rewrite IH by lia.
    destruct (Z.ltb_spec limit 0), (Z.leb_spec 0 limit), (Z.leb_spec limit i); simpl; try lia; try done.
    + by replace (Z.to_nat (limit - i)) with 0%nat by lia.
    + by replace (Z.to_nat (limit - i)) with (S (Z.to_nat (limit - (i + 1)))) by lia.
Qed.

(** What [Get] collects from a cell on. *)
Lemma Get_from limit e es :
  limit <> 0 -> el_Value e :: Get_loop limit 1 es = limited limit (el_Value <$> e :: es).
Proof.
  intros Hl. rewrite Get_loop_limited by lia. unfold limited.
  destruct (Z.ltb_spec limit 0); [done|].
  by replace (Z.to_nat limit) with (S (Z.to_nat (limit - 1))) by lia.
Qed.

Lemma limited_zero {A} (l : list A) : limited 0 l = [].
Proof. done. Qed.

Lemma limited_nil {A} limit : limited limit (@nil A) = [].
Proof. unfold limited. destruct (limit <? 0); [done|apply take_nil]. Qed.

(** Items with consecutive offsets are cut, not filtered. *)
Lemma filter_from l base o :
  (forall i it, l !! i = Some it -> Offset it = base + Z.of_nat i) ->
  filter (fun it => o <= Offset it) l = drop (Z.to_nat (o - base)) l.
Proof.
  revert base. induction l as [|x l IH]; intros base H; [by rewrite drop_nil|].
  assert (Hx : Offset x = base) by (rewrite (H 0%nat x eq_refl); lia).
  rewrite filter_cons, (IH (base + 1)).
  2:{ intros i it Hi. rewrite (H (S i) it Hi). lia. }
  destruct (decide (o <= Offset x)).
  - replace (Z.to_nat (o - base)) with 0%nat by lia.
    by replace (Z.to_nat (o - (base + 1))) with 0%nat by lia.
  - by replace (Z.to_nat (o - base)) with (S (Z.to_nat (o - (base + 1)))) by lia.
Qed.

Lemma filter_upto l base o :
  (forall i it, l !! i = Some it -> Offset it = base + Z.of_nat i) ->
  filter (fun it => Offset it <= o) l = take (Z.to_nat (o - base + 1)) l.
Proof.
  revert base. induction l as [|x l IH]; intros base H; [by rewrite take_nil|].
  assert (Hx : Offset x = base) by (rewrite (H 0%nat x eq_refl); lia).
  rewrite filter_cons, (IH (base + 1)).
  2:{ intros i it Hi. rewrite (H (S i) it Hi). lia. }
  destruct (decide (Offset x <= o)).
  - by replace (Z.to_nat (o - base + 1)) with (S (Z.to_nat (o - (base + 1) + 1))) by lia.
  - replace (Z.to_nat (o - base + 1)) with 0%nat by lia.
    by replace (Z.to_nat (o - (base + 1) + 1)) with 0%nat by lia.
Qed.

Lemma kept_offset a i it :
  kept a !! i = Some it -> Offset it = (Z.of_nat a.(forgot) + 1) + Z.of_nat i.
Proof.
  unfold kept. rewrite lookup_drop. rewrite <- items_cells, list_lookup_fmap.
  destruct (cells _ !! _) as [e|] eqn:He; [|done]. intros [= <-].
  apply cells_lookup in He as [_ ->]. lia.
Qed.

Lemma kept_cells a : kept a = el_Value <$> drop a.(forgot) (cells a.(values)).
Proof. unfold kept. by rewrite fmap_drop, items_cells. Qed.

(** ** Add and Clear *)

Definition indexed (index : gmap Z Element) (n : nat) (vs : list V) : Prop :=
  forall o, index !! o =
    if decide (Z.of_nat n < o) then cells vs !! Z.to_nat (o - 1) else None.

Lemma indexed_delete index n vs e :
  indexed index n vs -> cells vs !! n = Some e ->
  indexed (delete (Offset (el_Value e)) index) (S n) vs.
Proof.
  intros H He o. apply cells_lookup in He as [_ ->].
  destruct (decide (o = Z.of_nat n + 1)) as [->|Ho].
  - rewrite lookup_delete_eq, decide_False by lia. done.
  - rewrite lookup_delete_ne by done. rewrite (H o).
    destruct (decide (Z.of_nat n < o)), (decide (Z.of_nat (S n) < o)); done || lia.
Qed.

Lemma indexed_insert index n vs v :
  indexed index n vs -> (n <= length vs)%nat ->
  indexed (<[Z.of_nat (length vs) + 1 :=
             mkElement (length vs) (mkStreamItem (Z.of_nat (length vs) + 1) v)]> index)
    n (vs ++ [v]).
Proof.
  intros H Hn o. rewrite cells_snoc.
  destruct (decide (o = Z.of_nat (length vs) + 1)) as [->|Ho].
  - rewrite lookup_insert_eq, decide_True by lia.
    replace (Z.to_nat _) with (length (cells vs)) by (rewrite length_cells; lia).
    by rewrite list_lookup_middle.
  - rewrite lookup_insert_ne by done. rewrite (H o). destruct (decide _); [|done].
    destruct (decide (o <= Z.of_nat (length vs))).
    + rewrite lookup_app_l; [done|]. rewrite length_cells. lia.
    + rewrite (lookup_ge_None_2 (cells vs)) by (rewrite length_cells; lia).
      rewrite lookup_ge_None_2; [done|]. rewrite length_app, length_cells. simpl. lia.
Qed.

Lemma Add_trim_keeps size n vs index :
  0 <= size -> (n <= length vs)%nat -> indexed index n vs ->
  exists index', Add_trim size (drop n (cells vs)) index =
      Ok (drop (n `max` (length vs - Z.to_nat size)) (cells vs), index') /\
    indexed index' (n `max` (length vs - Z.to_nat size)) vs.
Proof.
  intros Hs Hn. remember (length vs - n)%nat as k eqn:Hk.
  revert n index Hn Hk. induction k as [|k IH]; intros n index Hn Hk Hi.
  - rewrite Nat.max_l by lia. rewrite drop_ge by (rewrite length_cells; lia).
    exists index. simpl. destruct (Z.ltb_spec size (Z.of_nat 0)); [lia|done].
  - destruct (lookup_lt_is_Some_2 (cells vs) n) as [e He]; [rewrite length_cells; lia|].
    rewrite (drop_S (cells vs) e n He). cbn [Add_trim].
    assert (Hlen : length (e :: drop (S n) (cells vs)) = (length vs - n)%nat).
    { rewrite <- (drop_S (cells vs) e n He), length_drop, length_cells. done. }
    rewrite Hlen. destruct (Z.ltb_spec size (Z.of_nat (length vs - n))).
    + destruct (IH (S n) _ ltac:(lia) ltac:(lia) (indexed_delete _ _ _ _ Hi He)) as (i' & -> & Hi').
      exists i'. replace (n `max` (length vs - Z.to_nat size))%nat
        with (S n `max` (length vs - Z.to_nat size))%nat by lia. done.
    + exists index. rewrite Nat.max_l by lia. by rewrite (drop_S (cells vs) e n He).
Qed.

Lemma Add_trim_negative size l index : size < 0 -> Add_trim size l index = Panic NilDereference.
Proof.
  intros Hs. revert index. induction l as [|x l IH]; intros index; simpl.
  - destruct (Z.ltb_spec size (Z.of_nat 0)); [done|lia].
  - destruct (Z.ltb_spec size (Z.of_nat (S (length l)))); [apply IH|lia].
Qed.

Lemma Stream_Add_refines s a v size :
  represents s a -> Z.of_nat (length a.(values)) + 1 < 2 ^ 64 ->
  match log_step a (OpAdd v size), stream_step s (OpAdd v size) with
  | Some (a', out), Ok (s', out') => out = out' /\ represents s' a'
  | None, Panic NilDereference => True
  | _, _ => False
  end.
Proof.
  intros [Hf Ht Hn Hl Hi] Hb. simpl. unfold Stream_Add.
  rewrite Ht, wrap_u64_small by lia. rewrite Hl, Hn.
  assert (Hc : drop (forgot a) (cells (values a)) ++
     [mkElement (length (values a)) (mkStreamItem (Z.of_nat (length (values a)) + 1) v)] =
     drop (forgot a) (cells (values a ++ [v]))).
  { rewrite cells_snoc, drop_app_le; [done|]. by rewrite length_cells. }
  rewrite Hc. destruct (Z.ltb_spec size 0); [by rewrite Add_trim_negative|].
  destruct (Add_trim_keeps size (forgot a) (values a ++ [v]) _ ltac:(lia)
      ltac:(rewrite length_app; simpl; lia) (indexed_insert _ _ _ v Hi Hf)) as (i' & -> & Hi').
  rewrite length_app in Hi' |- *. simpl in *. rewrite Nat.add_1_r in Hi' |- *.
  split; [f_equal; lia|]. split; simpl; rewrite ?length_app; simpl; auto with lia.
Qed.

Lemma Stream_Clear_refines s a :
  represents s a -> represents (Stream_Clear s) (mkLog a.(values) (length a.(values))).
Proof.
  intros [Hf Ht Hn Hl Hi]. split; simpl; try done.
  - by rewrite drop_ge by by rewrite length_cells.
  - intros o. rewrite lookup_empty. destruct (decide _); [|done].
    rewrite lookup_ge_None_2; [done|]. rewrite length_cells. lia.
Qed.

(** ** Get *)

Lemma cells_address_unique vs n i e :
  drop n (cells vs) !! i = Some e ->
  forall j x, (j < i)%nat -> drop n (cells vs) !! j = Some x -> el_addr x <> el_addr e.
Proof.
  rewrite lookup_drop. intros He j x Hj. rewrite lookup_drop. intros Hx.
  apply cells_lookup in He as [-> _]. apply cells_lookup in Hx as [-> _]. lia.
Qed.

Lemma reverse_address_unique vs n i e :
  reverse (drop n (cells vs)) !! i = Some e ->
  forall j x, (j < i)%nat -> reverse (drop n (cells vs)) !! j = Some x -> el_addr x <> el_addr e.
Proof.
  intros He j x Hj Hx. pose proof (lookup_lt_Some _ _ _ He) as Hl. rewrite length_reverse in Hl.
  rewrite reverse_lookup in He, Hx by lia. rewrite lookup_drop in He, Hx.
  apply cells_lookup in He as [-> _]. apply cells_lookup in Hx as [-> _].
  lia.
Qed.

(** A read that starts at the [i]-th of the kept cells, in either direction. *)
Lemma Get_at (l : list Element) limit i e :
  limit <> 0 -> l !! i = Some e ->
  (forall j x, (j < i)%nat -> l !! j = Some x -> el_addr x <> el_addr e) ->
  el_Value e :: Get_loop limit 1 (elems_after e l) = limited limit (drop i (el_Value <$> l)).
Proof.
  intros Hl He Hu. rewrite (elems_after_lookup l i e He Hu), Get_from by done.
  by rewrite <- (drop_S l e i He), fmap_drop.
Qed.

Lemma kept_filter_from a o :
  filter (fun it => o <= Offset it) (kept a) = drop (Z.to_nat (o - (Z.of_nat a.(forgot) + 1))) (kept a).
Proof. apply filter_from. intros i it. apply kept_offset. Qed.

Lemma kept_filter_upto a o :
  filter (fun it => Offset it <= o) (kept a) = take (Z.to_nat (o - Z.of_nat a.(forgot))) (kept a).
Proof.
  rewrite (filter_upto _ (Z.of_nat a.(forgot) + 1)); [f_equal; lia|].
  intros i it. apply kept_offset.
Qed.

(** A read from either end of the kept cells. *)
Lemma Get_from_end (l : list Element) (limit top : Z) e :
  head l = Some e ->
  (if limit =? 0 then ([], top) else (el_Value e :: Get_loop limit 1 (elems_after e l), top)) =
  (limited limit (el_Value <$> l), top).
Proof.
  intros He. destruct (Z.eqb_spec limit 0) as [->|]; [by rewrite limited_zero|].
  destruct l as [|x l]; [done|]. injection He as ->.
  by rewrite (Get_at (e :: l) limit 0 e) by (done || lia).
Qed.

Lemma Get_unpositioned s a o limit r :
  represents s a -> Stream_Get s o false limit r = (log_get a o false limit r, s.(s_top)).
Proof.
  intros [Hf Ht Hn Hl Hi]. unfold Stream_Get, log_get, Get_start. simpl.
  rewrite kept_cells, <- Hl. destruct r.
  - rewrite <- head_reverse. destruct (head (reverse (s_list s))) as [e|] eqn:He.
    + rewrite (Get_from_end _ _ _ _ He). by rewrite fmap_reverse.
    + destruct (reverse (s_list s)) eqn:Hr; [|done].
      apply (f_equal reverse) in Hr. rewrite reverse_involutive in Hr. rewrite Hr.
      cbn. by rewrite limited_nil.
  - destruct (head (s_list s)) as [e|] eqn:He.
    + by rewrite (Get_from_end _ _ _ _ He).
    + destruct (s_list s); [|done]. cbn. by rewrite limited_nil.
Qed.

(** A read at an offset that is still kept. *)
Lemma Get_kept s a o limit r :
  represents s a -> Z.of_nat a.(forgot) < o <= Z.of_nat (length a.(values)) ->
  Z.of_nat (length a.(values)) + 1 < 2 ^ 64 ->
  Stream_Get s o true limit r = (log_get a o true limit r, s.(s_top)).
Proof.
  intros [Hf Ht Hn Hl Hi] Ho Hb. unfold Stream_Get, log_get, Get_start.
  rewrite Ht, wrap_u64_small by lia. rewrite Hi, decide_True by lia.
  destruct (lookup_lt_is_Some_2 (cells (values a)) (Z.to_nat (o - 1))) as [e He];
    [rewrite length_cells; lia|].
  rewrite He. simpl. destruct (Z.leb_spec (Z.of_nat (length (values a)) + 1) o); [lia|].
  destruct (Z.ltb_spec (Z.of_nat (length (values a))) o); [lia|].
  destruct (Z.eqb_spec limit 0) as [->|Hlim]; [destruct r; by rewrite limited_zero|].
  assert (Hpos : s_list s !! Z.to_nat (o - 1 - Z.of_nat (forgot a)) = Some e).
  { rewrite Hl, lookup_drop, <- He. f_equal. lia. }
  assert (Hlen : length (s_list s) = (length (values a) - forgot a)%nat)
    by (rewrite Hl, length_drop, length_cells; done).
  destruct r.
  - rewrite (Get_at (reverse (s_list s)) limit (length (values a) - Z.to_nat o) e Hlim).
    + rewrite kept_filter_upto, kept_cells, <- Hl, fmap_reverse, reverse_take, length_fmap, Hlen.
      do 3 f_equal; lia.
    + rewrite reverse_lookup by lia. rewrite Hlen, <- Hpos. f_equal. lia.
    + rewrite Hl. apply reverse_address_unique. rewrite <- Hl.
      rewrite reverse_lookup by lia. rewrite Hlen, <- Hpos. f_equal. lia.
  - rewrite (Get_at (s_list s) limit _ e Hlim Hpos).
    + rewrite kept_filter_from, kept_cells, <- Hl. do 3 f_equal; lia.
    + rewrite Hl in Hpos |- *. exact (cells_address_unique _ _ _ _ Hpos).
Qed.

(** A read at an offset that is forgotten. *)
Lemma Get_forgotten s a o limit r :
  represents s a -> 0 <= o <= Z.of_nat a.(forgot) ->
  Z.of_nat (length a.(values)) + 1 < 2 ^ 64 ->
  Stream_Get s o true limit r = (log_get a o true limit r, s.(s_top)).
Proof.
  intros H Ho Hb. destruct H as [Hf Ht Hn Hl Hi]. unfold Stream_Get, log_get, Get_start.
  rewrite Ht, wrap_u64_small by lia. rewrite Hi, decide_False by lia. simpl.
  destruct (Z.leb_spec (Z.of_nat (length (values a)) + 1) o); [lia|].
  destruct (Z.ltb_spec (Z.of_nat (length (values a))) o); [lia|].
  rewrite kept_filter_upto, kept_filter_from, kept_cells, <- Hl.
  replace (Z.to_nat (o - Z.of_nat (forgot a))) with 0%nat by lia.
  replace (Z.to_nat (o - (Z.of_nat (forgot a) + 1))) with 0%nat by lia.
  destruct r; [rewrite take_0, reverse_nil, limited_nil; done|].
  destruct (head (s_list s)) as [e|] eqn:He.
  - by rewrite (Get_from_end _ _ _ _ He).
  - destruct (s_list s); [|done]. cbn. by rewrite limited_nil.
Qed.

Lemma Stream_Get_refines s a o u limit r :
  represents s a -> 0 <= o -> Z.of_nat (length a.(values)) + 1 < 2 ^ 64 ->
  Stream_Get s o u limit r = (log_get a o u limit r, Z.of_nat (length a.(values))).
Proof.
  intros H Ho Hb. rewrite <- (rep_top _ _ H). destruct u; [|by apply Get_unpositioned].
  destruct (decide (Z.of_nat (length a.(values)) < o)).
  - unfold Stream_Get, log_get. rewrite (rep_top _ _ H), wrap_u64_small by lia. simpl.
    destruct (Z.leb_spec (Z.of_nat (length (values a)) + 1) o); [|lia].
    destruct (Z.ltb_spec (Z.of_nat (length (values a))) o); [done|lia].
  - destruct (decide (o <= Z.of_nat a.(forgot))).
    + apply Get_forgotten; [done|lia|done].
    + apply Get_kept; [done|lia|done].
Qed.

(** ** Runs refine *)

Definition op_ok (op : stream_op) : Prop :=
  match op with OpGet o _ _ _ => 0 <= o | _ => True end.

Lemma log_represents_new epoch : represents (Stream_New epoch) (mkLog [] 0).
Proof. split; try done. intros o. simpl. by destruct (decide _). Qed.

Lemma stream_run_refines ops s a :
  Forall op_ok ops -> represents s a ->
  Z.of_nat (length a.(values) + length ops) + 1 < 2 ^ 64 ->
  stream_run s ops = log_run a ops.
Proof.
  revert s a. induction ops as [|op ops IH]; intros s a Hok H Hb; [done|].
  apply Forall_cons in Hok as [Hop Hok]. simpl in Hb. cbn [stream_run log_run].
  destruct op as [v size| |o u l r].
  - pose proof (Stream_Add_refines s a v size H ltac:(lia)) as Hs.
    destruct (log_step a (OpAdd v size)) as [[a' out]|] eqn:Ha,
      (stream_step s (OpAdd v size)) as [[s' out']|e|[]]; try done.
    destruct Hs as [-> Hr]. f_equal. apply IH; [done|done|].
    simpl in Ha. destruct (size <? 0); [done|]. injection Ha as <- _.
    simpl. rewrite length_app. simpl. lia.
  - simpl. f_equal. apply IH; [done|by apply Stream_Clear_refines|simpl; lia].
  - simpl. rewrite (Stream_Get_refines s a o u l r H Hop) by lia.
    f_equal. apply IH; [done|done|lia].
Qed.

(** C20: the memory stream refines a log of all values added, of which a prefix
    is forgotten: from [New], every sequence of [Add], [Get] and [Clear] gives
    the offsets and items the log gives.  [Add] numbers the values from 1 without a gap,
    also across [Clear], and forgets all but the newest [size] (a negative size
    dereferences nil); [Get] reads forwards the kept items from an offset on
    and backwards those down from it, up to the limit.  The bound says that the
    [uint64] counter does not wrap. *)
Theorem stream_refines_log (ops : list stream_op) (epoch : string) :
  Forall op_ok ops -> Z.of_nat (length ops) + 1 < 2 ^ 64 ->
  stream_run (Stream_New epoch) ops = log_run (mkLog [] 0) ops.
Proof. intros Hok Hb. exact (stream_run_refines ops _ _ Hok (log_represents_new epoch) Hb). Qed.

End MemStream.
Arguments StreamItem : clear implicits.
Arguments Element : clear implicits.
Arguments Stream : clear implicits.
Arguments stream_op : clear implicits.
Arguments stream_out : clear implicits.
Arguments Log : clear implicits.

(** Three values, of which two are kept, read from a forgotten offset and
    backwards from the top; and a negative size. *)
Lemma stream_refines_log_witness :
  let ops := [OpAdd "a" 2; OpAdd "b" 2; OpAdd "c" 2; OpGet 1 true (-1) false;
              OpGet 3 true 1 true; OpClear; OpGet 0 false 5 false; OpAdd "d" (-1)]%string in
  stream_run (Stream_New "abcd") ops = log_run (mkLog [] 0) ops /\
  log_run (mkLog [] 0) ops =
    [Some (OutAdded 1); Some (OutAdded 2); Some (OutAdded 3);
     Some (OutGot [mkStreamItem 2 "b"; mkStreamItem 3 "c"] 3);
     Some (OutGot [mkStreamItem 3 "c"] 3); Some OutCleared; Some (OutGot [] 3); None]%string.
Proof.
  split; [|reflexivity].
  apply (stream_refines_log [OpAdd "a" 2; OpAdd "b" 2; OpAdd "c" 2; OpGet 1 true (-1) false;
     OpGet 3 true 1 true; OpClear; OpGet 0 false 5 false; OpAdd "d" (-1)]%string "abcd").
  - repeat constructor; simpl; lia.
  - simpl. lia.
Defined.
