(* ===== verification/Fanout.v ===== *)
(** The way of a publication through the server: [Node.Publish]
    (server/deliverer/node.go), the memory broker ([broker_memory.go]), the
    hub's broadcast ([hub.go], modelled in Hub.v) and the write to each
    subscriber ([client.go]), down to the queue of its connection writer
    (Writer.v).  The message is the one the JSON encoder of WireMsg.v gives.

    A peer is what the path reads and writes of a client.  The goroutines
    [go c.close(d)] it starts are recorded in [p_closing]; they run later.
    [MemoryBroker.Publish] holds a lock of the channel, so the publications of
    a channel are made one after another; the memory broker has no history. *)

From S2P Require Import Prelude BytePool JsonWriter WireMsg WireLine NestedMap Hub MemStream.
From S2P Require Import Codes Ring Fifo Queue Connection Writer.

(** ** Publications and their protocol messages *)

Record ClientInfo := mkClientInfo {
  ClientID : string; ci_UserID : string; ConnInfo : bytes; ChanInfo : bytes; ChanRole : Z }.

(** The tags in the order the encoder walks the map. *)
Record Publication := mkPublication {
  pub_Data : option bytes; pub_Info : option ClientInfo; pub_Tags : list (bytes * bytes) }.

Record PublishOptions := mkPublishOptions {
  po_ClientInfo : option ClientInfo; po_Tags : list (bytes * bytes) }.

Definition WithClientInfo (info : option ClientInfo) (opts : PublishOptions) : PublishOptions :=
  mkPublishOptions info opts.(po_Tags).

(** [if len(b) > 0 { f = b }] on a field that is nil. *)
Definition if_nonempty (b : bytes) : option bytes := match b with [] => None | _ => Some b end.

Definition infoToProto (v : option ClientInfo) : option pb_ClientInfo :=
  match v with
  | None => None
  | Some v => Some (mk_ClientInfo (lit v.(ci_UserID)) (lit v.(ClientID))
                      (if_nonempty v.(ConnInfo)) (if_nonempty v.(ChanInfo)) [])
  end.

Definition infoFromProto (v : option pb_ClientInfo) : option ClientInfo :=
  match v with
  | None => None
  | Some v => Some (mkClientInfo (String.string_of_list_byte v.(ClientInfo_Client))
                      (String.string_of_list_byte v.(ClientInfo_User))
                      (default [] v.(ClientInfo_ConnInfo)) (default [] v.(ClientInfo_ChanInfo)) 0)
  end.

Definition pubToProto (pub : Publication) : pb_Publication :=
  mk_Publication pub.(pub_Data) (infoToProto pub.(pub_Info)) pub.(pub_Tags) [].

Definition pubFromProto (pub : pb_Publication) : Publication :=
  mkPublication pub.(Publication_Data) (infoFromProto pub.(Publication_Info)) pub.(Publication_Tags).

(** ** The peers *)

Record Peer := mkPeer {
  p_channels : gmap string ChannelContext;
  p_sync : gmap string (subscribeState pb_Publication);
  p_writer : writer;
  p_closing : list Disconnect }.

(** A publication waits in [SyncPublication] for the lock of a buffer. *)
Inductive stuck := WaitsForBuffer.

Definition FrameTypePushPublication : Z := 5.

Section Fanout.
(** Whether items carry their channel ([GetChannelNamespaceLabel]), the time,
    and [json.Valid] for the check of the encoder. *)
Context (label : bool) (now_unix : Z) (Valid : bytes -> bool).

Definition peer_transportEnqueue (data : bytes) (ch : string) (frameType : Z) (p : Peer) : outcome stuck Peer :=
  let item := mkItem data (if label then ch else "") frameType in
  match writer_enqueue p.(p_writer) item with
  | Ok (w, d) => Ok (mkPeer p.(p_channels) p.(p_sync) w (p.(p_closing) ++ option_list d))
  | Err e => match e with end
  | Panic x => Panic x
  end.

Definition peer_writePublicationUpdatePosition (ch : string) (data : bytes) (p : Peer) : outcome stuck Peer :=
  match p.(p_channels) !! ch with
  | None => Ok p
  | Some ctx =>
      if channelHasFlag ctx.(ctx_flags) flagSubscribed then
        let ctx := mkCtx ctx.(ctx_info) ctx.(ctx_expireAt) now_unix ctx.(ctx_flags) ctx.(ctx_role) ctx.(ctx_Source) in
        peer_transportEnqueue data ch FrameTypePushPublication
          (mkPeer (<[ch := ctx]> p.(p_channels)) p.(p_sync) p.(p_writer) p.(p_closing))
      else Ok p
  end.

Definition peer_writePublication (ch : string) (pub : pb_Publication) (data : bytes) (p : Peer) : outcome stuck Peer :=
  let '(sync, r) := SyncPublication ch pub p.(p_sync) in
  let p := mkPeer p.(p_channels) sync p.(p_writer) p.(p_closing) in
  match r with
  | SyncedFn => peer_writePublicationUpdatePosition ch data p
  | Kept => Ok p
  | Blocked => Err WaitsForBuffer
  end.

(** [go c.Disconnect(d)]. *)
Definition peer_Disconnect (d : Disconnect) (p : Peer) : Peer :=
  mkPeer p.(p_channels) p.(p_sync) p.(p_writer) (p.(p_closing) ++ [d]).

(** ** The server *)

(** [handler_set]: the broker has its event handler, which [Run] sets. *)
Record Server := mkServer { s_hub : Hub; peers : gmap string Peer; handler_set : bool }.

(** The role the broadcast reads of [c.channels[channel]]. *)
Definition role_of (sv : Server) (c : Client) (ch : string) : option Z :=
  match sv.(peers) !! c.(ID) with
  | None => None
  | Some p => ctx_role <$> p.(p_channels) !! ch
  end.

(** [Reply{Push: &Push{Channel: channel, Pub: pub}}]. *)
Definition push_reply (ch : string) (pub : pb_Publication) : pb_Reply :=
  mk_Reply 0 None (Some (mk_Push (lit ch) (Some pub) None None None None None None None None []))
    None None None None None None None None None [].

Definition encode_push (ch : string) (pub : pb_Publication) : option string :=
  match JSONReplyEncoder_Encode Valid (push_reply ch pub) with
  | Ok e => Some (String.string_of_list_byte e)
  | _ => None
  end.

(** What the loop of [broadcastPublication] does for one subscriber.  One
    publication is handed out after the other; the source runs the loops of
    different publications in parallel and reads the client's channels without
    its lock (hub.go:507). *)
Definition deliver (ch : string) (pub : pb_Publication) (d : delivery) (sv : Server) : outcome stuck Server :=
  match d with
  | Written c r =>
      match sv.(peers) !! c.(ID) with
      | None => Ok sv
      | Some p =>
          p' ← peer_writePublication ch pub (lit r) p;
          Ok (mkServer sv.(s_hub) (<[c.(ID) := p']> sv.(peers)) sv.(handler_set))
      end
  | Dropped c =>
      Ok (mkServer sv.(s_hub) (alter (peer_Disconnect DisconnectInappropriateProtocol) c.(ID) sv.(peers))
            sv.(handler_set))
  end.

Fixpoint deliver_all (ch : string) (pub : pb_Publication) (ds : list delivery) (sv : Server) : outcome stuck Server :=
  match ds with
  | [] => Ok sv
  | d :: ds' => sv ← deliver ch pub d sv; deliver_all ch pub ds' sv
  end.

Definition BroadcastPublication (ch : string) (pub : Publication) (sv : Server) : outcome stuck Server :=
  let pub := pubToProto pub in
  deliver_all ch pub (Hub_BroadcastPublication (role_of sv) encode_push ch pub sv.(s_hub)) sv.

Definition handlePublication (ch : string) (pub : Publication) (sv : Server) : outcome stuck Server :=
  if 0 <? Hub_NumSubscribers ch sv.(s_hub) then BroadcastPublication ch pub sv else Ok sv.

Definition HandlePublication (ch : string) (pub : option Publication) (sv : Server) : outcome stuck Server :=
  match pub with
  | None => Panic (ExplicitPanic "nil Publication received, this must never happen")
  | Some pub => handlePublication ch pub sv
  end.

(** ** The memory broker *)

Definition numPubLocks : nat := 4096.

(** [pubLock]: the index of the lock, which the map has for every index. *)
Definition pubLock (ch : string) : nat := index ch numPubLocks.

Definition MemoryBroker_Run (sv : Server) : Server := mkServer sv.(s_hub) sv.(peers) true.

Definition MemoryBroker_Publish (ch : string) (data : option bytes) (opts : PublishOptions) (sv : Server) :
    outcome stuck Server :=
  let pub := mkPublication data opts.(po_ClientInfo) opts.(po_Tags) in
  if sv.(handler_set) then HandlePublication ch (Some pub) sv else Panic NilDereference.

(** [Node.Publish] with the options the caller gives. *)
Definition Node_publish (ch : string) (data : option bytes) (opts : list (PublishOptions -> PublishOptions))
    (sv : Server) : outcome stuck Server :=
  let pubOpts := fold_left (fun o opt => opt o) opts (mkPublishOptions None []) in
  MemoryBroker_Publish ch data pubOpts sv.

Record publication_call := mkCall {
  call_ch : string; call_data : option bytes; call_opts : list (PublishOptions -> PublishOptions) }.

Fixpoint publish_all (calls : list publication_call) (sv : Server) : outcome stuck Server :=
  match calls with
  | [] => Ok sv
  | c :: calls' => sv ← Node_publish c.(call_ch) c.(call_data) c.(call_opts) sv; publish_all calls' sv
  end.

End Fanout.
