(* ===== verification/FanoutProps.v ===== *)
(** A publication reaches the queue of every subscriber that may read its
    channel, once and in order, and nobody else's. *)

From S2P Require Import Prelude BytePool JsonWriter WireMsg WireLine NestedMap Hub MemStream.
From S2P Require Import Codes Ring Fifo Queue Connection Writer Fanout.

#[local] Opaque Queue_abs.

Lemma option_Forall2_mono {A B} (P Q : A -> B -> Prop) x y :
  option_Forall2 P x y -> (forall a b, P a b -> Q a b) -> option_Forall2 Q x y.
Proof. intros [a b H|] HPQ; constructor. by apply HPQ. Qed.

Lemma option_Forall2_compose {A B C} (P : A -> B -> Prop) (Q : B -> C -> Prop) (R : A -> C -> Prop) x y z :
  option_Forall2 P x y -> option_Forall2 Q y z -> (forall a b c, P a b -> Q b c -> R a c) ->
  option_Forall2 R x z.
Proof. intros [a b H|] HQ HR; inversion HQ; subst; constructor. by eapply HR. Qed.

(** ** What changes for one peer *)

(** The queue of the peer is in order, and nothing is buffered for it: the
    program never calls [StartBuffering]. *)
Definition peer_ok (p : Peer) : Prop := Queue_inv p.(p_writer).(messages) /\ p.(p_sync) = ∅.

(** What a peer's channels tell about who reads them. *)
Definition rights (p : Peer) (ch : string) : option (Z * Z) :=
  (fun ctx => (ctx.(ctx_flags), ctx.(ctx_role))) <$> p.(p_channels) !! ch.

Definition subscribed (p : Peer) (ch : string) : bool :=
  match p.(p_channels) !! ch with
  | None => false
  | Some ctx => channelHasFlag ctx.(ctx_flags) flagSubscribed
  end.

Definition queue_closed (p : Peer) : bool := p.(p_writer).(messages).(closed).

(** From [p] to [p'] the items were queued, and [refused] tells whether a
    message could not be encoded. *)
Record after (items : list Item) (refused : bool) (p p' : Peer) : Prop := {
  af_queue : pending p'.(p_writer) = pending p.(p_writer) ++ (if queue_closed p then [] else items);
  af_closed : queue_closed p' = queue_closed p;
  af_frames : p'.(p_writer).(frames) = p.(p_writer).(frames);
  af_limit : p'.(p_writer).(MaxQueueSize) = p.(p_writer).(MaxQueueSize);
  af_rights : forall ch, rights p' ch = rights p ch;
  af_prefix : p.(p_closing) `prefix_of` p'.(p_closing);
  af_refused : refused = true -> DisconnectInappropriateProtocol ∈ p'.(p_closing);
  af_quiet : refused = false -> queue_closed p = false ->
    ((0 < p.(p_writer).(MaxQueueSize))%Z ->
       (data_size (pending p.(p_writer) ++ items) <= p.(p_writer).(MaxQueueSize))%Z) ->
    p'.(p_closing) = p.(p_closing) }.

Lemma after_refl p : after [] false p p.
Proof. split; try done. by destruct (queue_closed p); rewrite app_nil_r. Qed.

Lemma after_trans is1 is2 r1 r2 p1 p2 p3 :
  after is1 r1 p1 p2 -> after is2 r2 p2 p3 -> after (is1 ++ is2) (r1 || r2) p1 p3.
Proof.
  intros H1 H2. split.
  - rewrite (af_queue _ _ _ _ H2), (af_closed _ _ _ _ H1), (af_queue _ _ _ _ H1).
    destruct (queue_closed p1); by rewrite <- app_assoc.
  - by rewrite (af_closed _ _ _ _ H2), (af_closed _ _ _ _ H1).
  - by rewrite (af_frames _ _ _ _ H2), (af_frames _ _ _ _ H1).
  - by rewrite (af_limit _ _ _ _ H2), (af_limit _ _ _ _ H1).
  - intros ch. by rewrite (af_rights _ _ _ _ H2), (af_rights _ _ _ _ H1).
  - etrans; [apply (af_prefix _ _ _ _ H1)|apply (af_prefix _ _ _ _ H2)].
  - intros Hr. apply orb_true_iff in Hr as [Hr|Hr]; [|exact (af_refused _ _ _ _ H2 Hr)].
    eapply elem_of_prefix; [exact (af_refused _ _ _ _ H1 Hr)|apply (af_prefix _ _ _ _ H2)].
  - intros Hr Hc Hs. apply orb_false_iff in Hr as [Hr1 Hr2].
    assert (Hq1 : p_closing p2 = p_closing p1).
    { apply (af_quiet _ _ _ _ H1 Hr1 Hc). intros Hm. specialize (Hs Hm).
      rewrite app_assoc, data_size_app in Hs. pose proof (data_size_nonneg is2). lia. }
    rewrite <- Hq1. apply (af_quiet _ _ _ _ H2 Hr2); [by rewrite (af_closed _ _ _ _ H1)|].
    by rewrite (af_limit _ _ _ _ H1), (af_queue _ _ _ _ H1), Hc, <- app_assoc.
Qed.

(** What a reader gets of a push. *)
Definition push_item (label : bool) (ch : string) (data : bytes) : Item :=
  mkItem data (if label then ch else "") FrameTypePushPublication.

Lemma enqueue_after label ch data p :
  peer_ok p -> exists p', peer_transportEnqueue label data ch FrameTypePushPublication p = Ok p' /\
    peer_ok p' /\ after [push_item label ch data] false p p' /\ p'.(p_channels) = p.(p_channels).
Proof.
  intros [Hq Hs]. unfold peer_transportEnqueue, writer_enqueue.
  destruct (Queue_Add_spec (messages (p_writer p)) (push_item label ch data) Hq) as (q & Hadd & Hq' & Ha & _).
  unfold push_item in Hadd. rewrite Hadd. unfold fifo_add in *. rewrite Queue_abs_closed in *. simpl.
  destruct (closed (messages (p_writer p))) eqn:Hc; simpl in *.
  - eexists. split; [done|]. split; [done|]. split; [|done].
    assert (Hcq : closed q = true) by (by rewrite <- Queue_abs_closed, Ha).
    split; simpl; try done; unfold queue_closed, pending; simpl; rewrite ?Hc, ?Hcq, ?Ha, ?app_nil_r; try done.
    by apply prefix_app_r.
  - assert (Hcq : closed q = false) by (by rewrite <- Queue_abs_closed, Ha).
    assert (Hsz : Queue_Size q = data_size (pending (p_writer p) ++ [push_item label ch data])).
    { rewrite Queue_Size_spec by done. by rewrite Ha. }
    rewrite Hsz.
    destruct ((0 <? MaxQueueSize (p_writer p))%Z && _) eqn:Hlim; simpl;
      (eexists; split; [done|]; split; [done|]; split; [|done]);
      split; simpl; try done; unfold queue_closed, pending; simpl; rewrite ?Hc, ?Hcq, ?Ha; try done.
    + by apply prefix_app_r.
    + intros _ _ H. apply andb_true_iff in Hlim as [H0 H1].
      apply Z.ltb_lt in H0, H1. unfold pending in H1. specialize (H H0). lia.
    + by rewrite app_nil_r.
    + by rewrite app_nil_r.
Qed.

Section Publish.
Context (label : bool) (now_unix : Z) (Valid : bytes -> bool).

Definition items_if (b : bool) (i : Item) : list Item := if b then [i] else [].

Lemma writePublication_after ch pub data p :
  peer_ok p -> exists p', peer_writePublication label now_unix ch pub data p = Ok p' /\
    peer_ok p' /\ after (items_if (subscribed p ch) (push_item label ch data)) false p p'.
Proof.
  intros [Hq Hs]. unfold peer_writePublication, SyncPublication. rewrite Hs, lookup_empty.
  unfold peer_writePublicationUpdatePosition, subscribed. simpl.
  assert (Hp : mkPeer (p_channels p) ∅ (p_writer p) (p_closing p) = p) by (rewrite <- Hs; by destruct p).
  destruct (p_channels p !! ch) as [ctx|] eqn:Hch.
  2:{ rewrite Hp. exists p. split; [done|]. split; [done|apply after_refl]. }
  destruct (channelHasFlag (ctx_flags ctx) flagSubscribed).
  2:{ rewrite Hp. exists p. split; [done|]. split; [done|apply after_refl]. }
  set (ctx' := mkCtx _ _ _ _ _ _).
  destruct (enqueue_after label ch data (mkPeer (<[ch := ctx']> (p_channels p)) ∅ (p_writer p) (p_closing p)))
    as (p' & -> & Hok & Ha & Hc); [done|].
  exists p'. split; [done|]. split; [done|]. destruct Ha. split; simpl in *; try done.
  intros ch'. unfold rights. rewrite Hc. simpl. rewrite lookup_insert.
  case_decide as Hd; [|done]. subst ch'. by rewrite Hch.
Qed.

(** ** What changes for all peers *)

(** The hub's subscribers are filed under their ids, and every peer is in
    order. *)
Definition server_ok (sv : Server) : Prop :=
  sv.(handler_set) = true /\
  (forall id p, sv.(peers) !! id = Some p -> peer_ok p) /\
  (forall ch id c, nest_get ch (sub_shard (shard_index ch) sv.(s_hub)) !! id = Some c -> c.(ID) = id).

Definition same_server (sv sv' : Server) : Prop :=
  sv'.(s_hub) = sv.(s_hub) /\ sv'.(handler_set) = sv.(handler_set).

Definition target (d : delivery) : string := match d with Written c _ | Dropped c => c.(ID) end.

Definition delivered (ch : string) (d : delivery) (p p' : Peer) : Prop :=
  match d with
  | Written _ r => after (items_if (subscribed p ch) (push_item label ch (lit r))) false p p'
  | Dropped _ => after [] true p p'
  end.

Lemma Disconnect_after p : after [] true p (peer_Disconnect DisconnectInappropriateProtocol p).
Proof.
  split; try done; simpl.
  - by destruct (queue_closed p); rewrite app_nil_r.
  - by apply prefix_app_r.
  - intros _. apply elem_of_app. right. by apply list_elem_of_singleton.
Qed.

Definition peers_ok (sv : Server) : Prop := forall id p, sv.(peers) !! id = Some p -> peer_ok p.

Lemma deliver_one ch pub d sv :
  peers_ok sv -> exists sv', deliver label now_unix ch pub d sv = Ok sv' /\ same_server sv sv' /\ peers_ok sv' /\
    option_Forall2 (delivered ch d) (sv.(peers) !! target d) (sv'.(peers) !! target d) /\
    forall id, id <> target d -> sv'.(peers) !! id = sv.(peers) !! id.
Proof.
  intros Hok. destruct d as [c r|c]; simpl.
  - destruct (peers sv !! ID c) as [p|] eqn:Hp.
    + destruct (writePublication_after ch pub (lit r) p (Hok _ _ Hp)) as (p' & -> & Hp' & Ha).
      eexists. split; [done|]. split; [done|]. split_and!.
      * intros id q. simpl. rewrite lookup_insert. case_decide; [by intros [= <-]|apply Hok].
      * simpl. rewrite lookup_insert_eq. by constructor.
      * intros id Hid. simpl. by rewrite lookup_insert_ne.
    + exists sv. split; [done|]. split; [done|]. split; [done|]. split; [|done].
      rewrite Hp. constructor.
  - eexists. split; [done|]. split; [done|]. split_and!.
    + intros id q. simpl. rewrite lookup_alter. case_decide as Hd; [|apply Hok].
      subst id. destruct (peers sv !! ID c) as [p|] eqn:Hp; [|done]. intros [= <-]. exact (Hok _ _ Hp).
    + simpl. rewrite lookup_alter_eq. destruct (peers sv !! ID c); constructor. apply Disconnect_after.
    + intros id Hid. simpl. by rewrite lookup_alter_ne.
Qed.

Lemma deliver_all_spec ch pub ds sv :
  peers_ok sv -> NoDup (target <$> ds) ->
  exists sv', deliver_all label now_unix ch pub ds sv = Ok sv' /\ same_server sv sv' /\ peers_ok sv' /\
    (forall d, d ∈ ds -> option_Forall2 (delivered ch d) (sv.(peers) !! target d) (sv'.(peers) !! target d)) /\
    forall id, id ∉ target <$> ds -> sv'.(peers) !! id = sv.(peers) !! id.
Proof.
  revert sv. induction ds as [|d ds IH]; intros sv Hok Hnd; simpl.
  - exists sv. split; [done|]. split; [done|]. split; [done|]. split; [|done].
    intros d Hd. by apply not_elem_of_nil in Hd.
  - apply NoDup_cons in Hnd as [Hd Hnd].
    destruct (deliver_one ch pub d sv Hok) as (sv1 & -> & [Hh1 Hr1] & Hok1 & Hat & Hne).
    change (mbind ?f (Ok ?a)) with (f a). cbv beta.
    destruct (IH sv1 Hok1 Hnd) as (sv2 & -> & [Hh2 Hr2] & Hok2 & Hin & Hout).
    exists sv2. split; [done|]. split; [split; congruence|]. split; [done|]. split.
    + intros d' Hd'. apply elem_of_cons in Hd' as [->|Hd'].
      * by rewrite (Hout _ Hd).
      * rewrite <- (Hne (target d')); [by apply Hin|].
        intros He. apply Hd. rewrite <- He. by apply list_elem_of_fmap_2.
    + intros id Hid. apply not_elem_of_cons in Hid as [Hi1 Hi2].
      by rewrite (Hout _ Hi2), (Hne _ Hi1).
Qed.

(** ** One publication *)

Definition pub_of (c : publication_call) : Publication :=
  let o := fold_left (fun o opt => opt o) c.(call_opts) (mkPublishOptions None []) in
  mkPublication c.(call_data) o.(po_ClientInfo) o.(po_Tags).

(** The message all readers of a publication get. *)
Definition message_of (c : publication_call) : option bytes :=
  match JSONReplyEncoder_Encode Valid (push_reply c.(call_ch) (pubToProto (pub_of c))) with
  | Ok e => Some e
  | _ => None
  end.

(** Whether the broadcast picks a peer: it is filed as a subscriber of the
    channel, and its role there lets it read. *)
Definition selected (sv : Server) (ch id : string) : bool :=
  match nest_get ch (sub_shard (shard_index ch) sv.(s_hub)) !! id with
  | Some c => may_read (role_of sv) c ch
  | None => false
  end.

Definition lines (sv : Server) (id : string) (p : Peer) (c : publication_call) : list Item :=
  match message_of c with
  | Some e => items_if (selected sv c.(call_ch) id && subscribed p c.(call_ch)) (push_item label c.(call_ch) e)
  | None => []
  end.

Definition refused (sv : Server) (id : string) (c : publication_call) : bool :=
  match message_of c with Some _ => false | None => selected sv c.(call_ch) id end.

Lemma encode_push_message c :
  encode_push Valid c.(call_ch) (pubToProto (pub_of c)) = String.string_of_list_byte <$> message_of c.
Proof. unfold encode_push, message_of. by destruct (JSONReplyEncoder_Encode _ _). Qed.

Lemma lit_of_bytes e : lit (String.string_of_list_byte e) = e.
Proof. apply String.list_byte_of_string_of_list_byte. Qed.

(** The clients the loop of the broadcast serves. *)
Definition readers (sv : Server) (ch : string) : list Client :=
  filter (fun c => may_read (role_of sv) c ch = true)
    (map_to_list (nest_get ch (sub_shard (shard_index ch) sv.(s_hub)))).*2.

Lemma elem_of_readers sv ch id :
  server_ok sv -> selected sv ch id = true <-> id ∈ ID <$> readers sv ch.
Proof.
  intros (_ & _ & Hid). unfold selected, readers. rewrite list_elem_of_fmap. split.
  - destruct (nest_get _ _ !! id) as [c|] eqn:Hc; [|done]. intros Hm. exists c.
    split; [by rewrite (Hid _ _ _ Hc)|]. apply list_elem_of_filter. split; [done|].
    apply list_elem_of_fmap. exists (id, c). split; [done|]. by apply elem_of_map_to_list.
  - intros (c & -> & Hc). apply list_elem_of_filter in Hc as [Hm Hc].
    apply list_elem_of_fmap in Hc as ([id' c'] & -> & Hc). apply elem_of_map_to_list in Hc.
    simpl in *. rewrite (Hid _ _ _ Hc). by rewrite Hc.
Qed.

Lemma NoDup_readers sv ch : server_ok sv -> NoDup (ID <$> readers sv ch).
Proof.
  intros (_ & _ & Hid). unfold readers.
  assert (H : forall l : list (string * Client), NoDup l.*1 ->
    (forall x, x ∈ l -> ID x.2 = x.1) ->
    NoDup (ID <$> filter (fun c => may_read (role_of sv) c ch = true) l.*2)).
  { induction l as [|[id c] l IH]; intros Hnd Hx; [apply NoDup_nil_2|].
    apply NoDup_cons in Hnd as [Hn Hnd]. csimpl. rewrite filter_cons.
    assert (Hl : NoDup (ID <$> filter (fun c => may_read (role_of sv) c ch = true) l.*2))
      by (apply IH; [done|]; intros x Hin; apply Hx; by right).
    destruct (decide _); [|done]. csimpl. apply NoDup_cons. split; [|done].
    intros Hin. apply Hn. apply list_elem_of_fmap in Hin as (c' & Hc' & Hin).
    apply list_elem_of_filter in Hin as [_ Hin]. apply list_elem_of_fmap in Hin as ([id' c''] & -> & Hin).
    apply list_elem_of_fmap. exists (id', c''). split; [|done].
    pose proof (Hx _ (list_elem_of_further _ _ _ Hin)) as H1. pose proof (Hx (id, c) (list_elem_of_here _ _)) as H2.
    simpl in *. congruence. }
  apply H; [apply NoDup_fst_map_to_list|].
  intros [id c] Hin. apply elem_of_map_to_list in Hin. exact (Hid _ _ _ Hin).
Qed.

(** The deliveries of the broadcast, by the hub's specification. *)
Definition deliveries (sv : Server) (c : publication_call) : list delivery :=
  (match message_of c with
   | Some e => fun cl => Written cl (String.string_of_list_byte e)
   | None => Dropped
   end) <$> readers sv c.(call_ch).

Lemma target_deliveries sv c : target <$> deliveries sv c = ID <$> readers sv c.(call_ch).
Proof. unfold deliveries. rewrite <- list_fmap_compose. by destruct (message_of c). Qed.

Lemma no_subscribers sv ch :
  Hub_NumSubscribers ch sv.(s_hub) = 0 -> readers sv ch = [].
Proof.
  unfold Hub_NumSubscribers, subShard_NumSubscribers, readers, nest_get.
  destruct (sub_shard _ _ !! ch) as [subs|]; simpl; [|by intros _; rewrite map_to_list_empty].
  intros Hs. apply map_size_empty_inv in Hs as ->. by rewrite map_to_list_empty.
Qed.

Lemma Node_publish_deliver c sv :
  sv.(handler_set) = true ->
  Node_publish label now_unix Valid c.(call_ch) c.(call_data) c.(call_opts) sv =
    deliver_all label now_unix c.(call_ch) (pubToProto (pub_of c)) (deliveries sv c) sv.
Proof.
  intros Hh. unfold Node_publish, MemoryBroker_Publish, HandlePublication, handlePublication, BroadcastPublication.
  rewrite Hh. fold (pub_of c). destruct (Nat.ltb_spec 0 (Hub_NumSubscribers (call_ch c) (s_hub sv))).
  - unfold Hub_BroadcastPublication. rewrite broadcast_exact, encode_push_message.
    unfold deliveries, readers. by destruct (message_of c).
  - unfold deliveries. by rewrite no_subscribers by lia.
Qed.

Lemma publish_step c sv :
  server_ok sv ->
  exists sv', Node_publish label now_unix Valid c.(call_ch) c.(call_data) c.(call_opts) sv = Ok sv' /\
    server_ok sv' /\ sv'.(s_hub) = sv.(s_hub) /\
    forall id, option_Forall2 (fun p p' => after (lines sv id p c) (refused sv id c) p p')
      (sv.(peers) !! id) (sv'.(peers) !! id).
Proof.
  intros Hok. pose proof Hok as (Hh & Hp & Hid). rewrite Node_publish_deliver by done.
  destruct (deliver_all_spec (call_ch c) (pubToProto (pub_of c)) (deliveries sv c) sv Hp)
    as (sv' & -> & [Hhub Hset] & Hp' & Hin & Hout).
  { rewrite target_deliveries. by apply NoDup_readers. }
  exists sv'. split; [done|]. split; [|split; [done|]].
  { split; [congruence|]. split; [done|]. by rewrite Hhub. }
  intros id. destruct (selected sv (call_ch c) id) eqn:Hs.
  - pose proof Hs as Hs'. apply elem_of_readers, list_elem_of_fmap in Hs' as (cl & -> & Hcl); [|done].
    specialize (Hin _ (list_elem_of_fmap_2 _ _ _ Hcl)).
    unfold lines, refused. rewrite Hs. destruct (message_of c) as [e|]; simpl in *; [|done].
    eapply option_Forall2_mono; [exact Hin|]. intros p p' Ha. simpl in Ha. by rewrite lit_of_bytes in Ha.
  - rewrite Hout.
    + unfold lines, refused. rewrite Hs. destruct (peers sv !! id); constructor.
      by destruct (message_of c); apply after_refl.
    + rewrite target_deliveries, <- elem_of_readers by done. by rewrite Hs.
Qed.

(** ** Many publications *)

Lemma subscribed_rights p p' ch : rights p' ch = rights p ch -> subscribed p' ch = subscribed p ch.
Proof.
  unfold rights, subscribed. destruct (p_channels p' !! ch), (p_channels p !! ch); simpl; congruence.
Qed.

(** Publishing changes neither who is picked nor who is subscribed. *)
Lemma selected_after sv sv' R :
  sv'.(s_hub) = sv.(s_hub) ->
  (forall id, option_Forall2 (fun p p' => after (fst (R id p)) (snd (R id p)) p p') (sv.(peers) !! id) (sv'.(peers) !! id)) ->
  forall ch id, selected sv' ch id = selected sv ch id.
Proof.
  intros Hh HR ch id. unfold selected. rewrite Hh. destruct (nest_get _ _ !! id) as [cl|]; [|done].
  unfold may_read, role_of. specialize (HR (ID cl)). destruct HR as [p p' Ha|]; [|done].
  pose proof (af_rights _ _ _ _ Ha ch) as Hr. unfold rights in Hr.
  destruct (p_channels p' !! ch) as [x|], (p_channels p !! ch) as [y|]; simpl in *; try done.
  injection Hr as _ ->. done.
Qed.

Lemma publish_all_spec calls sv :
  server_ok sv ->
  exists sv', publish_all label now_unix Valid calls sv = Ok sv' /\ server_ok sv' /\ sv'.(s_hub) = sv.(s_hub) /\
    forall id, option_Forall2
      (fun p p' => after (concat (lines sv id p <$> calls)) (existsb (refused sv id) calls) p p')
      (sv.(peers) !! id) (sv'.(peers) !! id).
Proof.
  revert sv. induction calls as [|c calls IH]; intros sv Hok; simpl.
  - exists sv. split; [done|]. split; [done|]. split; [done|].
    intros id. destruct (peers sv !! id); constructor. apply after_refl.
  - destruct (publish_step c sv Hok) as (sv1 & -> & Hok1 & Hh1 & H1).
    change (mbind ?f (Ok ?a)) with (f a). cbv beta.
    destruct (IH sv1 Hok1) as (sv2 & -> & Hok2 & Hh2 & H2).
    exists sv2. split; [done|]. split; [done|]. split; [congruence|].
    pose proof (selected_after sv sv1 (fun id p => (lines sv id p c, refused sv id c)) Hh1 H1) as Hsel.
    intros id. eapply option_Forall2_compose; [exact (H1 id)|exact (H2 id)|]. intros p p1 p2 Ha Hb. cbv beta in Ha, Hb.
    assert (Hl : (lines sv1 id p1 <$> calls) = (lines sv id p <$> calls)).
    { apply list_fmap_ext. intros i x _. unfold lines. rewrite Hsel.
      by rewrite (subscribed_rights p p1 _ (af_rights _ _ _ _ Ha _)). }
    assert (Hr : existsb (refused sv1 id) calls = existsb (refused sv id) calls).
    { clear -Hsel. induction calls as [|x l IHl]; [done|]. simpl. rewrite IHl. unfold refused at 1 3.
      by rewrite Hsel. }
    rewrite Hl, Hr in Hb. exact (after_trans _ _ _ _ _ _ _ Ha Hb).
Qed.

(** Every message the broadcast queues is one line of JSON that passed the check
    of the encoder. *)
Lemma message_is_line c e : message_of c = Some e -> nl ∉ e /\ Valid e = true.
Proof.
  unfold message_of, JSONReplyEncoder_Encode.
  destruct (build_emits _ None _ (line_Reply (push_reply (call_ch c) (pubToProto (pub_of c))))) as (b & -> & Hb).
  simpl. destruct (Valid b) eqn:Hv; simpl; [|done]. intros [= <-]. split; [exact (proj2 Hb)|exact Hv].
Qed.

(** C1: publications made on a node with the memory broker, in whatever channels
    and by whichever callers, never fail, block or panic.  The queue of a
    connection gets, in the order of the calls and once each, the messages of the
    channels in which it is filed as subscriber, may read and is marked
    subscribed, and nothing else; its earlier content stays in front.  All
    readers get the same bytes, one line of valid JSON.  Only a message that
    cannot be encoded or a queue that is closed or over its limit lets a client
    be closed, and the first does for every reader of the channel. *)
Theorem publications_reach_readers (calls : list publication_call) (sv : Server) :
  server_ok sv ->
  exists sv', publish_all label now_unix Valid calls sv = Ok sv' /\ server_ok sv' /\ sv'.(s_hub) = sv.(s_hub) /\
    (forall id, option_Forall2
       (fun p p' => after (concat (lines sv id p <$> calls)) (existsb (refused sv id) calls) p p')
       (sv.(peers) !! id) (sv'.(peers) !! id)) /\
    (forall c e, message_of c = Some e -> nl ∉ e /\ Valid e = true).
Proof.
  intros Hok. destruct (publish_all_spec calls sv Hok) as (sv' & Hr & Hok' & Hh & Hp).
  exists sv'. split; [done|]. split; [done|]. split; [done|]. split; [done|]. exact message_is_line.
Qed.

End Publish.

(** ** The hypotheses hold of every hub, and an example *)

Definition filed_by_id (subs : subShard) : Prop :=
  forall ch id c, nest_get ch subs !! id = Some c -> c.(ID) = id.

Lemma whole_step_filed w o : filed_by_id w.(w_sub) -> filed_by_id (fst (whole_step w o)).(w_sub).
Proof.
  intros H. destruct o as [c|c|ch c|ch c]; [done|done| |]; simpl.
  - intros ch' id c'. rewrite nest_get_add. case_decide; [|apply H].
    rewrite lookup_insert. case_decide; [by intros [= <-]|]. subst. apply H.
  - destruct (subShard_removeSub ch c (w_sub w)) as [s b] eqn:E. simpl.
    apply (f_equal fst) in E. simpl in E. subst s. intros ch' id c'.
    unfold subShard_removeSub. rewrite nest_get_remove. case_decide; [|apply H].
    subst. rewrite lookup_delete_Some. intros [_ Hc]. exact (H _ _ _ Hc).
Qed.

Lemma run_ops_filed ops w :
  filed_by_id w.(w_sub) -> filed_by_id (fst (run_ops whole_step ops w)).(w_sub).
Proof.
  revert w. induction ops as [|o ops IH]; intros w H; [done|]. simpl.
  pose proof (whole_step_filed w o H) as H1. destruct (whole_step w o) as [w1 r].
  specialize (IH w1 H1). by destruct (run_ops whole_step ops w1).
Qed.

(** Whatever was registered, the subscribers of a hub are filed by their ids. *)
Lemma hub_filed_by_id ops ch id c :
  ids_agree ops ->
  nest_get ch (sub_shard (shard_index ch) (fst (run_ops hub_step ops newHub))) !! id = Some c -> c.(ID) = id.
Proof.
  intros Hids Hc. destruct (run_ops_new ops Hids) as (Hr & _ & _ & _).
  apply (run_ops_filed ops (mkWhole newConnShard ∅)) with (ch := ch).
  - intros ch' id' c'. unfold nest_get. simpl. by rewrite !lookup_empty.
  - revert Hc. unfold nest_get. rewrite (hr_subs _ _ Hr) by apply shard_index_lt.
    by rewrite shard_part_lookup, decide_True.
Qed.

(** The receiver's view of a publication: all but the role of the client. *)
Lemma pub_proto_roundtrip p :
  pubFromProto (pubToProto p) =
    mkPublication p.(pub_Data)
      ((fun i => mkClientInfo i.(ClientID) i.(ci_UserID) i.(ConnInfo) i.(ChanInfo) 0) <$> p.(pub_Info)) p.(pub_Tags).
Proof.
  unfold pubFromProto, pubToProto. simpl. f_equal. destruct (pub_Info p) as [i|]; [|done]. simpl.
  unfold lit. rewrite !String.string_of_list_byte_of_string. by destruct (ConnInfo i), (ChanInfo i).
Qed.

Lemma Some_Forall2_inv {A B} (P : A -> B -> Prop) a b : option_Forall2 P (Some a) (Some b) -> P a b.
Proof. intros H. by inversion H. Qed.

(** Two subscribers of a channel, of which the second may only write. *)
Definition two_ops : list hub_op :=
  [OpAddSub "news" (mkClient "r" "u"); OpAddSub "news" (mkClient "w" "v")]%string.

Definition fresh_peer (role : Z) : Peer :=
  mkPeer {[ "news"%string := mkCtx "" 0 0 flagSubscribed role 0 ]} ∅
    (mkWriter (mkQueue (mkRing [zero_item; zero_item] 0 0 0) 0 false 2) false 0 []) [].

Definition two_peers : Server :=
  mkServer (fst (run_ops hub_step two_ops newHub))
    {[ "r"%string := fresh_peer ReadRole; "w"%string := fresh_peer WriteRole ]} true.

Lemma two_ops_agree : ids_agree two_ops.
Proof.
  intros o1 o2 H1 H2. unfold two_ops in *. rewrite !elem_of_cons, elem_of_nil in *.
  destruct_or?; subst; simpl; done.
Qed.

Lemma fresh_peer_ok role : peer_ok (fresh_peer role).
Proof.
  split; [|done]. unfold Queue_inv, ring_ok, ring_cap_ok. simpl. repeat split; try lia. exists 0. reflexivity.
Qed.

Lemma two_peers_ok : server_ok two_peers.
Proof.
  split; [done|]. split.
  - intros id p. unfold two_peers. simpl. rewrite lookup_insert, lookup_singleton.
    repeat case_decide; intros [= <-]; apply fresh_peer_ok.
  - intros ch id c. exact (hub_filed_by_id two_ops ch id c two_ops_agree).
Qed.

Definition two_calls : list publication_call :=
  [mkCall "news" (Some (lit "1")) []; mkCall "other" (Some (lit "2")) []; mkCall "news" (Some (lit "3")) []]%string.

Lemma publications_reach_readers_witness :
  exists sv', publish_all false 0 (fun _ => true) two_calls two_peers = Ok sv' /\
    (length <$> (pending <$> (p_writer <$> sv'.(peers) !! "r"%string))) = Some 2 /\
    (length <$> (pending <$> (p_writer <$> sv'.(peers) !! "w"%string))) = Some 0.
Proof.
  destruct (publications_reach_readers false 0 (fun _ => true) two_calls two_peers) as (sv' & Hr & _ & _ & Hp & _).
  { exact two_peers_ok. }
  exists sv'. split; [exact Hr|]. split.
  - specialize (Hp "r"%string).
    change (peers two_peers !! "r"%string) with (Some (fresh_peer ReadRole)) in Hp.
    destruct (peers sv' !! "r"%string) as [p'|]; [|by inversion Hp]. apply Some_Forall2_inv in Hp.
    simpl. rewrite (af_queue _ _ _ _ Hp). vm_compute. reflexivity.
  - specialize (Hp "w"%string).
    change (peers two_peers !! "w"%string) with (Some (fresh_peer WriteRole)) in Hp.
    destruct (peers sv' !! "w"%string) as [p'|]; [|by inversion Hp]. apply Some_Forall2_inv in Hp.
    simpl. rewrite (af_queue _ _ _ _ Hp). vm_compute. reflexivity.
Defined.
