(* ===== verification/Vt.v ===== *)
(** The parts of the protobuf codec the generator emits
    ([pkg/protocol/deliverprotocol/deliver_vtproto.pb.go]): the variable-length
    integers, the blocks that write a field backwards into a buffer of the
    computed size, those that count it, and the loops that read it back.  The
    methods of the messages (VtMsg.v) put them together as the generated code
    does.

    Go's [int] is 64 bits wide and its sums wrap.  A loop over the input is
    given one more than the length of the input as fuel; [VtOutOfFuel] is not an
    error of the code. *)

From S2P Require Import Prelude BytePool WireMsg.

Open Scope Z_scope.

Definition zlen {A} (l : list A) : Z := Z.of_nat (length l).
Definition wrap_i32 (z : Z) : Z := (z + 2 ^ 31) mod 2 ^ 32 - 2 ^ 31.

(** ** Sizes *)

(** [bits.Len64]. *)
Definition Len64 (x : Z) : Z := if x =? 0 then 0 else Z.log2 x + 1.

Definition sov (x : Z) : Z := (Len64 (Z.lor x 1) + 6) / 7.

Definition size_uint (v : Z) : Z := if v =? 0 then 0 else 1 + sov v.
Definition size_bool (b : bool) : Z := if b then 2 else 0.

(** A field with a length: [n += 1 + l + sov(uint64(l))]. *)
Definition size_delimited (l : Z) : Z := 1 + l + sov l.

Definition size_bytes (s : bytes) : Z := let l := zlen s in if 0 <? l then size_delimited l else 0.
Definition size_raw (r : option bytes) : Z := size_bytes (default [] r).

(** [l = m.F.SizeVT()], zero for nil. *)
Definition size_ptr {A} (f : A -> Z) (o : option A) : Z := match o with None => 0 | Some v => f v end.
Definition size_message {A} (f : A -> Z) (o : option A) : Z :=
  match o with None => 0 | Some v => size_delimited (f v) end.
Definition size_repeated {A} (f : A -> Z) (l : list (option A)) : Z :=
  fold_left (fun n e => n + size_delimited (size_ptr f e)) l 0.

(** An entry of a map: the key, then a value of size [l] with its tag. *)
Definition size_entry (k : bytes) (l : Z) : Z :=
  let mapEntrySize := 1 + zlen k + sov (zlen k) + l in mapEntrySize + 1 + sov mapEntrySize.
Definition size_map {A} (f : A -> Z) (l : list (bytes * option A)) : Z :=
  fold_left (fun n e => n + size_entry e.1 (let l := size_ptr f e.2 in l + (1 + sov l))) l 0.
Definition size_strings (l : list (bytes * bytes)) : Z :=
  fold_left (fun n e => n + size_entry e.1 (1 + zlen e.2 + sov (zlen e.2))) l 0.

(** [n += ...] for each field. *)
Definition sum_sizes (l : list Z) : Z := fold_left Z.add l 0.

(** ** Writing *)

(** A buffer and the index [i], in front of which the next bytes go. *)
Definition mar := bytes * Z -> outcome Empty_set (bytes * Z).

Definition store_z (dAtA : bytes) (i : Z) (b : byte) : outcome Empty_set bytes :=
  if (0 <=? i) && (i <? zlen dAtA) then Ok (<[Z.to_nat i := b]> dAtA) else Panic IndexOutOfRange.

(** The loop of [encodeVarint]; an [uint64] has at most ten groups. *)
Fixpoint encodeVarint_loop (fuel : nat) (dAtA : bytes) (offset v : Z) : outcome Empty_set bytes :=
  match fuel with
  | O => Panic (ExplicitPanic "not an uint64")
  | S fuel =>
      if 0x80 <=? v then
        dAtA ← store_z dAtA offset (zb (Z.lor (Z.land v 0x7f) 0x80));
        encodeVarint_loop fuel dAtA (offset + 1) (Z.shiftr v 7)
      else store_z dAtA offset (zb v)
  end.

Definition encodeVarint (v : Z) : mar := fun '(dAtA, offset) =>
  let base := offset - sov v in
  dAtA ← encodeVarint_loop MaxVarintLen64 dAtA base v;
  Ok (dAtA, base).

(** [i -= len(s); copy(dAtA[i:], s)]. *)
Definition put_copy (s : bytes) : mar := fun '(dAtA, i) =>
  let i := i - zlen s in
  if (0 <=? i) && (i <=? zlen dAtA) then Ok (go_copy_at dAtA (Z.to_nat i) s, i) else Panic SliceOutOfRange.

(** [i--; dAtA[i] = b]. *)
Definition put_byte (b : Z) : mar := fun '(dAtA, i) =>
  dAtA ← store_z dAtA (i - 1) (zb b); Ok (dAtA, i - 1).

Fixpoint run_mar (l : list mar) (st : bytes * Z) : outcome Empty_set (bytes * Z) :=
  match l with
  | [] => Ok st
  | a :: l => st ← a st; run_mar l st
  end.

Definition skip_mar : mar := fun st => Ok st.

Definition put_uint (tag v : Z) : mar :=
  if v =? 0 then skip_mar else run_mar [encodeVarint v; put_byte tag].
Definition put_bool (tag : Z) (b : bool) : mar :=
  if b then run_mar [put_byte 1; put_byte tag] else skip_mar.
Definition put_delimited (tag : Z) (s : bytes) : mar :=
  run_mar [put_copy s; encodeVarint (zlen s); put_byte tag].
Definition put_bytes (tag : Z) (s : bytes) : mar :=
  if 0 <? zlen s then put_delimited tag s else skip_mar.
Definition put_raw (tag : Z) (r : option bytes) : mar := put_bytes tag (default [] r).

(** A [MarshalToSizedBufferVT]: it fills the end of its buffer, and says how
    much it wrote. *)
Definition sized := bytes -> outcome Empty_set (bytes * Z).

(** The method called on a nil pointer. *)
Definition sized_ptr {A} (f : A -> sized) (o : option A) : sized :=
  match o with None => fun dAtA => Ok (dAtA, 0) | Some v => f v end.

(** [size, err := v.MarshalToSizedBufferVT(dAtA[:i])], which shares the buffer,
    then the size and the tag. *)
Definition put_embedded (tag : Z) (f : sized) : mar := fun '(dAtA, i) =>
  if (0 <=? i) && (i <=? zlen dAtA) then
    '(front, size) ← f (take (Z.to_nat i) dAtA);
    run_mar [encodeVarint size; put_byte tag] (front ++ drop (Z.to_nat i) dAtA, i - size)
  else Panic SliceOutOfRange.

Definition put_message {A} (tag : Z) (f : A -> sized) (o : option A) : mar :=
  match o with None => skip_mar | Some v => put_embedded tag (f v) end.

(** From the last element to the first. *)
Definition put_repeated {A} (tag : Z) (f : A -> sized) (l : list (option A)) : mar :=
  run_mar ((fun e => put_embedded tag (sized_ptr f e)) <$> reverse l).

(** An entry of a map: the value, the key, and the length of both. *)
Definition put_entry (tag : Z) (k : bytes) (value : mar) : mar := fun '(dAtA, baseI) =>
  '(dAtA, i) ← run_mar [value; put_delimited 0xa k] (dAtA, baseI);
  run_mar [encodeVarint (baseI - i); put_byte tag] (dAtA, i).
Definition put_map {A} (tag : Z) (f : A -> sized) (l : list (bytes * option A)) : mar :=
  run_mar ((fun e => put_entry tag e.1 (put_embedded 0x12 (sized_ptr f e.2))) <$> l).
Definition put_strings (tag : Z) (l : list (bytes * bytes)) : mar :=
  run_mar ((fun e => put_entry tag e.1 (put_delimited 0x12 e.2)) <$> l).

(** The frame of a [MarshalToSizedBufferVT]. *)
Definition to_sized (l : list mar) : sized := fun dAtA =>
  '(dAtA, i) ← run_mar l (dAtA, zlen dAtA); Ok (dAtA, zlen dAtA - i).

(** The frame of a [MarshalVT]: [size] is [m.SizeVT()]. *)
Definition marshal (size : Z) (f : sized) : outcome Empty_set bytes :=
  if size <? 0 then Panic (ExplicitPanic "makeslice: len out of range") else
  '(dAtA, n) ← f (replicate (Z.to_nat size) x00);
  if (0 <=? n) && (n <=? zlen dAtA) then Ok (take (Z.to_nat n) dAtA) else Panic SliceOutOfRange.

(** ** Reading *)

Inductive vt_error :=
| ErrIntOverflow
| ErrInvalidLength
| ErrUnexpectedEndOfGroup
| VtUnexpectedEOF
| ErrEndGroup (message : string)
| ErrIllegalTag (message : string) (fieldNum wire : Z)
| ErrWrongWireType (field : string) (wireType : Z)
| ErrIllegalWireType (wireType : Z)
| VtOutOfFuel.

(** The loop that reads an integer into a variable of the type [wrap] stands
    for: the value and the index behind it. *)
Fixpoint varint_loop (wrap : Z -> Z) (shift v iNdEx : Z) (rest : bytes) : outcome vt_error (Z * Z) :=
  if 64 <=? shift then Err ErrIntOverflow else
  match rest with
  | [] => Err VtUnexpectedEOF
  | b :: rest =>
      let v := Z.lor v (wrap (Z.shiftl (Z.land (bz b) 0x7f) shift)) in
      if bz b <? 0x80 then Ok (v, iNdEx + 1) else varint_loop wrap (shift + 7) v (iNdEx + 1) rest
  end.

Definition varint_at (wrap : Z -> Z) (dAtA : bytes) (iNdEx : Z) : outcome vt_error (Z * Z) :=
  varint_loop wrap 0 0 iNdEx (drop (Z.to_nat iNdEx) dAtA).

Definition slice_z (dAtA : bytes) (a b : Z) : outcome vt_error bytes :=
  if (0 <=? a) && (a <=? b) && (b <=? zlen dAtA)
  then Ok (take (Z.to_nat (b - a)) (drop (Z.to_nat a) dAtA)) else Panic SliceOutOfRange.

(** [postIndex := iNdEx + n] with its checks. *)
Definition post_index (dAtA : bytes) (iNdEx n : Z) : outcome vt_error Z :=
  if n <? 0 then Err ErrInvalidLength else
  let postIndex := wrap_i64 (iNdEx + n) in
  if postIndex <? 0 then Err ErrInvalidLength
  else if zlen dAtA <? postIndex then Err VtUnexpectedEOF
  else Ok postIndex.

(** A length that is an [int], and one that is an [uint64] converted to it:
    where the content begins, and where it ends. *)
Definition int_len (dAtA : bytes) (iNdEx : Z) : outcome vt_error (Z * Z) :=
  '(n, iNdEx) ← varint_at wrap_i64 dAtA iNdEx;
  postIndex ← post_index dAtA iNdEx n;
  Ok (iNdEx, postIndex).
Definition string_len (dAtA : bytes) (iNdEx : Z) : outcome vt_error (Z * Z) :=
  '(n, iNdEx) ← varint_at wrap_u64 dAtA iNdEx;
  postIndex ← post_index dAtA iNdEx (wrap_i64 n);
  Ok (iNdEx, postIndex).

(** ** [skip] *)

(** The integer that is skipped. *)
Fixpoint skip_varint (shift iNdEx : Z) (rest : bytes) : outcome vt_error Z :=
  if 64 <=? shift then Err ErrIntOverflow else
  match rest with
  | [] => Err VtUnexpectedEOF
  | b :: rest => if bz b <? 0x80 then Ok (iNdEx + 1) else skip_varint (shift + 7) (iNdEx + 1) rest
  end.

(** The content behind a tag, and the depth of groups behind it. *)
Definition skip_content (dAtA : bytes) (wireType iNdEx depth : Z) : outcome vt_error (Z * Z) :=
  if wireType =? 0 then iNdEx ← skip_varint 0 iNdEx (drop (Z.to_nat iNdEx) dAtA); Ok (iNdEx, depth)
  else if wireType =? 1 then Ok (wrap_i64 (iNdEx + 8), depth)
  else if wireType =? 2 then
    '(n, iNdEx) ← varint_at wrap_i64 dAtA iNdEx;
    if n <? 0 then Err ErrInvalidLength else Ok (wrap_i64 (iNdEx + n), depth)
  else if wireType =? 3 then Ok (iNdEx, depth + 1)
  else if wireType =? 4 then if depth =? 0 then Err ErrUnexpectedEndOfGroup else Ok (iNdEx, depth - 1)
  else if wireType =? 5 then Ok (wrap_i64 (iNdEx + 4), depth)
  else Err (ErrIllegalWireType wireType).

Fixpoint skip_loop (fuel : nat) (dAtA : bytes) (iNdEx depth : Z) : outcome vt_error Z :=
  match fuel with
  | O => Err VtOutOfFuel
  | S fuel =>
      if iNdEx <? zlen dAtA then
        '(wire, iNdEx) ← varint_at wrap_u64 dAtA iNdEx;
        '(iNdEx, depth) ← skip_content dAtA (Z.land wire 7) iNdEx depth;
        if iNdEx <? 0 then Err ErrInvalidLength
        else if depth =? 0 then Ok iNdEx
        else skip_loop fuel dAtA iNdEx depth
      else Err VtUnexpectedEOF
  end.

Definition skip (dAtA : bytes) : outcome vt_error Z := skip_loop (S (length dAtA)) dAtA 0 0.

(** [skip] from an index, and the index behind what it skips, which [limit]
    bounds. *)
Definition skip_at (dAtA : bytes) (iNdEx limit : Z) : outcome vt_error Z :=
  skippy ← skip (drop (Z.to_nat iNdEx) dAtA);
  let next := wrap_i64 (iNdEx + skippy) in
  if (skippy <? 0) || (next <? 0) then Err ErrInvalidLength
  else if limit <? next then Err VtUnexpectedEOF
  else Ok next.

(** ** Fields *)

(** Reading the content of a field of [M] behind its tag. *)
Definition fdec (M : Type) := bytes -> Z -> M -> outcome vt_error (M * Z).

Section Fields.
Context {M : Type}.

Definition dec_uint (wrap : Z -> Z) (set : Z -> M -> M) : fdec M := fun dAtA iNdEx m =>
  '(v, iNdEx) ← varint_at wrap dAtA iNdEx; Ok (set v m, iNdEx).

Definition dec_bool (set : bool -> M -> M) : fdec M := fun dAtA iNdEx m =>
  '(v, iNdEx) ← varint_at wrap_i64 dAtA iNdEx; Ok (set (negb (v =? 0)) m, iNdEx).

Definition dec_string (set : bytes -> M -> M) : fdec M := fun dAtA iNdEx m =>
  '(iNdEx, postIndex) ← string_len dAtA iNdEx;
  s ← slice_z dAtA iNdEx postIndex;
  Ok (set s m, postIndex).

(** [append(m.F[:0], ...)], and a nil result made empty. *)
Definition dec_raw (set : option bytes -> M -> M) : fdec M := fun dAtA iNdEx m =>
  '(iNdEx, postIndex) ← int_len dAtA iNdEx;
  s ← slice_z dAtA iNdEx postIndex;
  Ok (set (Some s) m, postIndex).

(** A message is read into the one that is there, or into a new one. *)
Definition dec_message {A} (new : A) (unm : bytes -> A -> outcome vt_error A)
    (get : M -> option A) (set : option A -> M -> M) : fdec M := fun dAtA iNdEx m =>
  '(iNdEx, postIndex) ← int_len dAtA iNdEx;
  s ← slice_z dAtA iNdEx postIndex;
  v ← unm s (default new (get m));
  Ok (set (Some v) m, postIndex).

Definition dec_repeated {A} (new : A) (unm : bytes -> A -> outcome vt_error A)
    (get : M -> list (option A)) (set : list (option A) -> M -> M) : fdec M := fun dAtA iNdEx m =>
  '(iNdEx, postIndex) ← int_len dAtA iNdEx;
  s ← slice_z dAtA iNdEx postIndex;
  v ← unm s new;
  Ok (set (get m ++ [Some v]) m, postIndex).

(** [m[k] = v] on the entries of a map. *)
Fixpoint map_set {V} (k : bytes) (v : V) (l : list (bytes * V)) : list (bytes * V) :=
  match l with
  | [] => [(k, v)]
  | (k', v') :: l => if decide (k' = k) then (k, v) :: l else (k', v') :: map_set k v l
  end.

(** The entry of a map: keys and values until [postIndex], the last of each
    counting.  The reads are bounded by the input, not by [postIndex]. *)
Fixpoint entry_loop {V} (value : bytes -> Z -> outcome vt_error (V * Z)) (fuel : nat) (dAtA : bytes)
    (postIndex iNdEx : Z) (mapkey : bytes) (mapvalue : V) : outcome vt_error (bytes * V) :=
  match fuel with
  | O => Err VtOutOfFuel
  | S fuel =>
      if iNdEx <? postIndex then
        '(wire, next) ← varint_at wrap_u64 dAtA iNdEx;
        let fieldNum := wrap_i32 (Z.shiftr wire 3) in
        if fieldNum =? 1 then
          '(next, post) ← string_len dAtA next;
          k ← slice_z dAtA next post;
          entry_loop value fuel dAtA postIndex post k mapvalue
        else if fieldNum =? 2 then
          '(v, next) ← value dAtA next;
          entry_loop value fuel dAtA postIndex next mapkey v
        else
          next ← skip_at dAtA iNdEx postIndex;
          entry_loop value fuel dAtA postIndex next mapkey mapvalue
      else Ok (mapkey, mapvalue)
  end.

Definition dec_entry {V} (zero : V) (value : bytes -> Z -> outcome vt_error (V * Z))
    (get : M -> list (bytes * V)) (set : list (bytes * V) -> M -> M) : fdec M := fun dAtA iNdEx m =>
  '(iNdEx, postIndex) ← int_len dAtA iNdEx;
  '(k, v) ← entry_loop value (S (length dAtA)) dAtA postIndex iNdEx [] zero;
  Ok (set (map_set k v (get m)) m, postIndex).

Definition value_string : bytes -> Z -> outcome vt_error (bytes * Z) := fun dAtA iNdEx =>
  '(iNdEx, postIndex) ← string_len dAtA iNdEx;
  s ← slice_z dAtA iNdEx postIndex;
  Ok (s, postIndex).
Definition value_message {A} (new : A) (unm : bytes -> A -> outcome vt_error A) :
    bytes -> Z -> outcome vt_error (option A * Z) := fun dAtA iNdEx =>
  '(iNdEx, postIndex) ← int_len dAtA iNdEx;
  s ← slice_z dAtA iNdEx postIndex;
  v ← unm s new;
  Ok (Some v, postIndex).

Definition dec_strings := dec_entry (V := bytes) [] value_string.
Definition dec_map {A} (new : A) (unm : bytes -> A -> outcome vt_error A) :=
  dec_entry (V := option A) None (value_message new unm).

(** ** The frame of an [UnmarshalVT] *)

(** A case of the switch: the number, the wire type and the name of a field. *)
Record field_case := mkCase { f_num : Z; f_wire : Z; f_name : string; f_dec : fdec M }.

Definition find_case (num : Z) (fields : list field_case) : option field_case :=
  List.find (fun f => f.(f_num) =? num) fields.

Section Unmarshal.
(** The name of the message, its fields, and [m.unknownFields = append(...)]. *)
Context (name : string) (fields : list field_case) (add_unknown : bytes -> M -> M).

Fixpoint unmarshal_loop (fuel : nat) (dAtA : bytes) (iNdEx : Z) (m : M) : outcome vt_error M :=
  match fuel with
  | O => Err VtOutOfFuel
  | S fuel =>
      if iNdEx <? zlen dAtA then
        '(wire, next) ← varint_at wrap_u64 dAtA iNdEx;
        let fieldNum := wrap_i32 (Z.shiftr wire 3) in
        let wireType := Z.land wire 7 in
        if wireType =? 4 then Err (ErrEndGroup name)
        else if fieldNum <=? 0 then Err (ErrIllegalTag name fieldNum wire)
        else
          match find_case fieldNum fields with
          | Some f =>
              if wireType =? f.(f_wire) then
                '(m, next) ← f.(f_dec) dAtA next m; unmarshal_loop fuel dAtA next m
              else Err (ErrWrongWireType f.(f_name) wireType)
          | None =>
              next ← skip_at dAtA iNdEx (zlen dAtA);
              u ← slice_z dAtA iNdEx next;
              unmarshal_loop fuel dAtA next (add_unknown u m)
          end
      else if zlen dAtA <? iNdEx then Err VtUnexpectedEOF
      else Ok m
  end.

Definition unmarshal (dAtA : bytes) (m : M) : outcome vt_error M :=
  unmarshal_loop (S (length dAtA)) dAtA 0 m.

End Unmarshal.
End Fields.
Arguments field_case : clear implicits.
