(* ===== verification/VtProps.v ===== *)
(** The blocks of the protobuf codec (Vt.v) against the encoding as a function:
    what a block writes, that the size it counts is the size it writes, what it
    reads back, and that a decoder reads any input: it returns a message or an
    error of the code, without a panic, and its fuel is enough. *)

From S2P Require Import Prelude BytePool WireMsg Vt.

Open Scope Z_scope.

(** ** The encoding *)

Definition e_uint (tag v : Z) : bytes := if v =? 0 then [] else zb tag :: uvarint v.
Definition e_bool (tag : Z) (b : bool) : bytes := if b then [zb tag; x01] else [].
Definition e_delimited (tag : Z) (s : bytes) : bytes := zb tag :: uvarint (zlen s) ++ s.
Definition e_bytes (tag : Z) (s : bytes) : bytes := if 0 <? zlen s then e_delimited tag s else [].
Definition e_raw (tag : Z) (r : option bytes) : bytes := e_bytes tag (default [] r).
Definition e_ptr {A} (enc : A -> bytes) (o : option A) : bytes := match o with None => [] | Some v => enc v end.
Definition e_message {A} (tag : Z) (enc : A -> bytes) (o : option A) : bytes :=
  match o with None => [] | Some v => e_delimited tag (enc v) end.
Definition e_repeated {A} (tag : Z) (enc : A -> bytes) (l : list (option A)) : bytes :=
  concat ((fun e => e_delimited tag (e_ptr enc e)) <$> l).
Definition e_entry (tag : Z) (k value : bytes) : bytes := e_delimited tag (e_delimited 0xa k ++ value).

(** The first entry that is written ends up last. *)
Definition e_map {A} (tag : Z) (enc : A -> bytes) (l : list (bytes * option A)) : bytes :=
  concat (reverse ((fun e => e_entry tag e.1 (e_delimited 0x12 (e_ptr enc e.2))) <$> l)).
Definition e_strings (tag : Z) (l : list (bytes * bytes)) : bytes :=
  concat (reverse ((fun e => e_entry tag e.1 (e_delimited 0x12 e.2)) <$> l)).

Lemma zlen_app {A} (l k : list A) : zlen (l ++ k) = zlen l + zlen k.
Proof. unfold zlen. rewrite length_app. lia. Qed.
Lemma zlen_cons {A} (x : A) l : zlen (x :: l) = 1 + zlen l.
Proof. unfold zlen. simpl. lia. Qed.
Lemma zlen_nil {A} : zlen (@nil A) = 0.
Proof. done. Qed.
Lemma zlen_nonneg {A} (l : list A) : 0 <= zlen l.
Proof. unfold zlen. lia. Qed.

Create HintDb zlen.
#[export] Hint Rewrite @zlen_app @zlen_cons @zlen_nil : zlen.

(** Arithmetic on the lengths of the lists in the context. *)
Ltac zlen_pos :=
  repeat match goal with
  | |- context [zlen ?l] =>
      lazymatch goal with H : 0 <= zlen l |- _ => fail | _ => pose proof (zlen_nonneg l) end
  | _ : context [zlen ?l] |- _ =>
      lazymatch goal with H : 0 <= zlen l |- _ => fail | _ => pose proof (zlen_nonneg l) end
  end.
Ltac zlia := autorewrite with zlen in *; zlen_pos; lia.

(** ** [sov] counts the groups *)

Lemma Len64_lor1 v : 0 < v -> Len64 (Z.lor v 1) = Z.log2 v + 1.
Proof.
  intros Hv. unfold Len64.
  assert (Z.lor v 1 <> 0) as Hne by (intros H; apply Z.lor_eq_0_iff in H; lia).
  destruct (Z.eqb_spec (Z.lor v 1) 0); [done|]. rewrite Z.log2_lor by lia.
  change (Z.log2 1) with 0. pose proof (Z.log2_nonneg v). lia.
Qed.

Lemma uvarint_groups_sov fuel v :
  0 <= v < 2 ^ (7 * Z.of_nat (S fuel)) -> sov v = zlen (uvarint_groups (S fuel) v).
Proof.
  revert v. induction fuel as [|fuel IH]; intros v Hv; rewrite uvarint_groups_S.
  all: destruct (Z.leb_spec 128 v) as [H|H].
  - change (2 ^ (7 * Z.of_nat 1)) with 128 in Hv. lia.
  - unfold sov. destruct (Z.eq_dec v 0) as [->|Hne]; [done|]. rewrite Len64_lor1 by lia.
    assert (Z.log2 v < 7) by (apply Z.log2_lt_pow2; lia). pose proof (Z.log2_nonneg v).
    change (zlen [zb v]) with 1. mod_lia.
  - pose proof (shiftr_group _ _ Hv) as Hs. rewrite zlen_cons, <- IH by done.
    assert (Hp : 0 < Z.shiftr v 7) by (rewrite Z.shiftr_div_pow2 by lia; change (2 ^ 7) with 128; mod_lia).
    unfold sov. rewrite !Len64_lor1 by lia. rewrite Z.log2_shiftr by lia.
    assert (7 <= Z.log2 v) by (apply Z.log2_le_pow2; lia).
    rewrite Z.max_r by lia. mod_lia.
  - unfold sov. destruct (Z.eq_dec v 0) as [->|Hne]; [done|]. rewrite Len64_lor1 by lia.
    assert (Z.log2 v < 7) by (apply Z.log2_lt_pow2; lia). pose proof (Z.log2_nonneg v).
    change (zlen [zb v]) with 1. mod_lia.
Qed.

Lemma sov_uvarint v : 0 <= v < 2 ^ 64 -> sov v = zlen (uvarint v).
Proof.
  intros Hv. apply uvarint_groups_sov. change (2 ^ (7 * Z.of_nat 10)) with (2 ^ 70). lia.
Qed.

(** ** Sizes *)

(** The count of a block whose encoding is [e]. *)
Definition size_is (n : Z) (e : bytes) : Prop := zlen e < 2 ^ 63 -> n = zlen e.

Lemma size_is_uint tag v : 0 <= v < 2 ^ 64 -> size_is (size_uint v) (e_uint tag v).
Proof.
  intros Hv _. unfold size_uint, e_uint. destruct (v =? 0); [done|]. rewrite sov_uvarint by done. zlia.
Qed.

Lemma size_is_bool tag b : size_is (size_bool b) (e_bool tag b).
Proof. intros _. by destruct b. Qed.

Lemma zlen_delimited tag s : zlen (e_delimited tag s) = 1 + zlen (uvarint (zlen s)) + zlen s.
Proof. unfold e_delimited. zlia. Qed.

Lemma size_is_delimited tag n s : size_is n s -> size_is (size_delimited n) (e_delimited tag s).
Proof.
  intros Hn. unfold size_is. rewrite zlen_delimited. intros Hl. unfold size_delimited.
  assert (zlen s < 2 ^ 63) as Hs by zlia. rewrite (Hn Hs), sov_uvarint by zlia. lia.
Qed.

Lemma size_is_zlen s : size_is (zlen s) s.
Proof. by intros _. Qed.

Lemma size_is_bytes tag s : size_is (size_bytes s) (e_bytes tag s).
Proof.
  unfold size_bytes, e_bytes. destruct (0 <? zlen s); [|by intros _].
  apply size_is_delimited, size_is_zlen.
Qed.

Lemma size_is_raw tag r : size_is (size_raw r) (e_raw tag r).
Proof. apply size_is_bytes. Qed.

Lemma size_is_ptr {A} (f : A -> Z) enc o :
  (forall v, o = Some v -> size_is (f v) (enc v)) -> size_is (size_ptr f o) (e_ptr enc o).
Proof. intros H. destruct o as [v|]; [by apply H|by intros _]. Qed.

Lemma size_is_message {A} tag (f : A -> Z) enc o :
  (forall v, o = Some v -> size_is (f v) (enc v)) -> size_is (size_message f o) (e_message tag enc o).
Proof. intros H. destruct o as [v|]; [by apply size_is_delimited, H|by intros _]. Qed.

Lemma size_is_app n1 n2 e1 e2 : size_is n1 e1 -> size_is n2 e2 -> size_is (n1 + n2) (e1 ++ e2).
Proof. intros H1 H2 Hl. rewrite H1, H2 by zlia. zlia. Qed.

(** A sum over elements whose encodings are joined, in either order. *)
Lemma size_is_fold {A} (n : A -> Z) (e : A -> bytes) l :
  Forall (fun x => size_is (n x) (e x)) l ->
  size_is (fold_left (fun s x => s + n x) l 0) (concat (e <$> l)).
Proof.
  intros H. assert (Hg : forall s, zlen (concat (e <$> l)) < 2 ^ 63 ->
    fold_left (fun s x => s + n x) l s = s + zlen (concat (e <$> l))); [|intros Hl; by apply Hg].
  induction H as [|x l Hx _ IH]; intros s Hl; csimpl in *; [zlia|].
  rewrite IH by zlia. rewrite Hx by zlia. zlia.
Qed.

Lemma zlen_concat_reverse (l : list bytes) : zlen (concat (reverse l)) = zlen (concat l).
Proof.
  induction l as [|x l IH]; [done|]. rewrite reverse_cons, concat_app. simpl. zlia.
Qed.

Lemma size_is_reverse n (l : list bytes) : size_is n (concat l) -> size_is n (concat (reverse l)).
Proof. unfold size_is. by rewrite zlen_concat_reverse. Qed.

Lemma size_is_repeated {A} tag (f : A -> Z) enc l :
  Forall (fun o => forall v, o = Some v -> size_is (f v) (enc v)) l ->
  size_is (size_repeated f l) (e_repeated tag enc l).
Proof.
  intros H. unfold size_repeated, e_repeated.
  apply (size_is_fold (fun e => size_delimited (size_ptr f e))). eapply Forall_impl; [exact H|].
  intros o Ho. by apply size_is_delimited, size_is_ptr.
Qed.

Lemma size_is_entry tag k n v : size_is n v -> size_is (size_entry k n) (e_entry tag k v).
Proof.
  intros Hn. unfold size_entry, e_entry. intros Hl.
  set (b := e_delimited 10 k ++ v) in *.
  assert (Hb : size_is (1 + zlen k + sov (zlen k) + n) b).
  { apply size_is_app; [|done]. apply (size_is_delimited 10 _ _ (size_is_zlen k)). }
  rewrite <- (size_is_delimited tag _ _ Hb Hl). unfold size_delimited. lia.
Qed.

Lemma size_is_map {A} tag (f : A -> Z) enc l :
  Forall (fun e => forall v, e.2 = Some v -> size_is (f v) (enc v)) l ->
  size_is (size_map f l) (e_map tag enc l).
Proof.
  intros H. unfold size_map, e_map. apply size_is_reverse.
  apply (size_is_fold (fun e : bytes * option A => size_entry e.1 (let l := size_ptr f e.2 in l + (1 + sov l)))).
  eapply Forall_impl; [exact H|]. intros e He. apply size_is_entry. cbv zeta.
  replace (size_ptr f e.2 + (1 + sov (size_ptr f e.2))) with (size_delimited (size_ptr f e.2))
    by (unfold size_delimited; lia).
  by apply size_is_delimited, size_is_ptr.
Qed.

Lemma size_is_strings tag l : size_is (size_strings l) (e_strings tag l).
Proof.
  unfold size_strings, e_strings. apply size_is_reverse.
  apply (size_is_fold (fun e : bytes * bytes => size_entry e.1 (1 + zlen e.2 + sov (zlen e.2)))).
  apply Forall_true. intros e. apply size_is_entry, (size_is_delimited 0x12 (zlen e.2)), size_is_zlen.
Qed.

Lemma size_is_all ns es : Forall2 size_is ns es -> size_is (sum_sizes ns) (concat es).
Proof.
  intros H. assert (Hg : forall s, zlen (concat es) < 2 ^ 63 ->
    fold_left Z.add ns s = s + zlen (concat es)); [|intros Hl; by apply Hg].
  induction H as [|n e ns es He _ IH]; intros s Hl; simpl in *; [zlia|].
  rewrite IH by zlia. rewrite He by zlia. zlia.
Qed.

(** ** Writing *)

(** The block writes [e] in front of the index, into room of its size. *)
Definition puts (a : mar) (e : bytes) : Prop :=
  zlen e < 2 ^ 63 -> forall pre free suf, length free = length e ->
  a (pre ++ free ++ suf, zlen pre + zlen e) = Ok (pre ++ e ++ suf, zlen pre).

Lemma puts_skip : puts skip_mar [].
Proof. intros _ pre free suf Hf. destruct free; [|done]. unfold skip_mar. rewrite zlen_nil. do 2 f_equal. lia. Qed.

Lemma store_at pre x b suf :
  store_z (pre ++ x :: suf) (zlen pre) b = Ok (pre ++ b :: suf).
Proof.
  unfold store_z. destruct (Z.leb_spec 0 (zlen pre)); [|zlia].
  destruct (Z.ltb_spec (zlen pre) (zlen (pre ++ x :: suf))); [|zlia]. simpl.
  unfold zlen. rewrite Nat2Z.id. f_equal. by rewrite insert_app_r_alt, Nat.sub_diag by lia.
Qed.

Lemma puts_byte b : puts (put_byte b) [zb b].
Proof.
  intros _ pre free suf Hf. destruct free as [|x [|]]; try done. unfold put_byte.
  change (zlen [zb b]) with 1. replace (zlen pre + 1 - 1) with (zlen pre) by lia.
  simpl. rewrite store_at. done.
Qed.

Lemma puts_copy s : puts (put_copy s) s.
Proof.
  intros _ pre free suf Hf. unfold put_copy. replace (zlen pre + zlen s - zlen s) with (zlen pre) by lia.
  destruct (Z.leb_spec 0 (zlen pre)); [|zlia].
  destruct (Z.leb_spec (zlen pre) (zlen (pre ++ free ++ suf))); [|zlia]. simpl.
  do 2 f_equal. unfold go_copy_at, zlen. rewrite Nat2Z.id, take_app_length, drop_app_length. f_equal.
  rewrite go_copy_fits by (rewrite length_app; lia). f_equal. by rewrite <- Hf, drop_app_length.
Qed.

Lemma encodeVarint_loop_puts fuel pre free suf v :
  0 <= v < 2 ^ (7 * Z.of_nat (S fuel)) -> length free = length (uvarint_groups (S fuel) v) ->
  encodeVarint_loop (S fuel) (pre ++ free ++ suf) (zlen pre) v = Ok (pre ++ uvarint_groups (S fuel) v ++ suf).
Proof.
  revert pre free v. induction fuel as [|fuel IH]; intros pre free v Hv.
  - rewrite uvarint_groups_S. change (2 ^ (7 * Z.of_nat 1)) with 128 in Hv. cbn [encodeVarint_loop].
    destruct (Z.leb_spec 128 v); [lia|]. intros Hf. destruct free as [|x [|]]; try done. simpl. apply store_at.
  - rewrite uvarint_groups_S. change (encodeVarint_loop (S (S fuel))) with (fun dAtA offset v =>
      if 0x80 <=? v then
        dAtA ← store_z dAtA offset (zb (Z.lor (Z.land v 0x7f) 0x80));
        encodeVarint_loop (S fuel) dAtA (offset + 1) (Z.shiftr v 7)
      else store_z dAtA offset (zb v)). cbv beta.
    destruct (Z.leb_spec 128 v) as [H|H].
    + intros Hf. destruct free as [|x free]; [done|]. injection Hf as Hf. simpl app. rewrite store_at.
      change (mbind ?f (Ok ?a)) with (f a). cbv beta.
      set (g := zb (Z.lor (Z.land v 127) 128)).
      assert (Hg : g = zb (Z.lor (v mod 256) 128)).
      { unfold g. rewrite group_bits. change 127 with (Z.ones 7). rewrite Z.land_ones by lia.
        change (2 ^ 7) with 128. replace (v mod 128) with ((v mod 128) mod 256) at 1 by mod_lia.
        rewrite group_bits. f_equal. mod_lia. }
      rewrite <- Hg. replace (pre ++ g :: free ++ suf) with ((pre ++ [g]) ++ free ++ suf) by (by rewrite <- app_assoc).
      replace (zlen pre + 1) with (zlen (pre ++ [g])) by (rewrite zlen_app; done).
      rewrite IH; [by rewrite <- app_assoc|by apply shiftr_group|done].
    + intros Hf. destruct free as [|x [|]]; try done. simpl. apply store_at.
Qed.

Lemma puts_varint v : 0 <= v < 2 ^ 64 -> puts (encodeVarint v) (uvarint v).
Proof.
  intros Hv _ pre free suf Hf. unfold encodeVarint. rewrite sov_uvarint by done.
  replace (zlen pre + zlen (uvarint v) - zlen (uvarint v)) with (zlen pre) by lia.
  unfold MaxVarintLen64. rewrite encodeVarint_loop_puts; [done| |done].
  change (2 ^ (7 * Z.of_nat 10)) with (2 ^ 70). lia.
Qed.

(** Blocks run one after another: the first writes the end. *)
Lemma puts_cons a l e1 e2 : puts a e1 -> puts (run_mar l) e2 -> puts (run_mar (a :: l)) (e2 ++ e1).
Proof.
  intros H1 H2 Hl pre free suf Hf. cbn [run_mar].
  rewrite length_app in Hf. rewrite zlen_app in Hl |- *.
  rewrite <- (take_drop (length e2) free), <- !app_assoc.
  set (f2 := take (length e2) free). set (f1 := drop (length e2) free).
  assert (Hf2 : length f2 = length e2) by (unfold f2; rewrite length_take; lia).
  assert (Hf1 : length f1 = length e1) by (unfold f1; rewrite length_drop; lia).
  pose proof (H1 ltac:(zlia) (pre ++ f2) f1 suf Hf1) as E1.
  rewrite <- !app_assoc, zlen_app in E1. unfold zlen in E1 at 2. rewrite Hf2 in E1. fold (zlen e2) in E1.
  replace (zlen pre + (zlen e2 + zlen e1)) with (zlen pre + zlen e2 + zlen e1) by lia.
  rewrite E1. change (mbind ?f (Ok ?a)) with (f a). cbv beta.
  pose proof (H2 ltac:(zlia) pre f2 (e1 ++ suf) Hf2) as E2.
  replace (zlen f2) with (zlen e2) by (unfold zlen; lia). exact E2.
Qed.

Lemma puts_nil : puts (run_mar []) [].
Proof. apply puts_skip. Qed.

Lemma puts_two a b e1 e2 : puts a e1 -> puts b e2 -> puts (run_mar [a; b]) (e2 ++ e1).
Proof.
  intros H1 H2. apply puts_cons; [done|]. rewrite <- (app_nil_l e2). apply puts_cons; [done|apply puts_nil].
Qed.

(** Blocks in the order they run, encodings in the order of the bytes. *)
Lemma puts_all l es : Forall2 puts l (reverse es) -> puts (run_mar l) (concat es).
Proof.
  intros H. rewrite <- (reverse_involutive es). remember (reverse es) as rs eqn:Hr. clear es Hr.
  induction H as [|a e l rs Ha _ IH]; [apply puts_nil|].
  rewrite reverse_cons, concat_app. simpl. rewrite app_nil_r. by apply puts_cons.
Qed.

Lemma puts_uint tag v : 0 <= v < 2 ^ 64 -> puts (put_uint tag v) (e_uint tag v).
Proof.
  intros Hv. unfold put_uint, e_uint. destruct (v =? 0); [apply puts_skip|].
  apply (puts_two _ _ _ [zb tag]); [by apply puts_varint|apply puts_byte].
Qed.

Lemma puts_bool tag b : puts (put_bool tag b) (e_bool tag b).
Proof.
  unfold put_bool, e_bool. destruct b; [|apply puts_skip].
  apply (puts_two _ _ [x01] [zb tag]); [apply puts_byte|apply puts_byte].
Qed.

Lemma zlen_le_delimited tag s : zlen s <= zlen (e_delimited tag s).
Proof. rewrite zlen_delimited. zlia. Qed.

(** The length and the tag in front of a content. *)
Lemma puts_header tag n :
  0 <= n < 2 ^ 64 -> puts (run_mar [encodeVarint n; put_byte tag]) (zb tag :: uvarint n).
Proof.
  intros Hn. apply (puts_two _ _ (uvarint n) [zb tag]); [by apply puts_varint|apply puts_byte].
Qed.

(** A bound on the encoding may be used to show what a block writes. *)
Lemma puts_bounded a e : (zlen e < 2 ^ 63 -> puts a e) -> puts a e.
Proof. intros H Hl. exact (H Hl Hl). Qed.

Lemma puts_delimited tag s : puts (put_delimited tag s) (e_delimited tag s).
Proof.
  apply puts_bounded. intros Hl. pose proof (zlen_le_delimited tag s). unfold put_delimited, e_delimited.
  rewrite app_comm_cons. apply puts_cons; [apply puts_copy|]. apply puts_header. zlia.
Qed.

Lemma puts_bytes tag s : puts (put_bytes tag s) (e_bytes tag s).
Proof. unfold put_bytes, e_bytes. destruct (0 <? zlen s); [apply puts_delimited|apply puts_skip]. Qed.

Lemma puts_raw tag r : puts (put_raw tag r) (e_raw tag r).
Proof. apply puts_bytes. Qed.

(** The method fills the end of its buffer with [e]. *)
Definition sized_ok (f : sized) (e : bytes) : Prop :=
  zlen e < 2 ^ 63 -> forall pre free, length free = length e -> f (pre ++ free) = Ok (pre ++ e, zlen e).

Lemma sized_ok_bounded f e : (zlen e < 2 ^ 63 -> sized_ok f e) -> sized_ok f e.
Proof. intros H Hl. exact (H Hl Hl). Qed.

Lemma to_sized_ok l e : puts (run_mar l) e -> sized_ok (to_sized l) e.
Proof.
  intros H Hl pre free Hf. unfold to_sized. pose proof (H Hl pre free [] Hf) as E.
  rewrite !app_nil_r in E. replace (zlen (pre ++ free)) with (zlen pre + zlen e) by (rewrite zlen_app; unfold zlen; lia).
  rewrite E. change (mbind ?f (Ok ?a)) with (f a). cbv beta iota. do 2 f_equal. zlia.
Qed.

Lemma sized_ptr_ok {A} (f : A -> sized) enc o :
  (forall v, o = Some v -> sized_ok (f v) (enc v)) -> sized_ok (sized_ptr f o) (e_ptr enc o).
Proof.
  intros H. destruct o as [v|]; [by apply H|]. intros _ pre free Hf. by destruct free.
Qed.

Lemma puts_embedded tag f e : sized_ok f e -> puts (put_embedded tag f) (e_delimited tag e).
Proof.
  intros Hf. apply puts_bounded. intros Hl. pose proof (zlen_le_delimited tag e) as Hle.
  intros _ pre free suf Hfree. unfold put_embedded.
  destruct (Z.leb_spec 0 (zlen pre + zlen (e_delimited tag e))); [|zlia].
  assert (Hd : zlen free = zlen (e_delimited tag e)) by (unfold zlen; lia).
  destruct (Z.leb_spec (zlen pre + zlen (e_delimited tag e)) (zlen (pre ++ free ++ suf))); [|zlia]. cbn [andb].
  set (h := zb tag :: uvarint (zlen e)). change (e_delimited tag e) with (h ++ e) in *.
  set (f1 := take (length h) free). set (f2 := drop (length h) free).
  rewrite length_app in Hfree.
  assert (Hf1 : length f1 = length h) by (unfold f1; rewrite length_take; lia).
  assert (Hf2 : length f2 = length e) by (unfold f2; rewrite length_drop; lia).
  assert (Hfr : free = f1 ++ f2) by (unfold f1, f2; by rewrite take_drop).
  assert (Hto : Z.to_nat (zlen pre + zlen (h ++ e)) = length (pre ++ free)).
  { rewrite zlen_app, Hfr, !length_app. unfold zlen. lia. }
  rewrite Hto, app_assoc, take_app_length, drop_app_length, Hfr, app_assoc.
  rewrite (Hf ltac:(lia) (pre ++ f1) f2 Hf2). change (mbind ?f (Ok ?a)) with (f a). cbv beta iota.
  replace (zlen pre + zlen (h ++ e) - zlen e) with (zlen pre + zlen h) by (rewrite zlen_app; lia).
  rewrite <- !app_assoc. refine (puts_header tag (zlen e) _ _ pre f1 (e ++ suf) Hf1).
  - pose proof (zlen_nonneg e). lia.
  - fold h. rewrite zlen_app in Hl. pose proof (zlen_nonneg e). lia.
Qed.

Lemma puts_message {A} tag (f : A -> sized) enc o :
  (forall v, o = Some v -> sized_ok (f v) (enc v)) -> puts (put_message tag f o) (e_message tag enc o).
Proof. intros H. destruct o as [v|]; [by apply puts_embedded, H|apply puts_skip]. Qed.

Lemma puts_repeated {A} tag (f : A -> sized) enc l :
  Forall (fun o => forall v, o = Some v -> sized_ok (f v) (enc v)) l ->
  puts (put_repeated tag f l) (e_repeated tag enc l).
Proof.
  intros H. unfold put_repeated, e_repeated. apply puts_all. rewrite <- fmap_reverse.
  apply Forall2_fmap. apply Forall_Forall2_diag. apply Forall_reverse. eapply Forall_impl; [exact H|].
  intros o Ho. by apply puts_embedded, sized_ptr_ok.
Qed.

Lemma puts_entry tag k value e : puts value e -> puts (put_entry tag k value) (e_entry tag k e).
Proof.
  intros Hv. apply puts_bounded. intros Hl. intros _ pre free suf Hfree. unfold put_entry, e_entry in *.
  set (b := e_delimited 10 k ++ e) in *. pose proof (zlen_le_delimited tag b) as Hle.
  assert (Hb : puts (run_mar [value; put_delimited 10 k]) b).
  { apply puts_two; [done|apply puts_delimited]. }
  set (h := zb tag :: uvarint (zlen b)). change (e_delimited tag b) with (h ++ b) in *.
  set (f1 := take (length h) free). set (f2 := drop (length h) free).
  rewrite length_app in Hfree.
  assert (Hf1 : length f1 = length h) by (unfold f1; rewrite length_take; lia).
  assert (Hf2 : length f2 = length b) by (unfold f2; rewrite length_drop; lia).
  assert (Hfr : free = f1 ++ f2) by (unfold f1, f2; by rewrite take_drop).
  assert (Hz1 : zlen f1 = zlen h) by (unfold zlen; lia).
  rewrite zlen_app in Hl, Hle. pose proof (zlen_nonneg h). pose proof (zlen_nonneg b).
  pose proof (Hb ltac:(lia) (pre ++ f1) f2 suf Hf2) as E.
  rewrite zlen_app, Hz1 in E. rewrite Hfr, <- !app_assoc. rewrite <- !app_assoc in E.
  replace (zlen pre + zlen (h ++ b)) with (zlen pre + zlen h + zlen b) by (rewrite zlen_app; lia).
  rewrite E. change (mbind ?f (Ok ?a)) with (f a). cbv beta iota.
  replace (zlen pre + zlen h + zlen b - (zlen pre + zlen h)) with (zlen b) by lia.
  exact (puts_header tag (zlen b) ltac:(lia) ltac:(fold h; lia) pre f1 (b ++ suf) Hf1).
Qed.

Lemma puts_entries {A} (a : A -> mar) (e : A -> bytes) l :
  Forall (fun x => puts (a x) (e x)) l -> puts (run_mar (a <$> l)) (concat (reverse (e <$> l))).
Proof.
  intros H. apply puts_all. rewrite reverse_involutive. apply Forall2_fmap. by apply Forall_Forall2_diag.
Qed.

Lemma puts_map {A} tag (f : A -> sized) enc l :
  Forall (fun e => forall v, e.2 = Some v -> sized_ok (f v) (enc v)) l ->
  puts (put_map tag f l) (e_map tag enc l).
Proof.
  intros H. apply puts_entries. eapply Forall_impl; [exact H|]. intros e He.
  by apply puts_entry, puts_embedded, sized_ptr_ok.
Qed.

Lemma puts_strings tag l : puts (put_strings tag l) (e_strings tag l).
Proof. apply puts_entries, Forall_true. intros e. apply puts_entry, puts_delimited. Qed.

(** [MarshalVT] gives the encoding when the size is its size. *)
Lemma marshal_ok n f e :
  size_is n e -> sized_ok f e -> zlen e < 2 ^ 63 -> marshal n f = Ok e.
Proof.
  intros Hn Hf Hl. unfold marshal. rewrite (Hn Hl). destruct (Z.ltb_spec (zlen e) 0); [zlia|].
  pose proof (Hf Hl [] (replicate (Z.to_nat (zlen e)) x00)) as E. simpl in E. rewrite E.
  2:{ rewrite length_replicate. unfold zlen. lia. }
  change (mbind ?f (Ok ?a)) with (f a). cbv beta iota.
  destruct (Z.leb_spec 0 (zlen e)); [|zlia]. destruct (Z.leb_spec (zlen e) (zlen e)); [|lia]. simpl.
  f_equal. apply take_ge. unfold zlen. lia.
Qed.

(** ** Integers *)

(** A type that holds the values up to [v]. *)
Definition holds (wrap : Z -> Z) (v : Z) : Prop := forall z, 0 <= z <= v -> wrap z = z.

Lemma holds_u64 v : v < 2 ^ 64 -> holds wrap_u64 v.
Proof. intros H z Hz. apply wrap_u64_small. lia. Qed.
Lemma holds_i64 v : v < 2 ^ 63 -> holds wrap_i64 v.
Proof. intros H z Hz. apply wrap_i64_small. lia. Qed.
Lemma holds_u32 v : v < 2 ^ 32 -> holds wrap_u32 v.
Proof. intros H z Hz. apply wrap_u32_small. lia. Qed.

Lemma varint_loop_groups wrap fuel i x s v iNdEx rest :
  at_group i (S fuel) x s v -> holds wrap (x + v * 2 ^ s) ->
  varint_loop wrap s x iNdEx (uvarint_groups (S fuel) v ++ rest) =
    Ok (x + v * 2 ^ s, iNdEx + zlen (uvarint_groups (S fuel) v)).
Proof.
  revert i x s v iNdEx. induction fuel as [|fuel IH]; intros i x s v iNdEx Hat Hh; rewrite uvarint_groups_S.
  all: destruct (Z.leb_spec 128 v) as [Hv|Hv]; rewrite <- app_comm_cons; cbn [varint_loop].
  all: assert (Hs : (64 <=? s) = false)
    by (destruct Hat as [(-> & Hx & Hv' & Hlt) Hi]; unfold MaxVarintLen64 in Hi; apply Z.leb_gt; lia).
  all: rewrite Hs.
  2, 4: destruct (at_group_last _ _ _ _ _ Hat Hv) as (_ & _ & Hb & Hor);
    destruct Hat as [(-> & Hx & Hv' & Hlt) Hi]; rewrite Hb, land_127, Z.mod_small by lia;
    destruct (Z.ltb_spec v 128); [|lia]; do 2 f_equal;
    rewrite <- Hor; f_equal; rewrite Z.shiftl_mul_pow2 by lia;
    rewrite wrap_u64_small by nia; apply Hh; nia.
  all: destruct (at_group_step _ _ _ _ _ _ Hat Hv eq_refl) as (x' & Hx' & Hsum & Hb & Hi & Hat').
  - apply at_group_fuel in Hat'. rewrite Z.shiftr_div_pow2 in Hat' by lia.
    change (2 ^ 7) with 128 in Hat'. mod_lia.
  - rewrite Hb. assert (Hw : wrap (Z.shiftl (Z.land (bz (zb (Z.lor (v mod 256) 128))) 127) s) =
      wrap_u64 (Z.shiftl (Z.land (bz (zb (Z.lor (v mod 256) 128))) 127) s)).
    { rewrite bz_zb, group_bits, Z.shiftl_mul_pow2 by (destruct Hat as [(-> & _) _]; lia).
      rewrite (Z.mod_small (128 + v mod 128)) by mod_lia. rewrite land_127 by mod_lia.
      destruct Hat as [(-> & Hx & Hv' & Hlt) _].
      assert (Hp : 0 < 2 ^ (7 * Z.of_nat i)) by (apply Z.pow_pos_nonneg; lia).
      assert (Hle : (128 + v mod 128) mod 128 <= v) by mod_lia.
      assert (Hge : 0 <= (128 + v mod 128) mod 128) by mod_lia.
      rewrite wrap_u64_small by nia. apply Hh. nia. }
    rewrite Hw, Hx', (IH (S i)); [|done|by rewrite Hsum]. rewrite Hsum. f_equal. f_equal. rewrite zlen_cons. lia.
Qed.

Lemma varint_at_uvarint wrap pre v suf :
  0 <= v < 2 ^ 64 -> holds wrap v ->
  varint_at wrap (pre ++ uvarint v ++ suf) (zlen pre) = Ok (v, zlen pre + zlen (uvarint v)).
Proof.
  intros Hv Hh. unfold varint_at. unfold zlen at 2. rewrite Nat2Z.id, drop_app_length.
  unfold uvarint, MaxVarintLen64.
  rewrite (varint_loop_groups wrap 9 0 0 0 v); [f_equal; f_equal; lia|by apply at_group_start|].
  replace (0 + v * 2 ^ 0) with v by lia. done.
Qed.

Lemma post_index_ok dAtA i n :
  0 <= i -> 0 <= n -> i + n <= zlen dAtA -> zlen dAtA < 2 ^ 63 -> post_index dAtA i n = Ok (i + n).
Proof.
  intros Hi Hn Hle Hl. unfold post_index. destruct (Z.ltb_spec n 0); [lia|].
  rewrite wrap_i64_small by lia. destruct (Z.ltb_spec (i + n) 0); [lia|].
  destruct (Z.ltb_spec (zlen dAtA) (i + n)); [lia|done].
Qed.

Lemma slice_z_ok pre s suf : slice_z (pre ++ s ++ suf) (zlen pre) (zlen pre + zlen s) = Ok s.
Proof.
  unfold slice_z. pose proof (zlen_nonneg pre). pose proof (zlen_nonneg s). pose proof (zlen_nonneg suf).
  destruct (Z.leb_spec 0 (zlen pre)); [|lia].
  destruct (Z.leb_spec (zlen pre) (zlen pre + zlen s)); [|lia].
  destruct (Z.leb_spec (zlen pre + zlen s) (zlen (pre ++ s ++ suf))); [|rewrite !zlen_app in *; lia].
  cbn [andb]. replace (Z.to_nat (zlen pre + zlen s - zlen pre)) with (length s) by (unfold zlen; lia).
  unfold zlen. by rewrite Nat2Z.id, drop_app_length, take_app_length.
Qed.

(** The two ways a length is read in front of the content it counts. *)
Definition len_reads (lenf : bytes -> Z -> outcome vt_error (Z * Z)) : Prop :=
  forall pre s suf, zlen (pre ++ (uvarint (zlen s) ++ s) ++ suf) < 2 ^ 63 ->
  lenf (pre ++ (uvarint (zlen s) ++ s) ++ suf) (zlen pre) =
    Ok (zlen (pre ++ uvarint (zlen s)), zlen (pre ++ uvarint (zlen s)) + zlen s).

Lemma int_len_reads : len_reads int_len.
Proof.
  intros pre s suf Hl. unfold int_len. rewrite <- app_assoc in *.
  assert (zlen s < 2 ^ 63 /\ 0 <= zlen s) as Hs by zlia.
  rewrite varint_at_uvarint; [|lia|apply holds_i64; lia].
  change (mbind ?f (Ok ?a)) with (f a). cbv beta iota. rewrite <- zlen_app.
  rewrite post_index_ok; [done|apply zlen_nonneg|lia|zlia|done].
Qed.

Lemma string_len_reads : len_reads string_len.
Proof.
  intros pre s suf Hl. unfold string_len. rewrite <- app_assoc in *.
  assert (zlen s < 2 ^ 63 /\ 0 <= zlen s) as Hs by zlia.
  rewrite varint_at_uvarint; [|lia|apply holds_u64; lia].
  change (mbind ?f (Ok ?a)) with (f a). cbv beta iota. rewrite <- zlen_app, wrap_i64_small by lia.
  rewrite post_index_ok; [done|apply zlen_nonneg|lia|zlia|done].
Qed.

(** ** Contents *)

(** The field is read from [body], and the message becomes [m']. *)
Definition dec_reads {M} (dec : fdec M) (body : bytes) (m m' : M) : Prop :=
  forall pre suf, zlen (pre ++ body ++ suf) < 2 ^ 63 ->
  dec (pre ++ body ++ suf) (zlen pre) m = Ok (m', zlen pre + zlen body).

(** Reads a length and its content. *)
Ltac read_content H :=
  let E1 := fresh in let E2 := fresh in let E3 := fresh in
  destruct H as (E1 & E2 & E3); rewrite E1; change (mbind ?f (Ok ?a)) with (f a); cbv beta iota;
  rewrite E2; change (mbind ?f (Ok ?a)) with (f a); cbv beta iota; rewrite ?E3; clear E1 E2 E3.

Section Contents.
Context {M : Type}.
Implicit Type m : M.

Lemma reads_uint wrap (set : Z -> M -> M) v m :
  0 <= v < 2 ^ 64 -> holds wrap v -> dec_reads (dec_uint wrap set) (uvarint v) m (set v m).
Proof. intros Hv Hh pre suf Hl. unfold dec_uint. by rewrite varint_at_uvarint. Qed.

Lemma reads_bool (set : bool -> M -> M) m : dec_reads (dec_bool set) [x01] m (set true m).
Proof.
  intros pre suf Hl. unfold dec_bool. change [x01] with (uvarint 1).
  rewrite varint_at_uvarint; [done|lia|apply holds_i64; lia].
Qed.

(** A content with its length: reading the length, then the slice. *)
Lemma len_slice lenf pre s suf :
  len_reads lenf -> zlen (pre ++ (uvarint (zlen s) ++ s) ++ suf) < 2 ^ 63 ->
  lenf (pre ++ (uvarint (zlen s) ++ s) ++ suf) (zlen pre) =
    Ok (zlen (pre ++ uvarint (zlen s)), zlen (pre ++ uvarint (zlen s)) + zlen s) /\
  slice_z (pre ++ (uvarint (zlen s) ++ s) ++ suf) (zlen (pre ++ uvarint (zlen s)))
    (zlen (pre ++ uvarint (zlen s)) + zlen s) = Ok s /\
  zlen (pre ++ uvarint (zlen s)) + zlen s = zlen pre + zlen (uvarint (zlen s) ++ s).
Proof.
  intros Hr Hl. split; [by apply Hr|]. split; [|zlia].
  replace (pre ++ (uvarint (zlen s) ++ s) ++ suf) with ((pre ++ uvarint (zlen s)) ++ s ++ suf)
    by (by rewrite <- !app_assoc). apply slice_z_ok.
Qed.

Lemma reads_string (set : bytes -> M -> M) s m :
  dec_reads (dec_string set) (uvarint (zlen s) ++ s) m (set s m).
Proof.
  intros pre suf Hl. unfold dec_string. by read_content (len_slice string_len pre s suf string_len_reads Hl).
Qed.

Lemma reads_raw (set : option bytes -> M -> M) s m :
  dec_reads (dec_raw set) (uvarint (zlen s) ++ s) m (set (Some s) m).
Proof.
  intros pre suf Hl. unfold dec_raw. by read_content (len_slice int_len pre s suf int_len_reads Hl).
Qed.

(** A message is read from [e] into [v']. *)
Definition unm_ok {A} (unm : bytes -> A -> outcome vt_error A) (new : A) (e : bytes) (v' : A) : Prop :=
  zlen e < 2 ^ 63 -> unm e new = Ok v'.

Lemma reads_message {A} new unm (get : M -> option A) set e v' m :
  unm_ok unm (default new (get m)) e v' ->
  dec_reads (dec_message new unm get set) (uvarint (zlen e) ++ e) m (set (Some v') m).
Proof.
  intros Hu pre suf Hl. unfold dec_message. read_content (len_slice int_len pre e suf int_len_reads Hl).
  rewrite Hu by zlia. done.
Qed.

Lemma reads_repeated {A} new unm (get : M -> list (option A)) set e v' m :
  unm_ok unm new e v' ->
  dec_reads (dec_repeated new unm get set) (uvarint (zlen e) ++ e) m (set (get m ++ [Some v']) m).
Proof.
  intros Hu pre suf Hl. unfold dec_repeated. read_content (len_slice int_len pre e suf int_len_reads Hl).
  rewrite Hu by zlia. done.
Qed.

(** ** Entries of maps *)

(** The value of an entry is read from [e]. *)
Definition value_reads {V} (value : bytes -> Z -> outcome vt_error (V * Z)) (e : bytes) (v : V) : Prop :=
  forall pre suf, zlen (pre ++ e ++ suf) < 2 ^ 63 ->
  value (pre ++ e ++ suf) (zlen pre) = Ok (v, zlen pre + zlen e).

Lemma value_string_reads s : value_reads value_string (uvarint (zlen s) ++ s) s.
Proof.
  intros pre suf Hl. unfold value_string. by read_content (len_slice string_len pre s suf string_len_reads Hl).
Qed.

Lemma value_message_reads {A} (new : A) unm e v' :
  unm_ok unm new e v' -> value_reads (value_message new unm) (uvarint (zlen e) ++ e) (Some v').
Proof.
  intros Hu pre suf Hl. unfold value_message. read_content (len_slice int_len pre e suf int_len_reads Hl).
  rewrite Hu by zlia. done.
Qed.

(** A tag of one byte. *)
Lemma tag_at pre tag suf :
  0 <= tag < 128 -> varint_at wrap_u64 (pre ++ zb tag :: suf) (zlen pre) = Ok (tag, zlen pre + 1).
Proof.
  intros Ht. pose proof (varint_at_uvarint wrap_u64 pre tag suf ltac:(lia) (holds_u64 tag ltac:(lia))) as E.
  assert (Hu : uvarint tag = [zb tag]).
  { unfold uvarint, MaxVarintLen64. rewrite uvarint_groups_S. destruct (Z.leb_spec 128 tag); [lia|done]. }
  rewrite Hu in E. exact E.
Qed.

(** The loop over an entry that was written: the key, then the value. *)
Lemma entry_loop_reads {V} (value : bytes -> Z -> outcome vt_error (V * Z)) vtag fuel pre k e v suf zero :
  16 <= vtag < 24 -> value_reads value e v -> (3 <= fuel)%nat ->
  zlen (pre ++ (e_delimited 0xa k ++ zb vtag :: e) ++ suf) < 2 ^ 63 ->
  entry_loop value fuel (pre ++ (e_delimited 0xa k ++ zb vtag :: e) ++ suf)
    (zlen pre + zlen (e_delimited 0xa k ++ zb vtag :: e)) (zlen pre) [] zero = Ok (k, v).
Proof.
  intros Htag Hv Hf Hl. do 3 (destruct fuel as [|fuel]; [lia|]).
  set (post := zlen pre + zlen (e_delimited 10 k ++ zb vtag :: e)).
  unfold e_delimited in *. set (ks := uvarint (zlen k) ++ k) in *.
  assert (Hpost : post = zlen pre + 1 + zlen ks + 1 + zlen e).
  { unfold post. rewrite zlen_app, !zlen_cons. lia. }
  set (dAtA := pre ++ ((zb 10 :: ks) ++ zb vtag :: e) ++ suf) in *.
  assert (D1 : dAtA = pre ++ zb 10 :: (ks ++ zb vtag :: e ++ suf))
    by (unfold dAtA; simpl; by rewrite <- !app_assoc).
  assert (D2 : dAtA = (pre ++ [zb 10]) ++ ks ++ (zb vtag :: e ++ suf)) by (rewrite D1, <- app_assoc; done).
  assert (D3 : dAtA = (pre ++ [zb 10] ++ ks) ++ zb vtag :: (e ++ suf)) by (rewrite D1, <- !app_assoc; done).
  assert (D4 : dAtA = (pre ++ [zb 10] ++ ks ++ [zb vtag]) ++ e ++ suf) by (rewrite D1, <- !app_assoc; done).
  clearbody post dAtA. pose proof (zlen_nonneg pre). pose proof (zlen_nonneg ks). pose proof (zlen_nonneg e).
  cbn [entry_loop]. destruct (Z.ltb_spec (zlen pre) post); [|lia].
  assert (E1 : varint_at wrap_u64 dAtA (zlen pre) = Ok (10, zlen pre + 1)) by (rewrite D1; apply tag_at; lia).
  rewrite E1. change (mbind ?f (Ok ?a)) with (f a). cbv beta iota. change (wrap_i32 (Z.shiftr 10 3) =? 1) with true. cbv iota.
  destruct (len_slice string_len (pre ++ [zb 10]) k (zb vtag :: e ++ suf) string_len_reads) as (E2 & E3 & E4).
  { fold ks. by rewrite <- D2. }
  fold ks in E2, E3, E4. rewrite <- D2 in E2, E3. replace (zlen (pre ++ [zb 10])) with (zlen pre + 1) in * by (by rewrite zlen_app).
  rewrite E2. change (mbind ?f (Ok ?a)) with (f a). cbv beta iota. rewrite E3.
  change (mbind ?f (Ok ?a)) with (f a). cbv beta iota. rewrite E4.
  destruct (Z.ltb_spec (zlen pre + 1 + zlen ks) post); [|lia].
  assert (E5 : varint_at wrap_u64 dAtA (zlen pre + 1 + zlen ks) = Ok (vtag, zlen pre + 1 + zlen ks + 1)).
  { rewrite D3. replace (zlen pre + 1 + zlen ks) with (zlen (pre ++ [zb 10] ++ ks)) by (rewrite !zlen_app; change (zlen [zb 10]) with 1; lia).
    apply tag_at. lia. }
  rewrite E5. change (mbind ?f (Ok ?a)) with (f a). cbv beta iota.
  replace (Z.shiftr vtag 3) with 2 by (rewrite Z.shiftr_div_pow2 by lia; change (2 ^ 3) with 8; mod_lia).
  change (wrap_i32 2 =? 1) with false. change (wrap_i32 2 =? 2) with true. cbv iota.
  pose proof (Hv (pre ++ [zb 10] ++ ks ++ [zb vtag]) suf) as E6. rewrite <- D4 in E6. specialize (E6 Hl).
  replace (zlen (pre ++ [zb 10] ++ ks ++ [zb vtag])) with (zlen pre + 1 + zlen ks + 1) in E6
    by (rewrite !zlen_app; change (zlen [zb 10]) with 1; change (zlen [zb vtag]) with 1; lia).
  rewrite E6. change (mbind ?f (Ok ?a)) with (f a). cbv beta iota. rewrite <- Hpost.
  destruct (Z.ltb_spec post post); [lia|done].
Qed.

Lemma reads_entry {V} (zero : V) value (get : M -> list (bytes * V)) set vtag k e v m :
  16 <= vtag < 24 -> value_reads value e v ->
  dec_reads (dec_entry zero value get set)
    (uvarint (zlen (e_delimited 0xa k ++ zb vtag :: e)) ++ (e_delimited 0xa k ++ zb vtag :: e)) m
    (set (map_set k v (get m)) m).
Proof.
  intros Htag Hv pre suf Hl. unfold dec_entry. set (b := e_delimited 10 k ++ zb vtag :: e) in *.
  destruct (len_slice int_len pre b suf int_len_reads Hl) as (-> & _ & E).
  change (mbind ?f (Ok ?a)) with (f a). cbv beta iota.
  pose proof (entry_loop_reads value vtag (S (length (pre ++ (uvarint (zlen b) ++ b) ++ suf)))
    (pre ++ uvarint (zlen b)) k e v suf zero Htag Hv) as El. fold b in El.
  replace ((pre ++ uvarint (zlen b)) ++ b ++ suf) with (pre ++ (uvarint (zlen b) ++ b) ++ suf) in El
    by (by rewrite <- !app_assoc).
  rewrite El; [|rewrite !length_app; unfold b; rewrite length_app; simpl; lia|done].
  change (mbind ?f (Ok ?a)) with (f a). cbv beta iota. by rewrite E.
Qed.

End Contents.

(** ** Whole messages *)

Section Message.
Context {M : Type} (name : string) (fields : list (field_case M)) (add_unknown : bytes -> M -> M).

(** Reading [e] turns [m] into [m'], whatever is in front of it and behind. *)
Definition advances (e : bytes) (m m' : M) : Prop :=
  forall pre suf, zlen (pre ++ e ++ suf) < 2 ^ 63 ->
  exists k, (k <= length e)%nat /\ forall fuel,
    unmarshal_loop name fields add_unknown (k + fuel) (pre ++ e ++ suf) (zlen pre) m =
    unmarshal_loop name fields add_unknown fuel (pre ++ e ++ suf) (zlen pre + zlen e) m'.

Lemma advances_nil m : advances [] m m.
Proof.
  intros pre suf _. exists 0%nat. split; [simpl; lia|]. intros fuel. by rewrite zlen_nil, Z.add_0_r.
Qed.

Lemma advances_app e1 e2 m1 m2 m3 :
  advances e1 m1 m2 -> advances e2 m2 m3 -> advances (e1 ++ e2) m1 m3.
Proof.
  intros H1 H2 pre suf Hl. rewrite <- app_assoc in Hl |- *.
  assert (Hp : (pre ++ e1) ++ e2 ++ suf = pre ++ e1 ++ e2 ++ suf) by (by rewrite <- app_assoc).
  destruct (H2 (pre ++ e1) suf) as (k2 & Hk2 & E2); [by rewrite Hp|].
  destruct (H1 pre (e2 ++ suf) Hl) as (k1 & Hk1 & E1).
  exists (k1 + k2)%nat. split; [rewrite length_app; lia|]. intros fuel.
  rewrite <- Nat.add_assoc, E1. rewrite Hp in E2. rewrite !zlen_app in *. rewrite E2. f_equal. lia.
Qed.

Lemma advances_unmarshal e m m' : advances e m m' -> unm_ok (unmarshal name fields add_unknown) m e m'.
Proof.
  intros H Hl. unfold unmarshal. destruct (H [] []) as (k & Hk & E); [by rewrite app_nil_r|].
  specialize (E (S (length e - k))). simpl app in E. rewrite app_nil_r in E.
  replace (k + S (length e - k))%nat with (S (length e)) in E by lia.
  change (zlen []) with 0 in E. rewrite E. cbn [unmarshal_loop].
  destruct (Z.ltb_spec (0 + zlen e) (zlen e)); [lia|]. by destruct (Z.ltb_spec (zlen e) (0 + zlen e)); [lia|].
Qed.

(** A field of the message: its tag, then its content. *)
Lemma advances_field num f tag body m m' :
  find_case num fields = Some f -> 0 < num < 16 -> 0 <= f.(f_wire) < 8 -> f.(f_wire) <> 4 ->
  tag = num * 8 + f.(f_wire) -> dec_reads f.(f_dec) body m m' -> advances (zb tag :: body) m m'.
Proof.
  intros Hf Hn Hw H4 Htag Hd pre suf Hl. exists 1%nat. split; [simpl; lia|]. intros fuel.
  change (1 + fuel)%nat with (S fuel). cbn [unmarshal_loop]. rewrite <- app_comm_cons in *.
  pose proof (zlen_nonneg pre). pose proof (zlen_nonneg (body ++ suf)).
  destruct (Z.ltb_spec (zlen pre) (zlen (pre ++ zb tag :: body ++ suf))) as [_|Hge];
    [|rewrite zlen_app, zlen_cons in Hge; lia].
  rewrite tag_at by lia. change (mbind ?f (Ok ?a)) with (f a). cbv beta iota zeta.
  assert (H7 : Z.land tag 7 = f_wire f).
  { change 7 with (Z.ones 3). rewrite Z.land_ones by lia. subst tag. change (2 ^ 3) with 8. mod_lia. }
  assert (H3 : wrap_i32 (Z.shiftr tag 3) = num).
  { rewrite Z.shiftr_div_pow2 by lia. change (2 ^ 3) with 8. unfold wrap_i32. mod_lia. }
  rewrite H7, H3. destruct (Z.eqb_spec (f_wire f) 4); [done|]. destruct (Z.leb_spec num 0); [lia|].
  rewrite Hf. rewrite Z.eqb_refl.
  pose proof (Hd (pre ++ [zb tag]) suf) as E. rewrite <- app_assoc in E. specialize (E Hl).
  rewrite zlen_app in E. change (zlen [zb tag]) with 1 in E.
  simpl app in E. simpl app. rewrite E. change (mbind ?f (Ok ?a)) with (f a). cbv beta iota.
  f_equal. rewrite zlen_cons. lia.
Qed.

(** The kinds of fields.  A field that is not written keeps the value the new
    message has. *)
Lemma advances_uint num nm wrap set v m :
  find_case num fields = Some (mkCase num 0 nm (dec_uint wrap set)) -> 0 < num < 16 ->
  0 <= v < 2 ^ 64 -> holds wrap v -> (v = 0 -> set v m = m) -> advances (e_uint (num * 8) v) m (set v m).
Proof.
  intros Hf Hn Hv Hh H0. unfold e_uint. destruct (Z.eqb_spec v 0) as [->|Hne].
  - rewrite H0 by done. apply advances_nil.
  - eapply advances_field; [exact Hf|done|simpl; lia|done|simpl; lia|]. by apply reads_uint.
Qed.

Lemma advances_bool num nm set b m :
  find_case num fields = Some (mkCase num 0 nm (dec_bool set)) -> 0 < num < 16 ->
  set false m = m -> advances (e_bool (num * 8) b) m (set b m).
Proof.
  intros Hf Hn H0. unfold e_bool. destruct b; [|rewrite H0; apply advances_nil].
  eapply advances_field; [exact Hf|done|simpl; lia|done|simpl; lia|]. apply reads_bool.
Qed.

Lemma zlen_0_inv {A} (l : list A) : ~ 0 < zlen l -> l = [].
Proof. destruct l; [done|]. rewrite zlen_cons. pose proof (zlen_nonneg l). lia. Qed.

Lemma advances_string num nm set s m :
  find_case num fields = Some (mkCase num 2 nm (dec_string set)) -> 0 < num < 16 ->
  set [] m = m -> advances (e_bytes (num * 8 + 2) s) m (set s m).
Proof.
  intros Hf Hn H0. unfold e_bytes. destruct (Z.ltb_spec 0 (zlen s)).
  - eapply advances_field; [exact Hf|done|simpl; lia|done|simpl; lia|]. apply reads_string.
  - rewrite (zlen_0_inv s) by lia. rewrite H0. apply advances_nil.
Qed.

(** An empty slice is not written, and stays nil. *)
Definition norm_raw (r : option bytes) : option bytes :=
  match r with Some [] => None | _ => r end.

Lemma advances_raw num nm set r m :
  find_case num fields = Some (mkCase num 2 nm (dec_raw set)) -> 0 < num < 16 ->
  set None m = m -> advances (e_raw (num * 8 + 2) r) m (set (norm_raw r) m).
Proof.
  intros Hf Hn H0. unfold e_raw, e_bytes. destruct r as [[|b r]|]; simpl default; simpl norm_raw.
  - rewrite H0. apply advances_nil.
  - destruct (Z.ltb_spec 0 (zlen (b :: r))); [|rewrite zlen_cons in *; pose proof (zlen_nonneg r); lia].
    eapply advances_field; [exact Hf|done|simpl; lia|done|simpl; lia|]. apply reads_raw.
  - rewrite H0. apply advances_nil.
Qed.

Lemma advances_message {A} num nm (new : A) unm get set enc norm (o : option A) m :
  find_case num fields = Some (mkCase num 2 nm (dec_message new unm get set)) -> 0 < num < 16 ->
  get m = None -> set None m = m -> (forall v, o = Some v -> unm_ok unm new (enc v) (norm v)) ->
  advances (e_message (num * 8 + 2) enc o) m (set (norm <$> o) m).
Proof.
  intros Hf Hn Hg H0 Hu. unfold e_message. destruct o as [v|]; simpl.
  - eapply advances_field; [exact Hf|done|simpl; lia|done|simpl; lia|].
    apply reads_message. rewrite Hg. by apply Hu.
  - rewrite H0. apply advances_nil.
Qed.

(** Elements and entries are added one by one; nothing is set when there are
    none. *)
Definition set_list {B} (set : list B -> M -> M) (x : list B) (m : M) : M :=
  match x with [] => m | _ => set x m end.

Section Lists.
Context {A B : Type} (get : M -> list B) (set : list B -> M -> M) (m : M).
Context (Hnew : get m = []) (Hget : forall x, get (set x m) = x) (Hset : forall x y, set y (set x m) = set y m).

Lemma get_set_list x : get (set_list set x m) = x.
Proof. destruct x; [exact Hnew|apply Hget]. Qed.
Lemma set_set_list x y : set y (set_list set x m) = set y m.
Proof. destruct x; [done|apply Hset]. Qed.

Lemma advances_list (e : A -> bytes) (g : A -> B) l :
  (forall p x s, l = p ++ x :: s ->
     advances (e x) (set_list set (g <$> p) m) (set ((g <$> p) ++ [g x]) m)) ->
  advances (concat (e <$> l)) m (set_list set (g <$> l) m).
Proof.
  intros Hx.
  assert (H : forall s p, l = p ++ s -> advances (concat (e <$> s)) (set_list set (g <$> p) m) (set_list set (g <$> l) m));
    [|exact (H l [] eq_refl)].
  induction s as [|x s IH]; intros p Hl.
  - rewrite app_nil_r in Hl. subst p. apply advances_nil.
  - csimpl. eapply advances_app; [exact (Hx p x s Hl)|].
    replace (set ((g <$> p) ++ [g x]) m) with (set_list set (g <$> (p ++ [x])) m);
      [apply IH; by rewrite <- app_assoc|].
    rewrite fmap_app. by destruct (g <$> p).
Qed.
End Lists.

(** A nil element or value is read back as a new message. *)
Definition norm_ptr {A} (new : A) (norm : A -> A) (o : option A) : option A :=
  Some (match o with None => new | Some v => norm v end).

Lemma unm_ok_ptr {A} unm (new : A) (enc : A -> bytes) (norm : A -> A) (o : option A) :
  unm [] new = Ok new -> (forall v, o = Some v -> unm_ok unm new (enc v) (norm v)) ->
  unm_ok unm new (e_ptr enc o) (match o with None => new | Some v => norm v end).
Proof. intros H0 H. destruct o as [v|]; [by apply H|by intros _]. Qed.

Lemma advances_repeated {A} num nm (new : A) unm get set enc norm (l : list (option A)) m :
  find_case num fields = Some (mkCase num 2 nm (dec_repeated new unm get set)) -> 0 < num < 16 ->
  get m = [] -> (forall x, get (set x m) = x) -> (forall x y, set y (set x m) = set y m) ->
  unm [] new = Ok new ->
  Forall (fun o => forall v, o = Some v -> unm_ok unm new (enc v) (norm v)) l ->
  advances (e_repeated (num * 8 + 2) enc l) m (set_list set (norm_ptr new norm <$> l) m).
Proof.
  intros Hf Hn Hnew Hget Hset H0 Hl. unfold e_repeated. apply (advances_list set); [done..|].
  intros p x s ->. apply Forall_app in Hl as [_ Hl]. apply Forall_cons in Hl as [Hx _].
  eapply advances_field; [exact Hf|done|simpl; lia|done|simpl; lia|]. simpl.
  rewrite <- (set_set_list set m Hset (norm_ptr new norm <$> p) (_ ++ _)).
  rewrite <- (get_set_list get set m Hnew Hget (norm_ptr new norm <$> p)) at 2.
  apply reads_repeated. by apply unm_ok_ptr.
Qed.

Lemma map_set_fresh {V} k (v : V) l : k ∉ l.*1 -> map_set k v l = l ++ [(k, v)].
Proof.
  induction l as [|[k' v'] l IH]; [done|]. csimpl. intros H. apply not_elem_of_cons in H as [H1 H2].
  destruct (decide (k' = k)); [congruence|]. by rewrite IH.
Qed.

(** The entries of a map come back in the reverse of the order they were
    written in, which for a map is the same map. *)
Lemma advances_entries {V W} num nm (zero : W) value get set vtag (e : bytes * V -> bytes) (g : V -> W) l m :
  find_case num fields = Some (mkCase num 2 nm (dec_entry zero value get set)) -> 0 < num < 16 -> 16 <= vtag < 24 ->
  get m = [] -> (forall x, get (set x m) = x) -> (forall x y, set y (set x m) = set y m) ->
  NoDup l.*1 -> Forall (fun x => value_reads value (e x) (g x.2)) l ->
  advances (concat (reverse ((fun x => e_entry (num * 8 + 2) x.1 (zb vtag :: e x)) <$> l))) m
    (set_list set (prod_map id g <$> reverse l) m).
Proof.
  intros Hf Hn Htag Hnew Hget Hset Hnd Hl. rewrite <- fmap_reverse.
  apply (advances_list set); [done..|]. intros p x s Hr.
  assert (Hfresh : x.1 ∉ (prod_map id g <$> p).*1).
  { apply (f_equal (fmap fst)) in Hr. rewrite fmap_reverse, fmap_app, fmap_cons in Hr.
    assert (NoDup (p.*1 ++ x.1 :: s.*1)) as Hp by (by rewrite <- Hr, reverse_Permutation).
    apply NoDup_app in Hp as (_ & Hp & _). intros Hin.
    rewrite <- list_fmap_compose in Hin. apply list_elem_of_fmap in Hin as (y & Hy & Hin).
    apply (Hp x.1); [|left]. apply list_elem_of_fmap. exists y. split; [by rewrite Hy|done]. }
  assert (Hx : value_reads value (e x) (g x.2)).
  { rewrite Forall_forall in Hl. apply Hl. apply elem_of_reverse. rewrite Hr. apply elem_of_app. right. left. }
  eapply advances_field; [exact Hf|done|simpl; lia|done|simpl; lia|]. simpl.
  rewrite <- (set_set_list set m Hset (prod_map id g <$> p) (_ ++ _)).
  replace ((prod_map id g <$> p) ++ [prod_map id g x]) with
    (map_set x.1 (g x.2) (get (set_list set (prod_map id g <$> p) m))).
  - by apply reads_entry.
  - rewrite (get_set_list get set m Hnew Hget). rewrite map_set_fresh by done. by destruct x.
Qed.

Lemma advances_map {A} num nm (new : A) unm get set enc norm (l : list (bytes * option A)) m :
  find_case num fields = Some (mkCase num 2 nm (dec_map new unm get set)) -> 0 < num < 16 ->
  get m = [] -> (forall x, get (set x m) = x) -> (forall x y, set y (set x m) = set y m) ->
  unm [] new = Ok new -> NoDup l.*1 ->
  Forall (fun e => forall v, e.2 = Some v -> unm_ok unm new (enc v) (norm v)) l ->
  advances (e_map (num * 8 + 2) enc l) m (set_list set (prod_map id (norm_ptr new norm) <$> reverse l) m).
Proof.
  intros Hf Hn Hnew Hget Hset H0 Hnd Hl. unfold e_map.
  apply (advances_entries num nm None (value_message new unm) get set 0x12
    (fun e => uvarint (zlen (e_ptr enc e.2)) ++ e_ptr enc e.2)); [done..|].
  eapply Forall_impl; [exact Hl|]. intros e He. by apply value_message_reads, unm_ok_ptr.
Qed.

Lemma advances_strings num nm get set (l : list (bytes * bytes)) m :
  find_case num fields = Some (mkCase num 2 nm (dec_strings get set)) -> 0 < num < 16 ->
  get m = [] -> (forall x, get (set x m) = x) -> (forall x y, set y (set x m) = set y m) -> NoDup l.*1 ->
  advances (e_strings (num * 8 + 2) l) m (set_list set (reverse l) m).
Proof.
  intros Hf Hn Hnew Hget Hset Hnd. unfold e_strings.
  pose proof (advances_entries num nm [] value_string get set 0x12
    (fun e => uvarint (zlen e.2) ++ e.2) id l m Hf Hn ltac:(lia) Hnew Hget Hset Hnd) as H.
  replace (reverse l) with (prod_map id id <$> reverse l).
  - apply H. apply Forall_true. intros e. apply value_string_reads.
  - rewrite <- (list_fmap_id (reverse l)) at 2. apply list_fmap_ext. by intros i [].
Qed.

End Message.

(** The result is one of the code, and a value has the property. *)
Definition fine {A} (P : A -> Prop) (r : outcome vt_error A) : Prop :=
  match r with Ok a => P a | Err e => e <> VtOutOfFuel | Panic _ => False end.

Lemma fine_bind {A B} (P : A -> Prop) (Q : B -> Prop) (r : outcome vt_error A) (f : A -> outcome vt_error B) :
  fine P r -> (forall a, P a -> fine Q (f a)) -> fine Q (r ≫= f).
Proof. intros Hr Hf. destruct r as [a|e|p]; simpl in *; [by apply Hf|done|done]. Qed.

Lemma fine_weaken {A} (P Q : A -> Prop) r : fine P r -> (forall a, P a -> Q a) -> fine Q r.
Proof. intros Hr H. destruct r; simpl in *; auto. Qed.

(** ** Integers *)

Definition is_i64 (z : Z) : Prop := - 2 ^ 63 <= z < 2 ^ 63.

Lemma is_i64_wrap z : is_i64 (wrap_i64 z).
Proof. unfold is_i64, wrap_i64. pose proof (Z.mod_pos_bound (z + 2 ^ 63) (2 ^ 64) ltac:(lia)). lia. Qed.

Lemma is_i64_shiftr z : is_i64 z <-> Z.shiftr z 63 = 0 \/ Z.shiftr z 63 = -1.
Proof.
  unfold is_i64. rewrite Z.shiftr_div_pow2 by lia. split; intros H.
  - destruct (Z.le_gt_cases 0 z).
    + left. apply Z.div_small. lia.
    + right. symmetry. apply (Z.div_unique z (2 ^ 63) (-1) (z + 2 ^ 63)); lia.
  - pose proof (Z.div_mod z (2 ^ 63) ltac:(lia)). pose proof (Z.mod_pos_bound z (2 ^ 63) ltac:(lia)). lia.
Qed.

Lemma is_i64_lor a b : is_i64 a -> is_i64 b -> is_i64 (Z.lor a b).
Proof.
  rewrite !is_i64_shiftr, Z.shiftr_lor. intros [-> | ->] [-> | ->]; [by left|by right..].
Qed.

Lemma varint_loop_fine wrap shift v i rest :
  fine (fun '(v', i') => i < i' <= i + zlen rest /\
    ((forall z, is_i64 (wrap z)) -> is_i64 v -> is_i64 v')) (varint_loop wrap shift v i rest).
Proof.
  revert shift v i. induction rest as [|b rest IH]; intros shift v i; cbn [varint_loop].
  - by destruct (64 <=? shift).
  - destruct (64 <=? shift); [done|]. rewrite zlen_cons. pose proof (zlen_nonneg rest).
    destruct (bz b <? 128).
    + simpl. split; [lia|]. intros Hw Hv. by apply is_i64_lor.
    + eapply fine_weaken; [apply IH|]. intros [v' i'] [Hi Hv']. split; [lia|].
      intros Hw Hv. apply Hv'; [done|]. by apply is_i64_lor.
Qed.

Lemma varint_at_fine wrap dAtA i :
  0 <= i <= zlen dAtA ->
  fine (fun '(v, i') => i < i' <= zlen dAtA /\ ((forall z, is_i64 (wrap z)) -> is_i64 v)) (varint_at wrap dAtA i).
Proof.
  intros Hi. unfold varint_at. eapply fine_weaken; [apply varint_loop_fine|]. intros [v i'] [Hi' Hv].
  split; [|intros Hw; apply Hv; [done|unfold is_i64; lia]].
  unfold zlen in *. rewrite length_drop in Hi'. lia.
Qed.

(** An index that grows by a length stays behind the old one, or wraps. *)
Lemma wrap_sum i n : 0 <= i < 2 ^ 63 -> 0 <= n < 2 ^ 63 -> wrap_i64 (i + n) = i + n \/ wrap_i64 (i + n) < 0.
Proof.
  intros Hi Hn. destruct (Z.lt_ge_cases (i + n) (2 ^ 63)).
  - left. apply wrap_i64_small. lia.
  - right. unfold wrap_i64. replace (i + n + 2 ^ 63) with (i + n - 2 ^ 63 + 1 * 2 ^ 64) by lia.
    rewrite Z.mod_add by lia. rewrite Z.mod_small by lia. lia.
Qed.

Lemma post_index_fine dAtA i n :
  0 <= i <= zlen dAtA -> zlen dAtA < 2 ^ 63 -> is_i64 n ->
  fine (fun p => i <= p <= zlen dAtA) (post_index dAtA i n).
Proof.
  intros Hi Hl Hn. unfold post_index. destruct (Z.ltb_spec n 0); [done|]. unfold is_i64 in Hn.
  destruct (wrap_sum i n) as [-> | Hneg]; [lia|lia| |].
  - destruct (Z.ltb_spec (i + n) 0); [done|]. destruct (Z.ltb_spec (zlen dAtA) (i + n)); [done|]. simpl. lia.
  - destruct (Z.ltb_spec (wrap_i64 (i + n)) 0); [done|lia].
Qed.

Definition len_fine (lenf : bytes -> Z -> outcome vt_error (Z * Z)) : Prop :=
  forall dAtA i, 0 <= i <= zlen dAtA -> zlen dAtA < 2 ^ 63 ->
  fine (fun '(a, p) => i < a /\ a <= p <= zlen dAtA) (lenf dAtA i).

Lemma int_len_fine : len_fine int_len.
Proof.
  intros dAtA i Hi Hl. unfold int_len. eapply fine_bind; [by apply varint_at_fine|]. intros [n a] [Ha Hn].
  eapply fine_bind; [apply post_index_fine; [lia|done|apply Hn, is_i64_wrap]|]. intros p Hp. cbv beta in Hp. simpl. lia.
Qed.

Lemma string_len_fine : len_fine string_len.
Proof.
  intros dAtA i Hi Hl. unfold string_len. eapply fine_bind; [by apply varint_at_fine|]. intros [n a] [Ha Hn].
  eapply fine_bind; [apply post_index_fine; [lia|done|apply is_i64_wrap]|]. intros p Hp. cbv beta in Hp. simpl. lia.
Qed.

Lemma slice_fine dAtA a b :
  0 <= a <= b -> b <= zlen dAtA -> fine (fun s => zlen s <= zlen dAtA) (slice_z dAtA a b).
Proof.
  intros Ha Hb. unfold slice_z. destruct (Z.leb_spec 0 a); [|lia]. destruct (Z.leb_spec a b); [|lia].
  destruct (Z.leb_spec b (zlen dAtA)); [|lia]. simpl. unfold zlen in *. rewrite length_take, length_drop. lia.
Qed.

(** ** [skip] *)

Lemma skip_varint_fine shift i rest : fine (fun i' => i < i' <= i + zlen rest) (skip_varint shift i rest).
Proof.
  revert shift i. induction rest as [|b rest IH]; intros shift i; cbn [skip_varint].
  - by destruct (64 <=? shift).
  - destruct (64 <=? shift); [done|]. rewrite zlen_cons. pose proof (zlen_nonneg rest).
    destruct (bz b <? 128); [simpl; lia|]. eapply fine_weaken; [apply IH|]. intros i'. simpl. lia.
Qed.

Lemma skip_content_fine dAtA wt i depth :
  0 < i <= zlen dAtA -> zlen dAtA < 2 ^ 63 ->
  fine (fun '(i', _) => i <= i' < 2 ^ 63 \/ i' < 0) (skip_content dAtA wt i depth).
Proof.
  intros Hi Hl. unfold skip_content.
  assert (Hw : forall n, 0 <= n < 2 ^ 63 -> i <= wrap_i64 (i + n) < 2 ^ 63 \/ wrap_i64 (i + n) < 0).
  { intros n Hn. destruct (wrap_sum i n) as [E|E]; [lia|lia| |by right].
    left. pose proof (is_i64_wrap (i + n)) as Hr. unfold is_i64 in Hr. rewrite E in *. lia. }
  destruct (wt =? 0).
  { eapply fine_bind; [apply skip_varint_fine|]. intros i' Hi'. simpl. left.
    unfold zlen in *. rewrite length_drop in Hi'. lia. }
  destruct (wt =? 1); [apply Hw; lia|]. destruct (wt =? 2).
  { eapply fine_bind; [apply varint_at_fine; lia|]. intros [n a] [Ha Hn].
    specialize (Hn is_i64_wrap). unfold is_i64 in Hn. destruct (Z.ltb_spec n 0); [done|].
    simpl. destruct (wrap_sum a n) as [E|E]; [lia|lia| |by right].
    left. pose proof (is_i64_wrap (a + n)) as Hr. unfold is_i64 in Hr. rewrite E in *. lia. }
  destruct (wt =? 3); [simpl; lia|]. destruct (wt =? 4); [destruct (depth =? 0); [done|simpl; lia]|].
  destruct (wt =? 5); [apply Hw; lia|done].
Qed.

(** The fuel covers what is left of the input. *)
Definition covers (fuel : nat) (l i : Z) : Prop := 0 < Z.of_nat fuel /\ l - i < Z.of_nat fuel.

Lemma covers_step fuel l i i' : covers (S fuel) l i -> i < l -> i < i' -> covers fuel l i'.
Proof. unfold covers. lia. Qed.

Lemma covers_start {A} (dAtA : list A) i : 0 <= i -> covers (S (length dAtA)) (zlen dAtA) i.
Proof. unfold covers, zlen. lia. Qed.

Lemma skip_loop_fine fuel dAtA i depth :
  0 <= i -> zlen dAtA < 2 ^ 63 -> covers fuel (zlen dAtA) i ->
  fine (fun n => 0 < n < 2 ^ 63) (skip_loop fuel dAtA i depth).
Proof.
  revert i depth. induction fuel as [|fuel IH]; intros i depth Hi Hl Hf; [destruct Hf; lia|]. cbn [skip_loop].
  destruct (Z.ltb_spec i (zlen dAtA)) as [Hlt|]; [|done].
  eapply fine_bind; [apply varint_at_fine; lia|]. intros [wire a] [Ha _].
  eapply fine_bind; [apply skip_content_fine; [lia|done]|]. intros [b d] Hb. simpl in Hb.
  destruct (Z.ltb_spec b 0); [done|]. destruct (d =? 0); [simpl; lia|].
  apply IH; [lia|done|]. eapply covers_step; [exact Hf|done|lia].
Qed.

Lemma skip_at_fine dAtA i limit :
  0 <= i < zlen dAtA -> limit <= zlen dAtA -> zlen dAtA < 2 ^ 63 ->
  fine (fun next => i < next <= limit) (skip_at dAtA i limit).
Proof.
  intros Hi Hlim Hl. unfold skip_at, skip.
  assert (Hd : zlen (drop (Z.to_nat i) dAtA) < 2 ^ 63) by (unfold zlen in *; rewrite length_drop; lia).
  eapply fine_bind; [apply skip_loop_fine; [lia|exact Hd|apply covers_start; lia]|]. intros n Hn. cbv beta in Hn.
  destruct (Z.ltb_spec n 0); [done|]. cbn [orb].
  destruct (wrap_sum i n) as [-> | Hneg]; [lia|lia| |].
  - destruct (Z.ltb_spec (i + n) 0); [done|]. destruct (Z.ltb_spec limit (i + n)); [done|]. simpl. lia.
  - destruct (Z.ltb_spec (wrap_i64 (i + n)) 0); [done|lia].
Qed.

(** ** Fields *)

Definition dec_fine {M} (dec : fdec M) : Prop :=
  forall dAtA i m, 0 <= i <= zlen dAtA -> zlen dAtA < 2 ^ 63 ->
  fine (fun '(_, i') => i <= i' <= zlen dAtA) (dec dAtA i m).

Definition unm_fine {A} (unm : bytes -> A -> outcome vt_error A) : Prop :=
  forall e m, zlen e < 2 ^ 63 -> fine (fun _ => True) (unm e m).

Section Fields.
Context {M : Type}.

Lemma dec_uint_fine wrap (set : Z -> M -> M) : dec_fine (dec_uint wrap set).
Proof.
  intros dAtA i m Hi Hl. unfold dec_uint. eapply fine_bind; [by apply varint_at_fine|]. intros [v a] [Ha _].
  simpl. lia.
Qed.

Lemma dec_bool_fine (set : bool -> M -> M) : dec_fine (dec_bool set).
Proof.
  intros dAtA i m Hi Hl. unfold dec_bool. eapply fine_bind; [by apply varint_at_fine|]. intros [v a] [Ha _].
  simpl. lia.
Qed.

(** Reads a length and its content, both within the input. *)
Ltac content lenf_fine Hi Hl a p s Hp Hs :=
  eapply fine_bind; [exact (lenf_fine _ _ Hi Hl)|]; intros [a p] Hp;
  eapply fine_bind; [apply slice_fine; lia|]; intros s Hs; cbv beta in Hs.

Lemma dec_string_fine (set : bytes -> M -> M) : dec_fine (dec_string set).
Proof. intros dAtA i m Hi Hl. unfold dec_string. content string_len_fine Hi Hl a p s Hp Hs. simpl. lia. Qed.

Lemma dec_raw_fine (set : option bytes -> M -> M) : dec_fine (dec_raw set).
Proof. intros dAtA i m Hi Hl. unfold dec_raw. content int_len_fine Hi Hl a p s Hp Hs. simpl. lia. Qed.

Lemma dec_message_fine {A} (new : A) unm get (set : option A -> M -> M) :
  unm_fine unm -> dec_fine (dec_message new unm get set).
Proof.
  intros Hu dAtA i m Hi Hl. unfold dec_message. content int_len_fine Hi Hl a p s Hp Hs.
  eapply fine_bind; [apply Hu; lia|]. intros v _. simpl. lia.
Qed.

Lemma dec_repeated_fine {A} (new : A) unm get (set : list (option A) -> M -> M) :
  unm_fine unm -> dec_fine (dec_repeated new unm get set).
Proof.
  intros Hu dAtA i m Hi Hl. unfold dec_repeated. content int_len_fine Hi Hl a p s Hp Hs.
  eapply fine_bind; [apply Hu; lia|]. intros v _. simpl. lia.
Qed.

Definition value_fine {V} (value : bytes -> Z -> outcome vt_error (V * Z)) : Prop :=
  forall dAtA i, 0 <= i <= zlen dAtA -> zlen dAtA < 2 ^ 63 ->
  fine (fun '(_, i') => i <= i' <= zlen dAtA) (value dAtA i).

Lemma value_string_fine : value_fine value_string.
Proof. intros dAtA i Hi Hl. unfold value_string. content string_len_fine Hi Hl a p s Hp Hs. simpl. lia. Qed.

Lemma value_message_fine {A} (new : A) unm : unm_fine unm -> value_fine (value_message new unm).
Proof.
  intros Hu dAtA i Hi Hl. unfold value_message. content int_len_fine Hi Hl a p s Hp Hs.
  eapply fine_bind; [apply Hu; lia|]. intros v _. simpl. lia.
Qed.

Lemma entry_loop_fine {V} (value : bytes -> Z -> outcome vt_error (V * Z)) fuel dAtA post i k v :
  value_fine value -> zlen dAtA < 2 ^ 63 -> 0 <= i -> post <= zlen dAtA -> i <= zlen dAtA -> covers fuel post i ->
  fine (fun _ => True) (entry_loop value fuel dAtA post i k v).
Proof.
  intros Hv Hl. revert i k v. induction fuel as [|fuel IH]; intros i k v Hi Hp Hil Hf; [destruct Hf; lia|].
  cbn [entry_loop]. destruct (Z.ltb_spec i post) as [Hlt|]; [|done].
  eapply fine_bind; [apply varint_at_fine; lia|]. intros [wire a] [Ha _].
  destruct (wrap_i32 _ =? 1).
  { assert (Ha' : 0 <= a <= zlen dAtA) by lia. content string_len_fine Ha' Hl b p s Hb Hs.
    apply IH; [lia|done|lia|]. eapply covers_step; [exact Hf|done|lia]. }
  destruct (wrap_i32 _ =? 2).
  { eapply fine_bind; [apply Hv; [lia|done]|]. intros [x b] Hb.
    apply IH; [lia|done|lia|]. eapply covers_step; [exact Hf|done|lia]. }
  eapply fine_bind; [apply skip_at_fine; [lia|done|done]|]. intros n Hn. cbv beta in Hn.
  apply IH; [lia|done|lia|]. eapply covers_step; [exact Hf|done|lia].
Qed.

Lemma dec_entry_fine {V} (zero : V) value get (set : list (bytes * V) -> M -> M) :
  value_fine value -> dec_fine (dec_entry zero value get set).
Proof.
  intros Hv dAtA i m Hi Hl. unfold dec_entry. eapply fine_bind; [exact (int_len_fine _ _ Hi Hl)|]. intros [a p] Hp.
  eapply fine_bind; [apply entry_loop_fine; [done|done|lia|lia|lia|]|].
  - pose proof (covers_start dAtA a ltac:(lia)) as [H1 H2]. split; lia.
  - intros [k v] _. simpl. lia.
Qed.

Lemma dec_strings_fine get (set : list (bytes * bytes) -> M -> M) : dec_fine (dec_strings get set).
Proof. apply dec_entry_fine, value_string_fine. Qed.

Lemma dec_map_fine {A} (new : A) unm get (set : list (bytes * option A) -> M -> M) :
  unm_fine unm -> dec_fine (dec_map new unm get set).
Proof. intros Hu. by apply dec_entry_fine, value_message_fine. Qed.

(** ** Messages *)

Lemma find_case_in num fields (f : field_case M) : find_case num fields = Some f -> f ∈ fields.
Proof. intros H. apply List.find_some in H as [H _]. by apply list_elem_of_In. Qed.

Lemma unmarshal_fine name (fields : list (field_case M)) add_unknown :
  Forall (fun f => dec_fine f.(f_dec)) fields -> unm_fine (unmarshal name fields add_unknown).
Proof.
  intros Hfs dAtA m Hl. unfold unmarshal.
  assert (H : forall fuel i m, 0 <= i <= zlen dAtA -> covers fuel (zlen dAtA) i ->
    fine (fun _ => True) (unmarshal_loop name fields add_unknown fuel dAtA i m));
    [|apply H; [pose proof (zlen_nonneg dAtA); lia|apply covers_start; lia]].
  clear m. induction fuel as [|fuel IH]; intros i m Hi Hf; [destruct Hf; lia|]. cbn [unmarshal_loop].
  destruct (Z.ltb_spec i (zlen dAtA)) as [Hlt|]; [|by destruct (zlen dAtA <? i)].
  eapply fine_bind; [by apply varint_at_fine|]. intros [wire a] [Ha _]. cbv zeta.
  destruct (_ =? 4); [done|]. destruct (_ <=? 0); [done|]. destruct (find_case _ fields) as [f|] eqn:Ef.
  - destruct (_ =? f_wire f); [|done]. rewrite Forall_forall in Hfs. apply find_case_in in Ef.
    eapply fine_bind; [apply (Hfs f Ef); [lia|done]|]. intros [m' b] Hb.
    apply IH; [lia|]. eapply covers_step; [exact Hf|done|lia].
  - eapply fine_bind; [apply skip_at_fine; [lia|done|done]|]. intros n Hn. cbv beta in Hn.
    eapply fine_bind; [apply slice_fine; lia|]. intros u _.
    apply IH; [lia|]. eapply covers_step; [exact Hf|done|lia].
Qed.

End Fields.
