(* ===== verification/VtMsg.v ===== *)
(** The protobuf methods of the messages
    ([pkg/protocol/deliverprotocol/deliver_vtproto.pb.go]): [SizeVT],
    [MarshalToSizedBufferVT], [MarshalVT] and [UnmarshalVT], each the list of
    its blocks in the order of the generated code, and the codecs of [encode.go]
    and [decode.go] that call them.  [T_set_F] is the assignment [m.F = v], and
    [new_T] is [&T{}]. *)

From S2P Require Import Prelude BytePool WireMsg Vt.

Open Scope Z_scope.

Definition Error_set_Code (v : Z) (m : pb_Error) : pb_Error :=
  mk_Error v m.(Error_Message) m.(Error_unknownFields).
Definition Error_set_Message (v : bytes) (m : pb_Error) : pb_Error :=
  mk_Error m.(Error_Code) v m.(Error_unknownFields).
Definition Error_set_unknownFields (v : bytes) (m : pb_Error) : pb_Error :=
  mk_Error m.(Error_Code) m.(Error_Message) v.
Definition new_Error : pb_Error := mk_Error 0 [] [].
Definition Error_SizeVT (m : pb_Error) : Z := sum_sizes [
  size_uint m.(Error_Code);
  size_bytes m.(Error_Message);
  zlen m.(Error_unknownFields)].
Definition Error_MarshalToSizedBufferVT (m : pb_Error) : sized := to_sized [
  put_copy m.(Error_unknownFields);
  put_bytes 0x12 m.(Error_Message);
  put_uint 0x8 m.(Error_Code)].
Definition Error_MarshalVT (m : pb_Error) : outcome Empty_set bytes :=
  marshal (Error_SizeVT m) (Error_MarshalToSizedBufferVT m).
Definition Error_UnmarshalVT : bytes -> pb_Error -> outcome vt_error pb_Error := unmarshal "Error" [
  mkCase 1 0 "Code" (dec_uint wrap_u32 Error_set_Code);
  mkCase 2 2 "Message" (dec_string Error_set_Message)]
  (fun u m => Error_set_unknownFields (m.(Error_unknownFields) ++ u) m).

Definition SubscribeRequest_set_Channel (v : bytes) (m : pb_SubscribeRequest) : pb_SubscribeRequest :=
  mk_SubscribeRequest v m.(SubscribeRequest_Token) m.(SubscribeRequest_Data) m.(SubscribeRequest_JoinLeave) m.(SubscribeRequest_unknownFields).
Definition SubscribeRequest_set_Token (v : bytes) (m : pb_SubscribeRequest) : pb_SubscribeRequest :=
  mk_SubscribeRequest m.(SubscribeRequest_Channel) v m.(SubscribeRequest_Data) m.(SubscribeRequest_JoinLeave) m.(SubscribeRequest_unknownFields).
Definition SubscribeRequest_set_Data (v : option bytes) (m : pb_SubscribeRequest) : pb_SubscribeRequest :=
  mk_SubscribeRequest m.(SubscribeRequest_Channel) m.(SubscribeRequest_Token) v m.(SubscribeRequest_JoinLeave) m.(SubscribeRequest_unknownFields).
Definition SubscribeRequest_set_JoinLeave (v : bool) (m : pb_SubscribeRequest) : pb_SubscribeRequest :=
  mk_SubscribeRequest m.(SubscribeRequest_Channel) m.(SubscribeRequest_Token) m.(SubscribeRequest_Data) v m.(SubscribeRequest_unknownFields).
Definition SubscribeRequest_set_unknownFields (v : bytes) (m : pb_SubscribeRequest) : pb_SubscribeRequest :=
  mk_SubscribeRequest m.(SubscribeRequest_Channel) m.(SubscribeRequest_Token) m.(SubscribeRequest_Data) m.(SubscribeRequest_JoinLeave) v.
Definition new_SubscribeRequest : pb_SubscribeRequest := mk_SubscribeRequest [] [] None false [].
Definition SubscribeRequest_SizeVT (m : pb_SubscribeRequest) : Z := sum_sizes [
  size_bytes m.(SubscribeRequest_Channel);
  size_bytes m.(SubscribeRequest_Token);
  size_raw m.(SubscribeRequest_Data);
  size_bool m.(SubscribeRequest_JoinLeave);
  zlen m.(SubscribeRequest_unknownFields)].
Definition SubscribeRequest_MarshalToSizedBufferVT (m : pb_SubscribeRequest) : sized := to_sized [
  put_copy m.(SubscribeRequest_unknownFields);
  put_bool 0x20 m.(SubscribeRequest_JoinLeave);
  put_raw 0x1a m.(SubscribeRequest_Data);
  put_bytes 0x12 m.(SubscribeRequest_Token);
  put_bytes 0xa m.(SubscribeRequest_Channel)].
Definition SubscribeRequest_MarshalVT (m : pb_SubscribeRequest) : outcome Empty_set bytes :=
  marshal (SubscribeRequest_SizeVT m) (SubscribeRequest_MarshalToSizedBufferVT m).
Definition SubscribeRequest_UnmarshalVT : bytes -> pb_SubscribeRequest -> outcome vt_error pb_SubscribeRequest := unmarshal "SubscribeRequest" [
  mkCase 1 2 "Channel" (dec_string SubscribeRequest_set_Channel);
  mkCase 2 2 "Token" (dec_string SubscribeRequest_set_Token);
  mkCase 3 2 "Data" (dec_raw SubscribeRequest_set_Data);
  mkCase 4 0 "JoinLeave" (dec_bool SubscribeRequest_set_JoinLeave)]
  (fun u m => SubscribeRequest_set_unknownFields (m.(SubscribeRequest_unknownFields) ++ u) m).

Definition ConnectRequest_set_Token (v : bytes) (m : pb_ConnectRequest) : pb_ConnectRequest :=
  mk_ConnectRequest v m.(ConnectRequest_Data) m.(ConnectRequest_Subs) m.(ConnectRequest_Name) m.(ConnectRequest_unknownFields).
Definition ConnectRequest_set_Data (v : option bytes) (m : pb_ConnectRequest) : pb_ConnectRequest :=
  mk_ConnectRequest m.(ConnectRequest_Token) v m.(ConnectRequest_Subs) m.(ConnectRequest_Name) m.(ConnectRequest_unknownFields).
Definition ConnectRequest_set_Subs (v : list (bytes * option pb_SubscribeRequest)) (m : pb_ConnectRequest) : pb_ConnectRequest :=
  mk_ConnectRequest m.(ConnectRequest_Token) m.(ConnectRequest_Data) v m.(ConnectRequest_Name) m.(ConnectRequest_unknownFields).
Definition ConnectRequest_set_Name (v : bytes) (m : pb_ConnectRequest) : pb_ConnectRequest :=
  mk_ConnectRequest m.(ConnectRequest_Token) m.(ConnectRequest_Data) m.(ConnectRequest_Subs) v m.(ConnectRequest_unknownFields).
Definition ConnectRequest_set_unknownFields (v : bytes) (m : pb_ConnectRequest) : pb_ConnectRequest :=
  mk_ConnectRequest m.(ConnectRequest_Token) m.(ConnectRequest_Data) m.(ConnectRequest_Subs) m.(ConnectRequest_Name) v.
Definition new_ConnectRequest : pb_ConnectRequest := mk_ConnectRequest [] None [] [] [].
Definition ConnectRequest_SizeVT (m : pb_ConnectRequest) : Z := sum_sizes [
  size_bytes m.(ConnectRequest_Token);
  size_raw m.(ConnectRequest_Data);
  size_map SubscribeRequest_SizeVT m.(ConnectRequest_Subs);
  size_bytes m.(ConnectRequest_Name);
  zlen m.(ConnectRequest_unknownFields)].
Definition ConnectRequest_MarshalToSizedBufferVT (m : pb_ConnectRequest) : sized := to_sized [
  put_copy m.(ConnectRequest_unknownFields);
  put_bytes 0x22 m.(ConnectRequest_Name);
  put_map 0x1a SubscribeRequest_MarshalToSizedBufferVT m.(ConnectRequest_Subs);
  put_raw 0x12 m.(ConnectRequest_Data);
  put_bytes 0xa m.(ConnectRequest_Token)].
Definition ConnectRequest_MarshalVT (m : pb_ConnectRequest) : outcome Empty_set bytes :=
  marshal (ConnectRequest_SizeVT m) (ConnectRequest_MarshalToSizedBufferVT m).
Definition ConnectRequest_UnmarshalVT : bytes -> pb_ConnectRequest -> outcome vt_error pb_ConnectRequest := unmarshal "ConnectRequest" [
  mkCase 1 2 "Token" (dec_string ConnectRequest_set_Token);
  mkCase 2 2 "Data" (dec_raw ConnectRequest_set_Data);
  mkCase 3 2 "Subs" (dec_map new_SubscribeRequest SubscribeRequest_UnmarshalVT ConnectRequest_Subs ConnectRequest_set_Subs);
  mkCase 4 2 "Name" (dec_string ConnectRequest_set_Name)]
  (fun u m => ConnectRequest_set_unknownFields (m.(ConnectRequest_unknownFields) ++ u) m).

Definition UnsubscribeRequest_set_Channel (v : bytes) (m : pb_UnsubscribeRequest) : pb_UnsubscribeRequest :=
  mk_UnsubscribeRequest v m.(UnsubscribeRequest_unknownFields).
Definition UnsubscribeRequest_set_unknownFields (v : bytes) (m : pb_UnsubscribeRequest) : pb_UnsubscribeRequest :=
  mk_UnsubscribeRequest m.(UnsubscribeRequest_Channel) v.
Definition new_UnsubscribeRequest : pb_UnsubscribeRequest := mk_UnsubscribeRequest [] [].
Definition UnsubscribeRequest_SizeVT (m : pb_UnsubscribeRequest) : Z := sum_sizes [
  size_bytes m.(UnsubscribeRequest_Channel);
  zlen m.(UnsubscribeRequest_unknownFields)].
Definition UnsubscribeRequest_MarshalToSizedBufferVT (m : pb_UnsubscribeRequest) : sized := to_sized [
  put_copy m.(UnsubscribeRequest_unknownFields);
  put_bytes 0xa m.(UnsubscribeRequest_Channel)].
Definition UnsubscribeRequest_MarshalVT (m : pb_UnsubscribeRequest) : outcome Empty_set bytes :=
  marshal (UnsubscribeRequest_SizeVT m) (UnsubscribeRequest_MarshalToSizedBufferVT m).
Definition UnsubscribeRequest_UnmarshalVT : bytes -> pb_UnsubscribeRequest -> outcome vt_error pb_UnsubscribeRequest := unmarshal "UnsubscribeRequest" [
  mkCase 1 2 "Channel" (dec_string UnsubscribeRequest_set_Channel)]
  (fun u m => UnsubscribeRequest_set_unknownFields (m.(UnsubscribeRequest_unknownFields) ++ u) m).

Definition PublishRequest_set_Channel (v : bytes) (m : pb_PublishRequest) : pb_PublishRequest :=
  mk_PublishRequest v m.(PublishRequest_Data) m.(PublishRequest_unknownFields).
Definition PublishRequest_set_Data (v : option bytes) (m : pb_PublishRequest) : pb_PublishRequest :=
  mk_PublishRequest m.(PublishRequest_Channel) v m.(PublishRequest_unknownFields).
Definition PublishRequest_set_unknownFields (v : bytes) (m : pb_PublishRequest) : pb_PublishRequest :=
  mk_PublishRequest m.(PublishRequest_Channel) m.(PublishRequest_Data) v.
Definition new_PublishRequest : pb_PublishRequest := mk_PublishRequest [] None [].
Definition PublishRequest_SizeVT (m : pb_PublishRequest) : Z := sum_sizes [
  size_bytes m.(PublishRequest_Channel);
  size_raw m.(PublishRequest_Data);
  zlen m.(PublishRequest_unknownFields)].
Definition PublishRequest_MarshalToSizedBufferVT (m : pb_PublishRequest) : sized := to_sized [
  put_copy m.(PublishRequest_unknownFields);
  put_raw 0x12 m.(PublishRequest_Data);
  put_bytes 0xa m.(PublishRequest_Channel)].
Definition PublishRequest_MarshalVT (m : pb_PublishRequest) : outcome Empty_set bytes :=
  marshal (PublishRequest_SizeVT m) (PublishRequest_MarshalToSizedBufferVT m).
Definition PublishRequest_UnmarshalVT : bytes -> pb_PublishRequest -> outcome vt_error pb_PublishRequest := unmarshal "PublishRequest" [
  mkCase 1 2 "Channel" (dec_string PublishRequest_set_Channel);
  mkCase 2 2 "Data" (dec_raw PublishRequest_set_Data)]
  (fun u m => PublishRequest_set_unknownFields (m.(PublishRequest_unknownFields) ++ u) m).

Definition PresenceRequest_set_Channel (v : bytes) (m : pb_PresenceRequest) : pb_PresenceRequest :=
  mk_PresenceRequest v m.(PresenceRequest_unknownFields).
Definition PresenceRequest_set_unknownFields (v : bytes) (m : pb_PresenceRequest) : pb_PresenceRequest :=
  mk_PresenceRequest m.(PresenceRequest_Channel) v.
Definition new_PresenceRequest : pb_PresenceRequest := mk_PresenceRequest [] [].
Definition PresenceRequest_SizeVT (m : pb_PresenceRequest) : Z := sum_sizes [
  size_bytes m.(PresenceRequest_Channel);
  zlen m.(PresenceRequest_unknownFields)].
Definition PresenceRequest_MarshalToSizedBufferVT (m : pb_PresenceRequest) : sized := to_sized [
  put_copy m.(PresenceRequest_unknownFields);
  put_bytes 0xa m.(PresenceRequest_Channel)].
Definition PresenceRequest_MarshalVT (m : pb_PresenceRequest) : outcome Empty_set bytes :=
  marshal (PresenceRequest_SizeVT m) (PresenceRequest_MarshalToSizedBufferVT m).
Definition PresenceRequest_UnmarshalVT : bytes -> pb_PresenceRequest -> outcome vt_error pb_PresenceRequest := unmarshal "PresenceRequest" [
  mkCase 1 2 "Channel" (dec_string PresenceRequest_set_Channel)]
  (fun u m => PresenceRequest_set_unknownFields (m.(PresenceRequest_unknownFields) ++ u) m).

Definition PresenceStatsRequest_set_Channel (v : bytes) (m : pb_PresenceStatsRequest) : pb_PresenceStatsRequest :=
  mk_PresenceStatsRequest v m.(PresenceStatsRequest_unknownFields).
Definition PresenceStatsRequest_set_unknownFields (v : bytes) (m : pb_PresenceStatsRequest) : pb_PresenceStatsRequest :=
  mk_PresenceStatsRequest m.(PresenceStatsRequest_Channel) v.
Definition new_PresenceStatsRequest : pb_PresenceStatsRequest := mk_PresenceStatsRequest [] [].
Definition PresenceStatsRequest_SizeVT (m : pb_PresenceStatsRequest) : Z := sum_sizes [
  size_bytes m.(PresenceStatsRequest_Channel);
  zlen m.(PresenceStatsRequest_unknownFields)].
Definition PresenceStatsRequest_MarshalToSizedBufferVT (m : pb_PresenceStatsRequest) : sized := to_sized [
  put_copy m.(PresenceStatsRequest_unknownFields);
  put_bytes 0xa m.(PresenceStatsRequest_Channel)].
Definition PresenceStatsRequest_MarshalVT (m : pb_PresenceStatsRequest) : outcome Empty_set bytes :=
  marshal (PresenceStatsRequest_SizeVT m) (PresenceStatsRequest_MarshalToSizedBufferVT m).
Definition PresenceStatsRequest_UnmarshalVT : bytes -> pb_PresenceStatsRequest -> outcome vt_error pb_PresenceStatsRequest := unmarshal "PresenceStatsRequest" [
  mkCase 1 2 "Channel" (dec_string PresenceStatsRequest_set_Channel)]
  (fun u m => PresenceStatsRequest_set_unknownFields (m.(PresenceStatsRequest_unknownFields) ++ u) m).

Definition PingRequest_set_unknownFields (v : bytes) (m : pb_PingRequest) : pb_PingRequest :=
  mk_PingRequest v.
Definition new_PingRequest : pb_PingRequest := mk_PingRequest [].
Definition PingRequest_SizeVT (m : pb_PingRequest) : Z := sum_sizes [
  zlen m.(PingRequest_unknownFields)].
Definition PingRequest_MarshalToSizedBufferVT (m : pb_PingRequest) : sized := to_sized [
  put_copy m.(PingRequest_unknownFields)].
Definition PingRequest_MarshalVT (m : pb_PingRequest) : outcome Empty_set bytes :=
  marshal (PingRequest_SizeVT m) (PingRequest_MarshalToSizedBufferVT m).
Definition PingRequest_UnmarshalVT : bytes -> pb_PingRequest -> outcome vt_error pb_PingRequest := unmarshal "PingRequest" []
  (fun u m => PingRequest_set_unknownFields (m.(PingRequest_unknownFields) ++ u) m).

Definition SendRequest_set_Data (v : option bytes) (m : pb_SendRequest) : pb_SendRequest :=
  mk_SendRequest v m.(SendRequest_unknownFields).
Definition SendRequest_set_unknownFields (v : bytes) (m : pb_SendRequest) : pb_SendRequest :=
  mk_SendRequest m.(SendRequest_Data) v.
Definition new_SendRequest : pb_SendRequest := mk_SendRequest None [].
Definition SendRequest_SizeVT (m : pb_SendRequest) : Z := sum_sizes [
  size_raw m.(SendRequest_Data);
  zlen m.(SendRequest_unknownFields)].
Definition SendRequest_MarshalToSizedBufferVT (m : pb_SendRequest) : sized := to_sized [
  put_copy m.(SendRequest_unknownFields);
  put_raw 0xa m.(SendRequest_Data)].
Definition SendRequest_MarshalVT (m : pb_SendRequest) : outcome Empty_set bytes :=
  marshal (SendRequest_SizeVT m) (SendRequest_MarshalToSizedBufferVT m).
Definition SendRequest_UnmarshalVT : bytes -> pb_SendRequest -> outcome vt_error pb_SendRequest := unmarshal "SendRequest" [
  mkCase 1 2 "Data" (dec_raw SendRequest_set_Data)]
  (fun u m => SendRequest_set_unknownFields (m.(SendRequest_unknownFields) ++ u) m).

Definition RefreshRequest_set_Token (v : bytes) (m : pb_RefreshRequest) : pb_RefreshRequest :=
  mk_RefreshRequest v m.(RefreshRequest_unknownFields).
Definition RefreshRequest_set_unknownFields (v : bytes) (m : pb_RefreshRequest) : pb_RefreshRequest :=
  mk_RefreshRequest m.(RefreshRequest_Token) v.
Definition new_RefreshRequest : pb_RefreshRequest := mk_RefreshRequest [] [].
Definition RefreshRequest_SizeVT (m : pb_RefreshRequest) : Z := sum_sizes [
  size_bytes m.(RefreshRequest_Token);
  zlen m.(RefreshRequest_unknownFields)].
Definition RefreshRequest_MarshalToSizedBufferVT (m : pb_RefreshRequest) : sized := to_sized [
  put_copy m.(RefreshRequest_unknownFields);
  put_bytes 0xa m.(RefreshRequest_Token)].
Definition RefreshRequest_MarshalVT (m : pb_RefreshRequest) : outcome Empty_set bytes :=
  marshal (RefreshRequest_SizeVT m) (RefreshRequest_MarshalToSizedBufferVT m).
Definition RefreshRequest_UnmarshalVT : bytes -> pb_RefreshRequest -> outcome vt_error pb_RefreshRequest := unmarshal "RefreshRequest" [
  mkCase 1 2 "Token" (dec_string RefreshRequest_set_Token)]
  (fun u m => RefreshRequest_set_unknownFields (m.(RefreshRequest_unknownFields) ++ u) m).

Definition SubRefreshRequest_set_Channel (v : bytes) (m : pb_SubRefreshRequest) : pb_SubRefreshRequest :=
  mk_SubRefreshRequest v m.(SubRefreshRequest_Token) m.(SubRefreshRequest_unknownFields).
Definition SubRefreshRequest_set_Token (v : bytes) (m : pb_SubRefreshRequest) : pb_SubRefreshRequest :=
  mk_SubRefreshRequest m.(SubRefreshRequest_Channel) v m.(SubRefreshRequest_unknownFields).
Definition SubRefreshRequest_set_unknownFields (v : bytes) (m : pb_SubRefreshRequest) : pb_SubRefreshRequest :=
  mk_SubRefreshRequest m.(SubRefreshRequest_Channel) m.(SubRefreshRequest_Token) v.
Definition new_SubRefreshRequest : pb_SubRefreshRequest := mk_SubRefreshRequest [] [] [].
Definition SubRefreshRequest_SizeVT (m : pb_SubRefreshRequest) : Z := sum_sizes [
  size_bytes m.(SubRefreshRequest_Channel);
  size_bytes m.(SubRefreshRequest_Token);
  zlen m.(SubRefreshRequest_unknownFields)].
Definition SubRefreshRequest_MarshalToSizedBufferVT (m : pb_SubRefreshRequest) : sized := to_sized [
  put_copy m.(SubRefreshRequest_unknownFields);
  put_bytes 0x12 m.(SubRefreshRequest_Token);
  put_bytes 0xa m.(SubRefreshRequest_Channel)].
Definition SubRefreshRequest_MarshalVT (m : pb_SubRefreshRequest) : outcome Empty_set bytes :=
  marshal (SubRefreshRequest_SizeVT m) (SubRefreshRequest_MarshalToSizedBufferVT m).
Definition SubRefreshRequest_UnmarshalVT : bytes -> pb_SubRefreshRequest -> outcome vt_error pb_SubRefreshRequest := unmarshal "SubRefreshRequest" [
  mkCase 1 2 "Channel" (dec_string SubRefreshRequest_set_Channel);
  mkCase 2 2 "Token" (dec_string SubRefreshRequest_set_Token)]
  (fun u m => SubRefreshRequest_set_unknownFields (m.(SubRefreshRequest_unknownFields) ++ u) m).

Definition Command_set_Id (v : Z) (m : pb_Command) : pb_Command :=
  mk_Command v m.(Command_Connect) m.(Command_Subscribe) m.(Command_Unsubscribe) m.(Command_Publish) m.(Command_Presence) m.(Command_PresenceStats) m.(Command_Ping) m.(Command_Send) m.(Command_Refresh) m.(Command_SubRefresh) m.(Command_unknownFields).
Definition Command_set_Connect (v : option pb_ConnectRequest) (m : pb_Command) : pb_Command :=
  mk_Command m.(Command_Id) v m.(Command_Subscribe) m.(Command_Unsubscribe) m.(Command_Publish) m.(Command_Presence) m.(Command_PresenceStats) m.(Command_Ping) m.(Command_Send) m.(Command_Refresh) m.(Command_SubRefresh) m.(Command_unknownFields).
Definition Command_set_Subscribe (v : option pb_SubscribeRequest) (m : pb_Command) : pb_Command :=
  mk_Command m.(Command_Id) m.(Command_Connect) v m.(Command_Unsubscribe) m.(Command_Publish) m.(Command_Presence) m.(Command_PresenceStats) m.(Command_Ping) m.(Command_Send) m.(Command_Refresh) m.(Command_SubRefresh) m.(Command_unknownFields).
Definition Command_set_Unsubscribe (v : option pb_UnsubscribeRequest) (m : pb_Command) : pb_Command :=
  mk_Command m.(Command_Id) m.(Command_Connect) m.(Command_Subscribe) v m.(Command_Publish) m.(Command_Presence) m.(Command_PresenceStats) m.(Command_Ping) m.(Command_Send) m.(Command_Refresh) m.(Command_SubRefresh) m.(Command_unknownFields).
Definition Command_set_Publish (v : option pb_PublishRequest) (m : pb_Command) : pb_Command :=
  mk_Command m.(Command_Id) m.(Command_Connect) m.(Command_Subscribe) m.(Command_Unsubscribe) v m.(Command_Presence) m.(Command_PresenceStats) m.(Command_Ping) m.(Command_Send) m.(Command_Refresh) m.(Command_SubRefresh) m.(Command_unknownFields).
Definition Command_set_Presence (v : option pb_PresenceRequest) (m : pb_Command) : pb_Command :=
  mk_Command m.(Command_Id) m.(Command_Connect) m.(Command_Subscribe) m.(Command_Unsubscribe) m.(Command_Publish) v m.(Command_PresenceStats) m.(Command_Ping) m.(Command_Send) m.(Command_Refresh) m.(Command_SubRefresh) m.(Command_unknownFields).
Definition Command_set_PresenceStats (v : option pb_PresenceStatsRequest) (m : pb_Command) : pb_Command :=
  mk_Command m.(Command_Id) m.(Command_Connect) m.(Command_Subscribe) m.(Command_Unsubscribe) m.(Command_Publish) m.(Command_Presence) v m.(Command_Ping) m.(Command_Send) m.(Command_Refresh) m.(Command_SubRefresh) m.(Command_unknownFields).
Definition Command_set_Ping (v : option pb_PingRequest) (m : pb_Command) : pb_Command :=
  mk_Command m.(Command_Id) m.(Command_Connect) m.(Command_Subscribe) m.(Command_Unsubscribe) m.(Command_Publish) m.(Command_Presence) m.(Command_PresenceStats) v m.(Command_Send) m.(Command_Refresh) m.(Command_SubRefresh) m.(Command_unknownFields).
Definition Command_set_Send (v : option pb_SendRequest) (m : pb_Command) : pb_Command :=
  mk_Command m.(Command_Id) m.(Command_Connect) m.(Command_Subscribe) m.(Command_Unsubscribe) m.(Command_Publish) m.(Command_Presence) m.(Command_PresenceStats) m.(Command_Ping) v m.(Command_Refresh) m.(Command_SubRefresh) m.(Command_unknownFields).
Definition Command_set_Refresh (v : option pb_RefreshRequest) (m : pb_Command) : pb_Command :=
  mk_Command m.(Command_Id) m.(Command_Connect) m.(Command_Subscribe) m.(Command_Unsubscribe) m.(Command_Publish) m.(Command_Presence) m.(Command_PresenceStats) m.(Command_Ping) m.(Command_Send) v m.(Command_SubRefresh) m.(Command_unknownFields).
Definition Command_set_SubRefresh (v : option pb_SubRefreshRequest) (m : pb_Command) : pb_Command :=
  mk_Command m.(Command_Id) m.(Command_Connect) m.(Command_Subscribe) m.(Command_Unsubscribe) m.(Command_Publish) m.(Command_Presence) m.(Command_PresenceStats) m.(Command_Ping) m.(Command_Send) m.(Command_Refresh) v m.(Command_unknownFields).
Definition Command_set_unknownFields (v : bytes) (m : pb_Command) : pb_Command :=
  mk_Command m.(Command_Id) m.(Command_Connect) m.(Command_Subscribe) m.(Command_Unsubscribe) m.(Command_Publish) m.(Command_Presence) m.(Command_PresenceStats) m.(Command_Ping) m.(Command_Send) m.(Command_Refresh) m.(Command_SubRefresh) v.
Definition new_Command : pb_Command := mk_Command 0 None None None None None None None None None None [].
Definition Command_SizeVT (m : pb_Command) : Z := sum_sizes [
  size_uint m.(Command_Id);
  size_message ConnectRequest_SizeVT m.(Command_Connect);
  size_message SubscribeRequest_SizeVT m.(Command_Subscribe);
  size_message UnsubscribeRequest_SizeVT m.(Command_Unsubscribe);
  size_message PublishRequest_SizeVT m.(Command_Publish);
  size_message PresenceRequest_SizeVT m.(Command_Presence);
  size_message PresenceStatsRequest_SizeVT m.(Command_PresenceStats);
  size_message PingRequest_SizeVT m.(Command_Ping);
  size_message SendRequest_SizeVT m.(Command_Send);
  size_message RefreshRequest_SizeVT m.(Command_Refresh);
  size_message SubRefreshRequest_SizeVT m.(Command_SubRefresh);
  zlen m.(Command_unknownFields)].
Definition Command_MarshalToSizedBufferVT (m : pb_Command) : sized := to_sized [
  put_copy m.(Command_unknownFields);
  put_message 0x5a SubRefreshRequest_MarshalToSizedBufferVT m.(Command_SubRefresh);
  put_message 0x52 RefreshRequest_MarshalToSizedBufferVT m.(Command_Refresh);
  put_message 0x4a SendRequest_MarshalToSizedBufferVT m.(Command_Send);
  put_message 0x42 PingRequest_MarshalToSizedBufferVT m.(Command_Ping);
  put_message 0x3a PresenceStatsRequest_MarshalToSizedBufferVT m.(Command_PresenceStats);
  put_message 0x32 PresenceRequest_MarshalToSizedBufferVT m.(Command_Presence);
  put_message 0x2a PublishRequest_MarshalToSizedBufferVT m.(Command_Publish);
  put_message 0x22 UnsubscribeRequest_MarshalToSizedBufferVT m.(Command_Unsubscribe);
  put_message 0x1a SubscribeRequest_MarshalToSizedBufferVT m.(Command_Subscribe);
  put_message 0x12 ConnectRequest_MarshalToSizedBufferVT m.(Command_Connect);
  put_uint 0x8 m.(Command_Id)].
Definition Command_MarshalVT (m : pb_Command) : outcome Empty_set bytes :=
  marshal (Command_SizeVT m) (Command_MarshalToSizedBufferVT m).
Definition Command_UnmarshalVT : bytes -> pb_Command -> outcome vt_error pb_Command := unmarshal "Command" [
  mkCase 1 0 "Id" (dec_uint wrap_u32 Command_set_Id);
  mkCase 2 2 "Connect" (dec_message new_ConnectRequest ConnectRequest_UnmarshalVT Command_Connect Command_set_Connect);
  mkCase 3 2 "Subscribe" (dec_message new_SubscribeRequest SubscribeRequest_UnmarshalVT Command_Subscribe Command_set_Subscribe);
  mkCase 4 2 "Unsubscribe" (dec_message new_UnsubscribeRequest UnsubscribeRequest_UnmarshalVT Command_Unsubscribe Command_set_Unsubscribe);
  mkCase 5 2 "Publish" (dec_message new_PublishRequest PublishRequest_UnmarshalVT Command_Publish Command_set_Publish);
  mkCase 6 2 "Presence" (dec_message new_PresenceRequest PresenceRequest_UnmarshalVT Command_Presence Command_set_Presence);
  mkCase 7 2 "PresenceStats" (dec_message new_PresenceStatsRequest PresenceStatsRequest_UnmarshalVT Command_PresenceStats Command_set_PresenceStats);
  mkCase 8 2 "Ping" (dec_message new_PingRequest PingRequest_UnmarshalVT Command_Ping Command_set_Ping);
  mkCase 9 2 "Send" (dec_message new_SendRequest SendRequest_UnmarshalVT Command_Send Command_set_Send);
  mkCase 10 2 "Refresh" (dec_message new_RefreshRequest RefreshRequest_UnmarshalVT Command_Refresh Command_set_Refresh);
  mkCase 11 2 "SubRefresh" (dec_message new_SubRefreshRequest SubRefreshRequest_UnmarshalVT Command_SubRefresh Command_set_SubRefresh)]
  (fun u m => Command_set_unknownFields (m.(Command_unknownFields) ++ u) m).

Definition ClientInfo_set_User (v : bytes) (m : pb_ClientInfo) : pb_ClientInfo :=
  mk_ClientInfo v m.(ClientInfo_Client) m.(ClientInfo_ConnInfo) m.(ClientInfo_ChanInfo) m.(ClientInfo_unknownFields).
Definition ClientInfo_set_Client (v : bytes) (m : pb_ClientInfo) : pb_ClientInfo :=
  mk_ClientInfo m.(ClientInfo_User) v m.(ClientInfo_ConnInfo) m.(ClientInfo_ChanInfo) m.(ClientInfo_unknownFields).
Definition ClientInfo_set_ConnInfo (v : option bytes) (m : pb_ClientInfo) : pb_ClientInfo :=
  mk_ClientInfo m.(ClientInfo_User) m.(ClientInfo_Client) v m.(ClientInfo_ChanInfo) m.(ClientInfo_unknownFields).
Definition ClientInfo_set_ChanInfo (v : option bytes) (m : pb_ClientInfo) : pb_ClientInfo :=
  mk_ClientInfo m.(ClientInfo_User) m.(ClientInfo_Client) m.(ClientInfo_ConnInfo) v m.(ClientInfo_unknownFields).
Definition ClientInfo_set_unknownFields (v : bytes) (m : pb_ClientInfo) : pb_ClientInfo :=
  mk_ClientInfo m.(ClientInfo_User) m.(ClientInfo_Client) m.(ClientInfo_ConnInfo) m.(ClientInfo_ChanInfo) v.
Definition new_ClientInfo : pb_ClientInfo := mk_ClientInfo [] [] None None [].
Definition ClientInfo_SizeVT (m : pb_ClientInfo) : Z := sum_sizes [
  size_bytes m.(ClientInfo_User);
  size_bytes m.(ClientInfo_Client);
  size_raw m.(ClientInfo_ConnInfo);
  size_raw m.(ClientInfo_ChanInfo);
  zlen m.(ClientInfo_unknownFields)].
Definition ClientInfo_MarshalToSizedBufferVT (m : pb_ClientInfo) : sized := to_sized [
  put_copy m.(ClientInfo_unknownFields);
  put_raw 0x22 m.(ClientInfo_ChanInfo);
  put_raw 0x1a m.(ClientInfo_ConnInfo);
  put_bytes 0x12 m.(ClientInfo_Client);
  put_bytes 0xa m.(ClientInfo_User)].
Definition ClientInfo_MarshalVT (m : pb_ClientInfo) : outcome Empty_set bytes :=
  marshal (ClientInfo_SizeVT m) (ClientInfo_MarshalToSizedBufferVT m).
Definition ClientInfo_UnmarshalVT : bytes -> pb_ClientInfo -> outcome vt_error pb_ClientInfo := unmarshal "ClientInfo" [
  mkCase 1 2 "User" (dec_string ClientInfo_set_User);
  mkCase 2 2 "Client" (dec_string ClientInfo_set_Client);
  mkCase 3 2 "ConnInfo" (dec_raw ClientInfo_set_ConnInfo);
  mkCase 4 2 "ChanInfo" (dec_raw ClientInfo_set_ChanInfo)]
  (fun u m => ClientInfo_set_unknownFields (m.(ClientInfo_unknownFields) ++ u) m).

Definition Publication_set_Data (v : option bytes) (m : pb_Publication) : pb_Publication :=
  mk_Publication v m.(Publication_Info) m.(Publication_Tags) m.(Publication_unknownFields).
Definition Publication_set_Info (v : option pb_ClientInfo) (m : pb_Publication) : pb_Publication :=
  mk_Publication m.(Publication_Data) v m.(Publication_Tags) m.(Publication_unknownFields).
Definition Publication_set_Tags (v : list (bytes * bytes)) (m : pb_Publication) : pb_Publication :=
  mk_Publication m.(Publication_Data) m.(Publication_Info) v m.(Publication_unknownFields).
Definition Publication_set_unknownFields (v : bytes) (m : pb_Publication) : pb_Publication :=
  mk_Publication m.(Publication_Data) m.(Publication_Info) m.(Publication_Tags) v.
Definition new_Publication : pb_Publication := mk_Publication None None [] [].
Definition Publication_SizeVT (m : pb_Publication) : Z := sum_sizes [
  size_raw m.(Publication_Data);
  size_message ClientInfo_SizeVT m.(Publication_Info);
  size_strings m.(Publication_Tags);
  zlen m.(Publication_unknownFields)].
Definition Publication_MarshalToSizedBufferVT (m : pb_Publication) : sized := to_sized [
  put_copy m.(Publication_unknownFields);
  put_strings 0x1a m.(Publication_Tags);
  put_message 0x12 ClientInfo_MarshalToSizedBufferVT m.(Publication_Info);
  put_raw 0xa m.(Publication_Data)].
Definition Publication_MarshalVT (m : pb_Publication) : outcome Empty_set bytes :=
  marshal (Publication_SizeVT m) (Publication_MarshalToSizedBufferVT m).
Definition Publication_UnmarshalVT : bytes -> pb_Publication -> outcome vt_error pb_Publication := unmarshal "Publication" [
  mkCase 1 2 "Data" (dec_raw Publication_set_Data);
  mkCase 2 2 "Info" (dec_message new_ClientInfo ClientInfo_UnmarshalVT Publication_Info Publication_set_Info);
  mkCase 3 2 "Tags" (dec_strings Publication_Tags Publication_set_Tags)]
  (fun u m => Publication_set_unknownFields (m.(Publication_unknownFields) ++ u) m).

Definition Join_set_Info (v : option pb_ClientInfo) (m : pb_Join) : pb_Join :=
  mk_Join v m.(Join_unknownFields).
Definition Join_set_unknownFields (v : bytes) (m : pb_Join) : pb_Join :=
  mk_Join m.(Join_Info) v.
Definition new_Join : pb_Join := mk_Join None [].
Definition Join_SizeVT (m : pb_Join) : Z := sum_sizes [
  size_message ClientInfo_SizeVT m.(Join_Info);
  zlen m.(Join_unknownFields)].
Definition Join_MarshalToSizedBufferVT (m : pb_Join) : sized := to_sized [
  put_copy m.(Join_unknownFields);
  put_message 0xa ClientInfo_MarshalToSizedBufferVT m.(Join_Info)].
Definition Join_MarshalVT (m : pb_Join) : outcome Empty_set bytes :=
  marshal (Join_SizeVT m) (Join_MarshalToSizedBufferVT m).
Definition Join_UnmarshalVT : bytes -> pb_Join -> outcome vt_error pb_Join := unmarshal "Join" [
  mkCase 1 2 "Info" (dec_message new_ClientInfo ClientInfo_UnmarshalVT Join_Info Join_set_Info)]
  (fun u m => Join_set_unknownFields (m.(Join_unknownFields) ++ u) m).

Definition Leave_set_Info (v : option pb_ClientInfo) (m : pb_Leave) : pb_Leave :=
  mk_Leave v m.(Leave_unknownFields).
Definition Leave_set_unknownFields (v : bytes) (m : pb_Leave) : pb_Leave :=
  mk_Leave m.(Leave_Info) v.
Definition new_Leave : pb_Leave := mk_Leave None [].
Definition Leave_SizeVT (m : pb_Leave) : Z := sum_sizes [
  size_message ClientInfo_SizeVT m.(Leave_Info);
  zlen m.(Leave_unknownFields)].
Definition Leave_MarshalToSizedBufferVT (m : pb_Leave) : sized := to_sized [
  put_copy m.(Leave_unknownFields);
  put_message 0xa ClientInfo_MarshalToSizedBufferVT m.(Leave_Info)].
Definition Leave_MarshalVT (m : pb_Leave) : outcome Empty_set bytes :=
  marshal (Leave_SizeVT m) (Leave_MarshalToSizedBufferVT m).
Definition Leave_UnmarshalVT : bytes -> pb_Leave -> outcome vt_error pb_Leave := unmarshal "Leave" [
  mkCase 1 2 "Info" (dec_message new_ClientInfo ClientInfo_UnmarshalVT Leave_Info Leave_set_Info)]
  (fun u m => Leave_set_unknownFields (m.(Leave_unknownFields) ++ u) m).

Definition Unsubscribe_set_Code (v : Z) (m : pb_Unsubscribe) : pb_Unsubscribe :=
  mk_Unsubscribe v m.(Unsubscribe_Reason) m.(Unsubscribe_unknownFields).
Definition Unsubscribe_set_Reason (v : bytes) (m : pb_Unsubscribe) : pb_Unsubscribe :=
  mk_Unsubscribe m.(Unsubscribe_Code) v m.(Unsubscribe_unknownFields).
Definition Unsubscribe_set_unknownFields (v : bytes) (m : pb_Unsubscribe) : pb_Unsubscribe :=
  mk_Unsubscribe m.(Unsubscribe_Code) m.(Unsubscribe_Reason) v.
Definition new_Unsubscribe : pb_Unsubscribe := mk_Unsubscribe 0 [] [].
Definition Unsubscribe_SizeVT (m : pb_Unsubscribe) : Z := sum_sizes [
  size_uint m.(Unsubscribe_Code);
  size_bytes m.(Unsubscribe_Reason);
  zlen m.(Unsubscribe_unknownFields)].
Definition Unsubscribe_MarshalToSizedBufferVT (m : pb_Unsubscribe) : sized := to_sized [
  put_copy m.(Unsubscribe_unknownFields);
  put_bytes 0x12 m.(Unsubscribe_Reason);
  put_uint 0x8 m.(Unsubscribe_Code)].
Definition Unsubscribe_MarshalVT (m : pb_Unsubscribe) : outcome Empty_set bytes :=
  marshal (Unsubscribe_SizeVT m) (Unsubscribe_MarshalToSizedBufferVT m).
Definition Unsubscribe_UnmarshalVT : bytes -> pb_Unsubscribe -> outcome vt_error pb_Unsubscribe := unmarshal "Unsubscribe" [
  mkCase 1 0 "Code" (dec_uint wrap_u32 Unsubscribe_set_Code);
  mkCase 2 2 "Reason" (dec_string Unsubscribe_set_Reason)]
  (fun u m => Unsubscribe_set_unknownFields (m.(Unsubscribe_unknownFields) ++ u) m).

Definition Message_set_Data (v : option bytes) (m : pb_Message) : pb_Message :=
  mk_Message v m.(Message_unknownFields).
Definition Message_set_unknownFields (v : bytes) (m : pb_Message) : pb_Message :=
  mk_Message m.(Message_Data) v.
Definition new_Message : pb_Message := mk_Message None [].
Definition Message_SizeVT (m : pb_Message) : Z := sum_sizes [
  size_raw m.(Message_Data);
  zlen m.(Message_unknownFields)].
Definition Message_MarshalToSizedBufferVT (m : pb_Message) : sized := to_sized [
  put_copy m.(Message_unknownFields);
  put_raw 0xa m.(Message_Data)].
Definition Message_MarshalVT (m : pb_Message) : outcome Empty_set bytes :=
  marshal (Message_SizeVT m) (Message_MarshalToSizedBufferVT m).
Definition Message_UnmarshalVT : bytes -> pb_Message -> outcome vt_error pb_Message := unmarshal "Message" [
  mkCase 1 2 "Data" (dec_raw Message_set_Data)]
  (fun u m => Message_set_unknownFields (m.(Message_unknownFields) ++ u) m).

Definition Subscribe_set_Data (v : option bytes) (m : pb_Subscribe) : pb_Subscribe :=
  mk_Subscribe v m.(Subscribe_unknownFields).
Definition Subscribe_set_unknownFields (v : bytes) (m : pb_Subscribe) : pb_Subscribe :=
  mk_Subscribe m.(Subscribe_Data) v.
Definition new_Subscribe : pb_Subscribe := mk_Subscribe None [].
Definition Subscribe_SizeVT (m : pb_Subscribe) : Z := sum_sizes [
  size_raw m.(Subscribe_Data);
  zlen m.(Subscribe_unknownFields)].
Definition Subscribe_MarshalToSizedBufferVT (m : pb_Subscribe) : sized := to_sized [
  put_copy m.(Subscribe_unknownFields);
  put_raw 0xa m.(Subscribe_Data)].
Definition Subscribe_MarshalVT (m : pb_Subscribe) : outcome Empty_set bytes :=
  marshal (Subscribe_SizeVT m) (Subscribe_MarshalToSizedBufferVT m).
Definition Subscribe_UnmarshalVT : bytes -> pb_Subscribe -> outcome vt_error pb_Subscribe := unmarshal "Subscribe" [
  mkCase 1 2 "Data" (dec_raw Subscribe_set_Data)]
  (fun u m => Subscribe_set_unknownFields (m.(Subscribe_unknownFields) ++ u) m).

Definition SubscribeResult_set_Expires (v : bool) (m : pb_SubscribeResult) : pb_SubscribeResult :=
  mk_SubscribeResult v m.(SubscribeResult_Ttl) m.(SubscribeResult_Publications) m.(SubscribeResult_Data) m.(SubscribeResult_unknownFields).
Definition SubscribeResult_set_Ttl (v : Z) (m : pb_SubscribeResult) : pb_SubscribeResult :=
  mk_SubscribeResult m.(SubscribeResult_Expires) v m.(SubscribeResult_Publications) m.(SubscribeResult_Data) m.(SubscribeResult_unknownFields).
Definition SubscribeResult_set_Publications (v : list (option pb_Publication)) (m : pb_SubscribeResult) : pb_SubscribeResult :=
  mk_SubscribeResult m.(SubscribeResult_Expires) m.(SubscribeResult_Ttl) v m.(SubscribeResult_Data) m.(SubscribeResult_unknownFields).
Definition SubscribeResult_set_Data (v : option bytes) (m : pb_SubscribeResult) : pb_SubscribeResult :=
  mk_SubscribeResult m.(SubscribeResult_Expires) m.(SubscribeResult_Ttl) m.(SubscribeResult_Publications) v m.(SubscribeResult_unknownFields).
Definition SubscribeResult_set_unknownFields (v : bytes) (m : pb_SubscribeResult) : pb_SubscribeResult :=
  mk_SubscribeResult m.(SubscribeResult_Expires) m.(SubscribeResult_Ttl) m.(SubscribeResult_Publications) m.(SubscribeResult_Data) v.
Definition new_SubscribeResult : pb_SubscribeResult := mk_SubscribeResult false 0 [] None [].
Definition SubscribeResult_SizeVT (m : pb_SubscribeResult) : Z := sum_sizes [
  size_bool m.(SubscribeResult_Expires);
  size_uint m.(SubscribeResult_Ttl);
  size_repeated Publication_SizeVT m.(SubscribeResult_Publications);
  size_raw m.(SubscribeResult_Data);
  zlen m.(SubscribeResult_unknownFields)].
Definition SubscribeResult_MarshalToSizedBufferVT (m : pb_SubscribeResult) : sized := to_sized [
  put_copy m.(SubscribeResult_unknownFields);
  put_raw 0x22 m.(SubscribeResult_Data);
  put_repeated 0x1a Publication_MarshalToSizedBufferVT m.(SubscribeResult_Publications);
  put_uint 0x10 m.(SubscribeResult_Ttl);
  put_bool 0x8 m.(SubscribeResult_Expires)].
Definition SubscribeResult_MarshalVT (m : pb_SubscribeResult) : outcome Empty_set bytes :=
  marshal (SubscribeResult_SizeVT m) (SubscribeResult_MarshalToSizedBufferVT m).
Definition SubscribeResult_UnmarshalVT : bytes -> pb_SubscribeResult -> outcome vt_error pb_SubscribeResult := unmarshal "SubscribeResult" [
  mkCase 1 0 "Expires" (dec_bool SubscribeResult_set_Expires);
  mkCase 2 0 "Ttl" (dec_uint wrap_u32 SubscribeResult_set_Ttl);
  mkCase 3 2 "Publications" (dec_repeated new_Publication Publication_UnmarshalVT SubscribeResult_Publications SubscribeResult_set_Publications);
  mkCase 4 2 "Data" (dec_raw SubscribeResult_set_Data)]
  (fun u m => SubscribeResult_set_unknownFields (m.(SubscribeResult_unknownFields) ++ u) m).

Definition Connect_set_Client (v : bytes) (m : pb_Connect) : pb_Connect :=
  mk_Connect v m.(Connect_Data) m.(Connect_Subs) m.(Connect_Expires) m.(Connect_Ttl) m.(Connect_Ping) m.(Connect_Session) m.(Connect_Node) m.(Connect_unknownFields).
Definition Connect_set_Data (v : option bytes) (m : pb_Connect) : pb_Connect :=
  mk_Connect m.(Connect_Client) v m.(Connect_Subs) m.(Connect_Expires) m.(Connect_Ttl) m.(Connect_Ping) m.(Connect_Session) m.(Connect_Node) m.(Connect_unknownFields).
Definition Connect_set_Subs (v : list (bytes * option pb_SubscribeResult)) (m : pb_Connect) : pb_Connect :=
  mk_Connect m.(Connect_Client) m.(Connect_Data) v m.(Connect_Expires) m.(Connect_Ttl) m.(Connect_Ping) m.(Connect_Session) m.(Connect_Node) m.(Connect_unknownFields).
Definition Connect_set_Expires (v : bool) (m : pb_Connect) : pb_Connect :=
  mk_Connect m.(Connect_Client) m.(Connect_Data) m.(Connect_Subs) v m.(Connect_Ttl) m.(Connect_Ping) m.(Connect_Session) m.(Connect_Node) m.(Connect_unknownFields).
Definition Connect_set_Ttl (v : Z) (m : pb_Connect) : pb_Connect :=
  mk_Connect m.(Connect_Client) m.(Connect_Data) m.(Connect_Subs) m.(Connect_Expires) v m.(Connect_Ping) m.(Connect_Session) m.(Connect_Node) m.(Connect_unknownFields).
Definition Connect_set_Ping (v : Z) (m : pb_Connect) : pb_Connect :=
  mk_Connect m.(Connect_Client) m.(Connect_Data) m.(Connect_Subs) m.(Connect_Expires) m.(Connect_Ttl) v m.(Connect_Session) m.(Connect_Node) m.(Connect_unknownFields).
Definition Connect_set_Session (v : bytes) (m : pb_Connect) : pb_Connect :=
  mk_Connect m.(Connect_Client) m.(Connect_Data) m.(Connect_Subs) m.(Connect_Expires) m.(Connect_Ttl) m.(Connect_Ping) v m.(Connect_Node) m.(Connect_unknownFields).
Definition Connect_set_Node (v : bytes) (m : pb_Connect) : pb_Connect :=
  mk_Connect m.(Connect_Client) m.(Connect_Data) m.(Connect_Subs) m.(Connect_Expires) m.(Connect_Ttl) m.(Connect_Ping) m.(Connect_Session) v m.(Connect_unknownFields).
Definition Connect_set_unknownFields (v : bytes) (m : pb_Connect) : pb_Connect :=
  mk_Connect m.(Connect_Client) m.(Connect_Data) m.(Connect_Subs) m.(Connect_Expires) m.(Connect_Ttl) m.(Connect_Ping) m.(Connect_Session) m.(Connect_Node) v.
Definition new_Connect : pb_Connect := mk_Connect [] None [] false 0 0 [] [] [].
Definition Connect_SizeVT (m : pb_Connect) : Z := sum_sizes [
  size_bytes m.(Connect_Client);
  size_raw m.(Connect_Data);
  size_map SubscribeResult_SizeVT m.(Connect_Subs);
  size_bool m.(Connect_Expires);
  size_uint m.(Connect_Ttl);
  size_uint m.(Connect_Ping);
  size_bytes m.(Connect_Session);
  size_bytes m.(Connect_Node);
  zlen m.(Connect_unknownFields)].
Definition Connect_MarshalToSizedBufferVT (m : pb_Connect) : sized := to_sized [
  put_copy m.(Connect_unknownFields);
  put_bytes 0x42 m.(Connect_Node);
  put_bytes 0x3a m.(Connect_Session);
  put_uint 0x30 m.(Connect_Ping);
  put_uint 0x28 m.(Connect_Ttl);
  put_bool 0x20 m.(Connect_Expires);
  put_map 0x1a SubscribeResult_MarshalToSizedBufferVT m.(Connect_Subs);
  put_raw 0x12 m.(Connect_Data);
  put_bytes 0xa m.(Connect_Client)].
Definition Connect_MarshalVT (m : pb_Connect) : outcome Empty_set bytes :=
  marshal (Connect_SizeVT m) (Connect_MarshalToSizedBufferVT m).
Definition Connect_UnmarshalVT : bytes -> pb_Connect -> outcome vt_error pb_Connect := unmarshal "Connect" [
  mkCase 1 2 "Client" (dec_string Connect_set_Client);
  mkCase 2 2 "Data" (dec_raw Connect_set_Data);
  mkCase 3 2 "Subs" (dec_map new_SubscribeResult SubscribeResult_UnmarshalVT Connect_Subs Connect_set_Subs);
  mkCase 4 0 "Expires" (dec_bool Connect_set_Expires);
  mkCase 5 0 "Ttl" (dec_uint wrap_u32 Connect_set_Ttl);
  mkCase 6 0 "Ping" (dec_uint wrap_u32 Connect_set_Ping);
  mkCase 7 2 "Session" (dec_string Connect_set_Session);
  mkCase 8 2 "Node" (dec_string Connect_set_Node)]
  (fun u m => Connect_set_unknownFields (m.(Connect_unknownFields) ++ u) m).

Definition Disconnect_set_Code (v : Z) (m : pb_Disconnect) : pb_Disconnect :=
  mk_Disconnect v m.(Disconnect_Reason) m.(Disconnect_Reconnect) m.(Disconnect_unknownFields).
Definition Disconnect_set_Reason (v : bytes) (m : pb_Disconnect) : pb_Disconnect :=
  mk_Disconnect m.(Disconnect_Code) v m.(Disconnect_Reconnect) m.(Disconnect_unknownFields).
Definition Disconnect_set_Reconnect (v : bool) (m : pb_Disconnect) : pb_Disconnect :=
  mk_Disconnect m.(Disconnect_Code) m.(Disconnect_Reason) v m.(Disconnect_unknownFields).
Definition Disconnect_set_unknownFields (v : bytes) (m : pb_Disconnect) : pb_Disconnect :=
  mk_Disconnect m.(Disconnect_Code) m.(Disconnect_Reason) m.(Disconnect_Reconnect) v.
Definition new_Disconnect : pb_Disconnect := mk_Disconnect 0 [] false [].
Definition Disconnect_SizeVT (m : pb_Disconnect) : Z := sum_sizes [
  size_uint m.(Disconnect_Code);
  size_bytes m.(Disconnect_Reason);
  size_bool m.(Disconnect_Reconnect);
  zlen m.(Disconnect_unknownFields)].
Definition Disconnect_MarshalToSizedBufferVT (m : pb_Disconnect) : sized := to_sized [
  put_copy m.(Disconnect_unknownFields);
  put_bool 0x18 m.(Disconnect_Reconnect);
  put_bytes 0x12 m.(Disconnect_Reason);
  put_uint 0x8 m.(Disconnect_Code)].
Definition Disconnect_MarshalVT (m : pb_Disconnect) : outcome Empty_set bytes :=
  marshal (Disconnect_SizeVT m) (Disconnect_MarshalToSizedBufferVT m).
Definition Disconnect_UnmarshalVT : bytes -> pb_Disconnect -> outcome vt_error pb_Disconnect := unmarshal "Disconnect" [
  mkCase 1 0 "Code" (dec_uint wrap_u32 Disconnect_set_Code);
  mkCase 2 2 "Reason" (dec_string Disconnect_set_Reason);
  mkCase 3 0 "Reconnect" (dec_bool Disconnect_set_Reconnect)]
  (fun u m => Disconnect_set_unknownFields (m.(Disconnect_unknownFields) ++ u) m).

Definition Refresh_set_Expires (v : bool) (m : pb_Refresh) : pb_Refresh :=
  mk_Refresh v m.(Refresh_Ttl) m.(Refresh_unknownFields).
Definition Refresh_set_Ttl (v : Z) (m : pb_Refresh) : pb_Refresh :=
  mk_Refresh m.(Refresh_Expires) v m.(Refresh_unknownFields).
Definition Refresh_set_unknownFields (v : bytes) (m : pb_Refresh) : pb_Refresh :=
  mk_Refresh m.(Refresh_Expires) m.(Refresh_Ttl) v.
Definition new_Refresh : pb_Refresh := mk_Refresh false 0 [].
Definition Refresh_SizeVT (m : pb_Refresh) : Z := sum_sizes [
  size_bool m.(Refresh_Expires);
  size_uint m.(Refresh_Ttl);
  zlen m.(Refresh_unknownFields)].
Definition Refresh_MarshalToSizedBufferVT (m : pb_Refresh) : sized := to_sized [
  put_copy m.(Refresh_unknownFields);
  put_uint 0x10 m.(Refresh_Ttl);
  put_bool 0x8 m.(Refresh_Expires)].
Definition Refresh_MarshalVT (m : pb_Refresh) : outcome Empty_set bytes :=
  marshal (Refresh_SizeVT m) (Refresh_MarshalToSizedBufferVT m).
Definition Refresh_UnmarshalVT : bytes -> pb_Refresh -> outcome vt_error pb_Refresh := unmarshal "Refresh" [
  mkCase 1 0 "Expires" (dec_bool Refresh_set_Expires);
  mkCase 2 0 "Ttl" (dec_uint wrap_u32 Refresh_set_Ttl)]
  (fun u m => Refresh_set_unknownFields (m.(Refresh_unknownFields) ++ u) m).

Definition Push_set_Channel (v : bytes) (m : pb_Push) : pb_Push :=
  mk_Push v m.(Push_Pub) m.(Push_Join) m.(Push_Leave) m.(Push_Unsubscribe) m.(Push_Message) m.(Push_Subscribe) m.(Push_Connect) m.(Push_Disconnect) m.(Push_Refresh) m.(Push_unknownFields).
Definition Push_set_Pub (v : option pb_Publication) (m : pb_Push) : pb_Push :=
  mk_Push m.(Push_Channel) v m.(Push_Join) m.(Push_Leave) m.(Push_Unsubscribe) m.(Push_Message) m.(Push_Subscribe) m.(Push_Connect) m.(Push_Disconnect) m.(Push_Refresh) m.(Push_unknownFields).
Definition Push_set_Join (v : option pb_Join) (m : pb_Push) : pb_Push :=
  mk_Push m.(Push_Channel) m.(Push_Pub) v m.(Push_Leave) m.(Push_Unsubscribe) m.(Push_Message) m.(Push_Subscribe) m.(Push_Connect) m.(Push_Disconnect) m.(Push_Refresh) m.(Push_unknownFields).
Definition Push_set_Leave (v : option pb_Leave) (m : pb_Push) : pb_Push :=
  mk_Push m.(Push_Channel) m.(Push_Pub) m.(Push_Join) v m.(Push_Unsubscribe) m.(Push_Message) m.(Push_Subscribe) m.(Push_Connect) m.(Push_Disconnect) m.(Push_Refresh) m.(Push_unknownFields).
Definition Push_set_Unsubscribe (v : option pb_Unsubscribe) (m : pb_Push) : pb_Push :=
  mk_Push m.(Push_Channel) m.(Push_Pub) m.(Push_Join) m.(Push_Leave) v m.(Push_Message) m.(Push_Subscribe) m.(Push_Connect) m.(Push_Disconnect) m.(Push_Refresh) m.(Push_unknownFields).
Definition Push_set_Message (v : option pb_Message) (m : pb_Push) : pb_Push :=
  mk_Push m.(Push_Channel) m.(Push_Pub) m.(Push_Join) m.(Push_Leave) m.(Push_Unsubscribe) v m.(Push_Subscribe) m.(Push_Connect) m.(Push_Disconnect) m.(Push_Refresh) m.(Push_unknownFields).
Definition Push_set_Subscribe (v : option pb_Subscribe) (m : pb_Push) : pb_Push :=
  mk_Push m.(Push_Channel) m.(Push_Pub) m.(Push_Join) m.(Push_Leave) m.(Push_Unsubscribe) m.(Push_Message) v m.(Push_Connect) m.(Push_Disconnect) m.(Push_Refresh) m.(Push_unknownFields).
Definition Push_set_Connect (v : option pb_Connect) (m : pb_Push) : pb_Push :=
  mk_Push m.(Push_Channel) m.(Push_Pub) m.(Push_Join) m.(Push_Leave) m.(Push_Unsubscribe) m.(Push_Message) m.(Push_Subscribe) v m.(Push_Disconnect) m.(Push_Refresh) m.(Push_unknownFields).
Definition Push_set_Disconnect (v : option pb_Disconnect) (m : pb_Push) : pb_Push :=
  mk_Push m.(Push_Channel) m.(Push_Pub) m.(Push_Join) m.(Push_Leave) m.(Push_Unsubscribe) m.(Push_Message) m.(Push_Subscribe) m.(Push_Connect) v m.(Push_Refresh) m.(Push_unknownFields).
Definition Push_set_Refresh (v : option pb_Refresh) (m : pb_Push) : pb_Push :=
  mk_Push m.(Push_Channel) m.(Push_Pub) m.(Push_Join) m.(Push_Leave) m.(Push_Unsubscribe) m.(Push_Message) m.(Push_Subscribe) m.(Push_Connect) m.(Push_Disconnect) v m.(Push_unknownFields).
Definition Push_set_unknownFields (v : bytes) (m : pb_Push) : pb_Push :=
  mk_Push m.(Push_Channel) m.(Push_Pub) m.(Push_Join) m.(Push_Leave) m.(Push_Unsubscribe) m.(Push_Message) m.(Push_Subscribe) m.(Push_Connect) m.(Push_Disconnect) m.(Push_Refresh) v.
Definition new_Push : pb_Push := mk_Push [] None None None None None None None None None [].
Definition Push_SizeVT (m : pb_Push) : Z := sum_sizes [
  size_bytes m.(Push_Channel);
  size_message Publication_SizeVT m.(Push_Pub);
  size_message Join_SizeVT m.(Push_Join);
  size_message Leave_SizeVT m.(Push_Leave);
  size_message Unsubscribe_SizeVT m.(Push_Unsubscribe);
  size_message Message_SizeVT m.(Push_Message);
  size_message Subscribe_SizeVT m.(Push_Subscribe);
  size_message Connect_SizeVT m.(Push_Connect);
  size_message Disconnect_SizeVT m.(Push_Disconnect);
  size_message Refresh_SizeVT m.(Push_Refresh);
  zlen m.(Push_unknownFields)].
Definition Push_MarshalToSizedBufferVT (m : pb_Push) : sized := to_sized [
  put_copy m.(Push_unknownFields);
  put_message 0x52 Refresh_MarshalToSizedBufferVT m.(Push_Refresh);
  put_message 0x4a Disconnect_MarshalToSizedBufferVT m.(Push_Disconnect);
  put_message 0x42 Connect_MarshalToSizedBufferVT m.(Push_Connect);
  put_message 0x3a Subscribe_MarshalToSizedBufferVT m.(Push_Subscribe);
  put_message 0x32 Message_MarshalToSizedBufferVT m.(Push_Message);
  put_message 0x2a Unsubscribe_MarshalToSizedBufferVT m.(Push_Unsubscribe);
  put_message 0x22 Leave_MarshalToSizedBufferVT m.(Push_Leave);
  put_message 0x1a Join_MarshalToSizedBufferVT m.(Push_Join);
  put_message 0x12 Publication_MarshalToSizedBufferVT m.(Push_Pub);
  put_bytes 0xa m.(Push_Channel)].
Definition Push_MarshalVT (m : pb_Push) : outcome Empty_set bytes :=
  marshal (Push_SizeVT m) (Push_MarshalToSizedBufferVT m).
Definition Push_UnmarshalVT : bytes -> pb_Push -> outcome vt_error pb_Push := unmarshal "Push" [
  mkCase 1 2 "Channel" (dec_string Push_set_Channel);
  mkCase 2 2 "Pub" (dec_message new_Publication Publication_UnmarshalVT Push_Pub Push_set_Pub);
  mkCase 3 2 "Join" (dec_message new_Join Join_UnmarshalVT Push_Join Push_set_Join);
  mkCase 4 2 "Leave" (dec_message new_Leave Leave_UnmarshalVT Push_Leave Push_set_Leave);
  mkCase 5 2 "Unsubscribe" (dec_message new_Unsubscribe Unsubscribe_UnmarshalVT Push_Unsubscribe Push_set_Unsubscribe);
  mkCase 6 2 "Message" (dec_message new_Message Message_UnmarshalVT Push_Message Push_set_Message);
  mkCase 7 2 "Subscribe" (dec_message new_Subscribe Subscribe_UnmarshalVT Push_Subscribe Push_set_Subscribe);
  mkCase 8 2 "Connect" (dec_message new_Connect Connect_UnmarshalVT Push_Connect Push_set_Connect);
  mkCase 9 2 "Disconnect" (dec_message new_Disconnect Disconnect_UnmarshalVT Push_Disconnect Push_set_Disconnect);
  mkCase 10 2 "Refresh" (dec_message new_Refresh Refresh_UnmarshalVT Push_Refresh Push_set_Refresh)]
  (fun u m => Push_set_unknownFields (m.(Push_unknownFields) ++ u) m).

Definition ConnectResult_set_Client (v : bytes) (m : pb_ConnectResult) : pb_ConnectResult :=
  mk_ConnectResult v m.(ConnectResult_Expires) m.(ConnectResult_Ttl) m.(ConnectResult_Data) m.(ConnectResult_Subs) m.(ConnectResult_Ping) m.(ConnectResult_Session) m.(ConnectResult_Node) m.(ConnectResult_unknownFields).
Definition ConnectResult_set_Expires (v : bool) (m : pb_ConnectResult) : pb_ConnectResult :=
  mk_ConnectResult m.(ConnectResult_Client) v m.(ConnectResult_Ttl) m.(ConnectResult_Data) m.(ConnectResult_Subs) m.(ConnectResult_Ping) m.(ConnectResult_Session) m.(ConnectResult_Node) m.(ConnectResult_unknownFields).
Definition ConnectResult_set_Ttl (v : Z) (m : pb_ConnectResult) : pb_ConnectResult :=
  mk_ConnectResult m.(ConnectResult_Client) m.(ConnectResult_Expires) v m.(ConnectResult_Data) m.(ConnectResult_Subs) m.(ConnectResult_Ping) m.(ConnectResult_Session) m.(ConnectResult_Node) m.(ConnectResult_unknownFields).
Definition ConnectResult_set_Data (v : option bytes) (m : pb_ConnectResult) : pb_ConnectResult :=
  mk_ConnectResult m.(ConnectResult_Client) m.(ConnectResult_Expires) m.(ConnectResult_Ttl) v m.(ConnectResult_Subs) m.(ConnectResult_Ping) m.(ConnectResult_Session) m.(ConnectResult_Node) m.(ConnectResult_unknownFields).
Definition ConnectResult_set_Subs (v : list (bytes * option pb_SubscribeResult)) (m : pb_ConnectResult) : pb_ConnectResult :=
  mk_ConnectResult m.(ConnectResult_Client) m.(ConnectResult_Expires) m.(ConnectResult_Ttl) m.(ConnectResult_Data) v m.(ConnectResult_Ping) m.(ConnectResult_Session) m.(ConnectResult_Node) m.(ConnectResult_unknownFields).
Definition ConnectResult_set_Ping (v : Z) (m : pb_ConnectResult) : pb_ConnectResult :=
  mk_ConnectResult m.(ConnectResult_Client) m.(ConnectResult_Expires) m.(ConnectResult_Ttl) m.(ConnectResult_Data) m.(ConnectResult_Subs) v m.(ConnectResult_Session) m.(ConnectResult_Node) m.(ConnectResult_unknownFields).
Definition ConnectResult_set_Session (v : bytes) (m : pb_ConnectResult) : pb_ConnectResult :=
  mk_ConnectResult m.(ConnectResult_Client) m.(ConnectResult_Expires) m.(ConnectResult_Ttl) m.(ConnectResult_Data) m.(ConnectResult_Subs) m.(ConnectResult_Ping) v m.(ConnectResult_Node) m.(ConnectResult_unknownFields).
Definition ConnectResult_set_Node (v : bytes) (m : pb_ConnectResult) : pb_ConnectResult :=
  mk_ConnectResult m.(ConnectResult_Client) m.(ConnectResult_Expires) m.(ConnectResult_Ttl) m.(ConnectResult_Data) m.(ConnectResult_Subs) m.(ConnectResult_Ping) m.(ConnectResult_Session) v m.(ConnectResult_unknownFields).
Definition ConnectResult_set_unknownFields (v : bytes) (m : pb_ConnectResult) : pb_ConnectResult :=
  mk_ConnectResult m.(ConnectResult_Client) m.(ConnectResult_Expires) m.(ConnectResult_Ttl) m.(ConnectResult_Data) m.(ConnectResult_Subs) m.(ConnectResult_Ping) m.(ConnectResult_Session) m.(ConnectResult_Node) v.
Definition new_ConnectResult : pb_ConnectResult := mk_ConnectResult [] false 0 None [] 0 [] [] [].
Definition ConnectResult_SizeVT (m : pb_ConnectResult) : Z := sum_sizes [
  size_bytes m.(ConnectResult_Client);
  size_bool m.(ConnectResult_Expires);
  size_uint m.(ConnectResult_Ttl);
  size_raw m.(ConnectResult_Data);
  size_map SubscribeResult_SizeVT m.(ConnectResult_Subs);
  size_uint m.(ConnectResult_Ping);
  size_bytes m.(ConnectResult_Session);
  size_bytes m.(ConnectResult_Node);
  zlen m.(ConnectResult_unknownFields)].
Definition ConnectResult_MarshalToSizedBufferVT (m : pb_ConnectResult) : sized := to_sized [
  put_copy m.(ConnectResult_unknownFields);
  put_bytes 0x42 m.(ConnectResult_Node);
  put_bytes 0x3a m.(ConnectResult_Session);
  put_uint 0x30 m.(ConnectResult_Ping);
  put_map 0x2a SubscribeResult_MarshalToSizedBufferVT m.(ConnectResult_Subs);
  put_raw 0x22 m.(ConnectResult_Data);
  put_uint 0x18 m.(ConnectResult_Ttl);
  put_bool 0x10 m.(ConnectResult_Expires);
  put_bytes 0xa m.(ConnectResult_Client)].
Definition ConnectResult_MarshalVT (m : pb_ConnectResult) : outcome Empty_set bytes :=
  marshal (ConnectResult_SizeVT m) (ConnectResult_MarshalToSizedBufferVT m).
Definition ConnectResult_UnmarshalVT : bytes -> pb_ConnectResult -> outcome vt_error pb_ConnectResult := unmarshal "ConnectResult" [
  mkCase 1 2 "Client" (dec_string ConnectResult_set_Client);
  mkCase 2 0 "Expires" (dec_bool ConnectResult_set_Expires);
  mkCase 3 0 "Ttl" (dec_uint wrap_u32 ConnectResult_set_Ttl);
  mkCase 4 2 "Data" (dec_raw ConnectResult_set_Data);
  mkCase 5 2 "Subs" (dec_map new_SubscribeResult SubscribeResult_UnmarshalVT ConnectResult_Subs ConnectResult_set_Subs);
  mkCase 6 0 "Ping" (dec_uint wrap_u32 ConnectResult_set_Ping);
  mkCase 7 2 "Session" (dec_string ConnectResult_set_Session);
  mkCase 8 2 "Node" (dec_string ConnectResult_set_Node)]
  (fun u m => ConnectResult_set_unknownFields (m.(ConnectResult_unknownFields) ++ u) m).

Definition UnsubscribeResult_set_unknownFields (v : bytes) (m : pb_UnsubscribeResult) : pb_UnsubscribeResult :=
  mk_UnsubscribeResult v.
Definition new_UnsubscribeResult : pb_UnsubscribeResult := mk_UnsubscribeResult [].
Definition UnsubscribeResult_SizeVT (m : pb_UnsubscribeResult) : Z := sum_sizes [
  zlen m.(UnsubscribeResult_unknownFields)].
Definition UnsubscribeResult_MarshalToSizedBufferVT (m : pb_UnsubscribeResult) : sized := to_sized [
  put_copy m.(UnsubscribeResult_unknownFields)].
Definition UnsubscribeResult_MarshalVT (m : pb_UnsubscribeResult) : outcome Empty_set bytes :=
  marshal (UnsubscribeResult_SizeVT m) (UnsubscribeResult_MarshalToSizedBufferVT m).
Definition UnsubscribeResult_UnmarshalVT : bytes -> pb_UnsubscribeResult -> outcome vt_error pb_UnsubscribeResult := unmarshal "UnsubscribeResult" []
  (fun u m => UnsubscribeResult_set_unknownFields (m.(UnsubscribeResult_unknownFields) ++ u) m).

Definition PublishResult_set_unknownFields (v : bytes) (m : pb_PublishResult) : pb_PublishResult :=
  mk_PublishResult v.
Definition new_PublishResult : pb_PublishResult := mk_PublishResult [].
Definition PublishResult_SizeVT (m : pb_PublishResult) : Z := sum_sizes [
  zlen m.(PublishResult_unknownFields)].
Definition PublishResult_MarshalToSizedBufferVT (m : pb_PublishResult) : sized := to_sized [
  put_copy m.(PublishResult_unknownFields)].
Definition PublishResult_MarshalVT (m : pb_PublishResult) : outcome Empty_set bytes :=
  marshal (PublishResult_SizeVT m) (PublishResult_MarshalToSizedBufferVT m).
Definition PublishResult_UnmarshalVT : bytes -> pb_PublishResult -> outcome vt_error pb_PublishResult := unmarshal "PublishResult" []
  (fun u m => PublishResult_set_unknownFields (m.(PublishResult_unknownFields) ++ u) m).

Definition PresenceResult_set_Presence (v : option (list (bytes * option pb_ClientInfo))) (m : pb_PresenceResult) : pb_PresenceResult :=
  mk_PresenceResult v m.(PresenceResult_unknownFields).
Definition PresenceResult_set_unknownFields (v : bytes) (m : pb_PresenceResult) : pb_PresenceResult :=
  mk_PresenceResult m.(PresenceResult_Presence) v.
Definition new_PresenceResult : pb_PresenceResult := mk_PresenceResult None [].
Definition PresenceResult_SizeVT (m : pb_PresenceResult) : Z := sum_sizes [
  size_map ClientInfo_SizeVT (default [] m.(PresenceResult_Presence));
  zlen m.(PresenceResult_unknownFields)].
Definition PresenceResult_MarshalToSizedBufferVT (m : pb_PresenceResult) : sized := to_sized [
  put_copy m.(PresenceResult_unknownFields);
  put_map 0xa ClientInfo_MarshalToSizedBufferVT (default [] m.(PresenceResult_Presence))].
Definition PresenceResult_MarshalVT (m : pb_PresenceResult) : outcome Empty_set bytes :=
  marshal (PresenceResult_SizeVT m) (PresenceResult_MarshalToSizedBufferVT m).
Definition PresenceResult_UnmarshalVT : bytes -> pb_PresenceResult -> outcome vt_error pb_PresenceResult := unmarshal "PresenceResult" [
  mkCase 1 2 "Presence" (dec_map new_ClientInfo ClientInfo_UnmarshalVT (fun m => default [] m.(PresenceResult_Presence)) (fun x => PresenceResult_set_Presence (Some x)))]
  (fun u m => PresenceResult_set_unknownFields (m.(PresenceResult_unknownFields) ++ u) m).

Definition PresenceStatsResult_set_NumClients (v : Z) (m : pb_PresenceStatsResult) : pb_PresenceStatsResult :=
  mk_PresenceStatsResult v m.(PresenceStatsResult_NumUsers) m.(PresenceStatsResult_unknownFields).
Definition PresenceStatsResult_set_NumUsers (v : Z) (m : pb_PresenceStatsResult) : pb_PresenceStatsResult :=
  mk_PresenceStatsResult m.(PresenceStatsResult_NumClients) v m.(PresenceStatsResult_unknownFields).
Definition PresenceStatsResult_set_unknownFields (v : bytes) (m : pb_PresenceStatsResult) : pb_PresenceStatsResult :=
  mk_PresenceStatsResult m.(PresenceStatsResult_NumClients) m.(PresenceStatsResult_NumUsers) v.
Definition new_PresenceStatsResult : pb_PresenceStatsResult := mk_PresenceStatsResult 0 0 [].
Definition PresenceStatsResult_SizeVT (m : pb_PresenceStatsResult) : Z := sum_sizes [
  size_uint m.(PresenceStatsResult_NumClients);
  size_uint m.(PresenceStatsResult_NumUsers);
  zlen m.(PresenceStatsResult_unknownFields)].
Definition PresenceStatsResult_MarshalToSizedBufferVT (m : pb_PresenceStatsResult) : sized := to_sized [
  put_copy m.(PresenceStatsResult_unknownFields);
  put_uint 0x10 m.(PresenceStatsResult_NumUsers);
  put_uint 0x8 m.(PresenceStatsResult_NumClients)].
Definition PresenceStatsResult_MarshalVT (m : pb_PresenceStatsResult) : outcome Empty_set bytes :=
  marshal (PresenceStatsResult_SizeVT m) (PresenceStatsResult_MarshalToSizedBufferVT m).
Definition PresenceStatsResult_UnmarshalVT : bytes -> pb_PresenceStatsResult -> outcome vt_error pb_PresenceStatsResult := unmarshal "PresenceStatsResult" [
  mkCase 1 0 "NumClients" (dec_uint wrap_u32 PresenceStatsResult_set_NumClients);
  mkCase 2 0 "NumUsers" (dec_uint wrap_u32 PresenceStatsResult_set_NumUsers)]
  (fun u m => PresenceStatsResult_set_unknownFields (m.(PresenceStatsResult_unknownFields) ++ u) m).

Definition PingResult_set_unknownFields (v : bytes) (m : pb_PingResult) : pb_PingResult :=
  mk_PingResult v.
Definition new_PingResult : pb_PingResult := mk_PingResult [].
Definition PingResult_SizeVT (m : pb_PingResult) : Z := sum_sizes [
  zlen m.(PingResult_unknownFields)].
Definition PingResult_MarshalToSizedBufferVT (m : pb_PingResult) : sized := to_sized [
  put_copy m.(PingResult_unknownFields)].
Definition PingResult_MarshalVT (m : pb_PingResult) : outcome Empty_set bytes :=
  marshal (PingResult_SizeVT m) (PingResult_MarshalToSizedBufferVT m).
Definition PingResult_UnmarshalVT : bytes -> pb_PingResult -> outcome vt_error pb_PingResult := unmarshal "PingResult" []
  (fun u m => PingResult_set_unknownFields (m.(PingResult_unknownFields) ++ u) m).

Definition RefreshResult_set_Client (v : bytes) (m : pb_RefreshResult) : pb_RefreshResult :=
  mk_RefreshResult v m.(RefreshResult_Version) m.(RefreshResult_Expires) m.(RefreshResult_Ttl) m.(RefreshResult_unknownFields).
Definition RefreshResult_set_Version (v : bytes) (m : pb_RefreshResult) : pb_RefreshResult :=
  mk_RefreshResult m.(RefreshResult_Client) v m.(RefreshResult_Expires) m.(RefreshResult_Ttl) m.(RefreshResult_unknownFields).
Definition RefreshResult_set_Expires (v : bool) (m : pb_RefreshResult) : pb_RefreshResult :=
  mk_RefreshResult m.(RefreshResult_Client) m.(RefreshResult_Version) v m.(RefreshResult_Ttl) m.(RefreshResult_unknownFields).
Definition RefreshResult_set_Ttl (v : Z) (m : pb_RefreshResult) : pb_RefreshResult :=
  mk_RefreshResult m.(RefreshResult_Client) m.(RefreshResult_Version) m.(RefreshResult_Expires) v m.(RefreshResult_unknownFields).
Definition RefreshResult_set_unknownFields (v : bytes) (m : pb_RefreshResult) : pb_RefreshResult :=
  mk_RefreshResult m.(RefreshResult_Client) m.(RefreshResult_Version) m.(RefreshResult_Expires) m.(RefreshResult_Ttl) v.
Definition new_RefreshResult : pb_RefreshResult := mk_RefreshResult [] [] false 0 [].
Definition RefreshResult_SizeVT (m : pb_RefreshResult) : Z := sum_sizes [
  size_bytes m.(RefreshResult_Client);
  size_bytes m.(RefreshResult_Version);
  size_bool m.(RefreshResult_Expires);
  size_uint m.(RefreshResult_Ttl);
  zlen m.(RefreshResult_unknownFields)].
Definition RefreshResult_MarshalToSizedBufferVT (m : pb_RefreshResult) : sized := to_sized [
  put_copy m.(RefreshResult_unknownFields);
  put_uint 0x20 m.(RefreshResult_Ttl);
  put_bool 0x18 m.(RefreshResult_Expires);
  put_bytes 0x12 m.(RefreshResult_Version);
  put_bytes 0xa m.(RefreshResult_Client)].
Definition RefreshResult_MarshalVT (m : pb_RefreshResult) : outcome Empty_set bytes :=
  marshal (RefreshResult_SizeVT m) (RefreshResult_MarshalToSizedBufferVT m).
Definition RefreshResult_UnmarshalVT : bytes -> pb_RefreshResult -> outcome vt_error pb_RefreshResult := unmarshal "RefreshResult" [
  mkCase 1 2 "Client" (dec_string RefreshResult_set_Client);
  mkCase 2 2 "Version" (dec_string RefreshResult_set_Version);
  mkCase 3 0 "Expires" (dec_bool RefreshResult_set_Expires);
  mkCase 4 0 "Ttl" (dec_uint wrap_u32 RefreshResult_set_Ttl)]
  (fun u m => RefreshResult_set_unknownFields (m.(RefreshResult_unknownFields) ++ u) m).

Definition SubRefreshResult_set_Expires (v : bool) (m : pb_SubRefreshResult) : pb_SubRefreshResult :=
  mk_SubRefreshResult v m.(SubRefreshResult_Ttl) m.(SubRefreshResult_unknownFields).
Definition SubRefreshResult_set_Ttl (v : Z) (m : pb_SubRefreshResult) : pb_SubRefreshResult :=
  mk_SubRefreshResult m.(SubRefreshResult_Expires) v m.(SubRefreshResult_unknownFields).
Definition SubRefreshResult_set_unknownFields (v : bytes) (m : pb_SubRefreshResult) : pb_SubRefreshResult :=
  mk_SubRefreshResult m.(SubRefreshResult_Expires) m.(SubRefreshResult_Ttl) v.
Definition new_SubRefreshResult : pb_SubRefreshResult := mk_SubRefreshResult false 0 [].
Definition SubRefreshResult_SizeVT (m : pb_SubRefreshResult) : Z := sum_sizes [
  size_bool m.(SubRefreshResult_Expires);
  size_uint m.(SubRefreshResult_Ttl);
  zlen m.(SubRefreshResult_unknownFields)].
Definition SubRefreshResult_MarshalToSizedBufferVT (m : pb_SubRefreshResult) : sized := to_sized [
  put_copy m.(SubRefreshResult_unknownFields);
  put_uint 0x10 m.(SubRefreshResult_Ttl);
  put_bool 0x8 m.(SubRefreshResult_Expires)].
Definition SubRefreshResult_MarshalVT (m : pb_SubRefreshResult) : outcome Empty_set bytes :=
  marshal (SubRefreshResult_SizeVT m) (SubRefreshResult_MarshalToSizedBufferVT m).
Definition SubRefreshResult_UnmarshalVT : bytes -> pb_SubRefreshResult -> outcome vt_error pb_SubRefreshResult := unmarshal "SubRefreshResult" [
  mkCase 1 0 "Expires" (dec_bool SubRefreshResult_set_Expires);
  mkCase 2 0 "Ttl" (dec_uint wrap_u32 SubRefreshResult_set_Ttl)]
  (fun u m => SubRefreshResult_set_unknownFields (m.(SubRefreshResult_unknownFields) ++ u) m).

Definition Reply_set_Id (v : Z) (m : pb_Reply) : pb_Reply :=
  mk_Reply v m.(Reply_Error) m.(Reply_Push) m.(Reply_Connect) m.(Reply_Subscribe) m.(Reply_Unsubscribe) m.(Reply_Publish) m.(Reply_Presence) m.(Reply_PresenceStats) m.(Reply_Ping) m.(Reply_Refresh) m.(Reply_SubRefresh) m.(Reply_unknownFields).
Definition Reply_set_Error (v : option pb_Error) (m : pb_Reply) : pb_Reply :=
  mk_Reply m.(Reply_Id) v m.(Reply_Push) m.(Reply_Connect) m.(Reply_Subscribe) m.(Reply_Unsubscribe) m.(Reply_Publish) m.(Reply_Presence) m.(Reply_PresenceStats) m.(Reply_Ping) m.(Reply_Refresh) m.(Reply_SubRefresh) m.(Reply_unknownFields).
Definition Reply_set_Push (v : option pb_Push) (m : pb_Reply) : pb_Reply :=
  mk_Reply m.(Reply_Id) m.(Reply_Error) v m.(Reply_Connect) m.(Reply_Subscribe) m.(Reply_Unsubscribe) m.(Reply_Publish) m.(Reply_Presence) m.(Reply_PresenceStats) m.(Reply_Ping) m.(Reply_Refresh) m.(Reply_SubRefresh) m.(Reply_unknownFields).
Definition Reply_set_Connect (v : option pb_ConnectResult) (m : pb_Reply) : pb_Reply :=
  mk_Reply m.(Reply_Id) m.(Reply_Error) m.(Reply_Push) v m.(Reply_Subscribe) m.(Reply_Unsubscribe) m.(Reply_Publish) m.(Reply_Presence) m.(Reply_PresenceStats) m.(Reply_Ping) m.(Reply_Refresh) m.(Reply_SubRefresh) m.(Reply_unknownFields).
Definition Reply_set_Subscribe (v : option pb_SubscribeResult) (m : pb_Reply) : pb_Reply :=
  mk_Reply m.(Reply_Id) m.(Reply_Error) m.(Reply_Push) m.(Reply_Connect) v m.(Reply_Unsubscribe) m.(Reply_Publish) m.(Reply_Presence) m.(Reply_PresenceStats) m.(Reply_Ping) m.(Reply_Refresh) m.(Reply_SubRefresh) m.(Reply_unknownFields).
Definition Reply_set_Unsubscribe (v : option pb_UnsubscribeResult) (m : pb_Reply) : pb_Reply :=
  mk_Reply m.(Reply_Id) m.(Reply_Error) m.(Reply_Push) m.(Reply_Connect) m.(Reply_Subscribe) v m.(Reply_Publish) m.(Reply_Presence) m.(Reply_PresenceStats) m.(Reply_Ping) m.(Reply_Refresh) m.(Reply_SubRefresh) m.(Reply_unknownFields).
Definition Reply_set_Publish (v : option pb_PublishResult) (m : pb_Reply) : pb_Reply :=
  mk_Reply m.(Reply_Id) m.(Reply_Error) m.(Reply_Push) m.(Reply_Connect) m.(Reply_Subscribe) m.(Reply_Unsubscribe) v m.(Reply_Presence) m.(Reply_PresenceStats) m.(Reply_Ping) m.(Reply_Refresh) m.(Reply_SubRefresh) m.(Reply_unknownFields).
Definition Reply_set_Presence (v : option pb_PresenceResult) (m : pb_Reply) : pb_Reply :=
  mk_Reply m.(Reply_Id) m.(Reply_Error) m.(Reply_Push) m.(Reply_Connect) m.(Reply_Subscribe) m.(Reply_Unsubscribe) m.(Reply_Publish) v m.(Reply_PresenceStats) m.(Reply_Ping) m.(Reply_Refresh) m.(Reply_SubRefresh) m.(Reply_unknownFields).
Definition Reply_set_PresenceStats (v : option pb_PresenceStatsResult) (m : pb_Reply) : pb_Reply :=
  mk_Reply m.(Reply_Id) m.(Reply_Error) m.(Reply_Push) m.(Reply_Connect) m.(Reply_Subscribe) m.(Reply_Unsubscribe) m.(Reply_Publish) m.(Reply_Presence) v m.(Reply_Ping) m.(Reply_Refresh) m.(Reply_SubRefresh) m.(Reply_unknownFields).
Definition Reply_set_Ping (v : option pb_PingResult) (m : pb_Reply) : pb_Reply :=
  mk_Reply m.(Reply_Id) m.(Reply_Error) m.(Reply_Push) m.(Reply_Connect) m.(Reply_Subscribe) m.(Reply_Unsubscribe) m.(Reply_Publish) m.(Reply_Presence) m.(Reply_PresenceStats) v m.(Reply_Refresh) m.(Reply_SubRefresh) m.(Reply_unknownFields).
Definition Reply_set_Refresh (v : option pb_RefreshResult) (m : pb_Reply) : pb_Reply :=
  mk_Reply m.(Reply_Id) m.(Reply_Error) m.(Reply_Push) m.(Reply_Connect) m.(Reply_Subscribe) m.(Reply_Unsubscribe) m.(Reply_Publish) m.(Reply_Presence) m.(Reply_PresenceStats) m.(Reply_Ping) v m.(Reply_SubRefresh) m.(Reply_unknownFields).
Definition Reply_set_SubRefresh (v : option pb_SubRefreshResult) (m : pb_Reply) : pb_Reply :=
  mk_Reply m.(Reply_Id) m.(Reply_Error) m.(Reply_Push) m.(Reply_Connect) m.(Reply_Subscribe) m.(Reply_Unsubscribe) m.(Reply_Publish) m.(Reply_Presence) m.(Reply_PresenceStats) m.(Reply_Ping) m.(Reply_Refresh) v m.(Reply_unknownFields).
Definition Reply_set_unknownFields (v : bytes) (m : pb_Reply) : pb_Reply :=
  mk_Reply m.(Reply_Id) m.(Reply_Error) m.(Reply_Push) m.(Reply_Connect) m.(Reply_Subscribe) m.(Reply_Unsubscribe) m.(Reply_Publish) m.(Reply_Presence) m.(Reply_PresenceStats) m.(Reply_Ping) m.(Reply_Refresh) m.(Reply_SubRefresh) v.
Definition new_Reply : pb_Reply := mk_Reply 0 None None None None None None None None None None None [].
Definition Reply_SizeVT (m : pb_Reply) : Z := sum_sizes [
  size_uint m.(Reply_Id);
  size_message Error_SizeVT m.(Reply_Error);
  size_message Push_SizeVT m.(Reply_Push);
  size_message ConnectResult_SizeVT m.(Reply_Connect);
  size_message SubscribeResult_SizeVT m.(Reply_Subscribe);
  size_message UnsubscribeResult_SizeVT m.(Reply_Unsubscribe);
  size_message PublishResult_SizeVT m.(Reply_Publish);
  size_message PresenceResult_SizeVT m.(Reply_Presence);
  size_message PresenceStatsResult_SizeVT m.(Reply_PresenceStats);
  size_message PingResult_SizeVT m.(Reply_Ping);
  size_message RefreshResult_SizeVT m.(Reply_Refresh);
  size_message SubRefreshResult_SizeVT m.(Reply_SubRefresh);
  zlen m.(Reply_unknownFields)].
Definition Reply_MarshalToSizedBufferVT (m : pb_Reply) : sized := to_sized [
  put_copy m.(Reply_unknownFields);
  put_message 0x7a SubRefreshResult_MarshalToSizedBufferVT m.(Reply_SubRefresh);
  put_message 0x72 RefreshResult_MarshalToSizedBufferVT m.(Reply_Refresh);
  put_message 0x62 PingResult_MarshalToSizedBufferVT m.(Reply_Ping);
  put_message 0x52 PresenceStatsResult_MarshalToSizedBufferVT m.(Reply_PresenceStats);
  put_message 0x4a PresenceResult_MarshalToSizedBufferVT m.(Reply_Presence);
  put_message 0x42 PublishResult_MarshalToSizedBufferVT m.(Reply_Publish);
  put_message 0x3a UnsubscribeResult_MarshalToSizedBufferVT m.(Reply_Unsubscribe);
  put_message 0x32 SubscribeResult_MarshalToSizedBufferVT m.(Reply_Subscribe);
  put_message 0x2a ConnectResult_MarshalToSizedBufferVT m.(Reply_Connect);
  put_message 0x22 Push_MarshalToSizedBufferVT m.(Reply_Push);
  put_message 0x12 Error_MarshalToSizedBufferVT m.(Reply_Error);
  put_uint 0x8 m.(Reply_Id)].
Definition Reply_MarshalVT (m : pb_Reply) : outcome Empty_set bytes :=
  marshal (Reply_SizeVT m) (Reply_MarshalToSizedBufferVT m).
Definition Reply_UnmarshalVT : bytes -> pb_Reply -> outcome vt_error pb_Reply := unmarshal "Reply" [
  mkCase 1 0 "Id" (dec_uint wrap_u32 Reply_set_Id);
  mkCase 2 2 "Error" (dec_message new_Error Error_UnmarshalVT Reply_Error Reply_set_Error);
  mkCase 4 2 "Push" (dec_message new_Push Push_UnmarshalVT Reply_Push Reply_set_Push);
  mkCase 5 2 "Connect" (dec_message new_ConnectResult ConnectResult_UnmarshalVT Reply_Connect Reply_set_Connect);
  mkCase 6 2 "Subscribe" (dec_message new_SubscribeResult SubscribeResult_UnmarshalVT Reply_Subscribe Reply_set_Subscribe);
  mkCase 7 2 "Unsubscribe" (dec_message new_UnsubscribeResult UnsubscribeResult_UnmarshalVT Reply_Unsubscribe Reply_set_Unsubscribe);
  mkCase 8 2 "Publish" (dec_message new_PublishResult PublishResult_UnmarshalVT Reply_Publish Reply_set_Publish);
  mkCase 9 2 "Presence" (dec_message new_PresenceResult PresenceResult_UnmarshalVT Reply_Presence Reply_set_Presence);
  mkCase 10 2 "PresenceStats" (dec_message new_PresenceStatsResult PresenceStatsResult_UnmarshalVT Reply_PresenceStats Reply_set_PresenceStats);
  mkCase 12 2 "Ping" (dec_message new_PingResult PingResult_UnmarshalVT Reply_Ping Reply_set_Ping);
  mkCase 14 2 "Refresh" (dec_message new_RefreshResult RefreshResult_UnmarshalVT Reply_Refresh Reply_set_Refresh);
  mkCase 15 2 "SubRefresh" (dec_message new_SubRefreshResult SubRefreshResult_UnmarshalVT Reply_SubRefresh Reply_set_SubRefresh)]
  (fun u m => Reply_set_unknownFields (m.(Reply_unknownFields) ++ u) m).
