(* ===== verification/VtFrames.v ===== *)
(** The protobuf methods of every message (VtMsg.v): the size is the size of
    what is written, what is written is the encoding [vt_T], which is read back
    as the message, and any input is read without a panic.

    [typed_T] is what the Go types say: integers of 32 bits and maps without
    double keys.  [known_T] is a message without unknown fields.  [norm_T] is
    the message a reader cannot tell from it: an empty slice is nil, a nil
    element is an empty message, and the entries of a map are in another
    order.

    The protobuf codec in its place: the encoders of [encode.go] and the
    decoders of [decode.go] with the generated methods they call, and the
    properties of the codec as a whole. *)

From S2P Require Import Prelude BytePool WireMsg WireLine Vt VtProps VtMsg Framing FramingProps.

Open Scope Z_scope.

(** ** Automation *)

Create HintDb vt.

Lemma is_u32_u64 v : is_u32 v -> 0 <= v < 2 ^ 64.
Proof. unfold is_u32. lia. Qed.
Lemma is_u32_holds v : is_u32 v -> holds wrap_u32 v.
Proof. unfold is_u32. intros H. apply holds_u32. lia. Qed.

#[export] Hint Resolve is_u32_u64 is_u32_holds : vt.
#[export] Hint Resolve size_is_uint size_is_bool size_is_bytes size_is_raw size_is_strings size_is_zlen
  puts_uint puts_bool puts_bytes puts_raw puts_strings puts_copy : vt.

(** Nested messages that satisfy what their method needs. *)
Lemma opt_ok_all {A} (P Q : A -> Prop) o :
  (forall v, P v -> Q v) -> opt_ok P o -> forall v, o = Some v -> Q v.
Proof. intros H Ho v ->. by apply H. Qed.
Lemma opt_ok_all2 {A} (P P' Q : A -> Prop) o :
  (forall v, P v -> P' v -> Q v) -> opt_ok P o -> opt_ok P' o -> forall v, o = Some v -> Q v.
Proof. intros H Ho Ho' v ->. by apply H. Qed.
Lemma Forall_opt_all {A} (P Q : A -> Prop) l :
  (forall v, P v -> Q v) -> Forall (opt_ok P) l -> Forall (fun o => forall v, o = Some v -> Q v) l.
Proof. intros H Hl. eapply Forall_impl; [exact Hl|]. intros o Ho. by eapply opt_ok_all. Qed.
Lemma Forall_opt_all2 {A} (P P' Q : A -> Prop) l :
  (forall v, P v -> P' v -> Q v) -> Forall (opt_ok P) l -> Forall (opt_ok P') l ->
  Forall (fun o => forall v, o = Some v -> Q v) l.
Proof.
  intros H Hl Hl'. apply Forall_forall. intros o Ho. rewrite Forall_forall in Hl, Hl'.
  apply (opt_ok_all2 P P'); auto.
Qed.
Lemma Forall_snd_all {K A} (P Q : A -> Prop) (l : list (K * option A)) :
  (forall v, P v -> Q v) -> Forall (fun e => opt_ok P e.2) l ->
  Forall (fun e => forall v, e.2 = Some v -> Q v) l.
Proof. intros H Hl. eapply Forall_impl; [exact Hl|]. intros o Ho. by eapply opt_ok_all. Qed.
Lemma Forall_snd_all2 {K A} (P P' Q : A -> Prop) (l : list (K * option A)) :
  (forall v, P v -> P' v -> Q v) -> Forall (fun e => opt_ok P e.2) l -> Forall (fun e => opt_ok P' e.2) l ->
  Forall (fun e => forall v, e.2 = Some v -> Q v) l.
Proof.
  intros H Hl Hl'. apply Forall_forall. intros o Ho. rewrite Forall_forall in Hl, Hl'.
  apply (opt_ok_all2 P P'); auto.
Qed.

(** A map that was nil stays nil when nothing is read into it. *)
Definition some_list {A} (l : list A) : option (list A) := match l with [] => None | _ => Some l end.

Lemma set_list_plain {M B} (set : list B -> M -> M) x m : set [] m = m -> set_list set x m = set x m.
Proof. intros H. by destruct x. Qed.
Lemma set_list_option {M B} (set : option (list B) -> M -> M) x m :
  set None m = m -> set_list (fun y => set (Some y)) x m = set (some_list x) m.
Proof. intros H. by destruct x. Qed.

(** One block of a method, by its kind. *)
Ltac vt_block := match goal with
  | |- size_is (size_message _ _) _ => eapply size_is_message, opt_ok_all
  | |- size_is (size_repeated _ _) _ => eapply size_is_repeated, Forall_opt_all
  | |- size_is (size_map _ _) _ => eapply size_is_map, Forall_snd_all
  | |- puts (put_message _ _ _) _ => eapply puts_message, opt_ok_all
  | |- puts (put_repeated _ _ _) _ => eapply puts_repeated, Forall_opt_all
  | |- puts (put_map _ _ _) _ => eapply puts_map, Forall_snd_all
  | _ => idtac
  end; eauto with vt.

Ltac vt_blocks := repeat (apply List.Forall2_cons; [vt_block|]); apply List.Forall2_nil.

Ltac vt_size :=
  let H := fresh in intros H; red in H; destruct_and?;
  match goal with |- size_is (?f _) (?g _) => unfold f, g end; apply size_is_all; vt_blocks.

Ltac vt_sized :=
  let H := fresh in intros H; red in H; destruct_and?;
  match goal with |- sized_ok (?f _) (?g _) => unfold f, g end;
  apply to_sized_ok, puts_all; cbv [reverse rev_append]; vt_blocks.

(** One case of a decoder; other messages add kinds of their own. *)
Ltac vt_dec_more := fail.
Ltac vt_dec := cbn [f_dec]; first
  [ apply dec_uint_fine | apply dec_bool_fine | apply dec_string_fine | apply dec_raw_fine | apply dec_strings_fine
  | apply dec_message_fine | apply dec_repeated_fine | apply dec_map_fine | vt_dec_more ]; auto with vt.

Ltac vt_fine :=
  match goal with |- unm_fine ?f => unfold f end; apply unmarshal_fine;
  repeat (apply List.Forall_cons; [vt_dec|]); apply List.Forall_nil.

Lemma advances_to {M} name (fields : list (field_case M)) unk e m m1 m2 :
  advances name fields unk e m m1 -> m1 = m2 -> advances name fields unk e m m2.
Proof. by intros H <-. Qed.

(** The message read so far as a record, not as a chain of assignments. *)
Ltac vt_state := lazymatch goal with
  | |- advances ?n ?f ?u ?e ?s ?m =>
      let s1 := eval hnf in s in let s2 := eval cbn in s1 in change (advances n f u e s2 m)
  end.

(** Reads one field; its number is in the tag. *)
Ltac vt_field_more := fail.
Ltac vt_field := lazymatch goal with
  | |- advances _ _ _ (e_uint ?t ?v ++ _) _ _ =>
      let n := eval compute in (t / 8) in
      eapply advances_app; [eapply (advances_uint _ _ _ n); [reflexivity|lia|auto with vt|auto with vt|];
        let E := fresh in intros E; rewrite E; reflexivity|]
  | |- advances _ _ _ (e_bool ?t _ ++ _) _ _ =>
      let n := eval compute in (t / 8) in
      eapply advances_app; [eapply (advances_bool _ _ _ n); [reflexivity|lia|reflexivity]|]
  | |- advances _ _ _ (e_bytes ?t _ ++ _) _ _ =>
      let n := eval compute in (t / 8) in
      eapply advances_app; [eapply (advances_string _ _ _ n); [reflexivity|lia|reflexivity]|]
  | |- advances _ _ _ (e_raw ?t _ ++ _) _ _ =>
      let n := eval compute in (t / 8) in
      eapply advances_app; [eapply (advances_raw _ _ _ n); [reflexivity|lia|reflexivity]|]
  | |- advances _ _ _ (e_message ?t _ _ ++ _) _ _ =>
      let n := eval compute in (t / 8) in
      eapply advances_app; [eapply (advances_message _ _ _ n);
        [reflexivity|lia|reflexivity|reflexivity|eapply opt_ok_all2; eauto with vt]|]
  | |- advances _ _ _ (e_repeated ?t _ _ ++ _) _ _ =>
      let n := eval compute in (t / 8) in
      eapply advances_app; [eapply advances_to; [eapply (advances_repeated _ _ _ n);
        [reflexivity|lia|reflexivity|reflexivity|reflexivity|reflexivity|eapply Forall_opt_all2; eauto with vt]
        |apply set_list_plain; reflexivity]|]
  | |- advances _ _ _ (e_map ?t _ _ ++ _) _ _ =>
      let n := eval compute in (t / 8) in
      eapply advances_app; [eapply advances_to; [eapply (advances_map _ _ _ n);
        [reflexivity|lia|reflexivity|reflexivity|reflexivity|reflexivity|assumption|eapply Forall_snd_all2; eauto with vt]
        |first [apply set_list_plain; reflexivity|apply set_list_option; reflexivity]]|]
  | |- advances _ _ _ (e_strings ?t _ ++ _) _ _ =>
      let n := eval compute in (t / 8) in
      eapply advances_app; [eapply advances_to; [eapply (advances_strings _ _ _ n);
        [reflexivity|lia|reflexivity|reflexivity|reflexivity|assumption]
        |apply set_list_plain; reflexivity]|]
  | _ => vt_field_more
  end.

Ltac vt_reads :=
  let Ht := fresh in let Hk := fresh in intros Ht Hk; red in Ht, Hk; destruct_and?;
  match goal with |- unm_ok ?f _ (?g _) _ => unfold f, g end;
  apply advances_unmarshal; cbn [concat];
  eapply advances_to; [repeat (vt_state; vt_field); vt_state; match goal with H : _ = [] |- _ => rewrite H end; apply advances_nil|reflexivity].

(** ** The messages *)

Definition vt_Error (m : pb_Error) : bytes := concat [
  e_uint 0x8 m.(Error_Code);
  e_bytes 0x12 m.(Error_Message);
  m.(Error_unknownFields)].
Definition typed_Error (m : pb_Error) : Prop :=
  is_u32 m.(Error_Code).
Definition known_Error (m : pb_Error) : Prop :=
  m.(Error_unknownFields) = [].
Definition norm_Error (m : pb_Error) : pb_Error :=
  mk_Error m.(Error_Code) m.(Error_Message) [].
Lemma Error_size m : typed_Error m -> size_is (Error_SizeVT m) (vt_Error m).
Proof. vt_size. Qed.
Lemma Error_sized m : typed_Error m -> sized_ok (Error_MarshalToSizedBufferVT m) (vt_Error m).
Proof. vt_sized. Qed.
Lemma Error_fine : unm_fine Error_UnmarshalVT.
Proof. vt_fine. Qed.
Lemma Error_reads m : typed_Error m -> known_Error m -> unm_ok Error_UnmarshalVT new_Error (vt_Error m) (norm_Error m).
Proof. vt_reads. Qed.
#[export] Hint Resolve Error_size Error_sized Error_fine Error_reads : vt.

Definition vt_SubscribeRequest (m : pb_SubscribeRequest) : bytes := concat [
  e_bytes 0xa m.(SubscribeRequest_Channel);
  e_bytes 0x12 m.(SubscribeRequest_Token);
  e_raw 0x1a m.(SubscribeRequest_Data);
  e_bool 0x20 m.(SubscribeRequest_JoinLeave);
  m.(SubscribeRequest_unknownFields)].
Definition typed_SubscribeRequest (m : pb_SubscribeRequest) : Prop :=
  True.
Definition known_SubscribeRequest (m : pb_SubscribeRequest) : Prop :=
  m.(SubscribeRequest_unknownFields) = [].
Definition norm_SubscribeRequest (m : pb_SubscribeRequest) : pb_SubscribeRequest :=
  mk_SubscribeRequest m.(SubscribeRequest_Channel) m.(SubscribeRequest_Token) (norm_raw m.(SubscribeRequest_Data)) m.(SubscribeRequest_JoinLeave) [].
Lemma SubscribeRequest_size m : typed_SubscribeRequest m -> size_is (SubscribeRequest_SizeVT m) (vt_SubscribeRequest m).
Proof. vt_size. Qed.
Lemma SubscribeRequest_sized m : typed_SubscribeRequest m -> sized_ok (SubscribeRequest_MarshalToSizedBufferVT m) (vt_SubscribeRequest m).
Proof. vt_sized. Qed.
Lemma SubscribeRequest_fine : unm_fine SubscribeRequest_UnmarshalVT.
Proof. vt_fine. Qed.
Lemma SubscribeRequest_reads m : typed_SubscribeRequest m -> known_SubscribeRequest m -> unm_ok SubscribeRequest_UnmarshalVT new_SubscribeRequest (vt_SubscribeRequest m) (norm_SubscribeRequest m).
Proof. vt_reads. Qed.
#[export] Hint Resolve SubscribeRequest_size SubscribeRequest_sized SubscribeRequest_fine SubscribeRequest_reads : vt.

Definition vt_ConnectRequest (m : pb_ConnectRequest) : bytes := concat [
  e_bytes 0xa m.(ConnectRequest_Token);
  e_raw 0x12 m.(ConnectRequest_Data);
  e_map 0x1a vt_SubscribeRequest m.(ConnectRequest_Subs);
  e_bytes 0x22 m.(ConnectRequest_Name);
  m.(ConnectRequest_unknownFields)].
Definition typed_ConnectRequest (m : pb_ConnectRequest) : Prop :=
  NoDup m.(ConnectRequest_Subs).*1 /\
  Forall (fun e => opt_ok typed_SubscribeRequest e.2) m.(ConnectRequest_Subs).
Definition known_ConnectRequest (m : pb_ConnectRequest) : Prop :=
  m.(ConnectRequest_unknownFields) = [] /\
  Forall (fun e => opt_ok known_SubscribeRequest e.2) m.(ConnectRequest_Subs).
Definition norm_ConnectRequest (m : pb_ConnectRequest) : pb_ConnectRequest :=
  mk_ConnectRequest m.(ConnectRequest_Token) (norm_raw m.(ConnectRequest_Data)) (prod_map id (norm_ptr new_SubscribeRequest norm_SubscribeRequest) <$> reverse m.(ConnectRequest_Subs)) m.(ConnectRequest_Name) [].
Lemma ConnectRequest_size m : typed_ConnectRequest m -> size_is (ConnectRequest_SizeVT m) (vt_ConnectRequest m).
Proof. vt_size. Qed.
Lemma ConnectRequest_sized m : typed_ConnectRequest m -> sized_ok (ConnectRequest_MarshalToSizedBufferVT m) (vt_ConnectRequest m).
Proof. vt_sized. Qed.
Lemma ConnectRequest_fine : unm_fine ConnectRequest_UnmarshalVT.
Proof. vt_fine. Qed.
Lemma ConnectRequest_reads m : typed_ConnectRequest m -> known_ConnectRequest m -> unm_ok ConnectRequest_UnmarshalVT new_ConnectRequest (vt_ConnectRequest m) (norm_ConnectRequest m).
Proof. vt_reads. Qed.
#[export] Hint Resolve ConnectRequest_size ConnectRequest_sized ConnectRequest_fine ConnectRequest_reads : vt.

Definition vt_UnsubscribeRequest (m : pb_UnsubscribeRequest) : bytes := concat [
  e_bytes 0xa m.(UnsubscribeRequest_Channel);
  m.(UnsubscribeRequest_unknownFields)].
Definition typed_UnsubscribeRequest (m : pb_UnsubscribeRequest) : Prop :=
  True.
Definition known_UnsubscribeRequest (m : pb_UnsubscribeRequest) : Prop :=
  m.(UnsubscribeRequest_unknownFields) = [].
Definition norm_UnsubscribeRequest (m : pb_UnsubscribeRequest) : pb_UnsubscribeRequest :=
  mk_UnsubscribeRequest m.(UnsubscribeRequest_Channel) [].
Lemma UnsubscribeRequest_size m : typed_UnsubscribeRequest m -> size_is (UnsubscribeRequest_SizeVT m) (vt_UnsubscribeRequest m).
Proof. vt_size. Qed.
Lemma UnsubscribeRequest_sized m : typed_UnsubscribeRequest m -> sized_ok (UnsubscribeRequest_MarshalToSizedBufferVT m) (vt_UnsubscribeRequest m).
Proof. vt_sized. Qed.
Lemma UnsubscribeRequest_fine : unm_fine UnsubscribeRequest_UnmarshalVT.
Proof. vt_fine. Qed.
Lemma UnsubscribeRequest_reads m : typed_UnsubscribeRequest m -> known_UnsubscribeRequest m -> unm_ok UnsubscribeRequest_UnmarshalVT new_UnsubscribeRequest (vt_UnsubscribeRequest m) (norm_UnsubscribeRequest m).
Proof. vt_reads. Qed.
#[export] Hint Resolve UnsubscribeRequest_size UnsubscribeRequest_sized UnsubscribeRequest_fine UnsubscribeRequest_reads : vt.

Definition vt_PublishRequest (m : pb_PublishRequest) : bytes := concat [
  e_bytes 0xa m.(PublishRequest_Channel);
  e_raw 0x12 m.(PublishRequest_Data);
  m.(PublishRequest_unknownFields)].
Definition typed_PublishRequest (m : pb_PublishRequest) : Prop :=
  True.
Definition known_PublishRequest (m : pb_PublishRequest) : Prop :=
  m.(PublishRequest_unknownFields) = [].
Definition norm_PublishRequest (m : pb_PublishRequest) : pb_PublishRequest :=
  mk_PublishRequest m.(PublishRequest_Channel) (norm_raw m.(PublishRequest_Data)) [].
Lemma PublishRequest_size m : typed_PublishRequest m -> size_is (PublishRequest_SizeVT m) (vt_PublishRequest m).
Proof. vt_size. Qed.
Lemma PublishRequest_sized m : typed_PublishRequest m -> sized_ok (PublishRequest_MarshalToSizedBufferVT m) (vt_PublishRequest m).
Proof. vt_sized. Qed.
Lemma PublishRequest_fine : unm_fine PublishRequest_UnmarshalVT.
Proof. vt_fine. Qed.
Lemma PublishRequest_reads m : typed_PublishRequest m -> known_PublishRequest m -> unm_ok PublishRequest_UnmarshalVT new_PublishRequest (vt_PublishRequest m) (norm_PublishRequest m).
Proof. vt_reads. Qed.
#[export] Hint Resolve PublishRequest_size PublishRequest_sized PublishRequest_fine PublishRequest_reads : vt.

Definition vt_PresenceRequest (m : pb_PresenceRequest) : bytes := concat [
  e_bytes 0xa m.(PresenceRequest_Channel);
  m.(PresenceRequest_unknownFields)].
Definition typed_PresenceRequest (m : pb_PresenceRequest) : Prop :=
  True.
Definition known_PresenceRequest (m : pb_PresenceRequest) : Prop :=
  m.(PresenceRequest_unknownFields) = [].
Definition norm_PresenceRequest (m : pb_PresenceRequest) : pb_PresenceRequest :=
  mk_PresenceRequest m.(PresenceRequest_Channel) [].
Lemma PresenceRequest_size m : typed_PresenceRequest m -> size_is (PresenceRequest_SizeVT m) (vt_PresenceRequest m).
Proof. vt_size. Qed.
Lemma PresenceRequest_sized m : typed_PresenceRequest m -> sized_ok (PresenceRequest_MarshalToSizedBufferVT m) (vt_PresenceRequest m).
Proof. vt_sized. Qed.
Lemma PresenceRequest_fine : unm_fine PresenceRequest_UnmarshalVT.
Proof. vt_fine. Qed.
Lemma PresenceRequest_reads m : typed_PresenceRequest m -> known_PresenceRequest m -> unm_ok PresenceRequest_UnmarshalVT new_PresenceRequest (vt_PresenceRequest m) (norm_PresenceRequest m).
Proof. vt_reads. Qed.
#[export] Hint Resolve PresenceRequest_size PresenceRequest_sized PresenceRequest_fine PresenceRequest_reads : vt.

Definition vt_PresenceStatsRequest (m : pb_PresenceStatsRequest) : bytes := concat [
  e_bytes 0xa m.(PresenceStatsRequest_Channel);
  m.(PresenceStatsRequest_unknownFields)].
Definition typed_PresenceStatsRequest (m : pb_PresenceStatsRequest) : Prop :=
  True.
Definition known_PresenceStatsRequest (m : pb_PresenceStatsRequest) : Prop :=
  m.(PresenceStatsRequest_unknownFields) = [].
Definition norm_PresenceStatsRequest (m : pb_PresenceStatsRequest) : pb_PresenceStatsRequest :=
  mk_PresenceStatsRequest m.(PresenceStatsRequest_Channel) [].
Lemma PresenceStatsRequest_size m : typed_PresenceStatsRequest m -> size_is (PresenceStatsRequest_SizeVT m) (vt_PresenceStatsRequest m).
Proof. vt_size. Qed.
Lemma PresenceStatsRequest_sized m : typed_PresenceStatsRequest m -> sized_ok (PresenceStatsRequest_MarshalToSizedBufferVT m) (vt_PresenceStatsRequest m).
Proof. vt_sized. Qed.
Lemma PresenceStatsRequest_fine : unm_fine PresenceStatsRequest_UnmarshalVT.
Proof. vt_fine. Qed.
Lemma PresenceStatsRequest_reads m : typed_PresenceStatsRequest m -> known_PresenceStatsRequest m -> unm_ok PresenceStatsRequest_UnmarshalVT new_PresenceStatsRequest (vt_PresenceStatsRequest m) (norm_PresenceStatsRequest m).
Proof. vt_reads. Qed.
#[export] Hint Resolve PresenceStatsRequest_size PresenceStatsRequest_sized PresenceStatsRequest_fine PresenceStatsRequest_reads : vt.

Definition vt_PingRequest (m : pb_PingRequest) : bytes := concat [
  m.(PingRequest_unknownFields)].
Definition typed_PingRequest (m : pb_PingRequest) : Prop :=
  True.
Definition known_PingRequest (m : pb_PingRequest) : Prop :=
  m.(PingRequest_unknownFields) = [].
Definition norm_PingRequest (m : pb_PingRequest) : pb_PingRequest :=
  mk_PingRequest [].
Lemma PingRequest_size m : typed_PingRequest m -> size_is (PingRequest_SizeVT m) (vt_PingRequest m).
Proof. vt_size. Qed.
Lemma PingRequest_sized m : typed_PingRequest m -> sized_ok (PingRequest_MarshalToSizedBufferVT m) (vt_PingRequest m).
Proof. vt_sized. Qed.
Lemma PingRequest_fine : unm_fine PingRequest_UnmarshalVT.
Proof. vt_fine. Qed.
Lemma PingRequest_reads m : typed_PingRequest m -> known_PingRequest m -> unm_ok PingRequest_UnmarshalVT new_PingRequest (vt_PingRequest m) (norm_PingRequest m).
Proof. vt_reads. Qed.
#[export] Hint Resolve PingRequest_size PingRequest_sized PingRequest_fine PingRequest_reads : vt.

Definition vt_SendRequest (m : pb_SendRequest) : bytes := concat [
  e_raw 0xa m.(SendRequest_Data);
  m.(SendRequest_unknownFields)].
Definition typed_SendRequest (m : pb_SendRequest) : Prop :=
  True.
Definition known_SendRequest (m : pb_SendRequest) : Prop :=
  m.(SendRequest_unknownFields) = [].
Definition norm_SendRequest (m : pb_SendRequest) : pb_SendRequest :=
  mk_SendRequest (norm_raw m.(SendRequest_Data)) [].
Lemma SendRequest_size m : typed_SendRequest m -> size_is (SendRequest_SizeVT m) (vt_SendRequest m).
Proof. vt_size. Qed.
Lemma SendRequest_sized m : typed_SendRequest m -> sized_ok (SendRequest_MarshalToSizedBufferVT m) (vt_SendRequest m).
Proof. vt_sized. Qed.
Lemma SendRequest_fine : unm_fine SendRequest_UnmarshalVT.
Proof. vt_fine. Qed.
Lemma SendRequest_reads m : typed_SendRequest m -> known_SendRequest m -> unm_ok SendRequest_UnmarshalVT new_SendRequest (vt_SendRequest m) (norm_SendRequest m).
Proof. vt_reads. Qed.
#[export] Hint Resolve SendRequest_size SendRequest_sized SendRequest_fine SendRequest_reads : vt.

Definition vt_RefreshRequest (m : pb_RefreshRequest) : bytes := concat [
  e_bytes 0xa m.(RefreshRequest_Token);
  m.(RefreshRequest_unknownFields)].
Definition typed_RefreshRequest (m : pb_RefreshRequest) : Prop :=
  True.
Definition known_RefreshRequest (m : pb_RefreshRequest) : Prop :=
  m.(RefreshRequest_unknownFields) = [].
Definition norm_RefreshRequest (m : pb_RefreshRequest) : pb_RefreshRequest :=
  mk_RefreshRequest m.(RefreshRequest_Token) [].
Lemma RefreshRequest_size m : typed_RefreshRequest m -> size_is (RefreshRequest_SizeVT m) (vt_RefreshRequest m).
Proof. vt_size. Qed.
Lemma RefreshRequest_sized m : typed_RefreshRequest m -> sized_ok (RefreshRequest_MarshalToSizedBufferVT m) (vt_RefreshRequest m).
Proof. vt_sized. Qed.
Lemma RefreshRequest_fine : unm_fine RefreshRequest_UnmarshalVT.
Proof. vt_fine. Qed.
Lemma RefreshRequest_reads m : typed_RefreshRequest m -> known_RefreshRequest m -> unm_ok RefreshRequest_UnmarshalVT new_RefreshRequest (vt_RefreshRequest m) (norm_RefreshRequest m).
Proof. vt_reads. Qed.
#[export] Hint Resolve RefreshRequest_size RefreshRequest_sized RefreshRequest_fine RefreshRequest_reads : vt.

Definition vt_SubRefreshRequest (m : pb_SubRefreshRequest) : bytes := concat [
  e_bytes 0xa m.(SubRefreshRequest_Channel);
  e_bytes 0x12 m.(SubRefreshRequest_Token);
  m.(SubRefreshRequest_unknownFields)].
Definition typed_SubRefreshRequest (m : pb_SubRefreshRequest) : Prop :=
  True.
Definition known_SubRefreshRequest (m : pb_SubRefreshRequest) : Prop :=
  m.(SubRefreshRequest_unknownFields) = [].
Definition norm_SubRefreshRequest (m : pb_SubRefreshRequest) : pb_SubRefreshRequest :=
  mk_SubRefreshRequest m.(SubRefreshRequest_Channel) m.(SubRefreshRequest_Token) [].
Lemma SubRefreshRequest_size m : typed_SubRefreshRequest m -> size_is (SubRefreshRequest_SizeVT m) (vt_SubRefreshRequest m).
Proof. vt_size. Qed.
Lemma SubRefreshRequest_sized m : typed_SubRefreshRequest m -> sized_ok (SubRefreshRequest_MarshalToSizedBufferVT m) (vt_SubRefreshRequest m).
Proof. vt_sized. Qed.
Lemma SubRefreshRequest_fine : unm_fine SubRefreshRequest_UnmarshalVT.
Proof. vt_fine. Qed.
Lemma SubRefreshRequest_reads m : typed_SubRefreshRequest m -> known_SubRefreshRequest m -> unm_ok SubRefreshRequest_UnmarshalVT new_SubRefreshRequest (vt_SubRefreshRequest m) (norm_SubRefreshRequest m).
Proof. vt_reads. Qed.
#[export] Hint Resolve SubRefreshRequest_size SubRefreshRequest_sized SubRefreshRequest_fine SubRefreshRequest_reads : vt.

Definition vt_Command (m : pb_Command) : bytes := concat [
  e_uint 0x8 m.(Command_Id);
  e_message 0x12 vt_ConnectRequest m.(Command_Connect);
  e_message 0x1a vt_SubscribeRequest m.(Command_Subscribe);
  e_message 0x22 vt_UnsubscribeRequest m.(Command_Unsubscribe);
  e_message 0x2a vt_PublishRequest m.(Command_Publish);
  e_message 0x32 vt_PresenceRequest m.(Command_Presence);
  e_message 0x3a vt_PresenceStatsRequest m.(Command_PresenceStats);
  e_message 0x42 vt_PingRequest m.(Command_Ping);
  e_message 0x4a vt_SendRequest m.(Command_Send);
  e_message 0x52 vt_RefreshRequest m.(Command_Refresh);
  e_message 0x5a vt_SubRefreshRequest m.(Command_SubRefresh);
  m.(Command_unknownFields)].
Definition typed_Command (m : pb_Command) : Prop :=
  is_u32 m.(Command_Id) /\
  opt_ok typed_ConnectRequest m.(Command_Connect) /\
  opt_ok typed_SubscribeRequest m.(Command_Subscribe) /\
  opt_ok typed_UnsubscribeRequest m.(Command_Unsubscribe) /\
  opt_ok typed_PublishRequest m.(Command_Publish) /\
  opt_ok typed_PresenceRequest m.(Command_Presence) /\
  opt_ok typed_PresenceStatsRequest m.(Command_PresenceStats) /\
  opt_ok typed_PingRequest m.(Command_Ping) /\
  opt_ok typed_SendRequest m.(Command_Send) /\
  opt_ok typed_RefreshRequest m.(Command_Refresh) /\
  opt_ok typed_SubRefreshRequest m.(Command_SubRefresh).
Definition known_Command (m : pb_Command) : Prop :=
  m.(Command_unknownFields) = [] /\
  opt_ok known_ConnectRequest m.(Command_Connect) /\
  opt_ok known_SubscribeRequest m.(Command_Subscribe) /\
  opt_ok known_UnsubscribeRequest m.(Command_Unsubscribe) /\
  opt_ok known_PublishRequest m.(Command_Publish) /\
  opt_ok known_PresenceRequest m.(Command_Presence) /\
  opt_ok known_PresenceStatsRequest m.(Command_PresenceStats) /\
  opt_ok known_PingRequest m.(Command_Ping) /\
  opt_ok known_SendRequest m.(Command_Send) /\
  opt_ok known_RefreshRequest m.(Command_Refresh) /\
  opt_ok known_SubRefreshRequest m.(Command_SubRefresh).
Definition norm_Command (m : pb_Command) : pb_Command :=
  mk_Command m.(Command_Id) (norm_ConnectRequest <$> m.(Command_Connect)) (norm_SubscribeRequest <$> m.(Command_Subscribe)) (norm_UnsubscribeRequest <$> m.(Command_Unsubscribe)) (norm_PublishRequest <$> m.(Command_Publish)) (norm_PresenceRequest <$> m.(Command_Presence)) (norm_PresenceStatsRequest <$> m.(Command_PresenceStats)) (norm_PingRequest <$> m.(Command_Ping)) (norm_SendRequest <$> m.(Command_Send)) (norm_RefreshRequest <$> m.(Command_Refresh)) (norm_SubRefreshRequest <$> m.(Command_SubRefresh)) [].
Lemma Command_size m : typed_Command m -> size_is (Command_SizeVT m) (vt_Command m).
Proof. vt_size. Qed.
Lemma Command_sized m : typed_Command m -> sized_ok (Command_MarshalToSizedBufferVT m) (vt_Command m).
Proof. vt_sized. Qed.
Lemma Command_fine : unm_fine Command_UnmarshalVT.
Proof. vt_fine. Qed.
Lemma Command_reads m : typed_Command m -> known_Command m -> unm_ok Command_UnmarshalVT new_Command (vt_Command m) (norm_Command m).
Proof. vt_reads. Qed.
#[export] Hint Resolve Command_size Command_sized Command_fine Command_reads : vt.

Definition vt_ClientInfo (m : pb_ClientInfo) : bytes := concat [
  e_bytes 0xa m.(ClientInfo_User);
  e_bytes 0x12 m.(ClientInfo_Client);
  e_raw 0x1a m.(ClientInfo_ConnInfo);
  e_raw 0x22 m.(ClientInfo_ChanInfo);
  m.(ClientInfo_unknownFields)].
Definition typed_ClientInfo (m : pb_ClientInfo) : Prop :=
  True.
Definition known_ClientInfo (m : pb_ClientInfo) : Prop :=
  m.(ClientInfo_unknownFields) = [].
Definition norm_ClientInfo (m : pb_ClientInfo) : pb_ClientInfo :=
  mk_ClientInfo m.(ClientInfo_User) m.(ClientInfo_Client) (norm_raw m.(ClientInfo_ConnInfo)) (norm_raw m.(ClientInfo_ChanInfo)) [].
Lemma ClientInfo_size m : typed_ClientInfo m -> size_is (ClientInfo_SizeVT m) (vt_ClientInfo m).
Proof. vt_size. Qed.
Lemma ClientInfo_sized m : typed_ClientInfo m -> sized_ok (ClientInfo_MarshalToSizedBufferVT m) (vt_ClientInfo m).
Proof. vt_sized. Qed.
Lemma ClientInfo_fine : unm_fine ClientInfo_UnmarshalVT.
Proof. vt_fine. Qed.
Lemma ClientInfo_reads m : typed_ClientInfo m -> known_ClientInfo m -> unm_ok ClientInfo_UnmarshalVT new_ClientInfo (vt_ClientInfo m) (norm_ClientInfo m).
Proof. vt_reads. Qed.
#[export] Hint Resolve ClientInfo_size ClientInfo_sized ClientInfo_fine ClientInfo_reads : vt.

Definition vt_Publication (m : pb_Publication) : bytes := concat [
  e_raw 0xa m.(Publication_Data);
  e_message 0x12 vt_ClientInfo m.(Publication_Info);
  e_strings 0x1a m.(Publication_Tags);
  m.(Publication_unknownFields)].
Definition typed_Publication (m : pb_Publication) : Prop :=
  opt_ok typed_ClientInfo m.(Publication_Info) /\
  NoDup m.(Publication_Tags).*1.
Definition known_Publication (m : pb_Publication) : Prop :=
  m.(Publication_unknownFields) = [] /\
  opt_ok known_ClientInfo m.(Publication_Info).
Definition norm_Publication (m : pb_Publication) : pb_Publication :=
  mk_Publication (norm_raw m.(Publication_Data)) (norm_ClientInfo <$> m.(Publication_Info)) (reverse m.(Publication_Tags)) [].
Lemma Publication_size m : typed_Publication m -> size_is (Publication_SizeVT m) (vt_Publication m).
Proof. vt_size. Qed.
Lemma Publication_sized m : typed_Publication m -> sized_ok (Publication_MarshalToSizedBufferVT m) (vt_Publication m).
Proof. vt_sized. Qed.
Lemma Publication_fine : unm_fine Publication_UnmarshalVT.
Proof. vt_fine. Qed.
Lemma Publication_reads m : typed_Publication m -> known_Publication m -> unm_ok Publication_UnmarshalVT new_Publication (vt_Publication m) (norm_Publication m).
Proof. vt_reads. Qed.
#[export] Hint Resolve Publication_size Publication_sized Publication_fine Publication_reads : vt.

Definition vt_Join (m : pb_Join) : bytes := concat [
  e_message 0xa vt_ClientInfo m.(Join_Info);
  m.(Join_unknownFields)].
Definition typed_Join (m : pb_Join) : Prop :=
  opt_ok typed_ClientInfo m.(Join_Info).
Definition known_Join (m : pb_Join) : Prop :=
  m.(Join_unknownFields) = [] /\
  opt_ok known_ClientInfo m.(Join_Info).
Definition norm_Join (m : pb_Join) : pb_Join :=
  mk_Join (norm_ClientInfo <$> m.(Join_Info)) [].
Lemma Join_size m : typed_Join m -> size_is (Join_SizeVT m) (vt_Join m).
Proof. vt_size. Qed.
Lemma Join_sized m : typed_Join m -> sized_ok (Join_MarshalToSizedBufferVT m) (vt_Join m).
Proof. vt_sized. Qed.
Lemma Join_fine : unm_fine Join_UnmarshalVT.
Proof. vt_fine. Qed.
Lemma Join_reads m : typed_Join m -> known_Join m -> unm_ok Join_UnmarshalVT new_Join (vt_Join m) (norm_Join m).
Proof. vt_reads. Qed.
#[export] Hint Resolve Join_size Join_sized Join_fine Join_reads : vt.

Definition vt_Leave (m : pb_Leave) : bytes := concat [
  e_message 0xa vt_ClientInfo m.(Leave_Info);
  m.(Leave_unknownFields)].
Definition typed_Leave (m : pb_Leave) : Prop :=
  opt_ok typed_ClientInfo m.(Leave_Info).
Definition known_Leave (m : pb_Leave) : Prop :=
  m.(Leave_unknownFields) = [] /\
  opt_ok known_ClientInfo m.(Leave_Info).
Definition norm_Leave (m : pb_Leave) : pb_Leave :=
  mk_Leave (norm_ClientInfo <$> m.(Leave_Info)) [].
Lemma Leave_size m : typed_Leave m -> size_is (Leave_SizeVT m) (vt_Leave m).
Proof. vt_size. Qed.
Lemma Leave_sized m : typed_Leave m -> sized_ok (Leave_MarshalToSizedBufferVT m) (vt_Leave m).
Proof. vt_sized. Qed.
Lemma Leave_fine : unm_fine Leave_UnmarshalVT.
Proof. vt_fine. Qed.
Lemma Leave_reads m : typed_Leave m -> known_Leave m -> unm_ok Leave_UnmarshalVT new_Leave (vt_Leave m) (norm_Leave m).
Proof. vt_reads. Qed.
#[export] Hint Resolve Leave_size Leave_sized Leave_fine Leave_reads : vt.

Definition vt_Unsubscribe (m : pb_Unsubscribe) : bytes := concat [
  e_uint 0x8 m.(Unsubscribe_Code);
  e_bytes 0x12 m.(Unsubscribe_Reason);
  m.(Unsubscribe_unknownFields)].
Definition typed_Unsubscribe (m : pb_Unsubscribe) : Prop :=
  is_u32 m.(Unsubscribe_Code).
Definition known_Unsubscribe (m : pb_Unsubscribe) : Prop :=
  m.(Unsubscribe_unknownFields) = [].
Definition norm_Unsubscribe (m : pb_Unsubscribe) : pb_Unsubscribe :=
  mk_Unsubscribe m.(Unsubscribe_Code) m.(Unsubscribe_Reason) [].
Lemma Unsubscribe_size m : typed_Unsubscribe m -> size_is (Unsubscribe_SizeVT m) (vt_Unsubscribe m).
Proof. vt_size. Qed.
Lemma Unsubscribe_sized m : typed_Unsubscribe m -> sized_ok (Unsubscribe_MarshalToSizedBufferVT m) (vt_Unsubscribe m).
Proof. vt_sized. Qed.
Lemma Unsubscribe_fine : unm_fine Unsubscribe_UnmarshalVT.
Proof. vt_fine. Qed.
Lemma Unsubscribe_reads m : typed_Unsubscribe m -> known_Unsubscribe m -> unm_ok Unsubscribe_UnmarshalVT new_Unsubscribe (vt_Unsubscribe m) (norm_Unsubscribe m).
Proof. vt_reads. Qed.
#[export] Hint Resolve Unsubscribe_size Unsubscribe_sized Unsubscribe_fine Unsubscribe_reads : vt.

Definition vt_Message (m : pb_Message) : bytes := concat [
  e_raw 0xa m.(Message_Data);
  m.(Message_unknownFields)].
Definition typed_Message (m : pb_Message) : Prop :=
  True.
Definition known_Message (m : pb_Message) : Prop :=
  m.(Message_unknownFields) = [].
Definition norm_Message (m : pb_Message) : pb_Message :=
  mk_Message (norm_raw m.(Message_Data)) [].
Lemma Message_size m : typed_Message m -> size_is (Message_SizeVT m) (vt_Message m).
Proof. vt_size. Qed.
Lemma Message_sized m : typed_Message m -> sized_ok (Message_MarshalToSizedBufferVT m) (vt_Message m).
Proof. vt_sized. Qed.
Lemma Message_fine : unm_fine Message_UnmarshalVT.
Proof. vt_fine. Qed.
Lemma Message_reads m : typed_Message m -> known_Message m -> unm_ok Message_UnmarshalVT new_Message (vt_Message m) (norm_Message m).
Proof. vt_reads. Qed.
#[export] Hint Resolve Message_size Message_sized Message_fine Message_reads : vt.

Definition vt_Subscribe (m : pb_Subscribe) : bytes := concat [
  e_raw 0xa m.(Subscribe_Data);
  m.(Subscribe_unknownFields)].
Definition typed_Subscribe (m : pb_Subscribe) : Prop :=
  True.
Definition known_Subscribe (m : pb_Subscribe) : Prop :=
  m.(Subscribe_unknownFields) = [].
Definition norm_Subscribe (m : pb_Subscribe) : pb_Subscribe :=
  mk_Subscribe (norm_raw m.(Subscribe_Data)) [].
Lemma Subscribe_size m : typed_Subscribe m -> size_is (Subscribe_SizeVT m) (vt_Subscribe m).
Proof. vt_size. Qed.
Lemma Subscribe_sized m : typed_Subscribe m -> sized_ok (Subscribe_MarshalToSizedBufferVT m) (vt_Subscribe m).
Proof. vt_sized. Qed.
Lemma Subscribe_fine : unm_fine Subscribe_UnmarshalVT.
Proof. vt_fine. Qed.
Lemma Subscribe_reads m : typed_Subscribe m -> known_Subscribe m -> unm_ok Subscribe_UnmarshalVT new_Subscribe (vt_Subscribe m) (norm_Subscribe m).
Proof. vt_reads. Qed.
#[export] Hint Resolve Subscribe_size Subscribe_sized Subscribe_fine Subscribe_reads : vt.

Definition vt_SubscribeResult (m : pb_SubscribeResult) : bytes := concat [
  e_bool 0x8 m.(SubscribeResult_Expires);
  e_uint 0x10 m.(SubscribeResult_Ttl);
  e_repeated 0x1a vt_Publication m.(SubscribeResult_Publications);
  e_raw 0x22 m.(SubscribeResult_Data);
  m.(SubscribeResult_unknownFields)].
Definition typed_SubscribeResult (m : pb_SubscribeResult) : Prop :=
  is_u32 m.(SubscribeResult_Ttl) /\
  Forall (opt_ok typed_Publication) m.(SubscribeResult_Publications).
Definition known_SubscribeResult (m : pb_SubscribeResult) : Prop :=
  m.(SubscribeResult_unknownFields) = [] /\
  Forall (opt_ok known_Publication) m.(SubscribeResult_Publications).
Definition norm_SubscribeResult (m : pb_SubscribeResult) : pb_SubscribeResult :=
  mk_SubscribeResult m.(SubscribeResult_Expires) m.(SubscribeResult_Ttl) (norm_ptr new_Publication norm_Publication <$> m.(SubscribeResult_Publications)) (norm_raw m.(SubscribeResult_Data)) [].
Lemma SubscribeResult_size m : typed_SubscribeResult m -> size_is (SubscribeResult_SizeVT m) (vt_SubscribeResult m).
Proof. vt_size. Qed.
Lemma SubscribeResult_sized m : typed_SubscribeResult m -> sized_ok (SubscribeResult_MarshalToSizedBufferVT m) (vt_SubscribeResult m).
Proof. vt_sized. Qed.
Lemma SubscribeResult_fine : unm_fine SubscribeResult_UnmarshalVT.
Proof. vt_fine. Qed.
Lemma SubscribeResult_reads m : typed_SubscribeResult m -> known_SubscribeResult m -> unm_ok SubscribeResult_UnmarshalVT new_SubscribeResult (vt_SubscribeResult m) (norm_SubscribeResult m).
Proof. vt_reads. Qed.
#[export] Hint Resolve SubscribeResult_size SubscribeResult_sized SubscribeResult_fine SubscribeResult_reads : vt.

Definition vt_Connect (m : pb_Connect) : bytes := concat [
  e_bytes 0xa m.(Connect_Client);
  e_raw 0x12 m.(Connect_Data);
  e_map 0x1a vt_SubscribeResult m.(Connect_Subs);
  e_bool 0x20 m.(Connect_Expires);
  e_uint 0x28 m.(Connect_Ttl);
  e_uint 0x30 m.(Connect_Ping);
  e_bytes 0x3a m.(Connect_Session);
  e_bytes 0x42 m.(Connect_Node);
  m.(Connect_unknownFields)].
Definition typed_Connect (m : pb_Connect) : Prop :=
  NoDup m.(Connect_Subs).*1 /\
  Forall (fun e => opt_ok typed_SubscribeResult e.2) m.(Connect_Subs) /\
  is_u32 m.(Connect_Ttl) /\
  is_u32 m.(Connect_Ping).
Definition known_Connect (m : pb_Connect) : Prop :=
  m.(Connect_unknownFields) = [] /\
  Forall (fun e => opt_ok known_SubscribeResult e.2) m.(Connect_Subs).
Definition norm_Connect (m : pb_Connect) : pb_Connect :=
  mk_Connect m.(Connect_Client) (norm_raw m.(Connect_Data)) (prod_map id (norm_ptr new_SubscribeResult norm_SubscribeResult) <$> reverse m.(Connect_Subs)) m.(Connect_Expires) m.(Connect_Ttl) m.(Connect_Ping) m.(Connect_Session) m.(Connect_Node) [].
Lemma Connect_size m : typed_Connect m -> size_is (Connect_SizeVT m) (vt_Connect m).
Proof. vt_size. Qed.
Lemma Connect_sized m : typed_Connect m -> sized_ok (Connect_MarshalToSizedBufferVT m) (vt_Connect m).
Proof. vt_sized. Qed.
Lemma Connect_fine : unm_fine Connect_UnmarshalVT.
Proof. vt_fine. Qed.
Lemma Connect_reads m : typed_Connect m -> known_Connect m -> unm_ok Connect_UnmarshalVT new_Connect (vt_Connect m) (norm_Connect m).
Proof. vt_reads. Qed.
#[export] Hint Resolve Connect_size Connect_sized Connect_fine Connect_reads : vt.

Definition vt_Disconnect (m : pb_Disconnect) : bytes := concat [
  e_uint 0x8 m.(Disconnect_Code);
  e_bytes 0x12 m.(Disconnect_Reason);
  e_bool 0x18 m.(Disconnect_Reconnect);
  m.(Disconnect_unknownFields)].
Definition typed_Disconnect (m : pb_Disconnect) : Prop :=
  is_u32 m.(Disconnect_Code).
Definition known_Disconnect (m : pb_Disconnect) : Prop :=
  m.(Disconnect_unknownFields) = [].
Definition norm_Disconnect (m : pb_Disconnect) : pb_Disconnect :=
  mk_Disconnect m.(Disconnect_Code) m.(Disconnect_Reason) m.(Disconnect_Reconnect) [].
Lemma Disconnect_size m : typed_Disconnect m -> size_is (Disconnect_SizeVT m) (vt_Disconnect m).
Proof. vt_size. Qed.
Lemma Disconnect_sized m : typed_Disconnect m -> sized_ok (Disconnect_MarshalToSizedBufferVT m) (vt_Disconnect m).
Proof. vt_sized. Qed.
Lemma Disconnect_fine : unm_fine Disconnect_UnmarshalVT.
Proof. vt_fine. Qed.
Lemma Disconnect_reads m : typed_Disconnect m -> known_Disconnect m -> unm_ok Disconnect_UnmarshalVT new_Disconnect (vt_Disconnect m) (norm_Disconnect m).
Proof. vt_reads. Qed.
#[export] Hint Resolve Disconnect_size Disconnect_sized Disconnect_fine Disconnect_reads : vt.

Definition vt_Refresh (m : pb_Refresh) : bytes := concat [
  e_bool 0x8 m.(Refresh_Expires);
  e_uint 0x10 m.(Refresh_Ttl);
  m.(Refresh_unknownFields)].
Definition typed_Refresh (m : pb_Refresh) : Prop :=
  is_u32 m.(Refresh_Ttl).
Definition known_Refresh (m : pb_Refresh) : Prop :=
  m.(Refresh_unknownFields) = [].
Definition norm_Refresh (m : pb_Refresh) : pb_Refresh :=
  mk_Refresh m.(Refresh_Expires) m.(Refresh_Ttl) [].
Lemma Refresh_size m : typed_Refresh m -> size_is (Refresh_SizeVT m) (vt_Refresh m).
Proof. vt_size. Qed.
Lemma Refresh_sized m : typed_Refresh m -> sized_ok (Refresh_MarshalToSizedBufferVT m) (vt_Refresh m).
Proof. vt_sized. Qed.
Lemma Refresh_fine : unm_fine Refresh_UnmarshalVT.
Proof. vt_fine. Qed.
Lemma Refresh_reads m : typed_Refresh m -> known_Refresh m -> unm_ok Refresh_UnmarshalVT new_Refresh (vt_Refresh m) (norm_Refresh m).
Proof. vt_reads. Qed.
#[export] Hint Resolve Refresh_size Refresh_sized Refresh_fine Refresh_reads : vt.

Definition vt_Push (m : pb_Push) : bytes := concat [
  e_bytes 0xa m.(Push_Channel);
  e_message 0x12 vt_Publication m.(Push_Pub);
  e_message 0x1a vt_Join m.(Push_Join);
  e_message 0x22 vt_Leave m.(Push_Leave);
  e_message 0x2a vt_Unsubscribe m.(Push_Unsubscribe);
  e_message 0x32 vt_Message m.(Push_Message);
  e_message 0x3a vt_Subscribe m.(Push_Subscribe);
  e_message 0x42 vt_Connect m.(Push_Connect);
  e_message 0x4a vt_Disconnect m.(Push_Disconnect);
  e_message 0x52 vt_Refresh m.(Push_Refresh);
  m.(Push_unknownFields)].
Definition typed_Push (m : pb_Push) : Prop :=
  opt_ok typed_Publication m.(Push_Pub) /\
  opt_ok typed_Join m.(Push_Join) /\
  opt_ok typed_Leave m.(Push_Leave) /\
  opt_ok typed_Unsubscribe m.(Push_Unsubscribe) /\
  opt_ok typed_Message m.(Push_Message) /\
  opt_ok typed_Subscribe m.(Push_Subscribe) /\
  opt_ok typed_Connect m.(Push_Connect) /\
  opt_ok typed_Disconnect m.(Push_Disconnect) /\
  opt_ok typed_Refresh m.(Push_Refresh).
Definition known_Push (m : pb_Push) : Prop :=
  m.(Push_unknownFields) = [] /\
  opt_ok known_Publication m.(Push_Pub) /\
  opt_ok known_Join m.(Push_Join) /\
  opt_ok known_Leave m.(Push_Leave) /\
  opt_ok known_Unsubscribe m.(Push_Unsubscribe) /\
  opt_ok known_Message m.(Push_Message) /\
  opt_ok known_Subscribe m.(Push_Subscribe) /\
  opt_ok known_Connect m.(Push_Connect) /\
  opt_ok known_Disconnect m.(Push_Disconnect) /\
  opt_ok known_Refresh m.(Push_Refresh).
Definition norm_Push (m : pb_Push) : pb_Push :=
  mk_Push m.(Push_Channel) (norm_Publication <$> m.(Push_Pub)) (norm_Join <$> m.(Push_Join)) (norm_Leave <$> m.(Push_Leave)) (norm_Unsubscribe <$> m.(Push_Unsubscribe)) (norm_Message <$> m.(Push_Message)) (norm_Subscribe <$> m.(Push_Subscribe)) (norm_Connect <$> m.(Push_Connect)) (norm_Disconnect <$> m.(Push_Disconnect)) (norm_Refresh <$> m.(Push_Refresh)) [].
Lemma Push_size m : typed_Push m -> size_is (Push_SizeVT m) (vt_Push m).
Proof. vt_size. Qed.
Lemma Push_sized m : typed_Push m -> sized_ok (Push_MarshalToSizedBufferVT m) (vt_Push m).
Proof. vt_sized. Qed.
Lemma Push_fine : unm_fine Push_UnmarshalVT.
Proof. vt_fine. Qed.
Lemma Push_reads m : typed_Push m -> known_Push m -> unm_ok Push_UnmarshalVT new_Push (vt_Push m) (norm_Push m).
Proof. vt_reads. Qed.
#[export] Hint Resolve Push_size Push_sized Push_fine Push_reads : vt.

Definition vt_ConnectResult (m : pb_ConnectResult) : bytes := concat [
  e_bytes 0xa m.(ConnectResult_Client);
  e_bool 0x10 m.(ConnectResult_Expires);
  e_uint 0x18 m.(ConnectResult_Ttl);
  e_raw 0x22 m.(ConnectResult_Data);
  e_map 0x2a vt_SubscribeResult m.(ConnectResult_Subs);
  e_uint 0x30 m.(ConnectResult_Ping);
  e_bytes 0x3a m.(ConnectResult_Session);
  e_bytes 0x42 m.(ConnectResult_Node);
  m.(ConnectResult_unknownFields)].
Definition typed_ConnectResult (m : pb_ConnectResult) : Prop :=
  is_u32 m.(ConnectResult_Ttl) /\
  NoDup m.(ConnectResult_Subs).*1 /\
  Forall (fun e => opt_ok typed_SubscribeResult e.2) m.(ConnectResult_Subs) /\
  is_u32 m.(ConnectResult_Ping).
Definition known_ConnectResult (m : pb_ConnectResult) : Prop :=
  m.(ConnectResult_unknownFields) = [] /\
  Forall (fun e => opt_ok known_SubscribeResult e.2) m.(ConnectResult_Subs).
Definition norm_ConnectResult (m : pb_ConnectResult) : pb_ConnectResult :=
  mk_ConnectResult m.(ConnectResult_Client) m.(ConnectResult_Expires) m.(ConnectResult_Ttl) (norm_raw m.(ConnectResult_Data)) (prod_map id (norm_ptr new_SubscribeResult norm_SubscribeResult) <$> reverse m.(ConnectResult_Subs)) m.(ConnectResult_Ping) m.(ConnectResult_Session) m.(ConnectResult_Node) [].
Lemma ConnectResult_size m : typed_ConnectResult m -> size_is (ConnectResult_SizeVT m) (vt_ConnectResult m).
Proof. vt_size. Qed.
Lemma ConnectResult_sized m : typed_ConnectResult m -> sized_ok (ConnectResult_MarshalToSizedBufferVT m) (vt_ConnectResult m).
Proof. vt_sized. Qed.
Lemma ConnectResult_fine : unm_fine ConnectResult_UnmarshalVT.
Proof. vt_fine. Qed.
Lemma ConnectResult_reads m : typed_ConnectResult m -> known_ConnectResult m -> unm_ok ConnectResult_UnmarshalVT new_ConnectResult (vt_ConnectResult m) (norm_ConnectResult m).
Proof. vt_reads. Qed.
#[export] Hint Resolve ConnectResult_size ConnectResult_sized ConnectResult_fine ConnectResult_reads : vt.

Definition vt_UnsubscribeResult (m : pb_UnsubscribeResult) : bytes := concat [
  m.(UnsubscribeResult_unknownFields)].
Definition typed_UnsubscribeResult (m : pb_UnsubscribeResult) : Prop :=
  True.
Definition known_UnsubscribeResult (m : pb_UnsubscribeResult) : Prop :=
  m.(UnsubscribeResult_unknownFields) = [].
Definition norm_UnsubscribeResult (m : pb_UnsubscribeResult) : pb_UnsubscribeResult :=
  mk_UnsubscribeResult [].
Lemma UnsubscribeResult_size m : typed_UnsubscribeResult m -> size_is (UnsubscribeResult_SizeVT m) (vt_UnsubscribeResult m).
Proof. vt_size. Qed.
Lemma UnsubscribeResult_sized m : typed_UnsubscribeResult m -> sized_ok (UnsubscribeResult_MarshalToSizedBufferVT m) (vt_UnsubscribeResult m).
Proof. vt_sized. Qed.
Lemma UnsubscribeResult_fine : unm_fine UnsubscribeResult_UnmarshalVT.
Proof. vt_fine. Qed.
Lemma UnsubscribeResult_reads m : typed_UnsubscribeResult m -> known_UnsubscribeResult m -> unm_ok UnsubscribeResult_UnmarshalVT new_UnsubscribeResult (vt_UnsubscribeResult m) (norm_UnsubscribeResult m).
Proof. vt_reads. Qed.
#[export] Hint Resolve UnsubscribeResult_size UnsubscribeResult_sized UnsubscribeResult_fine UnsubscribeResult_reads : vt.

Definition vt_PublishResult (m : pb_PublishResult) : bytes := concat [
  m.(PublishResult_unknownFields)].
Definition typed_PublishResult (m : pb_PublishResult) : Prop :=
  True.
Definition known_PublishResult (m : pb_PublishResult) : Prop :=
  m.(PublishResult_unknownFields) = [].
Definition norm_PublishResult (m : pb_PublishResult) : pb_PublishResult :=
  mk_PublishResult [].
Lemma PublishResult_size m : typed_PublishResult m -> size_is (PublishResult_SizeVT m) (vt_PublishResult m).
Proof. vt_size. Qed.
Lemma PublishResult_sized m : typed_PublishResult m -> sized_ok (PublishResult_MarshalToSizedBufferVT m) (vt_PublishResult m).
Proof. vt_sized. Qed.
Lemma PublishResult_fine : unm_fine PublishResult_UnmarshalVT.
Proof. vt_fine. Qed.
Lemma PublishResult_reads m : typed_PublishResult m -> known_PublishResult m -> unm_ok PublishResult_UnmarshalVT new_PublishResult (vt_PublishResult m) (norm_PublishResult m).
Proof. vt_reads. Qed.
#[export] Hint Resolve PublishResult_size PublishResult_sized PublishResult_fine PublishResult_reads : vt.

Definition vt_PresenceResult (m : pb_PresenceResult) : bytes := concat [
  e_map 0xa vt_ClientInfo (default [] m.(PresenceResult_Presence));
  m.(PresenceResult_unknownFields)].
Definition typed_PresenceResult (m : pb_PresenceResult) : Prop :=
  NoDup (default [] m.(PresenceResult_Presence)).*1 /\
  Forall (fun e => opt_ok typed_ClientInfo e.2) (default [] m.(PresenceResult_Presence)).
Definition known_PresenceResult (m : pb_PresenceResult) : Prop :=
  m.(PresenceResult_unknownFields) = [] /\
  Forall (fun e => opt_ok known_ClientInfo e.2) (default [] m.(PresenceResult_Presence)).
Definition norm_PresenceResult (m : pb_PresenceResult) : pb_PresenceResult :=
  mk_PresenceResult (some_list (prod_map id (norm_ptr new_ClientInfo norm_ClientInfo) <$> reverse (default [] m.(PresenceResult_Presence)))) [].
Lemma PresenceResult_size m : typed_PresenceResult m -> size_is (PresenceResult_SizeVT m) (vt_PresenceResult m).
Proof. vt_size. Qed.
Lemma PresenceResult_sized m : typed_PresenceResult m -> sized_ok (PresenceResult_MarshalToSizedBufferVT m) (vt_PresenceResult m).
Proof. vt_sized. Qed.
Lemma PresenceResult_fine : unm_fine PresenceResult_UnmarshalVT.
Proof. vt_fine. Qed.
Lemma PresenceResult_reads m : typed_PresenceResult m -> known_PresenceResult m -> unm_ok PresenceResult_UnmarshalVT new_PresenceResult (vt_PresenceResult m) (norm_PresenceResult m).
Proof. vt_reads. Qed.
#[export] Hint Resolve PresenceResult_size PresenceResult_sized PresenceResult_fine PresenceResult_reads : vt.

Definition vt_PresenceStatsResult (m : pb_PresenceStatsResult) : bytes := concat [
  e_uint 0x8 m.(PresenceStatsResult_NumClients);
  e_uint 0x10 m.(PresenceStatsResult_NumUsers);
  m.(PresenceStatsResult_unknownFields)].
Definition typed_PresenceStatsResult (m : pb_PresenceStatsResult) : Prop :=
  is_u32 m.(PresenceStatsResult_NumClients) /\
  is_u32 m.(PresenceStatsResult_NumUsers).
Definition known_PresenceStatsResult (m : pb_PresenceStatsResult) : Prop :=
  m.(PresenceStatsResult_unknownFields) = [].
Definition norm_PresenceStatsResult (m : pb_PresenceStatsResult) : pb_PresenceStatsResult :=
  mk_PresenceStatsResult m.(PresenceStatsResult_NumClients) m.(PresenceStatsResult_NumUsers) [].
Lemma PresenceStatsResult_size m : typed_PresenceStatsResult m -> size_is (PresenceStatsResult_SizeVT m) (vt_PresenceStatsResult m).
Proof. vt_size. Qed.
Lemma PresenceStatsResult_sized m : typed_PresenceStatsResult m -> sized_ok (PresenceStatsResult_MarshalToSizedBufferVT m) (vt_PresenceStatsResult m).
Proof. vt_sized. Qed.
Lemma PresenceStatsResult_fine : unm_fine PresenceStatsResult_UnmarshalVT.
Proof. vt_fine. Qed.
Lemma PresenceStatsResult_reads m : typed_PresenceStatsResult m -> known_PresenceStatsResult m -> unm_ok PresenceStatsResult_UnmarshalVT new_PresenceStatsResult (vt_PresenceStatsResult m) (norm_PresenceStatsResult m).
Proof. vt_reads. Qed.
#[export] Hint Resolve PresenceStatsResult_size PresenceStatsResult_sized PresenceStatsResult_fine PresenceStatsResult_reads : vt.

Definition vt_PingResult (m : pb_PingResult) : bytes := concat [
  m.(PingResult_unknownFields)].
Definition typed_PingResult (m : pb_PingResult) : Prop :=
  True.
Definition known_PingResult (m : pb_PingResult) : Prop :=
  m.(PingResult_unknownFields) = [].
Definition norm_PingResult (m : pb_PingResult) : pb_PingResult :=
  mk_PingResult [].
Lemma PingResult_size m : typed_PingResult m -> size_is (PingResult_SizeVT m) (vt_PingResult m).
Proof. vt_size. Qed.
Lemma PingResult_sized m : typed_PingResult m -> sized_ok (PingResult_MarshalToSizedBufferVT m) (vt_PingResult m).
Proof. vt_sized. Qed.
Lemma PingResult_fine : unm_fine PingResult_UnmarshalVT.
Proof. vt_fine. Qed.
Lemma PingResult_reads m : typed_PingResult m -> known_PingResult m -> unm_ok PingResult_UnmarshalVT new_PingResult (vt_PingResult m) (norm_PingResult m).
Proof. vt_reads. Qed.
#[export] Hint Resolve PingResult_size PingResult_sized PingResult_fine PingResult_reads : vt.

Definition vt_RefreshResult (m : pb_RefreshResult) : bytes := concat [
  e_bytes 0xa m.(RefreshResult_Client);
  e_bytes 0x12 m.(RefreshResult_Version);
  e_bool 0x18 m.(RefreshResult_Expires);
  e_uint 0x20 m.(RefreshResult_Ttl);
  m.(RefreshResult_unknownFields)].
Definition typed_RefreshResult (m : pb_RefreshResult) : Prop :=
  is_u32 m.(RefreshResult_Ttl).
Definition known_RefreshResult (m : pb_RefreshResult) : Prop :=
  m.(RefreshResult_unknownFields) = [].
Definition norm_RefreshResult (m : pb_RefreshResult) : pb_RefreshResult :=
  mk_RefreshResult m.(RefreshResult_Client) m.(RefreshResult_Version) m.(RefreshResult_Expires) m.(RefreshResult_Ttl) [].
Lemma RefreshResult_size m : typed_RefreshResult m -> size_is (RefreshResult_SizeVT m) (vt_RefreshResult m).
Proof. vt_size. Qed.
Lemma RefreshResult_sized m : typed_RefreshResult m -> sized_ok (RefreshResult_MarshalToSizedBufferVT m) (vt_RefreshResult m).
Proof. vt_sized. Qed.
Lemma RefreshResult_fine : unm_fine RefreshResult_UnmarshalVT.
Proof. vt_fine. Qed.
Lemma RefreshResult_reads m : typed_RefreshResult m -> known_RefreshResult m -> unm_ok RefreshResult_UnmarshalVT new_RefreshResult (vt_RefreshResult m) (norm_RefreshResult m).
Proof. vt_reads. Qed.
#[export] Hint Resolve RefreshResult_size RefreshResult_sized RefreshResult_fine RefreshResult_reads : vt.

Definition vt_SubRefreshResult (m : pb_SubRefreshResult) : bytes := concat [
  e_bool 0x8 m.(SubRefreshResult_Expires);
  e_uint 0x10 m.(SubRefreshResult_Ttl);
  m.(SubRefreshResult_unknownFields)].
Definition typed_SubRefreshResult (m : pb_SubRefreshResult) : Prop :=
  is_u32 m.(SubRefreshResult_Ttl).
Definition known_SubRefreshResult (m : pb_SubRefreshResult) : Prop :=
  m.(SubRefreshResult_unknownFields) = [].
Definition norm_SubRefreshResult (m : pb_SubRefreshResult) : pb_SubRefreshResult :=
  mk_SubRefreshResult m.(SubRefreshResult_Expires) m.(SubRefreshResult_Ttl) [].
Lemma SubRefreshResult_size m : typed_SubRefreshResult m -> size_is (SubRefreshResult_SizeVT m) (vt_SubRefreshResult m).
Proof. vt_size. Qed.
Lemma SubRefreshResult_sized m : typed_SubRefreshResult m -> sized_ok (SubRefreshResult_MarshalToSizedBufferVT m) (vt_SubRefreshResult m).
Proof. vt_sized. Qed.
Lemma SubRefreshResult_fine : unm_fine SubRefreshResult_UnmarshalVT.
Proof. vt_fine. Qed.
Lemma SubRefreshResult_reads m : typed_SubRefreshResult m -> known_SubRefreshResult m -> unm_ok SubRefreshResult_UnmarshalVT new_SubRefreshResult (vt_SubRefreshResult m) (norm_SubRefreshResult m).
Proof. vt_reads. Qed.
#[export] Hint Resolve SubRefreshResult_size SubRefreshResult_sized SubRefreshResult_fine SubRefreshResult_reads : vt.

Definition vt_Reply (m : pb_Reply) : bytes := concat [
  e_uint 0x8 m.(Reply_Id);
  e_message 0x12 vt_Error m.(Reply_Error);
  e_message 0x22 vt_Push m.(Reply_Push);
  e_message 0x2a vt_ConnectResult m.(Reply_Connect);
  e_message 0x32 vt_SubscribeResult m.(Reply_Subscribe);
  e_message 0x3a vt_UnsubscribeResult m.(Reply_Unsubscribe);
  e_message 0x42 vt_PublishResult m.(Reply_Publish);
  e_message 0x4a vt_PresenceResult m.(Reply_Presence);
  e_message 0x52 vt_PresenceStatsResult m.(Reply_PresenceStats);
  e_message 0x62 vt_PingResult m.(Reply_Ping);
  e_message 0x72 vt_RefreshResult m.(Reply_Refresh);
  e_message 0x7a vt_SubRefreshResult m.(Reply_SubRefresh);
  m.(Reply_unknownFields)].
Definition typed_Reply (m : pb_Reply) : Prop :=
  is_u32 m.(Reply_Id) /\
  opt_ok typed_Error m.(Reply_Error) /\
  opt_ok typed_Push m.(Reply_Push) /\
  opt_ok typed_ConnectResult m.(Reply_Connect) /\
  opt_ok typed_SubscribeResult m.(Reply_Subscribe) /\
  opt_ok typed_UnsubscribeResult m.(Reply_Unsubscribe) /\
  opt_ok typed_PublishResult m.(Reply_Publish) /\
  opt_ok typed_PresenceResult m.(Reply_Presence) /\
  opt_ok typed_PresenceStatsResult m.(Reply_PresenceStats) /\
  opt_ok typed_PingResult m.(Reply_Ping) /\
  opt_ok typed_RefreshResult m.(Reply_Refresh) /\
  opt_ok typed_SubRefreshResult m.(Reply_SubRefresh).
Definition known_Reply (m : pb_Reply) : Prop :=
  m.(Reply_unknownFields) = [] /\
  opt_ok known_Error m.(Reply_Error) /\
  opt_ok known_Push m.(Reply_Push) /\
  opt_ok known_ConnectResult m.(Reply_Connect) /\
  opt_ok known_SubscribeResult m.(Reply_Subscribe) /\
  opt_ok known_UnsubscribeResult m.(Reply_Unsubscribe) /\
  opt_ok known_PublishResult m.(Reply_Publish) /\
  opt_ok known_PresenceResult m.(Reply_Presence) /\
  opt_ok known_PresenceStatsResult m.(Reply_PresenceStats) /\
  opt_ok known_PingResult m.(Reply_Ping) /\
  opt_ok known_RefreshResult m.(Reply_Refresh) /\
  opt_ok known_SubRefreshResult m.(Reply_SubRefresh).
Definition norm_Reply (m : pb_Reply) : pb_Reply :=
  mk_Reply m.(Reply_Id) (norm_Error <$> m.(Reply_Error)) (norm_Push <$> m.(Reply_Push)) (norm_ConnectResult <$> m.(Reply_Connect)) (norm_SubscribeResult <$> m.(Reply_Subscribe)) (norm_UnsubscribeResult <$> m.(Reply_Unsubscribe)) (norm_PublishResult <$> m.(Reply_Publish)) (norm_PresenceResult <$> m.(Reply_Presence)) (norm_PresenceStatsResult <$> m.(Reply_PresenceStats)) (norm_PingResult <$> m.(Reply_Ping)) (norm_RefreshResult <$> m.(Reply_Refresh)) (norm_SubRefreshResult <$> m.(Reply_SubRefresh)) [].
Lemma Reply_size m : typed_Reply m -> size_is (Reply_SizeVT m) (vt_Reply m).
Proof. vt_size. Qed.
Lemma Reply_sized m : typed_Reply m -> sized_ok (Reply_MarshalToSizedBufferVT m) (vt_Reply m).
Proof. vt_sized. Qed.
Lemma Reply_fine : unm_fine Reply_UnmarshalVT.
Proof. vt_fine. Qed.
Lemma Reply_reads m : typed_Reply m -> known_Reply m -> unm_ok Reply_UnmarshalVT new_Reply (vt_Reply m) (norm_Reply m).
Proof. vt_reads. Qed.
#[export] Hint Resolve Reply_size Reply_sized Reply_fine Reply_reads : vt.

(** ** The generated methods behind the encoders *)

Definition lift_io {A} (r : outcome Empty_set A) : outcome io_error A :=
  match r with Ok a => Ok a | Err e => match e with end | Panic p => Panic p end.

(** The methods of a message as the encoders of [encode.go] call them. *)
Definition vt_of {M} (size : M -> Z) (sizedf : M -> sized) : vt M :=
  mkVT M (fun m => Z.to_nat (size m)) (fun m => lift_io (marshal (size m) (sizedf m)))
    (fun m buf => lift_io ('(b, n) ← sizedf m buf; Ok (b, Z.to_nat n))).

Lemma vt_of_laws {M} (size : M -> Z) (sizedf : M -> sized) (enc : M -> bytes) (typed : M -> Prop) :
  (forall m, typed m -> size_is (size m) (enc m)) -> (forall m, typed m -> sized_ok (sizedf m) (enc m)) ->
  VTLaws (vt_of size sizedf) (fun m => typed m /\ zlen (enc m) < 2 ^ 63).
Proof.
  intros Hs Hm. split.
  - intros m b [Ht Hl]. simpl. rewrite (marshal_ok _ _ _ (Hs m Ht) (Hm m Ht) Hl). intros [= <-].
    rewrite (Hs m Ht Hl). unfold zlen. by rewrite Nat2Z.id.
  - intros m buf [Ht Hl]. simpl. rewrite (Hs m Ht Hl). intros Hb.
    pose proof (Hm m Ht Hl [] buf) as E. simpl in E. rewrite E by (rewrite Hb; unfold zlen; by rewrite Nat2Z.id).
    rewrite <- (Hs m Ht Hl) at 2. rewrite (marshal_ok _ _ _ (Hs m Ht) (Hm m Ht) Hl). simpl.
    unfold zlen. by rewrite Nat2Z.id.
Qed.

(** The encoders of pushes write the same into a buffer that is reused. *)
#[export] Instance Publication_laws :
  VTLaws (vt_of Publication_SizeVT Publication_MarshalToSizedBufferVT) (fun m => typed_Publication m /\ zlen (vt_Publication m) < 2 ^ 63).
Proof. apply vt_of_laws; auto with vt. Qed.
#[export] Instance Message_laws :
  VTLaws (vt_of Message_SizeVT Message_MarshalToSizedBufferVT) (fun m => typed_Message m /\ zlen (vt_Message m) < 2 ^ 63).
Proof. apply vt_of_laws; auto with vt. Qed.
#[export] Instance Join_laws :
  VTLaws (vt_of Join_SizeVT Join_MarshalToSizedBufferVT) (fun m => typed_Join m /\ zlen (vt_Join m) < 2 ^ 63).
Proof. apply vt_of_laws; auto with vt. Qed.
#[export] Instance Leave_laws :
  VTLaws (vt_of Leave_SizeVT Leave_MarshalToSizedBufferVT) (fun m => typed_Leave m /\ zlen (vt_Leave m) < 2 ^ 63).
Proof. apply vt_of_laws; auto with vt. Qed.
#[export] Instance Connect_laws :
  VTLaws (vt_of Connect_SizeVT Connect_MarshalToSizedBufferVT) (fun m => typed_Connect m /\ zlen (vt_Connect m) < 2 ^ 63).
Proof. apply vt_of_laws; auto with vt. Qed.

(** ** The properties *)

(** The message is encoded, in a buffer of exactly its size, and read back. *)
Definition round_trips {M} (marshalf : M -> outcome Empty_set bytes) (size : M -> Z)
    (unm : bytes -> M -> outcome vt_error M) (new : M) (norm : M -> M) (m : M) : Prop :=
  exists b, marshalf m = Ok b /\ zlen b = size m /\ unm b new = Ok (norm m).

Lemma round_trips_intro {M} (size : M -> Z) (sizedf : M -> sized) unm new norm enc (m : M) :
  size_is (size m) (enc m) -> sized_ok (sizedf m) (enc m) -> unm_ok unm new (enc m) (norm m) ->
  zlen (enc m) < 2 ^ 63 -> round_trips (fun m => marshal (size m) (sizedf m)) size unm new norm m.
Proof.
  intros Hs Hm Hu Hl. exists (enc m). split; [by apply marshal_ok|]. split; [by rewrite (Hs Hl)|by apply Hu].
Qed.

(** C5: every command, every reply and every push, with all the messages they
    hold, survives the protobuf codec: [MarshalVT] writes it backwards into a
    buffer of the size [SizeVT] counts, without leaving room and without a
    panic, and [UnmarshalVT] reads it back.  What a reader gets differs only in
    what Go code cannot rely on: an empty byte slice comes back nil, a nil
    pointer in a list or a map as an empty message, and the entries of a map in
    another order. *)
Theorem protobuf_roundtrip :
  (forall c, typed_Command c -> known_Command c -> zlen (vt_Command c) < 2 ^ 63 ->
     round_trips Command_MarshalVT Command_SizeVT Command_UnmarshalVT new_Command norm_Command c) /\
  (forall r, typed_Reply r -> known_Reply r -> zlen (vt_Reply r) < 2 ^ 63 ->
     round_trips Reply_MarshalVT Reply_SizeVT Reply_UnmarshalVT new_Reply norm_Reply r) /\
  (forall p, typed_Push p -> known_Push p -> zlen (vt_Push p) < 2 ^ 63 ->
     round_trips Push_MarshalVT Push_SizeVT Push_UnmarshalVT new_Push norm_Push p).
Proof.
  split_and!; intros m Ht Hk Hl; eapply round_trips_intro; eauto with vt.
Qed.

(** A publication with tags and a nil presence entry. *)
Definition sample_publication : pb_Publication :=
  mk_Publication (Some (lit "{}")) (Some (mk_ClientInfo (lit "u") (lit "c") None (Some []) []))
    [(lit "k", lit "v"); (lit "empty", [])] [].
Definition pushed_reply : pb_Reply :=
  Reply_set_Presence (Some (mk_PresenceResult (Some [(lit "x", None)]) []))
    (Reply_set_Push (Some (Push_set_Pub (Some sample_publication) (Push_set_Channel (lit "news") new_Push)))
       (Reply_set_Id 300 new_Reply)).

Lemma protobuf_roundtrip_witness :
  round_trips Reply_MarshalVT Reply_SizeVT Reply_UnmarshalVT new_Reply norm_Reply pushed_reply.
Proof.
  apply (proj1 (proj2 protobuf_roundtrip)).
  - unfold pushed_reply. vm_compute. repeat (split || constructor); try (intros H; discriminate H);
      intros H; repeat (inversion H as [|? ? ? H']; clear H; rename H' into H).
  - vm_compute. repeat (split || constructor).
  - vm_compute. reflexivity.
Defined.

(** The result of a decoder is a message or one of the errors of the code. *)
Definition reads_or_refuses {M} (r : outcome vt_error M) : Prop :=
  (exists m, r = Ok m) \/ (exists e, r = Err e /\ e <> VtOutOfFuel).

Lemma fine_reads {M} (r : outcome vt_error M) : fine (fun _ => True) r -> reads_or_refuses r.
Proof. destruct r as [m|e|p]; simpl; intros H; [left; by exists m|right; by exists e|done]. Qed.

(** C6: whatever bytes a peer sends, and whatever the message already holds, the
    protobuf decoders of commands, replies and pushes end and return a message
    or an error: no index or slice is out of range, not in nested messages, in
    map entries whose lengths lie, or in unknown fields that are skipped, and
    the loops end within the length of the input. *)
Theorem protobuf_decoders_total (dAtA : bytes) :
  zlen dAtA < 2 ^ 63 ->
  (forall c, reads_or_refuses (Command_UnmarshalVT dAtA c)) /\
  (forall r, reads_or_refuses (Reply_UnmarshalVT dAtA r)) /\
  (forall p, reads_or_refuses (Push_UnmarshalVT dAtA p)).
Proof.
  intros Hl. split_and!; intros m; apply fine_reads;
    [by apply Command_fine|by apply Reply_fine|by apply Push_fine].
Qed.

(** A map entry whose key claims more bytes than the entry has, an unknown
    field, and a length that is negative as an [int]. *)
Lemma protobuf_decoders_total_witness :
  reads_or_refuses (Reply_UnmarshalVT (lit "garbage") new_Reply) /\
  Push_UnmarshalVT [x0a; xff; xff; xff; xff; xff; xff; xff; xff; xff; x01] new_Push = Err ErrInvalidLength /\
  (exists m, Push_UnmarshalVT [x0a; x01; x41; x98; x06; x05] new_Push = Ok m /\
     m.(Push_unknownFields) = [x98; x06; x05]).
Proof.
  split; [|split; [reflexivity|eexists; split; reflexivity]].
  apply (protobuf_decoders_total (lit "garbage")). reflexivity.
Defined.

(** ** Frames of commands *)

Definition io_of (e : vt_error) : io_error :=
  match e with VtUnexpectedEOF => ErrUnexpectedEOF | _ => ErrOther "proto" end.

(** [c.UnmarshalVT] of a new command, as the decoders of frames call it; it does
    not panic. *)
Definition Command_decode (b : bytes) : io_error + pb_Command :=
  match Command_UnmarshalVT b new_Command with
  | Ok c => inr c
  | Err e => inl (io_of e)
  | Panic _ => inl (ErrOther "panic")
  end.

Lemma decode_each_vt (cs : list pb_Command) :
  Forall (fun c => typed_Command c /\ known_Command c /\ short (vt_Command c)) cs ->
  decode_each Command_decode (vt_Command <$> cs) = (norm_Command <$> cs, EOF).
Proof.
  induction 1 as [|c cs (Ht & Hk & Hs) _ IH]; [done|]. csimpl. unfold Command_decode at 1.
  assert (Hl : zlen (vt_Command c) < 2 ^ 63) by (unfold short in Hs; unfold zlen; lia).
  rewrite (Command_reads c Ht Hk Hl). by rewrite IH.
Qed.

(** C7: a frame of commands crosses the protobuf connection: the commands are
    encoded by [MarshalVT], framed with their lengths by the data encoder of the
    protocol, whatever the pool hands out, and come out of the command decoder
    in order, then the end of the frame. *)
Theorem protobuf_frames_roundtrip pick ps (c : pb_Command) (cs : list pb_Command) :
  encoder_pools_ok ps ->
  Forall (fun c => typed_Command c /\ known_Command c /\ short (vt_Command c)) (c :: cs) ->
  (Z.of_nat (length (frame_of TypeProtobuf (vt_Command <$> c :: cs))) < 2 ^ 62) ->
  Forall (fun c => Command_MarshalVT c = Ok (vt_Command c)) (c :: cs) /\
  exists ps' data, encode_frame pick ps TypeProtobuf (vt_Command <$> c :: cs) = Ok (ps', data) /\
    drain (ProtobufCommandDecoder_Decode Command_decode) (S (length cs)) (NewProtobufCommandDecoder data)
      = Ok (Some (norm_Command <$> c :: cs, EOF)).
Proof.
  intros Hps Hcs Hlen. split.
  - eapply Forall_impl; [exact Hcs|]. intros x (Ht & _ & Hs).
    apply marshal_ok; [by apply Command_size|by apply Command_sized|]. unfold short in Hs. unfold zlen. lia.
  - destruct (encode_frame_spec pick ps TypeProtobuf (vt_Command <$> c :: cs) Hps) as (ps' & Henc & _).
    { change (Forall short (vt_Command <$> c :: cs)). apply Forall_fmap. eapply Forall_impl; [exact Hcs|]. by intros x (_ & _ & Hs). }
    eexists _, _. split; [exact Henc|].
    pose proof (drain_Protobuf Command_decode [] (vt_Command c) (fmap (M := list) vt_Command cs) Hlen) as Hd.
    rewrite length_fmap in Hd. rewrite <- (decode_each_vt (c :: cs) Hcs). exact Hd.
Qed.

Definition connect_command : pb_Command :=
  Command_set_Connect (Some (mk_ConnectRequest (lit "token") (Some (lit "{}")) [(lit "ch", None)] (lit "agent") []))
    (Command_set_Id 1 new_Command).
Definition ping_command : pb_Command := Command_set_Ping (Some new_PingRequest) new_Command.

Lemma protobuf_frames_roundtrip_witness :
  exists ps' data, encode_frame None (mkEP [] []) TypeProtobuf [vt_Command connect_command; vt_Command ping_command] = Ok (ps', data) /\
    drain (ProtobufCommandDecoder_Decode Command_decode) 2 (NewProtobufCommandDecoder data)
      = Ok (Some ([norm_Command connect_command; norm_Command ping_command], EOF)).
Proof.
  apply (protobuf_frames_roundtrip None (mkEP [] []) connect_command [ping_command]).
  - split; intros e H; inversion H.
  - repeat constructor; vm_compute; try done; intros H; inversion H.
  - vm_compute. reflexivity.
Defined.
