(* ===== verification/VtControl.v ===== *)
(** The control messages the nodes send each other
    ([server/deliverer/internal/controlpb/control.pb.go]) and their protobuf
    methods ([control_vtproto.pb.go] beside it), built from the blocks of Vt.v
    as VtMsg.v builds those of the client protocol, and the
    encoder and the decoder of [controlproto].  The types carry the prefix [Ctl],
    since names such as [Command] also belong to the client protocol.

    First the blocks only they have: signed integers, floating-point numbers of
    eight bytes (a [float64] is its 64 bits), lists of strings and maps of
    numbers; then the messages and their codec; then, as in VtFrames.v, sizes,
    encodings, reading back, and total decoders. *)

From S2P Require Import Prelude BytePool WireMsg Vt VtProps WireLine VtFrames.

Open Scope Z_scope.

(** ** Definitions *)

(** [int64]: the sign is the highest of ten groups. *)
Definition size_int (v : Z) : Z := if v =? 0 then 0 else 1 + sov (wrap_u64 v).
Definition put_int (tag v : Z) : mar :=
  if v =? 0 then skip_mar else run_mar [encodeVarint (wrap_u64 v); put_byte tag].

(** [m.F != 0] for a [float64]: the two zeros are equal. *)
Definition float_zero (bits : Z) : bool := (bits =? 0) || (bits =? 2 ^ 63).

(** [binary.LittleEndian]. *)
Definition le64 (v : Z) : bytes :=
  [zb v; zb (Z.shiftr v 8); zb (Z.shiftr v 16); zb (Z.shiftr v 24); zb (Z.shiftr v 32); zb (Z.shiftr v 40);
   zb (Z.shiftr v 48); zb (Z.shiftr v 56)].
Fixpoint le_value (l : bytes) : Z := match l with [] => 0 | b :: l => bz b + 2 ^ 8 * le_value l end.

Definition size_float (bits : Z) : Z := if float_zero bits then 0 else 9.
Definition put_fixed (tag bits : Z) : mar := run_mar [put_copy (le64 bits); put_byte tag].
Definition put_float (tag bits : Z) : mar := if float_zero bits then skip_mar else put_fixed tag bits.

Definition size_list (l : list bytes) : Z := fold_left (fun n s => n + size_delimited (zlen s)) l 0.
Definition put_list (tag : Z) (l : list bytes) : mar := run_mar (put_delimited tag <$> reverse l).

Definition size_floats (l : list (bytes * Z)) : Z := fold_left (fun n e => n + size_entry e.1 (1 + 8)) l 0.
Definition put_floats (tag : Z) (l : list (bytes * Z)) : mar :=
  run_mar ((fun e => put_entry tag e.1 (put_fixed 0x11 e.2)) <$> l).

(** Eight bytes are read when the input has them. *)
Definition fixed_at (dAtA : bytes) (iNdEx : Z) : outcome vt_error (Z * Z) :=
  if zlen dAtA <? iNdEx + 8 then Err VtUnexpectedEOF
  else s ← slice_z dAtA iNdEx (iNdEx + 8); Ok (le_value s, iNdEx + 8).

Definition dec_float {M} (set : Z -> M -> M) : fdec M := fun dAtA iNdEx m =>
  '(v, iNdEx) ← fixed_at dAtA iNdEx; Ok (set v m, iNdEx).
Definition dec_list {M} (get : M -> list bytes) (set : list bytes -> M -> M) : fdec M := fun dAtA iNdEx m =>
  '(iNdEx, postIndex) ← string_len dAtA iNdEx;
  s ← slice_z dAtA iNdEx postIndex;
  Ok (set (get m ++ [s]) m, postIndex).
Definition dec_floats {M} := dec_entry (M := M) (V := Z) 0 fixed_at.

(** ** The encoding *)

Definition e_int (tag v : Z) : bytes := if v =? 0 then [] else zb tag :: uvarint (wrap_u64 v).
Definition e_fixed (tag bits : Z) : bytes := zb tag :: le64 bits.
Definition e_float (tag bits : Z) : bytes := if float_zero bits then [] else e_fixed tag bits.
Definition e_list (tag : Z) (l : list bytes) : bytes := concat (e_delimited tag <$> l).
Definition e_floats (tag : Z) (l : list (bytes * Z)) : bytes :=
  concat (reverse ((fun e => e_entry tag e.1 (e_fixed 0x11 e.2)) <$> l)).

Lemma size_is_int tag v : size_is (size_int v) (e_int tag v).
Proof.
  intros _. unfold size_int, e_int. destruct (v =? 0); [done|].
  rewrite sov_uvarint by apply wrap_u64_range. zlia.
Qed.

Lemma puts_int tag v : puts (put_int tag v) (e_int tag v).
Proof.
  unfold put_int, e_int. destruct (v =? 0); [apply puts_skip|]. apply puts_header, wrap_u64_range.
Qed.

Lemma size_is_float tag v : size_is (size_float v) (e_float tag v).
Proof. intros _. unfold size_float, e_float. by destruct (float_zero v). Qed.

Lemma puts_fixed tag v : puts (put_fixed tag v) (e_fixed tag v).
Proof. apply (puts_two _ _ (le64 v) [zb tag]); [apply puts_copy|apply puts_byte]. Qed.

Lemma puts_float tag v : puts (put_float tag v) (e_float tag v).
Proof. unfold put_float, e_float. destruct (float_zero v); [apply puts_skip|apply puts_fixed]. Qed.

Lemma size_is_list tag l : size_is (size_list l) (e_list tag l).
Proof.
  apply (size_is_fold (fun s => size_delimited (zlen s))), Forall_true. intros s.
  apply size_is_delimited, size_is_zlen.
Qed.

Lemma puts_list tag l : puts (put_list tag l) (e_list tag l).
Proof.
  unfold put_list, e_list. apply puts_all. rewrite <- fmap_reverse. apply Forall2_fmap, Forall_Forall2_diag, Forall_true.
  intros s. apply puts_delimited.
Qed.

Lemma size_is_floats tag l : size_is (size_floats l) (e_floats tag l).
Proof.
  apply size_is_reverse, (size_is_fold (fun e : bytes * Z => size_entry e.1 (1 + 8))), Forall_true. intros e.
  apply size_is_entry. by intros _.
Qed.

Lemma puts_floats tag l : puts (put_floats tag l) (e_floats tag l).
Proof. apply puts_entries, Forall_true. intros e. apply puts_entry, puts_fixed. Qed.

(** ** Reading signed integers *)

Lemma testbit_wrap_i64 z n : 0 <= n -> Z.testbit (wrap_i64 z) n = Z.testbit z (Z.min n 63).
Proof.
  intros Hn. set (r := wrap_i64 z).
  assert (Hr : is_i64 r) by apply is_i64_wrap. assert (Hm : exists q, z = r + q * 2 ^ 64).
  { exists ((z + 2 ^ 63) / 2 ^ 64). unfold r, wrap_i64. pose proof (Z.div_mod (z + 2 ^ 63) (2 ^ 64) ltac:(lia)). lia. }
  clearbody r. destruct Hm as [q ->].
  assert (Hlow : forall k, 0 <= k < 64 -> Z.testbit (r + q * 2 ^ 64) k = Z.testbit r k).
  { intros k Hk. rewrite <- (Z.mod_pow2_bits_low (r + q * 2 ^ 64) 64) by lia.
    rewrite Z.mod_add by lia. by rewrite Z.mod_pow2_bits_low by lia. }
  destruct (Z.le_gt_cases n 63); [rewrite Z.min_l by lia; by rewrite Hlow by lia|].
  rewrite Z.min_r by lia. rewrite Hlow by lia.
  apply is_i64_shiftr in Hr.
  assert (Hb : forall k, 63 <= k -> Z.testbit r k = Z.testbit (Z.shiftr r 63) (k - 63)).
  { intros k Hk. rewrite Z.shiftr_spec by lia. f_equal. lia. }
  rewrite !Hb by lia. destruct Hr as [-> | ->]; [by rewrite !Z.bits_0|]. rewrite !Z.bits_m1 by lia. done.
Qed.

Lemma wrap_i64_lor a b : wrap_i64 (Z.lor a b) = Z.lor (wrap_i64 a) (wrap_i64 b).
Proof.
  apply Z.bits_inj'. intros n Hn. by rewrite Z.lor_spec, !testbit_wrap_i64, Z.lor_spec.
Qed.

Lemma wrap_i64_u64 z : wrap_i64 (wrap_u64 z) = wrap_i64 z.
Proof.
  unfold wrap_i64, wrap_u64. f_equal. rewrite Zplus_mod_idemp_l. done.
Qed.

Lemma wrap_i64_idem z : wrap_i64 (wrap_i64 z) = wrap_i64 z.
Proof. apply wrap_i64_small. exact (is_i64_wrap z). Qed.

(** Reading into an [int64] is reading into an [uint64] and converting. *)
Lemma varint_loop_int shift v i rest :
  varint_loop wrap_i64 shift (wrap_i64 v) i rest =
  match varint_loop wrap_u64 shift v i rest with
  | Ok (v', i') => Ok (wrap_i64 v', i')
  | Err e => Err e
  | Panic p => Panic p
  end.
Proof.
  revert shift v i. induction rest as [|b rest IH]; intros shift v i; cbn [varint_loop].
  - by destruct (64 <=? shift).
  - destruct (64 <=? shift); [done|].
    set (g := Z.shiftl (Z.land (bz b) 127) shift).
    assert (Hg : Z.lor (wrap_i64 v) (wrap_i64 g) = wrap_i64 (Z.lor v (wrap_u64 g))) by (by rewrite wrap_i64_lor, wrap_i64_u64).
    rewrite Hg. destruct (bz b <? 128); [done|apply IH].
Qed.

Lemma varint_at_int pre v suf :
  is_i64 v -> varint_at wrap_i64 (pre ++ uvarint (wrap_u64 v) ++ suf) (zlen pre) =
    Ok (v, zlen pre + zlen (uvarint (wrap_u64 v))).
Proof.
  intros Hv. unfold varint_at. change 0 with (wrap_i64 0) at 2. rewrite varint_loop_int.
  pose proof (varint_at_uvarint wrap_u64 pre (wrap_u64 v) suf (wrap_u64_range v)) as E. unfold varint_at in E.
  rewrite E by (apply holds_u64; apply wrap_u64_range). by rewrite wrap_i64_u64, wrap_i64_small.
Qed.

Lemma reads_int {M} (set : Z -> M -> M) v m :
  is_i64 v -> dec_reads (dec_uint wrap_i64 set) (uvarint (wrap_u64 v)) m (set v m).
Proof. intros Hv pre suf Hl. unfold dec_uint. by rewrite varint_at_int. Qed.

(** ** Reading eight bytes *)

Lemma le64_value v : 0 <= v < 2 ^ 64 -> le_value (le64 v) = v.
Proof.
  intros Hv. unfold le64, le_value. rewrite !bz_zb, !Z.shiftr_div_pow2 by lia.
  change (2 ^ 8) with 256. change (2 ^ 16) with 65536. change (2 ^ 24) with 16777216. change (2 ^ 32) with 4294967296.
  change (2 ^ 40) with 1099511627776. change (2 ^ 48) with 281474976710656. change (2 ^ 56) with 72057594037927936.
  change (2 ^ 64) with 18446744073709551616 in Hv. mod_lia.
Qed.

Lemma fixed_at_reads v : 0 <= v < 2 ^ 64 -> value_reads fixed_at (le64 v) v.
Proof.
  intros Hv pre suf Hl. unfold fixed_at. pose proof (zlen_nonneg suf).
  destruct (Z.ltb_spec (zlen (pre ++ le64 v ++ suf)) (zlen pre + 8)) as [Hlt|_].
  { rewrite !zlen_app in Hlt. change (zlen (le64 v)) with 8 in Hlt. lia. }
  pose proof (slice_z_ok pre (le64 v) suf) as E. change (zlen (le64 v)) with 8 in *. rewrite E.
  change (mbind ?f (Ok ?a)) with (f a). cbv beta. by rewrite le64_value.
Qed.

Lemma fixed_at_fine : value_fine fixed_at.
Proof.
  intros dAtA i Hi Hl. unfold fixed_at. destruct (Z.ltb_spec (zlen dAtA) (i + 8)); [done|].
  eapply fine_bind; [apply slice_fine; lia|]. intros s _. simpl. lia.
Qed.

Lemma dec_float_fine {M} (set : Z -> M -> M) : dec_fine (dec_float set).
Proof.
  intros dAtA i m Hi Hl. unfold dec_float. eapply fine_bind; [exact (fixed_at_fine dAtA i Hi Hl)|].
  intros [v a] Ha. simpl. lia.
Qed.

Lemma dec_list_fine {M} get (set : list bytes -> M -> M) : dec_fine (dec_list get set).
Proof.
  intros dAtA i m Hi Hl. unfold dec_list. eapply fine_bind; [exact (string_len_fine _ _ Hi Hl)|]. intros [a p] Hp.
  eapply fine_bind; [apply slice_fine; lia|]. intros s _. simpl. lia.
Qed.

Lemma dec_floats_fine {M} get (set : list (bytes * Z) -> M -> M) : dec_fine (dec_floats get set).
Proof. apply dec_entry_fine, fixed_at_fine. Qed.

(** ** Whole fields *)

(** A negative zero is not written and read back as zero. *)
Definition norm_float (bits : Z) : Z := if float_zero bits then 0 else bits.

Definition is_u64 (v : Z) : Prop := 0 <= v < 2 ^ 64.

Section Message.
Context {M : Type} (name : string) (fields : list (field_case M)) (add_unknown : bytes -> M -> M).
Notation advances := (advances name fields add_unknown).

Lemma advances_int num nm set v m :
  find_case num fields = Some (mkCase num 0 nm (dec_uint wrap_i64 set)) -> 0 < num < 16 -> is_i64 v ->
  (v = 0 -> set v m = m) -> advances (e_int (num * 8) v) m (set v m).
Proof.
  intros Hf Hn Hv H0. unfold e_int. destruct (Z.eqb_spec v 0) as [->|Hne].
  - rewrite H0 by done. apply advances_nil.
  - eapply advances_field; [exact Hf|done|simpl; lia|done|simpl; lia|]. by apply reads_int.
Qed.

Lemma reads_float (set : Z -> M -> M) v m :
  is_u64 v -> dec_reads (dec_float set) (le64 v) m (set v m).
Proof. intros Hv pre suf Hl. unfold dec_float. by rewrite (fixed_at_reads v Hv pre suf Hl). Qed.

Lemma advances_float num nm set v m :
  find_case num fields = Some (mkCase num 1 nm (dec_float set)) -> 0 < num < 16 -> is_u64 v ->
  set 0 m = m -> advances (e_float (num * 8 + 1) v) m (set (norm_float v) m).
Proof.
  intros Hf Hn Hv H0. unfold e_float, norm_float. destruct (float_zero v).
  - rewrite H0. apply advances_nil.
  - eapply advances_field; [exact Hf|done|simpl; lia|done|simpl; lia|]. by apply reads_float.
Qed.

Lemma reads_list get (set : list bytes -> M -> M) s m :
  dec_reads (dec_list get set) (uvarint (zlen s) ++ s) m (set (get m ++ [s]) m).
Proof.
  intros pre suf Hl. unfold dec_list. by read_content (len_slice string_len pre s suf string_len_reads Hl).
Qed.

Lemma advances_texts num nm get set (l : list bytes) m :
  find_case num fields = Some (mkCase num 2 nm (dec_list get set)) -> 0 < num < 16 ->
  get m = [] -> (forall x, get (set x m) = x) -> (forall x y, set y (set x m) = set y m) ->
  advances (e_list (num * 8 + 2) l) m (set_list set l m).
Proof.
  intros Hf Hn Hnew Hget Hset. unfold e_list. rewrite <- (list_fmap_id l) at 2.
  apply (advances_list name fields add_unknown set). intros p x s ->.
  eapply advances_field; [exact Hf|done|simpl; lia|done|simpl; lia|]. simpl. rewrite list_fmap_id.
  rewrite <- (set_set_list set m Hset p (p ++ _)).
  rewrite <- (get_set_list get set m Hnew Hget p) at 2. apply reads_list.
Qed.

Lemma advances_floats num nm get set (l : list (bytes * Z)) m :
  find_case num fields = Some (mkCase num 2 nm (dec_floats get set)) -> 0 < num < 16 ->
  get m = [] -> (forall x, get (set x m) = x) -> (forall x y, set y (set x m) = set y m) ->
  NoDup l.*1 -> Forall (fun e => is_u64 e.2) l ->
  advances (e_floats (num * 8 + 2) l) m (set_list set (reverse l) m).
Proof.
  intros Hf Hn Hnew Hget Hset Hnd Hl. unfold e_floats, e_fixed.
  pose proof (advances_entries name fields add_unknown num nm 0 fixed_at get set 0x11 (fun e => le64 e.2) id l m
    Hf Hn ltac:(lia) Hnew Hget Hset Hnd) as H.
  replace (reverse l) with (prod_map id id <$> reverse l).
  - apply H. eapply Forall_impl; [exact Hl|]. intros e He. by apply fixed_at_reads.
  - rewrite <- (list_fmap_id (reverse l)) at 2. apply list_fmap_ext. by intros i [].
Qed.

End Message.

Record pb_CtlMetrics := mk_CtlMetrics {
  CtlMetrics_Interval : Z;
  CtlMetrics_Items : list (bytes * Z);
  CtlMetrics_unknownFields : bytes
}.
Definition CtlMetrics_set_Interval (v : Z) (m : pb_CtlMetrics) : pb_CtlMetrics :=
  mk_CtlMetrics v m.(CtlMetrics_Items) m.(CtlMetrics_unknownFields).
Definition CtlMetrics_set_Items (v : list (bytes * Z)) (m : pb_CtlMetrics) : pb_CtlMetrics :=
  mk_CtlMetrics m.(CtlMetrics_Interval) v m.(CtlMetrics_unknownFields).
Definition CtlMetrics_set_unknownFields (v : bytes) (m : pb_CtlMetrics) : pb_CtlMetrics :=
  mk_CtlMetrics m.(CtlMetrics_Interval) m.(CtlMetrics_Items) v.
Definition new_CtlMetrics : pb_CtlMetrics := mk_CtlMetrics 0 [] [].
Definition CtlMetrics_SizeVT (m : pb_CtlMetrics) : Z := sum_sizes [
  size_float m.(CtlMetrics_Interval);
  size_floats m.(CtlMetrics_Items);
  zlen m.(CtlMetrics_unknownFields)].
Definition CtlMetrics_MarshalToSizedBufferVT (m : pb_CtlMetrics) : sized := to_sized [
  put_copy m.(CtlMetrics_unknownFields);
  put_floats 0x12 m.(CtlMetrics_Items);
  put_float 0x9 m.(CtlMetrics_Interval)].
Definition CtlMetrics_MarshalVT (m : pb_CtlMetrics) : outcome Empty_set bytes :=
  marshal (CtlMetrics_SizeVT m) (CtlMetrics_MarshalToSizedBufferVT m).
Definition CtlMetrics_UnmarshalVT : bytes -> pb_CtlMetrics -> outcome vt_error pb_CtlMetrics := unmarshal "Metrics" [
  mkCase 1 1 "Interval" (dec_float CtlMetrics_set_Interval);
  mkCase 2 2 "Items" (dec_floats CtlMetrics_Items CtlMetrics_set_Items)]
  (fun u m => CtlMetrics_set_unknownFields (m.(CtlMetrics_unknownFields) ++ u) m).

Record pb_CtlNode := mk_CtlNode {
  CtlNode_Uid : bytes;
  CtlNode_Name : bytes;
  CtlNode_Version : bytes;
  CtlNode_NumClients : Z;
  CtlNode_NumUsers : Z;
  CtlNode_NumChannels : Z;
  CtlNode_Uptime : Z;
  CtlNode_Metrics : option pb_CtlMetrics;
  CtlNode_Data : option bytes;
  CtlNode_NumSubs : Z;
  CtlNode_unknownFields : bytes
}.
Definition CtlNode_set_Uid (v : bytes) (m : pb_CtlNode) : pb_CtlNode :=
  mk_CtlNode v m.(CtlNode_Name) m.(CtlNode_Version) m.(CtlNode_NumClients) m.(CtlNode_NumUsers) m.(CtlNode_NumChannels) m.(CtlNode_Uptime) m.(CtlNode_Metrics) m.(CtlNode_Data) m.(CtlNode_NumSubs) m.(CtlNode_unknownFields).
Definition CtlNode_set_Name (v : bytes) (m : pb_CtlNode) : pb_CtlNode :=
  mk_CtlNode m.(CtlNode_Uid) v m.(CtlNode_Version) m.(CtlNode_NumClients) m.(CtlNode_NumUsers) m.(CtlNode_NumChannels) m.(CtlNode_Uptime) m.(CtlNode_Metrics) m.(CtlNode_Data) m.(CtlNode_NumSubs) m.(CtlNode_unknownFields).
Definition CtlNode_set_Version (v : bytes) (m : pb_CtlNode) : pb_CtlNode :=
  mk_CtlNode m.(CtlNode_Uid) m.(CtlNode_Name) v m.(CtlNode_NumClients) m.(CtlNode_NumUsers) m.(CtlNode_NumChannels) m.(CtlNode_Uptime) m.(CtlNode_Metrics) m.(CtlNode_Data) m.(CtlNode_NumSubs) m.(CtlNode_unknownFields).
Definition CtlNode_set_NumClients (v : Z) (m : pb_CtlNode) : pb_CtlNode :=
  mk_CtlNode m.(CtlNode_Uid) m.(CtlNode_Name) m.(CtlNode_Version) v m.(CtlNode_NumUsers) m.(CtlNode_NumChannels) m.(CtlNode_Uptime) m.(CtlNode_Metrics) m.(CtlNode_Data) m.(CtlNode_NumSubs) m.(CtlNode_unknownFields).
Definition CtlNode_set_NumUsers (v : Z) (m : pb_CtlNode) : pb_CtlNode :=
  mk_CtlNode m.(CtlNode_Uid) m.(CtlNode_Name) m.(CtlNode_Version) m.(CtlNode_NumClients) v m.(CtlNode_NumChannels) m.(CtlNode_Uptime) m.(CtlNode_Metrics) m.(CtlNode_Data) m.(CtlNode_NumSubs) m.(CtlNode_unknownFields).
Definition CtlNode_set_NumChannels (v : Z) (m : pb_CtlNode) : pb_CtlNode :=
  mk_CtlNode m.(CtlNode_Uid) m.(CtlNode_Name) m.(CtlNode_Version) m.(CtlNode_NumClients) m.(CtlNode_NumUsers) v m.(CtlNode_Uptime) m.(CtlNode_Metrics) m.(CtlNode_Data) m.(CtlNode_NumSubs) m.(CtlNode_unknownFields).
Definition CtlNode_set_Uptime (v : Z) (m : pb_CtlNode) : pb_CtlNode :=
  mk_CtlNode m.(CtlNode_Uid) m.(CtlNode_Name) m.(CtlNode_Version) m.(CtlNode_NumClients) m.(CtlNode_NumUsers) m.(CtlNode_NumChannels) v m.(CtlNode_Metrics) m.(CtlNode_Data) m.(CtlNode_NumSubs) m.(CtlNode_unknownFields).
Definition CtlNode_set_Metrics (v : option pb_CtlMetrics) (m : pb_CtlNode) : pb_CtlNode :=
  mk_CtlNode m.(CtlNode_Uid) m.(CtlNode_Name) m.(CtlNode_Version) m.(CtlNode_NumClients) m.(CtlNode_NumUsers) m.(CtlNode_NumChannels) m.(CtlNode_Uptime) v m.(CtlNode_Data) m.(CtlNode_NumSubs) m.(CtlNode_unknownFields).
Definition CtlNode_set_Data (v : option bytes) (m : pb_CtlNode) : pb_CtlNode :=
  mk_CtlNode m.(CtlNode_Uid) m.(CtlNode_Name) m.(CtlNode_Version) m.(CtlNode_NumClients) m.(CtlNode_NumUsers) m.(CtlNode_NumChannels) m.(CtlNode_Uptime) m.(CtlNode_Metrics) v m.(CtlNode_NumSubs) m.(CtlNode_unknownFields).
Definition CtlNode_set_NumSubs (v : Z) (m : pb_CtlNode) : pb_CtlNode :=
  mk_CtlNode m.(CtlNode_Uid) m.(CtlNode_Name) m.(CtlNode_Version) m.(CtlNode_NumClients) m.(CtlNode_NumUsers) m.(CtlNode_NumChannels) m.(CtlNode_Uptime) m.(CtlNode_Metrics) m.(CtlNode_Data) v m.(CtlNode_unknownFields).
Definition CtlNode_set_unknownFields (v : bytes) (m : pb_CtlNode) : pb_CtlNode :=
  mk_CtlNode m.(CtlNode_Uid) m.(CtlNode_Name) m.(CtlNode_Version) m.(CtlNode_NumClients) m.(CtlNode_NumUsers) m.(CtlNode_NumChannels) m.(CtlNode_Uptime) m.(CtlNode_Metrics) m.(CtlNode_Data) m.(CtlNode_NumSubs) v.
Definition new_CtlNode : pb_CtlNode := mk_CtlNode [] [] [] 0 0 0 0 None None 0 [].
Definition CtlNode_SizeVT (m : pb_CtlNode) : Z := sum_sizes [
  size_bytes m.(CtlNode_Uid);
  size_bytes m.(CtlNode_Name);
  size_bytes m.(CtlNode_Version);
  size_uint m.(CtlNode_NumClients);
  size_uint m.(CtlNode_NumUsers);
  size_uint m.(CtlNode_NumChannels);
  size_uint m.(CtlNode_Uptime);
  size_message CtlMetrics_SizeVT m.(CtlNode_Metrics);
  size_raw m.(CtlNode_Data);
  size_uint m.(CtlNode_NumSubs);
  zlen m.(CtlNode_unknownFields)].
Definition CtlNode_MarshalToSizedBufferVT (m : pb_CtlNode) : sized := to_sized [
  put_copy m.(CtlNode_unknownFields);
  put_uint 0x50 m.(CtlNode_NumSubs);
  put_raw 0x4a m.(CtlNode_Data);
  put_message 0x42 CtlMetrics_MarshalToSizedBufferVT m.(CtlNode_Metrics);
  put_uint 0x38 m.(CtlNode_Uptime);
  put_uint 0x30 m.(CtlNode_NumChannels);
  put_uint 0x28 m.(CtlNode_NumUsers);
  put_uint 0x20 m.(CtlNode_NumClients);
  put_bytes 0x1a m.(CtlNode_Version);
  put_bytes 0x12 m.(CtlNode_Name);
  put_bytes 0xa m.(CtlNode_Uid)].
Definition CtlNode_MarshalVT (m : pb_CtlNode) : outcome Empty_set bytes :=
  marshal (CtlNode_SizeVT m) (CtlNode_MarshalToSizedBufferVT m).
Definition CtlNode_UnmarshalVT : bytes -> pb_CtlNode -> outcome vt_error pb_CtlNode := unmarshal "Node" [
  mkCase 1 2 "Uid" (dec_string CtlNode_set_Uid);
  mkCase 2 2 "Name" (dec_string CtlNode_set_Name);
  mkCase 3 2 "Version" (dec_string CtlNode_set_Version);
  mkCase 4 0 "NumClients" (dec_uint wrap_u32 CtlNode_set_NumClients);
  mkCase 5 0 "NumUsers" (dec_uint wrap_u32 CtlNode_set_NumUsers);
  mkCase 6 0 "NumChannels" (dec_uint wrap_u32 CtlNode_set_NumChannels);
  mkCase 7 0 "Uptime" (dec_uint wrap_u32 CtlNode_set_Uptime);
  mkCase 8 2 "Metrics" (dec_message new_CtlMetrics CtlMetrics_UnmarshalVT CtlNode_Metrics CtlNode_set_Metrics);
  mkCase 9 2 "Data" (dec_raw CtlNode_set_Data);
  mkCase 10 0 "NumSubs" (dec_uint wrap_u32 CtlNode_set_NumSubs)]
  (fun u m => CtlNode_set_unknownFields (m.(CtlNode_unknownFields) ++ u) m).

Record pb_CtlUnsubscribe := mk_CtlUnsubscribe {
  CtlUnsubscribe_Channel : bytes;
  CtlUnsubscribe_User : bytes;
  CtlUnsubscribe_Client : bytes;
  CtlUnsubscribe_Session : bytes;
  CtlUnsubscribe_Code : Z;
  CtlUnsubscribe_Reason : bytes;
  CtlUnsubscribe_unknownFields : bytes
}.
Definition CtlUnsubscribe_set_Channel (v : bytes) (m : pb_CtlUnsubscribe) : pb_CtlUnsubscribe :=
  mk_CtlUnsubscribe v m.(CtlUnsubscribe_User) m.(CtlUnsubscribe_Client) m.(CtlUnsubscribe_Session) m.(CtlUnsubscribe_Code) m.(CtlUnsubscribe_Reason) m.(CtlUnsubscribe_unknownFields).
Definition CtlUnsubscribe_set_User (v : bytes) (m : pb_CtlUnsubscribe) : pb_CtlUnsubscribe :=
  mk_CtlUnsubscribe m.(CtlUnsubscribe_Channel) v m.(CtlUnsubscribe_Client) m.(CtlUnsubscribe_Session) m.(CtlUnsubscribe_Code) m.(CtlUnsubscribe_Reason) m.(CtlUnsubscribe_unknownFields).
Definition CtlUnsubscribe_set_Client (v : bytes) (m : pb_CtlUnsubscribe) : pb_CtlUnsubscribe :=
  mk_CtlUnsubscribe m.(CtlUnsubscribe_Channel) m.(CtlUnsubscribe_User) v m.(CtlUnsubscribe_Session) m.(CtlUnsubscribe_Code) m.(CtlUnsubscribe_Reason) m.(CtlUnsubscribe_unknownFields).
Definition CtlUnsubscribe_set_Session (v : bytes) (m : pb_CtlUnsubscribe) : pb_CtlUnsubscribe :=
  mk_CtlUnsubscribe m.(CtlUnsubscribe_Channel) m.(CtlUnsubscribe_User) m.(CtlUnsubscribe_Client) v m.(CtlUnsubscribe_Code) m.(CtlUnsubscribe_Reason) m.(CtlUnsubscribe_unknownFields).
Definition CtlUnsubscribe_set_Code (v : Z) (m : pb_CtlUnsubscribe) : pb_CtlUnsubscribe :=
  mk_CtlUnsubscribe m.(CtlUnsubscribe_Channel) m.(CtlUnsubscribe_User) m.(CtlUnsubscribe_Client) m.(CtlUnsubscribe_Session) v m.(CtlUnsubscribe_Reason) m.(CtlUnsubscribe_unknownFields).
Definition CtlUnsubscribe_set_Reason (v : bytes) (m : pb_CtlUnsubscribe) : pb_CtlUnsubscribe :=
  mk_CtlUnsubscribe m.(CtlUnsubscribe_Channel) m.(CtlUnsubscribe_User) m.(CtlUnsubscribe_Client) m.(CtlUnsubscribe_Session) m.(CtlUnsubscribe_Code) v m.(CtlUnsubscribe_unknownFields).
Definition CtlUnsubscribe_set_unknownFields (v : bytes) (m : pb_CtlUnsubscribe) : pb_CtlUnsubscribe :=
  mk_CtlUnsubscribe m.(CtlUnsubscribe_Channel) m.(CtlUnsubscribe_User) m.(CtlUnsubscribe_Client) m.(CtlUnsubscribe_Session) m.(CtlUnsubscribe_Code) m.(CtlUnsubscribe_Reason) v.
Definition new_CtlUnsubscribe : pb_CtlUnsubscribe := mk_CtlUnsubscribe [] [] [] [] 0 [] [].
Definition CtlUnsubscribe_SizeVT (m : pb_CtlUnsubscribe) : Z := sum_sizes [
  size_bytes m.(CtlUnsubscribe_Channel);
  size_bytes m.(CtlUnsubscribe_User);
  size_bytes m.(CtlUnsubscribe_Client);
  size_bytes m.(CtlUnsubscribe_Session);
  size_uint m.(CtlUnsubscribe_Code);
  size_bytes m.(CtlUnsubscribe_Reason);
  zlen m.(CtlUnsubscribe_unknownFields)].
Definition CtlUnsubscribe_MarshalToSizedBufferVT (m : pb_CtlUnsubscribe) : sized := to_sized [
  put_copy m.(CtlUnsubscribe_unknownFields);
  put_bytes 0x32 m.(CtlUnsubscribe_Reason);
  put_uint 0x28 m.(CtlUnsubscribe_Code);
  put_bytes 0x22 m.(CtlUnsubscribe_Session);
  put_bytes 0x1a m.(CtlUnsubscribe_Client);
  put_bytes 0x12 m.(CtlUnsubscribe_User);
  put_bytes 0xa m.(CtlUnsubscribe_Channel)].
Definition CtlUnsubscribe_MarshalVT (m : pb_CtlUnsubscribe) : outcome Empty_set bytes :=
  marshal (CtlUnsubscribe_SizeVT m) (CtlUnsubscribe_MarshalToSizedBufferVT m).
Definition CtlUnsubscribe_UnmarshalVT : bytes -> pb_CtlUnsubscribe -> outcome vt_error pb_CtlUnsubscribe := unmarshal "Unsubscribe" [
  mkCase 1 2 "Channel" (dec_string CtlUnsubscribe_set_Channel);
  mkCase 2 2 "User" (dec_string CtlUnsubscribe_set_User);
  mkCase 3 2 "Client" (dec_string CtlUnsubscribe_set_Client);
  mkCase 4 2 "Session" (dec_string CtlUnsubscribe_set_Session);
  mkCase 5 0 "Code" (dec_uint wrap_u32 CtlUnsubscribe_set_Code);
  mkCase 6 2 "Reason" (dec_string CtlUnsubscribe_set_Reason)]
  (fun u m => CtlUnsubscribe_set_unknownFields (m.(CtlUnsubscribe_unknownFields) ++ u) m).

Record pb_CtlDisconnect := mk_CtlDisconnect {
  CtlDisconnect_User : bytes;
  CtlDisconnect_Whitelist : list bytes;
  CtlDisconnect_Code : Z;
  CtlDisconnect_Reason : bytes;
  CtlDisconnect_Reconnect : bool;
  CtlDisconnect_Client : bytes;
  CtlDisconnect_Session : bytes;
  CtlDisconnect_unknownFields : bytes
}.
Definition CtlDisconnect_set_User (v : bytes) (m : pb_CtlDisconnect) : pb_CtlDisconnect :=
  mk_CtlDisconnect v m.(CtlDisconnect_Whitelist) m.(CtlDisconnect_Code) m.(CtlDisconnect_Reason) m.(CtlDisconnect_Reconnect) m.(CtlDisconnect_Client) m.(CtlDisconnect_Session) m.(CtlDisconnect_unknownFields).
Definition CtlDisconnect_set_Whitelist (v : list bytes) (m : pb_CtlDisconnect) : pb_CtlDisconnect :=
  mk_CtlDisconnect m.(CtlDisconnect_User) v m.(CtlDisconnect_Code) m.(CtlDisconnect_Reason) m.(CtlDisconnect_Reconnect) m.(CtlDisconnect_Client) m.(CtlDisconnect_Session) m.(CtlDisconnect_unknownFields).
Definition CtlDisconnect_set_Code (v : Z) (m : pb_CtlDisconnect) : pb_CtlDisconnect :=
  mk_CtlDisconnect m.(CtlDisconnect_User) m.(CtlDisconnect_Whitelist) v m.(CtlDisconnect_Reason) m.(CtlDisconnect_Reconnect) m.(CtlDisconnect_Client) m.(CtlDisconnect_Session) m.(CtlDisconnect_unknownFields).
Definition CtlDisconnect_set_Reason (v : bytes) (m : pb_CtlDisconnect) : pb_CtlDisconnect :=
  mk_CtlDisconnect m.(CtlDisconnect_User) m.(CtlDisconnect_Whitelist) m.(CtlDisconnect_Code) v m.(CtlDisconnect_Reconnect) m.(CtlDisconnect_Client) m.(CtlDisconnect_Session) m.(CtlDisconnect_unknownFields).
Definition CtlDisconnect_set_Reconnect (v : bool) (m : pb_CtlDisconnect) : pb_CtlDisconnect :=
  mk_CtlDisconnect m.(CtlDisconnect_User) m.(CtlDisconnect_Whitelist) m.(CtlDisconnect_Code) m.(CtlDisconnect_Reason) v m.(CtlDisconnect_Client) m.(CtlDisconnect_Session) m.(CtlDisconnect_unknownFields).
Definition CtlDisconnect_set_Client (v : bytes) (m : pb_CtlDisconnect) : pb_CtlDisconnect :=
  mk_CtlDisconnect m.(CtlDisconnect_User) m.(CtlDisconnect_Whitelist) m.(CtlDisconnect_Code) m.(CtlDisconnect_Reason) m.(CtlDisconnect_Reconnect) v m.(CtlDisconnect_Session) m.(CtlDisconnect_unknownFields).
Definition CtlDisconnect_set_Session (v : bytes) (m : pb_CtlDisconnect) : pb_CtlDisconnect :=
  mk_CtlDisconnect m.(CtlDisconnect_User) m.(CtlDisconnect_Whitelist) m.(CtlDisconnect_Code) m.(CtlDisconnect_Reason) m.(CtlDisconnect_Reconnect) m.(CtlDisconnect_Client) v m.(CtlDisconnect_unknownFields).
Definition CtlDisconnect_set_unknownFields (v : bytes) (m : pb_CtlDisconnect) : pb_CtlDisconnect :=
  mk_CtlDisconnect m.(CtlDisconnect_User) m.(CtlDisconnect_Whitelist) m.(CtlDisconnect_Code) m.(CtlDisconnect_Reason) m.(CtlDisconnect_Reconnect) m.(CtlDisconnect_Client) m.(CtlDisconnect_Session) v.
Definition new_CtlDisconnect : pb_CtlDisconnect := mk_CtlDisconnect [] [] 0 [] false [] [] [].
Definition CtlDisconnect_SizeVT (m : pb_CtlDisconnect) : Z := sum_sizes [
  size_bytes m.(CtlDisconnect_User);
  size_list m.(CtlDisconnect_Whitelist);
  size_uint m.(CtlDisconnect_Code);
  size_bytes m.(CtlDisconnect_Reason);
  size_bool m.(CtlDisconnect_Reconnect);
  size_bytes m.(CtlDisconnect_Client);
  size_bytes m.(CtlDisconnect_Session);
  zlen m.(CtlDisconnect_unknownFields)].
Definition CtlDisconnect_MarshalToSizedBufferVT (m : pb_CtlDisconnect) : sized := to_sized [
  put_copy m.(CtlDisconnect_unknownFields);
  put_bytes 0x3a m.(CtlDisconnect_Session);
  put_bytes 0x32 m.(CtlDisconnect_Client);
  put_bool 0x28 m.(CtlDisconnect_Reconnect);
  put_bytes 0x22 m.(CtlDisconnect_Reason);
  put_uint 0x18 m.(CtlDisconnect_Code);
  put_list 0x12 m.(CtlDisconnect_Whitelist);
  put_bytes 0xa m.(CtlDisconnect_User)].
Definition CtlDisconnect_MarshalVT (m : pb_CtlDisconnect) : outcome Empty_set bytes :=
  marshal (CtlDisconnect_SizeVT m) (CtlDisconnect_MarshalToSizedBufferVT m).
Definition CtlDisconnect_UnmarshalVT : bytes -> pb_CtlDisconnect -> outcome vt_error pb_CtlDisconnect := unmarshal "Disconnect" [
  mkCase 1 2 "User" (dec_string CtlDisconnect_set_User);
  mkCase 2 2 "Whitelist" (dec_list CtlDisconnect_Whitelist CtlDisconnect_set_Whitelist);
  mkCase 3 0 "Code" (dec_uint wrap_u32 CtlDisconnect_set_Code);
  mkCase 4 2 "Reason" (dec_string CtlDisconnect_set_Reason);
  mkCase 5 0 "Reconnect" (dec_bool CtlDisconnect_set_Reconnect);
  mkCase 6 2 "Client" (dec_string CtlDisconnect_set_Client);
  mkCase 7 2 "Session" (dec_string CtlDisconnect_set_Session)]
  (fun u m => CtlDisconnect_set_unknownFields (m.(CtlDisconnect_unknownFields) ++ u) m).

Record pb_CtlShutdown := mk_CtlShutdown {
  CtlShutdown_unknownFields : bytes
}.
Definition CtlShutdown_set_unknownFields (v : bytes) (m : pb_CtlShutdown) : pb_CtlShutdown :=
  mk_CtlShutdown v.
Definition new_CtlShutdown : pb_CtlShutdown := mk_CtlShutdown [].
Definition CtlShutdown_SizeVT (m : pb_CtlShutdown) : Z := sum_sizes [
  zlen m.(CtlShutdown_unknownFields)].
Definition CtlShutdown_MarshalToSizedBufferVT (m : pb_CtlShutdown) : sized := to_sized [
  put_copy m.(CtlShutdown_unknownFields)].
Definition CtlShutdown_MarshalVT (m : pb_CtlShutdown) : outcome Empty_set bytes :=
  marshal (CtlShutdown_SizeVT m) (CtlShutdown_MarshalToSizedBufferVT m).
Definition CtlShutdown_UnmarshalVT : bytes -> pb_CtlShutdown -> outcome vt_error pb_CtlShutdown := unmarshal "Shutdown" []
  (fun u m => CtlShutdown_set_unknownFields (m.(CtlShutdown_unknownFields) ++ u) m).

Record pb_CtlSurveyRequest := mk_CtlSurveyRequest {
  CtlSurveyRequest_Id : Z;
  CtlSurveyRequest_Op : bytes;
  CtlSurveyRequest_Data : option bytes;
  CtlSurveyRequest_unknownFields : bytes
}.
Definition CtlSurveyRequest_set_Id (v : Z) (m : pb_CtlSurveyRequest) : pb_CtlSurveyRequest :=
  mk_CtlSurveyRequest v m.(CtlSurveyRequest_Op) m.(CtlSurveyRequest_Data) m.(CtlSurveyRequest_unknownFields).
Definition CtlSurveyRequest_set_Op (v : bytes) (m : pb_CtlSurveyRequest) : pb_CtlSurveyRequest :=
  mk_CtlSurveyRequest m.(CtlSurveyRequest_Id) v m.(CtlSurveyRequest_Data) m.(CtlSurveyRequest_unknownFields).
Definition CtlSurveyRequest_set_Data (v : option bytes) (m : pb_CtlSurveyRequest) : pb_CtlSurveyRequest :=
  mk_CtlSurveyRequest m.(CtlSurveyRequest_Id) m.(CtlSurveyRequest_Op) v m.(CtlSurveyRequest_unknownFields).
Definition CtlSurveyRequest_set_unknownFields (v : bytes) (m : pb_CtlSurveyRequest) : pb_CtlSurveyRequest :=
  mk_CtlSurveyRequest m.(CtlSurveyRequest_Id) m.(CtlSurveyRequest_Op) m.(CtlSurveyRequest_Data) v.
Definition new_CtlSurveyRequest : pb_CtlSurveyRequest := mk_CtlSurveyRequest 0 [] None [].
Definition CtlSurveyRequest_SizeVT (m : pb_CtlSurveyRequest) : Z := sum_sizes [
  size_uint m.(CtlSurveyRequest_Id);
  size_bytes m.(CtlSurveyRequest_Op);
  size_raw m.(CtlSurveyRequest_Data);
  zlen m.(CtlSurveyRequest_unknownFields)].
Definition CtlSurveyRequest_MarshalToSizedBufferVT (m : pb_CtlSurveyRequest) : sized := to_sized [
  put_copy m.(CtlSurveyRequest_unknownFields);
  put_raw 0x1a m.(CtlSurveyRequest_Data);
  put_bytes 0x12 m.(CtlSurveyRequest_Op);
  put_uint 0x8 m.(CtlSurveyRequest_Id)].
Definition CtlSurveyRequest_MarshalVT (m : pb_CtlSurveyRequest) : outcome Empty_set bytes :=
  marshal (CtlSurveyRequest_SizeVT m) (CtlSurveyRequest_MarshalToSizedBufferVT m).
Definition CtlSurveyRequest_UnmarshalVT : bytes -> pb_CtlSurveyRequest -> outcome vt_error pb_CtlSurveyRequest := unmarshal "SurveyRequest" [
  mkCase 1 0 "Id" (dec_uint wrap_u64 CtlSurveyRequest_set_Id);
  mkCase 2 2 "Op" (dec_string CtlSurveyRequest_set_Op);
  mkCase 3 2 "Data" (dec_raw CtlSurveyRequest_set_Data)]
  (fun u m => CtlSurveyRequest_set_unknownFields (m.(CtlSurveyRequest_unknownFields) ++ u) m).

Record pb_CtlSurveyResponse := mk_CtlSurveyResponse {
  CtlSurveyResponse_Id : Z;
  CtlSurveyResponse_Code : Z;
  CtlSurveyResponse_Data : option bytes;
  CtlSurveyResponse_unknownFields : bytes
}.
Definition CtlSurveyResponse_set_Id (v : Z) (m : pb_CtlSurveyResponse) : pb_CtlSurveyResponse :=
  mk_CtlSurveyResponse v m.(CtlSurveyResponse_Code) m.(CtlSurveyResponse_Data) m.(CtlSurveyResponse_unknownFields).
Definition CtlSurveyResponse_set_Code (v : Z) (m : pb_CtlSurveyResponse) : pb_CtlSurveyResponse :=
  mk_CtlSurveyResponse m.(CtlSurveyResponse_Id) v m.(CtlSurveyResponse_Data) m.(CtlSurveyResponse_unknownFields).
Definition CtlSurveyResponse_set_Data (v : option bytes) (m : pb_CtlSurveyResponse) : pb_CtlSurveyResponse :=
  mk_CtlSurveyResponse m.(CtlSurveyResponse_Id) m.(CtlSurveyResponse_Code) v m.(CtlSurveyResponse_unknownFields).
Definition CtlSurveyResponse_set_unknownFields (v : bytes) (m : pb_CtlSurveyResponse) : pb_CtlSurveyResponse :=
  mk_CtlSurveyResponse m.(CtlSurveyResponse_Id) m.(CtlSurveyResponse_Code) m.(CtlSurveyResponse_Data) v.
Definition new_CtlSurveyResponse : pb_CtlSurveyResponse := mk_CtlSurveyResponse 0 0 None [].
Definition CtlSurveyResponse_SizeVT (m : pb_CtlSurveyResponse) : Z := sum_sizes [
  size_uint m.(CtlSurveyResponse_Id);
  size_uint m.(CtlSurveyResponse_Code);
  size_raw m.(CtlSurveyResponse_Data);
  zlen m.(CtlSurveyResponse_unknownFields)].
Definition CtlSurveyResponse_MarshalToSizedBufferVT (m : pb_CtlSurveyResponse) : sized := to_sized [
  put_copy m.(CtlSurveyResponse_unknownFields);
  put_raw 0x1a m.(CtlSurveyResponse_Data);
  put_uint 0x10 m.(CtlSurveyResponse_Code);
  put_uint 0x8 m.(CtlSurveyResponse_Id)].
Definition CtlSurveyResponse_MarshalVT (m : pb_CtlSurveyResponse) : outcome Empty_set bytes :=
  marshal (CtlSurveyResponse_SizeVT m) (CtlSurveyResponse_MarshalToSizedBufferVT m).
Definition CtlSurveyResponse_UnmarshalVT : bytes -> pb_CtlSurveyResponse -> outcome vt_error pb_CtlSurveyResponse := unmarshal "SurveyResponse" [
  mkCase 1 0 "Id" (dec_uint wrap_u64 CtlSurveyResponse_set_Id);
  mkCase 2 0 "Code" (dec_uint wrap_u32 CtlSurveyResponse_set_Code);
  mkCase 3 2 "Data" (dec_raw CtlSurveyResponse_set_Data)]
  (fun u m => CtlSurveyResponse_set_unknownFields (m.(CtlSurveyResponse_unknownFields) ++ u) m).

Record pb_CtlStreamPosition := mk_CtlStreamPosition {
  CtlStreamPosition_Offset : Z;
  CtlStreamPosition_Epoch : bytes;
  CtlStreamPosition_unknownFields : bytes
}.
Definition CtlStreamPosition_set_Offset (v : Z) (m : pb_CtlStreamPosition) : pb_CtlStreamPosition :=
  mk_CtlStreamPosition v m.(CtlStreamPosition_Epoch) m.(CtlStreamPosition_unknownFields).
Definition CtlStreamPosition_set_Epoch (v : bytes) (m : pb_CtlStreamPosition) : pb_CtlStreamPosition :=
  mk_CtlStreamPosition m.(CtlStreamPosition_Offset) v m.(CtlStreamPosition_unknownFields).
Definition CtlStreamPosition_set_unknownFields (v : bytes) (m : pb_CtlStreamPosition) : pb_CtlStreamPosition :=
  mk_CtlStreamPosition m.(CtlStreamPosition_Offset) m.(CtlStreamPosition_Epoch) v.
Definition new_CtlStreamPosition : pb_CtlStreamPosition := mk_CtlStreamPosition 0 [] [].
Definition CtlStreamPosition_SizeVT (m : pb_CtlStreamPosition) : Z := sum_sizes [
  size_uint m.(CtlStreamPosition_Offset);
  size_bytes m.(CtlStreamPosition_Epoch);
  zlen m.(CtlStreamPosition_unknownFields)].
Definition CtlStreamPosition_MarshalToSizedBufferVT (m : pb_CtlStreamPosition) : sized := to_sized [
  put_copy m.(CtlStreamPosition_unknownFields);
  put_bytes 0x12 m.(CtlStreamPosition_Epoch);
  put_uint 0x8 m.(CtlStreamPosition_Offset)].
Definition CtlStreamPosition_MarshalVT (m : pb_CtlStreamPosition) : outcome Empty_set bytes :=
  marshal (CtlStreamPosition_SizeVT m) (CtlStreamPosition_MarshalToSizedBufferVT m).
Definition CtlStreamPosition_UnmarshalVT : bytes -> pb_CtlStreamPosition -> outcome vt_error pb_CtlStreamPosition := unmarshal "StreamPosition" [
  mkCase 1 0 "Offset" (dec_uint wrap_u64 CtlStreamPosition_set_Offset);
  mkCase 2 2 "Epoch" (dec_string CtlStreamPosition_set_Epoch)]
  (fun u m => CtlStreamPosition_set_unknownFields (m.(CtlStreamPosition_unknownFields) ++ u) m).

Record pb_CtlSubscribe := mk_CtlSubscribe {
  CtlSubscribe_User : bytes;
  CtlSubscribe_Channel : bytes;
  CtlSubscribe_EmitPresence : bool;
  CtlSubscribe_EmitJoinLeave : bool;
  CtlSubscribe_ExpireAt : Z;
  CtlSubscribe_Position : bool;
  CtlSubscribe_Recover : bool;
  CtlSubscribe_ChannelInfo : option bytes;
  CtlSubscribe_Client : bytes;
  CtlSubscribe_Data : option bytes;
  CtlSubscribe_RecoverSince : option pb_CtlStreamPosition;
  CtlSubscribe_Session : bytes;
  CtlSubscribe_PushJoinLeave : bool;
  CtlSubscribe_Source : Z;
  CtlSubscribe_unknownFields : bytes
}.
Definition CtlSubscribe_set_User (v : bytes) (m : pb_CtlSubscribe) : pb_CtlSubscribe :=
  mk_CtlSubscribe v m.(CtlSubscribe_Channel) m.(CtlSubscribe_EmitPresence) m.(CtlSubscribe_EmitJoinLeave) m.(CtlSubscribe_ExpireAt) m.(CtlSubscribe_Position) m.(CtlSubscribe_Recover) m.(CtlSubscribe_ChannelInfo) m.(CtlSubscribe_Client) m.(CtlSubscribe_Data) m.(CtlSubscribe_RecoverSince) m.(CtlSubscribe_Session) m.(CtlSubscribe_PushJoinLeave) m.(CtlSubscribe_Source) m.(CtlSubscribe_unknownFields).
Definition CtlSubscribe_set_Channel (v : bytes) (m : pb_CtlSubscribe) : pb_CtlSubscribe :=
  mk_CtlSubscribe m.(CtlSubscribe_User) v m.(CtlSubscribe_EmitPresence) m.(CtlSubscribe_EmitJoinLeave) m.(CtlSubscribe_ExpireAt) m.(CtlSubscribe_Position) m.(CtlSubscribe_Recover) m.(CtlSubscribe_ChannelInfo) m.(CtlSubscribe_Client) m.(CtlSubscribe_Data) m.(CtlSubscribe_RecoverSince) m.(CtlSubscribe_Session) m.(CtlSubscribe_PushJoinLeave) m.(CtlSubscribe_Source) m.(CtlSubscribe_unknownFields).
Definition CtlSubscribe_set_EmitPresence (v : bool) (m : pb_CtlSubscribe) : pb_CtlSubscribe :=
  mk_CtlSubscribe m.(CtlSubscribe_User) m.(CtlSubscribe_Channel) v m.(CtlSubscribe_EmitJoinLeave) m.(CtlSubscribe_ExpireAt) m.(CtlSubscribe_Position) m.(CtlSubscribe_Recover) m.(CtlSubscribe_ChannelInfo) m.(CtlSubscribe_Client) m.(CtlSubscribe_Data) m.(CtlSubscribe_RecoverSince) m.(CtlSubscribe_Session) m.(CtlSubscribe_PushJoinLeave) m.(CtlSubscribe_Source) m.(CtlSubscribe_unknownFields).
Definition CtlSubscribe_set_EmitJoinLeave (v : bool) (m : pb_CtlSubscribe) : pb_CtlSubscribe :=
  mk_CtlSubscribe m.(CtlSubscribe_User) m.(CtlSubscribe_Channel) m.(CtlSubscribe_EmitPresence) v m.(CtlSubscribe_ExpireAt) m.(CtlSubscribe_Position) m.(CtlSubscribe_Recover) m.(CtlSubscribe_ChannelInfo) m.(CtlSubscribe_Client) m.(CtlSubscribe_Data) m.(CtlSubscribe_RecoverSince) m.(CtlSubscribe_Session) m.(CtlSubscribe_PushJoinLeave) m.(CtlSubscribe_Source) m.(CtlSubscribe_unknownFields).
Definition CtlSubscribe_set_ExpireAt (v : Z) (m : pb_CtlSubscribe) : pb_CtlSubscribe :=
  mk_CtlSubscribe m.(CtlSubscribe_User) m.(CtlSubscribe_Channel) m.(CtlSubscribe_EmitPresence) m.(CtlSubscribe_EmitJoinLeave) v m.(CtlSubscribe_Position) m.(CtlSubscribe_Recover) m.(CtlSubscribe_ChannelInfo) m.(CtlSubscribe_Client) m.(CtlSubscribe_Data) m.(CtlSubscribe_RecoverSince) m.(CtlSubscribe_Session) m.(CtlSubscribe_PushJoinLeave) m.(CtlSubscribe_Source) m.(CtlSubscribe_unknownFields).
Definition CtlSubscribe_set_Position (v : bool) (m : pb_CtlSubscribe) : pb_CtlSubscribe :=
  mk_CtlSubscribe m.(CtlSubscribe_User) m.(CtlSubscribe_Channel) m.(CtlSubscribe_EmitPresence) m.(CtlSubscribe_EmitJoinLeave) m.(CtlSubscribe_ExpireAt) v m.(CtlSubscribe_Recover) m.(CtlSubscribe_ChannelInfo) m.(CtlSubscribe_Client) m.(CtlSubscribe_Data) m.(CtlSubscribe_RecoverSince) m.(CtlSubscribe_Session) m.(CtlSubscribe_PushJoinLeave) m.(CtlSubscribe_Source) m.(CtlSubscribe_unknownFields).
Definition CtlSubscribe_set_Recover (v : bool) (m : pb_CtlSubscribe) : pb_CtlSubscribe :=
  mk_CtlSubscribe m.(CtlSubscribe_User) m.(CtlSubscribe_Channel) m.(CtlSubscribe_EmitPresence) m.(CtlSubscribe_EmitJoinLeave) m.(CtlSubscribe_ExpireAt) m.(CtlSubscribe_Position) v m.(CtlSubscribe_ChannelInfo) m.(CtlSubscribe_Client) m.(CtlSubscribe_Data) m.(CtlSubscribe_RecoverSince) m.(CtlSubscribe_Session) m.(CtlSubscribe_PushJoinLeave) m.(CtlSubscribe_Source) m.(CtlSubscribe_unknownFields).
Definition CtlSubscribe_set_ChannelInfo (v : option bytes) (m : pb_CtlSubscribe) : pb_CtlSubscribe :=
  mk_CtlSubscribe m.(CtlSubscribe_User) m.(CtlSubscribe_Channel) m.(CtlSubscribe_EmitPresence) m.(CtlSubscribe_EmitJoinLeave) m.(CtlSubscribe_ExpireAt) m.(CtlSubscribe_Position) m.(CtlSubscribe_Recover) v m.(CtlSubscribe_Client) m.(CtlSubscribe_Data) m.(CtlSubscribe_RecoverSince) m.(CtlSubscribe_Session) m.(CtlSubscribe_PushJoinLeave) m.(CtlSubscribe_Source) m.(CtlSubscribe_unknownFields).
Definition CtlSubscribe_set_Client (v : bytes) (m : pb_CtlSubscribe) : pb_CtlSubscribe :=
  mk_CtlSubscribe m.(CtlSubscribe_User) m.(CtlSubscribe_Channel) m.(CtlSubscribe_EmitPresence) m.(CtlSubscribe_EmitJoinLeave) m.(CtlSubscribe_ExpireAt) m.(CtlSubscribe_Position) m.(CtlSubscribe_Recover) m.(CtlSubscribe_ChannelInfo) v m.(CtlSubscribe_Data) m.(CtlSubscribe_RecoverSince) m.(CtlSubscribe_Session) m.(CtlSubscribe_PushJoinLeave) m.(CtlSubscribe_Source) m.(CtlSubscribe_unknownFields).
Definition CtlSubscribe_set_Data (v : option bytes) (m : pb_CtlSubscribe) : pb_CtlSubscribe :=
  mk_CtlSubscribe m.(CtlSubscribe_User) m.(CtlSubscribe_Channel) m.(CtlSubscribe_EmitPresence) m.(CtlSubscribe_EmitJoinLeave) m.(CtlSubscribe_ExpireAt) m.(CtlSubscribe_Position) m.(CtlSubscribe_Recover) m.(CtlSubscribe_ChannelInfo) m.(CtlSubscribe_Client) v m.(CtlSubscribe_RecoverSince) m.(CtlSubscribe_Session) m.(CtlSubscribe_PushJoinLeave) m.(CtlSubscribe_Source) m.(CtlSubscribe_unknownFields).
Definition CtlSubscribe_set_RecoverSince (v : option pb_CtlStreamPosition) (m : pb_CtlSubscribe) : pb_CtlSubscribe :=
  mk_CtlSubscribe m.(CtlSubscribe_User) m.(CtlSubscribe_Channel) m.(CtlSubscribe_EmitPresence) m.(CtlSubscribe_EmitJoinLeave) m.(CtlSubscribe_ExpireAt) m.(CtlSubscribe_Position) m.(CtlSubscribe_Recover) m.(CtlSubscribe_ChannelInfo) m.(CtlSubscribe_Client) m.(CtlSubscribe_Data) v m.(CtlSubscribe_Session) m.(CtlSubscribe_PushJoinLeave) m.(CtlSubscribe_Source) m.(CtlSubscribe_unknownFields).
Definition CtlSubscribe_set_Session (v : bytes) (m : pb_CtlSubscribe) : pb_CtlSubscribe :=
  mk_CtlSubscribe m.(CtlSubscribe_User) m.(CtlSubscribe_Channel) m.(CtlSubscribe_EmitPresence) m.(CtlSubscribe_EmitJoinLeave) m.(CtlSubscribe_ExpireAt) m.(CtlSubscribe_Position) m.(CtlSubscribe_Recover) m.(CtlSubscribe_ChannelInfo) m.(CtlSubscribe_Client) m.(CtlSubscribe_Data) m.(CtlSubscribe_RecoverSince) v m.(CtlSubscribe_PushJoinLeave) m.(CtlSubscribe_Source) m.(CtlSubscribe_unknownFields).
Definition CtlSubscribe_set_PushJoinLeave (v : bool) (m : pb_CtlSubscribe) : pb_CtlSubscribe :=
  mk_CtlSubscribe m.(CtlSubscribe_User) m.(CtlSubscribe_Channel) m.(CtlSubscribe_EmitPresence) m.(CtlSubscribe_EmitJoinLeave) m.(CtlSubscribe_ExpireAt) m.(CtlSubscribe_Position) m.(CtlSubscribe_Recover) m.(CtlSubscribe_ChannelInfo) m.(CtlSubscribe_Client) m.(CtlSubscribe_Data) m.(CtlSubscribe_RecoverSince) m.(CtlSubscribe_Session) v m.(CtlSubscribe_Source) m.(CtlSubscribe_unknownFields).
Definition CtlSubscribe_set_Source (v : Z) (m : pb_CtlSubscribe) : pb_CtlSubscribe :=
  mk_CtlSubscribe m.(CtlSubscribe_User) m.(CtlSubscribe_Channel) m.(CtlSubscribe_EmitPresence) m.(CtlSubscribe_EmitJoinLeave) m.(CtlSubscribe_ExpireAt) m.(CtlSubscribe_Position) m.(CtlSubscribe_Recover) m.(CtlSubscribe_ChannelInfo) m.(CtlSubscribe_Client) m.(CtlSubscribe_Data) m.(CtlSubscribe_RecoverSince) m.(CtlSubscribe_Session) m.(CtlSubscribe_PushJoinLeave) v m.(CtlSubscribe_unknownFields).
Definition CtlSubscribe_set_unknownFields (v : bytes) (m : pb_CtlSubscribe) : pb_CtlSubscribe :=
  mk_CtlSubscribe m.(CtlSubscribe_User) m.(CtlSubscribe_Channel) m.(CtlSubscribe_EmitPresence) m.(CtlSubscribe_EmitJoinLeave) m.(CtlSubscribe_ExpireAt) m.(CtlSubscribe_Position) m.(CtlSubscribe_Recover) m.(CtlSubscribe_ChannelInfo) m.(CtlSubscribe_Client) m.(CtlSubscribe_Data) m.(CtlSubscribe_RecoverSince) m.(CtlSubscribe_Session) m.(CtlSubscribe_PushJoinLeave) m.(CtlSubscribe_Source) v.
Definition new_CtlSubscribe : pb_CtlSubscribe := mk_CtlSubscribe [] [] false false 0 false false None [] None None [] false 0 [].
Definition CtlSubscribe_SizeVT (m : pb_CtlSubscribe) : Z := sum_sizes [
  size_bytes m.(CtlSubscribe_User);
  size_bytes m.(CtlSubscribe_Channel);
  size_bool m.(CtlSubscribe_EmitPresence);
  size_bool m.(CtlSubscribe_EmitJoinLeave);
  size_int m.(CtlSubscribe_ExpireAt);
  size_bool m.(CtlSubscribe_Position);
  size_bool m.(CtlSubscribe_Recover);
  size_raw m.(CtlSubscribe_ChannelInfo);
  size_bytes m.(CtlSubscribe_Client);
  size_raw m.(CtlSubscribe_Data);
  size_message CtlStreamPosition_SizeVT m.(CtlSubscribe_RecoverSince);
  size_bytes m.(CtlSubscribe_Session);
  size_bool m.(CtlSubscribe_PushJoinLeave);
  size_uint m.(CtlSubscribe_Source);
  zlen m.(CtlSubscribe_unknownFields)].
Definition CtlSubscribe_MarshalToSizedBufferVT (m : pb_CtlSubscribe) : sized := to_sized [
  put_copy m.(CtlSubscribe_unknownFields);
  put_uint 0x70 m.(CtlSubscribe_Source);
  put_bool 0x68 m.(CtlSubscribe_PushJoinLeave);
  put_bytes 0x62 m.(CtlSubscribe_Session);
  put_message 0x5a CtlStreamPosition_MarshalToSizedBufferVT m.(CtlSubscribe_RecoverSince);
  put_raw 0x52 m.(CtlSubscribe_Data);
  put_bytes 0x4a m.(CtlSubscribe_Client);
  put_raw 0x42 m.(CtlSubscribe_ChannelInfo);
  put_bool 0x38 m.(CtlSubscribe_Recover);
  put_bool 0x30 m.(CtlSubscribe_Position);
  put_int 0x28 m.(CtlSubscribe_ExpireAt);
  put_bool 0x20 m.(CtlSubscribe_EmitJoinLeave);
  put_bool 0x18 m.(CtlSubscribe_EmitPresence);
  put_bytes 0x12 m.(CtlSubscribe_Channel);
  put_bytes 0xa m.(CtlSubscribe_User)].
Definition CtlSubscribe_MarshalVT (m : pb_CtlSubscribe) : outcome Empty_set bytes :=
  marshal (CtlSubscribe_SizeVT m) (CtlSubscribe_MarshalToSizedBufferVT m).
Definition CtlSubscribe_UnmarshalVT : bytes -> pb_CtlSubscribe -> outcome vt_error pb_CtlSubscribe := unmarshal "Subscribe" [
  mkCase 1 2 "User" (dec_string CtlSubscribe_set_User);
  mkCase 2 2 "Channel" (dec_string CtlSubscribe_set_Channel);
  mkCase 3 0 "EmitPresence" (dec_bool CtlSubscribe_set_EmitPresence);
  mkCase 4 0 "EmitJoinLeave" (dec_bool CtlSubscribe_set_EmitJoinLeave);
  mkCase 5 0 "ExpireAt" (dec_uint wrap_i64 CtlSubscribe_set_ExpireAt);
  mkCase 6 0 "Position" (dec_bool CtlSubscribe_set_Position);
  mkCase 7 0 "Recover" (dec_bool CtlSubscribe_set_Recover);
  mkCase 8 2 "ChannelInfo" (dec_raw CtlSubscribe_set_ChannelInfo);
  mkCase 9 2 "Client" (dec_string CtlSubscribe_set_Client);
  mkCase 10 2 "Data" (dec_raw CtlSubscribe_set_Data);
  mkCase 11 2 "RecoverSince" (dec_message new_CtlStreamPosition CtlStreamPosition_UnmarshalVT CtlSubscribe_RecoverSince CtlSubscribe_set_RecoverSince);
  mkCase 12 2 "Session" (dec_string CtlSubscribe_set_Session);
  mkCase 13 0 "PushJoinLeave" (dec_bool CtlSubscribe_set_PushJoinLeave);
  mkCase 14 0 "Source" (dec_uint wrap_u32 CtlSubscribe_set_Source)]
  (fun u m => CtlSubscribe_set_unknownFields (m.(CtlSubscribe_unknownFields) ++ u) m).

Record pb_CtlNotification := mk_CtlNotification {
  CtlNotification_Op : bytes;
  CtlNotification_Data : option bytes;
  CtlNotification_unknownFields : bytes
}.
Definition CtlNotification_set_Op (v : bytes) (m : pb_CtlNotification) : pb_CtlNotification :=
  mk_CtlNotification v m.(CtlNotification_Data) m.(CtlNotification_unknownFields).
Definition CtlNotification_set_Data (v : option bytes) (m : pb_CtlNotification) : pb_CtlNotification :=
  mk_CtlNotification m.(CtlNotification_Op) v m.(CtlNotification_unknownFields).
Definition CtlNotification_set_unknownFields (v : bytes) (m : pb_CtlNotification) : pb_CtlNotification :=
  mk_CtlNotification m.(CtlNotification_Op) m.(CtlNotification_Data) v.
Definition new_CtlNotification : pb_CtlNotification := mk_CtlNotification [] None [].
Definition CtlNotification_SizeVT (m : pb_CtlNotification) : Z := sum_sizes [
  size_bytes m.(CtlNotification_Op);
  size_raw m.(CtlNotification_Data);
  zlen m.(CtlNotification_unknownFields)].
Definition CtlNotification_MarshalToSizedBufferVT (m : pb_CtlNotification) : sized := to_sized [
  put_copy m.(CtlNotification_unknownFields);
  put_raw 0x12 m.(CtlNotification_Data);
  put_bytes 0xa m.(CtlNotification_Op)].
Definition CtlNotification_MarshalVT (m : pb_CtlNotification) : outcome Empty_set bytes :=
  marshal (CtlNotification_SizeVT m) (CtlNotification_MarshalToSizedBufferVT m).
Definition CtlNotification_UnmarshalVT : bytes -> pb_CtlNotification -> outcome vt_error pb_CtlNotification := unmarshal "Notification" [
  mkCase 1 2 "Op" (dec_string CtlNotification_set_Op);
  mkCase 2 2 "Data" (dec_raw CtlNotification_set_Data)]
  (fun u m => CtlNotification_set_unknownFields (m.(CtlNotification_unknownFields) ++ u) m).

Record pb_CtlRefresh := mk_CtlRefresh {
  CtlRefresh_User : bytes;
  CtlRefresh_Client : bytes;
  CtlRefresh_Expired : bool;
  CtlRefresh_ExpireAt : Z;
  CtlRefresh_Info : option bytes;
  CtlRefresh_Session : bytes;
  CtlRefresh_unknownFields : bytes
}.
Definition CtlRefresh_set_User (v : bytes) (m : pb_CtlRefresh) : pb_CtlRefresh :=
  mk_CtlRefresh v m.(CtlRefresh_Client) m.(CtlRefresh_Expired) m.(CtlRefresh_ExpireAt) m.(CtlRefresh_Info) m.(CtlRefresh_Session) m.(CtlRefresh_unknownFields).
Definition CtlRefresh_set_Client (v : bytes) (m : pb_CtlRefresh) : pb_CtlRefresh :=
  mk_CtlRefresh m.(CtlRefresh_User) v m.(CtlRefresh_Expired) m.(CtlRefresh_ExpireAt) m.(CtlRefresh_Info) m.(CtlRefresh_Session) m.(CtlRefresh_unknownFields).
Definition CtlRefresh_set_Expired (v : bool) (m : pb_CtlRefresh) : pb_CtlRefresh :=
  mk_CtlRefresh m.(CtlRefresh_User) m.(CtlRefresh_Client) v m.(CtlRefresh_ExpireAt) m.(CtlRefresh_Info) m.(CtlRefresh_Session) m.(CtlRefresh_unknownFields).
Definition CtlRefresh_set_ExpireAt (v : Z) (m : pb_CtlRefresh) : pb_CtlRefresh :=
  mk_CtlRefresh m.(CtlRefresh_User) m.(CtlRefresh_Client) m.(CtlRefresh_Expired) v m.(CtlRefresh_Info) m.(CtlRefresh_Session) m.(CtlRefresh_unknownFields).
Definition CtlRefresh_set_Info (v : option bytes) (m : pb_CtlRefresh) : pb_CtlRefresh :=
  mk_CtlRefresh m.(CtlRefresh_User) m.(CtlRefresh_Client) m.(CtlRefresh_Expired) m.(CtlRefresh_ExpireAt) v m.(CtlRefresh_Session) m.(CtlRefresh_unknownFields).
Definition CtlRefresh_set_Session (v : bytes) (m : pb_CtlRefresh) : pb_CtlRefresh :=
  mk_CtlRefresh m.(CtlRefresh_User) m.(CtlRefresh_Client) m.(CtlRefresh_Expired) m.(CtlRefresh_ExpireAt) m.(CtlRefresh_Info) v m.(CtlRefresh_unknownFields).
Definition CtlRefresh_set_unknownFields (v : bytes) (m : pb_CtlRefresh) : pb_CtlRefresh :=
  mk_CtlRefresh m.(CtlRefresh_User) m.(CtlRefresh_Client) m.(CtlRefresh_Expired) m.(CtlRefresh_ExpireAt) m.(CtlRefresh_Info) m.(CtlRefresh_Session) v.
Definition new_CtlRefresh : pb_CtlRefresh := mk_CtlRefresh [] [] false 0 None [] [].
Definition CtlRefresh_SizeVT (m : pb_CtlRefresh) : Z := sum_sizes [
  size_bytes m.(CtlRefresh_User);
  size_bytes m.(CtlRefresh_Client);
  size_bool m.(CtlRefresh_Expired);
  size_int m.(CtlRefresh_ExpireAt);
  size_raw m.(CtlRefresh_Info);
  size_bytes m.(CtlRefresh_Session);
  zlen m.(CtlRefresh_unknownFields)].
Definition CtlRefresh_MarshalToSizedBufferVT (m : pb_CtlRefresh) : sized := to_sized [
  put_copy m.(CtlRefresh_unknownFields);
  put_bytes 0x32 m.(CtlRefresh_Session);
  put_raw 0x2a m.(CtlRefresh_Info);
  put_int 0x20 m.(CtlRefresh_ExpireAt);
  put_bool 0x18 m.(CtlRefresh_Expired);
  put_bytes 0x12 m.(CtlRefresh_Client);
  put_bytes 0xa m.(CtlRefresh_User)].
Definition CtlRefresh_MarshalVT (m : pb_CtlRefresh) : outcome Empty_set bytes :=
  marshal (CtlRefresh_SizeVT m) (CtlRefresh_MarshalToSizedBufferVT m).
Definition CtlRefresh_UnmarshalVT : bytes -> pb_CtlRefresh -> outcome vt_error pb_CtlRefresh := unmarshal "Refresh" [
  mkCase 1 2 "User" (dec_string CtlRefresh_set_User);
  mkCase 2 2 "Client" (dec_string CtlRefresh_set_Client);
  mkCase 3 0 "Expired" (dec_bool CtlRefresh_set_Expired);
  mkCase 4 0 "ExpireAt" (dec_uint wrap_i64 CtlRefresh_set_ExpireAt);
  mkCase 5 2 "Info" (dec_raw CtlRefresh_set_Info);
  mkCase 6 2 "Session" (dec_string CtlRefresh_set_Session)]
  (fun u m => CtlRefresh_set_unknownFields (m.(CtlRefresh_unknownFields) ++ u) m).

Record pb_CtlCommand := mk_CtlCommand {
  CtlCommand_Uid : bytes;
  CtlCommand_Node : option pb_CtlNode;
  CtlCommand_Unsubscribe : option pb_CtlUnsubscribe;
  CtlCommand_Disconnect : option pb_CtlDisconnect;
  CtlCommand_Shutdown : option pb_CtlShutdown;
  CtlCommand_SurveyRequest : option pb_CtlSurveyRequest;
  CtlCommand_SurveyResponse : option pb_CtlSurveyResponse;
  CtlCommand_Subscribe : option pb_CtlSubscribe;
  CtlCommand_Notification : option pb_CtlNotification;
  CtlCommand_Refresh : option pb_CtlRefresh;
  CtlCommand_unknownFields : bytes
}.
Definition CtlCommand_set_Uid (v : bytes) (m : pb_CtlCommand) : pb_CtlCommand :=
  mk_CtlCommand v m.(CtlCommand_Node) m.(CtlCommand_Unsubscribe) m.(CtlCommand_Disconnect) m.(CtlCommand_Shutdown) m.(CtlCommand_SurveyRequest) m.(CtlCommand_SurveyResponse) m.(CtlCommand_Subscribe) m.(CtlCommand_Notification) m.(CtlCommand_Refresh) m.(CtlCommand_unknownFields).
Definition CtlCommand_set_Node (v : option pb_CtlNode) (m : pb_CtlCommand) : pb_CtlCommand :=
  mk_CtlCommand m.(CtlCommand_Uid) v m.(CtlCommand_Unsubscribe) m.(CtlCommand_Disconnect) m.(CtlCommand_Shutdown) m.(CtlCommand_SurveyRequest) m.(CtlCommand_SurveyResponse) m.(CtlCommand_Subscribe) m.(CtlCommand_Notification) m.(CtlCommand_Refresh) m.(CtlCommand_unknownFields).
Definition CtlCommand_set_Unsubscribe (v : option pb_CtlUnsubscribe) (m : pb_CtlCommand) : pb_CtlCommand :=
  mk_CtlCommand m.(CtlCommand_Uid) m.(CtlCommand_Node) v m.(CtlCommand_Disconnect) m.(CtlCommand_Shutdown) m.(CtlCommand_SurveyRequest) m.(CtlCommand_SurveyResponse) m.(CtlCommand_Subscribe) m.(CtlCommand_Notification) m.(CtlCommand_Refresh) m.(CtlCommand_unknownFields).
Definition CtlCommand_set_Disconnect (v : option pb_CtlDisconnect) (m : pb_CtlCommand) : pb_CtlCommand :=
  mk_CtlCommand m.(CtlCommand_Uid) m.(CtlCommand_Node) m.(CtlCommand_Unsubscribe) v m.(CtlCommand_Shutdown) m.(CtlCommand_SurveyRequest) m.(CtlCommand_SurveyResponse) m.(CtlCommand_Subscribe) m.(CtlCommand_Notification) m.(CtlCommand_Refresh) m.(CtlCommand_unknownFields).
Definition CtlCommand_set_Shutdown (v : option pb_CtlShutdown) (m : pb_CtlCommand) : pb_CtlCommand :=
  mk_CtlCommand m.(CtlCommand_Uid) m.(CtlCommand_Node) m.(CtlCommand_Unsubscribe) m.(CtlCommand_Disconnect) v m.(CtlCommand_SurveyRequest) m.(CtlCommand_SurveyResponse) m.(CtlCommand_Subscribe) m.(CtlCommand_Notification) m.(CtlCommand_Refresh) m.(CtlCommand_unknownFields).
Definition CtlCommand_set_SurveyRequest (v : option pb_CtlSurveyRequest) (m : pb_CtlCommand) : pb_CtlCommand :=
  mk_CtlCommand m.(CtlCommand_Uid) m.(CtlCommand_Node) m.(CtlCommand_Unsubscribe) m.(CtlCommand_Disconnect) m.(CtlCommand_Shutdown) v m.(CtlCommand_SurveyResponse) m.(CtlCommand_Subscribe) m.(CtlCommand_Notification) m.(CtlCommand_Refresh) m.(CtlCommand_unknownFields).
Definition CtlCommand_set_SurveyResponse (v : option pb_CtlSurveyResponse) (m : pb_CtlCommand) : pb_CtlCommand :=
  mk_CtlCommand m.(CtlCommand_Uid) m.(CtlCommand_Node) m.(CtlCommand_Unsubscribe) m.(CtlCommand_Disconnect) m.(CtlCommand_Shutdown) m.(CtlCommand_SurveyRequest) v m.(CtlCommand_Subscribe) m.(CtlCommand_Notification) m.(CtlCommand_Refresh) m.(CtlCommand_unknownFields).
Definition CtlCommand_set_Subscribe (v : option pb_CtlSubscribe) (m : pb_CtlCommand) : pb_CtlCommand :=
  mk_CtlCommand m.(CtlCommand_Uid) m.(CtlCommand_Node) m.(CtlCommand_Unsubscribe) m.(CtlCommand_Disconnect) m.(CtlCommand_Shutdown) m.(CtlCommand_SurveyRequest) m.(CtlCommand_SurveyResponse) v m.(CtlCommand_Notification) m.(CtlCommand_Refresh) m.(CtlCommand_unknownFields).
Definition CtlCommand_set_Notification (v : option pb_CtlNotification) (m : pb_CtlCommand) : pb_CtlCommand :=
  mk_CtlCommand m.(CtlCommand_Uid) m.(CtlCommand_Node) m.(CtlCommand_Unsubscribe) m.(CtlCommand_Disconnect) m.(CtlCommand_Shutdown) m.(CtlCommand_SurveyRequest) m.(CtlCommand_SurveyResponse) m.(CtlCommand_Subscribe) v m.(CtlCommand_Refresh) m.(CtlCommand_unknownFields).
Definition CtlCommand_set_Refresh (v : option pb_CtlRefresh) (m : pb_CtlCommand) : pb_CtlCommand :=
  mk_CtlCommand m.(CtlCommand_Uid) m.(CtlCommand_Node) m.(CtlCommand_Unsubscribe) m.(CtlCommand_Disconnect) m.(CtlCommand_Shutdown) m.(CtlCommand_SurveyRequest) m.(CtlCommand_SurveyResponse) m.(CtlCommand_Subscribe) m.(CtlCommand_Notification) v m.(CtlCommand_unknownFields).
Definition CtlCommand_set_unknownFields (v : bytes) (m : pb_CtlCommand) : pb_CtlCommand :=
  mk_CtlCommand m.(CtlCommand_Uid) m.(CtlCommand_Node) m.(CtlCommand_Unsubscribe) m.(CtlCommand_Disconnect) m.(CtlCommand_Shutdown) m.(CtlCommand_SurveyRequest) m.(CtlCommand_SurveyResponse) m.(CtlCommand_Subscribe) m.(CtlCommand_Notification) m.(CtlCommand_Refresh) v.
Definition new_CtlCommand : pb_CtlCommand := mk_CtlCommand [] None None None None None None None None None [].
Definition CtlCommand_SizeVT (m : pb_CtlCommand) : Z := sum_sizes [
  size_bytes m.(CtlCommand_Uid);
  size_message CtlNode_SizeVT m.(CtlCommand_Node);
  size_message CtlUnsubscribe_SizeVT m.(CtlCommand_Unsubscribe);
  size_message CtlDisconnect_SizeVT m.(CtlCommand_Disconnect);
  size_message CtlShutdown_SizeVT m.(CtlCommand_Shutdown);
  size_message CtlSurveyRequest_SizeVT m.(CtlCommand_SurveyRequest);
  size_message CtlSurveyResponse_SizeVT m.(CtlCommand_SurveyResponse);
  size_message CtlSubscribe_SizeVT m.(CtlCommand_Subscribe);
  size_message CtlNotification_SizeVT m.(CtlCommand_Notification);
  size_message CtlRefresh_SizeVT m.(CtlCommand_Refresh);
  zlen m.(CtlCommand_unknownFields)].
Definition CtlCommand_MarshalToSizedBufferVT (m : pb_CtlCommand) : sized := to_sized [
  put_copy m.(CtlCommand_unknownFields);
  put_message 0x52 CtlRefresh_MarshalToSizedBufferVT m.(CtlCommand_Refresh);
  put_message 0x4a CtlNotification_MarshalToSizedBufferVT m.(CtlCommand_Notification);
  put_message 0x42 CtlSubscribe_MarshalToSizedBufferVT m.(CtlCommand_Subscribe);
  put_message 0x3a CtlSurveyResponse_MarshalToSizedBufferVT m.(CtlCommand_SurveyResponse);
  put_message 0x32 CtlSurveyRequest_MarshalToSizedBufferVT m.(CtlCommand_SurveyRequest);
  put_message 0x2a CtlShutdown_MarshalToSizedBufferVT m.(CtlCommand_Shutdown);
  put_message 0x22 CtlDisconnect_MarshalToSizedBufferVT m.(CtlCommand_Disconnect);
  put_message 0x1a CtlUnsubscribe_MarshalToSizedBufferVT m.(CtlCommand_Unsubscribe);
  put_message 0x12 CtlNode_MarshalToSizedBufferVT m.(CtlCommand_Node);
  put_bytes 0xa m.(CtlCommand_Uid)].
Definition CtlCommand_MarshalVT (m : pb_CtlCommand) : outcome Empty_set bytes :=
  marshal (CtlCommand_SizeVT m) (CtlCommand_MarshalToSizedBufferVT m).
Definition CtlCommand_UnmarshalVT : bytes -> pb_CtlCommand -> outcome vt_error pb_CtlCommand := unmarshal "Command" [
  mkCase 1 2 "Uid" (dec_string CtlCommand_set_Uid);
  mkCase 2 2 "Node" (dec_message new_CtlNode CtlNode_UnmarshalVT CtlCommand_Node CtlCommand_set_Node);
  mkCase 3 2 "Unsubscribe" (dec_message new_CtlUnsubscribe CtlUnsubscribe_UnmarshalVT CtlCommand_Unsubscribe CtlCommand_set_Unsubscribe);
  mkCase 4 2 "Disconnect" (dec_message new_CtlDisconnect CtlDisconnect_UnmarshalVT CtlCommand_Disconnect CtlCommand_set_Disconnect);
  mkCase 5 2 "Shutdown" (dec_message new_CtlShutdown CtlShutdown_UnmarshalVT CtlCommand_Shutdown CtlCommand_set_Shutdown);
  mkCase 6 2 "SurveyRequest" (dec_message new_CtlSurveyRequest CtlSurveyRequest_UnmarshalVT CtlCommand_SurveyRequest CtlCommand_set_SurveyRequest);
  mkCase 7 2 "SurveyResponse" (dec_message new_CtlSurveyResponse CtlSurveyResponse_UnmarshalVT CtlCommand_SurveyResponse CtlCommand_set_SurveyResponse);
  mkCase 8 2 "Subscribe" (dec_message new_CtlSubscribe CtlSubscribe_UnmarshalVT CtlCommand_Subscribe CtlCommand_set_Subscribe);
  mkCase 9 2 "Notification" (dec_message new_CtlNotification CtlNotification_UnmarshalVT CtlCommand_Notification CtlCommand_set_Notification);
  mkCase 10 2 "Refresh" (dec_message new_CtlRefresh CtlRefresh_UnmarshalVT CtlCommand_Refresh CtlCommand_set_Refresh)]
  (fun u m => CtlCommand_set_unknownFields (m.(CtlCommand_unknownFields) ++ u) m).

(** ** The codec of the nodes ([controlproto/marshal.go], [controlproto/unmarshal.go]) *)

Definition EncodeCommand (cmd : pb_CtlCommand) : outcome Empty_set bytes := CtlCommand_MarshalVT cmd.
Definition DecodeCommand (data : bytes) : outcome vt_error pb_CtlCommand := CtlCommand_UnmarshalVT data new_CtlCommand.

#[export] Hint Resolve size_is_int size_is_float size_is_list size_is_floats
  puts_int puts_float puts_list puts_floats : vt.

Lemma is_u64_holds v : is_u64 v -> holds wrap_u64 v.
Proof. intros H. apply holds_u64, H. Qed.
Lemma is_u64_range v : is_u64 v -> 0 <= v < 2 ^ 64.
Proof. done. Qed.
#[export] Hint Resolve is_u64_holds is_u64_range : vt.

Ltac vt_dec_more ::= first [apply dec_float_fine|apply dec_list_fine|apply dec_floats_fine].

Ltac vt_field_more ::= lazymatch goal with
  | |- advances _ _ _ (e_int ?t ?v ++ _) _ _ =>
      let n := eval compute in (t / 8) in
      eapply advances_app; [eapply (advances_int _ _ _ n); [reflexivity|lia|assumption|];
        let E := fresh in intros E; rewrite E; reflexivity|]
  | |- advances _ _ _ (e_float ?t _ ++ _) _ _ =>
      let n := eval compute in (t / 8) in
      eapply advances_app; [eapply (advances_float _ _ _ n); [reflexivity|lia|assumption|reflexivity]|]
  | |- advances _ _ _ (e_list ?t _ ++ _) _ _ =>
      let n := eval compute in (t / 8) in
      eapply advances_app; [eapply advances_to; [eapply (advances_texts _ _ _ n);
        [reflexivity|lia|reflexivity|reflexivity|reflexivity]|apply set_list_plain; reflexivity]|]
  | |- advances _ _ _ (e_floats ?t _ ++ _) _ _ =>
      let n := eval compute in (t / 8) in
      eapply advances_app; [eapply advances_to; [eapply (advances_floats _ _ _ n);
        [reflexivity|lia|reflexivity|reflexivity|reflexivity|assumption|assumption]|apply set_list_plain; reflexivity]|]
  end.

Definition vt_CtlMetrics (m : pb_CtlMetrics) : bytes := concat [
  e_float 0x9 m.(CtlMetrics_Interval);
  e_floats 0x12 m.(CtlMetrics_Items);
  m.(CtlMetrics_unknownFields)].
Definition typed_CtlMetrics (m : pb_CtlMetrics) : Prop :=
  is_u64 m.(CtlMetrics_Interval) /\
  NoDup m.(CtlMetrics_Items).*1 /\
  Forall (fun e => is_u64 e.2) m.(CtlMetrics_Items).
Definition known_CtlMetrics (m : pb_CtlMetrics) : Prop :=
  m.(CtlMetrics_unknownFields) = [].
Definition norm_CtlMetrics (m : pb_CtlMetrics) : pb_CtlMetrics :=
  mk_CtlMetrics (norm_float m.(CtlMetrics_Interval)) (reverse m.(CtlMetrics_Items)) [].
Lemma CtlMetrics_size m : typed_CtlMetrics m -> size_is (CtlMetrics_SizeVT m) (vt_CtlMetrics m).
Proof. vt_size. Qed.
Lemma CtlMetrics_sized m : typed_CtlMetrics m -> sized_ok (CtlMetrics_MarshalToSizedBufferVT m) (vt_CtlMetrics m).
Proof. vt_sized. Qed.
Lemma CtlMetrics_fine : unm_fine CtlMetrics_UnmarshalVT.
Proof. vt_fine. Qed.
Lemma CtlMetrics_reads m : typed_CtlMetrics m -> known_CtlMetrics m -> unm_ok CtlMetrics_UnmarshalVT new_CtlMetrics (vt_CtlMetrics m) (norm_CtlMetrics m).
Proof. vt_reads. Qed.
#[export] Hint Resolve CtlMetrics_size CtlMetrics_sized CtlMetrics_fine CtlMetrics_reads : vt.

Definition vt_CtlNode (m : pb_CtlNode) : bytes := concat [
  e_bytes 0xa m.(CtlNode_Uid);
  e_bytes 0x12 m.(CtlNode_Name);
  e_bytes 0x1a m.(CtlNode_Version);
  e_uint 0x20 m.(CtlNode_NumClients);
  e_uint 0x28 m.(CtlNode_NumUsers);
  e_uint 0x30 m.(CtlNode_NumChannels);
  e_uint 0x38 m.(CtlNode_Uptime);
  e_message 0x42 vt_CtlMetrics m.(CtlNode_Metrics);
  e_raw 0x4a m.(CtlNode_Data);
  e_uint 0x50 m.(CtlNode_NumSubs);
  m.(CtlNode_unknownFields)].
Definition typed_CtlNode (m : pb_CtlNode) : Prop :=
  is_u32 m.(CtlNode_NumClients) /\
  is_u32 m.(CtlNode_NumUsers) /\
  is_u32 m.(CtlNode_NumChannels) /\
  is_u32 m.(CtlNode_Uptime) /\
  opt_ok typed_CtlMetrics m.(CtlNode_Metrics) /\
  is_u32 m.(CtlNode_NumSubs).
Definition known_CtlNode (m : pb_CtlNode) : Prop :=
  m.(CtlNode_unknownFields) = [] /\
  opt_ok known_CtlMetrics m.(CtlNode_Metrics).
Definition norm_CtlNode (m : pb_CtlNode) : pb_CtlNode :=
  mk_CtlNode m.(CtlNode_Uid) m.(CtlNode_Name) m.(CtlNode_Version) m.(CtlNode_NumClients) m.(CtlNode_NumUsers) m.(CtlNode_NumChannels) m.(CtlNode_Uptime) (norm_CtlMetrics <$> m.(CtlNode_Metrics)) (norm_raw m.(CtlNode_Data)) m.(CtlNode_NumSubs) [].
Lemma CtlNode_size m : typed_CtlNode m -> size_is (CtlNode_SizeVT m) (vt_CtlNode m).
Proof. vt_size. Qed.
Lemma CtlNode_sized m : typed_CtlNode m -> sized_ok (CtlNode_MarshalToSizedBufferVT m) (vt_CtlNode m).
Proof. vt_sized. Qed.
Lemma CtlNode_fine : unm_fine CtlNode_UnmarshalVT.
Proof. vt_fine. Qed.
Lemma CtlNode_reads m : typed_CtlNode m -> known_CtlNode m -> unm_ok CtlNode_UnmarshalVT new_CtlNode (vt_CtlNode m) (norm_CtlNode m).
Proof. vt_reads. Qed.
#[export] Hint Resolve CtlNode_size CtlNode_sized CtlNode_fine CtlNode_reads : vt.

Definition vt_CtlUnsubscribe (m : pb_CtlUnsubscribe) : bytes := concat [
  e_bytes 0xa m.(CtlUnsubscribe_Channel);
  e_bytes 0x12 m.(CtlUnsubscribe_User);
  e_bytes 0x1a m.(CtlUnsubscribe_Client);
  e_bytes 0x22 m.(CtlUnsubscribe_Session);
  e_uint 0x28 m.(CtlUnsubscribe_Code);
  e_bytes 0x32 m.(CtlUnsubscribe_Reason);
  m.(CtlUnsubscribe_unknownFields)].
Definition typed_CtlUnsubscribe (m : pb_CtlUnsubscribe) : Prop :=
  is_u32 m.(CtlUnsubscribe_Code).
Definition known_CtlUnsubscribe (m : pb_CtlUnsubscribe) : Prop :=
  m.(CtlUnsubscribe_unknownFields) = [].
Definition norm_CtlUnsubscribe (m : pb_CtlUnsubscribe) : pb_CtlUnsubscribe :=
  mk_CtlUnsubscribe m.(CtlUnsubscribe_Channel) m.(CtlUnsubscribe_User) m.(CtlUnsubscribe_Client) m.(CtlUnsubscribe_Session) m.(CtlUnsubscribe_Code) m.(CtlUnsubscribe_Reason) [].
Lemma CtlUnsubscribe_size m : typed_CtlUnsubscribe m -> size_is (CtlUnsubscribe_SizeVT m) (vt_CtlUnsubscribe m).
Proof. vt_size. Qed.
Lemma CtlUnsubscribe_sized m : typed_CtlUnsubscribe m -> sized_ok (CtlUnsubscribe_MarshalToSizedBufferVT m) (vt_CtlUnsubscribe m).
Proof. vt_sized. Qed.
Lemma CtlUnsubscribe_fine : unm_fine CtlUnsubscribe_UnmarshalVT.
Proof. vt_fine. Qed.
Lemma CtlUnsubscribe_reads m : typed_CtlUnsubscribe m -> known_CtlUnsubscribe m -> unm_ok CtlUnsubscribe_UnmarshalVT new_CtlUnsubscribe (vt_CtlUnsubscribe m) (norm_CtlUnsubscribe m).
Proof. vt_reads. Qed.
#[export] Hint Resolve CtlUnsubscribe_size CtlUnsubscribe_sized CtlUnsubscribe_fine CtlUnsubscribe_reads : vt.

Definition vt_CtlDisconnect (m : pb_CtlDisconnect) : bytes := concat [
  e_bytes 0xa m.(CtlDisconnect_User);
  e_list 0x12 m.(CtlDisconnect_Whitelist);
  e_uint 0x18 m.(CtlDisconnect_Code);
  e_bytes 0x22 m.(CtlDisconnect_Reason);
  e_bool 0x28 m.(CtlDisconnect_Reconnect);
  e_bytes 0x32 m.(CtlDisconnect_Client);
  e_bytes 0x3a m.(CtlDisconnect_Session);
  m.(CtlDisconnect_unknownFields)].
Definition typed_CtlDisconnect (m : pb_CtlDisconnect) : Prop :=
  is_u32 m.(CtlDisconnect_Code).
Definition known_CtlDisconnect (m : pb_CtlDisconnect) : Prop :=
  m.(CtlDisconnect_unknownFields) = [].
Definition norm_CtlDisconnect (m : pb_CtlDisconnect) : pb_CtlDisconnect :=
  mk_CtlDisconnect m.(CtlDisconnect_User) m.(CtlDisconnect_Whitelist) m.(CtlDisconnect_Code) m.(CtlDisconnect_Reason) m.(CtlDisconnect_Reconnect) m.(CtlDisconnect_Client) m.(CtlDisconnect_Session) [].
Lemma CtlDisconnect_size m : typed_CtlDisconnect m -> size_is (CtlDisconnect_SizeVT m) (vt_CtlDisconnect m).
Proof. vt_size. Qed.
Lemma CtlDisconnect_sized m : typed_CtlDisconnect m -> sized_ok (CtlDisconnect_MarshalToSizedBufferVT m) (vt_CtlDisconnect m).
Proof. vt_sized. Qed.
Lemma CtlDisconnect_fine : unm_fine CtlDisconnect_UnmarshalVT.
Proof. vt_fine. Qed.
Lemma CtlDisconnect_reads m : typed_CtlDisconnect m -> known_CtlDisconnect m -> unm_ok CtlDisconnect_UnmarshalVT new_CtlDisconnect (vt_CtlDisconnect m) (norm_CtlDisconnect m).
Proof. vt_reads. Qed.
#[export] Hint Resolve CtlDisconnect_size CtlDisconnect_sized CtlDisconnect_fine CtlDisconnect_reads : vt.

Definition vt_CtlShutdown (m : pb_CtlShutdown) : bytes := concat [
  m.(CtlShutdown_unknownFields)].
Definition typed_CtlShutdown (m : pb_CtlShutdown) : Prop :=
  True.
Definition known_CtlShutdown (m : pb_CtlShutdown) : Prop :=
  m.(CtlShutdown_unknownFields) = [].
Definition norm_CtlShutdown (m : pb_CtlShutdown) : pb_CtlShutdown :=
  mk_CtlShutdown [].
Lemma CtlShutdown_size m : typed_CtlShutdown m -> size_is (CtlShutdown_SizeVT m) (vt_CtlShutdown m).
Proof. vt_size. Qed.
Lemma CtlShutdown_sized m : typed_CtlShutdown m -> sized_ok (CtlShutdown_MarshalToSizedBufferVT m) (vt_CtlShutdown m).
Proof. vt_sized. Qed.
Lemma CtlShutdown_fine : unm_fine CtlShutdown_UnmarshalVT.
Proof. vt_fine. Qed.
Lemma CtlShutdown_reads m : typed_CtlShutdown m -> known_CtlShutdown m -> unm_ok CtlShutdown_UnmarshalVT new_CtlShutdown (vt_CtlShutdown m) (norm_CtlShutdown m).
Proof. vt_reads. Qed.
#[export] Hint Resolve CtlShutdown_size CtlShutdown_sized CtlShutdown_fine CtlShutdown_reads : vt.

Definition vt_CtlSurveyRequest (m : pb_CtlSurveyRequest) : bytes := concat [
  e_uint 0x8 m.(CtlSurveyRequest_Id);
  e_bytes 0x12 m.(CtlSurveyRequest_Op);
  e_raw 0x1a m.(CtlSurveyRequest_Data);
  m.(CtlSurveyRequest_unknownFields)].
Definition typed_CtlSurveyRequest (m : pb_CtlSurveyRequest) : Prop :=
  is_u64 m.(CtlSurveyRequest_Id).
Definition known_CtlSurveyRequest (m : pb_CtlSurveyRequest) : Prop :=
  m.(CtlSurveyRequest_unknownFields) = [].
Definition norm_CtlSurveyRequest (m : pb_CtlSurveyRequest) : pb_CtlSurveyRequest :=
  mk_CtlSurveyRequest m.(CtlSurveyRequest_Id) m.(CtlSurveyRequest_Op) (norm_raw m.(CtlSurveyRequest_Data)) [].
Lemma CtlSurveyRequest_size m : typed_CtlSurveyRequest m -> size_is (CtlSurveyRequest_SizeVT m) (vt_CtlSurveyRequest m).
Proof. vt_size. Qed.
Lemma CtlSurveyRequest_sized m : typed_CtlSurveyRequest m -> sized_ok (CtlSurveyRequest_MarshalToSizedBufferVT m) (vt_CtlSurveyRequest m).
Proof. vt_sized. Qed.
Lemma CtlSurveyRequest_fine : unm_fine CtlSurveyRequest_UnmarshalVT.
Proof. vt_fine. Qed.
Lemma CtlSurveyRequest_reads m : typed_CtlSurveyRequest m -> known_CtlSurveyRequest m -> unm_ok CtlSurveyRequest_UnmarshalVT new_CtlSurveyRequest (vt_CtlSurveyRequest m) (norm_CtlSurveyRequest m).
Proof. vt_reads. Qed.
#[export] Hint Resolve CtlSurveyRequest_size CtlSurveyRequest_sized CtlSurveyRequest_fine CtlSurveyRequest_reads : vt.

Definition vt_CtlSurveyResponse (m : pb_CtlSurveyResponse) : bytes := concat [
  e_uint 0x8 m.(CtlSurveyResponse_Id);
  e_uint 0x10 m.(CtlSurveyResponse_Code);
  e_raw 0x1a m.(CtlSurveyResponse_Data);
  m.(CtlSurveyResponse_unknownFields)].
Definition typed_CtlSurveyResponse (m : pb_CtlSurveyResponse) : Prop :=
  is_u64 m.(CtlSurveyResponse_Id) /\
  is_u32 m.(CtlSurveyResponse_Code).
Definition known_CtlSurveyResponse (m : pb_CtlSurveyResponse) : Prop :=
  m.(CtlSurveyResponse_unknownFields) = [].
Definition norm_CtlSurveyResponse (m : pb_CtlSurveyResponse) : pb_CtlSurveyResponse :=
  mk_CtlSurveyResponse m.(CtlSurveyResponse_Id) m.(CtlSurveyResponse_Code) (norm_raw m.(CtlSurveyResponse_Data)) [].
Lemma CtlSurveyResponse_size m : typed_CtlSurveyResponse m -> size_is (CtlSurveyResponse_SizeVT m) (vt_CtlSurveyResponse m).
Proof. vt_size. Qed.
Lemma CtlSurveyResponse_sized m : typed_CtlSurveyResponse m -> sized_ok (CtlSurveyResponse_MarshalToSizedBufferVT m) (vt_CtlSurveyResponse m).
Proof. vt_sized. Qed.
Lemma CtlSurveyResponse_fine : unm_fine CtlSurveyResponse_UnmarshalVT.
Proof. vt_fine. Qed.
Lemma CtlSurveyResponse_reads m : typed_CtlSurveyResponse m -> known_CtlSurveyResponse m -> unm_ok CtlSurveyResponse_UnmarshalVT new_CtlSurveyResponse (vt_CtlSurveyResponse m) (norm_CtlSurveyResponse m).
Proof. vt_reads. Qed.
#[export] Hint Resolve CtlSurveyResponse_size CtlSurveyResponse_sized CtlSurveyResponse_fine CtlSurveyResponse_reads : vt.

Definition vt_CtlStreamPosition (m : pb_CtlStreamPosition) : bytes := concat [
  e_uint 0x8 m.(CtlStreamPosition_Offset);
  e_bytes 0x12 m.(CtlStreamPosition_Epoch);
  m.(CtlStreamPosition_unknownFields)].
Definition typed_CtlStreamPosition (m : pb_CtlStreamPosition) : Prop :=
  is_u64 m.(CtlStreamPosition_Offset).
Definition known_CtlStreamPosition (m : pb_CtlStreamPosition) : Prop :=
  m.(CtlStreamPosition_unknownFields) = [].
Definition norm_CtlStreamPosition (m : pb_CtlStreamPosition) : pb_CtlStreamPosition :=
  mk_CtlStreamPosition m.(CtlStreamPosition_Offset) m.(CtlStreamPosition_Epoch) [].
Lemma CtlStreamPosition_size m : typed_CtlStreamPosition m -> size_is (CtlStreamPosition_SizeVT m) (vt_CtlStreamPosition m).
Proof. vt_size. Qed.
Lemma CtlStreamPosition_sized m : typed_CtlStreamPosition m -> sized_ok (CtlStreamPosition_MarshalToSizedBufferVT m) (vt_CtlStreamPosition m).
Proof. vt_sized. Qed.
Lemma CtlStreamPosition_fine : unm_fine CtlStreamPosition_UnmarshalVT.
Proof. vt_fine. Qed.
Lemma CtlStreamPosition_reads m : typed_CtlStreamPosition m -> known_CtlStreamPosition m -> unm_ok CtlStreamPosition_UnmarshalVT new_CtlStreamPosition (vt_CtlStreamPosition m) (norm_CtlStreamPosition m).
Proof. vt_reads. Qed.
#[export] Hint Resolve CtlStreamPosition_size CtlStreamPosition_sized CtlStreamPosition_fine CtlStreamPosition_reads : vt.

Definition vt_CtlSubscribe (m : pb_CtlSubscribe) : bytes := concat [
  e_bytes 0xa m.(CtlSubscribe_User);
  e_bytes 0x12 m.(CtlSubscribe_Channel);
  e_bool 0x18 m.(CtlSubscribe_EmitPresence);
  e_bool 0x20 m.(CtlSubscribe_EmitJoinLeave);
  e_int 0x28 m.(CtlSubscribe_ExpireAt);
  e_bool 0x30 m.(CtlSubscribe_Position);
  e_bool 0x38 m.(CtlSubscribe_Recover);
  e_raw 0x42 m.(CtlSubscribe_ChannelInfo);
  e_bytes 0x4a m.(CtlSubscribe_Client);
  e_raw 0x52 m.(CtlSubscribe_Data);
  e_message 0x5a vt_CtlStreamPosition m.(CtlSubscribe_RecoverSince);
  e_bytes 0x62 m.(CtlSubscribe_Session);
  e_bool 0x68 m.(CtlSubscribe_PushJoinLeave);
  e_uint 0x70 m.(CtlSubscribe_Source);
  m.(CtlSubscribe_unknownFields)].
Definition typed_CtlSubscribe (m : pb_CtlSubscribe) : Prop :=
  is_i64 m.(CtlSubscribe_ExpireAt) /\
  opt_ok typed_CtlStreamPosition m.(CtlSubscribe_RecoverSince) /\
  is_u32 m.(CtlSubscribe_Source).
Definition known_CtlSubscribe (m : pb_CtlSubscribe) : Prop :=
  m.(CtlSubscribe_unknownFields) = [] /\
  opt_ok known_CtlStreamPosition m.(CtlSubscribe_RecoverSince).
Definition norm_CtlSubscribe (m : pb_CtlSubscribe) : pb_CtlSubscribe :=
  mk_CtlSubscribe m.(CtlSubscribe_User) m.(CtlSubscribe_Channel) m.(CtlSubscribe_EmitPresence) m.(CtlSubscribe_EmitJoinLeave) m.(CtlSubscribe_ExpireAt) m.(CtlSubscribe_Position) m.(CtlSubscribe_Recover) (norm_raw m.(CtlSubscribe_ChannelInfo)) m.(CtlSubscribe_Client) (norm_raw m.(CtlSubscribe_Data)) (norm_CtlStreamPosition <$> m.(CtlSubscribe_RecoverSince)) m.(CtlSubscribe_Session) m.(CtlSubscribe_PushJoinLeave) m.(CtlSubscribe_Source) [].
Lemma CtlSubscribe_size m : typed_CtlSubscribe m -> size_is (CtlSubscribe_SizeVT m) (vt_CtlSubscribe m).
Proof. vt_size. Qed.
Lemma CtlSubscribe_sized m : typed_CtlSubscribe m -> sized_ok (CtlSubscribe_MarshalToSizedBufferVT m) (vt_CtlSubscribe m).
Proof. vt_sized. Qed.
Lemma CtlSubscribe_fine : unm_fine CtlSubscribe_UnmarshalVT.
Proof. vt_fine. Qed.
Lemma CtlSubscribe_reads m : typed_CtlSubscribe m -> known_CtlSubscribe m -> unm_ok CtlSubscribe_UnmarshalVT new_CtlSubscribe (vt_CtlSubscribe m) (norm_CtlSubscribe m).
Proof. vt_reads. Qed.
#[export] Hint Resolve CtlSubscribe_size CtlSubscribe_sized CtlSubscribe_fine CtlSubscribe_reads : vt.

Definition vt_CtlNotification (m : pb_CtlNotification) : bytes := concat [
  e_bytes 0xa m.(CtlNotification_Op);
  e_raw 0x12 m.(CtlNotification_Data);
  m.(CtlNotification_unknownFields)].
Definition typed_CtlNotification (m : pb_CtlNotification) : Prop :=
  True.
Definition known_CtlNotification (m : pb_CtlNotification) : Prop :=
  m.(CtlNotification_unknownFields) = [].
Definition norm_CtlNotification (m : pb_CtlNotification) : pb_CtlNotification :=
  mk_CtlNotification m.(CtlNotification_Op) (norm_raw m.(CtlNotification_Data)) [].
Lemma CtlNotification_size m : typed_CtlNotification m -> size_is (CtlNotification_SizeVT m) (vt_CtlNotification m).
Proof. vt_size. Qed.
Lemma CtlNotification_sized m : typed_CtlNotification m -> sized_ok (CtlNotification_MarshalToSizedBufferVT m) (vt_CtlNotification m).
Proof. vt_sized. Qed.
Lemma CtlNotification_fine : unm_fine CtlNotification_UnmarshalVT.
Proof. vt_fine. Qed.
Lemma CtlNotification_reads m : typed_CtlNotification m -> known_CtlNotification m -> unm_ok CtlNotification_UnmarshalVT new_CtlNotification (vt_CtlNotification m) (norm_CtlNotification m).
Proof. vt_reads. Qed.
#[export] Hint Resolve CtlNotification_size CtlNotification_sized CtlNotification_fine CtlNotification_reads : vt.

Definition vt_CtlRefresh (m : pb_CtlRefresh) : bytes := concat [
  e_bytes 0xa m.(CtlRefresh_User);
  e_bytes 0x12 m.(CtlRefresh_Client);
  e_bool 0x18 m.(CtlRefresh_Expired);
  e_int 0x20 m.(CtlRefresh_ExpireAt);
  e_raw 0x2a m.(CtlRefresh_Info);
  e_bytes 0x32 m.(CtlRefresh_Session);
  m.(CtlRefresh_unknownFields)].
Definition typed_CtlRefresh (m : pb_CtlRefresh) : Prop :=
  is_i64 m.(CtlRefresh_ExpireAt).
Definition known_CtlRefresh (m : pb_CtlRefresh) : Prop :=
  m.(CtlRefresh_unknownFields) = [].
Definition norm_CtlRefresh (m : pb_CtlRefresh) : pb_CtlRefresh :=
  mk_CtlRefresh m.(CtlRefresh_User) m.(CtlRefresh_Client) m.(CtlRefresh_Expired) m.(CtlRefresh_ExpireAt) (norm_raw m.(CtlRefresh_Info)) m.(CtlRefresh_Session) [].
Lemma CtlRefresh_size m : typed_CtlRefresh m -> size_is (CtlRefresh_SizeVT m) (vt_CtlRefresh m).
Proof. vt_size. Qed.
Lemma CtlRefresh_sized m : typed_CtlRefresh m -> sized_ok (CtlRefresh_MarshalToSizedBufferVT m) (vt_CtlRefresh m).
Proof. vt_sized. Qed.
Lemma CtlRefresh_fine : unm_fine CtlRefresh_UnmarshalVT.
Proof. vt_fine. Qed.
Lemma CtlRefresh_reads m : typed_CtlRefresh m -> known_CtlRefresh m -> unm_ok CtlRefresh_UnmarshalVT new_CtlRefresh (vt_CtlRefresh m) (norm_CtlRefresh m).
Proof. vt_reads. Qed.
#[export] Hint Resolve CtlRefresh_size CtlRefresh_sized CtlRefresh_fine CtlRefresh_reads : vt.

Definition vt_CtlCommand (m : pb_CtlCommand) : bytes := concat [
  e_bytes 0xa m.(CtlCommand_Uid);
  e_message 0x12 vt_CtlNode m.(CtlCommand_Node);
  e_message 0x1a vt_CtlUnsubscribe m.(CtlCommand_Unsubscribe);
  e_message 0x22 vt_CtlDisconnect m.(CtlCommand_Disconnect);
  e_message 0x2a vt_CtlShutdown m.(CtlCommand_Shutdown);
  e_message 0x32 vt_CtlSurveyRequest m.(CtlCommand_SurveyRequest);
  e_message 0x3a vt_CtlSurveyResponse m.(CtlCommand_SurveyResponse);
  e_message 0x42 vt_CtlSubscribe m.(CtlCommand_Subscribe);
  e_message 0x4a vt_CtlNotification m.(CtlCommand_Notification);
  e_message 0x52 vt_CtlRefresh m.(CtlCommand_Refresh);
  m.(CtlCommand_unknownFields)].
Definition typed_CtlCommand (m : pb_CtlCommand) : Prop :=
  opt_ok typed_CtlNode m.(CtlCommand_Node) /\
  opt_ok typed_CtlUnsubscribe m.(CtlCommand_Unsubscribe) /\
  opt_ok typed_CtlDisconnect m.(CtlCommand_Disconnect) /\
  opt_ok typed_CtlShutdown m.(CtlCommand_Shutdown) /\
  opt_ok typed_CtlSurveyRequest m.(CtlCommand_SurveyRequest) /\
  opt_ok typed_CtlSurveyResponse m.(CtlCommand_SurveyResponse) /\
  opt_ok typed_CtlSubscribe m.(CtlCommand_Subscribe) /\
  opt_ok typed_CtlNotification m.(CtlCommand_Notification) /\
  opt_ok typed_CtlRefresh m.(CtlCommand_Refresh).
Definition known_CtlCommand (m : pb_CtlCommand) : Prop :=
  m.(CtlCommand_unknownFields) = [] /\
  opt_ok known_CtlNode m.(CtlCommand_Node) /\
  opt_ok known_CtlUnsubscribe m.(CtlCommand_Unsubscribe) /\
  opt_ok known_CtlDisconnect m.(CtlCommand_Disconnect) /\
  opt_ok known_CtlShutdown m.(CtlCommand_Shutdown) /\
  opt_ok known_CtlSurveyRequest m.(CtlCommand_SurveyRequest) /\
  opt_ok known_CtlSurveyResponse m.(CtlCommand_SurveyResponse) /\
  opt_ok known_CtlSubscribe m.(CtlCommand_Subscribe) /\
  opt_ok known_CtlNotification m.(CtlCommand_Notification) /\
  opt_ok known_CtlRefresh m.(CtlCommand_Refresh).
Definition norm_CtlCommand (m : pb_CtlCommand) : pb_CtlCommand :=
  mk_CtlCommand m.(CtlCommand_Uid) (norm_CtlNode <$> m.(CtlCommand_Node)) (norm_CtlUnsubscribe <$> m.(CtlCommand_Unsubscribe)) (norm_CtlDisconnect <$> m.(CtlCommand_Disconnect)) (norm_CtlShutdown <$> m.(CtlCommand_Shutdown)) (norm_CtlSurveyRequest <$> m.(CtlCommand_SurveyRequest)) (norm_CtlSurveyResponse <$> m.(CtlCommand_SurveyResponse)) (norm_CtlSubscribe <$> m.(CtlCommand_Subscribe)) (norm_CtlNotification <$> m.(CtlCommand_Notification)) (norm_CtlRefresh <$> m.(CtlCommand_Refresh)) [].
Lemma CtlCommand_size m : typed_CtlCommand m -> size_is (CtlCommand_SizeVT m) (vt_CtlCommand m).
Proof. vt_size. Qed.
Lemma CtlCommand_sized m : typed_CtlCommand m -> sized_ok (CtlCommand_MarshalToSizedBufferVT m) (vt_CtlCommand m).
Proof. vt_sized. Qed.
Lemma CtlCommand_fine : unm_fine CtlCommand_UnmarshalVT.
Proof. vt_fine. Qed.
Lemma CtlCommand_reads m : typed_CtlCommand m -> known_CtlCommand m -> unm_ok CtlCommand_UnmarshalVT new_CtlCommand (vt_CtlCommand m) (norm_CtlCommand m).
Proof. vt_reads. Qed.
#[export] Hint Resolve CtlCommand_size CtlCommand_sized CtlCommand_fine CtlCommand_reads : vt.
