(* ===== verification/ControlWire.v ===== *)
(** Control messages on the wire: what [node.go] publishes as bytes
    ([publishControl] and the [pub] functions) and what a node does with bytes it
    receives ([handleControl]), on the codec of VtControl.v; and how nodes find
    each other ([pubNode], [nodeCmd], [shutdownCmd]).

    Control.v has the commands decoded, with strings for byte slices; [of_ctl]
    is that view of a message. *)

From S2P Require Import Prelude BytePool Codes Node Control WireMsg WireLine Vt VtProps VtFrames VtControl.

Open Scope Z_scope.

Notation str := String.string_of_list_byte.
#[local] Arguments lit : simpl never.
#[local] Arguments String.string_of_list_byte : simpl never.

Lemma str_lit s : str (lit s) = s.
Proof. apply String.string_of_list_byte_of_string. Qed.

(** ** The decoded view *)

Definition node_of (m : pb_CtlNode) : Registry.NodeMsg :=
  Registry.mkNodeMsg (str m.(CtlNode_Uid)) (str m.(CtlNode_Name)) (str m.(CtlNode_Version)) m.(CtlNode_NumClients)
    m.(CtlNode_NumUsers) m.(CtlNode_NumChannels) m.(CtlNode_Uptime) (str (default [] m.(CtlNode_Data))) m.(CtlNode_NumSubs)
    ((fun x => list_to_map (prod_map str id <$> x.(CtlMetrics_Items))) <$> m.(CtlNode_Metrics)).

Definition of_ctl (m : pb_CtlCommand) : Command :=
  mkCommand (str m.(CtlCommand_Uid)) (node_of <$> m.(CtlCommand_Node)) (bool_decide (is_Some m.(CtlCommand_Shutdown)))
    ((fun u => mkUnsubscribeMsg (str u.(CtlUnsubscribe_User)) (str u.(CtlUnsubscribe_Channel)) u.(CtlUnsubscribe_Code)
        (str u.(CtlUnsubscribe_Reason)) (str u.(CtlUnsubscribe_Client)) (str u.(CtlUnsubscribe_Session)))
      <$> m.(CtlCommand_Unsubscribe))
    ((fun s => mkSubscribeMsg (str s.(CtlSubscribe_User)) (str s.(CtlSubscribe_Channel)) s.(CtlSubscribe_EmitPresence)
        s.(CtlSubscribe_EmitJoinLeave) s.(CtlSubscribe_PushJoinLeave) (str (default [] s.(CtlSubscribe_ChannelInfo)))
        s.(CtlSubscribe_ExpireAt) (str s.(CtlSubscribe_Client)) (str (default [] s.(CtlSubscribe_Data))) s.(CtlSubscribe_Source))
      <$> m.(CtlCommand_Subscribe))
    ((fun d => mkDisconnectMsg (str d.(CtlDisconnect_User)) (str <$> d.(CtlDisconnect_Whitelist)) d.(CtlDisconnect_Code)
        (str d.(CtlDisconnect_Reason)) (str d.(CtlDisconnect_Client)))
      <$> m.(CtlCommand_Disconnect))
    ((fun r => mkRefreshMsg (str r.(CtlRefresh_User)) r.(CtlRefresh_Expired) r.(CtlRefresh_ExpireAt)
        (str r.(CtlRefresh_Client)) (str r.(CtlRefresh_Session)) (str (default [] r.(CtlRefresh_Info))))
      <$> m.(CtlCommand_Refresh)).

(** ** What a node publishes ([node.go]) *)

Definition with_uid (uid : string) (m : pb_CtlCommand) : pb_CtlCommand := CtlCommand_set_Uid (lit uid) m.

Definition subscribe_cmd (uid user ch : string) (o : SubscribeOptions) : pb_CtlCommand :=
  with_uid uid (CtlCommand_set_Subscribe (Some (
    CtlSubscribe_set_User (lit user) $ CtlSubscribe_set_Channel (lit ch) $
    CtlSubscribe_set_EmitPresence o.(so_EmitPresence) $ CtlSubscribe_set_EmitJoinLeave o.(so_EmitJoinLeave) $
    CtlSubscribe_set_PushJoinLeave o.(so_PushJoinLeave) $ CtlSubscribe_set_ChannelInfo (Some (lit o.(so_ChannelInfo))) $
    CtlSubscribe_set_ExpireAt o.(so_ExpireAt) $ CtlSubscribe_set_Client (lit o.(so_clientID)) $
    CtlSubscribe_set_Data (Some (lit o.(so_Data))) $ CtlSubscribe_set_Source (wrap_u32 o.(so_Source)) new_CtlSubscribe))
  new_CtlCommand).

Definition refresh_cmd (uid user : string) (o : RefreshOptions) : pb_CtlCommand :=
  with_uid uid (CtlCommand_set_Refresh (Some (
    CtlRefresh_set_User (lit user) $ CtlRefresh_set_Expired o.(ro_Expired) $ CtlRefresh_set_ExpireAt o.(ro_ExpireAt) $
    CtlRefresh_set_Client (lit o.(ro_clientID)) $ CtlRefresh_set_Session (lit o.(ro_sessionID)) $
    CtlRefresh_set_Info (Some (lit o.(ro_Info))) new_CtlRefresh))
  new_CtlCommand).

Definition unsubscribe_cmd (uid user ch : string) (u : Unsubscribe) (clientID sessionID : string) : pb_CtlCommand :=
  with_uid uid (CtlCommand_set_Unsubscribe (Some (
    CtlUnsubscribe_set_User (lit user) $ CtlUnsubscribe_set_Channel (lit ch) $ CtlUnsubscribe_set_Code u.(ucode) $
    CtlUnsubscribe_set_Reason (lit u.(ureason)) $ CtlUnsubscribe_set_Client (lit clientID) $
    CtlUnsubscribe_set_Session (lit sessionID) new_CtlUnsubscribe))
  new_CtlCommand).

Definition disconnect_cmd (uid user : string) (d : Disconnect) (clientID : string) (whitelist : list string) : pb_CtlCommand :=
  with_uid uid (CtlCommand_set_Disconnect (Some (
    CtlDisconnect_set_User (lit user) $ CtlDisconnect_set_Whitelist (lit <$> whitelist) $
    CtlDisconnect_set_Code d.(dcode) $ CtlDisconnect_set_Reason (lit d.(dreason)) $
    CtlDisconnect_set_Client (lit clientID) new_CtlDisconnect))
  new_CtlCommand).

(** The command of [Shutdown]. *)
Definition shutdown_cmd (uid : string) : pb_CtlCommand :=
  with_uid uid (CtlCommand_set_Shutdown (Some new_CtlShutdown) new_CtlCommand).

(** What a node knows of itself when it announces itself: names, the counts of
    its hub, the start time and the clock. *)
Record node_view := mkView {
  v_uid : string; v_Name : string; v_Version : string;
  v_clients : Z; v_users : Z; v_channels : Z; v_subs : Z;
  v_startedAt : Z
}.

Definition node_message (n : node_view) (now : Z) : pb_CtlNode :=
  CtlNode_set_Uid (lit n.(v_uid)) $ CtlNode_set_Name (lit n.(v_Name)) $ CtlNode_set_Version (lit n.(v_Version)) $
  CtlNode_set_NumClients (wrap_u32 n.(v_clients)) $ CtlNode_set_NumUsers (wrap_u32 n.(v_users)) $
  CtlNode_set_NumChannels (wrap_u32 n.(v_channels)) $ CtlNode_set_NumSubs (wrap_u32 n.(v_subs)) $
  CtlNode_set_Uptime (wrap_u32 (now - n.(v_startedAt))) new_CtlNode.
Definition node_cmd (n : node_view) (now : Z) : pb_CtlCommand :=
  with_uid n.(v_uid) (CtlCommand_set_Node (Some (node_message n now)) new_CtlCommand).

(** [publishControl]: the bytes for the broker, and the node they are meant for
    (all when empty). *)
Definition publishControl (cmd : pb_CtlCommand) (nodeID : string) : outcome Empty_set (bytes * string) :=
  data ← EncodeCommand cmd; Ok (data, nodeID).

(** [pubNode]: the node files itself, which makes it publish nothing more, and
    publishes what it is. *)
Definition pubNode (n : node_view) (now : Z) (nodeID : string) (r : Registry.nodeRegistry) :
    Registry.nodeRegistry * outcome Empty_set (bytes * string) :=
  (fst (Registry.nodeRegistry_add now (node_of (node_message n now)) r), publishControl (node_cmd n now) nodeID).

(** [nodeCmd]: a node that is new is told of this one. *)
Definition nodeCmd (n : node_view) (now : Z) (node : Registry.NodeMsg) (r : Registry.nodeRegistry) :
    Registry.nodeRegistry * option (outcome Empty_set (bytes * string)) :=
  let '(r, isNewNode) := Registry.nodeRegistry_add now node r in
  if isNewNode && negb (bool_decide (node.(Registry.Uid) = n.(v_uid))) then
    let '(r, p) := pubNode n now node.(Registry.Uid) r in (r, Some p)
  else (r, None).

Definition shutdownCmd (uid : string) (r : Registry.nodeRegistry) : Registry.nodeRegistry :=
  Registry.nodeRegistry_remove uid r.

(** [handleControl] on what arrived. *)
Definition handle_data (n_uid : string) (data : bytes) : outcome vt_error control_action :=
  cmd ← DecodeCommand data; Ok (handleControl n_uid (of_ctl cmd)).

(** A control action on the registry of a node: the state after it and what is
    published. *)
Definition control_registry (n : node_view) (now : Z) (a : control_action) (r : Registry.nodeRegistry) :
    Registry.nodeRegistry * option (outcome Empty_set (bytes * string)) :=
  match a with
  | ActNode node => nodeCmd n now node r
  | ActShutdown uid => (shutdownCmd uid r, None)
  | ActCall _ | ActNone => (r, None)
  end.
Definition receive (n : node_view) (now : Z) (data : bytes) (r : Registry.nodeRegistry) :
    Registry.nodeRegistry * option (outcome Empty_set (bytes * string)) :=
  match handle_data n.(v_uid) data with
  | Ok a => control_registry n now a r
  | Err _ | Panic _ => (r, None)
  end.

(** ** A command survives the wire *)

Lemma str_norm_raw r : str (default [] (norm_raw r)) = str (default [] r).
Proof. by destruct r as [[|]|]. Qed.

Lemma items_reverse (l : list (bytes * Z)) :
  NoDup l.*1 -> (list_to_map (prod_map str id <$> reverse l) : gmap string Z) = list_to_map (prod_map str id <$> l).
Proof.
  intros Hnd. symmetry. apply list_to_map_proper.
  - rewrite <- list_fmap_compose. change (fst ∘ prod_map str id) with (str ∘ (fst : bytes * Z -> bytes)).
    rewrite list_fmap_compose. apply NoDup_fmap_2; [|done]. intros a b E.
    by rewrite <- (String.list_byte_of_string_of_list_byte a), <- (String.list_byte_of_string_of_list_byte b), E.
  - apply fmap_Permutation. by rewrite reverse_Permutation.
Qed.

Lemma node_of_norm m : typed_CtlNode m -> node_of (norm_CtlNode m) = node_of m.
Proof.
  intros (_ & _ & _ & _ & H & _). unfold node_of, norm_CtlNode; cbn. rewrite str_norm_raw. f_equal.
  destruct (CtlNode_Metrics m) as [x|]; [|done]. simpl. f_equal. apply items_reverse. by destruct H as (_ & ? & _).
Qed.

(** A reader cannot tell what it gets from what was sent. *)
Lemma of_ctl_norm m : typed_CtlCommand m -> of_ctl (norm_CtlCommand m) = of_ctl m.
Proof.
  intros H. red in H. destruct_and?. unfold of_ctl, norm_CtlCommand; cbn. f_equal.
  - destruct (CtlCommand_Node m); [|done]. simpl. f_equal. by apply node_of_norm.
  - by destruct (CtlCommand_Shutdown m).
  - by destruct (CtlCommand_Unsubscribe m).
  - destruct (CtlCommand_Subscribe m); [|done]. simpl. by rewrite !str_norm_raw.
  - by destruct (CtlCommand_Disconnect m).
  - destruct (CtlCommand_Refresh m); [|done]. simpl. by rewrite !str_norm_raw.
Qed.

(** A command as a Go program builds it, short enough for a slice. *)
Definition sendable (m : pb_CtlCommand) : Prop :=
  typed_CtlCommand m /\ known_CtlCommand m /\ zlen (vt_CtlCommand m) < 2 ^ 63.

Lemma encode_sendable m : sendable m -> EncodeCommand m = Ok (vt_CtlCommand m).
Proof. intros (Ht & _ & Hl). apply marshal_ok; auto with vt. Qed.

Lemma handle_sendable other m : sendable m -> handle_data other (vt_CtlCommand m) = Ok (handleControl other (of_ctl m)).
Proof.
  intros (Ht & Hk & Hl). unfold handle_data, DecodeCommand. rewrite (CtlCommand_reads m Ht Hk Hl).
  change (mbind ?f (Ok ?a)) with (f a). cbv beta. by rewrite of_ctl_norm.
Qed.

(** [m] is published and does [a] on the node [other]. *)
Definition does (other : string) (m : pb_CtlCommand) (a : control_action) : Prop :=
  exists data, EncodeCommand m = Ok data /\ handle_data other data = Ok a.

Lemma does_intro other m a : sendable m -> handleControl other (of_ctl m) = a -> does other m a.
Proof.
  intros Hs <-. exists (vt_CtlCommand m). split; [by apply encode_sendable|by apply handle_sendable].
Qed.

Lemma str_lit_list (l : list string) : str <$> (lit <$> l) = l.
Proof. rewrite <- list_fmap_compose. rewrite <- (list_fmap_id l) at 2. apply list_fmap_ext. intros. apply str_lit. Qed.

(** The messages a node publishes are the commands of Control.v. *)
Lemma of_ctl_subscribe uid user ch o :
  0 <= o.(so_Source) < 256 -> of_ctl (subscribe_cmd uid user ch o) = pubSubscribe uid user ch o.
Proof. intros Hs. unfold of_ctl, pubSubscribe; cbn. rewrite !str_lit. unfold wrap_u32. by rewrite Z.mod_small by lia. Qed.
Lemma of_ctl_refresh uid user o : of_ctl (refresh_cmd uid user o) = pubRefresh uid user o.
Proof. unfold of_ctl, pubRefresh; cbn. by rewrite !str_lit. Qed.
Lemma of_ctl_unsubscribe uid user ch u c s : of_ctl (unsubscribe_cmd uid user ch u c s) = pubUnsubscribe uid user ch u c s.
Proof. unfold of_ctl, pubUnsubscribe; cbn. by rewrite !str_lit. Qed.
Lemma of_ctl_disconnect uid user d c w : of_ctl (disconnect_cmd uid user d c w) = pubDisconnect uid user d c w.
Proof. unfold of_ctl, pubDisconnect; cbn. by rewrite !str_lit, str_lit_list. Qed.

(** C12: a server-side operation on a user crosses the cluster as bytes: the node
    encodes its command with the protobuf codec, and every other node that
    decodes it makes the same call on its own connections.  Unsubscribe (whose
    call takes no session on the sending node either) and disconnect are the same
    call exactly.  Refresh and subscribe are called for the same user and client,
    but with options that have lost their own client and, for refresh, session
    field, and subscribe also the role, which the message has no field for.  The
    sender ignores each of the four messages when the broker hands it back. *)
Theorem control_crosses_the_wire uid other user ch so uns uc us dis dc dw ro :
  uid <> other -> 0 <= so.(so_Source) < 256 ->
  sendable (subscribe_cmd uid user ch so) -> sendable (refresh_cmd uid user ro) ->
  sendable (unsubscribe_cmd uid user ch uns uc us) -> sendable (disconnect_cmd uid user dis dc dw) ->
  does other (unsubscribe_cmd uid user ch uns uc us) (ActCall (CallUnsubscribe user ch uns uc)) /\
  does other (disconnect_cmd uid user dis dc dw) (ActCall (CallDisconnect user dis dc dw)) /\
  does other (refresh_cmd uid user ro) (ActCall (CallRefresh user ro.(ro_clientID)
    (mkRefreshOptions ro.(ro_Expired) ro.(ro_ExpireAt) ro.(ro_Info) "" ""))) /\
  does other (subscribe_cmd uid user ch so) (ActCall (CallSubscribe user ch so.(so_clientID)
    (mkSubscribeOptions so.(so_ExpireAt) so.(so_ChannelInfo) so.(so_EmitPresence) so.(so_EmitJoinLeave)
       so.(so_PushJoinLeave) so.(so_Data) "" so.(so_Source) 0))) /\
  Forall (fun cmd => does uid cmd ActNone)
    [subscribe_cmd uid user ch so; refresh_cmd uid user ro; unsubscribe_cmd uid user ch uns uc us;
     disconnect_cmd uid user dis dc dw].
Proof.
  intros Hne Hsrc Hs Hr Hu Hd. unfold handleControl.
  rewrite !Forall_cons, Forall_nil. split_and!; try done; apply does_intro; try done;
    rewrite ?of_ctl_subscribe, ?of_ctl_refresh, ?of_ctl_unsubscribe, ?of_ctl_disconnect by done;
    unfold handleControl; cbn; rewrite ?(bool_decide_false (uid = other)), ?(bool_decide_true (uid = uid)) by done;
    [by destruct uns|by destruct dis|done|unfold u8; by rewrite Z.mod_small|done..].
Qed.

Lemma control_crosses_the_wire_witness :
  does "n2" (disconnect_cmd "n1" "u" DisconnectForceNoReconnect "" ["c1"; "c2"])
    (ActCall (CallDisconnect "u" DisconnectForceNoReconnect "" ["c1"; "c2"])) /\
  does "n2" (subscribe_cmd "n1" "u" "ch" (WithExpireAt (-5) (WithEmitPresence true zero_subscribe)))
    (ActCall (CallSubscribe "u" "ch" "" (mkSubscribeOptions (-5) "" true false false "" "" 0 0))).
Proof.
  pose proof (control_crosses_the_wire "n1" "n2" "u" "ch" (WithExpireAt (-5) (WithEmitPresence true zero_subscribe))
    unsubscribeServer "" "" DisconnectForceNoReconnect "" ["c1"; "c2"] zero_refresh) as H.
  destruct H as (_ & Hd & _ & Hs & _); [discriminate|vm_compute; split; [discriminate|reflexivity]| | | | |split; [exact Hd|exact Hs]];
    repeat split; try discriminate; vm_compute; reflexivity.
Defined.

(** ** How nodes find each other *)

Lemma wrap_u32_is_u32 z : is_u32 (wrap_u32 z).
Proof. unfold is_u32, wrap_u32. mod_lia. Qed.

Lemma node_cmd_typed n now : typed_CtlCommand (node_cmd n now) /\ known_CtlCommand (node_cmd n now).
Proof. repeat split; apply wrap_u32_is_u32. Qed.

Lemma of_ctl_node n now other :
  n.(v_uid) <> other -> handleControl other (of_ctl (node_cmd n now)) = ActNode (node_of (node_message n now)).
Proof. intros H. unfold handleControl; cbn. rewrite str_lit. by rewrite bool_decide_false. Qed.

Definition announces (n : node_view) (now : Z) : Prop := zlen (vt_CtlCommand (node_cmd n now)) < 2 ^ 63.

Lemma announces_sendable n now : announces n now -> sendable (node_cmd n now).
Proof. intros H. destruct (node_cmd_typed n now). by split. Qed.

Lemma publish_node n now nodeID :
  announces n now -> publishControl (node_cmd n now) nodeID = Ok (vt_CtlCommand (node_cmd n now), nodeID).
Proof. intros H. unfold publishControl. by rewrite encode_sendable by (by apply announces_sendable). Qed.

(** Receiving the announcement of another node. *)
Lemma receive_node n now m then_ r :
  announces m then_ -> n.(v_uid) <> m.(v_uid) ->
  receive n now (vt_CtlCommand (node_cmd m then_)) r = nodeCmd n now (node_of (node_message m then_)) r.
Proof.
  intros Ha Hne. unfold receive. rewrite handle_sendable by (by apply announces_sendable).
  by rewrite of_ctl_node by done.
Qed.

Lemma add_known now node r :
  is_Some ((fst (Registry.nodeRegistry_add now node r)).(Registry.nodes) !! node.(Registry.Uid)).
Proof.
  unfold Registry.nodeRegistry_add. destruct (Registry.nodes r !! _) as [x|];
    [destruct (Registry.Metrics node)|]; simpl; rewrite lookup_insert_eq; by eexists.
Qed.

Lemma add_other now node r uid :
  uid <> node.(Registry.Uid) ->
  (fst (Registry.nodeRegistry_add now node r)).(Registry.nodes) !! uid = r.(Registry.nodes) !! uid.
Proof.
  intros H. unfold Registry.nodeRegistry_add. destruct (Registry.nodes r !! _) as [x|];
    [destruct (Registry.Metrics node)|]; simpl; by rewrite lookup_insert_ne.
Qed.

Lemma add_isNew now node r :
  snd (Registry.nodeRegistry_add now node r) = bool_decide (Registry.nodes r !! node.(Registry.Uid) = None).
Proof.
  unfold Registry.nodeRegistry_add. destruct (Registry.nodes r !! _) as [x|]; [destruct (Registry.Metrics node)|]; done.
Qed.

Definition knows (r : Registry.nodeRegistry) (uid : string) : Prop := is_Some (r.(Registry.nodes) !! uid).

(** A node that is told of another one knows it afterwards, and itself if it
    did before or had to answer; it answers exactly when the other was new. *)
Lemma nodeCmd_spec n now m then_ r r' p :
  n.(v_uid) <> m.(v_uid) -> announces n now -> nodeCmd n now (node_of (node_message m then_)) r = (r', p) ->
  knows r' m.(v_uid) /\ (forall uid, knows r uid -> knows r' uid) /\
  p = (if decide (Registry.nodes r !! m.(v_uid) = None)
       then Some (Ok (vt_CtlCommand (node_cmd n now), m.(v_uid))) else None).
Proof.
  intros Hne Ha. unfold nodeCmd. set (node := node_of (node_message m then_)).
  assert (Hu : Registry.Uid node = m.(v_uid)) by (unfold node, node_of; simpl; apply str_lit). clearbody node.
  assert (Hmono : forall now x r uid, knows r uid -> knows (fst (Registry.nodeRegistry_add now x r)) uid).
  { intros now' x r0 uid H. unfold knows. destruct (decide (uid = Registry.Uid x)) as [->|Hx]; [apply add_known|by rewrite add_other]. }
  pose proof (add_isNew now node r) as Hnew. pose proof (add_known now node r) as Hk. pose proof (Hmono now node r) as Hm.
  destruct (Registry.nodeRegistry_add now node r) as [r1 b]. simpl in Hnew, Hk, Hm. subst b. rewrite Hu in *.
  rewrite (bool_decide_false (m.(v_uid) = n.(v_uid))) by congruence. rewrite andb_true_r.
  destruct (decide _) as [E|E]; [rewrite bool_decide_true by done|rewrite bool_decide_false by done].
  - unfold pubNode. rewrite publish_node by done. cbv beta iota. intros H. injection H as <- <-. split_and!; [by apply Hmono| |done].
    intros uid H. by apply Hmono, Hm.
  - intros [= <- <-]. done.
Qed.

(** C13: nodes find each other and then fall silent: when a node announces itself,
    a node that does not know it files it and answers it with what it is itself;
    the first files the answer, and the exchange ends there when it was already
    known to it or otherwise after one more message, which nobody answers. *)
Theorem nodes_find_each_other a b now ra rb :
  a.(v_uid) <> b.(v_uid) -> announces a now -> announces b now ->
  rb.(Registry.nodes) !! a.(v_uid) = None ->
  exists ra1 data rb1,
    pubNode a now "" ra = (ra1, Ok (data, "")) /\
    exists answer, receive b now data rb = (rb1, Some (Ok (answer, a.(v_uid)))) /\ knows rb1 a.(v_uid) /\
    exists ra2 p, receive a now answer ra1 = (ra2, p) /\ knows ra2 b.(v_uid) /\
      (knows ra1 b.(v_uid) -> p = None) /\
      (~ knows ra1 b.(v_uid) -> exists data', p = Some (Ok (data', b.(v_uid))) /\ snd (receive b now data' rb1) = None).
Proof.
  intros Hne Ha Hb Hnew.
  destruct (nodeCmd b now (node_of (node_message a now)) rb) as [rb1 p1] eqn:E1.
  destruct (nodeCmd_spec b now a now rb rb1 p1 ltac:(congruence) Hb E1) as (Hk1 & _ & ->).
  rewrite decide_True in E1 by done.
  eexists _, _, rb1. split; [unfold pubNode; rewrite publish_node by done; reflexivity|].
  eexists. rewrite receive_node by done. split; [exact E1|]. split; [done|].
  set (ra1 := fst _).
  destruct (nodeCmd a now (node_of (node_message b now)) ra1) as [ra2 p2] eqn:E2.
  exists ra2, p2. rewrite receive_node by done. split; [done|].
  destruct (nodeCmd_spec a now b now ra1 ra2 p2 Hne Ha E2) as (Hk2 & _ & ->). split; [done|].
  destruct (decide (Registry.nodes ra1 !! v_uid b = None)) as [E|E].
  - split; [intros Hx; destruct Hx; congruence|]. intros _. eexists. split; [done|]. rewrite receive_node by congruence.
    destruct (nodeCmd b now (node_of (node_message a now)) rb1) as [rb2 p3] eqn:E3.
    destruct (nodeCmd_spec b now a now rb1 rb2 p3 ltac:(congruence) Hb E3) as (_ & _ & ->).
    destruct Hk1 as [x Hx]. by rewrite decide_False by (by rewrite Hx).
  - split; [done|]. intros H. destruct H. by apply not_eq_None_Some.
Qed.

Definition node_a : node_view := mkView "a" "alpha" "1" 3 2 1 4 100.
Definition node_b : node_view := mkView "b" "beta" "1" 0 0 0 0 50.

Lemma nodes_find_each_other_witness :
  exists ra1 data rb1,
    pubNode node_a 160 "" (Registry.newNodeRegistry "a") = (ra1, Ok (data, "")) /\
    exists answer, receive node_b 160 data (Registry.newNodeRegistry "b") = (rb1, Some (Ok (answer, "a"))) /\ knows rb1 "a".
Proof.
  destruct (nodes_find_each_other node_a node_b 160 (Registry.newNodeRegistry "a") (Registry.newNodeRegistry "b"))
    as (ra1 & data & rb1 & H1 & answer & H2 & H3 & _); [discriminate|reflexivity|reflexivity|reflexivity|].
  exists ra1, data, rb1. split; [exact H1|]. exists answer. split; [exact H2|exact H3].
Defined.

(** Whatever arrives, a node handles it or refuses it. *)
Lemma handle_data_total n_uid data : zlen data < 2 ^ 63 -> reads_or_refuses (handle_data n_uid data).
Proof.
  intros Hl. unfold handle_data, DecodeCommand. pose proof (CtlCommand_fine data new_CtlCommand Hl) as H.
  destruct (CtlCommand_UnmarshalVT data new_CtlCommand) as [m|e|p]; simpl in H; [left; by eexists|right; by exists e|done].
Qed.
